(* ===== verification/_CoqProject ===== *)
-Q . S2P
Prelude.v
Mpi.v
Distribution.v
Nonoverlapping.v
Inefficient.v
Halo.v
PairOfDistributions.v
Replica.v
DistributionUtils.v
Selection.v
VarAttrStore.v
ObsTypes.v
ObsAttributes.v
ObsVariables.v
ObsGroups.v
ObsFrame.v
ObsFrameRead.v
ObsFrameReadSpec.v
ObsSpaceInit.v
ObsSpaceSource.v
ObsRecords.v
ObsSpaceVars.v
ObsExtend.v
ObsExtendSpec.v
ObsVector.v
ObsDataVector.v
OdbData.v
OdbVariables.v
OdbDataSpec.v
OdbVarnoSpec.v
OdbTruncateSpec.v
OdbSpec.v
OdbOpen.v
OdbOpenSpec.v
OdbWrite.v
OdbWriteSpec.v
OdbCreateSpec.v
OdbLayout.v
OdbLayoutSpec.v
OdbLayoutNames.v
IoPool.v
WriterTransfer.v
VarUtils.v
VarUtilsSpec.v
UpgradeV1V2.v
UpgradeV1V2Spec.v
UpgradeV1V2File.v
UpgradeCopySpec.v
UpgradeFileSpec.v
UpgradeV2V3.v
UpgradeV2V3Spec.v
Validate.v
ValidateSpec.v
Copying.v
CopyingSpec.v
OutputFiles.v
OutputFilesSpec.v
Generators.v
GeneratorsSpec.v
ObsSpaceNew.v
ObsSpaceNewSpec.v
ObsSpaceNewExtend.v
