(* ===== verification/Prelude.v ===== *)
(** ioda in Rocq: how observations are read, distributed over MPI ranks, kept in
    memory and written.

    ** The program

    ioda (src/src) gives a data-assimilation system its observations.  An
    ObsSpace is constructed on every MPI rank: the frame reader
    (io/ObsFrameRead.cc) reads the observation source in frames of bounded size,
    drops the locations outside the timing window, groups locations into records
    and asks the distribution (distribution/) which records this rank keeps; the
    ObsSpace (ObsSpace.cc) appends what is kept to its ObsGroup, whose variables
    live in the in-memory backend ObsStore (engines/ioda/.../ObsStore).  At the
    end a pool of ranks (engines/ioda/.../WriterPool.cpp, WriterUtils.cpp)
    collects the values of the patch locations and writes files.  Command-line
    programs upgrade files of older versions (engines/ioda/src/mains/upgrade)
    and validate files against naming conventions (mains/validator).

    ** The files

    - [Prelude]: the error monad [res] with [foldM], [mapR] and [imapR], lists,
      integers of machine width, permutations, tactics and hints.
    - [Mpi]: the collective operations used, as the class [MpiComm] on the values
      of all ranks with the laws [MpiLaws], and the point-to-point messages of the
      writer; [reference_comm] shows that the laws can hold.
    - [Distribution]: the interface of a distribution, its accumulators, and the
      contract [DistContract] that clients rely on: every location held anywhere
      is in exactly one patch, [allGatherv] lists each location once, the global
      unique index of a location is its position in that list, accumulators count
      each location once.
    - [Nonoverlapping] (NonoverlappingDistribution, RoundRobin,
      AtlasDistribution and ReplicaOfNonoverlappingDistribution), [Inefficient],
      [Halo], [PairOfDistributions], [Replica] (ReplicaOfGeneralDistribution): the
      data members of an object on one rank as a Record, [assignRecord],
      [isMyRecord] and [computePatchLocs] as functions, and the proof that all
      ranks together keep the contract.
    - [DistributionUtils]: dot products, counts and replicas on top of the
      interface.
    - [Selection], [VarAttrStore], [ObsTypes], [ObsAttributes], [ObsVariables],
      [ObsGroups]: the ObsStore backend. Selections with the counter that walks
      through them (Selection.cpp, ObsStore-selection.cpp), typed storage,
      data types, attributes, variables with dimensions, and the tree of groups.
      [Named] is the heap of shared objects with names that Attributes.cpp and
      Variables.cpp use, so that two names can share an object.
    - [IoPool], [WriterTransfer]: the writer pool on all ranks, and the exchange
      of the data of a variable ([calcVarStartsCounts], [selectPatchValues],
      [transferVarDataMPI]) up to the writes to the files.
    - [ObsFrame], [ObsFrameRead]: the selections of ObsFrame.cc and the frame
      reader: [frameInit], [frameAvailable], [frameNext], [readFrameVar] and all
      they call, on one rank.
    - [ObsFrameReadSpec]: the source as columns, well-formed sources
      ([source_ok]), which locations are kept, how they are numbered and
      distributed in one pass, and the proof that a frame adds its share.
    - [ObsSpaceInit]: [createObsGroupFromObsFrame], [createVariables],
      [readObsSource], [storeVar] and [initFromObsSource] of ObsSpace.cc, and the
      invariant of the loop over the frames.
    - [ObsRecords]: the index from records to locations, sorted or not, and the
      filling of companion records.
    - [ObsSpaceVars]: access to the variables of an ObsSpace by name: channel
      suffixes, channel selections, [has], [dtype], [loadVar], [saveVar] and
      [createMissingObsErrors].
    - [ObsExtend], [ObsExtendSpec]: [extendObsSpace] on all ranks, which composes
      ObsSpaces with [PairOfDistributions] and the replica distributions, and
      what it makes of the records, the variables and the distribution.
    - [ObsSpaceSource]: the theorems on ObsSpaces of one and of all ranks, and an
      example source.
    - [ObsSpaceNew], [ObsSpaceNewSpec], [ObsSpaceNewExtend]: the constructor of
      ObsSpace on all ranks, which composes the reader, the lists of variables,
      the index of the records, the channel numbers, the extension and the
      missing errors, with [ObsDimInfo]; and what it guarantees without and with
      an extension.
    - [ObsVector], [ObsDataVector]: the vectors over an ObsSpace (ObsVector.cc,
      ObsDataVector.h): their arithmetic with missing values, reductions over the
      distribution, masks, packing, reading and saving.
    - [OdbData], [OdbVariables]: the results of an ODB query (DataFromSQL.cpp):
      rows, locations, the truncation of profiles, and the variables made of
      them.  [OdbDataSpec], [OdbVarnoSpec], [OdbTruncateSpec] and [OdbSpec] hold
      their properties.
    - [OdbOpen], [OdbOpenSpec]: the query and mapping files and [openFile] of
      ODC.cpp, up to the renaming by the layout.
    - [OdbWrite], [OdbWriteSpec], [OdbCreateSpec]: [createFile] of ODC.cpp: the
      columns, header and rows of the file that is written for a group.
    - [OdbLayout], [OdbLayoutSpec], [OdbLayoutNames]: the layout policy of ODB
      files (Layout_ObsGroup_ODB.cpp), the functions of Has_Variables.cpp that
      go through it, StringFuncs.cpp and UnitConversions.cpp: names, stitching
      of complementary variables, and units.
    - [VarUtils], [VarUtilsSpec]: which variables of a file are dimension scales
      and which scale each axis has ([collectVarDimInfo] of VarUtils.cpp), over
      the interface [VariableBackend], with the lookup of Variable.cpp and the
      one of the HDF5 engine (HH-variables.cpp).
    - [UpgradeV1V2], [UpgradeV1V2File]: upgradev1v2.cpp: the grouping of channel
      variables, chunks, attributes, the copying of data, and [upgradeFile] as a
      function from a file to the file that is written.  [UpgradeV1V2Spec] (the
      groups), [UpgradeCopySpec] (the data) and [UpgradeFileSpec] (the file) hold
      their properties.
    - [UpgradeV2V3], [UpgradeV2V3Spec]: upgradev2v3.cpp: new names of dimensions
      and variables, channel numbers, dates, and the whole file ([upgradeFile3]).
    - [Validate], [ValidateSpec]: the validator (validate.cpp, AttributeChecks.cpp,
      Params.h, Log.cpp): every check as the list of its reports, the counts and
      the exit status.
    - [Copying], [CopyingSpec]: the copy of a group (Copying.cpp) and the
      structure of the file that [ioWriteGroup] of WriterUtils.cpp creates.
    - [OutputFiles], [OutputFilesSpec]: the names of output files (EngineUtils.cpp)
      and WriteH5File.cpp, whose second pass the ranks run as concurrent steps on
      a file system ([post_step]).
    - [Generators], [GeneratorsSpec]: GenList.cpp and GenRandom.cpp, which make the
      source of the frame reader without a file.

    ** What the theorems show

    - Distributions: each kind keeps [DistContract] after [computePatchLocs]
      ([halo_contract], [replica_of_general_contract],
      [pair_of_nonoverlapping_contract], [roundrobin_contract], [atlas_contract],
      [replica_of_nonoverlapping_contract]); the utilities count every location
      once.
    - Storage: selections are walked completely and in order, writes change the
      selected elements only, and what was written is read back through the
      backend; resizing, creation and renaming of variables, attributes and
      groups behave as stated on every branch, errors included.
    - Reading: [initFromObsSource] terminates and equals one pass over the whole
      source ([reader_tally], [obsspace_contents], [frame_size_irrelevant]);
      record numbers are the groups of equal keys ([records_are_groups]); with
      RoundRobin, Atlas and Halo the ObsSpaces of all ranks satisfy the contract
      of their distribution ([roundrobin_obsspaces], [atlas_obsspaces],
      [halo_obsspaces]).  The distributions meet the reader through the class
      [ReaderDistLaws].
    - Access: what is saved is loaded back, for whole variables and for slices
      of channels ([put_then_get], [put_then_get_channel], [load_channels]).
    - Vectors: every program on vectors computes, location by location, what it
      computes on the global vector ([vector_programs]); what is saved is read back
      ([vector_save_read], [data_vector_roundtrip]), and random perturbations are
      equal on all ranks ([random_perturbations]).
    - ODB files: which rows of a query make the values of a location and of a
      varno, for the obsgroups without special treatment
      ([odb_location_variables], [odb_varno_variables],
      [profiles_truncated]); which columns are asked for and how mappings are
      checked ([query_asks_for_columns], [mappings_as_declared]); the whole file
      that is written for a group, with the cells as the code encodes them
      ([created_file], [strings_written]); the names,
      complementary variables and units of the layout
      ([layout_of_mapping_file], [complementary_stitched],
      [paths_converted], [units_converted]).
    - Records and extension: the index of records ([sorted_records],
      [records_partition]) and the ObsSpaces after the extension with companion
      locations ([extended_spaces], [extended_variables]).
    - Construction: all steps together succeed on all ranks and leave an ObsSpace
      whose parts fit ([obsspace_constructed], and with an extension and
      RoundRobin [extended_obsspace_constructed]); simulated variables that are
      neither observed nor derived are refused ([unobserved_variable_refused]).
    - Writing: the values of all patch locations reach the files exactly once, in
      the order of the ranks, whatever the order of concurrent writes
      ([writer_pool_collects], [writer_pool_collects_strings],
      [writer_pool_groups]); the file around them, after the second pass, has the
      groups and variables of the ObsGroup ([saved_file]), under names of its own
      ([output_names_distinct]) and whatever the order of the ranks and the
      number of time slots ([post_completes]).
    - Generated observations: a generator makes a well-formed source, the same on
      all ranks, that the frame reader keeps ([listed_observations],
      [random_observations]).
    - Programs on files: one pass finds the scales and variables of a file
      ([var_dim_info_collected], [preferential_sort]), and the HDF5 engine finds
      the scales that the references of a dimension point to ([HH_scales_found]);
      numeric channel variables are grouped and their data put together
      ([similar_variables_grouped], [channels_copied], [strings_repacked],
      [chunk_sizes]); the upgraded files hold the variables of the old ones,
      with arrays of characters as strings
      ([upgrade_keeps_variables], [upgrade3_keeps_variables],
      [naming_conventions]); the validator returns the number of issues, which is
      zero exactly for the files that conform
      ([validator_accepts_iff], [paths_round_trip]).
    - Some theorems state behaviour that differs from what the code intends, for
      example [point_selection_indices], [pair_of_halo_index_collision],
      [resize_inner_dimension_moves_data], [unset_fill_drops_equator],
      [empty_source_with_channels_throws], [search_goes_on],
      [written_dates_are_wrong], [written_flags_collide], the second part of
      [units_converted], [single_variable_is_lost], [channel_strings_garbled],
      [unused_channels_throw], [preferred_name_reported],
      [missing_attributes_accepted], [exit_status_wraps],
      the case of several time slots in [post_completes],
      [scalar_variable_undefined],
      [sort_by_channel_throws], [derived_alone_asserts] and
      [derived_dates_unreadable].

    ** Conventions

    Exceptions and failed assertions are [Throw]; [EUndefined] is undefined
    behaviour (an index out of range).  Integers are Z with [u64], [i64] and
    [i32] written where the code's width matters, and nat for sizes that are
    bounded by a container.  Functions that loop in a way that is not structural
    take fuel, and the theorems give an amount that is enough: the number of
    points of a selection, the length of a path, the number of groups, for
    the frames the size of the largest first dimension [maxVarSize0] (a frame
    advances by at least one), and for the chunk sizes of an upgrade the sum of
    the logarithms of the dimensions ([chunk_fuel]: each step halves one of them).

    Parameters, with their laws as classes: MPI ([MpiComm], [MpiLaws]), doubles
    and their order ([Double], [DoubleLaws]), numbers that are accumulated
    ([Num]), single-precision floats ([FloatOps]), dates ([DateTimeOps]), missing
    values ([MissingValues]), the distance of two points, the locator of a mesh,
    and files as sets of written hyperslabs; for vectors the arithmetic of
    doubles ([DoubleArith], [FloatDouble]) and the lists of names [Variables],
    with their channels [VariableLists];
    for ODB files the conversions of doubles ([OdbDouble], [OdbWriteDouble]), the
    result of odc::Select as an argument, the values of a new row of odc::Writer,
    and the arithmetic of units ([UnitDouble]).  The calendar of the C library
    ([timegm]) is written out.  For the programs on files: the variables of an
    output file, written through selections ([OutputFile], [OutputLaws]), the
    values that an upgrade converts ([UpgradeValues]) and the udunits library
    ([UnitsOps]); for the generators the arithmetic of floats and the uniform
    distribution ([GenFloat], [GeneratorLaws]).

    ** Not modelled

    The HDF5 engine but for its lookup of scales (it calls the HDF5 library; its
    result, a group of variables, is an input here); the factories of readers and
    writers; attributes and coordinate values of dimension scales in the frame and
    in the ObsSpace; the parsing of the "units" attribute by the frame reader;
    YAML files, whose contents are records here; the renaming of variables while
    [openFile] creates them; variables without dimension scales in the
    stitching; the C, Fortran and Python interfaces; the timing programs; the
    messages of the programs on files and their parsing of YAML.  The upgrade of a
    whole file is stated without the grouping of channels; the grouping and the
    copying of groups have theorems of their own.

    Channel numbers (the coordinate values of the Channel scale) are an argument
    of the access functions and of the constructor.

    Left of the plan: [save] of ObsSpace, which hands the group to the writers,
    the extension of ObsSpaces with an overlapping distribution, and the renaming
    by the layout inside [openFile].  Of the reader pool the sources have the
    interface only: its functions are empty. *)
From stdpp Require Import base list sorting gmap strings.

Declare Scope ioda_scope.
Delimit Scope ioda_scope with ioda.

(** * Results of fallible code *)

(** The ways a call ends without a value: a failed [ASSERT], an exception of
    the library ([ioda::Exception], [eckit::UserError], ...), an exception of
    the C++ standard library ([std::out_of_range] of a checked access,
    [std::invalid_argument], [gsl::narrowing_error], ...), undefined behaviour
    (an unchecked access outside a vector), and a loop that does not end within
    the fuel it is given. *)
Inductive Err :=
  | EAssert
  | EException (msg : string)
  | EUserError (msg : string)
  | ENotImplemented
  | EOutOfRange
  | EInvalidArgument
  | ENarrowing
  | EUndefined
  | EFuel.

Inductive res (A : Type) :=
  | Ok (a : A)
  | Throw (e : Err).
Arguments Ok {A} a.
Arguments Throw {A} e.

#[export] Instance Err_eq_dec : EqDecision Err.
Proof. solve_decision. Defined.

#[export] Instance res_ret : MRet res := fun A a => Ok a.
#[export] Instance res_bind : MBind res := fun A B f m =>
  match m with Ok a => f a | Throw e => Throw e end.
#[export] Instance res_fmap : FMap res := fun A B f m =>
  match m with Ok a => Ok (f a) | Throw e => Throw e end.

(** [ASSERT(b)] *)
Definition assert (b : bool) : res unit := if b then Ok () else Throw EAssert.

(** [v[i]] of a [std::vector] (unchecked) and [v.at(i)] (checked). *)
Definition vec_get {A} (l : list A) (i : nat) : res A :=
  match l !! i with Some x => Ok x | None => Throw EUndefined end.
Definition vec_at {A} (l : list A) (i : nat) : res A :=
  match l !! i with Some x => Ok x | None => Throw EOutOfRange end.

(** [v[i] = x] and [v.at(i) = x]. *)
Definition vec_set {A} (l : list A) (i : nat) (x : A) : res (list A) :=
  if decide (i < length l) then Ok (<[i := x]> l) else Throw EUndefined.
Definition vec_at_set {A} (l : list A) (i : nat) (x : A) : res (list A) :=
  if decide (i < length l) then Ok (<[i := x]> l) else Throw EOutOfRange.

(** [v.resize(n, x)] *)
Definition vec_resize {A} (n : nat) (x : A) (l : list A) : list A :=
  take n l ++ replicate (n - length l) x.

(** A loop whose body may throw. *)
Fixpoint foldM {A S} (f : S -> A -> res S) (s : S) (l : list A) : res S :=
  match l with
  | [] => Ok s
  | x :: l => s' ← f s x; foldM f s' l
  end.

(** Running a fallible computation on every element, in order. *)
Fixpoint mapR {A B} (f : A -> res B) (l : list A) : res (list B) :=
  match l with
  | [] => Ok []
  | x :: l => y ← f x; ys ← mapR f l; Ok (y :: ys)
  end.

(** The same for a computation that is given its position (its MPI rank). *)
Fixpoint imapR_go {A B} (f : nat -> A -> res B) (n : nat) (l : list A) : res (list B) :=
  match l with
  | [] => Ok []
  | x :: l => y ← f n x; ys ← imapR_go f (S n) l; Ok (y :: ys)
  end.
Definition imapR {A B} (f : nat -> A -> res B) (l : list A) : res (list B) := imapR_go f 0 l.

(** Decide the [if decide] and [match] of the goal, then discharge what is
    left with the definitions' facts. *)
Ltac inv_res :=
  repeat match goal with
  | H : Ok _ = Ok _ |- _ => inversion H; clear H; subst
  | H : Throw _ = Ok _ |- _ => discriminate H
  | H : Ok _ = Throw _ |- _ => discriminate H
  | H : Throw _ = Throw _ |- _ => inversion H; clear H; subst
  end.

Lemma res_bind_Ok {A B} (m : res A) (f : A -> res B) b :
  m ≫= f = Ok b <-> exists a, m = Ok a /\ f a = Ok b.
Proof. split; [destruct m; naive_solver | by intros (a & -> & H)]. Qed.

Lemma assert_Ok b u : assert b = Ok u -> b = true.
Proof. by destruct b. Qed.

Ltac res_step :=
  match goal with
  | H : (_ ≫= _) = Ok _ |- _ =>
      apply res_bind_Ok in H; let a := fresh "a" in let H1 := fresh "Hr" in
      destruct H as [a [H1 H]]
  | H : assert ?b = Ok _ |- _ => apply assert_Ok in H
  end.

Lemma vec_get_Some {A} (l : list A) i x : l !! i = Some x -> vec_get l i = Ok x.
Proof. by unfold vec_get; intros ->. Qed.
Lemma vec_get_Ok {A} (l : list A) i x : vec_get l i = Ok x -> l !! i = Some x.
Proof. unfold vec_get; destruct (l !! i); intros; by inv_res. Qed.
Lemma vec_set_lt {A} (l : list A) i x : i < length l -> vec_set l i x = Ok (<[i:=x]> l).
Proof. intros. unfold vec_set. by rewrite decide_True. Qed.
Lemma vec_at_set_lt {A} (l : list A) i x : i < length l -> vec_at_set l i x = Ok (<[i:=x]> l).
Proof. intros. unfold vec_at_set. by rewrite decide_True. Qed.

Lemma vec_get_middle {A} (l1 l2 : list A) x n : n = length l1 -> vec_get (l1 ++ x :: l2) n = Ok x.
Proof. intros ->. by apply vec_get_Some, list_lookup_middle. Qed.
Lemma vec_set_middle {A} (l1 l2 : list A) x y n :
  n = length l1 -> vec_set (l1 ++ x :: l2) n y = Ok (l1 ++ y :: l2).
Proof.
  intros ->. rewrite vec_set_lt by (rewrite length_app; simpl; lia). f_equal.
  replace (length l1) with (length l1 + 0) by lia. by rewrite insert_app_r.
Qed.

Lemma foldM_app {A S} (f : S -> A -> res S) s l1 l2 :
  foldM f s (l1 ++ l2) = foldM f s l1 ≫= fun s' => foldM f s' l2.
Proof. revert s. induction l1; intros; simpl; [done|]. destruct (f s a); simpl; auto. Qed.

Lemma foldM_Ok {A S} (f : S -> A -> res S) (g : S -> A -> S) (I : S -> Prop) s l :
  I s ->
  (forall s x, I s -> x ∈ l -> f s x = Ok (g s x) /\ I (g s x)) ->
  foldM f s l = Ok (foldl g s l).
Proof.
  revert s. induction l as [|x l IH]; intros s Hs Hf; simpl; [done|].
  destruct (Hf s x Hs) as [-> HI]; [left|]. simpl. apply IH; [done|].
  intros s' y Hs' Hy. apply Hf; [done|by right].
Qed.

(** An invariant of a throwing loop: the invariant is indexed by the part of
    the input already consumed. *)
Lemma foldM_ind {A S} (f : S -> A -> res S) (I : list A -> S -> Prop) s l :
  I [] s ->
  (forall done x s, I done s -> done ++ [x] `prefix_of` l ->
     exists s', f s x = Ok s' /\ I (done ++ [x]) s') ->
  exists s', foldM f s l = Ok s' /\ I l s'.
Proof.
  intros H0 Hstep.
  cut (forall done rest s, done ++ rest = l -> I done s ->
         exists s', foldM f s rest = Ok s' /\ I l s').
  { intros H. by apply (H [] l s). }
  intros done rest. revert done. induction rest as [|x rest IH]; intros don s1 Hl HI.
  - rewrite app_nil_r in Hl. subst. by exists s1.
  - destruct (Hstep don x s1 HI) as (s2 & Hf & HI2).
    { exists rest. rewrite <- Hl. by rewrite <- app_assoc. }
    simpl. rewrite Hf. simpl. apply (IH (don ++ [x])); [|done].
    by rewrite <- app_assoc.
Qed.

Lemma mapR_Ok {A B} (f : A -> res B) (g : A -> B) l :
  (forall x, x ∈ l -> f x = Ok (g x)) -> mapR f l = Ok (map g l).
Proof.
  induction l as [|x l IH]; intros Hf; simpl; [done|].
  rewrite (Hf x) by left. simpl. rewrite IH by (intros; apply Hf; by right). done.
Qed.

(** Filters that keep everything, and nothing. *)
Lemma filter_every {A} (P : A -> Prop) `{!forall x, Decision (P x)} (l : list A) : (forall x, x ∈ l -> P x) -> filter P l = l.
Proof. induction l as [|x l IH]; intros Hall; [done|]. rewrite filter_cons_True by (apply Hall; left). f_equal. apply IH. intros; apply Hall; by right. Qed.
Lemma filter_none {A} (P : A -> Prop) `{!forall x, Decision (P x)} (l : list A) : (forall x, x ∈ l -> ~ P x) -> filter P l = [].
Proof. induction l as [|x l IH]; intros Hall; [done|]. rewrite filter_cons_False by (apply Hall; left). apply IH. intros; apply Hall; by right. Qed.

Lemma mapR_map {A B C} (f : B -> res C) (g : A -> B) l :
  mapR f (map g l) = mapR (fun x => f (g x)) l.
Proof. induction l as [|x l IH]; simpl; [done|]. by rewrite IH. Qed.

Lemma imapR_Ok {A B} (f : nat -> A -> res B) (g : nat -> A -> B) l :
  (forall i x, l !! i = Some x -> f i x = Ok (g i x)) -> imapR f l = Ok (imap g l).
Proof.
  unfold imapR. cut (forall n, (forall i x, l !! i = Some x -> f (n + i) x = Ok (g (n + i) x)) ->
    imapR_go f n l = Ok (imap (fun i => g (n + i)) l)).
  { intros H Hf. rewrite (H 0); [done|]. intros. by apply Hf. }
  induction l as [|x l IH]; intros n Hf; simpl; [done|].
  rewrite <- (Nat.add_0_r n) at 1. rewrite (Hf 0 x) by done. simpl.
  rewrite (IH (S n)).
  - simpl. f_equal. f_equal. apply imap_ext. intros i y _. simpl. f_equal. lia.
  - intros i y Hy. replace (S n + i) with (n + S i) by lia. by apply Hf.
Qed.

(** Two computations that agree position by position. *)
Lemma imapR_ext2 {A A' B} (f : nat -> A -> res B) (f' : nat -> A' -> res B) l l' :
  length l = length l' ->
  (forall i x x', l !! i = Some x -> l' !! i = Some x' -> f i x = f' i x') -> imapR f l = imapR f' l'.
Proof.
  unfold imapR. cut (forall n, length l = length l' -> (forall i x x', l !! i = Some x ->
    l' !! i = Some x' -> f (n + i) x = f' (n + i) x') -> imapR_go f n l = imapR_go f' n l').
  { intros Hc. apply (Hc 0). }
  revert l'. induction l as [|x l IH]; intros [|x' l'] n Hl Hf; simplify_eq/=; [done|].
  pose proof (Hf 0 x x' eq_refl eq_refl) as E. rewrite Nat.add_0_r in E. rewrite E.
  rewrite (IH l' (S n)); [done..|]. intros i y y' Hy Hy'.
  replace (S n + i) with (n + S i) by lia. by apply Hf.
Qed.

(** A per-rank postcondition of a computation run on every rank. *)
Lemma imapR_spec {A B} (f : nat -> A -> res B) (Q : nat -> A -> B -> Prop) l :
  (forall i x, l !! i = Some x -> exists y, f i x = Ok y /\ Q i x y) ->
  exists ys, imapR f l = Ok ys /\ length ys = length l /\
    forall i x, l !! i = Some x -> exists y, ys !! i = Some y /\ Q i x y.
Proof.
  unfold imapR. cut (forall n, (forall i x, l !! i = Some x -> exists y, f (n + i) x = Ok y /\ Q (n + i) x y) ->
    exists ys, imapR_go f n l = Ok ys /\ length ys = length l /\
      forall i x, l !! i = Some x -> exists y, ys !! i = Some y /\ Q (n + i) x y).
  { intros H Hf. by apply (H 0). }
  induction l as [|x l IH]; intros n Hf; simpl; [by exists []|].
  destruct (Hf 0 x eq_refl) as (y & Hy & HQ). rewrite Nat.add_0_r in Hy, HQ. rewrite Hy. simpl.
  destruct (IH (S n)) as (ys & -> & Hlen & Hys).
  { intros i z Hz. replace (S n + i) with (n + S i) by lia. by apply Hf. }
  exists (y :: ys). split_and!; [done|by rewrite <- Hlen|].
  intros [|i] z Hz; simplify_eq/=.
  - exists y. by rewrite Nat.add_0_r.
  - replace (n + S i) with (S n + i) by lia. by apply Hys.
Qed.

(** What a successful run on every rank says of each rank. *)
Lemma imapR_Ok_lookup {A B} (f : nat -> A -> res B) l ys :
  imapR f l = Ok ys -> length ys = length l /\
    forall i x, l !! i = Some x -> exists y, ys !! i = Some y /\ f i x = Ok y.
Proof.
  unfold imapR. cut (forall n ys, imapR_go f n l = Ok ys -> length ys = length l /\
    forall i x, l !! i = Some x -> exists y, ys !! i = Some y /\ f (n + i) x = Ok y).
  { intros Hc Hl. apply (Hc 0 ys Hl). }
  clear ys. induction l as [|x l IH]; intros n ys Hl; simpl in Hl; [by inv_res|].
  repeat res_step. inv_res. destruct (IH _ _ Hr0) as [Hlen Hi]. split; [simpl; by rewrite Hlen|].
  intros [|i] z Hz; simplify_eq/=.
  - exists a. by rewrite Nat.add_0_r.
  - replace (n + S i) with (S n + i) by lia. by apply Hi.
Qed.

(** * Selecting the elements a mask marks *)

(** The elements of [l] at the positions where [m] is [true]; the loops
    [for (i...) if (mask[i]) out.push_back(x[i])]. *)
Fixpoint sel {A} (m : list bool) (l : list A) : list A :=
  match m, l with
  | b :: m, x :: l => if b then x :: sel m l else sel m l
  | _, _ => []
  end.

Lemma sel_map {A B} (f : A -> B) m l : sel m (map f l) = map f (sel m l).
Proof. revert l. induction m as [|[] m IH]; intros [|x l]; simpl; f_equal; auto. Qed.

Lemma sel_filter {A} (P : A -> bool) l : sel (map P l) l = List.filter P l.
Proof. induction l as [|x l IH]; simpl; [done|]. destruct (P x); by rewrite IH. Qed.

Lemma sel_replicate_true {A} (l : list A) : sel (replicate (length l) true) l = l.
Proof. induction l; simpl; f_equal; auto. Qed.

Lemma sel_replicate_false {A} n (l : list A) : sel (replicate n false) l = [].
Proof. revert l. induction n; intros [|x l]; simpl; auto. Qed.

Lemma sel_app {A} m1 m2 (l1 l2 : list A) :
  length m1 = length l1 -> sel (m1 ++ m2) (l1 ++ l2) = sel m1 l1 ++ sel m2 l2.
Proof.
  revert l1. induction m1 as [|[] m1 IH]; intros [|x l1] H; simplify_eq/=; [done|..];
    [f_equal|]; auto.
Qed.

(** * Sums in a commutative monoid: the type [T] of a template whose values are
      only added up *)

Class Num (T : Type) := { nzero : T; nplus : T -> T -> T }.
Class NumLaws (T : Type) `{Num T} := {
  nplus_assoc :: Assoc (=) nplus;
  nplus_comm :: Comm (=) nplus;
  nplus_0_l :: LeftId (=) nzero nplus
}.

Definition nsum {T} `{Num T} (l : list T) : T := foldr nplus nzero l.

#[export] Instance nat_Num : Num nat := {| nzero := 0; nplus := Nat.add |}.
#[export] Instance nat_NumLaws : NumLaws nat.
Proof. split; [intros ???; simpl; lia | intros ??; simpl; lia | done]. Qed.
#[export] Instance Z_Num : Num Z := {| nzero := 0%Z; nplus := Z.add |}.
#[export] Instance Z_NumLaws : NumLaws Z.
Proof. split; [intros ???; simpl; lia | intros ??; simpl; lia | intros ?; simpl; lia]. Qed.

Section nsum.
Context {T : Type} `{NumLaws T}.

Lemma nsum_app l1 l2 : nsum (l1 ++ l2) = nplus (nsum l1) (nsum l2).
Proof.
  induction l1 as [|x l1 IH]; simpl; [by rewrite (left_id _ nplus)|].
  rewrite IH. by rewrite (assoc nplus).
Qed.

Lemma nsum_concat ls : nsum (concat ls) = nsum (map nsum ls).
Proof. induction ls; simpl; [done|]. by rewrite nsum_app, IHls. Qed.

Lemma nsum_perm l1 l2 : l1 ≡ₚ l2 -> nsum l1 = nsum l2.
Proof.
  induction 1; simpl; [done|congruence| |congruence].
  by rewrite !(assoc nplus), (comm nplus y x).
Qed.

Lemma foldl_nplus a l : foldl nplus a l = nplus a (nsum l).
Proof.
  revert a. induction l as [|x l IH]; intros a; simpl.
  - by rewrite (comm nplus), (left_id _ nplus).
  - by rewrite IH, (assoc nplus).
Qed.
End nsum.

Lemma nsum_nat_cons (x : nat) l : nsum (x :: l) = x + nsum l.
Proof. done. Qed.

(** * Floating-point values that are only compared *)

(** [double] and [float] values are compared and never NaN where this class is
    used; values that compare equal are identified. *)
Class Double (D : Type) := { d_ltb : D -> D -> bool; d_inf : D }.
Class DoubleLaws (D : Type) `{Double D} := {
  d_ltb_irrefl : forall x, d_ltb x x = false;
  d_ltb_trans : forall x y z, d_ltb x y = true -> d_ltb y z = true -> d_ltb x z = true;
  d_ltb_total : forall x y, d_ltb x y = false -> d_ltb y x = false -> x = y;
  d_inf_top : forall x, d_ltb d_inf x = false
}.
Definition d_leb {D} `{Double D} (x y : D) : bool := negb (d_ltb y x).

(** An instance: the integers and a largest value. *)
#[export] Instance extZ_Double : Double (option Z) := {|
  d_ltb x y := match x, y with
    | Some a, Some b => (a <? b)%Z | Some _, None => true | None, _ => false end;
  d_inf := None
|}.
#[export] Instance extZ_DoubleLaws : DoubleLaws (option Z).
Proof.
  split; simpl.
  - intros [a|]; [apply Z.ltb_irrefl|done].
  - intros [a|] [b|] [c|]; try done. rewrite !Z.ltb_lt. lia.
  - intros [a|] [b|]; try done. rewrite !Z.ltb_ge. intros. f_equal. lia.
  - done.
Qed.

(** * Machine integers *)

(** Conversion to, and arithmetic in, [std::size_t]. *)
Definition u64 (z : Z) : Z := (z mod 2 ^ 64)%Z.

Lemma u64_small z : (0 <= z < 2 ^ 64)%Z -> u64 z = z.
Proof. apply Z.mod_small. Qed.

(** [int] and [int64_t] *)
Definition i32 (z : Z) : Z := ((z + 2 ^ 31) mod 2 ^ 32 - 2 ^ 31)%Z.
Definition i64 (z : Z) : Z := ((z + 2 ^ 63) mod 2 ^ 64 - 2 ^ 63)%Z.

Lemma i32_small z : (- 2 ^ 31 <= z < 2 ^ 31)%Z -> i32 z = z.
Proof. intros Hz. unfold i32. rewrite Z.mod_small by lia. lia. Qed.
Lemma i64_small z : (- 2 ^ 63 <= z < 2 ^ 63)%Z -> i64 z = z.
Proof. intros Hz. unfold i64. rewrite Z.mod_small by lia. lia. Qed.

(** [gsl::narrow<int>] of a [std::size_t]. *)
Definition narrow_int (z : Z) : res Z :=
  if decide (z < 2 ^ 31)%Z then Ok z else Throw ENarrowing.

(** * Positions in concatenated and filtered lists *)

(** Where an element of the [r]th list is in the concatenation. *)
Lemma lookup_concat_pos {A} (L : list (list A)) r l i x :
  L !! r = Some l -> l !! i = Some x ->
  concat L !! (nsum (take r (map length L)) + i) = Some x.
Proof.
  revert r. induction L as [|l0 L IH]; intros [|r] Hr Hi; simplify_eq/=.
  - by apply lookup_app_l_Some.
  - rewrite lookup_app_r by lia. rewrite <- (IH r) by done. f_equal. lia.
Qed.

(** Blocks of equal length. *)
Lemma length_concat_map_uniform {A B} (f : A -> list B) n l :
  (forall x, x ∈ l -> length (f x) = n) -> length (concat (map f l)) = length l * n.
Proof.
  induction l as [|x l IH]; intros Hf; simpl; [done|].
  rewrite length_app, Hf, IH; [done| |left]. intros y Hy. apply Hf. by right.
Qed.

Lemma lookup_concat_map_uniform {A B} (f : A -> list B) n l i x j y :
  (forall x, x ∈ l -> length (f x) = n) -> l !! i = Some x -> f x !! j = Some y ->
  concat (map f l) !! (i * n + j) = Some y.
Proof.
  revert i. induction l as [|x0 l IH]; intros [|i] Hf Hi Hj; simplify_eq/=.
  - by apply lookup_app_l_Some.
  - rewrite lookup_app_r by (rewrite Hf by left; lia). rewrite (Hf x0) by left.
    replace (n + i * n + j - n) with (i * n + j) by lia. apply IH; [|done..].
    intros z Hz. apply Hf. by right.
Qed.

(** * Strictly increasing lists of indices *)

Lemma StronglySorted_lt_NoDup (l : list nat) : StronglySorted lt l -> NoDup l.
Proof.
  induction 1 as [|x l Hs IH Hx]; constructor; [|done].
  intros Hin. rewrite list.Forall_forall in Hx. specialize (Hx _ Hin). lia.
Qed.

(** Two strictly increasing lists with the same elements are equal. *)
Lemma StronglySorted_lt_ext (l1 l2 : list nat) :
  StronglySorted lt l1 -> StronglySorted lt l2 -> (forall x, x ∈ l1 <-> x ∈ l2) -> l1 = l2.
Proof.
  intros H1 H2 He. apply (StronglySorted_unique_strong lt).
  - intros x y _ _ ??. lia.
  - done.
  - done.
  - apply NoDup_Permutation; auto using StronglySorted_lt_NoDup.
Qed.

Lemma StronglySorted_lt_filter (P : nat -> bool) (l : list nat) :
  StronglySorted lt l -> StronglySorted lt (List.filter P l).
Proof.
  induction 1 as [|x l Hs IH Hx]; simpl; [constructor|].
  destruct (P x); [|done]. constructor; [done|].
  rewrite !list.Forall_forall in *. intros y Hy. apply Hx.
  rewrite list_elem_of_In in Hy |- *. apply filter_In in Hy. tauto.
Qed.

Lemma elem_of_List_filter {A} (P : A -> bool) l x :
  x ∈ List.filter P l <-> x ∈ l /\ P x = true.
Proof. rewrite !list_elem_of_In. apply filter_In. Qed.

Lemma StronglySorted_lt_seq n m : StronglySorted lt (seq n m).
Proof.
  revert n. induction m as [|m IH]; intros n; simpl; constructor; [apply IH|].
  apply list.Forall_forall. intros x Hx. apply elem_of_seq in Hx. lia.
Qed.

Lemma NoDup_concat_map {A B} (f : A -> list B) (l : list A) :
  NoDup l -> (forall a, a ∈ l -> NoDup (f a)) ->
  (forall a b x, a ∈ l -> b ∈ l -> x ∈ f a -> x ∈ f b -> a = b) ->
  NoDup (concat (map f l)).
Proof.
  induction 1 as [|a l Ha Hl IH]; intros Hf Hdis; simpl; [constructor|].
  apply NoDup_app. split_and!.
  - apply Hf. by left.
  - intros x Hx Hx'. apply list_elem_of_In, in_concat in Hx' as (y & Hy & Hxy).
    apply in_map_iff in Hy as (b & <- & Hb). apply list_elem_of_In in Hb, Hxy.
    assert (a = b) as ->; [|done]. eapply Hdis; [by left|by right|done|done].
  - apply IH; [intros; apply Hf; by right|]. intros b c x Hb Hc. apply Hdis; by right.
Qed.

Lemma elem_of_concat_map {A B} (f : A -> list B) (l : list A) x :
  x ∈ concat (map f l) <-> exists a, a ∈ l /\ x ∈ f a.
Proof.
  rewrite list_elem_of_In, in_concat. split.
  - intros (y & (a & <- & Ha)%in_map_iff & Hx). exists a. by rewrite !list_elem_of_In.
  - intros (a & Ha & Hx). exists (f a). rewrite <- !list_elem_of_In. split; [|done].
    apply list_elem_of_fmap. eauto.
Qed.

Lemma zip_replicate {A B} (l : list A) (y : B) :
  zip l (replicate (length l) y) = map (fun x => (x, y)) l.
Proof. induction l; simpl; f_equal; auto. Qed.

Lemma zip_with_replicate_2 {A B C} (f : A -> B -> C) n a b :
  zip_with f (replicate n a) (replicate n b) = replicate n (f a b).
Proof. induction n; simpl; f_equal; auto. Qed.

Lemma map_const_seq {A} (c : A) a n : map (fun _ => c) (seq a n) = replicate n c.
Proof. revert a. induction n; intros a; simpl; f_equal; auto. Qed.

Lemma lookup_map_seq {A} (f : nat -> A) n i : i < n -> map f (seq 0 n) !! i = Some (f i).
Proof. intros Hi. by rewrite list_lookup_fmap, lookup_seq_lt by done. Qed.

(** Updating one entry of a table indexed by 0..n-1. *)
Lemma insert_map_seq {A} (f g : nat -> A) o n :
  (forall r, r <> o -> g r = f r) -> <[o := g o]> (map f (seq 0 n)) = map g (seq 0 n).
Proof.
  intros Hg. apply list_eq. intros i. destruct (decide (i < n)).
  - destruct (decide (i = o)) as [->|].
    + rewrite list_lookup_insert_eq by (rewrite length_map, length_seq; done).
      by rewrite lookup_map_seq.
    + rewrite list_lookup_insert_ne, !lookup_map_seq by done. by rewrite Hg.
  - rewrite !lookup_ge_None_2; [done|..]; rewrite ?length_insert, length_map, length_seq; lia.
Qed.

Lemma filter_seq_S (P : nat -> bool) k :
  List.filter P (seq 0 (k + 1)) = List.filter P (seq 0 k) ++ (if P k then [k] else []).
Proof. rewrite seq_app, List.filter_app. simpl. by destruct (P k). Qed.

(** The [i]th element that a filter keeps of the first [n] numbers. *)
Lemma filter_seq_lookup (P : nat -> bool) n g :
  g < n -> P g = true ->
  List.filter P (seq 0 n) !! length (List.filter P (seq 0 g)) = Some g.
Proof.
  intros Hg HP. replace n with (g + (1 + (n - g - 1))) by lia.
  rewrite seq_app, List.filter_app. rewrite lookup_app_r by lia.
  rewrite Nat.sub_diag. simpl. by rewrite HP.
Qed.

Lemma StronglySorted_map_filter {A} (f : A -> nat) (P : A -> bool) (l : list A) :
  StronglySorted lt (map f l) -> StronglySorted lt (map f (List.filter P l)).
Proof.
  induction l as [|x l IH]; simpl; [done|]. intros [Hs Hx]%StronglySorted_inv.
  destruct (P x); [|by apply IH]. simpl. constructor; [by apply IH|].
  rewrite !list.Forall_forall in *. intros y (z & -> & Hz)%list_elem_of_fmap.
  apply Hx, list_elem_of_fmap. exists z. split; [done|].
  rewrite list_elem_of_In in Hz |- *. apply filter_In in Hz. tauto.
Qed.

(** The last element of a strictly increasing list bounds it. *)
Lemma StronglySorted_lt_last l x y :
  StronglySorted lt l -> last l = Some y -> x ∈ l -> x <= y.
Proof.
  induction 1 as [|z l Hs IH Hz]; intros Hl Hx; [by apply elem_of_nil in Hx|].
  destruct l as [|w l].
  - simplify_eq/=. apply list_elem_of_singleton in Hx. lia.
  - change (last (z :: w :: l)) with (last (w :: l)) in Hl.
    apply elem_of_cons in Hx as [->|Hx]; [|by apply IH].
    rewrite list.Forall_forall in Hz. specialize (Hz y).
    assert (y ∈ w :: l) by (apply last_Some_elem_of; done). naive_solver lia.
Qed.

Lemma StronglySorted_lt_snoc (l : list nat) x :
  StronglySorted lt l -> (forall y, last l = Some y -> y < x) -> StronglySorted lt (l ++ [x]).
Proof.
  intros Hs Hx. apply StronglySorted_app. split_and!; [|done|repeat constructor].
  intros y z Hy Hz. apply list_elem_of_singleton in Hz as ->.
  destruct (last l) as [w|] eqn:Hl.
  - pose proof (StronglySorted_lt_last _ _ _ Hs Hl Hy). specialize (Hx w eq_refl). lia.
  - apply last_None in Hl as ->. by apply elem_of_nil in Hy.
Qed.

(** * Automation *)

Create HintDb ioda.
#[export] Hint Resolve StronglySorted_lt_NoDup StronglySorted_lt_filter StronglySorted_lt_seq
  vec_get_Some vec_set_lt vec_at_set_lt : ioda.
#[export] Hint Rewrite @length_map @length_replicate @length_imap @length_app @length_insert
  @length_seq : ioda.
