(* ===== verification/Mpi.v ===== *)
(** The collective operations of the MPI communicator.

    [eckit::mpi::Comm] and [oops::mpi] are not part of the repository: they are
    the class [MpiComm], whose methods are the collective calls the library
    makes, and [MpiLaws] states their documented behaviour.  A collective call
    is a function on the list of the arguments of all ranks (position = rank)
    that gives the list of the results of all ranks.  [reference_comm] is an
    instance, so that the theorems that assume the laws can be used. *)
From stdpp Require Import base list.
From S2P Require Import Prelude.

Class MpiComm := {
  (** [comm.allReduceInPlace(x, op)] *)
  comm_allReduce : forall {A}, (A -> A -> A) -> list A -> list A;
  (** [comm.allReduce(begin, end, op)]: element by element *)
  comm_allReduceVec : forall {A}, (A -> A -> A) -> list (list A) -> list (list A);
  (** [oops::mpi::allGatherv(comm, x)] *)
  comm_allGatherv : forall {A}, list (list A) -> list (list A);
  (** [oops::mpi::exclusiveScan(comm, x)] on [size_t] *)
  comm_exclusiveScan : list nat -> list nat;
  (** [comm.allGather(x, begin, end)] *)
  comm_allGather : forall {A}, list A -> list (list A);
  (** [comm.broadcast(x, root)] *)
  comm_broadcast : forall {A}, nat -> list A -> list A;
  (** [comm.gather(x, xs, root)]: what the root receives *)
  comm_gather : forall {A}, list A -> list A;
  (** [comm.scatter(xs, x, root)]: from the root's vector *)
  comm_scatter : forall {A}, list A -> list A
}.

Class MpiLaws `{MpiComm} := {
  allReduce_law : forall A (op : A -> A -> A) x xs,
    Assoc (=) op -> Comm (=) op ->
    comm_allReduce op (x :: xs) = replicate (length (x :: xs)) (foldl op x xs);
  allReduceVec_law : forall A (op : A -> A -> A) x xs,
    Assoc (=) op -> Comm (=) op -> Forall (fun y => length y = length x) xs ->
    comm_allReduceVec op (x :: xs) =
      replicate (length (x :: xs)) (foldl (zip_with op) x xs);
  allGatherv_law : forall A (xs : list (list A)),
    comm_allGatherv xs = replicate (length xs) (concat xs);
  exclusiveScan_law : forall xs,
    comm_exclusiveScan xs = imap (fun i _ => nsum (take i xs)) xs;
  allGather_law : forall A (xs : list A), comm_allGather xs = replicate (length xs) xs;
  broadcast_law : forall A root (xs : list A) x,
    xs !! root = Some x -> comm_broadcast root xs = replicate (length xs) x;
  gather_law : forall A (xs : list A), comm_gather xs = xs;
  scatter_law : forall A (xs : list A), comm_scatter xs = xs
}.

(** The operation [eckit::mpi::minloc()] on pairs (value, index): the smallest
    value, and the smallest of the indices that have it. *)
Definition minloc {D} (lt : D -> D -> bool) (p q : D * nat) : D * nat :=
  if lt p.1 q.1 then p
  else if lt q.1 p.1 then q
  else (p.1, p.2 `min` q.2).

(** An instance of the communicator that satisfies the laws. *)
Definition reference_comm : MpiComm := {|
  comm_allReduce A op xs :=
    match xs with [] => [] | x :: xs' => replicate (length xs) (foldl op x xs') end;
  comm_allReduceVec A op xs :=
    match xs with [] => [] | x :: xs' => replicate (length xs) (foldl (zip_with op) x xs') end;
  comm_allGatherv A xs := replicate (length xs) (concat xs);
  comm_exclusiveScan xs := imap (fun i _ => nsum (take i xs)) xs;
  comm_allGather A xs := replicate (length xs) xs;
  comm_broadcast A root xs :=
    match xs !! root with Some x => replicate (length xs) x | None => xs end;
  comm_gather A xs := xs;
  comm_scatter A xs := xs
|}.

Lemma reference_laws : @MpiLaws reference_comm.
Proof. split; simpl; try done. intros A root xs x ->. done. Qed.

Section mpi.
Context `{MpiLaws}.

(** Reducing with [max] gives every rank the largest of the values. *)
Lemma allReduce_max xs :
  comm_allReduce Nat.max xs = replicate (length xs) (max_list xs) \/ xs = [].
Proof.
  destruct xs as [|x xs]; [by right|left].
  rewrite allReduce_law; [|intros ???; lia|intros ??; lia]. f_equal.
  simpl. revert x. induction xs as [|y xs IH]; intros x; simpl; [lia|].
  rewrite IH. simpl. lia.
Qed.

Lemma allReduce_sum {T} `{NumLaws T} x xs :
  comm_allReduce nplus (x :: xs) = replicate (length (x :: xs)) (nsum (x :: xs)).
Proof. rewrite allReduce_law by apply _. f_equal. rewrite foldl_nplus. done. Qed.
End mpi.

(** [minloc] is the minimum of the lexicographic order on (value, index), hence
    associative and commutative. *)
Section minloc.
Context {D : Type} `{DoubleLaws D}.
Implicit Types p q r : D * nat.

Definition pair_leb p q : bool :=
  d_ltb p.1 q.1 || (negb (d_ltb q.1 p.1) && (p.2 <=? q.2)).

Lemma d_ltb_asym (x y : D) : d_ltb x y = true -> d_ltb y x = false.
Proof.
  intros Hxy. destruct (d_ltb y x) eqn:E; [|done].
  pose proof (d_ltb_trans _ _ _ Hxy E) as Hx. by rewrite d_ltb_irrefl in Hx.
Qed.

Lemma d_ltb_trans_ge (x y z : D) : d_ltb x y = true -> d_ltb z y = false -> d_ltb x z = true.
Proof.
  intros Hxy Hzy. destruct (d_ltb x z) eqn:E; [done|].
  destruct (d_ltb z x) eqn:E'.
  - by rewrite (d_ltb_trans _ _ _ E' Hxy) in Hzy.
  - rewrite (d_ltb_total _ _ E E') in Hxy. congruence.
Qed.

Lemma pair_leb_spec p q :
  pair_leb p q = true <-> d_ltb p.1 q.1 = true \/ (p.1 = q.1 /\ p.2 <= q.2).
Proof.
  unfold pair_leb. rewrite orb_true_iff, andb_true_iff, negb_true_iff, Nat.leb_le.
  destruct (d_ltb p.1 q.1) eqn:E; [tauto|]. split.
  - intros [?|[E' ?]]; [done|]. right. split; [by apply d_ltb_total|done].
  - intros [?|[E' ?]]; [done|]. right. split; [|done]. rewrite E'. apply d_ltb_irrefl.
Qed.

Lemma minloc_min p q : minloc d_ltb p q = if pair_leb p q then p else q.
Proof.
  unfold minloc, pair_leb. destruct (d_ltb p.1 q.1) eqn:E1; [done|].
  destruct (d_ltb q.1 p.1) eqn:E2; simpl; [done|].
  pose proof (d_ltb_total _ _ E1 E2) as E. destruct p as [a i], q as [b j]; simpl in *. subst.
  destruct (Nat.leb_spec i j); f_equal; lia.
Qed.

Lemma pair_leb_total p q : pair_leb p q = false -> pair_leb q p = true.
Proof.
  intros Hn. apply pair_leb_spec. destruct (d_ltb q.1 p.1) eqn:E; [by left|].
  destruct (d_ltb p.1 q.1) eqn:E'.
  - assert (pair_leb p q = true) by (apply pair_leb_spec; by left). congruence.
  - pose proof (d_ltb_total _ _ E E') as Heq. right. split; [done|].
    destruct (decide (p.2 <= q.2)); [|lia].
    assert (pair_leb p q = true) by (apply pair_leb_spec; right; split; [done|lia]). congruence.
Qed.

Lemma pair_leb_antisym p q : pair_leb p q = true -> pair_leb q p = true -> p = q.
Proof.
  rewrite !pair_leb_spec. destruct p as [a i], q as [b j]; simpl.
  intros [H1|[-> H1]] [H2|[E H2]]; subst; rewrite ?d_ltb_irrefl in *; try done.
  - by rewrite (d_ltb_asym _ _ H1) in H2.
  - f_equal; lia.
Qed.

Lemma pair_leb_trans p q r :
  pair_leb p q = true -> pair_leb q r = true -> pair_leb p r = true.
Proof.
  rewrite !pair_leb_spec. intros [H1|[E1 H1]] [H2|[E2 H2]].
  - left. by eapply d_ltb_trans.
  - left. by rewrite <- E2.
  - left. by rewrite E1.
  - right. split; [congruence|lia].
Qed.

#[export] Instance minloc_comm : Comm (=) (minloc (D:=D) d_ltb).
Proof.
  intros p q. rewrite !minloc_min.
  destruct (pair_leb p q) eqn:E1, (pair_leb q p) eqn:E2; try done.
  - by apply pair_leb_antisym.
  - apply pair_leb_total in E1. congruence.
Qed.

#[export] Instance minloc_assoc : Assoc (=) (minloc (D:=D) d_ltb).
Proof.
  intros p q r. rewrite !minloc_min.
  destruct (pair_leb q r) eqn:E1, (pair_leb p q) eqn:E2; rewrite ?E1, ?E2; try done.
  - by rewrite (pair_leb_trans _ _ _ E2 E1).
  - destruct (pair_leb p r) eqn:E3; [|done].
    apply pair_leb_total in E2, E1. pose proof (pair_leb_trans _ _ _ E1 E2) as E4.
    pose proof (pair_leb_antisym _ _ E3 E4). subst. done.
Qed.

(** The reduction picks one of the values, and none is smaller. *)
Lemma foldl_minloc p ps :
  let m := foldl (minloc d_ltb) p ps in
  m ∈ p :: ps /\ forall q, q ∈ p :: ps -> pair_leb m q = true.
Proof.
  revert p. induction ps as [|q ps IH]; intros p m.
  - split; [by left|]. intros q ->%list_elem_of_singleton. apply pair_leb_spec. by right.
  - destruct (IH (minloc d_ltb p q)) as [Hin Hle]. fold m in Hin, Hle.
    change (foldl (minloc d_ltb) (minloc d_ltb p q) ps) with m in Hin, Hle.
    rewrite minloc_min in *. split.
    + apply elem_of_cons in Hin as [E|Hin]; [|by do 2 right].
      rewrite E. destruct (pair_leb p q); [by left|right; by left].
    + intros x Hx. assert (Hm : pair_leb m (if pair_leb p q then p else q) = true)
        by (apply Hle; by left).
      destruct (pair_leb p q) eqn:E.
      * apply elem_of_cons in Hx as [->|Hx]; [done|].
        apply elem_of_cons in Hx as [->|Hx]; [by eapply pair_leb_trans|].
        apply Hle. by right.
      * apply elem_of_cons in Hx as [->|Hx].
        { eapply pair_leb_trans; [done|]. by apply pair_leb_total. }
        apply elem_of_cons in Hx as [->|Hx]; [done|]. apply Hle. by right.
Qed.
End minloc.

(** Element-wise reduction of vectors of one length. *)
Lemma foldl_zip_lookup {A} (op : A -> A -> A) v vs n i :
  length v = n -> Forall (fun w => length w = n) vs -> i < n ->
  exists x xs, v !! i = Some x /\ Forall2 (fun w y => w !! i = Some y) vs xs /\
    foldl (zip_with op) v vs !! i = Some (foldl op x xs).
Proof.
  intros Hv Hvs Hi. revert v Hv. induction Hvs as [|w vs Hw Hvs IH]; intros v Hv.
  - assert (is_Some (v !! i)) as [x Hx] by (apply lookup_lt_is_Some; lia).
    exists x, []. split_and!; [done|constructor|done].
  - assert (is_Some (v !! i)) as [x Hx] by (apply lookup_lt_is_Some; lia).
    assert (is_Some (w !! i)) as [y Hy] by (apply lookup_lt_is_Some; lia).
    destruct (IH (zip_with op v w)) as (x' & xs & Hx' & Hxs & Hf).
    { rewrite length_zip_with. lia. }
    rewrite lookup_zip_with, Hx in Hx'. simpl in Hx'. rewrite Hy in Hx'. simplify_eq/=.
    exists x, (y :: xs). split_and!; [done|by constructor|done].
Qed.

Lemma length_foldl_zip {A} (op : A -> A -> A) v vs n :
  length v = n -> Forall (fun w => length w = n) vs -> length (foldl (zip_with op) v vs) = n.
Proof.
  intros Hv Hvs. revert v Hv. induction Hvs as [|w vs Hw Hvs IH]; intros v Hv; simpl; [done|].
  apply IH. rewrite length_zip_with. lia.
Qed.

(** * Point-to-point messages and split communicators

    [comm.send]/[comm.iSend] put a message in flight; [comm.receive]/
    [comm.iReceive] on rank [me] take the one that matches the source and the tag. *)
Record Message (A : Type) := { m_src : nat; m_dst : nat; m_tag : nat; m_data : list A }.
Arguments m_src {A} _.
Arguments m_dst {A} _.
Arguments m_tag {A} _.
Arguments m_data {A} _.
Arguments Build_Message {A} _ _ _ _.

Definition m_matches {A} (me src tag : nat) (m : Message A) : bool :=
  (m_src m =? src) && (m_dst m =? me) && (m_tag m =? tag).

Class MpiP2P := {
  (** messages in flight, receiving rank, source, tag, number of elements *)
  comm_receive : forall {A}, list (Message A) -> nat -> nat -> nat -> nat -> res (list A);
  (** [comm.split(color, name)]: the rank in the new communicator and its size,
      from the colours of all ranks *)
  comm_split : list nat -> list (nat * nat)
}.

Class MpiP2PLaws `{MpiP2P} := {
  receive_law : forall A (msgs : list (Message A)) me src tag count m,
    List.filter (m_matches me src tag) msgs = [m] -> length (m_data m) = count ->
    comm_receive msgs me src tag count = Ok (m_data m);
  split_law : forall colors,
    comm_split colors = imap (fun r c =>
      (length (List.filter (Nat.eqb c) (take r colors)), length (List.filter (Nat.eqb c) colors))) colors
}.

Definition reference_p2p : MpiP2P := {|
  comm_receive A msgs me src tag count :=
    match List.filter (m_matches me src tag) msgs with
    | m :: _ => if length (m_data m) =? count then Ok (m_data m) else Throw EUndefined
    | [] => Throw EUndefined
    end;
  comm_split colors := imap (fun r c =>
    (length (List.filter (Nat.eqb c) (take r colors)), length (List.filter (Nat.eqb c) colors))) colors
|}.

Lemma reference_p2p_laws : @MpiP2PLaws reference_p2p.
Proof. split; simpl; [|done]. intros A msgs me src tag count m -> <-. by rewrite Nat.eqb_refl. Qed.
