(* ===== verification/Distribution.v ===== *)
(** The interface of a distribution of observations over MPI ranks
    (src/src/distribution/Distribution.h) and of the accumulators it creates
    (src/src/distribution/Accumulator.h), with the contract the header states.

    The world is seen from outside: an operation that is local to a rank takes
    the rank, a collective operation takes the arguments of all ranks. *)
From stdpp Require Import base list.
From S2P Require Import Prelude Mpi.

(** ioda::Accumulator<T>: one object per rank.  [addTerm] is local (it may read
    outside a vector, hence [res]), [computeResult] is collective. *)
Record Accumulator (T : Type) := {
  acc_state : Type;
  acc_init : acc_state;
  acc_addTerm : nat -> nat -> T -> acc_state -> res acc_state;
  acc_computeResult : list acc_state -> list T
}.
Arguments acc_state {T} _.
Arguments acc_init {T} _.
Arguments acc_addTerm {T} _ rank loc term s.
Arguments acc_computeResult {T} _ ss.

(** The const methods of ioda::Distribution once all records are assigned. *)
Record Distribution := {
  dist_size : nat;
  isIdentity : bool;
  isNonoverlapping : bool;
  isMyRecord : nat -> nat -> bool;
  patchObs : nat -> list bool -> res (list bool);
  reduce : forall A, (A -> A -> A) -> list A -> list A;
  createAccumulator : forall T, Num T -> Accumulator T;
  allGatherv : forall A, list (list A) -> res (list (list A));
  globalUniqueConsecutiveLocationIndex : nat -> nat -> res nat
}.

(** [min(x)] and [max(x)] are the reductions with the two operations. *)
Definition dist_max (d : Distribution) (xs : list nat) : list nat := reduce d nat Nat.max xs.
Definition dist_min (d : Distribution) (xs : list nat) : list nat := reduce d nat Nat.min xs.

(** The intended use of an accumulator: every rank creates one, calls [addTerm]
    for its locations in order, and all ranks call [computeResult]. *)
Definition accumulate_rank {T} (acc : Accumulator T) (rank : nat) (terms : list T)
  : res (acc_state acc) :=
  foldM (fun s '(loc, t) => acc_addTerm acc rank loc t s) (acc_init acc)
    (imap (fun loc t => (loc, t)) terms).

Definition accumulate {T} (acc : Accumulator T) (terms : list (list T)) : res (list T) :=
  states ← imapR (accumulate_rank acc) terms; Ok (acc_computeResult acc states).

(** Contract of a distribution that holds the locations [L] (the locations held
    by each rank, in local order).  [P] is the list of all distinct locations in
    the order of the vectors made by [allGatherv].  It states what
    Distribution.h promises: patch obs form a complete, non-overlapping
    partition; [allGatherv] concatenates with duplicates removed;
    [globalUniqueConsecutiveLocationIndex] maps a local location to its position
    in those vectors; accumulators count each location once. *)
Record DistContract {G : Type} (d : Distribution) (L : list (list G)) (P : list G) : Prop := {
  dc_ranks : length L = dist_size d;
  dc_nodup : NoDup P;
  dc_cover : forall g, g ∈ P <-> exists l, l ∈ L /\ g ∈ l;
  dc_gather : forall A (f : G -> A),
    allGatherv d A (map (map f) L) = Ok (replicate (length L) (map f P));
  dc_index : forall r l i g, L !! r = Some l -> l !! i = Some g ->
    exists k, globalUniqueConsecutiveLocationIndex d r i = Ok k /\ P !! k = Some g;
  dc_patch : exists masks,
    imapR (fun r l => patchObs d r (replicate (length l) false)) L = Ok masks /\
    Forall2 (fun m l => length m = length l) masks L /\
    concat (zip_with sel masks L) ≡ₚ P;
  dc_accumulate : forall T (N : Num T), NumLaws T -> forall f : G -> T,
    accumulate (createAccumulator d T N) (map (map f) L) =
      Ok (replicate (length L) (nsum (map f P)))
}.
Arguments dc_ranks {G d L P} _.
Arguments dc_nodup {G d L P} _.
Arguments dc_cover {G d L P} _.
Arguments dc_gather {G d L P} _.
Arguments dc_index {G d L P} _.
Arguments dc_patch {G d L P} _.
Arguments dc_accumulate {G d L P} _.

Section client.
Context {G : Type} {d : Distribution} {L : list (list G)} {P : list G}.

(** Distinct locations have distinct global indices. *)
Lemma contract_index_inj (Hd : DistContract d L P) r1 r2 l1 l2 i1 i2 g1 g2 k :
  L !! r1 = Some l1 -> l1 !! i1 = Some g1 -> L !! r2 = Some l2 -> l2 !! i2 = Some g2 ->
  globalUniqueConsecutiveLocationIndex d r1 i1 = Ok k ->
  globalUniqueConsecutiveLocationIndex d r2 i2 = Ok k -> g1 = g2.
Proof.
  intros H1 H2 H3 H4 H5 H6.
  destruct (dc_index Hd _ _ _ _ H1 H2) as (k1 & E1 & E1').
  destruct (dc_index Hd _ _ _ _ H3 H4) as (k2 & E2 & E2'). congruence.
Qed.

(** The indices are consecutive: every position of the gathered vector is the
    index of a location some rank holds. *)
Lemma contract_index_surj (Hd : DistContract d L P) k :
  k < length P -> exists r l i,
    L !! r = Some l /\ i < length l /\ globalUniqueConsecutiveLocationIndex d r i = Ok k.
Proof.
  intros [g Hg]%lookup_lt_is_Some.
  assert (g ∈ P) as (l & Hl & Hgl)%(dc_cover Hd) by by eapply list_elem_of_lookup_2.
  apply list_elem_of_lookup in Hl as [r Hr]. apply list_elem_of_lookup in Hgl as [i Hi].
  exists r, l, i. split_and!; [done|by eapply lookup_lt_Some|].
  destruct (dc_index Hd _ _ _ _ Hr Hi) as (k' & E & E').
  by rewrite E, (NoDup_lookup _ _ _ _ (dc_nodup Hd) E' Hg).
Qed.
End client.

(** Giving the locations other names. *)
Lemma contract_map {G H} d (L : list (list G)) P (f : G -> H) :
  DistContract d L P -> (forall x y, x ∈ P -> y ∈ P -> f x = f y -> x = y) ->
  DistContract d (map (map f) L) (map f P).
Proof.
  intros Hd Hinj. split.
  - rewrite length_map. apply (dc_ranks Hd).
  - apply NoDup_fmap_2_strong; [exact Hinj|apply (dc_nodup Hd)].
  - intros h. rewrite list_elem_of_fmap. split.
    + intros (g & -> & (l & Hl & Hg)%(dc_cover Hd)). exists (map f l). split; apply list_elem_of_fmap; eauto.
    + intros (l' & (l & -> & Hl)%list_elem_of_fmap & (g & -> & Hg)%list_elem_of_fmap). exists g. split; [done|].
      apply (dc_cover Hd). eauto.
  - intros A k. rewrite length_map, !map_map.
    rewrite (map_ext _ (map (fun x => k (f x)))) by (intros; by rewrite map_map). apply (dc_gather Hd).
  - intros r l i h Hr Hi. rewrite list_lookup_fmap in Hr. destruct (L !! r) as [l0|] eqn:El; simplify_eq/=.
    rewrite list_lookup_fmap in Hi. destruct (l0 !! i) as [g|] eqn:Eg; simplify_eq/=.
    destruct (dc_index Hd _ _ _ _ El Eg) as (k & Hk & HP). exists k. split; [done|]. by rewrite list_lookup_fmap, HP.
  - destruct (dc_patch Hd) as (masks & Hm & Hlen & Hperm). exists masks. split_and!.
    + rewrite <-Hm. apply imapR_ext2; [by rewrite length_map|]. intros r x l Hx Hl.
      rewrite list_lookup_fmap, Hl in Hx. simplify_eq/=. by rewrite length_map.
    + apply Forall2_fmap_r. eapply Forall2_impl; [exact Hlen|]. intros m l E. simpl. by rewrite length_map.
    + rewrite <-Hperm, concat_map. apply Permutation_refl'. f_equal. clear. revert L. induction masks as [|m ms IH]; intros [|l L]; [done..|].
      simpl. by rewrite sel_map, IH.
  - intros T N NL k. rewrite length_map, !map_map.
    rewrite (map_ext _ (map (fun x => k (f x)))) by (intros; by rewrite map_map). apply (dc_accumulate Hd), NL.
Qed.

(** * Accumulators *)

(** ioda::GeneralDistributionAccumulator<T>: only patch observations count. *)
Definition GeneralDistributionAccumulator `{MpiComm} (patch : nat -> list bool)
    (T : Type) (N : Num T) : Accumulator T := {|
  acc_state := T;
  acc_init := nzero;
  acc_addTerm rank loc term s :=
    b ← vec_get (patch rank) loc; Ok (if (b : bool) then nplus s term else s);
  acc_computeResult := comm_allReduce nplus
|}.

(** ioda::NonoverlappingDistributionAccumulator<T> *)
Definition NonoverlappingDistributionAccumulator `{MpiComm} (T : Type) (N : Num T)
  : Accumulator T := {|
  acc_state := T;
  acc_init := nzero;
  acc_addTerm rank loc term s := Ok (nplus s term);
  acc_computeResult := comm_allReduce nplus
|}.

(** ioda::InefficientDistributionAccumulator<T> *)
Definition InefficientDistributionAccumulator (T : Type) (N : Num T) : Accumulator T := {|
  acc_state := T;
  acc_init := nzero;
  acc_addTerm rank loc term s := Ok (nplus s term);
  acc_computeResult ss := ss
|}.

(** ioda::PairOfDistributionsAccumulator<T>: the first [firstNumLocs] locations
    of a rank go to the first accumulator. *)
Definition PairOfDistributionsAccumulator {T : Type} {N : Num T} (a1 a2 : Accumulator T)
    (firstNumLocs : nat -> nat) : Accumulator T := {|
  acc_state := acc_state a1 * acc_state a2;
  acc_init := (acc_init a1, acc_init a2);
  acc_addTerm rank loc term '(s1, s2) :=
    if decide (loc < firstNumLocs rank)
    then s1' ← acc_addTerm a1 rank loc term s1; Ok (s1', s2)
    else s2' ← acc_addTerm a2 rank (loc - firstNumLocs rank) term s2; Ok (s1, s2');
  acc_computeResult ss :=
    zip_with nplus (acc_computeResult a1 (map fst ss)) (acc_computeResult a2 (map snd ss))
|}.

Section accumulators.
Context `{MpiLaws} {T : Type} {N : Num T} {NL : NumLaws T}.

(** [accumulate_rank] started in the middle: used by induction and by pairs. *)
Lemma accumulate_app (acc : Accumulator T) rank s ts1 ts2 n :
  foldM (fun s '(loc, t) => acc_addTerm acc rank loc t s) s
    (imap (fun loc t => (n + loc, t)) (ts1 ++ ts2)) =
  foldM (fun s '(loc, t) => acc_addTerm acc rank loc t s) s
    (imap (fun loc t => (n + loc, t)) ts1) ≫= fun s' =>
  foldM (fun s '(loc, t) => acc_addTerm acc rank loc t s) s'
    (imap (fun loc t => (n + length ts1 + loc, t)) ts2).
Proof.
  rewrite imap_app, foldM_app. destruct (foldM _ s _); simpl; [|done].
  f_equal. apply imap_ext. intros; simpl. f_equal. lia.
Qed.

Lemma general_rank (patch : nat -> list bool) rank ts :
  length (patch rank) = length ts ->
  accumulate_rank (GeneralDistributionAccumulator patch T N) rank ts =
    Ok (nsum (sel (patch rank) ts)).
Proof.
  intros Hlen. unfold accumulate_rank. simpl.
  cut (forall n ms (s : T), (forall i, ms !! i = patch rank !! (n + i)) ->
    length ms = length ts ->
    foldM (fun (s : T) '(loc, t) =>
      b ← vec_get (patch rank) loc; Ok (if (b : bool) then nplus s t else s)) s
      (imap (fun loc t => (n + loc, t)) ts) = Ok (nplus s (nsum (sel ms ts)))).
  { intros Hgen. rewrite (Hgen 0 (patch rank)) by done. by rewrite (left_id _ nplus). }
  clear Hlen. induction ts as [|t ts IH]; intros n [|b ms] s Hms Hl; simplify_eq/=.
  - by rewrite (comm nplus), (left_id _ nplus).
  - rewrite (vec_get_Some _ _ b) by (by rewrite <- (Hms 0)). simpl.
    rewrite (imap_ext _ (fun loc t => (S n + loc, t))) by (intros; simpl; f_equal; lia).
    rewrite (IH (S n) ms).
    + destruct b; simpl; [|done]. by rewrite (assoc nplus).
    + intros i. replace (S n + i) with (n + S i) by lia. apply (Hms (S i)).
    + done.
Qed.

(** The same for the accumulators that add every term. *)
Lemma plain_rank (ts : list T) :
  foldM (fun (s : T) '((_, t) : nat * T) => Ok (nplus s t)) nzero (imap (fun loc t => (loc, t)) ts) =
    Ok (nsum ts).
Proof.
  rewrite (foldM_Ok _ (fun s '(_, t) => nplus s t) (fun _ => True)).
  - f_equal. rewrite <- (left_id nzero nplus (nsum ts)), <- foldl_nplus.
    generalize (nzero : T).
    cut (forall n (s : T),
      foldl (fun s '((_, t) : nat * T) => nplus s t) s (imap (fun loc t => (n + loc, t)) ts) =
      foldl nplus s ts).
    { intros Hc s. apply (Hc 0). }
    induction ts as [|t ts IH]; intros n s; simpl; [done|].
    rewrite (imap_ext _ (fun loc t => (S n + loc, t))) by (intros; simpl; f_equal; lia).
    by rewrite (IH (S n)).
  - done.
  - by intros s [].
Qed.

(** Summing the ranks' partial sums over the communicator. *)
Lemma allReduce_nsum (xss : list (list T)) :
  comm_allReduce nplus (map nsum xss) = replicate (length xss) (nsum (concat xss)) \/ xss = [].
Proof.
  destruct xss as [|x xss]; [by right|left]. simpl map. rewrite allReduce_sum.
  rewrite nsum_concat. simpl. by rewrite length_map.
Qed.

Lemma accumulate_general (patch : nat -> list bool) (terms : list (list T)) :
  (forall r ts, terms !! r = Some ts -> length (patch r) = length ts) -> terms <> [] ->
  accumulate (GeneralDistributionAccumulator patch T N) terms =
    Ok (replicate (length terms) (nsum (concat (imap (fun r ts => sel (patch r) ts) terms)))).
Proof.
  intros Hlen Hne. unfold accumulate.
  rewrite (imapR_Ok _ (fun r ts => nsum (sel (patch r) ts))).
  - simpl. f_equal. 
    change (imap (fun r ts => nsum (sel (patch r) ts)) terms)
      with (imap (fun r => nsum ∘ (fun ts => sel (patch r) ts)) terms).
    rewrite <- fmap_imap.
    destruct (allReduce_nsum (imap (fun r ts => sel (patch r) ts) terms)) as [E|E].
    + etransitivity; [exact E|]. by rewrite length_imap.
    + by destruct terms.
  - intros r ts Hr. apply general_rank. by apply Hlen.
Qed.

Lemma accumulate_nonoverlapping (terms : list (list T)) :
  terms <> [] ->
  accumulate (NonoverlappingDistributionAccumulator T N) terms =
    Ok (replicate (length terms) (nsum (concat terms))).
Proof.
  intros Hne. unfold accumulate. rewrite (imapR_Ok _ (fun _ => nsum)).
  - simpl. f_equal.
    change (imap (fun _ => nsum) terms) with (imap (const nsum) terms). rewrite imap_const.
    destruct (allReduce_nsum terms) as [E|E]; [exact E|done].
  - intros r ts Hr. apply plain_rank.
Qed.
End accumulators.

(** * Distributions with an explicit mask of patch observations

    Halo and ReplicaOfGeneralDistribution keep a mask per rank and gather and
    accumulate the masked elements; their contract follows from the mask. *)
Section masked.
Context `{MpiLaws} {S G : Type} (mask : S -> list bool).

Lemma masked_gather {A} (ss : list S) (xs : list (list A)) :
  Forall2 (fun s x => length (mask s) = length x) ss xs ->
  mapR (fun '(s, x) => _ ← assert (length x =? length (mask s)); Ok (sel (mask s) x)) (zip ss xs) =
    Ok (zip_with (fun s x => sel (mask s) x) ss xs).
Proof.
  induction 1 as [|s x ss xs Hl Hss IH]; simpl; [done|].
  rewrite Hl, Nat.eqb_refl. simpl. by rewrite IH.
Qed.

Lemma zip_with_sel_map {A B} (f : A -> B) (ss : list S) (L : list (list A)) :
  zip_with (fun s x => sel (mask s) x) ss (map (map f) L) =
    map (map f) (zip_with (fun s x => sel (mask s) x) ss L).
Proof.
  revert L. induction ss as [|s ss IH]; intros [|l L]; simpl; [done..|].
  by rewrite sel_map, IH.
Qed.

Lemma zip_with_sel_imap {A} (ss : list S) (L : list (list A)) :
  length ss = length L ->
  imap (fun r ts => sel (match ss !! r with Some s => mask s | None => [] end) ts) L =
    zip_with (fun s x => sel (mask s) x) ss L.
Proof.
  revert ss. induction L as [|l L IH]; intros [|s ss] Hl; simplify_eq/=; [done|].
  f_equal. rewrite <- (IH ss) by done. apply imap_ext. done.
Qed.

Lemma masked_contract (d : Distribution) (ss : list S) (L : list (list G)) (P : list G) :
  P = concat (zip_with (fun s l => sel (mask s) l) ss L) ->
  Forall2 (fun s l => length (mask s) = length l) ss L -> L <> [] -> NoDup P ->
  (forall g, g ∈ P <-> exists l, l ∈ L /\ g ∈ l) ->
  dist_size d = length ss ->
  (forall A xs, allGatherv d A xs =
    (ys ← mapR (fun '(s, x) => _ ← assert (length x =? length (mask s)); Ok (sel (mask s) x))
            (zip ss xs); Ok (comm_allGatherv ys))) ->
  (forall r v s, ss !! r = Some s -> patchObs d r v = Ok (mask s)) ->
  createAccumulator d = GeneralDistributionAccumulator
    (fun rank => match ss !! rank with Some s => mask s | None => [] end) ->
  (forall r l i g, L !! r = Some l -> l !! i = Some g ->
    exists k, globalUniqueConsecutiveLocationIndex d r i = Ok k /\ P !! k = Some g) ->
  DistContract d L P.
Proof.
  intros HP Hlen Hne Hnd Hcov Hsz Hgath Hpatch Hacc Hidx.
  pose proof (Forall2_length _ _ _ Hlen) as Hl. split; try done.
  - by rewrite Hsz.
  - intros A f. rewrite Hgath, masked_gather; simpl.
    + rewrite allGatherv_law, length_zip_with, length_map, zip_with_sel_map, <- concat_map, <- HP.
      do 2 f_equal. lia.
    + apply Forall2_fmap_r. eapply Forall2_impl; [done|]. intros s l E. simpl.
      by rewrite E, length_map.
  - exists (map mask ss). split_and!.
    + rewrite (imapR_Ok _ (fun r _ => match ss !! r with Some s => mask s | None => [] end)).
      * f_equal. clear -Hl. revert ss Hl. induction L as [|l L IH]; intros [|s ss] Hl; simplify_eq/=;
          [done|]. f_equal. rewrite <- (IH ss) by done. apply imap_ext. done.
      * intros r l Hr. destruct (ss !! r) as [s|] eqn:E; [by apply Hpatch|].
        apply lookup_ge_None in E. apply lookup_lt_Some in Hr. lia.
    + by apply Forall2_fmap_l.
    + rewrite HP. rewrite zip_with_fmap_l. done.
  - intros T N NL f. rewrite Hacc, accumulate_general.
    + rewrite zip_with_sel_imap by (by rewrite length_map).
      by rewrite length_map, zip_with_sel_map, <- concat_map, <- HP.
    + intros r ts Hr. rewrite list_lookup_fmap in Hr.
      destruct (L !! r) as [l|] eqn:El; simplify_eq/=.
      destruct (Forall2_lookup_r _ _ _ _ _ Hlen El) as (s & -> & E). by rewrite length_map.
    + by destruct L.
Qed.
End masked.
