(* ===== verification/Nonoverlapping.v ===== *)
(** Distributions that hold each observation on exactly one rank:
    src/src/distribution/NonoverlappingDistribution.{h,cc} and its subclasses
    RoundRobin, AtlasDistribution and ReplicaOfNonoverlappingDistribution. *)
From stdpp Require Import base list gmap.
From S2P Require Import Prelude Mpi Distribution.

(** The data members of NonoverlappingDistribution on one rank. *)
Record NonoverlappingDistribution := {
  numLocationsOnThisRank_ : nat;
  numLocationsOnLowerRanks_ : nat
}.

Definition NonoverlappingDistribution_new : NonoverlappingDistribution :=
  {| numLocationsOnThisRank_ := 0; numLocationsOnLowerRanks_ := 0 |}.

(** [assignRecord]: [isMyRecord] is the virtual method of the subclass. *)
Definition Nonoverlapping_assignRecord (isMyRecord : nat -> bool)
    (s : NonoverlappingDistribution) (RecNum LocNum : nat) : NonoverlappingDistribution :=
  if isMyRecord RecNum
  then {| numLocationsOnThisRank_ := S (numLocationsOnThisRank_ s);
          numLocationsOnLowerRanks_ := numLocationsOnLowerRanks_ s |}
  else s.

(** [computePatchLocs], on all ranks. *)
Definition Nonoverlapping_computePatchLocs `{MpiComm}
    (ss : list NonoverlappingDistribution) : list NonoverlappingDistribution :=
  zip_with (fun s lower =>
      {| numLocationsOnThisRank_ := numLocationsOnThisRank_ s;
         numLocationsOnLowerRanks_ := lower |})
    ss (comm_exclusiveScan (map numLocationsOnThisRank_ ss)).

(** [patchObs]: [std::fill(..., true)]. *)
Definition Nonoverlapping_patchObs (patchObsVec : list bool) : list bool :=
  map (fun _ => true) patchObsVec.

(** [min] and [max]: [comm_.allReduceInPlace]. *)
Definition Nonoverlapping_reduce `{MpiComm} (A : Type) (op : A -> A -> A) (xs : list A) : list A :=
  comm_allReduce op xs.

(** [allGatherv]: each rank asserts the size of its argument. *)
Definition Nonoverlapping_allGatherv `{MpiComm} (ss : list NonoverlappingDistribution)
    (A : Type) (xs : list (list A)) : res (list (list A)) :=
  _ ← mapR (fun '(s, x) => assert (length x =? numLocationsOnThisRank_ s)) (zip ss xs);
  Ok (comm_allGatherv xs).

Definition Nonoverlapping_globalUniqueConsecutiveLocationIndex
    (s : NonoverlappingDistribution) (loc : nat) : nat :=
  numLocationsOnLowerRanks_ s + loc.

(** The object seen through the interface, with the subclass's [isMyRecord]. *)
Definition Nonoverlapping_dist `{MpiComm} (isMy : nat -> nat -> bool)
    (ss : list NonoverlappingDistribution) : Distribution := {|
  dist_size := length ss;
  isIdentity := false;
  isNonoverlapping := true;
  isMyRecord := isMy;
  patchObs _ v := Ok (Nonoverlapping_patchObs v);
  reduce := Nonoverlapping_reduce;
  createAccumulator := NonoverlappingDistributionAccumulator;
  allGatherv := Nonoverlapping_allGatherv ss;
  globalUniqueConsecutiveLocationIndex rank loc :=
    match ss !! rank with
    | Some s => Ok (Nonoverlapping_globalUniqueConsecutiveLocationIndex s loc)
    | None => Throw EUndefined
    end
|}.

(** * RoundRobin *)

Definition RoundRobin_isMyRecord (size rank RecNum : nat) : bool :=
  RecNum mod size =? rank.

(** * ReplicaOfNonoverlappingDistribution *)

Definition ReplicaOfNonoverlapping_isMyRecord (master : Distribution) (rank RecNum : nat) : bool :=
  isMyRecord master rank RecNum.

(** * Assigning the records of all locations on all ranks *)

(** Every rank is told of every location (record number, location number). *)
Definition assign_all (isMy : nat -> nat -> bool) (size : nat) (recs : list (nat * nat))
  : list NonoverlappingDistribution :=
  map (fun rank =>
      foldl (fun s '(rec, loc) => Nonoverlapping_assignRecord (isMy rank) s rec loc)
        NonoverlappingDistribution_new recs)
    (seq 0 size).

(** The locations a rank keeps. *)
Definition held (isMy : nat -> nat -> bool) (recs : list (nat * nat)) (rank : nat) : list nat :=
  map snd (List.filter (fun '(rec, _) => isMy rank rec) recs).

Lemma assign_all_count isMy recs rank s0 :
  numLocationsOnThisRank_
    (foldl (fun s '(rec, loc) => Nonoverlapping_assignRecord (isMy rank) s rec loc) s0 recs) =
  numLocationsOnThisRank_ s0 + length (held isMy recs rank).
Proof.
  revert s0. induction recs as [|[rec loc] recs IH]; intros s0; simpl; [by rewrite Nat.add_0_r|].
  rewrite IH. unfold Nonoverlapping_assignRecord, held. simpl.
  destruct (isMy rank rec); simpl; lia.
Qed.

(** Generic contract: objects whose counters agree with the locations [L]. *)
Section contract.
Context `{MpiLaws}.

Lemma computePatchLocs_lookup ss r s :
  ss !! r = Some s ->
  Nonoverlapping_computePatchLocs ss !! r =
    Some {| numLocationsOnThisRank_ := numLocationsOnThisRank_ s;
            numLocationsOnLowerRanks_ := nsum (take r (map numLocationsOnThisRank_ ss)) |}.
Proof.
  intros Hs. unfold Nonoverlapping_computePatchLocs. rewrite exclusiveScan_law.
  rewrite lookup_zip_with, Hs. simpl.
  rewrite list_lookup_imap, list_lookup_fmap, Hs. done.
Qed.

Lemma length_computePatchLocs ss : length (Nonoverlapping_computePatchLocs ss) = length ss.
Proof.
  unfold Nonoverlapping_computePatchLocs. rewrite exclusiveScan_law, length_zip_with,
    length_imap, length_map. lia.
Qed.

Lemma nonoverlapping_contract {G} isMy (ss : list NonoverlappingDistribution) (L : list (list G)) :
  map numLocationsOnThisRank_ ss = map length L -> L <> [] -> NoDup (concat L) ->
  DistContract (Nonoverlapping_dist isMy (Nonoverlapping_computePatchLocs ss)) L (concat L).
Proof.
  intros Hlen Hne Hnd.
  assert (Hsz : length ss = length L) by (apply (f_equal length) in Hlen; by rewrite !length_map in Hlen).
  split; simpl.
  - by rewrite length_computePatchLocs.
  - done.
  - intros g. rewrite list_elem_of_In, in_concat. by setoid_rewrite list_elem_of_In.
  - intros A f. unfold Nonoverlapping_allGatherv.
    rewrite (mapR_Ok _ (fun _ => ())).
    + simpl. by rewrite allGatherv_law, length_map, concat_map.
    + intros [s x] Hin. apply list_elem_of_lookup in Hin as [r Hr].
      apply lookup_zip_with_Some in Hr as (s' & x' & Heq & Hs & Hx). simplify_eq.
      apply lookup_lt_Some in Hs as Hlt. rewrite length_computePatchLocs in Hlt.
      apply lookup_lt_is_Some in Hlt as [s0 Hs0].
      rewrite (computePatchLocs_lookup _ _ _ Hs0) in Hs. simplify_eq/=.
      rewrite list_lookup_fmap in Hx. destruct (L !! r) as [l|] eqn:El; simplify_eq/=.
      assert (Some (numLocationsOnThisRank_ s0) = Some (length l)) as [= ->].
      { transitivity (map numLocationsOnThisRank_ ss !! r).
        - by rewrite list_lookup_fmap, Hs0.
        - rewrite Hlen. by rewrite list_lookup_fmap, El. }
      rewrite length_map, Nat.eqb_refl. done.
  - intros r l i g Hr Hi.
    assert (r < length ss) as [s0 Hs0]%lookup_lt_is_Some
      by (rewrite Hsz; by eapply lookup_lt_Some).
    rewrite (computePatchLocs_lookup _ _ _ Hs0). eexists; split; [done|].
    unfold Nonoverlapping_globalUniqueConsecutiveLocationIndex; simpl.
    rewrite Hlen. by eapply lookup_concat_pos.
  - exists (map (fun l => replicate (length l) true) L). split_and!.
    + rewrite (imapR_Ok _ (fun _ l => replicate (length l) true)).
      * f_equal. exact (imap_const (fun l => replicate (length l) true) L).
      * intros. f_equal. unfold Nonoverlapping_patchObs. apply (fmap_replicate (fun _ => true)).
    + apply Forall2_fmap_l, Forall_Forall2_diag, list.Forall_forall. intros l _. apply length_replicate.
    + clear. induction L as [|l L IH]; simpl; [done|]. by rewrite sel_replicate_true, IH.
  - intros T N NL f. rewrite accumulate_nonoverlapping by (by destruct L).
    by rewrite length_map, concat_map.
Qed.
End contract.

(** A predicate that puts every record on exactly one of [size] ranks. *)
Definition partitions (isMy : nat -> nat -> bool) (size : nat) : Prop :=
  forall rec, exists owner, owner < size /\
    forall rank, rank < size -> isMy rank rec = (rank =? owner).

Lemma concat_map_insert {A} (f : nat -> list A) x k (l : list nat) :
  NoDup l -> k ∈ l ->
  concat (map (fun r => if r =? k then x :: f r else f r) l) ≡ₚ x :: concat (map f l).
Proof.
  induction 1 as [|r l Hr Hl IH]; intros Hk; [by apply elem_of_nil in Hk|]. simpl.
  apply elem_of_cons in Hk as [->|Hk].
  - rewrite Nat.eqb_refl. simpl. constructor. apply Permutation_app_head.
    apply Permutation_refl'. f_equal. apply map_ext_in. intros a Ha%list_elem_of_In.
    destruct (Nat.eqb_spec a r); [congruence|done].
  - destruct (Nat.eqb_spec r k); [congruence|].
    rewrite (IH Hk). by rewrite Permutation_middle.
Qed.

Lemma concat_held_nil isMy l : concat (map (held isMy []) l) = [].
Proof. induction l; simpl; auto. Qed.

(** Every location is kept by exactly one rank. *)
Lemma held_partition isMy size recs :
  partitions isMy size ->
  concat (map (held isMy recs) (seq 0 size)) ≡ₚ map snd recs.
Proof.
  intros Hp. induction recs as [|[rec loc] recs IH]; simpl.
  - by rewrite concat_held_nil.
  - destruct (Hp rec) as (o & Ho & Hmy).
    rewrite <- IH, <- (concat_map_insert _ loc o (seq 0 size));
      [|apply NoDup_seq|apply elem_of_seq; lia].
    apply Permutation_refl'. f_equal. apply map_ext_in. intros r Hr%list_elem_of_In%elem_of_seq.
    unfold held; simpl. rewrite Hmy by lia. by destruct (r =? o).
Qed.

Section run.
Context `{MpiLaws}.

(** After every rank was told of every location, the distribution satisfies its
    contract, and the gathered order has every location exactly once. *)
Lemma assign_all_contract isMy size recs :
  partitions isMy size -> 0 < size -> NoDup (map snd recs) ->
  let L := map (held isMy recs) (seq 0 size) in
  DistContract (Nonoverlapping_dist isMy
    (Nonoverlapping_computePatchLocs (assign_all isMy size recs))) L (concat L) /\
  concat L ≡ₚ map snd recs.
Proof.
  intros Hp Hs Hnd L. pose proof (held_partition isMy size recs Hp) as Hperm.
  split; [|done]. apply nonoverlapping_contract.
  - unfold assign_all, L. rewrite !map_map. apply map_ext. intros r.
    rewrite assign_all_count. simpl. done.
  - unfold L. destruct size; [lia|done].
  - unfold L. by rewrite Hperm.
Qed.
End run.

Lemma roundrobin_partitions size : 0 < size -> partitions (RoundRobin_isMyRecord size) size.
Proof.
  intros Hs rec. exists (rec mod size). split; [apply Nat.mod_upper_bound; lia|].
  intros rank _. unfold RoundRobin_isMyRecord. apply Nat.eqb_sym.
Qed.

(** The number of the records 0..n-1 that a rank gets. *)
Lemma roundrobin_count size rank n :
  rank < size ->
  length (List.filter (RoundRobin_isMyRecord size rank) (seq 0 n)) =
    n / size + (if rank <? n mod size then 1 else 0).
Proof.
  intros Hr. induction n as [|n IH].
  - simpl. rewrite Nat.Div0.mod_0_l. rewrite Nat.Div0.div_0_l. done.
  - rewrite seq_S, List.filter_app, length_app, IH. simpl. unfold RoundRobin_isMyRecord.
    pose proof (Nat.div_mod_eq n size) as E. pose proof (Nat.mod_upper_bound n size ltac:(lia)) as B.
    destruct (decide (S (n mod size) = size)) as [Hw|Hw].
    + assert (S n / size = S (n / size)) as ->
        by (symmetry; apply (Nat.div_unique _ _ _ 0); nia).
      assert (S n mod size = 0) as ->
        by (symmetry; apply (Nat.mod_unique _ _ (S (n / size))); nia).
      destruct (Nat.eqb_spec (n mod size) rank), (Nat.ltb_spec rank (n mod size)); simpl; lia.
    + assert (S n / size = n / size) as ->
        by (symmetry; apply (Nat.div_unique _ _ _ (S (n mod size))); nia).
      assert (S n mod size = S (n mod size)) as ->
        by (symmetry; apply (Nat.mod_unique _ _ (n / size)); nia).
      destruct (Nat.eqb_spec (n mod size) rank), (Nat.ltb_spec rank (n mod size)),
        (Nat.ltb_spec rank (S (n mod size))); simpl; lia.
Qed.

(** * AtlasDistribution *)

(** Its RecordAssigner.  The mesh partition that contains a point
    ([atlas::util::PolygonLocator]) is a parameter. *)
Record RecordAssigner := {
  myRecords_ : gset nat;
  nextRecordToAssign_ : nat
}.

Definition RecordAssigner_new : RecordAssigner :=
  {| myRecords_ := ∅; nextRecordToAssign_ := 0 |}.

Section Atlas.
Context {Pt : Type} (locator : Pt -> Z).

Definition RecordAssigner_isInMyDomain (rank : nat) (point : Pt) : bool :=
  bool_decide (locator point = Z.of_nat rank).

Definition RecordAssigner_assignRecord (rank : nat) (s : RecordAssigner) (recNum : nat)
    (point : Pt) : res RecordAssigner :=
  if recNum =? nextRecordToAssign_ s then
    let myRecord := RecordAssigner_isInMyDomain rank point in
    Ok {| myRecords_ := if myRecord then {[recNum]} ∪ myRecords_ s else myRecords_ s;
          nextRecordToAssign_ := S (nextRecordToAssign_ s) |}
  else
    _ ← assert (recNum <? nextRecordToAssign_ s); Ok s.

Definition RecordAssigner_isMyRecord (s : RecordAssigner) (recNum : nat) : bool :=
  bool_decide (recNum ∈ myRecords_ s).

Definition AtlasDistribution : Type := RecordAssigner * NonoverlappingDistribution.

Definition Atlas_isMyRecord (s : AtlasDistribution) (RecNum : nat) : bool :=
  RecordAssigner_isMyRecord s.1 RecNum.

Definition Atlas_assignRecord (rank : nat) (s : AtlasDistribution) (recNum locNum : nat)
    (point : Pt) : res AtlasDistribution :=
  ra ← RecordAssigner_assignRecord rank s.1 recNum point;
  Ok (ra, Nonoverlapping_assignRecord (RecordAssigner_isMyRecord ra) s.2 recNum locNum).

Definition Atlas_assign_all (rank : nat) (locs : list (nat * nat * Pt)) : res AtlasDistribution :=
  foldM (fun s '(rec, loc, pt) => Atlas_assignRecord rank s rec loc pt)
    (RecordAssigner_new, NonoverlappingDistribution_new) locs.

(** The records seen so far are numbered consecutively in order of first
    appearance. *)
Fixpoint consecutive (next : nat) (recs : list nat) : bool :=
  match recs with
  | [] => true
  | r :: recs => if r =? next then consecutive (S next) recs
                 else (r <? next) && consecutive next recs
  end.

(** The point of the first location of a record. *)
Fixpoint first_point (locs : list (nat * nat * Pt)) (rec : nat) : option Pt :=
  match locs with
  | [] => None
  | (r, _, pt) :: locs => if r =? rec then Some pt else first_point locs rec
  end.

Definition Atlas_isMy (locs : list (nat * nat * Pt)) (rank rec : nat) : bool :=
  match first_point locs rec with
  | Some pt => RecordAssigner_isInMyDomain rank pt
  | None => false
  end.
End Atlas.

Section Atlas_proofs.
Context {Pt : Type} (locator : Pt -> Z).

Lemma first_point_snoc (don : list (nat * nat * Pt)) r loc pt rec :
  first_point (don ++ [(r, loc, pt)]) rec =
    match first_point don rec with
    | Some p => Some p
    | None => if r =? rec then Some pt else None
    end.
Proof. induction don as [|[[r' l'] p'] don IH]; simpl; [done|]. by destruct (r' =? rec). Qed.

Lemma first_point_seen (don : list (nat * nat * Pt)) x :
  x ∈ don -> is_Some (first_point don x.1.1).
Proof.
  induction 1 as [[[r l] p] don|[[r l] p] [[r' l'] p'] don _ IH]; simpl in *.
  - rewrite Nat.eqb_refl. by eexists.
  - destruct (r' =? r); [by eexists|done].
Qed.

Lemma held_ext isMy1 isMy2 recs rank :
  (forall x, x ∈ recs -> isMy1 rank x.1 = isMy2 rank x.1) ->
  held isMy1 recs rank = held isMy2 recs rank.
Proof.
  intros He. unfold held. f_equal. induction recs as [|[r l] recs IH]; simpl; [done|].
  pose proof (He (r, l) ltac:(left)) as E. simpl in E. rewrite E, IH; [done|].
  intros; apply He; by right.
Qed.

Lemma held_snoc isMy recs rank r l :
  held isMy (recs ++ [(r, l)]) rank =
    held isMy recs rank ++ (if isMy rank r then [l] else []).
Proof. unfold held. rewrite List.filter_app, map_app. simpl. by destruct (isMy rank r). Qed.

(** What one rank's AtlasDistribution has recorded after the locations [don]. *)
Record atlas_inv (rank : nat) (don : list (nat * nat * Pt)) (s : AtlasDistribution) : Prop := {
  ai_mine : forall rec, rec ∈ myRecords_ s.1 <-> Atlas_isMy locator don rank rec = true;
  ai_seen : forall rec, is_Some (first_point don rec) <-> rec < nextRecordToAssign_ s.1;
  ai_next : forall rest, consecutive 0 (map (fun x => x.1.1) (don ++ rest)) = true ->
    consecutive (nextRecordToAssign_ s.1) (map (fun x => x.1.1) rest) = true;
  ai_count : numLocationsOnThisRank_ s.2 =
    length (held (Atlas_isMy locator don) (map fst don) rank)
}.

Lemma atlas_isMy_snoc_seen don r loc pt rank rec :
  is_Some (first_point don rec) ->
  Atlas_isMy locator (don ++ [(r, loc, pt)]) rank rec = Atlas_isMy locator don rank rec.
Proof. unfold Atlas_isMy. rewrite first_point_snoc. by intros [p ->]. Qed.

Lemma atlas_inv_count rank don r loc pt (n : nat) :
  n = length (held (Atlas_isMy locator don) (map fst don) rank) ->
  (if Atlas_isMy locator (don ++ [(r, loc, pt)]) rank r then S n else n) =
  length (held (Atlas_isMy locator (don ++ [(r, loc, pt)]))
            (map fst (don ++ [(r, loc, pt)])) rank).
Proof.
  intros ->. rewrite map_app. simpl. rewrite held_snoc.
  rewrite (held_ext (Atlas_isMy locator (don ++ [(r, loc, pt)])) (Atlas_isMy locator don)).
  - rewrite length_app. destruct (Atlas_isMy _ _ rank r); simpl; lia.
  - intros x (y & -> & Hy)%list_elem_of_fmap. apply atlas_isMy_snoc_seen.
    by apply first_point_seen.
Qed.

(** The first location of a record that has not been assigned yet. *)
Lemma atlas_mine_new rank don loc pt s :
  atlas_inv rank don s -> let n := nextRecordToAssign_ s.1 in
  forall rec, rec ∈ (if RecordAssigner_isInMyDomain locator rank pt
                     then {[n]} ∪ myRecords_ s.1 else myRecords_ s.1) <->
    Atlas_isMy locator (don ++ [(n, loc, pt)]) rank rec = true.
Proof.
  intros [Hm Hs _ _] n rec. unfold Atlas_isMy. rewrite first_point_snoc.
  specialize (Hm rec). unfold Atlas_isMy in Hm.
  destruct (decide (rec = n)) as [->|Hd].
  - assert (first_point don n = None) as Hnone.
    { apply eq_None_not_Some. rewrite Hs. unfold n. lia. }
    rewrite Hnone in *. rewrite Nat.eqb_refl.
    destruct (RecordAssigner_isInMyDomain locator rank pt); set_solver.
  - assert (n =? rec = false) as -> by (apply Nat.eqb_neq; lia).
    destruct (first_point don rec), (RecordAssigner_isInMyDomain locator rank pt); set_solver.
Qed.

Lemma atlas_step_new rank don loc pt s :
  atlas_inv rank don s -> let n := nextRecordToAssign_ s.1 in
  exists s', Atlas_assignRecord locator rank s n loc pt = Ok s' /\
    atlas_inv rank (don ++ [(n, loc, pt)]) s'.
Proof.
  intros Hinv n. pose proof (atlas_mine_new rank don loc pt s Hinv) as Hmine.
  fold n in Hmine. destruct Hinv as [Hm Hs Hn Hc].
  unfold Atlas_assignRecord, RecordAssigner_assignRecord. fold n. rewrite Nat.eqb_refl.
  eexists; split; [reflexivity|]. split; simpl.
  - done.
  - intros rec. rewrite first_point_snoc. specialize (Hs rec). fold n in Hs |- *.
    destruct (first_point don rec) eqn:E.
    + split; [intros _|by eexists]. assert (rec < n) by (by apply Hs). lia.
    + destruct (Nat.eqb_spec n rec) as [->|]; [split; [lia|by eexists]|].
      split; [by intros [? ?]|]. intros Hlt. apply Hs. lia.
  - intros rest Hcons. rewrite <- app_assoc in Hcons. apply Hn in Hcons. simpl in Hcons.
    fold n in Hcons. by rewrite Nat.eqb_refl in Hcons.
  - rewrite <- (atlas_inv_count rank don n loc pt _ Hc). unfold Nonoverlapping_assignRecord.
    match goal with |- numLocationsOnThisRank_ (if ?b then _ else _) = _ =>
      assert (b = Atlas_isMy locator (don ++ [(n, loc, pt)]) rank n) as -> end.
    { unfold RecordAssigner_isMyRecord. simpl. apply eq_true_iff_eq.
      rewrite bool_decide_eq_true. apply Hmine. }
    by destruct (Atlas_isMy _ _ rank n).
Qed.

(** A further location of a record that has been assigned. *)
Lemma atlas_step_seen rank don r loc pt s :
  atlas_inv rank don s -> r < nextRecordToAssign_ s.1 ->
  exists s', Atlas_assignRecord locator rank s r loc pt = Ok s' /\
    atlas_inv rank (don ++ [(r, loc, pt)]) s'.
Proof.
  intros [Hm Hs Hn Hc] Hr. unfold Atlas_assignRecord, RecordAssigner_assignRecord.
  assert (Hne : r =? nextRecordToAssign_ s.1 = false) by (apply Nat.eqb_neq; lia).
  assert (Hlt : r <? nextRecordToAssign_ s.1 = true) by (by apply Nat.ltb_lt).
  rewrite Hne, Hlt. simpl. eexists; split; [reflexivity|].
  assert (Hsome : is_Some (first_point don r)) by (by apply Hs).
  assert (Hsame : forall rec, first_point (don ++ [(r, loc, pt)]) rec = first_point don rec).
  { intros rec. rewrite first_point_snoc. destruct (first_point don rec) eqn:E; [done|].
    destruct (Nat.eqb_spec r rec); [subst; destruct Hsome; congruence|done]. }
  split; simpl.
  - intros rec. unfold Atlas_isMy. rewrite Hsame. apply Hm.
  - intros rec. rewrite Hsame. apply Hs.
  - intros rest Hcons. rewrite <- app_assoc in Hcons. apply Hn in Hcons. simpl in Hcons.
    rewrite Hne in Hcons. by apply andb_true_iff in Hcons as [_ ?].
  - rewrite <- (atlas_inv_count rank don _ loc pt _ Hc). unfold Nonoverlapping_assignRecord.
    assert (RecordAssigner_isMyRecord s.1 r = Atlas_isMy locator (don ++ [(r, loc, pt)]) rank r) as ->.
    { rewrite atlas_isMy_snoc_seen by done. apply eq_true_iff_eq.
      unfold RecordAssigner_isMyRecord. rewrite bool_decide_eq_true. apply Hm. }
    by destruct (Atlas_isMy _ _ rank r).
Qed.

(** A rank that is told of all locations, with the records numbered
    consecutively, never fails its assertion and ends in the invariant. *)
Lemma atlas_run rank locs :
  consecutive 0 (map (fun x => x.1.1) locs) = true ->
  exists s, Atlas_assign_all locator rank locs = Ok s /\ atlas_inv rank locs s.
Proof.
  intros Hcons. apply (foldM_ind _ (atlas_inv rank)).
  - split; simpl; try done. intros rec. split; [by intros []|lia].
  - intros don [[r loc] pt] s Hinv [rest ->].
    rewrite <- app_assoc in Hcons. pose proof (ai_next _ _ _ Hinv _ Hcons) as Hr. simpl in Hr.
    destruct (Nat.eqb_spec r (nextRecordToAssign_ s.1)) as [->|].
    + by apply atlas_step_new.
    + apply atlas_step_seen; [done|]. apply andb_true_iff in Hr as [Hr _]. by apply Nat.ltb_lt.
Qed.

(** When the locator puts every point in the domain of one of the ranks, every
    location is held by exactly one rank. *)
Lemma atlas_partition size locs :
  (forall pt : Pt, (0 <= locator pt < Z.of_nat size)%Z) ->
  concat (map (held (Atlas_isMy locator locs) (map fst locs)) (seq 0 size)) ≡ₚ
    map snd (map fst locs).
Proof.
  intros Hloc.
  assert (locs = [] \/ 0 < size) as [->|Hs].
  { destruct locs as [|[[? ?] pt] ?]; [by left|right]. specialize (Hloc pt). lia. }
  { simpl. by rewrite concat_held_nil. }
  set (isMy' := fun rank rec => match first_point locs rec with
    | Some pt => RecordAssigner_isInMyDomain locator rank pt | None => rank =? 0 end).
  rewrite <- (held_partition isMy' size).
  - apply Permutation_refl'. f_equal. apply map_ext. intros rank.
    apply held_ext. intros x (y & -> & Hy)%list_elem_of_fmap.
    destruct (first_point_seen _ _ Hy) as [pt Hpt]. unfold Atlas_isMy, isMy'. by rewrite Hpt.
  - intros rec. unfold isMy'. destruct (first_point locs rec) as [pt|].
    + specialize (Hloc pt). exists (Z.to_nat (locator pt)). split; [lia|].
      intros rank _. unfold RecordAssigner_isInMyDomain. apply eq_true_iff_eq.
      rewrite bool_decide_eq_true, Nat.eqb_eq. lia.
    + exists 0. split; [done|]. done.
Qed.
End Atlas_proofs.

(** * Contracts of the non-overlapping distributions *)

(** RoundRobin puts every location on exactly one rank (the rank of its
    record), and after [computePatchLocs] keeps the contract of a distribution,
    the gathered order being the locations by rank. *)
Theorem roundrobin_contract `{MpiLaws} size (recs : list (nat * nat)) :
  0 < size -> NoDup (map snd recs) ->
  let isMy := RoundRobin_isMyRecord size in
  let L := map (held isMy recs) (seq 0 size) in
  DistContract (Nonoverlapping_dist isMy
    (Nonoverlapping_computePatchLocs (assign_all isMy size recs))) L (concat L) /\
  concat L ≡ₚ map snd recs.
Proof. intros Hs Hnd. apply assign_all_contract; auto using roundrobin_partitions. Qed.

Lemma roundrobin_contract_witness :
  let L := [[0; 3]; [1]; [2]] in
  @DistContract nat (@Nonoverlapping_dist reference_comm (RoundRobin_isMyRecord 3)
    (@Nonoverlapping_computePatchLocs reference_comm
      (assign_all (RoundRobin_isMyRecord 3) 3 [(0, 0); (1, 1); (2, 2); (3, 3)]))) L (concat L) /\
  concat L ≡ₚ [0; 1; 2; 3].
Proof.
  apply (@roundrobin_contract reference_comm reference_laws 3 [(0, 0); (1, 1); (2, 2); (3, 3)]).
  - lia.
  - apply (bool_decide_unpack _). vm_compute. exact I.
Defined.

(** RoundRobin is balanced: of the records 0, ..., n-1 two ranks get numbers
    that differ by at most one. *)
Theorem roundrobin_balanced size rank1 rank2 n :
  rank1 < size -> rank2 < size ->
  length (List.filter (RoundRobin_isMyRecord size rank1) (seq 0 n)) <=
    S (length (List.filter (RoundRobin_isMyRecord size rank2) (seq 0 n))).
Proof. intros H1 H2. rewrite !roundrobin_count by done. repeat case_match; lia. Qed.

Lemma roundrobin_balanced_witness :
  length (List.filter (RoundRobin_isMyRecord 3 0) (seq 0 7)) <=
    S (length (List.filter (RoundRobin_isMyRecord 3 2) (seq 0 7))).
Proof. apply (roundrobin_balanced 3 0 2 7); lia. Defined.

(** All ranks of an AtlasDistribution, told of all locations. *)
Definition Atlas_run {Pt} (locator : Pt -> Z) (size : nat) (locs : list (nat * nat * Pt))
  : res (list AtlasDistribution) :=
  imapR (fun rank (_ : unit) => Atlas_assign_all locator rank locs) (replicate size ()).

Lemma atlas_run_contract `{MpiLaws} {Pt} (locator : Pt -> Z) size (locs : list (nat * nat * Pt)) :
  0 < size -> (forall pt, (0 <= locator pt < Z.of_nat size)%Z) ->
  consecutive 0 (map (fun x => x.1.1) locs) = true -> NoDup (map (fun x => x.1.2) locs) ->
  let isMy := Atlas_isMy locator locs in
  let L := map (held isMy (map fst locs)) (seq 0 size) in
  exists ss, Atlas_run locator size locs = Ok ss /\
    (forall rank s, ss !! rank = Some s -> forall rec, Atlas_isMyRecord s rec = isMy rank rec) /\
    DistContract (Nonoverlapping_dist isMy (Nonoverlapping_computePatchLocs (map snd ss)))
      L (concat L) /\
    concat L ≡ₚ map (fun x => x.1.2) locs.
Proof.
  intros Hs Hloc Hcons Hnd isMy L.
  destruct (imapR_spec (fun rank (_ : unit) => Atlas_assign_all locator rank locs)
    (fun r _ s => atlas_inv locator r locs s) (replicate size ())) as (ss & Hss & Hlen & Hinv).
  { intros r x _. by apply atlas_run. }
  rewrite length_replicate in Hlen. exists ss. split; [done|].
  assert (Hi : forall r s, ss !! r = Some s -> atlas_inv locator r locs s).
  { intros r s Hr. destruct (Hinv r ()) as (s' & Hs' & Hi); [|by simplify_eq].
    apply lookup_replicate_2. rewrite <- Hlen. by eapply lookup_lt_Some. }
  pose proof (atlas_partition locator size locs Hloc) as Hperm. rewrite map_map in Hperm.
  split_and!; [| |done].
  - intros r s Hr rec. apply eq_true_iff_eq. unfold Atlas_isMyRecord, RecordAssigner_isMyRecord.
    rewrite bool_decide_eq_true. apply (ai_mine _ _ _ _ (Hi _ _ Hr)).
  - apply nonoverlapping_contract.
    + apply list_eq_same_length with size; unfold L; rewrite ?length_map, ?length_seq; [done..|].
      intros r x y Hr Hx Hy. rewrite map_map in Hx.
      apply list_lookup_fmap_Some_1 in Hx as (s & -> & Es).
      apply list_lookup_fmap_Some_1 in Hy as (r' & -> & Hr').
      rewrite list_lookup_fmap, lookup_seq_lt in Hr' by done. simplify_eq/=.
      apply (ai_count _ _ _ _ (Hi _ _ Es)).
    + unfold L. destruct size; [lia|done].
    + unfold L, isMy. by rewrite Hperm.
Qed.

(** AtlasDistribution, when records are numbered consecutively in order of
    appearance and the locator puts every point in the domain of a rank: no
    assertion fails on any rank, every location is held by exactly one rank, the
    one whose domain has the first location of the record, and the distribution
    keeps its contract. *)
Theorem atlas_contract `{MpiLaws} {Pt} (locator : Pt -> Z) size (locs : list (nat * nat * Pt)) :
  0 < size -> (forall pt, (0 <= locator pt < Z.of_nat size)%Z) ->
  consecutive 0 (map (fun x => x.1.1) locs) = true -> NoDup (map (fun x => x.1.2) locs) ->
  let isMy := Atlas_isMy locator locs in
  let L := map (held isMy (map fst locs)) (seq 0 size) in
  exists ss, Atlas_run locator size locs = Ok ss /\
    (forall rank s, ss !! rank = Some s -> forall rec, Atlas_isMyRecord s rec = isMy rank rec) /\
    DistContract (Nonoverlapping_dist isMy (Nonoverlapping_computePatchLocs (map snd ss)))
      L (concat L) /\
    concat L ≡ₚ map (fun x => x.1.2) locs.
Proof. apply atlas_run_contract. Qed.

(** Two ranks split the line at 0. *)
Lemma atlas_contract_witness :
  let locator := fun pt : Z => if (pt <? 0)%Z then 0%Z else 1%Z in
  let locs := [(0, 0, 5%Z); (1, 1, (-3)%Z); (0, 2, 6%Z)] in
  let L := map (held (Atlas_isMy locator locs) (map fst locs)) (seq 0 2) in
  exists ss, Atlas_run locator 2 locs = Ok ss /\
    (forall rank s, ss !! rank = Some s ->
      forall rec, Atlas_isMyRecord s rec = Atlas_isMy locator locs rank rec) /\
    @DistContract nat (@Nonoverlapping_dist reference_comm (Atlas_isMy locator locs)
      (@Nonoverlapping_computePatchLocs reference_comm (map snd ss))) L (concat L) /\
    concat L ≡ₚ [0; 1; 2].
Proof.
  intros locator locs. apply (@atlas_contract reference_comm reference_laws Z locator 2 locs).
  - lia.
  - intros pt. unfold locator. case_match; lia.
  - reflexivity.
  - apply (bool_decide_unpack _). vm_compute. exact I.
Defined.

(** A replica of a non-overlapping distribution (made for the companion
    locations of an extended ObsSpace) puts every location on the rank where the
    master has its record, exactly once, and keeps the contract. *)
Theorem replica_of_nonoverlapping_contract `{MpiLaws} (master : Distribution) size
    (recs : list (nat * nat)) :
  partitions (isMyRecord master) size -> 0 < size -> NoDup (map snd recs) ->
  let isMy := ReplicaOfNonoverlapping_isMyRecord master in
  let L := map (held isMy recs) (seq 0 size) in
  DistContract (Nonoverlapping_dist isMy
    (Nonoverlapping_computePatchLocs (assign_all isMy size recs))) L (concat L) /\
  concat L ≡ₚ map snd recs.
Proof. intros Hp Hs Hnd. by apply assign_all_contract. Qed.

Lemma replica_of_nonoverlapping_contract_witness :
  let master := @Nonoverlapping_dist reference_comm (RoundRobin_isMyRecord 2)
    (@Nonoverlapping_computePatchLocs reference_comm
      (assign_all (RoundRobin_isMyRecord 2) 2 [(0, 0); (1, 1); (2, 2)])) in
  let isMy := ReplicaOfNonoverlapping_isMyRecord master in
  let L := map (held isMy [(0, 0); (0, 1); (1, 2)]) (seq 0 2) in
  @DistContract nat (@Nonoverlapping_dist reference_comm isMy
    (@Nonoverlapping_computePatchLocs reference_comm
      (assign_all isMy 2 [(0, 0); (0, 1); (1, 2)]))) L (concat L) /\
  concat L ≡ₚ [0; 1; 2].
Proof.
  apply (@replica_of_nonoverlapping_contract reference_comm reference_laws).
  - apply (roundrobin_partitions 2). lia.
  - lia.
  - apply (bool_decide_unpack _). vm_compute. exact I.
Defined.
