(* ===== verification/Inefficient.v ===== *)
(** The distribution that holds all observations on all ranks:
    src/src/distribution/InefficientDistribution.{h,cc}. *)
From stdpp Require Import base list.
From S2P Require Import Prelude Mpi Distribution.

(** [patchObs]: rank 0 owns all observations. *)
Definition Inefficient_patchObs (rank : nat) (patchObsVec : list bool) : list bool :=
  if rank =? 0 then map (fun _ => true) patchObsVec else map (fun _ => false) patchObsVec.

Definition Inefficient_globalUniqueConsecutiveLocationIndex (loc : nat) : nat := loc.

(** [min], [max] and [allGatherv] do nothing. *)
Definition Inefficient_dist (size : nat) : Distribution := {|
  dist_size := size;
  isIdentity := true;
  isNonoverlapping := false;
  isMyRecord _ _ := true;
  patchObs rank v := Ok (Inefficient_patchObs rank v);
  reduce _ _ xs := xs;
  createAccumulator := InefficientDistributionAccumulator;
  allGatherv _ xs := Ok xs;
  globalUniqueConsecutiveLocationIndex _ loc :=
    Ok (Inefficient_globalUniqueConsecutiveLocationIndex loc)
|}.

Lemma Inefficient_patch_sel {A} n (l : list A) :
  0 < n ->
  concat (zip_with sel
    (imap (fun r l => Inefficient_patchObs r (replicate (length l) false)) (replicate n l))
    (replicate n l)) = l.
Proof.
  destruct n as [|n]; [lia|]. intros _. simpl. unfold Inefficient_patchObs at 1. simpl.
  replace (map (fun _ => true) (replicate (length l) false)) with (replicate (length l) true)
    by (symmetry; apply (fmap_replicate (fun _ => true))).
  rewrite sel_replicate_true.
  cut (forall k m, concat (zip_with sel
    (imap (fun r l => Inefficient_patchObs (S (k + r)) (replicate (length l) false)) (replicate m l))
    (replicate m l)) = []).
  { intros Hc. pose proof (Hc 0 n) as E. simpl in E. etransitivity; [|apply app_nil_r].
    f_equal. exact E. }
  intros k m. revert k. induction m as [|m IH]; intros k; simpl; [done|].
  unfold Inefficient_patchObs at 1. simpl.
  replace (map (fun _ => false) (replicate (length l) false)) with (replicate (length l) false)
    by (symmetry; apply (fmap_replicate (fun _ => false))).
  rewrite sel_replicate_false. simpl. rewrite <- (IH (S k)). do 2 f_equal.
Qed.

Lemma accumulate_inefficient {T} `{NumLaws T} n (ts : list T) :
  accumulate (InefficientDistributionAccumulator T _) (replicate n ts) =
    Ok (replicate n (nsum ts)).
Proof.
  unfold accumulate. rewrite (imapR_Ok _ (fun _ => nsum)).
  - simpl. f_equal.
    change (imap (fun _ => nsum) (replicate n ts)) with (imap (const nsum) (replicate n ts)).
    rewrite imap_const. apply fmap_replicate.
  - intros r ts' Hr. apply lookup_replicate in Hr as [-> _]. apply plain_rank.
Qed.

Lemma inefficient_contract {G} size (l : list G) :
  0 < size -> NoDup l -> DistContract (Inefficient_dist size) (replicate size l) l.
Proof.
  intros Hs Hnd. split; simpl.
  - apply length_replicate.
  - done.
  - intros g. split.
    + intros Hg. exists l. split; [|done]. apply elem_of_replicate. split; [done|lia].
    + by intros (l' & [-> _]%elem_of_replicate & Hg).
  - intros A f. rewrite length_replicate. f_equal. apply fmap_replicate.
  - intros r l' i g [-> _]%lookup_replicate Hi. by exists i.
  - eexists. split_and!.
    + apply imapR_Ok. done.
    + apply Forall2_same_length_lookup_2; [by rewrite length_imap|].
      intros r m l' Hm Hl'. rewrite list_lookup_imap, Hl' in Hm. simplify_eq/=.
      unfold Inefficient_patchObs. case_match; by rewrite length_map, length_replicate.
    + by rewrite Inefficient_patch_sel.
  - intros T N NL f. rewrite length_replicate.
    replace (map (map f) (replicate size l)) with (replicate size (map f l))
      by (symmetry; apply fmap_replicate).
    apply accumulate_inefficient.
Qed.
