(* ===== verification/Halo.v ===== *)
(** The overlapping distribution of src/src/distribution/Halo.{h,cc}: a record
    is held by every rank whose centre is close enough to its first location,
    and each location is a patch observation of the closest of those ranks. *)
From stdpp Require Import base list sorting gmap.
From S2P Require Import Prelude Mpi Distribution.

Section Halo.
Context `{MpiComm}.
(** [double], points on the sphere and [eckit::geometry::Sphere::distance]. *)
Context {D Pt : Type} `{Double D} (distance : Pt -> Pt -> D).

(** The data members on one rank. *)
Record Halo := {
  radius_ : D;
  center_ : Pt;
  recordsInHalo_ : gset nat;
  patchObsBool_ : list bool;
  globalUniqueConsecutiveLocIndices_ : list nat;
  recordsOutsideHalo_ : gset nat;
  recordDistancesFromCenter_ : gmap nat D;
  haloLocRecords_ : list nat;
  haloLocVector_ : list nat
}.

Definition Halo_new (radius : D) (center : Pt) : Halo := {|
  radius_ := radius; center_ := center;
  recordsInHalo_ := ∅; patchObsBool_ := []; globalUniqueConsecutiveLocIndices_ := [];
  recordsOutsideHalo_ := ∅; recordDistancesFromCenter_ := ∅;
  haloLocRecords_ := []; haloLocVector_ := [] |}.

(** The end of [assignRecord]: the record is on this PE, store the location. *)
Definition Halo_store (s : Halo) (RecNum LocNum : nat) : Halo := {|
  radius_ := radius_ s; center_ := center_ s;
  recordsInHalo_ := recordsInHalo_ s; patchObsBool_ := patchObsBool_ s;
  globalUniqueConsecutiveLocIndices_ := globalUniqueConsecutiveLocIndices_ s;
  recordsOutsideHalo_ := recordsOutsideHalo_ s;
  recordDistancesFromCenter_ := recordDistancesFromCenter_ s;
  haloLocRecords_ := haloLocRecords_ s ++ [RecNum];
  haloLocVector_ := haloLocVector_ s ++ [LocNum] |}.

Definition Halo_assignRecord (s : Halo) (RecNum LocNum : nat) (point : Pt) : Halo :=
  if decide (RecNum ∈ recordsOutsideHalo_ s) then s
  else if decide (RecNum ∈ recordsInHalo_ s) then Halo_store s RecNum LocNum
  else
    let dist := distance (center_ s) point in
    if d_leb dist (radius_ s) then
      Halo_store {| radius_ := radius_ s; center_ := center_ s;
        recordsInHalo_ := {[RecNum]} ∪ recordsInHalo_ s; patchObsBool_ := patchObsBool_ s;
        globalUniqueConsecutiveLocIndices_ := globalUniqueConsecutiveLocIndices_ s;
        recordsOutsideHalo_ := recordsOutsideHalo_ s;
        recordDistancesFromCenter_ := <[RecNum := dist]> (recordDistancesFromCenter_ s);
        haloLocRecords_ := haloLocRecords_ s; haloLocVector_ := haloLocVector_ s |}
        RecNum LocNum
    else {| radius_ := radius_ s; center_ := center_ s;
        recordsInHalo_ := recordsInHalo_ s; patchObsBool_ := patchObsBool_ s;
        globalUniqueConsecutiveLocIndices_ := globalUniqueConsecutiveLocIndices_ s;
        recordsOutsideHalo_ := {[RecNum]} ∪ recordsOutsideHalo_ s;
        recordDistancesFromCenter_ := recordDistancesFromCenter_ s;
        haloLocRecords_ := haloLocRecords_ s; haloLocVector_ := haloLocVector_ s |}.

Definition Halo_isMyRecord (s : Halo) (RecNum : nat) : bool :=
  bool_decide (RecNum ∈ recordsInHalo_ s).

(** [computePatchLocs], the largest global location index plus one of a rank. *)
Definition Halo_nglocs (s : Halo) : nat :=
  match last (haloLocVector_ s) with Some g => g + 1 | None => 0 end.

(** ... the rank's vector of pairs (distance, rank), [inf] where not held *)
Definition Halo_dist_and_lidx_loc (myRank nglocs : nat) (s : Halo) : res (list (D * nat)) :=
  foldM (fun v '(loc, gloc) =>
      recNum ← vec_get (haloLocRecords_ s) loc;
      match recordDistancesFromCenter_ s !! recNum with
      | Some dist => vec_set v gloc (dist, myRank)
      | None => Throw EOutOfRange
      end)
    (replicate nglocs (d_inf, myRank)) (imap (fun loc gloc => (loc, gloc)) (haloLocVector_ s)).

(** ... the patch observations: those for which this rank has the minimum *)
Definition Halo_patchObsLoc (myRank : nat) (glb : list (D * nat)) (s : Halo) : res (gset nat) :=
  foldM (fun ids i => p ← vec_get glb i; Ok (if p.2 =? myRank then {[i]} ∪ ids else ids))
    ∅ (haloLocVector_ s).

(** [computeGlobalUniqueConsecutiveLocIndices], step 1 *)
Definition Halo_index_patch_obs (size : nat) (glb : list (D * nat)) (s : Halo)
  : res (list nat * list nat) :=
  let haloLocSet : gset nat := list_to_set (haloLocVector_ s) in
  foldM (fun '(idx, patchObsCountOnRank) '(gloc, p) =>
      if d_ltb (p : D * nat).1 d_inf then
        c ← vec_get patchObsCountOnRank p.2;
        counts ← vec_set patchObsCountOnRank p.2 (S c);
        Ok (if decide (gloc ∈ haloLocSet) then idx ++ [c] else idx, counts)
      else Ok (idx, patchObsCountOnRank))
    (globalUniqueConsecutiveLocIndices_ s, replicate size 0)
    (imap (fun gloc p => (gloc, p)) glb).

(** ... step 2: the exclusive scan *)
Definition Halo_exclusive_scan (patchObsCountOnRank : list nat) : res (list nat) :=
  foldM (fun prev rank =>
      a ← vec_get prev (rank - 1); b ← vec_get patchObsCountOnRank (rank - 1);
      vec_set prev rank (a + b))
    (replicate (length patchObsCountOnRank) 0) (seq 1 (length patchObsCountOnRank - 1)).

(** ... and the increments *)
Definition Halo_computeGlobalUniqueConsecutiveLocIndices (size : nat) (glb : list (D * nat))
    (s : Halo) : res (list nat) :=
  '(idx, counts) ← Halo_index_patch_obs size glb s;
  prev ← Halo_exclusive_scan counts;
  imapR (fun loc v =>
      gloc ← vec_get (haloLocVector_ s) loc;
      p ← vec_get glb gloc;
      off ← vec_get prev p.2;
      Ok (v + off)) idx.

(** What a rank does after the [minloc] reduction. *)
Definition Halo_finish (size myRank nglocs : nat) (glb : list (D * nat)) (s : Halo) : res Halo :=
  if decide (0 < nglocs) then
    patchObsLoc ← Halo_patchObsLoc myRank glb s;
    indices ← Halo_computeGlobalUniqueConsecutiveLocIndices size glb s;
    Ok {| radius_ := radius_ s; center_ := center_ s; recordsInHalo_ := recordsInHalo_ s;
          patchObsBool_ := patchObsBool_ s ++
            map (fun gloc => bool_decide (gloc ∈ patchObsLoc)) (haloLocVector_ s);
          globalUniqueConsecutiveLocIndices_ := indices;
          recordsOutsideHalo_ := ∅; recordDistancesFromCenter_ := ∅;
          haloLocRecords_ := []; haloLocVector_ := [] |}
  else
    Ok {| radius_ := radius_ s; center_ := center_ s; recordsInHalo_ := recordsInHalo_ s;
          patchObsBool_ := patchObsBool_ s;
          globalUniqueConsecutiveLocIndices_ := globalUniqueConsecutiveLocIndices_ s;
          recordsOutsideHalo_ := ∅;
          recordDistancesFromCenter_ := recordDistancesFromCenter_ s;
          haloLocRecords_ := haloLocRecords_ s; haloLocVector_ := haloLocVector_ s |}.

(** [computePatchLocs] on all ranks.  The reduction with [minloc] is only made
    when [nglocs > 0], which is the same on all ranks; its result is not used
    otherwise. *)
Definition Halo_computePatchLocs (ss : list Halo) : res (list Halo) :=
  let nglocs := comm_allReduce Nat.max (map Halo_nglocs ss) in
  locs ← imapR (fun rank '(s, n) => Halo_dist_and_lidx_loc rank n s) (zip ss nglocs);
  let glbs := comm_allReduceVec (minloc d_ltb) locs in
  imapR (fun rank '(s, (n, glb)) => Halo_finish (length ss) rank n glb s)
    (zip ss (zip nglocs glbs)).

(** [patchObs], the reductions and [allGatherv] *)
Definition Halo_patchObs (s : Halo) (patchObsVec : list bool) : list bool := patchObsBool_ s.

Definition Halo_reduce (A : Type) (op : A -> A -> A) (xs : list A) : list A :=
  comm_allReduce op xs.

Definition Halo_allGatherv (ss : list Halo) (A : Type) (xs : list (list A))
  : res (list (list A)) :=
  xtmps ← mapR (fun '(s, x) =>
      _ ← assert (length x =? length (patchObsBool_ s)); Ok (sel (patchObsBool_ s) x))
    (zip ss xs);
  Ok (comm_allGatherv xtmps).

Definition Halo_globalUniqueConsecutiveLocationIndex (s : Halo) (loc : nat) : res nat :=
  vec_get (globalUniqueConsecutiveLocIndices_ s) loc.

Definition Halo_dist (ss : list Halo) : Distribution := {|
  dist_size := length ss;
  isIdentity := false;
  isNonoverlapping := false;
  isMyRecord rank rec :=
    match ss !! rank with Some s => Halo_isMyRecord s rec | None => false end;
  patchObs rank v :=
    match ss !! rank with Some s => Ok (Halo_patchObs s v) | None => Throw EUndefined end;
  reduce := Halo_reduce;
  createAccumulator := GeneralDistributionAccumulator
    (fun rank => match ss !! rank with Some s => patchObsBool_ s | None => [] end);
  allGatherv := Halo_allGatherv ss;
  globalUniqueConsecutiveLocationIndex rank loc :=
    match ss !! rank with
    | Some s => Halo_globalUniqueConsecutiveLocationIndex s loc
    | None => Throw EUndefined
    end
|}.
End Halo.
Arguments Halo D Pt : clear implicits.

(** * Proofs *)

(** An element of a loop over a vector with its index. *)
Lemma prefix_imap_pair {A} (l : list A) don i x :
  don ++ [(i, x)] `prefix_of` imap (fun i x => (i, x)) l ->
  i = length don /\ l !! i = Some x.
Proof.
  intros [rest Hr].
  assert (imap (fun i x => (i, x)) l !! length don = Some (i, x)) as Hl.
  { rewrite Hr, <- app_assoc. rewrite lookup_app_r by lia. by rewrite Nat.sub_diag. }
  rewrite list_lookup_imap in Hl. destruct (l !! length don) as [y|] eqn:E; simplify_eq/=.
  done.
Qed.

Lemma elem_of_foldl_insert (c : nat -> bool) (l : list nat) (ids : gset nat) x :
  x ∈ foldl (fun ids i => if c i then {[i]} ∪ ids else ids) ids l <->
  x ∈ ids \/ (x ∈ l /\ c x = true).
Proof.
  revert ids. induction l as [|i l IH]; intros ids; simpl.
  - rewrite elem_of_nil. tauto.
  - rewrite IH, elem_of_cons. destruct (c i) eqn:E;
      rewrite ?elem_of_union, ?elem_of_singleton; intuition congruence.
Qed.

Section halo_proofs.
Context `{MpiLaws} {D Pt : Type} `{DoubleLaws D}.
Implicit Types s : Halo D Pt.

(** What record assignment guarantees on a rank. *)
Record halo_inv (s : Halo D Pt) : Prop := {
  hi_sorted : StronglySorted lt (haloLocVector_ s);
  hi_len : length (haloLocRecords_ s) = length (haloLocVector_ s);
  hi_dist : forall rec, rec ∈ haloLocRecords_ s ->
    exists d, recordDistancesFromCenter_ s !! rec = Some d /\ d_ltb d d_inf = true;
  hi_patch : patchObsBool_ s = [];
  hi_idx : globalUniqueConsecutiveLocIndices_ s = []
}.

(** The vector a rank contributes to the reduction. *)
Record local_dists (r n : nat) (L : list nat) (v : list (D * nat)) : Prop := {
  ld_len : length v = n;
  ld_in : forall g, g ∈ L -> exists d, v !! g = Some (d, r) /\ d_ltb d d_inf = true;
  ld_out : forall g, g ∉ L -> g < n -> v !! g = Some (d_inf, r)
}.

Lemma dist_and_lidx_loc_spec r n s :
  halo_inv s -> (forall g, g ∈ haloLocVector_ s -> g < n) ->
  exists v, Halo_dist_and_lidx_loc r n s = Ok v /\ local_dists r n (haloLocVector_ s) v.
Proof.
  intros Hinv Hlt.
  destruct (foldM_ind (fun v '(loc, gloc) =>
      recNum ← vec_get (haloLocRecords_ s) loc;
      match recordDistancesFromCenter_ s !! recNum with
      | Some dist => vec_set v gloc (dist, r) | None => Throw EOutOfRange end)
    (fun don v => local_dists r n (map snd don) v)
    (replicate n (d_inf, r)) (imap (fun loc gloc => (loc, gloc)) (haloLocVector_ s)))
    as (v & Hv & Hld).
  - split; [apply length_replicate| |].
    + intros g Hg. by apply elem_of_nil in Hg.
    + intros g _ Hg. by apply lookup_replicate_2.
  - intros don [loc gloc] v [Hlen Hin Hout] [-> Hg]%prefix_imap_pair.
    assert (length don < length (haloLocRecords_ s)) as [rec Hrec]%lookup_lt_is_Some
      by (rewrite (hi_len s Hinv); by eapply lookup_lt_Some).
    destruct (hi_dist s Hinv rec) as (d & Hd & Hfin); [by eapply list_elem_of_lookup_2|].
    assert (gloc < n) by (apply Hlt; by eapply list_elem_of_lookup_2).
    rewrite (vec_get_Some _ _ _ Hrec). simpl. rewrite Hd, vec_set_lt by lia.
    eexists; split; [done|]. rewrite map_app. split.
    + by rewrite length_insert.
    + intros g Hgin. destruct (decide (g = gloc)) as [->|Hne].
      * exists d. rewrite list_lookup_insert_eq by lia. done.
      * rewrite list_lookup_insert_ne by done. apply Hin. set_solver.
    + intros g Hgout Hgn. rewrite list_lookup_insert_ne by set_solver. apply Hout; set_solver.
  - exists v. split; [exact Hv|].
    assert (map snd (imap (fun loc gloc => (loc, gloc)) (haloLocVector_ s)) = haloLocVector_ s) as E.
    { rewrite <- (list_fmap_id (haloLocVector_ s)) at 2. change (map snd) with (fmap (M:=list) (@snd nat nat)).
      rewrite fmap_imap. apply imap_const. }
    by rewrite E in Hld.
Qed.

(** What the reduction gives every rank: for every location an owner among the
    ranks that hold it, and a finite distance exactly if some rank holds it. *)
Record owners (n : nat) (L : list (list nat)) (glb : list (D * nat)) : Prop := {
  ow_len : length glb = n;
  ow_held : forall g d o, glb !! g = Some (d, o) -> d_ltb d d_inf = true ->
    exists l, L !! o = Some l /\ g ∈ l;
  ow_fin : forall g r l, L !! r = Some l -> g ∈ l ->
    exists d o, glb !! g = Some (d, o) /\ d_ltb d d_inf = true
}.

Lemma minloc_owners n (L : list (list nat)) (v : list (D * nat)) vs :
  length L = length (v :: vs) ->
  (forall r l w, L !! r = Some l -> (v :: vs) !! r = Some w -> local_dists r n l w) ->
  (forall r l g, L !! r = Some l -> g ∈ l -> g < n) ->
  owners n L (foldl (zip_with (minloc d_ltb)) v vs).
Proof.
  intros Hlen Hld Hlt.
  assert (Hall : forall r w, (v :: vs) !! r = Some w -> exists l, L !! r = Some l /\ local_dists r n l w).
  { intros r w Hw. assert (r < length L) as [l Hl]%lookup_lt_is_Some
      by (rewrite Hlen; by eapply lookup_lt_Some). eauto. }
  assert (Hv : length v = n) by (destruct (Hall 0 v eq_refl) as (l & _ & []); done).
  assert (Hvs : Forall (fun w => length w = n) vs).
  { apply list.Forall_forall. intros w [r Hr]%list_elem_of_lookup.
    destruct (Hall (S r) w Hr) as (l & _ & []); done. }
  split.
  - by apply length_foldl_zip.
  - intros g d o Hg Hfin.
    assert (g < n) by (rewrite <- (length_foldl_zip (minloc d_ltb) v vs n Hv Hvs); by eapply lookup_lt_Some).
    destruct (foldl_zip_lookup (minloc d_ltb) v vs n g Hv Hvs) as (x & xs & Hx & Hxs & Hf); [done|].
    rewrite Hf in Hg. injection Hg as Hg. destruct (foldl_minloc x xs) as [Hin _]. rewrite Hg in Hin.
    assert (Forall2 (fun w y => w !! g = Some y) (v :: vs) (x :: xs)) as Hall2 by (by constructor).
    apply list_elem_of_lookup in Hin as [r Hr].
    destruct (Forall2_lookup_r _ _ _ _ _ Hall2 Hr) as (w & Hw & Hwg).
    destruct (Hall r w Hw) as (l & Hl & [_ Hlin Hlout]).
    destruct (decide (g ∈ l)) as [Hgl|Hgl].
    + destruct (Hlin g Hgl) as (d' & Hd' & _). assert (r = o) as <- by congruence. eauto.
    + rewrite Hlout in Hwg by done. simplify_eq. by rewrite d_ltb_irrefl in Hfin.
  - intros g r l Hr Hgl.
    destruct (foldl_zip_lookup (minloc d_ltb) v vs n g Hv Hvs) as (x & xs & Hx & Hxs & Hf);
      [by eapply Hlt|].
    destruct (foldl_minloc x xs) as [_ Hmin].
    destruct (foldl (minloc d_ltb) x xs) as [d o] eqn:Em. exists d, o. split; [done|].
    assert (Forall2 (fun w y => w !! g = Some y) (v :: vs) (x :: xs)) as Hall2 by (by constructor).
    assert (r < length (v :: vs)) as [w Hw]%lookup_lt_is_Some
      by (rewrite <- Hlen; by eapply lookup_lt_Some).
    destruct (Hld r l w Hr Hw) as [_ Hlin _]. destruct (Hlin g Hgl) as (d' & Hd' & Hfin).
    destruct (Forall2_lookup_l _ _ _ _ _ Hall2 Hw) as (y & Hy & Hwy). rewrite Hd' in Hwy. simplify_eq.
    pose proof (Hmin (d', r) ltac:(by eapply list_elem_of_lookup_2)) as Hle.
    apply pair_leb_spec in Hle; simpl in Hle.
    destruct Hle as [Hle|[-> _]]; [by eapply d_ltb_trans|done].
Qed.

(** * The index computation, for given owners *)

Section indices.
Context (n size : nat) (L : list (list nat)) (glb : list (D * nat)).
Hypothesis Hown : owners n L glb.
Hypothesis Hsize : length L = size.

Definition owner (g : nat) : option nat :=
  match glb !! g with
  | Some (d, o) => if d_ltb d d_inf then Some o else None
  | None => None
  end.
Definition owned (r g : nat) : bool := bool_decide (owner g = Some r).
(** The number of locations before [g] with the same owner. *)
Definition before (g : nat) : nat :=
  match owner g with Some o => length (List.filter (owned o) (seq 0 g)) | None => 0 end.
Definition patch_of (r : nat) : list nat := List.filter (owned r) (seq 0 n).
Definition patch_order : list nat := concat (map patch_of (seq 0 size)).

Lemma owned_spec r g : owned r g = bool_decide (owner g = Some r).
Proof. done. Qed.

Lemma owner_held g o : owner g = Some o -> exists l, L !! o = Some l /\ g ∈ l.
Proof.
  unfold owner. destruct (glb !! g) as [[d o']|] eqn:E; [|done].
  destruct (d_ltb d d_inf) eqn:Ed; [|done]. intros [= ->]. by eapply ow_held.
Qed.

Lemma owner_lt g o : owner g = Some o -> o < size.
Proof. intros (l & Hl & _)%owner_held. rewrite <- Hsize. by eapply lookup_lt_Some. Qed.

Lemma held_owner r l g : L !! r = Some l -> g ∈ l -> exists o, owner g = Some o.
Proof.
  intros Hr Hg. destruct (ow_fin _ _ _ Hown g r l Hr Hg) as (d & o & E & Hd).
  exists o. unfold owner. by rewrite E, Hd.
Qed.

Lemma held_lt r l g : L !! r = Some l -> g ∈ l -> g < n.
Proof.
  intros Hr Hg. destruct (ow_fin _ _ _ Hown g r l Hr Hg) as (d & o & E & _).
  rewrite <- (ow_len _ _ _ Hown). by eapply lookup_lt_Some.
Qed.

(** Step 1 of the computation. *)
Definition counts_upto (k : nat) : list nat :=
  map (fun r => length (List.filter (owned r) (seq 0 k))) (seq 0 size).

Lemma counts_upto_step k o :
  owner k = Some o ->
  vec_get (counts_upto k) o = Ok (before k) /\
  vec_set (counts_upto k) o (S (before k)) = Ok (counts_upto (k + 1)).
Proof.
  intros Ho. pose proof (owner_lt _ _ Ho). unfold before. rewrite Ho. split.
  - apply vec_get_Some. unfold counts_upto. by rewrite lookup_map_seq.
  - rewrite vec_set_lt by (unfold counts_upto; by rewrite length_map, length_seq).
    f_equal. unfold counts_upto. rewrite <- (insert_map_seq
      (fun r => length (List.filter (owned r) (seq 0 k)))
      (fun r => length (List.filter (owned r) (seq 0 (k + 1)))) o).
    + rewrite filter_seq_S, length_app. rewrite owned_spec, Ho, bool_decide_eq_true_2 by done.
      f_equal. simpl. lia.
    + intros r Hr. rewrite filter_seq_S, length_app, owned_spec, Ho.
      rewrite bool_decide_eq_false_2 by congruence. simpl. lia.
Qed.

Lemma counts_upto_skip k : owner k = None -> counts_upto (k + 1) = counts_upto k.
Proof.
  intros Ho. unfold counts_upto. apply map_ext. intros r.
  rewrite filter_seq_S, owned_spec, Ho, bool_decide_eq_false_2 by done.
  by rewrite app_nil_r.
Qed.

Lemma index_patch_obs_spec r s :
  halo_inv s -> L !! r = Some (haloLocVector_ s) ->
  Halo_index_patch_obs size glb s = Ok (map before (haloLocVector_ s), counts_upto n).
Proof.
  intros Hinv HL. unfold Halo_index_patch_obs.
  set (kept := fun g => bool_decide (g ∈ haloLocVector_ s) && bool_decide (is_Some (owner g))).
  edestruct (foldM_ind (fun '(idx, counts) '(gloc, p) =>
      if d_ltb (p : D * nat).1 d_inf then
        c ← vec_get counts p.2; counts' ← vec_set counts p.2 (S c);
        Ok (if decide (gloc ∈ (list_to_set (haloLocVector_ s) : gset nat)) then idx ++ [c] else idx, counts')
      else Ok (idx, counts))
    (fun don '(idx, counts) =>
      idx = map before (List.filter kept (seq 0 (length don))) /\ counts = counts_upto (length don)))
    as ([idx counts] & Hf & Hidx & Hcounts).
  3: { rewrite Hf. f_equal. rewrite Hidx, Hcounts, length_imap, (ow_len _ _ _ Hown). f_equal.
    f_equal. apply StronglySorted_lt_ext; [by auto with ioda|apply (hi_sorted s Hinv)|].
    intros g. rewrite elem_of_List_filter, elem_of_seq. unfold kept.
    rewrite andb_true_iff, !bool_decide_eq_true. split; [tauto|]. intros Hg.
    pose proof (held_lt _ _ _ HL Hg). split; [lia|]. split; [done|].
    destruct (held_owner _ _ _ HL Hg) as [o ->]. by eexists. }
  { simpl. rewrite (hi_idx s Hinv). unfold counts_upto. simpl. by rewrite map_const_seq. }
  intros don [gloc [d o]] [idx counts] [-> ->] [-> Hg]%prefix_imap_pair. simpl.
  rewrite length_app; simpl length. rewrite filter_seq_S.
  destruct (d_ltb d d_inf) eqn:Ed.
  - assert (Ho : owner (length don) = Some o) by (unfold owner; by rewrite Hg, Ed).
    destruct (counts_upto_step _ _ Ho) as [-> E2]. simpl. rewrite E2. simpl.
    eexists; split; [done|]. split; [|done]. 
    assert (kept (length don) = bool_decide (length don ∈ haloLocVector_ s)) as ->.
    { unfold kept. rewrite Ho. by rewrite (bool_decide_eq_true_2 (is_Some _)), andb_true_r by (by eexists). }
    destruct (decide _) as [Hin|Hin]; rewrite elem_of_list_to_set in Hin.
    + rewrite bool_decide_eq_true_2 by done. by rewrite map_app.
    + rewrite bool_decide_eq_false_2 by done. by rewrite app_nil_r.
  - assert (Ho : owner (length don) = None) by (unfold owner; by rewrite Hg, Ed).
    eexists; split; [done|]. rewrite counts_upto_skip by done. split; [|done].
    assert (kept (length don) = false) as ->.
    { unfold kept. rewrite Ho. by rewrite (bool_decide_eq_false_2 (is_Some _)), andb_false_r by (by intros []). }
    by rewrite app_nil_r.
Qed.

(** Step 2: the exclusive scan. *)
Lemma exclusive_scan_spec (counts : list nat) :
  Halo_exclusive_scan counts = Ok (imap (fun r _ => nsum (take r counts)) counts).
Proof.
  unfold Halo_exclusive_scan.
  edestruct (foldM_ind (fun prev rank =>
      a ← vec_get prev (rank - 1); b ← vec_get counts (rank - 1); vec_set prev rank (a + b))
    (fun don prev => length prev = length counts /\
      forall i, i <= length don -> i < length counts -> prev !! i = Some (nsum (take i counts))))
    as (prev & Hf & Hlen & Hprev).
  3: { rewrite Hf. f_equal. apply list_eq. intros i. rewrite list_lookup_imap.
    destruct (counts !! i) as [c|] eqn:E; simpl.
    - apply lookup_lt_Some in E. apply Hprev; [|done]. rewrite length_seq. lia.
    - apply lookup_ge_None. apply lookup_ge_None in E. lia. }
  { split; [apply length_replicate|]. intros i Hi Hlt. simpl in Hi. replace i with 0 by lia.
    rewrite lookup_replicate_2 by lia. done. }
  intros don rank prev [Hlen Hprev] [rest Hr].
  assert (Hk : seq 1 (length counts - 1) !! length don = Some rank).
  { rewrite Hr, <- app_assoc. rewrite lookup_app_r by lia. by rewrite Nat.sub_diag. }
  apply lookup_seq in Hk as [-> Hlt]. replace (1 + length don - 1) with (length don) by lia.
  rewrite (vec_get_Some _ _ _ (Hprev (length don) ltac:(lia) ltac:(lia))). simpl.
  assert (is_Some (counts !! length don)) as [c Hc] by (apply lookup_lt_is_Some; lia).
  rewrite (vec_get_Some _ _ _ Hc). simpl. rewrite vec_set_lt by lia.
  eexists; split; [done|]. split; [by rewrite length_insert|]. rewrite length_app. simpl.
  intros i Hi Hi2. destruct (decide (i = S (length don))) as [->|].
  - rewrite list_lookup_insert_eq by lia. f_equal.
    rewrite (take_S_r _ _ _ Hc), nsum_app. simpl. lia.
  - rewrite list_lookup_insert_ne by lia. apply Hprev; lia.
Qed.

(** The global index of a location: the locations of lower ranks, then those
    before it with the same owner. *)
Definition global_index (g : nat) : nat :=
  before g + match owner g with
             | Some o => nsum (take o (counts_upto n)) | None => 0 end.

Lemma global_indices_spec r s :
  halo_inv s -> L !! r = Some (haloLocVector_ s) ->
  Halo_computeGlobalUniqueConsecutiveLocIndices size glb s =
    Ok (map global_index (haloLocVector_ s)).
Proof.
  intros Hinv HL. unfold Halo_computeGlobalUniqueConsecutiveLocIndices.
  rewrite (index_patch_obs_spec _ _ Hinv HL). simpl. rewrite exclusive_scan_spec. simpl.
  rewrite (imapR_Ok _ (fun loc v => match haloLocVector_ s !! loc with
     | Some g => global_index g | None => 0 end)).
  - f_equal. apply list_eq. intros i. rewrite list_lookup_imap, !list_lookup_fmap.
    by destruct (haloLocVector_ s !! i).
  - intros loc v Hv. rewrite list_lookup_fmap in Hv.
    destruct (haloLocVector_ s !! loc) as [g|] eqn:Eg; simplify_eq/=.
    rewrite (vec_get_Some _ _ _ Eg). simpl. apply list_elem_of_lookup_2 in Eg.
    destruct (ow_fin _ _ _ Hown g r _ HL Eg) as (d & o & Ho & Hd).
    rewrite (vec_get_Some _ _ _ Ho). simpl.
    assert (Hog : owner g = Some o) by (unfold owner; by rewrite Ho, Hd).
    rewrite (vec_get_Some _ _ (nsum (take o (counts_upto n)))).
    + simpl. unfold global_index. by rewrite Hog.
    + rewrite list_lookup_imap.
      assert (is_Some (counts_upto n !! o)) as [c ->]; [|done].
      apply lookup_lt_is_Some. unfold counts_upto. rewrite length_map, length_seq.
      by eapply owner_lt.
Qed.

Lemma global_index_position r l g :
  L !! r = Some l -> g ∈ l -> patch_order !! global_index g = Some g.
Proof.
  intros Hr Hg. destruct (held_owner _ _ _ Hr Hg) as [o Ho].
  unfold global_index, before. rewrite Ho. rewrite Nat.add_comm.
  assert (counts_upto n = map length (map patch_of (seq 0 size))) as ->
    by (unfold counts_upto; by rewrite map_map).
  apply lookup_concat_pos with (l := patch_of o).
  - apply lookup_map_seq. by eapply owner_lt.
  - apply filter_seq_lookup; [by eapply held_lt|]. unfold owned. by rewrite Ho, bool_decide_eq_true_2.
Qed.

(** The patch observations of a rank. *)
Lemma patchObsLoc_spec r s :
  L !! r = Some (haloLocVector_ s) ->
  exists ids, Halo_patchObsLoc r glb s = Ok ids /\
    map (fun g => bool_decide (g ∈ ids)) (haloLocVector_ s) = map (owned r) (haloLocVector_ s).
Proof.
  intros HL. unfold Halo_patchObsLoc.
  set (c := fun i => match glb !! i with Some p => p.2 =? r | None => false end).
  rewrite (foldM_Ok _ (fun ids i => if c i then {[i]} ∪ ids else ids) (fun _ => True)); [|done|].
  - eexists; split; [done|]. apply map_ext_in. intros g Hg%list_elem_of_In.
    unfold owned. apply bool_decide_ext. rewrite elem_of_foldl_insert.
    destruct (ow_fin _ _ _ Hown g r _ HL Hg) as (d & o & Ho & Hd).
    unfold c, owner. rewrite Ho, Hd. simpl. rewrite Nat.eqb_eq, elem_of_empty.
    split; [intros [[]|[_ ->]]; done|intros [= ->]; by right].
  - intros ids i _ Hi. split; [|done].
    destruct (ow_fin _ _ _ Hown i r _ HL Hi) as (d & o & Ho & Hd).
    unfold c. by rewrite (vec_get_Some _ _ _ Ho), Ho.
Qed.

Lemma patch_of_sel r l :
  L !! r = Some l -> StronglySorted lt l -> sel (map (owned r) l) l = patch_of r.
Proof.
  intros Hr Hs. rewrite sel_filter. unfold patch_of.
  apply StronglySorted_lt_ext; [by auto with ioda..|]. intros g. rewrite !elem_of_List_filter, elem_of_seq.
  split; intros [Hg Ho]; (split; [|done]).
  - pose proof (held_lt _ _ _ Hr Hg). lia.
  - unfold owned in Ho. apply bool_decide_eq_true, owner_held in Ho as (l' & Hl' & ?). congruence.
Qed.

Lemma patch_order_NoDup : NoDup patch_order.
Proof.
  apply NoDup_concat_map.
  - apply NoDup_seq.
  - intros r _. unfold patch_of. by auto with ioda.
  - intros a b x _ _ Ha Hb. apply elem_of_List_filter in Ha as [_ Ha], Hb as [_ Hb].
    unfold owned in *. apply bool_decide_eq_true in Ha, Hb. congruence.
Qed.

Lemma patch_order_cover g : g ∈ patch_order <-> exists l, l ∈ L /\ g ∈ l.
Proof.
  unfold patch_order. rewrite elem_of_concat_map. split.
  - intros (r & _ & [_ Hg]%elem_of_List_filter). unfold owned in Hg.
    apply bool_decide_eq_true, owner_held in Hg as (l & Hl & Hgl).
    exists l. split; [by eapply list_elem_of_lookup_2|done].
  - intros (l & [r Hr]%list_elem_of_lookup & Hg).
    destruct (held_owner _ _ _ Hr Hg) as [o Ho]. exists o. split.
    + apply elem_of_seq. pose proof (owner_lt _ _ Ho). lia.
    + apply elem_of_List_filter. rewrite elem_of_seq. split.
      * pose proof (held_lt _ _ _ Hr Hg). lia.
      * unfold owned. by rewrite Ho, bool_decide_eq_true_2.
Qed.
End indices.

(** * All ranks *)

(** What a rank has after [computePatchLocs]. *)
Record halo_done (n size : nat) (glb : list (D * nat)) (r : nat) (s s' : Halo D Pt) : Prop := {
  hd_patch : patchObsBool_ s' = map (owned glb r) (haloLocVector_ s);
  hd_index : globalUniqueConsecutiveLocIndices_ s' = map (global_index n size glb) (haloLocVector_ s);
  hd_records : recordsInHalo_ s' = recordsInHalo_ s
}.

Lemma finish_spec n (L : list (list nat)) glb r s :
  owners n L glb -> halo_inv s -> L !! r = Some (haloLocVector_ s) ->
  exists s', Halo_finish (length L) r n glb s = Ok s' /\ halo_done n (length L) glb r s s'.
Proof.
  intros Hown Hinv HL. unfold Halo_finish. destruct (decide (0 < n)) as [Hn|Hn].
  - destruct (patchObsLoc_spec n L glb Hown r s HL) as (ids & -> & Hids). simpl.
    rewrite (global_indices_spec n (length L) L glb Hown eq_refl r s Hinv HL). simpl.
    eexists; split; [done|]. split; simpl; [|done|done]. by rewrite (hi_patch s Hinv), Hids.
  - eexists; split; [done|].
    assert (haloLocVector_ s = []) as E.
    { destruct (haloLocVector_ s) as [|g l] eqn:E; [done|].
      pose proof (held_lt n L glb Hown r (g :: l) g HL ltac:(by left)). lia. }
    split; simpl; rewrite ?E, ?(hi_patch s Hinv), ?(hi_idx s Hinv); done.
Qed.

Lemma nglocs_bound ss s g :
  halo_inv s -> s ∈ ss -> g ∈ haloLocVector_ s -> g < max_list (map Halo_nglocs ss).
Proof.
  intros Hinv Hs Hg. assert (g < Halo_nglocs s) as Hlt.
  { unfold Halo_nglocs. destruct (last (haloLocVector_ s)) as [y|] eqn:E.
    - pose proof (StronglySorted_lt_last _ _ _ (hi_sorted s Hinv) E Hg). lia.
    - apply last_None in E. rewrite E in Hg. by apply elem_of_nil in Hg. }
  assert (Halo_nglocs s <= max_list (map Halo_nglocs ss)); [|lia].
  apply max_list_elem_of_le. apply list_elem_of_fmap. eauto.
Qed.

(** The vectors all ranks bring to the reduction, and its result. *)
Lemma halo_locs_spec (ss : list (Halo D Pt)) :
  Forall halo_inv ss -> let n := max_list (map Halo_nglocs ss) in
  exists locs, imapR (fun rank '(s, m) => Halo_dist_and_lidx_loc rank m s)
      (map (fun s => (s, n)) ss) = Ok locs /\ length locs = length ss /\
    forall r l w, map haloLocVector_ ss !! r = Some l -> locs !! r = Some w -> local_dists r n l w.
Proof.
  intros Hinv n. rewrite list.Forall_forall in Hinv.
  destruct (imapR_spec (fun rank '(s, m) => Halo_dist_and_lidx_loc rank m s)
    (fun r x v => local_dists r n (haloLocVector_ x.1) v) (map (fun s => (s, n)) ss))
    as (locs & Hl & Hlen & Hlocs).
  { intros r x Hr. rewrite list_lookup_fmap in Hr. destruct (ss !! r) as [s|] eqn:Es; simplify_eq/=.
    apply list_elem_of_lookup_2 in Es as Hin.
    apply dist_and_lidx_loc_spec; [by apply Hinv|]. intros g. by apply nglocs_bound; [apply Hinv|]. }
  exists locs. split_and!; [done|by rewrite length_map in Hlen|].
  intros r l w Hr Hw. rewrite list_lookup_fmap in Hr.
  destruct (ss !! r) as [s|] eqn:Es; simplify_eq/=.
  destruct (Hlocs r (s, n)) as (w' & Hw' & Hld); [by rewrite list_lookup_fmap, Es|].
  by replace w with w' by congruence.
Qed.

Lemma halo_reduction_spec n (L : list (list nat)) locs :
  L <> [] -> length locs = length L ->
  (forall r l w, L !! r = Some l -> locs !! r = Some w -> local_dists r n l w) ->
  (forall r l g, L !! r = Some l -> g ∈ l -> g < n) ->
  exists glb, comm_allReduceVec (minloc d_ltb) locs = replicate (length L) glb /\ owners n L glb.
Proof.
  intros Hne Hlen Hld Hlt. destruct locs as [|v vs]; [by destruct L|].
  exists (foldl (zip_with (minloc d_ltb)) v vs). split.
  - rewrite <- Hlen. apply allReduceVec_law; [apply _..|].
    assert (Hl : forall r w, (v :: vs) !! r = Some w -> length w = n).
    { intros r w Hw. assert (r < length L) as [l Hl]%lookup_lt_is_Some
        by (rewrite <- Hlen; by eapply lookup_lt_Some).
      by apply (ld_len _ _ _ _ (Hld r l w Hl Hw)). }
    apply list.Forall_forall. intros w [r Hr]%list_elem_of_lookup.
    rewrite (Hl (S r) w Hr). symmetry. by apply (Hl 0).
  - by apply minloc_owners.
Qed.

Lemma halo_computePatchLocs_spec (ss : list (Halo D Pt)) :
  ss <> [] -> Forall halo_inv ss ->
  let L := map haloLocVector_ ss in let n := max_list (map Halo_nglocs ss) in
  exists glb ss', Halo_computePatchLocs ss = Ok ss' /\ owners n L glb /\
    length ss' = length ss /\
    forall r s, ss !! r = Some s ->
      exists s', ss' !! r = Some s' /\ halo_done n (length ss) glb r s s'.
Proof.
  intros Hne Hinv L n. destruct (halo_locs_spec ss Hinv) as (locs & Hlocs & Hlen & Hld).
  fold L n in Hlocs, Hld. unfold Halo_computePatchLocs.
  destruct (allReduce_max (map Halo_nglocs ss)) as [->|E]; [|by destruct ss].
  rewrite length_map, zip_replicate. fold n. rewrite Hlocs. simpl.
  rewrite list.Forall_forall in Hinv.
  destruct (halo_reduction_spec n L locs) as (glb & -> & Hown); [by destruct ss| |done| |].
  { unfold L. by rewrite length_map. }
  { intros r l g Hr Hg. unfold L in Hr. rewrite list_lookup_fmap in Hr.
    destruct (ss !! r) as [s|] eqn:Es; simplify_eq/=.
    apply list_elem_of_lookup_2 in Es. by apply (nglocs_bound ss s); [apply Hinv|..]. }
  replace (length L) with (length ss) by (unfold L; by rewrite length_map).
  replace (zip (replicate (length ss) n) (replicate (length ss) glb)) with (replicate (length ss) (n, glb))
    by (generalize (length ss) as k; induction k; simpl; f_equal; auto).
  rewrite zip_replicate.
  destruct (imapR_spec (fun rank '(s, (m, g)) => Halo_finish (length ss) rank m g s)
    (fun r x s' => halo_done n (length ss) glb r x.1 s') (map (fun s => (s, (n, glb))) ss))
    as (ss' & Hss' & Hlen' & Hdone).
  { intros r x Hr. rewrite list_lookup_fmap in Hr. destruct (ss !! r) as [s|] eqn:Es; simplify_eq/=.
    replace (length ss) with (length L) by (unfold L; by rewrite length_map).
    apply finish_spec; [done|apply Hinv; by eapply list_elem_of_lookup_2|].
    unfold L. by rewrite list_lookup_fmap, Es. }
  exists glb, ss'. split_and!; [exact Hss'|done|by rewrite length_map in Hlen'|].
  intros r s Hr. destruct (Hdone r (s, (n, glb))) as (s' & Hs' & Hd); [by rewrite list_lookup_fmap, Hr|].
  eauto.
Qed.

(** The contract, from what the ranks have after [computePatchLocs]. *)
Lemma halo_done_contract n glb (ss ss' : list (Halo D Pt)) :
  let L := map haloLocVector_ ss in
  ss <> [] -> Forall halo_inv ss -> owners n L glb -> length ss' = length ss ->
  (forall r s, ss !! r = Some s ->
     exists s', ss' !! r = Some s' /\ halo_done n (length ss) glb r s s') ->
  DistContract (Halo_dist ss') L (patch_order n (length ss) glb).
Proof.
  intros L Hne Hinv Hown Hlen Hdone. rewrite list.Forall_forall in Hinv.
  assert (HsL : length L = length ss) by (unfold L; by rewrite length_map).
  assert (HL : forall r l, L !! r = Some l ->
    exists s s', ss !! r = Some s /\ l = haloLocVector_ s /\ ss' !! r = Some s' /\
      halo_done n (length ss) glb r s s').
  { intros r l Hr. unfold L in Hr. rewrite list_lookup_fmap in Hr.
    destruct (ss !! r) as [s|] eqn:Es; simplify_eq/=. destruct (Hdone r s Es) as (s' & ? & ?).
    by exists s, s'. }
  apply (masked_contract patchObsBool_ _ ss').
  - apply (f_equal (@concat nat)). apply list_eq. intros r.
    rewrite lookup_zip_with, list_lookup_fmap.
    destruct (L !! r) as [l|] eqn:Er.
    + destruct (HL r l Er) as (s & s' & Hs & -> & -> & Hd). simpl. rewrite (hd_patch _ _ _ _ _ _ Hd).
      rewrite (patch_of_sel n (length ss) L glb Hown HsL r); [|done|apply hi_sorted, Hinv; by eapply list_elem_of_lookup_2].
      rewrite lookup_seq_lt; [done|]. rewrite <- HsL. by eapply lookup_lt_Some.
    + rewrite lookup_seq_ge by (rewrite <- HsL; by apply lookup_ge_None).
      by destruct (ss' !! r).
  - apply Forall2_same_length_lookup_2; [lia|]. intros r s' l Hs' Hl.
    destruct (HL r l Hl) as (s & s2 & Hs & -> & Hs2 & Hd). simplify_eq.
    by rewrite (hd_patch _ _ _ _ _ _ Hd), length_map.
  - unfold L. by destruct ss.
  - apply patch_order_NoDup.
  - intros g. by apply (patch_order_cover n (length ss) L glb).
  - done.
  - done.
  - intros r v s' Hs'. simpl. by rewrite Hs'.
  - done.
  - intros r l i g Hr Hi. destruct (HL r l Hr) as (s & s' & Hs & -> & Hs' & Hd).
    simpl. rewrite Hs'. unfold Halo_globalUniqueConsecutiveLocationIndex.
    rewrite (hd_index _ _ _ _ _ _ Hd). exists (global_index n (length ss) glb g). split.
    + apply vec_get_Some. by rewrite list_lookup_fmap, Hi.
    + apply (global_index_position n (length ss) L glb Hown HsL r _ g Hr).
      by eapply list_elem_of_lookup_2.
Qed.

(** * Assigning the records *)

Section assign.
Context (distance : Pt -> Pt -> D).

Definition Halo_assign_all (s : Halo D Pt) (locs : list (nat * nat * Pt)) : Halo D Pt :=
  foldl (fun s '(rec, loc, pt) => Halo_assignRecord distance s rec loc pt) s locs.

(** The record's first location decides: is the record held, and at which
    distance. *)
Definition halo_record (s0 : Halo D Pt) (locs : list (nat * nat * Pt)) (rec : nat) : option D :=
  match List.find (fun x => x.1.1 =? rec) locs with
  | Some (_, _, pt) =>
      if d_leb (distance (center_ s0) pt) (radius_ s0)
      then Some (distance (center_ s0) pt) else None
  | None => None
  end.

(** State after the locations [locs] were assigned to a new object. *)
Record assign_inv (s0 : Halo D Pt) (locs : list (nat * nat * Pt)) (s : Halo D Pt) : Prop := {
  as_const : radius_ s = radius_ s0 /\ center_ s = center_ s0 /\
    patchObsBool_ s = [] /\ globalUniqueConsecutiveLocIndices_ s = [];
  as_in : forall rec, rec ∈ recordsInHalo_ s <-> is_Some (halo_record s0 locs rec);
  as_out : forall rec, rec ∈ recordsOutsideHalo_ s <->
    halo_record s0 locs rec = None /\ rec ∈ map (fun x => x.1.1) locs;
  as_dist : forall rec, recordDistancesFromCenter_ s !! rec = halo_record s0 locs rec;
  as_locs : haloLocVector_ s =
    map (fun x => x.1.2) (List.filter (fun x => bool_decide (is_Some (halo_record s0 locs x.1.1))) locs);
  as_recs : haloLocRecords_ s =
    map (fun x => x.1.1) (List.filter (fun x => bool_decide (is_Some (halo_record s0 locs x.1.1))) locs)
}.

Lemma find_snoc {A} (f : A -> bool) l x :
  List.find f (l ++ [x]) =
    match List.find f l with Some y => Some y | None => if f x then Some x else None end.
Proof. induction l as [|y l IH]; simpl; [done|]. by destruct (f y). Qed.

Lemma find_seen (locs : list (nat * nat * Pt)) rec :
  is_Some (List.find (fun x => x.1.1 =? rec) locs) <-> rec ∈ map (fun x => x.1.1) locs.
Proof.
  induction locs as [|x locs IH]; simpl; [split; [by intros []|by intros ?%elem_of_nil]|].
  rewrite elem_of_cons. destruct (Nat.eqb_spec x.1.1 rec) as [<-|Hne].
  - split; [by left|]. by eexists.
  - rewrite IH. split; [by right|]. intros [->|?]; done.
Qed.

Lemma halo_record_snoc_seen s0 locs x rec :
  (rec ∈ map (fun x => x.1.1) locs \/ x.1.1 <> rec) ->
  halo_record s0 (locs ++ [x]) rec = halo_record s0 locs rec.
Proof.
  intros Hor. unfold halo_record. rewrite find_snoc.
  destruct (List.find _ locs) as [y|] eqn:E; [done|].
  destruct (Nat.eqb_spec x.1.1 rec) as [<-|]; [|done].
  destruct Hor as [Hin|]; [|done]. apply find_seen in Hin as [? ?]. congruence.
Qed.

Lemma filter_held_snoc s0 locs x :
  List.filter (fun y => bool_decide (is_Some (halo_record s0 (locs ++ [x]) y.1.1))) (locs ++ [x]) =
  List.filter (fun y => bool_decide (is_Some (halo_record s0 locs y.1.1))) locs ++
  (if decide (is_Some (halo_record s0 (locs ++ [x]) x.1.1)) then [x] else []).
Proof.
  rewrite List.filter_app. f_equal.
  - apply List.filter_ext_in. intros y Hy%list_elem_of_In.
    rewrite halo_record_snoc_seen; [done|]. left. apply list_elem_of_fmap. eauto.
  - simpl. by case_decide; [rewrite bool_decide_eq_true_2|rewrite bool_decide_eq_false_2].
Qed.

Lemma assign_step_seen s0 locs rec loc pt s :
  rec ∈ map (fun x => x.1.1) locs -> assign_inv s0 locs s ->
  assign_inv s0 (locs ++ [(rec, loc, pt)]) (Halo_assignRecord distance s rec loc pt).
Proof.
  intros Hseen [Hc Hin Hout Hd Hl Hr].
  assert (Hrec : forall r, halo_record s0 (locs ++ [(rec, loc, pt)]) r = halo_record s0 locs r).
  { intros r. apply halo_record_snoc_seen. simpl.
    destruct (decide (rec = r)) as [->|]; [by left|by right]. }
  assert (Hmap : forall r, r ∈ map (fun x : nat * nat * Pt => x.1.1) (locs ++ [(rec, loc, pt)]) <->
    r ∈ map (fun x : nat * nat * Pt => x.1.1) locs) by (intros r; rewrite map_app; set_solver).
  pose proof (filter_held_snoc s0 locs (rec, loc, pt)) as Hf. simpl in Hf. rewrite Hrec in Hf.
  unfold Halo_assignRecord. destruct (halo_record s0 locs rec) as [d|] eqn:E.
  - assert (Hi : rec ∈ recordsInHalo_ s) by (apply Hin; rewrite E; by eexists).
    rewrite decide_False by (rewrite Hout, E; by intros []). rewrite decide_True by done.
    rewrite decide_True in Hf by (by eexists).
    split; simpl; try (intros r; rewrite Hrec, ?Hmap; done); [done|..];
      rewrite Hf, map_app; simpl; congruence.
  - rewrite decide_True by (by apply Hout). rewrite decide_False in Hf by (by intros []).
    split; try (intros r; rewrite Hrec, ?Hmap; done); [done|..];
      rewrite Hf, app_nil_r; done.
Qed.

Lemma assign_step_new s0 locs rec loc pt s :
  rec ∉ map (fun x => x.1.1) locs -> assign_inv s0 locs s ->
  assign_inv s0 (locs ++ [(rec, loc, pt)]) (Halo_assignRecord distance s rec loc pt).
Proof.
  intros Hnew [(Hrad & Hcen & Hc) Hin Hout Hd Hl Hr].
  assert (Hother : forall r, r <> rec ->
    halo_record s0 (locs ++ [(rec, loc, pt)]) r = halo_record s0 locs r).
  { intros r Hne. apply halo_record_snoc_seen. right. simpl. congruence. }
  assert (Hnone : List.find (fun x : nat * nat * Pt => x.1.1 =? rec) locs = None).
  { apply eq_None_not_Some. by rewrite find_seen. }
  assert (Hold : halo_record s0 locs rec = None) by (unfold halo_record; by rewrite Hnone).
  assert (Hthis : halo_record s0 (locs ++ [(rec, loc, pt)]) rec =
    if d_leb (distance (center_ s0) pt) (radius_ s0) then Some (distance (center_ s0) pt) else None).
  { unfold halo_record. rewrite find_snoc, Hnone. simpl. by rewrite Nat.eqb_refl. }
  assert (Hmap : forall r, r ∈ map (fun x : nat * nat * Pt => x.1.1) (locs ++ [(rec, loc, pt)]) <->
    r = rec \/ r ∈ map (fun x : nat * nat * Pt => x.1.1) locs) by (intros r; rewrite map_app; set_solver).
  pose proof (filter_held_snoc s0 locs (rec, loc, pt)) as Hf. simpl in Hf.
  unfold Halo_assignRecord.
  rewrite decide_False by (rewrite Hout; by intros [_ ?]).
  rewrite decide_False by (rewrite Hin, Hold; by intros []). rewrite Hrad, Hcen.
  destruct (d_leb _ _).
  - rewrite decide_True in Hf by (rewrite Hthis; by eexists).
    split; simpl; [done|..|rewrite Hf, map_app; simpl; congruence|rewrite Hf, map_app; simpl; congruence].
    + intros r. rewrite elem_of_union, elem_of_singleton, Hin. destruct (decide (r = rec)) as [->|].
      * rewrite Hthis. split; [by eexists|by left].
      * rewrite Hother by done. split; [intros [?|?]; done|by right].
    + intros r. rewrite Hout, Hmap. destruct (decide (r = rec)) as [->|].
      * rewrite Hthis. split; [by intros [_ ?]|by intros [? _]].
      * rewrite Hother by done. split; [intros [? ?]; by split; [|right]|].
        by intros [? [?|?]].
    + intros r. destruct (decide (r = rec)) as [->|].
      * by rewrite lookup_insert_eq, Hthis.
      * by rewrite lookup_insert_ne, Hd, Hother by done.
  - rewrite decide_False in Hf by (rewrite Hthis; by intros []). rewrite app_nil_r in Hf.
    split; simpl; [done|..|by rewrite Hf|by rewrite Hf].
    + intros r. rewrite Hin. destruct (decide (r = rec)) as [->|]; [|by rewrite Hother].
      by rewrite Hthis, Hold.
    + intros r. rewrite elem_of_union, elem_of_singleton, Hout, Hmap.
      destruct (decide (r = rec)) as [->|].
      * rewrite Hthis. split; [intros _; split; [done|by left]|by left].
      * rewrite Hother by done. split; [intros [?|[? ?]]; [done|by split; [|right]]|].
        intros [? [?|?]]; [done|by right].
    + intros r. rewrite Hd. destruct (decide (r = rec)) as [->|]; [|by rewrite Hother].
      by rewrite Hthis, Hold.
Qed.

(** The three outcomes of [assignRecord]. *)
Lemma assign_step s0 locs rec loc pt s :
  assign_inv s0 locs s -> assign_inv s0 (locs ++ [(rec, loc, pt)]) (Halo_assignRecord distance s rec loc pt).
Proof.
  intros Hinv. destruct (decide (rec ∈ map (fun x => x.1.1) locs)) as [Hseen|Hnew].
  - by apply assign_step_seen.
  - by apply assign_step_new.
Qed.

Lemma assign_all_inv s0 locs :
  recordsInHalo_ s0 = ∅ -> recordsOutsideHalo_ s0 = ∅ -> recordDistancesFromCenter_ s0 = ∅ ->
  haloLocVector_ s0 = [] -> haloLocRecords_ s0 = [] -> patchObsBool_ s0 = [] ->
  globalUniqueConsecutiveLocIndices_ s0 = [] ->
  assign_inv s0 locs (Halo_assign_all s0 locs).
Proof.
  intros E1 E2 E3 E4 E5 E6 E7. unfold Halo_assign_all.
  induction locs as [|[[rec loc] pt] locs IH] using rev_ind.
  - split; simpl; rewrite ?E1, ?E2, ?E3; try done.
    + intros rec. rewrite elem_of_empty. split; [done|by intros []].
    + intros rec. rewrite elem_of_empty. split; [done|by intros [_ ?%elem_of_nil]].
  - rewrite foldl_snoc. by apply assign_step.
Qed.

Lemma assign_inv_halo_inv s0 locs s :
  d_ltb (radius_ s0) d_inf = true -> StronglySorted lt (map (fun x => x.1.2) locs) ->
  assign_inv s0 locs s -> halo_inv s.
Proof.
  intros Hrad Hs [(_ & _ & Hp & Hi) _ _ Hd Hl Hr]. split.
  - rewrite Hl. apply StronglySorted_map_filter. done.
  - by rewrite Hl, Hr, !length_map.
  - intros rec Hrec. rewrite Hr in Hrec. apply list_elem_of_fmap in Hrec as (x & -> & Hx).
    apply elem_of_List_filter in Hx as [_ Hx]. apply bool_decide_eq_true in Hx as [d Hx].
    exists d. rewrite Hd. split; [done|]. unfold halo_record in Hx.
    destruct (List.find _ locs) as [[[? ?] pt]|]; [|done].
    destruct (d_leb _ _) eqn:E; simplify_eq. unfold d_leb in E. apply negb_true_iff in E.
    destruct (d_ltb (distance (center_ s0) pt) (radius_ s0)) eqn:E2.
    + by eapply d_ltb_trans.
    + by rewrite <- (d_ltb_total _ _ E E2).
  - done.
  - done.
Qed.

(** The locations a rank holds: those of the records whose first location is
    within the radius of its centre. *)
Definition halo_held (cfg : D * Pt) (locs : list (nat * nat * Pt)) : list nat :=
  map (fun x => x.1.2) (List.filter (fun x =>
    bool_decide (is_Some (halo_record (Halo_new cfg.1 cfg.2) locs x.1.1))) locs).

Lemma assign_all_new cfg locs :
  assign_inv (Halo_new cfg.1 cfg.2) locs (Halo_assign_all (Halo_new cfg.1 cfg.2) locs).
Proof. by apply assign_all_inv. Qed.
End assign.
End halo_proofs.

(** The whole life of a Halo distribution: every rank (given by its radius and
    centre) is told of all locations (record, location number, point), then all
    ranks call [computePatchLocs]. *)
Definition Halo_run `{MpiComm} {D Pt} `{Double D} (distance : Pt -> Pt -> D)
    (cfgs : list (D * Pt)) (locs : list (nat * nat * Pt)) : res (list (Halo D Pt)) :=
  Halo_computePatchLocs
    (map (fun cfg => Halo_assign_all distance (Halo_new cfg.1 cfg.2) locs) cfgs).

Lemma halo_run_contract `{MpiLaws} {D Pt} `{DoubleLaws D} (distance : Pt -> Pt -> D)
    (cfgs : list (D * Pt)) (locs : list (nat * nat * Pt)) :
  cfgs <> [] -> Forall (fun cfg => d_ltb cfg.1 d_inf = true) cfgs ->
  StronglySorted lt (map (fun x => x.1.2) locs) ->
  exists ss P, Halo_run distance cfgs locs = Ok ss /\
    DistContract (Halo_dist ss) (map (fun cfg => halo_held distance cfg locs) cfgs) P.
Proof.
  intros Hne Hrad Hs. unfold Halo_run.
  set (ss := map (fun cfg => Halo_assign_all distance (Halo_new cfg.1 cfg.2) locs) cfgs).
  assert (Hinv : Forall halo_inv ss).
  { apply Forall_map. eapply Forall_impl; [exact Hrad|]. intros cfg Hcfg. simpl.
    apply (assign_inv_halo_inv distance (Halo_new cfg.1 cfg.2) locs); [done..|]. apply assign_all_new. }
  assert (Hne' : ss <> []) by (unfold ss; by destruct cfgs).
  destruct (halo_computePatchLocs_spec ss Hne' Hinv) as (glb & ss' & -> & Hown & Hlen & Hdone).
  exists ss', (patch_order (max_list (map Halo_nglocs ss)) (length ss) glb). split; [done|].
  replace (map (fun cfg => halo_held distance cfg locs) cfgs) with (map haloLocVector_ ss).
  - by apply halo_done_contract.
  - unfold ss. rewrite map_map. apply map_ext. intros cfg.
    exact (as_locs _ _ _ _ (assign_all_new distance cfg locs)).
Qed.

(** C6: When the locations come in increasing order, [computePatchLocs] succeeds
    on all ranks, and the Halo distribution keeps its contract: a rank holds
    exactly the locations of the records whose first location is in its halo,
    the patch observations are a complete non-overlapping partition of the
    locations held anywhere, [allGatherv] removes the duplicates, the global
    indices are consistent with it, and accumulators count each location once. *)
Theorem halo_contract `{MpiLaws} {D Pt} `{DoubleLaws D} (distance : Pt -> Pt -> D)
    (cfgs : list (D * Pt)) (locs : list (nat * nat * Pt)) :
  cfgs <> [] -> Forall (fun cfg => d_ltb cfg.1 d_inf = true) cfgs ->
  StronglySorted lt (map (fun x => x.1.2) locs) ->
  exists ss P, Halo_run distance cfgs locs = Ok ss /\
    DistContract (Halo_dist ss) (map (fun cfg => halo_held distance cfg locs) cfgs) P.
Proof. apply halo_run_contract. Qed.

(** Two ranks at 0 and 10 with radius 7; three records, the second with two
    locations. *)
Lemma halo_contract_witness :
  exists ss P,
    @Halo_run reference_comm (option Z) Z _ (fun a b => Some (Z.abs (a - b)))
      [(Some 7%Z, 0%Z); (Some 7%Z, 10%Z)]
      [(0, 0, 1%Z); (1, 1, 5%Z); (1, 3, 6%Z); (2, 4, 9%Z)] = Ok ss /\
    @DistContract nat (@Halo_dist reference_comm (option Z) Z ss)
      [[0; 1; 3]; [1; 3; 4]] P.
Proof.
  change [[0; 1; 3]; [1; 3; 4]] with
    (map (fun cfg => halo_held (fun a b => Some (Z.abs (a - b))) cfg
            [(0, 0, 1%Z); (1, 1, 5%Z); (1, 3, 6%Z); (2, 4, 9%Z)])
       [(Some 7%Z, 0%Z); (Some 7%Z, 10%Z)]).
  apply (@halo_contract reference_comm reference_laws (option Z) Z _ _
    (fun a b => Some (Z.abs (a - b)))).
  - done.
  - repeat constructor.
  - simpl. repeat constructor.
Defined.
