(* ===== verification/PairOfDistributions.v ===== *)
(** The distribution that concatenates two others
    (src/src/distribution/PairOfDistributions.{h,cc}); an extended ObsSpace uses
    it for its original and its companion locations. *)
From stdpp Require Import base list sorting.
From S2P Require Import Prelude Mpi Distribution Nonoverlapping Inefficient Halo.

Section Pair.
(** [first_], [second_], and per rank the number of locations of the first and
    the first record number of the second. *)
Context (first_ second_ : Distribution) (firstNumLocs_ : list nat).

Definition numLocs (rank : nat) : nat := default 0 (firstNumLocs_ !! rank).

(** The constructor's secondGlobalUniqueConsecutiveLocationIndexOffset_, on
    all ranks. *)
Definition Pair_offsets : res (list nat) :=
  local ← imapR (fun rank firstNumLocs =>
      if decide (0 < firstNumLocs) then
        k ← globalUniqueConsecutiveLocationIndex first_ rank (firstNumLocs - 1); Ok (k + 1)
      else Ok 0) firstNumLocs_;
  Ok (dist_max first_ local).

Definition Pair_assignRecord (RecNum LocNum : nat) : res unit := Throw ENotImplemented.

Definition Pair_isMyRecord (secondRecordNumOffset_ : list nat) (rank RecNum : nat) : bool :=
  let offset := default 0 (secondRecordNumOffset_ !! rank) in
  if decide (RecNum < offset) then isMyRecord first_ rank RecNum
  else isMyRecord second_ rank (RecNum - offset).

Definition Pair_patchObs (rank : nat) (patchObsVec : list bool) : res (list bool) :=
  _ ← assert (numLocs rank <=? length patchObsVec);
  let secondNumObs := length patchObsVec - numLocs rank in
  second ← patchObs second_ rank (replicate secondNumObs false);
  first ← patchObs first_ rank (vec_resize (numLocs rank) false patchObsVec);
  Ok (first ++ second).

Definition Pair_reduce (A : Type) (op : A -> A -> A) (xs : list A) : list A :=
  reduce second_ A op (reduce first_ A op xs).

Definition Pair_createAccumulator (T : Type) (N : Num T) : Accumulator T :=
  PairOfDistributionsAccumulator (createAccumulator first_ T N) (createAccumulator second_ T N)
    numLocs.

Definition Pair_allGatherv (A : Type) (xs : list (list A)) : res (list (list A)) :=
  parts ← imapR (fun rank x =>
      if decide (numLocs rank <= length x)
      then Ok (take (numLocs rank) x, drop (numLocs rank) x) else Throw EUndefined) xs;
  firstX ← allGatherv first_ A (map fst parts);
  secondX ← allGatherv second_ A (map snd parts);
  Ok (zip_with app firstX secondX).

Definition Pair_globalUniqueConsecutiveLocationIndex (offsets : list nat) (rank loc : nat)
  : res nat :=
  if decide (loc < numLocs rank) then globalUniqueConsecutiveLocationIndex first_ rank loc
  else
    off ← vec_get offsets rank;
    k ← globalUniqueConsecutiveLocationIndex second_ rank (loc - numLocs rank);
    Ok (off + k).

Definition Pair_dist (secondRecordNumOffset_ : list nat) : res Distribution :=
  offsets ← Pair_offsets;
  Ok {|
    dist_size := dist_size first_;
    isIdentity := false;
    isNonoverlapping := false;
    isMyRecord := Pair_isMyRecord secondRecordNumOffset_;
    patchObs := Pair_patchObs;
    reduce := Pair_reduce;
    createAccumulator := Pair_createAccumulator;
    allGatherv := Pair_allGatherv;
    globalUniqueConsecutiveLocationIndex := Pair_globalUniqueConsecutiveLocationIndex offsets
  |}.
End Pair.

(** * Proofs *)

Lemma concat_zip_app {A} (a b : list (list A)) :
  length a = length b -> concat (zip_with app a b) ≡ₚ concat a ++ concat b.
Proof.
  revert b. induction a as [|x a IH]; intros [|y b] Hl; simplify_eq/=; [done|].
  rewrite IH by done. rewrite <- !app_assoc. apply Permutation_app_head.
  rewrite !app_assoc. apply Permutation_app_tail, Permutation_app_comm.
Qed.

Section accumulate_pair.
Context {T : Type} {N : Num T} (a1 a2 : Accumulator T) (nl : nat -> nat).
Let pair := PairOfDistributionsAccumulator a1 a2 nl.

Lemma pair_rank_first rank ts s1 s2 n :
  n + length ts <= nl rank ->
  foldM (fun s '(loc, t) => acc_addTerm pair rank loc t s) (s1, s2)
    (imap (fun loc t => (n + loc, t)) ts) =
  s1' ← foldM (fun s '(loc, t) => acc_addTerm a1 rank loc t s) s1
    (imap (fun loc t => (n + loc, t)) ts); Ok (s1', s2).
Proof.
  revert n s1. induction ts as [|t ts IH]; intros n s1 Hn; simpl; [done|]. simpl in Hn.
  rewrite decide_True by lia. destruct (acc_addTerm a1 rank (n + 0) t s1) as [s1'|]; simpl; [|done].
  rewrite !(imap_ext _ (fun loc t => (S n + loc, t))) by (intros; simpl; f_equal; lia).
  apply IH. lia.
Qed.

Lemma pair_rank_second rank ts s1 s2 n :
  foldM (fun s '(loc, t) => acc_addTerm pair rank loc t s) (s1, s2)
    (imap (fun loc t => (nl rank + n + loc, t)) ts) =
  s2' ← foldM (fun s '(loc, t) => acc_addTerm a2 rank loc t s) s2
    (imap (fun loc t => (n + loc, t)) ts); Ok (s1, s2').
Proof.
  revert n s2. induction ts as [|t ts IH]; intros n s2; simpl; [done|].
  rewrite decide_False by lia.
  replace (nl rank + n + 0 - nl rank) with (n + 0) by lia.
  destruct (acc_addTerm a2 rank (n + 0) t s2) as [s2'|]; simpl; [|done].
  rewrite (imap_ext _ (fun loc t => (nl rank + S n + loc, t))) by (intros; simpl; f_equal; lia).
  rewrite (imap_ext (_ ∘ S) (fun loc t => (S n + loc, t))) by (intros; simpl; f_equal; lia).
  apply IH.
Qed.

Lemma pair_accumulate_rank rank ts1 ts2 s1 s2 :
  nl rank = length ts1 ->
  accumulate_rank a1 rank ts1 = Ok s1 -> accumulate_rank a2 rank ts2 = Ok s2 ->
  accumulate_rank pair rank (ts1 ++ ts2) = Ok (s1, s2).
Proof.
  intros Hn H1 H2. unfold accumulate_rank in *.
  pose proof (accumulate_app pair rank (acc_init pair) ts1 ts2 0) as E. simpl in E.
  etransitivity; [exact E|].
  pose proof (pair_rank_first rank ts1 (acc_init a1) (acc_init a2) 0 ltac:(lia)) as E1. simpl in E1.
  rewrite E1, H1. simpl. rewrite <- Hn.
  pose proof (pair_rank_second rank ts2 s1 (acc_init a2) 0) as E2. rewrite Nat.add_0_r in E2.
  etransitivity; [exact E2|]. simpl. simpl in H2. by rewrite H2.
Qed.

Lemma pair_accumulate T1 T2 R1 R2 :
  length T1 = length T2 -> (forall r ts, T1 !! r = Some ts -> nl r = length ts) ->
  accumulate a1 T1 = Ok R1 -> accumulate a2 T2 = Ok R2 ->
  accumulate pair (zip_with app T1 T2) = Ok (zip_with nplus R1 R2).
Proof.
  intros Hlen Hnl H1 H2. unfold accumulate in *. repeat res_step. inv_res.
  destruct (imapR_Ok_lookup _ _ _ Hr) as [Hl2 Hi2], (imapR_Ok_lookup _ _ _ Hr0) as [Hl1 Hi1].
  destruct (imapR_spec (accumulate_rank pair)
    (fun r _ s => a0 !! r = Some s.1 /\ a !! r = Some s.2) (zip_with app T1 T2))
    as (ss & Hss & Hlss & Hiss).
  { intros r ts (t1 & t2 & -> & E1 & E2)%lookup_zip_with_Some.
    destruct (Hi1 _ _ E1) as (s1 & F1 & F1'), (Hi2 _ _ E2) as (s2 & F2 & F2').
    exists (s1, s2). split; [|done]. eapply pair_accumulate_rank; eauto. }
  rewrite Hss. simpl. rewrite length_zip_with in Hlss.
  enough (ss = zip a0 a) as ->.
  { assert (map fst (zip a0 a) = a0) as -> by (apply fst_zip; lia).
    assert (map snd (zip a0 a) = a) as -> by (apply snd_zip; lia). done. }
  apply list_eq_same_length with (length ss); [rewrite length_zip_with; lia|done|].
  intros r x y Hr1 Hx Hy. apply lookup_zip_with_Some in Hy as (y1 & y2 & -> & Hy1 & Hy2).
  destruct (lookup_lt_is_Some_2 (zip_with app T1 T2) r) as [ts Hts];
    [rewrite length_zip_with; lia|].
  destruct (Hiss _ _ Hts) as ([x1 x2] & Hx' & ? & ?). simplify_eq/=. done.
Qed.
End accumulate_pair.

Section contract.
Context {G1 G2 : Type} (d1 d2 : Distribution).
Context (L1 : list (list G1)) (L2 : list (list G2)) (P1 : list G1) (P2 : list G2).
Context (H1 : DistContract d1 L1 P1) (H2 : DistContract d2 L2 P2).
Context (Hsize : dist_size d1 = dist_size d2).

(** The locations of a rank: those of the first distribution, then those of
    the second. *)
Definition pair_held : list (list (G1 + G2)) :=
  zip_with (fun l1 l2 => map inl l1 ++ map inr l2) L1 L2.
Definition pair_patch : list (G1 + G2) := map inl P1 ++ map inr P2.

Let firstNumLocs := map length L1.

Lemma pair_lengths : length L1 = length L2.
Proof. rewrite (dc_ranks H1), (dc_ranks H2). done. Qed.

Lemma pair_numLocs r l1 : L1 !! r = Some l1 -> numLocs firstNumLocs r = length l1.
Proof. intros E. unfold numLocs, firstNumLocs. rewrite list_lookup_fmap, E. done. Qed.

Lemma pair_held_lookup r l :
  pair_held !! r = Some l -> exists l1 l2, L1 !! r = Some l1 /\ L2 !! r = Some l2 /\
    l = map inl l1 ++ map inr l2.
Proof. intros (l1 & l2 & -> & ? & ?)%lookup_zip_with_Some. eauto. Qed.

Lemma pair_held_map {A} (f : G1 + G2 -> A) :
  map (map f) pair_held = zip_with app (map (map (f ∘ inl)) L1) (map (map (f ∘ inr)) L2).
Proof.
  unfold pair_held. clear H1 H2. generalize L2 as M2. induction L1 as [|l1 M1 IH]; intros [|l2 M2]; simpl; [done..|].
  rewrite IH, map_app, !map_map. done.
Qed.

Lemma pair_patch_map {A} (f : G1 + G2 -> A) :
  map f pair_patch = map (f ∘ inl) P1 ++ map (f ∘ inr) P2.
Proof. unfold pair_patch. by rewrite map_app, !map_map. Qed.

Lemma pair_gather {A} (X1 X2 : list (list A)) Y1 Y2 :
  length X1 = length X2 -> (forall r x, X1 !! r = Some x -> numLocs firstNumLocs r = length x) ->
  allGatherv d1 A X1 = Ok Y1 -> allGatherv d2 A X2 = Ok Y2 ->
  Pair_allGatherv d1 d2 firstNumLocs A (zip_with app X1 X2) = Ok (zip_with app Y1 Y2).
Proof.
  clear H1 H2 Hsize. intros Hl Hn E1 E2. unfold Pair_allGatherv.
  rewrite (imapR_Ok _ (fun r x => (take (numLocs firstNumLocs r) x, drop (numLocs firstNumLocs r) x))).
  2:{ intros r x (x1 & x2 & -> & F1 & F2)%lookup_zip_with_Some. rewrite decide_True; [done|].
      rewrite (Hn _ _ F1), length_app. lia. }
  simpl.
  assert (forall r x1 x2, X1 !! r = Some x1 -> X2 !! r = Some x2 ->
    take (numLocs firstNumLocs r) (x1 ++ x2) = x1 /\ drop (numLocs firstNumLocs r) (x1 ++ x2) = x2)
    as Hsplit.
  { intros r x1 x2 F1 F2. rewrite (Hn _ _ F1). by rewrite take_app_length, drop_app_length. }
  assert (forall (g : list A * list A -> list A) (X : list (list A)), length X = length X1 ->
    (forall r x1 x2, X1 !! r = Some x1 -> X2 !! r = Some x2 ->
      X !! r = Some (g (take (numLocs firstNumLocs r) (x1 ++ x2), drop (numLocs firstNumLocs r) (x1 ++ x2)))) ->
    map g (imap (fun r x => (take (numLocs firstNumLocs r) x, drop (numLocs firstNumLocs r) x))
      (zip_with app X1 X2)) = X) as Hmap.
  { intros g X HX Hg. apply list_eq_same_length with (length X); [done|..].
    - rewrite length_map, length_imap, length_zip_with. lia.
    - intros r x y _ Hx Hy. rewrite list_lookup_fmap, list_lookup_imap in Hx.
      destruct (zip_with app X1 X2 !! r) as [z|] eqn:Ez; simplify_eq/=.
      apply lookup_zip_with_Some in Ez as (x1 & x2 & -> & F1 & F2).
      rewrite (Hg _ _ _ F1 F2) in Hy. by simplify_eq. }
  rewrite (Hmap fst X1); [|done|intros; simpl; destruct (Hsplit r x1 x2) as [-> _]; done].
  rewrite (Hmap snd X2); [|done|intros; simpl; destruct (Hsplit r x1 x2) as [_ ->]; done].
  by rewrite E1, E2.
Qed.

Lemma pair_sel (m1 m2 : list (list bool)) :
  Forall2 (fun m l => length m = length l) m1 L1 ->
  Forall2 (fun m l => length m = length l) m2 L2 ->
  concat (zip_with sel (zip_with app m1 m2) pair_held) ≡ₚ
    map inl (concat (zip_with sel m1 L1)) ++ map inr (concat (zip_with sel m2 L2)).
Proof.
  intros F1 F2. unfold pair_held. pose proof pair_lengths as Hl. clear H1 H2.
  revert m2 L2 F2 Hl. induction F1 as [|m l ms Ls Em F1 IH];
    intros m2 M2 F2 Hl; destruct F2 as [|m' l' ms' Ls' Em' F2]; simplify_eq/=; [done|].
  rewrite IH by done. rewrite sel_app by (by rewrite length_map).
  rewrite !sel_map, !map_app, <- !app_assoc. apply Permutation_app_head.
  rewrite !app_assoc. apply Permutation_app_tail, Permutation_app_comm.
Qed.

Lemma pair_patchObs r l1 (l2 : list G2) m1 m2 :
  L1 !! r = Some l1 ->
  patchObs d1 r (replicate (length l1) false) = Ok m1 ->
  patchObs d2 r (replicate (length l2) false) = Ok m2 ->
  Pair_patchObs d1 d2 firstNumLocs r (replicate (length l1 + length l2) false) = Ok (m1 ++ m2).
Proof.
  intros E E1 E2. unfold Pair_patchObs. rewrite (pair_numLocs _ _ E), length_replicate.
  replace (length l1 <=? length l1 + length l2) with true by (symmetry; apply Nat.leb_le; lia).
  simpl. replace (length l1 + length l2 - length l1) with (length l2) by lia. rewrite E2. simpl.
  unfold vec_resize. rewrite length_replicate, take_replicate, Nat.min_l by lia.
  replace (length l1 - (length l1 + length l2)) with 0 by lia. simpl.
  by rewrite app_nil_r, E1.
Qed.

Lemma pair_patch_ok : exists masks,
  imapR (fun r l => Pair_patchObs d1 d2 firstNumLocs r (replicate (length l) false)) pair_held
    = Ok masks /\
  Forall2 (fun m l => length m = length l) masks pair_held /\
  concat (zip_with sel masks pair_held) ≡ₚ pair_patch.
Proof.
  destruct (dc_patch H1) as (m1 & R1 & F1 & S1), (dc_patch H2) as (m2 & R2 & F2 & S2).
  destruct (imapR_Ok_lookup _ _ _ R1) as [Q1 I1], (imapR_Ok_lookup _ _ _ R2) as [Q2 I2].
  pose proof pair_lengths as Hl.
  exists (zip_with app m1 m2). split_and!.
  - rewrite (imapR_Ok _ (fun r _ => default [] (m1 !! r) ++ default [] (m2 !! r))).
    + f_equal. apply list_eq_same_length with (length L1).
      * rewrite length_zip_with. lia.
      * unfold pair_held. rewrite length_imap, length_zip_with. lia.
      * intros r x y _ Hx Hy. rewrite list_lookup_imap in Hx.
        destruct (pair_held !! r); simplify_eq/=.
        apply lookup_zip_with_Some in Hy as (y1 & y2 & -> & -> & ->). done.
    + intros r l (l1 & l2 & E1 & E2 & ->)%pair_held_lookup.
      destruct (I1 _ _ E1) as (y1 & -> & Y1), (I2 _ _ E2) as (y2 & -> & Y2). simpl.
      rewrite length_app, !length_map. by apply pair_patchObs.
  - apply Forall2_same_length_lookup_2.
    + unfold pair_held. rewrite !length_zip_with. lia.
    + intros r m l (y1 & y2 & -> & Y1 & Y2)%lookup_zip_with_Some (l1 & l2 & E1 & E2 & ->)%pair_held_lookup.
      rewrite !length_app, !length_map.
      by rewrite (Forall2_lookup_lr _ _ _ _ _ _ F1 Y1 E1), (Forall2_lookup_lr _ _ _ _ _ _ F2 Y2 E2).
  - rewrite pair_sel by done. unfold pair_patch.
    apply Permutation_app; by apply Permutation_map.
Qed.

Lemma pair_index offsets r l i g :
  offsets = replicate (length L1) (length P1) ->
  pair_held !! r = Some l -> l !! i = Some g -> exists k,
    Pair_globalUniqueConsecutiveLocationIndex d1 d2 firstNumLocs offsets r i = Ok k /\
    pair_patch !! k = Some g.
Proof.
  intros -> (l1 & l2 & E1 & E2 & ->)%pair_held_lookup Hi.
  unfold Pair_globalUniqueConsecutiveLocationIndex, pair_patch. rewrite (pair_numLocs _ _ E1).
  destruct (decide (i < length l1)) as [Hlt|Hge].
  - rewrite lookup_app_l in Hi by (by rewrite length_map). rewrite list_lookup_fmap in Hi.
    destruct (l1 !! i) as [g1|] eqn:Eg; simplify_eq/=.
    destruct (dc_index H1 _ _ _ _ E1 Eg) as (k & -> & Hk). exists k. split; [done|].
    apply lookup_app_l_Some. by rewrite list_lookup_fmap, Hk.
  - rewrite lookup_app_r in Hi by (rewrite length_map; lia).
    rewrite length_map, list_lookup_fmap in Hi.
    destruct (l2 !! (i - length l1)) as [g2|] eqn:Eg; simplify_eq/=.
    destruct (dc_index H2 _ _ _ _ E2 Eg) as (k & -> & Hk).
    rewrite (vec_get_Some _ _ (length P1))
      by (apply lookup_replicate_2; by eapply lookup_lt_Some).
    exists (length P1 + k). split; [done|].
    rewrite lookup_app_r by (rewrite length_map; lia). rewrite length_map, list_lookup_fmap.
    replace (length P1 + k - length P1) with k by lia. by rewrite Hk.
Qed.

Lemma pair_cover g : g ∈ pair_patch <-> exists l, l ∈ pair_held /\ g ∈ l.
Proof.
  unfold pair_patch. rewrite elem_of_app, !list_elem_of_fmap.
  pose proof pair_lengths as Hl. split.
  - intros [(g1 & -> & Hg)|(g2 & -> & Hg)].
    + apply (dc_cover H1) in Hg as (l1 & [r E1]%list_elem_of_lookup & Hg).
      destruct (lookup_lt_is_Some_2 L2 r) as [l2 E2]; [rewrite <- Hl; by eapply lookup_lt_Some|].
      exists (map inl l1 ++ map inr l2). split.
      * apply list_elem_of_lookup. exists r. apply lookup_zip_with_Some. eauto 6.
      * apply elem_of_app. left. apply list_elem_of_fmap. eauto.
    + apply (dc_cover H2) in Hg as (l2 & [r E2]%list_elem_of_lookup & Hg).
      destruct (lookup_lt_is_Some_2 L1 r) as [l1 E1]; [rewrite Hl; by eapply lookup_lt_Some|].
      exists (map inl l1 ++ map inr l2). split.
      * apply list_elem_of_lookup. exists r. apply lookup_zip_with_Some. eauto 6.
      * apply elem_of_app. right. apply list_elem_of_fmap. eauto.
  - intros (l & [r (l1 & l2 & E1 & E2 & ->)%pair_held_lookup]%list_elem_of_lookup & Hg).
    apply list_elem_of_lookup_2 in E1, E2.
    apply elem_of_app in Hg as [Hg|Hg]; apply list_elem_of_fmap in Hg as (x & -> & Hx).
    + left. exists x. split; [done|]. apply (dc_cover H1). eauto.
    + right. exists x. split; [done|]. apply (dc_cover H2). eauto.
Qed.
End contract.

(** The pair of two distributions that keep their contracts keeps it, if the
    offset given to the second one is the number of locations of the first. *)
Lemma pair_dist_contract {G1 G2} d1 d2 (L1 : list (list G1)) (L2 : list (list G2)) P1 P2 recOffset d :
  DistContract d1 L1 P1 -> DistContract d2 L2 P2 -> dist_size d1 = dist_size d2 ->
  Pair_offsets d1 (map length L1) = Ok (replicate (length L1) (length P1)) ->
  Pair_dist d1 d2 (map length L1) recOffset = Ok d ->
  DistContract d (pair_held L1 L2) (pair_patch P1 P2).
Proof.
  intros H1 H2 Hs Ho Hd. unfold Pair_dist in Hd. rewrite Ho in Hd. simpl in Hd. inv_res.
  pose proof (pair_lengths _ _ _ _ _ _ H1 H2 Hs) as Hl.
  assert (length (pair_held L1 L2) = length L1) as Hlen
    by (unfold pair_held; rewrite length_zip_with; lia).
  split; simpl.
  - rewrite Hlen. apply (dc_ranks H1).
  - unfold pair_patch. apply NoDup_app. split_and!.
    + apply (NoDup_fmap_2 inl), (dc_nodup H1).
    + intros x (?&->&_)%list_elem_of_fmap (?&?&_)%list_elem_of_fmap. done.
    + apply (NoDup_fmap_2 inr), (dc_nodup H2).
  - by apply (pair_cover d1 d2 _ _ _ _ H1 H2).
  - intros A f. rewrite pair_held_map, pair_patch_map, Hlen.
    rewrite <- zip_with_replicate_2.
    apply (pair_gather d1 d2 L1 _ _ _ _).
    + by rewrite !length_map.
    + intros r x Hx. rewrite list_lookup_fmap in Hx. destruct (L1 !! r) eqn:E; simplify_eq/=.
      rewrite length_map. by apply pair_numLocs.
    + apply (dc_gather H1).
    + rewrite Hl. apply (dc_gather H2).
  - intros r l i g Hr Hi. eapply (pair_index d1 d2 L1 L2 P1 P2); eauto.
  - by apply (pair_patch_ok d1 d2 L1 L2 P1 P2).
  - intros T N NL f. rewrite pair_held_map, pair_patch_map, Hlen, nsum_app, <- zip_with_replicate_2.
    apply pair_accumulate.
    + by rewrite !length_map.
    + intros r x Hx. rewrite list_lookup_fmap in Hx. destruct (L1 !! r) eqn:E; simplify_eq/=.
      rewrite length_map. by apply pair_numLocs.
    + apply (dc_accumulate H1), NL.
    + rewrite Hl. apply (dc_accumulate H2), NL.
Qed.

(** * The offset of the second distribution *)

Lemma offsets_max (lens : list nat) base :
  max_list (imap (fun r n => if decide (0 < n) then base + nsum (take r lens) + n else 0) lens) =
    if decide (0 < nsum lens) then base + nsum lens else 0.
Proof.
  revert base. induction lens as [|n lens IH]; intros base; [done|].
  rewrite imap_cons. simpl max_list.
  rewrite (imap_ext _ (fun r m => if decide (0 < m) then (base + n) + nsum (take r lens) + m else 0)).
  - rewrite IH, nsum_nat_cons. cbn [take id]. change (nsum []) with 0. repeat case_decide; lia.
  - intros i x _. cbn [compose take]. rewrite nsum_nat_cons. destruct (decide (0 < x)); lia.
Qed.

Section offsets.
Context `{MpiLaws}.

Lemma offsets_nonoverlapping {G} isMy (ss : list NonoverlappingDistribution) (L : list (list G)) :
  map numLocationsOnThisRank_ ss = map length L -> L <> [] ->
  Pair_offsets (Nonoverlapping_dist isMy (Nonoverlapping_computePatchLocs ss)) (map length L) =
    Ok (replicate (length L) (length (concat L))).
Proof.
  intros Hlen Hne. unfold Pair_offsets.
  rewrite (imapR_Ok _ (fun r n => if decide (0 < n) then nsum (take r (map length L)) + n else 0)).
  2:{ intros r n Hr. destruct (decide (0 < n)); [|done]. simpl.
      assert (r < length ss) as [s0 Hs0]%lookup_lt_is_Some.
      { apply (f_equal length) in Hlen. rewrite !length_map in Hlen. rewrite Hlen.
        apply lookup_lt_Some in Hr. by rewrite length_map in Hr. }
      rewrite (computePatchLocs_lookup _ _ _ Hs0). simpl.
      unfold Nonoverlapping_globalUniqueConsecutiveLocationIndex; simpl. rewrite Hlen. f_equal. lia. }
  simpl. f_equal. unfold dist_max. simpl. unfold Nonoverlapping_reduce.
  pose proof (offsets_max (map length L) 0) as Hmax. simpl in Hmax.
  match goal with |- comm_allReduce _ ?xs = _ => destruct (allReduce_max xs) as [E|E] end.
  - rewrite E, length_imap, length_map, Hmax. f_equal.
    assert (nsum (map length L) = length (concat L)) as Hc
      by (clear; induction L as [|l L IH]; simpl; [done|]; rewrite length_app, <- IH; done).
    rewrite Hc. destruct (decide (0 < length (concat L))); lia.
  - apply (f_equal length) in E. rewrite length_imap, length_map in E. by destruct L.
Qed.
End offsets.

Lemma offsets_inefficient {G} size (l : list G) :
  Pair_offsets (Inefficient_dist size) (map length (replicate size l)) =
    Ok (replicate (length (replicate size l)) (length l)).
Proof.
  unfold Pair_offsets. rewrite (imapR_Ok _ (fun _ _ => length l)).
  - simpl. f_equal. unfold dist_max. simpl.
    change (imap (fun _ _ => length l)) with (imap (fun _ => const (length l) : nat -> nat)).
    rewrite length_replicate. clear.
    change (imap (fun _ => const (length l)) (map length (replicate size l)) = replicate size (length l)).
    etransitivity; [apply (imap_const (const (length l)))|]. clear.
    induction size; simpl; f_equal; auto.
  - intros r n Hr. rewrite list_lookup_fmap in Hr.
    destruct (replicate size l !! r) as [l'|] eqn:E; simplify_eq/=.
    apply lookup_replicate in E as [-> _]. case_decide; simpl; f_equal; unfold
      Inefficient_globalUniqueConsecutiveLocationIndex; lia.
Qed.

(** C33: Concatenating a non-overlapping distribution (RoundRobin, Atlas, their
    replicas) with any distribution that keeps its contract: the constructor
    succeeds on all ranks, its collective offset is the number of locations of
    the first distribution, and the pair keeps the contract for the
    concatenated locations. *)
Theorem pair_of_nonoverlapping_contract `{MpiLaws} {G1 G2} isMy
    (ss : list NonoverlappingDistribution) (L1 : list (list G1)) (d2 : Distribution)
    (L2 : list (list G2)) (P2 : list G2) (recOffset : list nat) :
  map numLocationsOnThisRank_ ss = map length L1 -> L1 <> [] -> NoDup (concat L1) ->
  DistContract d2 L2 P2 -> length ss = dist_size d2 ->
  exists d,
    Pair_dist (Nonoverlapping_dist isMy (Nonoverlapping_computePatchLocs ss)) d2
      (map length L1) recOffset = Ok d /\
    DistContract d (pair_held L1 L2) (pair_patch (concat L1) P2).
Proof.
  intros Hlen Hne Hnd H2 Hs. pose proof (offsets_nonoverlapping isMy ss L1 Hlen Hne) as Ho.
  eexists. split; [unfold Pair_dist; rewrite Ho; reflexivity|].
  eapply (pair_dist_contract (Nonoverlapping_dist isMy (Nonoverlapping_computePatchLocs ss)) d2
    L1 L2 (concat L1) P2 recOffset).
  - by apply nonoverlapping_contract.
  - done.
  - simpl. by rewrite length_computePatchLocs.
  - done.
  - unfold Pair_dist. rewrite Ho. reflexivity.
Qed.

Lemma pair_of_nonoverlapping_contract_witness :
  exists d,
    Pair_dist (@Nonoverlapping_dist reference_comm (RoundRobin_isMyRecord 2)
        (@Nonoverlapping_computePatchLocs reference_comm (assign_all (RoundRobin_isMyRecord 2) 2
          [(0, 0); (1, 1); (2, 2)])))
      (Inefficient_dist 2) [2; 1] [3; 3] = Ok d /\
    DistContract d (pair_held [[0; 2]; [1]] [[7; 8]; [7; 8]]) (pair_patch [0; 2; 1] [7; 8]).
Proof.
  apply (@pair_of_nonoverlapping_contract reference_comm reference_laws nat nat
    (RoundRobin_isMyRecord 2)
    (assign_all (RoundRobin_isMyRecord 2) 2 [(0, 0); (1, 1); (2, 2)]) [[0; 2]; [1]]).
  - reflexivity.
  - done.
  - simpl. apply (bool_decide_unpack _). vm_compute. exact I.
  - apply (inefficient_contract 2 [7; 8]); [lia|]. apply (bool_decide_unpack _). vm_compute. exact I.
  - reflexivity.
Defined.

(** The two ranks of the next theorem: rank 0 at 10 with radius 3, rank 1 at 0
    with radius 20; record 0 at 0 and record 1 at 10. *)
Definition halo_pair_cfgs : list (option Z * Z) := [(Some 3%Z, 10%Z); (Some 20%Z, 0%Z)].
Definition halo_pair_locs : list (nat * nat * Z) := [(0, 0, 0%Z); (1, 1, 10%Z)].

(** The pair's offset is taken from the last local location of each rank.
    With a Halo distribution first that is not the number of its locations:
    here rank 0 holds location 1 and owns it (index 0), rank 1 holds 0 and 1 and
    owns 0 (index 1), so that the last local locations give the offset 1 for
    the two locations, and on rank 1 the first location of the second
    distribution gets the global index of the first's location 0. *)
Theorem pair_of_halo_index_collision :
  exists ss d,
    @Halo_run reference_comm (option Z) Z _ (fun a b => Some (Z.abs (a - b)))
      halo_pair_cfgs halo_pair_locs = Ok ss /\
    Pair_dist (@Halo_dist reference_comm _ _ ss) (Inefficient_dist 2) [1; 2] [2; 2] = Ok d /\
    globalUniqueConsecutiveLocationIndex d 1 0 = Ok 1 /\
    globalUniqueConsecutiveLocationIndex d 1 2 = Ok 1.
Proof. eexists _, _. split_and!; vm_compute; reflexivity. Qed.
