(* ===== verification/Replica.v ===== *)
(** The replica of an overlapping distribution
    (src/src/distribution/ReplicaOfGeneralDistribution.{h,cc}): it assigns a
    record to the ranks that hold it in a master distribution, and to the patch
    of the rank that has it in its patch there. *)
From stdpp Require Import base list sorting gmap strings.
From S2P Require Import Prelude Mpi Distribution Nonoverlapping Halo.

(** The data members on one rank; [masterDist_] is an argument. *)
Record ReplicaOfGeneral := {
  masterPatchRecords_ : gset nat;
  rog_myRecords_ : gset nat;
  myGlobalLocs_ : list nat;
  isMyPatchObs_ : list bool;
  rog_globalUniqueConsecutiveLocIndices_ : list nat
}.

(** The constructor on [rank], given the records of its master locations. *)
Definition Replica_new (masterDist_ : Distribution) (rank : nat) (masterRecordNumbers : list nat)
  : res ReplicaOfGeneral :=
  isMasterPatchObs ← patchObs masterDist_ rank (replicate (length masterRecordNumbers) false);
  patch ← foldM (fun patch '(loc, rec) =>
      b ← vec_get isMasterPatchObs loc; Ok (if (b : bool) then {[rec]} ∪ patch else patch))
    (∅ : gset nat) (imap (fun loc rec => (loc, rec)) masterRecordNumbers);
  Ok {| masterPatchRecords_ := patch; rog_myRecords_ := ∅; myGlobalLocs_ := [];
        isMyPatchObs_ := []; rog_globalUniqueConsecutiveLocIndices_ := [] |}.

Definition Replica_assignRecord (masterDist_ : Distribution) (rank : nat) (s : ReplicaOfGeneral)
    (RecNum LocNum : nat) : ReplicaOfGeneral :=
  if isMyRecord masterDist_ rank RecNum then
    {| masterPatchRecords_ := masterPatchRecords_ s;
       rog_myRecords_ := {[RecNum]} ∪ rog_myRecords_ s;
       myGlobalLocs_ := myGlobalLocs_ s ++ [LocNum];
       isMyPatchObs_ := isMyPatchObs_ s ++ [bool_decide (RecNum ∈ masterPatchRecords_ s)];
       rog_globalUniqueConsecutiveLocIndices_ := rog_globalUniqueConsecutiveLocIndices_ s |}
  else s.

Definition Replica_isMyRecord (s : ReplicaOfGeneral) (RecNum : nat) : bool :=
  bool_decide (RecNum ∈ rog_myRecords_ s).

(** [computePatchLocs]: the number of locations known to this rank, ... *)
Definition Replica_nglocs (s : ReplicaOfGeneral) : nat :=
  match last (myGlobalLocs_ s) with Some l => l + 1 | None => 0 end.

(** ... [consecutiveLocIndices] ([None] is UNASSIGNED), ... *)
Definition Replica_consecutiveLocIndices (nglocs : nat) (patchObsGlobalLocs : list nat)
  : res (list (option nat)) :=
  foldM (fun v '(i, gloc) => vec_at_set v gloc (Some i))
    (replicate nglocs None) (imap (fun i gloc => (i, gloc)) patchObsGlobalLocs).

(** ... the indices of the locations of this rank, and the freed members. *)
Definition Replica_finish (consecutive : list (option nat)) (s : ReplicaOfGeneral)
  : res ReplicaOfGeneral :=
  idx ← mapR (fun gloc =>
      o ← vec_get consecutive gloc;
      match o with
      | Some k => Ok k
      | None => Throw (EException "A location does not belong to the patch of any process")
      end) (myGlobalLocs_ s);
  Ok {| masterPatchRecords_ := ∅; rog_myRecords_ := rog_myRecords_ s; myGlobalLocs_ := [];
        isMyPatchObs_ := isMyPatchObs_ s; rog_globalUniqueConsecutiveLocIndices_ := idx |}.

Section Replica.
Context `{MpiComm}.

Definition Replica_computePatchLocs (ss : list ReplicaOfGeneral) : res (list ReplicaOfGeneral) :=
  let nglocs := comm_allReduce Nat.max (map Replica_nglocs ss) in
  let patchObsGlobalLocs :=
    comm_allGatherv (map (fun s => sel (isMyPatchObs_ s) (myGlobalLocs_ s)) ss) in
  mapR (fun '(s, (n, locs)) =>
      consecutive ← Replica_consecutiveLocIndices n locs; Replica_finish consecutive s)
    (zip ss (zip nglocs patchObsGlobalLocs)).

Definition Replica_allGatherv (ss : list ReplicaOfGeneral) (A : Type) (xs : list (list A))
  : res (list (list A)) :=
  ys ← mapR (fun '(s, x) =>
      _ ← assert (length x =? length (isMyPatchObs_ s)); Ok (sel (isMyPatchObs_ s) x))
    (zip ss xs);
  Ok (comm_allGatherv ys).

Definition Replica_dist (ss : list ReplicaOfGeneral) : Distribution := {|
  dist_size := length ss;
  isIdentity := false;
  isNonoverlapping := false;
  isMyRecord rank rec :=
    match ss !! rank with Some s => Replica_isMyRecord s rec | None => false end;
  patchObs rank v :=
    match ss !! rank with Some s => Ok (isMyPatchObs_ s) | None => Throw EUndefined end;
  reduce A op xs := comm_allReduce op xs;
  createAccumulator := GeneralDistributionAccumulator
    (fun rank => match ss !! rank with Some s => isMyPatchObs_ s | None => [] end);
  allGatherv := Replica_allGatherv ss;
  globalUniqueConsecutiveLocationIndex rank loc :=
    match ss !! rank with
    | Some s => vec_get (rog_globalUniqueConsecutiveLocIndices_ s) loc
    | None => Throw EUndefined
    end
|}.

(** The life of a replica: construction, all locations told to all ranks,
    [computePatchLocs].  [recNums] are the records of each rank's master
    locations. *)
Definition Replica_assign_all (master : Distribution) (rank : nat) (recs : list (nat * nat))
    (s : ReplicaOfGeneral) : ReplicaOfGeneral :=
  foldl (fun s '(rec, loc) => Replica_assignRecord master rank s rec loc) s recs.

Definition Replica_run (master : Distribution) (recNums : list (list nat))
    (recs : list (nat * nat)) : res (list ReplicaOfGeneral) :=
  ss ← imapR (fun rank nums => s ← Replica_new master rank nums;
                Ok (Replica_assign_all master rank recs s)) recNums;
  Replica_computePatchLocs ss.
End Replica.

(** * Proofs *)

Lemma replica_patch_set (m : list bool) (recs : list nat) :
  length m = length recs ->
  foldM (fun patch '(loc, rec) =>
      b ← vec_get m loc; Ok (if (b : bool) then {[rec]} ∪ patch else patch))
    (∅ : gset nat) (imap (fun loc rec => (loc, rec)) recs) = Ok (list_to_set (sel m recs)).
Proof.
  intros Hl. cut (forall n ms recs (patch : gset nat), (forall i, ms !! i = m !! (n + i)) ->
    length ms = length recs ->
    foldM (fun patch '(loc, rec) =>
        b ← vec_get m loc; Ok (if (b : bool) then {[rec]} ∪ patch else patch))
      patch (imap (fun loc rec => (n + loc, rec)) recs) = Ok (list_to_set (sel ms recs) ∪ patch)).
  { intros Hc. rewrite (Hc 0 m recs ∅) by done. f_equal. set_solver. }
  clear Hl recs. intros n ms. revert n. induction ms as [|b ms IH];
    intros n [|rec recs] patch Hm Hl; simplify_eq/=; [f_equal; set_solver|].
  rewrite (vec_get_Some _ _ b) by (by rewrite <- (Hm 0)). simpl.
  rewrite (imap_ext _ (fun loc rec => (S n + loc, rec))) by (intros; simpl; f_equal; lia).
  rewrite IH; [|intros i; replace (S n + i) with (n + S i) by lia; apply (Hm (S i))|done].
  f_equal. destruct b; set_solver.
Qed.

(** What a rank has recorded after all locations. *)
Lemma replica_assign_all master rank recs s :
  Replica_assign_all master rank recs s =
    {| masterPatchRecords_ := masterPatchRecords_ s;
       rog_myRecords_ := list_to_set (List.filter (isMyRecord master rank) (map fst recs))
         ∪ rog_myRecords_ s;
       myGlobalLocs_ := myGlobalLocs_ s ++ held (isMyRecord master) recs rank;
       isMyPatchObs_ := isMyPatchObs_ s ++
         map (fun rl => bool_decide (rl.1 ∈ masterPatchRecords_ s))
           (List.filter (fun '(rec, _) => isMyRecord master rank rec) recs);
       rog_globalUniqueConsecutiveLocIndices_ := rog_globalUniqueConsecutiveLocIndices_ s |}.
Proof.
  revert s. induction recs as [|[rec loc] recs IH]; intros s; simpl.
  - destruct s; simpl. unfold held; simpl. rewrite !app_nil_r. f_equal. set_solver.
  - rewrite IH. unfold Replica_assignRecord, held. simpl.
    destruct (isMyRecord master rank rec); simpl; [|done].
    rewrite <- !app_assoc. f_equal. set_solver.
Qed.

(** A loop over a list with its indices: what has been visited. *)
Lemma imap_pair_prefix {A} (l : list A) don i x :
  don ++ [(i, x)] `prefix_of` imap (fun i x => (i, x)) l ->
  i = length don /\ l !! i = Some x /\ forall k y, (k, y) ∈ don -> l !! k = Some y /\ k < i.
Proof.
  intros [rest Hp].
  assert (forall k p, (don ++ [(i, x)]) !! k = Some p -> p.1 = k /\ l !! k = Some p.2) as Hk.
  { intros k p Hk. apply (lookup_app_l_Some _ rest) in Hk. rewrite <- Hp, list_lookup_imap in Hk.
    destruct (l !! k); by simplify_eq/=. }
  destruct (Hk (length don) (i, x)) as [E1 E2]; [by apply list_lookup_middle|]. simpl in *. subst.
  split_and!; [done..|]. intros k y [n Hn]%list_elem_of_lookup.
  destruct (Hk n (k, y)) as [E3 E4]; [by apply lookup_app_l_Some|]. simpl in *. subst.
  split; [done|]. by eapply lookup_lt_Some.
Qed.

(** Distinct locations below [n] get their positions. *)
Lemma replica_consecutive n (locs : list nat) :
  NoDup locs -> Forall (fun l => l < n) locs ->
  exists v, Replica_consecutiveLocIndices n locs = Ok v /\
    forall i g, locs !! i = Some g -> v !! g = Some (Some i).
Proof.
  intros Hnd Hlt. unfold Replica_consecutiveLocIndices.
  destruct (foldM_ind (fun v '(i, gloc) => vec_at_set v gloc (Some i))
    (fun don v => length v = n /\ forall i g, (i, g) ∈ don -> v !! g = Some (Some i))
    (replicate n None) (imap (fun i gloc => (i, gloc)) locs)) as (v & Hv & _ & Hi).
  - split; [apply length_replicate|]. by intros i g ?%elem_of_nil.
  - intros don [i g] v [Hlen Hv] (-> & Hg & Hdon)%imap_pair_prefix.
    assert (g < n) as Hgn by (rewrite list.Forall_forall in Hlt; by eapply Hlt, list_elem_of_lookup_2).
    exists (<[g := Some (length don)]> v). split; [apply vec_at_set_lt; lia|].
    split; [by rewrite length_insert|]. intros i' g' Hin.
    apply elem_of_app in Hin as [Hin|[= -> ->]%list_elem_of_singleton].
    + rewrite list_lookup_insert_ne; [by apply Hv|]. intros ->.
      destruct (Hdon _ _ Hin) as [Hg' ?]. pose proof (NoDup_lookup _ _ _ _ Hnd Hg Hg'). lia.
    + apply list_lookup_insert_eq. lia.
  - exists v. split; [done|]. intros i g Hg. apply Hi. apply list_elem_of_lookup. exists i.
    by rewrite list_lookup_imap, Hg.
Qed.

Lemma sorted_below_last (l : list nat) :
  StronglySorted lt l -> forall x, x ∈ l -> x < match last l with Some m => m + 1 | None => 0 end.
Proof.
  intros Hs x Hx. destruct (last l) as [m|] eqn:E.
  - pose proof (StronglySorted_lt_last l x m Hs E Hx). lia.
  - apply last_None in E. subst. by apply elem_of_nil in Hx.
Qed.

Lemma held_sorted isMy recs rank :
  StronglySorted lt (map snd recs) -> StronglySorted lt (held isMy recs rank).
Proof.
  unfold held. induction recs as [|[rec loc] recs IH]; simpl; intros Hs; [constructor|].
  inversion Hs as [|? ? Hs' Hall]; subst. destruct (isMy rank rec); simpl; [|auto].
  constructor; [auto|]. rewrite list.Forall_forall in Hall |- *. intros x Hx. apply Hall.
  apply list_elem_of_fmap in Hx as (y & -> & Hy). apply elem_of_List_filter in Hy as [Hy _].
  apply list_elem_of_fmap. eauto.
Qed.

Section core.
Context `{MpiLaws} (isMy : nat -> nat -> bool) (patch : nat -> gset nat) (size : nat)
  (recs : list (nat * nat)).
Context (Hsize : 0 < size) (Hsorted : StronglySorted lt (map snd recs)).
Context (Howner : forall rec, rec ∈ map fst recs -> exists o, o < size /\ isMy o rec = true /\
  forall r, r < size -> rec ∈ patch r <-> r = o).

(** A rank after all locations and, with the indices, after [computePatchLocs]. *)
Let myMask r := map (fun rl => bool_decide (rl.1 ∈ patch r))
  (List.filter (fun '(rec, _) => isMy r rec) recs).
Let assigned r : ReplicaOfGeneral := {|
  masterPatchRecords_ := patch r;
  rog_myRecords_ := list_to_set (List.filter (isMy r) (map fst recs));
  myGlobalLocs_ := held isMy recs r; isMyPatchObs_ := myMask r;
  rog_globalUniqueConsecutiveLocIndices_ := [] |}.
Let ss := map assigned (seq 0 size).
Let L := map (held isMy recs) (seq 0 size).
Let P := concat (map (fun r => sel (myMask r) (held isMy recs r)) (seq 0 size)).

Lemma replica_sel r :
  sel (myMask r) (held isMy recs r) =
    held (fun r rec => isMy r rec && bool_decide (rec ∈ patch r)) recs r.
Proof.
  unfold myMask, held. rewrite sel_map, sel_filter. f_equal. clear.
  induction recs as [|[rec loc] l IH]; simpl; [done|].
  destruct (isMy r rec); simpl; [|done]. by rewrite IH.
Qed.

(** Every location is in exactly one patch. *)
Lemma replica_partition : P ≡ₚ map snd recs.
Proof.
  set (own := fun r rec => if decide (rec ∈ map fst recs)
    then bool_decide (rec ∈ patch r) else r =? 0).
  rewrite <- (held_partition own size).
  - apply Permutation_refl'. unfold P. f_equal. apply map_ext_in.
    intros r Hr%list_elem_of_In%elem_of_seq. rewrite replica_sel. apply held_ext.
    intros [rec loc] Hx. simpl.
    assert (rec ∈ map fst recs) as Hrec by (apply list_elem_of_fmap; by eexists (rec, loc)).
    unfold own. rewrite decide_True by done.
    destruct (Howner rec Hrec) as (o & Ho & Hmy & Hpat). apply eq_true_iff_eq.
    rewrite andb_true_iff, !bool_decide_eq_true, Hpat by lia. split; [tauto|]. by intros ->.
  - intros rec. unfold own. case_decide as Hd.
    + destruct (Howner rec Hd) as (o & Ho & Hmy & Hpat). exists o. split; [done|].
      intros r Hr. apply eq_true_iff_eq. by rewrite bool_decide_eq_true, Nat.eqb_eq, Hpat.
    + exists 0. done.
Qed.

Lemma replica_P_NoDup : NoDup P.
Proof. rewrite replica_partition. by apply StronglySorted_lt_NoDup. Qed.

Lemma held_elem r g : g ∈ held isMy recs r -> g ∈ map snd recs.
Proof.
  intros (x & -> & Hx)%list_elem_of_fmap. apply elem_of_List_filter in Hx as [Hx _].
  apply list_elem_of_fmap. eauto.
Qed.

Lemma replica_nglocs_bound g :
  g ∈ P -> g < max_list (map Replica_nglocs ss).
Proof.
  intros (r & Hr & Hg)%elem_of_concat_map.
  assert (g ∈ held isMy recs r) as Hh.
  { rewrite replica_sel in Hg. unfold held in *. rewrite list_elem_of_fmap in Hg |- *.
    destruct Hg as (x & -> & Hx). exists x. split; [done|].
    rewrite elem_of_List_filter in Hx |- *. destruct x. by destruct Hx as [? [? _]%andb_true_iff]. }
  apply sorted_below_last in Hh; [|by apply held_sorted].
  eapply Nat.lt_le_trans; [exact Hh|]. apply max_list_elem_of_le.
  unfold ss. rewrite map_map. apply list_elem_of_fmap. by exists r.
Qed.

Lemma replica_elem_P g : g ∈ P <-> exists l, l ∈ L /\ g ∈ l.
Proof.
  split.
  - intros (r & Hr & Hg)%elem_of_concat_map. exists (held isMy recs r). split.
    + apply list_elem_of_fmap. eauto.
    + revert Hg. unfold myMask. generalize (held isMy recs r) as l. clear.
      generalize (map (fun rl : nat * nat => bool_decide (rl.1 ∈ patch r))
        (List.filter (fun '(rec, _) => isMy r rec) recs)) as m.
      induction m as [|[] m IH]; intros [|x l]; simpl; try (by intros ?%elem_of_nil).
      * intros [->|Hg]%elem_of_cons; [left|right; auto].
      * intros Hg. right. auto.
  - intros (l & (r & -> & Hr)%list_elem_of_fmap & Hg). rewrite replica_partition.
    by eapply held_elem.
Qed.

(** A rank after [computePatchLocs], from the table of positions. *)
Let finished (v : list (option nat)) r : ReplicaOfGeneral := {|
  masterPatchRecords_ := ∅;
  rog_myRecords_ := list_to_set (List.filter (isMy r) (map fst recs));
  myGlobalLocs_ := []; isMyPatchObs_ := myMask r;
  rog_globalUniqueConsecutiveLocIndices_ :=
    map (fun g => match v !! g with Some (Some k) => k | _ => 0 end) (held isMy recs r) |}.

Lemma replica_position (v : list (option nat)) r g :
  (forall i g, P !! i = Some g -> v !! g = Some (Some i)) -> r < size ->
  g ∈ held isMy recs r -> exists k, v !! g = Some (Some k) /\ P !! k = Some g.
Proof.
  intros Hv Hr Hg. assert (g ∈ P) as [k Hk]%list_elem_of_lookup; [|eauto].
  apply replica_elem_P. exists (held isMy recs r). split; [|done].
  apply list_elem_of_fmap. exists r. split; [done|]. apply elem_of_seq. lia.
Qed.

Lemma replica_finish_ok v r :
  (forall i g, P !! i = Some g -> v !! g = Some (Some i)) -> r < size ->
  Replica_finish v (assigned r) = Ok (finished v r).
Proof.
  intros Hv Hr. unfold Replica_finish. simpl.
  rewrite (mapR_Ok _ (fun g => match v !! g with Some (Some k) => k | _ => 0 end)); [done|].
  intros g Hin. destruct (replica_position v r g Hv Hr Hin) as (k & Hk & _).
  by rewrite (vec_get_Some _ _ _ Hk), Hk.
Qed.

Lemma replica_zip :
  zip ss (zip (comm_allReduce Nat.max (map Replica_nglocs ss))
    (comm_allGatherv (map (fun s => sel (isMyPatchObs_ s) (myGlobalLocs_ s)) ss))) =
  map (fun r => (assigned r, (max_list (map Replica_nglocs ss), P))) (seq 0 size).
Proof.
  destruct (allReduce_max (map Replica_nglocs ss)) as [->|E].
  - rewrite allGatherv_law, !length_map, zip_with_replicate_2, zip_replicate.
    assert (map (fun s => sel (isMyPatchObs_ s) (myGlobalLocs_ s)) ss =
      map (fun r => sel (myMask r) (held isMy recs r)) (seq 0 size)) as ->
      by (unfold ss; by rewrite map_map).
    apply (map_map assigned).
  - unfold ss in E. destruct size; [lia|done].
Qed.

Lemma replica_core : exists ss',
  Replica_computePatchLocs ss = Ok ss' /\ DistContract (Replica_dist ss') L P.
Proof.
  unfold Replica_computePatchLocs. rewrite replica_zip.
  destruct (replica_consecutive (max_list (map Replica_nglocs ss)) P) as (v & Hv & Hvi).
  { apply replica_P_NoDup. } { apply list.Forall_forall. apply replica_nglocs_bound. }
  exists (map (finished v) (seq 0 size)). split.
  { rewrite mapR_map. apply mapR_Ok. intros r Hr%elem_of_seq. rewrite Hv. simpl.
    apply replica_finish_ok; [done|lia]. }
  apply (masked_contract isMyPatchObs_ _ (map (finished v) (seq 0 size))).
  - unfold P, L. f_equal. rewrite zip_with_fmap_l, zip_with_fmap_r. symmetry.
    apply (zip_with_diag (fun r r' => sel (myMask r) (held isMy recs r'))).
  - apply Forall2_fmap, Forall_Forall2_diag, list.Forall_forall. intros r _. simpl.
    unfold myMask, held. by rewrite !length_map.
  - unfold L. destruct size; [lia|done].
  - apply replica_P_NoDup.
  - apply replica_elem_P.
  - done.
  - done.
  - intros r w s Hs. simpl. by rewrite Hs.
  - done.
  - intros r l i g Hr Hi. unfold L in Hr.
    rewrite list_lookup_fmap in Hr. destruct (seq 0 size !! r) as [r'|] eqn:E; simplify_eq/=.
    apply lookup_seq in E as [-> Hr]. simpl in *.
    rewrite list_lookup_fmap, lookup_seq_lt by done. simpl.
    destruct (replica_position v r g Hvi Hr) as (k & Hk & HP); [by eapply list_elem_of_lookup_2|].
    exists k. split; [|done]. apply vec_get_Some. by rewrite list_lookup_fmap, Hi; simpl; rewrite Hk.
Qed.
End core.

(** What a replica relies on: the master holds the records of its locations
    ([rec] is a location's record), and the locations of a record that are patch
    observations are so on one rank. *)
Record MasterRecords {G} (master : Distribution) (L : list (list G)) (rec : G -> nat) : Prop := {
  mr_isMy : forall r l n, L !! r = Some l -> n ∈ map rec l -> isMyRecord master r n = true;
  mr_patch : forall r1 r2 l1 l2 m1 m2 g1 g2,
    L !! r1 = Some l1 -> L !! r2 = Some l2 ->
    patchObs master r1 (replicate (length l1) false) = Ok m1 ->
    patchObs master r2 (replicate (length l2) false) = Ok m2 ->
    g1 ∈ sel m1 l1 -> g2 ∈ sel m2 l2 -> rec g1 = rec g2 -> r1 = r2
}.

Section replica.
Context `{MpiLaws} {G : Type} (master : Distribution) (L : list (list G)) (P : list G)
  (rec : G -> nat) (masks : list (list bool)).
Context (Hm : DistContract master L P) (Hr : MasterRecords master L rec).
Context (Hmasks : imapR (fun r l => patchObs master r (replicate (length l) false)) L = Ok masks).
Context (Hlens : Forall2 (fun m l => length m = length l) masks L).
Context (Hperm : concat (zip_with sel masks L) ≡ₚ P).

(** The records in the patch of a rank. *)
Definition patch_records (r : nat) : gset nat :=
  match masks !! r, L !! r with
  | Some m, Some l => list_to_set (map rec (sel m l))
  | _, _ => ∅
  end.

Lemma sel_elem {A} (m : list bool) (l : list A) x : x ∈ sel m l -> x ∈ l.
Proof.
  revert l. induction m as [|[] m IH]; intros [|y l]; simpl; try (by intros ?%elem_of_nil).
  - intros [->|Hx]%elem_of_cons; [left|right; auto].
  - intros Hx. right. auto.
Qed.

Lemma replica_owner n l0 :
  l0 ∈ L -> n ∈ map rec l0 -> exists o, o < length L /\ isMyRecord master o n = true /\
    forall r, r < length L -> n ∈ patch_records r <-> r = o.
Proof.
  intros Hl0 (g & -> & Hg)%list_elem_of_fmap.
  destruct (imapR_Ok_lookup _ _ _ Hmasks) as [Hlen Hi].
  assert (g ∈ P) as HgP by (apply (dc_cover Hm); eauto).
  rewrite <- Hperm in HgP. apply list_elem_of_In, in_concat in HgP as (x & Hx & Hgx).
  apply list_elem_of_In in Hx, Hgx. apply list_elem_of_lookup in Hx as [o Ho].
  apply lookup_zip_with_Some in Ho as (m & l & -> & Em & El).
  exists o. split_and!.
  - by eapply lookup_lt_Some.
  - eapply (mr_isMy _ _ _ Hr); [done|]. apply list_elem_of_fmap. exists g. split; [done|].
    by eapply sel_elem.
  - intros r [l' El']%lookup_lt_is_Some. destruct (Hi r l' El') as (m' & Em' & Hp').
    destruct (Hi o l El) as (m2 & Em2 & Hp). simplify_eq.
    unfold patch_records. rewrite Em', El', elem_of_list_to_set, list_elem_of_fmap. split.
    + intros (g' & E & Hg'). eapply (mr_patch _ _ _ Hr r o l' l m' m g' g); eauto.
    + intros ->. simplify_eq. eauto.
Qed.

Lemma replica_new_ok recs :
  imapR (fun rank nums => s ← Replica_new master rank nums;
           Ok (Replica_assign_all master rank recs s)) (map (map rec) L) =
  Ok (map (fun r => {|
    masterPatchRecords_ := patch_records r;
    rog_myRecords_ := list_to_set (List.filter (isMyRecord master r) (map fst recs));
    myGlobalLocs_ := held (isMyRecord master) recs r;
    isMyPatchObs_ := map (fun rl => bool_decide (rl.1 ∈ patch_records r))
      (List.filter (fun '(rec, _) => isMyRecord master r rec) recs);
    rog_globalUniqueConsecutiveLocIndices_ := [] |}) (seq 0 (length L))).
Proof.
  destruct (imapR_Ok_lookup _ _ _ Hmasks) as [Hlen Hi].
  match goal with |- _ = Ok (map ?f _) => rewrite (imapR_Ok _ (fun r _ => f r)) end.
  - f_equal. apply list_eq. intros r. rewrite list_lookup_imap, !list_lookup_fmap.
    destruct (L !! r) eqn:E; simpl.
    + rewrite lookup_seq_lt by (by eapply lookup_lt_Some). done.
    + rewrite lookup_seq_ge by (by apply lookup_ge_None). done.
  - intros r nums Hnums. rewrite list_lookup_fmap in Hnums.
    destruct (L !! r) as [l|] eqn:E; simplify_eq/=.
    destruct (Hi r l E) as (m & Em & Hp). unfold Replica_new.
    rewrite length_map, Hp. simpl. rewrite replica_patch_set
      by (rewrite length_map; eapply (Forall2_lookup_lr _ _ _ _ _ _ Hlens); eauto).
    simpl. rewrite replica_assign_all. simpl. unfold patch_records. rewrite Em, E, sel_map.
    do 2 f_equal. set_solver.
Qed.
End replica.

(** C8: A replica of an overlapping distribution that keeps its contract, given
    locations in increasing order whose records the master holds: no access is
    out of range and no location is left unassigned, each location is held by
    the ranks that hold its record in the master, is a patch observation on
    exactly one of them, and the replica keeps the contract of a distribution. *)
Theorem replica_of_general_contract `{MpiLaws} {G} (master : Distribution) (L : list (list G)) P
    (rec : G -> nat) (recs : list (nat * nat)) :
  DistContract master L P -> MasterRecords master L rec -> L <> [] ->
  StronglySorted lt (map snd recs) ->
  (forall n, n ∈ map fst recs -> exists l, l ∈ L /\ n ∈ map rec l) ->
  exists ss P', Replica_run master (map (map rec) L) recs = Ok ss /\ P' ≡ₚ map snd recs /\
    DistContract (Replica_dist ss)
      (map (held (isMyRecord master) recs) (seq 0 (length L))) P'.
Proof.
  intros Hm Hr Hne Hs Hk. destruct (dc_patch Hm) as (masks & Hmasks & Hlens & Hperm).
  assert (0 < length L) as Hsz by (destruct L; simpl; [done|lia]).
  assert (Hown : forall n, n ∈ map fst recs -> exists o, o < length L /\
    isMyRecord master o n = true /\
    forall r, r < length L -> n ∈ patch_records L rec masks r <-> r = o).
  { intros n Hn. destruct (Hk n Hn) as (l & Hl & Hnl).
    by apply (replica_owner master L P rec masks Hm Hr Hmasks Hperm n l). }
  unfold Replica_run. erewrite replica_new_ok by eassumption. simpl.
  destruct (replica_core (isMyRecord master) (patch_records L rec masks) (length L) recs Hsz Hs Hown)
    as (ss' & Hrun & Hc).
  eexists ss', _. split_and!; [exact Hrun| |exact Hc].
  by apply (replica_partition (isMyRecord master) (patch_records L rec masks) (length L) recs).
Qed.

(** The Halo distribution of two ranks at 0 and 10 with radius 7 as the master:
    record 1 is on both ranks, in the patch of rank 0; its two companion
    locations follow it. *)
Lemma replica_of_general_contract_witness :
  exists master P ss P',
    @DistContract nat master [[0; 1; 3]; [1; 3; 4]] P /\
    @Replica_run reference_comm master [[0; 1; 1]; [1; 1; 2]] [(0, 0); (1, 2); (1, 5)] = Ok ss /\
    P' ≡ₚ [0; 2; 5] /\
    @DistContract nat (@Replica_dist reference_comm ss) [[0; 2; 5]; [2; 5]] P'.
Proof.
  destruct (@halo_run_contract reference_comm reference_laws (option Z) Z _ _
    (fun a b => Some (Z.abs (a - b))) [(Some 7%Z, 0%Z); (Some 7%Z, 10%Z)]
    [(0, 0, 1%Z); (1, 1, 5%Z); (1, 3, 6%Z); (2, 4, 9%Z)]) as (hs & P & Hrun & Hc).
  { done. } { repeat constructor. } { simpl. repeat constructor. }
  exists (@Halo_dist reference_comm (option Z) Z hs), P.
  vm_compute in Hrun. injection Hrun as Hhs.
  destruct (@replica_of_general_contract reference_comm reference_laws nat
    (@Halo_dist reference_comm (option Z) Z hs) [[0; 1; 3]; [1; 3; 4]] P
    (fun g => match g with 0 => 0 | 1 => 1 | 3 => 1 | _ => 2 end)
    [(0, 0); (1, 2); (1, 5)]) as (ss & P' & H1 & H2 & H3).
  - exact Hc.
  - subst hs. split.
    + intros [|[|r]] l n E Hn; simplify_eq/=; rewrite !elem_of_cons, elem_of_nil in Hn;
        destruct Hn as [->|[->|[->|[]]]]; reflexivity.
    + intros [|[|r1]] [|[|r2]] l1 l2 m1 m2 g1 g2 E1 E2 M1 M2 S1 S2; simplify_eq/=; try done;
        rewrite ?elem_of_cons, ?elem_of_nil in S1; rewrite ?elem_of_cons, ?elem_of_nil in S2;
        naive_solver.
  - done.
  - simpl. repeat constructor.
  - intros n Hn. exists [0; 1; 3]. split; [left|].
    simpl in *. rewrite !elem_of_cons, elem_of_nil in Hn |- *. naive_solver.
  - exists ss, P'. split_and!; [exact Hc|exact H1|exact H2|]. subst hs. exact H3.
Defined.
