(* ===== verification/DistributionUtils.v ===== *)
(** The global reductions over distributed observations and the choice of a
    replica distribution: src/src/distribution/DistributionUtils.cc. *)
From stdpp Require Import base list gmap sets.
From S2P Require Import Prelude Mpi Distribution Nonoverlapping Inefficient Halo Replica.

(** The loop over the variables of one location: [contrib element] is what the
    element adds to the location's term. *)
Definition location_term {A} `{Num A} (contrib : nat -> res A) (numVariables element : nat)
  : res (A * nat) :=
  foldM (fun '(term, element) _ => c ← contrib element; Ok (nplus term c, S element))
    (nzero, element) (seq 0 numVariables).

(** The loop over the locations of one rank. *)
Definition local_reduction {A} `{Num A} (acc : Accumulator A) (rank : nat)
    (contrib : nat -> res A) (numVariables numLocations : nat) : res (acc_state acc) :=
  p ← foldM (fun '(s, element) loc =>
        '(term, element) ← location_term contrib numVariables element;
        s ← acc_addTerm acc rank loc term s; Ok (s, element))
      (acc_init acc, 0) (seq 0 numLocations);
  Ok p.1.

Section reductions.
Context {T : Type} `{EqDecision T} (missingValue : T) (d : Distribution).

(** [globalNumNonMissingObsImpl] on all ranks. *)
Definition globalNumNonMissingObs (numVariables : nat) (vs : list (list T)) : res (list nat) :=
  if numVariables =? 0 then Throw EUndefined else
  let acc := createAccumulator d nat nat_Num in
  states ← imapR (fun rank v =>
      local_reduction acc rank
        (fun element => x ← vec_get v element;
           Ok (if decide (x = missingValue) then 0 else 1))
        numVariables (length v / numVariables)) vs;
  Ok (acc_computeResult acc states).

(** The overload for [std::vector<bool>]: nothing is missing. *)
Definition globalNumNonMissingObs_bool (numVariables : nat) (vs : list (list bool))
  : res (list nat) :=
  if numVariables =? 0 then Throw EUndefined else
  let acc := createAccumulator d nat nat_Num in
  states ← imapR (fun rank v =>
      foldM (fun s loc => acc_addTerm acc rank loc numVariables s) (acc_init acc)
        (seq 0 (length v / numVariables))) vs;
  Ok (acc_computeResult acc states).

(** [dotProductImpl] on all ranks; [mul] is the product of two elements as a
    [double]. *)
Definition dotProduct {A : Type} `{Num A} (mul : T -> T -> A) (numVariables : nat)
    (vs : list (list T * list T)) : res (list A) :=
  let acc := createAccumulator d A _ in
  states ← imapR (fun rank '(v1, v2) =>
      _ ← assert (length v1 =? length v2);
      if numVariables =? 0 then Throw EUndefined else
      local_reduction acc rank
        (fun element => x1 ← vec_get v1 element;
           if decide (x1 = missingValue) then Ok nzero else
           x2 ← vec_get v2 element;
           if decide (x2 = missingValue) then Ok nzero else
           x1' ← vec_get v1 element; x2' ← vec_get v2 element; Ok (mul x1' x2'))
        numVariables (length v1 / numVariables)) vs;
  Ok (acc_computeResult acc states).
End reductions.

(** * The replica of a distribution *)

(** The objects [createReplicaDistribution] makes, on all ranks. *)
Inductive ReplicaObject :=
  | RNonoverlapping (ss : list NonoverlappingDistribution)
  | RInefficient (size : nat)
  | RGeneral (ss : list ReplicaOfGeneral).

Definition createReplicaDistribution (master : Distribution) (masterRecordNums : list (list nat))
  : res ReplicaObject :=
  if isNonoverlapping master then
    Ok (RNonoverlapping (replicate (dist_size master) NonoverlappingDistribution_new))
  else if isIdentity master then Ok (RInefficient (dist_size master))
  else ss ← imapR (Replica_new master) masterRecordNums; Ok (RGeneral ss).

(** [assignRecord], dispatched; every rank is told of the location. *)
Definition ReplicaObject_assignRecord (master : Distribution) (o : ReplicaObject)
    (rl : nat * nat) : ReplicaObject :=
  match o with
  | RNonoverlapping ss => RNonoverlapping (imap (fun rank s =>
      Nonoverlapping_assignRecord (ReplicaOfNonoverlapping_isMyRecord master rank) s rl.1 rl.2) ss)
  | RInefficient size => RInefficient size
  | RGeneral ss => RGeneral (imap (fun rank s => Replica_assignRecord master rank s rl.1 rl.2) ss)
  end.

(** [computePatchLocs], dispatched, and the object as a distribution. *)
Definition ReplicaObject_computePatchLocs `{MpiComm} (master : Distribution) (o : ReplicaObject)
  : res Distribution :=
  match o with
  | RNonoverlapping ss => Ok (Nonoverlapping_dist (ReplicaOfNonoverlapping_isMyRecord master)
      (Nonoverlapping_computePatchLocs ss))
  | RInefficient size => Ok (Inefficient_dist size)
  | RGeneral ss => ss' ← Replica_computePatchLocs ss; Ok (Replica_dist ss')
  end.

(** * Proofs *)

Section loops.
Context {A : Type} {N : Num A} {NL : NumLaws A}.

Lemma location_term_spec (contrib : nat -> res A) (cs : list A) element :
  (forall i c, cs !! i = Some c -> contrib (element + i) = Ok c) ->
  location_term contrib (length cs) element = Ok (nsum cs, element + length cs).
Proof.
  unfold location_term. rewrite <- (left_id nzero nplus (nsum cs)). generalize (nzero : A) as t.
  generalize 0 as z. revert element. induction cs as [|c cs IH]; intros e z t Hc; simpl.
  - rewrite (comm nplus), (left_id _ nplus), Nat.add_0_r. done.
  - rewrite <- (Nat.add_0_r e) at 1. rewrite (Hc 0 c) by done. simpl.
    rewrite IH.
    + rewrite (assoc nplus). do 2 f_equal. lia.
    + intros i c' Hi. replace (S e + i) with (e + S i) by lia. by apply Hc.
Qed.

(** If the elements of each location contribute [css], the loop accumulates
    their sums. *)
Lemma local_reduction_spec (acc : Accumulator A) rank contrib nv (css : list (list A)) :
  (forall loc cs i c, css !! loc = Some cs -> cs !! i = Some c -> contrib (loc * nv + i) = Ok c) ->
  Forall (fun cs => length cs = nv) css ->
  local_reduction acc rank contrib nv (length css) = accumulate_rank acc rank (map nsum css).
Proof.
  intros Hc Hlen. unfold local_reduction, accumulate_rank.
  cut (forall n s css, Forall (fun cs => length cs = nv) css ->
    (forall loc cs i c, css !! loc = Some cs -> cs !! i = Some c ->
       contrib ((n + loc) * nv + i) = Ok c) ->
    foldM (fun '(s, element) loc =>
        '(term, element) ← location_term contrib nv element;
        s ← acc_addTerm acc rank loc term s; Ok (s, element)) (s, n * nv) (seq n (length css)) =
    s' ← foldM (fun s '(loc, t) => acc_addTerm acc rank loc t s) s
      (imap (fun loc t => (n + loc, t)) (map nsum css)); Ok (s', (n + length css) * nv)).
  { intros Hg. rewrite (Hg 0 _ css) by done.
    change (imap (fun loc t => (0 + loc, t)) (map nsum css)) with
      (imap (fun loc t => (loc, t)) (map nsum css)). by destruct (foldM _ _ _). }
  clear Hc Hlen css. intros n s css. revert n s. induction css as [|cs css IH];
    intros n s Hl Hc; simpl; [by rewrite Nat.add_0_r|].
  apply Forall_cons in Hl as [E Hl'].
  pose proof (location_term_spec contrib cs (n * nv)) as Et. rewrite E in Et.
  rewrite Et by (intros i c Hi; rewrite <- (Nat.add_0_r n) at 1; by apply (Hc 0 cs)). simpl.
  rewrite Nat.add_0_r. destruct (acc_addTerm acc rank n (nsum cs) s) as [s'|]; simpl; [|done].
  replace (n * nv + nv) with (S n * nv) by lia. rewrite IH; [|done|].
  - rewrite (imap_ext (_ ∘ S) (fun loc t => (S n + loc, t))) by (intros; simpl; f_equal; lia).
    destruct (foldM _ _ _); simpl; do 3 f_equal; lia.
  - intros loc cs' i c Hloc Hi. replace (S n + loc) with (n + S loc) by lia. by apply (Hc (S loc) cs').
Qed.
End loops.

(** Observations stored location by location, [nv] per location. *)
Section interleaved.
Context {G T : Type} (f : G -> list T) (nv : nat) (Hf : forall g, length (f g) = nv).

Definition interleaved (l : list G) : list T := concat (map f l).

Lemma interleaved_length l : length (interleaved l) = length l * nv.
Proof. apply length_concat_map_uniform. auto. Qed.

Lemma interleaved_div l : 0 < nv -> length (interleaved l) / nv = length l.
Proof. intros. rewrite interleaved_length. apply Nat.div_mul. lia. Qed.

Lemma interleaved_lookup l loc g i x :
  l !! loc = Some g -> f g !! i = Some x -> interleaved l !! (loc * nv + i) = Some x.
Proof. intros. eapply lookup_concat_map_uniform; eauto. Qed.
End interleaved.

Lemma nsum_map_concat {A T} `{NumLaws A} (h : T -> A) (l : list (list T)) :
  nsum (map (fun x => nsum (map h x)) l) = nsum (map h (concat l)).
Proof. induction l as [|x l IH]; simpl; [done|]. rewrite map_app, nsum_app. by rewrite <- IH. Qed.

Lemma nsum_indicator {T} (p : T -> bool) l :
  nsum (map (fun x => if p x then 1 else 0) l) = length (List.filter p l).
Proof.
  induction l as [|x l IH]; [done|]. rewrite map_cons, nsum_nat_cons, IH. simpl. by destruct (p x).
Qed.

(** A reduction over interleaved observations, against the contract. *)
Section reduction_spec.
Context {G A : Type} {N : Num A} {NL : NumLaws A} (d : Distribution) (L : list (list G)) (P : list G).
Context (Hd : DistContract d L P) (nv : nat) (h : G -> list A) (Hh : forall g, length (h g) = nv).

Lemma reduction_contract {V} (vs : list V) (run : nat -> V -> res (acc_state (createAccumulator d A N))) :
  length vs = length L ->
  (forall r v l, vs !! r = Some v -> L !! r = Some l ->
     exists contrib, run r v =
       local_reduction (createAccumulator d A N) r contrib nv (length l) /\
       forall loc g i c, l !! loc = Some g -> h g !! i = Some c -> contrib (loc * nv + i) = Ok c) ->
  (states ← imapR run vs; Ok (acc_computeResult (createAccumulator d A N) states)) =
    Ok (replicate (length L) (nsum (concat (map h P)))).
Proof.
  intros Hlen Hrun. pose proof (dc_accumulate Hd A N NL (fun g => nsum (h g))) as Ha.
  unfold accumulate in Ha.
  assert (imapR run vs =
    imapR (accumulate_rank (createAccumulator d A N)) (map (map (fun g => nsum (h g))) L)) as ->.
  { apply imapR_ext2; [by rewrite length_map|]. intros r v ts Hv Hts.
    rewrite list_lookup_fmap in Hts. destruct (L !! r) as [l|] eqn:El; simplify_eq/=.
    destruct (Hrun r v l Hv El) as (contrib & -> & Hc).
    rewrite <- (length_map h l). rewrite local_reduction_spec.
    - by rewrite map_map.
    - intros loc cs i c Hcs Hi. rewrite list_lookup_fmap in Hcs.
      destruct (l !! loc) as [g|] eqn:Eg; simplify_eq/=. by apply (Hc loc g).
    - apply Forall_map, list.Forall_forall. auto. }
  rewrite Ha. by rewrite nsum_concat, map_map.
Qed.
End reduction_spec.

(** [globalNumNonMissingObs] returns on every rank the number of non-missing
    observations at the distinct locations, each counted once however many ranks
    hold it, for any distribution that keeps its contract. *)
Theorem globalNumNonMissingObs_spec {G T} `{EqDecision T} (missing : T) (d : Distribution)
    (L : list (list G)) (P : list G) (nv : nat) (f : G -> list T) :
  DistContract d L P -> 0 < nv -> (forall g, length (f g) = nv) ->
  globalNumNonMissingObs missing d nv (map (interleaved f) L) =
    Ok (replicate (length L)
      (length (List.filter (fun x => negb (bool_decide (x = missing))) (interleaved f P)))).
Proof.
  intros Hd Hnv Hf. unfold globalNumNonMissingObs. destruct (Nat.eqb_spec nv 0); [lia|].
  pose (ind := fun x : T => if negb (bool_decide (x = missing)) then 1 else 0).
  rewrite (reduction_contract d L P Hd nv (fun g => map ind (f g))).
  - rewrite <- nsum_indicator. unfold interleaved. rewrite concat_map, map_map. done.
  - intros g. rewrite length_map. apply Hf.
  - by rewrite length_map.
  - intros r v l Hv Hl. rewrite list_lookup_fmap, Hl in Hv. simplify_eq/=.
    eexists. split; [by rewrite interleaved_div|]. intros loc g i c Hg Hc.
    rewrite list_lookup_fmap in Hc. destruct (f g !! i) as [x|] eqn:Ex; simplify_eq/=.
    rewrite (vec_get_Some _ _ x) by (by eapply interleaved_lookup). simpl. unfold ind.
    destruct (decide (x = missing)); [by rewrite bool_decide_true|by rewrite bool_decide_false].
Qed.

Lemma globalNumNonMissingObs_spec_witness :
  globalNumNonMissingObs 9 (Inefficient_dist 2) 2 [[5; 9; 7; 8]; [5; 9; 7; 8]] = Ok [3; 3].
Proof.
  etransitivity; [apply (globalNumNonMissingObs_spec 9 (Inefficient_dist 2)
    (replicate 2 [0; 1]) [0; 1] 2 (fun g => if g =? 0 then [5; 9] else [7; 8]))|reflexivity].
  - apply (inefficient_contract 2 [0; 1]); [lia|]. apply (bool_decide_unpack _). vm_compute. exact I.
  - lia.
  - intros [|g]; reflexivity.
Defined.

(** [dotProduct] returns on every rank the sum over the distinct locations
    and the variables of the products of the two vectors, an element that is
    missing in either vector contributing nothing (addition being associative
    and commutative). *)
Theorem dotProduct_spec {G T A} `{EqDecision T} `{NumLaws A} (missing : T) (d : Distribution)
    (L : list (list G)) (P : list G) (nv : nat) (mul : T -> T -> A) (f1 f2 : G -> list T) :
  DistContract d L P -> 0 < nv -> (forall g, length (f1 g) = nv) -> (forall g, length (f2 g) = nv) ->
  dotProduct missing d mul nv (map (fun l => (interleaved f1 l, interleaved f2 l)) L) =
    Ok (replicate (length L) (nsum (zip_with
      (fun x1 x2 => if bool_decide (x1 = missing) || bool_decide (x2 = missing)
                    then nzero else mul x1 x2) (interleaved f1 P) (interleaved f2 P)))).
Proof.
  intros Hd Hnv Hf1 Hf2. unfold dotProduct.
  pose (term := fun x1 x2 => if bool_decide (x1 = missing) || bool_decide (x2 = missing)
                    then nzero else mul x1 x2).
  fold term. rewrite (reduction_contract d L P Hd nv (fun g => zip_with term (f1 g) (f2 g))).
  - do 3 f_equal. clear -Hf1 Hf2. unfold interleaved. induction P as [|g P' IH]; simpl; [done|].
    rewrite zip_with_app by (by rewrite Hf1, Hf2). by rewrite IH.
  - intros g. rewrite length_zip_with, Hf1, Hf2. lia.
  - by rewrite length_map.
  - intros r v l Hv Hl. rewrite list_lookup_fmap, Hl in Hv. simplify_eq/=.
    eexists. split.
    { rewrite (interleaved_length f1 nv Hf1), (interleaved_length f2 nv Hf2), Nat.eqb_refl. simpl.
      destruct (Nat.eqb_spec nv 0); [lia|]. rewrite Nat.div_mul by lia. done. }
    intros loc g i c Hg Hc. apply lookup_zip_with_Some in Hc as (x1 & x2 & -> & E1 & E2).
    rewrite !(vec_get_Some (interleaved f1 l) _ x1) by (by eapply interleaved_lookup). simpl.
    rewrite !(vec_get_Some (interleaved f2 l) _ x2) by (by eapply interleaved_lookup). simpl. unfold term.
    case_bool_decide as B1; case_bool_decide as B2; repeat case_decide; by simplify_eq/=.
Qed.

Lemma dotProduct_spec_witness :
  dotProduct 9 (Inefficient_dist 2) Nat.mul 2
    [([5; 9; 7; 8], [1; 2; 3; 4]); ([5; 9; 7; 8], [1; 2; 3; 4])] = Ok [58; 58].
Proof.
  etransitivity; [apply (dotProduct_spec 9 (Inefficient_dist 2)
    (replicate 2 [0; 1]) [0; 1] 2 Nat.mul (fun g => if g =? 0 then [5; 9] else [7; 8])
    (fun g => if g =? 0 then [1; 2] else [3; 4]))|reflexivity].
  - apply (inefficient_contract 2 [0; 1]); [lia|]. apply (bool_decide_unpack _). vm_compute. exact I.
  - lia.
  - intros [|g]; reflexivity.
  - intros [|g]; reflexivity.
Defined.

(** * Records of a replica *)

Lemma replica_object_assign_all master rls ss :
  foldl (ReplicaObject_assignRecord master) (RGeneral ss) rls =
    RGeneral (imap (fun rank s => Replica_assign_all master rank rls s) ss).
Proof.
  revert ss. induction rls as [|[rec loc] rls IH]; intros ss; simpl.
  - f_equal. apply list_eq. intros i. rewrite list_lookup_imap. by destruct (ss !! i).
  - rewrite IH. f_equal. apply list_eq. intros i. rewrite !list_lookup_imap. by destruct (ss !! i).
Qed.

(** The records of a rank are kept by [computePatchLocs]. *)
Lemma computePatchLocs_myRecords `{MpiLaws} ss ss' :
  Replica_computePatchLocs ss = Ok ss' -> length ss' <= length ss /\
  forall r s', ss' !! r = Some s' -> exists s, ss !! r = Some s /\ rog_myRecords_ s' = rog_myRecords_ s.
Proof.
  unfold Replica_computePatchLocs. generalize (zip (comm_allReduce Nat.max (map Replica_nglocs ss))
    (comm_allGatherv (map (fun s => sel (isMyPatchObs_ s) (myGlobalLocs_ s)) ss))) as zs.
  revert ss'. induction ss as [|s ss IH]; intros ss' [|[n locs] zs] Hr; simpl in Hr; inv_res;
    try (split; [simpl; lia|done]).
  apply res_bind_Ok in Hr as (s1 & Hs1 & Hr). apply res_bind_Ok in Hr as (ss1 & Hss1 & Hr). inv_res.
  destruct (IH _ _ Hss1) as [Hl Hi]. split; [simpl; lia|]. intros [|r] s' Hs'; simplify_eq/=; [|eauto].
  exists s. split; [done|]. apply res_bind_Ok in Hs1 as (v & _ & Hf). unfold Replica_finish in Hf.
  apply res_bind_Ok in Hf as (idx & _ & Hf). by inv_res.
Qed.

(** [createReplicaDistribution]'s promise: whichever replica it chooses, a
    record assigned to the replica is on a rank if and only if the master has it
    on that rank. *)
Theorem createReplicaDistribution_same_records `{MpiLaws} (master : Distribution) recNums o d
    (rls : list (nat * nat)) rank rec :
  (isIdentity master = true -> forall r n, isMyRecord master r n = true) ->
  createReplicaDistribution master recNums = Ok o ->
  ReplicaObject_computePatchLocs master (foldl (ReplicaObject_assignRecord master) o rls) = Ok d ->
  rank < dist_size d -> rec ∈ map fst rls ->
  isMyRecord d rank rec = isMyRecord master rank rec.
Proof.
  intros Hid Hc Hd Hr Hrec. unfold createReplicaDistribution in Hc.
  destruct (isNonoverlapping master).
  - inv_res. assert (exists ss, foldl (ReplicaObject_assignRecord master) (RNonoverlapping
      (replicate (dist_size master) NonoverlappingDistribution_new)) rls = RNonoverlapping ss)
      as [ss E].
    { generalize (replicate (dist_size master) NonoverlappingDistribution_new) as ss.
      clear. induction rls as [|x rls IH]; intros ss; simpl; eauto. }
    rewrite E in Hd. simpl in Hd. by inv_res.
  - destruct (isIdentity master) eqn:Ei.
    + inv_res. assert (foldl (ReplicaObject_assignRecord master) (RInefficient (dist_size master)) rls
        = RInefficient (dist_size master)) as E by (clear; induction rls; simpl; auto).
      rewrite E in Hd. simpl in Hd. inv_res. simpl. by rewrite Hid.
    + repeat res_step. inv_res. rewrite replica_object_assign_all in Hd. simpl in Hd.
      repeat res_step. inv_res. simpl in *.
      destruct (computePatchLocs_myRecords _ _ Hr1) as [_ Hi].
      destruct (lookup_lt_is_Some_2 _ _ Hr) as [s' Hs']. rewrite Hs'.
      destruct (Hi _ _ Hs') as (s & Hs & E). unfold Replica_isMyRecord. rewrite E.
      rewrite list_lookup_imap in Hs. destruct (a !! rank) as [s0|] eqn:E0; simplify_eq/=.
      rewrite replica_assign_all. simpl. destruct (imapR_Ok_lookup _ _ _ Hr0) as [Hl0 Hn].
      destruct (lookup_lt_is_Some_2 recNums rank) as [nums Hnums];
        [rewrite <- Hl0; by eapply lookup_lt_Some|].
      destruct (Hn _ _ Hnums) as (s1 & E1 & Hnew). simplify_eq.
      unfold Replica_new in Hnew. repeat res_step. inv_res. simpl.
      apply eq_true_iff_eq.
      rewrite bool_decide_eq_true, elem_of_union, elem_of_list_to_set, elem_of_List_filter.
      split; [|tauto]. by intros [[_ ?]|?%elem_of_empty].
Qed.

(** A replica of the Halo master of two ranks at 0 and 10. *)
Lemma createReplicaDistribution_same_records_witness :
  exists hs o d,
    @Halo_run reference_comm (option Z) Z _ (fun a b => Some (Z.abs (a - b)))
      [(Some 7%Z, 0%Z); (Some 7%Z, 10%Z)] [(0, 0, 1%Z); (1, 1, 5%Z); (2, 2, 9%Z)] = Ok hs /\
    let master := @Halo_dist reference_comm (option Z) Z hs in
    createReplicaDistribution master [[0; 1]; [1; 2]] = Ok o /\
    @ReplicaObject_computePatchLocs reference_comm master
      (foldl (ReplicaObject_assignRecord master) o [(0, 0); (1, 1); (2, 2)]) = Ok d /\
    isMyRecord d 1 0 = isMyRecord master 1 0.
Proof.
  eexists _, _, _. split; [vm_compute; reflexivity|]. intros master.
  split; [vm_compute; reflexivity|]. split; [vm_compute; reflexivity|].
  eapply (@createReplicaDistribution_same_records reference_comm reference_laws master
    [[0; 1]; [1; 2]] _ _ [(0, 0); (1, 1); (2, 2)]).
  - done.
  - vm_compute; reflexivity.
  - vm_compute; reflexivity.
  - simpl. lia.
  - simpl. left.
Defined.
