(* ===== verification/Selection.v ===== *)
(** Which elements of a variable's storage a transfer touches:
    src/src/engines/ioda/src/ioda/Engines/ObsStore/Selection.{hpp,cpp} (the
    iterator over linear memory indices) and ObsStore-selection.cpp (its
    construction from the frontend's ioda::Selection).

    Sizes and linear indices are [std::size_t] and kept in [Z] with their
    wrap-around ([u64]); positions in vectors are [nat]. *)
From stdpp Require Import base list gmap sorting strings.
From S2P Require Import Prelude.
Local Open Scope Z_scope.

Inductive SelectionModes := ALL | INTERSECT | POINT.

#[export] Instance SelectionModes_eq_dec : EqDecision SelectionModes.
Proof. solve_decision. Defined.

(** * SelectCounter *)

Record SelectCounter := {
  sc_mode_ : SelectionModes;
  digits_ : list nat;
  icount_ : nat;
  ndigits_ : nat;
  digit_sizes_ : list nat;
  counter_end_ : bool
}.

Definition SelectCounter_new : SelectCounter :=
  {| sc_mode_ := ALL; digits_ := []; icount_ := 0; ndigits_ := 0; digit_sizes_ := [];
     counter_end_ := false |}.

Definition SelectCounter_reset (mode : SelectionModes) (digit_sizes : list nat)
    (s : SelectCounter) : SelectCounter :=
  {| sc_mode_ := mode; digits_ := replicate (length digit_sizes) 0%nat; icount_ := icount_ s;
     ndigits_ := length digit_sizes; digit_sizes_ := digit_sizes; counter_end_ := false |}.

(** The carry loop of [inc], at digit [icount]. *)
Fixpoint inc_carry (digit_sizes digits : list nat) (icount : nat)
  : res (list nat * nat * bool) :=
  d ← vec_get digits icount;
  sz ← vec_get digit_sizes icount;
  if (d =? sz)%nat then
    match icount with
    | O => Ok (digits, O, true)
    | S icount' =>
        digits1 ← vec_set digits icount 0%nat;
        d' ← vec_get digits1 icount';
        digits2 ← vec_set digits1 icount' (S d');
        inc_carry digit_sizes digits2 icount'
    end
  else Ok (digits, icount, false).

Definition SelectCounter_inc (s : SelectCounter) : res SelectCounter :=
  match sc_mode_ s with
  | POINT =>
      d0 ← vec_get (digits_ s) 0;
      (* ndigits_ - 1, where an empty counter has failed above *)
      if (d0 =? ndigits_ s - 1)%nat then
        Ok {| sc_mode_ := sc_mode_ s; digits_ := digits_ s; icount_ := icount_ s;
              ndigits_ := ndigits_ s; digit_sizes_ := digit_sizes_ s; counter_end_ := true |}
      else
        Ok {| sc_mode_ := sc_mode_ s; digits_ := map S (digits_ s); icount_ := icount_ s;
              ndigits_ := ndigits_ s; digit_sizes_ := digit_sizes_ s;
              counter_end_ := counter_end_ s |}
  | _ =>
      match ndigits_ s with
      | O => Throw EUndefined
      | S icount =>
          d ← vec_get (digits_ s) icount;
          digits ← vec_set (digits_ s) icount (S d);
          '(digits, icount, fin) ← inc_carry (digit_sizes_ s) digits icount;
          Ok {| sc_mode_ := sc_mode_ s; digits_ := digits; icount_ := icount;
                ndigits_ := ndigits_ s; digit_sizes_ := digit_sizes_ s;
                counter_end_ := fin || counter_end_ s |}
      end
  end.

(** * Selection *)

Record Selection := {
  mode_ : SelectionModes;
  end_ : Z;
  index_ : Z;
  npoints_ : Z;
  max_index_ : Z;
  dim_selects_ : list (list Z);
  dim_sizes_ : list Z;
  dim_select_sizes_ : list nat;
  counter_ : SelectCounter
}.

Definition Selection_all (start npoints : Z) : res Selection :=
  e ← narrow_int (u64 (start + npoints));
  Ok {| mode_ := ALL; end_ := e - 1; index_ := 0; npoints_ := npoints;
        max_index_ := u64 (e - 1); dim_selects_ := []; dim_sizes_ := [];
        dim_select_sizes_ := []; counter_ := SelectCounter_new |}.

Definition Selection_dims (mode : SelectionModes) (dim_selects : list (list Z))
    (dim_sizes : list Z) : res Selection :=
  '(npoints, max_index) ← foldM (fun '(npoints, max_index) '(i, sel) =>
      n ← vec_get dim_sizes i;
      let npoints' := if ((i =? 0)%nat || bool_decide (mode = INTERSECT))
                      then u64 (npoints * Z.of_nat (length sel)) else npoints in
      Ok (npoints', u64 (max_index * u64 n)))
    (1, 1) (imap (fun i sel => (i, sel)) dim_selects);
  Ok {| mode_ := mode; end_ := 0; index_ := 0; npoints_ := npoints;
        max_index_ := u64 (max_index - 1); dim_selects_ := dim_selects; dim_sizes_ := dim_sizes;
        dim_select_sizes_ := map length dim_selects; counter_ := SelectCounter_new |}.

Definition with_index (s : Selection) (i : Z) : Selection :=
  {| mode_ := mode_ s; end_ := end_ s; index_ := i; npoints_ := npoints_ s;
     max_index_ := max_index_ s; dim_selects_ := dim_selects_ s; dim_sizes_ := dim_sizes_ s;
     dim_select_sizes_ := dim_select_sizes_ s; counter_ := counter_ s |}.
Definition with_counter (s : Selection) (c : SelectCounter) : Selection :=
  {| mode_ := mode_ s; end_ := end_ s; index_ := index_ s; npoints_ := npoints_ s;
     max_index_ := max_index_ s; dim_selects_ := dim_selects_ s; dim_sizes_ := dim_sizes_ s;
     dim_select_sizes_ := dim_select_sizes_ s; counter_ := c |}.

Definition init_lin_indx (s : Selection) : Selection :=
  match mode_ s with
  | ALL => with_index s 0
  | _ => with_counter s (SelectCounter_reset (mode_ s) (dim_select_sizes_ s) (counter_ s))
  end.

(** [dim_selects_[i][curCount[i]]] *)
Definition select_at (s : Selection) (i : nat) : res Z :=
  c ← vec_get (digits_ (counter_ s)) i;
  sel ← vec_get (dim_selects_ s) i;
  vec_get sel c.

Definition next_lin_indx (s : Selection) : res (Z * Selection) :=
  '(lin_index, s') ←
    match mode_ s with
    | ALL => Ok (u64 (index_ s), with_index s (index_ s + 1))
    | _ =>
        x0 ← select_at s 0;
        lin_index ← foldM (fun lin_index i =>
            n ← vec_get (dim_sizes_ s) i;
            x ← select_at s i;
            Ok (u64 (u64 (lin_index * u64 n) + x)))
          x0 (seq 1 (length (dim_selects_ s) - 1));
        c ← SelectCounter_inc (counter_ s);
        Ok (lin_index, with_counter s c)
    end;
  if decide (max_index_ s < lin_index) then
    Throw (EException "Next linear index is out of bounds.")
  else Ok (lin_index, s').

Definition end_lin_indx (s : Selection) : bool :=
  match mode_ s with
  | ALL => bool_decide (end_ s < index_ s)
  | _ => counter_end_ (counter_ s)
  end.

Definition npoints (s : Selection) : Z := npoints_ s.

(** * The frontend's selection *)

Inductive SelectionState := StateALL | StateNONE.

Record SingleSelection := {
  start_ : list Z;
  count_ : list Z;
  stride_ : list Z;
  block_ : list Z;
  points_ : list (list Z);
  dimension_ : nat;
  dimension_indices_starts_ : list Z;
  dimension_indices_counts_ : list Z
}.

Record FrontSelection := {
  default_ : SelectionState;
  actions_ : list SingleSelection;
  extent_ : list Z
}.

(** [genDimSelects] of a hyperslab. *)
Definition genDimSelects_hyperslab (start count stride block : list Z) : res (list (list Z)) :=
  mapR (fun idim =>
      dim_start ← vec_get start idim;
      dim_count ← vec_get count idim;
      dim_stride ← (match stride with [] => Ok 1 | _ => vec_get stride idim end);
      dim_block ← (match block with [] => Ok 1 | _ => vec_get block idim end);
      Ok (flat_map (fun i =>
            let block_start := u64 (u64 dim_start + u64 (Z.of_nat i * u64 dim_stride)) in
            map (fun j => u64 (block_start + Z.of_nat j)) (seq 0 (Z.to_nat (u64 dim_block))))
          (seq 0 (Z.to_nat (u64 dim_count)))))
    (seq 0 (length start)).

(** ... of a list of points: the transposed list. *)
Definition genDimSelects_points (points : list (list Z)) : res (list (list Z)) :=
  p0 ← vec_get points 0;
  mapR (fun idim => mapR (fun p => x ← vec_get p idim; Ok (u64 x)) points)
    (seq 0 (length p0)).

(** The ordered set of the indices of one action along its dimension; the
    insertion into a [std::set]. *)
Fixpoint set_insert (x : Z) (l : list Z) : list Z :=
  match l with
  | [] => [x]
  | y :: l' => if x <? y then x :: l else if x =? y then l else y :: set_insert x l'
  end.

Definition action_indices (a : SingleSelection) : list Z :=
  foldl (fun s idx =>
      match dimension_indices_counts_ a with
      | [] => set_insert (u64 idx) s
      | _ => foldl (fun s j => set_insert (u64 (u64 idx + Z.of_nat j)) s) s
               (seq 0 (length (dimension_indices_counts_ a)))
      end)
    [] (dimension_indices_starts_ a).

(** ... of the actions that list indices along dimensions. *)
Definition genDimSelects_indices (actions : list SingleSelection) (dim_sizes : list Z)
  : res (list (list Z)) :=
  selects ← foldM (fun selects a => vec_set selects (dimension_ a) (action_indices a))
    (replicate (length dim_sizes) []) actions;
  Ok (zip_with (fun sel n => match sel with
        | [] => map Z.of_nat (seq 0 (Z.to_nat (u64 n)))
        | _ => sel
        end) selects dim_sizes).

Definition createObsStoreSelection (selection : FrontSelection) (dim_sizes : list Z)
  : res Selection :=
  match default_ selection, actions_ selection with
  | StateALL, [] => Selection_all 0 (foldl (fun n d => u64 (n * u64 d)) 1 dim_sizes)
  | _, [] => Throw EUndefined
  | _, first_action :: _ =>
      match start_ first_action, points_ first_action, dimension_indices_starts_ first_action with
      | _ :: _, _, _ =>
          sels ← genDimSelects_hyperslab (start_ first_action) (count_ first_action)
                   (stride_ first_action) (block_ first_action);
          Selection_dims INTERSECT sels dim_sizes
      | [], _ :: _, _ =>
          sels ← genDimSelects_points (points_ first_action);
          Selection_dims POINT sels dim_sizes
      | [], [], _ :: _ =>
          sels ← genDimSelects_indices (actions_ selection) dim_sizes;
          Selection_dims INTERSECT sels dim_sizes
      | [], [], [] => Throw (EException "Unrecongnized selection mode")
      end
  end.

(** * Walking through a selection

    [for (s.init_lin_indx(); !s.end_lin_indx();) idx = s.next_lin_indx()]: the
    indices it gives, with a bound on the number of iterations. *)
Fixpoint walk (fuel : nat) (s : Selection) : res (list Z) :=
  if end_lin_indx s then Ok [] else
  match fuel with
  | O => Throw EFuel
  | S fuel => '(i, s') ← next_lin_indx s; rest ← walk fuel s'; Ok (i :: rest)
  end.

Definition lin_indices (fuel : nat) (s : Selection) : res (list Z) := walk fuel (init_lin_indx s).

(** * Specification: nested loops *)

(** The linear indices of the nested loops [for x0 in sel0, for x1 in sel1, ...]
    over a row-major array with dimensions [sizes]; [acc] is the linear index of
    the loops outside. *)
Fixpoint nested (sels : list (list Z)) (sizes : list Z) (acc : Z) : list Z :=
  match sels, sizes with
  | sel :: sels, n :: sizes => concat (map (fun x => nested sels sizes (acc * n + x)) sel)
  | _, _ => [acc]
  end.

Definition prod (l : list nat) : nat := foldr Nat.mul 1%nat l.
Definition prodZ (l : list Z) : Z := foldr Z.mul 1 l.

(** The position in the nested loops of a counter value. *)
Fixpoint digits_val (sizes digits : list nat) : nat :=
  match sizes, digits with
  | _ :: ss, d :: ds => d * prod ss + digits_val ss ds
  | _, _ => 0
  end.

(** The linear index of a counter value. *)
Fixpoint lin_of (sels : list (list Z)) (sizes : list Z) (digits : list nat) (acc : Z) : Z :=
  match sels, sizes, digits with
  | sel :: sels, n :: sizes, d :: digits =>
      lin_of sels sizes digits (acc * n + default 0 (sel !! d))
  | _, _, _ => acc
  end.

(** * The counter *)

Section counter.
Local Open Scope nat_scope.

Lemma prod_app l1 l2 : prod (l1 ++ l2) = prod l1 * prod l2.
Proof. unfold prod. induction l1; simpl; [lia|]. rewrite IHl1. lia. Qed.

Lemma prod_cons n l : prod (n :: l) = n * prod l.
Proof. done. Qed.

Lemma prod_pos l : Forall (fun n => 0 < n) l -> 0 < prod l.
Proof. induction 1; simpl; lia. Qed.

Lemma digits_val_app s1 s2 d1 d2 :
  length s1 = length d1 -> length s2 = length d2 ->
  digits_val (s1 ++ s2) (d1 ++ d2) = digits_val s1 d1 * prod s2 + digits_val s2 d2.
Proof.
  revert d1. induction s1 as [|s s1 IH]; intros [|d d1] H1 H2; simplify_eq/=; [done|].
  rewrite IH by done. rewrite prod_app. lia.
Qed.

Lemma digits_val_lt sizes digits : Forall2 lt digits sizes -> digits_val sizes digits < prod sizes.
Proof.
  induction 1 as [|d s ds ss Hd Hds IH]; simpl; [lia|].
  assert (d * prod ss + prod ss <= s * prod ss) by nia. unfold prod in *. simpl. lia.
Qed.

Lemma digits_val_zero sizes : digits_val sizes (replicate (length sizes) 0) = 0.
Proof. induction sizes; simpl; lia. Qed.

Lemma replicate_0_valid sizes :
  Forall (fun n => 0 < n) sizes -> Forall2 lt (replicate (length sizes) 0) sizes.
Proof. induction 1; simpl; constructor; auto. Qed.

(** The carry loop, when the digits right of [icount] have been reset. *)
Lemma inc_carry_spec sp s sz pre d :
  Forall2 lt pre sp -> d < s -> Forall (fun n => 0 < n) sz ->
  let sizes := sp ++ s :: sz in
  let v := digits_val sizes (pre ++ S d :: replicate (length sz) 0) in
  exists digits icount fin,
    inc_carry sizes (pre ++ S d :: replicate (length sz) 0) (length pre) = Ok (digits, icount, fin) /\
    if (fin : bool) then v = prod sizes
    else Forall2 lt digits sizes /\ digits_val sizes digits = v.
Proof.
  revert sp s sz d. induction pre as [|e pre IH] using rev_ind; intros sp s sz d Hpre Hd Hsz sizes v.
  - apply Forall2_nil_inv_l in Hpre as ->. cbn [app length] in *. cbn [inc_carry].
    change (vec_get (S d :: replicate (length sz) 0) 0) with (Ok (S d)).
    change (vec_get sizes 0) with (Ok s). cbn [mbind res_bind].
    destruct (Nat.eqb_spec (S d) s) as [<-|Hne].
    + eexists _, _, true. split; [reflexivity|]. unfold v, sizes.
      cbn [digits_val]. rewrite digits_val_zero, prod_cons. lia.
    + eexists _, _, false. split; [reflexivity|]. split; [|done].
      constructor; [lia|by apply replicate_0_valid].
  - apply Forall2_app_inv_l in Hpre as (sp' & se & Hpre & He & ->).
    apply Forall2_cons_inv_l in He as (s' & nil & He & Hnil & ->). apply Forall2_nil_inv_l in Hnil as ->.
    rewrite length_app. simpl. replace (length pre + 1) with (S (length pre)) by lia. cbn [inc_carry].
    pose proof (Forall2_length _ _ _ Hpre) as Hl.
    rewrite vec_get_middle by (rewrite length_app; simpl; lia).
    assert (vec_get sizes (S (length pre)) = Ok s) as ->
      by (apply vec_get_middle; rewrite length_app; simpl; lia).
    cbn [mbind res_bind]. destruct (Nat.eqb_spec (S d) s) as [<-|Hne].
    + rewrite vec_set_middle by (rewrite length_app; simpl; lia). cbn [mbind res_bind].
      rewrite <- app_assoc. cbn [app]. rewrite vec_get_middle by done. cbn [mbind res_bind].
      rewrite vec_set_middle by done. cbn [mbind res_bind].
      destruct (IH sp' s' (S d :: sz) e) as (digits & icount & fin & Hi & Hf); [done..|constructor; [lia|done]|].
      exists digits, icount, fin. simpl in Hi.
      unfold sizes. rewrite <- app_assoc. simpl. split; [exact Hi|].
      assert (v = digits_val (sp' ++ s' :: S d :: sz) (pre ++ S e :: 0 :: replicate (length sz) 0)) as ->.
      { unfold v, sizes. rewrite <- !app_assoc. simpl.
        rewrite !digits_val_app by (simpl; rewrite ?length_replicate; lia).
        cbn [digits_val]. rewrite !prod_cons. change (prod [s']) with (s' * 1). lia. }
      exact Hf.
    + eexists _, _, false. split; [reflexivity|]. split; [|done]. unfold sizes.
      apply Forall2_app; [apply Forall2_app; [done|by repeat constructor]|].
      constructor; [lia|by apply replicate_0_valid].
Qed.

(** Incrementing the last digit and carrying is the successor of the position. *)
Lemma inc_digits_spec sizes digits :
  Forall2 lt digits sizes -> Forall (fun n => 0 < n) sizes -> sizes <> [] ->
  exists m d ds1 ds2 ic fin, length sizes = S m /\
    vec_get digits m = Ok d /\ vec_set digits m (S d) = Ok ds1 /\
    inc_carry sizes ds1 m = Ok (ds2, ic, fin) /\
    if (fin : bool) then S (digits_val sizes digits) = prod sizes
    else Forall2 lt ds2 sizes /\ digits_val sizes ds2 = S (digits_val sizes digits).
Proof.
  intros Hv Hp Hne. destruct sizes as [|s sp _] using rev_ind; [done|].
  apply Forall2_app_inv_r in Hv as (pre & ds & Hpre & Hd & ->).
  apply Forall2_cons_inv_r in Hd as (d & nil & Hd & Hnil & ->). apply Forall2_nil_inv_r in Hnil as ->.
  pose proof (Forall2_length _ _ _ Hpre) as Hl.
  destruct (inc_carry_spec sp s [] pre d) as (ds2 & ic & fin & Hi & Hf); [done..|].
  exists (length pre), d, (pre ++ [S d]), ds2, ic, fin.
  rewrite length_app, vec_get_middle, vec_set_middle by done. split_and!; [simpl; lia|done..|].
  assert (digits_val (sp ++ [s]) (pre ++ [S d]) = S (digits_val (sp ++ [s]) (pre ++ [d]))) as E.
  { rewrite !digits_val_app by (simpl; lia). simpl. lia. }
  simpl in Hf. rewrite E in Hf. done.
Qed.
End counter.

(** The nested loops, position by position. *)
Lemma nested_length ss ns acc :
  length ss = length ns -> length (nested ss ns acc) = prod (map length ss).
Proof.
  revert ns acc. induction ss as [|sel ss IH]; intros [|n ns] acc Hl; simplify_eq/=; [done|].
  apply (length_concat_map_uniform _ (prod (map length ss))). auto.
Qed.

Lemma nested_lookup ss ns ds acc :
  length ss = length ns -> Forall2 lt ds (map length ss) ->
  nested ss ns acc !! digits_val (map length ss) ds = Some (lin_of ss ns ds acc).
Proof.
  revert ns ds acc. induction ss as [|sel ss IH]; intros [|n ns] ds acc Hl Hv; simplify_eq/=.
  - apply Forall2_nil_inv_r in Hv as ->. done.
  - apply Forall2_cons_inv_r in Hv as (d & ds' & Hd & Hv & ->).
    destruct (lookup_lt_is_Some_2 _ _ Hd) as [x Hx]. simpl. rewrite Hx. simpl.
    eapply lookup_concat_map_uniform; [|exact Hx|by apply IH]. intros. by apply nested_length.
Qed.

(** * Walking through an INTERSECT selection *)

(** The selected indices of each dimension exist and are in range. *)
Definition in_range (sel : list Z) (n : Z) : Prop :=
  sel <> [] /\ Forall (fun x => 0 <= x < n) sel.

Section intersect.
Context (sels : list (list Z)) (sizes : list Z).
Context (Hrange : Forall2 in_range sels sizes) (Hbound : prodZ sizes < 2 ^ 64) (Hne : sels <> []).

Let counts := map length sels.

Lemma prodZ_app l1 l2 : prodZ (l1 ++ l2) = prodZ l1 * prodZ l2.
Proof. unfold prodZ. induction l1; simpl; [lia|]. rewrite IHl1. lia. Qed.

Lemma sizes_pos : Forall (fun n => 0 < n) sizes.
Proof.
  eapply Forall2_Forall_r; [exact Hrange|]. apply list.Forall_forall. intros sel _ n [Hs Hall].
  destruct sel as [|x sel]; [done|]. apply Forall_cons in Hall as [? _]. lia.
Qed.

Lemma prodZ_pos l : Forall (fun n => 0 < n) l -> 0 < prodZ l.
Proof. unfold prodZ. induction 1; simpl; lia. Qed.

Lemma prodZ_take_le i : prodZ (take i sizes) <= prodZ sizes.
Proof.
  rewrite <- (take_drop i sizes) at 2. rewrite prodZ_app.
  pose proof (prodZ_pos (take i sizes) (Forall_take _ _ _ sizes_pos)).
  pose proof (prodZ_pos (drop i sizes) (Forall_drop _ _ _ sizes_pos)). nia.
Qed.

Lemma counts_pos : Forall (fun n => (0 < n)%nat) counts.
Proof.
  apply Forall_map. eapply Forall2_Forall_l; [exact Hrange|]. apply list.Forall_forall.
  intros n _ sel [Hs _]. destruct sel; [done|simpl; lia].
Qed.

(** One step of Horner's rule stays in range. *)
Lemma horner_range i n x acc :
  sizes !! i = Some n -> 0 <= x < n -> 0 <= acc < prodZ (take i sizes) ->
  0 <= acc * n + x < prodZ (take (S i) sizes) /\ acc * n < 2 ^ 64 /\ 0 <= n < 2 ^ 64.
Proof.
  intros Hn Hx Hacc. pose proof (prodZ_take_le (S i)) as Hle.
  rewrite (take_S_r _ _ _ Hn), prodZ_app in Hle |- *. unfold prodZ in *. simpl in *. nia.
Qed.

(** The counter of the iterator is a position of the selection. *)
Record readable (s : Selection) : Prop := {
  rd_selects : dim_selects_ s = sels;
  rd_sizes : dim_sizes_ s = sizes;
  rd_valid : Forall2 lt (digits_ (counter_ s)) counts
}.

(** The state of the iterator at position [k] of the nested loops. *)
Record at_position (k : nat) (s : Selection) : Prop := {
  ap_readable : readable s;
  ap_mode : mode_ s = INTERSECT;
  ap_max : max_index_ s = prodZ sizes - 1;
  ap_cmode : sc_mode_ (counter_ s) = INTERSECT;
  ap_val : digits_val counts (digits_ (counter_ s)) = k;
  ap_ndigits : ndigits_ (counter_ s) = length sels;
  ap_dsizes : digit_sizes_ (counter_ s) = counts;
  ap_end : counter_end_ (counter_ s) = false
}.

Lemma select_at_ok s i n :
  readable s -> sizes !! i = Some n -> exists sel d x,
    sels !! i = Some sel /\ digits_ (counter_ s) !! i = Some d /\ sel !! d = Some x /\
    select_at s i = Ok x /\ 0 <= x < n.
Proof.
  intros Hs Hn. destruct (Forall2_lookup_r _ _ _ _ _ Hrange Hn) as (sel & Hsel & Hr).
  assert (counts !! i = Some (length sel)) as Hc by (unfold counts; by rewrite list_lookup_fmap, Hsel).
  destruct (Forall2_lookup_r _ _ _ _ _ (rd_valid _ Hs) Hc) as (d & Hd & Hlt).
  destruct (lookup_lt_is_Some_2 _ _ Hlt) as [x Hx]. exists sel, d, x. split_and!; try done.
  - unfold select_at. rewrite (vec_get_Some _ _ _ Hd). simpl. rewrite (rd_selects _ Hs).
    rewrite (vec_get_Some _ _ _ Hsel). simpl. by apply vec_get_Some.
  - destruct Hr as [_ Hr]. rewrite list.Forall_forall in Hr. by apply Hr, (list_elem_of_lookup_2 _ d).
  - destruct Hr as [_ Hr]. rewrite list.Forall_forall in Hr. by apply Hr, (list_elem_of_lookup_2 _ d).
Qed.

Lemma lin_fold s m i acc :
  readable s -> (i + m = length sels)%nat -> 0 <= acc < prodZ (take i sizes) ->
  let r := lin_of (drop i sels) (drop i sizes) (drop i (digits_ (counter_ s))) acc in
  foldM (fun lin_index i =>
      n ← vec_get (dim_sizes_ s) i; x ← select_at s i;
      Ok (u64 (u64 (lin_index * u64 n) + x))) acc (seq i m) = Ok r /\ 0 <= r < prodZ sizes.
Proof.
  intros Hs. pose proof (Forall2_length _ _ _ Hrange) as Hl. rewrite (rd_sizes _ Hs). revert i acc.
  induction m as [|m IH]; intros i acc Him Hacc r.
  - rewrite (take_ge sizes i) in Hacc by lia. unfold r. rewrite !drop_ge by lia. done.
  - destruct (lookup_lt_is_Some_2 sizes i) as [n Hn]; [lia|].
    destruct (select_at_ok s i n Hs Hn) as (sel & d & x & Hsel & Hd & Hx & Hat & Hxn).
    destruct (horner_range i n x acc Hn Hxn Hacc) as (Hacc' & Hb1 & Hb2).
    unfold r. rewrite (drop_S _ _ _ Hsel), (drop_S _ _ _ Hn), (drop_S _ _ _ Hd). simpl lin_of.
    rewrite Hx. simpl default.
    pose proof (prodZ_take_le (S i)). simpl foldM.
    rewrite (vec_get_Some _ _ _ Hn). simpl. rewrite Hat. simpl.
    rewrite (u64_small n) by lia. rewrite (u64_small (acc * n)) by nia. rewrite u64_small by lia.
    apply (IH (S i)); [lia|done].
Qed.

(** The counter's step. *)
Lemma counter_inc_ok k s :
  at_position k s -> exists c, SelectCounter_inc (counter_ s) = Ok c /\
    sc_mode_ c = INTERSECT /\ ndigits_ c = length sels /\ digit_sizes_ c = counts /\
    if counter_end_ c then S k = prod counts
    else Forall2 lt (digits_ c) counts /\ digits_val counts (digits_ c) = S k.
Proof.
  intros Hs. unfold SelectCounter_inc. rewrite (ap_cmode _ _ Hs), (ap_ndigits _ _ Hs), (ap_dsizes _ _ Hs).
  destruct (inc_digits_spec counts (digits_ (counter_ s)) (rd_valid _ (ap_readable _ _ Hs)) counts_pos)
    as (m & d & ds1 & ds2 & ic & fin & Hm & Hg & Hset & Hc & Hf); [unfold counts; by intros ?%map_eq_nil|].
  unfold counts in Hm. rewrite length_map in Hm. rewrite Hm, Hg. simpl. rewrite Hset. simpl.
  rewrite Hc. simpl. eexists. split; [reflexivity|]. simpl. split_and!; [done..|].
  rewrite (ap_end _ _ Hs), orb_false_r. rewrite (ap_val _ _ Hs) in Hf. done.
Qed.

(** The linear index [next_lin_indx] computes. *)
Lemma next_index s :
  readable s -> let r := lin_of sels sizes (digits_ (counter_ s)) 0 in
  (x0 ← select_at s 0;
   foldM (fun lin_index i =>
      n ← vec_get (dim_sizes_ s) i; x ← select_at s i;
      Ok (u64 (u64 (lin_index * u64 n) + x))) x0 (seq 1 (length (dim_selects_ s) - 1))) = Ok r /\
  0 <= r < prodZ sizes.
Proof.
  intros Hs. pose proof (Forall2_length _ _ _ Hrange) as Hl.
  assert (0 < length sels)%nat as Hpos.
  { destruct (decide (length sels = 0%nat)) as [E|]; [|lia]. by apply length_zero_iff_nil in E. }
  destruct (lookup_lt_is_Some_2 sizes 0) as [n0 Hn0]; [lia|].
  destruct (select_at_ok s 0 n0 Hs Hn0) as (sel & d & x & Hsel & Hdig & Hx & Hat & Hxn).
  destruct (lin_fold s (length sels - 1) 1 x) as [Hfold Hr]; [done|lia| |].
  { destruct (horner_range 0 n0 x 0 Hn0 Hxn) as [H _]; [simpl; unfold prodZ; simpl; lia|]. lia. }
  assert (lin_of sels sizes (digits_ (counter_ s)) 0 =
    lin_of (drop 1 sels) (drop 1 sizes) (drop 1 (digits_ (counter_ s))) x) as ->.
  { rewrite <- (drop_0 sels) at 1. rewrite <- (drop_0 sizes) at 1.
    rewrite <- (drop_0 (digits_ (counter_ s))) at 1.
    rewrite (drop_S _ _ _ Hsel), (drop_S _ _ _ Hn0), (drop_S _ _ _ Hdig). simpl. by rewrite Hx. }
  rewrite Hat. cbn [mbind res_bind]. rewrite (rd_selects _ Hs). done.
Qed.

Lemma next_dims s r c :
  mode_ s <> ALL -> readable s -> max_index_ s = prodZ sizes - 1 ->
  r = lin_of sels sizes (digits_ (counter_ s)) 0 -> SelectCounter_inc (counter_ s) = Ok c ->
  next_lin_indx s = Ok (r, with_counter s c).
Proof.
  intros Hm Hs Hmax -> Hc. destruct (next_index s Hs) as [Hi Hr].
  unfold next_lin_indx. destruct (select_at s 0) as [x0|]; [|done]. cbn [mbind res_bind] in Hi.
  destruct (mode_ s); [done|..]; cbn [mbind res_bind]; rewrite Hi; cbn [mbind res_bind];
    rewrite Hc; cbn [mbind res_bind]; rewrite decide_False by lia; done.
Qed.

Lemma next_ok k s :
  at_position k s -> exists i s', next_lin_indx s = Ok (i, s') /\
    nested sels sizes 0 !! k = Some i /\
    if end_lin_indx s' then S k = prod counts else at_position (S k) s'.
Proof.
  intros Hs. pose proof (Forall2_length _ _ _ Hrange) as Hl. pose proof (ap_readable _ _ Hs) as Hrd.
  destruct (counter_inc_ok k s Hs) as (c & Hc & Hm & Hn & Hd & Hf).
  exists (lin_of sels sizes (digits_ (counter_ s)) 0), (with_counter s c). split_and!.
  - apply next_dims; try done; [by rewrite (ap_mode _ _ Hs)|apply (ap_max _ _ Hs)].
  - rewrite <- (ap_val _ _ Hs). unfold counts. apply nested_lookup; [done|apply (rd_valid _ Hrd)].
  - unfold end_lin_indx. simpl. rewrite (ap_mode _ _ Hs). destruct (counter_end_ c) eqn:Ee; [done|].
    destruct Hf as [Hf1 Hf2]. split; simpl; try done; try apply Hs.
    split; simpl; [apply (rd_selects _ Hrd)|apply (rd_sizes _ Hrd)|done].
Qed.

Lemma walk_ok k s fuel :
  at_position k s -> (k < prod counts)%nat -> (prod counts - k <= fuel)%nat ->
  walk fuel s = Ok (drop k (nested sels sizes 0)).
Proof.
  pose proof (Forall2_length _ _ _ Hrange) as Hl.
  revert k s. induction fuel as [|fuel IH]; intros k s Hs Hk Hfuel; [lia|].
  assert (end_lin_indx s = false) as Hend.
  { unfold end_lin_indx. rewrite (ap_mode _ _ Hs). apply (ap_end _ _ Hs). }
  destruct (next_ok k s Hs) as (i & s' & Hnext & Hi & Hs').
  rewrite (drop_S _ _ _ Hi). cbn [walk]. rewrite Hend, Hnext. cbn [mbind res_bind].
  destruct (end_lin_indx s') eqn:He.
  - rewrite drop_ge by (rewrite nested_length by done; unfold counts in Hs'; lia).
    destruct fuel; simpl; by rewrite He.
  - destruct (decide (S k < prod counts)%nat) as [Hlt|Hge].
    + rewrite (IH (S k)) by (done || lia). done.
    + pose proof (digits_val_lt _ _ (rd_valid _ (ap_readable _ _ Hs'))) as Hv. rewrite (ap_val _ _ Hs') in Hv. lia.
Qed.
End intersect.

(** * Constructing selections *)

Lemma u64_mul_l a b : u64 (u64 a * b) = u64 (a * b).
Proof. unfold u64. apply Z.mul_mod_idemp_l. lia. Qed.
Lemma u64_mul_r a b : u64 (a * u64 b) = u64 (a * b).
Proof. unfold u64. apply Z.mul_mod_idemp_r. lia. Qed.

Lemma dims_fold rest sizes i a b :
  (i + length rest = length sizes)%nat ->
  foldM (fun '(npoints, max_index) '(i, sel) =>
      n ← vec_get sizes i;
      let npoints' := if ((i =? 0)%nat || bool_decide (INTERSECT = INTERSECT))
                      then u64 (npoints * Z.of_nat (@length Z sel)) else npoints in
      Ok (npoints', u64 (max_index * u64 n)))
    (u64 a, u64 b) (imap (fun j sel => ((i + j)%nat, sel)) rest) =
  Ok (u64 (a * Z.of_nat (prod (map length rest))), u64 (b * prodZ (drop i sizes))).
Proof.
  revert i a b. induction rest as [|sel rest IH]; intros i a b Hl; simpl in Hl.
  - rewrite drop_ge by lia. unfold prodZ, prod. simpl. by rewrite !Z.mul_1_r.
  - destruct (lookup_lt_is_Some_2 sizes i) as [n Hn]; [lia|].
    rewrite imap_cons. cbn [foldM]. rewrite Nat.add_0_r, (vec_get_Some _ _ _ Hn). cbn [mbind res_bind].
    rewrite bool_decide_true, orb_true_r by done.
    rewrite (imap_ext _ (fun j sel => ((S i + j)%nat, sel))) by (intros; simpl; f_equal; lia).
    rewrite u64_mul_r, !u64_mul_l. rewrite IH by lia. rewrite (drop_S _ _ _ Hn), map_cons, prod_cons.
    change (prodZ (n :: drop (S i) sizes)) with (n * prodZ (drop (S i) sizes)).
    do 2 f_equal; f_equal; lia.
Qed.

(** Iterating over an INTERSECT selection. *)
Lemma intersect_walk sels sizes :
  Forall2 in_range sels sizes -> prodZ sizes < 2 ^ 64 -> sels <> [] ->
  exists s, Selection_dims INTERSECT sels sizes = Ok s /\
    npoints s = u64 (Z.of_nat (prod (map length sels))) /\
    forall fuel, (prod (map length sels) <= fuel)%nat ->
      lin_indices fuel s = Ok (nested sels sizes 0).
Proof.
  intros Hr Hb Hne. unfold Selection_dims. pose proof (Forall2_length _ _ _ Hr) as Hl.
  pose proof (dims_fold sels sizes 0 1 1 Hl) as E. change (u64 1) with 1 in E.
  pose proof (prodZ_pos sizes (sizes_pos sels sizes Hr)) as Hp.
  rewrite drop_0, !Z.mul_1_l, (u64_small (prodZ sizes)) in E by lia.
  change (imap (fun j sel => ((0 + j)%nat, sel)) sels) with (imap (fun j sel => (j, sel)) sels) in E.
  match goal with |- context [foldM ?f ?a ?l] => replace (foldM f a l) with
    (Ok (u64 (Z.of_nat (prod (map length sels))), prodZ sizes)) by (symmetry; exact E) end.
  cbn [mbind res_bind]. eexists. split; [reflexivity|]. split; [done|].
  intros fuel Hf. unfold lin_indices.
  rewrite <- (drop_0 (nested sels sizes 0)).
  pose proof (prod_pos _ (counts_pos sels sizes Hr)) as Hpos.
  apply (walk_ok sels sizes Hr Hb Hne); [|lia..]. unfold init_lin_indx. simpl. split; simpl; try done.
  - split; simpl; try done. apply replicate_0_valid. apply (counts_pos sels sizes Hr).
  - apply u64_small. lia.
  - apply digits_val_zero.
  - apply length_map.
Qed.

Lemma nested_range sels sizes acc n :
  Forall2 in_range sels sizes -> 0 <= acc < n ->
  Forall (fun i => 0 <= i < n * prodZ sizes) (nested sels sizes acc).
Proof.
  intros Hr. revert acc n. induction Hr as [|sel m sels sizes [Hs Hsel] Hr IH]; intros acc n Ha; simpl.
  - constructor; [unfold prodZ; simpl; lia|constructor].
  - apply list.Forall_forall. intros i (x & Hx & Hi)%elem_of_concat_map.
    rewrite list.Forall_forall in Hsel. specialize (Hsel x Hx).
    assert (0 <= acc * m + x < n * m) as Hacc by nia.
    specialize (IH (acc * m + x) (n * m) Hacc). rewrite list.Forall_forall in IH.
    specialize (IH i Hi). unfold prodZ in *. simpl. lia.
Qed.

(** The indices of the inner loops lie in the block of the outer index. *)
Lemma nested_block sels sizes acc i :
  Forall2 in_range sels sizes -> i ∈ nested sels sizes acc ->
  acc * prodZ sizes <= i < (acc + 1) * prodZ sizes.
Proof.
  intros Hr. revert acc. induction Hr as [|sel m sels sizes [Hs Hsel] Hr IH]; intros acc; simpl.
  - intros ->%list_elem_of_singleton. unfold prodZ. simpl. lia.
  - intros (x & Hx & Hi)%elem_of_concat_map. specialize (IH _ Hi).
    rewrite list.Forall_forall in Hsel. specialize (Hsel x Hx).
    pose proof (prodZ_pos sizes (sizes_pos sels sizes Hr)).
    change (prodZ (m :: sizes)) with (m * prodZ sizes). nia.
Qed.

Lemma nested_NoDup sels sizes acc :
  Forall2 in_range sels sizes -> Forall (fun sel => NoDup sel) sels -> NoDup (nested sels sizes acc).
Proof.
  intros Hr. revert acc. induction Hr as [|sel m sels sizes [Hs Hsel] Hr IH]; intros acc Hnd; simpl.
  - apply NoDup_singleton.
  - apply Forall_cons in Hnd as [Hnd1 Hnd]. apply NoDup_concat_map; [done|auto|].
    intros x y i Hx Hy Hi Hj. apply (nested_block _ _ _ _ Hr) in Hi, Hj.
    pose proof (prodZ_pos sizes (sizes_pos sels sizes Hr)). nia.
Qed.

(** Iterating over a selection of all points. *)
Lemma all_walk n :
  (n < 2 ^ 31)%Z -> 0 <= n -> exists s, Selection_all 0 n = Ok s /\ npoints s = n /\
    forall fuel, (Z.to_nat n <= fuel)%nat ->
      lin_indices fuel s = Ok (map Z.of_nat (seq 0 (Z.to_nat n))).
Proof.
  intros Hn H0. unfold Selection_all, narrow_int. rewrite Z.add_0_l, (u64_small n) by lia.
  rewrite decide_True by done. simpl. eexists. split; [reflexivity|]. split; [done|].
  intros fuel Hf. unfold lin_indices, init_lin_indx. simpl.
  match goal with |- walk _ (with_index ?s0 0) = _ => set (s := s0) end.
  assert (forall m k, (Z.of_nat k + Z.of_nat m = n) -> forall fuel, (m <= fuel)%nat ->
    walk fuel (with_index s (Z.of_nat k)) = Ok (map Z.of_nat (seq k m))) as Hw.
  { induction m as [|m IH]; intros k Hk fu Hfu.
    - assert (end_lin_indx (with_index s (Z.of_nat k)) = true) as E
        by (apply bool_decide_eq_true; simpl; lia).
      destruct fu; simpl walk; by rewrite E.
    - assert (end_lin_indx (with_index s (Z.of_nat k)) = false) as E
        by (apply bool_decide_eq_false; simpl; lia).
      destruct fu as [|fu]; [lia|]. simpl walk. rewrite E. unfold next_lin_indx. simpl.
      rewrite (u64_small (Z.of_nat k)), (u64_small (n - 1)) by lia.
      rewrite decide_False by lia. simpl.
      replace (with_index (with_index s (Z.of_nat k)) (Z.of_nat k + 1)) with (with_index s (Z.of_nat (S k)))
        by (unfold with_index; simpl; f_equal; lia).
      rewrite (IH (S k)) by lia. done. }
  apply (Hw (Z.to_nat n) 0%nat); lia.
Qed.

(** * Hyperslabs *)

(** One dimension of a hyperslab: [count] blocks of [block] indices, [stride]
    apart. *)
Record Slab := { sl_start : Z; sl_count : Z; sl_stride : Z; sl_block : Z }.

Definition slab_indices (sl : Slab) : list Z :=
  concat (map (fun i => map (fun j => sl_start sl + Z.of_nat i * sl_stride sl + Z.of_nat j)
                          (seq 0 (Z.to_nat (sl_block sl))))
            (seq 0 (Z.to_nat (sl_count sl)))).

Definition slab_ok (sl : Slab) (n : Z) : Prop :=
  0 <= sl_start sl /\ 0 < sl_count sl /\ 0 < sl_stride sl /\ 0 < sl_block sl /\
  sl_start sl + (sl_count sl - 1) * sl_stride sl + sl_block sl <= n /\ n < 2 ^ 63.

(** The optional vectors [stride_] and [block_]: absent means ones. *)
Definition optional_field (v : list Z) (f : Slab -> Z) (slabs : list Slab) : Prop :=
  v = map f slabs \/ (v = [] /\ Forall (fun sl => f sl = 1) slabs).

Lemma optional_field_get v f slabs i sl :
  optional_field v f slabs -> slabs !! i = Some sl ->
  match v with [] => Ok 1 | _ => vec_get v i end = Ok (f sl).
Proof.
  intros [->|[-> Hall]] Hi.
  - destruct slabs as [|sl0 slabs]; [done|]. cbn [map].
    apply vec_get_Some. change (f sl0 :: map f slabs) with (map f (sl0 :: slabs)).
    by rewrite list_lookup_fmap, Hi.
  - rewrite list.Forall_forall in Hall. by rewrite (Hall sl) by by eapply list_elem_of_lookup_2.
Qed.

Lemma slab_in_range sl n : slab_ok sl n -> in_range (slab_indices sl) n.
Proof.
  intros (H1 & H2 & H3 & H4 & H5 & H6). split.
  - unfold slab_indices. destruct (Z.to_nat (sl_count sl)) eqn:E1; [lia|].
    destruct (Z.to_nat (sl_block sl)) eqn:E2; [lia|]. done.
  - apply list.Forall_forall. intros x (i & Hi%elem_of_seq & Hx)%elem_of_concat_map.
    apply list_elem_of_fmap in Hx as (j & -> & Hj%elem_of_seq). nia.
Qed.

Lemma map_seq_lookup {A B} (f : A -> B) (l : list A) d :
  map (fun i => match l !! i with Some x => f x | None => d end) (seq 0 (length l)) = map f l.
Proof.
  apply list_eq. intros i. rewrite !list_lookup_fmap.
  destruct (l !! i) as [x|] eqn:E; simpl.
  - rewrite lookup_seq_lt by (by eapply lookup_lt_Some). simpl. by rewrite E.
  - rewrite lookup_seq_ge by (by apply lookup_ge_None). done.
Qed.

Lemma genDimSelects_hyperslab_ok slabs sizes stride block :
  Forall2 slab_ok slabs sizes -> optional_field stride sl_stride slabs ->
  optional_field block sl_block slabs ->
  genDimSelects_hyperslab (map sl_start slabs) (map sl_count slabs) stride block =
    Ok (map slab_indices slabs).
Proof.
  intros Hok Hst Hbl. unfold genDimSelects_hyperslab. rewrite length_map.
  rewrite <- (map_seq_lookup slab_indices slabs []). apply mapR_Ok. intros i Hi%elem_of_seq.
  destruct (lookup_lt_is_Some_2 slabs i) as [sl Hsl]; [lia|].
  rewrite (vec_get_Some (map sl_start slabs) i (sl_start sl)) by (by rewrite list_lookup_fmap, Hsl). cbn [mbind res_bind].
  rewrite (vec_get_Some (map sl_count slabs) i (sl_count sl)) by (by rewrite list_lookup_fmap, Hsl). cbn [mbind res_bind].
  rewrite (optional_field_get _ _ _ _ _ Hst Hsl). cbn [mbind res_bind].
  rewrite (optional_field_get _ _ _ _ _ Hbl Hsl). cbn [mbind res_bind]. rewrite Hsl. f_equal.
  destruct (Forall2_lookup_l _ _ _ _ _ Hok Hsl) as (n & _ & H1 & H2 & H3 & H4 & H5 & H6).
  unfold slab_indices. rewrite flat_map_concat_map. f_equal.
  assert (0 <= (sl_count sl - 1) * sl_stride sl /\ sl_count sl - 1 <= (sl_count sl - 1) * sl_stride sl)
    as [B0 B1] by nia.
  rewrite !(u64_small (sl_count sl)), !(u64_small (sl_block sl)) by lia.
  apply map_ext_in. intros k Hk%list_elem_of_In%elem_of_seq.
  apply map_ext_in. intros j Hj%list_elem_of_In%elem_of_seq.
  rewrite (u64_small (sl_start sl)) by lia. rewrite u64_mul_r.
  assert (0 <= Z.of_nat k * sl_stride sl <= (sl_count sl - 1) * sl_stride sl) as B2 by nia.
  rewrite (u64_small (Z.of_nat k * sl_stride sl)) by lia.
  rewrite (u64_small (sl_start sl + Z.of_nat k * sl_stride sl)) by lia. apply u64_small. lia.
Qed.

Lemma create_hyperslab def a rest ext sizes :
  start_ a <> [] ->
  createObsStoreSelection {| default_ := def; actions_ := a :: rest; extent_ := ext |} sizes =
    (sels ← genDimSelects_hyperslab (start_ a) (count_ a) (stride_ a) (block_ a);
     Selection_dims INTERSECT sels sizes).
Proof. intros Hne. unfold createObsStoreSelection. simpl. by destruct def, (start_ a). Qed.

(** A hyperslab selection (start, count and the optional stride and block)
    that fits in the variable's dimensions: creating its ObsStore selection and
    walking through it succeeds, ends after as many steps as it has points, and
    gives the row-major linear indices of the nested loops over the hyperslab in
    order, all inside the variable. *)
Theorem hyperslab_selection_indices (slabs : list Slab) (sizes stride block ext : list Z) def :
  Forall2 slab_ok slabs sizes -> slabs <> [] -> prodZ sizes < 2 ^ 64 ->
  optional_field stride sl_stride slabs -> optional_field block sl_block slabs ->
  let sels := map slab_indices slabs in
  let a := {| start_ := map sl_start slabs; count_ := map sl_count slabs; stride_ := stride;
              block_ := block; points_ := []; dimension_ := 0;
              dimension_indices_starts_ := []; dimension_indices_counts_ := [] |} in
  exists s,
    createObsStoreSelection {| default_ := def; actions_ := [a]; extent_ := ext |} sizes = Ok s /\
    npoints s = u64 (Z.of_nat (prod (map length sels))) /\
    (forall fuel, (prod (map length sels) <= fuel)%nat ->
       lin_indices fuel s = Ok (nested sels sizes 0)) /\
    Forall (fun i => 0 <= i < prodZ sizes) (nested sels sizes 0).
Proof.
  intros Hok Hne Hb Hst Hbl sels a.
  assert (Forall2 in_range sels sizes) as Hr
    by (apply Forall2_fmap_l; eapply Forall2_impl; [exact Hok|apply slab_in_range]).
  destruct (intersect_walk sels sizes Hr Hb) as (s & Hs & Hn & Hw); [by destruct slabs|].
  exists s. split_and!; [|done|done|].
  - rewrite create_hyperslab by (simpl; by destruct slabs). simpl.
    by rewrite (genDimSelects_hyperslab_ok slabs sizes).
  - pose proof (nested_range sels sizes 0 1 Hr ltac:(lia)) as Hn'. by rewrite Z.mul_1_l in Hn'.
Qed.

(** Every other row, and two of the three columns, of a 5 x 3 variable. *)
Lemma hyperslab_selection_indices_witness :
  let a := {| start_ := [1; 0]; count_ := [2; 2]; stride_ := [2; 1]; block_ := []; points_ := [];
              dimension_ := 0; dimension_indices_starts_ := []; dimension_indices_counts_ := [] |} in
  exists s,
    createObsStoreSelection {| default_ := StateALL; actions_ := [a]; extent_ := [] |} [5; 3] = Ok s /\
    npoints s = 4 /\
    (forall fuel, (4 <= fuel)%nat -> lin_indices fuel s = Ok [3; 4; 9; 10]) /\
    Forall (fun i => 0 <= i < 15) [3; 4; 9; 10].
Proof.
  apply (hyperslab_selection_indices
    [{| sl_start := 1; sl_count := 2; sl_stride := 2; sl_block := 1 |};
     {| sl_start := 0; sl_count := 2; sl_stride := 1; sl_block := 1 |}] [5; 3] [2; 1] [] [] StateALL).
  - repeat constructor; simpl; lia.
  - done.
  - vm_compute. reflexivity.
  - left. reflexivity.
  - right. split; [reflexivity|]. repeat constructor.
Defined.

(** * All points *)

Lemma foldl_u64_prod sizes a :
  foldl (fun n d => u64 (n * u64 d)) (u64 a) sizes = u64 (a * prodZ sizes).
Proof.
  revert a. induction sizes as [|d sizes IH]; intros a; simpl.
  - unfold prodZ. simpl. by rewrite Z.mul_1_r.
  - rewrite u64_mul_r, u64_mul_l, IH. unfold prodZ. simpl. by rewrite Z.mul_assoc.
Qed.

(** The selection of all points of a variable: it gives 0, 1, ..., n-1, in as
    many steps, when the number of points n fits in an [int]; otherwise its
    creation fails with a narrowing error. *)
Theorem all_selection_indices (sizes ext : list Z) :
  Forall (fun n => 0 <= n) sizes -> prodZ sizes < 2 ^ 64 ->
  let sel := {| default_ := StateALL; actions_ := []; extent_ := ext |} in
  if decide (prodZ sizes < 2 ^ 31) then
    exists s, createObsStoreSelection sel sizes = Ok s /\ npoints s = prodZ sizes /\
      forall fuel, (Z.to_nat (prodZ sizes) <= fuel)%nat ->
        lin_indices fuel s = Ok (map Z.of_nat (seq 0 (Z.to_nat (prodZ sizes))))
  else createObsStoreSelection sel sizes = Throw ENarrowing.
Proof.
  intros Hpos Hb sel. unfold sel, createObsStoreSelection. simpl.
  assert (0 <= prodZ sizes) as H0
    by (clear -Hpos; unfold prodZ; induction Hpos; simpl; lia).
  assert (foldl (fun n d => u64 (n * u64 d)) 1 sizes = prodZ sizes) as ->.
  { change 1 with (u64 1). rewrite foldl_u64_prod, Z.mul_1_l. apply u64_small. lia. }
  case_decide as Hd.
  - by apply all_walk.
  - unfold Selection_all, narrow_int. rewrite Z.add_0_l, u64_small, decide_False by lia. done.
Qed.

Lemma all_selection_indices_witness :
  exists s, createObsStoreSelection {| default_ := StateALL; actions_ := []; extent_ := [] |} [2; 3] = Ok s /\
    npoints s = 6 /\
    forall fuel, (6 <= fuel)%nat -> lin_indices fuel s = Ok [0; 1; 2; 3; 4; 5].
Proof.
  apply (all_selection_indices [2; 3] []).
  - repeat constructor; lia.
  - vm_compute. reflexivity.
Defined.

(** * Indices along dimensions *)

Lemma set_insert_elem x y l : y ∈ set_insert x l <-> y = x \/ y ∈ l.
Proof.
  induction l as [|z l IH]; simpl; [by rewrite list_elem_of_singleton, elem_of_nil; tauto|].
  destruct (Z.ltb_spec x z); [by rewrite !elem_of_cons|].
  destruct (Z.eqb_spec x z) as [->|]; rewrite !elem_of_cons, ?IH; tauto.
Qed.

Lemma set_insert_sorted x l : StronglySorted Z.lt l -> StronglySorted Z.lt (set_insert x l).
Proof.
  induction 1 as [|z l Hs IH Hz]; simpl; [repeat constructor|].
  assert (StronglySorted Z.lt (z :: l)) as Hzl by by constructor.
  rewrite list.Forall_forall in Hz. destruct (Z.ltb_spec x z).
  - constructor; [done|]. apply list.Forall_forall. intros y [->|Hy]%elem_of_cons; [done|].
    specialize (Hz y Hy). lia.
  - destruct (Z.eqb_spec x z) as [->|]; [done|]. constructor; [done|].
    apply list.Forall_forall. intros y [->|Hy]%set_insert_elem; [lia|auto].
Qed.

(** Without counts, the indices of an action are its starts, sorted and
    without duplicates. *)
Lemma action_indices_spec a :
  dimension_indices_counts_ a = [] ->
  Forall (fun x => 0 <= x < 2 ^ 64) (dimension_indices_starts_ a) ->
  StronglySorted Z.lt (action_indices a) /\
  forall x, x ∈ action_indices a <-> x ∈ dimension_indices_starts_ a.
Proof.
  intros Hc Hr. unfold action_indices. rewrite Hc.
  cut (forall s, StronglySorted Z.lt s ->
    StronglySorted Z.lt (foldl (fun s idx => set_insert (u64 idx) s) s (dimension_indices_starts_ a)) /\
    forall x, x ∈ foldl (fun s idx => set_insert (u64 idx) s) s (dimension_indices_starts_ a) <->
      x ∈ s \/ x ∈ dimension_indices_starts_ a).
  { intros Hcut. destruct (Hcut [] ltac:(constructor)) as [H1 H2]. split; [done|].
    intros x. rewrite H2, elem_of_nil. tauto. }
  induction Hr as [|y l Hy Hr IH]; intros s Hs; simpl.
  - split; [done|]. intros x. rewrite elem_of_nil. tauto.
  - destruct (IH (set_insert (u64 y) s) (set_insert_sorted _ _ Hs)) as [H1 H2]. split; [done|].
    intros x. rewrite H2, set_insert_elem, u64_small, elem_of_cons by done. tauto.
Qed.

(** What is selected along dimension [d] of size [n]: the indices of the last
    action on it, or all. *)
Definition dim_sel (actions : list SingleSelection) (d : nat) (n : Z) : list Z :=
  match last (List.filter (fun a => Nat.eqb (dimension_ a) d) actions) with
  | Some a => action_indices a
  | None => map Z.of_nat (seq 0 (Z.to_nat (u64 n)))
  end.

Lemma genDimSelects_indices_ok actions sizes :
  Forall (fun a => (dimension_ a < length sizes)%nat /\ action_indices a <> []) actions ->
  genDimSelects_indices actions sizes = Ok (imap (dim_sel actions) sizes).
Proof.
  intros Hall. unfold genDimSelects_indices.
  destruct (foldM_ind (fun selects a => vec_set selects (dimension_ a) (action_indices a))
    (fun don v => length v = length sizes /\ forall d, (d < length sizes)%nat -> v !! d = Some
       (match last (List.filter (fun a => Nat.eqb (dimension_ a) d) don) with
        | Some a => action_indices a | None => [] end))
    (replicate (length sizes) []) actions) as (v & Hv & Hlen & Hd).
  - split; [apply length_replicate|]. intros d Hd. simpl. by apply lookup_replicate_2.
  - intros don a v [Hlen Hd] [rest ->]. rewrite Forall_app, Forall_app, Forall_singleton in Hall.
    destruct Hall as [[_ [Ha _]] _].
    exists (<[dimension_ a := action_indices a]> v). split; [apply vec_set_lt; lia|].
    split; [by rewrite length_insert|]. intros d Hlt. rewrite List.filter_app, last_app. simpl.
    destruct (Nat.eqb_spec (dimension_ a) d) as [<-|Hne]; simpl.
    + rewrite list_lookup_insert_eq by lia. done.
    + rewrite list_lookup_insert_ne by done. auto.
  - rewrite Hv. cbn [mbind res_bind]. f_equal. apply list_eq. intros d.
    rewrite lookup_zip_with, list_lookup_imap.
    destruct (sizes !! d) as [n|] eqn:En; simpl.
    + rewrite Hd by (by eapply lookup_lt_Some). simpl. f_equal. unfold dim_sel.
      destruct (last (List.filter _ actions)) as [a|] eqn:El; [|done].
      assert (action_indices a <> []) as Hne.
      { assert (a ∈ actions) as Hin.
        { apply last_Some in El as [l' El]. apply (elem_of_List_filter (fun a => Nat.eqb (dimension_ a) d)).
          rewrite El. apply elem_of_app. right. left. }
        rewrite list.Forall_forall in Hall. by apply Hall. }
      by destruct (action_indices a).
    + by destruct (v !! d).
Qed.

Lemma create_indices def a rest ext sizes :
  start_ a = [] -> points_ a = [] -> dimension_indices_starts_ a <> [] ->
  createObsStoreSelection {| default_ := def; actions_ := a :: rest; extent_ := ext |} sizes =
    (sels ← genDimSelects_indices (a :: rest) sizes; Selection_dims INTERSECT sels sizes).
Proof.
  intros H1 H2 H3. unfold createObsStoreSelection. simpl. rewrite H1, H2.
  by destruct def, (dimension_indices_starts_ a).
Qed.

(** An action that lists indices along a dimension of the variable. *)
Definition index_action_ok (sizes : list Z) (a : SingleSelection) : Prop :=
  start_ a = [] /\ points_ a = [] /\ dimension_indices_starts_ a <> [] /\
  dimension_indices_counts_ a = [] /\
  exists n, sizes !! dimension_ a = Some n /\
    Forall (fun x => 0 <= x < n) (dimension_indices_starts_ a).

Lemma index_action_range sizes a :
  Forall (fun n => 0 < n < 2 ^ 64) sizes -> index_action_ok sizes a ->
  (dimension_ a < length sizes)%nat /\
  forall n, sizes !! dimension_ a = Some n -> in_range (action_indices a) n.
Proof.
  intros Hpos (H1 & H2 & H3 & H4 & n & Hn & Hr). split; [by eapply lookup_lt_Some|].
  intros n' Hn'. simplify_eq. rewrite list.Forall_forall in Hpos.
  pose proof (Hpos n (list_elem_of_lookup_2 _ _ _ Hn)) as Hnpos.
  destruct (action_indices_spec a H4) as [_ Hin].
  { eapply Forall_impl; [exact Hr|]. simpl. lia. }
  rewrite list.Forall_forall in Hr. split.
  - destruct (dimension_indices_starts_ a) as [|x xs] eqn:E; [done|]. intros Hnil.
    assert (x ∈ action_indices a) as Hx by (apply Hin; left). rewrite Hnil in Hx. by apply elem_of_nil in Hx.
  - apply list.Forall_forall. intros x Hx%Hin. auto.
Qed.

Lemma dim_sel_range sizes actions d n :
  Forall (fun n => 0 < n < 2 ^ 64) sizes -> Forall (index_action_ok sizes) actions ->
  sizes !! d = Some n -> in_range (dim_sel actions d n) n.
Proof.
  intros Hpos Hok Hn. unfold dim_sel.
  destruct (last (List.filter _ actions)) as [a|] eqn:El.
  - apply last_Some in El as [l' El].
    assert (a ∈ List.filter (fun a => Nat.eqb (dimension_ a) d) actions) as Hin
      by (rewrite El; apply elem_of_app; right; left).
    apply elem_of_List_filter in Hin as [Hin <-%Nat.eqb_eq].
    rewrite list.Forall_forall in Hok. by apply (index_action_range sizes a Hpos (Hok a Hin)).
  - rewrite list.Forall_forall in Hpos. pose proof (Hpos n (list_elem_of_lookup_2 _ _ _ Hn)).
    rewrite u64_small by lia. split.
    + destruct (Z.to_nat n) eqn:E; [lia|]. done.
    + apply list.Forall_forall. intros x (i & -> & Hi%elem_of_seq)%list_elem_of_fmap. lia.
Qed.

(** A selection that lists indices along some dimensions (the frame and
    channel selections of ioda): the walk gives the row-major indices of the
    nested loops over, in each dimension, the listed indices in increasing order
    without duplicates, or all indices where none are listed. *)
Theorem index_selection_indices (a : SingleSelection) (rest : list SingleSelection)
    (sizes ext : list Z) def :
  Forall (fun n => 0 < n < 2 ^ 64) sizes -> prodZ sizes < 2 ^ 64 ->
  Forall (index_action_ok sizes) (a :: rest) ->
  let sels := imap (dim_sel (a :: rest)) sizes in
  (exists s,
    createObsStoreSelection {| default_ := def; actions_ := a :: rest; extent_ := ext |} sizes = Ok s /\
    npoints s = u64 (Z.of_nat (prod (map length sels))) /\
    forall fuel, (prod (map length sels) <= fuel)%nat ->
      lin_indices fuel s = Ok (nested sels sizes 0)) /\
  forall b, b ∈ a :: rest -> StronglySorted Z.lt (action_indices b) /\
    forall x, x ∈ action_indices b <-> x ∈ dimension_indices_starts_ b.
Proof.
  intros Hpos Hb Hok sels. split.
  - assert (Forall2 in_range sels sizes) as Hr.
    { apply Forall2_same_length_lookup_2; [apply length_imap|]. intros d sel n Hs Hn.
      unfold sels in Hs. rewrite list_lookup_imap, Hn in Hs. simplify_eq/=.
      by apply (dim_sel_range sizes). }
    destruct (intersect_walk sels sizes Hr Hb) as (s & Hs & Hn & Hw).
    { apply Forall_cons in Hok as [(_ & _ & _ & _ & n & Hn & _) _]. intros E.
      apply Forall2_length in Hr. rewrite E in Hr. destruct sizes; done. }
    exists s. split_and!; [|done..]. apply Forall_cons in Hok as Hok'.
    destruct Hok' as [(H1 & H2 & H3 & _) _]. rewrite create_indices by done.
    rewrite genDimSelects_indices_ok; [exact Hs|].
    eapply Forall_impl; [exact Hok|]. intros b Hbok.
    destruct (index_action_range sizes b Hpos Hbok) as [Hlt Hrng]. split; [done|].
    destruct (lookup_lt_is_Some_2 _ _ Hlt) as [n Hnb]. apply (Hrng n Hnb).
  - intros b Hin. rewrite list.Forall_forall in Hok.
    destruct (Hok b Hin) as (_ & _ & _ & H4 & n & Hn & Hr). apply action_indices_spec; [done|].
    rewrite list.Forall_forall in Hpos. pose proof (Hpos n (list_elem_of_lookup_2 _ _ _ Hn)).
    eapply Forall_impl; [exact Hr|]. simpl. lia.
Qed.

Definition index_action (d : nat) (starts counts : list Z) : SingleSelection :=
  {| start_ := []; count_ := []; stride_ := []; block_ := []; points_ := []; dimension_ := d;
     dimension_indices_starts_ := starts; dimension_indices_counts_ := counts |}.

(** Channels 2 and 0 of a variable with 2 locations and 3 channels. *)
Lemma index_selection_indices_witness :
  (exists s,
    createObsStoreSelection {| default_ := StateALL; actions_ := [index_action 1 [2; 0; 2] []]; extent_ := [] |} [2; 3]
      = Ok s /\
    npoints s = 4 /\
    forall fuel, (4 <= fuel)%nat -> lin_indices fuel s = Ok [0; 2; 3; 5]) /\
  forall b, b ∈ [index_action 1 [2; 0; 2] []] -> StronglySorted Z.lt (action_indices b) /\
    forall x, x ∈ action_indices b <-> x ∈ dimension_indices_starts_ b.
Proof.
  apply (index_selection_indices (index_action 1 [2; 0; 2] []) [] [2; 3] [] StateALL).
  - repeat constructor; lia.
  - vm_compute. reflexivity.
  - repeat constructor; try done. exists 3. split; [done|]. simpl. repeat constructor; lia.
Defined.

(** The counts given with the starts of an index selection are not used:
    only how many counts there are matters, so that the range of 3 indices from
    2 is selected as the single index 2. *)
Theorem index_counts_ignored :
  (forall d starts counts counts', length counts = length counts' ->
     action_indices (index_action d starts counts) = action_indices (index_action d starts counts')) /\
  action_indices (index_action 0 [2] [3]) = [2].
Proof.
  split; [|done]. intros d starts counts counts' Hl. unfold action_indices. simpl.
  generalize (@nil Z). induction starts as [|x starts IH]; intros s; simpl; [done|]. rewrite IH.
  f_equal. destruct counts, counts'; simplify_eq/=; [done|]. by rewrite Hl.
Qed.

(** * Lists of points *)

Lemma dims_fold_point rest sizes i (np b : Z) :
  (0 < i)%nat -> (i + length rest = length sizes)%nat ->
  foldM (fun '(npoints, max_index) '(i, sel) =>
      n ← vec_get sizes i;
      let npoints' := if ((i =? 0)%nat || bool_decide (POINT = INTERSECT))
                      then u64 (npoints * Z.of_nat (@length Z sel)) else npoints in
      Ok (npoints', u64 (max_index * u64 n)))
    (np, u64 b) (imap (fun j sel => ((i + j)%nat, sel)) rest) =
  Ok (np, u64 (b * prodZ (drop i sizes))).
Proof.
  revert i b. induction rest as [|sel rest IH]; intros i b Hi Hl; simpl in Hl.
  - rewrite drop_ge by lia. unfold prodZ. simpl. by rewrite !Z.mul_1_r.
  - destruct (lookup_lt_is_Some_2 sizes i) as [n Hn]; [lia|].
    rewrite imap_cons. cbn [foldM]. rewrite Nat.add_0_r, (vec_get_Some _ _ _ Hn). cbn [mbind res_bind].
    rewrite bool_decide_false, orb_false_r by done.
    destruct (Nat.eqb_spec i 0); [lia|].
    rewrite (imap_ext _ (fun j sel => ((S i + j)%nat, sel))) by (intros; simpl; f_equal; lia).
    rewrite u64_mul_r, u64_mul_l, IH by lia. rewrite (drop_S _ _ _ Hn).
    change (prodZ (n :: drop (S i) sizes)) with (n * prodZ (drop (S i) sizes)).
    do 2 f_equal; f_equal; lia.
Qed.

Lemma point_dims sels sizes p :
  Forall2 in_range sels sizes -> prodZ sizes < 2 ^ 64 -> sels <> [] ->
  Forall (fun sel => length sel = p) sels -> Z.of_nat p < 2 ^ 64 ->
  Selection_dims POINT sels sizes = Ok
    {| mode_ := POINT; end_ := 0; index_ := 0; npoints_ := Z.of_nat p;
       max_index_ := prodZ sizes - 1; dim_selects_ := sels; dim_sizes_ := sizes;
       dim_select_sizes_ := map length sels; counter_ := SelectCounter_new |}.
Proof.
  intros Hr Hb Hne Hp Hpb. unfold Selection_dims.
  pose proof (prodZ_pos sizes (sizes_pos sels sizes Hr)) as Hpos.
  destruct Hr as [|sel n sels sizes Hsel Hr]; [done|]. apply Forall_cons in Hp as [Hlen _].
  rewrite imap_cons. cbn [foldM]. change (vec_get (n :: sizes) 0) with (Ok n). cbn [mbind res_bind].
  simpl (_ || _). cbv iota.
  pose proof (dims_fold_point sels (n :: sizes) 1 (Z.of_nat p) (1 * u64 n) ltac:(lia)) as E.
  rewrite !Z.mul_1_l in *. rewrite Hlen, (u64_small (Z.of_nat p)) by lia.
  match goal with |- context [foldM ?f ?a ?l] => replace (foldM f a l) with
    (Ok (Z.of_nat p, u64 (u64 n * prodZ (drop 1 (n :: sizes))))) by
    (symmetry; apply E; simpl; f_equal; by eapply Forall2_length) end.
  cbn [mbind res_bind]. rewrite u64_mul_l.
  change (n * prodZ (drop 1 (n :: sizes))) with (prodZ (n :: sizes)).
  rewrite (u64_small (prodZ (n :: sizes))) by lia. by rewrite u64_small by lia.
Qed.

(** Walking through a selection of points compares the counter with the
    number of dimensions, not of points: with n dimensions and at least n
    points, the walk gives exactly the first n points, while [npoints] is the
    number of points. *)
Theorem point_selection_indices (sels : list (list Z)) (sizes : list Z) (p : nat) :
  Forall2 in_range sels sizes -> prodZ sizes < 2 ^ 64 -> sels <> [] ->
  Forall (fun sel => length sel = p) sels -> Z.of_nat p < 2 ^ 64 ->
  let n := length sels in (n <= p)%nat ->
  exists s, Selection_dims POINT sels sizes = Ok s /\ npoints s = Z.of_nat p /\
    forall fuel, (n <= fuel)%nat ->
      lin_indices fuel s =
        Ok (map (fun k => lin_of sels sizes (replicate n k) 0) (seq 0 n)).
Proof.
  intros Hr Hb Hne Hp Hpb n Hnp. eexists. split; [by apply (point_dims sels sizes p)|].
  split; [done|]. intros fuel Hf. unfold lin_indices, init_lin_indx. simpl.
  match goal with |- walk _ (with_counter ?s0 _) = _ => set (s := s0) end.
  assert (0 < n)%nat as Hn0 by (unfold n; destruct sels; [done|simpl; lia]).
  assert (forall m k c, (k + S m = n)%nat -> sc_mode_ c = POINT -> digits_ c = replicate n k ->
    ndigits_ c = n -> counter_end_ c = false -> forall fuel, (S m <= fuel)%nat ->
    walk fuel (with_counter s c) =
      Ok (map (fun k => lin_of sels sizes (replicate n k) 0) (seq k (S m)))) as Hw.
  { induction m as [|m IH]; intros k c Hk H1 H2 H3 H4 [|fu] Hfu; try lia.
    all: assert (readable sels sizes (with_counter s c)) as Hrd by
      (split; simpl; try done; rewrite H2; apply Forall2_same_length_lookup_2;
       [by rewrite length_replicate, length_map|];
       intros i x y [-> _]%lookup_replicate Hy; rewrite list_lookup_fmap in Hy;
       destruct (sels !! i) as [sel|] eqn:E; simplify_eq/=;
       rewrite list.Forall_forall in Hp; rewrite (Hp sel) by (by eapply list_elem_of_lookup_2); lia).
    all: cbn [walk]; assert (end_lin_indx (with_counter s c) = false) as -> by done.
    all: assert (vec_get (digits_ c) 0 = Ok k) as Hd0 by
      (rewrite H2; apply vec_get_Some, lookup_replicate_2; lia).
    - erewrite (next_dims sels sizes Hr Hb Hne); [|by unfold s; simpl|done|reflexivity|reflexivity|].
      2:{ simpl. unfold SelectCounter_inc. rewrite H1, Hd0. cbn [mbind res_bind].
          destruct (Nat.eqb_spec k (ndigits_ c - 1)); [reflexivity|lia]. }
      cbn [mbind res_bind]. destruct fu; simpl; by rewrite H2.
    - erewrite (next_dims sels sizes Hr Hb Hne); [|by unfold s; simpl|done|reflexivity|reflexivity|].
      2:{ simpl. unfold SelectCounter_inc. rewrite H1, Hd0. cbn [mbind res_bind].
          destruct (Nat.eqb_spec k (ndigits_ c - 1)); [lia|reflexivity]. }
      cbn [mbind res_bind]. change (with_counter (with_counter s c) ?c') with (with_counter s c').
      erewrite (IH (S k)); [simpl; rewrite H2; reflexivity|lia|done| |done..|lia].
      simpl. rewrite H2. exact (fmap_replicate S n k). }
  replace (seq 0 n) with (seq 0 (S (n - 1))) by (f_equal; lia).
  apply (Hw (n - 1)%nat 0%nat); simpl; rewrite ?length_map; try done; lia.
Qed.

(** Three points of a 3 x 3 variable: the last one is not visited. *)
Lemma point_selection_indices_witness :
  exists s, Selection_dims POINT [[0; 1; 2]; [0; 1; 2]] [3; 3] = Ok s /\ npoints s = 3 /\
    forall fuel, (2 <= fuel)%nat -> lin_indices fuel s = Ok [0; 4].
Proof.
  apply (point_selection_indices [[0; 1; 2]; [0; 1; 2]] [3; 3] 3).
  - repeat constructor; try done; lia.
  - vm_compute. reflexivity.
  - done.
  - repeat constructor.
  - lia.
  - simpl. lia.
Defined.

(** * Blocks of rows *)

(** A hyperslab with unit stride and block. *)
Definition set_block (extent starts counts : list Z) : FrontSelection :=
  {| default_ := StateALL;
     actions_ := [{| start_ := starts; count_ := counts; stride_ := []; block_ := []; points_ := [];
                     dimension_ := 0; dimension_indices_starts_ := []; dimension_indices_counts_ := [] |}];
     extent_ := extent |}.

Definition block_positions (starts counts dims : list Z) : list Z :=
  nested (zip_with seqZ starts counts) dims 0.

Lemma prodZ_ge1 l : Forall (fun d => 0 < d) l -> 0 < prodZ l.
Proof. induction 1; unfold prodZ in *; simpl; nia. Qed.

Lemma concat_seqZ (b s c P : Z) : 0 <= P -> 0 <= c ->
  concat (map (fun x => seqZ ((b + x) * P) P) (seqZ s c)) = seqZ ((b + s) * P) (c * P).
Proof.
  intros HP Hc. revert s. pattern c. apply natlike_ind; [done| |done]. clear c Hc. intros c Hc IH s.
  rewrite seqZ_cons by lia. cbn [map concat]. rewrite Z.pred_succ, IH.
  replace (Z.succ c * P) with (P + c * P) by lia. rewrite seqZ_app by nia. f_equal. f_equal. lia.
Qed.

Lemma nested_full rest acc :
  Forall (fun d => 0 < d) rest ->
  nested (zip_with seqZ (map (fun _ => 0) rest) rest) rest acc = seqZ (acc * prodZ rest) (prodZ rest).
Proof.
  intros Hr. revert acc. induction Hr as [|d rest Hd Hr IH]; intros acc.
  - unfold prodZ. simpl. rewrite Z.mul_1_r. done.
  - cbn [map zip_with nested]. pose proof (prodZ_ge1 rest Hr).
    rewrite (map_ext _ (fun x => seqZ ((acc * d + x) * prodZ rest) (prodZ rest))) by (intros; apply IH).
    rewrite concat_seqZ by lia. change (prodZ (d :: rest)) with (d * prodZ rest). f_equal. lia.
Qed.

Lemma block_positions_spec s c n rest :
  Forall (fun d => 0 < d) rest -> 0 <= c ->
  block_positions (s :: map (fun _ => 0) rest) (c :: rest) (n :: rest) = seqZ (s * prodZ rest) (c * prodZ rest).
Proof.
  intros Hr Hc. unfold block_positions. cbn [zip_with nested]. pose proof (prodZ_ge1 rest Hr).
  rewrite (map_ext _ (fun x => seqZ ((0 + x) * prodZ rest) (prodZ rest))) by (intros; by apply nested_full).
  by rewrite concat_seqZ by lia.
Qed.
