(* ===== verification/VarAttrStore.v ===== *)
(** The data of a variable or attribute:
    src/src/engines/ioda/src/ioda/Engines/ObsStore/VarAttrStore.hpp.

    A buffer is a list of elements of the data type; copying [datumLen] bytes is
    copying [num_elements_] elements. *)
From stdpp Require Import base list.
From S2P Require Import Prelude Selection.

Section VarAttrStore.
Context {A : Type}.

Record VarAttrStore := { var_attr_data_ : list A; num_elements_ : nat }.

(** [resize(newSize)], where new elements are value-initialised, and
    [resize(newSize, fillValue)]. *)
Definition store_resize (newSize : nat) (x : A) (st : VarAttrStore) : VarAttrStore :=
  {| var_attr_data_ := vec_resize (newSize * num_elements_ st) x (var_attr_data_ st);
     num_elements_ := num_elements_ st |}.

(** An access to a [gsl::span], which checks its bounds, or to a vector, which
    does not. *)
Definition buf_get (e : Err) (l : list A) (i : nat) : res A :=
  match l !! i with Some x => Ok x | None => Throw e end.
Definition buf_set (e : Err) (l : list A) (i : nat) (x : A) : res (list A) :=
  if decide (i < length l) then Ok (<[i := x]> l) else Throw e.

(** The inner loop: one datum from [src] to [dst]. *)
Definition copy_datum (esrc edst : Err) (n : nat) (src : list A) (soff : nat) (dst : list A)
    (doff : nat) : res (list A) :=
  foldM (fun dst i => x ← buf_get esrc src (soff + i); buf_set edst dst (doff + i) x)
    dst (seq 0 n).

(** [select.next_lin_indx() * n] as an offset. *)
Definition offset (indx : Z) (n : nat) : nat := Z.to_nat (u64 (indx * Z.of_nat n)).

Fixpoint write_loop (fuel : nat) (data : list A) (m f : Selection) (n : nat) (var : list A)
  : res (list A) :=
  if end_lin_indx m then Ok var else
  match fuel with
  | O => Throw EFuel
  | S fuel =>
      '(mi, m) ← next_lin_indx m;
      '(fi, f) ← next_lin_indx f;
      var ← copy_datum EAssert EUndefined n data (offset mi n) var (offset fi n);
      write_loop fuel data m f n var
  end.

Definition store_write (fuel : nat) (data : list A) (m_select f_select : Selection)
    (st : VarAttrStore) : res VarAttrStore :=
  match data with
  | [] => Ok st
  | _ =>
      var ← write_loop fuel data (init_lin_indx m_select) (init_lin_indx f_select)
              (num_elements_ st) (var_attr_data_ st);
      Ok {| var_attr_data_ := var; num_elements_ := num_elements_ st |}
  end.

Fixpoint read_loop (fuel : nat) (data : list A) (m f : Selection) (n : nat) (var : list A)
  : res (list A) :=
  if end_lin_indx m then Ok data else
  match fuel with
  | O => Throw EFuel
  | S fuel =>
      '(mi, m) ← next_lin_indx m;
      '(fi, f) ← next_lin_indx f;
      data ← copy_datum EAssert EAssert n var (offset fi n) data (offset mi n);
      read_loop fuel data m f n var
  end.

(** [read] fills the buffer [data]. *)
Definition store_read (fuel : nat) (data : list A) (m_select f_select : Selection)
    (st : VarAttrStore) : res (list A) :=
  match data with
  | [] => Ok data
  | _ => read_loop fuel data (init_lin_indx m_select) (init_lin_indx f_select)
           (num_elements_ st) (var_attr_data_ st)
  end.

(** * Copying by index lists *)

(** The copies of the datums [ks] (source and destination index). *)
Definition copy_all (esrc edst : Err) (n : nat) (src : list A) (ks : list (nat * nat))
    (dst : list A) : res (list A) :=
  foldM (fun dst k => copy_datum esrc edst n src (k.1 * n) dst (k.2 * n)) dst ks.

Lemma copy_datum_spec esrc edst n src soff dst doff :
  soff + n <= length src -> doff + n <= length dst ->
  exists dst', copy_datum esrc edst n src soff dst doff = Ok dst' /\ length dst' = length dst /\
    (forall i, i < n -> dst' !! (doff + i) = src !! (soff + i)) /\
    (forall j, ~ (doff <= j < doff + n) -> dst' !! j = dst !! j).
Proof.
  intros Hs Hd. unfold copy_datum.
  destruct (foldM_ind (fun dst i => x ← buf_get esrc src (soff + i); buf_set edst dst (doff + i) x)
    (fun don dst' => length dst' = length dst /\
       (forall i, i ∈ don -> dst' !! (doff + i) = src !! (soff + i)) /\
       (forall j, (forall i, i ∈ don -> j <> doff + i) -> dst' !! j = dst !! j)) dst (seq 0 n))
    as (dst' & Hf & Hl & Hi & Hj).
  - split_and!; [done| |done]. by intros i ?%elem_of_nil.
  - intros don i d (Hl & Hi & Hj) Hp.
    assert (i < n) as Hin.
    { destruct Hp as [rest Hp]. assert (i ∈ seq 0 n) as Hs'%elem_of_seq; [|lia].
      rewrite Hp. apply elem_of_app. left. apply elem_of_app. right. left. }
    destruct (lookup_lt_is_Some_2 src (soff + i)) as [x Hx]; [lia|].
    exists (<[doff + i := x]> d). unfold buf_get, buf_set. rewrite Hx. simpl.
    rewrite decide_True by lia. split; [done|]. split_and!.
    + by rewrite length_insert.
    + intros i' Hi'. apply elem_of_app in Hi' as [Hi'|Hi']; [|apply list_elem_of_singleton in Hi' as ->].
      * destruct (decide (i = i')) as [->|]; [rewrite list_lookup_insert_eq by lia; done|].
        rewrite list_lookup_insert_ne by lia. auto.
      * rewrite list_lookup_insert_eq by lia. done.
    + intros j Hne. rewrite list_lookup_insert_ne.
      * apply Hj. intros i' Hi'. apply Hne. apply elem_of_app. by left.
      * apply not_eq_sym, Hne. apply elem_of_app. right. left.
  - exists dst'. split_and!; [done..| |].
    + intros i Hlt. apply Hi. apply elem_of_seq. lia.
    + intros j Hne. apply Hj. intros i Hin%elem_of_seq. lia.
Qed.

(** The index [j] is in the datum [k]. *)
Definition in_datum (n j k : nat) : Prop := k * n <= j < k * n + n.

Lemma copy_all_spec esrc edst n src ks dst M N :
  length src = M * n -> length dst = N * n ->
  Forall (fun k => k.1 < M /\ k.2 < N) ks -> NoDup (map snd ks) ->
  exists dst', copy_all esrc edst n src ks dst = Ok dst' /\ length dst' = length dst /\
    (forall k i, k ∈ ks -> i < n -> dst' !! (k.2 * n + i) = src !! (k.1 * n + i)) /\
    (forall j, (forall k, k ∈ ks -> ~ in_datum n j k.2) -> dst' !! j = dst !! j).
Proof.
  intros Hs. revert dst. induction ks as [|k ks IH]; intros dst Hd Hb Hnd.
  - exists dst. split_and!; try done. by intros k i ?%elem_of_nil.
  - apply Forall_cons in Hb as [[H1 H2] Hb]. apply NoDup_cons in Hnd as [Hk Hnd].
    destruct (copy_datum_spec esrc edst n src (k.1 * n) dst (k.2 * n)) as (d1 & Hc & Hl & Hi & Hj);
      [rewrite Hs; nia|rewrite Hd; nia|].
    destruct (IH d1) as (d2 & Hc2 & Hl2 & Hi2 & Hj2); [by rewrite Hl|done..|].
    exists d2. unfold copy_all in *. cbn [foldM]. rewrite Hc. cbn [mbind res_bind].
    split_and!; [done|by rewrite Hl2| |].
    + intros k' i [->|Hk']%elem_of_cons Hin; [|auto]. rewrite Hj2, Hi; [done..|].
      intros k'' Hk'' Hd''. unfold in_datum in Hd''. apply Hk.
      assert (k.2 = k''.2) as -> by nia. apply list_elem_of_fmap. eauto.
    + intros j Hne. rewrite Hj2 by (intros k' Hk'; apply Hne; by right).
      apply Hj. apply (Hne k). left.
Qed.
End VarAttrStore.
Arguments VarAttrStore : clear implicits.

(** * The loops follow the two walks *)

Lemma walk_inv fuel s l :
  walk fuel s = Ok l ->
  match l with
  | [] => end_lin_indx s = true
  | i :: rest => end_lin_indx s = false /\ exists fuel' s', fuel = S fuel' /\
      next_lin_indx s = Ok (i, s') /\ walk fuel' s' = Ok rest
  end.
Proof.
  destruct fuel as [|fuel]; simpl; destruct (end_lin_indx s) eqn:E; intros Hw; inv_res; try done.
  apply res_bind_Ok in Hw as ([i s'] & Hn & Hw). apply res_bind_Ok in Hw as (rest & Hr & Hw). inv_res.
  split; [done|]. eauto.
Qed.

Definition small_offsets (n : nat) (l : list Z) : Prop :=
  Forall (fun i => 0 <= i /\ i * Z.of_nat n < 2 ^ 64)%Z l.

Lemma offset_small i n : (0 <= i /\ i * Z.of_nat n < 2 ^ 64)%Z -> offset i n = Z.to_nat i * n.
Proof. intros [H1 H2]. unfold offset. rewrite u64_small by lia. lia. Qed.

Section loops.
Context {A : Type} (n : nat).

Lemma write_loop_walk fuel fuel' (data : list A) m f ms fs var :
  walk fuel m = Ok ms -> walk fuel' f = Ok fs -> length ms = length fs ->
  small_offsets n ms -> small_offsets n fs ->
  write_loop fuel data m f n var =
    copy_all EAssert EUndefined n data (zip (map Z.to_nat ms) (map Z.to_nat fs)) var.
Proof.
  revert fuel fuel' m f fs var. induction ms as [|mi ms IH]; intros fuel fuel' m f [|fi fs] var Hm Hf Hl Sm Sf;
    simplify_eq/=; apply walk_inv in Hm, Hf.
  - by destruct fuel; simpl; rewrite Hm.
  - destruct Hm as (Em & fu & m' & -> & Nm & Wm), Hf as (Ef & fu' & f' & -> & Nf & Wf).
    apply Forall_cons in Sm as [Om Sm], Sf as [Of Sf].
    cbn [write_loop]. rewrite Em, Nm. cbn [mbind res_bind]. rewrite Nf. cbn [mbind res_bind].
    unfold copy_all. cbn [foldM fst snd]. rewrite !offset_small by done.
    destruct (copy_datum _ _ _ _ _ _ _) as [var'|]; [|done]. cbn [mbind res_bind]. by eapply IH.
Qed.

Lemma read_loop_walk fuel fuel' (data : list A) m f ms fs var :
  walk fuel m = Ok ms -> walk fuel' f = Ok fs -> length ms = length fs ->
  small_offsets n ms -> small_offsets n fs ->
  read_loop fuel data m f n var =
    copy_all EAssert EAssert n var (zip (map Z.to_nat fs) (map Z.to_nat ms)) data.
Proof.
  revert fuel fuel' m f fs data. induction ms as [|mi ms IH]; intros fuel fuel' m f [|fi fs] data Hm Hf Hl Sm Sf;
    simplify_eq/=; apply walk_inv in Hm, Hf.
  - by destruct fuel; simpl; rewrite Hm.
  - destruct Hm as (Em & fu & m' & -> & Nm & Wm), Hf as (Ef & fu' & f' & -> & Nf & Wf).
    apply Forall_cons in Sm as [Om Sm], Sf as [Of Sf].
    cbn [read_loop]. rewrite Em, Nm. cbn [mbind res_bind]. rewrite Nf. cbn [mbind res_bind].
    unfold copy_all. cbn [foldM fst snd]. rewrite !offset_small by done.
    destruct (copy_datum _ _ _ _ _ _ _) as [data'|]; [|done]. cbn [mbind res_bind]. by eapply IH.
Qed.
End loops.

(** A selection of an object with [N] datums of [n] elements: its walk is [l],
    which visits each of its datums once. *)
Record selects (s : Selection) (n N : nat) (l : list Z) : Prop := {
  sel_walk : forall fuel, length l <= fuel -> lin_indices fuel s = Ok l;
  sel_range : Forall (fun i => 0 <= i < Z.of_nat N)%Z l;
  sel_nodup : NoDup l;
  sel_size : (Z.of_nat (N * n) < 2 ^ 64)%Z
}.

Lemma selects_small s n N l : selects s n N l -> small_offsets n l.
Proof.
  intros Hs. eapply Forall_impl; [apply (sel_range _ _ _ _ Hs)|]. intros i Hi.
  pose proof (sel_size _ _ _ _ Hs). simpl in Hi. nia.
Qed.

Lemma selects_nat s n N l :
  selects s n N l -> NoDup (map Z.to_nat l) /\ Forall (fun i => i < N) (map Z.to_nat l).
Proof.
  intros Hs. pose proof (sel_range _ _ _ _ Hs) as Hr. split.
  - apply NoDup_fmap_2_strong; [|apply (sel_nodup _ _ _ _ Hs)]. rewrite list.Forall_forall in Hr.
    intros x y Hx Hy E. pose proof (Hr x Hx). pose proof (Hr y Hy). lia.
  - apply Forall_map. eapply Forall_impl; [exact Hr|]. simpl. lia.
Qed.

Lemma zip_bounds (l1 l2 : list nat) M N :
  length l1 = length l2 -> Forall (fun i => i < M) l1 -> Forall (fun i => i < N) l2 ->
  Forall (fun k => k.1 < M /\ k.2 < N) (zip l1 l2).
Proof.
  revert l2. induction l1 as [|x l1 IH]; intros [|y l2] Hl H1 H2; simplify_eq/=; [constructor|].
  apply Forall_cons in H1 as [? ?], H2 as [? ?]. constructor; auto.
Qed.

Section transfer.
Context {A : Type} (st : VarAttrStore A) (data : list A) (m f : Selection) (M N : nat) (ms fs : list Z).
Let n := num_elements_ st.
Context (Hm : selects m n M ms) (Hf : selects f n N fs) (Hlen : length ms = length fs).
Context (Hdata : length data = M * n) (Hvar : length (var_attr_data_ st) = N * n).

Lemma write_copies fuel :
  length ms <= fuel -> exists st', store_write fuel data m f st = Ok st' /\
    num_elements_ st' = n /\ length (var_attr_data_ st') = N * n /\
    (forall k mi fi i, ms !! k = Some mi -> fs !! k = Some fi -> i < n ->
       var_attr_data_ st' !! (Z.to_nat fi * n + i) = data !! (Z.to_nat mi * n + i)) /\
    (forall j, (forall fi, fi ∈ fs -> ~ in_datum n j (Z.to_nat fi)) ->
       var_attr_data_ st' !! j = var_attr_data_ st !! j).
Proof.
  intros Hfuel. unfold store_write.
  destruct (selects_nat _ _ _ _ Hm) as [Nm Bm], (selects_nat _ _ _ _ Hf) as [Nf Bf].
  destruct data as [|x0 data0] eqn:Ed.
  - exists st. split_and!; try done. intros k mi fi i Hk _ Hi. exfalso. simpl in Hdata.
    pose proof (sel_range _ _ _ _ Hm) as Hr. rewrite list.Forall_forall in Hr.
    specialize (Hr mi (list_elem_of_lookup_2 _ _ _ Hk)). nia.
  - rewrite <- Ed in *.
    destruct (copy_all_spec EAssert EUndefined n data (zip (map Z.to_nat ms) (map Z.to_nat fs))
      (var_attr_data_ st) M N) as (var' & Hc & Hl & Hi & Hj); [done|done|..].
    { apply zip_bounds; [by rewrite !length_map|done..]. }
    { change (map snd (zip (map Z.to_nat ms) (map Z.to_nat fs))) with
        ((zip (map Z.to_nat ms) (map Z.to_nat fs)).*2). rewrite snd_zip; [done|].
      rewrite !length_map. lia. }
    pose proof (write_loop_walk n fuel fuel data (init_lin_indx m) (init_lin_indx f) ms fs
      (var_attr_data_ st)) as Hw. fold n. rewrite Hw, Hc; try done.
    2:{ apply (sel_walk _ _ _ _ Hm). done. } 2:{ apply (sel_walk _ _ _ _ Hf). by rewrite <- Hlen. }
    2:{ by eapply selects_small. } 2:{ by eapply selects_small. }
    cbn [mbind res_bind]. eexists. split; [reflexivity|]. simpl. split_and!; [done|by rewrite Hl| |].
    + intros k mi fi i Hk1 Hk2 Hin. apply (Hi (Z.to_nat mi, Z.to_nat fi)); [|done].
      apply list_elem_of_lookup. exists k. apply lookup_zip_with_Some.
      exists (Z.to_nat mi), (Z.to_nat fi). rewrite !list_lookup_fmap, Hk1, Hk2. done.
    + intros j Hne. apply Hj. intros k [i Hk]%list_elem_of_lookup.
      apply lookup_zip_with_Some in Hk as (x & y & -> & _ & Hy). rewrite list_lookup_fmap in Hy.
      destruct (fs !! i) as [fi|] eqn:E; simplify_eq/=. apply Hne. by eapply list_elem_of_lookup_2.
Qed.

Lemma read_copies fuel :
  length ms <= fuel -> exists data', store_read fuel data m f st = Ok data' /\
    length data' = M * n /\
    (forall k mi fi i, ms !! k = Some mi -> fs !! k = Some fi -> i < n ->
       data' !! (Z.to_nat mi * n + i) = var_attr_data_ st !! (Z.to_nat fi * n + i)) /\
    (forall j, (forall mi, mi ∈ ms -> ~ in_datum n j (Z.to_nat mi)) -> data' !! j = data !! j).
Proof.
  intros Hfuel. unfold store_read.
  destruct (selects_nat _ _ _ _ Hm) as [Nm Bm], (selects_nat _ _ _ _ Hf) as [Nf Bf].
  destruct data as [|x0 data0] eqn:Ed.
  - exists []. split_and!; try done. intros k mi fi i Hk _ Hi. exfalso. simpl in Hdata.
    pose proof (sel_range _ _ _ _ Hm) as Hr. rewrite list.Forall_forall in Hr.
    specialize (Hr mi (list_elem_of_lookup_2 _ _ _ Hk)). nia.
  - rewrite <- Ed in *.
    destruct (copy_all_spec EAssert EAssert n (var_attr_data_ st)
      (zip (map Z.to_nat fs) (map Z.to_nat ms)) data N M) as (data' & Hc & Hl & Hi & Hj); [done|done|..].
    { apply zip_bounds; [by rewrite !length_map|done..]. }
    { change (map snd (zip (map Z.to_nat fs) (map Z.to_nat ms))) with
        ((zip (map Z.to_nat fs) (map Z.to_nat ms)).*2). rewrite snd_zip; [done|].
      rewrite !length_map. lia. }
    pose proof (read_loop_walk n fuel fuel data (init_lin_indx m) (init_lin_indx f) ms fs
      (var_attr_data_ st)) as Hw. fold n. rewrite Hw, Hc; try done.
    2:{ apply (sel_walk _ _ _ _ Hm). done. } 2:{ apply (sel_walk _ _ _ _ Hf). by rewrite <- Hlen. }
    2:{ by eapply selects_small. } 2:{ by eapply selects_small. }
    eexists. split; [reflexivity|]. split_and!; [by rewrite Hl| |].
    + intros k mi fi i Hk1 Hk2 Hin. apply (Hi (Z.to_nat fi, Z.to_nat mi)); [|done].
      apply list_elem_of_lookup. exists k. apply lookup_zip_with_Some.
      exists (Z.to_nat fi), (Z.to_nat mi). rewrite !list_lookup_fmap, Hk1, Hk2. done.
    + intros j Hne. apply Hj. intros k [i Hk]%list_elem_of_lookup.
      apply lookup_zip_with_Some in Hk as (x & y & -> & _ & Hy). rewrite list_lookup_fmap in Hy.
      destruct (ms !! i) as [mi|] eqn:E; simplify_eq/=. apply Hne. by eapply list_elem_of_lookup_2.
Qed.
End transfer.

(** * The selections ioda makes *)

Lemma intersect_selects sels sizes n :
  Forall2 in_range sels sizes -> sels <> [] -> Forall (fun sel => NoDup sel) sels ->
  (prodZ sizes < 2 ^ 64)%Z -> (prodZ sizes * Z.of_nat n < 2 ^ 64)%Z ->
  exists s, Selection_dims INTERSECT sels sizes = Ok s /\
    selects s n (Z.to_nat (prodZ sizes)) (nested sels sizes 0).
Proof.
  intros Hr Hne Hnd Hb Hbn. destruct (intersect_walk sels sizes Hr Hb Hne) as (s & Hs & _ & Hw).
  exists s. split; [done|].
  pose proof (prodZ_pos sizes (sizes_pos sels sizes Hr)) as Hpos.
  pose proof (nested_range sels sizes 0 1 Hr ltac:(lia)) as Hrange. rewrite Z.mul_1_l in Hrange.
  split.
  - intros fuel Hf. apply Hw. by rewrite nested_length in Hf by (by eapply Forall2_length).
  - eapply Forall_impl; [exact Hrange|]. simpl. lia.
  - by apply nested_NoDup.
  - lia.
Qed.

Lemma all_selects N n :
  (Z.of_nat N < 2 ^ 31)%Z -> (Z.of_nat (N * n) < 2 ^ 64)%Z ->
  exists s, Selection_all 0 (Z.of_nat N) = Ok s /\ selects s n N (map Z.of_nat (seq 0 N)).
Proof.
  intros HN Hn. destruct (all_walk (Z.of_nat N)) as (s & Hs & _ & Hw); [done|lia|].
  rewrite Nat2Z.id in Hw. exists s. split; [done|]. split.
  - intros fuel Hf. apply Hw. by rewrite length_map, length_seq in Hf.
  - apply Forall_map, list.Forall_forall. intros i Hi%elem_of_seq. simpl. lia.
  - apply (NoDup_fmap_2 Z.of_nat), NoDup_seq.
  - done.
Qed.

Lemma write_read_copies {A} (st : VarAttrStore A) (data buf : list A) (m f : Selection) (M N : nat)
    (ms fs : list Z) fuel :
  let n := num_elements_ st in
  selects m n M ms -> selects f n N fs -> length ms = length fs ->
  length data = M * n -> length buf = M * n -> length (var_attr_data_ st) = N * n ->
  length ms <= fuel ->
  exists st' buf', store_write fuel data m f st = Ok st' /\
    (num_elements_ st' = n /\ length (var_attr_data_ st') = N * n) /\
    store_read fuel buf m f st' = Ok buf' /\
    (forall mi j, mi ∈ ms -> in_datum n j (Z.to_nat mi) -> buf' !! j = data !! j) /\
    (forall j, (forall mi, mi ∈ ms -> ~ in_datum n j (Z.to_nat mi)) -> buf' !! j = buf !! j) /\
    ((forall i, i < M -> Z.of_nat i ∈ ms) -> buf' = data).
Proof.
  intros n Hm Hf Hl Hd Hb Hv Hfu.
  destruct (write_copies st data m f M N ms fs Hm Hf Hl Hd Hv fuel Hfu)
    as (st' & Hw & Hn & Hv' & Hcopy & _).
  destruct (read_copies st' buf m f M N ms fs) with (fuel := fuel)
    as (buf' & Hr & Hlb & Hrcopy & Hrest); rewrite ?Hn; try done.
  exists st', buf'. rewrite Hn in *. split_and!; try done.
  - intros mi j Hmi [Hj1 Hj2]. apply list_elem_of_lookup in Hmi as [k Hk].
    destruct (lookup_lt_is_Some_2 fs k) as [fi Hfi]; [rewrite <- Hl; by eapply lookup_lt_Some|].
    replace j with (Z.to_nat mi * n + (j - Z.to_nat mi * n)) by lia.
    rewrite (Hrcopy k mi fi) by (done || lia). apply (Hcopy k); [done..|lia].
  - intros Hall. apply list_eq_same_length with (M * n); [done..|]. intros j x y Hj Hx Hy.
    assert (n <> 0) as Hn0 by lia.
    pose proof (Nat.div_mod_eq j n) as Ej. pose proof (Nat.mod_upper_bound j n Hn0) as Em.
    assert (j / n < M) as HjM by (apply Nat.Div0.div_lt_upper_bound; lia).
    destruct (list_elem_of_lookup_1 _ _ (Hall _ HjM)) as [k Hk].
    destruct (lookup_lt_is_Some_2 fs k) as [fi Hfi]; [rewrite <- Hl; by eapply lookup_lt_Some|].
    assert (Some x = Some y); [|congruence]. rewrite <- Hx, <- Hy.
    replace j with (Z.to_nat (Z.of_nat (j / n)) * n + j mod n) by (rewrite Nat2Z.id; lia).
    rewrite (Hrcopy k _ fi) by done. by apply (Hcopy k).
Qed.

(** Writing and reading back a whole object. *)
Lemma store_write_read_all {A} (st : VarAttrStore A) (data buf : list A) (s : Selection) (N : nat) :
  let n := num_elements_ st in
  selects s n N (map Z.of_nat (seq 0 N)) -> length data = N * n -> length buf = N * n ->
  length (var_attr_data_ st) = N * n ->
  exists st', store_write N data s s st = Ok st' /\ num_elements_ st' = n /\
    length (var_attr_data_ st') = N * n /\ store_read N buf s s st' = Ok data.
Proof.
  intros n Hs Hd Hb Hv.
  destruct (write_read_copies st data buf s s N N (map Z.of_nat (seq 0 N)) (map Z.of_nat (seq 0 N)) N)
    as (st' & buf' & Hw & [Hn Hl] & Hr & _ & _ & Hall); try done.
  { by rewrite length_map, length_seq. }
  exists st'. split_and!; try done. rewrite Hr. f_equal. apply Hall. intros i Hi.
  apply list_elem_of_fmap. exists i. split; [done|]. apply elem_of_seq. lia.
Qed.

(** * Properties *)

(** Writing a buffer into a variable's storage through two selections of the
    same number of points: it ends and succeeds, the datum at the k-th selected
    position of the storage becomes the datum at the k-th selected position of
    the buffer, and the rest of the storage is unchanged. *)
Theorem store_write_spec {A} (st : VarAttrStore A) (data : list A) (m f : Selection) (M N : nat)
    (ms fs : list Z) fuel :
  let n := num_elements_ st in
  selects m n M ms -> selects f n N fs -> length ms = length fs ->
  length data = M * n -> length (var_attr_data_ st) = N * n -> length ms <= fuel ->
  exists st', store_write fuel data m f st = Ok st' /\
    num_elements_ st' = n /\ length (var_attr_data_ st') = N * n /\
    (forall k mi fi i, ms !! k = Some mi -> fs !! k = Some fi -> i < n ->
       var_attr_data_ st' !! (Z.to_nat fi * n + i) = data !! (Z.to_nat mi * n + i)) /\
    (forall j, (forall fi, fi ∈ fs -> ~ in_datum n j (Z.to_nat fi)) ->
       var_attr_data_ st' !! j = var_attr_data_ st !! j).
Proof. intros n Hm Hf Hl Hd Hv Hfu. by apply (write_copies st data m f M N ms fs). Qed.

(** Two values written to rows 1 and 3 of column 0 of a 4 x 2 variable. *)
Lemma store_write_spec_witness :
  exists m f st',
    Selection_all 0 2 = Ok m /\ Selection_dims INTERSECT [[1; 3]; [0]]%Z [4; 2]%Z = Ok f /\
    store_write 2 [70; 80] m f {| var_attr_data_ := [0; 1; 2; 3; 4; 5; 6; 7]; num_elements_ := 1 |}
      = Ok st' /\
    length (var_attr_data_ st') = 8 /\ var_attr_data_ st' !! 2 = Some 70 /\
    var_attr_data_ st' !! 6 = Some 80 /\ var_attr_data_ st' !! 5 = Some 5.
Proof.
  destruct (all_selects 2 1) as (m & Hm & Sm); [lia..|].
  destruct (intersect_selects [[1; 3]; [0]]%Z [4; 2]%Z 1) as (f & Hf & Sf).
  { repeat constructor; try done; lia. } { done. }
  { repeat constructor; apply (bool_decide_unpack _); vm_compute; exact I. }
  { vm_compute. reflexivity. } { vm_compute. reflexivity. }
  destruct (store_write_spec {| var_attr_data_ := [0; 1; 2; 3; 4; 5; 6; 7]; num_elements_ := 1 |}
    [70; 80] m f 2 8 [0; 1]%Z [2; 6]%Z 2 Sm Sf) as (st' & Hw & Hn & Hl & Hc & Hr).
  { reflexivity. } { reflexivity. } { reflexivity. } { simpl. lia. }
  exists m, f, st'. split_and!; try done.
  - by apply (Hc 0 0%Z 2%Z 0); [..|simpl; lia].
  - by apply (Hc 1 1%Z 6%Z 0); [..|simpl; lia].
  - apply (Hr 5). intros fi Hfi. rewrite !elem_of_cons, elem_of_nil in Hfi.
    destruct Hfi as [->|[->|[]]]; unfold in_datum; simpl; lia.
Defined.

(** Reading back what was written: after writing [data] through the
    selections, reading through the same selections into any buffer gives, at
    the selected positions of the buffer, the data written, and leaves the other
    positions of the buffer; if the memory selection covers the buffer, the
    buffer read is the buffer written. *)
Theorem store_write_read {A} (st : VarAttrStore A) (data buf : list A) (m f : Selection) (M N : nat)
    (ms fs : list Z) fuel :
  let n := num_elements_ st in
  selects m n M ms -> selects f n N fs -> length ms = length fs ->
  length data = M * n -> length buf = M * n -> length (var_attr_data_ st) = N * n ->
  length ms <= fuel ->
  exists st' buf', store_write fuel data m f st = Ok st' /\
    store_read fuel buf m f st' = Ok buf' /\
    (forall mi j, mi ∈ ms -> in_datum n j (Z.to_nat mi) -> buf' !! j = data !! j) /\
    (forall j, (forall mi, mi ∈ ms -> ~ in_datum n j (Z.to_nat mi)) -> buf' !! j = buf !! j) /\
    ((forall i, i < M -> Z.of_nat i ∈ ms) -> buf' = data).
Proof.
  intros n Hm Hf Hl Hd Hb Hv Hfu.
  destruct (write_read_copies st data buf m f M N ms fs fuel Hm Hf Hl Hd Hb Hv Hfu)
    as (st' & buf' & Hw & _ & H). by exists st', buf'.
Qed.

Lemma store_write_read_witness :
  exists m f st' buf',
    Selection_all 0 2 = Ok m /\ Selection_dims INTERSECT [[1; 3]; [0]]%Z [4; 2]%Z = Ok f /\
    store_write 2 [70; 80] m f {| var_attr_data_ := [0; 1; 2; 3; 4; 5; 6; 7]; num_elements_ := 1 |}
      = Ok st' /\
    store_read 2 [0; 0] m f st' = Ok buf' /\ buf' = [70; 80].
Proof.
  destruct (all_selects 2 1) as (m & Hm & Sm); [lia..|].
  destruct (intersect_selects [[1; 3]; [0]]%Z [4; 2]%Z 1) as (f & Hf & Sf).
  { repeat constructor; try done; lia. } { done. }
  { repeat constructor; apply (bool_decide_unpack _); vm_compute; exact I. }
  { vm_compute. reflexivity. } { vm_compute. reflexivity. }
  destruct (store_write_read {| var_attr_data_ := [0; 1; 2; 3; 4; 5; 6; 7]; num_elements_ := 1 |}
    [70; 80] [0; 0] m f 2 8 [0; 1]%Z [2; 6]%Z 2 Sm Sf) as (st' & buf' & Hw & Hr & _ & _ & Hall).
  { reflexivity. } { reflexivity. } { reflexivity. } { reflexivity. } { simpl. lia. }
  exists m, f, st', buf'. split_and!; try done. apply Hall. intros [|[|i]] Hi; [left|right; left|lia].
Defined.
