(* ===== verification/ObsTypes.v ===== *)
(** Data types of the in-memory store:
    src/src/engines/ioda/src/ioda/Engines/ObsStore/Type.{hpp,cpp}. *)
From stdpp Require Import base list strings.
From S2P Require Import Prelude.

Inductive ObsTypes :=
  | NOTYPE
  | FLOAT | DOUBLE | LDOUBLE
  | SCHAR | SHORT | INT | LONG | LLONG
  | UCHAR | UINT | USHORT | ULONG | ULLONG
  | CHAR | WCHAR | CHAR16 | CHAR32
  | ARRAY | STRING.

Inductive ObsTypeClasses :=
  | NOCLASS
  | INTEGER | CFLOAT | CSTRING
  | BITFIELD | OPAQUE | COMPOUND | REFERENCE | ENUM
  | VLEN_ARRAY | FIXED_ARRAY.

#[export] Instance ObsTypes_eq_dec : EqDecision ObsTypes.
Proof. solve_decision. Defined.
#[export] Instance ObsTypeClasses_eq_dec : EqDecision ObsTypeClasses.
Proof. solve_decision. Defined.

(** class Type; a null [base_type_] is [None]. *)
Inductive OType := mkType {
  ty_dims : list nat;
  ty_type : ObsTypes;
  ty_class : ObsTypeClasses;
  ty_base : option OType;
  ty_num_elements : nat;
  ty_size : nat;
  ty_signed : bool
}.

(** The constructors of fundamental and of array types. *)
Definition Type_fundamental (dataType : ObsTypes) (typeClass : ObsTypeClasses) (typeSize : nat)
    (isTypeSigned : bool) : OType :=
  mkType [] dataType typeClass None 1 typeSize isTypeSigned.

Definition Type_array (dims : list nat) (dataType : ObsTypes) (typeClass : ObsTypeClasses)
    (baseType : OType) : OType :=
  let num_elements := foldl Nat.mul 1 dims in
  mkType dims dataType typeClass (Some baseType) num_elements
    (ty_size baseType * num_elements) (ty_signed baseType).

(** [operator==]: the comparison of the dimension vectors stops at the first
    difference. *)
Fixpoint dims_match (d1 d2 : list nat) : bool :=
  match d1, d2 with
  | x :: d1, y :: d2 => if x =? y then dims_match d1 d2 else false
  | _, _ => true
  end.

Fixpoint Type_eqb (lhs rhs : OType) : bool :=
  let match_ :=
    bool_decide (ty_type lhs = ty_type rhs) && (ty_size lhs =? ty_size rhs) &&
    bool_decide (ty_class lhs = ty_class rhs) && (ty_num_elements lhs =? ty_num_elements rhs) &&
    eqb (ty_signed lhs) (ty_signed rhs) && (length (ty_dims lhs) =? length (ty_dims rhs)) in
  let match_ := if match_ then dims_match (ty_dims lhs) (ty_dims rhs) else false in
  if match_ then
    match lhs, ty_base rhs with
    | mkType _ _ _ (Some b1) _ _ _, Some b2 => Type_eqb b1 b2
    | mkType _ _ _ None _ _ _, Some _ => false
    | mkType _ _ _ (Some _) _ _ _, None => false
    | mkType _ _ _ None _ _ _, None => true
    end
  else false.

Definition Type_neqb (lhs rhs : OType) : bool := negb (Type_eqb lhs rhs).

(** [createVarAttrStore]: the element type of the storage, and the number of
    elements of a datum. *)
Definition createVarAttrStore (dtype : OType) : res (ObsTypes * nat) :=
  baseType ← (match ty_type dtype with
    | ARRAY => match ty_base dtype with Some b => Ok (ty_type b) | None => Throw EUndefined end
    | t => Ok t
    end);
  match baseType with
  | NOTYPE | ARRAY =>
      Throw (EException "Unrecognized data type encountered during Attribute object construnction")
  | t => Ok (t, ty_num_elements dtype)
  end.

Lemma dims_match_spec d1 d2 : length d1 = length d2 -> dims_match d1 d2 = true <-> d1 = d2.
Proof.
  revert d2. induction d1 as [|x d1 IH]; intros [|y d2] Hl; simplify_eq/=; [done|].
  destruct (Nat.eqb_spec x y) as [->|]; [rewrite IH by done|]; naive_solver.
Qed.

(** The induction principle with the base type. *)
Fixpoint OType_rect' (P : OType -> Prop)
    (H0 : forall d t c n s g, P (mkType d t c None n s g))
    (H1 : forall d t c b n s g, P b -> P (mkType d t c (Some b) n s g)) (ty : OType) : P ty :=
  match ty with
  | mkType d t c None n s g => H0 d t c n s g
  | mkType d t c (Some b) n s g => H1 d t c b n s g (OType_rect' P H0 H1 b)
  end.

Lemma Type_eqb_eq lhs rhs : Type_eqb lhs rhs = true <-> lhs = rhs.
Proof.
  revert rhs. induction lhs as [d t c n s g|d t c b n s g IH] using OType_rect';
    intros [d' t' c' b' n' s' g']; simpl.
  all: destruct (bool_decide (t = t')) eqn:E1; simpl; [apply bool_decide_eq_true in E1 as ->|
    apply bool_decide_eq_false in E1; split; congruence].
  all: destruct (Nat.eqb_spec s s') as [->|]; simpl; [|split; congruence].
  all: destruct (bool_decide (c = c')) eqn:E2; simpl; [apply bool_decide_eq_true in E2 as ->|
    apply bool_decide_eq_false in E2; split; congruence].
  all: destruct (Nat.eqb_spec n n') as [->|]; simpl; [|split; congruence].
  all: destruct (eqb g g') eqn:E3; simpl; [apply eqb_prop in E3 as ->|
    apply eqb_false_iff in E3; split; congruence].
  all: destruct (Nat.eqb_spec (length d) (length d')) as [El|]; simpl; [|split; congruence].
  all: destruct (dims_match d d') eqn:Ed; [apply (dims_match_spec _ _ El) in Ed as ->|].
  - destruct b'; by split.
  - split; [done|]. intros E. injection E as -> _.
    by rewrite (proj2 (dims_match_spec d' d' eq_refl) eq_refl) in Ed.
  - destruct b' as [b'|]; [rewrite IH|]; split; congruence.
  - split; [done|]. intros E. injection E as -> _.
    by rewrite (proj2 (dims_match_spec d' d' eq_refl) eq_refl) in Ed.
Qed.

(** Two data types compare equal exactly when all their members are equal,
    base types included, and [operator!=] is the negation. *)
Theorem Type_eqb_spec lhs rhs :
  (Type_eqb lhs rhs = true <-> lhs = rhs) /\ (Type_neqb lhs rhs = true <-> lhs <> rhs).
Proof.
  split; [apply Type_eqb_eq|]. unfold Type_neqb. rewrite negb_true_iff, <- not_true_iff_false.
  by rewrite Type_eqb_eq.
Qed.
