(* ===== verification/ObsAttributes.v ===== *)
(** Attributes of the in-memory store and the containers that hold objects by
    name: src/src/engines/ioda/src/ioda/Engines/ObsStore/Attributes.{hpp,cpp}. *)
From stdpp Require Import base list gmap strings sorting.
From S2P Require Import Prelude Selection VarAttrStore ObsTypes.

(** * Objects held by name

    A [std::map<std::string, std::shared_ptr<V>>]: names point to objects, and
    an object that no name points to may still be in a caller's hands. *)
Record Named (V : Type) := {
  names : gmap string nat;
  heap : gmap nat V;
  next_id : nat
}.
Arguments names {V} _.
Arguments heap {V} _.
Arguments next_id {V} _.
Arguments Build_Named {V} _ _ _.

Definition string_le (s t : string) : Prop := String.leb s t = true.
#[export] Instance string_le_dec s t : Decision (string_le s t).
Proof. unfold string_le. apply _. Defined.

Section Named.
Context {V : Type}.

Definition Named_empty : Named V := {| names := ∅; heap := ∅; next_id := 0 |}.

(** [map.insert({name, id})]: an existing entry is kept. *)
Definition map_insert (m : gmap string nat) (name : string) (id : nat) : gmap string nat :=
  match m !! name with Some _ => m | None => <[name := id]> m end.

(** A new object, entered under [name]; the caller gets the object. *)
Definition Named_create (name : string) (v : V) (c : Named V) : nat * Named V :=
  (next_id c, {| names := map_insert (names c) name (next_id c);
                 heap := <[next_id c := v]> (heap c);
                 next_id := S (next_id c) |}).

Definition Named_open (msg : string) (name : string) (c : Named V) : res nat :=
  match names c !! name with Some id => Ok id | None => Throw (EException msg) end.

Definition Named_exists (name : string) (c : Named V) : bool :=
  bool_decide (is_Some (names c !! name)).

Definition Named_remove (name : string) (c : Named V) : Named V :=
  {| names := delete name (names c); heap := heap c; next_id := next_id c |}.

Definition Named_rename (msg oldName newName : string) (c : Named V) : res (Named V) :=
  id ← Named_open msg oldName c;
  Ok {| names := map_insert (delete oldName (names c)) newName id; heap := heap c;
        next_id := next_id c |}.

(** The names in the order of the map. *)
Definition Named_list (c : Named V) : list string :=
  merge_sort string_le (map fst (map_to_list (names c))).

(** The container seen from outside: the object under each name. *)
Definition view (c : Named V) : gmap string V := omap (fun id => heap c !! id) (names c).

Record Named_ok (c : Named V) : Prop := {
  no_heap : forall name id, names c !! name = Some id -> is_Some (heap c !! id);
  no_fresh : forall id, is_Some (heap c !! id) -> id < next_id c
}.

Lemma Named_empty_ok : Named_ok Named_empty.
Proof. split; simpl; intros *; rewrite lookup_empty; [done|]. by intros [? ?]. Qed.

Lemma view_lookup c name v :
  view c !! name = Some v <-> exists id, names c !! name = Some id /\ heap c !! id = Some v.
Proof.
  unfold view. rewrite lookup_omap. destruct (names c !! name) as [id|]; simpl; naive_solver.
Qed.

Lemma fresh_lookup c : Named_ok c -> heap c !! next_id c = None.
Proof.
  intros Hc. destruct (heap c !! next_id c) eqn:E; [|done].
  pose proof (no_fresh _ Hc (next_id c) ltac:(eauto)). lia.
Qed.

Lemma create_ok c name v : Named_ok c -> Named_ok (Named_create name v c).2.
Proof.
  intros Hc. pose proof (fresh_lookup c Hc) as Hf. split; simpl.
  - intros nm id. unfold map_insert. destruct (names c !! name) eqn:E.
    + intros Hn. destruct (no_heap _ Hc _ _ Hn) as [w Hw]. exists w.
      rewrite lookup_insert_ne; [done|]. intros <-. congruence.
    + destruct (decide (nm = name)) as [->|Hne].
      * rewrite lookup_insert_eq. intros [= <-]. rewrite lookup_insert_eq. eauto.
      * rewrite lookup_insert_ne by done. intros Hn. destruct (no_heap _ Hc _ _ Hn) as [w Hw].
        exists w. rewrite lookup_insert_ne; [done|]. intros <-. congruence.
  - intros id. destruct (decide (id = next_id c)) as [->|]; [lia|].
    rewrite lookup_insert_ne by done. intros Hs. pose proof (no_fresh _ Hc id Hs). lia.
Qed.

(** [create] enters the object if the name is new; otherwise nothing changes
    for those who open by name. *)
Lemma create_view c name v :
  Named_ok c ->
  view (Named_create name v c).2 =
    match names c !! name with Some _ => view c | None => <[name := v]> (view c) end.
Proof.
  intros Hc. pose proof (fresh_lookup c Hc) as Hf.
  assert (Hold : forall nm id, names c !! nm = Some id -> <[next_id c := v]> (heap c) !! id = heap c !! id).
  { intros nm id Hn. rewrite lookup_insert_ne; [done|]. intros <-.
    destruct (no_heap _ Hc _ _ Hn). congruence. }
  unfold view. simpl. unfold map_insert. apply map_eq. intros nm.
  destruct (names c !! name) as [id0|] eqn:E.
  - rewrite !lookup_omap. destruct (names c !! nm) as [id|] eqn:En; simpl; [|done].
    by apply (Hold nm).
  - destruct (decide (nm = name)) as [->|Hne].
    + rewrite lookup_omap, !lookup_insert_eq. simpl. apply lookup_insert_eq.
    + rewrite lookup_omap, !lookup_insert_ne, lookup_omap by done.
      destruct (names c !! nm) as [id|] eqn:En; simpl; [|done]. by apply (Hold nm).
Qed.

Lemma remove_ok c name : Named_ok c -> Named_ok (Named_remove name c).
Proof.
  intros Hc. split; simpl; [|apply (no_fresh _ Hc)]. intros nm id.
  rewrite lookup_delete_Some. intros [_ Hn]. by apply (no_heap _ Hc nm).
Qed.

Lemma remove_view c name : view (Named_remove name c) = delete name (view c).
Proof. unfold view. simpl. by rewrite omap_delete. Qed.

Lemma rename_spec c msg oldName newName v :
  Named_ok c -> view c !! oldName = Some v ->
  exists c', Named_rename msg oldName newName c = Ok c' /\ Named_ok c' /\
    view c' = match delete oldName (names c) !! newName with
              | Some _ => delete oldName (view c)
              | None => <[newName := v]> (delete oldName (view c))
              end.
Proof.
  intros Hc Hv. apply view_lookup in Hv as (id & Hn & Hid).
  unfold Named_rename, Named_open. rewrite Hn. simpl. eexists. split; [reflexivity|].
  unfold map_insert. destruct (delete oldName (names c) !! newName) as [id'|] eqn:E.
  - split; [apply (remove_ok c oldName Hc)|]. apply (remove_view c oldName).
  - split; [split; simpl; [|apply (no_fresh _ Hc)]|].
    + intros nm i. destruct (decide (nm = newName)) as [->|].
      * rewrite lookup_insert_eq. intros [= <-]. eauto.
      * rewrite lookup_insert_ne, lookup_delete_Some by done. intros [_ Hi]. by apply (no_heap _ Hc nm).
    + unfold view. simpl. by rewrite (omap_insert_Some _ _ _ _ v), omap_delete.
Qed.

Lemma exists_view c name :
  Named_ok c -> Named_exists name c = true <-> is_Some (view c !! name).
Proof.
  intros Hc. unfold Named_exists. rewrite bool_decide_eq_true. split.
  - intros [id Hn]. destruct (no_heap _ Hc _ _ Hn) as [v Hv]. exists v. apply view_lookup. eauto.
  - intros [v (id & Hn & _)%view_lookup]. eauto.
Qed.

Lemma list_elem c name : name ∈ Named_list c <-> is_Some (names c !! name).
Proof.
  unfold Named_list. rewrite merge_sort_Permutation, list_elem_of_fmap. split.
  - intros ([nm id] & -> & Hin%elem_of_map_to_list). eauto.
  - intros [id Hid]. exists (name, id). split; [done|]. by apply elem_of_map_to_list.
Qed.
End Named.

(** * Attribute *)

Section Attribute.
(** The values of all data types, and what value-initialised elements hold. *)
Context {A : Type} (init : A).

Record Attribute := {
  att_dimensions_ : list nat;
  att_dtype_ : OType;
  attr_data_ : VarAttrStore A
}.

(** The product of dimension sizes, in [std::size_t]. *)
Definition size_product (dims : list Z) : Z := foldl (fun n d => u64 (n * u64 d)) 1%Z dims.

Definition Attribute_new (dimensions : list nat) (dtype : OType) : res Attribute :=
  '(_, num_elements) ← createVarAttrStore dtype;
  let numElements := size_product (map Z.of_nat dimensions) in
  Ok {| att_dimensions_ := dimensions; att_dtype_ := dtype;
        attr_data_ := store_resize (Z.to_nat numElements) init
          {| var_attr_data_ := []; num_elements_ := num_elements |} |}.

Definition Attribute_isOfType (dtype : OType) (a : Attribute) : bool :=
  Type_eqb dtype (att_dtype_ a).

Definition Attribute_write (data : list A) (dtype : OType) (a : Attribute) : res Attribute :=
  if Type_neqb dtype (att_dtype_ a) then
    Throw (EException "Requested data type not equal to storage datatype.")
  else
    let npoints := size_product (map Z.of_nat (att_dimensions_ a)) in
    m_select ← Selection_all 0 npoints;
    f_select ← Selection_all 0 npoints;
    st ← store_write (Z.to_nat npoints) data m_select f_select (attr_data_ a);
    Ok {| att_dimensions_ := att_dimensions_ a; att_dtype_ := att_dtype_ a; attr_data_ := st |}.

Definition Attribute_read (data : list A) (dtype : OType) (a : Attribute) : res (list A) :=
  if Type_neqb dtype (att_dtype_ a) then
    Throw (EException "Requested data type not equal to storage datatype")
  else
    let npoints := size_product (map Z.of_nat (att_dimensions_ a)) in
    m_select ← Selection_all 0 npoints;
    f_select ← Selection_all 0 npoints;
    store_read (Z.to_nat npoints) data m_select f_select (attr_data_ a).

(** * Has_Attributes *)

Definition Has_Attributes : Type := Named Attribute.

Definition Has_Attributes_create (name : string) (dtype : OType) (dims : list nat)
    (c : Has_Attributes) : res (nat * Has_Attributes) :=
  att ← Attribute_new dims dtype; Ok (Named_create name att c).
Definition Has_Attributes_open (name : string) (c : Has_Attributes) : res nat :=
  Named_open "Attribute not found." name c.
Definition Has_Attributes_exists (name : string) (c : Has_Attributes) : bool := Named_exists name c.
Definition Has_Attributes_remove (name : string) (c : Has_Attributes) : Has_Attributes :=
  Named_remove name c.
Definition Has_Attributes_rename (oldName newName : string) (c : Has_Attributes)
  : res Has_Attributes := Named_rename "Attribute not found." oldName newName c.
Definition Has_Attributes_list (c : Has_Attributes) : list string := Named_list c.

(** An operation on the attribute an [open] returned. *)
Definition Has_Attributes_update (id : nat) (f : Attribute -> res Attribute) (c : Has_Attributes)
  : res Has_Attributes :=
  match heap c !! id with
  | Some a => a' ← f a; Ok {| names := names c; heap := <[id := a']> (heap c); next_id := next_id c |}
  | None => Throw EUndefined
  end.

(** An attribute whose storage has its dimensions' size. *)
Record Attribute_ok (a : Attribute) : Prop := {
  ao_points : (prodZ (map Z.of_nat (att_dimensions_ a)) < 2 ^ 31)%Z;
  ao_bytes : (prodZ (map Z.of_nat (att_dimensions_ a)) *
              Z.of_nat (num_elements_ (attr_data_ a)) < 2 ^ 64)%Z;
  ao_length : length (var_attr_data_ (attr_data_ a)) =
    Z.to_nat (prodZ (map Z.of_nat (att_dimensions_ a))) * num_elements_ (attr_data_ a)
}.

Lemma size_product_small dims :
  (prodZ (map Z.of_nat dims) < 2 ^ 64)%Z ->
  size_product (map Z.of_nat dims) = prodZ (map Z.of_nat dims) /\ (0 <= prodZ (map Z.of_nat dims))%Z.
Proof.
  intros Hb. assert (0 <= prodZ (map Z.of_nat dims))%Z as H0.
  { clear. unfold prodZ. induction dims; simpl; lia. }
  split; [|done]. unfold size_product. change 1%Z with (u64 1%Z). rewrite foldl_u64_prod, Z.mul_1_l.
  apply u64_small. lia.
Qed.

Lemma Attribute_new_ok dims dtype a :
  Attribute_new dims dtype = Ok a -> (prodZ (map Z.of_nat dims) < 2 ^ 31)%Z ->
  (prodZ (map Z.of_nat dims) * Z.of_nat (ty_num_elements dtype) < 2 ^ 64)%Z ->
  Attribute_ok a /\ att_dimensions_ a = dims /\ att_dtype_ a = dtype /\
  num_elements_ (attr_data_ a) = ty_num_elements dtype.
Proof.
  unfold Attribute_new. intros Ha Hp Hb. apply res_bind_Ok in Ha as ([t n] & Hc & Ha). inv_res.
  assert (n = ty_num_elements dtype) as ->.
  { unfold createVarAttrStore in Hc. apply res_bind_Ok in Hc as (b & _ & Hc).
    by destruct b; inv_res. }
  destruct (size_product_small dims) as [E H0]; [lia|]. split; [split; simpl; try done|done].
  rewrite E. unfold vec_resize. rewrite length_app, length_take, length_replicate. simpl. lia.
Qed.

Lemma Attribute_write_read a data buf :
  Attribute_ok a -> length data = length (var_attr_data_ (attr_data_ a)) ->
  length buf = length (var_attr_data_ (attr_data_ a)) ->
  exists a', Attribute_write data (att_dtype_ a) a = Ok a' /\ Attribute_ok a' /\
    att_dtype_ a' = att_dtype_ a /\
    Attribute_read buf (att_dtype_ a) a' = Ok data.
Proof.
  intros Ha Hd Hb. pose proof (ao_points _ Ha) as Hp. pose proof (ao_bytes _ Ha) as Hby.
  destruct (size_product_small (att_dimensions_ a)) as [E H0]; [lia|].
  set (N := Z.to_nat (prodZ (map Z.of_nat (att_dimensions_ a)))).
  assert (prodZ (map Z.of_nat (att_dimensions_ a)) = Z.of_nat N) as EN by lia.
  destruct (all_selects N (num_elements_ (attr_data_ a))) as (s & Hs & Ss); [lia..|].
  rewrite (ao_length _ Ha) in Hd, Hb. fold N in Hd, Hb.
  destruct (store_write_read_all (attr_data_ a) data buf s N Ss Hd Hb) as (st' & Hw & Hn & Hl & Hr).
  { by rewrite (ao_length _ Ha). }
  unfold Attribute_write, Attribute_read.
  assert (Type_neqb (att_dtype_ a) (att_dtype_ a) = false) as ->
    by (unfold Type_neqb; by rewrite (proj2 (Type_eqb_eq _ _) eq_refl)).
  rewrite E, EN, Hs. cbn [mbind res_bind]. rewrite Nat2Z.id, Hw. cbn [mbind res_bind].
  eexists. split; [reflexivity|]. split; [|split; [done|]].
  - split; simpl; rewrite ?Hn; done.
  - simpl. unfold Type_neqb. rewrite (proj2 (Type_eqb_eq _ _) eq_refl). cbn [negb].
    rewrite E, EN, Hs. cbn [mbind res_bind]. by rewrite Nat2Z.id, Hr.
Qed.
End Attribute.
Arguments Attribute : clear implicits.
Arguments Has_Attributes : clear implicits.

(** * Properties *)

(** An attribute created under a new name of a container is found by that
    name; writing a buffer of its size through the object found and reading it
    back, into any buffer of that size, gives the data written; the attributes
    of all other names are unchanged. *)
Theorem attribute_create_write_read {A} (init : A) (c : Has_Attributes A) name dtype dims id c' data buf :
  Named_ok c -> Has_Attributes_exists name c = false ->
  Has_Attributes_create init name dtype dims c = Ok (id, c') ->
  (prodZ (map Z.of_nat dims) < 2 ^ 31)%Z ->
  (prodZ (map Z.of_nat dims) * Z.of_nat (ty_num_elements dtype) < 2 ^ 64)%Z ->
  length data = Z.to_nat (prodZ (map Z.of_nat dims)) * ty_num_elements dtype ->
  length buf = length data ->
  Has_Attributes_open name c' = Ok id /\
  exists c'' a, Has_Attributes_update id (Attribute_write data dtype) c' = Ok c'' /\
    view c'' !! name = Some a /\ Attribute_read buf dtype a = Ok data /\
    forall other, other <> name -> view c'' !! other = view c !! other.
Proof.
  intros Hc Hex Hcr Hp Hb Hd Hbuf. unfold Has_Attributes_exists, Named_exists in Hex.
  apply bool_decide_eq_false in Hex. rewrite <- eq_None_not_Some in Hex.
  unfold Has_Attributes_create in Hcr. apply res_bind_Ok in Hcr as (a & Ha & Hcr). inv_res.
  destruct (Attribute_new_ok init dims dtype a Ha Hp Hb) as (Hok & Hdims & Hty & Hn).
  pose proof (create_view c name a Hc) as Hview. rewrite Hex in Hview. simpl in Hview.
  destruct (Attribute_write_read a data buf Hok) as (a' & Hw & _ & _ & Hr).
  { rewrite (ao_length _ Hok), Hn, Hdims. done. }
  { rewrite Hbuf, (ao_length _ Hok), Hn, Hdims. done. }
  rewrite Hty in Hw, Hr.
  assert (map_insert (names c) name (next_id c) = <[name := next_id c]> (names c)) as Hins
    by (unfold map_insert; by rewrite Hex).
  split; [unfold Has_Attributes_open, Named_open; simpl; by rewrite Hins, lookup_insert_eq|].
  eexists _, a'. unfold Has_Attributes_update. simpl. rewrite lookup_insert_eq, Hw. simpl.
  split; [reflexivity|]. split_and!.
  - apply view_lookup. exists (next_id c). simpl. by rewrite Hins, !lookup_insert_eq.
  - done.
  - intros other Hne. unfold view. simpl. rewrite Hins, !lookup_omap, lookup_insert_ne by done.
    destruct (names c !! other) as [i|] eqn:E; simpl; [|done].
    assert (i <> next_id c) as Hi.
    { intros ->. destruct (no_heap _ Hc _ _ E). rewrite fresh_lookup in H; done. }
    by rewrite !lookup_insert_ne.
Qed.

Lemma attribute_create_write_read_witness :
  let c : Has_Attributes nat := Named_empty in
  exists id c', Has_Attributes_create 0 "units" (Type_fundamental INT INTEGER 4 true) [3] c = Ok (id, c') /\
  Has_Attributes_open "units" c' = Ok id /\
  exists c'' a,
    Has_Attributes_update id (Attribute_write [7; 8; 9] (Type_fundamental INT INTEGER 4 true)) c' = Ok c'' /\
    view c'' !! "units" = Some a /\
    Attribute_read [0; 0; 0] (Type_fundamental INT INTEGER 4 true) a = Ok [7; 8; 9] /\
    forall other, other <> "units" -> view c'' !! other = view c !! other.
Proof.
  eexists _, _. split; [reflexivity|].
  eapply (attribute_create_write_read 0 Named_empty "units" (Type_fundamental INT INTEGER 4 true) [3]
    _ _ [7; 8; 9] [0; 0; 0]).
  - apply Named_empty_ok.
  - reflexivity.
  - reflexivity.
  - vm_compute. reflexivity.
  - vm_compute. reflexivity.
  - reflexivity.
  - reflexivity.
Defined.

(** Renaming an attribute: under a new name that is free, the attribute is
    found by the new name only; under a name that another attribute has, the
    call succeeds, the other attribute stays and the renamed attribute is under
    no name any more. *)
Theorem attribute_rename_spec {A} (c : Has_Attributes A) oldName newName a :
  Named_ok c -> view c !! oldName = Some a -> oldName <> newName ->
  exists c', Has_Attributes_rename oldName newName c = Ok c' /\ Named_ok c' /\
    view c' = match view c !! newName with
              | None => <[newName := a]> (delete oldName (view c))
              | Some _ => delete oldName (view c)
              end.
Proof.
  intros Hc Ha Hne. destruct (rename_spec c "Attribute not found." oldName newName a Hc Ha)
    as (c' & Hr & Hok & Hv).
  exists c'. split_and!; try done. rewrite Hv, lookup_delete_ne by done.
  destruct (names c !! newName) as [id|] eqn:E.
  - destruct (no_heap _ Hc _ _ E) as [b Hb].
    assert (view c !! newName = Some b) as -> by (apply view_lookup; eauto). done.
  - assert (view c !! newName = None) as ->; [|done].
    unfold view. by rewrite lookup_omap, E.
Qed.

(** Two attributes; renaming the first to the name of the second loses it. *)
Lemma attribute_rename_spec_witness :
  let c : Has_Attributes nat :=
    {| names := {[ "a" := 0; "b" := 1 ]};
       heap := {[ 0 := {| att_dimensions_ := []; att_dtype_ := Type_fundamental INT INTEGER 4 true;
                          attr_data_ := {| var_attr_data_ := [5]; num_elements_ := 1 |} |};
                  1 := {| att_dimensions_ := []; att_dtype_ := Type_fundamental INT INTEGER 4 true;
                          attr_data_ := {| var_attr_data_ := [6]; num_elements_ := 1 |} |} ]};
       next_id := 2 |} in
  exists c', Has_Attributes_rename "a" "b" c = Ok c' /\ Named_ok c' /\ view c' = delete "a" (view c).
Proof.
  intros c. eapply (attribute_rename_spec c "a" "b").
  - split.
    + intros name id. simpl. rewrite lookup_insert_Some, lookup_singleton_Some.
      intros [[_ <-]|[_ [_ <-]]]; eexists; reflexivity.
    + intros id. simpl. destruct (decide (id = 0)) as [->|]; [lia|].
      destruct (decide (id = 1)) as [->|]; [lia|].
      rewrite lookup_insert_ne, lookup_singleton_ne by done. by intros [? ?].
  - reflexivity.
  - done.
Defined.
