(* ===== verification/ObsVariables.v ===== *)
(** Variables of the in-memory store: the class Variable of
    src/src/engines/ioda/src/ioda/Engines/ObsStore/Variables.{hpp,cpp} and the
    transfers of ObsStore_Variable_Backend (ObsStore-variables.cpp). *)
From stdpp Require Import base list gmap strings.
From S2P Require Import Prelude Selection VarAttrStore ObsTypes ObsAttributes.

Section ObsVariable.
Context {A : Type} (init : A).

(** [dim_scales_] points to variables; a null pointer is [None]. *)
Record ObsVariable := {
  dimensions_ : list Z;
  max_dimensions_ : list Z;
  dtype_ : OType;
  fvdata_ : option A;
  var_data_ : VarAttrStore A;
  dim_scales_ : list (option nat);
  is_scale_ : bool;
  scale_name_ : string;
  atts : Has_Attributes A;
  impl_atts : Has_Attributes A
}.

Definition with_data (v : ObsVariable) (dims : list Z) (st : VarAttrStore A) : ObsVariable :=
  {| dimensions_ := dims; max_dimensions_ := max_dimensions_ v; dtype_ := dtype_ v;
     fvdata_ := fvdata_ v; var_data_ := st; dim_scales_ := dim_scales_ v; is_scale_ := is_scale_ v;
     scale_name_ := scale_name_ v; atts := atts v; impl_atts := impl_atts v |}.
Definition with_scales (v : ObsVariable) (scales : list (option nat)) (is_scale : bool)
    (name : string) : ObsVariable :=
  {| dimensions_ := dimensions_ v; max_dimensions_ := max_dimensions_ v; dtype_ := dtype_ v;
     fvdata_ := fvdata_ v; var_data_ := var_data_ v; dim_scales_ := scales; is_scale_ := is_scale;
     scale_name_ := name; atts := atts v; impl_atts := impl_atts v |}.

(** [resize]: the check against the maximum dimensions, ... *)
Definition resize_check (max_dimensions new_dim_sizes : list Z) : res unit :=
  foldM (fun _ '(i, m) =>
      if decide (0 <= m)%Z then
        n ← vec_get new_dim_sizes i;
        if decide (m < n)%Z then Throw (EException "new_dim_sizes exceeds max_dimensions_") else Ok ()
      else Ok ())
    () (imap (fun i m => (i, m)) max_dimensions).

(** ... the element new elements are filled with, ... *)
Definition resize_fill (v : ObsVariable) : res A :=
  if Has_Attributes_exists "_fillValue" (impl_atts v) then
    id ← Has_Attributes_open "_fillValue" (impl_atts v);
    match heap (impl_atts v) !! id with
    | Some a =>
        fvalue ← Attribute_read (replicate (ty_num_elements (dtype_ v)) init) (dtype_ v) a;
        (* fv_span[0] *)
        match fvalue with x :: _ => Ok x | [] => Throw EAssert end
    | None => Throw EUndefined
    end
  else Ok init.

(** ... and the new size. *)
Definition Variable_resize (new_dim_sizes : list Z) (v : ObsVariable) : res ObsVariable :=
  _ ← resize_check (max_dimensions_ v) new_dim_sizes;
  let numElements := size_product new_dim_sizes in
  fill ← resize_fill v;
  Ok (with_data v new_dim_sizes (store_resize (Z.to_nat numElements) fill (var_data_ v))).

(** The constructor; [fvdata] and [fill_value] are the members of the
    VarCreateParams. *)
Definition Variable_new (dimensions max_dimensions : list Z) (dtype : OType) (fvdata : option A)
    (fill_value : list A) : res ObsVariable :=
  '(_, num_elements) ← createVarAttrStore dtype;
  impl ← match fvdata with
    | Some _ =>
        '(id, impl) ← Has_Attributes_create init "_fillValue" dtype [1] Named_empty;
        Has_Attributes_update id (Attribute_write fill_value dtype) impl
    | None => Ok Named_empty
    end;
  v ← Variable_resize dimensions
    {| dimensions_ := dimensions; max_dimensions_ := max_dimensions; dtype_ := dtype;
       fvdata_ := fvdata; var_data_ := {| var_attr_data_ := []; num_elements_ := num_elements |};
       dim_scales_ := []; is_scale_ := false; scale_name_ := ""; atts := Named_empty;
       impl_atts := impl |};
  Ok (with_scales v (replicate (length dimensions) None) false "").

Definition isOfType (dtype : OType) (v : ObsVariable) : bool := Type_eqb dtype (dtype_ v).
Definition hasFillValue (v : ObsVariable) : bool := bool_decide (is_Some (fvdata_ v)).

Definition attachDimensionScale (dim_number : nat) (scale : nat) (v : ObsVariable) : res ObsVariable :=
  scales ← vec_set (dim_scales_ v) dim_number (Some scale);
  Ok (with_scales v scales (is_scale_ v) (scale_name_ v)).

Definition detachDimensionScale (dim_number : nat) (scale : nat) (v : ObsVariable) : res ObsVariable :=
  s ← vec_get (dim_scales_ v) dim_number;
  if decide (s = Some scale) then
    scales ← vec_set (dim_scales_ v) dim_number None;
    Ok (with_scales v scales (is_scale_ v) (scale_name_ v))
  else Throw (EException "specified scale is not found").

Definition setIsDimensionScale (name : string) (v : ObsVariable) : ObsVariable :=
  with_scales v (dim_scales_ v) true name.

Definition isDimensionScaleAttached (dim_number : nat) (scale : nat) (v : ObsVariable) : res bool :=
  s ← vec_get (dim_scales_ v) dim_number; Ok (bool_decide (s = Some scale)).

Definition Variable_write (fuel : nat) (data : list A) (dtype : OType) (m_select f_select : Selection)
    (v : ObsVariable) : res ObsVariable :=
  if Type_neqb dtype (dtype_ v) then
    Throw (EException "Requested data type not equal to storage datatype")
  else
    st ← store_write fuel data m_select f_select (var_data_ v);
    Ok (with_data v (dimensions_ v) st).

Definition Variable_read (fuel : nat) (data : list A) (dtype : OType) (m_select f_select : Selection)
    (v : ObsVariable) : res (list A) :=
  if Type_neqb dtype (dtype_ v) then
    Throw (EException "Requested data type not equal to storage datatype.")
  else store_read fuel data m_select f_select (var_data_ v).

(** * ObsStore_Variable_Backend *)

(** The dimension sizes of the memory selection. *)
Definition mem_dim_sizes (data : list A) (dtype : OType) (mem_selection : FrontSelection) : list Z :=
  match extent_ mem_selection with
  | [] => [Z.of_nat (length data / ty_num_elements dtype)]
  | ext => ext
  end.

(** [write]: the loop ends within as many steps as the memory selection has
    points. *)
Definition Backend_write (data : list A) (dtype : OType) (mem_selection file_selection : FrontSelection)
    (v : ObsVariable) : res ObsVariable :=
  m_select ← createObsStoreSelection mem_selection (mem_dim_sizes data dtype mem_selection);
  f_select ← createObsStoreSelection file_selection (dimensions_ v);
  if decide (npoints f_select < npoints m_select)%Z then
    Throw (EException "Number of points from memory is greater than that of file")
  else Variable_write (Z.to_nat (npoints m_select)) data dtype m_select f_select v.

Definition Backend_read (data : list A) (dtype : OType) (mem_selection file_selection : FrontSelection)
    (v : ObsVariable) : res (list A) :=
  m_select ← createObsStoreSelection mem_selection (mem_dim_sizes data dtype mem_selection);
  f_select ← createObsStoreSelection file_selection (dimensions_ v);
  if decide (npoints f_select < npoints m_select)%Z then
    Throw (EException "Number of points from file is greater than that of memory")
  else Variable_read (Z.to_nat (npoints m_select)) data dtype m_select f_select v.

(** * Invariant *)

(** The storage has the size of the dimensions, which are within their maxima. *)
Record Variable_ok (v : ObsVariable) : Prop := {
  vo_length : length (var_attr_data_ (var_data_ v)) =
    Z.to_nat (size_product (dimensions_ v)) * num_elements_ (var_data_ v);
  vo_elements : num_elements_ (var_data_ v) = ty_num_elements (dtype_ v);
  vo_max : forall i m n, max_dimensions_ v !! i = Some m -> dimensions_ v !! i = Some n ->
    (0 <= m)%Z -> (n <= m)%Z
}.

Lemma resize_check_Ok max_dims new_dims u :
  resize_check max_dims new_dims = Ok u ->
  forall i m n, max_dims !! i = Some m -> new_dims !! i = Some n -> (0 <= m -> n <= m)%Z.
Proof.
  unfold resize_check. intros Hc.
  cut (forall k rest u, foldM (fun _ '(i, m) =>
      if decide (0 <= m)%Z then
        n ← vec_get new_dims i;
        if decide (m < n)%Z then Throw (EException "new_dim_sizes exceeds max_dimensions_") else Ok ()
      else Ok ()) u (imap (fun i m => (k + i, m)) rest) = Ok () ->
    forall i m n, rest !! i = Some m -> new_dims !! (k + i) = Some n -> (0 <= m -> n <= m)%Z).
  { intros Hcut. destruct u. by apply (Hcut 0 max_dims ()). }
  clear Hc max_dims. intros k rest. revert k. induction rest as [|m0 rest IH]; intros k u' Hf i m n Hi Hn Hm; [done|].
  rewrite imap_cons in Hf. cbn [foldM] in Hf. apply res_bind_Ok in Hf as ([] & H0 & Hf).
  destruct i as [|i]; simplify_eq/=.
  - rewrite decide_True in H0 by done. rewrite Nat.add_0_r in *. rewrite (vec_get_Some _ _ _ Hn) in H0.
    simpl in H0. case_decide; [done|lia].
  - rewrite (imap_ext _ (fun i m => (S k + i, m))) in Hf by (intros; simpl; f_equal; lia).
    eapply (IH (S k)); eauto. by replace (S k + i) with (k + S i) by lia.
Qed.

Lemma Variable_resize_ok v new_dims v' :
  num_elements_ (var_data_ v) = ty_num_elements (dtype_ v) ->
  Variable_resize new_dims v = Ok v' -> Variable_ok v' /\ dimensions_ v' = new_dims.
Proof.
  unfold Variable_resize. intros Hn Hr. apply res_bind_Ok in Hr as (u & Hc & Hr).
  apply res_bind_Ok in Hr as (fill & Hfill & Hr). inv_res. split; [|done]. split; simpl.
  - unfold vec_resize. rewrite length_app, length_take, length_replicate. lia.
  - done.
  - by eapply resize_check_Ok.
Qed.
End ObsVariable.
Arguments ObsVariable : clear implicits.

(** * Resizing *)

Section resize_proofs.
Context {A : Type} (init : A).

Lemma size_product_cons d rest :
  (0 <= d)%Z -> Forall (fun n => 0 <= n)%Z rest -> (d * prodZ rest < 2 ^ 64)%Z ->
  size_product (d :: rest) = (d * prodZ rest)%Z /\ (0 <= prodZ rest)%Z.
Proof.
  intros Hd Hr Hb. assert (0 <= prodZ rest)%Z as H0
    by (clear -Hr; unfold prodZ; induction Hr; simpl; lia).
  split; [|done]. unfold size_product. change 1%Z with (u64 1%Z).
  rewrite foldl_u64_prod, Z.mul_1_l. apply u64_small. change (prodZ (d :: rest)) with (d * prodZ rest)%Z. lia.
Qed.

Lemma vec_resize_lookup (n : nat) (x : A) l j :
  j < n -> vec_resize n x l !! j = if decide (j < length l) then l !! j else Some x.
Proof.
  intros Hj. unfold vec_resize. case_decide as Hd.
  - rewrite lookup_app_l by (rewrite length_take; lia). by rewrite lookup_take_lt by lia.
  - rewrite lookup_app_r by (rewrite length_take; lia). apply lookup_replicate_2.
    rewrite length_take. lia.
Qed.

(** What [resize] does to the storage. *)
Lemma resize_lookup (v v' : ObsVariable A) new_dims fill j :
  Variable_resize init new_dims v = Ok v' -> resize_fill init v = Ok fill ->
  j < Z.to_nat (size_product new_dims) * num_elements_ (var_data_ v) ->
  var_attr_data_ (var_data_ v') !! j =
    if decide (j < length (var_attr_data_ (var_data_ v))) then var_attr_data_ (var_data_ v) !! j
    else Some fill.
Proof.
  unfold Variable_resize. intros Hr Hf Hj. apply res_bind_Ok in Hr as (u & Hc & Hr). rewrite Hf in Hr.
  cbn [mbind res_bind] in Hr. inv_res. simpl. by apply vec_resize_lookup.
Qed.
End resize_proofs.

(** Resizing a variable along its first dimension (the way locations are
    appended): the invariant is kept, every row that both shapes have keeps its
    data, and the new rows are filled with the fill value. *)
Theorem resize_first_dimension {A} (init : A) (v v' : ObsVariable A) (d0 d0' : Z) (rest : list Z) fill :
  Variable_ok v -> dimensions_ v = d0 :: rest ->
  (0 <= d0)%Z -> (0 <= d0')%Z -> Forall (fun n => 0 <= n)%Z rest ->
  (d0 * prodZ rest < 2 ^ 64)%Z -> (d0' * prodZ rest < 2 ^ 64)%Z ->
  resize_fill init v = Ok fill -> Variable_resize init (d0' :: rest) v = Ok v' ->
  let n := num_elements_ (var_data_ v) in let row := Z.to_nat (prodZ rest) * n in
  Variable_ok v' /\ dimensions_ v' = d0' :: rest /\
  forall i k, i < Z.to_nat d0' -> k < row ->
    var_attr_data_ (var_data_ v') !! (i * row + k) =
      if decide (i < Z.to_nat d0) then var_attr_data_ (var_data_ v) !! (i * row + k) else Some fill.
Proof.
  intros Hv Hd H0 H0' Hr Hb Hb' Hf Hres n row.
  destruct (Variable_resize_ok init v _ v' (vo_elements _ Hv) Hres) as [Hok Hdims].
  destruct (size_product_cons d0 rest H0 Hr Hb) as [E Hp].
  destruct (size_product_cons d0' rest H0' Hr Hb') as [E' _].
  split_and!; try done. intros i k Hi Hk.
  rewrite (resize_lookup init v v' _ fill) by (done || (rewrite E', Z2Nat.inj_mul by lia; unfold row in *; nia)).
  assert (length (var_attr_data_ (var_data_ v)) = Z.to_nat d0 * row) as El.
  { rewrite (vo_length _ Hv), Hd, E, Z2Nat.inj_mul by lia. unfold row. lia. }
  rewrite El. destruct (decide (i < Z.to_nat d0)) as [Hlt|Hge].
  - rewrite decide_True by nia. done.
  - rewrite decide_False by nia. done.
Qed.

(** An int variable with one location of three channels, and unlimited
    locations. *)
Definition example_variable : res (ObsVariable nat) :=
  v ← Variable_new 0 [1; 3]%Z [-1; 3]%Z (Type_fundamental INT INTEGER 4 true) (Some 99) [99];
  Backend_write [7; 8; 9] (Type_fundamental INT INTEGER 4 true)
    {| default_ := StateALL; actions_ := []; extent_ := [] |}
    {| default_ := StateALL; actions_ := []; extent_ := [] |} v.

Lemma resize_first_dimension_witness :
  exists v v', example_variable = Ok v /\ Variable_resize 0 [2; 3]%Z v = Ok v' /\
    Variable_ok v' /\
    var_attr_data_ (var_data_ v') !! 2 = Some 9 /\ var_attr_data_ (var_data_ v') !! 4 = Some 99.
Proof.
  destruct example_variable as [v|] eqn:Ev; [|discriminate Ev].
  destruct (Variable_resize 0 [2; 3]%Z v) as [v'|] eqn:Er;
    [|vm_compute in Ev; injection Ev as <-; discriminate Er].
  vm_compute in Ev. injection Ev as <-.
  eexists _, v'. split; [reflexivity|]. split; [exact Er|].
  match type of Er with Variable_resize _ _ ?v = _ =>
    destruct (resize_first_dimension 0 v v' 1 2 [3]%Z 99) as (Hok & _ & Hrow);
      [| | | | | | | |exact Er|] end.
  - split; [reflexivity|reflexivity|]. intros [|[|i]] m n Hm Hn Hp; simplify_eq/=; lia.
  - reflexivity.
  - lia.
  - lia.
  - repeat constructor; lia.
  - vm_compute. reflexivity.
  - vm_compute. reflexivity.
  - reflexivity.
  - split; [exact Hok|]. split.
    + apply (Hrow 0 2); simpl; lia.
    + apply (Hrow 1 1); simpl; lia.
Defined.

(** A new size above the maximum of a dimension is refused, whichever the
    dimension. *)
Theorem resize_exceeds_max {A} (init : A) (v : ObsVariable A) new_dims i m n :
  length new_dims = length (max_dimensions_ v) ->
  max_dimensions_ v !! i = Some m -> new_dims !! i = Some n -> (0 <= m < n)%Z ->
  Variable_resize init new_dims v = Throw (EException "new_dim_sizes exceeds max_dimensions_").
Proof.
  intros Hl Hm Hn Hmn. unfold Variable_resize.
  destruct (resize_check (max_dimensions_ v) new_dims) as [u|e] eqn:E.
  - pose proof (resize_check_Ok _ _ _ E i m n Hm Hn). lia.
  - cut (e = EException "new_dim_sizes exceeds max_dimensions_"); [by intros ->|].
    clear -E Hl. unfold resize_check in E.
    cut (forall k rest u, k + length rest = length new_dims ->
      foldM (fun _ '(i, m) =>
        if decide (0 <= m)%Z then
          n ← vec_get new_dims i;
          if decide (m < n)%Z then Throw (EException "new_dim_sizes exceeds max_dimensions_") else Ok ()
        else Ok ()) u (imap (fun i m => (k + i, m)) rest) = Throw e ->
      e = EException "new_dim_sizes exceeds max_dimensions_").
    { intros Hcut. by apply (Hcut 0 (max_dimensions_ v) ()). }
    clear E Hl. intros k rest. revert k. induction rest as [|m0 rest IH]; intros k u Hl Hf; [done|].
    simpl in Hl. rewrite imap_cons in Hf. cbn [foldM] in Hf. rewrite Nat.add_0_r in Hf.
    destruct (lookup_lt_is_Some_2 new_dims k) as [n Hn]; [lia|].
    rewrite (vec_get_Some _ _ _ Hn) in Hf. cbn [mbind res_bind] in Hf.
    rewrite (imap_ext _ (fun i m => (S k + i, m))) in Hf by (intros; simpl; f_equal; lia).
    repeat case_decide; cbn [mbind res_bind] in Hf; [by inv_res|..]; apply (IH (S k) () ltac:(lia) Hf).
Qed.

Lemma resize_exceeds_max_witness :
  exists v, example_variable = Ok v /\
    Variable_resize 0 [2; 4]%Z v = Throw (EException "new_dim_sizes exceeds max_dimensions_").
Proof.
  destruct example_variable as [v|] eqn:Ev; [|discriminate Ev]. vm_compute in Ev. injection Ev as <-.
  eexists. split; [reflexivity|].
  eapply (resize_exceeds_max 0 _ [2; 4]%Z 1 3%Z 4%Z).
  - reflexivity.
  - reflexivity.
  - reflexivity.
  - lia.
Defined.

(** Resizing changes only the length of the flat storage: when an inner
    dimension changes, the data move to other indices.  The 2 x 2 variable
    (1 2; 3 4) resized to 2 x 3 becomes (1 2 3; 4 0 0). *)
Theorem resize_inner_dimension_moves_data :
  (v ← Variable_new 0 [2; 2]%Z [-1; -1]%Z (Type_fundamental INT INTEGER 4 true) None [];
   v ← Backend_write [1; 2; 3; 4] (Type_fundamental INT INTEGER 4 true)
     {| default_ := StateALL; actions_ := []; extent_ := [] |}
     {| default_ := StateALL; actions_ := []; extent_ := [] |} v;
   v ← Variable_resize 0 [2; 3]%Z v;
   Ok (dimensions_ v, var_attr_data_ (var_data_ v))) = Ok ([2; 3]%Z, [1; 2; 3; 4; 0; 0]).
Proof. vm_compute. reflexivity. Qed.

(** * Creating a variable with a fill value *)

Lemma Variable_new_filled {A} (init : A) dims max_dims dtype t fv x xs :
  createVarAttrStore dtype = Ok (t, ty_num_elements dtype) ->
  length (x :: xs) = ty_num_elements dtype -> (Z.of_nat (ty_num_elements dtype) < 2 ^ 64)%Z ->
  resize_check max_dims dims = Ok () ->
  exists v, Variable_new init dims max_dims dtype (Some fv) (x :: xs) = Ok v /\
    Variable_ok v /\ dimensions_ v = dims /\ dim_scales_ v = replicate (length dims) None /\
    dtype_ v = dtype /\ fvdata_ v = Some fv /\ max_dimensions_ v = max_dims /\
    resize_fill init v = Ok x /\
    forall j, j < length (var_attr_data_ (var_data_ v)) ->
      var_attr_data_ (var_data_ v) !! j = Some x.
Proof.
  intros Hty Hlen Hb Hchk. unfold Variable_new. rewrite Hty. cbn [mbind res_bind].
  unfold Has_Attributes_create.
  destruct (Attribute_new init [1] dtype) as [a|] eqn:Ea;
    [|unfold Attribute_new in Ea; by rewrite Hty in Ea].
  destruct (Attribute_new_ok init [1] dtype a Ea) as (Hok & Hdims & Hdt & Hn);
    [vm_compute; reflexivity|unfold prodZ; simpl; lia|].
  assert (length (var_attr_data_ (attr_data_ a)) = ty_num_elements dtype) as Hal.
  { rewrite (ao_length _ Hok), Hdims, Hn. unfold prodZ. simpl. lia. }
  destruct (Attribute_write_read a (x :: xs) (replicate (ty_num_elements dtype) init) Hok)
    as (a' & Hw & _ & _ & Hr); [by rewrite Hal|by rewrite length_replicate|].
  rewrite Hdt in Hw, Hr. cbn [mbind res_bind].
  unfold Has_Attributes_update, Named_create. cbn [heap next_id names fst snd].
  rewrite lookup_insert_eq, Hw. cbn [mbind res_bind].
  match goal with |- context [Variable_resize init dims ?v] => set (v0 := v) end.
  assert (resize_fill init v0 = Ok x) as Hfill.
  { unfold resize_fill, v0, Has_Attributes_exists, Named_exists, Has_Attributes_open, Named_open. simpl.
    unfold map_insert. rewrite lookup_empty, lookup_insert_eq. simpl.
    rewrite lookup_insert_eq. simpl. by rewrite Hr. }
  destruct (Variable_resize init dims v0) as [v|] eqn:Er;
    [|unfold Variable_resize in Er; rewrite Hfill in Er; simpl in Er; by rewrite Hchk in Er].
  cbn [mbind res_bind]. eexists. split; [reflexivity|].
  destruct (Variable_resize_ok init v0 dims v eq_refl Er) as [Hvok Hvd].
  assert (v = with_data v0 dims (var_data_ v)) as Hv.
  { unfold Variable_resize in Er. rewrite Hfill in Er. repeat res_step. by inv_res. }
  split_and!; try done.
  - destruct Hvok. by split.
  - by rewrite Hv.
  - by rewrite Hv.
  - by rewrite Hv.
  - rewrite Hv. exact Hfill.
  - simpl. intros j Hj. rewrite (vo_length _ Hvok), Hvd in Hj.
    rewrite (resize_lookup init v0 v dims x j Er Hfill).
    + rewrite decide_False by (simpl; lia). done.
    + rewrite (vo_elements _ Hvok) in Hj. rewrite Hv in Hj. exact Hj.
Qed.

(** Without a fill value, the elements are value-initialised. *)
Lemma Variable_new_unfilled {A} (init : A) dims max_dims dtype t :
  createVarAttrStore dtype = Ok (t, ty_num_elements dtype) -> resize_check max_dims dims = Ok () ->
  exists v, Variable_new init dims max_dims dtype None [] = Ok v /\
    Variable_ok v /\ dimensions_ v = dims /\ dim_scales_ v = replicate (length dims) None /\
    dtype_ v = dtype /\ fvdata_ v = None /\ max_dimensions_ v = max_dims /\ resize_fill init v = Ok init.
Proof.
  intros Hty Hchk. unfold Variable_new. rewrite Hty. cbn [mbind res_bind].
  match goal with |- context [Variable_resize init dims ?v] => set (v0 := v) end.
  assert (resize_fill init v0 = Ok init) as Hfill by done.
  destruct (Variable_resize init dims v0) as [v|] eqn:Er;
    [|unfold Variable_resize in Er; rewrite Hfill in Er; simpl in Er; by rewrite Hchk in Er].
  cbn [mbind res_bind]. eexists. split; [reflexivity|].
  destruct (Variable_resize_ok init v0 dims v eq_refl Er) as [Hvok Hvd].
  assert (v = with_data v0 dims (var_data_ v)) as Hv.
  { unfold Variable_resize in Er. rewrite Hfill in Er. repeat res_step. by inv_res. }
  split_and!; try done; try (by rewrite Hv). destruct Hvok. by split.
Qed.

(** A variable created with a fill value: the value is stored as an
    attribute and read back when the storage is sized, so that every element of
    the new variable is the fill value, and later [resize]s use it too. *)
Theorem variable_create_filled {A} (init : A) dims max_dims dtype t fv x xs :
  createVarAttrStore dtype = Ok (t, ty_num_elements dtype) ->
  length (x :: xs) = ty_num_elements dtype -> (Z.of_nat (ty_num_elements dtype) < 2 ^ 64)%Z ->
  resize_check max_dims dims = Ok () ->
  exists v, Variable_new init dims max_dims dtype (Some fv) (x :: xs) = Ok v /\
    Variable_ok v /\ dimensions_ v = dims /\ dim_scales_ v = replicate (length dims) None /\
    resize_fill init v = Ok x /\
    forall j, j < length (var_attr_data_ (var_data_ v)) ->
      var_attr_data_ (var_data_ v) !! j = Some x.
Proof.
  intros Hty Hlen Hb Hchk.
  destruct (Variable_new_filled init dims max_dims dtype t fv x xs Hty Hlen Hb Hchk)
    as (v & Hnew & Hok & Hd & Hs & _ & _ & _ & Hf & Hx). by exists v.
Qed.

Lemma variable_create_filled_witness :
  exists v, Variable_new 0 [2; 3]%Z [-1; 3]%Z (Type_fundamental INT INTEGER 4 true) (Some 99) [99] = Ok v /\
    Variable_ok v /\ dimensions_ v = [2; 3]%Z /\ dim_scales_ v = [None; None] /\
    resize_fill 0 v = Ok 99 /\
    forall j, j < length (var_attr_data_ (var_data_ v)) ->
      var_attr_data_ (var_data_ v) !! j = Some 99.
Proof.
  apply (variable_create_filled 0 [2; 3]%Z [-1; 3]%Z (Type_fundamental INT INTEGER 4 true) INT 99 99 []).
  - reflexivity.
  - reflexivity.
  - simpl. lia.
  - vm_compute. reflexivity.
Defined.

(** * Writing and reading through selections *)

Lemma slab_indices_NoDup sl :
  (0 < sl_block sl)%Z -> (sl_block sl <= sl_stride sl)%Z -> NoDup (slab_indices sl).
Proof.
  intros Hb Hs. unfold slab_indices. apply NoDup_concat_map.
  - apply NoDup_seq.
  - intros i _. apply NoDup_fmap_2_strong; [|apply NoDup_seq]. intros x y _ _. lia.
  - intros i i' x _ _ (j & -> & Hj%elem_of_seq)%list_elem_of_fmap (j' & E & Hj'%elem_of_seq)%list_elem_of_fmap.
    assert (Z.of_nat i = Z.of_nat i'); [|lia].
    destruct (Z.lt_trichotomy (Z.of_nat i) (Z.of_nat i')) as [?|[?|?]]; [exfalso|done|exfalso]; nia.
Qed.

Definition front_all : FrontSelection := {| default_ := StateALL; actions_ := []; extent_ := [] |}.

Definition front_hyperslab (slabs : list Slab) : FrontSelection :=
  {| default_ := StateALL;
     actions_ := [{| start_ := map sl_start slabs; count_ := map sl_count slabs;
                     stride_ := map sl_stride slabs; block_ := map sl_block slabs; points_ := [];
                     dimension_ := 0; dimension_indices_starts_ := [];
                     dimension_indices_counts_ := [] |}];
     extent_ := [] |}.

Section transfer.
Context {A : Type} (v : ObsVariable A) (slabs : list Slab).
Let n := num_elements_ (var_data_ v).
Let fs := nested (map slab_indices slabs) (dimensions_ v) 0.
Context (Hv : Variable_ok v) (Hn : 0 < n) (Hslabs : Forall2 slab_ok slabs (dimensions_ v)).
Context (Hne : slabs <> []) (Hstride : Forall (fun sl => (sl_block sl <= sl_stride sl)%Z) slabs).
Context (Hsize : (prodZ (dimensions_ v) * Z.of_nat n < 2 ^ 64)%Z).
Context (Hpts : (Z.of_nat (length fs) < 2 ^ 31)%Z).

Lemma slabs_range : Forall2 in_range (map slab_indices slabs) (dimensions_ v).
Proof. apply Forall2_fmap_l. eapply Forall2_impl; [exact Hslabs|apply slab_in_range]. Qed.

Lemma dims_prod_bound : (0 < prodZ (dimensions_ v) < 2 ^ 64)%Z.
Proof. pose proof (prodZ_pos _ (sizes_pos _ _ slabs_range)). nia. Qed.

Lemma file_selects :
  exists f, createObsStoreSelection (front_hyperslab slabs) (dimensions_ v) = Ok f /\
    npoints f = Z.of_nat (length fs) /\
    selects f n (Z.to_nat (prodZ (dimensions_ v))) fs.
Proof.
  pose proof dims_prod_bound as Hd.
  assert (Forall (fun sel : list Z => NoDup sel) (map slab_indices slabs)) as Hnd.
  { apply Forall_map, list.Forall_forall. intros sl Hsl. apply slab_indices_NoDup.
    - apply list_elem_of_lookup in Hsl as [i Hi].
      destruct (Forall2_lookup_l _ _ _ _ _ Hslabs Hi) as (m & _ & Hok). apply Hok.
    - rewrite list.Forall_forall in Hstride. auto. }
  destruct (intersect_selects (map slab_indices slabs) (dimensions_ v) n slabs_range)
    as (f & Hf & Hs); [by destruct slabs|done|lia|lia|].
  destruct (intersect_walk (map slab_indices slabs) (dimensions_ v) slabs_range)
    as (f' & Hf' & Hnp & _); [lia|by destruct slabs|]. rewrite Hf in Hf'. inv_res.
  exists f'. split_and!; [|..].
  - unfold front_hyperslab. rewrite create_hyperslab by (simpl; by destruct slabs). simpl.
    rewrite (genDimSelects_hyperslab_ok slabs (dimensions_ v)) by (done || by left). exact Hf.
  - rewrite Hnp. unfold fs in *. rewrite nested_length in Hpts |- * by (by rewrite length_map; eapply Forall2_length).
    apply u64_small. lia.
  - exact Hs.
Qed.

Lemma mem_selects (data : list A) :
  length data = length fs * n ->
  exists m, createObsStoreSelection front_all (mem_dim_sizes data (dtype_ v) front_all) = Ok m /\
    npoints m = Z.of_nat (length fs) /\
    selects m n (length fs) (map Z.of_nat (seq 0 (length fs))).
Proof.
  intros Hd. unfold mem_dim_sizes. simpl. rewrite <- (vo_elements _ Hv). fold n.
  rewrite Hd, Nat.div_mul by lia.
  assert (Z.of_nat (length fs * n) < 2 ^ 64)%Z as Hb.
  { destruct file_selects as (f & _ & _ & Hs). destruct (selects_nat _ _ _ _ Hs) as [Hnd Hr].
    assert (length fs <= Z.to_nat (prodZ (dimensions_ v))); [|nia].
    rewrite <- (length_map Z.to_nat fs).
    etransitivity; [|apply Nat.eq_le_incl, (length_seq (Z.to_nat (prodZ (dimensions_ v))) 0)].
    apply submseteq_length, NoDup_submseteq; [done|]. intros x Hx.
    rewrite list.Forall_forall in Hr. apply elem_of_seq. specialize (Hr x Hx). lia. }
  destruct (all_selects (length fs) n Hpts Hb) as (m & Hm & Hs).
  assert (foldl (fun n d => u64 (n * u64 d)) 1 [Z.of_nat (length fs)] = Z.of_nat (length fs))%Z as Ep.
  { cbn [foldl]. rewrite Z.mul_1_l, (u64_small (Z.of_nat (length fs))) by lia. apply u64_small. lia. }
  exists m. unfold createObsStoreSelection, front_all. cbn [default_ actions_]. rewrite Ep.
  split_and!; try done.
  unfold Selection_all in Hm. apply res_bind_Ok in Hm as (e & _ & Hm). by inv_res.
Qed.
End transfer.

(** C34: End to end: writing a buffer to the part of a variable that a hyperslab
    selects, and reading that part back into a buffer of the same size, both
    succeed and give the data written; the variable keeps its invariant, and its
    elements outside the hyperslab are unchanged. *)
Theorem backend_write_read {A} (v : ObsVariable A) (slabs : list Slab) (data buf : list A) :
  let n := num_elements_ (var_data_ v) in
  let fs := nested (map slab_indices slabs) (dimensions_ v) 0 in
  Variable_ok v -> 0 < n -> Forall2 slab_ok slabs (dimensions_ v) -> slabs <> [] ->
  Forall (fun sl => (sl_block sl <= sl_stride sl)%Z) slabs ->
  (prodZ (dimensions_ v) * Z.of_nat n < 2 ^ 64)%Z -> (Z.of_nat (length fs) < 2 ^ 31)%Z ->
  length data = length fs * n -> length buf = length fs * n ->
  exists v', Backend_write data (dtype_ v) front_all (front_hyperslab slabs) v = Ok v' /\
    Backend_read buf (dtype_ v) front_all (front_hyperslab slabs) v' = Ok data /\
    Variable_ok v' /\
    forall j, (forall fi, fi ∈ fs -> ~ in_datum n j (Z.to_nat fi)) ->
      var_attr_data_ (var_data_ v') !! j = var_attr_data_ (var_data_ v) !! j.
Proof.
  intros n fs Hv Hn Hs Hne Hst Hsz Hpts Hd Hb.
  destruct (file_selects v slabs Hn Hs Hne Hst Hsz Hpts) as (f & Hf & Hnf & Sf).
  destruct (mem_selects v slabs Hv Hn Hs Hne Hst Hsz Hpts data Hd) as (m & Hm & Hnm & Sm).
  assert (mem_dim_sizes buf (dtype_ v) front_all = mem_dim_sizes data (dtype_ v) front_all) as Eb
    by (unfold mem_dim_sizes; simpl; by rewrite Hb, Hd).
  assert (length (map Z.of_nat (seq 0 (length fs))) = length fs) as Hlm
    by by rewrite length_map, length_seq.
  assert (length (var_attr_data_ (var_data_ v)) = Z.to_nat (prodZ (dimensions_ v)) * n) as Hvl.
  { rewrite (vo_length _ Hv). unfold n. f_equal. unfold size_product. change 1%Z with (u64 1%Z).
    rewrite foldl_u64_prod, Z.mul_1_l, u64_small; [done|].
    pose proof (dims_prod_bound v slabs Hn Hs Hsz). lia. }
  destruct (write_read_copies (var_data_ v) data buf m f _ _ _ _ (length fs) Sm Sf)
    as (st' & buf' & Hw & [Hn' Hl'] & Hr & _ & _ & Hall); try done; [by rewrite length_map, length_seq|].
  destruct (write_copies (var_data_ v) data m f _ _ _ _ Sm Sf Hlm Hd Hvl (length fs))
    as (st2 & Hw2 & _ & _ & _ & Hframe); [by rewrite length_map, length_seq|]. rewrite Hw in Hw2. inv_res.
  assert (buf' = data) as ->.
  { apply Hall. intros i Hi. apply list_elem_of_fmap. exists i. split; [done|]. apply elem_of_seq. lia. }
  unfold Backend_write, Backend_read, Variable_write, Variable_read.
  assert (Type_neqb (dtype_ v) (dtype_ v) = false) as Ht
    by (unfold Type_neqb; by rewrite (proj2 (Type_eqb_eq _ _) eq_refl)).
  rewrite Hm, Hf. cbn [mbind res_bind]. rewrite Hnm, Hnf. fold fs. rewrite decide_False by lia.
  rewrite Ht, Nat2Z.id, Hw. cbn [mbind res_bind]. eexists. split; [reflexivity|]. simpl.
  rewrite Eb, Hm, Hf. cbn [mbind res_bind]. rewrite Hnm, Hnf. fold fs. rewrite decide_False by lia.
  rewrite Ht, Nat2Z.id. split_and!; [exact Hr| |exact Hframe].
  split; simpl.
  - rewrite Hl', Hn'. etransitivity; [symmetry; exact Hvl|apply (vo_length _ Hv)].
  - rewrite Hn'. apply (vo_elements _ Hv).
  - apply (vo_max _ Hv).
Qed.

(** Channels 1 and 2 of both locations of a 2 x 3 variable. *)
Lemma backend_write_read_witness :
  let slabs := [{| sl_start := 0; sl_count := 2; sl_stride := 1; sl_block := 1 |};
                {| sl_start := 1; sl_count := 2; sl_stride := 1; sl_block := 1 |}]%Z in
  let v : ObsVariable nat :=
    {| dimensions_ := [2; 3]%Z; max_dimensions_ := [-1; 3]%Z;
       dtype_ := Type_fundamental INT INTEGER 4 true; fvdata_ := None;
       var_data_ := {| var_attr_data_ := [0; 0; 0; 0; 0; 0]; num_elements_ := 1 |};
       dim_scales_ := [None; None]; is_scale_ := false; scale_name_ := "";
       atts := Named_empty; impl_atts := Named_empty |} in
  exists v', Backend_write [1; 2; 3; 4] (dtype_ v) front_all (front_hyperslab slabs) v = Ok v' /\
    Backend_read [9; 9; 9; 9] (dtype_ v) front_all (front_hyperslab slabs) v' = Ok [1; 2; 3; 4] /\
    Variable_ok v' /\
    forall j, (forall fi, fi ∈ [1; 2; 4; 5]%Z -> ~ in_datum 1 j (Z.to_nat fi)) ->
      var_attr_data_ (var_data_ v') !! j = var_attr_data_ (var_data_ v) !! j.
Proof.
  intros slabs v. apply (backend_write_read v slabs [1; 2; 3; 4] [9; 9; 9; 9]).
  - split; [reflexivity|reflexivity|]. intros [|[|i]] m n Hm Hn Hp; simplify_eq/=; lia.
  - simpl. lia.
  - repeat constructor; simpl; lia.
  - done.
  - repeat constructor; simpl; lia.
  - vm_compute. reflexivity.
  - vm_compute. reflexivity.
  - reflexivity.
  - reflexivity.
Defined.

(** The check of the numbers of points in [read] is the one of [write]: a
    variable with more points than the buffer has room for is not refused (its
    first points are read), and one with fewer points than the buffer is refused
    with the message that it has more. *)
Theorem backend_read_check :
  let v : ObsVariable nat :=
    {| dimensions_ := [2]%Z; max_dimensions_ := [2]%Z;
       dtype_ := Type_fundamental INT INTEGER 4 true; fvdata_ := None;
       var_data_ := {| var_attr_data_ := [5; 6]; num_elements_ := 1 |};
       dim_scales_ := [None]; is_scale_ := false; scale_name_ := "";
       atts := Named_empty; impl_atts := Named_empty |} in
  Backend_read [0] (dtype_ v) front_all front_all v = Ok [5] /\
  Backend_read [0; 0; 0] (dtype_ v) front_all front_all v =
    Throw (EException "Number of points from file is greater than that of memory").
Proof. split; vm_compute; reflexivity. Qed.
