(* ===== verification/ObsGroups.v ===== *)
(** Groups of the in-memory store and the variables reached through them:
    src/src/engines/ioda/src/ioda/Engines/ObsStore/Group.{hpp,cpp} and the class
    Has_Variables of Variables.{hpp,cpp}.

    Groups are shared objects: a store maps identities to groups, a group maps
    names to the identities of its children.  A Has_Variables object has its
    group as [parent_group_], so its variables are a member of the group here. *)
From stdpp Require Import base list gmap strings.
From S2P Require Import Prelude ObsAttributes.
From Stdlib Require Import Ascii.

Definition slash : ascii := "/"%char.

(** [Group::splitFirstLevel]: one piece, or the pieces around the first slash. *)
Fixpoint splitFirstLevel (path : string) : list string :=
  match path with
  | EmptyString => [""]
  | String c rest =>
      if Ascii.eqb c slash then [""; rest]
      else match splitFirstLevel rest with
           | first :: others => String c first :: others
           | [] => []
           end
  end.

(** [Has_Variables::splitGroupVar]: one piece, or the pieces around the last
    slash. *)
Fixpoint splitGroupVar (path : string) : list string :=
  match path with
  | EmptyString => [""]
  | String c rest =>
      match splitGroupVar rest with
      | [group; var] => [String c group; var]
      | _ => if Ascii.eqb c slash then [""; rest] else [path]
      end
  end.

Section Groups.
(** The variables, with the attributes of groups left out. *)
Context {V : Type}.

Record Group := {
  child_groups_ : gmap string nat;
  vars : Named V
}.
Definition Group_new : Group := {| child_groups_ := ∅; vars := Named_empty |}.

Record Store := { groups : gmap nat Group; next_group : nat }.

Definition createRootGroup : nat * Store := (0, {| groups := {[0 := Group_new]}; next_group := 1 |}).

(** [Group::open]; a null pointer is [None].  The recursion is on the rest of
    the path, which is shorter. *)
Fixpoint Group_open_go (fuel : nat) (st : Store) (g : nat) (name : string) (throwIfNotFound : bool)
  : res (option nat) :=
  match fuel with
  | O => Throw EFuel
  | S fuel =>
      match groups st !! g, splitFirstLevel name with
      | Some grp, first :: others =>
          let childGroup := child_groups_ grp !! first in
          childGroup ← match others, childGroup with
            | rest :: _, Some c => Group_open_go fuel st c rest throwIfNotFound
            | _, _ => Ok childGroup
            end;
          match childGroup with
          | None => if throwIfNotFound then Throw (EException "Child group not found") else Ok None
          | Some c => Ok (Some c)
          end
      | _, _ => Throw EUndefined
      end
  end.
Definition Group_open (st : Store) (g : nat) (name : string) (throwIfNotFound : bool)
  : res (option nat) := Group_open_go (S (String.length name)) st g name throwIfNotFound.

Definition Group_exists (st : Store) (g : nat) (name : string) : res bool :=
  childGroup ← Group_open st g name false; Ok (bool_decide (is_Some childGroup)).

(** A new child group. *)
Definition add_child (st : Store) (g : nat) (grp : Group) (name : string) : nat * Store :=
  let c := next_group st in
  (c, {| groups := <[g := {| child_groups_ := map_insert (child_groups_ grp) name c;
                             vars := vars grp |}]>
           (<[c := Group_new]> (groups st));
         next_group := S c |}).

(** "If the child exists grab it, otherwise create it." *)
Definition grab_child (st : Store) (g : nat) (grp : Group) (first : string) : res (nat * Store) :=
  ex ← Group_exists st g first;
  if (ex : bool) then
    c ← Group_open st g first true;
    match c with Some c => Ok (c, st) | None => Throw EUndefined end
  else Ok (add_child st g grp first).

Fixpoint Group_create_go (fuel : nat) (st : Store) (g : nat) (name : string) : res (nat * Store) :=
  match fuel with
  | O => Throw EFuel
  | S fuel =>
      match groups st !! g, splitFirstLevel name with
      | Some grp, first :: others =>
          '(c, st) ← grab_child st g grp first;
          match others with
          | rest :: _ => Group_create_go fuel st c rest
          | [] => Ok (c, st)
          end
      | _, _ => Throw EUndefined
      end
  end.
Definition Group_create (st : Store) (g : nat) (name : string) : res (nat * Store) :=
  Group_create_go (S (String.length name)) st g name.

Definition Group_list (st : Store) (g : nat) : list string :=
  match groups st !! g with
  | Some grp => Named_list {| names := child_groups_ grp; heap := (∅ : gmap nat V); next_id := 0 |}
  | None => []
  end.

(** [Group::listObjects].  [res] holds the two lists of the result map: none
    before the entry exists. *)
Inductive ObjectType := Ignored | OGroup | OVariable.
Definition Listing : Type := option (list string) * option (list string).
Definition list_vars (r : Listing) : list string := from_option id [] r.1.
Definition list_groups (r : Listing) : list string := from_option id [] r.2.

Fixpoint listObjects (fuel : nat) (st : Store) (g : nat) (filter : ObjectType) (recurse : bool)
    (r : Listing) (pre : string) : res Listing :=
  match fuel with
  | O => Throw EFuel
  | S fuel =>
      match groups st !! g with
      | None => Throw EUndefined
      | Some grp =>
          let needGroups := match filter with Ignored | OGroup => true | OVariable => recurse end in
          let needVars := match filter with Ignored | OVariable => true | OGroup => false end in
          let r := if needVars
                   then (Some (list_vars r ++ map (String.append pre) (Named_list (vars grp))), r.2)
                   else r in
          if needGroups || recurse then
            let oneLevelChildren := Group_list st g in
            let r := if needGroups
                     then (r.1, Some (list_groups r ++ map (String.append pre) oneLevelChildren))
                     else r in
            if recurse then
              foldM (fun r child =>
                match child_groups_ grp !! child with
                | Some c => listObjects fuel st c filter recurse r (pre +:+ child +:+ "/")
                | None => Throw EOutOfRange
                end) r oneLevelChildren
            else Ok r
          else Ok r
      end
  end.

(** * Has_Variables

    The part of a name after the last slash has no slash, so the recursive
    calls of the code are calls of its last branch. *)

(** The object a name leads to is given by its group and its identity there. *)
Definition on_vars (st : Store) (g : nat) (f : Named V -> res (Named V)) : res Store :=
  match groups st !! g with
  | Some grp =>
      vs ← f (vars grp);
      Ok {| groups := <[g := {| child_groups_ := child_groups_ grp; vars := vs |}]> (groups st);
            next_group := next_group st |}
  | None => Throw EUndefined
  end.

Definition vars_of (st : Store) (g : nat) : res (Named V) :=
  match groups st !! g with Some grp => Ok (vars grp) | None => Throw EUndefined end.

Definition must_open (st : Store) (g : nat) (name : string) : res nat :=
  c ← Group_open st g name true;
  match c with Some c => Ok c | None => Throw EUndefined end.

Definition Vars_create (st : Store) (g : nat) (name : string) (v : V) : res (nat * nat * Store) :=
  '(h, last, st) ← match splitGroupVar name with
    | [group; var] => '(h, st) ← Group_create st g group; Ok (h, var, st)
    | _ => Ok (g, name, st)
    end;
  vs ← vars_of st h;
  st ← on_vars st h (fun vs => Ok (Named_create last v vs).2);
  Ok (h, next_id vs, st).

Definition Vars_open (st : Store) (g : nat) (name : string) : res (nat * nat) :=
  '(h, last) ← match splitGroupVar name with
    | [group; var] => h ← must_open st g group; Ok (h, var)
    | _ => Ok (g, name)
    end;
  vs ← vars_of st h;
  id ← Named_open "Variable not found." last vs;
  Ok (h, id).

Definition Vars_exists (st : Store) (g : nat) (name : string) : res bool :=
  match splitGroupVar name with
  | [group; var] =>
      ex ← Group_exists st g group;
      if (ex : bool) then
        h ← must_open st g group; vs ← vars_of st h; Ok (Named_exists var vs)
      else Ok false
  | _ => vs ← vars_of st g; Ok (Named_exists name vs)
  end.

Definition Vars_remove (st : Store) (g : nat) (name : string) : res Store :=
  '(h, last) ← match splitGroupVar name with
    | [group; var] => h ← must_open st g group; Ok (h, var)
    | _ => Ok (g, name)
    end;
  on_vars st h (fun vs => Ok (Named_remove last vs)).

Definition Vars_rename (st : Store) (g : nat) (oldName newName : string) : res Store :=
  '(h, last) ← match splitGroupVar oldName with
    | [group; var] => h ← must_open st g group; Ok (h, var)
    | _ => Ok (g, oldName)
    end;
  on_vars st h (Named_rename "Variable not found." last newName).

Definition Vars_list (st : Store) (g : nat) : res (list string) :=
  vs ← vars_of st g; Ok (Named_list vs).
End Groups.
Arguments Group : clear implicits.
Arguments Store : clear implicits.

(** * Paths *)

(** All pieces of a path. *)
Fixpoint components (path : string) : list string :=
  match path with
  | EmptyString => [""]
  | String c rest =>
      if Ascii.eqb c slash then "" :: components rest
      else match components rest with
           | first :: others => String c first :: others
           | [] => []
           end
  end.

Lemma components_cons path : exists first others, components path = first :: others.
Proof.
  induction path as [|c rest (first & others & IH)]; simpl; [eauto|].
  rewrite IH. destruct (Ascii.eqb c slash); eauto.
Qed.

(** Repeated splitting gives the components. *)
Lemma splitFirstLevel_components path :
  match splitFirstLevel path with
  | [first] => components path = [first]
  | [first; rest] => components path = first :: components rest /\
      String.length rest < String.length path
  | _ => False
  end.
Proof.
  induction path as [|c path IH]; simpl; [done|].
  destruct (Ascii.eqb c slash); [split; [done|lia]|].
  destruct (splitFirstLevel path) as [|first [|rest [|? ?]]]; try done.
  - by rewrite IH.
  - destruct IH as [-> IH]. split; [done|lia].
Qed.

(** A piece has no slash. *)
Fixpoint no_slash (s : string) : bool :=
  match s with
  | EmptyString => true
  | String c rest => negb (Ascii.eqb c slash) && no_slash rest
  end.

Lemma no_slash_single s : no_slash s = true -> components s = [s] /\ splitFirstLevel s = [s] /\
  splitGroupVar s = [s].
Proof.
  induction s as [|c s IH]; simpl; [done|]. intros [Hc Hs]%andb_true_iff.
  destruct (IH Hs) as (-> & -> & ->). destruct (Ascii.eqb c slash); done.
Qed.

Lemma components_no_slash path s : s ∈ components path -> no_slash s = true.
Proof.
  revert s. induction path as [|c path IH]; simpl; intros s.
  - intros ->%list_elem_of_singleton. done.
  - destruct (Ascii.eqb c slash) eqn:E.
    + intros [->|Hs]%elem_of_cons; auto.
    + destruct (components_cons path) as (first & others & Ec). rewrite Ec in *.
      intros [->|Hs]%elem_of_cons; [|apply IH; by right]. simpl. rewrite E. simpl. apply IH. left.
Qed.

Lemma splitFirstLevel_no_slash path first others :
  splitFirstLevel path = first :: others -> no_slash first = true.
Proof.
  intros E. pose proof (splitFirstLevel_components path) as Hc. rewrite E in Hc.
  apply (components_no_slash path). destruct others as [|rest [|? ?]]; [rewrite Hc; left| |done].
  destruct Hc as [-> _]. left.
Qed.

(** The last split: the components of the group, then the variable. *)
Lemma splitGroupVar_components path :
  match splitGroupVar path with
  | [var] => var = path /\ no_slash path = true
  | [group; var] => components path = components group ++ [var] /\ no_slash var = true
  | _ => False
  end.
Proof.
  induction path as [|c path IH]; simpl; [done|].
  destruct (splitGroupVar path) as [|x [|y [|? ?]]]; try done.
  - destruct IH as [-> Hs]. destruct (Ascii.eqb c slash) eqn:E; simpl.
    + destruct (no_slash_single path Hs) as (-> & _). done.
    + rewrite Hs. done.
  - destruct IH as [-> Hs]. split; [|done]. simpl. destruct (Ascii.eqb c slash); [done|].
    by destruct (components_cons x) as (f & o & ->).
Qed.

Lemma components_inj p q : components p = components q -> p = q.
Proof.
  revert q. induction p as [|c p IH]; intros [|d q]; simpl.
  - done.
  - destruct (components_cons q) as (f & o & ->). by destruct (Ascii.eqb d slash).
  - destruct (components_cons p) as (f & o & ->). by destruct (Ascii.eqb c slash).
  - destruct (Ascii.eqb_spec c slash) as [->|], (Ascii.eqb_spec d slash) as [->|].
    + intros [= E]. f_equal. auto.
    + destruct (components_cons q) as (f & o & ->). done.
    + destruct (components_cons p) as (f & o & ->). done.
    + destruct (components_cons p) as (f & o & Ep), (components_cons q) as (f' & o' & Eq).
      rewrite Ep, Eq. intros [= -> -> ->]. f_equal. apply IH. congruence.
Qed.

(** * The tree of groups *)

Section tree.
Context {V : Type}.

(** The group a list of names leads to. *)
Fixpoint resolve (st : Store V) (g : nat) (path : list string) : option nat :=
  match path with
  | [] => Some g
  | c :: path => grp ← groups st !! g; h ← child_groups_ grp !! c; resolve st h path
  end.

Record Store_ok (st : Store V) (root : nat) : Prop := {
  so_root : is_Some (groups st !! root);
  so_child : forall g grp c h, groups st !! g = Some grp -> child_groups_ grp !! c = Some h ->
    is_Some (groups st !! h) /\ g < h;
  so_fresh : forall g, is_Some (groups st !! g) -> g < next_group st;
  so_tree : forall p q g, resolve st root p = Some g -> resolve st root q = Some g -> p = q;
  so_vars : forall g grp, groups st !! g = Some grp -> Named_ok (vars grp)
}.

Lemma resolve_app st g p q :
  resolve st g (p ++ q) = h ← resolve st g p; resolve st h q.
Proof.
  revert g. induction p as [|c p IH]; intros g; simpl; [done|].
  destruct (groups st !! g) as [grp|]; simpl; [|done].
  destruct (child_groups_ grp !! c); simpl; auto.
Qed.

Lemma resolve_heap st root g p h :
  Store_ok st root -> is_Some (groups st !! g) -> resolve st g p = Some h -> is_Some (groups st !! h).
Proof.
  intros Hst. revert g. induction p as [|c p IH]; intros g Hg Hr; simplify_eq/=; [done|].
  destruct (groups st !! g) as [grp|] eqn:E; simpl in Hr; [|done].
  destruct (child_groups_ grp !! c) as [k|] eqn:Ec; simpl in Hr; [|done].
  eapply IH; [|done]. by eapply (so_child _ _ Hst).
Qed.

Lemma Group_open_go_spec st root g name throw fuel :
  Store_ok st root -> is_Some (groups st !! g) -> String.length name < fuel ->
  Group_open_go fuel st g name throw =
    match resolve st g (components name) with
    | Some h => Ok (Some h)
    | None => if throw then Throw (EException "Child group not found") else Ok None
    end.
Proof.
  intros Hst. revert g name. induction fuel as [|fuel IH]; intros g name Hg Hf; [lia|].
  cbn [Group_open_go]. destruct Hg as [grp Hg]. rewrite Hg.
  pose proof (splitFirstLevel_components name) as Hs.
  destruct (splitFirstLevel name) as [|first [|rest [|? ?]]]; try done.
  - rewrite Hs. simpl. rewrite Hg. simpl.
    destruct (child_groups_ grp !! first) as [c|]; simpl; by destruct throw.
  - destruct Hs as [-> Hlen]. cbn [resolve]. rewrite Hg. cbn [mbind option_bind].
    destruct (child_groups_ grp !! first) as [c|] eqn:Ec; cbn [mbind option_bind res_bind].
    + rewrite IH; [|by eapply (so_child _ _ Hst)|lia].
      destruct (resolve st c (components rest)); [done|]. by destruct throw.
    + by destruct throw.
Qed.

Lemma Group_open_spec st root g name throw :
  Store_ok st root -> is_Some (groups st !! g) ->
  Group_open st g name throw =
    match resolve st g (components name) with
    | Some h => Ok (Some h)
    | None => if throw then Throw (EException "Child group not found") else Ok None
    end.
Proof. intros Hst Hg. unfold Group_open. eapply Group_open_go_spec; eauto. Qed.

(** ** Adding groups *)

Lemma resolve_snoc st g p x :
  resolve st g (p ++ [x]) = h ← resolve st g p; grp ← groups st !! h; child_groups_ grp !! x.
Proof.
  rewrite resolve_app. destruct (resolve st g p) as [h|]; simpl; [|done].
  destruct (groups st !! h) as [grp|]; simpl; [|done]. by destruct (child_groups_ grp !! x).
Qed.

Lemma resolve_prefix st g p q : resolve st g p = None -> resolve st g (p ++ q) = None.
Proof. intros E. by rewrite resolve_app, E. Qed.

Lemma root_Store_ok : Store_ok (@createRootGroup V).2 0.
Proof.
  simpl. split; simpl.
  - rewrite lookup_singleton. eauto.
  - intros g grp c h [_ <-]%lookup_singleton_Some. simpl. by rewrite lookup_empty.
  - intros g [grp [<- _]%lookup_singleton_Some]. lia.
  - intros p q g. destruct p, q; simpl; rewrite ?lookup_singleton; simpl; by rewrite ?lookup_empty.
  - intros g grp [_ <-]%lookup_singleton_Some. apply Named_empty_ok.
Qed.

Section add_child.
Context (st : Store V) (root g : nat) (grp : Group V) (gp : list string) (name : string).
Context (Hst : Store_ok st root) (Hgp : resolve st root gp = Some g)
  (Hg : groups st !! g = Some grp) (Hnew : child_groups_ grp !! name = None).
Local Notation c := (add_child st g grp name).1.
Local Notation st' := (add_child st g grp name).2.

Lemma add_child_fresh : groups st !! next_group st = None /\ g < next_group st.
Proof.
  split; [|apply (so_fresh _ _ Hst); eauto].
  destruct (groups st !! next_group st) eqn:E; [|done].
  pose proof (so_fresh _ _ Hst (next_group st) ltac:(eauto)). lia.
Qed.

Lemma add_child_groups h :
  groups st' !! h =
    if decide (h = g) then Some {| child_groups_ := <[name := c]> (child_groups_ grp); vars := vars grp |}
    else if decide (h = c) then Some Group_new else groups st !! h.
Proof.
  destruct add_child_fresh as [Hf Hlt]. simpl. unfold map_insert. rewrite Hnew.
  destruct (decide (h = g)) as [->|]; [by rewrite lookup_insert_eq|].
  rewrite lookup_insert_ne by done. destruct (decide (h = next_group st)) as [->|].
  - by rewrite lookup_insert_eq.
  - by rewrite lookup_insert_ne.
Qed.

Lemma add_child_resolve p :
  resolve st' root p = if decide (p = gp ++ [name]) then Some c else resolve st root p.
Proof.
  destruct add_child_fresh as [Hf Hlt].
  assert (Hnone : resolve st root (gp ++ [name]) = None).
  { rewrite resolve_snoc, Hgp. simpl. by rewrite Hg. }
  induction p as [|x p IH] using rev_ind.
  - simpl. destruct (decide ([] = gp ++ [name])) as [E|]; [|done]. by apply app_cons_not_nil in E.
  - rewrite resolve_snoc, IH, (resolve_snoc st). clear IH.
    destruct (decide (p = gp ++ [name])) as [->|Hp].
    + cbn [mbind option_bind]. rewrite add_child_groups.
      rewrite (decide_False (P := c = g)) by (simpl; lia). rewrite (decide_True (P := c = c)) by done.
      cbn. rewrite Hnone, lookup_empty. cbn. rewrite decide_False; [done|].
      intros E%(f_equal length). rewrite !length_app in E. simpl in E. lia.
    + destruct (resolve st root p) as [h|] eqn:Ep; cbn [mbind option_bind].
      2:{ rewrite decide_False; [done|]. intros [-> _]%app_inj_tail. congruence. }
      assert (h <> next_group st).
      { intros ->. destruct (resolve_heap _ _ _ _ _ Hst (so_root _ _ Hst) Ep). congruence. }
      rewrite add_child_groups. destruct (decide (h = g)) as [->|Hh].
      * rewrite (so_tree _ _ Hst p gp g Ep Hgp), Hg. cbn.
        destruct (decide (x = name)) as [->|Hx].
        -- by rewrite lookup_insert_eq, decide_True.
        -- rewrite lookup_insert_ne, decide_False by (done || by intros [_ ->]%app_inj_tail). done.
      * rewrite (decide_False (P := h = c)) by done. rewrite decide_False; [done|].
        intros [-> _]%app_inj_tail. congruence.
Qed.

Lemma add_child_ok : Store_ok st' root.
Proof.
  destruct add_child_fresh as [Hf Hlt]. split.
  - rewrite add_child_groups. repeat case_decide; eauto. apply (so_root _ _ Hst).
  - intros k kg x h. rewrite !add_child_groups. simpl.
    assert (Hold : forall h, is_Some (groups st !! h) -> is_Some
      (if decide (h = g) then Some {| child_groups_ := <[name := next_group st]> (child_groups_ grp);
         vars := vars grp |} else if decide (h = next_group st) then Some Group_new else groups st !! h)).
    { intros h' Hh'. repeat case_decide; eauto. }
    destruct (decide (k = g)) as [->|]; [|destruct (decide (k = next_group st)) as [->|]].
    + intros [= <-]. simpl. rewrite lookup_insert_Some. intros [[_ <-]|[_ Hx]].
      * split; [|done]. rewrite decide_False, decide_True by (done || lia). eauto.
      * destruct (so_child _ _ Hst g grp x h Hg Hx). auto.
    + intros [= <-]. simpl. by rewrite lookup_empty.
    + intros Hk Hx. destruct (so_child _ _ Hst k kg x h Hk Hx). auto.
  - intros k Hk. rewrite add_child_groups in Hk. simpl in *.
    destruct (decide (k = g)) as [->|]; [lia|]. destruct (decide (k = next_group st)) as [->|]; [lia|].
    pose proof (so_fresh _ _ Hst k Hk). lia.
  - intros p q h. rewrite !add_child_resolve.
    assert (Hn : forall p, resolve st root p <> Some c).
    { intros p' Hp'. destruct (resolve_heap _ _ _ _ _ Hst (so_root _ _ Hst) Hp') as [? Hc].
      simpl in Hc. congruence. }
    do 2 case_decide; intros; simplify_eq; auto; try (by edestruct Hn). by apply (so_tree _ _ Hst p q h).
  - intros k kg. rewrite add_child_groups. case_decide; [|case_decide].
    + intros [= <-]. apply (so_vars _ _ Hst g grp Hg).
    + intros [= <-]. apply Named_empty_ok.
    + apply (so_vars _ _ Hst).
Qed.
End add_child.

(** What [create] may do to a store: new, empty groups. *)
Definition vars_at (st : Store V) (g : nat) : option (Named V) := vars <$> groups st !! g.

Record extends (st st' : Store V) (root : nat) (new : list string -> Prop) : Prop := {
  ex_ok : Store_ok st' root;
  ex_paths : forall p h, resolve st root p = Some h -> resolve st' root p = Some h;
  ex_fresh : forall p h, resolve st' root p = Some h ->
    resolve st root p = Some h \/ groups st !! h = None;
  ex_new : forall p, is_Some (resolve st' root p) <-> is_Some (resolve st root p) \/ new p;
  ex_vars : forall g, is_Some (groups st !! g) -> vars_at st' g = vars_at st g;
  ex_empty : forall g vs, groups st !! g = None -> vars_at st' g = Some vs -> vs = Named_empty
}.

Lemma extends_trans st1 st2 st3 root new1 new2 :
  extends st1 st2 root new1 -> extends st2 st3 root new2 ->
  extends st1 st3 root (fun p => new1 p \/ new2 p).
Proof.
  intros H1 H2. split.
  - apply H2.
  - intros p h Hp. by apply (ex_paths _ _ _ _ H2), (ex_paths _ _ _ _ H1).
  - intros p h Hp. apply (ex_fresh _ _ _ _ H2) in Hp as [Hp|Hn]; [by apply (ex_fresh _ _ _ _ H1)|].
    right. destruct (groups st1 !! h) as [grp|] eqn:E; [|done].
    pose proof (ex_vars _ _ _ _ H1 h ltac:(eauto)) as Hv. unfold vars_at in Hv. by rewrite Hn, E in Hv.
  - intros p. rewrite (ex_new _ _ _ _ H2), (ex_new _ _ _ _ H1). tauto.
  - intros g Hg. rewrite (ex_vars _ _ _ _ H2), (ex_vars _ _ _ _ H1); [done..|].
    pose proof (ex_vars _ _ _ _ H1 g Hg) as E. unfold vars_at in E. destruct Hg as [grp Hg].
    rewrite Hg in E. destruct (groups st2 !! g); [eauto|done].
  - intros g vs Hg Hv. destruct (groups st2 !! g) as [grp|] eqn:E2.
    + rewrite (ex_vars _ _ _ _ H2) in Hv by eauto. by apply (ex_empty _ _ _ _ H1 g).
    + by apply (ex_empty _ _ _ _ H2 g).
Qed.

Lemma extends_iff st st' root (new new' : list string -> Prop) :
  (forall p, (is_Some (resolve st root p) \/ new p) <-> (is_Some (resolve st root p) \/ new' p)) ->
  extends st st' root new -> extends st st' root new'.
Proof. intros Hn H. destruct H as [H1 H2 H3 H4 H5 H6]. split; try done. intros p. rewrite H4. apply Hn. Qed.

Lemma extends_refl st root : Store_ok st root -> extends st st root (fun _ => False).
Proof.
  intros. split; auto; [tauto|]. intros g vs Hg. unfold vars_at. by rewrite Hg.
Qed.

Lemma add_child_extends st root g grp gp name :
  Store_ok st root -> resolve st root gp = Some g -> groups st !! g = Some grp ->
  child_groups_ grp !! name = None ->
  extends st (add_child st g grp name).2 root (fun p => p = gp ++ [name]).
Proof.
  intros Hst Hgp Hg Hnew. destruct (add_child_fresh st root g grp Hst Hg) as [Hf Hlt]. split.
  - by eapply add_child_ok.
  - intros p h Hp. rewrite (add_child_resolve st root g grp gp name Hst Hgp Hg Hnew), decide_False; [done|].
    intros ->. rewrite resolve_snoc, Hgp in Hp. simpl in Hp. rewrite Hg in Hp. simpl in Hp. congruence.
  - intros p h. rewrite (add_child_resolve st root g grp gp name Hst Hgp Hg Hnew).
    case_decide; [|by left]. intros [= <-]. by right.
  - intros p. rewrite (add_child_resolve st root g grp gp name Hst Hgp Hg Hnew).
    case_decide; naive_solver.
  - intros k Hk. unfold vars_at. rewrite (add_child_groups st root g grp name Hst Hg Hnew).
    case_decide; [subst; by rewrite Hg|]. case_decide; [|done]. subst. simpl in Hk.
    destruct Hk. congruence.
  - intros k vs Hk. unfold vars_at. rewrite (add_child_groups st root g grp name Hst Hg Hnew).
    case_decide; [subst; congruence|]. case_decide; [by intros [= <-]|]. by rewrite Hk.
Qed.

(** The paths [create] goes through: those between [gp] and the whole path. *)
Definition between (gp p q : list string) : Prop :=
  exists r s, q = r ++ s /\ p = gp ++ r.

Lemma grab_child_spec st root g grp gp first :
  Store_ok st root -> resolve st root gp = Some g -> groups st !! g = Some grp ->
  no_slash first = true ->
  exists c st1, grab_child st g grp first = Ok (c, st1) /\
    resolve st1 root (gp ++ [first]) = Some c /\ extends st st1 root (fun p => p = gp ++ [first]).
Proof.
  intros Hst Hgp Hg Hns. destruct (no_slash_single first Hns) as (Hcf & _).
  unfold grab_child, Group_exists.
  rewrite !(Group_open_spec st root g first _ Hst) by eauto. rewrite Hcf. simpl. rewrite Hg. simpl.
  destruct (child_groups_ grp !! first) as [c|] eqn:Ec; simpl.
  - exists c, st. split; [done|]. assert (Hr : resolve st root (gp ++ [first]) = Some c).
    { rewrite resolve_snoc, Hgp. simpl. by rewrite Hg. }
    split; [done|]. eapply extends_iff; [|by apply extends_refl]. naive_solver.
  - pose proof (add_child_resolve st root g grp gp first Hst Hgp Hg Ec (gp ++ [first])) as Hr.
    pose proof (add_child_extends st root g grp gp first Hst Hgp Hg Ec) as He.
    rewrite decide_True in Hr by done. eauto.
Qed.

Lemma between_cons st root g gp first rest p :
  resolve st root gp = Some g ->
  (is_Some (resolve st root p) \/ (p = gp ++ [first] \/ between (gp ++ [first]) p rest)) <->
  (is_Some (resolve st root p) \/ between gp p (first :: rest)).
Proof.
  intros Hgp. split.
  - intros [H|[->|(r & s & -> & ->)]]; [by left| |].
    + right. by exists [first], rest.
    + right. exists (first :: r), s. by rewrite <-app_assoc.
  - intros [H|(r & s & E & ->)]; [by left|]. destruct r as [|x r]; simplify_eq/=.
    + left. rewrite app_nil_r, Hgp. eauto.
    + right. right. exists r, s. by rewrite <-app_assoc.
Qed.

Lemma Group_create_go_spec st root g gp name fuel :
  Store_ok st root -> resolve st root gp = Some g -> String.length name < fuel ->
  exists h st', Group_create_go fuel st g name = Ok (h, st') /\
    resolve st' root (gp ++ components name) = Some h /\
    extends st st' root (fun p => between gp p (components name)).
Proof.
  revert st g gp name. induction fuel as [|fuel IH]; intros st g gp name Hst Hgp Hf; [lia|].
  cbn [Group_create_go].
  destruct (resolve_heap _ _ _ _ _ Hst (so_root _ _ Hst) Hgp) as [grp Hg]. rewrite Hg.
  pose proof (splitFirstLevel_components name) as Hs.
  pose proof (splitFirstLevel_no_slash name) as Hns.
  destruct (splitFirstLevel name) as [|first others] eqn:Esp; [done|].
  destruct (grab_child_spec st root g grp gp first Hst Hgp Hg (Hns _ _ eq_refl))
    as (c & st1 & -> & Hr1 & He1). cbn [mbind res_bind].
  destruct others as [|rest [|? ?]]; [| |done].
  - rewrite Hs. exists c, st1. split; [done|]. split; [done|]. eapply extends_iff; [|done].
    intros p. rewrite <-(between_cons st root g gp first [] p Hgp).
    split; [tauto|]. intros [?|[->|(r & s & E & ->)]]; auto.
    symmetry in E. apply app_nil in E as [-> ->]. rewrite app_nil_r. auto.
  - destruct Hs as [-> Hlen].
    destruct (IH st1 c (gp ++ [first]) rest) as (h & st' & -> & Hr2 & He2); [apply He1|done|lia|].
    exists h, st'. split; [done|]. rewrite <-app_assoc in Hr2. split; [done|].
    eapply extends_iff; [|by eapply extends_trans]. intros p. by eapply between_cons.
Qed.

Lemma Group_create_spec st root g gp name :
  Store_ok st root -> resolve st root gp = Some g ->
  exists h st', Group_create st g name = Ok (h, st') /\
    resolve st' root (gp ++ components name) = Some h /\
    extends st st' root (fun p => between gp p (components name)).
Proof. intros. apply Group_create_go_spec; auto. Qed.

(** ** Variables by path *)

(** The variable that a list of names leads to. *)
Definition lookup_var (st : Store V) (root : nat) (gp : list string) (var : string) : option V :=
  g ← resolve st root gp; grp ← groups st !! g; view (vars grp) !! var.

(** A change of the variables of one group leaves the tree alone. *)
Lemma on_vars_resolve st g f st' root p :
  on_vars st g f = Ok st' -> resolve st' root p = resolve st root p.
Proof.
  unfold on_vars. destruct (groups st !! g) as [grp|] eqn:Hg; [|done].
  destruct (f (vars grp)) as [vs|]; [|done]. intros [= <-].
  revert root. induction p as [|c p IH]; intros root; simpl; [done|].
  destruct (decide (root = g)) as [->|].
  - rewrite lookup_insert_eq, Hg. simpl. destruct (child_groups_ grp !! c); simpl; [|done].
    apply (IH n).
  - rewrite lookup_insert_ne by done. destruct (groups st !! root) as [k|]; simpl; [|done].
    destruct (child_groups_ k !! c); simpl; [|done]. apply (IH n0).
Qed.

Lemma on_vars_ok st root g grp f vs :
  Store_ok st root -> groups st !! g = Some grp -> f (vars grp) = Ok vs -> Named_ok vs ->
  exists st', on_vars st g f = Ok st' /\ Store_ok st' root /\
    (forall p, resolve st' root p = resolve st root p) /\
    (forall k, vars_at st' k = if decide (k = g) then Some vs else vars_at st k).
Proof.
  intros Hst Hg Hf Hvs. destruct (on_vars st g f) as [st'|] eqn:E.
  2:{ unfold on_vars in E. rewrite Hg, Hf in E. done. }
  pose proof (fun p => on_vars_resolve st g f st' root p E) as Hr.
  exists st'. split; [done|]. unfold on_vars in E. rewrite Hg, Hf in E. simpl in E. injection E as <-.
  assert (Hl : forall k, <[g := {| child_groups_ := child_groups_ grp; vars := vs |}]> (groups st) !! k =
    if decide (k = g) then Some {| child_groups_ := child_groups_ grp; vars := vs |} else groups st !! k).
  { intros k. destruct (decide (k = g)) as [->|]; [apply lookup_insert_eq|by apply lookup_insert_ne]. }
  split; [|split; [done|]].
  - split; simpl.
    + rewrite Hl. case_decide; eauto. apply (so_root _ _ Hst).
    + intros k kg c h. rewrite !Hl. intros Hk Hc.
      assert (is_Some (groups st !! h) /\ k < h) as [? ?].
      { destruct (decide (k = g)) as [->|]; [|by eapply (so_child _ _ Hst)]. injection Hk as <-.
        by eapply (so_child _ _ Hst). }
      split; [|done]. rewrite ?Hl. destruct (decide (h = g)); eauto.
    + intros k. rewrite Hl. case_decide; [subst|]; intros Hk; apply (so_fresh _ _ Hst); eauto.
    + intros p q k. rewrite !Hr. apply (so_tree _ _ Hst).
    + intros k kg. rewrite Hl. case_decide; [by intros [= <-]|]. apply (so_vars _ _ Hst).
  - intros k. unfold vars_at. simpl. rewrite Hl. by case_decide.
Qed.

(** The two parts of a name that the code finds by its last slash. *)
Definition group_part (name : string) : list string := removelast (components name).
Definition var_part (name : string) : string := List.last (components name) "".

Lemma removelast_last_snoc (l : list string) x :
  removelast (l ++ [x]) = l /\ List.last (l ++ [x]) "" = x.
Proof. by rewrite removelast_last, last_last. Qed.

Lemma name_parts name :
  components name = group_part name ++ [var_part name] /\ no_slash (var_part name) = true /\
  match splitGroupVar name with
  | [group; var] => group_part name = components group /\ var_part name = var
  | _ => group_part name = [] /\ var_part name = name
  end.
Proof.
  unfold group_part, var_part. pose proof (splitGroupVar_components name) as Hs.
  destruct (splitGroupVar name) as [|x [|y [|? ?]]]; try done; destruct Hs as [E Hs].
  - destruct (no_slash_single name Hs) as (-> & _). done.
  - rewrite E. destruct (removelast_last_snoc (components x) y) as [-> ->]. done.
Qed.

Lemma must_open_spec st root g name :
  Store_ok st root -> is_Some (groups st !! g) ->
  must_open st g name = match resolve st g (components name) with
                        | Some h => Ok h
                        | None => Throw (EException "Child group not found")
                        end.
Proof.
  intros. unfold must_open. rewrite (Group_open_spec st root) by done.
  by destruct (resolve st g (components name)).
Qed.

Lemma Vars_open_spec st root g name :
  Store_ok st root -> is_Some (groups st !! g) ->
  Vars_open st g name =
    match resolve st g (group_part name) with
    | None => Throw (EException "Child group not found")
    | Some h => match vars_at st h with
                | Some vs => id ← Named_open "Variable not found." (var_part name) vs; Ok (h, id)
                | None => Throw EUndefined
                end
    end.
Proof.
  intros Hst Hg. unfold Vars_open, vars_of, vars_at. destruct (name_parts name) as (_ & _ & Hp).
  destruct (splitGroupVar name) as [|x [|y [|? ?]]]; destruct Hp as [-> ->]; simpl;
    try (by destruct (groups st !! g)).
  rewrite (must_open_spec st root) by done. destruct (resolve st g (components x)) as [h|]; simpl; [|done].
  by destruct (groups st !! h).
Qed.

Lemma Vars_exists_spec st root g name :
  Store_ok st root -> is_Some (groups st !! g) ->
  Vars_exists st g name =
    Ok (match resolve st g (group_part name) with
        | None => false
        | Some h => match vars_at st h with Some vs => Named_exists (var_part name) vs | None => false end
        end).
Proof.
  intros Hst Hg. unfold Vars_exists, vars_of, vars_at, Group_exists.
  destruct (name_parts name) as (_ & _ & Hp).
  destruct (splitGroupVar name) as [|x [|y [|? ?]]]; destruct Hp as [-> ->]; simpl;
    try (destruct Hg as [grp ->]; done).
  rewrite (must_open_spec st root), (Group_open_spec st root) by done.
  destruct (resolve st g (components x)) as [h|] eqn:E; simpl; [|done].
  by destruct (resolve_heap _ _ _ _ _ Hst Hg E) as [grp ->].
Qed.

(** The group in which [create] puts the variable. *)
Lemma Vars_create_group st root g gp name (v : V) :
  Store_ok st root -> resolve st root gp = Some g ->
  exists h st1, resolve st1 root (gp ++ group_part name) = Some h /\
    extends st st1 root (fun p => between gp p (group_part name)) /\
    Vars_create st g name v =
      (vs ← vars_of st1 h;
       st ← on_vars st1 h (fun vs => Ok (Named_create (var_part name) v vs).2);
       Ok (h, next_id vs, st)).
Proof.
  intros Hst Hgp. unfold Vars_create. destruct (name_parts name) as (_ & _ & Hp).
  assert (Hplain : group_part name = [] ->
    resolve st root (gp ++ group_part name) = Some g /\
    extends st st root (fun p => between gp p (group_part name))).
  { intros ->. rewrite app_nil_r. split; [done|]. eapply extends_iff; [|by apply extends_refl].
    intros p. split; [tauto|]. intros [?|(r & s & E & ->)]; [by left|]. symmetry in E.
    apply app_nil in E as [-> ->]. rewrite app_nil_r, Hgp. eauto. }
  destruct (splitGroupVar name) as [|x [|y [|? ?]]]; destruct Hp as [Hg Hv];
    try (destruct (Hplain Hg); exists g, st; rewrite Hv; done).
  destruct (Group_create_spec st root g gp x Hst Hgp) as (h & st1 & -> & Hr & He).
  rewrite Hg, Hv. eauto.
Qed.

Lemma lookup_var_vars_at st root gp x :
  lookup_var st root gp x = h ← resolve st root gp; vs ← vars_at st h; view vs !! x.
Proof.
  unfold lookup_var, vars_at. destruct (resolve st root gp) as [h|]; simpl; [|done].
  by destruct (groups st !! h).
Qed.

Lemma extends_lookup_var st st' root new gp x :
  Store_ok st root -> extends st st' root new -> lookup_var st' root gp x = lookup_var st root gp x.
Proof.
  intros Hst He. rewrite !lookup_var_vars_at.
  destruct (resolve st root gp) as [h|] eqn:E.
  - rewrite (ex_paths _ _ _ _ He _ _ E). simpl. rewrite (ex_vars _ _ _ _ He); [done|].
    by eapply resolve_heap; [|apply (so_root _ _ Hst)|].
  - simpl. destruct (resolve st' root gp) as [h|] eqn:E'; simpl; [|done].
    destruct (groups st !! h) as [grp|] eqn:Eh.
    + destruct (ex_fresh _ _ _ _ He _ _ E'); congruence.
    + destruct (vars_at st' h) as [vs|] eqn:Ev; simpl; [|done].
      rewrite (ex_empty _ _ _ _ He h vs Eh Ev). unfold view. simpl. by rewrite lookup_omap, lookup_empty.
Qed.

(** The value of the variable a call returned. *)
Definition object (st : Store V) (o : nat * nat) : option V :=
  vs ← vars_at st o.1; heap vs !! o.2.

Lemma Vars_create_spec st root g gp name (v : V) :
  Store_ok st root -> resolve st root gp = Some g ->
  exists o st', Vars_create st g name v = Ok (o, st') /\ Store_ok st' root /\
    object st' o = Some v /\
    resolve st' root gp = Some g /\
    (lookup_var st root (gp ++ group_part name) (var_part name) = None -> Vars_open st' g name = Ok o) /\
    (forall p, is_Some (resolve st' root p) <->
      is_Some (resolve st root p) \/ between gp p (group_part name)) /\
    (forall p x, lookup_var st' root p x =
      if decide (p = gp ++ group_part name /\ x = var_part name)
      then Some (default v (lookup_var st root p x)) else lookup_var st root p x).
Proof.
  intros Hst Hgp. destruct (Vars_create_group st root g gp name v Hst Hgp) as (h & st1 & Hr & He & ->).
  pose proof (ex_ok _ _ _ _ He) as Hst1.
  destruct (resolve_heap _ _ _ _ _ Hst1 (so_root _ _ Hst1) Hr) as [grp Hh].
  pose proof (so_vars _ _ Hst1 h grp Hh) as Hok.
  destruct (on_vars_ok st1 root h grp (fun vs => Ok (Named_create (var_part name) v vs).2) _ Hst1 Hh eq_refl
    (create_ok _ _ _ Hok)) as (st' & E & Hst' & Hres & Hvs).
  unfold vars_of. rewrite Hh. cbn [mbind res_bind]. rewrite E. cbn [mbind res_bind].
  assert (Hgp' : resolve st' root gp = Some g) by (rewrite Hres; by apply (ex_paths _ _ _ _ He)).
  exists (h, next_id (vars grp)), st'. split; [done|]. split; [done|].
  split; [|split; [done|split; [|split]]].
  - unfold object. rewrite Hvs, decide_True by done. simpl. apply lookup_insert_eq.
  - rewrite <-(extends_lookup_var st st1 root _ _ _ Hst He), lookup_var_vars_at, Hr. cbn [mbind option_bind].
    unfold vars_at. rewrite Hh. cbn [fmap option_fmap option_map mbind option_bind]. intros Hn.
    rewrite (Vars_open_spec st' root) by (done || by eapply resolve_heap; [|apply (so_root _ _ Hst')|]).
    assert (Hr' : resolve st' g (group_part name) = Some h).
    { rewrite <-Hres, resolve_app, Hgp' in Hr. done. }
    rewrite Hr', Hvs, decide_True by done. unfold Named_open. simpl. unfold map_insert.
    destruct (names (vars grp) !! var_part name) as [i|] eqn:En.
    { destruct (no_heap _ Hok _ _ En) as [w Hw].
      assert (view (vars grp) !! var_part name = Some w) by (apply view_lookup; eauto). congruence. }
    by rewrite lookup_insert_eq.
  - intros p. rewrite Hres. apply (ex_new _ _ _ _ He).
  - intros p x. rewrite <-!(extends_lookup_var st st1 root _ p x Hst He), !lookup_var_vars_at, Hres.
    destruct (resolve st1 root p) as [k|] eqn:Ep; simpl.
    2:{ rewrite decide_False; [done|]. intros [-> _]. congruence. }
    rewrite Hvs. destruct (decide (k = h)) as [->|Hk].
    + rewrite (so_tree _ _ Hst1 _ _ _ Ep Hr). unfold vars_at. rewrite Hh. cbn [mbind option_bind fmap option_fmap option_map].
      rewrite create_view by done. pose proof (exists_view (vars grp) (var_part name)) as Hex.
      destruct (decide (x = var_part name)) as [->|Hx].
      * rewrite decide_True by done. destruct (names (vars grp) !! var_part name) as [i|] eqn:En.
        -- destruct (no_heap _ Hok _ _ En) as [w Hw].
           assert (Hv : view (vars grp) !! var_part name = Some w) by (apply view_lookup; eauto).
           by rewrite Hv.
        -- rewrite lookup_insert_eq.
           assert (Hv : view (vars grp) !! var_part name = None) by (unfold view; by rewrite lookup_omap, En).
           by rewrite Hv.
      * rewrite decide_False by naive_solver. destruct (names (vars grp) !! var_part name); [done|].
        by rewrite lookup_insert_ne.
    + rewrite decide_False; [done|]. intros [-> _]. congruence.
Qed.

(** What [lookup_var] says is what [open] finds. *)
Lemma Vars_open_lookup st root g gp name (w : V) :
  Store_ok st root -> resolve st root gp = Some g ->
  lookup_var st root (gp ++ group_part name) (var_part name) = Some w ->
  exists o, Vars_open st g name = Ok o /\ object st o = Some w /\ Vars_exists st g name = Ok true.
Proof.
  intros Hst Hgp. rewrite lookup_var_vars_at, resolve_app, Hgp. cbn [mbind option_bind].
  assert (Hg : is_Some (groups st !! g)) by (by eapply resolve_heap; [|apply (so_root _ _ Hst)|]).
  rewrite (Vars_open_spec st root), (Vars_exists_spec st root) by done.
  destruct (resolve st g (group_part name)) as [h|]; [|done]. cbn [mbind option_bind].
  destruct (vars_at st h) as [vs|] eqn:Ev; [|done]. cbn [mbind option_bind].
  intros (i & Hn & Hi)%view_lookup. exists (h, i). unfold Named_open, Named_exists, object. rewrite Hn.
  cbn. by rewrite Ev.
Qed.

(** ** Listing *)

(** Names that paths can spell. *)
Definition Names_ok (st : Store V) : Prop :=
  forall g grp, groups st !! g = Some grp ->
    (forall c, is_Some (child_groups_ grp !! c) -> no_slash c = true) /\
    (forall x, is_Some (names (vars grp) !! x) -> no_slash x = true).

(** A variable, or a group, below a group. *)
Definition var_below (st : Store V) (g : nat) (n : string) : Prop :=
  exists h vs, resolve st g (group_part n) = Some h /\ vars_at st h = Some vs /\
    is_Some (names vs !! var_part n).
Definition group_below (st : Store V) (g : nat) (n : string) : Prop :=
  is_Some (resolve st g (components n)).

Lemma components_child c n : no_slash c = true -> components (c +:+ "/" +:+ n) = c :: components n.
Proof.
  induction c as [|a c IH]; simpl; [done|]. intros [Ha Hc]%andb_true_iff. rewrite (IH Hc).
  by destruct (Ascii.eqb a slash).
Qed.

Lemma parts_child c n : no_slash c = true ->
  group_part (c +:+ "/" +:+ n) = c :: group_part n /\ var_part (c +:+ "/" +:+ n) = var_part n.
Proof.
  intros Hc. unfold group_part, var_part. rewrite components_child by done.
  destruct (components_cons n) as (f & o & ->). done.
Qed.

Lemma parts_plain n : no_slash n = true -> group_part n = [] /\ var_part n = n.
Proof. intros Hn. unfold group_part, var_part. by destruct (no_slash_single n Hn) as (-> & _). Qed.

(** A name is a piece, or a piece followed by a name. *)
Lemma name_cases n : no_slash n = true \/ exists c m, no_slash c = true /\ n = c +:+ "/" +:+ m.
Proof.
  induction n as [|a n IH]; simpl; [by left|].
  destruct (Ascii.eqb_spec a slash) as [->|Ha].
  - right. by exists "", n.
  - destruct IH as [Hn|(c & m & Hc & ->)]; [left; by rewrite Hn|].
    right. exists (String a c), m. simpl. rewrite Hc. split; [|done].
    by destruct (Ascii.eqb_spec a slash).
Qed.

Lemma var_below_cases st g grp n :
  Names_ok st -> groups st !! g = Some grp ->
  var_below st g n <-> is_Some (names (vars grp) !! n) \/
    exists c h m, child_groups_ grp !! c = Some h /\ n = c +:+ "/" +:+ m /\ var_below st h m.
Proof.
  intros Hn Hg. destruct (Hn _ _ Hg) as [Hc Hx]. unfold var_below. split.
  - destruct (name_cases n) as [Hs|(c & m & Hs & ->)].
    + destruct (parts_plain n Hs) as [-> ->]. intros (h & vs & [= <-] & Hv & Hi).
      unfold vars_at in Hv. rewrite Hg in Hv. simplify_eq/=. by left.
    + destruct (parts_child c m Hs) as [-> ->]. simpl. rewrite Hg. simpl.
      destruct (child_groups_ grp !! c) as [k|] eqn:E; simpl; [|naive_solver].
      intros H. right. exists c, k, m. done.
  - intros [Hi|(c & k & m & Hk & -> & Hb)].
    + destruct (parts_plain n (Hx _ Hi)) as [-> ->]. exists g, (vars grp). unfold vars_at. by rewrite Hg.
    + destruct (parts_child c m (Hc c ltac:(eauto))) as [-> ->]. simpl. rewrite Hg. simpl. by rewrite Hk.
Qed.

Lemma group_below_cases st g grp n :
  Names_ok st -> groups st !! g = Some grp ->
  group_below st g n <-> is_Some (child_groups_ grp !! n) \/
    exists c h m, child_groups_ grp !! c = Some h /\ n = c +:+ "/" +:+ m /\ group_below st h m.
Proof.
  intros Hn Hg. destruct (Hn _ _ Hg) as [Hc _]. unfold group_below. split.
  - destruct (name_cases n) as [Hs|(c & m & Hs & ->)].
    + destruct (no_slash_single n Hs) as (-> & _). simpl. rewrite Hg. simpl.
      destruct (child_groups_ grp !! n); simpl; eauto.
    + rewrite components_child by done. simpl. rewrite Hg. simpl.
      destruct (child_groups_ grp !! c) as [k|] eqn:E; simpl; [|by intros [? ?]].
      intros H. right. exists c, k, m. done.
  - intros [Hi|(c & k & m & Hk & -> & Hb)].
    + destruct (no_slash_single n (Hc _ Hi)) as (-> & _). simpl. rewrite Hg. simpl.
      destruct Hi as [h ->]. simpl. eauto.
    + rewrite components_child by (apply Hc; eauto). simpl. rewrite Hg. simpl. by rewrite Hk.
Qed.

Lemma Group_list_elem (st : Store V) g grp c :
  groups st !! g = Some grp -> c ∈ Group_list st g <-> is_Some (child_groups_ grp !! c).
Proof. intros Hg. unfold Group_list. rewrite Hg. apply list_elem. Qed.

(** What a call appends to the two lists. *)
Definition appends (r r' : Listing) (pre : string) (filter : ObjectType)
    (var group : string -> Prop) : Prop :=
  exists LV LG,
    list_vars r' = list_vars r ++ map (String.append pre) LV /\
    list_groups r' = list_groups r ++ map (String.append pre) LG /\
    (forall n, n ∈ LV <-> filter <> OGroup /\ var n) /\ (forall n, n ∈ LG <-> group n).

Lemma append_assoc (a b c : string) : (a +:+ b) +:+ c = a +:+ b +:+ c.
Proof. induction a as [|x a IH]; [done|]. exact (f_equal (String x) IH). Qed.

Lemma map_append_append p q l :
  map (String.append (p +:+ q)) l = map (String.append p) (map (String.append q) l).
Proof. rewrite map_map. apply map_ext. intros x. apply append_assoc. Qed.

Lemma elem_of_children c l (L1 L2 : list string) (P : Prop) (Q : string -> string -> Prop) :
  (forall n, n ∈ L1 <-> P /\ Q c n) ->
  (forall n, n ∈ L2 <-> P /\ exists c m, c ∈ l /\ n = c +:+ "/" +:+ m /\ Q c m) ->
  forall n, n ∈ map (String.append (c +:+ "/")) L1 ++ L2 <->
    P /\ exists c' m, c' ∈ c :: l /\ n = c' +:+ "/" +:+ m /\ Q c' m.
Proof.
  intros E1 E2 n. rewrite elem_of_app, E2, list_elem_of_fmap. split.
  - intros [(m & -> & [HP Hm]%E1)|[HP (c' & m & Hc & -> & Hq)]].
    + split; [done|]. exists c, m. rewrite append_assoc. split; [left|done].
    + split; [done|]. exists c', m. split; [by right|done].
  - intros [HP (c' & m & [->|Hc]%elem_of_cons & -> & Hq)].
    + left. exists m. rewrite append_assoc. split; [done|]. by apply E1.
    + right. split; [done|]. by exists c', m.
Qed.

Lemma appends_foldM (f : Listing -> string -> res Listing) pre filter (var group : string -> string -> Prop) l r :
  (forall r c, c ∈ l -> exists r', f r c = Ok r' /\
     appends r r' (pre +:+ c +:+ "/") filter (var c) (group c)) ->
  exists r', foldM f r l = Ok r' /\ appends r r' pre filter
    (fun n => exists c m, c ∈ l /\ n = c +:+ "/" +:+ m /\ var c m)
    (fun n => exists c m, c ∈ l /\ n = c +:+ "/" +:+ m /\ group c m).
Proof.
  revert r. induction l as [|c l IH]; intros r Hf; simpl.
  - exists r. split; [done|]. exists [], []. simpl. rewrite !app_nil_r. split; [done|]. split; [done|].
    split; intros n; rewrite elem_of_nil; (split; [done|]); [intros [_ H]|intros H];
      destruct H as (c & m & Hc & _); by apply elem_of_nil in Hc.
  - destruct (Hf r c) as (r1 & -> & LV1 & LG1 & HV1 & HG1 & EV1 & EG1); [left|]. cbn [mbind res_bind].
    destruct (IH r1) as (r2 & -> & LV2 & LG2 & HV2 & HG2 & EV2 & EG2); [intros; apply Hf; by right|].
    exists r2. split; [done|].
    exists (map (String.append (c +:+ "/")) LV1 ++ LV2), (map (String.append (c +:+ "/")) LG1 ++ LG2).
    rewrite HV2, HG2, HV1, HG1, !map_app, !(map_append_append pre), <-!app_assoc.
    split; [done|]. split; [done|].
    split; [by apply (elem_of_children c l)|]. intros n.
    rewrite (elem_of_children c l LG1 LG2 True group); [tauto| |]; intros; rewrite ?EG1, ?EG2; tauto.
Qed.

Lemma listObjects_spec st root g filter r pre fuel :
  Store_ok st root -> Names_ok st -> is_Some (groups st !! g) -> next_group st - g <= fuel ->
  exists r', listObjects fuel st g filter true r pre = Ok r' /\
    appends r r' pre filter (var_below st g) (group_below st g).
Proof.
  intros Hst Hn. revert g r pre. induction fuel as [|fuel IH]; intros g r pre Hg Hf.
  { pose proof (so_fresh _ _ Hst g Hg). lia. }
  destruct Hg as [grp Hg]. cbn [listObjects]. rewrite Hg.
  assert (Hng : match filter with Ignored | OGroup => true | OVariable => true end = true)
    by (by destruct filter).
  rewrite Hng. cbn [orb].
  set (r1 := if match filter with Ignored | OVariable => true | OGroup => false end then _ else _).
  assert (HV : exists LV, list_vars r1 = list_vars r ++ map (String.append pre) LV /\ r1.2 = r.2 /\
    forall n, n ∈ LV <-> filter <> OGroup /\ is_Some (names (vars grp) !! n)).
  { subst r1. destruct filter; [eexists (Named_list (vars grp))|exists []|exists (Named_list (vars grp))].
    all: simpl; rewrite ?app_nil_r; split; [done|]; split; [done|]; intros n;
      rewrite ?list_elem, ?elem_of_nil; naive_solver. }
  destruct HV as (LV & HV & Hr1 & EV). clearbody r1.
  destruct (appends_foldM (fun r child => match child_groups_ grp !! child with
    | Some c => listObjects fuel st c filter true r (pre +:+ child +:+ "/")
    | None => Throw EOutOfRange end) pre filter
    (fun c m => exists h, child_groups_ grp !! c = Some h /\ var_below st h m)
    (fun c m => exists h, child_groups_ grp !! c = Some h /\ group_below st h m)
    (Group_list st g) (r1.1, Some (list_groups r1 ++ map (String.append pre) (Group_list st g))))
    as (r2 & -> & LV2 & LG2 & HV2 & HG2 & EV2 & EG2).
  { intros r0 c Hc. apply (Group_list_elem st g grp c Hg) in Hc as [h Hh]. rewrite Hh.
    destruct (so_child _ _ Hst g grp c h Hg Hh) as [Hs Hlt].
    destruct (IH h r0 (pre +:+ c +:+ "/") Hs ltac:(lia)) as (r' & -> & LV' & LG' & ? & ? & Ev & Eg).
    exists r'. split; [done|]. exists LV', LG'. split; [done|]. split; [done|].
    split; intros n; rewrite ?Ev, ?Eg; naive_solver. }
  exists r2. split; [done|]. exists (LV ++ LV2), (Group_list st g ++ LG2).
  assert (Hlr : list_groups r1 = list_groups r) by (unfold list_groups; by rewrite Hr1).
  assert (HV2' : list_vars r2 = list_vars r1 ++ map (String.append pre) LV2) by exact HV2.
  assert (HG2' : list_groups r2 =
    (list_groups r1 ++ map (String.append pre) (Group_list st g)) ++ map (String.append pre) LG2) by exact HG2.
  rewrite HV2', HG2', !map_app, HV, Hlr, <-!app_assoc.
  split; [done|]. split; [done|]. split; intros n; rewrite elem_of_app.
  - rewrite (var_below_cases st g grp n Hn Hg), EV, EV2.
    setoid_rewrite (fun c => Group_list_elem st g grp c Hg). naive_solver.
  - rewrite (group_below_cases st g grp n Hn Hg), (Group_list_elem st g grp n Hg), EG2.
    setoid_rewrite (fun c => Group_list_elem st g grp c Hg). naive_solver.
Qed.
End tree.

(** The container after [rename], by name. *)
Lemma rename_lookup {V} (c : Named V) oldName newName v x :
  Named_ok c -> view c !! oldName = Some v ->
  match delete oldName (names c) !! newName with
  | Some _ => delete oldName (view c)
  | None => <[newName := v]> (delete oldName (view c))
  end !! x =
  if decide (x = newName) then Some (default v (view c !! x))
  else if decide (x = oldName) then None else view c !! x.
Proof.
  intros Hok Hv. destruct (decide (newName = oldName)) as [->|Hne].
  - rewrite lookup_delete_eq. destruct (decide (x = oldName)) as [->|].
    + by rewrite lookup_insert_eq, Hv.
    + by rewrite lookup_insert_ne, lookup_delete_ne by done.
  - rewrite lookup_delete_ne by done. destruct (names c !! newName) as [i|] eqn:En.
    + destruct (no_heap _ Hok _ _ En) as [w Hw].
      assert (Hn : view c !! newName = Some w) by (apply view_lookup; eauto).
      destruct (decide (x = newName)) as [->|]; [by rewrite lookup_delete_ne, Hn by done|].
      destruct (decide (x = oldName)) as [->|]; [apply lookup_delete_eq|by apply lookup_delete_ne].
    + destruct (decide (x = newName)) as [->|].
      { rewrite lookup_insert_eq. unfold view. by rewrite lookup_omap, En. }
      rewrite lookup_insert_ne by done.
      destruct (decide (x = oldName)) as [->|]; [apply lookup_delete_eq|by apply lookup_delete_ne].
Qed.

(** The store of the witnesses: a variable at a/b/x. *)
Definition small_store : Store Z :=
  match Vars_create (createRootGroup).2 0 "a/b/x" 7%Z with Ok (_, st) => st | Throw _ => (createRootGroup).2 end.

Lemma small_store_ok : Store_ok small_store 0 /\ lookup_var small_store 0 ["a"; "b"] "x" = Some 7%Z.
Proof.
  destruct (Vars_create_spec (createRootGroup).2 0 0 [] "a/b/x" 7%Z root_Store_ok eq_refl)
    as (o & st' & E & Hok & _ & _ & _ & _ & Hl).
  unfold small_store. rewrite E. destruct o. split; [done|]. by rewrite Hl.
Qed.

(** [Group::create] returns for every path, the group it returns is the one
    that [open] and [exists] then find under the same path, whether throwing is
    asked for or not; exactly the groups on the way exist in addition, the
    group structure stays a tree and every variable in the store is found where
    it was. *)
Theorem group_create_open {V} (st : Store V) root g gp name throwIfNotFound :
  Store_ok st root -> resolve st root gp = Some g ->
  exists h st', Group_create st g name = Ok (h, st') /\ Store_ok st' root /\
    Group_open st' g name throwIfNotFound = Ok (Some h) /\ Group_exists st' g name = Ok true /\
    (forall p, is_Some (resolve st' root p) <->
      is_Some (resolve st root p) \/ between gp p (components name)) /\
    (forall p x, lookup_var st' root p x = lookup_var st root p x).
Proof.
  intros Hst Hgp. destruct (Group_create_spec st root g gp name Hst Hgp) as (h & st' & E & Hr & He).
  exists h, st'. pose proof (ex_ok _ _ _ _ He) as Hst'. split; [done|]. split; [done|].
  pose proof (ex_paths _ _ _ _ He _ _ Hgp) as Hgp'.
  assert (Hg' : is_Some (groups st' !! g)) by (by eapply resolve_heap; [|apply (so_root _ _ Hst')|]).
  rewrite resolve_app, Hgp' in Hr. simpl in Hr. unfold Group_exists.
  rewrite !(Group_open_spec st' root g name _ Hst' Hg'), Hr. split; [done|]. split; [done|].
  split; [apply (ex_new _ _ _ _ He)|]. intros p x. by eapply extends_lookup_var.
Qed.
Lemma group_create_open_witness :
  exists h st', Group_create small_store 0 "a/c/d" = Ok (h, st') /\
    Group_open st' 0 "a/c/d" true = Ok (Some h) /\ lookup_var st' 0 ["a"; "b"] "x" = Some 7%Z.
Proof.
  destruct (group_create_open small_store 0 0 [] "a/c/d" true (proj1 small_store_ok) eq_refl)
    as (h & st' & E & _ & Ho & _ & _ & Hl).
  exists h, st'. split; [exact E|]. split; [exact Ho|]. rewrite Hl. exact (proj2 small_store_ok).
Defined.

(** [Has_Variables::create] with a path creates the groups of the path and
    returns the new variable.  If the name was free, [open] with the same path
    returns this very object; if it was taken the old variable stays in place and
    [open] still gives the old one.  No other variable is affected. *)
Theorem vars_create_open {V} (st : Store V) root g gp name v :
  Store_ok st root -> resolve st root gp = Some g ->
  exists o st' o', Vars_create st g name v = Ok (o, st') /\ Store_ok st' root /\
    object st' o = Some v /\ Vars_exists st' g name = Ok true /\ Vars_open st' g name = Ok o' /\
    match lookup_var st root (gp ++ group_part name) (var_part name) with
    | None => o' = o
    | Some w => object st' o' = Some w
    end /\
    (forall p x, lookup_var st' root p x =
      if decide (p = gp ++ group_part name /\ x = var_part name)
      then Some (default v (lookup_var st root p x)) else lookup_var st root p x).
Proof.
  intros Hst Hgp.
  destruct (Vars_create_spec st root g gp name v Hst Hgp) as (o & st' & E & Hst' & Ho & Hgp' & Hopen & _ & Hl).
  pose proof (Hl (gp ++ group_part name) (var_part name)) as Hw. rewrite decide_True in Hw by done.
  destruct (Vars_open_lookup st' root g gp name _ Hst' Hgp' Hw) as (o' & Ho' & Hobj & Hex).
  exists o, st', o'. split_and!; try done.
  destruct (lookup_var st root (gp ++ group_part name) (var_part name)) as [w|]; [done|].
  rewrite Hopen in Ho' by done. congruence.
Qed.
Lemma vars_create_open_witness :
  exists o st', Vars_create small_store 0 "a/c/y" 5%Z = Ok (o, st') /\ Vars_open st' 0 "a/c/y" = Ok o.
Proof.
  destruct (vars_create_open small_store 0 0 [] "a/c/y" 5%Z (proj1 small_store_ok) eq_refl)
    as (o & st' & o' & E & _ & _ & _ & Ho & Hm & _).
  exists o, st'. split; [exact E|].
  assert (En : lookup_var small_store 0 ([] ++ group_part "a/c/y") (var_part "a/c/y") = None) by reflexivity.
  rewrite En in Hm. rewrite <-Hm. exact Ho.
Defined.

(** [Has_Variables::rename] takes the variable away from its old name and
    enters it in the same group, literally under the new name: a name already
    taken keeps its variable, so that the renamed one is lost, and a new name with
    a slash is one that no path spells. *)
Theorem vars_rename_spec {V} (st : Store V) root g gp oldName newName v :
  Store_ok st root -> resolve st root gp = Some g ->
  lookup_var st root (gp ++ group_part oldName) (var_part oldName) = Some v ->
  exists st', Vars_rename st g oldName newName = Ok st' /\ Store_ok st' root /\
    (forall p x, lookup_var st' root p x =
      if decide (p = gp ++ group_part oldName) then
        if decide (x = newName) then Some (default v (lookup_var st root p x))
        else if decide (x = var_part oldName) then None else lookup_var st root p x
      else lookup_var st root p x) /\
    (no_slash newName = false -> forall n, var_part n <> newName).
Proof.
  intros Hst Hgp Hv.
  assert (Hg : is_Some (groups st !! g)) by (by eapply resolve_heap; [|apply (so_root _ _ Hst)|]).
  rewrite lookup_var_vars_at, resolve_app, Hgp in Hv. cbn [mbind option_bind] in Hv.
  destruct (resolve st g (group_part oldName)) as [h|] eqn:Er; [|done]. cbn [mbind option_bind] in Hv.
  unfold vars_at in Hv. destruct (groups st !! h) as [grp|] eqn:Eh; [|done]. simpl in Hv.
  pose proof (so_vars _ _ Hst h grp Eh) as Hok.
  assert (Hloc : Vars_rename st g oldName newName =
    on_vars st h (Named_rename "Variable not found." (var_part oldName) newName)).
  { unfold Vars_rename. destruct (name_parts oldName) as (_ & _ & Hp).
    destruct (splitGroupVar oldName) as [|a [|b [|? ?]]]; destruct Hp as [Hp1 Hp2];
      rewrite Hp1 in Er; rewrite Hp2; simplify_eq/=; try done.
    by rewrite (must_open_spec st root), Er. }
  destruct (rename_spec (vars grp) "Variable not found." (var_part oldName) newName v Hok Hv)
    as (vs & Evs & Hvs & Hview).
  destruct (on_vars_ok st root h grp _ vs Hst Eh Evs Hvs) as (st' & E & Hst' & Hres & Hat).
  exists st'. rewrite Hloc. split; [done|]. split; [done|]. split.
  2:{ intros Hn n <-. destruct (name_parts n) as (_ & Hs & _). congruence. }
  intros p x. rewrite !lookup_var_vars_at, Hres.
  assert (Hph : resolve st root (gp ++ group_part oldName) = Some h) by (by rewrite resolve_app, Hgp).
  destruct (decide (p = gp ++ group_part oldName)) as [->|Hne].
  - rewrite Hph. cbn [mbind option_bind]. rewrite Hat, decide_True by done. unfold vars_at.
    rewrite Eh. cbn [fmap option_fmap option_map mbind option_bind].
    rewrite Hview. by apply rename_lookup.
  - destruct (resolve st root p) as [k|] eqn:Ek; [|done]. cbn [mbind option_bind].
    rewrite Hat, decide_False; [done|]. intros ->. by apply Hne, (so_tree _ _ Hst _ _ h).
Qed.
Lemma vars_rename_spec_witness :
  exists st', Vars_rename small_store 0 "a/b/x" "y" = Ok st' /\
    lookup_var st' 0 ["a"; "b"] "y" = Some 7%Z /\ lookup_var st' 0 ["a"; "b"] "x" = None.
Proof.
  destruct (vars_rename_spec small_store 0 0 [] "a/b/x" "y" 7%Z (proj1 small_store_ok) eq_refl
    (proj2 small_store_ok)) as (st' & E & _ & Hl & _).
  exists st'. split; [exact E|]. rewrite !Hl. split; reflexivity.
Defined.

(** a recursive [Group::listObjects] from any group returns, and lists
    exactly the names that [exists] accepts there: the variables unless only groups are
    asked for, and the groups whatever is asked for (also when the filter is
    Variable). *)
Theorem listObjects_exists {V} (st : Store V) root g filter :
  Store_ok st root -> Names_ok st -> is_Some (groups st !! g) ->
  exists r, listObjects (next_group st) st g filter true (None, None) "" = Ok r /\
    (forall n, n ∈ list_vars r <-> filter <> OGroup /\ Vars_exists st g n = Ok true) /\
    (forall n, n ∈ list_groups r <-> Group_exists st g n = Ok true).
Proof.
  intros Hst Hn Hg.
  destruct (listObjects_spec st root g filter (None, None) "" (next_group st) Hst Hn Hg ltac:(lia))
    as (r & E & LV & LG & HV & HG & EV & EG).
  rewrite (map_ext _ id (fun x => eq_refl)), map_id in HV.
  rewrite (map_ext _ id (fun x => eq_refl)), map_id in HG.
  exists r. split; [done|]. split; intros n.
  - rewrite HV. simpl. rewrite EV, (Vars_exists_spec st root g n Hst Hg). unfold var_below.
    apply and_iff_compat_l. destruct (resolve st g (group_part n)) as [h|]; [|naive_solver].
    destruct (vars_at st h) as [vs|] eqn:Ev; [|naive_solver].
    unfold Named_exists. case_bool_decide; naive_solver.
  - rewrite HG. simpl. rewrite EG. unfold group_below, Group_exists.
    rewrite (Group_open_spec st root g n false Hst Hg).
    destruct (resolve st g (components n)); simpl; naive_solver.
Qed.

(** A check of the names of a store. *)
Definition names_okb {V} (st : Store V) : bool :=
  forallb (fun '(_, grp) => forallb (fun '(c, _) => no_slash c) (map_to_list (child_groups_ grp)) &&
                            forallb (fun '(x, _) => no_slash x) (map_to_list (names (vars grp))))
    (map_to_list (groups st)).
Lemma names_okb_spec {V} (st : Store V) : names_okb st = true -> Names_ok st.
Proof.
  unfold names_okb. rewrite forallb_forall. intros H g grp Hg.
  specialize (H (g, grp)). simpl in H. rewrite <-list_elem_of_In, elem_of_map_to_list in H.
  apply H, andb_true_iff in Hg as [Hc Hx]. rewrite forallb_forall in Hc, Hx.
  split; intros c [k Hk]; [apply (Hc (c, k))|apply (Hx (c, k))];
    by apply list_elem_of_In, elem_of_map_to_list.
Qed.
Lemma listObjects_exists_witness :
  exists r, listObjects (next_group small_store) small_store 0 Ignored true (None, None) "" = Ok r /\
    "a/b/x" ∈ list_vars r /\ "a/b" ∈ list_groups r.
Proof.
  destruct (listObjects_exists small_store 0 0 Ignored (proj1 small_store_ok) (names_okb_spec small_store eq_refl) ltac:(eexists; reflexivity))
    as (r & E & Hv & Hg).
  exists r. split; [exact E|]. split; [apply Hv; split; [discriminate|reflexivity]|apply Hg; reflexivity].
Defined.
