(* ===== verification/ObsFrame.v ===== *)
(** Frames: blocks of rows of the variables of an observation source.
    The selections of src/src/io/ObsFrame.cc and src/src/io/ObsFrameRead.cc, and
    the operations of in-memory variables in terms of rows.

    A variable with dimensions [n :: rest] holds [n] rows of [prodZ rest]
    elements, in row-major order. *)
From stdpp Require Import base list strings sorting.
From Stdlib Require Import ZArith.
From S2P Require Import Prelude Selection VarAttrStore ObsTypes ObsAttributes ObsVariables.
Local Open Scope Z_scope.

(** * Selections *)

Definition createMemSelection (varShape : list Z) (frameCount : Z) : res FrontSelection :=
  memShape ← vec_set varShape 0 frameCount;
  (* accumulated in an int, multiplied as 64-bit integers *)
  let numElements := foldl (fun acc d => i32 (i64 (acc * d))) 1 memShape in
  Ok (set_block [numElements] [0] [numElements]).

Definition createEntireFrameSelection (varShape : list Z) (frameCount : Z) : res FrontSelection :=
  entireFrameCounts ← vec_set varShape 0 frameCount;
  frameVarShape ← vec_set varShape 0 frameCount;
  Ok (set_block frameVarShape (replicate (length entireFrameCounts) 0) entireFrameCounts).

Definition createVarSelection (varShape : list Z) (frameStart frameCount : Z) : res FrontSelection :=
  varCounts ← vec_set varShape 0 frameCount;
  varStarts ← vec_set (replicate (length varCounts) 0) 0 frameStart;
  Ok (set_block varShape varStarts varCounts).

Definition createObsIoSelection (varShape : list Z) (frameStart frameCount : Z) : res FrontSelection :=
  obsIoCounts ← vec_set varShape 0 frameCount;
  obsIoStarts ← vec_set (replicate (length obsIoCounts) 0) 0 frameStart;
  Ok (set_block varShape obsIoStarts obsIoCounts).

(** [ObsFrameRead::createIndexedFrameSelection] *)
Definition createIndexedFrameSelection (frame_loc_index : list nat) (varShape : list Z) : FrontSelection :=
  {| default_ := StateALL;
     actions_ := index_action 0 (map Z.of_nat frame_loc_index) [] ::
       imap (fun i n => index_action (S i) (seqZ 0 n) []) (drop 1 varShape);
     extent_ := varShape |}.

(** The selections of [ObsSpace::storeVar]: the buffer and the block of rows. *)
Definition storeVar_selections (varDims : list Z) (frameStart frameCount : Z)
  : res (FrontSelection * FrontSelection) :=
  beCounts ← vec_set varDims 0 frameCount;
  beStarts ← vec_set (replicate (length beCounts) 0) 0 frameStart;
  let feCounts := [foldl (fun acc d => i64 (acc * d)) 1 beCounts] in
  Ok (set_block feCounts [0] feCounts, set_block varDims beStarts beCounts).

(** * Reading and writing vectors

    [Variable::read(std::vector<T>&, ...)] reads into a buffer of the size of
    the whole variable. *)
Definition front_read {A} (init : A) (dtype : OType) (mem file : FrontSelection) (v : ObsVariable A)
  : res (list A) :=
  Backend_read (replicate (Z.to_nat (size_product (dimensions_ v))) init) dtype mem file v.

Definition front_write {A} (values : list A) (dtype : OType) (mem file : FrontSelection)
    (v : ObsVariable A) : res (ObsVariable A) :=
  Backend_write values dtype mem file v.

(** * Positions of rows *)

Lemma slab_unit s c : slab_indices {| sl_start := s; sl_count := c; sl_stride := 1; sl_block := 1 |} = seqZ s c.
Proof.
  unfold slab_indices, seqZ. cbn [sl_start sl_count sl_stride sl_block].
  generalize (seq 0 (Z.to_nat c)). intros l. induction l as [|i l IH]; [done|].
  cbn [map concat fmap list_fmap]. rewrite IH. simpl. f_equal. lia.
Qed.

Lemma selects_weaken s n N N' l :
  selects s n N l -> (N <= N')%nat -> Z.of_nat (N' * n) < 2 ^ 64 -> selects s n N' l.
Proof.
  intros [H1 H2 H3 H4] HN HB. split; [done| |done|done].
  eapply Forall_impl; [exact H2|]. simpl. lia.
Qed.

Definition unit_slabs (starts counts : list Z) : list Slab :=
  zip_with (fun s c => {| sl_start := s; sl_count := c; sl_stride := 1; sl_block := 1 |}) starts counts.

Lemma unit_slabs_maps starts counts :
  length starts = length counts ->
  map sl_start (unit_slabs starts counts) = starts /\ map sl_count (unit_slabs starts counts) = counts /\
  map slab_indices (unit_slabs starts counts) = zip_with seqZ starts counts /\
  (forall f, f = sl_stride \/ f = sl_block -> optional_field [] f (unit_slabs starts counts)).
Proof.
  revert counts. induction starts as [|s starts IH]; intros [|c counts] Hl; simplify_eq/=.
  - split_and!; try done. intros f _. right. split; [done|constructor].
  - destruct (IH counts Hl) as (E1 & E2 & E3 & E4). rewrite E1, E2, E3, slab_unit.
    split_and!; try done. intros f Hf. destruct (E4 f Hf) as [E|[_ E]].
    + right. split; [done|]. constructor; [by destruct Hf as [-> | ->]|].
      apply list.Forall_forall. intros x Hx. unfold unit_slabs in Hx.
      apply list_elem_of_lookup in Hx as [i Hi]. apply lookup_zip_with_Some in Hi as (? & ? & -> & _).
      by destruct Hf as [-> | ->].
    + right. split; [done|]. constructor; [by destruct Hf as [-> | ->]|done].
Qed.

Section rows.
Context (n : Z) (rest : list Z) (Hrest : Forall (fun d => 0 < d) rest) (Hn : n * prodZ rest < 2 ^ 31)
  (HP1 : prodZ rest < 2 ^ 31).
Let P := prodZ rest.

Lemma P_pos : 0 < P.
Proof. by apply prodZ_ge1. Qed.

Lemma rest_small d : d ∈ rest -> d < 2 ^ 31.
Proof.
  intros Hd. clear -Hrest HP1 Hd. revert HP1. induction Hrest as [|x l Hx Hl IH]; intros HP1; [by apply elem_of_nil in Hd|].
  change (prodZ (x :: l)) with (x * prodZ l) in HP1. pose proof (prodZ_ge1 l Hl).
  assert (x * 1 <= x * prodZ l) by (apply Z.mul_le_mono_nonneg_l; lia).
  assert (1 * prodZ l <= x * prodZ l) by (apply Z.mul_le_mono_nonneg_r; lia).
  apply elem_of_cons in Hd as [->|Hd]; [lia|]. apply IH; [done..|lia].
Qed.

(** A block of rows. *)
Lemma block_selects ext s c :
  0 <= s -> 0 < c -> s + c <= n ->
  exists f, createObsStoreSelection (set_block ext (s :: map (fun _ => 0) rest) (c :: rest)) (n :: rest) = Ok f /\
    npoints f = c * P /\ selects f 1 (Z.to_nat (n * P)) (seqZ (s * P) (c * P)).
Proof.
  intros Hs Hc Hsc. pose proof P_pos as HP.
  set (slabs := unit_slabs (s :: map (fun _ => 0) rest) (c :: rest)).
  destruct (unit_slabs_maps (s :: map (fun _ => 0) rest) (c :: rest)) as (E1 & E2 & E3 & Hopt);
    [simpl; by rewrite length_map|]. fold slabs in E1, E2, E3, Hopt.
  assert (Hsl : Forall2 slab_ok slabs (n :: rest)).
  { unfold slabs, unit_slabs. cbn [zip_with map]. constructor; [unfold slab_ok; simpl; nia|].
    assert (Hr : forall d, d ∈ rest -> d < 2 ^ 31) by apply rest_small.
    clear -Hrest Hr. induction Hrest as [|x l Hx Hl IH]; simpl; constructor.
    - unfold slab_ok. simpl. pose proof (Hr x ltac:(left)). lia.
    - apply IH; [done|]. intros d Hd. apply Hr. by right. }
  assert (Hr : Forall2 in_range (map slab_indices slabs) (n :: rest))
    by (apply Forall2_fmap_l; eapply Forall2_impl; [exact Hsl|apply slab_in_range]).
  assert (Hpos : nested (map slab_indices slabs) (n :: rest) 0 = seqZ (s * P) (c * P)).
  { rewrite E3. fold (block_positions (s :: map (fun _ => 0) rest) (c :: rest) (n :: rest)).
    by rewrite block_positions_spec by (done || lia). }
  assert (Hpr : prodZ (n :: rest) = n * P) by done.
  destruct (intersect_selects (map slab_indices slabs) (n :: rest) 1 Hr) as (f & Ef & Sf).
  { by rewrite E3. }
  { rewrite E3. clear. generalize (s :: map (fun _ => 0) rest), (c :: rest). intros l1.
    induction l1 as [|x l1 IH]; intros [|y l2]; simpl; constructor; [apply NoDup_seqZ|apply IH]. }
  { rewrite Hpr. unfold P in *. lia. }
  { rewrite Hpr. unfold P in *. lia. }
  destruct (intersect_walk (map slab_indices slabs) (n :: rest) Hr) as (f' & Ef' & Hnp & _).
  { rewrite Hpr. unfold P in *. lia. }
  { by rewrite E3. }
  rewrite Ef in Ef'. injection Ef' as <-. exists f. rewrite Hpos in Sf. rewrite Hpr in Sf.
  split_and!; [|rewrite Hnp|done].
  - unfold set_block. rewrite create_hyperslab by done. cbn [start_ count_ stride_ block_].
    rewrite <-E1, <-E2 at 1.
    rewrite (genDimSelects_hyperslab_ok slabs (n :: rest) [] [] Hsl) by (apply Hopt; auto).
    cbn [mbind res_bind]. exact Ef.
  - rewrite <-(nested_length _ (n :: rest) 0) by (by apply Forall2_length in Hr).
    rewrite Hpos, length_seqZ, u64_small by (unfold P in *; nia). unfold P in *; nia.
Qed.
End rows.

Lemma Zlt_sorted_unique (l1 l2 : list Z) :
  StronglySorted Z.lt l1 -> StronglySorted Z.lt l2 -> (forall x, x ∈ l1 <-> x ∈ l2) -> l1 = l2.
Proof.
  intros H1. revert l2. induction H1 as [|x l1 H1 IH Hx]; intros l2 H2 E.
  - destruct l2 as [|y l2]; [done|]. exfalso. apply (not_elem_of_nil y). apply E. left.
  - destruct H2 as [|y l2 H2 Hy]; [exfalso; apply (not_elem_of_nil x); apply E; left|].
    rewrite list.Forall_forall in Hx, Hy.
    assert (x = y) as ->.
    { assert (x ∈ y :: l2) as [->|Hi]%elem_of_cons by (apply E; left); [done|].
      assert (y ∈ x :: l1) as [->|Hj]%elem_of_cons by (apply E; left); [done|].
      specialize (Hx y Hj). specialize (Hy x Hi). lia. }
    f_equal. apply IH; [done|]. intros z. specialize (E z). rewrite !elem_of_cons in E. split; intros Hz.
    + specialize (Hx z Hz). destruct (proj1 E ltac:(by right)) as [->|]; [lia|done].
    + specialize (Hy z Hz). destruct (proj2 E ltac:(by right)) as [->|]; [lia|done].
Qed.

Lemma StronglySorted_lt_of_nat (l : list nat) : StronglySorted lt l -> StronglySorted Z.lt (map Z.of_nat l).
Proof.
  induction 1 as [|x l Hs IH Hx]; simpl; constructor; [done|].
  rewrite list.Forall_forall in Hx. apply list.Forall_forall. intros z (y & -> & Hy)%list_elem_of_fmap. specialize (Hx y Hy). lia.
Qed.

(** Indices listed in increasing order are selected as they are. *)
Lemma action_indices_sorted d l :
  StronglySorted Z.lt l -> Forall (fun x => 0 <= x < 2 ^ 64) l -> action_indices (index_action d l []) = l.
Proof.
  intros Hs Hr. destruct (action_indices_spec (index_action d l []) eq_refl Hr) as [H1 H2].
  by apply Zlt_sorted_unique.
Qed.

Lemma seqZ_of_nat m : 0 <= m -> seqZ 0 m = map Z.of_nat (seq 0 (Z.to_nat m)).
Proof.
  intros Hm. unfold seqZ. generalize (Z.to_nat m) as k. clear. intros k. apply list_fmap_ext.
  intros _ x _. lia.
Qed.

Lemma seqZ_sorted m : 0 <= m -> StronglySorted Z.lt (seqZ 0 m).
Proof. intros Hm. rewrite seqZ_of_nat by done. apply StronglySorted_lt_of_nat, StronglySorted_lt_seq. Qed.

(** * Selections by lists of indices *)

(** One list of indices for every dimension, and the indices of a list in the
    order in which they are visited. *)
Definition index_selection (ext : list Z) (ls : list (list Z)) : FrontSelection :=
  {| default_ := StateALL; actions_ := imap (fun i l => index_action i l []) ls; extent_ := ext |}.

Definition as_set (l : list Z) : list Z := action_indices (index_action 0 l []).

Lemma as_set_spec l n : in_range l n -> n < 2 ^ 64 ->
  StronglySorted Z.lt (as_set l) /\ (forall x, x ∈ as_set l <-> x ∈ l) /\ in_range (as_set l) n.
Proof.
  intros [Hne Hr] Hn. destruct (action_indices_spec (index_action 0 l []) eq_refl) as [H1 H2].
  { eapply Forall_impl; [exact Hr|]. simpl. lia. }
  cbn [dimension_indices_starts_ index_action] in H2. split_and!; [exact H1|exact H2|]. split.
  - destruct l as [|x l]; [done|]. intros E. assert (Hx : x ∈ as_set (x :: l)) by (apply H2; left).
    rewrite E in Hx. by apply elem_of_nil in Hx.
  - rewrite list.Forall_forall in Hr |- *. intros x Hx. by apply Hr, H2.
Qed.

Lemma filter_index_actions k d (ls : list (list Z)) :
  List.filter (fun a => Nat.eqb (dimension_ a) (k + d)) (imap (fun i l => index_action (k + i) l []) ls) =
    match ls !! d with Some l => [index_action (k + d) l []] | None => [] end.
Proof.
  revert k d. induction ls as [|l ls IH]; intros k d; [done|]. rewrite imap_cons. cbn [List.filter].
  rewrite (imap_ext _ (fun i l => index_action (S k + i) l [])) by (intros; simpl; f_equal; lia).
  cbn [dimension_ index_action]. destruct d as [|d].
  - rewrite Nat.eqb_refl. simpl. f_equal.
    assert (Hnil : forall j ls', (j > k + 0)%nat ->
      List.filter (fun a => Nat.eqb (dimension_ a) (k + 0)) (imap (fun i l => index_action (j + i) l []) ls') = []).
    { intros j ls'. revert j. induction ls' as [|l' ls' IH']; intros j Hj; [done|]. rewrite imap_cons.
      cbn [List.filter]. rewrite (imap_ext _ (fun i l => index_action (S j + i) l [])) by (intros; simpl; f_equal; lia).
      cbn [dimension_ index_action]. destruct (Nat.eqb_spec (j + 0) (k + 0)); [lia|]. apply IH'. lia. }
    apply (Hnil (S k)). lia.
  - destruct (Nat.eqb_spec (k + 0) (k + S d)); [lia|]. replace (k + S d)%nat with (S k + d)%nat by lia. apply IH.
Qed.

Lemma index_dim_sel ls dims : length ls = length dims ->
  imap (dim_sel (imap (fun i l => index_action i l []) ls)) dims = map as_set ls.
Proof.
  intros Hl. apply list_eq. intros d. rewrite list_lookup_imap, list_lookup_fmap.
  destruct (dims !! d) as [n|] eqn:En.
  - destruct (lookup_lt_is_Some_2 ls d) as [l El]; [rewrite Hl; by eapply lookup_lt_Some|].
    rewrite El. simpl. f_equal. unfold dim_sel. pose proof (filter_index_actions 0 d ls) as Hf. cbn [Nat.add] in Hf.
    by rewrite Hf, El.
  - apply lookup_ge_None in En. rewrite lookup_ge_None_2 by lia. done.
Qed.

(** The points are visited in row-major order, along every dimension in the order
    of the indices. *)
Lemma index_selects ext dims ls :
  Forall2 in_range ls dims -> ls <> [] -> prodZ dims < 2 ^ 31 ->
  let fs := nested (map as_set ls) dims 0 in
  exists f, createObsStoreSelection (index_selection ext ls) dims = Ok f /\
    npoints f = Z.of_nat (length fs) /\ selects f 1 (Z.to_nat (prodZ dims)) fs.
Proof.
  intros Hr Hne Hb fs. pose proof (Forall2_length _ _ _ Hr) as Hl.
  pose proof (sizes_pos ls dims Hr) as Hpos.
  assert (Hsmall : forall d, d ∈ dims -> d < 2 ^ 31) by (apply rest_small; [exact Hpos|done]).
  assert (Hset : Forall2 (fun l n => StronglySorted Z.lt (as_set l) /\ (forall x, x ∈ as_set l <-> x ∈ l) /\ in_range (as_set l) n) ls dims).
  { apply Forall2_same_length_lookup_2; [done|]. intros i l n El En. apply as_set_spec.
    - by eapply (Forall2_lookup_lr _ _ _ i).
    - pose proof (Hsmall n ltac:(by eapply list_elem_of_lookup_2)). lia. }
  assert (Hr' : Forall2 in_range (map as_set ls) dims)
    by (apply Forall2_fmap_l; eapply Forall2_impl; [exact Hset|]; simpl; tauto).
  assert (Hne' : map as_set ls <> []) by (by destruct ls).
  pose proof (prodZ_pos dims Hpos) as Hp.
  destruct (intersect_selects (map as_set ls) dims 1 Hr' Hne') as (f & Ef & Sf); [|lia..|].
  { apply Forall_map, list.Forall_forall. intros l [i Hi]%list_elem_of_lookup.
    destruct (Forall2_lookup_l _ _ _ _ _ Hset Hi) as (n & _ & Hs & _).
    clear -Hs. induction Hs as [|x s Hs IH Hx]; constructor; [|done].
    rewrite list.Forall_forall in Hx. intros Hin. specialize (Hx x Hin). lia. }
  destruct (intersect_walk (map as_set ls) dims Hr') as (f' & Ef' & Hnp & _); [lia|done|].
  rewrite Ef in Ef'. injection Ef' as <-. exists f. split_and!; [| |exact Sf].
  - destruct ls as [|l ls']; [done|]. unfold index_selection. rewrite imap_cons.
    rewrite create_indices; [|done|done|by apply Forall2_cons_inv_l in Hr as (? & ? & [] & _)].
    change (index_action 0 l [] :: imap ((fun i l => index_action i l []) ∘ S) ls') with
      (imap (fun i l => index_action i l []) (l :: ls')).
    rewrite genDimSelects_indices_ok; [cbn [mbind res_bind]; by rewrite index_dim_sel|].
    apply list.Forall_forall. intros a [i Hi]%list_elem_of_lookup. rewrite list_lookup_imap in Hi.
    destruct ((l :: ls') !! i) as [li|] eqn:Ei; simplify_eq/=.
    destruct (Forall2_lookup_l _ _ _ _ _ Hset Ei) as (n & En & _ & _ & [Hn _]).
    split; [by eapply lookup_lt_Some|exact Hn].
  - rewrite Hnp, <-(nested_length _ dims 0) by (by rewrite length_map). apply u64_small.
    pose proof (sel_range _ _ _ _ Sf) as Hrg. pose proof (selects_nat _ _ _ _ Sf) as [Hnd Hlt].
    assert (length fs <= Z.to_nat (prodZ dims))%nat; [|unfold fs in *; lia].
    rewrite <-(length_map Z.to_nat fs), <-(length_seq (Z.to_nat (prodZ dims)) 0). apply submseteq_length, NoDup_submseteq; [done|].
    intros x Hx. rewrite list.Forall_forall in Hlt. specialize (Hlt x Hx). apply elem_of_seq. lia.
Qed.

Lemma as_set_sorted l : StronglySorted Z.lt l -> Forall (fun x => 0 <= x < 2 ^ 64) l -> as_set l = l.
Proof. apply action_indices_sorted. Qed.

Section indexed.
Context (n : Z) (rest : list Z) (Hrest : Forall (fun d => 0 < d) rest) (Hn : n * prodZ rest < 2 ^ 31)
  (HP1 : prodZ rest < 2 ^ 31) (idx : list nat) (Hsort : StronglySorted lt idx) (Hne : idx <> [])
  (Hidx : Forall (fun i => Z.of_nat i < n) idx).
Let P := prodZ rest.

Lemma n_small : 0 < n < 2 ^ 31.
Proof.
  pose proof (prodZ_ge1 rest Hrest). destruct idx as [|i l]; [done|]. apply Forall_cons in Hidx as [Hi _].
  assert (n * 1 <= n * prodZ rest) by (apply Z.mul_le_mono_nonneg_l; lia). lia.
Qed.

Lemma all_indices_set : map as_set (map (seqZ 0) rest) = map (seqZ 0) rest.
Proof.
  rewrite map_map. apply map_ext_in. intros m Hm%list_elem_of_In. pose proof (rest_small rest Hrest HP1 m Hm).
  rewrite list.Forall_forall in Hrest. specialize (Hrest m Hm).
  apply as_set_sorted; [apply seqZ_sorted; lia|]. apply list.Forall_forall. intros x Hx%elem_of_seqZ. lia.
Qed.

Lemma indexed_nested :
  nested (map Z.of_nat idx :: map (seqZ 0) rest) (n :: rest) 0 =
    concat (map (fun i => seqZ (Z.of_nat i * P) P) idx).
Proof.
  cbn [nested]. rewrite map_map. f_equal. apply map_ext. intros i. rewrite Z.mul_0_l, Z.add_0_l.
  rewrite <-(nested_full rest) by done. f_equal. clear. induction rest as [|d l IH]; simpl; [done|]. by rewrite IH.
Qed.

(** The rows [idx]. *)
Lemma indexed_selects :
  exists f, createObsStoreSelection (createIndexedFrameSelection idx (n :: rest)) (n :: rest) = Ok f /\
    npoints f = Z.of_nat (length idx) * P /\
    selects f 1 (Z.to_nat (n * P)) (concat (map (fun i => seqZ (Z.of_nat i * P) P) idx)).
Proof.
  pose proof n_small as Hns. pose proof (prodZ_ge1 rest Hrest) as HP.
  assert (Hrange : Forall2 in_range (map Z.of_nat idx :: map (seqZ 0) rest) (n :: rest)).
  { constructor.
    - split; [by destruct idx|]. apply Forall_map. eapply Forall_impl; [exact Hidx|]. simpl. lia.
    - clear -Hrest. induction Hrest as [|d l Hd Hl IH]; constructor; [|by apply IH]. split.
      + rewrite seqZ_cons by lia. done.
      + apply list.Forall_forall. intros x Hx%elem_of_seqZ. lia. }
  destruct (index_selects (n :: rest) (n :: rest) _ Hrange) as (f & Ef & Hf & Sf); [done|done|].
  cbn [map] in Hf, Sf. rewrite all_indices_set, as_set_sorted, indexed_nested in Hf, Sf.
  2,4: by apply StronglySorted_lt_of_nat.
  2,3: apply Forall_map; eapply Forall_impl; [exact Hidx|]; simpl; lia.
  rewrite (length_concat_map_uniform _ (Z.to_nat P)) in Hf by (intros; by rewrite length_seqZ).
  exists f. split_and!; [|rewrite Hf; unfold P in *; lia|exact Sf].
  rewrite <-Ef. unfold createIndexedFrameSelection, index_selection. change (drop 1 (n :: rest)) with rest.
  rewrite imap_cons, imap_fmap. done.
Qed.
End indexed.

(** * Variables as arrays of rows *)

Definition row_size (rest : list Z) : nat := Z.to_nat (prodZ rest).

Record shape (n : nat) (rest : list Z) : Prop := {
  sh_rest : Forall (fun d => 0 < d) rest;
  sh_size : Z.of_nat n * prodZ rest < 2 ^ 31;
  sh_row : prodZ rest < 2 ^ 31
}.

Lemma shape_row n rest : shape n rest -> prodZ rest = Z.of_nat (row_size rest) /\ (0 < row_size rest)%nat.
Proof. intros [H1 _ _]. pose proof (prodZ_ge1 _ H1). unfold row_size. lia. Qed.

Lemma shape_le n n' rest : shape n rest -> (n' <= n)%nat -> shape n' rest.
Proof.
  intros [H1 H2 H3] Hle. pose proof (prodZ_ge1 _ H1). split; [done| |done].
  assert (Z.of_nat n' * prodZ rest <= Z.of_nat n * prodZ rest) by (apply Z.mul_le_mono_nonneg_r; lia). lia.
Qed.

Lemma shape_bound n rest : shape n rest -> Z.of_nat (n * row_size rest) < 2 ^ 31.
Proof. intros Hs. destruct (shape_row _ _ Hs). destruct Hs. nia. Qed.

(** A variable of a type with one element per datum, its rows and their
    elements. *)
Record array {A} (v : ObsVariable A) (n : nat) (rest : list Z) (data : list A) : Prop := {
  arr_ok : Variable_ok v;
  arr_dims : dimensions_ v = Z.of_nat n :: rest;
  arr_elt : ty_num_elements (dtype_ v) = 1%nat;
  arr_data : var_attr_data_ (var_data_ v) = data;
  arr_shape : shape n rest
}.

Section arrays.
Context {A : Type} (init : A) (v : ObsVariable A) (n : nat) (rest : list Z) (data : list A).
Context (Hv : array v n rest data).
Let P := row_size rest.

Lemma arr_product : size_product (dimensions_ v) = Z.of_nat (n * P).
Proof.
  pose proof (arr_shape _ _ _ _ Hv) as Hs. pose proof (shape_bound _ _ Hs). destruct (shape_row _ _ Hs) as [E1 E2].
  rewrite (arr_dims _ _ _ _ Hv). destruct (size_product_cons (Z.of_nat n) rest) as [E _]; [lia| | |].
  - eapply Forall_impl; [apply (sh_rest _ _ Hs)|]. simpl. lia.
  - destruct Hs. lia.
  - rewrite E, E1. unfold P. lia.
Qed.

Lemma arr_num : num_elements_ (var_data_ v) = 1%nat.
Proof. rewrite (vo_elements _ (arr_ok _ _ _ _ Hv)). apply (arr_elt _ _ _ _ Hv). Qed.

Lemma arr_length : length data = (n * P)%nat.
Proof.
  rewrite <-(arr_data _ _ _ _ Hv), (vo_length _ (arr_ok _ _ _ _ Hv)), arr_product, arr_num. lia.
Qed.

Lemma Type_neqb_refl t : Type_neqb t t = false.
Proof. unfold Type_neqb. by rewrite (proj2 (Type_eqb_eq _ _) eq_refl). Qed.

(** The memory side: the first [k] elements of a buffer. *)
Lemma mem_block_selects (buf : list A) k :
  (0 < k <= length buf)%nat -> Z.of_nat (length buf) < 2 ^ 31 ->
  exists m, createObsStoreSelection (set_block [Z.of_nat k] [0] [Z.of_nat k])
      (mem_dim_sizes buf (dtype_ v) (set_block [Z.of_nat k] [0] [Z.of_nat k])) = Ok m /\
    npoints m = Z.of_nat k /\ selects m 1 (length buf) (seqZ 0 (Z.of_nat k)).
Proof.
  intros Hk Hb. destruct (block_selects (Z.of_nat k) []) with (ext := [Z.of_nat k]) (s := 0) (c := Z.of_nat k)
    as (m & Em & Hm & Sm); [constructor|unfold prodZ; simpl; lia|unfold prodZ; simpl; lia|lia|lia|lia|].
  change (prodZ []) with 1 in *. rewrite !Z.mul_1_r in *. exists m. split_and!; [exact Em|lia|].
  eapply selects_weaken; [exact Sm|lia|lia].
Qed.

(** The elements at a list of positions. *)
Definition pick (fs : list Z) : list A := omap (fun i => data !! Z.to_nat i) fs.

Lemma pick_lookup fs : Forall (fun i => 0 <= i < Z.of_nat (n * P)) fs ->
  length (pick fs) = length fs /\ forall j i, fs !! j = Some i -> pick fs !! j = data !! Z.to_nat i.
Proof.
  induction 1 as [|i fs Hi Hfs [IH1 IH2]]; [done|]. unfold pick in *. cbn [omap list_omap].
  destruct (lookup_lt_is_Some_2 data (Z.to_nat i)) as [x Hx]; [rewrite arr_length; lia|]. rewrite Hx.
  split; [simpl; by rewrite IH1|]. intros [|j] i' Hj; simplify_eq/=; auto.
Qed.

(** Reading the positions [fs] of the variable. *)
Lemma read_positions file f fs :
  createObsStoreSelection file (dimensions_ v) = Ok f ->
  npoints f = Z.of_nat (length fs) -> selects f 1 (n * P) fs -> fs <> [] ->
  front_read init (dtype_ v) (set_block [Z.of_nat (length fs)] [0] [Z.of_nat (length fs)]) file v =
    Ok (pick fs ++ replicate (n * P - length fs) init).
Proof.
  intros Ef Hf Sf Hne. pose proof (shape_bound _ _ (arr_shape _ _ _ _ Hv)) as Hb. fold P in Hb.
  unfold front_read. rewrite arr_product, Nat2Z.id. set (buf := replicate (n * P) init).
  assert (Hbl : length buf = (n * P)%nat) by apply length_replicate.
  destruct (selects_nat _ _ _ _ Sf) as [Hnd Hrg].
  assert (Hk : (length fs <= n * P)%nat).
  { rewrite <-(length_map Z.to_nat fs), <-(length_seq (n * P) 0). apply submseteq_length, NoDup_submseteq; [done|].
    intros x Hx. rewrite list.Forall_forall in Hrg. specialize (Hrg x Hx). apply elem_of_seq. lia. }
  assert (Hpos : (0 < length fs)%nat) by (destruct fs; [done|simpl; lia]).
  destruct (mem_block_selects buf (length fs)) as (m & Em & Hm & Sm); [lia|lia|].
  unfold Backend_read. rewrite Em. cbn [mbind res_bind]. rewrite Ef. cbn [mbind res_bind].
  rewrite Hf, Hm, decide_False by lia. unfold Variable_read. rewrite Type_neqb_refl.
  pose proof arr_num as Hnum. rewrite <-Hnum in Sm, Sf.
  destruct (read_copies (var_data_ v) buf m f (length buf) (n * P) _ fs Sm Sf) with (fuel := Z.to_nat (Z.of_nat (length fs)))
    as (buf' & Hr & Hl & Hcopy & Hother).
  { rewrite length_seqZ. lia. }
  { rewrite Hnum. lia. }
  { rewrite (arr_data _ _ _ _ Hv), arr_length, Hnum. lia. }
  { rewrite length_seqZ. lia. }
  rewrite Hr. f_equal. rewrite Hnum in *.
  destruct (pick_lookup fs (sel_range _ _ _ _ Sf)) as [Hpl Hpk].
  apply list_eq. intros j. destruct (decide (j < length fs)%nat) as [Hj|Hj].
  - rewrite lookup_app_l by lia. destruct (lookup_lt_is_Some_2 fs j Hj) as [i Hi]. rewrite (Hpk j i Hi).
    rewrite <-(arr_data _ _ _ _ Hv). specialize (Hcopy j (Z.of_nat j) i 0%nat).
    rewrite !Nat.mul_1_r, !Nat.add_0_r, Nat2Z.id in Hcopy. apply Hcopy; [|done|lia].
    by rewrite lookup_seqZ_lt by lia.
  - rewrite Hother.
    + rewrite lookup_app_r by lia. rewrite Hpl. unfold buf. destruct (decide (j < n * P)%nat).
      * by rewrite !lookup_replicate_2 by lia.
      * by rewrite !lookup_ge_None_2 by (rewrite length_replicate; lia).
    + intros mi Hmi%elem_of_seqZ. unfold in_datum. lia.
Qed.

Lemma arr_with_data dims' n' st :
  dims' = Z.of_nat n' :: rest -> shape n' rest -> num_elements_ st = 1%nat ->
  length (var_attr_data_ st) = (n' * P)%nat ->
  (forall i m k, max_dimensions_ v !! i = Some m -> dims' !! i = Some k -> 0 <= m -> k <= m) ->
  array (with_data v dims' st) n' rest (var_attr_data_ st).
Proof.
  intros -> Hs Hn Hl Hm. split; try done; [|apply (arr_elt _ _ _ _ Hv)]. split; simpl.
  - destruct (shape_row _ _ Hs) as [E1 E2]. destruct (size_product_cons (Z.of_nat n') rest) as [E _]; [lia| | |].
    + eapply Forall_impl; [apply (sh_rest _ _ Hs)|]. simpl. lia.
    + pose proof (sh_size _ _ Hs). lia.
    + rewrite E, E1, Hl, Hn. unfold P. lia.
  - by rewrite Hn, (arr_elt _ _ _ _ Hv).
  - done.
Qed.

(** Writing the positions [fs] of the variable. *)
Lemma write_positions file f fs (x tail : list A) :
  createObsStoreSelection file (dimensions_ v) = Ok f ->
  npoints f = Z.of_nat (length fs) -> selects f 1 (n * P) fs -> fs <> [] ->
  length x = length fs -> Z.of_nat (length (x ++ tail)) < 2 ^ 31 ->
  exists st, front_write (x ++ tail) (dtype_ v) (set_block [Z.of_nat (length fs)] [0] [Z.of_nat (length fs)]) file v =
      Ok (with_data v (dimensions_ v) st) /\
    array (with_data v (dimensions_ v) st) n rest (var_attr_data_ st) /\
    (forall j i, fs !! j = Some i -> var_attr_data_ st !! Z.to_nat i = x !! j) /\
    (forall i, Z.of_nat i ∉ fs -> var_attr_data_ st !! i = data !! i).
Proof.
  intros Ef Hf Sf Hne Hx Hb. pose proof (arr_shape _ _ _ _ Hv) as Hs. pose proof arr_length as Hdl.
  assert (Hpos : (0 < length fs)%nat) by (destruct fs; [done|simpl; lia]).
  destruct (mem_block_selects (x ++ tail) (length fs)) as (m & Em & Hm & Sm); [rewrite length_app; lia|done|].
  unfold front_write, Backend_write. rewrite Em. cbn [mbind res_bind]. rewrite Ef. cbn [mbind res_bind].
  rewrite Hf, Hm, decide_False by lia. unfold Variable_write. rewrite Type_neqb_refl.
  pose proof arr_num as Hnum. rewrite <-Hnum in Sm, Sf.
  destruct (write_copies (var_data_ v) (x ++ tail) m f (length (x ++ tail)) (n * P) _ _ Sm Sf)
    with (fuel := Z.to_nat (Z.of_nat (length fs))) as (st & Hw & Hn' & Hl & Hcopy & Hother).
  { rewrite length_seqZ. lia. }
  { rewrite Hnum. lia. }
  { rewrite (arr_data _ _ _ _ Hv), Hdl, Hnum. lia. }
  { rewrite length_seqZ. lia. }
  rewrite Hw. cbn [mbind res_bind]. rewrite Hnum in *. rewrite (arr_data _ _ _ _ Hv) in Hother.
  exists st. split_and!; [done| | |].
  - apply arr_with_data; [apply (arr_dims _ _ _ _ Hv)|done|done|lia|]. apply (vo_max _ (arr_ok _ _ _ _ Hv)).
  - intros j i Hi. apply lookup_lt_Some in Hi as Hj. specialize (Hcopy j (Z.of_nat j) i 0%nat).
    rewrite !Nat.mul_1_r, !Nat.add_0_r, Nat2Z.id in Hcopy. rewrite Hcopy; [|by rewrite lookup_seqZ_lt by lia|done|lia].
    by rewrite lookup_app_l by lia.
  - intros i Hi. apply Hother. intros fi Hfi. unfold in_datum. pose proof (sel_range _ _ _ _ Sf) as Hr.
    rewrite list.Forall_forall in Hr. specialize (Hr fi Hfi). intros Hd. apply Hi. by replace (Z.of_nat i) with fi by lia.
Qed.

(** Writing to the block of [c] rows from [s]. *)
Lemma write_block ext s c (x tail : list A) :
  (0 < c)%nat -> (s + c <= n)%nat -> length x = (c * P)%nat -> Z.of_nat (length (x ++ tail)) < 2 ^ 31 ->
  exists st, front_write (x ++ tail) (dtype_ v) (set_block [Z.of_nat (c * P)] [0] [Z.of_nat (c * P)])
      (set_block ext (Z.of_nat s :: map (fun _ => 0) rest) (Z.of_nat c :: rest)) v =
    Ok (with_data v (dimensions_ v) st) /\
    array (with_data v (dimensions_ v) st) n rest
      (take (s * P) data ++ x ++ drop (s * P + c * P) data).
Proof.
  intros Hc Hsc Hx Hb. pose proof (arr_shape _ _ _ _ Hv) as Hs. destruct (shape_row _ _ Hs) as [EP HP]. fold P in EP, HP.
  destruct (block_selects (Z.of_nat n) rest (sh_rest _ _ Hs) (sh_size _ _ Hs) (sh_row _ _ Hs)
    ext (Z.of_nat s) (Z.of_nat c)) as (f & Ef & Hf & Sf); [lia..|].
  rewrite EP in *. replace (Z.to_nat (Z.of_nat n * Z.of_nat P)) with (n * P)%nat in Sf by lia.
  rewrite <-!Nat2Z.inj_mul in Sf. rewrite <-!Nat2Z.inj_mul in Hf. rewrite <-(arr_dims _ _ _ _ Hv) in Ef. assert (0 < c * P)%nat by nia.
  assert (s * P + c * P <= n * P)%nat by nia. pose proof arr_length as Hdl.
  set (fs := seqZ (Z.of_nat (s * P)) (Z.of_nat (c * P))) in *.
  assert (Hfl : length fs = (c * P)%nat) by (unfold fs; rewrite length_seqZ; lia).
  destruct (write_positions _ f fs x tail Ef) as (st & Hw & Ha & Hin & Hout); [rewrite Hfl; exact Hf|exact Sf| |lia|exact Hb|].
  { unfold fs. rewrite seqZ_cons by lia. done. }
  rewrite Hfl in Hw. exists st. split; [exact Hw|].
  replace (take (s * P) data ++ x ++ drop (s * P + c * P) data) with (var_attr_data_ st); [exact Ha|].
  assert (Hnin : forall j, (j < s * P \/ s * P + c * P <= j)%nat -> var_attr_data_ st !! j = data !! j).
  { intros j Hj. apply Hout. unfold fs. rewrite elem_of_seqZ. lia. }
  apply list_eq. intros j. destruct (decide (j < s * P)%nat) as [H1|H1]; [|destruct (decide (j < s * P + c * P)%nat) as [H2|H2]].
  - rewrite Hnin by lia. rewrite lookup_app_l by (rewrite length_take; lia). by rewrite lookup_take_lt by lia.
  - rewrite lookup_app_r, length_take, Nat.min_l by (rewrite ?length_take; lia). rewrite lookup_app_l by lia.
    rewrite <-(Hin (j - s * P)%nat (Z.of_nat j)); [by rewrite Nat2Z.id|]. unfold fs. rewrite lookup_seqZ_lt by lia. f_equal. lia.
  - rewrite Hnin by lia. rewrite lookup_app_r, length_take, Nat.min_l by (rewrite ?length_take; lia).
    rewrite lookup_app_r, lookup_drop by lia. f_equal. lia.
Qed.

(** Resizing along the first dimension. *)
Lemma resize_rows n' fill :
  shape n' rest -> resize_fill init v = Ok fill ->
  resize_check (max_dimensions_ v) (Z.of_nat n' :: rest) = Ok () ->
  exists st, Variable_resize init (Z.of_nat n' :: rest) v = Ok (with_data v (Z.of_nat n' :: rest) st) /\
    array (with_data v (Z.of_nat n' :: rest) st) n' rest (vec_resize (n' * P) fill data).
Proof.
  intros Hs Hf Hc. unfold Variable_resize. rewrite Hc. cbn [mbind res_bind]. rewrite Hf. cbn [mbind res_bind].
  eexists. split; [reflexivity|]. destruct (shape_row _ _ Hs) as [E1 E2].
  assert (E : size_product (Z.of_nat n' :: rest) = Z.of_nat (n' * P)).
  { destruct (size_product_cons (Z.of_nat n') rest) as [E _]; [lia| | |].
    - eapply Forall_impl; [apply (sh_rest _ _ Hs)|]. simpl. lia.
    - pose proof (sh_size _ _ Hs). lia.
    - rewrite E, E1. unfold P. lia. }
  rewrite E, Nat2Z.id. unfold store_resize. rewrite arr_num, Nat.mul_1_r, (arr_data _ _ _ _ Hv).
  change (vec_resize (n' * P) fill data) with (var_attr_data_ {| var_attr_data_ := vec_resize (n' * P) fill data; num_elements_ := 1 |}) at 2.
  apply arr_with_data; [done|done|done| |].
  - simpl. unfold vec_resize. rewrite length_app, length_take, length_replicate. lia.
  - by eapply resize_check_Ok.
Qed.
End arrays.

(** * Empty blocks *)

Lemma empty_block_selection ext starts cs sizes :
  length starts = S (length cs) -> length sizes = S (length cs) ->
  exists f, createObsStoreSelection (set_block ext starts (0 :: cs)) sizes = Ok f /\ npoints f = 0.
Proof.
  intros Hs Hz. unfold set_block. rewrite create_hyperslab by (by destruct starts). cbn [start_ count_ stride_ block_].
  unfold genDimSelects_hyperslab.
  set (g := fun idim => flat_map (fun i =>
    let block_start := u64 (u64 (default 0 (starts !! idim)) + u64 (Z.of_nat i * u64 1)) in
    map (fun j => u64 (block_start + Z.of_nat j)) (seq 0 (Z.to_nat (u64 1))))
      (seq 0 (Z.to_nat (u64 (default 0 ((0 :: cs) !! idim)))))).
  rewrite (mapR_Ok _ g).
  2:{ intros i Hi%elem_of_seq. destruct (lookup_lt_is_Some_2 starts i) as [s Es]; [lia|].
    destruct (lookup_lt_is_Some_2 (0 :: cs) i) as [c Ec]; [simpl; lia|].
    rewrite (vec_get_Some _ _ _ Es), (vec_get_Some _ _ _ Ec). unfold g. rewrite Es, Ec. done. }
  cbn [mbind res_bind]. unfold Selection_dims. set (sels := map g (seq 0 (length starts))).
  assert (Hl : (0 + length sels = length sizes)%nat) by (unfold sels; rewrite length_map, length_seq; lia).
  pose proof (dims_fold sels sizes 0 1 1 Hl) as E. change (u64 1) with 1 in E.
  change (imap (fun j sel => ((0 + j)%nat, sel)) sels) with (imap (fun j sel => (j, sel)) sels) in E.
  match goal with |- context [foldM ?f ?a ?l] => replace (foldM f a l) with
    (Ok (u64 (1 * Z.of_nat (prod (map length sels))), u64 (1 * prodZ (drop 0 sizes)))) by (symmetry; exact E) end.
  cbn [mbind res_bind]. eexists. split; [reflexivity|]. unfold npoints. cbn [npoints_].
  unfold sels. rewrite Hs. cbn [seq map]. rewrite prod_cons. change (length (g 0%nat)) with 0%nat. done.
Qed.

(** Reading a variable without rows. *)
Lemma read_no_rows {A} (init : A) v rest data mem file m f :
  array v 0 rest data -> mem = set_block [0] [0] [0] ->
  createObsStoreSelection mem [0] = Ok m -> npoints m = 0 ->
  createObsStoreSelection file (dimensions_ v) = Ok f -> npoints f = 0 ->
  front_read init (dtype_ v) mem file v = Ok [].
Proof.
  intros Hv -> Em Hm Ef Hf. unfold front_read. rewrite (arr_product v 0 rest data Hv). cbn [Nat.mul Z.of_nat Z.to_nat replicate].
  unfold Backend_read. unfold mem_dim_sizes. cbn [extent_ set_block]. rewrite Em. cbn [mbind res_bind].
  rewrite Ef. cbn [mbind res_bind]. rewrite Hm, Hf. rewrite decide_False by lia. unfold Variable_read.
  by rewrite Type_neqb_refl.
Qed.

(** * Rows *)

(** [c] rows of [P] elements from row [s], and the rows [idx]. *)
Definition slice {A} (P s c : nat) (data : list A) : list A := take (c * P) (drop (s * P) data).
Definition rows_at {A} (P : nat) (data : list A) (idx : list nat) : list A :=
  concat (map (fun i => slice P i 1 data) idx).

Lemma length_slice {A} P s c n (data : list A) :
  length data = (n * P)%nat -> (s + c <= n)%nat -> length (slice P s c data) = (c * P)%nat.
Proof. intros Hl Hs. unfold slice. rewrite length_take, length_drop. nia. Qed.

Lemma slice_app {A} P s c1 c2 (data : list A) :
  slice P s c1 data ++ slice P (s + c1) c2 data = slice P s (c1 + c2) data.
Proof.
  unfold slice. replace ((c1 + c2) * P)%nat with (c1 * P + c2 * P)%nat by lia.
  rewrite <-(take_take_drop _ (c1 * P)%nat), drop_drop. do 2 f_equal. f_equal. lia.
Qed.

Lemma slice_full {A} P n (data : list A) : length data = (n * P)%nat -> slice P 0 n data = data.
Proof. intros Hl. unfold slice. rewrite Nat.mul_0_l, drop_0. apply take_ge. lia. Qed.

Lemma slice_slice {A} P s c s' c' (data : list A) :
  (s' + c' <= c)%nat -> slice P s' c' (slice P s c data) = slice P (s + s') c' data.
Proof.
  intros Hs. unfold slice. rewrite skipn_firstn_comm, take_take, Nat.min_l by nia. rewrite drop_drop.
  do 2 f_equal. lia.
Qed.

Section row_ops.
Context {A : Type} (init : A) (v : ObsVariable A) (n : nat) (rest : list Z) (data : list A).
Context (Hv : array v n rest data).
Let P := row_size rest.

Lemma pick_seqZ a k :
  (a + k <= n * P)%nat -> pick data (seqZ (Z.of_nat a) (Z.of_nat k)) = take k (drop a data).
Proof.
  intros Hak. pose proof (arr_length _ _ _ _ Hv) as Hl. fold P in Hl.
  destruct (pick_lookup v n rest data Hv (seqZ (Z.of_nat a) (Z.of_nat k))) as [Hpl Hpk].
  { apply list.Forall_forall. intros i Hi%elem_of_seqZ. fold P. lia. }
  rewrite length_seqZ, Nat2Z.id in Hpl. apply list_eq. intros j. destruct (decide (j < k)%nat) as [Hj|Hj].
  - rewrite (Hpk j (Z.of_nat a + Z.of_nat j)) by (by rewrite lookup_seqZ_lt by lia).
    rewrite lookup_take_lt, lookup_drop by lia. f_equal. lia.
  - rewrite !lookup_ge_None_2; [done| |lia]. rewrite length_take, length_drop. lia.
Qed.

Lemma pick_concat fss : pick data (concat fss) = concat (map (pick data) fss).
Proof. induction fss as [|fs fss IH]; simpl; [done|]. unfold pick in *. by rewrite omap_app, IH. Qed.

Lemma read_block ext s c :
  (0 < c)%nat -> (s + c <= n)%nat ->
  front_read init (dtype_ v) (set_block [Z.of_nat (c * P)] [0] [Z.of_nat (c * P)])
    (set_block ext (Z.of_nat s :: map (fun _ => 0) rest) (Z.of_nat c :: rest)) v =
    Ok (slice P s c data ++ replicate (n * P - c * P) init).
Proof.
  intros Hc Hsc. pose proof (arr_shape _ _ _ _ Hv) as Hs. destruct (shape_row _ _ Hs) as [EP HP]. fold P in EP, HP.
  destruct (block_selects (Z.of_nat n) rest (sh_rest _ _ Hs) (sh_size _ _ Hs) (sh_row _ _ Hs)
    ext (Z.of_nat s) (Z.of_nat c)) as (f & Ef & Hf & Sf); [lia..|].
  rewrite EP in *. replace (Z.to_nat (Z.of_nat n * Z.of_nat P)) with (n * P)%nat in Sf by lia.
  rewrite <-!Nat2Z.inj_mul in *. rewrite <-(arr_dims _ _ _ _ Hv) in Ef.
  pose proof (read_positions init v n rest data Hv _ f (seqZ (Z.of_nat (s * P)) (Z.of_nat (c * P))) Ef) as Hr.
  rewrite !length_seqZ, Nat2Z.id in Hr.
  assert (0 < c * P)%nat by nia. assert (s * P + c * P <= n * P)%nat by nia.
  rewrite Hr; [|done|done|rewrite seqZ_cons by lia; done]. by rewrite pick_seqZ by done.
Qed.

Lemma read_indexed idx :
  StronglySorted lt idx -> idx <> [] -> Forall (fun i => (i < n)%nat) idx ->
  front_read init (dtype_ v) (set_block [Z.of_nat (length idx * P)] [0] [Z.of_nat (length idx * P)])
    (createIndexedFrameSelection idx (Z.of_nat n :: rest)) v =
    Ok (rows_at P data idx ++ replicate (n * P - length idx * P) init).
Proof.
  intros Hsort Hne Hidx. pose proof (arr_shape _ _ _ _ Hv) as Hs. destruct (shape_row _ _ Hs) as [EP HP]. fold P in EP, HP.
  destruct (indexed_selects (Z.of_nat n) rest (sh_rest _ _ Hs) (sh_size _ _ Hs) (sh_row _ _ Hs) idx Hsort Hne)
    as (f & Ef & Hf & Sf).
  { eapply Forall_impl; [exact Hidx|]. simpl. lia. }
  rewrite EP in *. replace (Z.to_nat (Z.of_nat n * Z.of_nat P)) with (n * P)%nat in Sf by lia.
  rewrite <-(arr_dims _ _ _ _ Hv) in Ef at 2.
  pose proof (read_positions init v n rest data Hv _ f
    (concat (map (fun i => seqZ (Z.of_nat i * Z.of_nat P) (Z.of_nat P)) idx)) Ef) as Hr.
  rewrite (length_concat_map_uniform _ P) in Hr by (intros; rewrite length_seqZ; lia).
  rewrite Hr; [|lia|done|].
  - rewrite pick_concat, map_map. f_equal. f_equal. unfold rows_at. f_equal. apply map_ext_in.
    intros i Hi%list_elem_of_In. rewrite list.Forall_forall in Hidx. specialize (Hidx i Hi).
    rewrite <-Nat2Z.inj_mul. unfold slice. rewrite Nat.mul_1_l. apply pick_seqZ. nia.
  - destruct idx as [|i idx']; [done|]. simpl. rewrite seqZ_cons by lia. done.
Qed.

Lemma read_all : front_read init (dtype_ v) front_all front_all v = Ok data.
Proof.
  pose proof (arr_shape _ _ _ _ Hv) as Hs. pose proof (shape_bound _ _ Hs) as Hb. fold P in Hb.
  pose proof (arr_length _ _ _ _ Hv) as Hl. fold P in Hl. pose proof (arr_num _ _ _ _ Hv) as Hnum.
  unfold front_read. rewrite (arr_product _ _ _ _ Hv), Nat2Z.id. fold P. set (buf := replicate (n * P) init).
  assert (Hbl : length buf = (n * P)%nat) by apply length_replicate.
  destruct (all_selects (n * P) 1 Hb) as (m & Em & Sm); [lia|].
  destruct (all_walk (Z.of_nat (n * P))) as (m' & Em' & Hnp & _); [lia..|]. rewrite Em in Em'. injection Em' as <-.
  unfold Backend_read, mem_dim_sizes, front_all, createObsStoreSelection. cbn [extent_ default_ actions_].
  rewrite (arr_elt _ _ _ _ Hv), Nat.div_1_r, Hbl. cbn [foldl].
  rewrite Z.mul_1_l, (u64_small (Z.of_nat (n * P))), (u64_small (Z.of_nat (n * P))) by lia. rewrite Em. cbn [mbind res_bind].
  change (foldl (fun n d => u64 (n * u64 d)) 1 (dimensions_ v)) with (size_product (dimensions_ v)).
  rewrite (arr_product _ _ _ _ Hv). fold P. rewrite Em. cbn [mbind res_bind]. rewrite decide_False by lia.
  unfold Variable_read. rewrite Type_neqb_refl. rewrite <-Hnum in Sm.
  destruct (read_copies (var_data_ v) buf m m (n * P) (n * P) _ _ Sm Sm) with (fuel := Z.to_nat (npoints m))
    as (buf' & Hr & Hl' & Hcopy & _); [done|lia|rewrite (arr_data _ _ _ _ Hv); lia|rewrite length_map, length_seq; lia|].
  rewrite Hr. f_equal. rewrite Hnum in *. apply list_eq. intros j. destruct (decide (j < n * P)%nat) as [Hj|Hj].
  - specialize (Hcopy j (Z.of_nat j) (Z.of_nat j) 0%nat). rewrite !Nat.mul_1_r, !Nat.add_0_r, Nat2Z.id, (arr_data _ _ _ _ Hv) in Hcopy.
    apply Hcopy; [by apply lookup_map_seq..|lia].
  - rewrite !lookup_ge_None_2 by lia. done.
Qed.

Lemma write_all x : length x = (n * P)%nat ->
  exists st, front_write x (dtype_ v) front_all front_all v = Ok (with_data v (dimensions_ v) st) /\
    array (with_data v (dimensions_ v) st) n rest x.
Proof.
  intros Hx. pose proof (arr_shape _ _ _ _ Hv) as Hs. pose proof (shape_bound _ _ Hs) as Hb. fold P in Hb.
  pose proof (arr_length _ _ _ _ Hv) as Hl. fold P in Hl. pose proof (arr_num _ _ _ _ Hv) as Hnum.
  destruct (all_selects (n * P) 1 Hb) as (m & Em & Sm); [lia|].
  destruct (all_walk (Z.of_nat (n * P))) as (m' & Em' & Hnp & _); [lia..|]. rewrite Em in Em'. injection Em' as <-.
  unfold front_write, Backend_write, mem_dim_sizes, front_all, createObsStoreSelection. cbn [extent_ default_ actions_].
  rewrite (arr_elt _ _ _ _ Hv), Nat.div_1_r, Hx. cbn [foldl].
  rewrite Z.mul_1_l, (u64_small (Z.of_nat (n * P))), (u64_small (Z.of_nat (n * P))) by lia. rewrite Em. cbn [mbind res_bind].
  change (foldl (fun n d => u64 (n * u64 d)) 1 (dimensions_ v)) with (size_product (dimensions_ v)).
  rewrite (arr_product _ _ _ _ Hv). fold P. rewrite Em. cbn [mbind res_bind]. rewrite decide_False by lia.
  unfold Variable_write. rewrite Type_neqb_refl. rewrite <-Hnum in Sm.
  destruct (write_copies (var_data_ v) x m m (n * P) (n * P) _ _ Sm Sm) with (fuel := Z.to_nat (npoints m))
    as (st & Hw & Hn' & Hl' & Hcopy & _); [done|lia|rewrite (arr_data _ _ _ _ Hv); lia|rewrite length_map, length_seq; lia|].
  rewrite Hw. cbn [mbind res_bind]. rewrite Hnum in *. exists st. split; [done|].
  assert (E : var_attr_data_ st = x).
  { apply list_eq. intros j. destruct (decide (j < n * P)%nat) as [Hj|Hj].
    - specialize (Hcopy j (Z.of_nat j) (Z.of_nat j) 0%nat). rewrite !Nat.mul_1_r, !Nat.add_0_r, Nat2Z.id in Hcopy.
      apply Hcopy; [by apply lookup_map_seq..|lia].
    - rewrite !lookup_ge_None_2 by lia. done. }
  rewrite <-E. eapply (arr_with_data v n rest data Hv); [apply (arr_dims _ _ _ _ Hv)|done|done|fold P; lia|].
  intros i mx k Hi Hk. by apply (vo_max _ (arr_ok _ _ _ _ Hv) i).
Qed.
End row_ops.

(** * The selections of the code *)

Lemma foldl_i32_prod a l :
  0 <= a -> Forall (fun d => 0 < d) l -> a * prodZ l < 2 ^ 31 ->
  foldl (fun acc d => i32 (i64 (acc * d))) a l = a * prodZ l.
Proof.
  intros Ha Hl. revert a Ha. induction Hl as [|d l Hd Hl IH]; intros a Ha Hb.
  - unfold prodZ. simpl. lia.
  - change (prodZ (d :: l)) with (d * prodZ l) in *. pose proof (prodZ_ge1 l Hl).
    assert (a * d * 1 <= a * d * prodZ l) by (apply Z.mul_le_mono_nonneg_l; nia).
    cbn [foldl]. rewrite i64_small, i32_small by nia. rewrite IH by (done || nia). lia.
Qed.

Lemma foldl_i64_prod a l :
  0 <= a -> Forall (fun d => 0 < d) l -> a * prodZ l < 2 ^ 31 ->
  foldl (fun acc d => i64 (acc * d)) a l = a * prodZ l.
Proof.
  intros Ha Hl. revert a Ha. induction Hl as [|d l Hd Hl IH]; intros a Ha Hb.
  - unfold prodZ. simpl. lia.
  - change (prodZ (d :: l)) with (d * prodZ l) in *. pose proof (prodZ_ge1 l Hl).
    assert (a * d * 1 <= a * d * prodZ l) by (apply Z.mul_le_mono_nonneg_l; nia).
    cbn [foldl]. rewrite i64_small by nia. rewrite IH by (done || nia). lia.
Qed.

Section code_selections.
Context (d : Z) (rest : list Z) (s c : nat) (Hs : shape c rest).
Let P := row_size rest.
Let zeros := map (fun _ => 0) rest.

Lemma zeros_eq : replicate (length rest) 0 = zeros.
Proof. unfold zeros. clear. induction rest as [|x l IH]; simpl; [done|]. by rewrite IH. Qed.

Lemma createMemSelection_ok :
  createMemSelection (d :: rest) (Z.of_nat c) = Ok (set_block [Z.of_nat (c * P)] [0] [Z.of_nat (c * P)]).
Proof.
  unfold createMemSelection. rewrite vec_set_lt by (simpl; lia). cbn [mbind res_bind]. simpl insert.
  destruct (shape_row _ _ Hs) as [EP _]. pose proof (sh_size _ _ Hs) as Hb. pose proof (sh_row _ _ Hs) as Hb1.
  pose proof (prodZ_ge1 _ (sh_rest _ _ Hs)).
  assert (Z.of_nat c < 2 ^ 31) by (assert (Z.of_nat c * 1 <= Z.of_nat c * prodZ rest)
    by (apply Z.mul_le_mono_nonneg_l; lia); lia).
  cbn [foldl]. rewrite Z.mul_1_l, i64_small, i32_small by lia.
  rewrite foldl_i32_prod by (lia || apply (sh_rest _ _ Hs) || lia). rewrite EP. fold P. by rewrite Nat2Z.inj_mul.
Qed.

Lemma createEntireFrameSelection_ok :
  createEntireFrameSelection (d :: rest) (Z.of_nat c) =
    Ok (set_block (Z.of_nat c :: rest) (Z.of_nat 0 :: zeros) (Z.of_nat c :: rest)).
Proof.
  unfold createEntireFrameSelection. rewrite vec_set_lt by (simpl; lia). cbn [mbind res_bind]. simpl.
  by rewrite zeros_eq.
Qed.

Lemma createObsIoSelection_ok :
  createObsIoSelection (d :: rest) (Z.of_nat s) (Z.of_nat c) =
    Ok (set_block (d :: rest) (Z.of_nat s :: zeros) (Z.of_nat c :: rest)).
Proof.
  unfold createObsIoSelection. rewrite vec_set_lt by (simpl; lia). cbn [mbind res_bind].
  rewrite vec_set_lt by (simpl; lia). cbn [mbind res_bind]. simpl. by rewrite zeros_eq.
Qed.

Lemma createVarSelection_ok :
  createVarSelection (d :: rest) (Z.of_nat s) (Z.of_nat c) =
    Ok (set_block (d :: rest) (Z.of_nat s :: zeros) (Z.of_nat c :: rest)).
Proof. exact createObsIoSelection_ok. Qed.

Lemma storeVar_selections_ok :
  storeVar_selections (d :: rest) (Z.of_nat s) (Z.of_nat c) =
    Ok (set_block [Z.of_nat (c * P)] [0] [Z.of_nat (c * P)],
        set_block (d :: rest) (Z.of_nat s :: zeros) (Z.of_nat c :: rest)).
Proof.
  unfold storeVar_selections. rewrite vec_set_lt by (simpl; lia). cbn [mbind res_bind].
  change (<[0%nat:=Z.of_nat c]> (d :: rest)) with (Z.of_nat c :: rest). cbn [length replicate].
  rewrite vec_set_lt by (simpl; lia). cbn [mbind res_bind].
  change (<[0%nat:=Z.of_nat s]> (0 :: replicate (length rest) 0)) with (Z.of_nat s :: replicate (length rest) 0).
  rewrite zeros_eq. destruct (shape_row _ _ Hs) as [EP _]. pose proof (sh_size _ _ Hs) as Hb.
  pose proof (prodZ_ge1 _ (sh_rest _ _ Hs)).
  assert (Z.of_nat c < 2 ^ 31) by (assert (Z.of_nat c * 1 <= Z.of_nat c * prodZ rest)
    by (apply Z.mul_le_mono_nonneg_l; lia); lia).
  cbn [foldl]. rewrite Z.mul_1_l, i64_small by lia.
  rewrite foldl_i64_prod by (lia || apply (sh_rest _ _ Hs) || lia). rewrite EP. fold P. by rewrite Nat2Z.inj_mul.
Qed.
End code_selections.

(** Creating a variable. *)
Lemma create_array {A} (init : A) n rest max_dims dtype t (fill : option A) :
  createVarAttrStore dtype = Ok (t, 1%nat) -> ty_num_elements dtype = 1%nat -> shape n rest ->
  resize_check max_dims (Z.of_nat n :: rest) = Ok () ->
  exists v data, Variable_new init (Z.of_nat n :: rest) max_dims dtype fill (option_list fill) = Ok v /\
    array v n rest data /\ dtype_ v = dtype /\ fvdata_ v = fill /\ max_dimensions_ v = max_dims /\
    resize_fill init v = Ok (default init fill) /\
    (forall x, fill = Some x -> data = replicate (n * row_size rest) x).
Proof.
  intros Hty Hn Hs Hc. destruct fill as [x|]; simpl.
  - destruct (Variable_new_filled init (Z.of_nat n :: rest) max_dims dtype t x x [])
      as (v & Hnew & Hok & Hd & _ & Ht & Hf & Hm & Hfill & Hall); [by rewrite Hn|by rewrite Hn|rewrite Hn; lia|done|].
    assert (Ha : array v n rest (var_attr_data_ (var_data_ v))) by (split; [done..|by rewrite Ht|done|done]).
    exists v, (var_attr_data_ (var_data_ v)). split_and!; try done. intros y [= <-].
    pose proof (arr_length v n rest _ Ha) as Hl. apply list_eq_same_length with (n * row_size rest)%nat; [by rewrite length_replicate|done|].
    intros i a b Hi Hx Hy. rewrite Hall in Hx by lia. apply lookup_replicate in Hy as [-> _]. congruence.
  - destruct (Variable_new_unfilled init (Z.of_nat n :: rest) max_dims dtype t)
      as (v & Hnew & Hok & Hd & _ & Ht & Hf & Hm & Hfill); [by rewrite Hn|done|].
    exists v, (var_attr_data_ (var_data_ v)). split_and!; try done. split; try done. by rewrite Ht.
Qed.
