(* ===== verification/ObsFrameRead.v ===== *)
(** Reading an observation source frame by frame: src/src/io/ObsFrameRead.cc,
    src/src/io/ObsFrame.cc and the date conversions of src/src/core/IodaUtils.cc.

    One rank is modelled.  The source is a group of in-memory variables (the
    generators and the ODB reader of ioda produce one); the frame is another. *)
From stdpp Require Import base list gmap strings pretty sorting.
From Stdlib Require Import ZArith.
From S2P Require Import Prelude Selection VarAttrStore ObsTypes ObsAttributes ObsVariables ObsFrame.
Local Open Scope Z_scope.

(** * Values

    Single-precision floats, dates and the missing-value marks of oops are
    parameters. *)
Class FloatOps (F : Type) := {
  f_zero : F;
  f_eqb : F -> F -> bool;
  f_isinf : F -> bool;
  f_isnan : F -> bool;
  f_to_string : F -> string;
  (* lround(x * 3600.0) *)
  f_hours_to_seconds : F -> Z
}.

(** util::DateTime *)
Class DateTimeOps (DT : Type) := {
  dt_of_string : string -> res DT;
  dt_add : DT -> Z -> DT;
  dt_diff : DT -> DT -> Z;
  dt_ltb : DT -> DT -> bool;
  dt_leb : DT -> DT -> bool;
  dt_missing : DT
}.

(** util::missingValue<T>() *)
Class MissingValues (F : Type) := {
  missing_int : Z;
  missing_int64 : Z;
  missing_float : F;
  missing_string : string;
  missing_char : Z
}.

(** The MPI distribution as one rank uses it while reading. *)
Class ReaderDist (D Pt : Type) := {
  rd_assignRecord : D -> nat -> nat -> Pt -> res D;
  rd_isMyRecord : D -> nat -> bool
}.

Inductive Val (F : Type) :=
  | VInt (z : Z)
  | VInt64 (z : Z)
  | VFloat (f : F)
  | VString (s : string)
  | VChar (z : Z).
Arguments VInt {F} z.
Arguments VInt64 {F} z.
Arguments VFloat {F} f.
Arguments VString {F} s.
Arguments VChar {F} z.

(** The types of the variables ioda supports, as the in-memory backend makes
    them. *)
Definition int_t : OType := Type_fundamental INT INTEGER 4 true.
Definition int64_t : OType := Type_fundamental LONG INTEGER 8 true.
Definition float_t : OType := Type_fundamental FLOAT CFLOAT 4 false.
Definition string_t : OType := Type_fundamental STRING CSTRING 8 false.
Definition char_t : OType := Type_fundamental CHAR NOCLASS 1 false.

(** A variable with the names of the dimensions attached to it, and a group with
    its dimension scales and its other variables.  The coordinate values of the
    dimension scales and the attributes of variables and groups are not
    modelled. *)
Record FrameVar (F : Type) := { fv_dims : list string; fv_var : ObsVariable (Val F) }.
Arguments fv_dims {F} _.
Arguments fv_var {F} _.

Record ObsGroup (F : Type) := {
  g_dim_names : list string;
  (* current and maximum size *)
  g_dims : gmap string (Z * Z);
  g_names : list string;
  g_vars : gmap string (FrameVar F)
}.
Arguments g_dim_names {F} _.
Arguments g_dims {F} _.
Arguments g_names {F} _.
Arguments g_vars {F} _.

Section Group.
Context {F : Type} `{FO : FloatOps F}.

(** Value initialisation of the elements of a type. *)
Definition zero_val (t : OType) : Val F :=
  match ty_type t with
  | LONG => VInt64 0
  | FLOAT => VFloat f_zero
  | STRING => VString ""
  | CHAR => VChar 0
  | _ => VInt 0
  end.

Definition has_type (t : OType) (x : Val F) : Prop :=
  match x with
  | VInt _ => t = int_t
  | VInt64 _ => t = int64_t
  | VFloat _ => t = float_t
  | VString _ => t = string_t
  | VChar _ => t = char_t
  end.

(** [VarUtils::forAnySupportedVariableType]: the type the action is called with. *)
Definition supportedType (v : ObsVariable (Val F)) : res OType :=
  if isOfType int_t v then Ok int_t
  else if isOfType int64_t v then Ok int64_t
  else if isOfType float_t v then Ok float_t
  else if isOfType string_t v then Ok string_t
  else if isOfType char_t v then Ok char_t
  else Throw (EException "Variable is not of any supported type").

Definition val_int64 (x : Val F) : res Z := match x with VInt64 z => Ok z | _ => Throw EUndefined end.
Definition val_float (x : Val F) : res F := match x with VFloat f => Ok f | _ => Throw EUndefined end.
Definition val_string (x : Val F) : res string := match x with VString s => Ok s | _ => Throw EUndefined end.

(** [detail::to_string] *)
Definition val_to_string (x : Val F) : string :=
  match x with
  | VInt z | VInt64 z | VChar z => pretty z
  | VFloat f => f_to_string f
  | VString s => s
  end.

(** [var.getFillValue()] read as a float: the bytes of an unset fill value are
    zero. *)
Definition float_fill (v : ObsVariable (Val F)) : res F :=
  match fvdata_ v with Some x => val_float x | None => Ok f_zero end.

Definition vars_exists (name : string) (g : ObsGroup F) : bool := bool_decide (is_Some (g_vars g !! name)).
Definition vars_open (name : string) (g : ObsGroup F) : res (FrameVar F) :=
  match g_vars g !! name with
  | Some v => Ok v
  | None => Throw (EException "variable does not exist")
  end.
Definition dim_open (name : string) (g : ObsGroup F) : res (Z * Z) :=
  match g_dims g !! name with
  | Some d => Ok d
  | None => Throw (EException "variable does not exist")
  end.

Definition set_vars (g : ObsGroup F) (vars : gmap string (FrameVar F)) : ObsGroup F :=
  {| g_dim_names := g_dim_names g; g_dims := g_dims g; g_names := g_names g; g_vars := vars |}.

(** An operation on a variable that is opened by its name. *)
Definition vars_update (name : string) (f : FrameVar F -> res (ObsVariable (Val F))) (g : ObsGroup F)
  : res (ObsGroup F) :=
  v ← vars_open name g;
  v' ← f v;
  Ok (set_vars g (<[name := {| fv_dims := fv_dims v; fv_var := v' |}]> (g_vars g))).

(** [createWithScales]: the dimensions come from the scales. *)
Definition createWithScales (name : string) (dims : list string) (dtype : OType) (fill : option (Val F))
    (g : ObsGroup F) : res (ObsGroup F) :=
  sizes ← mapR (fun d => dim_open d g) dims;
  v ← Variable_new (zero_val dtype) (map fst sizes) (map snd sizes) dtype fill (option_list fill);
  Ok {| g_dim_names := g_dim_names g; g_dims := g_dims g; g_names := g_names g ++ [name];
        g_vars := <[name := {| fv_dims := dims; fv_var := v |}]> (g_vars g) |}.

(** [ObsGroup::resizeVars] for one variable: the dimensions named [dim] get the
    new size. *)
Definition resize_var (dim : string) (newSize : Z) (v : FrameVar F) : res (ObsVariable (Val F)) :=
  let varNewDims := zip_with (fun d n => if decide (d = dim) then newSize else n)
    (fv_dims v) (dimensions_ (fv_var v)) in
  Variable_resize (zero_val (dtype_ (fv_var v))) varNewDims (fv_var v).

(** [ObsGroup::resize] of one dimension. *)
Definition ObsGroup_resize (dim : string) (newSize : Z) (g : ObsGroup F) : res (ObsGroup F) :=
  '(_, mx) ← dim_open dim g;
  _ ← resize_check [mx] [newSize];
  foldM (fun g name => vars_update name (resize_var dim newSize) g)
    {| g_dim_names := g_dim_names g; g_dims := <[dim := (newSize, mx)]> (g_dims g);
       g_names := g_names g; g_vars := g_vars g |} (g_names g).

(** [ObsFrame::isVarDimByLocation_Impl] *)
Definition isVarDimByLocation_Impl (varName : string) (g : ObsGroup F) : res bool :=
  match g_vars g !! varName with
  | Some v => d ← vec_get (fv_dims v) 0; Ok (bool_decide (d = "Location"))
  | None => Ok false
  end.

(** The size of the longest variable, from [VarUtils::collectVarDimInfo]. *)
Definition maxVarSize0 (g : ObsGroup F) : Z :=
  foldl Z.max 0
    (omap (fun d => fst <$> g_dims g !! d) (g_dim_names g) ++
     omap (fun v => v' ← g_vars g !! v; dimensions_ (fv_var v') !! 0%nat) (g_names g)).
End Group.

(** * ObsFrameRead *)

(** The configuration.  [frame_epoch] is the date the "units" attribute of
    MetaData/dateTime of the frame gives ([getEpochAsDtime]). *)
Record ReadParams (DT : Type) := {
  windowStart : DT;
  windowEnd : DT;
  frame_epoch : DT;
  applyLocationsCheck : bool;
  max_frame_size_ : Z;
  obs_grouping_vars_ : list string
}.
Arguments windowStart {DT} _.
Arguments windowEnd {DT} _.
Arguments frame_epoch {DT} _.
Arguments applyLocationsCheck {DT} _.
Arguments max_frame_size_ {DT} _.
Arguments obs_grouping_vars_ {DT} _.

(** The counters and lists the frames add to. *)
Record Tally (D : Type) := {
  next_rec_num_ : nat;
  obs_grouping_ : gmap string nat;
  gnlocs_ : Z;
  gnlocs_outside_timewindow_ : Z;
  nlocs_ : Z;
  nrecs_ : Z;
  indx_ : list nat;
  recnums_ : list nat;
  unique_rec_nums_ : gset nat;
  dist_ : D
}.
Arguments next_rec_num_ {D} _.
Arguments obs_grouping_ {D} _.
Arguments gnlocs_ {D} _.
Arguments gnlocs_outside_timewindow_ {D} _.
Arguments nlocs_ {D} _.
Arguments nrecs_ {D} _.
Arguments indx_ {D} _.
Arguments recnums_ {D} _.
Arguments unique_rec_nums_ {D} _.
Arguments dist_ {D} _.

(** The state: the position, the frame with the selections cached for it, and
    the tally. *)
Record FrameRead (F D : Type) := {
  frame_start_ : Z;
  adjusted_location_frame_start_ : Z;
  adjusted_location_frame_count_ : Z;
  frame_loc_index_ : list nat;
  obs_frame_ : ObsGroup F;
  known_frame_selections_ : gmap (list string) FrontSelection;
  known_mem_selections_ : gmap (list string) FrontSelection;
  tally_ : Tally D
}.
Arguments frame_start_ {F D} _.
Arguments adjusted_location_frame_start_ {F D} _.
Arguments adjusted_location_frame_count_ {F D} _.
Arguments frame_loc_index_ {F D} _.
Arguments obs_frame_ {F D} _.
Arguments known_frame_selections_ {F D} _.
Arguments known_mem_selections_ {F D} _.
Arguments tally_ {F D} _.

Section Reader.
Context {F DT D : Type} `{FO : FloatOps F} `{DO : DateTimeOps DT} `{MV : MissingValues F} `{RD : ReaderDist D (F * F)}.
Context (p : ReadParams DT) (src : ObsGroup F).

(** The representation of dates in the source: epoch, string, offset. *)
Definition use_epoch_datetime_ : bool := vars_exists "MetaData/dateTime" src.
Definition use_string_datetime_ : bool := negb use_epoch_datetime_ && vars_exists "MetaData/datetime" src.
Definition use_offset_datetime_ : bool :=
  negb use_epoch_datetime_ && negb use_string_datetime_ && vars_exists "MetaData/time" src.

Definition initial_tally (dist : D) : Tally D :=
  {| next_rec_num_ := 0; obs_grouping_ := ∅; gnlocs_ := 0; gnlocs_outside_timewindow_ := 0; nlocs_ := 0;
     nrecs_ := 0; indx_ := []; recnums_ := []; unique_rec_nums_ := ∅; dist_ := dist |}.

(** The checks of the constructor. *)
Definition ObsFrameRead_check : res unit :=
  '(backend_nlocs, _) ← dim_open "Location" src;
  let haveRequiredMetadata := (use_epoch_datetime_ || use_string_datetime_ || use_offset_datetime_) &&
    vars_exists "MetaData/latitude" src && vars_exists "MetaData/longitude" src in
  if bool_decide (0 < backend_nlocs) && negb haveRequiredMetadata
  then Throw (EException "One or more of the following metadata variables are missing")
  else Ok ().

(** [createFrameFromObsGroup]: dimensions other than Channel are limited to the
    size of a frame. *)
Definition frame_dim_size (dimName : string) (dimSize : Z) : Z :=
  if decide (dimName <> "Channel") then
    if decide (max_frame_size_ p < dimSize) then max_frame_size_ p else dimSize
  else dimSize.

Definition frame_dim (dims : gmap string (Z * Z)) (dimName : string) : res (gmap string (Z * Z)) :=
  '(dimSize, _) ← dim_open dimName src;
  let dimSize := frame_dim_size dimName dimSize in
  Ok (<[dimName := (dimSize, dimSize)]> dims).

Definition frame_create_var (frame : ObsGroup F) (varName : string) : res (ObsGroup F) :=
  sourceVar ← vars_open varName src;
  dtype ← supportedType (fv_var sourceVar);
  createWithScales varName (fv_dims sourceVar) dtype (fvdata_ (fv_var sourceVar)) frame.

Definition createFrameFromObsGroup : res (ObsGroup F) :=
  dims ← foldM frame_dim ∅ (g_dim_names src);
  frame ← foldM frame_create_var
    {| g_dim_names := g_dim_names src; g_dims := dims; g_names := []; g_vars := ∅ |} (g_names src);
  if use_string_datetime_ || use_offset_datetime_
  then createWithScales "MetaData/dateTime" ["Location"] int64_t None frame
  else Ok frame.

(** [frameInit] of a new object. *)
Definition frameInit (dist : D) : res (FrameRead F D) :=
  frame ← createFrameFromObsGroup;
  Ok {| frame_start_ := 0; adjusted_location_frame_start_ := 0; adjusted_location_frame_count_ := 0;
        frame_loc_index_ := []; obs_frame_ := frame; known_frame_selections_ := ∅;
        known_mem_selections_ := ∅; tally_ := initial_tally dist |}.

Definition frameNext (st : FrameRead F D) : FrameRead F D :=
  {| frame_start_ := frame_start_ st + max_frame_size_ p;
     adjusted_location_frame_start_ :=
       adjusted_location_frame_start_ st + adjusted_location_frame_count_ st;
     adjusted_location_frame_count_ := adjusted_location_frame_count_ st;
     frame_loc_index_ := frame_loc_index_ st; obs_frame_ := obs_frame_ st;
     known_frame_selections_ := known_frame_selections_ st;
     known_mem_selections_ := known_mem_selections_ st; tally_ := tally_ st |}.

Definition basicFrameCount (start : Z) (varSize0 : Z) : Z :=
  if decide (varSize0 < start + max_frame_size_ p) then
    let count := varSize0 - start in
    if decide (count < 0) then 0 else count
  else max_frame_size_ p.

Definition frameCount (st : FrameRead F D) (varName : string) : res Z :=
  let useVarName :=
    if use_string_datetime_ && bool_decide (varName = "MetaData/dateTime") then "MetaData/datetime"
    else if use_offset_datetime_ && bool_decide (varName = "MetaData/dateTime") then "MetaData/time"
    else varName in
  match g_dims src !! useVarName with
  | Some (size, _) => Ok (basicFrameCount (frame_start_ st) size)
  | None =>
      v ← vars_open useVarName src;
      byLocation ← isVarDimByLocation_Impl useVarName src;
      if (byLocation : bool) then Ok (adjusted_location_frame_count_ st)
      else
        size ← vec_get (dimensions_ (fv_var v)) 0;
        Ok (basicFrameCount (frame_start_ st) size)
  end.

(** One iteration of the loop of [frameAvailable] that fills the frame. *)
Definition frame_transfer (start : Z) (frame : ObsGroup F) (varName : string) : res (ObsGroup F) :=
  sourceVar ← vars_open varName src;
  let varShape := dimensions_ (fv_var sourceVar) in
  size ← vec_get varShape 0;
  let count := basicFrameCount start size in
  if decide (0 < count) then
    obsIoSelect ← createObsIoSelection varShape start count;
    memBufferSelect ← createMemSelection varShape count;
    obsFrameSelect ← createEntireFrameSelection varShape count;
    vars_update varName (fun destVar =>
        t ← supportedType (fv_var destVar);
        varValues ← front_read (zero_val t) t memBufferSelect obsIoSelect (fv_var sourceVar);
        front_write varValues t memBufferSelect obsFrameSelect (fv_var destVar)) frame
  else Ok frame.

(** [convertDtStringsToTimeOffsets] *)
Definition convertDtStringsToTimeOffsets (epochDtime : DT) (dtStrings : list string) : res (list Z) :=
  mapR (fun s => dtime ← dt_of_string s; Ok (dt_diff dtime epochDtime)) dtStrings.

(** [convertEpochDtToDtime] *)
Definition convertEpochDtToDtime (epochDtime : DT) (timeOffsets : list Z) : list DT :=
  map (fun t => if decide (t = missing_int64) then dt_missing else dt_add epochDtime t) timeOffsets.

(** The conversion of string and offset dates in [frameAvailable]. *)
Definition frame_datetimes (frame : ObsGroup F) : res (ObsGroup F) :=
  if use_string_datetime_ then
    stringDtVar ← vars_open "MetaData/datetime" frame;
    dtStrings ← front_read (VString "") string_t front_all front_all (fv_var stringDtVar);
    dtStrings ← mapR val_string dtStrings;
    timeOffsets ← convertDtStringsToTimeOffsets (windowStart p) dtStrings;
    vars_update "MetaData/dateTime" (fun v =>
      front_write (map VInt64 timeOffsets) int64_t front_all front_all (fv_var v)) frame
  else if use_offset_datetime_ then
    offsetDtVar ← vars_open "MetaData/time" frame;
    dtTimeOffsets ← front_read (VFloat f_zero) float_t front_all front_all (fv_var offsetDtVar);
    dtTimeOffsets ← mapR val_float dtTimeOffsets;
    let timeOffsets := map f_hours_to_seconds dtTimeOffsets in
    vars_update "MetaData/dateTime" (fun v =>
      front_write (map VInt64 timeOffsets) int64_t front_all front_all (fv_var v)) frame
  else Ok frame.

Definition set_frame (st : FrameRead F D) (frame : ObsGroup F) : FrameRead F D :=
  {| frame_start_ := frame_start_ st;
     adjusted_location_frame_start_ := adjusted_location_frame_start_ st;
     adjusted_location_frame_count_ := adjusted_location_frame_count_ st;
     frame_loc_index_ := frame_loc_index_ st; obs_frame_ := frame;
     known_frame_selections_ := known_frame_selections_ st;
     known_mem_selections_ := known_mem_selections_ st; tally_ := tally_ st |}.

Definition insideTimingWindow (obsDt : DT) : bool :=
  dt_ltb (windowStart p) obsDt && dt_leb obsDt (windowEnd p).

Definition genFrameLocationsAll (st : FrameRead F D) : res (list nat * list nat * Tally D) :=
  locSize ← frameCount st "Location";
  let t := tally_ st in
  Ok (seq (Z.to_nat (frame_start_ st)) (Z.to_nat locSize), seq 0 (Z.to_nat locSize),
      {| next_rec_num_ := next_rec_num_ t; obs_grouping_ := obs_grouping_ t; gnlocs_ := gnlocs_ t + locSize;
         gnlocs_outside_timewindow_ := gnlocs_outside_timewindow_ t; nlocs_ := nlocs_ t; nrecs_ := nrecs_ t;
         indx_ := indx_ t; recnums_ := recnums_ t; unique_rec_nums_ := unique_rec_nums_ t; dist_ := dist_ t |}).

(** The loop of [genFrameLocationsWithQcheck]. *)
Definition qcheck_step (dtimeVals : list DT) (lats lons : list F) (latFillValue lonFillValue : F)
    (start : nat) (s : list nat * list nat * Z) (i : nat) : res (list nat * list nat * Z) :=
  let '(locIndex, frameIndex, outside) := s in
  dtime ← vec_get dtimeVals i;
  let keep := insideTimingWindow dtime in
  let outside := if keep then outside else outside + 1 in
  keep ← (if keep then lat ← vec_get lats i; Ok (negb (f_eqb lat latFillValue)) else Ok false);
  keep ← (if (keep : bool) then lon ← vec_get lons i; Ok (negb (f_eqb lon lonFillValue)) else Ok false);
  if (keep : bool) then Ok (locIndex ++ [(start + i)%nat], frameIndex ++ [i], outside)
  else Ok (locIndex, frameIndex, outside).

Definition genFrameLocationsWithQcheck (st : FrameRead F D) : res (list nat * list nat * Tally D) :=
  count ← frameCount st "Location";
  dtVar ← vars_open "MetaData/dateTime" (obs_frame_ st);
  let varShape := dimensions_ (fv_var dtVar) in
  memSelect ← createMemSelection varShape count;
  frameSelect ← createEntireFrameSelection varShape count;
  timeOffsets ← front_read (VInt64 0) int64_t front_all front_all (fv_var dtVar);
  timeOffsets ← mapR val_int64 timeOffsets;
  let dtimeVals := convertEpochDtToDtime (frame_epoch p) timeOffsets in
  latVar ← vars_open "MetaData/latitude" (obs_frame_ st);
  lats ← front_read (VFloat f_zero) float_t memSelect frameSelect (fv_var latVar);
  lats ← mapR val_float lats;
  latFillValue ← float_fill (fv_var latVar);
  lonVar ← vars_open "MetaData/longitude" (obs_frame_ st);
  lons ← front_read (VFloat f_zero) float_t memSelect frameSelect (fv_var lonVar);
  lons ← mapR val_float lons;
  lonFillValue ← float_fill (fv_var lonVar);
  let t := tally_ st in
  '(locIndex, frameIndex, outside) ←
    foldM (qcheck_step dtimeVals lats lons latFillValue lonFillValue (Z.to_nat (frame_start_ st)))
      ([], [], gnlocs_outside_timewindow_ t) (seq 0 (Z.to_nat count));
  Ok (locIndex, frameIndex,
      {| next_rec_num_ := next_rec_num_ t; obs_grouping_ := obs_grouping_ t;
         gnlocs_ := gnlocs_ t + Z.of_nat (length locIndex);
         gnlocs_outside_timewindow_ := outside; nlocs_ := nlocs_ t; nrecs_ := nrecs_ t;
         indx_ := indx_ t; recnums_ := recnums_ t; unique_rec_nums_ := unique_rec_nums_ t; dist_ := dist_ t |}).

Definition set_numbering (t : Tally D) (next : nat) (grouping : gmap string nat) : Tally D :=
  {| next_rec_num_ := next; obs_grouping_ := grouping; gnlocs_ := gnlocs_ t;
     gnlocs_outside_timewindow_ := gnlocs_outside_timewindow_ t; nlocs_ := nlocs_ t; nrecs_ := nrecs_ t;
     indx_ := indx_ t; recnums_ := recnums_ t; unique_rec_nums_ := unique_rec_nums_ t; dist_ := dist_ t |}.

Definition genRecordNumbersAll (locIndex : list nat) (t : Tally D) : list nat * Tally D :=
  let '(records, next) := foldl (fun '(records, next) _ => (records ++ [next], S next))
    ([], next_rec_num_ t) locIndex in
  (records, set_numbering t next (obs_grouping_ t)).

(** The loop of [buildObsGroupingKeys] over the grouping variables. *)
Definition key_segments (st : FrameRead F D) (frameIndex : list nat) (keys : list string)
    (iv : nat * string) : res (list string) :=
  let '(i, obsGroupVarName) := iv in
  let varName := "MetaData/" +:+ obsGroupVarName in
  groupVar ← vars_open varName (obs_frame_ st);
  (* an exception is constructed, but not thrown, for a variable without
     Location as its first dimension *)
  _ ← isVarDimByLocation_Impl varName src;
  count ← frameCount st "Location";
  let varShape := dimensions_ (fv_var groupVar) in
  memSelect ← createMemSelection varShape count;
  frameSelect ← createEntireFrameSelection varShape count;
  t ← supportedType (fv_var groupVar);
  groupVarValues ← front_read (zero_val t) t memSelect frameSelect (fv_var groupVar);
  let groupVarValues := vec_resize (Z.to_nat count) (zero_val t) groupVarValues in
  mapR (fun '(fi, key) =>
      x ← vec_get groupVarValues fi;
      Ok (if (i =? 0)%nat then val_to_string x else key +:+ ":" +:+ val_to_string x))
    (zip frameIndex keys).

Definition buildObsGroupingKeys (st : FrameRead F D) (frameIndex : list nat) : res (list string) :=
  foldM (key_segments st frameIndex) (replicate (length frameIndex) "")
    (imap (fun i v => (i, v)) (obs_grouping_vars_ p)).

(** The numbering of the keys. *)
Definition number_key (s : list nat * nat * gmap string nat) (key : string) : list nat * nat * gmap string nat :=
  let '(records, next, grouping) := s in
  match grouping !! key with
  | Some r => (records ++ [r], next, grouping)
  | None => (records ++ [next], S next, <[key := next]> grouping)
  end.

Definition genRecordNumbersGrouping (st : FrameRead F D) (frameIndex : list nat) (t : Tally D)
  : res (list nat * Tally D) :=
  obsGroupingKeys ← buildObsGroupingKeys st frameIndex;
  let '(records, next, grouping) := foldl number_key ([], next_rec_num_ t, obs_grouping_ t) obsGroupingKeys in
  Ok (records, set_numbering t next grouping).

(** One iteration of the loop of [applyMpiDistribution]: the tally and
    [frame_loc_index_]. *)
Definition distribute_step (start : nat) (lats lons : list F) (s : Tally D * list nat) (lr : nat * nat)
  : res (Tally D * list nat) :=
  let '(t, frame_loc_index) := s in
  let '(rowNum, recNum) := lr in
  let frameIndex := (rowNum - start)%nat in
  lon ← vec_get lons frameIndex;
  lat ← vec_get lats frameIndex;
  dist ← rd_assignRecord (dist_ t) recNum rowNum (lon, lat);
  if rd_isMyRecord dist recNum then
    Ok ({| next_rec_num_ := next_rec_num_ t; obs_grouping_ := obs_grouping_ t; gnlocs_ := gnlocs_ t;
           gnlocs_outside_timewindow_ := gnlocs_outside_timewindow_ t; nlocs_ := nlocs_ t + 1;
           nrecs_ := nrecs_ t; indx_ := indx_ t ++ [rowNum]; recnums_ := recnums_ t ++ [recNum];
           unique_rec_nums_ := {[recNum]} ∪ unique_rec_nums_ t; dist_ := dist |},
        frame_loc_index ++ [frameIndex])
  else
    Ok ({| next_rec_num_ := next_rec_num_ t; obs_grouping_ := obs_grouping_ t; gnlocs_ := gnlocs_ t;
           gnlocs_outside_timewindow_ := gnlocs_outside_timewindow_ t; nlocs_ := nlocs_ t;
           nrecs_ := nrecs_ t; indx_ := indx_ t; recnums_ := recnums_ t;
           unique_rec_nums_ := unique_rec_nums_ t; dist_ := dist |}, frame_loc_index).

Definition set_nrecs (t : Tally D) : Tally D :=
  {| next_rec_num_ := next_rec_num_ t; obs_grouping_ := obs_grouping_ t; gnlocs_ := gnlocs_ t;
     gnlocs_outside_timewindow_ := gnlocs_outside_timewindow_ t; nlocs_ := nlocs_ t;
     nrecs_ := Z.of_nat (size (unique_rec_nums_ t)); indx_ := indx_ t; recnums_ := recnums_ t;
     unique_rec_nums_ := unique_rec_nums_ t; dist_ := dist_ t |}.

Definition applyMpiDistribution (st : FrameRead F D) (locIndex records : list nat) (t : Tally D)
  : res (Tally D * list nat) :=
  count ← frameCount st "Location";
  if negb (vars_exists "MetaData/longitude" (obs_frame_ st))
  then Throw (EUserError "MetaData/longitude not found in observations file")
  else
  lonVar ← vars_open "MetaData/longitude" (obs_frame_ st);
  let varShape := dimensions_ (fv_var lonVar) in
  memSelect ← createMemSelection varShape count;
  frameSelect ← createEntireFrameSelection varShape count;
  lons ← front_read (VFloat f_zero) float_t memSelect frameSelect (fv_var lonVar);
  lons ← mapR val_float (vec_resize (Z.to_nat count) (VFloat f_zero) lons);
  if negb (vars_exists "MetaData/latitude" (obs_frame_ st))
  then Throw (EUserError "MetaData/latitude not found in observations file")
  else
  latVar ← vars_open "MetaData/latitude" (obs_frame_ st);
  lats ← front_read (VFloat f_zero) float_t memSelect frameSelect (fv_var latVar);
  lats ← mapR val_float (vec_resize (Z.to_nat count) (VFloat f_zero) lats);
  '(t, frame_loc_index) ←
    foldM (distribute_step (Z.to_nat (frame_start_ st)) lats lons) (t, []) (zip locIndex records);
  Ok (set_nrecs t, frame_loc_index).

Definition genFrameIndexRecNums (st : FrameRead F D) : res (FrameRead F D) :=
  '(locIndex, frameIndex, t) ←
    (if applyLocationsCheck p then genFrameLocationsWithQcheck st else genFrameLocationsAll st);
  '(records, t) ←
    (match obs_grouping_vars_ p with
     | [] => Ok (genRecordNumbersAll locIndex t)
     | _ => genRecordNumbersGrouping st frameIndex t
     end);
  '(t, frame_loc_index) ← applyMpiDistribution st locIndex records t;
  Ok {| frame_start_ := frame_start_ st;
        adjusted_location_frame_start_ := adjusted_location_frame_start_ st;
        adjusted_location_frame_count_ := Z.of_nat (length frame_loc_index);
        frame_loc_index_ := frame_loc_index; obs_frame_ := obs_frame_ st;
        known_frame_selections_ := known_frame_selections_ st;
        known_mem_selections_ := known_mem_selections_ st; tally_ := t |}.

Definition clear_selections (st : FrameRead F D) : FrameRead F D :=
  {| frame_start_ := frame_start_ st;
     adjusted_location_frame_start_ := adjusted_location_frame_start_ st;
     adjusted_location_frame_count_ := adjusted_location_frame_count_ st;
     frame_loc_index_ := frame_loc_index_ st; obs_frame_ := obs_frame_ st;
     known_frame_selections_ := ∅; known_mem_selections_ := ∅; tally_ := tally_ st |}.

(** [frameAvailable]: after the last frame, [computePatchLocs] is called on the
    distribution, which is collective. *)
Definition frameAvailable (st : FrameRead F D) : res (bool * FrameRead F D) :=
  if decide (frame_start_ st < maxVarSize0 src) then
    count ← frameCount st "Location";
    frame ← ObsGroup_resize "Location" count (obs_frame_ st);
    frame ← foldM (frame_transfer (frame_start_ st)) frame (g_names src);
    frame ← frame_datetimes frame;
    st ← genFrameIndexRecNums (set_frame st frame);
    Ok (true, clear_selections st)
  else Ok (false, st).

(** [readFrameVarHelper]: [None] when the frame has nothing of the variable. *)
Definition readFrameVar (st : FrameRead F D) (varName : string)
  : res (option (list (Val F)) * FrameRead F D) :=
  count ← frameCount st varName;
  if decide (0 < count) then
    frameVar ← vars_open varName (obs_frame_ st);
    let varShape := dimensions_ (fv_var frameVar) in
    let dims := fv_dims frameVar in
    st ← (match known_mem_selections_ st !! dims with
      | Some _ => Ok st
      | None =>
          mem ← createMemSelection varShape count;
          byLocation ← isVarDimByLocation_Impl varName (obs_frame_ st);
          frameSel ← (if (byLocation : bool) then Ok (createIndexedFrameSelection (frame_loc_index_ st) varShape)
                      else createEntireFrameSelection varShape count);
          Ok {| frame_start_ := frame_start_ st;
                adjusted_location_frame_start_ := adjusted_location_frame_start_ st;
                adjusted_location_frame_count_ := adjusted_location_frame_count_ st;
                frame_loc_index_ := frame_loc_index_ st; obs_frame_ := obs_frame_ st;
                known_frame_selections_ := <[dims := frameSel]> (known_frame_selections_ st);
                known_mem_selections_ := <[dims := mem]> (known_mem_selections_ st); tally_ := tally_ st |}
      end);
    t ← supportedType (fv_var frameVar);
    match known_mem_selections_ st !! dims, known_frame_selections_ st !! dims with
    | Some mem, Some frameSel =>
        values ← front_read (zero_val t) t mem frameSel (fv_var frameVar);
        Ok (Some values, st)
    | _, _ => Throw EUndefined
    end
  else Ok (None, st).
End Reader.
