(* ===== verification/ObsFrameReadSpec.v ===== *)
(** What one pass over an observation source leaves: the specification of
    ObsFrameRead in terms of whole columns, and the proof that one frame adds its
    share to it. *)
From stdpp Require Import base list gmap strings pretty sorting.
From Stdlib Require Import ZArith.
From S2P Require Import Prelude Selection VarAttrStore ObsTypes ObsAttributes ObsVariables ObsFrame ObsFrameRead.

(** * Loops over the variables of a group *)

Section groups.
Context {F : Type} `{FO : FloatOps F}.

(** Two groups with the same dimensions and names of variables. *)
Definition same_frame (g g' : ObsGroup F) : Prop :=
  g_dim_names g' = g_dim_names g /\ g_dims g' = g_dims g /\ g_names g' = g_names g.

Lemma same_frame_trans g1 g2 g3 : same_frame g1 g2 -> same_frame g2 g3 -> same_frame g1 g3.
Proof. unfold same_frame. intros (?&?&?) (?&?&?). split_and!; congruence. Qed.

Lemma same_frame_set g vars : same_frame g (set_vars g vars).
Proof. done. Qed.

(** A loop that updates each variable once, from its own old value. *)
Lemma foldM_vars (step : ObsGroup F -> string -> res (ObsGroup F)) (R : string -> FrameVar F -> FrameVar F -> Prop)
    (g : ObsGroup F) (names : list string) :
  NoDup names ->
  (forall name g', name ∈ names -> same_frame g g' -> g_vars g' !! name = g_vars g !! name ->
    exists fv fv', g_vars g !! name = Some fv /\ R name fv fv' /\
      exists g'', step g' name = Ok g'' /\ same_frame g' g'' /\ g_vars g'' = <[name := fv']> (g_vars g')) ->
  exists g', foldM step g names = Ok g' /\ same_frame g g' /\
    (forall name, name ∈ names -> exists fv fv', g_vars g !! name = Some fv /\ g_vars g' !! name = Some fv' /\
      R name fv fv') /\
    (forall name, name ∉ names -> g_vars g' !! name = g_vars g !! name).
Proof.
  intros Hnd. revert g. induction Hnd as [|x names Hx Hnd IH]; intros g Hstep.
  - exists g. split_and!; try done. by intros name ?%elem_of_nil.
  - destruct (Hstep x g) as (fv & fv' & Hfv & HR & g1 & Hg1 & Hs1 & Hv1); [left|done|done|].
    destruct (IH g1) as (g2 & Hf & Hs2 & Hin & Hout).
    { intros name g' Hname Hs' Hsame. assert (name <> x) by (intros ->; done).
      rewrite Hv1, lookup_insert_ne in Hsame by done.
      destruct (Hstep name g') as (fv2 & fv2' & H2 & HR2 & g2 & Hg2 & Hs2 & Hv2);
        [by right|by eapply same_frame_trans|done|].
      exists fv2, fv2'. rewrite Hv1, lookup_insert_ne by done. eauto 10. }
    exists g2. cbn [foldM]. rewrite Hg1. cbn [mbind res_bind]. split_and!; [done|by eapply same_frame_trans| |].
    + intros name [->|Hname]%elem_of_cons.
      * exists fv, fv'. split_and!; [done| |done]. rewrite Hout by done. by rewrite Hv1, lookup_insert_eq.
      * assert (name <> x) by (intros ->; done).
        destruct (Hin name Hname) as (fv2 & fv2' & H2 & H2' & HR2). exists fv2, fv2'.
        rewrite Hv1, lookup_insert_ne in H2 by done. done.
    + intros name Hname. apply not_elem_of_cons in Hname as [Hne Hname]. rewrite Hout by done.
      by rewrite Hv1, lookup_insert_ne by done.
Qed.

Lemma vars_update_ok name f (g : ObsGroup F) fv v' :
  g_vars g !! name = Some fv -> f fv = Ok v' ->
  vars_update name f g = Ok (set_vars g (<[name := {| fv_dims := fv_dims fv; fv_var := v' |}]> (g_vars g))).
Proof. intros Hfv Hf. unfold vars_update, vars_open. rewrite Hfv. cbn [mbind res_bind]. rewrite Hf. done. Qed.

(** The check of [resize] passes when no new size is above its maximum. *)
Lemma resize_check_pass max_dims new_dims :
  Forall2 (fun mx n => 0 <= mx -> n <= mx)%Z max_dims new_dims -> resize_check max_dims new_dims = Ok ().
Proof.
  intros Hall. destruct (resize_check max_dims new_dims) as [[]|e] eqn:E; [done|]. exfalso.
  unfold resize_check in E. revert E.
  cut (forall k rest u, (forall i mx, rest !! i = Some mx -> exists n, new_dims !! (k + i) = Some n /\ (0 <= mx -> n <= mx)%Z) ->
    foldM (fun _ '(i, m) =>
      if decide (0 <= m)%Z then
        n ← vec_get new_dims i;
        if decide (m < n)%Z then Throw (EException "new_dim_sizes exceeds max_dimensions_") else Ok ()
      else Ok ()) u (imap (fun i m => (k + i, m)) rest) <> Throw e).
  { intros Hcut. apply (Hcut 0 max_dims ()). intros i mx Hi. simpl.
    destruct (Forall2_lookup_l _ _ _ _ _ Hall Hi) as (n & Hn & Hle). eauto. }
  intros k rest. revert k. induction rest as [|m rest IH]; intros k u Hr; [done|].
  rewrite imap_cons. cbn [foldM]. destruct (Hr 0 m eq_refl) as (n & Hn & Hle).
  rewrite (imap_ext _ (fun i m => (S k + i, m))) by (intros; simpl; f_equal; lia).
  assert (Hr' : forall i mx, rest !! i = Some mx -> exists n, new_dims !! (S k + i) = Some n /\ (0 <= mx -> n <= mx)%Z).
  { intros i mx Hi. destruct (Hr (S i) mx Hi) as (n' & Hn' & Hle'). exists n'. split; [|done].
    by replace (S k + i) with (k + S i) by lia. }
  destruct (decide (0 <= m)%Z).
  - rewrite (vec_get_Some _ _ _ Hn). cbn [mbind res_bind]. rewrite decide_False by (specialize (Hle l); lia).
    cbn [mbind res_bind]. by apply IH.
  - cbn [mbind res_bind]. by apply IH.
Qed.

Lemma supportedType_ok (v : ObsVariable (Val F)) t : supportedType v = Ok t -> t = dtype_ v.
Proof.
  unfold supportedType, isOfType. intros Hs.
  repeat match type of Hs with context [if Type_eqb ?a ?b then _ else _] =>
    destruct (Type_eqb a b) eqn:E; [injection Hs as <-; by apply Type_eqb_eq|clear E] end. done.
Qed.

Definition supported (t : OType) : Prop := t ∈ [int_t; int64_t; float_t; string_t; char_t].

Lemma supportedType_supported (v : ObsVariable (Val F)) : supported (dtype_ v) -> supportedType v = Ok (dtype_ v).
Proof.
  intros Hs. unfold supported in Hs. rewrite !elem_of_cons, elem_of_nil in Hs. unfold supportedType, isOfType.
  destruct Hs as [->|[->|[->|[->|[->|[]]]]]]; reflexivity.
Qed.

Lemma supported_store t : supported t -> exists e, createVarAttrStore t = Ok (e, 1) /\ ty_num_elements t = 1.
Proof.
  intros Hs. unfold supported in Hs. rewrite !elem_of_cons, elem_of_nil in Hs.
  destruct Hs as [->|[->|[->|[->|[->|[]]]]]]; eexists; done.
Qed.

Lemma zero_val_type t : supported t -> has_type t (zero_val t).
Proof.
  intros Hs. unfold supported in Hs. rewrite !elem_of_cons, elem_of_nil in Hs.
  destruct Hs as [->|[->|[->|[->|[->|[]]]]]]; done.
Qed.
End groups.

(** * A variable of the frame or of the ObsSpace *)

Section var_inv.
Context {F : Type} `{FO : FloatOps F}.

(** Its attached dimensions, type, fill value, the maximum of its first
    dimension, its inner dimensions, its rows and their elements. *)
Record var_inv (dims : list string) (t : OType) (fill : option (Val F)) (mx : Z) (rest : list Z)
    (rows : nat) (fv : FrameVar F) (data : list (Val F)) : Prop := {
  vi_dims : fv_dims fv = dims;
  vi_type : dtype_ (fv_var fv) = t;
  vi_fill : fvdata_ (fv_var fv) = fill;
  vi_rfill : resize_fill (zero_val t) (fv_var fv) = Ok (default (zero_val t) fill);
  vi_max : max_dimensions_ (fv_var fv) = mx :: rest;
  vi_array : array (fv_var fv) rows rest data
}.

(** Writing elements keeps all but the elements. *)
Lemma var_inv_with_data dims t fill mx rest rows fv data dims' st data' rows' :
  var_inv dims t fill mx rest rows fv data ->
  array (with_data (fv_var fv) dims' st) rows' rest data' ->
  var_inv dims t fill mx rest rows' {| fv_dims := fv_dims fv; fv_var := with_data (fv_var fv) dims' st |} data'.
Proof. intros [] Ha. by split. Qed.

Lemma var_inv_length dims t fill mx rest rows fv data :
  var_inv dims t fill mx rest rows fv data -> length data = rows * row_size rest.
Proof. intros Hv. eapply arr_length, vi_array, Hv. Qed.

Definition location_rows (dims : list string) (rows newRows : nat) : nat :=
  match dims with d :: _ => if decide (d = "Location") then newRows else rows | [] => rows end.

Lemma zip_with_inner (newSize : Z) (ds : list string) (rest : list Z) :
  "Location" ∉ ds -> length ds = length rest ->
  zip_with (fun d n => if decide (d = "Location") then newSize else n) ds rest = rest.
Proof.
  revert rest. induction ds as [|d ds IH]; intros [|n rest] Hd Hl; simplify_eq/=; [done|].
  apply not_elem_of_cons in Hd as [Hne Hd]. rewrite decide_False by done. by rewrite IH.
Qed.

(** Resizing Location. *)
Lemma resize_var_inv d0 ds t fill mx rest rows fv data n x :
  var_inv (d0 :: ds) t fill mx rest rows fv data -> "Location" ∉ ds -> length ds = length rest ->
  resize_fill (zero_val t) (fv_var fv) = Ok x -> shape n rest -> (0 <= mx -> Z.of_nat n <= mx)%Z ->
  let rows' := location_rows (d0 :: ds) rows n in
  exists v', resize_var "Location" (Z.of_nat n) fv = Ok v' /\
    var_inv (d0 :: ds) t fill mx rest rows' {| fv_dims := fv_dims fv; fv_var := v' |}
      (vec_resize (rows' * row_size rest) x data).
Proof.
  intros Hv Hd Hl Hx Hs Hmx rows'. pose proof (vi_array _ _ _ _ _ _ _ _ Hv) as Ha.
  assert (Hs' : shape rows' rest).
  { unfold rows', location_rows. case_decide; [done|apply (arr_shape _ _ _ _ Ha)]. }
  assert (Hmx' : (0 <= mx -> Z.of_nat rows' <= mx)%Z).
  { unfold rows', location_rows. case_decide; [done|]. intros Hmx0.
    apply (vo_max _ (arr_ok _ _ _ _ Ha) 0); [by rewrite (vi_max _ _ _ _ _ _ _ _ Hv)|by rewrite (arr_dims _ _ _ _ Ha)|done]. }
  unfold resize_var. rewrite (vi_dims _ _ _ _ _ _ _ _ Hv), (arr_dims _ _ _ _ Ha), (vi_type _ _ _ _ _ _ _ _ Hv).
  cbn [zip_with]. rewrite zip_with_inner by done.
  replace (if decide (d0 = "Location") then Z.of_nat n else Z.of_nat rows) with (Z.of_nat rows')
    by (unfold rows', location_rows; by case_decide).
  destruct (resize_rows (zero_val t) (fv_var fv) rows rest data Ha rows' x Hs' Hx) as (st & Hr & Ha').
  { rewrite (vi_max _ _ _ _ _ _ _ _ Hv). apply resize_check_pass. constructor; [done|].
    apply Forall2_same_length_lookup_2; [done|]. intros i a b H1 H2. simplify_eq. lia. }
  eexists. split; [exact Hr|]. rewrite <-(vi_dims _ _ _ _ _ _ _ _ Hv). eapply var_inv_with_data; [|exact Ha'].
  rewrite (vi_dims _ _ _ _ _ _ _ _ Hv). exact Hv.
Qed.

(** Resizing to the same number of rows. *)
Lemma vec_resize_same {A} n (x : A) l : length l = n -> vec_resize n x l = l.
Proof. intros <-. unfold vec_resize. rewrite take_ge, Nat.sub_diag by lia. simpl. by rewrite app_nil_r. Qed.

Lemma vec_resize_grow {A} n (x : A) l : length l <= n -> vec_resize n x l = l ++ replicate (n - length l) x.
Proof. intros Hl. unfold vec_resize. by rewrite take_ge by lia. Qed.

(** Creating a variable. *)
Lemma createWithScales_filled name dims t fill (g : ObsGroup F) n mx rest :
  supported t -> shape n rest -> (0 <= mx -> Z.of_nat n <= mx)%Z ->
  mapR (fun d => dim_open d g) dims = Ok ((Z.of_nat n, mx) :: map (fun z => (z, z)) rest) ->
  exists fv data, createWithScales name dims t fill g =
      Ok {| g_dim_names := g_dim_names g; g_dims := g_dims g; g_names := g_names g ++ [name];
            g_vars := <[name := fv]> (g_vars g) |} /\
    var_inv dims t fill mx rest n fv data /\ (forall x, fill = Some x -> data = replicate (n * row_size rest) x).
Proof.
  intros Ht Hs Hmx Hd. unfold createWithScales. rewrite Hd. cbn [mbind res_bind map fst snd]. rewrite !map_map. cbn [fst snd].
  rewrite !map_id. destruct (supported_store t Ht) as (e & He & Hn1).
  destruct (create_array (zero_val t) n rest (mx :: rest) t e fill He Hn1 Hs) as (v & data & Hv & Ha & H1 & H2 & H3 & H4 & H5).
  { apply resize_check_pass. constructor; [done|].
    apply Forall2_same_length_lookup_2; [done|]. intros i a b E1 E2. simplify_eq. lia. }
  rewrite Hv. cbn [mbind res_bind]. eexists _, data. split; [reflexivity|]. split; [split; simpl; eauto|exact H5].
Qed.

Lemma createWithScales_inv name dims t fill (g : ObsGroup F) n mx rest :
  supported t -> shape n rest -> (0 <= mx -> Z.of_nat n <= mx)%Z ->
  mapR (fun d => dim_open d g) dims = Ok ((Z.of_nat n, mx) :: map (fun z => (z, z)) rest) ->
  exists fv data, createWithScales name dims t fill g =
      Ok {| g_dim_names := g_dim_names g; g_dims := g_dims g; g_names := g_names g ++ [name];
            g_vars := <[name := fv]> (g_vars g) |} /\
    var_inv dims t fill mx rest n fv data.
Proof.
  intros Ht Hs Hmx Hd. destruct (createWithScales_filled name dims t fill g n mx rest Ht Hs Hmx Hd) as (fv & data & H1 & H2 & _). eauto.
Qed.
End var_inv.

(** * The columns of a source *)

Record Col (F : Type) := {
  col_dims : list string;
  col_n : nat;
  col_rest : list Z;
  col_type : OType;
  col_fill : option (Val F);
  col_data : list (Val F)
}.
Arguments col_dims {F} _.
Arguments col_n {F} _.
Arguments col_rest {F} _.
Arguments col_type {F} _.
Arguments col_fill {F} _.
Arguments col_data {F} _.

Definition var_col {F} (fv : FrameVar F) : Col F :=
  {| col_dims := fv_dims fv; col_n := Z.to_nat (default 0%Z (dimensions_ (fv_var fv) !! 0));
     col_rest := drop 1 (dimensions_ (fv_var fv)); col_type := dtype_ (fv_var fv);
     col_fill := fvdata_ (fv_var fv); col_data := var_attr_data_ (var_data_ (fv_var fv)) |}.

Definition col_row {F} (c : Col F) : nat := row_size (col_rest c).

(** Is Location the first dimension? *)
Definition by_location {F} (c : Col F) : bool :=
  match col_dims c with d :: _ => bool_decide (d = "Location") | [] => false end.

Section spec.
Context {F DT D : Type} `{FO : FloatOps F} `{DO : DateTimeOps DT} `{MV : MissingValues F} `{RD : ReaderDist D (F * F)}.
Context (p : ReadParams DT) (src : ObsGroup F).
Context (m nlocs : nat) (ts : list Z) (lats lons : list F) (latFill lonFill : F).

Record col_ok (c : Col F) : Prop := {
  co_shape : shape (col_n c) (col_rest c);
  co_type : supported (col_type c);
  co_data : length (col_data c) = col_n c * col_row c;
  co_dims : exists d0 ds mx, col_dims c = d0 :: ds /\
    g_dims src !! d0 = Some (Z.of_nat (col_n c), mx) /\
    Forall2 (fun d z => exists mx, g_dims src !! d = Some (z, mx) /\ d <> "Location" /\
      (d = "Channel" \/ (z <= max_frame_size_ p)%Z)) ds (col_rest c)
}.

(** A column of values of one type along Location. *)
Definition location_column (name : string) (t : OType) (vals : list (Val F)) (fv : FrameVar F) : Prop :=
  g_vars src !! name = Some fv /\ fv_dims fv = ["Location"] /\ dtype_ (fv_var fv) = t /\
  var_attr_data_ (var_data_ (fv_var fv)) = vals.

Definition times_ok : Prop :=
  (use_epoch_datetime_ src = true /\
    exists fv, location_column "MetaData/dateTime" int64_t (map VInt64 ts) fv) \/
  (use_string_datetime_ src = true /\
    exists fv strs, location_column "MetaData/datetime" string_t (map VString strs) fv /\
      convertDtStringsToTimeOffsets (windowStart p) strs = Ok ts) \/
  (use_offset_datetime_ src = true /\
    exists fv hours, location_column "MetaData/time" float_t (map VFloat hours) fv /\
      ts = map f_hours_to_seconds hours).

(** A well-formed source: every dimension and variable is there, sizes are in
    the range of [int] and inner dimensions other than Channel fit in a frame;
    latitudes and longitudes are floats, dates are given in one of the three
    ways, and the variables records are grouped by are along Location. *)
Record source_ok : Prop := {
  so_m : max_frame_size_ p = Z.of_nat m;
  so_m_pos : 0 < m;
  so_names : NoDup (g_names src);
  so_vars : forall name, name ∈ g_names src <-> is_Some (g_vars src !! name);
  so_scales : forall name, name ∈ g_names src -> g_dims src !! name = None;
  so_dims : forall d, d ∈ g_dim_names src <-> is_Some (g_dims src !! d);
  so_loc : exists mx, g_dims src !! "Location" = Some (Z.of_nat nlocs, mx);
  so_var : forall name fv, g_vars src !! name = Some fv ->
    let c := var_col fv in array (fv_var fv) (col_n c) (col_rest c) (col_data c) /\ col_ok c;
  so_lat : exists fv, location_column "MetaData/latitude" float_t (map VFloat lats) fv /\
    float_fill (fv_var fv) = Ok latFill;
  so_lon : exists fv, location_column "MetaData/longitude" float_t (map VFloat lons) fv /\
    float_fill (fv_var fv) = Ok lonFill;
  so_times : times_ok;
  so_group : forall v, v ∈ obs_grouping_vars_ p ->
    exists fv, g_vars src !! ("MetaData/" +:+ v) = Some fv /\ fv_dims fv = ["Location"]
}.
Context (Hsrc : source_ok).

(** The date column the reader makes from string or offset dates. *)
Definition dt_col : Col F :=
  {| col_dims := ["Location"]; col_n := nlocs; col_rest := []; col_type := int64_t; col_fill := None;
     col_data := map VInt64 ts |}.

Definition derived : bool := use_string_datetime_ src || use_offset_datetime_ src.
Definition frame_names : list string := g_names src ++ (if derived then ["MetaData/dateTime"] else []).
Definition frame_col (name : string) : option (Col F) :=
  match g_vars src !! name with
  | Some fv => Some (var_col fv)
  | None => if derived && bool_decide (name = "MetaData/dateTime") then Some dt_col else None
  end.

(** ** Facts about the columns *)

Lemma location_column_col name t vals fv :
  location_column name t vals fv ->
  name ∈ g_names src /\ frame_col name = Some (var_col fv) /\ col_n (var_col fv) = nlocs /\
  col_rest (var_col fv) = [] /\ col_row (var_col fv) = 1 /\ length vals = nlocs /\
  (Z.of_nat nlocs < 2 ^ 31)%Z /\ array (fv_var fv) nlocs [] vals.
Proof.
  intros (Hn & Hd & Ht & Hv). destruct (so_var Hsrc _ _ Hn) as [Ha Hok]. destruct (so_loc Hsrc) as [mx Hloc].
  destruct (co_dims _ Hok) as (d0 & ds & mx' & Ed & E0 & Hds). simpl in Ed. rewrite Hd in Ed. injection Ed as <- <-.
  rewrite Hloc in E0. injection E0 as E0 _.
  apply Forall2_nil_inv_l in Hds. assert (En : col_n (var_col fv) = nlocs) by (apply Nat2Z.inj; by symmetry).
  assert (Er : col_row (var_col fv) = 1) by (unfold col_row; by rewrite Hds).
  assert (Hl : length vals = nlocs).
  { pose proof (co_data _ Hok) as Hl. rewrite Er, En in Hl. change (col_data (var_col fv)) with (var_attr_data_ (var_data_ (fv_var fv))) in Hl.
    rewrite Hv in Hl. lia. }
  assert (Ha' : array (fv_var fv) nlocs [] vals) by (rewrite <-En, <-Hds, <-Hv; exact Ha).
  split_and!; try done.
  - apply (so_vars Hsrc). by rewrite Hn.
  - unfold frame_col. by rewrite Hn.
  - pose proof (sh_size _ _ (arr_shape _ _ _ _ Ha')) as Hb. unfold prodZ in Hb. simpl in Hb. lia.
Qed.

Lemma nlocs_small : (Z.of_nat nlocs < 2 ^ 31)%Z.
Proof. destruct (so_lat Hsrc) as (fv & Hc & _). apply location_column_col in Hc. tauto. Qed.

Lemma length_lats : length lats = nlocs.
Proof. destruct (so_lat Hsrc) as (fv & Hc & _). apply location_column_col in Hc. rewrite length_map in Hc. tauto. Qed.

Lemma length_lons : length lons = nlocs.
Proof. destruct (so_lon Hsrc) as (fv & Hc & _). apply location_column_col in Hc. rewrite length_map in Hc. tauto. Qed.

Lemma length_mapR {A B} (f : A -> res B) l l' : mapR f l = Ok l' -> length l' = length l.
Proof.
  revert l'. induction l as [|x l IH]; intros l' E; simpl in E; [by inv_res|].
  apply res_bind_Ok in E as (y & _ & E). apply res_bind_Ok in E as (ys & Hys & E). inv_res. simpl. f_equal. by apply IH.
Qed.

Lemma length_ts : length ts = nlocs.
Proof.
  destruct (so_times Hsrc) as [(_ & fv & Hc)|[(_ & fv & strs & Hc & Hts)|(_ & fv & hs & Hc & ->)]];
    apply location_column_col in Hc; rewrite length_map in Hc; [tauto| |rewrite length_map; tauto].
  apply length_mapR in Hts. rewrite Hts. tauto.
Qed.

Lemma dt_not_in_src : derived = true -> g_vars src !! "MetaData/dateTime" = None.
Proof.
  unfold derived, use_offset_datetime_, use_string_datetime_, use_epoch_datetime_, vars_exists.
  case_bool_decide as Hd; simpl; [done|]. intros _. by apply eq_None_not_Some.
Qed.

Lemma dt_col_ok : col_ok dt_col.
Proof.
  pose proof nlocs_small. destruct (so_loc Hsrc) as [mx Hloc]. split; simpl.
  - split; [constructor|unfold prodZ; simpl; lia|unfold prodZ; simpl; lia].
  - unfold supported. set_solver.
  - rewrite length_map, length_ts. unfold col_row, row_size, prodZ. simpl. lia.
  - exists "Location", [], mx. split_and!; [done|done|constructor].
Qed.

Lemma frame_col_ok name c : frame_col name = Some c -> col_ok c.
Proof.
  unfold frame_col. destruct (g_vars src !! name) as [fv|] eqn:E.
  - intros [= <-]. by apply (so_var Hsrc name).
  - destruct (derived && _); [|done]. intros [= <-]. apply dt_col_ok.
Qed.

Lemma frame_names_col name : name ∈ frame_names <-> is_Some (frame_col name).
Proof.
  unfold frame_names, frame_col. rewrite elem_of_app, (so_vars Hsrc).
  destruct (g_vars src !! name) as [fv|] eqn:E.
  - split; [by eexists|]. left. by eexists.
  - destruct derived; simpl; [|rewrite elem_of_nil; split; [intros [[? ?]|?]; done|intros [? ?]; done]].
    rewrite list_elem_of_singleton. case_bool_decide; [naive_solver|]. split; [intros [[? ?]|?]; done|intros [? ?]; done].
Qed.

Lemma frame_names_nodup : NoDup frame_names.
Proof.
  unfold frame_names. apply NoDup_app. split_and!; [apply (so_names Hsrc)| |].
  - intros x Hx. destruct derived eqn:Ed; [|apply not_elem_of_nil]. rewrite list_elem_of_singleton. intros ->.
    apply (so_vars Hsrc) in Hx as [fv Hfv]. by rewrite (dt_not_in_src Ed) in Hfv.
  - destruct derived; [apply NoDup_singleton|constructor].
Qed.

(** ** Counts *)

(** The rows of a variable of [n] rows in the frame from row [s]. *)
Definition cnt (n s : nat) : nat := m `min` (n - s).

Lemma basicFrameCount_nat s n :
  basicFrameCount p (Z.of_nat s) (Z.of_nat n) = Z.of_nat (cnt n s).
Proof. unfold basicFrameCount, cnt. rewrite (so_m Hsrc). repeat case_decide; lia. Qed.

(** The rows the frame keeps for a column. *)
Definition dim_rows (c : Col F) : nat :=
  match col_dims c with
  | d0 :: _ => if decide (d0 = "Channel") then col_n c else m `min` col_n c
  | [] => 0
  end.
Definition frame_rows (c : Col F) (loc : nat) : nat := if by_location c then loc else dim_rows c.

Lemma frame_dim_size_rows d0 (n : nat) :
  frame_dim_size p d0 (Z.of_nat n) = Z.of_nat (if decide (d0 = "Channel") then n else m `min` n).
Proof. unfold frame_dim_size. rewrite (so_m Hsrc). repeat case_decide; try done; lia. Qed.

Lemma frame_dim_size_inner d (z : Z) :
  (d = "Channel" \/ (z <= max_frame_size_ p)%Z) -> frame_dim_size p d z = z.
Proof. intros Hd. unfold frame_dim_size. repeat case_decide; try done. destruct Hd; [done|lia]. Qed.

Lemma dim_rows_le c : dim_rows c <= col_n c.
Proof. unfold dim_rows. destruct (col_dims c); [lia|]. case_decide; lia. Qed.

Lemma cnt_le_dim_rows c s : col_dims c <> [] -> cnt (col_n c) s <= dim_rows c.
Proof. unfold cnt, dim_rows. destruct (col_dims c); [done|]. case_decide; lia. Qed.

Lemma by_location_n c : col_ok c -> by_location c = true ->
  col_n c = nlocs /\ exists ds, col_dims c = "Location" :: ds.
Proof.
  intros Hok Hb. destruct (co_dims _ Hok) as (d0 & ds & mx & Ed & E0 & _). unfold by_location in Hb. rewrite Ed in Hb.
  apply bool_decide_eq_true in Hb as ->. destruct (so_loc Hsrc) as [mx' Hl]. rewrite E0 in Hl. split; [|by exists ds].
  injection Hl as Hl _. lia.
Qed.

Lemma by_location_dim_rows c : col_ok c -> by_location c = true -> dim_rows c = m `min` nlocs.
Proof.
  intros Hok Hb. destruct (by_location_n c Hok Hb) as [En [ds Ed]]. unfold dim_rows. by rewrite Ed, En.
Qed.

(** A frame with [loc] locations: all its variables have their shape. *)
Definition frame_shape (loc : nat) (frame : ObsGroup F) : Prop :=
  g_names frame = frame_names /\
  (exists cur, g_dims frame !! "Location" = Some (cur, Z.of_nat (m `min` nlocs))) /\
  forall name c, frame_col name = Some c -> exists fv data, g_vars frame !! name = Some fv /\
    var_inv (col_dims c) (col_type c) (col_fill c) (Z.of_nat (dim_rows c)) (col_rest c)
      (frame_rows c loc) fv data.

(** ... and holds the rows of the source from [s]. *)
Definition frame_loaded (s : nat) (frame : ObsGroup F) : Prop :=
  g_names frame = frame_names /\
  (exists cur, g_dims frame !! "Location" = Some (cur, Z.of_nat (m `min` nlocs))) /\
  forall name c, frame_col name = Some c -> exists fv data, g_vars frame !! name = Some fv /\
    var_inv (col_dims c) (col_type c) (col_fill c) (Z.of_nat (dim_rows c)) (col_rest c)
      (frame_rows c (cnt nlocs s)) fv data /\
    slice (col_row c) 0 (cnt (col_n c) s) data = slice (col_row c) s (cnt (col_n c) s) (col_data c).

Lemma frame_loaded_shape s frame : frame_loaded s frame -> frame_shape (cnt nlocs s) frame.
Proof.
  intros (H1 & H2 & H3). split_and!; [done..|]. intros name c Hc.
  destruct (H3 name c Hc) as (fv & data & Hfv & Hv & _). eauto.
Qed.

(** ** Creating the frame *)

Lemma frame_dims_ok :
  exists dims, foldM (frame_dim p src) ∅ (g_dim_names src) = Ok dims /\
  forall d z mx, g_dims src !! d = Some (z, mx) -> dims !! d = Some (frame_dim_size p d z, frame_dim_size p d z).
Proof.
  destruct (foldM_ind (frame_dim p src)
    (fun don dims => forall d z mx, d ∈ don -> g_dims src !! d = Some (z, mx) ->
      dims !! d = Some (frame_dim_size p d z, frame_dim_size p d z)) (∅ : gmap string (Z * Z)) (g_dim_names src))
    as (dims & Hd & Hi).
  - intros d z mx Hd. by apply elem_of_nil in Hd.
  - intros don d dims IH [rest Hp]. assert (Hin : d ∈ g_dim_names src) by (rewrite Hp; set_solver).
    apply (so_dims Hsrc) in Hin as [[z mx] Hz]. unfold frame_dim, dim_open. rewrite Hz. cbn [mbind res_bind].
    eexists. split; [reflexivity|]. intros d' z' mx' Hd' Hz'. destruct (decide (d' = d)) as [->|Hne].
    + rewrite lookup_insert_eq. congruence.
    + rewrite lookup_insert_ne by done. apply (IH d' z' mx'); [|done]. set_solver.
  - exists dims. split; [done|]. intros d z mx Hz. apply (Hi d z mx); [|done]. apply (so_dims Hsrc). by rewrite Hz.
Qed.

Lemma create_frame_var (frame : ObsGroup F) name c :
  (forall d z mx, g_dims src !! d = Some (z, mx) ->
    g_dims frame !! d = Some (frame_dim_size p d z, frame_dim_size p d z)) ->
  col_ok c ->
  exists fv data, createWithScales name (col_dims c) (col_type c) (col_fill c) frame =
      Ok {| g_dim_names := g_dim_names frame; g_dims := g_dims frame; g_names := g_names frame ++ [name];
            g_vars := <[name := fv]> (g_vars frame) |} /\
    var_inv (col_dims c) (col_type c) (col_fill c) (Z.of_nat (dim_rows c)) (col_rest c) (dim_rows c) fv data.
Proof.
  intros Hdims Hok. destruct (co_dims _ Hok) as (d0 & ds & mx & Ed & E0 & Hds).
  apply createWithScales_inv; [apply (co_type _ Hok)| | |].
  - eapply shape_le; [apply (co_shape _ Hok)|apply dim_rows_le].
  - lia.
  - assert (E1 : forall d z mx, g_dims src !! d = Some (z, mx) ->
      dim_open d frame = Ok (frame_dim_size p d z, frame_dim_size p d z)).
    { intros d z mx' Hz. unfold dim_open. by rewrite (Hdims _ _ _ Hz). }
    rewrite Ed. cbn [mapR]. rewrite (E1 _ _ _ E0), frame_dim_size_rows. cbn [mbind res_bind].
    assert (Er : mapR (fun d => dim_open d frame) ds = Ok (map (fun z => (z, z)) (col_rest c))).
    { clear -E1 Hds Hsrc. induction Hds as [|d z ds rest (mx & Hz & Hl & Hc) Hds IH]; cbn [mapR map]; [done|].
      rewrite (E1 _ _ _ Hz), frame_dim_size_inner by done. cbn [mbind res_bind]. by rewrite IH. }
    rewrite Er. cbn [mbind res_bind]. unfold dim_rows. by rewrite Ed.
Qed.

Lemma createFrame_ok :
  exists frame, createFrameFromObsGroup p src = Ok frame /\ frame_shape (m `min` nlocs) frame.
Proof.
  unfold createFrameFromObsGroup. destruct frame_dims_ok as (dims & Hd & Hdims). rewrite Hd. cbn [mbind res_bind].
  set (f0 := {| g_dim_names := g_dim_names src; g_dims := dims; g_names := []; g_vars := ∅ |}).
  destruct (foldM_ind (frame_create_var src)
    (fun don frame => g_dims frame = dims /\ g_names frame = don /\
      forall name fv0, name ∈ don -> g_vars src !! name = Some fv0 -> let c := var_col fv0 in
        exists fv data, g_vars frame !! name = Some fv /\
        var_inv (col_dims c) (col_type c) (col_fill c) (Z.of_nat (dim_rows c)) (col_rest c) (dim_rows c) fv data)
    f0 (g_names src)) as (frame & Hf & Hfd & Hfn & Hfv).
  { split_and!; [done..|]. intros name fv0 Hn. by apply elem_of_nil in Hn. }
  { intros don name frame (Hfd & Hfn & Hfv) [rest Hp]. assert (Hin : name ∈ g_names src) by (rewrite Hp; set_solver).
    apply (so_vars Hsrc) in Hin as [fv0 Hfv0]. destruct (so_var Hsrc _ _ Hfv0) as [_ Hok].
    unfold frame_create_var, vars_open. rewrite Hfv0. cbn [mbind res_bind].
    rewrite supportedType_supported by apply (co_type _ Hok). cbn [mbind res_bind].
    destruct (create_frame_var frame name (var_col fv0)) as (fv & data & Hc & Hv); [by rewrite Hfd|done|].
    eexists. split; [exact Hc|]. simpl. split_and!; [done|by rewrite Hfn|].
    intros name' fv' Hn' Hfv'. destruct (decide (name' = name)) as [->|Hne].
    - rewrite lookup_insert_eq. simplify_eq. eauto.
    - rewrite lookup_insert_ne by done. apply Hfv; [|done]. set_solver. }
  rewrite Hf. cbn [mbind res_bind]. destruct (so_loc Hsrc) as [mxl Hloc].
  assert (Hl : dims !! "Location" = Some (Z.of_nat (m `min` nlocs), Z.of_nat (m `min` nlocs))).
  { rewrite (Hdims _ _ _ Hloc), frame_dim_size_rows. done. }
  assert (Hrows : forall c, col_ok c -> frame_rows c (m `min` nlocs) = dim_rows c).
  { intros c Hok. unfold frame_rows. destruct (by_location c) eqn:Eb; [|done]. by rewrite (by_location_dim_rows c Hok Eb). }
  fold derived. destruct derived eqn:Ed.
  - destruct (create_frame_var frame "MetaData/dateTime" dt_col) as (fv & data & Hc & Hv); [by rewrite Hfd|apply dt_col_ok|].
    eexists. split; [exact Hc|]. split_and!; simpl.
    + rewrite Hfn. unfold frame_names. by rewrite Ed.
    + rewrite Hfd. eauto.
    + intros name c Hcol. rewrite Hrows by (by eapply frame_col_ok). unfold frame_col in Hcol.
      destruct (g_vars src !! name) as [fv0|] eqn:E0.
      * injection Hcol as <-. rewrite lookup_insert_ne by (intros <-; by rewrite (dt_not_in_src Ed) in E0).
        apply Hfv; [|done]. apply (so_vars Hsrc). by rewrite E0.
      * rewrite Ed in Hcol. simpl in Hcol. case_bool_decide; [|done]. subst name. injection Hcol as <-.
        rewrite lookup_insert_eq. eauto.
  - eexists. split; [reflexivity|]. split_and!.
    + rewrite Hfn. unfold frame_names. by rewrite Ed, app_nil_r.
    + rewrite Hfd. eauto.
    + intros name c Hcol. rewrite Hrows by (by eapply frame_col_ok). unfold frame_col in Hcol. rewrite Ed in Hcol.
      destruct (g_vars src !! name) as [fv0|] eqn:E0; [|done]. injection Hcol as <-. apply Hfv; [|done].
      apply (so_vars Hsrc). by rewrite E0.
Qed.


(** ** Loading a frame *)

Lemma inner_dims c : col_ok c -> exists d0 ds, col_dims c = d0 :: ds /\ "Location" ∉ ds /\
  length ds = length (col_rest c).
Proof.
  intros Hok. destruct (co_dims _ Hok) as (d0 & ds & mx & Ed & _ & Hds). exists d0, ds. split_and!; [done| |by eapply Forall2_length].
  clear -Hds. induction Hds as [|d z ds rest (_ & _ & Hl & _) Hds IH]; [apply not_elem_of_nil|].
  apply not_elem_of_cons. split; [done|exact IH].
Qed.

Lemma frame_rows_le c loc : col_ok c -> loc <= m `min` nlocs -> frame_rows c loc <= dim_rows c.
Proof.
  intros Hok Hl. unfold frame_rows. destruct (by_location c) eqn:Eb; [|done]. by rewrite (by_location_dim_rows c Hok Eb).
Qed.

Lemma location_rows_frame c loc loc' : frame_rows c loc' = location_rows (col_dims c) (frame_rows c loc) loc'.
Proof.
  unfold frame_rows, location_rows, by_location. destruct (col_dims c) as [|d ds]; [done|].
  case_bool_decide; case_decide; done.
Qed.

Lemma frame_resize_ok loc n frame :
  frame_shape loc frame -> n <= m `min` nlocs ->
  exists frame', ObsGroup_resize "Location" (Z.of_nat n) frame = Ok frame' /\ frame_shape n frame'.
Proof.
  intros (Hn & (cur & Hl) & Hv) Hle. unfold ObsGroup_resize, dim_open. rewrite Hl. cbn [mbind res_bind].
  rewrite resize_check_pass by (repeat constructor; lia). cbn [mbind res_bind]. rewrite Hn.
  match goal with |- context [foldM _ ?g frame_names] => set (g0 := g) end.
  destruct (foldM_vars (fun g name => vars_update name (resize_var "Location" (Z.of_nat n)) g)
    (fun name fv fv' => forall c, frame_col name = Some c -> exists data,
      var_inv (col_dims c) (col_type c) (col_fill c) (Z.of_nat (dim_rows c)) (col_rest c) (frame_rows c n) fv' data)
    g0 frame_names frame_names_nodup) as (g' & Hf & (S1 & S2 & S3) & Hin & _).
  - intros name g' Hname _ Hsame. apply frame_names_col in Hname as [c Hc].
    destruct (Hv name c Hc) as (fv & data & Hfv & Hinv). pose proof (frame_col_ok _ _ Hc) as Hok.
    destruct (inner_dims c Hok) as (d0 & ds & Ed & Hloc & Hlen). pose proof (vi_rfill _ _ _ _ _ _ _ _ Hinv) as Hx. set (x := default _ _) in Hx.
    destruct (resize_var_inv d0 ds (col_type c) (col_fill c) (Z.of_nat (dim_rows c)) (col_rest c) (frame_rows c loc) fv data
      (if by_location c then n else 0) x) as (v' & Hr & Hinv'); [by rewrite <-Ed|done|done|done|..].
    { eapply shape_le; [apply (co_shape _ Hok)|]. destruct (by_location c) eqn:Eb; [|lia].
      destruct (by_location_n c Hok Eb) as [-> _]. lia. }
    { intros _. destruct (by_location c) eqn:Eb; [|lia]. rewrite (by_location_dim_rows c Hok Eb). lia. }
    assert (Hr' : resize_var "Location" (Z.of_nat n) fv = Ok v').
    { rewrite <-Hr. unfold resize_var. rewrite (vi_dims _ _ _ _ _ _ _ _ Hinv), Ed,
        (arr_dims _ _ _ _ (vi_array _ _ _ _ _ _ _ _ Hinv)). cbn [zip_with]. rewrite !zip_with_inner by done.
      unfold by_location. rewrite Ed. case_decide; [|done]. by rewrite bool_decide_true by done. }
    exists fv, {| fv_dims := fv_dims fv; fv_var := v' |}. split_and!; [done| |].
    + intros c' Hc'. assert (c' = c) as -> by congruence.
      rewrite (location_rows_frame c loc n). rewrite Ed in *. eexists.
      replace (location_rows (d0 :: ds) (frame_rows c loc) n) with
        (location_rows (d0 :: ds) (frame_rows c loc) (if by_location c then n else 0)); [exact Hinv'|].
      unfold location_rows, by_location. rewrite Ed. case_decide; [by rewrite bool_decide_true by done|done].
    + eexists. split; [apply vars_update_ok; [by rewrite Hsame|done]|]. split; [done|]. done.
  - exists g'. split; [exact Hf|]. split_and!.
    + rewrite S3. done.
    + rewrite S2. simpl. rewrite lookup_insert_eq. eauto.
    + intros name c Hc. destruct (Hin name) as (fv & fv' & _ & Hfv' & HR); [apply frame_names_col; eauto|].
      destruct (HR c Hc) as [data Hd]. eauto.
Qed.

Lemma transfer_var s frame name fv0 fv data :
  let c := var_col fv0 in
  g_vars src !! name = Some fv0 -> g_vars frame !! name = Some fv ->
  var_inv (col_dims c) (col_type c) (col_fill c) (Z.of_nat (dim_rows c)) (col_rest c)
    (frame_rows c (cnt nlocs s)) fv data ->
  exists fv' data' frame', frame_transfer p src (Z.of_nat s) frame name = Ok frame' /\ same_frame frame frame' /\
    g_vars frame' = <[name := fv']> (g_vars frame) /\
    var_inv (col_dims c) (col_type c) (col_fill c) (Z.of_nat (dim_rows c)) (col_rest c)
      (frame_rows c (cnt nlocs s)) fv' data' /\
    slice (col_row c) 0 (cnt (col_n c) s) data' = slice (col_row c) s (cnt (col_n c) s) (col_data c).
Proof.
  intros c H0 Hfv Hinv. destruct (so_var Hsrc _ _ H0) as [Ha Hok]. fold c in Ha, Hok.
  unfold frame_transfer, vars_open. rewrite H0. cbn [mbind res_bind]. rewrite (arr_dims _ _ _ _ Ha).
  cbn [vec_get lookup list_lookup]. unfold vec_get. simpl lookup. cbn [mbind res_bind]. rewrite basicFrameCount_nat.
  set (k := cnt (col_n c) s). destruct (decide (0 < Z.of_nat k)%Z) as [Hk|Hk].
  2:{ exists fv, data, frame. split_and!; [done|done|by rewrite insert_id|done|].
    assert (k = 0) as -> by lia. done. }
  assert (Hsk : s + k <= col_n c) by (unfold k, cnt in *; lia).
  assert (Hshk : shape k (col_rest c)) by (eapply shape_le; [apply (co_shape _ Hok)|lia]).
  rewrite createObsIoSelection_ok by done. cbn [mbind res_bind].
  rewrite createMemSelection_ok by done. cbn [mbind res_bind].
  rewrite createEntireFrameSelection_ok by done. cbn [mbind res_bind].
  assert (Hrows : k <= frame_rows c (cnt nlocs s)).
  { unfold frame_rows. destruct (by_location c) eqn:Eb.
    - destruct (by_location_n c Hok Eb) as [En _]. unfold k. by rewrite En.
    - apply cnt_le_dim_rows. destruct (inner_dims c Hok) as (? & ? & -> & _). done. }
  pose proof (arr_length _ _ _ _ Ha) as Hl. pose proof (shape_bound _ _ (co_shape _ Hok)) as Hb.
  pose proof (vi_array _ _ _ _ _ _ _ _ Hinv) as Hfa.
  destruct (write_block (fv_var fv) _ _ _ Hfa (Z.of_nat k :: col_rest c) 0 k (slice (col_row c) s k (col_data c))
    (replicate (col_n c * row_size (col_rest c) - k * row_size (col_rest c)) (zero_val (col_type c)))) as (st & Hw & Ha').
  { lia. } { lia. } { apply (length_slice _ _ _ (col_n c)); [done|lia]. }
  { rewrite length_app, length_replicate, (length_slice _ _ _ (col_n c)) by (done || lia). unfold col_row. nia. }
  eexists _, _, _. split; [apply vars_update_ok with (fv := fv); [done|]|].
  { rewrite supportedType_supported by (rewrite (vi_type _ _ _ _ _ _ _ _ Hinv); apply (co_type _ Hok)). cbn [mbind res_bind].
    rewrite (vi_type _ _ _ _ _ _ _ _ Hinv).
    rewrite (read_block (zero_val (col_type c)) (fv_var fv0) _ _ _ Ha) by lia. cbn [mbind res_bind].
    rewrite <-(vi_type _ _ _ _ _ _ _ _ Hinv) at 2. exact Hw. }
  split_and!; [done|done|eapply var_inv_with_data; [exact Hinv|exact Ha']|].
  unfold slice at 1. rewrite !Nat.mul_0_l, !Nat.add_0_l, drop_0, take_0, app_nil_l.
  rewrite take_app_le by (rewrite (length_slice _ _ _ (col_n c)) by (done || lia); done).
  apply take_ge. rewrite (length_slice _ _ _ (col_n c)) by (done || lia). done.
Qed.


(** After the loop over the variables of the source, all but a derived date
    column are loaded. *)
Lemma transfer_ok s frame :
  frame_shape (cnt nlocs s) frame ->
  exists frame', foldM (frame_transfer p src (Z.of_nat s)) frame (g_names src) = Ok frame' /\ same_frame frame frame' /\
    (forall name, name ∉ g_names src -> g_vars frame' !! name = g_vars frame !! name) /\
    forall name fv0, g_vars src !! name = Some fv0 -> let c := var_col fv0 in
      exists fv data, g_vars frame' !! name = Some fv /\
        var_inv (col_dims c) (col_type c) (col_fill c) (Z.of_nat (dim_rows c)) (col_rest c)
          (frame_rows c (cnt nlocs s)) fv data /\
        slice (col_row c) 0 (cnt (col_n c) s) data = slice (col_row c) s (cnt (col_n c) s) (col_data c).
Proof.
  intros (Hn & Hl & Hv).
  destruct (foldM_vars (frame_transfer p src (Z.of_nat s)) (fun name fv fv' =>
    forall fv0, g_vars src !! name = Some fv0 -> let c := var_col fv0 in exists data,
      var_inv (col_dims c) (col_type c) (col_fill c) (Z.of_nat (dim_rows c)) (col_rest c)
        (frame_rows c (cnt nlocs s)) fv' data /\
      slice (col_row c) 0 (cnt (col_n c) s) data = slice (col_row c) s (cnt (col_n c) s) (col_data c))
    frame (g_names src) (so_names Hsrc)) as (frame' & Hf & Hs & Hin & Hout).
  - intros name g' Hname _ Hsame. apply (so_vars Hsrc) in Hname as [fv0 Hfv0].
    destruct (Hv name (var_col fv0)) as (fv & data & Hfv & Hinv); [unfold frame_col; by rewrite Hfv0|].
    destruct (transfer_var s g' name fv0 fv data Hfv0) as (fv' & data' & g'' & Ht & Hs' & Hg & Hinv' & Hsl);
      [by rewrite Hsame|done|].
    exists fv, fv'. split_and!; [done| |by exists g'']. intros fv1 H1. assert (fv1 = fv0) as -> by congruence. eauto.
  - exists frame'. split_and!; [done..|]. intros name fv0 Hfv0.
    destruct (Hin name) as (fv & fv' & _ & Hfv' & HR); [apply (so_vars Hsrc); by rewrite Hfv0|].
    destruct (HR fv0 Hfv0) as (data & Hd). eauto.
Qed.

Lemma mapR_slice {A B} (f : A -> res B) l l' P s c :
  mapR f l = Ok l' -> mapR f (slice P s c l) = Ok (slice P s c l').
Proof.
  unfold slice. generalize (c * P), (s * P). clear. intros k j E.
  assert (Hd : forall j l l', mapR f l = Ok l' -> mapR f (drop j l) = Ok (drop j l')).
  { clear. induction j as [|j IH]; intros l l' E; [done|]. destruct l as [|x l]; simpl in E; [by inv_res|].
    apply res_bind_Ok in E as (y & _ & E). apply res_bind_Ok in E as (ys & Hys & E). inv_res. simpl. by apply IH. }
  apply (Hd j) in E. revert k E. generalize (drop j l), (drop j l'). clear. intros l l' k. revert l l'.
  induction k as [|k IH]; intros l l' E; [done|]. destruct l as [|x l]; simpl in E; [by inv_res|].
  apply res_bind_Ok in E as (y & Hy & E). apply res_bind_Ok in E as (ys & Hys & E). inv_res. simpl. rewrite Hy. simpl.
  by rewrite (IH l ys Hys).
Qed.

Lemma slice_map {A B} (f : A -> B) P s c l : slice P s c (map f l) = map f (slice P s c l).
Proof. unfold slice. by rewrite skipn_map, firstn_map. Qed.

Lemma mapR_inj {A B} (f : A -> B) (g : B -> res A) l : (forall x, g (f x) = Ok x) -> mapR g (map f l) = Ok l.
Proof. intros Hg. induction l as [|x l IH]; simpl; [done|]. rewrite Hg. simpl. by rewrite IH. Qed.

(** The elements of a column along Location in a loaded frame. *)
Definition window {A} (s : nat) (l : list A) : list A := slice 1 s (cnt nlocs s) l.

Lemma length_window {A} s (l : list A) : length l = nlocs -> length (window s l) = cnt nlocs s.
Proof. intros Hl. unfold window, slice. rewrite length_take, length_drop, Hl. unfold cnt. lia. Qed.

Lemma loaded_location_column name t vals fv0 s fv data :
  location_column name t vals fv0 -> let c := var_col fv0 in
  var_inv (col_dims c) (col_type c) (col_fill c) (Z.of_nat (dim_rows c)) (col_rest c)
    (frame_rows c (cnt nlocs s)) fv data ->
  slice (col_row c) 0 (cnt (col_n c) s) data = slice (col_row c) s (cnt (col_n c) s) (col_data c) ->
  var_inv ["Location"] t (fvdata_ (fv_var fv0)) (Z.of_nat (m `min` nlocs)) [] (cnt nlocs s) fv (window s vals).
Proof.
  intros Hc c Hinv Hsl. destruct (location_column_col _ _ _ _ Hc) as (_ & Hcol & En & Er & Erow & _).
  destruct Hc as (Hn & Hd & Ht & Hvals). pose proof (frame_col_ok _ _ Hcol) as Hok. fold c in En, Er, Erow, Hok.
  assert (Eb : by_location c = true) by (unfold by_location, c; simpl; by rewrite Hd, bool_decide_true by done).
  assert (Hdata : data = window s vals).
  { assert (Hlen : length data = cnt nlocs s * 1).
    { pose proof (var_inv_length _ _ _ _ _ _ _ _ Hinv) as Hl. unfold frame_rows in Hl. rewrite Eb, Er in Hl. exact Hl. }
    rewrite En, Erow in Hsl. rewrite slice_full in Hsl by lia. rewrite Hsl. unfold window, c. simpl. by rewrite Hvals. }
  rewrite <-Hdata. rewrite (by_location_dim_rows c Hok Eb) in Hinv. unfold frame_rows in Hinv. rewrite Eb, Er in Hinv.
  unfold c in Hinv. simpl in Hinv. by rewrite Hd, Ht in Hinv.
Qed.

Lemma derived_loaded s frame frame' :
  frame_shape (cnt nlocs s) frame -> derived = true -> same_frame frame frame' ->
  (forall name, name ∉ g_names src -> g_vars frame' !! name = g_vars frame !! name) ->
  (forall name fv0, g_vars src !! name = Some fv0 -> let c := var_col fv0 in
      exists fv data, g_vars frame' !! name = Some fv /\
        var_inv (col_dims c) (col_type c) (col_fill c) (Z.of_nat (dim_rows c)) (col_rest c)
          (frame_rows c (cnt nlocs s)) fv data /\
        slice (col_row c) 0 (cnt (col_n c) s) data = slice (col_row c) s (cnt (col_n c) s) (col_data c)) ->
  exists frame'', vars_update "MetaData/dateTime" (fun v =>
      front_write (map VInt64 (window s ts)) int64_t front_all front_all (fv_var v)) frame' = Ok frame'' /\
    frame_loaded s frame''.
Proof.
  intros (Hn & Hl & Hv) Ed (S1 & S2 & S3) Hout Hin.
  destruct (Hv "MetaData/dateTime" dt_col) as (fv & data & Hfv & Hinv).
  { unfold frame_col. by rewrite (dt_not_in_src Ed), Ed. }
  assert (Hfv' : g_vars frame' !! "MetaData/dateTime" = Some fv).
  { rewrite Hout; [done|]. rewrite (so_vars Hsrc), (dt_not_in_src Ed). by intros [? ?]. }
  assert (Er : frame_rows dt_col (cnt nlocs s) = cnt nlocs s) by done.
  pose proof (vi_array _ _ _ _ _ _ _ _ Hinv) as Ha. rewrite Er in Ha.
  destruct (write_all (fv_var fv) _ _ _ Ha (map VInt64 (window s ts))) as (st & Hw & Ha').
  { rewrite length_map, length_window by apply length_ts. unfold row_size, prodZ. simpl. lia. }
  eexists. split; [apply vars_update_ok with (fv := fv); [done|]|].
  { change int64_t with (col_type dt_col). rewrite <-(vi_type _ _ _ _ _ _ _ _ Hinv). exact Hw. }
  split_and!; simpl; [by rewrite S3|by rewrite S2|]. intros name c Hc. unfold frame_col in Hc.
  destruct (g_vars src !! name) as [fv0|] eqn:E0.
  - injection Hc as <-. rewrite lookup_insert_ne by (intros <-; by rewrite (dt_not_in_src Ed) in E0). by apply Hin.
  - rewrite Ed in Hc. simpl in Hc. case_bool_decide; [|done]. subst name. injection Hc as <-.
    rewrite lookup_insert_eq. eexists _, _. split_and!; [reflexivity| |].
    + rewrite Er in *. eapply var_inv_with_data; [exact Hinv|exact Ha'].
    + simpl. change (col_row dt_col) with 1. rewrite !slice_map. fold (window s ts). f_equal.
      apply slice_full. rewrite length_window by apply length_ts. lia.
Qed.


Lemma datetime_modes :
  (use_epoch_datetime_ src = true -> derived = false) /\
  (use_string_datetime_ src = true -> derived = true) /\
  (use_offset_datetime_ src = true -> use_string_datetime_ src = false /\ derived = true).
Proof.
  unfold derived, use_offset_datetime_, use_string_datetime_, use_epoch_datetime_.
  destruct (vars_exists "MetaData/dateTime" src), (vars_exists "MetaData/datetime" src), (vars_exists "MetaData/time" src);
    simpl; split_and!; intros; done.
Qed.

Lemma location_read_all init t fill mx n fv (data : list (Val F)) :
  var_inv ["Location"] t fill mx [] n fv data -> front_read init t front_all front_all (fv_var fv) = Ok data.
Proof. intros Hv. rewrite <-(vi_type _ _ _ _ _ _ _ _ Hv). apply (read_all _ _ _ _ _ (vi_array _ _ _ _ _ _ _ _ Hv)). Qed.

Lemma frame_load_ok loc s frame :
  frame_shape loc frame ->
  exists frame', (f ← ObsGroup_resize "Location" (Z.of_nat (cnt nlocs s)) frame;
      f ← foldM (frame_transfer p src (Z.of_nat s)) f (g_names src);
      frame_datetimes p src f) = Ok frame' /\ frame_loaded s frame'.
Proof.
  intros Hf. destruct (frame_resize_ok loc (cnt nlocs s) frame Hf) as (f1 & Hr & Hf1); [unfold cnt; lia|].
  rewrite Hr. cbn [mbind res_bind]. destruct (transfer_ok s f1 Hf1) as (f2 & Ht & Hs2 & Hout & Hin).
  rewrite Ht. cbn [mbind res_bind]. destruct datetime_modes as (M1 & M2 & M3). unfold frame_datetimes.
  destruct (so_times Hsrc) as [(Hm & fv & Hc)|[(Hm & fv & strs & Hc & Hts)|(Hm & fv & hs & Hc & Hts)]].
  - specialize (M1 Hm). pose proof M1 as Ed. unfold derived in M1. apply orb_false_iff in M1 as [-> ->].
    exists f2. split; [done|]. destruct Hf1 as (Hn & (cur & Hl) & _), Hs2 as (_ & S2 & S3).
    split_and!; [by rewrite S3|rewrite S2; eauto|]. intros name c Hcol. unfold frame_col in Hcol.
    destruct (g_vars src !! name) as [fv0|] eqn:E0; [|by rewrite Ed in Hcol]. injection Hcol as <-. by apply Hin.
  - rewrite Hm. specialize (M2 Hm). destruct (Hin _ _ (proj1 Hc)) as (fv' & data & Hfv' & Hinv & Hsl).
    pose proof (loaded_location_column _ _ _ _ _ _ _ Hc Hinv Hsl) as Hv. unfold vars_open. rewrite Hfv'. cbn [mbind res_bind].
    rewrite (location_read_all (VString "") _ _ _ _ _ _ Hv). cbn [mbind res_bind].
    unfold window at 1. rewrite slice_map, (mapR_inj VString) by done. cbn [mbind res_bind].
    unfold convertDtStringsToTimeOffsets in *. rewrite (mapR_slice _ _ _ 1 s (cnt nlocs s) Hts). cbn [mbind res_bind].
    by eapply derived_loaded.
  - rewrite Hm. destruct (M3 Hm) as [-> Hd]. destruct (Hin _ _ (proj1 Hc)) as (fv' & data & Hfv' & Hinv & Hsl).
    pose proof (loaded_location_column _ _ _ _ _ _ _ Hc Hinv Hsl) as Hv. unfold vars_open. rewrite Hfv'. cbn [mbind res_bind].
    rewrite (location_read_all (VFloat f_zero) _ _ _ _ _ _ Hv). cbn [mbind res_bind].
    unfold window at 1. rewrite slice_map, (mapR_inj VFloat) by done. cbn [mbind res_bind].
    rewrite <-slice_map, <-Hts. by eapply derived_loaded.
Qed.


(** ** The specification of the selection of locations *)

Definition inside_window (t : Z) : bool :=
  insideTimingWindow p (if decide (t = missing_int64) then dt_missing else dt_add (frame_epoch p) t).

(** Location [i] passes the checks; it is outside the time window. *)
Definition keep (i : nat) : bool :=
  if applyLocationsCheck p then
    match ts !! i, lats !! i, lons !! i with
    | Some t, Some lat, Some lon => inside_window t && negb (f_eqb lat latFill) && negb (f_eqb lon lonFill)
    | _, _, _ => false
    end
  else true.
Definition outside (i : nat) : bool :=
  if applyLocationsCheck p then match ts !! i with Some t => negb (inside_window t) | None => false end
  else false.

Definition kept (s k : nat) : list nat := List.filter keep (seq s k).

(** The key of a location, and the numbers of the records of a list of
    locations, from the next number and the keys seen before. *)
Definition segment (i : nat) (v : string) : string :=
  match frame_col ("MetaData/" +:+ v) with
  | Some c => match col_data c !! i with Some x => val_to_string x | None => "" end
  | None => ""
  end.
Definition location_key (i : nat) : string :=
  match obs_grouping_vars_ p with
  | [] => ""
  | v :: vs => foldl (fun key v => key +:+ ":" +:+ segment i v) (segment i v) vs
  end.

Fixpoint number_keys (next : nat) (grouping : gmap string nat) (keys : list string)
  : list nat * (nat * gmap string nat) :=
  match keys with
  | [] => ([], (next, grouping))
  | key :: keys =>
      match grouping !! key with
      | Some r => let '(rs, s) := number_keys next grouping keys in (r :: rs, s)
      | None => let '(rs, s) := number_keys (S next) (<[key := next]> grouping) keys in (next :: rs, s)
      end
  end.

Definition number_locs (next : nat) (grouping : gmap string nat) (locs : list nat)
  : list nat * (nat * gmap string nat) :=
  match obs_grouping_vars_ p with
  | [] => (seq next (length locs), (next + length locs, grouping))
  | _ => number_keys next grouping (map location_key locs)
  end.

(** Telling the distribution of each location and keeping those of this rank:
    pairs of a location and its record. *)
Definition point (i : nat) : F * F := (default f_zero (lons !! i), default f_zero (lats !! i)).

Fixpoint distribute (d : D) (l : list (nat * nat)) : res (D * list (nat * nat)) :=
  match l with
  | [] => Ok (d, [])
  | (loc, rec) :: l =>
      d ← rd_assignRecord d rec loc (point loc);
      '(d', mine) ← distribute d l;
      Ok (d', if rd_isMyRecord d rec then (loc, rec) :: mine else mine)
  end.

Lemma number_keys_app next g k1 k2 :
  number_keys next g (k1 ++ k2) =
    let '(r1, (n1, g1)) := number_keys next g k1 in
    let '(r2, s2) := number_keys n1 g1 k2 in (r1 ++ r2, s2).
Proof.
  revert next g. induction k1 as [|k k1 IH]; intros next g; simpl; [by destruct (number_keys next g k2)|].
  destruct (g !! k) as [r|]; rewrite IH; destruct (number_keys _ _ k1) as [r1 [n1 g1]]; by destruct (number_keys n1 g1 k2).
Qed.

Lemma number_keys_length next g ks : length (number_keys next g ks).1 = length ks.
Proof.
  revert next g. induction ks as [|k ks IH]; intros next g; simpl; [done|].
  destruct (g !! k); [specialize (IH next g)|specialize (IH (S next) (<[k := next]> g))];
    destruct (number_keys _ _ ks); simpl in *; lia.
Qed.

Lemma number_locs_app next g l1 l2 :
  number_locs next g (l1 ++ l2) =
    let '(r1, (n1, g1)) := number_locs next g l1 in
    let '(r2, s2) := number_locs n1 g1 l2 in (r1 ++ r2, s2).
Proof.
  unfold number_locs. destruct (obs_grouping_vars_ p).
  - rewrite length_app, seq_app. do 2 f_equal. lia.
  - rewrite map_app. apply number_keys_app.
Qed.

Lemma number_locs_length next g l : length (number_locs next g l).1 = length l.
Proof.
  unfold number_locs. destruct (obs_grouping_vars_ p); simpl; [apply length_seq|]. by rewrite number_keys_length, length_map.
Qed.

Lemma distribute_app d l1 l2 :
  distribute d (l1 ++ l2) =
    ('(d1, m1) ← distribute d l1; '(d2, m2) ← distribute d1 l2; Ok (d2, m1 ++ m2)).
Proof.
  revert d. induction l1 as [|[loc rec] l1 IH]; intros d; simpl.
  - by destruct (distribute d l2) as [[? ?]|].
  - destruct (rd_assignRecord d rec loc (point loc)) as [d'|]; simpl; [|done]. rewrite IH.
    destruct (distribute d' l1) as [[d1 m1]|]; simpl; [|done]. destruct (distribute d1 l2) as [[d2 m2]|]; simpl; [|done].
    by destruct (rd_isMyRecord d' rec).
Qed.

(** ** Selecting the locations of a frame *)

Lemma frameCount_location (st : FrameRead F D) s :
  frame_start_ st = Z.of_nat s -> frameCount p src st "Location" = Ok (Z.of_nat (cnt nlocs s)).
Proof.
  intros Hs. unfold frameCount. rewrite !bool_decide_false, !andb_false_r by done.
  destruct (so_loc Hsrc) as [mx Hl]. by rewrite Hl, Hs, basicFrameCount_nat.
Qed.

(** Reading a column of the frame through the frame selections. *)
Lemma location_selections c :
  (Z.of_nat c < 2 ^ 31)%Z ->
  createMemSelection [Z.of_nat c] (Z.of_nat c) = Ok (set_block [Z.of_nat c] [0%Z] [Z.of_nat c]) /\
  createEntireFrameSelection [Z.of_nat c] (Z.of_nat c) = Ok (set_block [Z.of_nat c] [0%Z] [Z.of_nat c]).
Proof.
  intros Hc. assert (Hs : shape c []) by (split; [constructor|unfold prodZ; simpl; lia..]). split.
  - rewrite (createMemSelection_ok _ [] c Hs). change (row_size []) with 1. by rewrite Nat.mul_1_r.
  - by rewrite (createEntireFrameSelection_ok _ [] c).
Qed.

Lemma location_read_frame init t fill mx c fv (data : list (Val F)) :
  var_inv ["Location"] t fill mx [] c fv data ->
  front_read init t (set_block [Z.of_nat c] [0%Z] [Z.of_nat c]) (set_block [Z.of_nat c] [0%Z] [Z.of_nat c]) (fv_var fv) = Ok data.
Proof.
  intros Hv. pose proof (vi_array _ _ _ _ _ _ _ _ Hv) as Ha. pose proof (var_inv_length _ _ _ _ _ _ _ _ Hv) as Hl.
  change (row_size []) with 1 in Hl. rewrite <-(vi_type _ _ _ _ _ _ _ _ Hv). destruct (decide (c = 0)) as [->|Hc].
  - destruct (empty_block_selection [0%Z] [0%Z] [] [0%Z]) as (f & Hf & Hn); [done..|].
    rewrite (read_no_rows _ _ [] data _ _ f f Ha); [by destruct data|done|done|done| |done].
    by rewrite (arr_dims _ _ _ _ Ha).
  - pose proof (read_block init (fv_var fv) _ _ _ Ha [Z.of_nat c] 0 c ltac:(lia) ltac:(lia)) as Hr.
    change (row_size []) with 1 in Hr. rewrite !Nat.mul_1_r, Nat.sub_diag in Hr. cbn [replicate map] in Hr. rewrite app_nil_r in Hr.
    change (Z.of_nat 0) with 0%Z in Hr. rewrite Hr. by rewrite slice_full by lia.
Qed.


Lemma window_lookup {A} s (l : list A) i : i < cnt nlocs s -> window s l !! i = l !! (s + i).
Proof. intros Hi. unfold window, slice. rewrite lookup_take_lt, lookup_drop by lia. f_equal. lia. Qed.

Lemma window_map {A B} (f : A -> B) s l : window s (map f l) = map f (window s l).
Proof. apply slice_map. Qed.

Lemma loaded_column s frame name t vals fv0 :
  frame_loaded s frame -> location_column name t vals fv0 ->
  exists fv, g_vars frame !! name = Some fv /\
    var_inv ["Location"] t (fvdata_ (fv_var fv0)) (Z.of_nat (m `min` nlocs)) [] (cnt nlocs s) fv (window s vals).
Proof.
  intros (_ & _ & Hv) Hc. destruct (location_column_col _ _ _ _ Hc) as (_ & Hcol & _).
  destruct (Hv _ _ Hcol) as (fv & data & Hfv & Hinv & Hsl). exists fv. split; [done|].
  by eapply loaded_location_column.
Qed.

Lemma loaded_times s frame :
  frame_loaded s frame ->
  exists fv fill, g_vars frame !! "MetaData/dateTime" = Some fv /\
    var_inv ["Location"] int64_t fill (Z.of_nat (m `min` nlocs)) [] (cnt nlocs s) fv (map VInt64 (window s ts)).
Proof.
  intros Hf. destruct datetime_modes as (M1 & M2 & M3).
  destruct (so_times Hsrc) as [(Hm & fv & Hc)|Hm].
  { destruct (loaded_column _ _ _ _ _ _ Hf Hc) as (fv' & Hfv & Hinv). rewrite window_map in Hinv. eauto. }
  assert (Ed : derived = true) by (destruct Hm as [(Hm & _)|(Hm & _)]; [by apply M2|by apply M3]).
  destruct Hf as (_ & _ & Hv). destruct (Hv "MetaData/dateTime" dt_col) as (fv & data & Hfv & Hinv & Hsl).
  { unfold frame_col. by rewrite (dt_not_in_src Ed), Ed. }
  change (frame_rows dt_col (cnt nlocs s)) with (cnt nlocs s) in Hinv. change (col_row dt_col) with 1 in Hsl. simpl in Hinv, Hsl.
  pose proof (var_inv_length _ _ _ _ _ _ _ _ Hinv) as Hl. change (row_size []) with 1 in Hl.
  rewrite slice_full, slice_map in Hsl by done. fold (window s ts) in Hsl. subst data. exists fv, None. split; [done|].
  assert (dim_rows dt_col = m `min` nlocs) as Er by done. by rewrite Er in Hinv.
Qed.

Lemma List_filter_map {A B} (f : A -> B) (P : B -> bool) l : List.filter P (map f l) = map f (List.filter (fun x => P (f x)) l).
Proof. induction l as [|x l IH]; simpl; [done|]. rewrite IH. by destruct (P (f x)). Qed.

Lemma seq_shift_map s k : seq s k = map (fun i => s + i) (seq 0 k).
Proof. rewrite <-(Nat.add_0_r s) at 1. symmetry. exact (fmap_add_seq s 0 k). Qed.

Lemma kept_frame s k : kept s k = map (fun i => s + i) (List.filter (fun i => keep (s + i)) (seq 0 k)).
Proof. unfold kept. by rewrite seq_shift_map, List_filter_map. Qed.

(** The loop of the checks. *)
Lemma qcheck_loop s o k :
  applyLocationsCheck p = true -> k <= cnt nlocs s ->
  foldM (qcheck_step p (convertEpochDtToDtime (frame_epoch p) (window s ts)) (window s lats) (window s lons) latFill lonFill s)
    ([], [], o) (seq 0 k) =
  Ok (kept s k, List.filter (fun i => keep (s + i)) (seq 0 k),
      (o + Z.of_nat (length (List.filter outside (seq s k))))%Z).
Proof.
  intros Hchk. induction k as [|k IH]; intros Hk; [by rewrite Z.add_0_r|].
  rewrite seq_S, foldM_app, IH by lia. cbn [mbind res_bind foldM Nat.add].
  unfold kept. rewrite (seq_S k s), !List.filter_app, length_app. cbn [List.filter Nat.add].
  assert (Hi : k < cnt nlocs s) by lia. assert (Hsi : s + k < nlocs) by (unfold cnt in Hi; lia).
  destruct (lookup_lt_is_Some_2 ts (s + k)) as [t Ht]; [by rewrite length_ts|].
  destruct (lookup_lt_is_Some_2 lats (s + k)) as [la Hla]; [by rewrite length_lats|].
  destruct (lookup_lt_is_Some_2 lons (s + k)) as [lo Hlo]; [by rewrite length_lons|].
  unfold qcheck_step, convertEpochDtToDtime.
  rewrite (vec_get_Some _ _ (if decide (t = missing_int64) then dt_missing else dt_add (frame_epoch p) t))
    by (by rewrite list_lookup_fmap, window_lookup, Ht by done).
  cbn [mbind res_bind]. fold (inside_window t).
  rewrite (vec_get_Some (window s lats) k la) by (by rewrite window_lookup by done).
  rewrite (vec_get_Some (window s lons) k lo) by (by rewrite window_lookup by done).
  unfold keep, outside. rewrite Hchk, Ht, Hla, Hlo. cbn [mbind res_bind].
  destruct (inside_window t); cbn [negb andb mbind res_bind].
  - destruct (f_eqb la latFill), (f_eqb lo lonFill); cbn [negb andb mbind res_bind length]; rewrite ?app_nil_r; do 2 f_equal; lia.
  - cbn [length]. rewrite !app_nil_r. do 2 f_equal. lia.
Qed.

Definition set_locs (t : Tally D) (kept_locs : nat) (outside_locs : nat) : Tally D :=
  {| next_rec_num_ := next_rec_num_ t; obs_grouping_ := obs_grouping_ t; gnlocs_ := gnlocs_ t + Z.of_nat kept_locs;
     gnlocs_outside_timewindow_ := gnlocs_outside_timewindow_ t + Z.of_nat outside_locs;
     nlocs_ := nlocs_ t; nrecs_ := nrecs_ t; indx_ := indx_ t; recnums_ := recnums_ t;
     unique_rec_nums_ := unique_rec_nums_ t; dist_ := dist_ t |}.

Lemma genFrameLocations_ok s (st : FrameRead F D) :
  frame_start_ st = Z.of_nat s -> frame_loaded s (obs_frame_ st) ->
  let k := cnt nlocs s in
  (if applyLocationsCheck p then genFrameLocationsWithQcheck p src st else genFrameLocationsAll p src st) =
  Ok (kept s k, List.filter (fun i => keep (s + i)) (seq 0 k),
      set_locs (tally_ st) (length (kept s k)) (length (List.filter outside (seq s k)))).
Proof.
  intros Hs Hf k. destruct (applyLocationsCheck p) eqn:Hchk.
  - unfold genFrameLocationsWithQcheck. rewrite (frameCount_location st s Hs). cbn [mbind res_bind]. fold k.
    destruct (loaded_times s _ Hf) as (dv & dfill & Hdv & Hdinv).
    destruct (so_lat Hsrc) as (lafv & Hlac & Hlafill). destruct (loaded_column _ _ _ _ _ _ Hf Hlac) as (lav & Hlav & Hlainv).
    destruct (so_lon Hsrc) as (lofv & Hloc & Hlofill). destruct (loaded_column _ _ _ _ _ _ Hf Hloc) as (lov & Hlov & Hloinv).
    fold k in Hdinv, Hlainv, Hloinv. unfold vars_open. rewrite Hdv. cbn [mbind res_bind].
    rewrite (arr_dims _ _ _ _ (vi_array _ _ _ _ _ _ _ _ Hdinv)).
    destruct (location_selections k) as [-> ->]; [pose proof nlocs_small; unfold k, cnt; lia|]. cbn [mbind res_bind].
    rewrite (location_read_all (VInt64 0) _ _ _ _ _ _ Hdinv). cbn [mbind res_bind]. rewrite (mapR_inj VInt64) by done. cbn [mbind res_bind].
    rewrite Hlav. cbn [mbind res_bind]. rewrite (location_read_frame _ _ _ _ _ _ _ Hlainv). cbn [mbind res_bind].
    rewrite window_map, (mapR_inj VFloat) by done. cbn [mbind res_bind].
    assert (float_fill (fv_var lav) = Ok latFill) as -> by (unfold float_fill; by rewrite (vi_fill _ _ _ _ _ _ _ _ Hlainv)).
    cbn [mbind res_bind]. rewrite Hlov. cbn [mbind res_bind]. rewrite (location_read_frame _ _ _ _ _ _ _ Hloinv). cbn [mbind res_bind].
    rewrite window_map, (mapR_inj VFloat) by done. cbn [mbind res_bind].
    assert (float_fill (fv_var lov) = Ok lonFill) as -> by (unfold float_fill; by rewrite (vi_fill _ _ _ _ _ _ _ _ Hloinv)).
    cbn [mbind res_bind]. rewrite Hs, !Nat2Z.id, qcheck_loop by done. reflexivity.
  - unfold genFrameLocationsAll. rewrite (frameCount_location st s Hs). cbn [mbind res_bind]. fold k.
    rewrite Hs, !Nat2Z.id. unfold kept.
    assert (Hk : forall i, keep i = true) by (intros; unfold keep; by rewrite Hchk).
    assert (Ho : forall i, outside i = false) by (intros; unfold outside; by rewrite Hchk).
    assert (Hall : forall (P : nat -> bool) l, (forall i, P i = true) -> List.filter P l = l).
    { intros P l HP. induction l as [|x l IH]; simpl; [done|]. by rewrite HP, IH. }
    assert (Hnone : forall l, List.filter outside l = []).
    { intros l. induction l as [|x l IH]; simpl; [done|]. by rewrite Ho, IH. }
    rewrite !Hall, Hnone, length_seq by (intros; apply Hk). unfold set_locs. simpl. by rewrite Z.add_0_r.
Qed.


(** ** Numbering the records of a frame *)

Lemma key_segments_ok s (st : FrameRead F D) fl g i v :
  frame_start_ st = Z.of_nat s -> frame_loaded s (obs_frame_ st) -> v ∈ obs_grouping_vars_ p ->
  Forall (fun x => x < cnt nlocs s) fl ->
  key_segments p src st fl (map g fl) (i, v) =
    Ok (map (fun x => if (i =? 0) then segment (s + x) v else g x +:+ ":" +:+ segment (s + x) v) fl).
Proof.
  intros Hs Hf Hv Hfl. destruct (so_group Hsrc v Hv) as (fv0 & H0 & Hd).
  assert (Hc : location_column ("MetaData/" +:+ v) (dtype_ (fv_var fv0)) (var_attr_data_ (var_data_ (fv_var fv0))) fv0) by done.
  destruct (loaded_column _ _ _ _ _ _ Hf Hc) as (fv & Hfv & Hinv).
  destruct (location_column_col _ _ _ _ Hc) as (_ & Hcol & _ & _ & _ & Hlen & Hsm & _).
  pose proof (co_type _ (frame_col_ok _ _ Hcol)) as Hty. simpl in Hty.
  unfold key_segments, vars_open. rewrite Hfv. cbn [mbind res_bind].
  unfold isVarDimByLocation_Impl. rewrite H0, Hd. change (vec_get ["Location"] 0) with (Ok "Location"). cbn [mbind res_bind].
  rewrite (frameCount_location st s Hs). cbn [mbind res_bind]. rewrite (arr_dims _ _ _ _ (vi_array _ _ _ _ _ _ _ _ Hinv)).
  destruct (location_selections (cnt nlocs s)) as [-> ->]; [unfold cnt; lia|]. cbn [mbind res_bind].
  rewrite supportedType_supported by (by rewrite (vi_type _ _ _ _ _ _ _ _ Hinv)). cbn [mbind res_bind].
  rewrite (vi_type _ _ _ _ _ _ _ _ Hinv), (location_read_frame _ _ _ _ _ _ _ Hinv). cbn [mbind res_bind].
  rewrite Nat2Z.id, vec_resize_same by (by apply length_window).
  assert (Hzip : zip fl (map g fl) = map (fun x => (x, g x)) fl) by (clear; induction fl; simpl; congruence).
  rewrite Hzip, mapR_map. apply mapR_Ok. intros x Hx. cbv beta iota. rewrite list.Forall_forall in Hfl. specialize (Hfl x Hx).
  destruct (lookup_lt_is_Some_2 (var_attr_data_ (var_data_ (fv_var fv0))) (s + x)) as [y Hy]; [rewrite Hlen; unfold cnt in Hfl; lia|].
  rewrite (vec_get_Some (window s (var_attr_data_ (var_data_ (fv_var fv0)))) x y) by (by rewrite window_lookup by done). cbn [mbind res_bind].
  unfold segment. rewrite Hcol. change (col_data (var_col fv0)) with (var_attr_data_ (var_data_ (fv_var fv0))). by rewrite Hy.
Qed.

Lemma buildObsGroupingKeys_ok s (st : FrameRead F D) fl :
  frame_start_ st = Z.of_nat s -> frame_loaded s (obs_frame_ st) -> obs_grouping_vars_ p <> [] ->
  Forall (fun x => x < cnt nlocs s) fl ->
  buildObsGroupingKeys p src st fl = Ok (map (fun x => location_key (s + x)) fl).
Proof.
  intros Hs Hf Hne Hfl. unfold buildObsGroupingKeys, location_key.
  assert (Hrest : forall vs j g, (forall v, v ∈ vs -> v ∈ obs_grouping_vars_ p) ->
    foldM (key_segments p src st fl) (map g fl) (imap (fun i v => (S j + i, v)) vs) =
      Ok (map (fun x => foldl (fun key v => key +:+ ":" +:+ segment (s + x) v) (g x) vs) fl)).
  { intros vs. induction vs as [|v vs IH]; intros j g Hin; [done|]. rewrite imap_cons. cbn [foldM].
    rewrite (key_segments_ok s) by (done || (apply Hin; left)). cbn [mbind res_bind Nat.add Nat.eqb foldl].
    rewrite (imap_ext _ (fun i v => (S (S j) + i, v))) by (intros; simpl; f_equal; lia).
    rewrite (IH (S j) (fun x => g x +:+ ":" +:+ segment (s + x) v)); [done|]. intros v' Hv'. apply Hin. by right. }
  destruct (obs_grouping_vars_ p) as [|v vs] eqn:Ev; [done|]. rewrite imap_cons. cbn [foldM].
  assert (Hrep : replicate (length fl) "" = map (fun _ => "") fl) by (clear; induction fl; simpl; congruence).
  rewrite Hrep, (key_segments_ok s) by (done || (rewrite Ev; left)). cbn [mbind res_bind Nat.eqb].
  rewrite (imap_ext _ (fun i v => (1 + i, v))) by done. rewrite (Hrest vs 0); [done|]. intros v' Hv'. by right.
Qed.

Lemma foldl_number_key acc next g keys :
  foldl number_key (acc, next, g) keys =
    let '(rs, (n, g')) := number_keys next g keys in (acc ++ rs, n, g').
Proof.
  revert acc next g. induction keys as [|k keys IH]; intros acc next g; simpl; [by rewrite app_nil_r|].
  destruct (g !! k) as [r|]; rewrite IH; destruct (number_keys _ _ keys) as [rs [n g']]; by rewrite <-app_assoc.
Qed.

Lemma genRecordNumbers_ok s (st : FrameRead F D) (t : Tally D) fl :
  frame_start_ st = Z.of_nat s -> frame_loaded s (obs_frame_ st) -> Forall (fun x => x < cnt nlocs s) fl ->
  let '(recs, (next, grouping)) := number_locs (next_rec_num_ t) (obs_grouping_ t) (map (fun i => s + i) fl) in
  match obs_grouping_vars_ p with
  | [] => Ok (genRecordNumbersAll (map (fun i => s + i) fl) t)
  | _ => genRecordNumbersGrouping p src st fl t
  end = Ok (recs, set_numbering t next grouping).
Proof.
  intros Hs Hf Hfl. unfold number_locs. destruct (obs_grouping_vars_ p) as [|v vs] eqn:Ev.
  - unfold genRecordNumbersAll.
    assert (Hloop : forall (l : list nat) acc n, foldl (fun '(records, next) _ => (records ++ [next], S next)) (acc, n) l =
      (acc ++ seq n (length l), n + length l)).
    { intros l. induction l as [|x l IH]; intros acc n; simpl; [by rewrite app_nil_r, Nat.add_0_r|].
      rewrite IH, <-app_assoc. simpl. f_equal. lia. }
    rewrite Hloop. done.
  - rewrite map_map. destruct (number_keys _ _ (map (fun x => location_key (s + x)) fl)) as [recs [next grouping]] eqn:En.
    unfold genRecordNumbersGrouping. rewrite (buildObsGroupingKeys_ok s) by (done || by rewrite Ev). cbn [mbind res_bind].
    rewrite foldl_number_key, En. done.
Qed.

(** ** Distributing the records of a frame *)

Definition add_mine (t : Tally D) (d : D) (mine : list (nat * nat)) : Tally D :=
  {| next_rec_num_ := next_rec_num_ t; obs_grouping_ := obs_grouping_ t; gnlocs_ := gnlocs_ t;
     gnlocs_outside_timewindow_ := gnlocs_outside_timewindow_ t; nlocs_ := nlocs_ t + Z.of_nat (length mine);
     nrecs_ := nrecs_ t; indx_ := indx_ t ++ mine.*1; recnums_ := recnums_ t ++ mine.*2;
     unique_rec_nums_ := list_to_set mine.*2 ∪ unique_rec_nums_ t; dist_ := d |}.

Lemma distribute_loop s t fli l d mine :
  Forall (fun x => s <= x.1 < s + cnt nlocs s) l ->
  distribute (dist_ t) l = Ok (d, mine) ->
  foldM (distribute_step s (window s lats) (window s lons)) (t, fli) l =
    Ok (add_mine t d mine, fli ++ map (fun x => x.1 - s) mine).
Proof.
  intros Hl. revert t fli mine. induction Hl as [|[loc rec] l Hloc Hl IH]; intros t fli mine Hd; cbn [distribute] in Hd.
  - injection Hd as <- <-. cbn [foldM]. unfold add_mine. simpl. rewrite !app_nil_r. destruct t; simpl. repeat f_equal; [lia|set_solver].
  - simpl in Hloc. apply res_bind_Ok in Hd as (d1 & H1 & Hd). apply res_bind_Ok in Hd as ([d2 mine'] & H2 & Hd). inv_res.
    assert (Hi : loc - s < cnt nlocs s) by lia. assert (Hn : loc < nlocs) by (unfold cnt in Hloc; lia).
    destruct (lookup_lt_is_Some_2 lats loc) as [la Hla]; [by rewrite length_lats|].
    destruct (lookup_lt_is_Some_2 lons loc) as [lo Hlo]; [by rewrite length_lons|].
    cbn [foldM distribute_step].
    rewrite (vec_get_Some (window s lons) (loc - s) lo) by (rewrite window_lookup by done; rewrite <-Hlo; f_equal; lia). cbn [mbind res_bind].
    rewrite (vec_get_Some (window s lats) (loc - s) la) by (rewrite window_lookup by done; rewrite <-Hla; f_equal; lia). cbn [mbind res_bind].
    unfold point in H1. rewrite Hla, Hlo in H1. cbn in H1. rewrite H1. cbn [mbind res_bind].
    destruct (rd_isMyRecord d1 rec); cbn [mbind res_bind].
    + erewrite IH; [|simpl; exact H2]. unfold add_mine. simpl. rewrite <-!app_assoc. simpl. do 3 f_equal; [lia|set_solver].
    + erewrite IH; [|simpl; exact H2]. done.
Qed.

Lemma applyMpiDistribution_ok s (st : FrameRead F D) t locs recs d mine :
  frame_start_ st = Z.of_nat s -> frame_loaded s (obs_frame_ st) ->
  Forall (fun x => s <= x < s + cnt nlocs s) locs ->
  distribute (dist_ t) (zip locs recs) = Ok (d, mine) ->
  applyMpiDistribution p src st locs recs t = Ok (set_nrecs (add_mine t d mine), map (fun x => x.1 - s) mine).
Proof.
  intros Hs Hf Hl Hd. unfold applyMpiDistribution. rewrite (frameCount_location st s Hs). cbn [mbind res_bind].
  destruct (so_lat Hsrc) as (lafv & Hlac & _). destruct (loaded_column _ _ _ _ _ _ Hf Hlac) as (lav & Hlav & Hlainv).
  destruct (so_lon Hsrc) as (lofv & Hloc & _). destruct (loaded_column _ _ _ _ _ _ Hf Hloc) as (lov & Hlov & Hloinv).
  unfold vars_exists, vars_open. rewrite Hlov, bool_decide_true by eauto. cbn [negb mbind res_bind].
  rewrite (arr_dims _ _ _ _ (vi_array _ _ _ _ _ _ _ _ Hloinv)).
  destruct (location_selections (cnt nlocs s)) as [-> ->]; [pose proof nlocs_small; unfold cnt; lia|]. cbn [mbind res_bind].
  rewrite (location_read_frame _ _ _ _ _ _ _ Hloinv). cbn [mbind res_bind].
  rewrite Nat2Z.id, vec_resize_same by (apply length_window; by rewrite length_map, length_lons).
  rewrite window_map, (mapR_inj VFloat) by done. cbn [mbind res_bind].
  rewrite Hlav, bool_decide_true by eauto. cbn [negb mbind res_bind].
  rewrite (location_read_frame _ _ _ _ _ _ _ Hlainv). cbn [mbind res_bind].
  rewrite vec_resize_same by (apply length_window; by rewrite length_map, length_lats).
  rewrite window_map, (mapR_inj VFloat) by done. cbn [mbind res_bind].
  rewrite Hs, Nat2Z.id. rewrite (distribute_loop s t [] _ d mine); [done| |done].
  clear -Hl. revert recs. induction Hl as [|x l Hx Hl IH]; intros [|r recs]; simpl; constructor; [done|apply IH].
Qed.


(** ** A frame *)

Lemma kept_range s k : Forall (fun x => s <= x < s + k) (kept s k).
Proof. apply list.Forall_forall. intros x [Hx _]%elem_of_List_filter. apply elem_of_seq in Hx. lia. Qed.

Lemma kept_sorted s k : StronglySorted lt (kept s k).
Proof. apply StronglySorted_lt_filter, StronglySorted_lt_seq. Qed.

Lemma distribute_sub d l d' mine :
  distribute d l = Ok (d', mine) -> StronglySorted lt (l.*1) ->
  StronglySorted lt (mine.*1) /\ forall x, x ∈ mine -> x ∈ l.
Proof.
  revert d d' mine. induction l as [|[loc rec] l IH]; intros d d' mine Hd Hs; cbn [distribute] in Hd.
  - injection Hd as <- <-. split; [constructor|]. set_solver.
  - apply res_bind_Ok in Hd as (d1 & H1 & Hd). apply res_bind_Ok in Hd as ([d2 mine'] & H2 & Hd). inv_res.
    simpl in Hs. inversion Hs as [|? ? Hs' Hloc]; subst. destruct (IH _ _ _ H2 Hs') as [IH1 IH2].
    destruct (rd_isMyRecord d1 rec); [|split; [done|set_solver]]. simpl. split; [|set_solver].
    constructor; [done|]. rewrite list.Forall_forall in Hloc. apply list.Forall_forall.
    intros x (y & -> & Hy)%list_elem_of_fmap. apply Hloc. apply list_elem_of_fmap. eauto.
Qed.

Lemma genFrameIndexRecNums_ok s (st : FrameRead F D) recs next grouping d mine :
  frame_start_ st = Z.of_nat s -> frame_loaded s (obs_frame_ st) ->
  let l := kept s (cnt nlocs s) in let t := tally_ st in
  number_locs (next_rec_num_ t) (obs_grouping_ t) l = (recs, (next, grouping)) ->
  distribute (dist_ t) (zip l recs) = Ok (d, mine) ->
  genFrameIndexRecNums p src st =
    Ok {| frame_start_ := frame_start_ st;
          adjusted_location_frame_start_ := adjusted_location_frame_start_ st;
          adjusted_location_frame_count_ := Z.of_nat (length mine);
          frame_loc_index_ := map (fun x => x.1 - s) mine; obs_frame_ := obs_frame_ st;
          known_frame_selections_ := known_frame_selections_ st; known_mem_selections_ := known_mem_selections_ st;
          tally_ := set_nrecs (add_mine (set_numbering
            (set_locs t (length l) (length (List.filter outside (seq s (cnt nlocs s))))) next grouping) d mine) |}.
Proof.
  intros Hs Hf l t Hn Hd. unfold genFrameIndexRecNums.
  rewrite (genFrameLocations_ok s st Hs Hf). cbn [mbind res_bind]. fold l t.
  set (t1 := set_locs t _ _). set (fl := List.filter (fun i => keep (s + i)) (seq 0 (cnt nlocs s))).
  assert (El : l = map (fun i => s + i) fl) by apply kept_frame.
  assert (Hfl : Forall (fun x => x < cnt nlocs s) fl).
  { apply list.Forall_forall. intros x [Hx _]%elem_of_List_filter. apply elem_of_seq in Hx. lia. }
  pose proof (genRecordNumbers_ok s st t1 fl Hs Hf Hfl) as Hr. rewrite <-El in Hr.
  change (next_rec_num_ t1) with (next_rec_num_ t) in Hr. change (obs_grouping_ t1) with (obs_grouping_ t) in Hr.
  rewrite Hn in Hr. rewrite Hr. cbn [mbind res_bind].
  rewrite (applyMpiDistribution_ok s st (set_numbering t1 next grouping) l recs d mine Hs Hf (kept_range _ _) Hd). cbn [mbind res_bind].
  by rewrite length_map.
Qed.

Lemma frameAvailable_ok s loc (st : FrameRead F D) recs next grouping d mine :
  frame_start_ st = Z.of_nat s -> frame_shape loc (obs_frame_ st) -> (Z.of_nat s < maxVarSize0 src)%Z ->
  let l := kept s (cnt nlocs s) in let t := tally_ st in
  number_locs (next_rec_num_ t) (obs_grouping_ t) l = (recs, (next, grouping)) ->
  distribute (dist_ t) (zip l recs) = Ok (d, mine) ->
  exists frame, frameAvailable p src st =
    Ok (true, {| frame_start_ := frame_start_ st;
          adjusted_location_frame_start_ := adjusted_location_frame_start_ st;
          adjusted_location_frame_count_ := Z.of_nat (length mine);
          frame_loc_index_ := map (fun x => x.1 - s) mine; obs_frame_ := frame;
          known_frame_selections_ := ∅; known_mem_selections_ := ∅;
          tally_ := set_nrecs (add_mine (set_numbering
            (set_locs t (length l) (length (List.filter outside (seq s (cnt nlocs s))))) next grouping) d mine) |}) /\
    frame_loaded s frame.
Proof.
  intros Hs Hf Hmax l t Hn Hd. destruct (frame_load_ok loc s (obs_frame_ st) Hf) as (frame & Hload & Hloaded).
  exists frame. split; [|done]. unfold frameAvailable. rewrite decide_True by lia.
  rewrite (frameCount_location st s Hs). cbn [mbind res_bind]. rewrite Hs.
  destruct (ObsGroup_resize "Location" (Z.of_nat (cnt nlocs s)) (obs_frame_ st)) as [f1|]; [|done]. cbn [mbind res_bind] in Hload |- *.
  destruct (foldM (frame_transfer p src (Z.of_nat s)) f1 (g_names src)) as [f2|]; [|done]. cbn [mbind res_bind] in Hload |- *.
  rewrite Hload. cbn [mbind res_bind].
  rewrite (genFrameIndexRecNums_ok s (set_frame st frame) recs next grouping d mine) by done. cbn [mbind res_bind].
  unfold clear_selections. simpl. by rewrite Hs.
Qed.

(** The constructor. *)
Lemma ObsFrameRead_check_ok : ObsFrameRead_check src = Ok ().
Proof.
  unfold ObsFrameRead_check. destruct (so_loc Hsrc) as [mx Hl]. unfold dim_open. rewrite Hl. cbn [mbind res_bind].
  assert (Hmeta : (use_epoch_datetime_ src || use_string_datetime_ src || use_offset_datetime_ src) &&
    vars_exists "MetaData/latitude" src && vars_exists "MetaData/longitude" src = true).
  { destruct (so_lat Hsrc) as (la & (Hla & _) & _), (so_lon Hsrc) as (lo & (Hlo & _) & _).
    unfold vars_exists at 1 2. rewrite Hla, Hlo, !bool_decide_true, !andb_true_r by eauto.
    destruct (so_times Hsrc) as [(-> & _)|[(-> & _)|(-> & _)]]; [done|by rewrite orb_true_r|by rewrite !orb_true_r]. }
  by rewrite Hmeta, andb_false_r.
Qed.

Lemma frameInit_ok (dist : D) :
  exists frame, frameInit p src dist =
    Ok {| frame_start_ := 0; adjusted_location_frame_start_ := 0; adjusted_location_frame_count_ := 0;
          frame_loc_index_ := []; obs_frame_ := frame; known_frame_selections_ := ∅;
          known_mem_selections_ := ∅; tally_ := initial_tally dist |} /\
    frame_shape (m `min` nlocs) frame.
Proof.
  unfold frameInit. destruct createFrame_ok as (frame & Hc & Hs). rewrite Hc. cbn [mbind res_bind]. eauto.
Qed.

End spec.
