(* ===== verification/ObsSpaceInit.v ===== *)
(** The construction of an ObsSpace from an observation source:
    [createObsGroupFromObsFrame], [createVariables], [initFromObsSource] and the
    functions they call, of src/src/ObsSpace.cc. *)
From stdpp Require Import base list gmap strings sorting.
From Stdlib Require Import ZArith.
From S2P Require Import Prelude Selection VarAttrStore ObsTypes ObsAttributes ObsVariables ObsFrame ObsFrameRead.
From S2P Require Import ObsFrameReadSpec.
Local Open Scope Z_scope.

(** The group of the ObsSpace and the cached selections. *)
Record ObsSpace (F : Type) := {
  obs_group_ : ObsGroup F;
  known_fe_selections_ : gmap (list string) FrontSelection;
  known_be_selections_ : gmap (list string) FrontSelection
}.
Arguments obs_group_ {F} _.
Arguments known_fe_selections_ {F} _.
Arguments known_be_selections_ {F} _.

Definition Unlimited : Z := -1.

Section ObsSpaceInit.
Context {F DT D : Type} `{FO : FloatOps F} `{DO : DateTimeOps DT} `{MV : MissingValues F} `{RD : ReaderDist D (F * F)}.
Context (p : ReadParams DT) (src : ObsGroup F).

(** [createObsGroupFromObsFrame]: the dimensions of the ObsSpace. *)
Definition obs_group_dim (dimName : string) (dimSize : Z) : Z * Z :=
  if decide (dimName = "Location") then
    (if decide (max_frame_size_ p < dimSize) then max_frame_size_ p else dimSize, Unlimited)
  else (dimSize, dimSize).

Definition group_dim (dims : gmap string (Z * Z)) (dimName : string) : res (gmap string (Z * Z)) :=
  '(dimSize, _) ← dim_open dimName src;
  Ok (<[dimName := obs_group_dim dimName dimSize]> dims).

Definition createObsGroupFromObsFrame : res (ObsGroup F) :=
  dims ← foldM group_dim ∅ (g_dim_names src);
  Ok {| g_dim_names := g_dim_names src; g_dims := dims; g_names := []; g_vars := ∅ |}.

(** [getFillValue<T>()] *)
Definition missing_val (t : OType) : Val F :=
  match ty_type t with
  | LONG => VInt64 missing_int64
  | FLOAT => VFloat missing_float
  | STRING => VString missing_string
  | CHAR => VChar missing_char
  | _ => VInt missing_int
  end.

Definition is_skipped (varName : string) : bool :=
  bool_decide (varName = "MetaData/datetime") || bool_decide (varName = "MetaData/time").

(** [createVariables]: a variable of another type is skipped with a warning. *)
Definition create_var (frame dest : ObsGroup F) (varName : string) : res (ObsGroup F) :=
  if is_skipped varName then Ok dest else
  srcVar ← vars_open varName frame;
  match supportedType (fv_var srcVar) with
  | Ok t => createWithScales varName (fv_dims srcVar) t (Some (missing_val t)) dest
  | Throw _ => Ok dest
  end.

Definition createVariables (frame dest : ObsGroup F) : res (ObsGroup F) :=
  foldM (create_var frame) dest (g_names frame).

(** The comparison [varValues[i] == sourceFillValue] and the tests of the
    numeric types. *)
Definition is_missing (fill x : Val F) : bool :=
  match fill, x with
  | VInt a, VInt b | VInt64 a, VInt64 b | VChar a, VChar b => a =? b
  | VFloat a, VFloat b => f_eqb b a || f_isinf b || f_isnan b
  | VString a, VString b => bool_decide (a = b)
  | _, _ => false
  end.

(** [readObsSource] *)
Definition replace_missing (v : ObsVariable (Val F)) (values : list (Val F)) : list (Val F) :=
  match fvdata_ v with
  | Some fill => map (fun x => if is_missing fill x then missing_val (dtype_ v) else x) values
  | None => values
  end.

Definition readObsSource (st : FrameRead F D) (varName : string)
  : res (option (list (Val F)) * FrameRead F D) :=
  sourceVar ← vars_open varName (obs_frame_ st);
  '(values, st) ← readFrameVar p src st varName;
  Ok (option_map (replace_missing (fv_var sourceVar)) values, st).

Definition resizeLocation (LocationSize : Z) (append : bool) (g : ObsGroup F) : res (ObsGroup F) :=
  '(cur, _) ← dim_open "Location" g;
  ObsGroup_resize "Location" (if append then cur + LocationSize else LocationSize) g.

Definition set_group (os : ObsSpace F) (g : ObsGroup F) : ObsSpace F :=
  {| obs_group_ := g; known_fe_selections_ := known_fe_selections_ os;
     known_be_selections_ := known_be_selections_ os |}.

Definition storeVar (varName : string) (varValues : list (Val F)) (frameStart frameCount : Z)
    (os : ObsSpace F) : res (ObsSpace F) :=
  var ← vars_open varName (obs_group_ os);
  let varDims := dimensions_ (fv_var var) in
  let dims := fv_dims var in
  os ← (match known_fe_selections_ os !! dims with
    | Some _ => Ok os
    | None =>
        '(fe, be) ← storeVar_selections varDims frameStart frameCount;
        Ok {| obs_group_ := obs_group_ os;
              known_fe_selections_ := <[dims := fe]> (known_fe_selections_ os);
              known_be_selections_ := <[dims := be]> (known_be_selections_ os) |}
    end);
  match known_fe_selections_ os !! dims, known_be_selections_ os !! dims with
  | Some fe, Some be =>
      g ← vars_update varName (fun v =>
        t ← supportedType (fv_var v); front_write varValues t fe be (fv_var v)) (obs_group_ os);
      Ok (set_group os g)
  | _, _ => Throw EUndefined
  end.

(** One variable of a frame in the loop of [initFromObsSource]. *)
Definition init_var (s : FrameRead F D * ObsSpace F) (varName : string)
  : res (FrameRead F D * ObsSpace F) :=
  let '(st, os) := s in
  if is_skipped varName then Ok (st, os) else
  byLocation ← isVarDimByLocation_Impl varName (obs_frame_ st);
  let beFrameStart := if (byLocation : bool) then adjusted_location_frame_start_ st else frame_start_ st in
  count ← frameCount p src st varName;
  var ← vars_open varName (obs_frame_ st);
  _ ← supportedType (fv_var var);
  '(values, st) ← readObsSource st varName;
  match values with
  | Some varValues => os ← storeVar varName varValues beFrameStart count os; Ok (st, os)
  | None => Ok (st, os)
  end.

(** The loop over the frames. *)
Fixpoint frame_loop (fuel : nat) (first : bool) (st : FrameRead F D) (os : ObsSpace F)
  : res (FrameRead F D * ObsSpace F) :=
  '(available, st) ← frameAvailable p src st;
  if (available : bool) then
    match fuel with
    | O => Throw EFuel
    | S fuel =>
        g ← resizeLocation (adjusted_location_frame_count_ st) (negb first) (obs_group_ os);
        '(st, os) ← foldM init_var
          (st, {| obs_group_ := g; known_fe_selections_ := ∅; known_be_selections_ := ∅ |})
          (g_names (obs_frame_ st));
        frame_loop fuel false (frameNext p st) os
    end
  else Ok (st, os).

(** The part of the constructor of ObsSpace that reads the source: the
    construction of the ObsFrameRead, [createObsGroupFromObsFrame] and
    [initFromObsSource]. *)
Definition initFromObsSource (fuel : nat) (dist : D) : res (FrameRead F D * ObsSpace F) :=
  _ ← ObsFrameRead_check src;
  g ← createObsGroupFromObsFrame;
  st ← frameInit p src dist;
  g ← createVariables (obs_frame_ st) g;
  frame_loop fuel true st {| obs_group_ := g; known_fe_selections_ := ∅; known_be_selections_ := ∅ |}.
End ObsSpaceInit.

(** * Reading the variables of a frame *)

Section proofs.
Context {F DT D : Type} `{FO : FloatOps F} `{DO : DateTimeOps DT} `{MV : MissingValues F} `{RD : ReaderDist D (F * F)}.
Context (p : ReadParams DT) (src : ObsGroup F).
Context (m nlocs : nat) (ts : list Z) (lats lons : list F) (latFill lonFill : F).
Context (Hsrc : source_ok p src m nlocs ts lats lons latFill lonFill).
Local Open Scope nat_scope.

Notation frame_col := (frame_col src nlocs ts).
Notation frame_names := (frame_names src).
Notation cnt := (cnt m).
Notation frame_loaded := (frame_loaded src m nlocs ts).
Notation frame_shape := (frame_shape src m nlocs ts).
Notation col_ok := (col_ok p src).

(** The dimensions of a column give its sizes. *)
Lemma dims_determine c c' :
  col_ok c -> col_ok c' -> col_dims c = col_dims c' -> col_n c = col_n c' /\ col_rest c = col_rest c' /\ by_location c = by_location c'.
Proof.
  intros H1 H2 E. destruct (co_dims _ _ _ H1) as (d0 & ds & mx & Ed & E0 & Hds), (co_dims _ _ _ H2) as (d0' & ds' & mx' & Ed' & E0' & Hds').
  rewrite Ed, Ed' in E. injection E as -> ->. rewrite E0 in E0'. injection E0' as En _. split_and!; [lia| |unfold by_location; by rewrite Ed, Ed'].
  clear -Hds Hds'. revert Hds'. generalize (col_rest c') as r'. induction Hds as [|d z ds r (mxz & Hz & _) Hds IH]; intros r' Hr'.
  - by apply Forall2_nil_inv_l in Hr' as ->.
  - apply Forall2_cons_inv_l in Hr' as (z' & r'' & (mxz' & Hz' & _) & Hr' & ->). f_equal; [congruence|by apply IH].
Qed.

(** How many rows of a column the frame from [s] adds, [k] of its locations
    being kept. *)
Definition rows_of (c : Col F) (s k : nat) : nat := if by_location c then k else cnt (col_n c) s.

Lemma frameCount_col (st : FrameRead F D) s k name c :
  frame_start_ st = Z.of_nat s -> adjusted_location_frame_count_ st = Z.of_nat k ->
  frame_col name = Some c -> frameCount p src st name = Ok (Z.of_nat (rows_of c s k)).
Proof.
  intros Hs Hk Hc. unfold frameCount. unfold ObsFrameReadSpec.frame_col in Hc.
  destruct (g_vars src !! name) as [fv|] eqn:E.
  - injection Hc as <-.
    assert (Huse : use_string_datetime_ src && bool_decide (name = "MetaData/dateTime") = false /\
      use_offset_datetime_ src && bool_decide (name = "MetaData/dateTime") = false).
    { case_bool_decide as En; [|by rewrite !andb_false_r]. subst name.
      assert (He : use_epoch_datetime_ src = true)
        by (unfold use_epoch_datetime_, vars_exists; by rewrite E, bool_decide_true by eauto).
      unfold use_offset_datetime_, use_string_datetime_. by rewrite He. }
    destruct Huse as [-> ->].
    rewrite (so_scales _ _ _ _ _ _ _ _ _ Hsrc name) by (apply (so_vars _ _ _ _ _ _ _ _ _ Hsrc); by rewrite E).
    destruct (so_var _ _ _ _ _ _ _ _ _ Hsrc _ _ E) as [Ha Hok]. destruct (co_dims _ _ _ Hok) as (d0 & ds & mx & Ed & _ & _).
    simpl in Ed. unfold vars_open, isVarDimByLocation_Impl. rewrite E. cbn [mbind res_bind]. rewrite Ed.
    change (vec_get (d0 :: ds) 0) with (Ok d0). cbn [mbind res_bind]. unfold rows_of, by_location. cbn [col_dims var_col]. rewrite Ed.
    destruct (bool_decide (d0 = "Location")); [by rewrite Hk|]. rewrite (arr_dims _ _ _ _ Ha).
    change (vec_get (Z.of_nat (col_n (var_col fv)) :: col_rest (var_col fv)) 0) with (Ok (Z.of_nat (col_n (var_col fv)))).
    cbn [mbind res_bind]. rewrite Hs. by rewrite (basicFrameCount_nat p src m nlocs ts lats lons latFill lonFill Hsrc).
  - destruct (derived src) eqn:Ed; simpl in Hc; [|done]. case_bool_decide as En; [|done]. injection Hc as <-. subst name.
    rewrite !andb_true_r.
    assert (Hcol : forall name t vals fv0, location_column src name t vals fv0 ->
      match g_dims src !! name with
      | Some (size, _) => Ok (basicFrameCount p (frame_start_ st) size)
      | None => v ← vars_open name src; byLocation ← isVarDimByLocation_Impl name src;
          if (byLocation : bool) then Ok (adjusted_location_frame_count_ st)
          else size ← vec_get (dimensions_ (fv_var v)) 0; Ok (basicFrameCount p (frame_start_ st) size)
      end = Ok (Z.of_nat k)).
    { intros name t vals fv0 (Hn & Hd & _). rewrite (so_scales _ _ _ _ _ _ _ _ _ Hsrc name) by (apply (so_vars _ _ _ _ _ _ _ _ _ Hsrc); by rewrite Hn).
      unfold vars_open, isVarDimByLocation_Impl. rewrite Hn, Hd. cbn [mbind res_bind].
      change (vec_get ["Location"] 0) with (Ok "Location"). cbn [mbind res_bind]. by rewrite Hk. }
    destruct (datetime_modes src) as (M1 & M2 & M3).
    destruct (so_times _ _ _ _ _ _ _ _ _ Hsrc) as [(Hm & _)|[(Hm & fv & strs & Hc & _)|(Hm & fv & hs & Hc & _)]].
    + rewrite (M1 Hm) in Ed. done.
    + rewrite Hm. eapply Hcol, Hc.
    + destruct (M3 Hm) as [-> _]. rewrite Hm. eapply Hcol, Hc.
Qed.

(** The selections of a column in the frame from [s]. *)
Definition mem_sel (c : Col F) (s k : nat) : FrontSelection :=
  set_block [Z.of_nat (rows_of c s k * col_row c)] [0%Z] [Z.of_nat (rows_of c s k * col_row c)].
Definition frame_sel (c : Col F) (s k : nat) (fli : list nat) : FrontSelection :=
  if by_location c then createIndexedFrameSelection fli (Z.of_nat (cnt nlocs s) :: col_rest c)
  else set_block (Z.of_nat (rows_of c s k) :: col_rest c) (Z.of_nat 0 :: map (fun _ => 0%Z) (col_rest c))
    (Z.of_nat (rows_of c s k) :: col_rest c).

(** The cached selections are those of every column with the dimensions. *)
Definition reader_cache_ok (s k : nat) (st : FrameRead F D) : Prop :=
  forall dims mem, known_mem_selections_ st !! dims = Some mem ->
    exists fs, known_frame_selections_ st !! dims = Some fs /\
    forall c, col_ok c -> col_dims c = dims -> mem = mem_sel c s k /\ fs = frame_sel c s k (frame_loc_index_ st).

Definition same_reader (st st' : FrameRead F D) : Prop :=
  frame_start_ st' = frame_start_ st /\
  adjusted_location_frame_start_ st' = adjusted_location_frame_start_ st /\
  adjusted_location_frame_count_ st' = adjusted_location_frame_count_ st /\
  frame_loc_index_ st' = frame_loc_index_ st /\ obs_frame_ st' = obs_frame_ st /\ tally_ st' = tally_ st.

(** The reader holds the frame from [s], with the kept locations [fli]. *)
Record reader_at (s : nat) (fli : list nat) (st : FrameRead F D) : Prop := {
  ra_start : frame_start_ st = Z.of_nat s;
  ra_count : adjusted_location_frame_count_ st = Z.of_nat (length fli);
  ra_index : frame_loc_index_ st = fli;
  ra_sorted : StronglySorted lt fli;
  ra_range : Forall (fun i => i < cnt nlocs s) fli;
  ra_frame : frame_loaded s (obs_frame_ st);
  ra_cache : reader_cache_ok s (length fli) st
}.

(** What is read of a column. *)
Definition frame_values (c : Col F) (s : nat) (fli : list nat) : list (Val F) :=
  if by_location c then rows_at (col_row c) (slice (col_row c) s (cnt nlocs s) (col_data c)) fli
  else slice (col_row c) s (cnt (col_n c) s) (col_data c).

Lemma mem_sel_dims c c' s k : col_ok c -> col_ok c' -> col_dims c = col_dims c' ->
  mem_sel c s k = mem_sel c' s k /\ forall fli, frame_sel c s k fli = frame_sel c' s k fli.
Proof.
  intros H1 H2 E. destruct (dims_determine c c' H1 H2 E) as (En & Er & Eb).
  unfold mem_sel, frame_sel, rows_of, col_row. by rewrite En, Er, Eb.
Qed.

Lemma rows_of_le c s k : col_ok c -> k <= cnt nlocs s -> rows_of c s k <= frame_rows m c (cnt nlocs s) /\ rows_of c s k <= col_n c.
Proof.
  intros Hok Hk. unfold rows_of, frame_rows. destruct (by_location c) eqn:Eb.
  - split; [done|]. destruct (by_location_n p src m nlocs ts lats lons latFill lonFill Hsrc c Hok Eb) as [-> _].
    unfold ObsFrameReadSpec.cnt in Hk. lia.
  - split; [|unfold ObsFrameReadSpec.cnt; lia]. apply cnt_le_dim_rows.
    destruct (inner_dims p src c Hok) as (? & ? & -> & _). done.
Qed.

Lemma sorted_length (l : list nat) n : StronglySorted lt l -> Forall (fun i => i < n) l -> length l <= n.
Proof.
  intros Hs Hr. rewrite <-(length_seq n 0). apply submseteq_length, NoDup_submseteq; [by apply StronglySorted_lt_NoDup|].
  intros x Hx. rewrite list.Forall_forall in Hr. specialize (Hr x Hx). apply elem_of_seq. lia.
Qed.

(** Reading a variable through the selections, once they are cached. *)
Lemma read_frame_var s fli c fv data :
  StronglySorted lt fli -> Forall (fun i => i < cnt nlocs s) fli -> col_ok c -> 0 < rows_of c s (length fli) ->
  var_inv (col_dims c) (col_type c) (col_fill c) (Z.of_nat (dim_rows m c)) (col_rest c) (frame_rows m c (cnt nlocs s)) fv data ->
  slice (col_row c) 0 (cnt (col_n c) s) data = slice (col_row c) s (cnt (col_n c) s) (col_data c) ->
  exists tail, front_read (zero_val (col_type c)) (col_type c) (mem_sel c s (length fli)) (frame_sel c s (length fli) fli) (fv_var fv) =
    Ok (frame_values c s fli ++ tail) /\ length (frame_values c s fli) = rows_of c s (length fli) * col_row c /\
    (Z.of_nat (length (frame_values c s fli ++ tail)) < 2 ^ 31)%Z.
Proof.
  intros Hsort Hrange Hok Hpos Hinv Hsl. pose proof (vi_array _ _ _ _ _ _ _ _ Hinv) as Ha.
  pose proof (var_inv_length _ _ _ _ _ _ _ _ Hinv) as Hlen. pose proof (shape_bound _ _ (arr_shape _ _ _ _ Ha)) as Hb.
  pose proof (sorted_length _ _ Hsort Hrange) as Hk. destruct (rows_of_le c s _ Hok Hk) as [Hle _].
  unfold mem_sel, frame_sel, frame_values, rows_of in *. rewrite <-(vi_type _ _ _ _ _ _ _ _ Hinv).
  destruct (by_location c) eqn:Eb.
  - destruct (by_location_n p src m nlocs ts lats lons latFill lonFill Hsrc c Hok Eb) as [En _].
    unfold frame_rows in Ha, Hlen, Hb. rewrite Eb in Ha, Hlen, Hb.
    assert (Hdata : data = slice (col_row c) s (cnt nlocs s) (col_data c)).
    { rewrite En, slice_full in Hsl by done. done. }
    eexists. split; [|].
    + unfold col_row. rewrite (read_indexed (zero_val (dtype_ (fv_var fv))) _ _ _ _ Ha) by (done || (intros ->; simpl in Hpos; lia)).
      rewrite Hdata at 1. reflexivity.
    + assert (Hlr : length (rows_at (col_row c) (slice (col_row c) s (cnt nlocs s) (col_data c)) fli) = length fli * col_row c).
      { unfold rows_at. rewrite (length_concat_map_uniform _ (col_row c)); [done|]. intros i Hi. rewrite <-Hdata.
        rewrite list.Forall_forall in Hrange. specialize (Hrange i Hi).
        rewrite (length_slice _ _ _ (cnt nlocs s)) by (done || lia). lia. }
      split; [done|]. rewrite length_app, length_replicate, Hlr. unfold col_row. nia.
  - unfold frame_rows in Ha, Hlen, Hb, Hle. rewrite Eb in Ha, Hlen, Hb, Hle. eexists. split; [|].
    + rewrite (read_block (zero_val (dtype_ (fv_var fv))) _ _ _ _ Ha) by lia.
      change (row_size (col_rest c)) with (col_row c). rewrite Hsl. reflexivity.
    + assert (Hlr : length (slice (col_row c) s (cnt (col_n c) s) (col_data c)) = cnt (col_n c) s * col_row c).
      { apply (length_slice _ _ _ (col_n c)); [apply (co_data _ _ _ Hok)|unfold ObsFrameReadSpec.cnt in *; lia]. }
      split; [done|]. rewrite length_app, length_replicate, Hlr. unfold col_row. nia.
Qed.


Lemma same_reader_refl st : same_reader st st.
Proof. unfold same_reader. tauto. Qed.

Lemma reader_at_same s fli st st' :
  reader_at s fli st -> same_reader st st' -> reader_cache_ok s (length fli) st' -> reader_at s fli st'.
Proof.
  intros [H1 H2 H3 H4 H5 H6 _] (E1 & _ & E3 & E4 & E5 & _) Hc.
  split; [congruence|congruence|congruence|done|done|by rewrite E5|done].
Qed.

(** Reading the part of a variable in the frame, or finding that there is none. *)
Lemma readFrameVar_ok s fli st name c :
  reader_at s fli st -> frame_col name = Some c ->
  exists st', same_reader st st' /\ reader_at s fli st' /\
    if decide (0 < rows_of c s (length fli)) then
      exists tail, readFrameVar p src st name = Ok (Some (frame_values c s fli ++ tail), st') /\
        length (frame_values c s fli) = rows_of c s (length fli) * col_row c /\
        (Z.of_nat (length (frame_values c s fli ++ tail)) < 2 ^ 31)%Z
    else readFrameVar p src st name = Ok (None, st').
Proof.
  intros Hr Hc. pose proof (frame_col_ok p src m nlocs ts lats lons latFill lonFill Hsrc _ _ Hc) as Hok.
  destruct (ra_frame _ _ _ Hr) as (_ & _ & Hfv). destruct (Hfv _ _ Hc) as (fv & data & Hv & Hinv & Hsl).
  pose proof (sorted_length _ _ (ra_sorted _ _ _ Hr) (ra_range _ _ _ Hr)) as Hk.
  destruct (rows_of_le c s _ Hok Hk) as [Hle Hle'].
  unfold readFrameVar. rewrite (frameCount_col st s (length fli) name c (ra_start _ _ _ Hr) (ra_count _ _ _ Hr) Hc). cbn [mbind res_bind].
  destruct (decide (0 < rows_of c s (length fli))) as [Hpos|Hz].
  2:{ exists st. rewrite decide_False by lia. split_and!; [apply same_reader_refl|done|done]. }
  rewrite decide_True by lia. unfold vars_open. rewrite Hv. cbn [mbind res_bind].
  rewrite (vi_dims _ _ _ _ _ _ _ _ Hinv), (arr_dims _ _ _ _ (vi_array _ _ _ _ _ _ _ _ Hinv)).
  destruct (read_frame_var s fli c fv data (ra_sorted _ _ _ Hr) (ra_range _ _ _ Hr) Hok Hpos Hinv Hsl) as (tail & Hread & Hlen & Hsmall).
  assert (Hshape : shape (rows_of c s (length fli)) (col_rest c)) by (eapply shape_le; [apply (co_shape _ _ _ Hok)|done]).
  assert (Hty : supportedType (fv_var fv) = Ok (col_type c)).
  { rewrite supportedType_supported by (rewrite (vi_type _ _ _ _ _ _ _ _ Hinv); apply (co_type _ _ _ Hok)).
    by rewrite (vi_type _ _ _ _ _ _ _ _ Hinv). }
  destruct (known_mem_selections_ st !! col_dims c) as [mem|] eqn:Em.
  - destruct (ra_cache _ _ _ Hr _ _ Em) as (fs & Hfs & Hsel). destruct (Hsel c Hok eq_refl) as [-> ->].
    cbn [mbind res_bind]. rewrite Hty. cbn [mbind res_bind]. rewrite Em, Hfs, (ra_index _ _ _ Hr), Hread. cbn [mbind res_bind].
    exists st. split_and!; [apply same_reader_refl|done|]. exists tail. done.
  - rewrite createMemSelection_ok by done. cbn [mbind res_bind]. fold (col_row c). fold (mem_sel c s (length fli)).
    unfold isVarDimByLocation_Impl. rewrite Hv, (vi_dims _ _ _ _ _ _ _ _ Hinv).
    destruct (co_dims _ _ _ Hok) as (d0 & ds & mx & Ed & _ & _). rewrite Ed.
    change (vec_get (d0 :: ds) 0) with (Ok d0). cbn [mbind res_bind].
    assert (Hfs : (if bool_decide (d0 = "Location") then Ok (createIndexedFrameSelection (frame_loc_index_ st)
        (Z.of_nat (frame_rows m c (cnt nlocs s)) :: col_rest c))
      else createEntireFrameSelection (Z.of_nat (frame_rows m c (cnt nlocs s)) :: col_rest c) (Z.of_nat (rows_of c s (length fli)))) =
      Ok (frame_sel c s (length fli) fli)).
    { unfold frame_sel, frame_rows, by_location. rewrite Ed. case_bool_decide; [by rewrite (ra_index _ _ _ Hr)|].
      by rewrite createEntireFrameSelection_ok. }
    rewrite Hfs. cbn [mbind res_bind]. rewrite Hty. cbn [mbind res_bind known_mem_selections_ known_frame_selections_].
    rewrite !lookup_insert_eq, Hread. cbn [mbind res_bind]. eexists. split_and!; [|..|exists tail; split_and!; [reflexivity|done|done]].
    + done.
    + eapply reader_at_same; [exact Hr|done|]. intros dims mem. simpl. destruct (decide (dims = d0 :: ds)) as [->|Hne].
      * rewrite !lookup_insert_eq. intros [= <-]. eexists. split; [reflexivity|]. intros c' Hok' Hd'.
        rewrite (ra_index _ _ _ Hr). destruct (mem_sel_dims c c' s (length fli) Hok Hok') as [E1 E2]; [congruence|].
        by rewrite <-E1, <-E2.
      * rewrite !lookup_insert_ne by done. apply (ra_cache _ _ _ Hr).
Qed.

(** The replacement of the missing values of a column. *)
Definition convert (c : Col F) (x : Val F) : Val F :=
  match col_fill c with
  | Some fill => if is_missing fill x then missing_val (col_type c) else x
  | None => x
  end.

Lemma readObsSource_ok s fli st name c :
  reader_at s fli st -> frame_col name = Some c ->
  exists st', same_reader st st' /\ reader_at s fli st' /\
    if decide (0 < rows_of c s (length fli)) then
      exists tail, readObsSource p src st name = Ok (Some (map (convert c) (frame_values c s fli) ++ tail), st') /\
        length (frame_values c s fli) = rows_of c s (length fli) * col_row c /\
        (Z.of_nat (length (map (convert c) (frame_values c s fli) ++ tail)) < 2 ^ 31)%Z
    else readObsSource p src st name = Ok (None, st').
Proof.
  intros Hr Hc. destruct (readFrameVar_ok s fli st name c Hr Hc) as (st' & Hsame & Hr' & Hread). exists st'. split_and!; [done..|].
  destruct (ra_frame _ _ _ Hr) as (_ & _ & Hfv). destruct (Hfv _ _ Hc) as (fv & data & Hv & Hinv & _).
  unfold readObsSource, vars_open. rewrite Hv. cbn [mbind res_bind]. destruct (decide (0 < rows_of c s (length fli))).
  - destruct Hread as (tail & Hread & Hl1 & Hl2). rewrite Hread. cbn [mbind res_bind option_map].
    exists (map (convert c) tail). split_and!; [|done|].
    + do 3 f_equal. rewrite <-map_app. unfold replace_missing, convert. rewrite (vi_fill _ _ _ _ _ _ _ _ Hinv), (vi_type _ _ _ _ _ _ _ _ Hinv).
      destruct (col_fill c); [done|]. by rewrite map_id.
    + rewrite <-map_app, length_map. done.
  - rewrite Hread. done.
Qed.


(** * Storing the variables *)

(** A variable of the ObsSpace that holds [L] locations. *)
Definition group_rows (c : Col F) (L : nat) : nat := if by_location c then L else col_n c.
Definition group_max (c : Col F) : Z := if by_location c then Unlimited else Z.of_nat (col_n c).
Definition gvar (c : Col F) (L : nat) (fv : FrameVar F) (data : list (Val F)) : Prop :=
  var_inv (col_dims c) (col_type c) (Some (missing_val (col_type c))) (group_max c) (col_rest c) (group_rows c L) fv data.

(** Where the rows of a frame go: after the [L] locations stored before, or at
    the start of the frame. *)
Definition store_start (c : Col F) (s L : nat) : nat := if by_location c then L else s.

Definition be_sel (c : Col F) (s k L : nat) : FrontSelection :=
  set_block (Z.of_nat (group_rows c (L + k)) :: col_rest c)
    (Z.of_nat (store_start c s L) :: map (fun _ => 0%Z) (col_rest c)) (Z.of_nat (rows_of c s k) :: col_rest c).

Definition store_cache_ok (s k L : nat) (os : ObsSpace F) : Prop :=
  forall dims fe, known_fe_selections_ os !! dims = Some fe ->
    exists be, known_be_selections_ os !! dims = Some be /\
    forall c, col_ok c -> col_dims c = dims -> fe = mem_sel c s k /\ be = be_sel c s k L.

Lemma store_room c s k L : col_ok c -> k <= cnt nlocs s -> 0 < rows_of c s k ->
  store_start c s L + rows_of c s k <= group_rows c (L + k).
Proof.
  intros Hok Hk Hpos. unfold store_start, rows_of, group_rows in *. destruct (by_location c); [done|].
  unfold ObsFrameReadSpec.cnt in *. lia.
Qed.

Lemma storeVar_ok s k L os name c fv data x tail :
  store_cache_ok s k L os -> col_ok c -> k <= cnt nlocs s -> 0 < rows_of c s k ->
  g_vars (obs_group_ os) !! name = Some fv -> gvar c (L + k) fv data ->
  length x = rows_of c s k * col_row c -> (Z.of_nat (length (x ++ tail)) < 2 ^ 31)%Z ->
  exists os' fv', storeVar name (x ++ tail) (Z.of_nat (store_start c s L)) (Z.of_nat (rows_of c s k)) os = Ok os' /\
    store_cache_ok s k L os' /\ same_frame (obs_group_ os) (obs_group_ os') /\
    g_vars (obs_group_ os') = <[name := fv']> (g_vars (obs_group_ os)) /\
    gvar c (L + k) fv' (take (store_start c s L * col_row c) data ++ x ++
      drop (store_start c s L * col_row c + rows_of c s k * col_row c) data).
Proof.
  intros Hcache Hok Hk Hpos Hfv Hinv Hx Hsmall. pose proof (store_room c s k L Hok Hk Hpos) as Hroom.
  pose proof (vi_array _ _ _ _ _ _ _ _ Hinv) as Ha. destruct (rows_of_le c s _ Hok Hk) as [_ Hle].
  assert (Hshape : shape (rows_of c s k) (col_rest c)) by (eapply shape_le; [apply (co_shape _ _ _ Hok)|done]).
  destruct (write_block (fv_var fv) _ _ _ Ha (Z.of_nat (group_rows c (L + k)) :: col_rest c) (store_start c s L) (rows_of c s k) x tail)
    as (st & Hw & Ha'); [done|done|done|done|].
  assert (Hty : supportedType (fv_var fv) = Ok (dtype_ (fv_var fv))).
  { apply supportedType_supported. rewrite (vi_type _ _ _ _ _ _ _ _ Hinv). apply (co_type _ _ _ Hok). }
  unfold storeVar, vars_open. rewrite Hfv. cbn [mbind res_bind].
  rewrite (vi_dims _ _ _ _ _ _ _ _ Hinv), (arr_dims _ _ _ _ Ha).
  match goal with |- context [match known_fe_selections_ os !! col_dims c with Some _ => Ok os | None => ?e end] => set (miss := e) end.
  assert (Hc : exists os1, match known_fe_selections_ os !! col_dims c with Some _ => Ok os | None => miss end = Ok os1 /\
    obs_group_ os1 = obs_group_ os /\ store_cache_ok s k L os1 /\
    known_fe_selections_ os1 !! col_dims c = Some (mem_sel c s k) /\ known_be_selections_ os1 !! col_dims c = Some (be_sel c s k L)).
  { destruct (known_fe_selections_ os !! col_dims c) as [fe|] eqn:E.
    - destruct (Hcache _ _ E) as (be & Hbe & Hsel). destruct (Hsel c Hok eq_refl) as [-> ->]. exists os. done.
    - unfold miss. rewrite storeVar_selections_ok by done. cbn [mbind res_bind]. eexists. split; [reflexivity|]. split; [done|].
      fold (col_row c). fold (mem_sel c s k). fold (be_sel c s k L). simpl. rewrite !lookup_insert_eq. split_and!; [|done|done].
      intros dims fe. simpl. destruct (decide (dims = col_dims c)) as [->|Hne].
      + rewrite !lookup_insert_eq. intros [= <-]. eexists. split; [reflexivity|]. intros c' Hok' Hd.
        destruct (dims_determine c c' Hok Hok' ltac:(done)) as (E1 & E2 & E3).
        unfold mem_sel, be_sel, rows_of, group_rows, store_start, col_row. by rewrite E1, E2, E3.
      + rewrite !lookup_insert_ne by done. apply Hcache. }
  destruct Hc as (os1 & Hos1 & Hg1 & Hcache1 & Hfe & Hbe). rewrite Hos1. cbn [mbind res_bind]. rewrite Hfe, Hbe, Hg1.
  erewrite vars_update_ok; [|exact Hfv|].
  2:{ rewrite Hty. cbn [mbind res_bind]. unfold mem_sel, be_sel, col_row. exact Hw. }
  cbn [mbind res_bind]. eexists _, _. split_and!; [reflexivity|done|by split_and!|done|].
  eapply var_inv_with_data; [exact Hinv|exact Ha'].
Qed.


(** * The contents of the ObsSpace *)

(** After the frames before [s], with the locations [prev] kept: all rows of
    the kept locations, or the rows before [s]. *)
Definition content (c : Col F) (s : nat) (prev : list nat) (data : list (Val F)) : Prop :=
  if by_location c then data = map (convert c) (rows_at (col_row c) (col_data c) prev)
  else take (s `min` col_n c * col_row c) data = map (convert c) (take (s `min` col_n c * col_row c) (col_data c)).

(** The same when Location has been enlarged. *)
Definition content_before (c : Col F) (s : nat) (prev : list nat) (data : list (Val F)) : Prop :=
  if by_location c then take (length prev * col_row c) data = map (convert c) (rows_at (col_row c) (col_data c) prev)
  else content c s prev data.

Lemma rows_at_slice {A} P s c (data : list A) fli :
  Forall (fun i => i < c) fli -> rows_at P (slice P s c data) fli = rows_at P data (map (fun i => s + i) fli).
Proof.
  intros Hf. unfold rows_at. rewrite map_map. f_equal. apply map_ext_in. intros i Hi%list_elem_of_In.
  rewrite list.Forall_forall in Hf. specialize (Hf i Hi). by rewrite slice_slice by lia.
Qed.

Lemma rows_at_app {A} P (data : list A) l1 l2 : rows_at P data (l1 ++ l2) = rows_at P data l1 ++ rows_at P data l2.
Proof. unfold rows_at. by rewrite map_app, concat_app. Qed.

(** Writing the rows of a frame completes its contents. *)
Lemma content_write c s fli prev data :
  col_ok c -> Forall (fun i => i < cnt nlocs s) fli -> 0 < rows_of c s (length fli) ->
  length data = group_rows c (length prev + length fli) * col_row c ->
  content_before c s prev data ->
  content c (s + m) (prev ++ map (fun i => s + i) fli)
    (take (store_start c s (length prev) * col_row c) data ++ map (convert c) (frame_values c s fli) ++
     drop (store_start c s (length prev) * col_row c + rows_of c s (length fli) * col_row c) data).
Proof.
  intros Hok Hr Hpos Hl Hb. unfold content, content_before, store_start, frame_values, group_rows, rows_of in *.
  destruct (by_location c) eqn:Eb.
  - rewrite Hb, rows_at_app, map_app, rows_at_slice by done. f_equal. rewrite drop_ge by lia. by rewrite app_nil_r.
  - unfold content in Hb. rewrite Eb in Hb. unfold ObsFrameReadSpec.cnt in *. rewrite Nat.min_l in Hb by lia.
    pose proof (co_data _ _ _ Hok) as Hcd. set (k := m `min` (col_n c - s)) in *.
    assert (Hsk : (s + m) `min` col_n c = s + k) by (unfold k; lia). rewrite Hsk.
    replace ((s + k) * col_row c) with (s * col_row c + k * col_row c) by lia.
    assert (Hs : s * col_row c + k * col_row c <= col_n c * col_row c) by (unfold k; nia).
    rewrite app_assoc. rewrite take_app_le.
    2:{ rewrite length_app, length_map, length_take, (length_slice _ _ _ (col_n c)) by (done || (unfold k; lia)). lia. }
    rewrite take_ge.
    2:{ rewrite length_app, length_map, length_take, (length_slice _ _ _ (col_n c)) by (done || (unfold k; lia)). lia. }
    rewrite Hb, <-map_app. f_equal. unfold slice. apply take_take_drop.
Qed.

(** A frame without rows of the column leaves it complete. *)
Lemma content_nothing c s fli prev data :
  col_ok c -> rows_of c s (length fli) = 0 ->
  length data = group_rows c (length prev + length fli) * col_row c ->
  content_before c s prev data -> content c (s + m) (prev ++ map (fun i => s + i) fli) data.
Proof.
  intros Hok Hz Hl Hb. unfold content, content_before, group_rows, rows_of in *. pose proof (so_m_pos _ _ _ _ _ _ _ _ _ Hsrc).
  destruct (by_location c) eqn:Eb.
  - destruct fli; [|done]. simpl in *. rewrite app_nil_r. rewrite <-Hb. symmetry. apply take_ge. lia.
  - unfold content in Hb. rewrite Eb in Hb. unfold ObsFrameReadSpec.cnt in Hz.
    replace ((s + m) `min` col_n c) with (s `min` col_n c) by lia. done.
Qed.

Definition group_holds (P : Col F -> list (Val F) -> Prop) (L : nat) (g : ObsGroup F) : Prop :=
  forall name c, frame_col name = Some c -> is_skipped name = false ->
    exists fv data, g_vars g !! name = Some fv /\ gvar c L fv data /\ P c data.

(** The loop over the variables of a frame. *)
Lemma init_vars_ok s fli prev st g :
  reader_at s fli st -> adjusted_location_frame_start_ st = Z.of_nat (length prev) ->
  group_holds (fun c => content_before c s prev) (length prev + length fli) g ->
  exists st' os', foldM (init_var p src)
      (st, {| obs_group_ := g; known_fe_selections_ := ∅; known_be_selections_ := ∅ |}) frame_names = Ok (st', os') /\
    same_reader st st' /\ same_frame g (obs_group_ os') /\
    group_holds (fun c => content c (s + m) (prev ++ map (fun i => s + i) fli)) (length prev + length fli) (obs_group_ os').
Proof.
  intros Hr Hadj Hg. set (k := length fli). set (L := length prev).
  pose proof (sorted_length _ _ (ra_sorted _ _ _ Hr) (ra_range _ _ _ Hr)) as Hk.
  destruct (foldM_ind (init_var p src) (fun don '(st', os') => same_reader st st' /\ reader_at s fli st' /\
      store_cache_ok s k L os' /\ same_frame g (obs_group_ os') /\
      forall name c, frame_col name = Some c -> is_skipped name = false ->
        exists fv data, g_vars (obs_group_ os') !! name = Some fv /\ gvar c (L + k) fv data /\
          if decide (name ∈ don) then content c (s + m) (prev ++ map (fun i => s + i) fli) data
          else content_before c s prev data)
    (st, {| obs_group_ := g; known_fe_selections_ := ∅; known_be_selections_ := ∅ |}) frame_names)
    as ([st' os'] & Hf & Hsame & _ & _ & Hsf & Hfin).
  - split_and!; [apply same_reader_refl|done| |done|]. { intros dims fe E. simpl in E. by rewrite lookup_empty in E. }
    intros name c Hc Hsk. destruct (Hg name c Hc Hsk) as (fv & data & H1 & H2 & H3). exists fv, data. split_and!; [done..|].
    rewrite decide_False by apply not_elem_of_nil. done.
  - intros don name [st1 os1] (Hsame & Hr1 & Hcache & Hsf & Hinv) [rest Hp].
    assert (Hin : name ∈ frame_names) by (rewrite Hp; set_solver).
    assert (Hnot : name ∉ don).
    { pose proof (frame_names_nodup p src m nlocs ts lats lons latFill lonFill Hsrc) as Hnd. rewrite Hp, <-app_assoc in Hnd.
      apply NoDup_app in Hnd as (_ & Hnd & _). intros Hd. apply (Hnd name Hd). set_solver. }
    apply (frame_names_col p src m nlocs ts lats lons latFill lonFill Hsrc) in Hin as [c Hc].
    pose proof (frame_col_ok p src m nlocs ts lats lons latFill lonFill Hsrc _ _ Hc) as Hok.
    unfold init_var. destruct (is_skipped name) eqn:Esk.
    { exists (st1, os1). split; [done|]. split_and!; [done..|]. intros name' c' Hc' Hsk'.
      destruct (Hinv name' c' Hc' Hsk') as (fv & data & H1 & H2 & H3). exists fv, data. split_and!; [done..|].
      assert (name' <> name) by congruence. destruct (decide (name' ∈ don)).
      - rewrite decide_True by set_solver. done.
      - rewrite decide_False by set_solver. done. }
    destruct (ra_frame _ _ _ Hr1) as (_ & _ & Hfv). destruct (Hfv _ _ Hc) as (ffv & fdata & Hffv & Hfinv & _).
    unfold isVarDimByLocation_Impl. rewrite Hffv, (vi_dims _ _ _ _ _ _ _ _ Hfinv).
    destruct (co_dims _ _ _ Hok) as (d0 & ds & mx & Ed & _ & _). rewrite Ed. change (vec_get (d0 :: ds) 0) with (Ok d0). cbn [mbind res_bind].
    rewrite (frameCount_col st1 s k name c (ra_start _ _ _ Hr1) (ra_count _ _ _ Hr1) Hc). cbn [mbind res_bind].
    unfold vars_open at 1. rewrite Hffv. cbn [mbind res_bind].
    rewrite supportedType_supported by (rewrite (vi_type _ _ _ _ _ _ _ _ Hfinv); apply (co_type _ _ _ Hok)). cbn [mbind res_bind].
    destruct (readObsSource_ok s fli st1 name c Hr1 Hc) as (st2 & Hsame2 & Hr2 & Hread).
    assert (Hsame' : same_reader st st2).
    { unfold same_reader in *. destruct Hsame as (?&?&?&?&?&?), Hsame2 as (?&?&?&?&?&?). split_and!; congruence. }
    destruct (Hinv name c Hc Esk) as (fv & data & Hfvg & Hgv & Hcont). rewrite decide_False in Hcont by done.
    pose proof (var_inv_length _ _ _ _ _ _ _ _ Hgv) as Hlen. fold (col_row c) in Hlen.
    assert (Hstart : (if bool_decide (d0 = "Location") then adjusted_location_frame_start_ st1 else frame_start_ st1) =
      Z.of_nat (store_start c s L)).
    { unfold store_start, by_location. rewrite Ed. destruct Hsame as (E1 & E2 & _). case_bool_decide; [by rewrite E2|].
      by rewrite (ra_start _ _ _ Hr1). }
    rewrite Hstart. destruct (decide (0 < rows_of c s (length fli))) as [Hpos|Hz].
    + destruct Hread as (tail & Hread & Hl1 & Hl2). rewrite Hread. cbn [mbind res_bind].
      destruct (storeVar_ok s k L os1 name c fv data (map (convert c) (frame_values c s fli)) tail Hcache Hok Hk Hpos Hfvg Hgv)
        as (os2 & fv2 & Hst & Hcache2 & Hsf2 & Hvars & Hgv2); [by rewrite length_map|done|].
      rewrite Hst. cbn [mbind res_bind]. exists (st2, os2). split; [done|].
      split_and!; [done|done|done|by eapply same_frame_trans|]. intros name' c' Hc' Hsk'. rewrite Hvars.
      destruct (decide (name' = name)) as [->|Hne].
      * assert (c' = c) as -> by congruence. rewrite lookup_insert_eq. eexists _, _. split_and!; [done|exact Hgv2|].
        rewrite decide_True by set_solver. apply content_write; try done. apply (ra_range _ _ _ Hr).
      * rewrite lookup_insert_ne by done. destruct (Hinv name' c' Hc' Hsk') as (fv' & data' & H1 & H2 & H3).
        exists fv', data'. split_and!; [done..|]. destruct (decide (name' ∈ don)).
        -- rewrite decide_True by set_solver. done.
        -- rewrite decide_False by set_solver. done.
    + rewrite Hread. cbn [mbind res_bind]. exists (st2, os1). split; [done|]. split_and!; [done..|].
      intros name' c' Hc' Hsk'. destruct (decide (name' = name)) as [->|Hne].
      * assert (c' = c) as -> by congruence. exists fv, data. rewrite decide_True by set_solver. split_and!; [done..|].
        apply content_nothing; try done. lia.
      * destruct (Hinv name' c' Hc' Hsk') as (fv' & data' & H1 & H2 & H3).
        exists fv', data'. split_and!; [done..|]. destruct (decide (name' ∈ don)).
        -- rewrite decide_True by set_solver. done.
        -- rewrite decide_False by set_solver. done.
  - exists st', os'. split_and!; [done..|]. intros name c Hc Hsk. destruct (Hfin name c Hc Hsk) as (fv & data & H1 & H2 & H3).
    exists fv, data. split_and!; [done..|]. rewrite decide_True in H3; [done|].
    apply (frame_names_col p src m nlocs ts lats lons latFill lonFill Hsrc). eauto.
Qed.


(** * Resizing Location *)

Definition group_names : list string := List.filter (fun name => negb (is_skipped name)) frame_names.

Lemma group_names_col name : name ∈ group_names <-> is_skipped name = false /\ is_Some (frame_col name).
Proof.
  unfold group_names. rewrite elem_of_List_filter, negb_true_iff, (frame_names_col p src m nlocs ts lats lons latFill lonFill Hsrc). tauto.
Qed.

Lemma group_resize P L n g :
  g_names g = group_names -> (exists cur, g_dims g !! "Location" = Some (cur, Unlimited)) -> n <= nlocs ->
  group_holds P L g ->
  exists g', ObsGroup_resize "Location" (Z.of_nat n) g = Ok g' /\ g_names g' = group_names /\
    g_dims g' !! "Location" = Some (Z.of_nat n, Unlimited) /\
    group_holds (fun c data' => exists data x, P c data /\ length data = group_rows c L * col_row c /\
      data' = vec_resize (group_rows c n * col_row c) x data) n g'.
Proof.
  intros Hn (cur & Hl) Hle Hg. unfold ObsGroup_resize, dim_open. rewrite Hl. cbn [mbind res_bind].
  rewrite resize_check_pass by (repeat constructor; unfold Unlimited; lia). cbn [mbind res_bind]. rewrite Hn.
  match goal with |- context [foldM _ ?g group_names] => set (g0 := g) end.
  assert (Hnd : NoDup group_names).
  { apply NoDup_ListNoDup, List.NoDup_filter, NoDup_ListNoDup.
    apply (frame_names_nodup p src m nlocs ts lats lons latFill lonFill Hsrc). }
  destruct (foldM_vars (fun g name => vars_update name (resize_var "Location" (Z.of_nat n)) g)
    (fun name fv fv' => forall c, frame_col name = Some c -> exists data', gvar c n fv' data' /\ exists data x, P c data /\
      length data = group_rows c L * col_row c /\ data' = vec_resize (group_rows c n * col_row c) x data)
    g0 group_names Hnd) as (g' & Hf & (S1 & S2 & S3) & Hin & _).
  - intros name g' Hname _ Hsame. apply group_names_col in Hname as [Hsk [c Hc]].
    destruct (Hg name c Hc Hsk) as (fv & data & Hfv & Hinv & HP).
    pose proof (frame_col_ok p src m nlocs ts lats lons latFill lonFill Hsrc _ _ Hc) as Hok.
    destruct (inner_dims p src c Hok) as (d0 & ds & Ed & Hloc & Hlen). pose proof (vi_rfill _ _ _ _ _ _ _ _ Hinv) as Hx. set (x := default _ _) in Hx.
    assert (Eb : by_location c = bool_decide (d0 = "Location")) by (unfold by_location; by rewrite Ed).
    assert (Hrows : forall a b, location_rows (d0 :: ds) (group_rows c a) (group_rows c b) = group_rows c b).
    { intros a b. unfold location_rows, group_rows. rewrite Eb. case_bool_decide; case_decide; done. }
    unfold gvar in Hinv. rewrite Ed in Hinv.
    destruct (resize_var_inv d0 ds _ _ _ _ _ fv data (group_rows c n) x Hinv Hloc Hlen Hx) as (v' & Hr & Hinv').
    { eapply shape_le; [apply (co_shape _ _ _ Hok)|]. unfold group_rows. destruct (by_location c) eqn:Eb'; [|done].
      destruct (by_location_n p src m nlocs ts lats lons latFill lonFill Hsrc c Hok Eb') as [-> _]. done. }
    { unfold group_max, group_rows. destruct (by_location c); unfold Unlimited; lia. }
    rewrite Hrows in Hinv'.
    assert (Hr' : resize_var "Location" (Z.of_nat n) fv = Ok v').
    { rewrite <-Hr. unfold resize_var. rewrite (vi_dims _ _ _ _ _ _ _ _ Hinv),
        (arr_dims _ _ _ _ (vi_array _ _ _ _ _ _ _ _ Hinv)). cbn [zip_with]. rewrite !zip_with_inner by done.
      unfold group_rows. rewrite Eb. case_decide; [by rewrite bool_decide_true|done]. }
    eexists fv, _. split_and!; [done| |eexists; split; [apply vars_update_ok with (fv := fv); [by rewrite Hsame|exact Hr']|split; [done|reflexivity]]].
    intros c' Hc'. assert (c' = c) as -> by congruence. eexists. split; [unfold gvar; rewrite Ed; exact Hinv'|].
    exists data, x. split_and!; [done| |done]. exact (var_inv_length _ _ _ _ _ _ _ _ Hinv).
  - exists g'. split_and!; [exact Hf|by rewrite S3|by rewrite S2; simpl; rewrite lookup_insert_eq|].
    intros name c Hc Hsk. destruct (Hin name) as (fv & fv' & _ & Hfv' & HR); [apply group_names_col; eauto|].
    destruct (HR c Hc) as (data' & H1 & H2). eauto.
Qed.

(** Before the first frame the group has variables of any contents; afterwards
    it holds what the frames before [s] gave. *)
Definition group_inv (first : bool) (s : nat) (prev : list nat) (g : ObsGroup F) : Prop :=
  g_names g = group_names /\
  if first then s = 0 /\ prev = [] /\ g_dims g !! "Location" = Some (Z.of_nat (m `min` nlocs), Unlimited) /\
    group_holds (fun _ _ => True) (m `min` nlocs) g
  else g_dims g !! "Location" = Some (Z.of_nat (length prev), Unlimited) /\
    group_holds (fun c => content c s prev) (length prev) g.

Lemma resizeLocation_ok first s prev k g :
  group_inv first s prev g -> length prev + k <= nlocs ->
  exists g', resizeLocation (Z.of_nat k) (negb first) g = Ok g' /\ g_names g' = group_names /\
    g_dims g' !! "Location" = Some (Z.of_nat (length prev + k), Unlimited) /\
    group_holds (fun c => content_before c s prev) (length prev + k) g'.
Proof.
  intros [Hn Hg] Hle. unfold resizeLocation. destruct first; cbn [negb].
  - destruct Hg as (-> & -> & Hl & Hg). unfold dim_open. rewrite Hl. cbn [mbind res_bind length Nat.add] in *.
    destruct (group_resize _ _ k g Hn ltac:(eauto) Hle Hg) as (g' & Hr & Hn' & Hl' & Hg'). exists g'. split_and!; [done..|].
    intros name c Hc Hsk. destruct (Hg' name c Hc Hsk) as (fv & data & H1 & H2 & _). exists fv, data. split_and!; [done..|].
    unfold content_before, content. by destruct (by_location c).
  - destruct Hg as (Hl & Hg). unfold dim_open. rewrite Hl. cbn [mbind res_bind]. rewrite <-Nat2Z.inj_add.
    destruct (group_resize _ _ (length prev + k) g Hn ltac:(eauto) Hle Hg) as (g' & Hr & Hn' & Hl' & Hg'). exists g'. split_and!; [done..|].
    intros name c Hc Hsk. destruct (Hg' name c Hc Hsk) as (fv & data' & H1 & H2 & data & x & H3 & H4 & ->). eexists fv, _. split_and!; [done|exact H2|].
    unfold content_before, content, group_rows in *. destruct (by_location c) eqn:Eb.
    + rewrite vec_resize_grow by (rewrite H4; lia). rewrite take_app_le, take_ge by lia. done.
    + by rewrite vec_resize_same.
Qed.


(** * The loop over the frames *)

Notation kept := (kept p ts lats lons latFill lonFill).
Notation outside := (outside (F := F) p ts).
Notation number_locs := (number_locs p src nlocs ts).
Notation distribute := (distribute lats lons).

(** The tally once the locations before [e] have been read, [mine] of which
    (with their records) belong to this rank. *)
Record tally_at (d0 : D) (e : nat) (mine : list (nat * nat)) (t : Tally D) : Prop := {
  ta_records : exists recs, number_locs 0 ∅ (kept 0 e) = (recs, (next_rec_num_ t, obs_grouping_ t)) /\
    distribute d0 (zip (kept 0 e) recs) = Ok (dist_ t, mine);
  ta_gnlocs : gnlocs_ t = Z.of_nat (length (kept 0 e));
  ta_outside : gnlocs_outside_timewindow_ t = Z.of_nat (length (List.filter outside (seq 0 e)));
  ta_nlocs : nlocs_ t = Z.of_nat (length mine);
  ta_indx : indx_ t = mine.*1;
  ta_recnums : recnums_ t = mine.*2;
  ta_unique : unique_rec_nums_ t = list_to_set (mine.*2);
  ta_nrecs : nrecs_ t = Z.of_nat (size (list_to_set (mine.*2) : gset nat))
}.

Lemma seq_frame s : exists k, seq 0 ((s + m) `min` nlocs) = seq 0 (s `min` nlocs) ++ seq s (cnt nlocs s) /\ k = cnt nlocs s.
Proof.
  exists (cnt nlocs s). split; [|done]. unfold ObsFrameReadSpec.cnt. destruct (decide (s <= nlocs)).
  - replace ((s + m) `min` nlocs) with (s `min` nlocs + m `min` (nlocs - s)) by lia. rewrite seq_app. f_equal. f_equal. lia.
  - replace ((s + m) `min` nlocs) with (s `min` nlocs) by lia. replace (m `min` (nlocs - s)) with 0 by lia.
    simpl. by rewrite app_nil_r.
Qed.

Lemma kept_frame_app s : kept 0 ((s + m) `min` nlocs) = kept 0 (s `min` nlocs) ++ kept s (cnt nlocs s).
Proof. destruct (seq_frame s) as (k & E & _). unfold ObsFrameReadSpec.kept. by rewrite E, List.filter_app. Qed.

Lemma kept_split e : e <= nlocs -> kept 0 nlocs = kept 0 e ++ kept e (nlocs - e).
Proof.
  intros He. unfold ObsFrameReadSpec.kept. pose proof (seq_app e (nlocs - e) 0) as E.
  replace (e + (nlocs - e)) with nlocs in E by lia. by rewrite E, List.filter_app.
Qed.

(** When the distribution accepts all locations, it accepts those before [e]. *)
Lemma prefix_ok d0 recs n g d mine e :
  number_locs 0 ∅ (kept 0 nlocs) = (recs, (n, g)) -> distribute d0 (zip (kept 0 nlocs) recs) = Ok (d, mine) -> e <= nlocs ->
  exists recs' n' g' d' mine', number_locs 0 ∅ (kept 0 e) = (recs', (n', g')) /\
    distribute d0 (zip (kept 0 e) recs') = Ok (d', mine').
Proof.
  intros Hn Hd He. rewrite (kept_split e He), number_locs_app in Hn.
  pose proof (number_locs_length p src nlocs ts 0 ∅ (kept 0 e)) as Hl.
  destruct (number_locs 0 ∅ (kept 0 e)) as [recs' [n' g']] eqn:E1.
  destruct (number_locs n' g' (kept e (nlocs - e))) as [recs2 s2]. injection Hn as <- _. simpl in Hl.
  rewrite (kept_split e He), zip_with_app, distribute_app in Hd by done.
  destruct (distribute d0 (zip (kept 0 e) recs')) as [[d' mine']|] eqn:E2; [|done]. eauto 10.
Qed.

(** One frame. *)
Lemma frame_step d0 s loc prev first st g recsN nN gN dN mineN :
  number_locs 0 ∅ (kept 0 nlocs) = (recsN, (nN, gN)) -> distribute d0 (zip (kept 0 nlocs) recsN) = Ok (dN, mineN) ->
  frame_start_ st = Z.of_nat s -> frame_shape loc (obs_frame_ st) ->
  adjusted_location_frame_start_ st = Z.of_nat (length prev) ->
  tally_at d0 (s `min` nlocs) prev (tally_ st) -> group_inv first s (prev.*1) g ->
  (Z.of_nat s < maxVarSize0 src)%Z ->
  exists st1 mine, frameAvailable p src st = Ok (true, st1) /\ tally_at d0 ((s + m) `min` nlocs) (prev ++ mine) (tally_ st1) /\
    adjusted_location_frame_count_ st1 = Z.of_nat (length mine) /\
    exists g1, resizeLocation (adjusted_location_frame_count_ st1) (negb first) g = Ok g1 /\
    exists st2 os2, foldM (init_var p src)
        (st1, {| obs_group_ := g1; known_fe_selections_ := ∅; known_be_selections_ := ∅ |}) (g_names (obs_frame_ st1)) = Ok (st2, os2) /\
      same_reader st1 st2 /\ frame_start_ st1 = frame_start_ st /\
      adjusted_location_frame_start_ st1 = adjusted_location_frame_start_ st /\
      (exists loc', frame_shape loc' (obs_frame_ st1)) /\
      group_inv false (s + m) ((prev ++ mine).*1) (obs_group_ os2).
Proof.
  intros HnN HdN Hs Hf Hadj Ht Hg Hmax.
  destruct (prefix_ok d0 recsN nN gN dN mineN ((s + m) `min` nlocs) HnN HdN ltac:(lia)) as (recs' & n' & g' & d' & mine' & Hn' & Hd').
  destruct (ta_records _ _ _ _ Ht) as (recs & Hnr & Hdr). rewrite kept_frame_app, number_locs_app, Hnr in Hn'.
  destruct (number_locs (next_rec_num_ (tally_ st)) (obs_grouping_ (tally_ st)) (kept s (cnt nlocs s))) as [recs2 [n2 g2]] eqn:E2.
  injection Hn' as <- <- <-. pose proof (number_locs_length p src nlocs ts 0 ∅ (kept 0 (s `min` nlocs))) as Hl. rewrite Hnr in Hl. simpl in Hl.
  rewrite kept_frame_app, zip_with_app, distribute_app, Hdr in Hd' by done. cbn [mbind res_bind] in Hd'.
  destruct (distribute (dist_ (tally_ st)) (zip (kept s (cnt nlocs s)) recs2)) as [[d2 mine]|] eqn:E3; [|done].
  cbn [mbind res_bind] in Hd'. injection Hd' as <- <-.
  destruct (frameAvailable_ok p src m nlocs ts lats lons latFill lonFill Hsrc s loc st recs2 n2 g2 d2 mine Hs Hf Hmax E2 E3) as (frame & Hav & Hload).
  match type of Hav with _ = Ok (true, ?x) => set (st1 := x) in * end.
  pose proof (number_locs_length p src nlocs ts (next_rec_num_ (tally_ st)) (obs_grouping_ (tally_ st)) (kept s (cnt nlocs s))) as Hl2.
  rewrite E2 in Hl2. simpl in Hl2.
  assert (Hfst : (zip (kept s (cnt nlocs s)) recs2).*1 = kept s (cnt nlocs s)) by (apply fst_zip; lia).
  destruct (distribute_sub p src m nlocs ts lats lons latFill lonFill Hsrc _ _ _ _ E3) as [Hsorted Hsub]; [rewrite Hfst; apply kept_sorted|].
  assert (Hrange : forall x, x ∈ mine -> s <= x.1 < s + cnt nlocs s).
  { intros x Hx%Hsub. pose proof (kept_range p ts lats lons latFill lonFill s (cnt nlocs s)) as Hr. rewrite list.Forall_forall in Hr.
    apply Hr. rewrite <-Hfst. apply list_elem_of_fmap. eauto. }
  set (fli := map (fun x => x.1 - s) mine).
  assert (Hback : map (fun i => s + i) fli = mine.*1).
  { unfold fli. rewrite map_map. apply map_ext_in. intros x Hx%list_elem_of_In%Hrange. lia. }
  assert (Hlf : length fli = length mine) by apply length_map.
  assert (Hfs : StronglySorted lt fli).
  { clear -Hsorted Hrange. unfold fli. induction mine as [|x l IH]; simpl in *; [constructor|]. inversion Hsorted as [|? ? H1 H2]; subst.
    constructor; [apply IH; [done|]; intros; apply Hrange; by right|]. apply list.Forall_forall. intros y (z & -> & Hz)%list_elem_of_fmap.
    rewrite list.Forall_forall in H2. pose proof (Hrange x ltac:(left)). pose proof (Hrange z ltac:(by right)).
    specialize (H2 z.1 ltac:(apply list_elem_of_fmap; eauto)). lia. }
  assert (Hfr : Forall (fun i => i < cnt nlocs s) fli).
  { apply list.Forall_forall. intros y (z & -> & Hz)%list_elem_of_fmap. pose proof (Hrange z Hz). lia. }
  assert (Hreader : reader_at s fli st1).
  { split; try done; try (by rewrite Hlf). }
  assert (Htally : tally_at d0 ((s + m) `min` nlocs) (prev ++ mine) (tally_ st1)).
  { destruct Ht as [_ T2 T3 T4 T5 T6 T7 T8]. split; simpl.
    - exists (recs ++ recs2). rewrite kept_frame_app, number_locs_app, Hnr, E2. split; [done|].
      by rewrite zip_with_app, distribute_app, Hdr by done; cbn [mbind res_bind]; rewrite E3.
    - rewrite kept_frame_app, length_app, T2. lia.
    - destruct (seq_frame s) as (k & Eseq & _). rewrite Eseq, List.filter_app, length_app, T3. lia.
    - rewrite length_app, T4. lia.
    - by rewrite fmap_app, T5.
    - by rewrite fmap_app, T6.
    - rewrite T7, fmap_app. set_solver.
    - rewrite T7, fmap_app. do 2 f_equal. set_solver. }
  assert (Hroom : length (prev ++ mine) <= nlocs).
  { destruct (ta_records _ _ _ _ Htally) as (r & Hr1 & Hr2).
    pose proof (number_locs_length p src nlocs ts 0 ∅ (kept 0 ((s + m) `min` nlocs))) as Hlr. rewrite Hr1 in Hlr. simpl in Hlr.
    destruct (distribute_sub p src m nlocs ts lats lons latFill lonFill Hsrc _ _ _ _ Hr2) as [Hsort' Hsub'].
    { rewrite fst_zip by lia. apply kept_sorted. }
    rewrite <-(length_fmap fst). apply sorted_length; [done|]. apply list.Forall_forall. intros x (z & -> & Hz%Hsub')%list_elem_of_fmap.
    pose proof (kept_range p ts lats lons latFill lonFill 0 ((s + m) `min` nlocs)) as Hkr. rewrite list.Forall_forall in Hkr.
    assert (z.1 ∈ kept 0 ((s + m) `min` nlocs)) as Hz1 by (rewrite <-(fst_zip (kept 0 ((s + m) `min` nlocs)) r) by lia; apply list_elem_of_fmap; eauto).
    specialize (Hkr _ Hz1). simpl in Hkr. lia. }
  exists st1, mine. split; [exact Hav|]. split; [done|]. split; [done|].
  destruct (resizeLocation_ok first s (prev.*1) (length mine) g Hg) as (g1 & Hr1 & Hn1 & Hl1 & Hg1); [rewrite length_fmap; by rewrite length_app in Hroom|].
  exists g1. split; [exact Hr1|].
  assert (Hnames : g_names (obs_frame_ st1) = frame_names) by apply Hload. rewrite Hnames.
  rewrite <-Hlf in Hg1, Hl1. destruct (init_vars_ok s fli (prev.*1) st1 g1 Hreader) as (st2 & os2 & Hloop & Hsame & (S1 & S2 & S3) & Hg2).
  { simpl. by rewrite Hadj, length_fmap. } { done. }
  exists st2, os2. split_and!; [exact Hloop|done|done|done|eexists; by apply frame_loaded_shape|].
  rewrite Hback in Hg2. rewrite <-fmap_app in Hg2. split; [by rewrite S3|]. rewrite S2. split.
  - rewrite Hl1, Hlf, !length_fmap, length_app. done.
  - assert (El : length ((prev ++ mine).*1) = length (prev.*1) + length fli) by (rewrite !length_fmap, length_app; lia).
    rewrite El. exact Hg2.
Qed.


(** * The construction of the group *)

Lemma group_dims_ok :
  exists dims, foldM (group_dim p src) ∅ (g_dim_names src) = Ok dims /\
  forall d z mx, g_dims src !! d = Some (z, mx) -> dims !! d = Some (obs_group_dim p d z).
Proof.
  destruct (foldM_ind (group_dim p src)
    (fun don dims => forall d z mx, d ∈ don -> g_dims src !! d = Some (z, mx) -> dims !! d = Some (obs_group_dim p d z))
    (∅ : gmap string (Z * Z)) (g_dim_names src)) as (dims & Hd & Hi).
  - intros d z mx Hd. by apply elem_of_nil in Hd.
  - intros don d dims IH [rest Hp]. assert (Hin : d ∈ g_dim_names src) by (rewrite Hp; set_solver).
    apply (so_dims _ _ _ _ _ _ _ _ _ Hsrc) in Hin as [[z mx] Hz]. unfold group_dim, dim_open. rewrite Hz. cbn [mbind res_bind].
    eexists. split; [reflexivity|]. intros d' z' mx' Hd' Hz'. destruct (decide (d' = d)) as [->|Hne].
    + rewrite lookup_insert_eq. congruence.
    + rewrite lookup_insert_ne by done. apply (IH d' z' mx'); [|done]. set_solver.
  - exists dims. split; [done|]. intros d z mx Hz. apply (Hi d z mx); [|done]. apply (so_dims _ _ _ _ _ _ _ _ _ Hsrc). by rewrite Hz.
Qed.

Lemma create_group_var (g : ObsGroup F) name c :
  (forall d z mx, g_dims src !! d = Some (z, mx) -> g_dims g !! d = Some (obs_group_dim p d z)) -> col_ok c ->
  exists fv data, createWithScales name (col_dims c) (col_type c) (Some (missing_val (col_type c))) g =
      Ok {| g_dim_names := g_dim_names g; g_dims := g_dims g; g_names := g_names g ++ [name];
            g_vars := <[name := fv]> (g_vars g) |} /\ gvar c (m `min` nlocs) fv data.
Proof.
  intros Hdims Hok. destruct (co_dims _ _ _ Hok) as (d0 & ds & mx & Ed & E0 & Hds).
  assert (E1 : forall d z mx, g_dims src !! d = Some (z, mx) -> dim_open d g = Ok (obs_group_dim p d z)).
  { intros d z mx' Hz. unfold dim_open. by rewrite (Hdims _ _ _ Hz). }
  assert (Hle : group_rows c (m `min` nlocs) <= col_n c).
  { unfold group_rows. destruct (by_location c) eqn:Eb; [|done].
    destruct (by_location_n p src m nlocs ts lats lons latFill lonFill Hsrc c Hok Eb) as [-> _]. lia. }
  apply createWithScales_inv.
  - apply (co_type _ _ _ Hok).
  - eapply shape_le; [apply (co_shape _ _ _ Hok)|done].
  - unfold group_max, group_rows. destruct (by_location c); unfold Unlimited; lia.
  - rewrite Ed. cbn [mapR]. rewrite (E1 _ _ _ E0). cbn [mbind res_bind].
    assert (Er : mapR (fun d => dim_open d g) ds = Ok (map (fun z => (z, z)) (col_rest c))).
    { clear -E1 Hds. induction Hds as [|d z ds rest (mx & Hz & Hl & Hc) Hds IH]; cbn [mapR map]; [done|].
      rewrite (E1 _ _ _ Hz). unfold obs_group_dim at 1. rewrite decide_False by done. cbn [mbind res_bind]. by rewrite IH. }
    rewrite Er. cbn [mbind res_bind]. do 2 f_equal. unfold obs_group_dim, group_rows, group_max.
    assert (Eb : by_location c = bool_decide (d0 = "Location")) by (unfold by_location; by rewrite Ed).
    rewrite Eb, (so_m _ _ _ _ _ _ _ _ _ Hsrc). case_decide as Hd0; [|by rewrite bool_decide_false].
    rewrite bool_decide_true by done. f_equal.
    destruct (by_location_n p src m nlocs ts lats lons latFill lonFill Hsrc c Hok) as [-> _]; [by rewrite Eb, bool_decide_true|].
    case_decide; lia.
Qed.

Lemma create_group_ok frame :
  frame_shape (m `min` nlocs) frame ->
  exists g0 g, createObsGroupFromObsFrame p src = Ok g0 /\ createVariables frame g0 = Ok g /\ group_inv true 0 [] g.
Proof.
  intros (Hn & _ & Hv). unfold createObsGroupFromObsFrame. destruct group_dims_ok as (dims & Hd & Hdims). rewrite Hd. cbn [mbind res_bind].
  set (g0 := {| g_dim_names := g_dim_names src; g_dims := dims; g_names := []; g_vars := ∅ |}). exists g0.
  unfold createVariables. rewrite Hn.
  destruct (foldM_ind (create_var frame) (fun don g => g_dims g = dims /\
      g_names g = List.filter (fun name => negb (is_skipped name)) don /\
      forall name c, name ∈ don -> frame_col name = Some c -> is_skipped name = false ->
        exists fv data, g_vars g !! name = Some fv /\ gvar c (m `min` nlocs) fv data)
    g0 frame_names) as (g & Hf & Hgd & Hgn & Hgv).
  - split_and!; [done..|]. intros name c Hin. by apply elem_of_nil in Hin.
  - intros don name g (Hgd & Hgn & Hgv) [rest Hp]. assert (Hin : name ∈ frame_names) by (rewrite Hp; set_solver).
    apply (frame_names_col p src m nlocs ts lats lons latFill lonFill Hsrc) in Hin as [c Hc].
    pose proof (frame_col_ok p src m nlocs ts lats lons latFill lonFill Hsrc _ _ Hc) as Hok.
    unfold create_var. destruct (is_skipped name) eqn:Esk.
    { exists g. split; [done|]. split_and!; [done| |].
      - rewrite List.filter_app. simpl. rewrite Esk. simpl. by rewrite app_nil_r.
      - intros name' c' Hin' Hc' Hsk'. apply (Hgv name' c'); [|done..]. apply elem_of_app in Hin' as [?|Hl]; [done|].
        apply list_elem_of_singleton in Hl. congruence. }
    destruct (Hv name c Hc) as (fv & data & Hfv & Hinv). unfold vars_open. rewrite Hfv. cbn [mbind res_bind].
    rewrite supportedType_supported by (rewrite (vi_type _ _ _ _ _ _ _ _ Hinv); apply (co_type _ _ _ Hok)).
    rewrite (vi_type _ _ _ _ _ _ _ _ Hinv), (vi_dims _ _ _ _ _ _ _ _ Hinv).
    destruct (create_group_var g name c) as (fv' & data' & Hcr & Hgv'); [by rewrite Hgd|done|].
    eexists. split; [exact Hcr|]. simpl. split_and!; [done| |].
    + rewrite List.filter_app. simpl. by rewrite Esk, Hgn.
    + intros name' c' Hin' Hc' Hsk'. destruct (decide (name' = name)) as [->|Hne].
      * rewrite lookup_insert_eq. assert (c' = c) as -> by congruence. eauto.
      * rewrite lookup_insert_ne by done. apply (Hgv name' c'); [|done..]. set_solver.
  - exists g. split_and!; [done|exact Hf|]. split; [done|]. split_and!; [done|done| |].
    + destruct (so_loc _ _ _ _ _ _ _ _ _ Hsrc) as [mx Hl]. rewrite Hgd, (Hdims _ _ _ Hl). unfold obs_group_dim. rewrite decide_True by done.
      rewrite (so_m _ _ _ _ _ _ _ _ _ Hsrc). do 2 f_equal. case_decide; lia.
    + intros name c Hc Hsk. destruct (Hgv name c) as (fv & data & H1 & H2); [|done|done|eauto 10].
      apply (frame_names_col p src m nlocs ts lats lons latFill lonFill Hsrc). eauto.
Qed.

(** * All frames *)

Lemma foldl_max_ge (l : list Z) a x : (x ∈ l \/ x <= a)%Z -> (x <= foldl Z.max a l)%Z.
Proof.
  revert a. induction l as [|y l IH]; intros a; simpl; [intros [Hx|Hx]; [by apply elem_of_nil in Hx|done]|].
  intros [[->|Hx]%elem_of_cons|Hx]; apply IH; [right; lia|by left|right; lia].
Qed.

Lemma max_covers d z mx : g_dims src !! d = Some (z, mx) -> (z <= maxVarSize0 src)%Z.
Proof.
  intros Hd. apply foldl_max_ge. left. apply elem_of_app. left. apply list_elem_of_omap. exists d. split.
  - apply (so_dims _ _ _ _ _ _ _ _ _ Hsrc). by rewrite Hd.
  - by rewrite Hd.
Qed.

(** What a column becomes in the ObsSpace: the rows of the locations [idx], or
    all rows, with missing values replaced. *)
Definition final_data (c : Col F) (idx : list nat) : list (Val F) :=
  map (convert c) (if by_location c then rows_at (col_row c) (col_data c) idx else col_data c).

Lemma group_final first s prev g :
  group_inv first s prev g -> (maxVarSize0 src <= Z.of_nat s)%Z ->
  group_holds (fun c data => data = final_data c prev) (length prev) g.
Proof.
  intros [Hn Hg] Hs. destruct (so_loc _ _ _ _ _ _ _ _ _ Hsrc) as [mxl Hl]. pose proof (max_covers _ _ _ Hl) as Hloc.
  assert (Hcol : forall c, col_ok c -> col_n c <= s).
  { intros c Hok. destruct (co_dims _ _ _ Hok) as (d0 & ds & mx & _ & E0 & _). apply max_covers in E0. lia. }
  assert (Hend : forall c fv data, col_ok c -> gvar c (length prev) fv data -> content c s prev data -> data = final_data c prev).
  { intros c fv data Hok Hv Hc. pose proof (var_inv_length _ _ _ _ _ _ _ _ Hv) as Hlen. fold (col_row c) in Hlen.
    unfold content, final_data, group_rows in *. destruct (by_location c); [done|]. specialize (Hcol c Hok).
    rewrite Nat.min_r in Hc by lia. rewrite !take_ge in Hc; [done|rewrite (co_data _ _ _ Hok); lia|lia]. }
  destruct first.
  - destruct Hg as (-> & -> & _ & Hg). assert (nlocs = 0) as Hz by lia. rewrite Hz, Nat.min_0_r in Hg. intros name c Hc Hsk.
    pose proof (frame_col_ok p src m nlocs ts lats lons latFill lonFill Hsrc _ _ Hc) as Hok.
    destruct (Hg name c Hc Hsk) as (fv & data & H1 & H2 & _). exists fv, data. split_and!; [done..|]. apply (Hend c fv data Hok H2).
    pose proof (var_inv_length _ _ _ _ _ _ _ _ H2) as Hlen. unfold content, group_rows in *.
    destruct (by_location c); [by destruct data|done].
  - destruct Hg as (_ & Hg). intros name c Hc Hsk. destruct (Hg name c Hc Hsk) as (fv & data & H1 & H2 & H3). exists fv, data.
    split_and!; [done..|]. apply (Hend c fv data); [|done..]. by eapply (frame_col_ok p src m nlocs ts lats lons latFill lonFill Hsrc).
Qed.

Lemma location_final first s prev g :
  group_inv first s prev g -> (maxVarSize0 src <= Z.of_nat s)%Z ->
  g_dims g !! "Location" = Some (Z.of_nat (length prev), Unlimited) /\ g_names g = group_names.
Proof.
  intros [Hn Hg] Hs. destruct (so_loc _ _ _ _ _ _ _ _ _ Hsrc) as [mxl Hl]. pose proof (max_covers _ _ _ Hl) as Hloc.
  split; [|exact Hn]. destruct first; [|apply Hg]. destruct Hg as (-> & -> & -> & _). replace (m `min` nlocs) with 0 by lia. done.
Qed.

Lemma frame_loop_ok d0 recsN nN gN dN mineN fuel :
  number_locs 0 ∅ (kept 0 nlocs) = (recsN, (nN, gN)) -> distribute d0 (zip (kept 0 nlocs) recsN) = Ok (dN, mineN) ->
  forall s loc prev first st os,
    frame_start_ st = Z.of_nat s -> frame_shape loc (obs_frame_ st) ->
    adjusted_location_frame_start_ st = Z.of_nat (length prev) ->
    tally_at d0 (s `min` nlocs) prev (tally_ st) -> group_inv first s (prev.*1) (obs_group_ os) ->
    Z.to_nat (maxVarSize0 src) <= s + fuel ->
    exists st' os' mine, frame_loop p src fuel first st os = Ok (st', os') /\ tally_at d0 nlocs mine (tally_ st') /\
      (g_dims (obs_group_ os') !! "Location" = Some (Z.of_nat (length mine), Unlimited) /\ g_names (obs_group_ os') = group_names) /\
      group_holds (fun c data => data = final_data c (mine.*1)) (length mine) (obs_group_ os').
Proof.
  intros HnN HdN. destruct (so_loc _ _ _ _ _ _ _ _ _ Hsrc) as [mxl Hl]. pose proof (max_covers _ _ _ Hl) as Hloc.
  pose proof (so_m_pos _ _ _ _ _ _ _ _ _ Hsrc) as Hm.
  induction fuel as [|fuel IH]; intros s loc prev first st os Hs Hf Hadj Ht Hg Hfuel.
  all: destruct (decide (Z.of_nat s < maxVarSize0 src)%Z) as [Hmax|Hmax]; [try lia|].
  all: try (exists st, os, prev; split; [|split; [|split]];
    [cbn [frame_loop]; unfold frameAvailable; rewrite decide_False by lia; done
    |replace nlocs with (s `min` nlocs) by lia; done
    |rewrite <-(length_fmap fst prev); apply (location_final first s); [done|lia]
    |rewrite <-(length_fmap fst prev); apply (group_final first s); [done|lia]]).
  destruct (frame_step d0 s loc prev first st (obs_group_ os) recsN nN gN dN mineN HnN HdN Hs Hf Hadj Ht Hg Hmax)
    as (st1 & mine & Hav & Ht1 & Hcount & g1 & Hr & st2 & os2 & Hloop & Hsame & E1 & E2 & (loc' & Hf1) & Hg2).
  destruct Hsame as (S1 & S2 & S3 & S4 & S5 & S6).
  destruct (IH (s + m) loc' (prev ++ mine) false (frameNext p st2) os2) as (st' & os' & mine' & Hfin & Ht' & Hl' & Hg').
  - simpl. rewrite S1, E1, Hs, (so_m _ _ _ _ _ _ _ _ _ Hsrc). lia.
  - simpl. by rewrite S5.
  - simpl. rewrite S2, S3, E2, Hadj, Hcount, length_app. lia.
  - simpl. by rewrite S6.
  - done.
  - lia.
  - exists st', os', mine'. split; [|by split]. cbn [frame_loop]. rewrite Hav. cbn [mbind res_bind]. rewrite Hr. cbn [mbind res_bind].
    rewrite Hloop. cbn [mbind res_bind]. exact Hfin.
Qed.

Lemma initFromObsSource_ok d0 recs n g d mine fuel :
  number_locs 0 ∅ (kept 0 nlocs) = (recs, (n, g)) -> distribute d0 (zip (kept 0 nlocs) recs) = Ok (d, mine) ->
  Z.to_nat (maxVarSize0 src) <= fuel ->
  exists st os, initFromObsSource p src fuel d0 = Ok (st, os) /\ dist_ (tally_ st) = d /\ tally_at d0 nlocs mine (tally_ st) /\
    (g_dims (obs_group_ os) !! "Location" = Some (Z.of_nat (length mine), Unlimited) /\ g_names (obs_group_ os) = group_names) /\
    group_holds (fun c data => data = final_data c (mine.*1)) (length mine) (obs_group_ os).
Proof.
  intros Hn Hd Hfuel. unfold initFromObsSource.
  rewrite (ObsFrameRead_check_ok p src m nlocs ts lats lons latFill lonFill Hsrc). cbn [mbind res_bind].
  destruct (frameInit_ok p src m nlocs ts lats lons latFill lonFill Hsrc d0) as (frame & Hi & Hf).
  destruct (create_group_ok frame Hf) as (g0 & g1 & Hg0 & Hg1 & Hinv). rewrite Hg0. cbn [mbind res_bind]. rewrite Hi. cbn [mbind res_bind obs_frame_].
  rewrite Hg1. cbn [mbind res_bind].
  match goal with |- context [frame_loop p src fuel true ?st ?os] =>
    destruct (frame_loop_ok d0 recs n g d mine fuel Hn Hd 0 (m `min` nlocs) [] true st os) as (st' & os' & mine' & Hl & Ht & Hloc & Hg) end; [done|done|done| |done|lia|].
  { rewrite Nat.min_0_l. split; try done. exists []. split; [|done]. unfold ObsFrameReadSpec.number_locs. simpl.
    by destruct (obs_grouping_vars_ p). }
  exists st', os'. destruct (ta_records _ _ _ _ Ht) as (recs' & Hn' & Hd'). rewrite Hn in Hn'. injection Hn' as <- _ _.
  rewrite Hd in Hd'. injection Hd' as Hd1 <-. done.
Qed.

End proofs.
