(* ===== verification/ObsSpaceSource.v ===== *)
(** What the ObsSpaces of all ranks hold after they read an observation source:
    the theorems about [initFromObsSource], alone and together with the
    distributions. *)
From stdpp Require Import base list gmap strings pretty sorting.
From Stdlib Require Import ZArith.
From S2P Require Import Prelude Mpi Distribution Nonoverlapping Halo Selection VarAttrStore ObsTypes ObsAttributes.
From S2P Require Import ObsVariables ObsFrame ObsFrameRead ObsFrameReadSpec ObsSpaceInit.

(** * The reference: one pass over the whole source *)

Section one_pass.
Context {F DT D : Type} `{FO : FloatOps F} `{DO : DateTimeOps DT} `{MV : MissingValues F} `{RD : ReaderDist D (F * F)}.
Context (p : ReadParams DT) (src : ObsGroup F).
Context (nlocs : nat) (ts : list Z) (lats lons : list F) (latFill lonFill : F).

(** The locations that pass the checks, in the order of the source, with their
    records. *)
Definition numbered : list (nat * nat) :=
  let locs := kept p ts lats lons latFill lonFill 0 nlocs in
  zip locs (number_locs p src nlocs ts 0 ∅ locs).1.

(** What is left to this rank. *)
Definition one_pass (d0 : D) : res (D * list (nat * nat)) := distribute lats lons d0 numbered.

Lemma numbered_locs : numbered.*1 = kept p ts lats lons latFill lonFill 0 nlocs.
Proof. unfold numbered. apply fst_zip. by rewrite number_locs_length. Qed.

Lemma numbered_recs : numbered.*2 = (number_locs p src nlocs ts 0 ∅ (kept p ts lats lons latFill lonFill 0 nlocs)).1.
Proof. unfold numbered. apply snd_zip. by rewrite number_locs_length. Qed.

Lemma numbered_sorted : StronglySorted lt numbered.*1.
Proof. rewrite numbered_locs. apply kept_sorted. Qed.

Lemma one_pass_ok m d0 d mine fuel :
  source_ok p src m nlocs ts lats lons latFill lonFill -> one_pass d0 = Ok (d, mine) ->
  (Z.to_nat (maxVarSize0 src) <= fuel)%nat ->
  exists st os, initFromObsSource p src fuel d0 = Ok (st, os) /\ dist_ (tally_ st) = d /\
    tally_at p src nlocs ts lats lons latFill lonFill d0 nlocs mine (tally_ st) /\
    group_holds src nlocs ts (fun c data => data = final_data c mine.*1) (length mine) (obs_group_ os).
Proof.
  intros Hsrc Hd Hf. unfold one_pass, numbered in Hd.
  destruct (number_locs p src nlocs ts 0 ∅ (kept p ts lats lons latFill lonFill 0 nlocs)) as [recs [n g]] eqn:E.
  destruct (initFromObsSource_ok p src m nlocs ts lats lons latFill lonFill Hsrc d0 recs n g d mine fuel E Hd Hf)
    as (st & os & H1 & H2 & H3 & _ & H4). eauto 6.
Qed.

(** The scale of Location has the length of the variables along it, and the
    variables are those of the source. *)
Lemma one_pass_location m d0 d mine fuel st os :
  source_ok p src m nlocs ts lats lons latFill lonFill -> one_pass d0 = Ok (d, mine) ->
  (Z.to_nat (maxVarSize0 src) <= fuel)%nat -> initFromObsSource p src fuel d0 = Ok (st, os) ->
  g_dims (obs_group_ os) !! "Location" = Some (Z.of_nat (length mine), Unlimited) /\ g_names (obs_group_ os) = group_names src.
Proof.
  intros Hsrc Hd Hf Hi. unfold one_pass, numbered in Hd.
  destruct (number_locs p src nlocs ts 0 ∅ (kept p ts lats lons latFill lonFill 0 nlocs)) as [recs [n g]] eqn:E.
  destruct (initFromObsSource_ok p src m nlocs ts lats lons latFill lonFill Hsrc d0 recs n g d mine fuel E Hd Hf)
    as (st' & os' & H1 & _ & _ & H2 & _). rewrite Hi in H1. by injection H1 as <- <-.
Qed.
End one_pass.

(** * Record numbers *)

Section numbering.

(** Numbering is by the map from keys to numbers: old entries are kept and the
    map stays injective. *)
Definition grouping_ok (next : nat) (g : gmap string nat) : Prop :=
  (forall k r, g !! k = Some r -> r < next) /\ (forall k1 k2 r, g !! k1 = Some r -> g !! k2 = Some r -> k1 = k2).

Lemma grouping_ok_insert next g k :
  grouping_ok next g -> g !! k = None -> grouping_ok (S next) (<[k := next]> g).
Proof.
  intros [Hlt Hinj] Hk. split.
  - intros k' r [[-> ->]|[_ Hk']]%lookup_insert_Some; [lia|]. apply Hlt in Hk'. lia.
  - intros k1 k2 r [[E1 E1']|[N1 H1]]%lookup_insert_Some [[E2 E2']|[N2 H2]]%lookup_insert_Some;
      [congruence|apply Hlt in H2; lia|apply Hlt in H1; lia|by eapply Hinj].
Qed.

Lemma number_keys_spec next g keys :
  grouping_ok next g ->
  let '(recs, (next', g')) := number_keys next g keys in
  grouping_ok next' g' /\ g ⊆ g' /\ map Some recs = map (fun k => g' !! k) keys.
Proof.
  revert next g. induction keys as [|k keys IH]; intros next g Hg; simpl; [done|].
  destruct (g !! k) as [r|] eqn:Ek.
  - specialize (IH next g Hg). destruct (number_keys next g keys) as [rs [n g']]. destruct IH as (H1 & H2 & H3).
    split_and!; [done|done|]. simpl. rewrite H3. f_equal. symmetry. by eapply lookup_weaken.
  - pose proof (grouping_ok_insert next g k Hg Ek) as Hg'.
    specialize (IH _ _ Hg'). destruct (number_keys (S next) (<[k := next]> g) keys) as [rs [n g']]. destruct IH as (H1 & H2 & H3).
    split_and!; [done| |].
    + etrans; [|exact H2]. by apply insert_subseteq.
    + simpl. rewrite H3. f_equal. symmetry. eapply lookup_weaken; [|exact H2]. apply lookup_insert_eq.
Qed.

(** Two locations have the same number iff they have the same key. *)
Lemma number_keys_same keys i j k1 k2 r1 r2 :
  let recs := (number_keys 0 ∅ keys).1 in
  keys !! i = Some k1 -> keys !! j = Some k2 -> recs !! i = Some r1 -> recs !! j = Some r2 ->
  r1 = r2 <-> k1 = k2.
Proof.
  intros recs H1 H2 R1 R2. pose proof (number_keys_spec 0 ∅ keys) as Hspec.
  unfold recs in *. destruct (number_keys 0 ∅ keys) as [rs [n g]]. simpl in *.
  destruct Hspec as ((Hlt & Hinj) & _ & Hm); [by split|].
  assert (Hr : forall a k r, keys !! a = Some k -> rs !! a = Some r -> g !! k = Some r).
  { intros a k r Hk Hr. apply (f_equal (fun l => l !! a)) in Hm. rewrite !list_lookup_fmap, Hk, Hr in Hm. simpl in Hm. congruence. }
  apply (Hr _ _ _ H1) in R1. apply (Hr _ _ _ H2) in R2. split; [intros ->; by eapply Hinj|intros ->; congruence].
Qed.

(** The records are numbered consecutively in the order of their first
    locations. *)
Lemma number_keys_consecutive next g keys :
  grouping_ok next g -> consecutive next (number_keys next g keys).1 = true.
Proof.
  revert next g. induction keys as [|k keys IH]; intros next g Hg; simpl; [done|].
  destruct (g !! k) as [r|] eqn:Ek.
  - specialize (IH next g Hg). destruct (number_keys next g keys) as [rs s]. simpl in *.
    destruct Hg as [Hlt _]. apply Hlt in Ek as Hr. rewrite (proj2 (Nat.eqb_neq r next)) by lia.
    rewrite (proj2 (Nat.ltb_lt r next)) by lia. done.
  - specialize (IH _ _ (grouping_ok_insert next g k Hg Ek)).
    destruct (number_keys (S next) (<[k := next]> g) keys) as [rs s]. simpl in *. by rewrite Nat.eqb_refl.
Qed.

Lemma seq_consecutive next n : consecutive next (seq next n) = true.
Proof. revert next. induction n as [|n IH]; intros next; simpl; [done|]. by rewrite Nat.eqb_refl. Qed.
End numbering.

(** * One rank *)

Section claims.
Context {F DT D : Type} `{FO : FloatOps F} `{DO : DateTimeOps DT} `{MV : MissingValues F} `{RD : ReaderDist D (F * F)}.
Context (p : ReadParams DT) (src : ObsGroup F).
Context (m nlocs : nat) (ts : list Z) (lats lons : list F) (latFill lonFill : F).

(** C3: Reading a well-formed source frame by frame terminates (one iteration per
    frame, never more than the largest first dimension), no step throws, and the
    reader is left as after one pass over the whole source: the locations inside
    the timing window with known coordinates are counted and numbered, those the
    distribution gives to this rank are listed in [indx_] in the order of the
    source with their records in [recnums_]. *)
Theorem reader_tally (d0 d : D) (mine : list (nat * nat)) (fuel : nat) :
  source_ok p src m nlocs ts lats lons latFill lonFill ->
  one_pass p src nlocs ts lats lons latFill lonFill d0 = Ok (d, mine) ->
  Z.to_nat (maxVarSize0 src) <= fuel ->
  exists st os, initFromObsSource p src fuel d0 = Ok (st, os) /\
    let t := tally_ st in
    dist_ t = d /\ indx_ t = mine.*1 /\ recnums_ t = mine.*2 /\
    nlocs_ t = Z.of_nat (length mine) /\
    gnlocs_ t = Z.of_nat (length (kept p ts lats lons latFill lonFill 0 nlocs)) /\
    gnlocs_outside_timewindow_ t = Z.of_nat (length (List.filter (outside p ts) (seq 0 nlocs))) /\
    unique_rec_nums_ t = list_to_set mine.*2 /\
    nrecs_ t = Z.of_nat (size (list_to_set mine.*2 : gset nat)).
Proof.
  intros Hsrc Hd Hf. destruct (one_pass_ok p src nlocs ts lats lons latFill lonFill m d0 d mine fuel Hsrc Hd Hf)
    as (st & os & Hi & Hdist & [] & _). exists st, os. done.
Qed.

(** C2: The ObsSpace has every variable of the source (except the two obsolete
    dates), with its dimensions, its type and the missing value as fill value: a
    variable along Location has the rows of the locations in [indx_], any other
    variable all its rows, and values the source marks as missing (for floats
    also infinities and NaNs) are replaced by the missing value. *)
Theorem obsspace_contents (d0 d : D) (mine : list (nat * nat)) (fuel : nat) :
  source_ok p src m nlocs ts lats lons latFill lonFill ->
  one_pass p src nlocs ts lats lons latFill lonFill d0 = Ok (d, mine) ->
  Z.to_nat (maxVarSize0 src) <= fuel ->
  exists st os, initFromObsSource p src fuel d0 = Ok (st, os) /\
    let indx := indx_ (tally_ st) in
    forall name c, frame_col src nlocs ts name = Some c -> is_skipped name = false ->
      exists fv, g_vars (obs_group_ os) !! name = Some fv /\ fv_dims fv = col_dims c /\
        dtype_ (fv_var fv) = col_type c /\ fvdata_ (fv_var fv) = Some (missing_val (col_type c)) /\
        dimensions_ (fv_var fv) = Z.of_nat (if by_location c then length indx else col_n c) :: col_rest c /\
        var_attr_data_ (var_data_ (fv_var fv)) =
          map (convert c) (if by_location c then rows_at (col_row c) (col_data c) indx else col_data c).
Proof.
  intros Hsrc Hd Hf. destruct (one_pass_ok p src nlocs ts lats lons latFill lonFill m d0 d mine fuel Hsrc Hd Hf)
    as (st & os & Hi & _ & Ht & Hg). exists st, os. split; [done|]. rewrite (ta_indx _ _ _ _ _ _ _ _ _ _ _ _ Ht). intros indx name c Hc Hsk.
  destruct (Hg name c Hc Hsk) as (fv & data & Hfv & Hv & ->). exists fv. destruct Hv as [H1 H2 H3 _ _ Ha].
  split_and!; [done..| |].
  - rewrite (arr_dims _ _ _ _ Ha). unfold group_rows, indx. by rewrite length_fmap.
  - by rewrite (arr_data _ _ _ _ Ha).
Qed.

Lemma numbered_elem i r :
  (i, r) ∈ numbered p src nlocs ts lats lons latFill lonFill ->
  exists a, kept p ts lats lons latFill lonFill 0 nlocs !! a = Some i /\
    (number_locs p src nlocs ts 0 ∅ (kept p ts lats lons latFill lonFill 0 nlocs)).1 !! a = Some r.
Proof.
  intros [a Ha]%list_elem_of_lookup. exists a. unfold numbered in Ha.
  apply lookup_zip_with_Some in Ha as (x & y & E & H1 & H2). by simplify_eq.
Qed.

(** C19: With grouping variables, two locations, on whatever ranks they end up,
    have the same record number exactly when their keys (the values of the
    grouping variables) are the same. *)
Theorem records_are_groups (d1 d2 d1' d2' : D) (mine1 mine2 : list (nat * nat)) (fuel : nat) :
  source_ok p src m nlocs ts lats lons latFill lonFill ->
  obs_grouping_vars_ p <> [] ->
  one_pass p src nlocs ts lats lons latFill lonFill d1 = Ok (d1', mine1) ->
  one_pass p src nlocs ts lats lons latFill lonFill d2 = Ok (d2', mine2) ->
  Z.to_nat (maxVarSize0 src) <= fuel ->
  exists st1 os1 st2 os2,
    initFromObsSource p src fuel d1 = Ok (st1, os1) /\ initFromObsSource p src fuel d2 = Ok (st2, os2) /\
    forall a b i j r1 r2, indx_ (tally_ st1) !! a = Some i -> recnums_ (tally_ st1) !! a = Some r1 ->
      indx_ (tally_ st2) !! b = Some j -> recnums_ (tally_ st2) !! b = Some r2 ->
      r1 = r2 <-> location_key p src nlocs ts i = location_key p src nlocs ts j.
Proof.
  intros Hsrc Hgv Hd1 Hd2 Hf.
  destruct (one_pass_ok p src nlocs ts lats lons latFill lonFill m d1 d1' mine1 fuel Hsrc Hd1 Hf) as (st1 & os1 & Hi1 & _ & Ht1 & _).
  destruct (one_pass_ok p src nlocs ts lats lons latFill lonFill m d2 d2' mine2 fuel Hsrc Hd2 Hf) as (st2 & os2 & Hi2 & _ & Ht2 & _).
  exists st1, os1, st2, os2. split_and!; [done..|].
  rewrite (ta_indx _ _ _ _ _ _ _ _ _ _ _ _ Ht1), (ta_recnums _ _ _ _ _ _ _ _ _ _ _ _ Ht1),
    (ta_indx _ _ _ _ _ _ _ _ _ _ _ _ Ht2), (ta_recnums _ _ _ _ _ _ _ _ _ _ _ _ Ht2).
  intros a b i j r1 r2 Hi Hr1 Hj Hr2. rewrite !list_lookup_fmap in *.
  destruct (mine1 !! a) as [[i' r1']|] eqn:Ea, (mine2 !! b) as [[j' r2']|] eqn:Eb; simplify_eq/=.
  assert (Hin : forall d d' mine x, one_pass p src nlocs ts lats lons latFill lonFill d = Ok (d', mine) -> x ∈ mine ->
    x ∈ numbered p src nlocs ts lats lons latFill lonFill).
  { intros d d' mine x Hp. apply (distribute_sub p src m nlocs ts lats lons latFill lonFill Hsrc _ _ _ _ Hp).
    apply numbered_sorted. }
  apply list_elem_of_lookup_2 in Ea, Eb.
  destruct (numbered_elem _ _ (Hin _ _ _ _ Hd1 Ea)) as (a' & Ka & Ra), (numbered_elem _ _ (Hin _ _ _ _ Hd2 Eb)) as (b' & Kb & Rb).
  unfold number_locs in Ra, Rb. destruct (obs_grouping_vars_ p); [done|].
  eapply (number_keys_same _ a' b'); [| |exact Ra|exact Rb]; by rewrite list_lookup_fmap, ?Ka, ?Kb.
Qed.

Lemma one_pass_kept d0 d mine i :
  source_ok p src m nlocs ts lats lons latFill lonFill ->
  one_pass p src nlocs ts lats lons latFill lonFill d0 = Ok (d, mine) -> i ∈ mine.*1 ->
  keep p ts lats lons latFill lonFill i = true.
Proof.
  intros Hsrc Hd (x & -> & Hx)%list_elem_of_fmap.
  destruct (distribute_sub p src m nlocs ts lats lons latFill lonFill Hsrc _ _ _ _ Hd) as [_ Hsub]; [apply numbered_sorted|].
  destruct x as [i r]. destruct (numbered_elem _ _ (Hsub _ Hx)) as (a & Ha & _).
  apply list_elem_of_lookup_2, elem_of_List_filter in Ha. tauto.
Qed.

(** When the latitude variable has no fill value, every location on the
    equator is discarded: the fill value is read without asking whether it is
    set, and an unset fill value is 0. *)
Theorem unset_fill_drops_equator (d0 d : D) (mine : list (nat * nat)) (fuel : nat) (fv : FrameVar F) :
  source_ok p src m nlocs ts lats lons latFill lonFill -> applyLocationsCheck p = true ->
  g_vars src !! "MetaData/latitude" = Some fv -> fvdata_ (fv_var fv) = None ->
  one_pass p src nlocs ts lats lons latFill lonFill d0 = Ok (d, mine) ->
  Z.to_nat (maxVarSize0 src) <= fuel ->
  exists st os, initFromObsSource p src fuel d0 = Ok (st, os) /\
    forall i lat, lats !! i = Some lat -> f_eqb lat f_zero = true -> i ∉ indx_ (tally_ st).
Proof.
  intros Hsrc Hq Hfv Hfill Hd Hf.
  destruct (one_pass_ok p src nlocs ts lats lons latFill lonFill m d0 d mine fuel Hsrc Hd Hf) as (st & os & Hi & _ & Ht & _).
  exists st, os. split; [done|]. rewrite (ta_indx _ _ _ _ _ _ _ _ _ _ _ _ Ht). intros i lat Hlat Hz Hin.
  apply (one_pass_kept d0 d mine i Hsrc Hd) in Hin. unfold keep in Hin. rewrite Hq, Hlat in Hin.
  destruct (so_lat _ _ _ _ _ _ _ _ _ Hsrc) as (fv' & (Hfv' & _) & Hff). rewrite Hfv in Hfv'. injection Hfv' as <-.
  unfold float_fill in Hff. rewrite Hfill in Hff. injection Hff as <-.
  repeat case_match; try done. rewrite Hz in Hin. by rewrite andb_false_r in Hin.
Qed.
End claims.

(** * The size of a frame *)

(** The same parameters with another frame size. *)
Definition with_frame_size {DT} (p : ReadParams DT) (n : Z) : ReadParams DT :=
  {| windowStart := windowStart p; windowEnd := windowEnd p; frame_epoch := frame_epoch p;
     applyLocationsCheck := applyLocationsCheck p; max_frame_size_ := n; obs_grouping_vars_ := obs_grouping_vars_ p |}.

(** C32: The frame size does not matter: reading with frames of [m1] and of [m2]
    locations leaves the same counts, locations, records and state of the
    distribution, and the same variables in the ObsSpace. *)
Theorem frame_size_irrelevant {F DT D} `{FO : FloatOps F} `{DO : DateTimeOps DT} `{MV : MissingValues F} `{RD : ReaderDist D (F * F)}
    (p : ReadParams DT) (src : ObsGroup F) (m1 m2 nlocs : nat) (ts : list Z) (lats lons : list F) (latFill lonFill : F)
    (d0 d : D) (mine : list (nat * nat)) (fuel : nat) :
  let p1 := with_frame_size p (Z.of_nat m1) in let p2 := with_frame_size p (Z.of_nat m2) in
  source_ok p1 src m1 nlocs ts lats lons latFill lonFill -> source_ok p2 src m2 nlocs ts lats lons latFill lonFill ->
  one_pass p src nlocs ts lats lons latFill lonFill d0 = Ok (d, mine) ->
  Z.to_nat (maxVarSize0 src) <= fuel ->
  exists st1 os1 st2 os2,
    initFromObsSource p1 src fuel d0 = Ok (st1, os1) /\ initFromObsSource p2 src fuel d0 = Ok (st2, os2) /\
    tally_ st1 = tally_ st2 /\
    forall name c, frame_col src nlocs ts name = Some c -> is_skipped name = false ->
      exists fv1 fv2, g_vars (obs_group_ os1) !! name = Some fv1 /\ g_vars (obs_group_ os2) !! name = Some fv2 /\
        fv_dims fv1 = fv_dims fv2 /\ dtype_ (fv_var fv1) = dtype_ (fv_var fv2) /\
        fvdata_ (fv_var fv1) = fvdata_ (fv_var fv2) /\
        dimensions_ (fv_var fv1) = dimensions_ (fv_var fv2) /\
        var_attr_data_ (var_data_ (fv_var fv1)) = var_attr_data_ (var_data_ (fv_var fv2)).
Proof.
  intros p1 p2 H1 H2 Hd Hf.
  destruct (one_pass_ok p1 src nlocs ts lats lons latFill lonFill m1 d0 d mine fuel H1 Hd Hf) as (st1 & os1 & Hi1 & E1 & Ht1 & Hg1).
  destruct (one_pass_ok p2 src nlocs ts lats lons latFill lonFill m2 d0 d mine fuel H2 Hd Hf) as (st2 & os2 & Hi2 & E2 & Ht2 & Hg2).
  exists st1, os1, st2, os2. split_and!; [done..| |].
  - destruct (tally_ st1), (tally_ st2), Ht1 as [(r1 & N1 & _) A1 A2 A3 A4 A5 A6 A7], Ht2 as [(r2 & N2 & _) B1 B2 B3 B4 B5 B6 B7].
    simpl in *. change (number_locs p2) with (number_locs p1) in N2. 
    change (kept p2) with (kept p1) in *. change (outside p2) with (outside p1) in *. rewrite N1 in N2. simplify_eq. congruence.
  - intros name c Hc Hsk. destruct (Hg1 name c Hc Hsk) as (fv1 & dat1 & F1 & [] & ->), (Hg2 name c Hc Hsk) as (fv2 & dat2 & F2 & [] & ->).
    exists fv1, fv2. split_and!; try congruence.
    + by rewrite (arr_dims _ _ _ _ vi_array), (arr_dims _ _ _ _ vi_array0).
    + by rewrite (arr_data _ _ _ _ vi_array), (arr_data _ _ _ _ vi_array0).
Qed.

(** * All ranks *)

(** What the reader needs of a distribution: once a record was assigned, the
    answer of [isMyRecord] for it does not change. *)
Class ReaderDistLaws (D Pt : Type) `{RD : ReaderDist D Pt} := {
  decided : D -> nat -> Prop;
  assign_decides : forall d rec loc pt d', rd_assignRecord d rec loc pt = Ok d' -> decided d' rec;
  assign_stable : forall d rec loc pt d' r, rd_assignRecord d rec loc pt = Ok d' -> decided d r ->
    decided d' r /\ rd_isMyRecord d' r = rd_isMyRecord d r
}.

Section ranks.
Context {F DT D : Type} `{FO : FloatOps F} `{DO : DateTimeOps DT} `{MV : MissingValues F} `{RD : ReaderDist D (F * F)}
  {RL : ReaderDistLaws D (F * F)}.

Definition assign_numbered (lats lons : list F) (d : D) (l : list (nat * nat)) : res D :=
  foldM (fun d '(loc, rec) => rd_assignRecord d rec loc (point lats lons loc)) d l.

Lemma assign_numbered_stable lats lons d l d' r :
  assign_numbered lats lons d l = Ok d' -> decided d r -> decided d' r /\ rd_isMyRecord d' r = rd_isMyRecord d r.
Proof.
  unfold assign_numbered. revert d. induction l as [|[loc rec] l IH]; intros d; cbn [foldM]; [by intros [= ->]|].
  destruct (rd_assignRecord d rec loc (point lats lons loc)) as [d1|e] eqn:E; cbn [mbind res_bind]; [|done].
  intros Hl Hd. destruct (assign_stable _ _ _ _ _ r E Hd) as [Hd1 <-]. by apply IH.
Qed.

(** Deciding location by location is deciding at the end. *)
Lemma distribute_final lats lons d l d' :
  assign_numbered lats lons d l = Ok d' ->
  distribute lats lons d l = Ok (d', List.filter (fun x => rd_isMyRecord d' x.2) l).
Proof.
  revert d. induction l as [|[loc rec] l IH]; intros d; cbn [distribute List.filter]; [by intros [= ->]|].
  unfold assign_numbered. cbn [foldM].
  destruct (rd_assignRecord d rec loc (point lats lons loc)) as [d1|e] eqn:E; cbn [mbind res_bind]; [|done].
  intros Hl. rewrite (IH d1 Hl). cbn [mbind res_bind snd].
  destruct (assign_numbered_stable lats lons d1 l d' rec Hl (assign_decides _ _ _ _ _ E)) as [_ ->]. done.
Qed.

Context (p : ReadParams DT) (src : ObsGroup F).
Context (m nlocs : nat) (ts : list Z) (lats lons : list F) (latFill lonFill : F).
Context (Hsrc : source_ok p src m nlocs ts lats lons latFill lonFill).
Notation numbered := (numbered p src nlocs ts lats lons latFill lonFill).

Lemma ranks_read_ok d0s ds fuel :
  Forall2 (fun d0 d => assign_numbered lats lons d0 numbered = Ok d) d0s ds -> Z.to_nat (maxVarSize0 src) <= fuel ->
  exists sts, mapR (initFromObsSource p src fuel) d0s = Ok sts /\ map (fun s => dist_ (tally_ s.1)) sts = ds /\
    map (fun s => indx_ (tally_ s.1)) sts = map (fun d => (List.filter (fun x => rd_isMyRecord d x.2) numbered).*1) ds.
Proof.
  intros Hall Hf. induction Hall as [|d0 d d0s ds Hd Hall (sts & Hs & Hds & Hx)]; [by exists []|].
  apply distribute_final in Hd.
  destruct (one_pass_ok p src nlocs ts lats lons latFill lonFill m d0 _ _ fuel Hsrc Hd Hf) as (st & os & Hi & Ed & Ht & _).
  exists ((st, os) :: sts). cbn [mapR map fst]. rewrite Hi. cbn [mbind res_bind]. rewrite Hs. cbn [mbind res_bind].
  rewrite Ed, Hds, Hx, (ta_indx _ _ _ _ _ _ _ _ _ _ _ _ Ht). done.
Qed.

(** The locations as the distributions see them. *)
Definition located : list (nat * nat * (F * F)) := map (fun '(loc, rec) => (rec, loc, point lats lons loc)) numbered.

Lemma located_locs : map (fun x => x.1.2) located = kept p ts lats lons latFill lonFill 0 nlocs.
Proof.
  unfold located. rewrite map_map, <-(numbered_locs p src nlocs ts lats lons latFill lonFill).
  apply map_ext. by intros [loc rec].
Qed.

Lemma located_sorted : StronglySorted lt (map (fun x => x.1.2) located).
Proof. rewrite located_locs. apply kept_sorted. Qed.

(** The reader numbers records consecutively, as AtlasDistribution expects. *)
Lemma located_consecutive : consecutive 0 (map (fun x => x.1.1) located) = true.
Proof.
  unfold located. rewrite map_map. rewrite (map_ext _ snd) by (by intros []).
  change (map snd numbered) with (numbered.*2). rewrite numbered_recs. unfold number_locs.
  destruct (obs_grouping_vars_ p); [apply seq_consecutive|]. apply number_keys_consecutive. split; by intros.
Qed.

Lemma located_filter (f : nat -> bool) :
  (List.filter (fun x => f x.2) numbered).*1 = map (fun x => x.1.2) (List.filter (fun x => f x.1.1) located).
Proof.
  unfold located. induction numbered as [|[loc rec] l IH]; simpl; [done|]. destruct (f rec); simpl; [f_equal|]; exact IH.
Qed.
End ranks.

(** ** The distributions as the reader uses them *)

(** A RoundRobin object knows its rank. *)
#[export] Instance roundrobin_reader (size : nat) (Pt : Type) : ReaderDist (nat * NonoverlappingDistribution) Pt | 10 := {|
  rd_assignRecord d rec loc _ := Ok (d.1, Nonoverlapping_assignRecord (RoundRobin_isMyRecord size d.1) d.2 rec loc);
  rd_isMyRecord d rec := RoundRobin_isMyRecord size d.1 rec
|}.

#[export] Instance roundrobin_reader_laws size Pt : @ReaderDistLaws _ Pt (roundrobin_reader size Pt).
Proof.
  refine {| decided _ _ := True |}; [done|].
  intros d rec loc pt d' r Hd _. injection Hd as <-. done.
Defined.

#[export] Instance atlas_reader {Pt : Type} (locator : Pt -> Z) : ReaderDist (nat * AtlasDistribution) Pt | 10 := {|
  rd_assignRecord d rec loc pt := s ← Atlas_assignRecord locator d.1 d.2 rec loc pt; Ok (d.1, s);
  rd_isMyRecord d rec := Atlas_isMyRecord d.2 rec
|}.

#[export] Instance atlas_reader_laws {Pt : Type} (locator : Pt -> Z) : @ReaderDistLaws _ Pt (atlas_reader locator).
Proof.
  assert (Hstep : forall rank s rec loc pt s', Atlas_assignRecord locator rank s rec loc pt = Ok s' ->
    rec < nextRecordToAssign_ s'.1 /\ nextRecordToAssign_ s.1 <= nextRecordToAssign_ s'.1 /\
    forall r, r < nextRecordToAssign_ s.1 -> Atlas_isMyRecord s' r = Atlas_isMyRecord s r).
  { intros rank s rec loc pt s'. unfold Atlas_assignRecord, RecordAssigner_assignRecord.
    destruct (Nat.eqb_spec rec (nextRecordToAssign_ s.1)) as [->|Hne]; cbn [mbind res_bind].
    - intros [= <-]. simpl. split_and!; [lia..|]. intros r Hr. unfold Atlas_isMyRecord, RecordAssigner_isMyRecord. simpl.
      destruct (RecordAssigner_isInMyDomain locator rank pt); [|done]. apply bool_decide_ext. set_solver by lia.
    - destruct (Nat.ltb_spec rec (nextRecordToAssign_ s.1)); simpl; [|done]. intros [= <-]. done. }
  refine {| decided d r := r < nextRecordToAssign_ d.2.1 |}; intros [rank s] rec loc pt d'; simpl;
    destruct (Atlas_assignRecord locator rank s rec loc pt) as [s'|] eqn:E; cbn [mbind res_bind]; try done;
    destruct (Hstep _ _ _ _ _ _ E) as (H1 & H2 & H3).
  - by intros [= <-].
  - intros r [= <-] Hr. simpl. split; [lia|by apply H3].
Defined.

#[export] Instance halo_reader {R Pt : Type} `{Double R} (distance : Pt -> Pt -> R) : ReaderDist (Halo R Pt) Pt | 10 := {|
  rd_assignRecord d rec loc pt := Ok (Halo_assignRecord distance d rec loc pt);
  rd_isMyRecord d rec := Halo_isMyRecord d rec
|}.

#[export] Instance halo_reader_laws {R Pt : Type} `{Double R} (distance : Pt -> Pt -> R) :
  @ReaderDistLaws _ Pt (halo_reader distance).
Proof.
  refine {| decided d r := r ∈ recordsOutsideHalo_ d \/ r ∈ recordsInHalo_ d |}.
  - intros d rec loc pt d' [= <-]. unfold Halo_assignRecord. repeat case_decide; [by left|by right|].
    case_match; simpl; set_solver.
  - intros d rec loc pt d' r [= <-] Hr. cbn [rd_isMyRecord halo_reader]. unfold Halo_isMyRecord, Halo_assignRecord.
    destruct (decide (rec ∈ recordsOutsideHalo_ d)); [done|]. destruct (decide (rec ∈ recordsInHalo_ d)); [done|].
    assert (r <> rec) by (intros ->; tauto). case_match; simpl.
    + split; [set_solver|]. apply bool_decide_ext. set_solver.
    + split; [set_solver|done].
Defined.

(** ** The ObsSpaces of all ranks *)

Section obsspaces.
Context {F DT : Type} `{FO : FloatOps F} `{DO : DateTimeOps DT} `{MV : MissingValues F} `{ML : MpiLaws}.
Context (p : ReadParams DT) (src : ObsGroup F).
Context (m nlocs : nat) (ts : list Z) (lats lons : list F) (latFill lonFill : F).

Notation numbered := (numbered p src nlocs ts lats lons latFill lonFill).
Notation located := (located p src nlocs ts lats lons latFill lonFill).
Notation kept := (kept p ts lats lons latFill lonFill 0 nlocs).

Lemma roundrobin_assign size rank s l :
  @assign_numbered F (nat * NonoverlappingDistribution) FO (roundrobin_reader size (F * F)) lats lons (rank, s) l =
  Ok (rank, foldl (fun s '(rec, loc) => Nonoverlapping_assignRecord (RoundRobin_isMyRecord size rank) s rec loc) s
    (map (fun '(loc, rec) => (rec, loc)) l)).
Proof. unfold assign_numbered. revert s. induction l as [|[loc rec] l IH]; intros s; simpl; [done|apply IH]. Qed.

Lemma held_swap isMy rank (l : list (nat * nat)) :
  held isMy (map (fun '(loc, rec) => (rec, loc)) l) rank = (List.filter (fun x => isMy rank x.2) l).*1.
Proof. unfold held. induction l as [|[loc rec] l IH]; simpl; [done|]. destruct (isMy rank rec); simpl; [f_equal|]; exact IH. Qed.

(** C9: Every rank of a RoundRobin distribution reads the source.  No rank fails,
    the locations inside the window are split among the ObsSpaces, each being
    in exactly one [indx_], and after [computePatchLocs] the distribution objects
    the readers leave keep the contract of a distribution for these ObsSpaces. *)
Theorem roundrobin_obsspaces (size fuel : nat) :
  source_ok p src m nlocs ts lats lons latFill lonFill -> 0 < size -> Z.to_nat (maxVarSize0 src) <= fuel ->
  exists sts : list (FrameRead F (nat * NonoverlappingDistribution) * ObsSpace F),
    mapR (initFromObsSource (RD := roundrobin_reader size (F * F)) p src fuel)
      (map (fun rank => (rank, NonoverlappingDistribution_new)) (seq 0 size)) = Ok sts /\
    let L := map (fun s => indx_ (tally_ s.1)) sts in
    DistContract (Nonoverlapping_dist (RoundRobin_isMyRecord size)
      (Nonoverlapping_computePatchLocs (map (fun s => (dist_ (tally_ s.1)).2) sts))) L (concat L) /\
    concat L ≡ₚ kept.
Proof.
  intros Hsrc Hs Hf. set (recs := map (fun '(loc, rec) => (rec, loc)) numbered).
  set (isMy := RoundRobin_isMyRecord size).
  set (fin := fun rank => (rank, foldl (fun s '(rec, loc) => Nonoverlapping_assignRecord (isMy rank) s rec loc)
    NonoverlappingDistribution_new recs)).
  destruct (ranks_read_ok (RD := roundrobin_reader size (F * F)) (RL := roundrobin_reader_laws size (F * F)) p src m nlocs ts lats lons latFill lonFill Hsrc
    (map (fun rank => (rank, NonoverlappingDistribution_new)) (seq 0 size)) (map fin (seq 0 size)) fuel) as (sts & Hr & Hd & Hx); [|done|].
  { apply Forall2_fmap_2, Forall_Forall2_diag, list.Forall_forall. intros rank _. apply roundrobin_assign. }
  exists sts. split; [exact Hr|]. rewrite Hx. apply (f_equal (map snd)) in Hd. rewrite !map_map in *. rewrite Hd.
  assert (Hlocs : map snd recs = kept).
  { rewrite <-(numbered_locs p src nlocs ts lats lons latFill lonFill). unfold recs. rewrite map_map. apply map_ext. by intros []. }
  destruct (assign_all_contract isMy size recs (roundrobin_partitions size Hs) Hs) as [H1 H2].
  { rewrite Hlocs. apply StronglySorted_lt_NoDup, kept_sorted. }
  rewrite Hlocs in H2.
  assert (EL : map (held isMy recs) (seq 0 size) = map (fun rank => (List.filter (fun x => isMy rank x.2) numbered).*1) (seq 0 size))
    by (apply map_ext; intros; apply held_swap).
  rewrite EL in H1, H2. by split.
Qed.

(** C1: Every rank of a Halo distribution reads the source.  No rank fails,
    [computePatchLocs] succeeds on the objects the readers leave, and they keep
    the contract of a distribution for the [indx_] of the ObsSpaces, so each
    location held by any rank is a patch observation of exactly one. *)
Theorem halo_obsspaces {R} `{DL : DoubleLaws R} (distance : F * F -> F * F -> R) (cfgs : list (R * (F * F))) (fuel : nat) :
  source_ok p src m nlocs ts lats lons latFill lonFill -> Z.to_nat (maxVarSize0 src) <= fuel ->
  cfgs <> [] -> Forall (fun cfg => d_ltb cfg.1 d_inf = true) cfgs ->
  exists sts ss P,
    mapR (initFromObsSource (RD := halo_reader distance) p src fuel)
      (map (fun cfg => Halo_new cfg.1 cfg.2) cfgs) = Ok sts /\
    Halo_computePatchLocs (map (fun s => dist_ (tally_ s.1)) sts) = Ok ss /\
    DistContract (Halo_dist ss) (map (fun s => indx_ (tally_ s.1)) sts) P.
Proof.
  intros Hsrc Hf Hne Hr. set (fin := fun cfg => Halo_assign_all distance (Halo_new cfg.1 cfg.2) located).
  destruct (ranks_read_ok (RD := halo_reader distance) (RL := halo_reader_laws distance) p src m nlocs ts lats lons latFill lonFill Hsrc
    (map (fun cfg => Halo_new cfg.1 cfg.2) cfgs) (map fin cfgs) fuel) as (sts & Hs & Hd & Hx); [|done|].
  { apply Forall2_fmap_2, Forall_Forall2_diag, list.Forall_forall. intros cfg _. unfold fin, Halo_assign_all, ObsSpaceSource.located, assign_numbered.
    generalize (Halo_new cfg.1 cfg.2). induction numbered as [|[loc rec] l IH]; intros s; simpl; [done|apply IH]. }
  destruct (halo_run_contract distance cfgs located Hne Hr) as (ss & P & Hrun & HP).
  { apply located_sorted. }
  exists sts, ss, P. rewrite Hd, Hx. split_and!; [done|exact Hrun|]. rewrite map_map.
  erewrite map_ext; [exact HP|]. intros cfg.
  etrans; [exact (located_filter p src nlocs ts lats lons latFill lonFill (fun rec => Halo_isMyRecord (fin cfg) rec))|].
  unfold halo_held. f_equal. apply List.filter_ext. intros x. unfold Halo_isMyRecord. apply bool_decide_ext.
  apply (as_in _ _ _ _ (assign_all_new distance cfg located)).
Qed.

Lemma imap_pair_snd {A B} (l : list (A * B)) : map (fun d : nat * (A * B) => d.2.2) (imap pair l) = map snd l.
Proof. apply list_eq. intros i. rewrite !list_lookup_fmap, list_lookup_imap. by destruct (l !! i). Qed.

Lemma atlas_assign locator rank s :
  Atlas_assign_all locator rank located = Ok s ->
  @assign_numbered F (nat * AtlasDistribution) FO (atlas_reader locator) lats lons
    (rank, (RecordAssigner_new, NonoverlappingDistribution_new)) numbered = Ok (rank, s).
Proof.
  unfold Atlas_assign_all, ObsSpaceSource.located, assign_numbered. generalize (RecordAssigner_new, NonoverlappingDistribution_new).
  induction numbered as [|[loc rec] l IH]; intros s0; cbn [map foldM]; [by intros [= ->]|].
  cbn [rd_assignRecord atlas_reader fst snd].
  destruct (Atlas_assignRecord locator rank s0 rec loc (point lats lons loc)) as [s1|]; cbn [mbind res_bind]; [apply IH|done].
Qed.

(** Every rank of an AtlasDistribution reads the source, the locator putting
    every point in the domain of a rank.  The reader numbers the records the way
    AtlasDistribution asserts it, so no rank fails; each location inside the
    window is in exactly one [indx_], and the distribution keeps its contract for
    these ObsSpaces. *)
Theorem atlas_obsspaces (locator : F * F -> Z) (size fuel : nat) :
  source_ok p src m nlocs ts lats lons latFill lonFill -> Z.to_nat (maxVarSize0 src) <= fuel ->
  0 < size -> (forall pt, (0 <= locator pt < Z.of_nat size)%Z) ->
  exists sts : list (FrameRead F (nat * AtlasDistribution) * ObsSpace F),
    mapR (initFromObsSource (RD := atlas_reader locator) p src fuel)
      (map (fun rank => (rank, (RecordAssigner_new, NonoverlappingDistribution_new))) (seq 0 size)) = Ok sts /\
    let L := map (fun s => indx_ (tally_ s.1)) sts in
    DistContract (Nonoverlapping_dist (Atlas_isMy locator located)
      (Nonoverlapping_computePatchLocs (map (fun s => (dist_ (tally_ s.1)).2.2) sts))) L (concat L) /\
    concat L ≡ₚ kept.
Proof.
  intros Hsrc Hf Hs Hloc.
  destruct (atlas_run_contract locator size located Hs Hloc) as (ss & Hrun & Hmy & Hc & Hperm).
  { apply located_consecutive. }
  { apply StronglySorted_lt_NoDup, located_sorted. }
  rewrite located_locs in Hperm. unfold Atlas_run in Hrun. apply imapR_Ok_lookup in Hrun as [Hlen Hrun]. rewrite length_replicate in Hlen.
  assert (Hss : forall rank s, ss !! rank = Some s -> Atlas_assign_all locator rank located = Ok s).
  { intros rank s Hr. destruct (Hrun rank ()) as (s' & Hs' & Ha); [|by simplify_eq].
    apply lookup_replicate_2. rewrite <-Hlen. by eapply lookup_lt_Some. }
  destruct (ranks_read_ok (RD := atlas_reader locator) (RL := atlas_reader_laws locator) p src m nlocs ts lats lons latFill lonFill Hsrc
    (map (fun rank => (rank, (RecordAssigner_new, NonoverlappingDistribution_new))) (seq 0 size)) (imap pair ss) fuel)
    as (sts & Hr & Hd & Hx); [|done|].
  { apply Forall2_same_length_lookup_2; [by rewrite length_map, length_seq, length_imap|].
    intros rank d0 d H0 H1. rewrite list_lookup_fmap in H0. apply list_lookup_imap_Some in H1 as (s & H1 & ->).
    apply lookup_lt_Some in H1 as Hlt. rewrite lookup_seq_lt in H0 by lia. injection H0 as <-. apply atlas_assign, Hss, H1. }
  exists sts. split; [exact Hr|]. cbv zeta. rewrite Hx.
  assert (E1 : map (fun s => (dist_ (tally_ s.1)).2.2) sts = map snd ss).
  { transitivity (map (fun d : nat * AtlasDistribution => d.2.2) (imap pair ss)); [by rewrite <-Hd, map_map|].
    apply imap_pair_snd. }
  assert (E2 : map (fun d : nat * AtlasDistribution => (List.filter (fun x => @rd_isMyRecord _ (F * F) (atlas_reader locator) d x.2) numbered).*1)
      (imap pair ss) =
    map (held (Atlas_isMy locator located) (map fst located)) (seq 0 size)).
  { apply list_eq_same_length with size; rewrite ?length_map, ?length_imap, ?length_seq; [done..|]. intros i x y Hi H1 H2.
    rewrite list_lookup_fmap, list_lookup_imap in H1. rewrite list_lookup_fmap, lookup_seq_lt in H2 by done.
    destruct (ss !! i) as [s|] eqn:Es; simplify_eq/=. etrans; [apply (located_filter p src nlocs ts lats lons latFill lonFill (Atlas_isMyRecord s))|].
    rewrite (List.filter_ext _ (fun x => Atlas_isMy locator located i x.1.1)) by (intros; by apply Hmy).
    unfold held. generalize (Atlas_isMy locator located i). intros f. clear.
    induction located as [|[[rec loc] pt] l IH]; simpl; [done|]. destruct (f rec); simpl; [f_equal|]; exact IH. }
  rewrite E2. split; [|done]. match goal with |- context [Nonoverlapping_computePatchLocs ?l] => assert (l = map snd ss) as -> by exact E1 end. exact Hc.
Qed.
End obsspaces.

(** * An example source

    Five locations in three records by station, three channels; the last location
    is outside the window, and one brightness temperature has the fill value of
    its variable. *)
Module Sample.

#[export] Instance FloatOps_Z : FloatOps Z := {|
  f_zero := 0%Z; f_eqb := Z.eqb; f_isinf _ := false; f_isnan _ := false; f_to_string z := pretty z;
  f_hours_to_seconds z := (z * 3600)%Z |}.
#[export] Instance DateTimeOps_Z : DateTimeOps Z := {|
  dt_of_string _ := Ok 0%Z; dt_add := Z.add; dt_diff := Z.sub; dt_ltb := Z.ltb; dt_leb := Z.leb; dt_missing := (-1)%Z |}.
#[export] Instance MissingValues_Z : MissingValues Z := {|
  missing_int := (-99)%Z; missing_int64 := (-99)%Z; missing_float := (-99)%Z; missing_string := "missing"; missing_char := 0%Z |}.

Definition variable (t : OType) (dims : list Z) (data : list (Val Z)) (fill : option (Val Z)) : ObsVariable (Val Z) :=
  {| dimensions_ := dims; max_dimensions_ := dims; dtype_ := t; fvdata_ := fill;
     var_data_ := {| var_attr_data_ := data; num_elements_ := 1 |}; dim_scales_ := []; is_scale_ := false;
     scale_name_ := ""; atts := Named_empty; impl_atts := Named_empty |}.

Definition times : list Z := [10; 20; 30; 40; 500]%Z.
Definition lats : list Z := [1; 2; 3; 4; 5]%Z.
Definition lons : list Z := [6; 7; 8; 9; 10]%Z.

Definition variables (lats : list Z) (latFill : option Z) : list (string * FrameVar Z) := [
  ("MetaData/dateTime", {| fv_dims := ["Location"]; fv_var := variable int64_t [5%Z] (map VInt64 times) None |});
  ("MetaData/latitude", {| fv_dims := ["Location"]; fv_var := variable float_t [5%Z] (map VFloat lats) (VFloat <$> latFill) |});
  ("MetaData/longitude", {| fv_dims := ["Location"]; fv_var := variable float_t [5%Z] (map VFloat lons) (Some (VFloat 1000%Z)) |});
  ("MetaData/station", {| fv_dims := ["Location"]; fv_var := variable string_t [5%Z] (map VString ["a"; "b"; "a"; "c"; "a"]) None |});
  ("MetaData/frequency", {| fv_dims := ["Channel"]; fv_var := variable float_t [3%Z] (map VFloat [100; 200; 300]%Z) None |});
  ("ObsValue/brightnessTemperature", {| fv_dims := ["Location"; "Channel"]; fv_var := variable float_t [5; 3]%Z
    (map VFloat [11; 12; 13; 21; 22; 23; 31; 32; 33; 41; 42; 43; 51; 52; 53]%Z) (Some (VFloat 32%Z)) |})].

Definition source (lats : list Z) (latFill : option Z) : ObsGroup Z := {|
  g_dim_names := ["Location"; "Channel"]; g_dims := list_to_map [("Location", (5, 5)%Z); ("Channel", (3, 3)%Z)];
  g_names := (variables lats latFill).*1; g_vars := list_to_map (variables lats latFill) |}.

(** The window is (0, 100]. *)
Definition params (m : nat) : ReadParams Z :=
  {| windowStart := 0%Z; windowEnd := 100%Z; frame_epoch := 0%Z; applyLocationsCheck := true;
     max_frame_size_ := Z.of_nat m; obs_grouping_vars_ := ["station"] |}.

Lemma variable_array t (n : nat) rest data fill :
  ty_num_elements t = 1 -> shape n rest -> Z.of_nat (length data) = size_product (Z.of_nat n :: rest) ->
  array (variable t (Z.of_nat n :: rest) data fill) n rest data.
Proof.
  intros Ht Hs Hl. split; try done. split; simpl; [lia|done|]. intros i mx k H1 H2. simplify_eq. lia.
Qed.

Lemma shape_check n rest : forallb (fun d => 0 <? d)%Z rest = true -> (Z.of_nat n * prodZ rest <? 2 ^ 31)%Z = true ->
  (prodZ rest <? 2 ^ 31)%Z = true -> shape n rest.
Proof.
  intros H1 H2 H3. split; [|lia..]. apply list.Forall_forall. intros d Hd. rewrite forallb_forall in H1.
  apply list_elem_of_In, H1 in Hd. lia.
Qed.

Lemma list_to_map_keys {A} (l : list (string * A)) name : name ∈ l.*1 <-> is_Some ((list_to_map l : gmap string A) !! name).
Proof.
  rewrite <-not_eq_None_Some, <-not_elem_of_list_to_map. destruct (decide (name ∈ l.*1)); tauto.
Qed.

(** The checks of one variable. *)
Lemma variable_ok m lats latFill dims t (n : nat) rest data fill :
  let src := source lats latFill in let fv := {| fv_dims := dims; fv_var := variable t (Z.of_nat n :: rest) data fill |} in
  supported t -> shape n rest -> Z.of_nat (length data) = size_product (Z.of_nat n :: rest) -> length data = n * row_size rest ->
  (exists d0 ds mx, dims = d0 :: ds /\ g_dims src !! d0 = Some (Z.of_nat n, mx) /\
    Forall2 (fun d z => exists mx, g_dims src !! d = Some (z, mx) /\ d <> "Location" /\
      (d = "Channel" \/ (z <= max_frame_size_ (params m))%Z)) ds rest) ->
  let c := var_col fv in array (fv_var fv) (col_n c) (col_rest c) (col_data c) /\ col_ok (params m) src c.
Proof.
  intros src fv Ht Hs Hl Hr Hd c. assert (En : col_n c = n) by (unfold c; simpl; lia). rewrite En. split.
  - apply variable_array; [|done..]. by destruct (supported_store t Ht) as (e & _ & ?).
  - split; rewrite ?En; done.
Qed.

(** An unset fill value reads as 0. *)
Lemma source_is_ok m lats latFill :
  0 < m -> length lats = 5 ->
  source_ok (params m) (source lats latFill) m 5 times lats lons (default 0%Z latFill) 1000%Z.
Proof.
  intros Hm Hlen. split; cbn [g_names g_vars g_dims g_dim_names source max_frame_size_ params obs_grouping_vars_].
  - done.
  - done.
  - apply (bool_decide_unpack _). vm_compute. exact I.
  - intros name. apply list_to_map_keys.
  - intros name Hn. apply not_elem_of_list_to_map. intros Hd. revert Hn. simpl in Hd.
    rewrite !elem_of_cons, elem_of_nil in Hd. destruct Hd as [->|[->|[]]]; apply (bool_decide_unpack _); vm_compute; exact I.
  - intros d. apply (list_to_map_keys [("Location", (5, 5)%Z); ("Channel", (3, 3)%Z)]).
  - eexists. reflexivity.
  - intros name fv Hfv. apply elem_of_list_to_map_2 in Hfv. unfold variables in Hfv. rewrite !elem_of_cons, elem_of_nil in Hfv.
    destruct Hfv as [H|[H|[H|[H|[H|[H|[]]]]]]]; injection H as _ ->.
    1,2,3,4: apply (variable_ok m _ _ ["Location"] _ 5 []).
    21: apply (variable_ok m _ _ ["Channel"] _ 3 []).
    26: apply (variable_ok m _ _ ["Location"; "Channel"] _ 5 [3%Z]).
    all: try (unfold supported; rewrite !elem_of_cons; tauto).
    all: try (apply shape_check; reflexivity).
    all: try reflexivity.
    all: try (rewrite length_map, Hlen; reflexivity).
    all: do 3 eexists; split_and!; [reflexivity..|].
    all: first [by apply Forall2_nil|constructor; [|by apply Forall2_nil]; eexists; split_and!; [reflexivity|done|by left]].
  - eexists. split; [split_and!; reflexivity|by destruct latFill].
  - eexists. split; [split_and!; reflexivity|reflexivity].
  - left. split; [reflexivity|]. eexists. split_and!; reflexivity.
  - intros v Hv. apply list_elem_of_singleton in Hv as ->. eexists. split; reflexivity.
Qed.

Definition rank0 : nat * NonoverlappingDistribution := (0, NonoverlappingDistribution_new).
Definition rank1 : nat * NonoverlappingDistribution := (1, NonoverlappingDistribution_new).
Definition src : ObsGroup Z := source lats (Some 1000%Z).
Definition read (m : nat) (d : nat * NonoverlappingDistribution) :=
  @initFromObsSource Z Z _ FloatOps_Z DateTimeOps_Z MissingValues_Z (roundrobin_reader 2 (Z * Z)) (params m) src 5 d.

(** Rank 0 of 2 reads frames of two locations: station a (locations 0 and 2) is
    its record 0, station c (location 3) its record 2. *)
Lemma reader_tally_witness :
  exists st os, read 2 rank0 = Ok (st, os) /\
    let t := tally_ st in
    dist_ t = (0, {| numLocationsOnThisRank_ := 3; numLocationsOnLowerRanks_ := 0 |}) /\
    indx_ t = [0; 2; 3] /\ recnums_ t = [0; 0; 2] /\ nlocs_ t = 3%Z /\ gnlocs_ t = 4%Z /\
    gnlocs_outside_timewindow_ t = 1%Z /\ unique_rec_nums_ t = {[0; 2]} /\ nrecs_ t = 2%Z.
Proof.
  destruct (reader_tally (RD := roundrobin_reader 2 (Z * Z)) (params 2) src 2 5 times lats lons 1000%Z 1000%Z rank0
    (0, {| numLocationsOnThisRank_ := 3; numLocationsOnLowerRanks_ := 0 |}) [(0, 0); (2, 0); (3, 2)] 5)
    as (st & os & Hi & H1 & H2 & H3 & H4 & H5 & H6 & H7 & H8).
  - apply (source_is_ok 2 lats (Some 1000%Z)); [lia|reflexivity].
  - vm_compute. reflexivity.
  - vm_compute. lia.
  - exists st, os. split; [exact Hi|]. cbv zeta. split_and!.
    all: first [exact H1|exact H2|exact H3|exact H4|etrans; [eassumption|vm_compute; reflexivity]].
Defined.

(** Its brightness temperatures. *)
Lemma obsspace_contents_witness :
  exists st os, read 2 rank0 = Ok (st, os) /\
    exists fv, g_vars (obs_group_ os) !! "ObsValue/brightnessTemperature" = Some fv /\
      dimensions_ (fv_var fv) = [3; 3]%Z /\
      var_attr_data_ (var_data_ (fv_var fv)) = map VFloat [11; 12; 13; 31; -99; 33; 41; 42; 43]%Z.
Proof.
  destruct (obsspace_contents (RD := roundrobin_reader 2 (Z * Z)) (params 2) src 2 5 times lats lons 1000%Z 1000%Z rank0
    (0, {| numLocationsOnThisRank_ := 3; numLocationsOnLowerRanks_ := 0 |}) [(0, 0); (2, 0); (3, 2)] 5)
    as (st & os & Hi & Hv).
  - apply (source_is_ok 2 lats (Some 1000%Z)); [lia|reflexivity].
  - vm_compute. reflexivity.
  - vm_compute. lia.
  - exists st, os. split; [exact Hi|].
    destruct (Hv "ObsValue/brightnessTemperature" _ eq_refl eq_refl) as (fv & H1 & _ & _ & _ & H2 & H3).
    assert (Hx : indx_ (tally_ st) = [0; 2; 3]).
    { assert (E : match read 2 rank0 with Ok (st, _) => indx_ (tally_ st) | Throw _ => [] end = [0; 2; 3]) by (vm_compute; reflexivity).
      unfold read in E. rewrite Hi in E. exact E. }
    cbv zeta in H2, H3. rewrite Hx in H2, H3. exists fv. split; [exact H1|]. split; [exact H2|exact H3].
Defined.

Lemma records_are_groups_witness :
  exists st1 os1 st2 os2, read 2 rank0 = Ok (st1, os1) /\ read 2 rank1 = Ok (st2, os2) /\
    forall a b i j r1 r2, indx_ (tally_ st1) !! a = Some i -> recnums_ (tally_ st1) !! a = Some r1 ->
      indx_ (tally_ st2) !! b = Some j -> recnums_ (tally_ st2) !! b = Some r2 ->
      r1 = r2 <-> location_key (params 2) src 5 times i = location_key (params 2) src 5 times j.
Proof.
  unfold read. apply (records_are_groups (RD := roundrobin_reader 2 (Z * Z)) (params 2) src 2 5 times lats lons 1000%Z 1000%Z rank0 rank1
    (0, {| numLocationsOnThisRank_ := 3; numLocationsOnLowerRanks_ := 0 |})
    (1, {| numLocationsOnThisRank_ := 1; numLocationsOnLowerRanks_ := 0 |})
    [(0, 0); (2, 0); (3, 2)] [(1, 1)] 5).
  - apply (source_is_ok 2 lats (Some 1000%Z)); [lia|reflexivity].
  - discriminate.
  - vm_compute. reflexivity.
  - vm_compute. reflexivity.
  - vm_compute. lia.
Defined.

(** Frames of two locations, and one frame. *)
Lemma frame_size_irrelevant_witness :
  exists st1 os1 st2 os2, read 2 rank0 = Ok (st1, os1) /\ read 5 rank0 = Ok (st2, os2) /\ tally_ st1 = tally_ st2.
Proof.
  destruct (frame_size_irrelevant (RD := roundrobin_reader 2 (Z * Z)) (params 2) src 2 5 5 times lats lons 1000%Z 1000%Z rank0
    (0, {| numLocationsOnThisRank_ := 3; numLocationsOnLowerRanks_ := 0 |}) [(0, 0); (2, 0); (3, 2)] 5)
    as (st1 & os1 & st2 & os2 & H1 & H2 & H3 & _).
  - apply (source_is_ok 2 lats (Some 1000%Z)); [lia|reflexivity].
  - apply (source_is_ok 5 lats (Some 1000%Z)); [lia|reflexivity].
  - vm_compute. reflexivity.
  - vm_compute. lia.
  - exists st1, os1, st2, os2. split; [exact H1|]. split; [exact H2|exact H3].
Defined.

Lemma roundrobin_obsspaces_witness :
  exists sts, mapR (read 2) [rank0; rank1] = Ok sts /\
    let L := map (fun s => indx_ (tally_ s.1)) sts in
    @DistContract nat (@Nonoverlapping_dist reference_comm (RoundRobin_isMyRecord 2)
      (@Nonoverlapping_computePatchLocs reference_comm (map (fun s => (dist_ (tally_ s.1)).2) sts))) L (concat L) /\
    concat L ≡ₚ [0; 1; 2; 3].
Proof.
  replace [0; 1; 2; 3] with (kept (params 2) times lats lons 1000%Z 1000%Z 0 5) by (vm_compute; reflexivity).
  unfold read. apply (roundrobin_obsspaces (ML := reference_laws) (params 2) src 2 5 times lats lons 1000%Z 1000%Z 2 5).
  - apply (source_is_ok 2 lats (Some 1000%Z)); [lia|reflexivity].
  - lia.
  - vm_compute. lia.
Defined.

(** Two ranks centred at the first and at the last point. *)
Lemma halo_obsspaces_witness :
  let distance (a b : Z * Z) := Some (Z.abs (a.1 - b.1)) in
  let cfgs := [(Some 2%Z, (6, 1)%Z); (Some 2%Z, (9, 4)%Z)] in
  exists sts ss P,
    mapR (@initFromObsSource Z Z _ FloatOps_Z DateTimeOps_Z MissingValues_Z (halo_reader distance) (params 2) src 5)
      (map (fun cfg => Halo_new cfg.1 cfg.2) cfgs) = Ok sts /\
    @Halo_computePatchLocs reference_comm (option Z) (Z * Z) _ (map (fun s => dist_ (tally_ s.1)) sts) = Ok ss /\
    @DistContract nat (@Halo_dist reference_comm (option Z) (Z * Z) ss) (map (fun s => indx_ (tally_ s.1)) sts) P.
Proof.
  intros distance cfgs.
  apply (halo_obsspaces (ML := reference_laws) (params 2) src 2 5 times lats lons 1000%Z 1000%Z distance cfgs 5).
  - apply (source_is_ok 2 lats (Some 1000%Z)); [lia|reflexivity].
  - vm_compute. lia.
  - discriminate.
  - repeat constructor.
Defined.

(** Two ranks split the points at longitude 8. *)
Lemma atlas_obsspaces_witness :
  let locator (pt : Z * Z) := if (pt.1 <? 8)%Z then 0%Z else 1%Z in
  exists sts,
    mapR (@initFromObsSource Z Z _ FloatOps_Z DateTimeOps_Z MissingValues_Z (atlas_reader locator) (params 2) src 5)
      (map (fun rank => (rank, (RecordAssigner_new, NonoverlappingDistribution_new))) (seq 0 2)) = Ok sts /\
    let L := map (fun s => indx_ (tally_ s.1)) sts in
    @DistContract nat (@Nonoverlapping_dist reference_comm
        (Atlas_isMy locator (located (params 2) src 5 times lats lons 1000%Z 1000%Z))
      (@Nonoverlapping_computePatchLocs reference_comm (map (fun s => (dist_ (tally_ s.1)).2.2) sts))) L (concat L) /\
    concat L ≡ₚ kept (params 2) times lats lons 1000%Z 1000%Z 0 5.
Proof.
  intros locator.
  apply (atlas_obsspaces (ML := reference_laws) (params 2) src 2 5 times lats lons 1000%Z 1000%Z locator 2 5).
  - apply (source_is_ok 2 lats (Some 1000%Z)); [lia|reflexivity].
  - vm_compute. lia.
  - lia.
  - intros pt. unfold locator. destruct (pt.1 <? 8)%Z; lia.
Defined.

(** Location 2 is on the equator. *)
Lemma unset_fill_drops_equator_witness :
  let lats := [1; 2; 0; 4; 5]%Z in let src := source lats None in
  exists st os, @initFromObsSource Z Z _ FloatOps_Z DateTimeOps_Z MissingValues_Z (roundrobin_reader 1 (Z * Z)) (params 2) src 5 rank0 = Ok (st, os) /\
    2 ∉ indx_ (tally_ st).
Proof.
  intros lats src.
  destruct (unset_fill_drops_equator (RD := roundrobin_reader 1 (Z * Z)) (params 2) src 2 5 times lats lons 0%Z 1000%Z rank0
    (0, {| numLocationsOnThisRank_ := 3; numLocationsOnLowerRanks_ := 0 |}) [(0, 0); (1, 1); (3, 2)] 5
    {| fv_dims := ["Location"]; fv_var := variable float_t [5%Z] (map VFloat lats) None |}) as (st & os & H1 & H2).
  - apply (source_is_ok 2 lats None); [lia|reflexivity].
  - reflexivity.
  - reflexivity.
  - reflexivity.
  - vm_compute. reflexivity.
  - vm_compute. lia.
  - exists st, os. split; [exact H1|]. apply (H2 2 0%Z); reflexivity.
Defined.

(** A source with two locations at two sites. *)
Definition sites (station site : list string) : ObsGroup Z :=
  let vars := [
    ("MetaData/dateTime", {| fv_dims := ["Location"]; fv_var := variable int64_t [2%Z] (map VInt64 [10; 20]%Z) None |});
    ("MetaData/latitude", {| fv_dims := ["Location"]; fv_var := variable float_t [2%Z] (map VFloat [1; 2]%Z) None |});
    ("MetaData/longitude", {| fv_dims := ["Location"]; fv_var := variable float_t [2%Z] (map VFloat [1; 2]%Z) None |});
    ("MetaData/station", {| fv_dims := ["Location"]; fv_var := variable string_t [2%Z] (map VString station) None |});
    ("MetaData/site", {| fv_dims := ["Location"]; fv_var := variable string_t [2%Z] (map VString site) None |})] in
  {| g_dim_names := ["Location"]; g_dims := {[ "Location" := (2, 2)%Z ]}; g_names := vars.*1; g_vars := list_to_map vars |}.

Definition site_records (station site : list string) : res (list nat) :=
  '(st, _) ← @initFromObsSource Z Z _ FloatOps_Z DateTimeOps_Z MissingValues_Z (roundrobin_reader 1 (Z * Z))
    {| windowStart := 0%Z; windowEnd := 100%Z; frame_epoch := 0%Z; applyLocationsCheck := true; max_frame_size_ := 10%Z;
       obs_grouping_vars_ := ["station"; "site"] |} (sites station site) 2 rank0;
  Ok (recnums_ (tally_ st)).

(** The key joins the values of the grouping variables with a colon, which
    strings may contain, so two locations that differ in both grouping variables
    can end up in one record. *)
Theorem grouping_keys_collide :
  site_records ["a"; "x"] ["b"; "y"] = Ok [0; 1] /\ site_records ["a"; "a:b"] ["b:c"; "c"] = Ok [0; 0].
Proof. split; vm_compute; reflexivity. Qed.

(** A source without locations and variables. *)
Definition empty_source (dims : list (string * (Z * Z))) : ObsGroup Z :=
  {| g_dim_names := dims.*1; g_dims := list_to_map dims; g_names := []; g_vars := ∅ |}.

Definition read_empty (dims : list (string * (Z * Z))) : res (list nat) :=
  '(st, _) ← @initFromObsSource Z Z _ FloatOps_Z DateTimeOps_Z MissingValues_Z (roundrobin_reader 1 (Z * Z))
    (params 10) (empty_source dims) 5 rank0;
  Ok (indx_ (tally_ st)).

(** A source without locations may have no variables, the constructor says,
    and this works when Location is the only dimension; with a Channel dimension
    of positive size a frame is thought to be available, and reading it throws. *)
Theorem empty_source_with_channels_throws :
  read_empty [("Location", (0, 0)%Z)] = Ok [] /\
  read_empty [("Location", (0, 0)%Z); ("Channel", (3, 3)%Z)] = Throw (EException "variable does not exist").
Proof. split; vm_compute; reflexivity. Qed.
End Sample.
