(* ===== verification/ObsRecords.v ===== *)
(** The records of an ObsSpace: the index from records to locations, sorted or
    not, and the queries on it ([buildSortedObsGroups], [buildRecIdxUnsorted],
    [recidx_*] of src/src/ObsSpace.cc), and the filling of companion records
    ([extendVariable]). *)
From stdpp Require Import base list gmap strings sorting pretty.
From Stdlib Require Import ZArith.
From S2P Require Import Prelude ObsFrameRead.

(** The treatment of missing sort values in the configuration. *)
Inductive MissingSortValueTreatment := SORT | NO_SORT | IGNORE_MISSING.

#[export] Instance MissingSortValueTreatment_eq_dec : EqDecision MissingSortValueTreatment.
Proof. solve_decision. Defined.

(** [<] on floats. *)
Class FloatOrder (F : Type) := f_ltb : F -> F -> bool.

(** [map[r].push_back(x)] on a map of vectors. *)
Definition push {A} (r : nat) (x : A) (m : gmap nat (list A)) : gmap nat (list A) :=
  <[r := default [] (m !! r) ++ [x]]> m.

(** [std::sort] with a comparison [lt]: a permutation in which no element is
    less than one before it. *)
Definition not_after {A} (lt : A -> A -> bool) : relation A := fun x y => lt y x = false.

#[export] Instance not_after_dec {A} (lt : A -> A -> bool) : RelDecision (not_after lt).
Proof. intros x y. unfold not_after. apply _. Defined.

Definition std_sort {A} (lt : A -> A -> bool) (l : list A) : list A := merge_sort (not_after lt) l.

Notation RecIdxMap := (gmap nat (list nat)).

(** [buildRecIdxUnsorted] *)
Definition buildRecIdxUnsorted (nLocs : nat) (recnums_ : list nat) (recidx_ : RecIdxMap) : res RecIdxMap :=
  foldM (fun recidx iloc => r ← vec_get recnums_ iloc; Ok (push r iloc recidx)) recidx_ (seq 0 nLocs).

Section sorted.
Context {F : Type} `{FO : FloatOps F} `{FL : FloatOrder F}.

(** The comparison of pairs, and the lambda for the descending order. *)
Definition pair_ltb (p1 p2 : F * nat) : bool :=
  f_ltb p1.1 p2.1 || (negb (f_ltb p2.1 p1.1) && (p1.2 <? p2.2)).
Definition descending_ltb (p1 p2 : F * nat) : bool :=
  f_ltb p2.1 p1.1 || (negb (f_ltb p1.1 p2.1) && (p1.2 <? p2.2)).

(** The sort values as floats with their missing flags, when the sort variable
    is a float. *)
Definition sort_flags (missingFloat : F) (SortValues : list F) : list bool :=
  map (fun v => f_eqb v missingFloat) SortValues.

Record SortState := {
  TmpRecIdx : gmap nat (list (F * nat));
  TmpRecIdx_missing : gmap nat (list nat);
  sortValueMissingInRecord : gmap nat (list bool);
  recordContainsAtLeastOneMissingSortValue : gset nat
}.

Definition SortState_new : SortState :=
  {| TmpRecIdx := ∅; TmpRecIdx_missing := ∅; sortValueMissingInRecord := ∅;
     recordContainsAtLeastOneMissingSortValue := ∅ |}.

(** One location in the loop that collects the records. *)
Definition sort_collect (treatment : MissingSortValueTreatment) (recnums_ : list nat) (SortValues : list F)
    (sortValueMissing : list bool) (s : SortState) (iloc : nat) : res SortState :=
  recnum ← vec_get recnums_ iloc;
  v ← vec_get SortValues iloc;
  missing ← vec_get sortValueMissing iloc;
  Ok match treatment with
  | SORT =>
      {| TmpRecIdx := push recnum (v, iloc) (TmpRecIdx s); TmpRecIdx_missing := TmpRecIdx_missing s;
         sortValueMissingInRecord := sortValueMissingInRecord s;
         recordContainsAtLeastOneMissingSortValue := recordContainsAtLeastOneMissingSortValue s |}
  | NO_SORT =>
      {| TmpRecIdx := push recnum (v, iloc) (TmpRecIdx s); TmpRecIdx_missing := TmpRecIdx_missing s;
         sortValueMissingInRecord := sortValueMissingInRecord s;
         recordContainsAtLeastOneMissingSortValue :=
           if (missing : bool) then {[recnum]} ∪ recordContainsAtLeastOneMissingSortValue s
           else recordContainsAtLeastOneMissingSortValue s |}
  | IGNORE_MISSING =>
      if (missing : bool) then
        {| TmpRecIdx := TmpRecIdx s; TmpRecIdx_missing := push recnum iloc (TmpRecIdx_missing s);
           sortValueMissingInRecord := push recnum true (sortValueMissingInRecord s);
           recordContainsAtLeastOneMissingSortValue := recordContainsAtLeastOneMissingSortValue s |}
      else
        {| TmpRecIdx := push recnum (v, iloc) (TmpRecIdx s); TmpRecIdx_missing := TmpRecIdx_missing s;
           sortValueMissingInRecord := push recnum false (sortValueMissingInRecord s);
           recordContainsAtLeastOneMissingSortValue := recordContainsAtLeastOneMissingSortValue s |}
  end.

(** The sort of one record. *)
Definition sort_record (treatment : MissingSortValueTreatment) (ascending : bool) (s : SortState)
    (recnum : nat) (l : list (F * nat)) : list (F * nat) :=
  if bool_decide (treatment = NO_SORT) && bool_decide (recnum ∈ recordContainsAtLeastOneMissingSortValue s)
  then l else if ascending then std_sort pair_ltb l else std_sort descending_ltb l.

(** The loop that puts missing and present locations back in their places. *)
Definition merge_step (locations_missing locations_present : list nat) (s : list nat * nat * nat) (missing : bool)
  : res (list nat * nat * nat) :=
  let '(out, count_present, count_missing) := s in
  if missing then
    x ← vec_get locations_missing count_missing; Ok (out ++ [x], count_present, S count_missing)
  else
    x ← vec_get locations_present count_present; Ok (out ++ [x], S count_present, count_missing).

(** The copy of one record to [recidx_]. *)
Definition copy_record (treatment : MissingSortValueTreatment) (s : SortState) (recnum : nat) (l : list (F * nat))
  : res (list nat) :=
  match treatment with
  | SORT | NO_SORT => Ok (map snd l)
  | IGNORE_MISSING =>
      '(out, _, _) ← foldM (merge_step (default [] (TmpRecIdx_missing s !! recnum)) (map snd l)) ([], 0, 0)
        (default [] (sortValueMissingInRecord s !! recnum));
      Ok out
  end.

(** [buildSortedObsGroups], from the sort values on. *)
Definition buildSortedObsGroups (treatment : MissingSortValueTreatment) (ascending : bool) (nLocs : nat)
    (recnums_ : list nat) (SortValues : list F) (sortValueMissing : list bool) (recidx_ : RecIdxMap) : res RecIdxMap :=
  s ← foldM (sort_collect treatment recnums_ SortValues sortValueMissing) SortState_new (seq 0 nLocs);
  foldM (fun recidx '(recnum, l) =>
      v ← copy_record treatment s recnum (sort_record treatment ascending s recnum l);
      Ok (<[recnum := v]> recidx)) recidx_ (map_to_list (TmpRecIdx s)).
End sorted.

(** ** Queries *)

Definition recidx_has (recidx_ : RecIdxMap) (recNum : nat) : bool := bool_decide (is_Some (recidx_ !! recNum)).

Definition recidx_vector (recidx_ : RecIdxMap) (recNum : nat) : res (list nat) :=
  match recidx_ !! recNum with
  | Some l => Ok l
  | None => Throw (EException ("ObsSpace::recidx_vector: Record number, " +:+ pretty recNum +:+
      ", does not exist in record index map."))
  end.

(** A map is iterated in the order of its keys. *)
Definition map_keys (recidx_ : RecIdxMap) : list nat := merge_sort le (map_to_list recidx_).*1.

Definition recidx_all_recnums (nrecs_ : nat) (recidx_ : RecIdxMap) : res (list nat) :=
  '(RecNums, _) ← foldM (fun '(RecNums, recnum) r => RecNums ← vec_set RecNums recnum r; Ok (RecNums, S recnum))
    (replicate nrecs_ 0, 0) (map_keys recidx_);
  Ok RecNums.

(** ** Companion records *)

(** [extendVariable] on the values of a variable: the loop over the records in
    the order of their numbers, which stops at the first companion record.
    [recidx_[...]] adds an empty vector for a record that is not there. *)
Section extend.
Context {A : Type} (eqb : A -> A -> bool) (missing : A).

(** The first value of a record that is not missing. *)
Fixpoint first_present (varVals : list A) (jlocs : list nat) : res A :=
  match jlocs with
  | [] => Ok missing
  | jloc :: jlocs =>
      v ← vec_get varVals jloc;
      if negb (eqb v missing) then Ok v else first_present varVals jlocs
  end.

Definition fill_companion (fillValue : A) (varVals : list A) (jlocs : list nat) : res (list A) :=
  foldM (fun varVals jloc => vec_set varVals jloc fillValue) varVals jlocs.

Fixpoint extend_loop (upperBound : nat) (keys : list nat) (recidx_ : RecIdxMap) (varVals : list A)
  : res (list A * RecIdxMap) :=
  match keys with
  | [] => Ok (varVals, recidx_)
  | r :: keys =>
      if upperBound <=? r then Ok (varVals, recidx_) else
      fillValue ← first_present varVals (default [] (recidx_ !! r));
      if negb (eqb fillValue missing) then
        let companion := default [] (recidx_ !! (r + upperBound)) in
        varVals ← fill_companion fillValue varVals companion;
        extend_loop upperBound keys (<[r + upperBound := companion]> recidx_) varVals
      else extend_loop upperBound keys recidx_ varVals
  end.

Definition extendVariable (upperBound : nat) (recidx_ : RecIdxMap) (varVals : list A) : res (list A * RecIdxMap) :=
  extend_loop upperBound (map_keys recidx_) recidx_ varVals.
End extend.

(** * Comparisons *)

(** What [std::sort] expects of a comparison. *)
Class StrictWeak {A} (lt : A -> A -> bool) : Prop := {
  sw_irrefl : forall x, lt x x = false;
  sw_trans : forall x y z, lt x y = true -> lt y z = true -> lt x z = true;
  sw_ntrans : forall x y z, lt x y = false -> lt y z = false -> lt x z = false
}.

Section order.
Context {A : Type} (lt : A -> A -> bool) `{!StrictWeak lt}.

Lemma sw_asym x y : lt x y = true -> lt y x = false.
Proof.
  intros H. destruct (lt y x) eqn:E; [|done]. pose proof (sw_trans _ _ _ H E) as Hx. by rewrite sw_irrefl in Hx.
Qed.

#[export] Instance not_after_total : Total (not_after lt).
Proof. intros x y. unfold not_after. destruct (lt y x) eqn:E; [|by left]. right. by apply sw_asym. Qed.

#[export] Instance not_after_trans : Transitive (not_after lt).
Proof. intros x y z H1 H2. unfold not_after in *. by eapply sw_ntrans. Qed.

Lemma std_sort_sorted l : StronglySorted (not_after lt) (std_sort lt l).
Proof. apply (StronglySorted_merge_sort _). Qed.

Lemma std_sort_perm l : std_sort lt l ≡ₚ l.
Proof. apply (merge_sort_Permutation _). Qed.

(** When no two elements are equivalent, the result is the only one. *)
Lemma std_sort_unique l l' :
  (forall x y, x ∈ l -> y ∈ l -> lt x y = false -> lt y x = false -> x = y) ->
  l' ≡ₚ l -> StronglySorted (not_after lt) l' -> l' = std_sort lt l.
Proof.
  intros Hu Hp Hs. apply (StronglySorted_unique_strong (not_after lt)).
  - intros x y Hx Hy H1 H2. rewrite Hp in Hx. rewrite std_sort_perm in Hy. by apply Hu.
  - done.
  - apply std_sort_sorted.
  - by rewrite std_sort_perm.
Qed.
End order.

(** Pairs are compared by the first components, then by the second. *)
Definition lex_ltb {F} (lt : F -> F -> bool) (p1 p2 : F * nat) : bool :=
  lt p1.1 p2.1 || (negb (lt p2.1 p1.1) && (p1.2 <? p2.2)).

Section lex.
Context {F : Type} (lt : F -> F -> bool) `{!StrictWeak lt}.

#[export] Instance flip_strict_weak : StrictWeak (flip lt).
Proof.
  split; unfold flip; [apply sw_irrefl|intros x y z H1 H2; by eapply sw_trans|intros x y z H1 H2; by eapply sw_ntrans].
Qed.

Lemma lex_false p q : lex_ltb lt p q = false <-> lt p.1 q.1 = false /\ (lt q.1 p.1 = true \/ q.2 <= p.2).
Proof.
  unfold lex_ltb. rewrite orb_false_iff, andb_false_iff, negb_false_iff, Nat.ltb_ge. tauto.
Qed.

Lemma lex_true p q : lex_ltb lt p q = true <-> lt p.1 q.1 = true \/ (lt q.1 p.1 = false /\ p.2 < q.2).
Proof. unfold lex_ltb. rewrite orb_true_iff, andb_true_iff, negb_true_iff, Nat.ltb_lt. tauto. Qed.

#[export] Instance lex_strict_weak : StrictWeak (lex_ltb lt).
Proof.
  split.
  - intros [x i]. apply lex_false. simpl. split; [apply sw_irrefl|lia].
  - intros [x i] [y j] [z k]. rewrite !lex_true. simpl. intros [H1|[H1 H1']] [H2|[H2 H2']].
    + left. by eapply sw_trans.
    + left. destruct (lt x z) eqn:E; [done|]. pose proof (sw_ntrans _ _ _ E H2). congruence.
    + left. destruct (lt x z) eqn:E; [done|]. pose proof (sw_ntrans _ _ _ H1 E). congruence.
    + right. split; [by eapply sw_ntrans|lia].
  - intros [x i] [y j] [z k]. rewrite !lex_false. simpl. intros [H1 H1'] [H2 H2'].
    split; [by eapply sw_ntrans|]. destruct (lt z x) eqn:E; [by left|]. right.
    assert (lt y x = false) by (by eapply sw_ntrans). assert (lt z y = false) by (by eapply sw_ntrans).
    destruct H1' as [|], H2' as [|]; try congruence. lia.
Qed.

(** Pairs with the same index that are equivalent have the same index. *)
Lemma lex_distinct p q : lex_ltb lt p q = false -> lex_ltb lt q p = false -> p.2 = q.2.
Proof.
  rewrite !lex_false. intros [H1 H1'] [H2 H2']. destruct H1' as [|], H2' as [|]; try congruence. lia.
Qed.
End lex.

(** * Collecting records *)

(** A vector that is in a map only when it is not empty. *)
Definition opt_list {A} (l : list A) : option (list A) := match l with [] => None | _ => Some l end.

Lemma default_opt_list {A} (l : list A) : default [] (opt_list l) = l.
Proof. by destruct l. Qed.

Lemma opt_list_snoc {A} (l : list A) x : opt_list (l ++ [x]) = Some (l ++ [x]).
Proof. by destruct l. Qed.

Lemma push_lookup {A} (m : gmap nat (list A)) (L : nat -> list A) r0 x :
  (forall r, m !! r = opt_list (L r)) ->
  forall r, push r0 x m !! r = opt_list (L r ++ (if decide (r = r0) then [x] else [])).
Proof.
  intros Hm r. unfold push. rewrite Hm, default_opt_list. destruct (decide (r = r0)) as [->|Hne].
  - by rewrite lookup_insert_eq, opt_list_snoc.
  - by rewrite lookup_insert_ne, app_nil_r.
Qed.

(** Inserting what is computed from each entry of a map. *)
Lemma foldM_map_entries {A B} (f : nat -> A -> res B) (g : nat -> A -> B) (m : gmap nat A) (m0 : gmap nat B) :
  (forall k x, m !! k = Some x -> f k x = Ok (g k x)) ->
  exists m', foldM (fun acc '(k, x) => v ← f k x; Ok (<[k := v]> acc)) m0 (map_to_list m) = Ok m' /\
    forall k, m' !! k = match m !! k with Some x => Some (g k x) | None => m0 !! k end.
Proof.
  intros Hf. pose proof (NoDup_fst_map_to_list m) as Hnd.
  assert (Hl : forall k x, (k, x) ∈ map_to_list m <-> m !! k = Some x) by (intros; apply elem_of_map_to_list).
  assert (Hg : forall l (m0 : gmap nat B), NoDup l.*1 -> (forall k x, (k, x) ∈ l -> m !! k = Some x) ->
    exists m', foldM (fun acc '(k, x) => v ← f k x; Ok (<[k := v]> acc)) m0 l = Ok m' /\
      forall k, (forall x, (k, x) ∈ l -> m' !! k = Some (g k x)) /\ (k ∉ l.*1 -> m' !! k = m0 !! k)).
  { clear m0 Hnd Hl. intros l. induction l as [|[k x] l IH]; intros m0 Hnd Hl; cbn [foldM].
    - exists m0. split; [done|]. intros k. split; [by intros x ?%elem_of_nil|done].
    - rewrite (Hf k x) by (apply Hl; left). cbn [mbind res_bind]. apply NoDup_cons in Hnd as [Hk Hnd].
      destruct (IH (<[k := g k x]> m0) Hnd) as (m' & Hm & Hs); [intros; apply Hl; by right|].
      exists m'. split; [exact Hm|]. intros k'. destruct (Hs k') as [H1 H2]. split.
      + intros x' [E|Hx]%elem_of_cons; [|by apply H1]. injection E as -> ->. rewrite H2 by done. apply lookup_insert_eq.
      + intros [Hne Hk']%not_elem_of_cons. rewrite H2 by done. by apply lookup_insert_ne. }
  destruct (Hg (map_to_list m) m0 Hnd) as (m' & Hm & Hs); [intros k x; apply Hl|].
  exists m'. split; [done|]. intros k. destruct (Hs k) as [H1 H2]. destruct (m !! k) as [x|] eqn:E.
  - by apply H1, Hl.
  - apply H2. intros ((k' & x) & Ek & Hx)%list_elem_of_fmap. simpl in Ek. subst k'. apply Hl in Hx. congruence.
Qed.

Lemma List_NoDup_filter {A} (P : A -> bool) l : NoDup l -> NoDup (List.filter P l).
Proof. rewrite !NoDup_ListNoDup. apply List.NoDup_filter. Qed.

Section records.
Context (recnums : list nat) (n : nat).
Context (Hrec : length recnums = n).

(** The locations of a record, in order. *)
Definition in_record (r i : nat) : bool := match recnums !! i with Some r' => r' =? r | None => false end.
Definition locs (r : nat) : list nat := List.filter (in_record r) (seq 0 n).

Lemma recnum_at i : i < n -> exists r, recnums !! i = Some r.
Proof. intros Hi. apply lookup_lt_is_Some. lia. Qed.

Lemma filter_snoc_record (P : nat -> bool) don i r0 r :
  recnums !! i = Some r0 ->
  List.filter (fun i => in_record r i && P i) (don ++ [i]) =
  List.filter (fun i => in_record r i && P i) don ++ (if decide (r = r0) then if P i then [i] else [] else []).
Proof.
  intros Hi. rewrite List.filter_app. f_equal. simpl. unfold in_record. rewrite Hi.
  destruct (decide (r = r0)) as [->|Hne]; [by rewrite Nat.eqb_refl|].
  by rewrite (proj2 (Nat.eqb_neq r0 r)) by congruence.
Qed.

Lemma filter_and_true (f : nat -> bool) l : List.filter (fun i => f i && true) l = List.filter f l.
Proof. apply List.filter_ext. intros i. apply andb_true_r. Qed.

Lemma elem_of_locs r i : i ∈ locs r <-> recnums !! i = Some r.
Proof.
  unfold locs. rewrite elem_of_List_filter, elem_of_seq. unfold in_record. split.
  - intros [_ Hi]. destruct (recnums !! i); [|done]. apply Nat.eqb_eq in Hi. by subst.
  - intros Hi. rewrite Hi, Nat.eqb_refl. apply lookup_lt_Some in Hi. split; [lia|done].
Qed.

(** The unsorted index. *)
Lemma buildRecIdxUnsorted_ok :
  exists recidx, buildRecIdxUnsorted n recnums ∅ = Ok recidx /\ forall r, recidx !! r = opt_list (locs r).
Proof.
  destruct (foldM_ind (fun recidx iloc => r ← vec_get recnums iloc; Ok (push r iloc recidx))
    (fun don m => forall r, m !! r = opt_list (List.filter (in_record r) don)) (∅ : RecIdxMap) (seq 0 n)) as (m & Hm & Hs).
  - intros r. apply lookup_empty.
  - intros don i m IH [rest Hp]. assert (i < n) as (r0 & Hr0)%recnum_at.
    { assert (i ∈ seq 0 n) as Hi%elem_of_seq by (rewrite Hp; set_solver). lia. }
    rewrite (vec_get_Some recnums _ _ Hr0). cbn [mbind res_bind]. eexists. split; [reflexivity|].
    intros r. rewrite (push_lookup _ _ r0 i IH).
    pose proof (filter_snoc_record (fun _ => true) don i r0 r Hr0) as E. rewrite !filter_and_true in E. by rewrite E.
  - exists m. split; [exact Hm|exact Hs].
Qed.

(** Every location is in the vector of exactly one record. *)
Lemma locs_partition (recidx : gmap nat (list nat)) :
  (forall r, exists l, l ≡ₚ locs r /\ recidx !! r = opt_list l) ->
  concat (map_to_list recidx).*2 ≡ₚ seq 0 n.
Proof.
  intros Hr. change ((map_to_list recidx).*2) with (map snd (map_to_list recidx)).
  assert (Hl : forall k l, (k, l) ∈ map_to_list recidx -> l ≡ₚ locs k).
  { intros k l Hk%elem_of_map_to_list. destruct (Hr k) as (l' & Hp & E). rewrite E in Hk. destruct l'; simplify_eq/=. done. }
  apply NoDup_Permutation.
  - apply NoDup_concat_map.
    + apply NoDup_map_to_list.
    + intros [k l] Hk. simpl. rewrite (Hl _ _ Hk). apply List_NoDup_filter, NoDup_seq.
    + intros [k1 l1] [k2 l2] i H1 H2 R1 R2. simpl in R1, R2. rewrite (Hl _ _ H1) in R1. rewrite (Hl _ _ H2) in R2.
      apply elem_of_locs in R1, R2.
      assert (k1 = k2) as -> by congruence. apply elem_of_map_to_list in H1, H2. congruence.
  - apply NoDup_seq.
  - intros i. rewrite elem_of_concat_map. split.
    + intros ([k l] & Hk & Hi). simpl in Hi. rewrite (Hl _ _ Hk) in Hi. apply elem_of_List_filter in Hi. tauto.
    + intros Hi. apply elem_of_seq in Hi as Hi'. destruct (recnum_at i) as [r Hri]; [lia|].
      assert (Hin : i ∈ locs r) by (by apply elem_of_locs). destruct (Hr r) as (l & Hp & E). exists (r, l).
      rewrite <-Hp in Hin. split; [|done]. apply elem_of_map_to_list. rewrite E. destruct l; [by apply elem_of_nil in Hin|done].
Qed.

(** * The sorted index *)

Section sorted.
Context {F : Type} `{FO : FloatOps F} `{FL : FloatOrder F}.
Context (vals : list F) (flags : list bool).
Context (Hvals : length vals = n) (Hflags : length flags = n).

Definition val_at (i : nat) : F := default f_zero (vals !! i).
Definition missing_at (i : nat) : bool := default false (flags !! i).
Definition entry (i : nat) : F * nat := (val_at i, i).

Definition select (P : nat -> bool) (don : list nat) (r : nat) : list nat :=
  List.filter (fun i => in_record r i && P i) don.

(** What was collected of the locations [don]. *)
Definition collected (treatment : MissingSortValueTreatment) (don : list nat) (s : SortState) : Prop :=
  (forall r, TmpRecIdx s !! r = opt_list (map entry
    (select (fun i => negb (bool_decide (treatment = IGNORE_MISSING) && missing_at i)) don r))) /\
  (treatment = NO_SORT -> forall r, r ∈ recordContainsAtLeastOneMissingSortValue s <->
    existsb missing_at (select (fun _ => true) don r) = true) /\
  (treatment = IGNORE_MISSING -> (forall r, TmpRecIdx_missing s !! r = opt_list (map id (select missing_at don r))) /\
    forall r, sortValueMissingInRecord s !! r = opt_list (map missing_at (select (fun _ => true) don r))).

Lemma select_snoc P don i r0 r : recnums !! i = Some r0 ->
  select P (don ++ [i]) r = select P don r ++ (if decide (r = r0) then if P i then [i] else [] else []).
Proof. apply filter_snoc_record. Qed.

Lemma push_select {A} (g : nat -> A) P don i r0 (m : gmap nat (list A)) :
  recnums !! i = Some r0 -> P i = true -> (forall r, m !! r = opt_list (map g (select P don r))) ->
  forall r, push r0 (g i) m !! r = opt_list (map g (select P (don ++ [i]) r)).
Proof.
  intros Hi HP Hm r. rewrite (push_lookup m (fun r => map g (select P don r)) r0 (g i) Hm).
  rewrite (select_snoc _ _ _ _ _ Hi), HP, map_app. by destruct (decide (r = r0)).
Qed.

Lemma skip_select {A} (g : nat -> A) P don i r0 (m : gmap nat (list A)) :
  recnums !! i = Some r0 -> P i = false -> (forall r, m !! r = opt_list (map g (select P don r))) ->
  forall r, m !! r = opt_list (map g (select P (don ++ [i]) r)).
Proof.
  intros Hi HP Hm r. rewrite (select_snoc _ _ _ _ _ Hi), HP, Hm. destruct (decide (r = r0)); by rewrite app_nil_r.
Qed.

Lemma contains_snoc don i r0 r : recnums !! i = Some r0 ->
  existsb missing_at (select (fun _ => true) (don ++ [i]) r) =
  existsb missing_at (select (fun _ => true) don r) || (bool_decide (r = r0) && missing_at i).
Proof.
  intros Hi. rewrite (select_snoc _ _ _ _ _ Hi), existsb_app. f_equal.
  destruct (decide (r = r0)); [rewrite bool_decide_true by done|rewrite bool_decide_false by done]; simpl; [|done]. apply orb_false_r.
Qed.

Lemma collect_ok treatment :
  exists s, foldM (sort_collect treatment recnums vals flags) SortState_new (seq 0 n) = Ok s /\
    collected treatment (seq 0 n) s.
Proof.
  apply (foldM_ind _ (collected treatment)).
  - split_and!; [intros r; apply lookup_empty|intros _ r; simpl; set_solver|intros _; split; intros r; apply lookup_empty].
  - intros don i s (H1 & H2 & H3) [rest Hp].
    assert (Hi : i < n). { assert (i ∈ seq 0 n) as ?%elem_of_seq by (rewrite Hp; set_solver). lia. }
    destruct (recnum_at i Hi) as [r0 Hr0]. unfold sort_collect.
    destruct (lookup_lt_is_Some_2 vals i) as [v Hv]; [lia|]. destruct (lookup_lt_is_Some_2 flags i) as [b Hb]; [lia|].
    rewrite (vec_get_Some recnums _ _ Hr0), (vec_get_Some vals _ _ Hv), (vec_get_Some flags _ _ Hb). cbn [mbind res_bind].
    assert (Ev : (v, i) = entry i) by (unfold entry, val_at; by rewrite Hv).
    assert (Eb : missing_at i = b) by (unfold missing_at; by rewrite Hb). rewrite Ev.
    eexists. split; [reflexivity|]. destruct treatment.
    + split_and!; [|done..]. apply push_select; done.
    + split_and!; [|intros _ r|done]; [destruct b; by apply push_select|]. rewrite (contains_snoc _ _ _ _ Hr0), orb_true_iff, <-(H2 eq_refl), Eb.
      destruct b; simpl; rewrite ?elem_of_union, ?elem_of_singleton, ?andb_true_r, ?andb_false_r, ?bool_decide_eq_true; naive_solver.
    + destruct (H3 eq_refl) as [H4 H5]. destruct b; (split_and!; [| done|intros _; split]); simpl.
      * apply (skip_select _ _ _ _ _ _ Hr0); [by rewrite Eb|exact H1].
      * by apply (push_select id).
      * pose proof (push_select missing_at (fun _ => true) don i r0 _ Hr0 eq_refl H5) as H6. by rewrite Eb in H6.
      * apply push_select; [done|by rewrite Eb|exact H1].
      * by apply (skip_select id _ _ _ _ _ Hr0).
      * pose proof (push_select missing_at (fun _ => true) don i r0 _ Hr0 eq_refl H5) as H6. by rewrite Eb in H6.
Qed.

(** ** Putting missing locations back *)

Fixpoint weave (fl : list bool) (ms ps : list nat) : list nat :=
  match fl, ms, ps with
  | true :: fl, x :: ms, _ => x :: weave fl ms ps
  | false :: fl, _, x :: ps => x :: weave fl ms ps
  | _, _, _ => []
  end.

Lemma merge_missing_step M P out cp cm :
  merge_step M P (out, cp, cm) true = (x ← vec_get M cm; Ok (out ++ [x], cp, S cm)).
Proof. done. Qed.

Lemma merge_present_step M P out cp cm :
  merge_step M P (out, cp, cm) false = (x ← vec_get P cp; Ok (out ++ [x], S cp, cm)).
Proof. done. Qed.

Lemma merge_weave M P fl out cp cm :
  cm + length (List.filter id fl) = length M -> cp + length (List.filter negb fl) = length P ->
  exists s, foldM (merge_step M P) (out, cp, cm) fl = Ok s /\ s.1.1 = out ++ weave fl (drop cm M) (drop cp P).
Proof.
  revert out cp cm. induction fl as [|b fl IH]; intros out cp cm Hm Hp; cbn [foldM]; [eexists; split; [done|]; by rewrite app_nil_r|].
  destruct b; simpl in Hm, Hp; (rewrite merge_missing_step || rewrite merge_present_step).
  - destruct (lookup_lt_is_Some_2 M cm) as [x Hx]; [lia|]. rewrite (vec_get_Some M _ _ Hx). cbn [mbind res_bind].
    destruct (IH (out ++ [x]) cp (S cm)) as (s & Hs & Eo); [lia|lia|]. exists s. split; [exact Hs|].
    rewrite Eo, (drop_S M x cm Hx), <-app_assoc. done.
  - destruct (lookup_lt_is_Some_2 P cp) as [x Hx]; [lia|]. rewrite (vec_get_Some P _ _ Hx). cbn [mbind res_bind].
    destruct (IH (out ++ [x]) (S cp) cm) as (s & Hs & Eo); [lia|lia|]. exists s. split; [exact Hs|].
    rewrite Eo, (drop_S P x cp Hx), <-app_assoc. done.
Qed.

(** The locations [l] with the present ones replaced by [ps], in order. *)
Lemma weave_spec (l ps : list nat) :
  length ps = length (List.filter (fun i => negb (missing_at i)) l) -> Forall (fun i => missing_at i = false) ps ->
  let w := weave (map missing_at l) (List.filter missing_at l) ps in
  w ≡ₚ List.filter missing_at l ++ ps /\ List.filter (fun i => negb (missing_at i)) w = ps /\
  forall k i, l !! k = Some i -> missing_at i = true -> w !! k = Some i.
Proof.
  revert ps. induction l as [|i l IH]; intros ps Hlen Hps; simpl in *.
  - destruct ps; [done|simpl in Hlen; lia].
  - destruct (missing_at i) eqn:Ei; simpl in *.
    + destruct (IH ps Hlen Hps) as (H1 & H2 & H3). split_and!; [by rewrite H1|by rewrite Ei|].
      intros [|k] j Hj; simpl in *; [done|]. by apply H3.
    + destruct ps as [|x ps]; [simpl in Hlen; lia|]. apply Forall_cons in Hps as [Hx Hps].
      destruct (IH ps) as (H1 & H2 & H3); [simpl in Hlen; lia|done|]. split_and!.
      * rewrite H1. by rewrite Permutation_middle.
      * simpl. rewrite Hx. simpl. by rewrite H2.
      * intros [|k] j Hj; simpl in *; [congruence|]. by apply H3.
Qed.

(** ** Sorting *)

Context `{!StrictWeak (f_ltb (F := F))}.

(** The comparison of the configured order, and when [i] may be before [j]. *)
Definition order_ltb (ascending : bool) : F * nat -> F * nat -> bool := if ascending then pair_ltb else descending_ltb.
Definition before (ascending : bool) (i j : nat) : Prop := not_after (order_ltb ascending) (entry i) (entry j).

#[local] Instance order_strict_weak ascending : StrictWeak (order_ltb ascending).
Proof. destruct ascending; [apply (lex_strict_weak f_ltb)|apply (lex_strict_weak (flip f_ltb))]. Qed.

Lemma sort_entries ascending (l : list nat) :
  let out := map snd (std_sort (order_ltb ascending) (map entry l)) in
  out ≡ₚ l /\ StronglySorted (before ascending) out.
Proof.
  set (sl := std_sort (order_ltb ascending) (map entry l)). intros out.
  pose proof (std_sort_perm (order_ltb ascending) (map entry l)) as Hp. fold sl in Hp.
  pose proof (std_sort_sorted (order_ltb ascending) (map entry l)) as Hs. fold sl in Hs.
  assert (Hout : out ≡ₚ l).
  { unfold out. rewrite Hp, map_map. by rewrite map_id. }
  assert (He : map entry out = sl).
  { unfold out. rewrite map_map. rewrite <-(map_id sl) at 2. apply map_ext_in. intros x Hx%list_elem_of_In.
    rewrite Hp in Hx. by apply list_elem_of_fmap in Hx as (i & -> & _). }
  split; [done|]. rewrite <-He in Hs. clear -Hs. revert Hs. generalize out. intros o. induction o as [|i o IH]; intros Hs; [constructor|].
  apply (StronglySorted_cons _ (map entry o) (entry i)) in Hs as [Hf Hs]. apply StronglySorted_cons. split; [|by apply IH].
  apply list.Forall_forall. intros j Hj. rewrite list.Forall_forall in Hf. apply Hf, list_elem_of_fmap. eauto.
Qed.

(** The vector of a record: [None] when it has no entry in the index. *)
Definition present (r : nat) : list nat := List.filter (fun i => negb (missing_at i)) (locs r).

Definition record_ok (treatment : MissingSortValueTreatment) (ascending : bool) (r : nat) (o : option (list nat)) : Prop :=
  match treatment with
  | SORT =>
      if decide (locs r = []) then o = None
      else exists l, o = Some l /\ l ≡ₚ locs r /\ StronglySorted (before ascending) l
  | NO_SORT =>
      if decide (locs r = []) then o = None
      else exists l, o = Some l /\ l ≡ₚ locs r /\
        if existsb missing_at (locs r) then l = locs r else StronglySorted (before ascending) l
  | IGNORE_MISSING =>
      if decide (present r = []) then o = None
      else exists l, o = Some l /\ l ≡ₚ locs r /\
        StronglySorted (before ascending) (List.filter (fun i => negb (missing_at i)) l) /\
        forall k i, locs r !! k = Some i -> missing_at i = true -> l !! k = Some i
  end.

Lemma select_locs P r : select P (seq 0 n) r = List.filter P (locs r).
Proof.
  unfold select, locs. induction (seq 0 n) as [|i l IH]; simpl; [done|].
  destruct (in_record r i); simpl; [destruct (P i); simpl; by rewrite IH|done].
Qed.

Lemma filter_all {A} (l : list A) : List.filter (fun _ => true) l = l.
Proof. induction l; simpl; congruence. Qed.

Lemma opt_list_cases {A B} (f : A -> B) (l : list A) (x : list B) :
  opt_list (map f l) = Some x -> x = map f l /\ l <> [].
Proof. destruct l; simpl; intros; by simplify_eq. Qed.

Lemma sort_record_order treatment ascending (s : SortState) r l :
  sort_record treatment ascending s r l =
  if bool_decide (treatment = NO_SORT) && bool_decide (r ∈ recordContainsAtLeastOneMissingSortValue s) then l
  else std_sort (order_ltb ascending) l.
Proof. unfold sort_record, order_ltb. by destruct ascending. Qed.

Lemma copy_ignore (s : SortState) ascending r :
  collected IGNORE_MISSING (seq 0 n) s -> present r <> [] ->
  exists l, copy_record IGNORE_MISSING s r (sort_record IGNORE_MISSING ascending s r (map entry (present r))) = Ok l /\
    record_ok IGNORE_MISSING ascending r (Some l).
Proof.
  intros (_ & _ & Hc) Hne. destruct (Hc eq_refl) as [Hm Hf]. rewrite sort_record_order. rewrite bool_decide_false by done. cbn [andb].
  unfold copy_record. rewrite Hm, Hf, !default_opt_list, map_id, !select_locs, filter_all.
  destruct (sort_entries ascending (present r)) as [Hp Hs].
  set (ps := map snd (std_sort (order_ltb ascending) (map entry (present r)))) in *.
  assert (Hl1 : length (List.filter id (map missing_at (locs r))) = length (List.filter missing_at (locs r))).
  { clear. induction (locs r) as [|i l IH]; simpl; [done|]. destruct (missing_at i); simpl; [f_equal|]; exact IH. }
  assert (Hl2 : length (List.filter negb (map missing_at (locs r))) = length (present r)).
  { clear. unfold present. induction (locs r) as [|i l IH]; simpl; [done|]. destruct (missing_at i); simpl; [|f_equal]; exact IH. }
  destruct (merge_weave (List.filter missing_at (locs r)) ps (map missing_at (locs r)) [] 0 0) as ([[out cp] cm] & Hw & Eo).
  { simpl. exact Hl1. } { simpl. by rewrite Hl2, Hp. }
  rewrite Hw. cbn [mbind res_bind]. simpl in Eo. rewrite !drop_0 in Eo. exists out. split; [done|].
  unfold record_ok. rewrite decide_False by done. exists out. split; [done|].
  destruct (weave_spec (locs r) ps) as (W1 & W2 & W3).
  { by rewrite Hp. }
  { rewrite Hp. apply list.Forall_forall. intros i Hi%elem_of_List_filter. by destruct (missing_at i), Hi. }
  rewrite Eo. split_and!; [|by rewrite W2|done]. rewrite W1, Hp. unfold present.
  clear. induction (locs r) as [|i l IH]; simpl; [done|]. destruct (missing_at i); simpl; [by rewrite IH|].
  rewrite <-Permutation_middle. by rewrite IH.
Qed.

(** A record without and with an entry. *)
Lemma record_cases treatment ascending (s : SortState) r :
  collected treatment (seq 0 n) s ->
  match TmpRecIdx s !! r with
  | Some l => exists v, copy_record treatment s r (sort_record treatment ascending s r l) = Ok v /\
      record_ok treatment ascending r (Some v)
  | None => record_ok treatment ascending r None
  end.
Proof.
  intros Hc. pose proof Hc as (H1 & H2 & H3). rewrite H1, select_locs.
  destruct (decide (treatment = IGNORE_MISSING)) as [->|Ht].
  - rewrite bool_decide_true by done. cbn [andb]. fold (present r). destruct (decide (present r = [])) as [E|E].
    + rewrite E. simpl. by rewrite decide_True.
    + destruct (opt_list (map entry (present r))) as [l|] eqn:El; [|destruct (present r); done].
      apply opt_list_cases in El as [-> _]. by apply copy_ignore.
  - rewrite bool_decide_false by done. cbn [andb negb]. rewrite filter_all. destruct (decide (locs r = [])) as [E|E].
    + rewrite E. simpl. destruct treatment; simpl; by rewrite ?decide_True.
    + destruct (opt_list (map entry (locs r))) as [l|] eqn:El; [|destruct (locs r); done].
      apply opt_list_cases in El as [-> _]. rewrite sort_record_order.
      destruct (sort_entries ascending (locs r)) as [Hp Hs].
      destruct treatment; [..|done]; (eexists; split; [reflexivity|]); unfold record_ok; rewrite decide_False by done.
      * rewrite bool_decide_false by done. eauto.
      * rewrite bool_decide_true by done. cbn [andb]. pose proof (H2 eq_refl r) as Hm. rewrite select_locs, filter_all in Hm.
        eexists. split; [reflexivity|]. destruct (existsb missing_at (locs r)).
        -- rewrite bool_decide_true by (by apply Hm). rewrite map_map, map_id. done.
        -- rewrite bool_decide_false by (by rewrite Hm). done.
Qed.

Lemma buildSorted_ok treatment ascending :
  exists recidx : gmap nat (list nat), buildSortedObsGroups treatment ascending n recnums vals flags ∅ = Ok recidx /\
    forall r, record_ok treatment ascending r (recidx !! r).
Proof.
  destruct (collect_ok treatment) as (s & Hs & Hc). unfold buildSortedObsGroups. rewrite Hs. cbn [mbind res_bind].
  assert (Hrec_ok : forall r, match TmpRecIdx s !! r with
    | Some l => exists v, copy_record treatment s r (sort_record treatment ascending s r l) = Ok v /\
        record_ok treatment ascending r (Some v)
    | None => record_ok treatment ascending r None end) by (intros r; by apply record_cases).
  destruct (foldM_map_entries (fun k l => copy_record treatment s k (sort_record treatment ascending s k l))
    (fun k l => match copy_record treatment s k (sort_record treatment ascending s k l) with Ok v => v | Throw _ => [] end)
    (TmpRecIdx s) (∅ : gmap nat (list nat))) as (m & Hm & Hk).
  - intros k l Hl. specialize (Hrec_ok k). rewrite Hl in Hrec_ok. destruct Hrec_ok as (v & -> & _). done.
  - exists m. split; [exact Hm|]. intros r. rewrite Hk. specialize (Hrec_ok r). destruct (TmpRecIdx s !! r); [|exact Hrec_ok].
    destruct Hrec_ok as (v & -> & Hv). exact Hv.
Qed.
End sorted.
End records.

(** * The list of records *)

Lemma fill_vector (l v : list nat) k :
  k + length l <= length v ->
  foldM (fun '(v, k) r => v ← vec_set v k r; Ok (v, S k)) (v, k) l = Ok (take k v ++ l ++ drop (k + length l) v, k + length l).
Proof.
  revert v k. induction l as [|x l IH]; intros v k Hl; cbn [foldM length] in *.
  - rewrite Nat.add_0_r. simpl. by rewrite take_drop.
  - cbv beta iota. rewrite vec_set_lt by lia. cbn [mbind res_bind]. rewrite IH by (rewrite length_insert; lia).
    do 2 f_equal; [|lia]. rewrite drop_insert_lt by lia. rewrite (take_S_r _ _ x) by (apply list_lookup_insert_eq; lia).
    rewrite take_insert_ge by lia. rewrite <-app_assoc. simpl. do 3 f_equal. f_equal. lia.
Qed.

Lemma map_keys_spec (recidx : gmap nat (list nat)) :
  Sorted le (map_keys recidx) /\ NoDup (map_keys recidx) /\ length (map_keys recidx) = size recidx /\
  forall r, r ∈ map_keys recidx <-> is_Some (recidx !! r).
Proof.
  unfold map_keys. split_and!.
  - apply (Sorted_merge_sort le).
  - rewrite merge_sort_Permutation. apply NoDup_fst_map_to_list.
  - rewrite (Permutation_length (merge_sort_Permutation le _)), length_fmap. apply length_map_to_list.
  - intros r. rewrite merge_sort_Permutation, list_elem_of_fmap. split.
    + intros ([k l] & -> & Hl%elem_of_map_to_list). eauto.
    + intros [l Hl]. exists (r, l). split; [done|]. by apply elem_of_map_to_list.
Qed.

Lemma recidx_all_recnums_ok nrecs (recidx : gmap nat (list nat)) :
  size recidx = nrecs -> recidx_all_recnums nrecs recidx = Ok (map_keys recidx).
Proof.
  intros Hn. destruct (map_keys_spec recidx) as (_ & _ & Hl & _). unfold recidx_all_recnums.
  rewrite fill_vector by (rewrite length_replicate; lia). cbn [mbind res_bind]. rewrite drop_replicate.
  replace (nrecs - (0 + length (map_keys recidx))) with 0 by lia. simpl. by rewrite app_nil_r.
Qed.

(** The index has as many records as there are record numbers. *)
Lemma recidx_size (recnums : list nat) (recidx : gmap nat (list nat)) :
  (forall r, is_Some (recidx !! r) <-> r ∈ recnums) -> size recidx = size (list_to_set recnums : gset nat).
Proof. intros H. rewrite <-size_dom. f_equal. apply set_eq. intros r. by rewrite elem_of_dom, elem_of_list_to_set. Qed.

(** * Companion records *)

Section extend_proofs.
Context {A : Type} (eqb : A -> A -> bool) (missing : A) (B : nat) (recidx : gmap nat (list nat)) (vals : list A).

Definition record_of (r : nat) : list nat := default [] (recidx !! r).

Context (Hrange : forall r j, j ∈ record_of r -> j < length vals).
Context (Hrefl : eqb missing missing = true).
Context (Hdisj : forall r1 r2 j, j ∈ record_of r1 -> j ∈ record_of r2 -> r1 = r2).

(** The value companion records are filled with. *)
Definition fill_of (r : nat) : option A :=
  List.find (fun v => negb (eqb v missing)) (omap (fun j => vals !! j) (record_of r)).

Lemma first_present_ok (varVals : list A) jlocs :
  Forall (fun j => j < length varVals) jlocs ->
  first_present eqb missing varVals jlocs =
    Ok (default missing (List.find (fun v => negb (eqb v missing)) (omap (fun j => varVals !! j) jlocs))).
Proof.
  induction 1 as [|j jlocs Hj Hall IH]; [done|]. destruct (lookup_lt_is_Some_2 varVals j Hj) as [v Hv].
  cbn [first_present]. rewrite (vec_get_Some varVals _ _ Hv). cbn [mbind res_bind]. simpl. rewrite Hv. simpl.
  destruct (eqb v missing); simpl; [exact IH|done].
Qed.

Lemma fill_companion_ok (v : A) (varVals : list A) jlocs :
  Forall (fun j => j < length varVals) jlocs ->
  exists out, fill_companion v varVals jlocs = Ok out /\ length out = length varVals /\
    forall j, out !! j = if decide (j ∈ jlocs) then Some v else varVals !! j.
Proof.
  intros Hall. revert varVals Hall. unfold fill_companion. induction jlocs as [|i jlocs IH]; intros varVals Hall; cbn [foldM].
  - exists varVals. split_and!; [done..|]. intros j. by rewrite decide_False by apply not_elem_of_nil.
  - apply Forall_cons in Hall as [Hi Hall]. rewrite vec_set_lt by done. cbn [mbind res_bind].
    destruct (IH (<[i := v]> varVals)) as (out & Ho & Hl & Hj); [by rewrite length_insert|].
    exists out. split_and!; [done|by rewrite Hl, length_insert|]. intros j. rewrite Hj.
    destruct (decide (j = i)) as [->|Hne].
    + rewrite (decide_True _ _ (list_elem_of_here _ _)). destruct (decide (i ∈ jlocs)); [done|]. by apply list_lookup_insert_eq.
    + rewrite list_lookup_insert_ne by done. destruct (decide (j ∈ jlocs)).
      * rewrite decide_True by (by right). done.
      * rewrite decide_False by (rewrite elem_of_cons; tauto). done.
Qed.

(** The state after the records [don]. *)
Definition extended (don : list nat) (m : gmap nat (list nat)) (varVals : list A) : Prop :=
  (forall r, default [] (m !! r) = record_of r) /\ length varVals = length vals /\
  (forall r v j, r ∈ don -> fill_of r = Some v -> j ∈ record_of (r + B) -> varVals !! j = Some v) /\
  forall j, (forall r, r ∈ don -> is_Some (fill_of r) -> j ∉ record_of (r + B)) -> varVals !! j = vals !! j.

Lemma original_unchanged don m varVals r : extended don m varVals -> Forall (fun r => r < B) don -> r < B ->
  omap (fun j => varVals !! j) (record_of r) = omap (fun j => vals !! j) (record_of r).
Proof.
  intros (_ & _ & _ & Hun) Hdon Hr.
  assert (H : forall j, j ∈ record_of r -> varVals !! j = vals !! j).
  { intros j Hj. apply Hun. intros r' Hr' _ Hj'. assert (r = r' + B) by (by eapply Hdisj). lia. }
  clear -H. induction (record_of r) as [|j l IH]; simpl; [done|]. rewrite (H j) by left.
  destruct (vals !! j); [f_equal|]; apply IH; intros; apply H; by right.
Qed.

Lemma extended_step don m varVals r :
  extended don m varVals -> Forall (fun r => r < B) don -> r < B -> r ∉ don ->
  exists m' varVals', extended (don ++ [r]) m' varVals' /\
    forall keys, extend_loop eqb missing B (r :: keys) m varVals = extend_loop eqb missing B keys m' varVals'.
Proof.
  intros Hext Hdon Hr Hnot. pose proof (original_unchanged _ _ _ r Hext Hdon Hr) as Hor.
  destruct Hext as (Hm & Hlen & Hset & Hun).
  assert (Hin : forall r, Forall (fun j => j < length varVals) (record_of r)).
  { intros r'. rewrite Hlen. apply list.Forall_forall. intros j Hj. by eapply Hrange. }
  assert (Hstart : forall keys, extend_loop eqb missing B (r :: keys) m varVals =
    let fillValue := default missing (fill_of r) in
    if negb (eqb fillValue missing) then
      varVals ← fill_companion fillValue varVals (record_of (r + B));
      extend_loop eqb missing B keys (<[r + B := record_of (r + B)]> m) varVals
    else extend_loop eqb missing B keys m varVals).
  { intros keys. cbn [extend_loop]. rewrite (proj2 (Nat.leb_gt B r)) by lia. rewrite !Hm.
    rewrite first_present_ok by apply Hin. rewrite Hor. done. }
  assert (Hdon' : forall v, fill_of r = Some v -> eqb v missing = false).
  { intros v Hv. apply List.find_some in Hv as [_ Hv]. by destruct (eqb v missing). }
  destruct (fill_of r) as [v|] eqn:Ev.
  - destruct (fill_companion_ok v varVals (record_of (r + B)) (Hin _)) as (out & Ho & Hl & Hj).
    exists (<[r + B := record_of (r + B)]> m), out. split.
    + split_and!.
      * intros r'. destruct (decide (r' = r + B)) as [->|Hne]; [by rewrite lookup_insert_eq|by rewrite lookup_insert_ne].
      * by rewrite Hl.
      * intros r' v' j [Hr'|Hr']%elem_of_app Hv' Hj'; rewrite Hj; [|apply list_elem_of_singleton in Hr'; subst r'].
        -- rewrite decide_False; [by eapply Hset|]. intros Hj2. assert (r' + B = r + B) by (by eapply Hdisj). assert (r' = r) as -> by lia. done.
        -- rewrite decide_True by done. congruence.
      * intros j Hnj. rewrite Hj, decide_False.
        -- apply Hun. intros r' Hr'. apply Hnj. set_solver.
        -- apply Hnj; [set_solver|by rewrite Ev].
    + intros keys. rewrite Hstart. simpl. rewrite (Hdon' v eq_refl). simpl. by rewrite Ho.
  - exists m, varVals. split.
    + split_and!; [done|done| |].
      * intros r' v' j [Hr'|Hr']%elem_of_app Hv' Hj'; [by eapply Hset|]. apply list_elem_of_singleton in Hr' as ->. congruence.
      * intros j Hnj. apply Hun. intros r' Hr'. apply Hnj. set_solver.
    + intros keys. rewrite Hstart. simpl. by rewrite Hrefl.
Qed.

(** The loop stops at the first companion record. *)
Lemma extend_loop_ok keys don m varVals :
  Sorted le keys -> NoDup (don ++ keys) -> Forall (fun r => r < B) don -> extended don m varVals ->
  exists out m', extend_loop eqb missing B keys m varVals = Ok (out, m') /\
    extended (don ++ List.filter (fun r => r <? B) keys) m' out.
Proof.
  revert don m varVals. induction keys as [|r keys IH]; intros don m varVals Hs Hnd Hdon Hext.
  - exists varVals, m. split; [done|]. simpl. by rewrite app_nil_r.
  - destruct (decide (r < B)) as [Hr|Hr].
    + assert (r ∉ don).
      { intros Hin. apply NoDup_app in Hnd as (_ & Hnd & _). apply (Hnd r Hin). left. }
      destruct (extended_step don m varVals r Hext Hdon Hr) as (m' & varVals' & Hext' & Hloop); [done|]. rewrite Hloop.
      simpl List.filter. rewrite (proj2 (Nat.ltb_lt r B) Hr).
      destruct (IH (don ++ [r]) m' varVals') as (out & m2 & Ho & He); [by inversion Hs|by rewrite <-app_assoc|apply Forall_app; split; [done|by constructor]|done|].
      exists out, m2. split; [done|]. rewrite <-app_assoc in He. exact He.
    + exists varVals, m. cbn [extend_loop]. rewrite (proj2 (Nat.leb_le B r)) by lia. split; [done|].
      replace (List.filter (fun r => r <? B) (r :: keys)) with (@nil nat); [by rewrite app_nil_r|].
      symmetry. apply Sorted_StronglySorted in Hs; [|intros ???; lia]. apply StronglySorted_cons in Hs as [Hf _].
      simpl. rewrite (proj2 (Nat.ltb_ge r B)) by lia. clear -Hf Hr. induction Hf as [|x l Hx Hf IHf]; simpl; [done|].
      rewrite (proj2 (Nat.ltb_ge x B)) by lia. exact IHf.
Qed.

Lemma extendVariable_ok :
  exists out m', extendVariable eqb missing B recidx vals = Ok (out, m') /\
    (forall r, default [] (m' !! r) = record_of r) /\ length out = length vals /\
    (forall r v j, r < B -> fill_of r = Some v -> j ∈ record_of (r + B) -> out !! j = Some v) /\
    forall j, (forall r, r < B -> is_Some (fill_of r) -> j ∉ record_of (r + B)) -> out !! j = vals !! j.
Proof.
  destruct (map_keys_spec recidx) as (H1 & H2 & _ & H3). unfold extendVariable.
  destruct (extend_loop_ok (map_keys recidx) [] recidx vals) as (out & m' & Ho & (E1 & E2 & E3 & E4)); [done|done|done| |].
  { split_and!; [done|done|by intros r v j ?%elem_of_nil|done]. }
  assert (Hkey : forall r, r < B -> is_Some (fill_of r) -> r ∈ [] ++ List.filter (fun r => r <? B) (map_keys recidx)).
  { intros r Hr [v Hv]. simpl. apply elem_of_List_filter. rewrite H3. split; [|by apply Nat.ltb_lt].
    unfold fill_of, record_of in Hv. destruct (recidx !! r); [eauto|done]. }
  exists out, m'. split_and!; [done..| |].
  - intros r v j Hr Hv Hj. apply (E3 r); [|done|done]. apply Hkey; [done|by rewrite Hv].
  - intros j Hj. apply E4. intros r Hr Hv. apply Hj; [|done]. simpl in Hr. apply elem_of_List_filter in Hr as [_ Hr]. by apply Nat.ltb_lt.
Qed.
End extend_proofs.

(** * What the index is good for *)

(** C35: [buildSortedObsGroups] succeeds and gives every record the vector of its
    locations in the configured order, equal sort values by increasing location
    also in descending order. A record with missing sort values is left in the
    order of the locations under "do not sort"; under "ignore missing" its missing
    locations keep their places among the sorted ones. *)
Theorem sorted_records {F} `{FO : FloatOps F} `{FL : FloatOrder F} `{!StrictWeak (f_ltb (F := F))}
    (treatment : MissingSortValueTreatment) (ascending : bool) (recnums : list nat) (vals : list F) (flags : list bool) :
  length vals = length recnums -> length flags = length recnums ->
  exists recidx : gmap nat (list nat),
    buildSortedObsGroups treatment ascending (length recnums) recnums vals flags ∅ = Ok recidx /\
    forall r, record_ok recnums (length recnums) vals flags treatment ascending r (recidx !! r).
Proof. intros Hv Hf. by apply buildSorted_ok. Qed.

(** The index splits the locations: every location is in the vector of exactly
    one record, and once, and no vector is empty. *)
Definition index_splits (recnums : list nat) (recidx : RecIdxMap) : Prop :=
  concat (map_to_list recidx).*2 ≡ₚ seq 0 (length recnums) /\
  (forall r l i, recidx !! r = Some l -> i ∈ l -> recnums !! i = Some r) /\
  forall r, recidx !! r <> Some [].

Lemma permuted_partition (recnums : list nat) (recidx : RecIdxMap) :
  (forall r, exists l, l ≡ₚ locs recnums (length recnums) r /\ recidx !! r = opt_list l) -> index_splits recnums recidx.
Proof.
  intros Hp. split; [by apply (locs_partition recnums _ eq_refl)|]. split.
  - intros r l i Hl Hil. destruct (Hp r) as (l' & Hl' & E).
    rewrite Hl in E. destruct l'; simplify_eq/=. rewrite Hl' in Hil. by apply (elem_of_locs recnums (length recnums) eq_refl).
  - intros r. destruct (Hp r) as (l & _ & ->). by destruct l.
Qed.

Lemma sorted_partition {F} `{FO : FloatOps F} `{FL : FloatOrder F} `{!StrictWeak (f_ltb (F := F))}
    (treatment : MissingSortValueTreatment) (ascending : bool) (recnums : list nat) (vals : list F) (flags : list bool) :
  length vals = length recnums -> length flags = length recnums ->
  (treatment = IGNORE_MISSING -> forall r, r ∈ recnums -> present recnums (length recnums) flags r <> []) ->
  exists recidx : gmap nat (list nat),
    buildSortedObsGroups treatment ascending (length recnums) recnums vals flags ∅ = Ok recidx /\ index_splits recnums recidx.
Proof.
  intros Hv Hf Hi. destruct (buildSorted_ok recnums (length recnums) eq_refl vals flags Hv Hf treatment ascending) as (recidx & Hb & Hr).
  assert (Hp : forall r, exists l, l ≡ₚ locs recnums (length recnums) r /\ recidx !! r = opt_list l).
  { intros r. specialize (Hr r). unfold record_ok in Hr.
    assert (Hloc : locs recnums (length recnums) r = [] -> exists l, l ≡ₚ locs recnums (length recnums) r /\ None = opt_list l).
    { intros ->. by exists []. }
    assert (Hsome : forall l, l ≡ₚ locs recnums (length recnums) r -> locs recnums (length recnums) r <> [] -> Some l = opt_list l).
    { intros [|x l] Hl Hne; [|done]. by apply Permutation_nil in Hl. }
    destruct treatment; case_decide as E.
    1,3: rewrite Hr; by apply Hloc.
    1,2: destruct Hr as (l & -> & Hl & _); eauto.
    - rewrite Hr. apply Hloc. destruct (locs recnums (length recnums) r) as [|i l] eqn:El; [done|]. exfalso.
      apply (Hi eq_refl r); [|done]. apply list_elem_of_lookup_2 with i. apply (elem_of_locs recnums (length recnums) eq_refl). rewrite El. left.
    - destruct Hr as (l & -> & Hl & _). exists l. split; [done|]. apply Hsome; [done|]. intros El. apply E. unfold present. by rewrite El. }
  exists recidx. split; [done|]. by apply permuted_partition.
Qed.

Lemma unsorted_partition (recnums : list nat) :
  exists recidx : gmap nat (list nat), buildRecIdxUnsorted (length recnums) recnums ∅ = Ok recidx /\ index_splits recnums recidx.
Proof.
  destruct (buildRecIdxUnsorted_ok recnums _ eq_refl) as (recidx & Hb & Hr). exists recidx. split; [done|].
  apply permuted_partition. eauto.
Qed.

(** The records partition the locations: every location of the ObsSpace is in
    the vector of exactly one record, and once; under "ignore missing", as long as
    every record has a location with a sort value. *)
Theorem records_partition {F} `{FO : FloatOps F} `{FL : FloatOrder F} `{!StrictWeak (f_ltb (F := F))}
    (treatment : MissingSortValueTreatment) (ascending : bool) (recnums : list nat) (vals : list F) (flags : list bool) :
  length vals = length recnums -> length flags = length recnums ->
  (treatment = IGNORE_MISSING -> forall r, r ∈ recnums -> present recnums (length recnums) flags r <> []) ->
  exists recidx : gmap nat (list nat),
    buildSortedObsGroups treatment ascending (length recnums) recnums vals flags ∅ = Ok recidx /\
    concat (map_to_list recidx).*2 ≡ₚ seq 0 (length recnums) /\
    forall r l i, recidx !! r = Some l -> i ∈ l -> recnums !! i = Some r.
Proof. intros Hv Hf Hi. destruct (sorted_partition treatment ascending recnums vals flags Hv Hf Hi) as (recidx & H1 & H2 & H3 & _). eauto. Qed.

(** The unsorted index lists the locations of every record in order, and
    [recidx_all_recnums] lists the record numbers in order, each once, [nrecs_]
    being the number of different record numbers as the reader counts them. *)
Theorem record_numbers_listed (recnums : list nat) (nrecs : nat) :
  nrecs = size (list_to_set recnums : gset nat) ->
  exists recidx : gmap nat (list nat), buildRecIdxUnsorted (length recnums) recnums ∅ = Ok recidx /\
    (forall r, r ∈ recnums -> recidx_vector recidx r = Ok (locs recnums (length recnums) r)) /\
    (forall r, recidx_has recidx r = true <-> r ∈ recnums) /\
    exists l, recidx_all_recnums nrecs recidx = Ok l /\ Sorted le l /\ NoDup l /\ forall r, r ∈ l <-> r ∈ recnums.
Proof.
  intros ->. destruct (buildRecIdxUnsorted_ok recnums _ eq_refl) as (recidx & Hb & Hr).
  assert (Hhas : forall r, is_Some (recidx !! r) <-> r ∈ recnums).
  { intros r. rewrite Hr, list_elem_of_lookup. setoid_rewrite <-(elem_of_locs recnums (length recnums) eq_refl).
    destruct (locs recnums (length recnums) r) as [|i l]; simpl.
    - split; [by intros []|by intros [i Hi%elem_of_nil]].
    - split; [intros _; exists i; left|done]. }
  exists recidx. split_and!; [done| | |].
  - intros r Hin. unfold recidx_vector. apply Hhas in Hin as [l Hl]. rewrite Hl. rewrite Hr in Hl.
    destruct (locs recnums (length recnums) r); simplify_eq/=. done.
  - intros r. unfold recidx_has. rewrite bool_decide_eq_true. apply Hhas.
  - destruct (map_keys_spec recidx) as (H1 & H2 & _ & H3). exists (map_keys recidx).
    split_and!; [by apply recidx_all_recnums_ok, recidx_size|done|done|]. intros r. by rewrite H3.
Qed.

(** When the records of an ObsSpace have no location in common,
    [extendVariable] succeeds, gives every location of a companion record the first
    value of the original record that is not missing, if there is one, and leaves
    all other values and the index as they are. *)
Theorem companions_filled {A} (eqb : A -> A -> bool) (missing : A) (B : nat) (recidx : gmap nat (list nat)) (vals : list A) :
  (forall r j, j ∈ record_of recidx r -> j < length vals) -> eqb missing missing = true ->
  (forall r1 r2 j, j ∈ record_of recidx r1 -> j ∈ record_of recidx r2 -> r1 = r2) ->
  exists out recidx', extendVariable eqb missing B recidx vals = Ok (out, recidx') /\
    (forall r, record_of recidx' r = record_of recidx r) /\ length out = length vals /\
    (forall r v j, r < B -> fill_of eqb missing recidx vals r = Some v -> j ∈ record_of recidx (r + B) -> out !! j = Some v) /\
    forall j, (forall r, r < B -> is_Some (fill_of eqb missing recidx vals r) -> j ∉ record_of recidx (r + B)) ->
      out !! j = vals !! j.
Proof. intros H1 H2 H3. by apply extendVariable_ok. Qed.

Module Sample.
#[export] Instance FloatOps_Z : FloatOps Z := {|
  f_zero := 0%Z; f_eqb := Z.eqb; f_isinf _ := false; f_isnan _ := false; f_to_string _ := ""; f_hours_to_seconds z := (z * 3600)%Z |}.
#[export] Instance FloatOrder_Z : FloatOrder Z := Z.ltb.
#[export] Instance StrictWeak_Z : StrictWeak (f_ltb (F := Z)).
Proof. split; unfold f_ltb, FloatOrder_Z; intros; rewrite ?Z.ltb_lt, ?Z.ltb_ge in *; lia. Qed.

Definition recnums : list nat := [4; 7; 4; 4; 7].
Definition vals : list Z := [30; 5; 10; 40; 2]%Z.
Definition flags : list bool := [false; false; true; false; false].

(** Descending by value; location 2 has no value and keeps its place. *)
Lemma sorted_records_witness :
  exists recidx : gmap nat (list nat),
    buildSortedObsGroups IGNORE_MISSING false 5 recnums vals flags ∅ = Ok recidx /\
    recidx !! 4 = Some [3; 2; 0] /\
    forall r, record_ok recnums 5 vals flags IGNORE_MISSING false r (recidx !! r).
Proof.
  destruct (sorted_records IGNORE_MISSING false recnums vals flags eq_refl eq_refl) as (recidx & H1 & H2).
  exists recidx. split; [exact H1|]. split; [|exact H2].
  assert (E : match buildSortedObsGroups IGNORE_MISSING false 5 recnums vals flags ∅ with Ok m => (m : gmap nat (list nat)) !! 4 | Throw _ => None end = Some [3; 2; 0]).
  { vm_compute. reflexivity. }
  simpl length in H1. rewrite H1 in E. exact E.
Defined.

Lemma records_partition_witness :
  exists recidx : gmap nat (list nat),
    buildSortedObsGroups SORT true 5 recnums vals flags ∅ = Ok recidx /\
    concat (map_to_list recidx).*2 ≡ₚ [0; 1; 2; 3; 4] /\
    forall r l i, recidx !! r = Some l -> i ∈ l -> recnums !! i = Some r.
Proof. apply (records_partition SORT true recnums vals flags eq_refl eq_refl). discriminate. Defined.

Lemma record_numbers_listed_witness :
  exists recidx : gmap nat (list nat), buildRecIdxUnsorted 5 recnums ∅ = Ok recidx /\
    (forall r, r ∈ recnums -> recidx_vector recidx r = Ok (locs recnums 5 r)) /\
    (forall r, recidx_has recidx r = true <-> r ∈ recnums) /\
    exists l, recidx_all_recnums 2 recidx = Ok l /\ Sorted le l /\ NoDup l /\ forall r, r ∈ l <-> r ∈ recnums.
Proof. apply (record_numbers_listed recnums 2). vm_compute. reflexivity. Defined.

(** Two records, the second without any sort value. *)
Definition lost_records (treatment : MissingSortValueTreatment) : res (bool * list nat) :=
  recidx ← buildSortedObsGroups treatment true 3 [0; 1; 0] [7; 8; 9]%Z [false; true; false] ∅;
  nums ← recidx_all_recnums 2 recidx;
  Ok (recidx_has recidx 1, nums).

(** Under "ignore missing" a record all of whose sort values are missing is
    not in the index at all, and the list of the record numbers, which is as long
    as the number of records, has record 0 a second time in its place. *)
Theorem all_missing_record_is_lost :
  lost_records SORT = Ok (true, [0; 1]) /\ lost_records IGNORE_MISSING = Ok (false, [0; 0]).
Proof. split; vm_compute; reflexivity. Qed.

(** Record 0 has locations 0 and 1, the first missing, and the companion record 1
    with locations 2 and 3. *)
Lemma companions_filled_witness :
  exists out recidx', extendVariable Z.eqb (-99)%Z 1 (<[0 := [0; 1]]> {[1 := [2; 3]]}) [-99; 5; -99; -99]%Z = Ok (out, recidx') /\
    out !! 2 = Some 5%Z /\ out !! 0 = Some (-99)%Z.
Proof.
  set (recidx := <[0 := [0; 1]]> {[1 := [2; 3]]} : gmap nat (list nat)).
  assert (Hr : forall r, record_of recidx r = match r with 0 => [0; 1] | 1 => [2; 3] | _ => [] end).
  { intros [|[|r]]; [reflexivity..|]. unfold record_of, recidx. rewrite lookup_insert_ne by lia. by rewrite lookup_singleton_ne by lia. }
  destruct (companions_filled Z.eqb (-99)%Z 1 recidx [-99; 5; -99; -99]%Z) as (out & m & H1 & H2 & H3 & H4 & H5).
  - intros r j. rewrite Hr. destruct r as [|[|r]]; rewrite ?elem_of_cons, ?elem_of_nil; simpl; lia.
  - reflexivity.
  - intros r1 r2 j. rewrite !Hr. destruct r1 as [|[|r1]], r2 as [|[|r2]]; rewrite ?elem_of_cons, ?elem_of_nil; lia.
  - exists out, m. split; [exact H1|]. split.
    + apply (H4 0); [lia|reflexivity|]. simpl. rewrite Hr. left.
    + rewrite (H5 0); [reflexivity|]. intros r Hlt _. assert (r = 0) as -> by lia. simpl. rewrite Hr, !elem_of_cons, elem_of_nil. lia.
Defined.
End Sample.
