(* ===== verification/ObsSpaceVars.v ===== *)
(** Access to the variables of an ObsSpace by group, name and channels: [has],
    [dtype], [get_db] and [put_db] with [loadVar], [saveVar], [openCreateVar],
    [createChannelSelections], [splitChanSuffix] and [createMissingObsErrors] of
    src/src/ObsSpace.cc. *)
From stdpp Require Import base list gmap strings pretty sorting.
From Stdlib Require Import ZArith Ascii.
From S2P Require Import Prelude Selection VarAttrStore ObsTypes ObsAttributes ObsVariables ObsFrame ObsFrameRead.
From S2P Require Import ObsFrameReadSpec ObsSpaceInit.
Local Open Scope Z_scope.

(** * Names *)

Definition fullVarName (groupName varName : string) : string := groupName +:+ "/" +:+ varName.

(** [name.find_last_of('_')]: the parts before and after the last underscore. *)
Fixpoint split_last_underscore (name : string) : option (string * string) :=
  match name with
  | "" => None
  | String c name' =>
      match split_last_underscore name' with
      | Some (a, b) => Some (String c a, b)
      | None => if decide (c = "_"%char) then Some ("", name') else None
      end
  end.

(** [find_first_not_of("0123456789")] finds nothing. *)
Definition is_digit (c : Ascii.ascii) : bool := (48 <=? Ascii.nat_of_ascii c)%nat && (Ascii.nat_of_ascii c <=? 57)%nat.

Fixpoint all_digits (s : string) : bool :=
  match s with "" => true | String c s => is_digit c && all_digits s end.

Fixpoint digits_value (acc : Z) (s : string) : Z :=
  match s with "" => acc | String c s => digits_value (acc * 10 + Z.of_nat (Ascii.nat_of_ascii c - 48)) s end.

(** [std::stoi] of a string of digits. *)
Definition stoi (s : string) : res Z :=
  match s with
  | "" => Throw EInvalidArgument
  | _ => let v := digits_value 0 s in if 2 ^ 31 <=? v then Throw EOutOfRange else Ok v
  end.

Definition extractChannelSuffixIfPresent (name : string) : res (option (string * Z)) :=
  match split_last_underscore name with
  | Some (nameWithoutChannelSuffix, suffix) =>
      if all_digits suffix then channel ← stoi suffix; Ok (Some (nameWithoutChannelSuffix, channel)) else Ok None
  | None => Ok None
  end.

Definition ChannelVarName : string := "Channel".

(** The type of a variable as clients see it. *)
Inductive ObsDtype := DNone | DFloat | DInteger | DInteger_64 | DString | DDateTime | DBool.

Section ObsSpaceVars.
Context {F : Type} `{FO : FloatOps F} `{MV : MissingValues F}.
Implicit Types (g : ObsGroup F) (t : OType).

(** [obs_group_.vars.exists(name)]; dimension scales are variables too. *)
Definition exists_var (g : ObsGroup F) (name : string) : bool :=
  vars_exists name g || bool_decide (is_Some (g_dims g !! name)).

Definition splitChanSuffix (g : ObsGroup F) (group name : string) (chanSelect : list Z) (skipDerived : bool)
  : res (string * list Z) :=
  if bool_decide (chanSelect = []) && negb (exists_var g (fullVarName group name)) &&
     (skipDerived || negb (exists_var g (fullVarName ("Derived" +:+ group) name)))
  then
    o ← extractChannelSuffixIfPresent name;
    match o with
    | Some (nameToUse, channelNumber) => Ok (nameToUse, [channelNumber])
    | None => Ok (name, chanSelect)
    end
  else Ok (name, chanSelect).

Definition has (g : ObsGroup F) (group name : string) (skipDerived : bool) : res bool :=
  '(nameToUse, _) ← splitChanSuffix g group name [] skipDerived;
  Ok (exists_var g (fullVarName group nameToUse) ||
      (negb skipDerived && exists_var g (fullVarName ("Derived" +:+ group) nameToUse))).

(** The group a variable is taken from. *)
Definition groupToUse (g : ObsGroup F) (group nameToUse : string) (skipDerived : bool) : string :=
  if skipDerived || negb (exists_var g (fullVarName ("Derived" +:+ group) nameToUse)) then group
  else "Derived" +:+ group.

Definition dtype (g : ObsGroup F) (group name : string) (skipDerived : bool) : res ObsDtype :=
  '(nameToUse, _) ← splitChanSuffix g group name [] skipDerived;
  let groupToUse := groupToUse g group nameToUse skipDerived in
  b ← has g groupToUse nameToUse skipDerived;
  if (b : bool) then
    var ← vars_open (fullVarName groupToUse nameToUse) g;
    t ← supportedType (fv_var var);
    Ok match ty_type t with
       | INT => DInteger
       | LONG => if bool_decide (group = "MetaData") && bool_decide (nameToUse = "dateTime") then DDateTime
                 else DInteger_64
       | FLOAT => DFloat
       | STRING => if bool_decide (group = "MetaData") && bool_decide (nameToUse = "datetime") then DDateTime
                   else DString
       | _ => DBool
       end
  else Ok DNone.

(** The channel numbers are the coordinate values of the Channel scale. *)
Definition fillChanNumToIndexMap (chanNumbers : list Z) : gmap Z nat :=
  foldl (fun m '(i, num) => <[num := i]> m) ∅ (imap (fun i num => (i, num)) chanNumbers).

Definition chanIndices (chan_num_to_index_ : gmap Z nat) (channels : list Z) : res (list Z) :=
  mapR (fun c => match chan_num_to_index_ !! c with
    | Some ichan => Ok (Z.of_nat ichan)
    | None => Throw (EException ("Selected channel number " +:+ pretty c +:+ " does not exist."))
    end) channels.

(** The number of elements and the selections of the memory buffer and of the
    variable. *)
Definition createChannelSelections (chan_num_to_index_ : gmap Z nat) (varDims : list Z) (ChannelDimIndex : nat)
    (channels : list Z) : res (Z * FrontSelection * FrontSelection) :=
  chanIndices ← chanIndices chan_num_to_index_ channels;
  let dimSelects := imap (fun i n => if decide (i = ChannelDimIndex) then chanIndices else seqZ 0 n) varDims in
  let numElements := foldl (fun acc '(i, n) =>
      i64 (acc * (if decide (i = ChannelDimIndex) then Z.of_nat (length chanIndices) else n)))
    1 (imap (fun i n => (i, n)) varDims) in
  let memSelect := set_block [numElements] [0] [numElements] in
  if numElements =? 0 then
    let zeros := replicate (length varDims) 0 in
    Ok (numElements, memSelect, set_block varDims zeros zeros)
  else
    match dimSelects with
    | [] => Throw EUndefined
    | _ => Ok (numElements, memSelect, index_selection varDims dimSelects)
    end.

(** [loadVar<T>], [t] being the type of the elements. *)
Definition loadVar (g : ObsGroup F) (chan_num_to_index_ : gmap Z nat) (t : OType) (group name : string)
    (chanSelect : list Z) (skipDerived : bool) : res (list (Val F)) :=
  '(nameToUse, chanSelectToUse) ← splitChanSuffix g group name chanSelect false;
  var ← vars_open (fullVarName (groupToUse g group nameToUse skipDerived) nameToUse) g;
  if exists_var g ChannelVarName && (1 <? length (dimensions_ (fv_var var)))%nat &&
     bool_decide (fv_dims var !! 1%nat = Some ChannelVarName) && negb (bool_decide (chanSelectToUse = []))
  then
    '(numElements, memSelect, obsGroupSelect) ←
      createChannelSelections chan_num_to_index_ (dimensions_ (fv_var var)) 1 chanSelectToUse;
    varValues ← front_read (zero_val t) t memSelect obsGroupSelect (fv_var var);
    Ok (vec_resize (Z.to_nat numElements) (zero_val t) varValues)
  else front_read (zero_val t) t front_all front_all (fv_var var).

Definition openCreateVar (t : OType) (varName : string) (varDimList : list string) (g : ObsGroup F)
  : res (ObsGroup F) :=
  if exists_var g varName then Ok g else createWithScales varName varDimList t (Some (missing_val t)) g.

(** [saveVar<T>] *)
Definition saveVar (g : ObsGroup F) (chan_num_to_index_ : gmap Z nat) (t : OType) (group name : string)
    (varValues : list (Val F)) (dimList : list string) : res (ObsGroup F) :=
  '(name, channels) ← (if negb (bool_decide (group = "MetaData")) && exists_var g ChannelVarName
    then splitChanSuffix g group name [] false else Ok (name, []));
  let fullName := fullVarName group name in
  let dimListToUse :=
    if negb (exists_var g fullName) && negb (bool_decide (channels = [])) && negb (bool_decide (ChannelVarName ∈ dimList))
    then dimList ++ [ChannelVarName] else dimList in
  g ← openCreateVar t fullName dimListToUse g;
  match channels with
  | [] => vars_update fullName (fun v => front_write varValues t front_all front_all (fv_var v)) g
  | _ =>
      var ← vars_open fullName g;
      match list_find (fun d => d = ChannelVarName) (fv_dims var) with
      | None => Throw (EUserError ("Variable " +:+ fullName +:+ " is not indexed by channel numbers"))
      | Some (ChannelDimIndex, _) =>
          '(_, memSelect, obsGroupSelect) ←
            createChannelSelections chan_num_to_index_ (dimensions_ (fv_var var)) ChannelDimIndex channels;
          vars_update fullName (fun v => front_write varValues t memSelect obsGroupSelect (fv_var v)) g
      end
  end.

(** [put_db] and [get_db] of vectors of bool. *)
Definition put_db_bool (g : ObsGroup F) (cm : gmap Z nat) (group name : string) (vdata : list bool)
    (dimList : list string) : res (ObsGroup F) :=
  saveVar g cm char_t group name (map (fun b : bool => VChar (if b then 1 else 0)) vdata) dimList.

Definition get_db_bool (g : ObsGroup F) (cm : gmap Z nat) (group name : string) (chanSelect : list Z)
    (skipDerived : bool) : res (list bool) :=
  charData ← loadVar g cm char_t group name chanSelect skipDerived;
  mapR (fun x => match x with VChar z => Ok (negb (z =? 0)) | _ => Throw EUndefined end) charData.

(** [createMissingObsErrors] *)
Definition createMissingObsErrors (g : ObsGroup F) (cm : gmap Z nat) (nlocs : nat) (obsvars_ : list string)
  : res (ObsGroup F) :=
  foldM (fun g v =>
      b ← has g "ObsError" v false;
      if (b : bool) then Ok g
      else saveVar g cm float_t "DerivedObsError" v (replicate nlocs (missing_val float_t)) ["Location"])
    g obsvars_.
End ObsSpaceVars.

(** * Channel suffixes *)

Lemma pretty_char_digit x : (x < 10)%N ->
  is_digit (pretty_N_char x) = true /\ Z.of_nat (Ascii.nat_of_ascii (pretty_N_char x) - 48) = Z.of_N x.
Proof.
  intros Hx. assert (x ∈ [0; 1; 2; 3; 4; 5; 6; 7; 8; 9]%N) as Hin by (rewrite !elem_of_cons; lia).
  rewrite !elem_of_cons, elem_of_nil in Hin. destruct Hin as [->|[->|[->|[->|[->|[->|[->|[->|[->|[->|[]]]]]]]]]]]; by split.
Qed.

Lemma pretty_go_value x s :
  all_digits s = true -> all_digits (pretty_N_go x s) = true /\
  digits_value 0 (pretty_N_go x s) = digits_value (Z.of_N x) s /\
  (0 < x \/ s <> "" -> pretty_N_go x s <> "")%N.
Proof.
  revert s. induction (N.lt_wf_0 x) as [x _ IH]; intros s Hs. destruct (decide (x = 0)%N) as [->|Hx].
  - rewrite pretty_N_go_0. split_and!; [done..|]. intros [?|?]; [lia|done].
  - rewrite pretty_N_go_step by lia. pose proof (N.mod_upper_bound x 10 ltac:(lia)) as Hm.
    destruct (pretty_char_digit (x `mod` 10) Hm) as [Hd Hv].
    destruct (IH (x `div` 10)%N) with (s := String (pretty_N_char (x `mod` 10)) s) as (H1 & H2 & H3).
    { apply N.div_lt; lia. } { simpl. by rewrite Hd. }
    split_and!; [done| |intros _; apply H3; by right]. rewrite H2. cbn [digits_value]. rewrite Hv. f_equal.
    rewrite (N.div_mod x 10) at 3 by lia. lia.
Qed.

Lemma stoi_pretty (n : Z) : 0 <= n < 2 ^ 31 -> all_digits (pretty n) = true /\ stoi (pretty n) = Ok n.
Proof.
  intros Hn. assert (Hz : exists x, n = Z.of_N x) by (exists (Z.to_N n); lia). destruct Hz as [x ->].
  assert (E : pretty (Z.of_N x) = pretty x) by (by destruct x). rewrite E.
  unfold pretty, pretty_N. case_decide as Hx; [subst x; by split|].
  destruct (pretty_go_value x "" eq_refl) as (H1 & H2 & H3). split; [done|].
  unfold stoi. specialize (H3 ltac:(left; lia)). destruct (pretty_N_go x "") as [|c s] eqn:Es; [done|].
  rewrite H2. cbn [digits_value]. rewrite (proj2 (Z.leb_gt _ _)) by lia. done.
Qed.

Lemma split_digits s : all_digits s = true -> split_last_underscore s = None.
Proof.
  induction s as [|c s IH]; [done|]. cbn [all_digits split_last_underscore]. intros [Hc Hs]%andb_true_iff.
  rewrite IH by done. rewrite decide_False; [done|]. intros ->. done.
Qed.

Lemma split_suffix base s : all_digits s = true -> split_last_underscore (base +:+ "_" +:+ s) = Some (base, s).
Proof.
  intros Hs. induction base as [|c base IH].
  - change ("" +:+ "_" +:+ s) with (String "_" s). cbn [split_last_underscore]. by rewrite split_digits.
  - change (String c base +:+ "_" +:+ s) with (String c (base +:+ "_" +:+ s)). cbn [split_last_underscore]. by rewrite IH.
Qed.

(** A name with a channel number is split into both. *)
Definition channel_name (base : string) (chan : Z) : string := base +:+ "_" +:+ pretty chan.

Lemma extract_channel_name base chan : 0 <= chan < 2 ^ 31 ->
  extractChannelSuffixIfPresent (channel_name base chan) = Ok (Some (base, chan)).
Proof.
  intros Hc. destruct (stoi_pretty chan Hc) as [Hd Hs]. unfold extractChannelSuffixIfPresent, channel_name.
  by rewrite split_suffix, Hd, Hs by done.
Qed.

(** * Slices of channels *)

(** The columns [ks] of [n] rows of [C] elements, row by row. *)
Definition columns {A} (n C : nat) (data : list A) (ks : list nat) : list A :=
  concat (map (fun i => omap (fun k => data !! (i * C + k)%nat) ks) (seq 0 n)).

Lemma lookup_columns_one {A} n C (data : list A) k i :
  length data = (n * C)%nat -> (k < C)%nat -> (i < n)%nat -> columns n C data [k] !! i = data !! (i * C + k)%nat.
Proof.
  intros Hl Hk Hi. unfold columns.
  assert (Hcol : forall j, (j < n)%nat -> exists x, omap (fun k => data !! (j * C + k)%nat) [k] = [x] /\ data !! (j * C + k)%nat = Some x).
  { intros j Hj. destruct (lookup_lt_is_Some_2 data (j * C + k)) as [x Hx]; [nia|]. exists x. cbn [omap list_omap]. by rewrite Hx. }
  destruct (Hcol i Hi) as (x & Ex & Hx). rewrite Hx.
  replace i with (i * 1 + 0)%nat by lia.
  eapply (lookup_concat_map_uniform _ 1).
  - intros j Hj%elem_of_seq. destruct (Hcol j) as (y & -> & _); [lia|done].
  - apply lookup_seq_lt. lia.
  - simpl Nat.add. by rewrite Ex.
Qed.

Lemma length_columns {A} n C (data : list A) ks :
  length data = (n * C)%nat -> Forall (fun k => k < C)%nat ks -> length (columns n C data ks) = (n * length ks)%nat.
Proof.
  intros Hl Hk. unfold columns. rewrite (length_concat_map_uniform _ (length ks)); [by rewrite length_seq|].
  intros i Hi%elem_of_seq. clear -Hl Hk Hi. induction Hk as [|k ks Hk Hks IH]; [done|]. cbn [omap list_omap].
  destruct (lookup_lt_is_Some_2 data (i * C + k)) as [x ->]; [nia|]. simpl. by f_equal.
Qed.

(** A list of distinct indices is visited in increasing order. *)
Lemma as_set_of_nat (ixs : list nat) C : NoDup ixs -> Forall (fun k => k < C)%nat ixs -> ixs <> [] -> Z.of_nat C < 2 ^ 64 ->
  as_set (map Z.of_nat ixs) = map Z.of_nat (merge_sort le ixs).
Proof.
  intros Hnd Hr Hne Hc. destruct (as_set_spec (map Z.of_nat ixs) (Z.of_nat C)) as (H1 & H2 & _); [|done|].
  { split; [by destruct ixs|]. apply Forall_map. eapply Forall_impl; [exact Hr|]. simpl. lia. }
  apply Zlt_sorted_unique; [done| |].
  - apply StronglySorted_lt_of_nat. pose proof (StronglySorted_merge_sort le ixs) as Hs.
    assert (Hnd' : NoDup (merge_sort le ixs)) by (by rewrite merge_sort_Permutation).
    clear -Hs Hnd'. induction Hs as [|x l Hs IH Hx]; [constructor|]. apply NoDup_cons in Hnd' as [Hni Hnd'].
    constructor; [auto|]. rewrite list.Forall_forall in Hx |- *. intros y Hy. specialize (Hx y Hy).
    assert (x <> y) by congruence. lia.
  - intros x. rewrite H2, !list_elem_of_fmap. setoid_rewrite (merge_sort_Permutation le ixs). done.
Qed.

Section slices.
Context {A : Type} (v : ObsVariable A) (n C : nat) (data : list A) (Hv : array v n [Z.of_nat C] data).
Context (ixs : list nat) (Hnd : NoDup ixs) (Hr : Forall (fun k => k < C)%nat ixs) (Hne : ixs <> []).
Let ks := merge_sort le ixs.
Let fs := nested [map Z.of_nat (seq 0 n); map Z.of_nat ks] [Z.of_nat n; Z.of_nat C] 0.

Lemma slice_row : row_size [Z.of_nat C] = C.
Proof. unfold row_size, prodZ. simpl. lia. Qed.

Lemma slice_bound : Z.of_nat (n * C) < 2 ^ 31 /\ (0 < C)%nat /\ Z.of_nat C < 2 ^ 31.
Proof.
  destruct (arr_shape _ _ _ _ Hv) as [H1 H2 H3]. unfold prodZ in H2, H3. simpl in H2, H3.
  apply Forall_cons in H1 as [H1 _]. lia.
Qed.

Lemma slice_ks : ks ≡ₚ ixs.
Proof. apply (merge_sort_Permutation le). Qed.

Lemma slice_ks_range : Forall (fun k => k < C)%nat ks.
Proof. by rewrite slice_ks. Qed.

Lemma slice_length : (length ixs <= C)%nat.
Proof.
  rewrite <-(length_seq C 0). apply submseteq_length, NoDup_submseteq; [done|].
  intros x Hx. rewrite list.Forall_forall in Hr. specialize (Hr x Hx). apply elem_of_seq. lia.
Qed.

(** [createChannelSelections] on a variable along locations and channels. *)
Lemma slice_selections cm channels :
  chanIndices cm channels = Ok (map Z.of_nat ixs) ->
  createChannelSelections cm (dimensions_ v) 1 channels =
    Ok (Z.of_nat (n * length ixs), set_block [Z.of_nat (n * length ixs)] [0] [Z.of_nat (n * length ixs)],
        if (n =? 0)%nat then set_block (dimensions_ v) [0; 0] [0; 0]
        else index_selection (dimensions_ v) [seqZ 0 (Z.of_nat n); map Z.of_nat ixs]).
Proof.
  intros Hc. destruct slice_bound as (H1 & H2 & H3). pose proof slice_length as Hl.
  unfold createChannelSelections. rewrite Hc. cbn [mbind res_bind]. rewrite (arr_dims _ _ _ _ Hv).
  cbn [imap foldl compose]. destruct (decide (0%nat = 1%nat)) as [?|_]; [lia|]. destruct (decide (1%nat = 1%nat)) as [_|?]; [|lia].
  rewrite length_map, Z.mul_1_l.
  rewrite (i64_small (Z.of_nat n)) by nia. rewrite <-Nat2Z.inj_mul, i64_small by nia.
  destruct (Nat.eqb_spec n 0) as [E|Hn]; [rewrite E; reflexivity|].
  rewrite (proj2 (Z.eqb_neq _ 0)); [done|]. destruct ixs; [done|]. simpl. nia.
Qed.

(** The positions that are visited. *)
Lemma slice_selects : (0 < n)%nat ->
  exists f, createObsStoreSelection (index_selection (dimensions_ v) [seqZ 0 (Z.of_nat n); map Z.of_nat ixs]) (dimensions_ v) = Ok f /\
    npoints f = Z.of_nat (length fs) /\ selects f 1 (n * row_size [Z.of_nat C]) fs /\
    length fs = (n * length ixs)%nat.
Proof.
  intros Hn. destruct slice_bound as (H1 & H2 & H3). rewrite (arr_dims _ _ _ _ Hv).
  destruct (index_selects [Z.of_nat n; Z.of_nat C] [Z.of_nat n; Z.of_nat C] [seqZ 0 (Z.of_nat n); map Z.of_nat ixs])
    as (f & Ef & Hf & Sf).
  - repeat constructor.
    + rewrite seqZ_cons by lia. done.
    + apply list.Forall_forall. intros x Hx%elem_of_seqZ. lia.
    + by destruct ixs.
    + apply Forall_map. eapply Forall_impl; [exact Hr|]. simpl. lia.
  - done.
  - unfold prodZ. simpl. lia.
  - cbn [map] in Hf, Sf. rewrite (as_set_of_nat ixs C) in Hf, Sf by (done || lia).
    rewrite seqZ_of_nat, Nat2Z.id in Hf, Sf by lia.
    assert (E : as_set (map Z.of_nat (seq 0 n)) = map Z.of_nat (seq 0 n)).
    { apply as_set_sorted; [apply StronglySorted_lt_of_nat, StronglySorted_lt_seq|].
      apply Forall_map, list.Forall_forall. intros x Hx%elem_of_seq. nia. }
    rewrite E in Hf, Sf. rewrite seqZ_of_nat, Nat2Z.id in Ef by lia. rewrite seqZ_of_nat, Nat2Z.id by lia.
    exists f. split_and!; [exact Ef|exact Hf| |].
    + rewrite slice_row. by replace (n * C)%nat with (Z.to_nat (prodZ [Z.of_nat n; Z.of_nat C])) by (unfold prodZ; simpl; lia).
    + unfold fs. rewrite nested_length by done. cbn [map]. rewrite !length_map, length_seq. rewrite (Permutation_length slice_ks). unfold prod. simpl. lia.
Qed.

Lemma slice_positions : fs = concat (map (fun i => map (fun k => Z.of_nat (i * C + k)) ks) (seq 0 n)).
Proof.
  unfold fs. cbn [nested]. rewrite map_map. f_equal. apply map_ext. intros i.
  induction ks as [|k l IH]; [done|]. cbn [map concat]. rewrite <-IH. simpl. f_equal. lia.
Qed.
Lemma pick_columns {B} (d : list B) : pick d fs = columns n C d ks.
Proof.
  rewrite slice_positions, pick_concat, map_map. unfold columns. f_equal. apply map_ext. intros i.
  unfold pick. induction ks as [|k l IH]; [done|]. cbn [map omap list_omap]. rewrite Nat2Z.id.
  destruct (d !! (i * C + k)%nat); [f_equal|]; exact IH.
Qed.

Let mem := set_block [Z.of_nat (n * length ixs)] [0] [Z.of_nat (n * length ixs)].
Let file := if (n =? 0)%nat then set_block (dimensions_ v) [0; 0] [0; 0]
  else index_selection (dimensions_ v) [seqZ 0 (Z.of_nat n); map Z.of_nat ixs].

Lemma slice_nonempty : (0 < n)%nat -> length fs = (n * length ixs)%nat -> fs <> [].
Proof. intros Hn Hl E. rewrite E in Hl. destruct ixs; [done|]. simpl in Hl. nia. Qed.

Lemma no_rows_selections : n = 0%nat ->
  (exists m, createObsStoreSelection mem [0] = Ok m /\ npoints m = 0) /\
  (exists f, createObsStoreSelection file (dimensions_ v) = Ok f /\ npoints f = 0).
Proof.
  intros E. unfold mem, file. rewrite (arr_dims _ _ _ _ Hv), E. split.
  - by apply (empty_block_selection [0] [0] [] [0]).
  - by apply (empty_block_selection [Z.of_nat 0; Z.of_nat C] [0; 0] [0] [Z.of_nat 0; Z.of_nat C]).
Qed.

(** Reading a slice, as [loadVar] does. *)
Lemma read_slice init :
  exists out, front_read init (dtype_ v) mem file v = Ok out /\
    vec_resize (n * length ixs) init out = columns n C data ks.
Proof.
  destruct (decide (n = 0%nat)) as [E|Hn].
  - destruct (no_rows_selections E) as ((m & Em & Hm) & (f & Ef & Hf)).
    exists []. split.
    + eapply (read_no_rows init v [Z.of_nat C] data); [by rewrite <-E|unfold mem; by rewrite E|exact Em|exact Hm|exact Ef|exact Hf].
    + rewrite E. reflexivity.
  - destruct slice_selects as (f & Ef & Hf & Sf & Hl); [lia|].
    assert (Efile : file = index_selection (dimensions_ v) [seqZ 0 (Z.of_nat n); map Z.of_nat ixs])
      by (unfold file; by rewrite (proj2 (Nat.eqb_neq _ _) Hn)).
    pose proof (read_positions init v n [Z.of_nat C] data Hv file f fs) as Hread. rewrite Efile, Hl in Hread.
    eexists. split; [rewrite Efile; apply Hread; [done|by rewrite Hl in Hf|done|apply slice_nonempty; [lia|done]]|].
    rewrite pick_columns. unfold vec_resize.
    assert (Hcl : length (columns n C data ks) = (n * length ixs)%nat).
    { rewrite length_columns; [by rewrite (Permutation_length slice_ks)| |apply slice_ks_range].
      by rewrite (arr_length v n _ _ Hv), slice_row. }
    rewrite take_app_le by lia. rewrite take_ge by lia. rewrite length_app, Hcl.
    replace (n * length ixs - _)%nat with 0%nat by lia. simpl. by rewrite app_nil_r.
Qed.

(** Writing a slice, as [saveVar] does. *)
Lemma write_slice (vals : list A) : length vals = (n * length ixs)%nat ->
  exists st, front_write vals (dtype_ v) mem file v = Ok (with_data v (dimensions_ v) st) /\
    array (with_data v (dimensions_ v) st) n [Z.of_nat C] (var_attr_data_ st) /\
    columns n C (var_attr_data_ st) ks = vals /\
    forall i k, (k < C)%nat -> k ∉ ixs -> var_attr_data_ st !! (i * C + k)%nat = data !! (i * C + k)%nat.
Proof.
  intros Hvals. destruct slice_bound as (B1 & B2 & B3). pose proof slice_length as Hlen.
  destruct (decide (n = 0%nat)) as [E|Hn].
  - destruct (no_rows_selections E) as ((m & Em & Hm) & (f & Ef & Hf)).
    assert (vals = []) as -> by (destruct vals; [done|]; rewrite E in Hvals; done).
    exists (var_data_ v). split_and!.
    + unfold front_write, Backend_write, mem_dim_sizes. cbn [extent_ mem set_block].
      replace [Z.of_nat (n * length ixs)] with [0] by (by rewrite E). rewrite Em. cbn [mbind res_bind]. rewrite Ef. cbn [mbind res_bind].
      rewrite Hm, Hf, decide_False by lia. unfold Variable_write. by rewrite Type_neqb_refl.
    + rewrite (arr_data _ _ _ _ Hv). by destruct Hv, arr_ok as [], v.
    + by rewrite E.
    + intros i k _ _. by rewrite (arr_data _ _ _ _ Hv).
  - destruct slice_selects as (f & Ef & Hf & Sf & Hl); [lia|].
    assert (Efile : file = index_selection (dimensions_ v) [seqZ 0 (Z.of_nat n); map Z.of_nat ixs])
      by (unfold file; by rewrite (proj2 (Nat.eqb_neq _ _) Hn)).
    destruct (write_positions v n [Z.of_nat C] data Hv file f fs vals []) as (st & Hw & Ha & Hin & Hout).
    { by rewrite Efile. } { done. } { done. } { apply slice_nonempty; [lia|done]. } { lia. } { rewrite app_nil_r, Hvals. nia. }
    rewrite app_nil_r, Hl in Hw. exists st. split_and!; [exact Hw|exact Ha| |].
    + rewrite <-pick_columns. destruct (pick_lookup _ n [Z.of_nat C] _ Ha fs (sel_range _ _ _ _ Sf)) as [P1 P2].
      apply list_eq. intros j. destruct (fs !! j) as [i|] eqn:Ej.
      * rewrite (P2 j i Ej). by apply Hin.
      * apply lookup_ge_None in Ej. rewrite !lookup_ge_None_2; [done|lia|lia].
    + intros i k Hk Hnot. apply Hout. rewrite slice_positions. intros (i' & Hi' & Hx)%elem_of_concat_map.
      apply list_elem_of_fmap in Hx as (k' & Ek & Hk'). pose proof slice_ks_range as Hrg. rewrite list.Forall_forall in Hrg.
      specialize (Hrg k' Hk'). apply Hnot. rewrite slice_ks in Hk'.
      assert (k = k') as ->; [|done].
      assert (E : (i * C + k = i' * C + k')%nat) by lia.
      assert (i = i') by nia. subst. lia.
Qed.
End slices.

(** * Reading back what was saved *)

Section access.
Context {F : Type} `{FO : FloatOps F} `{MV : MissingValues F}.
Implicit Types (g : ObsGroup F) (t : OType) (data vals : list (Val F)).

(** A variable of a group with its elements. *)
Definition holds g (name : string) (dims : list string) t (n : nat) (rest : list Z) data : Prop :=
  exists fv, g_vars g !! name = Some fv /\ fv_dims fv = dims /\ dtype_ (fv_var fv) = t /\ array (fv_var fv) n rest data.

(** A variable that is there, or can be created and is then filled with the
    missing value. *)
Definition room g (name : string) (dimList dims : list string) t (n : nat) (rest : list Z) data : Prop :=
  holds g name dims t n rest data \/
  (exists_var g name = false /\ dims = dimList /\ data = replicate (n * row_size rest) (missing_val t) /\
   supported t /\ shape n rest /\
   exists mx, (0 <= mx -> Z.of_nat n <= mx) /\
     mapR (fun d => dim_open d g) dimList = Ok ((Z.of_nat n, mx) :: map (fun z => (z, z)) rest)).

(** The group with one variable added or changed. *)
Definition put g (name : string) (fv : FrameVar F) g' : Prop :=
  g_dims g' = g_dims g /\ g_vars g' = <[name := fv]> (g_vars g).

Lemma exists_put g name fv g' x : put g name fv g' -> exists_var g' x = bool_decide (x = name) || exists_var g x.
Proof.
  intros [Hd Hv]. unfold exists_var, vars_exists. rewrite Hd, Hv. destruct (decide (x = name)) as [->|E].
  - rewrite lookup_insert_eq, (bool_decide_true (is_Some (Some fv))), (bool_decide_true (name = name)) by eauto. done.
  - rewrite lookup_insert_ne, (bool_decide_false (x = name)) by done. done.
Qed.

Lemma holds_exists g name dims t n rest data : holds g name dims t n rest data -> exists_var g name = true.
Proof. intros (fv & Hv & _). unfold exists_var, vars_exists. rewrite Hv, bool_decide_true by eauto. done. Qed.

Lemma openCreateVar_ok g name dimList dims t n rest data :
  room g name dimList dims t n rest data ->
  exists g' fv, openCreateVar t name dimList g = Ok g' /\ put g name fv g' /\
    fv_dims fv = dims /\ dtype_ (fv_var fv) = t /\ array (fv_var fv) n rest data.
Proof.
  unfold openCreateVar. intros [Hh|(Hn & -> & -> & Ht & Hs & mx & Hmx & Hd)].
  - rewrite (holds_exists _ _ _ _ _ _ _ Hh). destruct Hh as (fv & Hv & H1 & H2 & H3).
    exists g, fv. split_and!; try done. split; [done|]. by rewrite insert_id.
  - rewrite Hn. destruct (createWithScales_filled name dimList t (Some (missing_val t)) g n mx rest Ht Hs Hmx Hd)
      as (fv & data & -> & [] & Hdata). rewrite <-(Hdata _ eq_refl). eexists _, fv. split_and!; try done.
Qed.

Lemma vars_update_put g name fv (f : FrameVar F -> res (ObsVariable (Val F))) v' :
  g_vars g !! name = Some fv -> f fv = Ok v' ->
  exists g', vars_update name f g = Ok g' /\ put g name {| fv_dims := fv_dims fv; fv_var := v' |} g'.
Proof. intros Hv Hf. unfold vars_update, vars_open. rewrite Hv. cbn [mbind res_bind]. rewrite Hf. eexists. split; [reflexivity|by split]. Qed.

Lemma put_put g name fv g1 fv2 g2 : put g name fv g1 -> put g1 name fv2 g2 -> put g name fv2 g2.
Proof. intros [H1 H2] [H3 H4]. split; [congruence|]. by rewrite H4, H2, insert_insert_eq. Qed.

Lemma put_lookup g name fv g' : put g name fv g' -> g_vars g' !! name = Some fv.
Proof. intros [_ ->]. apply lookup_insert_eq. Qed.

(** ** Names of different lengths are different *)

Lemma length_string_app a b : String.length (a +:+ b) = (String.length a + String.length b)%nat.
Proof. induction a as [|c a IH]; [done|]. change (String c a +:+ b) with (String c (a +:+ b)). simpl. by rewrite IH. Qed.

Lemma fullVarName_inj group v w : fullVarName group v = fullVarName group w -> v = w.
Proof.
  unfold fullVarName. induction group as [|c group IH]; [intros E; by injection E|].
  change (String c group +:+ "/" +:+ v) with (String c (group +:+ "/" +:+ v)).
  change (String c group +:+ "/" +:+ w) with (String c (group +:+ "/" +:+ w)). intros [= E]. by apply IH.
Qed.

(** A group name without a slash is determined by the full name. *)
Fixpoint no_slash (s : string) : bool :=
  match s with EmptyString => true | String c s => negb (bool_decide (c = "/"%char)) && no_slash s end.

Lemma fullVarName_group a b v w : no_slash a = true -> no_slash b = true -> fullVarName a v = fullVarName b w -> a = b.
Proof.
  unfold fullVarName. revert b. induction a as [|c a IH]; intros [|c' b]; cbn [no_slash]; [done|..].
  - intros _ [Hc _]%andb_true_iff E. change (String c' b +:+ "/" +:+ w) with (String c' (b +:+ "/" +:+ w)) in E.
    change ("" +:+ "/" +:+ v) with (String "/" v) in E. injection E as <- _. by rewrite bool_decide_true in Hc.
  - intros [Hc _]%andb_true_iff _ E. change (String c a +:+ "/" +:+ v) with (String c (a +:+ "/" +:+ v)) in E.
    change ("" +:+ "/" +:+ w) with (String "/" w) in E. injection E as -> _. by rewrite bool_decide_true in Hc.
  - intros [_ Ha]%andb_true_iff [_ Hb]%andb_true_iff E.
    change (String c a +:+ "/" +:+ v) with (String c (a +:+ "/" +:+ v)) in E.
    change (String c' b +:+ "/" +:+ w) with (String c' (b +:+ "/" +:+ w)) in E. injection E as -> E. f_equal. by apply IH.
Qed.

Lemma derived_group_ne group v w : no_slash group = true -> fullVarName ("Derived" +:+ group) v <> fullVarName group w.
Proof.
  intros Hs E. apply fullVarName_group in E; [|done|done]. apply (f_equal String.length) in E.
  rewrite length_string_app in E. change (String.length "Derived") with 7%nat in E. lia.
Qed.

Lemma derived_name_ne group name base : (String.length base <= String.length name)%nat ->
  fullVarName ("Derived" +:+ group) name <> fullVarName group base.
Proof.
  intros Hl E. apply (f_equal String.length) in E. unfold fullVarName in E. rewrite !length_string_app in E.
  change (String.length "Derived") with 7%nat in E. lia.
Qed.

Lemma channel_name_ne group base chan : fullVarName group (channel_name base chan) <> fullVarName group base.
Proof.
  intros E. apply (f_equal String.length) in E. unfold fullVarName, channel_name in E. rewrite !length_string_app in E.
  change (String.length "_") with 1%nat in E. lia.
Qed.

Lemma channel_name_length base chan : (String.length base <= String.length (channel_name base chan))%nat.
Proof. unfold channel_name. rewrite length_string_app. lia. Qed.
(** ** Loading *)

(** The variable is not hidden by one of the Derived group. *)
Definition visible g (group name : string) (skipDerived : bool) : Prop :=
  skipDerived = true \/ exists_var g (fullVarName ("Derived" +:+ group) name) = false.

Lemma visible_group g group name skip : visible g group name skip -> groupToUse g group name skip = group.
Proof. unfold groupToUse. intros [->|H]; [done|]. rewrite H. by rewrite orb_true_r. Qed.

Lemma split_exists g group name chans :
  exists_var g (fullVarName group name) = true -> splitChanSuffix g group name chans false = Ok (name, chans).
Proof. intros H. unfold splitChanSuffix. rewrite H. by rewrite andb_false_r. Qed.

Lemma split_channel g group base chan skip : 0 <= chan < 2 ^ 31 ->
  exists_var g (fullVarName group (channel_name base chan)) = false ->
  exists_var g (fullVarName ("Derived" +:+ group) (channel_name base chan)) = false ->
  splitChanSuffix g group (channel_name base chan) [] skip = Ok (base, [chan]).
Proof.
  intros Hc H1 H2. unfold splitChanSuffix. rewrite H1, H2, bool_decide_true, orb_true_r by done. cbn [andb negb].
  by rewrite extract_channel_name.
Qed.

Lemma load_whole g cm t group name dims n rest data skip :
  holds g (fullVarName group name) dims t n rest data -> visible g group name skip ->
  loadVar g cm t group name [] skip = Ok data.
Proof.
  intros Hh Hvis. pose proof (holds_exists _ _ _ _ _ _ _ Hh) as He. destruct Hh as (fv & Hv & Hd & Ht & Ha).
  unfold loadVar. rewrite split_exists by done. cbn [mbind res_bind]. rewrite (visible_group _ _ _ _ Hvis).
  unfold vars_open. rewrite Hv. cbn [mbind res_bind]. rewrite (bool_decide_true ([] = [])), andb_false_r by done.
  rewrite <-Ht. by eapply read_all.
Qed.

(** Loading channels, whether they are listed or come from the name. *)
Lemma load_slice g cm t group name d0 n C data skip base requested chans ixs :
  splitChanSuffix g group name requested false = Ok (base, chans) ->
  holds g (fullVarName group base) [d0; ChannelVarName] t n [Z.of_nat C] data -> visible g group base skip ->
  exists_var g ChannelVarName = true ->
  chanIndices cm chans = Ok (map Z.of_nat ixs) -> NoDup ixs -> Forall (fun k => k < C)%nat ixs -> ixs <> [] ->
  loadVar g cm t group name requested skip = Ok (columns n C data (merge_sort le ixs)).
Proof.
  intros Hsp (fv & Hv & Hd & Ht & Ha) Hvis Hch Hci Hnd Hr Hne.
  assert (Hcn : chans <> []).
  { intros ->. unfold chanIndices in Hci. simpl in Hci. by destruct ixs. }
  unfold loadVar. rewrite Hsp. cbn [mbind res_bind]. rewrite (visible_group _ _ _ _ Hvis).
  unfold vars_open. rewrite Hv. cbn [mbind res_bind].
  rewrite Hch, Hd, (bool_decide_true ([d0; ChannelVarName] !! 1%nat = Some ChannelVarName)), (bool_decide_false (chans = [])) by done.
  rewrite (arr_dims _ _ _ _ Ha) at 1. cbn [length Nat.ltb Nat.leb andb negb].
  rewrite (slice_selections (fv_var fv) n C data Ha ixs Hnd Hr Hne cm chans Hci). cbn [mbind res_bind].
  destruct (read_slice (fv_var fv) n C data Ha ixs Hnd Hr Hne (zero_val t)) as (out & Hread & Hout).
  rewrite Ht in Hread. rewrite Hread. cbn [mbind res_bind]. by rewrite Nat2Z.id, Hout.
Qed.

(** ** Saving *)

(** [saveVar] takes the name as it is. *)
Definition whole_name g (group name : string) : Prop :=
  group = "MetaData" \/ exists_var g ChannelVarName = false \/ exists_var g (fullVarName group name) = true \/
  exists_var g (fullVarName ("Derived" +:+ group) name) = true \/ extractChannelSuffixIfPresent name = Ok None.

Lemma save_whole_name g group name : whole_name g group name ->
  (if negb (bool_decide (group = "MetaData")) && exists_var g ChannelVarName
   then splitChanSuffix g group name [] false else Ok (name, [])) = Ok (name, [] : list Z).
Proof.
  intros Hw. unfold whole_name in Hw. destruct (bool_decide_reflect (group = "MetaData")) as [|Hg]; [done|].
  cbn [negb andb]. destruct (exists_var g ChannelVarName) eqn:Ec; [|done]. unfold splitChanSuffix. cbn [orb].
  destruct (exists_var g (fullVarName group name)) eqn:E1; [by rewrite andb_false_r|].
  destruct (exists_var g (fullVarName ("Derived" +:+ group) name)) eqn:E2; [by rewrite !andb_false_r|].
  destruct Hw as [|[|[|[|Hw]]]]; try done. rewrite Hw. by rewrite bool_decide_true by done.
Qed.

Lemma save_whole g cm t group name dimList dims n rest data vals :
  whole_name g group name -> room g (fullVarName group name) dimList dims t n rest data ->
  length vals = (n * row_size rest)%nat ->
  exists g' fv, saveVar g cm t group name vals dimList = Ok g' /\ put g (fullVarName group name) fv g' /\
    fv_dims fv = dims /\ dtype_ (fv_var fv) = t /\ array (fv_var fv) n rest vals.
Proof.
  intros Hw Hroom Hl. unfold saveVar. rewrite save_whole_name by done. cbn [mbind res_bind].
  rewrite (bool_decide_true ([] = [])), andb_false_r by done. cbn [negb andb].
  destruct (openCreateVar_ok _ _ _ _ _ _ _ _ Hroom) as (g1 & fv & -> & Hp & Hd & Ht & Ha). cbn [mbind res_bind].
  destruct (write_all (fv_var fv) n rest data Ha vals Hl) as (st & Hwr & Ha'). rewrite Ht in Hwr.
  destruct (vars_update_put g1 (fullVarName group name) fv (fun v => front_write vals t front_all front_all (fv_var v)) _
    (put_lookup _ _ _ _ Hp) Hwr) as (g2 & Hu & Hp2).
  eexists g2, _. split_and!; [exact Hu|by eapply put_put|done|exact Ht|exact Ha'].
Qed.

(** Saving the slice of a channel. *)
Lemma save_slice g cm t group base chan dimList d0 n C data vals k :
  group <> "MetaData" -> exists_var g ChannelVarName = true -> 0 <= chan < 2 ^ 31 ->
  exists_var g (fullVarName group (channel_name base chan)) = false ->
  exists_var g (fullVarName ("Derived" +:+ group) (channel_name base chan)) = false ->
  d0 <> ChannelVarName -> dimList = [d0] \/ dimList = [d0; ChannelVarName] ->
  room g (fullVarName group base) [d0; ChannelVarName] [d0; ChannelVarName] t n [Z.of_nat C] data ->
  cm !! chan = Some k -> (k < C)%nat -> length vals = n ->
  exists g' fv data', saveVar g cm t group (channel_name base chan) vals dimList = Ok g' /\
    put g (fullVarName group base) fv g' /\ fv_dims fv = [d0; ChannelVarName] /\ dtype_ (fv_var fv) = t /\
    array (fv_var fv) n [Z.of_nat C] data' /\ columns n C data' [k] = vals /\
    forall i k', (k' < C)%nat -> k' <> k -> data' !! (i * C + k')%nat = data !! (i * C + k')%nat.
Proof.
  intros Hg Hch Hc H1 H2 Hd0 Hdl Hroom Hk HkC Hl. unfold saveVar.
  rewrite (bool_decide_false (group = "MetaData")), Hch by done. cbn [negb andb].
  rewrite split_channel by done. cbn [mbind res_bind].
  assert (Hdl' : openCreateVar t (fullVarName group base)
      (if negb (exists_var g (fullVarName group base)) && negb (bool_decide ([chan] = [])) && negb (bool_decide (ChannelVarName ∈ dimList))
       then dimList ++ [ChannelVarName] else dimList) g = openCreateVar t (fullVarName group base) [d0; ChannelVarName] g).
  { unfold openCreateVar. destruct (exists_var g (fullVarName group base)); [done|].
    rewrite (bool_decide_false ([chan] = [])) by done. cbn [negb andb]. destruct Hdl as [-> | ->].
    - rewrite bool_decide_false; [done|]. rewrite list_elem_of_singleton. congruence.
    - by rewrite bool_decide_true by (right; left). }
  rewrite Hdl'. destruct (openCreateVar_ok _ _ _ _ _ _ _ _ Hroom) as (g1 & fv & -> & Hp & Hd & Ht & Ha). cbn [mbind res_bind].
  pose proof (put_lookup _ _ _ _ Hp) as Hv. unfold vars_open. rewrite Hv. cbn [mbind res_bind]. rewrite Hd.
  assert (Hfind : list_find (fun d => d = ChannelVarName) [d0; ChannelVarName] = Some (1%nat, ChannelVarName)).
  { unfold list_find. rewrite decide_False by done. done. }
  rewrite Hfind.
  assert (Hci : chanIndices cm [chan] = Ok (map Z.of_nat [k])) by (unfold chanIndices; cbn [mapR]; by rewrite Hk).
  assert (Hnd : NoDup [k]) by apply NoDup_singleton. assert (Hr : Forall (fun k => k < C)%nat [k]) by (by repeat constructor).
  rewrite (slice_selections (fv_var fv) n C data Ha [k] Hnd Hr ltac:(done) cm [chan] Hci). cbn [mbind res_bind].
  destruct (write_slice (fv_var fv) n C data Ha [k] Hnd Hr ltac:(done) vals) as (st & Hw & Ha' & Hcol & Hoth); [simpl; lia|].
  rewrite Ht in Hw.
  destruct (vars_update_put g1 (fullVarName group base) fv (fun v => front_write vals t
      (set_block [Z.of_nat (n * length [k])] [0] [Z.of_nat (n * length [k])])
      (if (n =? 0)%nat then set_block (dimensions_ (fv_var fv)) [0; 0] [0; 0]
       else index_selection (dimensions_ (fv_var fv)) [seqZ 0 (Z.of_nat n); map Z.of_nat [k]]) (fv_var v)) _ Hv Hw)
    as (g2 & Hu & Hp2).
  eexists g2, _, (var_attr_data_ st). split_and!; [exact Hu|by eapply put_put|exact Hd|exact Ht|exact Ha'|exact Hcol|].
  intros i k' Hk' Hne. apply Hoth; [done|]. by rewrite list_elem_of_singleton.
Qed.
End access.

(** * Missing observation errors *)

Section missing_errors.
Context {F : Type} `{FO : FloatOps F} `{MV : MissingValues F}.
Implicit Types (g : ObsGroup F).

(** What exists keeps existing, and so does what [has] finds. *)
Lemma has_mono g name fv g' group v :
  put g name fv g' -> has g group v false = Ok true -> has g' group v false = Ok true.
Proof.
  intros Hp. unfold has, splitChanSuffix. rewrite (bool_decide_true ([] = [])) by done. cbn [andb orb negb].
  assert (Hm : forall x, exists_var g x = true -> exists_var g' x = true)
    by (intros x Hx; rewrite (exists_put _ _ _ _ _ Hp), Hx; apply orb_true_r).
  destruct (exists_var g (fullVarName group v)) eqn:E1.
  { intros _. rewrite (Hm _ E1). cbn [negb andb mbind res_bind]. by rewrite (Hm _ E1). }
  destruct (exists_var g (fullVarName ("Derived" +:+ group) v)) eqn:E2.
  { intros _. rewrite (Hm _ E2). cbn [negb]. rewrite andb_false_r. cbn [mbind res_bind]. rewrite (Hm _ E2). by rewrite orb_true_r. }
  cbn [negb andb]. destruct (extractChannelSuffixIfPresent v) as [[[base chan]|]|] eqn:Ex; cbn [mbind res_bind].
  - intros [= H]. destruct (exists_var g' (fullVarName group v)) eqn:E1'; cbn [negb andb mbind res_bind]; [by rewrite E1'|].
    destruct (exists_var g' (fullVarName ("Derived" +:+ group) v)) eqn:E2'; cbn [negb andb mbind res_bind]; [by rewrite E1', E2'|].
    apply orb_true_iff in H as [H|H]; rewrite (Hm _ H); [done|]. by rewrite orb_true_r.
  - rewrite E1, E2. done.
  - done.
Qed.

Context (cm : gmap Z nat) (n C : nat) (mx : Z).

(** Names that are stored as a variable along locations, or as a slice of one
    along locations and channels. *)
Definition error_name g (v : string) : Prop :=
  extractChannelSuffixIfPresent v = Ok None \/
  exists base chan k, v = channel_name base chan /\ 0 <= chan < 2 ^ 31 /\ cm !! chan = Some k /\ (k < C)%nat /\
    g_dims g !! ChannelVarName = Some (Z.of_nat C, Z.of_nat C) /\ shape n [Z.of_nat C].

Record errors_ready g : Prop := {
  er_location : g_dims g !! "Location" = Some (Z.of_nat n, mx);
  er_max : 0 <= mx -> Z.of_nat n <= mx;
  er_shape : shape n [];
  er_derived : forall v, exists_var g (fullVarName "DerivedDerivedObsError" v) = false
}.

(** A variable whose elements are all missing. *)
Definition all_missing (fv : FrameVar F) : Prop :=
  dtype_ (fv_var fv) = float_t /\ exists rest, array (fv_var fv) n rest (replicate (n * row_size rest) (missing_val float_t)).

Lemma errors_ready_put g v fv g' : put g (fullVarName "DerivedObsError" v) fv g' -> errors_ready g -> errors_ready g'.
Proof.
  intros Hp [H1 H2 H3 H4]. split; [by destruct Hp as [-> _]|done|done|].
  intros w. rewrite (exists_put _ _ _ _ _ Hp), H4, orb_false_r. apply bool_decide_false. discriminate.
Qed.

Lemma missing_columns (data' : list (Val F)) k x : (k < C)%nat ->
  length data' = (n * C)%nat -> columns n C data' [k] = replicate n x ->
  (forall i k', (k' < C)%nat -> k' <> k -> data' !! (i * C + k')%nat = (replicate (n * C) x : list (Val F)) !! (i * C + k')%nat) ->
  data' = replicate (n * C) x.
Proof.
  intros Hk Hl Hcol Hoth. apply list_eq. intros j. destruct (decide (j < n * C)%nat) as [Hj|Hj].
  2:{ rewrite !lookup_ge_None_2; [done|rewrite length_replicate; lia|lia]. }
  assert (Ej : (j = j / C * C + j mod C)%nat) by (pose proof (Nat.div_mod_eq j C); lia).
  pose proof (Nat.mod_upper_bound j C ltac:(lia)) as Hm. rewrite Ej.
  destruct (decide (j mod C = k)%nat) as [E|E]; [|by apply Hoth].
  assert (Hi : (j / C < n)%nat) by (apply Nat.Div0.div_lt_upper_bound; lia).
  rewrite E, <-(lookup_columns_one n C data' k (j / C)), Hcol by done.
  rewrite !lookup_replicate_2; [done|nia|done].
Qed.

Lemma not_there g x : exists_var g x = false -> g_vars g !! x = None.
Proof.
  unfold exists_var, vars_exists. intros [Hx _]%orb_false_iff. apply bool_decide_eq_false in Hx. by apply eq_None_not_Some.
Qed.

(** One variable: [g'] has it, with missing values only. *)
Definition error_added g (v : string) g' : Prop := exists name fv,
  g_vars g !! fullVarName "DerivedObsError" name = None /\ put g (fullVarName "DerivedObsError" name) fv g' /\
  all_missing fv /\ has g' "ObsError" v false = Ok true.

Notation save_error g v := (saveVar g cm float_t "DerivedObsError" v (replicate n (missing_val float_t)) ["Location"]).

Lemma missing_error_plain g v :
  errors_ready g -> extractChannelSuffixIfPresent v = Ok None -> exists_var g (fullVarName "DerivedObsError" v) = false ->
  exists g', save_error g v = Ok g' /\ error_added g v g'.
Proof.
  intros [Hloc Hmx Hs Hder] Hplain E2.
  destruct (save_whole g cm float_t "DerivedObsError" v ["Location"] ["Location"] n []
    (replicate (n * row_size []) (missing_val float_t)) (replicate n (missing_val float_t))) as (g' & fv & Hsv & Hp & Hd & Ht & Ha).
  { by do 4 right. }
  { right. split_and!; [done..|by do 2 right; left|done|]. exists mx. split; [done|]. cbn [mapR]. unfold dim_open. by rewrite Hloc. }
  { rewrite length_replicate. change (row_size []) with 1%nat. lia. }
  exists g'. split; [exact Hsv|]. exists v, fv. split_and!; [by apply not_there|exact Hp| |].
  { split; [done|]. exists []. change (row_size []) with 1%nat. by rewrite Nat.mul_1_r. }
  unfold has, splitChanSuffix. change ("Derived" +:+ "ObsError") with "DerivedObsError".
  assert (E : exists_var g' (fullVarName "DerivedObsError" v) = true) by (rewrite (exists_put _ _ _ _ _ Hp), bool_decide_true; done).
  rewrite E. cbn [negb orb]. rewrite !andb_false_r. cbn [mbind res_bind]. rewrite E. by rewrite orb_true_r.
Qed.

Lemma missing_error_channel g base chan k :
  errors_ready g -> 0 <= chan < 2 ^ 31 -> cm !! chan = Some k -> (k < C)%nat ->
  g_dims g !! ChannelVarName = Some (Z.of_nat C, Z.of_nat C) -> shape n [Z.of_nat C] ->
  exists_var g (fullVarName "ObsError" (channel_name base chan)) = false ->
  exists_var g (fullVarName "DerivedObsError" (channel_name base chan)) = false ->
  exists_var g (fullVarName "DerivedObsError" base) = false ->
  exists g', save_error g (channel_name base chan) = Ok g' /\ error_added g (channel_name base chan) g'.
Proof.
  intros [Hloc Hmx Hs Hder] Hc Hk HkC HC HsC E1 E2 B2.
  destruct (save_slice g cm float_t "DerivedObsError" base chan ["Location"] "Location" n C
    (replicate (n * row_size [Z.of_nat C]) (missing_val float_t)) (replicate n (missing_val float_t)) k)
    as (g' & fv & data' & Hsv & Hp & Hd & Ht & Ha & Hcol & Hoth); [done| |done|done|apply Hder|done|by left| |done|done|apply length_replicate|].
  { unfold exists_var. rewrite (bool_decide_true (is_Some (g_dims g !! ChannelVarName))) by (rewrite HC; eauto). apply orb_true_r. }
  { right. split_and!; [done..|by do 2 right; left|done|]. exists mx. split; [done|]. cbn [mapR]. unfold dim_open.
    by rewrite Hloc, HC. }
  exists g'. split; [exact Hsv|]. exists base, fv. split_and!; [by apply not_there|exact Hp| |].
  { split; [done|]. exists [Z.of_nat C]. rewrite slice_row in Hoth |- *.
    rewrite <-(missing_columns data' k (missing_val float_t)); [exact Ha|done| |exact Hcol|exact Hoth].
    by rewrite (arr_length _ n _ _ Ha), slice_row. }
  unfold has. rewrite split_channel; [|done| |]; try (rewrite (exists_put _ _ _ _ _ Hp)).
  { cbn [mbind res_bind]. change ("Derived" +:+ "ObsError") with "DerivedObsError".
    rewrite !(exists_put _ _ _ _ _ Hp), (bool_decide_true (fullVarName "DerivedObsError" base = _)) by done. by rewrite orb_true_r. }
  { rewrite E1, orb_false_r. apply bool_decide_false. discriminate. }
  { change ("Derived" +:+ "ObsError") with "DerivedObsError". rewrite E2, orb_false_r. apply bool_decide_false, channel_name_ne. }
Qed.

Lemma missing_error_step g v :
  errors_ready g -> error_name g v ->
  has g "ObsError" v false = Ok true \/
  (has g "ObsError" v false = Ok false /\ exists g', save_error g v = Ok g' /\ error_added g v g').
Proof.
  intros Her Hname. unfold has, splitChanSuffix. rewrite (bool_decide_true ([] = [])) by done. cbn [andb orb negb].
  change ("Derived" +:+ "ObsError") with "DerivedObsError" in *.
  destruct (exists_var g (fullVarName "ObsError" v)) eqn:E1; [left; cbn [negb andb mbind res_bind]; by rewrite E1|].
  destruct (exists_var g (fullVarName "DerivedObsError" v)) eqn:E2; [left; cbn [negb andb mbind res_bind]; by rewrite E1, E2|].
  cbn [negb andb]. destruct Hname as [Hplain|(base & chan & k & -> & Hc & Hk & HkC & HC & HsC)].
  - right. rewrite Hplain. cbn [mbind res_bind]. rewrite E1, E2. split; [done|]. by apply missing_error_plain.
  - rewrite extract_channel_name by done. cbn [mbind res_bind].
    destruct (exists_var g (fullVarName "ObsError" base)); [by left|].
    destruct (exists_var g (fullVarName "DerivedObsError" base)) eqn:B2; [by left|]. right. split; [done|].
    by apply (missing_error_channel g base chan k).
Qed.

(** The loop. *)
Lemma createMissingObsErrors_ok g obsvars :
  errors_ready g -> Forall (error_name g) obsvars ->
  exists g', createMissingObsErrors g cm n obsvars = Ok g' /\
    (forall v, v ∈ obsvars \/ has g "ObsError" v false = Ok true -> has g' "ObsError" v false = Ok true) /\
    forall name, g_vars g' !! name = g_vars g !! name \/
      (g_vars g !! name = None /\ exists fv, g_vars g' !! name = Some fv /\ all_missing fv).
Proof.
  unfold createMissingObsErrors. revert g. induction obsvars as [|v vs IH]; intros g Her Hall.
  { exists g. split_and!; [done|by intros v [?%elem_of_nil|?]|by left]. }
  apply Forall_cons in Hall as [Hv Hall]. cbn [foldM].
  destruct (missing_error_step g v Her Hv) as [Hh|(Hh & g1 & Hsv & name & fv & Hnone & Hp & Hmiss & Hh1)]; rewrite Hh; cbn [mbind res_bind].
  - destruct (IH g Her Hall) as (g' & Hf & H1 & H2). exists g'. split_and!; [exact Hf| |exact H2].
    intros w [[->|Hw]%elem_of_cons|Hw]; apply H1; auto.
  - rewrite Hsv. cbn [mbind res_bind]. destruct (IH g1) as (g' & Hf & H1 & H2).
    { by eapply errors_ready_put. }
    { eapply Forall_impl; [exact Hall|]. intros w [?|(b & c & k & R)]; [by left|right]. exists b, c, k. destruct Hp as [Hpd _]. by rewrite Hpd. }
    exists g'. split_and!; [exact Hf| |].
    + intros w [[->|Hw]%elem_of_cons|Hw]; apply H1; [by right|by left|right]. by eapply has_mono.
    + intros x. destruct Hp as [_ Hpv]. destruct (decide (x = fullVarName "DerivedObsError" name)) as [->|Hx].
      * right. split; [done|]. destruct (H2 (fullVarName "DerivedObsError" name)) as [E|(E & fv' & E' & Hm')]; [|eauto].
        exists fv. by rewrite E, Hpv, lookup_insert_eq.
      * destruct (H2 x) as [E|(E & R)]; rewrite Hpv, lookup_insert_ne in E by done; [by left|right; by split].
Qed.
End missing_errors.

(** * Theorems *)

Section claims.
Context {F : Type} `{FO : FloatOps F} `{MV : MissingValues F}.
Implicit Types (g : ObsGroup F) (t : OType) (data vals : list (Val F)).

(** C36: What is put is got back.  Saving values under a name that is not taken
    for a channel of a variable (a name in MetaData, one without a channel
    number at its end, one that exists with it, or any name in a group without
    channels), where the variable does not exist or has this type and as many
    elements: it succeeds, creates the variable if it is not there, and changes
    no other variable; and loading it gives the values, if derived variables
    are skipped or there is none of this name in the Derived group. *)
Theorem put_then_get g (cm : gmap Z nat) t (group name : string) (dimList dims : list string) (n : nat) (rest : list Z)
    data vals (skipDerived : bool) :
  whole_name g group name -> room g (fullVarName group name) dimList dims t n rest data ->
  length vals = (n * row_size rest)%nat -> visible g group name skipDerived ->
  exists g', saveVar g cm t group name vals dimList = Ok g' /\
    loadVar g' cm t group name [] skipDerived = Ok vals /\ g_dims g' = g_dims g /\
    forall other, other <> fullVarName group name -> g_vars g' !! other = g_vars g !! other.
Proof.
  intros Hw Hroom Hl Hvis. destruct (save_whole g cm t group name dimList dims n rest data vals Hw Hroom Hl)
    as (g' & fv & Hs & Hp & Hd & Ht & Ha). exists g'. split_and!; [exact Hs| |apply Hp|].
  - eapply load_whole; [exists fv; split_and!; [by eapply put_lookup|exact Hd|exact Ht|exact Ha]|].
    destruct Hvis as [->|Hvis]; [by left|right]. rewrite (exists_put _ _ _ _ _ Hp), Hvis, orb_false_r.
    apply bool_decide_false. by apply derived_name_ne.
  - intros other Hne. destruct Hp as [_ ->]. by rewrite lookup_insert_ne.
Qed.

(** C37: A name that ends in the number of a channel stands for a slice of a variable
    along channels: saving under it succeeds and creates the whole variable if it
    is not there; loading under the same name gives the values, and the other
    channels keep theirs (the missing value in a new variable). *)
Theorem put_then_get_channel g (cm : gmap Z nat) t (group base d0 : string) (chan : Z) (dimList : list string)
    (n C k : nat) data vals (skipDerived : bool) :
  group <> "MetaData" -> exists_var g ChannelVarName = true -> 0 <= chan < 2 ^ 31 ->
  exists_var g (fullVarName group (channel_name base chan)) = false ->
  exists_var g (fullVarName ("Derived" +:+ group) (channel_name base chan)) = false ->
  visible g group base skipDerived ->
  d0 <> ChannelVarName -> dimList = [d0] \/ dimList = [d0; ChannelVarName] ->
  room g (fullVarName group base) [d0; ChannelVarName] [d0; ChannelVarName] t n [Z.of_nat C] data ->
  cm !! chan = Some k -> (k < C)%nat -> length vals = n ->
  exists g' data', saveVar g cm t group (channel_name base chan) vals dimList = Ok g' /\
    loadVar g' cm t group (channel_name base chan) [] skipDerived = Ok vals /\
    loadVar g' cm t group base [] skipDerived = Ok data' /\
    forall i k', (k' < C)%nat -> k' <> k -> data' !! (i * C + k')%nat = data !! (i * C + k')%nat.
Proof.
  intros Hg Hch Hc H1 H2 Hvis Hd0 Hdl Hroom Hk HkC Hl.
  destruct (save_slice g cm t group base chan dimList d0 n C data vals k Hg Hch Hc H1 H2 Hd0 Hdl Hroom Hk HkC Hl)
    as (g' & fv & data' & Hs & Hp & Hd & Ht & Ha & Hcol & Hoth). exists g', data'.
  assert (Hh : holds g' (fullVarName group base) [d0; ChannelVarName] t n [Z.of_nat C] data')
    by (exists fv; split_and!; [by eapply put_lookup|done..]).
  assert (Hvis' : visible g' group base skipDerived).
  { destruct Hvis as [->|Hvis]; [by left|right]. rewrite (exists_put _ _ _ _ _ Hp), Hvis, orb_false_r.
    apply bool_decide_false. by apply derived_name_ne. }
  split_and!; [exact Hs| |by eapply load_whole|exact Hoth].
  rewrite <-Hcol. change [k] with (merge_sort le [k]). apply (load_slice g' cm t group (channel_name base chan) d0 n C data' skipDerived base [] [chan] [k]).
  - apply split_channel; [done|..]; rewrite (exists_put _ _ _ _ _ Hp).
    + rewrite H1, orb_false_r. apply bool_decide_false, channel_name_ne.
    + rewrite H2, orb_false_r. apply bool_decide_false, derived_name_ne, channel_name_length.
  - exact Hh.
  - exact Hvis'.
  - rewrite (exists_put _ _ _ _ _ Hp), Hch. apply orb_true_r.
  - unfold chanIndices. cbn [mapR]. by rewrite Hk.
  - apply NoDup_singleton.
  - by repeat constructor.
  - done.
Qed.

(** Loading some channels of a variable gives, for every location, the values
    of these channels in the order in which the file lists the channels, whatever
    the order of the request: the selection of the indices is a set. *)
Theorem load_channels g (cm : gmap Z nat) t (group name d0 : string) (channels : list Z) (ixs : list nat) (n C : nat)
    data (skipDerived : bool) :
  holds g (fullVarName group name) [d0; ChannelVarName] t n [Z.of_nat C] data -> visible g group name skipDerived ->
  exists_var g ChannelVarName = true ->
  Forall2 (fun c k => cm !! c = Some k) channels ixs -> NoDup ixs -> Forall (fun k => k < C)%nat ixs -> ixs <> [] ->
  loadVar g cm t group name channels skipDerived = Ok (columns n C data (merge_sort le ixs)).
Proof.
  intros Hh Hvis Hch Hci Hnd Hr Hne.
  eapply (load_slice g cm t group name d0 n C data skipDerived name channels channels ixs);
    [by eapply split_exists, holds_exists|exact Hh|exact Hvis|exact Hch| |done..].
  unfold chanIndices. clear -Hci. induction Hci as [|c k cs ks Hk Hks IH]; [done|]. cbn [mapR map]. rewrite Hk. cbn [mbind res_bind].
  by rewrite IH.
Qed.

(** [createMissingObsErrors] succeeds and afterwards every observed variable has
    an observation error; what was there is unchanged, and all that is added is
    missing values. *)
Theorem missing_errors_created g (cm : gmap Z nat) (n C : nat) (mx : Z) (obsvars : list string) :
  errors_ready n mx g -> Forall (error_name cm n C g) obsvars ->
  exists g', createMissingObsErrors g cm n obsvars = Ok g' /\
    (forall v, v ∈ obsvars -> has g' "ObsError" v false = Ok true) /\
    forall name, g_vars g' !! name = g_vars g !! name \/
      (g_vars g !! name = None /\ exists fv, g_vars g' !! name = Some fv /\ all_missing n fv).
Proof.
  intros H1 H2. destruct (createMissingObsErrors_ok cm n C mx g obsvars H1 H2) as (g' & H3 & H4 & H5). eauto 6.
Qed.

(** Asking whether a variable exists throws when there is no such variable and
    its name ends in an underscore: the empty suffix is taken for a number. *)
Theorem has_throws_on_underscore g (group base : string) (skipDerived : bool) :
  exists_var g (fullVarName group (base +:+ "_")) = false ->
  exists_var g (fullVarName ("Derived" +:+ group) (base +:+ "_")) = false ->
  has g group (base +:+ "_") skipDerived = Throw EInvalidArgument.
Proof.
  intros H1 H2. unfold has, splitChanSuffix. rewrite H1, H2, bool_decide_true, orb_true_r by done. cbn [andb negb].
  unfold extractChannelSuffixIfPresent. change (base +:+ "_") with (base +:+ "_" +:+ ""). by rewrite split_suffix.
Qed.

(** The channel suffix is split off without regard to [skipDerived] when a
    variable is loaded. If the derived group has a variable with the suffix in
    its name, [has] finds the slice of the original variable that is asked for,
    and loading it throws. *)
Theorem skip_derived_ignored g (cm : gmap Z nat) t (group base : string) (chan : Z) :
  0 <= chan < 2 ^ 31 ->
  exists_var g (fullVarName group (channel_name base chan)) = false ->
  exists_var g (fullVarName ("Derived" +:+ group) (channel_name base chan)) = true ->
  exists_var g (fullVarName group base) = true ->
  has g group (channel_name base chan) true = Ok true /\
  exists e, loadVar g cm t group (channel_name base chan) [] true = Throw e.
Proof.
  intros Hc H1 H2 H3. split.
  - unfold has, splitChanSuffix. rewrite H1, bool_decide_true by done. cbn [andb negb orb].
    rewrite extract_channel_name by done. cbn [mbind res_bind]. by rewrite H3.
  - unfold loadVar, splitChanSuffix. rewrite H1, H2, bool_decide_true by done. cbn [andb negb orb mbind res_bind].
    unfold groupToUse. cbn [orb]. unfold vars_open.
    destruct (g_vars g !! fullVarName group (channel_name base chan)) as [fv|] eqn:E; [|by eexists].
    unfold exists_var, vars_exists in H1. rewrite E, bool_decide_true in H1 by eauto. done.
Qed.
End claims.

(** A group with two locations and the channels 7, 9 and 11. *)
Module Sample.
#[export] Instance FloatOps_Z : FloatOps Z := {|
  f_zero := 0; f_eqb := Z.eqb; f_isinf _ := false; f_isnan _ := false; f_to_string z := pretty z; f_hours_to_seconds z := z * 3600 |}.
#[export] Instance MissingValues_Z : MissingValues Z := {|
  missing_int := -99; missing_int64 := -99; missing_float := -99; missing_string := "MISSING"; missing_char := -9 |}.

Definition g0 : ObsGroup Z :=
  {| g_dim_names := ["Location"; "Channel"]; g_dims := {["Location" := (2, Unlimited); "Channel" := (3, 3)]};
     g_names := []; g_vars := ∅ |}.
Definition cm : gmap Z nat := fillChanNumToIndexMap [7; 9; 11].

Lemma shape_2 rest : forallb (fun d => 0 <? d) rest = true -> (2 * prodZ rest <? 2 ^ 31) = true -> shape 2 rest.
Proof.
  intros H1 H2%Z.ltb_lt. assert (Hr : Forall (fun d => 0 < d) rest).
  { apply list.Forall_forall. intros d Hd%list_elem_of_In. rewrite forallb_forall in H1. by apply Z.ltb_lt, H1. }
  pose proof (prodZ_ge1 rest Hr). split; [done|lia|lia].
Qed.

Lemma room_1 name : exists_var g0 name = false ->
  room g0 name ["Location"] ["Location"] float_t 2 [] [VFloat (-99); VFloat (-99)].
Proof.
  intros Hn. right. split_and!; [done|done|done|by do 2 right; left|by apply shape_2|by exists Unlimited].
Qed.

Lemma room_2 name : exists_var g0 name = false ->
  room g0 name ["Location"; "Channel"] ["Location"; "Channel"] float_t 2 [3] (replicate 6 (VFloat (-99))).
Proof.
  intros Hn. right. split_and!; [done|done|done|by do 2 right; left|by apply shape_2|by exists Unlimited].
Qed.

Lemma put_then_get_witness :
  exists g', saveVar g0 cm float_t "ObsValue" "airTemperature" [VFloat 1; VFloat 2] ["Location"] = Ok g' /\
    loadVar g' cm float_t "ObsValue" "airTemperature" [] false = Ok [VFloat 1; VFloat 2] /\ g_dims g' = g_dims g0 /\
    forall other, other <> "ObsValue/airTemperature" -> g_vars g' !! other = g_vars g0 !! other.
Proof.
  apply (put_then_get g0 cm float_t "ObsValue" "airTemperature" ["Location"] ["Location"] 2 [] [VFloat (-99); VFloat (-99)]).
  - do 4 right. reflexivity.
  - apply room_1. reflexivity.
  - reflexivity.
  - right. reflexivity.
Defined.

Lemma put_then_get_channel_witness :
  exists g' data', saveVar g0 cm float_t "ObsValue" "radiance_9" [VFloat 1; VFloat 2] ["Location"] = Ok g' /\
    loadVar g' cm float_t "ObsValue" "radiance_9" [] false = Ok [VFloat 1; VFloat 2] /\
    loadVar g' cm float_t "ObsValue" "radiance" [] false = Ok data' /\
    forall i k', (k' < 3)%nat -> k' <> 1%nat -> data' !! (i * 3 + k')%nat = replicate 6 (VFloat (-99)) !! (i * 3 + k')%nat.
Proof.
  apply (put_then_get_channel g0 cm float_t "ObsValue" "radiance" "Location" 9 ["Location"] 2 3 1).
  - done.
  - reflexivity.
  - lia.
  - reflexivity.
  - reflexivity.
  - right. reflexivity.
  - done.
  - by left.
  - apply room_2. reflexivity.
  - reflexivity.
  - lia.
  - reflexivity.
Defined.

(** Channels 11 and 7 are asked for; 7 comes first. *)
Lemma load_channels_witness :
  exists g', saveVar g0 cm float_t "ObsValue" "radiance" (map VFloat [1; 2; 3; 4; 5; 6]) ["Location"; "Channel"] = Ok g' /\
    loadVar g' cm float_t "ObsValue" "radiance" [11; 7] false = Ok (map VFloat [1; 3; 4; 6]).
Proof.
  destruct (save_whole g0 cm float_t "ObsValue" "radiance" ["Location"; "Channel"] ["Location"; "Channel"] 2 [3]
    (replicate 6 (VFloat (-99))) (map VFloat [1; 2; 3; 4; 5; 6])) as (g' & fv & Hs & Hp & Hd & Ht & Ha).
  - do 4 right. reflexivity.
  - apply room_2. reflexivity.
  - reflexivity.
  - exists g'. split; [exact Hs|].
    apply (load_channels g' cm float_t "ObsValue" "radiance" "Location" [11; 7] [2%nat; 0%nat] 2 3 (map VFloat [1; 2; 3; 4; 5; 6])).
    + exists fv. split_and!; [by eapply put_lookup|exact Hd|exact Ht|exact Ha].
    + right. rewrite (exists_put _ _ _ _ _ Hp). reflexivity.
    + rewrite (exists_put _ _ _ _ _ Hp). reflexivity.
    + repeat constructor.
    + apply (bool_decide_unpack _). vm_compute. exact I.
    + repeat constructor; lia.
    + done.
Defined.

Lemma missing_errors_created_witness :
  exists g', createMissingObsErrors g0 cm 2 ["airTemperature"; "radiance_7"; "radiance_9"] = Ok g' /\
    (forall v, v ∈ ["airTemperature"; "radiance_7"; "radiance_9"] -> has g' "ObsError" v false = Ok true) /\
    forall name, g_vars g' !! name = g_vars g0 !! name \/
      (g_vars g0 !! name = None /\ exists fv, g_vars g' !! name = Some fv /\ all_missing 2 fv).
Proof.
  apply (missing_errors_created g0 cm 2 3 Unlimited).
  - split; [reflexivity|by unfold Unlimited|by apply shape_2|]. intros v. reflexivity.
  - repeat apply Forall_cons_2; [by left| | |constructor]; right.
    + exists "radiance", 7, 0%nat. split_and!; [reflexivity|lia|lia|reflexivity|lia|reflexivity|by apply shape_2].
    + exists "radiance", 9, 1%nat. split_and!; [reflexivity|lia|lia|reflexivity|lia|reflexivity|by apply shape_2].
Defined.

Lemma has_throws_on_underscore_witness : has g0 "ObsValue" "x_" false = Throw EInvalidArgument.
Proof. apply (has_throws_on_underscore g0 "ObsValue" "x" false); reflexivity. Defined.

(** A radiance and a derived variable with the name of its channel 9. *)
Definition derived : res (ObsGroup Z) :=
  g ← createWithScales "ObsValue/radiance" ["Location"; "Channel"] float_t (Some (VFloat (-99))) g0;
  createWithScales "DerivedObsValue/radiance_9" ["Location"] float_t (Some (VFloat (-99))) g.

Lemma skip_derived_ignored_witness : exists g, derived = Ok g /\ has g "ObsValue" "radiance_9" true = Ok true /\
  exists e, loadVar g cm float_t "ObsValue" "radiance_9" [] true = Throw e.
Proof.
  destruct derived as [g|e] eqn:E; [|vm_compute in E; discriminate]. exists g. split; [done|].
  assert (Hx : forall x b, match derived with Ok g => Bool.eqb (exists_var g x) b | Throw _ => false end = true -> exists_var g x = b).
  { intros x b. rewrite E. apply Bool.eqb_prop. }
  apply (skip_derived_ignored g cm float_t "ObsValue" "radiance" 9).
  - lia.
  - apply Hx. vm_compute. reflexivity.
  - apply Hx. vm_compute. reflexivity.
  - apply Hx. vm_compute. reflexivity.
Defined.
End Sample.
