(* ===== verification/ObsExtend.v ===== *)
(** The extension of the ObsSpaces of all ranks with companion locations
    ([extendObsSpace] of src/src/ObsSpace.cc): every record gets a companion
    record of fixed length on the ranks that hold it, and the distribution is
    replaced with the pair of the original one and its replica. *)
From stdpp Require Import base list gmap strings sorting.
From Stdlib Require Import ZArith.
From S2P Require Import Prelude Mpi Distribution Nonoverlapping Inefficient Replica DistributionUtils PairOfDistributions.
From S2P Require Import Selection VarAttrStore ObsTypes ObsAttributes ObsVariables ObsFrame ObsFrameRead ObsFrameReadSpec.
From S2P Require Import ObsSpaceInit ObsRecords ObsSpaceVars.

(** The data members of an ObsSpace that the extension uses; [sp_nlocs] is the
    size of Location in [dim_info_]. *)
Record Space (F : Type) := {
  sp_group : ObsGroup F;
  sp_nlocs : nat;
  sp_gnlocs : nat;
  sp_nrecs : nat;
  sp_indx : list nat;
  sp_recnums : list nat;
  sp_recidx : RecIdxMap
}.
Arguments sp_group {F} _.
Arguments sp_nlocs {F} _.
Arguments sp_gnlocs {F} _.
Arguments sp_nrecs {F} _.
Arguments sp_indx {F} _.
Arguments sp_recnums {F} _.
Arguments sp_recidx {F} _.

(** A [std::set] is iterated in increasing order. *)
Definition uniqueOriginalRecs (recnums_ : list nat) : list nat :=
  merge_sort le (elements (list_to_set recnums_ : gset nat)).

Definition back {A} (l : list A) : res A := match last l with Some x => Ok x | None => Throw EUndefined end.

(** The bounds on the numbers of locations and records known to a rank. *)
Definition upperBounds {F} (s : Space F) : res (nat * nat) :=
  if decide (0 < sp_nlocs s) then
    loc ← back (sp_indx s);
    rec ← back (uniqueOriginalRecs (sp_recnums s));
    Ok (loc + 1, rec + 1)
  else Ok (0, 0).

(** ** The companion locations of one rank *)

(** The members that change, the object of the replica distribution on this rank
    and the number of companion locations made so far. *)
Record Companions (S : Type) := {
  c_replica : S;
  c_nrecs : nat;
  c_recidx : RecIdxMap;
  c_recnums : list nat;
  c_indx : list nat;
  companionLoc : nat
}.
Arguments c_replica {S} _.
Arguments c_nrecs {S} _.
Arguments c_recidx {S} _.
Arguments c_recnums {S} _.
Arguments c_indx {S} _.
Arguments companionLoc {S} _.

Section companions.
Context {S : Type} (master_isMyRecord : nat -> bool) (assignRecord : S -> nat -> nat -> S) (isMyRecord : S -> nat -> bool).
Context (nlevs numOriginalLocs upperBoundOnGlobalNumOriginalLocs upperBoundOnGlobalNumOriginalRecs : nat).

Definition companion_level (originalRec : nat) (c : Companions S) (ilev : nat) : res (Companions S) :=
  let extendedRec := upperBoundOnGlobalNumOriginalRecs + originalRec in
  let extendedLoc := numOriginalLocs + companionLoc c in
  let globalCompanionLoc := originalRec * nlevs + ilev in
  let globalExtendedLoc := upperBoundOnGlobalNumOriginalLocs + globalCompanionLoc in
  let replica := assignRecord (c_replica c) originalRec globalCompanionLoc in
  _ ← assert (isMyRecord replica originalRec);
  Ok {| c_replica := replica; c_nrecs := c_nrecs c; c_recidx := push extendedRec extendedLoc (c_recidx c);
        c_recnums := c_recnums c ++ [extendedRec]; c_indx := c_indx c ++ [globalExtendedLoc];
        companionLoc := companionLoc c + 1 |}.

Definition companion_record (c : Companions S) (originalRec : nat) : res (Companions S) :=
  _ ← assert (master_isMyRecord originalRec);
  let extendedRec := upperBoundOnGlobalNumOriginalRecs + originalRec in
  foldM (companion_level originalRec)
    {| c_replica := c_replica c; c_nrecs := c_nrecs c + 1;
       c_recidx := <[extendedRec := default [] (c_recidx c !! extendedRec)]> (c_recidx c);
       c_recnums := c_recnums c; c_indx := c_indx c; companionLoc := companionLoc c |} (seq 0 nlevs).

Definition companions {F} (s : Space F) (replica : S) : res (Companions S) :=
  foldM companion_record
    {| c_replica := replica; c_nrecs := sp_nrecs s; c_recidx := sp_recidx s; c_recnums := sp_recnums s;
       c_indx := sp_indx s; companionLoc := 0 |} (uniqueOriginalRecs (sp_recnums s)).
End companions.

(** What a rank has after the loop, whatever the kind of the replica. *)
Definition forget {S} (c : Companions S) : Companions unit :=
  {| c_replica := (); c_nrecs := c_nrecs c; c_recidx := c_recidx c; c_recnums := c_recnums c; c_indx := c_indx c;
     companionLoc := companionLoc c |}.

(** The loops of all ranks, with the virtual calls on the replica dispatched. *)
Definition companions_all {F} (master : Distribution) (nlevs : nat) (o : ReplicaObject) (spaces : list (Space F))
    (ubLocs ubRecs : list nat) : res (ReplicaObject * list (Companions unit)) :=
  let run {S} (assign : nat -> S -> nat -> nat -> S) (isMy : nat -> S -> nat -> bool) (ss : list S) :=
    imapR (fun rank '(s, (r, (ubLoc, ubRec))) =>
      companions (isMyRecord master rank) (assign rank) (isMy rank) nlevs (sp_nlocs s) ubLoc ubRec s r)
      (zip spaces (zip ss (zip ubLocs ubRecs))) in
  match o with
  | RNonoverlapping ss =>
      cs ← run (fun rank => Nonoverlapping_assignRecord (ReplicaOfNonoverlapping_isMyRecord master rank))
             (fun rank _ => ReplicaOfNonoverlapping_isMyRecord master rank) ss;
      Ok (RNonoverlapping (map c_replica cs), map forget cs)
  | RInefficient size =>
      cs ← run (fun _ u _ _ => u) (fun _ _ _ => true) (replicate size ());
      Ok (RInefficient size, map forget cs)
  | RGeneral ss =>
      cs ← run (Replica_assignRecord master) (fun _ => Replica_isMyRecord) ss;
      Ok (RGeneral (map c_replica cs), map forget cs)
  end.

(** ** The variables of one rank *)

Section group.
Context {F : Type} `{FO : FloatOps F} `{MV : MissingValues F}.

(** [==] on the elements of a variable. *)
Definition val_eqb (x y : Val F) : bool :=
  match x, y with
  | VInt a, VInt b | VInt64 a, VInt64 b | VChar a, VChar b => Z.eqb a b
  | VFloat a, VFloat b => f_eqb a b
  | VString a, VString b => bool_decide (a = b)
  | _, _ => false
  end.

(** One variable of [nonMissingExtendedVars]. *)
Definition extend_var (upperBound : nat) (s : ObsGroup F * RecIdxMap) (varName : string)
  : res (ObsGroup F * RecIdxMap) :=
  let '(g, recidx_) := s in
  let fullVname := fullVarName "MetaData" varName in
  if exists_var g fullVname then
    extendVar ← vars_open fullVname g;
    t ← supportedType (fv_var extendVar);
    varVals ← front_read (zero_val t) t front_all front_all (fv_var extendVar);
    '(varVals, recidx_) ← extendVariable val_eqb (missing_val t) upperBound recidx_ varVals;
    g ← vars_update fullVname (fun v => front_write varVals t front_all front_all (fv_var v)) g;
    Ok (g, recidx_)
  else Ok (g, recidx_).

(** Resizing, filling and marking the companion locations. *)
Definition extend_group (cm : gmap Z nat) (nonMissingExtendedVars : list string) (upperBound numOriginalLocs numCompanionLocs : nat)
    (g : ObsGroup F) (recidx_ : RecIdxMap) : res (ObsGroup F * RecIdxMap) :=
  let numExtendedLocs := numOriginalLocs + numCompanionLocs in
  g ← resizeLocation (Z.of_nat numExtendedLocs) false g;
  '(g, recidx_) ← foldM (extend_var upperBound) (g, recidx_) nonMissingExtendedVars;
  let extendedObsSpace := replicate numOriginalLocs (VInt 0) ++ replicate (numExtendedLocs - numOriginalLocs) (VInt 1) in
  g ← saveVar g cm int_t "MetaData" "extendedObsSpace" extendedObsSpace ["Location"];
  Ok (g, recidx_).

Definition extend_rank (cm : gmap Z nat) (nonMissingExtendedVars : list string) (s : Space F) (c : Companions unit) (ubRec : nat)
  : res (Space F) :=
  '(g, recidx) ← extend_group cm nonMissingExtendedVars ubRec (sp_nlocs s) (companionLoc c) (sp_group s) (c_recidx c);
  Ok {| sp_group := g; sp_nlocs := sp_nlocs s + companionLoc c; sp_gnlocs := sp_gnlocs s; sp_nrecs := c_nrecs c;
        sp_indx := c_indx c; sp_recnums := c_recnums c; sp_recidx := recidx |}.

(** ** All ranks *)

Definition add_gnlocs (s : Space F) (globalNumCompanionLocs : nat) : Space F :=
  {| sp_group := sp_group s; sp_nlocs := sp_nlocs s; sp_gnlocs := sp_gnlocs s + globalNumCompanionLocs;
     sp_nrecs := sp_nrecs s; sp_indx := sp_indx s; sp_recnums := sp_recnums s; sp_recidx := sp_recidx s |}.

Definition extends (companionRecordLength : Z) (recordsExist : bool) (s : Space F) : bool :=
  (0 <? companionRecordLength)%Z && (0 <? sp_gnlocs s) && recordsExist.

(** If some ranks extend and others do not, the collective calls do not match. *)
Definition extendObsSpace `{MpiComm} (cm : gmap Z nat) (companionRecordLength : Z) (recordsExist : bool)
    (nonMissingExtendedVars : list string) (dist_ : Distribution) (spaces : list (Space F))
  : res (Distribution * list (Space F)) :=
  if forallb (extends companionRecordLength recordsExist) spaces then
    let nlevs := Z.to_nat companionRecordLength in
    bounds ← mapR upperBounds spaces;
    let ubLocs := dist_max dist_ (map fst bounds) in
    let ubRecs := dist_max dist_ (map snd bounds) in
    o ← createReplicaDistribution dist_ (map sp_recnums spaces);
    '(o, cs) ← companions_all dist_ nlevs o spaces ubLocs ubRecs;
    replicaDist ← ReplicaObject_computePatchLocs dist_ o;
    spaces' ← mapR (fun '(s, (c, ubRec)) => extend_rank cm nonMissingExtendedVars s c ubRec) (zip spaces (zip cs ubRecs));
    counts ← accumulate (createAccumulator replicaDist nat nat_Num) (map (fun c => replicate (companionLoc c) 1) cs);
    dist' ← Pair_dist dist_ replicaDist (map sp_nlocs spaces) ubRecs;
    Ok (dist', zip_with add_gnlocs spaces' counts)
  else if existsb (extends companionRecordLength recordsExist) spaces then Throw EUndefined
  else Ok (dist_, spaces).
End group.

(** * Companion locations *)

(** The records and global numbers of the companion locations of [recs]. *)
Definition companion_locs (nlevs : nat) (recs : list nat) : list (nat * nat) :=
  concat (map (fun r => map (fun l => (r, r * nlevs + l)) (seq 0 nlevs)) recs).

Lemma companion_locs_snoc nlevs recs r :
  companion_locs nlevs (recs ++ [r]) = companion_locs nlevs recs ++ map (fun l => (r, r * nlevs + l)) (seq 0 nlevs).
Proof. unfold companion_locs. rewrite map_app, concat_app. simpl. by rewrite app_nil_r. Qed.

Lemma length_companion_locs nlevs recs : length (companion_locs nlevs recs) = length recs * nlevs.
Proof. unfold companion_locs. apply length_concat_map_uniform. intros. by rewrite length_map, length_seq. Qed.

Lemma elem_of_companion_locs nlevs recs r l :
  (r, l) ∈ companion_locs nlevs recs <-> r ∈ recs /\ exists j, j < nlevs /\ l = r * nlevs + j.
Proof.
  unfold companion_locs. rewrite elem_of_concat_map. setoid_rewrite list_elem_of_fmap. split.
  - intros (r' & Hr & j & [= -> ->] & Hj%elem_of_seq). split; [done|]. exists j. lia.
  - intros (Hr & j & Hj & ->). exists r. split; [done|]. exists j. split; [done|]. apply elem_of_seq. lia.
Qed.

Lemma NoDup_companion_locs nlevs recs : 0 < nlevs -> NoDup recs -> NoDup (map snd (companion_locs nlevs recs)).
Proof.
  intros Hn. induction 1 as [|r recs Hr Hnd IH]; [constructor|].
  unfold companion_locs. cbn [map concat]. rewrite map_app. apply NoDup_app. split_and!.
  - rewrite map_map. apply NoDup_fmap_2; [intros a b; simpl; lia|apply NoDup_seq].
  - intros x (y & -> & Hy)%list_elem_of_fmap (z & E & Hz)%list_elem_of_fmap.
    apply list_elem_of_fmap in Hy as (j & -> & Hj%elem_of_seq). destruct z as [r' l'].
    apply (elem_of_companion_locs nlevs recs) in Hz as (Hr' & j' & Hj' & ->). simpl in E.
    assert (r = r') by nia. congruence.
  - exact IH.
Qed.

Section companions_spec.
Context {F S : Type} (master : nat -> bool) (assign : S -> nat -> nat -> S) (isMy : S -> nat -> bool).
Context (nlevs n ubLoc ubRec : nat) (s : Space F) (replica : S).
Let recs := uniqueOriginalRecs (sp_recnums s).
Context (Hmaster : forall r, r ∈ recs -> master r = true)
  (Hassign : forall c r l, r ∈ recs -> isMy (assign c r l) r = true)
  (Hfree : forall r, r ∈ recs -> sp_recidx s !! (ubRec + r) = None).

(** The state after the companions [locs] were made. *)
Definition companions_at (recidx : RecIdxMap) (nr : nat) (locs : list (nat * nat)) : Companions S :=
  {| c_replica := foldl (fun c '(r, l) => assign c r l) replica locs; c_nrecs := nr; c_recidx := recidx;
     c_recnums := sp_recnums s ++ map (fun x => ubRec + x.1) locs; c_indx := sp_indx s ++ map (fun x => ubLoc + x.2) locs;
     companionLoc := length locs |}.

Lemma companion_level_at recidx nr locs r l : r ∈ recs ->
  companion_level assign isMy nlevs n ubLoc ubRec r (companions_at recidx nr locs) l =
    Ok (companions_at (push (ubRec + r) (n + length locs) recidx) nr (locs ++ [(r, r * nlevs + l)])).
Proof.
  intros Hr. unfold companion_level. cbn [c_replica companions_at]. rewrite Hassign by done. cbn [assert mbind res_bind].
  unfold companions_at. cbn [c_nrecs c_recidx c_recnums c_indx companionLoc]. rewrite foldl_app, !map_app, !app_assoc, length_app. done.
Qed.

Lemma companion_levels_at recidx nr locs r base k : r ∈ recs -> recidx !! (ubRec + r) = Some base ->
  exists recidx', foldM (companion_level assign isMy nlevs n ubLoc ubRec r) (companions_at recidx nr locs) (seq 0 k) =
      Ok (companions_at recidx' nr (locs ++ map (fun l => (r, r * nlevs + l)) (seq 0 k))) /\
    recidx' !! (ubRec + r) = Some (base ++ seq (n + length locs) k) /\
    forall x, x <> ubRec + r -> recidx' !! x = recidx !! x.
Proof.
  intros Hr Hb. induction k as [|k (recidx' & IH & H1 & H2)].
  - exists recidx. simpl. by rewrite !app_nil_r.
  - rewrite seq_S, foldM_app. rewrite IH. cbn [mbind res_bind foldM]. rewrite companion_level_at by done. cbn [mbind res_bind].
    eexists. split; [rewrite map_app, app_assoc; reflexivity|]. split.
    + unfold push. rewrite lookup_insert_eq, H1. cbn [default]. rewrite seq_S, app_assoc, length_app, length_map, length_seq. do 3 f_equal. simpl. lia.
    + intros x Hx. unfold push. by rewrite lookup_insert_ne, H2.
Qed.

Lemma uniqueOriginalRecs_spec l : StronglySorted lt (uniqueOriginalRecs l) /\ forall r, r ∈ uniqueOriginalRecs l <-> r ∈ l.
Proof.
  unfold uniqueOriginalRecs. set (u := elements (list_to_set l : gset nat)).
  assert (Hp : merge_sort le u ≡ₚ u) by apply (merge_sort_Permutation le). split.
  - pose proof (StronglySorted_merge_sort le u) as Hs.
    assert (Hnd : NoDup (merge_sort le u)) by (rewrite Hp; apply NoDup_elements).
    clear -Hs Hnd. induction Hs as [|x l' Hs IH Hx]; [constructor|]. apply NoDup_cons in Hnd as [Hni Hnd].
    constructor; [auto|]. rewrite list.Forall_forall in Hx |- *. intros y Hy. specialize (Hx y Hy).
    assert (x <> y) by congruence. lia.
  - intros r. rewrite Hp. unfold u. rewrite elem_of_elements. apply elem_of_list_to_set.
Qed.

(** The record index of the companions: consecutive locations, in the order of
    the records. *)
Definition companion_index (recidx : RecIdxMap) (don : list nat) : Prop :=
  (forall i r, don !! i = Some r -> recidx !! (ubRec + r) = Some (seq (n + i * nlevs) nlevs)) /\
  forall x, (forall r, r ∈ don -> x <> ubRec + r) -> recidx !! x = sp_recidx s !! x.

Lemma companions_ok :
  exists recidx, companions master assign isMy nlevs n ubLoc ubRec s replica =
      Ok (companions_at recidx (sp_nrecs s + length recs) (companion_locs nlevs recs)) /\ companion_index recidx recs.
Proof.
  unfold companions. fold recs. destruct (uniqueOriginalRecs_spec (sp_recnums s)) as [Hs _].
  destruct (foldM_ind (companion_record master assign isMy nlevs n ubLoc ubRec)
    (fun don c => exists recidx, c = companions_at recidx (sp_nrecs s + length don) (companion_locs nlevs don) /\ companion_index recidx don)
    {| c_replica := replica; c_nrecs := sp_nrecs s; c_recidx := sp_recidx s; c_recnums := sp_recnums s;
       c_indx := sp_indx s; companionLoc := 0 |} recs) as (c & Hf & recidx & -> & Hi).
  - exists (sp_recidx s). split; [unfold companions_at; simpl; by rewrite !app_nil_r, Nat.add_0_r|]. split; [done|]. done.
  - intros don r c (recidx & -> & Hi1 & Hi2) [rest Hl]. rewrite <-app_assoc in Hl. assert (Hr : r ∈ recs) by (rewrite Hl; apply elem_of_app; right; left).
    assert (Hnr : r ∉ don).
    { fold recs in Hs. rewrite Hl in Hs. apply StronglySorted_lt_NoDup in Hs. apply NoDup_app in Hs as (_ & Hd & _).
      intros Hin. apply (Hd r Hin). left. }
    unfold companion_record. rewrite (Hmaster r Hr). cbn [assert mbind res_bind].
    assert (Hnone : recidx !! (ubRec + r) = None).
    { rewrite Hi2; [by apply Hfree|]. intros r' Hr' E. assert (r' = r) by lia. congruence. }
    cbn [c_recidx companions_at]. rewrite Hnone. cbn [default].
    destruct (companion_levels_at (<[ubRec + r := []]> recidx) (sp_nrecs s + length don + 1) (companion_locs nlevs don) r [] nlevs Hr)
      as (recidx' & Hf & H1 & H2); [by rewrite lookup_insert_eq|].
    eexists. split; [exact Hf|]. exists recidx'. split.
    { rewrite companion_locs_snoc, length_app. unfold companions_at. simpl. f_equal. lia. }
    split.
    + intros i r' Hi. destruct (decide (i < length don)) as [Hlt|Hge].
      * rewrite lookup_app_l in Hi by done. assert (r' ∈ don) by (by eapply list_elem_of_lookup_2).
        rewrite H2, lookup_insert_ne by (intros E; assert (r' = r) by lia; congruence). by apply Hi1.
      * rewrite lookup_app_r in Hi by lia. destruct (i - length don) as [|j] eqn:Ej; [|done]. injection Hi as <-.
        rewrite H1, length_companion_locs. simpl. do 2 f_equal. nia.
    + intros x Hx. rewrite H2, lookup_insert_ne.
      * apply Hi2. intros r' Hr'. apply Hx, elem_of_app. by left.
      * intros E. apply (Hx r); [apply elem_of_app; right; left|done].
      * apply Hx, elem_of_app. right. left.
  - exists recidx. split; [exact Hf|exact Hi].
Qed.
End companions_spec.

(** * All ranks, for any kind of distribution *)

Section extend_all.
Context `{MC : MpiComm} {F : Type} `{FO : FloatOps F} `{MV : MissingValues F}.
Context (cm : gmap Z nat) (nlevs : nat) (vars : list string) (master : Distribution) (spaces : list (Space F)).

Definition recs_of (s : Space F) : list nat := uniqueOriginalRecs (sp_recnums s).
Definition bound_loc (s : Space F) : nat := match last (sp_indx s) with Some x => x + 1 | None => 0 end.
Definition bound_rec (s : Space F) : nat := match last (recs_of s) with Some x => x + 1 | None => 0 end.
Definition all_locs : nat := max_list (map bound_loc spaces).
Definition all_recs : nat := max_list (map bound_rec spaces).
Definition original : list (list nat) := map sp_indx spaces.
Definition companion : list (list nat) := map (fun s => map snd (companion_locs nlevs (recs_of s))) spaces.

(** An ObsSpace as the reader and the construction of the record index leave it. *)
Record space_ok (s : Space F) : Prop := {
  so_nlocs : sp_nlocs s = length (sp_indx s);
  so_recnums : length (sp_recnums s) = length (sp_indx s);
  so_sorted : StronglySorted lt (sp_indx s);
  so_gnlocs : 0 < sp_gnlocs s;
  so_recidx : forall r l, sp_recidx s !! r = Some l -> r ∈ sp_recnums s;
  so_index : forall r l j, sp_recidx s !! r = Some l -> j ∈ l -> sp_recnums s !! j = Some r
}.

Context (Hnlevs : 0 < nlevs) (Hsp : Forall space_ok spaces).

Lemma space_lookup s : s ∈ spaces -> space_ok s.
Proof. rewrite list.Forall_forall in Hsp. apply Hsp. Qed.

Lemma upperBounds_ok : mapR upperBounds spaces = Ok (map (fun s => (bound_loc s, bound_rec s)) spaces).
Proof.
  apply mapR_Ok. intros s Hs. destruct (space_lookup s Hs) as [H1 H2 _ _ _ _]. unfold upperBounds, back, bound_loc, bound_rec.
  rewrite H1. destruct (decide (0 < length (sp_indx s))) as [Hlt|Hge].
  - destruct (last (sp_indx s)) as [x|] eqn:Ex; [|apply last_None in Ex; rewrite Ex in Hlt; simpl in Hlt; lia].
    cbn [mbind res_bind]. destruct (last (recs_of s)) as [r|] eqn:Er; [unfold recs_of in Er; by rewrite Er|].
    apply last_None in Er. destruct (sp_recnums s) as [|r l] eqn:El; [simpl in H2; lia|].
    assert (Hr : r ∈ recs_of s) by (unfold recs_of; rewrite El; apply uniqueOriginalRecs_spec; left).
    rewrite Er in Hr. by apply elem_of_nil in Hr.
  - assert (E : sp_indx s = []) by (destruct (sp_indx s); [done|simpl in Hge; lia]). unfold recs_of.
    assert (E' : sp_recnums s = []) by (destruct (sp_recnums s); [done|rewrite E in H2; done]). by rewrite E, E'.
Qed.

Lemma below_all_locs s x : s ∈ spaces -> x ∈ sp_indx s -> x < all_locs.
Proof.
  intros Hs Hx. apply (sorted_below_last _ (so_sorted s (space_lookup s Hs))) in Hx.
  eapply Nat.lt_le_trans; [exact Hx|]. apply max_list_elem_of_le, list_elem_of_fmap. by exists s.
Qed.

Lemma below_all_recs s r : s ∈ spaces -> r ∈ sp_recnums s -> r < all_recs.
Proof.
  intros Hs Hr. destruct (uniqueOriginalRecs_spec (sp_recnums s)) as [H1 H2]. apply H2 in Hr.
  apply (sorted_below_last _ H1) in Hr.
  eapply Nat.lt_le_trans; [exact Hr|]. apply max_list_elem_of_le, list_elem_of_fmap. by exists s.
Qed.

Lemma companions_free s r : s ∈ spaces -> r ∈ recs_of s -> sp_recidx s !! (all_recs + r) = None.
Proof.
  intros Hs Hr. destruct (sp_recidx s !! (all_recs + r)) as [l|] eqn:E; [|done].
  apply (so_recidx s (space_lookup s Hs)), (below_all_recs s) in E; [lia|done].
Qed.

(** What the loop over the records leaves on a rank. *)
Record companions_done (s : Space F) (c : Companions unit) : Prop := {
  cd_nrecs : c_nrecs c = sp_nrecs s + length (recs_of s);
  cd_recnums : c_recnums c = sp_recnums s ++ map (fun x => all_recs + x.1) (companion_locs nlevs (recs_of s));
  cd_indx : c_indx c = sp_indx s ++ map (fun x => all_locs + x.2) (companion_locs nlevs (recs_of s));
  cd_count : companionLoc c = length (companion_locs nlevs (recs_of s));
  cd_recidx : companion_index nlevs (sp_nlocs s) all_recs s (c_recidx c) (recs_of s)
}.

(** The arguments of the loops. *)
Lemma ranks_lookup {S} (ss : list S) rank s r0 :
  spaces !! rank = Some s -> ss !! rank = Some r0 ->
  zip spaces (zip ss (zip (replicate (length spaces) all_locs) (replicate (length spaces) all_recs))) !! rank =
    Some (s, (r0, (all_locs, all_recs))).
Proof.
  intros Hs Hr. apply lookup_zip_with_Some. eexists _, _. split_and!; [reflexivity|done|]. apply lookup_zip_with_Some.
  eexists _, _. split_and!; [reflexivity|done|]. apply lookup_zip_with_Some.
  eexists _, _. split_and!; [reflexivity|..]; apply lookup_replicate_2; by eapply lookup_lt_Some.
Qed.

(** The loops of all ranks, for one kind of replica. *)
Lemma companions_run {S} (assign : nat -> S -> nat -> nat -> S) (isMy : nat -> S -> nat -> bool) (ss : list S) :
  length ss = length spaces ->
  (forall rank s r, spaces !! rank = Some s -> r ∈ recs_of s -> isMyRecord master rank r = true) ->
  (forall rank s c r l, spaces !! rank = Some s -> r ∈ recs_of s -> isMy rank (assign rank c r l) r = true) ->
  exists cs, imapR (fun rank '(s, (r, (ubLoc, ubRec))) =>
      companions (isMyRecord master rank) (assign rank) (isMy rank) nlevs (sp_nlocs s) ubLoc ubRec s r)
      (zip spaces (zip ss (zip (replicate (length spaces) all_locs) (replicate (length spaces) all_recs)))) = Ok cs /\
    Forall2 companions_done spaces (map forget cs) /\
    forall rank s r0, spaces !! rank = Some s -> ss !! rank = Some r0 ->
      map c_replica cs !! rank = Some (foldl (fun c '(r, l) => assign rank c r l) r0 (companion_locs nlevs (recs_of s))).
Proof.
  intros Hl Hm Ha.
  destruct (imapR_spec (fun rank '(s, (r, (ubLoc, ubRec))) =>
      companions (isMyRecord master rank) (assign rank) (isMy rank) nlevs (sp_nlocs s) ubLoc ubRec s r)
    (fun rank '(s, (r0, _)) c => companions_done s (forget c) /\
      c_replica c = foldl (fun c '(r, l) => assign rank c r l) r0 (companion_locs nlevs (recs_of s)))
    (zip spaces (zip ss (zip (replicate (length spaces) all_locs) (replicate (length spaces) all_recs))))) as (cs & Hf & Hlen & Hcs).
  - intros rank [s [r0 [ubLoc ubRec]]] Hi.
    apply lookup_zip_with_Some in Hi as (s' & x & E & Hs & Hx). injection E as <- <-.
    apply lookup_zip_with_Some in Hx as (r' & y & E & Hr0 & Hy). injection E as <- <-.
    apply lookup_zip_with_Some in Hy as (a & b & E & Hy1 & Hy2). injection E as <- <-.
    apply lookup_replicate in Hy1 as [-> _]. apply lookup_replicate in Hy2 as [-> _].
    assert (Hin : s ∈ spaces) by (by eapply list_elem_of_lookup_2).
    destruct (companions_ok (isMyRecord master rank) (assign rank) (isMy rank) nlevs (sp_nlocs s) all_locs all_recs s r0)
      as (recidx & Hc & Hidx).
    { intros r Hr. by eapply Hm. } { intros c r l Hr. by eapply Ha. } { intros r Hr. by apply companions_free. }
    eexists. split; [exact Hc|]. split; [|done]. split; try done.
  - rewrite !length_zip_with, !length_replicate in Hlen. exists cs. split_and!; [exact Hf| |].
    + apply Forall2_same_length_lookup_2; [rewrite length_map; lia|]. intros rank s c Hs Hc.
      rewrite list_lookup_fmap in Hc. destruct (lookup_lt_is_Some_2 ss rank) as [r0 Hr0]; [rewrite Hl; by eapply lookup_lt_Some|].
      destruct (Hcs rank (s, (r0, (all_locs, all_recs)))) as (c' & Hc' & Hd & _).
      { by apply ranks_lookup. }
      rewrite Hc' in Hc. by simplify_eq/=.
    + intros rank s r0 Hs Hr0. rewrite list_lookup_fmap.
      destruct (Hcs rank (s, (r0, (all_locs, all_recs)))) as (c' & Hc' & _ & Hrep).
      { by apply ranks_lookup. }
      rewrite Hc'. simpl. by rewrite Hrep.
Qed.

(** ** The extended ObsSpaces *)

(** What the rest of the work on a rank gives; [Q] relates the group and the
    record index before and after. *)
Context (Q : Space F -> RecIdxMap -> ObsGroup F -> RecIdxMap -> Prop).
Context (Hgroup : forall s recidx, s ∈ spaces ->
  companion_index nlevs (sp_nlocs s) all_recs s recidx (recs_of s) ->
  exists g' recidx', extend_group cm vars all_recs (sp_nlocs s) (length (companion_locs nlevs (recs_of s))) (sp_group s) recidx =
      Ok (g', recidx') /\ Q s recidx g' recidx').

Record extended (total : nat) (s s' : Space F) : Prop := {
  ex_nlocs : sp_nlocs s' = sp_nlocs s + length (recs_of s) * nlevs;
  ex_gnlocs : sp_gnlocs s' = sp_gnlocs s + total;
  ex_nrecs : sp_nrecs s' = sp_nrecs s + length (recs_of s);
  ex_recnums : sp_recnums s' = sp_recnums s ++ map (fun x => all_recs + x.1) (companion_locs nlevs (recs_of s));
  ex_indx : sp_indx s' = sp_indx s ++ map (fun x => all_locs + x.2) (companion_locs nlevs (recs_of s));
  ex_rest : exists recidx, companion_index nlevs (sp_nlocs s) all_recs s recidx (recs_of s) /\
    Q s recidx (sp_group s') (sp_recidx s')
}.

Lemma extend_ranks ss cs : (forall s, s ∈ ss -> s ∈ spaces) -> Forall2 companions_done ss cs ->
  exists ss', mapR (fun '(s, (c, ubRec)) => extend_rank cm vars s c ubRec)
      (zip ss (zip cs (replicate (length ss) all_recs))) = Ok ss' /\
    forall n, Forall2 (extended n) ss (zip_with add_gnlocs ss' (replicate (length ss) n)).
Proof.
  intros Hin Hcs. induction Hcs as [|s c ss cs Hc Hcs IH]; cbn [length replicate zip zip_with mapR].
  - exists []. by split.
  - destruct IH as (ss' & Hss & Hext); [intros x Hx; apply Hin; by right|].
    destruct Hc as [H1 H2 H3 H4 H5].
    destruct (Hgroup s (c_recidx c)) as (g' & recidx' & Hg & HQ); [apply Hin; left|done|].
    assert (Hr : extend_rank cm vars s c all_recs = Ok
      {| sp_group := g'; sp_nlocs := sp_nlocs s + companionLoc c; sp_gnlocs := sp_gnlocs s; sp_nrecs := c_nrecs c;
         sp_indx := c_indx c; sp_recnums := c_recnums c; sp_recidx := recidx' |}) by (unfold extend_rank; by rewrite H4, Hg).
    cbv beta iota. rewrite Hr. cbn [mbind res_bind]. rewrite Hss. cbn [mbind res_bind]. eexists. split; [reflexivity|].
    intros n. cbn [zip_with]. constructor; [|apply Hext]. split; simpl; [by rewrite H4, length_companion_locs|done..|].
    exists (c_recidx c). by split.
Qed.

(** The locations of the pair, by their global numbers. *)
Lemma extended_indx n ss ss' : Forall2 (extended n) ss ss' ->
  map sp_indx ss' = map (map (fun x => match x with inl g => g | inr k => all_locs + k end))
    (pair_held (map sp_indx ss) (map (fun s => map snd (companion_locs nlevs (recs_of s))) ss)).
Proof.
  rewrite pair_held_map. induction 1 as [|s s' ss ss' Hs Hss IH]; [done|]. cbn [map zip_with]. rewrite IH. f_equal.
  rewrite (ex_indx _ _ _ Hs), map_map. f_equal. by rewrite (map_ext _ id), map_id.
Qed.

Lemma extend_generic o0 o cs d2 P1 P2 :
  createReplicaDistribution master (map sp_recnums spaces) = Ok o0 ->
  dist_max master (map bound_loc spaces) = replicate (length spaces) all_locs ->
  dist_max master (map bound_rec spaces) = replicate (length spaces) all_recs ->
  companions_all master nlevs o0 spaces (replicate (length spaces) all_locs) (replicate (length spaces) all_recs) = Ok (o, cs) ->
  Forall2 companions_done spaces cs -> ReplicaObject_computePatchLocs master o = Ok d2 ->
  DistContract master original P1 -> DistContract d2 companion P2 ->
  Pair_offsets master (map length original) = Ok (replicate (length original) (length P1)) ->
  exists d' spaces', extendObsSpace cm (Z.of_nat nlevs) true vars master spaces = Ok (d', spaces') /\
    DistContract d' (map sp_indx spaces') (P1 ++ map (fun k => all_locs + k) P2) /\
    Forall2 (extended (length P2)) spaces spaces' /\
    forall rank r, rank < length spaces ->
      isMyRecord d' rank (all_recs + r) = isMyRecord d2 rank r /\ (r < all_recs -> isMyRecord d' rank r = isMyRecord master rank r).
Proof.
  intros Ho HA HB Hc Hcs Hp H1 H2 Hoff. unfold extendObsSpace.
  assert (Hguard : forallb (extends (Z.of_nat nlevs) true) spaces = true).
  { apply forallb_forall. intros s Hs%list_elem_of_In. unfold extends. pose proof (so_gnlocs s (space_lookup s Hs)).
    rewrite (proj2 (Z.ltb_lt _ _)), (proj2 (Nat.ltb_lt _ _)) by lia. done. }
  rewrite Hguard, upperBounds_ok, Nat2Z.id. cbn [mbind res_bind].
  assert (E1 : map fst (map (fun s => (bound_loc s, bound_rec s)) spaces) = map bound_loc spaces) by (by rewrite map_map).
  assert (E2 : map snd (map (fun s => (bound_loc s, bound_rec s)) spaces) = map bound_rec spaces) by (by rewrite map_map).
  rewrite E1, E2, Ho. cbn [mbind res_bind]. rewrite HA, HB, Hc. cbn [mbind res_bind]. rewrite Hp. cbn [mbind res_bind].
  destruct (extend_ranks spaces cs ltac:(done) Hcs) as (ss' & Hss & Hext). rewrite Hss. cbn [mbind res_bind].
  assert (Hacc : accumulate (createAccumulator d2 nat nat_Num) (map (fun c => replicate (companionLoc c) 1) cs) =
    Ok (replicate (length spaces) (length P2))).
  { replace (map (fun c => replicate (companionLoc c) 1) cs) with (map (map (fun _ : nat => 1)) companion).
    - rewrite (dc_accumulate H2 nat nat_Num _ (fun _ => 1)). unfold companion. rewrite length_map. do 2 f_equal.
      clear. induction P2 as [|x P IH]; [done|]. cbn [map length]. rewrite nsum_nat_cons, IH. done.
    - unfold companion. clear -Hcs. induction Hcs as [|s c ss cs Hc Hcs IH]; [done|]. cbn [map]. rewrite IH. f_equal.
      rewrite (cd_count _ _ Hc), map_map. clear. induction (companion_locs nlevs (recs_of s)) as [|x l IH]; [done|]. simpl. by rewrite IH. }
  rewrite Hacc. cbn [mbind res_bind].
  assert (Hnl : map sp_nlocs spaces = map length original).
  { unfold original. rewrite map_map. apply map_ext_in. intros s Hs%list_elem_of_In. apply (so_nlocs s (space_lookup s Hs)). }
  rewrite Hnl. assert (Hsize : dist_size master = dist_size d2).
  { rewrite <-(dc_ranks H1), <-(dc_ranks H2). unfold original, companion. by rewrite !length_map. }
  destruct (Pair_dist master d2 (map length original) (replicate (length spaces) all_recs)) as [d'|e] eqn:Ed;
    [|unfold Pair_dist in Ed; by rewrite Hoff in Ed].
  cbn [mbind res_bind]. eexists _, _. split; [reflexivity|]. split_and!; [|apply Hext|].
  - rewrite (extended_indx (length P2) spaces) by apply Hext. fold original companion.
    pose proof (pair_dist_contract master d2 original companion P1 P2 _ d' H1 H2 Hsize Hoff Ed) as Hpair.
    eapply (contract_map _ _ _ (fun x : nat + nat => match x with inl g => g | inr k => all_locs + k end)) in Hpair.
    + rewrite pair_patch_map in Hpair.
      match type of Hpair with DistContract _ _ (?a ++ _) => replace a with P1 in Hpair by (symmetry; apply map_id) end. exact Hpair.
    + assert (Hlt : forall g, g ∈ P1 -> g < all_locs).
      { intros g (l & (s & -> & Hs)%list_elem_of_fmap & Hg)%(dc_cover H1). by eapply below_all_locs. }
      unfold pair_patch. intros [x|x] [y|y] [(a & Ea & Hx)%list_elem_of_fmap|(a & Ea & Hx)%list_elem_of_fmap]%elem_of_app
        [(b & Eb & Hy)%list_elem_of_fmap|(b & Eb & Hy)%list_elem_of_fmap]%elem_of_app E; simplify_eq; try done.
      * apply Hlt in Hx. lia.
      * apply Hlt in Hy. lia.
      * f_equal. lia.
  - intros rank r Hr. unfold Pair_dist in Ed. rewrite Hoff in Ed. cbn [mbind res_bind] in Ed. injection Ed as <-.
    simpl. unfold Pair_isMyRecord. rewrite lookup_replicate_2 by done. cbn [default from_option id]. split.
    + rewrite decide_False by lia. f_equal. lia.
    + intros Hlt. by rewrite decide_True.
Qed.
End extend_all.

(** * Non-overlapping distributions *)

Section nonoverlapping.
Context `{ML : MpiLaws} {F : Type} `{FO : FloatOps F} `{MV : MissingValues F}.
Context (cm : gmap Z nat) (nlevs : nat) (vars : list string) (spaces : list (Space F)).
Context (isMy : nat -> nat -> bool) (ss : list NonoverlappingDistribution).
Let master := Nonoverlapping_dist isMy (Nonoverlapping_computePatchLocs ss).
Context (Hnlevs : 0 < nlevs) (Hsp : Forall space_ok spaces) (Hne : spaces <> []).
Context (Hcount : map numLocationsOnThisRank_ ss = map length (original spaces)).
Context (Hmine : forall rank s r, spaces !! rank = Some s -> r ∈ sp_recnums s -> isMy rank r = true).
Context (Hexcl : forall r1 r2 rec, r1 < length spaces -> r2 < length spaces -> isMy r1 rec = true -> isMy r2 rec = true -> r1 = r2).

Lemma ranks_size : length ss = length spaces.
Proof. apply (f_equal length) in Hcount. unfold original in Hcount. by rewrite !length_map in Hcount. Qed.

Lemma mine_recs rank s r : spaces !! rank = Some s -> r ∈ recs_of s -> isMyRecord master rank r = true.
Proof. intros Hs Hr. eapply (Hmine rank s); [done|]. by apply (uniqueOriginalRecs_spec (sp_recnums s)). Qed.

Lemma master_max (f : Space F -> nat) : dist_max master (map f spaces) = replicate (length spaces) (max_list (map f spaces)).
Proof.
  unfold dist_max. simpl. unfold Nonoverlapping_reduce. destruct (allReduce_max (map f spaces)) as [->|E].
  - by rewrite length_map.
  - by destruct spaces.
Qed.

(** The companions of different ranks are different. *)
Lemma NoDup_companion : NoDup (concat (companion nlevs spaces)).
Proof.
  assert (Hex : forall r1 r2 s1 s2 x, spaces !! r1 = Some s1 -> spaces !! r2 = Some s2 ->
    x ∈ map snd (companion_locs nlevs (recs_of s1)) -> x ∈ map snd (companion_locs nlevs (recs_of s2)) -> r1 = r2).
  { intros r1 r2 s1 s2 x H1 H2 ([a b] & -> & (Ha & j & Hj & ->)%elem_of_companion_locs)%list_elem_of_fmap
      ([a' b'] & E & (Ha' & j' & Hj' & ->)%elem_of_companion_locs)%list_elem_of_fmap. simpl in E.
    assert (a = a') as <- by nia. apply (Hexcl r1 r2 a); [by eapply lookup_lt_Some..| |].
    - by apply (mine_recs r1 s1).
    - by apply (mine_recs r2 s2). }
  unfold companion. clear -Hex Hnlevs. induction spaces as [|s l IH]; [constructor|]. cbn [map concat].
  apply NoDup_app. split_and!.
  - apply NoDup_companion_locs; [done|]. apply StronglySorted_lt_NoDup, uniqueOriginalRecs_spec.
  - intros x Hx (s' & Hs' & Hx')%elem_of_concat_map. apply list_elem_of_lookup in Hs' as [r Hr].
    by specialize (Hex 0 (S r) s s' x eq_refl Hr Hx Hx').
  - apply IH. intros r1 r2 s1 s2 x H1 H2 Hx1 Hx2. by specialize (Hex (S r1) (S r2) s1 s2 x H1 H2 Hx1 Hx2) as [= ->].
Qed.

(** The replica after the loops of all ranks. *)
Lemma nonoverlapping_replica :
  exists rs cs, companions_all master nlevs (RNonoverlapping (replicate (length spaces) NonoverlappingDistribution_new)) spaces
      (replicate (length spaces) (all_locs spaces)) (replicate (length spaces) (all_recs spaces)) = Ok (RNonoverlapping rs, cs) /\
    Forall2 (companions_done nlevs spaces) spaces cs /\
    map numLocationsOnThisRank_ rs = map length (companion nlevs spaces).
Proof.
  destruct (companions_run nlevs master spaces Hnlevs Hsp
    (fun rank => Nonoverlapping_assignRecord (ReplicaOfNonoverlapping_isMyRecord master rank))
    (fun rank _ => ReplicaOfNonoverlapping_isMyRecord master rank) (replicate (length spaces) NonoverlappingDistribution_new))
    as (cs & Hf & Hd & Hrep); [by rewrite length_replicate|apply mine_recs|intros; by eapply mine_recs|].
  exists (map c_replica cs), (map forget cs). split_and!; [|exact Hd|].
  { unfold companions_all. rewrite Hf. done. }
  assert (Hlc : length cs = length spaces) by (apply Forall2_length in Hd; by rewrite length_map in Hd).
  apply list_eq_same_length with (length spaces); [unfold companion; by rewrite !length_map|by rewrite !length_map|].
  intros rank a b Hr Ha Hb. rewrite list_lookup_fmap in Ha. unfold companion in Hb. rewrite map_map, list_lookup_fmap in Hb.
  destruct (lookup_lt_is_Some_2 spaces rank Hr) as [s Hs]. rewrite Hs in Hb. simpl in Hb. injection Hb as <-.
  rewrite (Hrep rank s NonoverlappingDistribution_new Hs) in Ha by (by apply lookup_replicate_2). simpl in Ha. injection Ha as <-.
  pose proof (assign_all_count (ReplicaOfNonoverlapping_isMyRecord master) (companion_locs nlevs (recs_of s)) rank NonoverlappingDistribution_new) as E.
  etrans; [exact E|]. simpl. unfold held. rewrite !length_map. f_equal.
  clear E. assert (Hall : forall x, x ∈ companion_locs nlevs (recs_of s) -> x.1 ∈ recs_of s).
  { intros [x y] (Hx & _)%elem_of_companion_locs. done. }
  revert Hall. generalize (companion_locs nlevs (recs_of s)) as l. induction l as [|[x y] l IH]; intros Hall; [done|].
  cbn [List.filter]. unfold ReplicaOfNonoverlapping_isMyRecord at 1. rewrite (mine_recs rank s x Hs (Hall (x, y) ltac:(left))).
  f_equal. apply IH. intros z Hz. apply Hall. by right.
Qed.

Context (Hnd : NoDup (concat (original spaces))).
Context (Q : Space F -> RecIdxMap -> ObsGroup F -> RecIdxMap -> Prop).
Context (Hgroup : forall s recidx, s ∈ spaces ->
  companion_index nlevs (sp_nlocs s) (all_recs spaces) s recidx (recs_of s) ->
  exists g' recidx', extend_group cm vars (all_recs spaces) (sp_nlocs s) (length (companion_locs nlevs (recs_of s))) (sp_group s) recidx =
      Ok (g', recidx') /\ Q s recidx g' recidx').

Lemma extend_nonoverlapping :
  exists d' spaces', extendObsSpace cm (Z.of_nat nlevs) true vars master spaces = Ok (d', spaces') /\
    DistContract d' (map sp_indx spaces')
      (concat (original spaces) ++ map (fun k => all_locs spaces + k) (concat (companion nlevs spaces))) /\
    Forall2 (extended nlevs spaces Q (length (concat (companion nlevs spaces)))) spaces spaces' /\
    forall rank r, rank < length spaces ->
      isMyRecord d' rank (all_recs spaces + r) = isMy rank r /\ (r < all_recs spaces -> isMyRecord d' rank r = isMy rank r).
Proof.
  destruct nonoverlapping_replica as (rs & cs & Hc & Hcs & Hrs).
  eapply (extend_generic cm nlevs vars master spaces Hnlevs Hsp Q Hgroup _ (RNonoverlapping rs) cs
    (Nonoverlapping_dist (ReplicaOfNonoverlapping_isMyRecord master) (Nonoverlapping_computePatchLocs rs))).
  - unfold createReplicaDistribution. simpl. rewrite length_computePatchLocs, ranks_size. reflexivity.
  - apply master_max.
  - apply master_max.
  - exact Hc.
  - exact Hcs.
  - reflexivity.
  - apply nonoverlapping_contract; [done|unfold original; by destruct spaces|done].
  - apply nonoverlapping_contract; [done|unfold companion; by destruct spaces|apply NoDup_companion].
  - apply offsets_nonoverlapping; [done|unfold original; by destruct spaces].
Qed.
End nonoverlapping.
