(* ===== verification/ObsExtendSpec.v ===== *)
(** What an extended ObsSpace holds: the variables and the record index on one
    rank, and the theorems on all ranks. *)
From stdpp Require Import base list gmap strings pretty sorting.
From Stdlib Require Import ZArith.
From S2P Require Import Prelude Mpi Distribution Nonoverlapping Inefficient Replica DistributionUtils PairOfDistributions.
From S2P Require Import Selection VarAttrStore ObsTypes ObsAttributes ObsVariables ObsFrame ObsFrameRead ObsFrameReadSpec.
From S2P Require Import ObsSpaceInit ObsRecords ObsSpaceVars ObsExtend.

(** * The record index *)

Section index.
Context {F : Type} (nlevs B : nat) (s : Space F) (recidx : RecIdxMap).
Context (Hs : space_ok s) (HB : forall r, r ∈ sp_recnums s -> r < B).
Context (Hidx : companion_index nlevs (sp_nlocs s) B s recidx (recs_of s)).

Lemma recs_below r : r ∈ recs_of s -> r < B.
Proof. intros Hr. by apply HB, (uniqueOriginalRecs_spec (sp_recnums s)). Qed.

(** A record of the extended index is an original one or a companion. *)
Lemma extended_record r j : j ∈ record_of recidx r ->
  (r < B /\ j < sp_nlocs s /\ j ∈ record_of (sp_recidx s) r /\ sp_recnums s !! j = Some r) \/
  exists i r0, r = B + r0 /\ recs_of s !! i = Some r0 /\ j ∈ seq (sp_nlocs s + i * nlevs) nlevs.
Proof.
  intros Hj. destruct Hidx as [H1 H2]. destruct (decide (B <= r /\ r - B ∈ recs_of s)) as [[Hle Hr0]|Hn].
  - right. assert (exists r0, r = B + r0) as [r0 ->] by (exists (r - B); lia).
    replace (B + r0 - B) with r0 in Hr0 by lia. apply list_elem_of_lookup in Hr0 as [i Hi]. exists i, r0. split_and!; [done..|].
    unfold record_of in Hj. by rewrite (H1 i r0 Hi) in Hj.
  - left. unfold record_of in *. rewrite H2 in Hj.
    2:{ intros r0 Hr0 ->. apply Hn. split; [lia|]. by replace (B + r0 - B) with r0 by lia. } destruct (sp_recidx s !! r) as [l|] eqn:E; simpl in Hj; [|by apply elem_of_nil in Hj].
    pose proof (so_index s Hs _ _ _ E Hj) as Hr. split_and!; [|rewrite (so_nlocs s Hs), <-(so_recnums s Hs); by eapply lookup_lt_Some|done|done].
    apply HB. by eapply list_elem_of_lookup_2.
Qed.

Lemma extended_range r j : j ∈ record_of recidx r -> j < sp_nlocs s + length (recs_of s) * nlevs.
Proof.
  intros [(_ & Hj & _)|(i & r0 & _ & Hi%lookup_lt_Some & Hj%elem_of_seq)]%extended_record; [lia|]. nia.
Qed.

Lemma extended_disjoint r1 r2 j : j ∈ record_of recidx r1 -> j ∈ record_of recidx r2 -> r1 = r2.
Proof.
  intros [(_ & Hj1 & _ & H1)|(i1 & a & -> & H1 & Hj1%elem_of_seq)]%extended_record
    [(_ & Hj2 & _ & H2)|(i2 & b & -> & H2 & Hj2%elem_of_seq)]%extended_record; [congruence|lia|lia|].
  assert (i1 = i2) by nia. congruence.
Qed.

Lemma original_record r : r < B -> record_of recidx r = record_of (sp_recidx s) r.
Proof. intros Hr. unfold record_of. destruct Hidx as [_ H2]. rewrite H2; [done|]. intros r0 _ ->. lia. Qed.

Lemma companion_record_of i r : recs_of s !! i = Some r -> record_of recidx (r + B) = seq (sp_nlocs s + i * nlevs) nlevs.
Proof. intros Hi. unfold record_of. destruct Hidx as [H1 _]. by rewrite (Nat.add_comm r B), (H1 i r Hi). Qed.
End index.

(** * The variables *)

Section group.
Context {F : Type} `{FO : FloatOps F} `{MV : MissingValues F}.
Context (Hrefl : f_eqb missing_float missing_float = true).

Lemma val_eqb_missing t : supported t -> val_eqb (missing_val t) (missing_val t) = true.
Proof.
  unfold supported. rewrite !elem_of_cons, elem_of_nil. intros [->|[->|[->|[->|[->|[]]]]]]; simpl;
    first [apply Z.eqb_refl|exact Hrefl|by apply bool_decide_true].
Qed.

Definition var_data (fv : FrameVar F) : list (Val F) := var_attr_data_ (var_data_ (fv_var fv)).
Definition along_locations (fv : FrameVar F) : bool :=
  match fv_dims fv with d :: _ => bool_decide (d = "Location") | [] => false end.
Definition row_of (fv : FrameVar F) : nat := row_size (drop 1 (dimensions_ (fv_var fv))).

(** A variable of an ObsSpace with [n] locations that can be extended to [n']. *)
Definition var_ready (n n' : nat) (fv : FrameVar F) : Prop :=
  exists d0 ds t rows rest mx,
    var_inv (d0 :: ds) t (Some (missing_val t)) mx rest rows fv (var_data fv) /\ supported t /\
    "Location" ∉ ds /\ length ds = length rest /\
    if decide (d0 = "Location") then rows = n /\ mx = Unlimited /\ shape n' rest else True.

(** The same variable after [resizeLocation]. *)
Definition resized (n n' : nat) (fv fv' : FrameVar F) : Prop :=
  fv_dims fv' = fv_dims fv /\ dtype_ (fv_var fv') = dtype_ (fv_var fv) /\
  var_data fv' = (if along_locations fv then var_data fv ++ replicate ((n' - n) * row_of fv) (missing_val (dtype_ (fv_var fv)))
                  else var_data fv) /\
  (along_locations fv = true -> array (fv_var fv') n' (drop 1 (dimensions_ (fv_var fv))) (var_data fv') /\ supported (dtype_ (fv_var fv))).

Lemma resize_ready n n' fv : n <= n' -> var_ready n n' fv ->
  exists v', resize_var "Location" (Z.of_nat n') fv = Ok v' /\
    resized n n' fv {| fv_dims := fv_dims fv; fv_var := v' |}.
Proof.
  intros Hle (d0 & ds & t & rows & rest & mx & Hinv & Ht & Hds & Hlen & Hloc).
  pose proof (vi_rfill _ _ _ _ _ _ _ _ Hinv) as Hfill. cbn [default from_option id] in Hfill.
  pose proof (vi_array _ _ _ _ _ _ _ _ Hinv) as Ha. pose proof (vi_dims _ _ _ _ _ _ _ _ Hinv) as Hd.
  assert (Hal : along_locations fv = bool_decide (d0 = "Location")) by (unfold along_locations; by rewrite Hd).
  assert (Hrow : drop 1 (dimensions_ (fv_var fv)) = rest) by (rewrite (arr_dims _ _ _ _ Ha); done).
  unfold resized, row_of. rewrite Hal, Hrow, (vi_type _ _ _ _ _ _ _ _ Hinv). case_decide as Ed.
  - destruct Hloc as (-> & -> & Hs'). rewrite bool_decide_true by done.
    destruct (resize_var_inv d0 ds t _ _ rest n fv (var_data fv) n' _ Hinv Hds Hlen Hfill Hs') as (v' & Hr & Hinv'); [unfold Unlimited; lia|].
    assert (El : location_rows (d0 :: ds) n n' = n') by (unfold location_rows; by rewrite decide_True).
    rewrite El in Hinv'. exists v'. split; [exact Hr|].
    pose proof (vi_array _ _ _ _ _ _ _ _ Hinv') as Ha'. pose proof (arr_length _ _ _ _ Ha) as Hl.
    rewrite vec_resize_grow in Ha' by (rewrite Hl; nia). rewrite Hl in Ha'.
    replace (n' * row_size rest - n * row_size rest) with ((n' - n) * row_size rest) in Ha' by nia.
    assert (E : var_data {| fv_dims := fv_dims fv; fv_var := v' |} = var_data fv ++ replicate ((n' - n) * row_size rest) (missing_val t))
      by (apply (arr_data _ _ _ _ Ha')).
    split_and!; [done|apply (vi_type _ _ _ _ _ _ _ _ Hinv')|exact E|]. intros _. rewrite E. by split.
  - rewrite bool_decide_false by done.
    destruct (resize_var_inv d0 ds t _ _ rest rows fv (var_data fv) rows _ Hinv Hds Hlen Hfill (arr_shape _ _ _ _ Ha)) as (v' & Hr & Hinv').
    { intros Hmx. apply (vo_max _ (arr_ok _ _ _ _ Ha) 0); [by rewrite (vi_max _ _ _ _ _ _ _ _ Hinv)|by rewrite (arr_dims _ _ _ _ Ha)|done]. }
    assert (El : location_rows (d0 :: ds) rows rows = rows) by (unfold location_rows; by rewrite decide_False).
    rewrite El in Hinv'. rewrite vec_resize_same in Hinv' by apply (arr_length _ _ _ _ Ha). exists v'. split.
    { rewrite <-Hr. unfold resize_var. rewrite Hd, (arr_dims _ _ _ _ Ha). cbn [zip_with]. by rewrite !zip_with_inner, !decide_False by done. }
    split_and!; [done|apply (vi_type _ _ _ _ _ _ _ _ Hinv')|apply (arr_data _ _ _ _ (vi_array _ _ _ _ _ _ _ _ Hinv'))|done].
Qed.

(** A group that can be extended. *)
Record group_ready (n n' : nat) (g : ObsGroup F) : Prop := {
  gr_names : NoDup (g_names g);
  gr_vars : forall name, name ∈ g_names g <-> is_Some (g_vars g !! name);
  gr_location : exists cur, g_dims g !! "Location" = Some (cur, Unlimited);
  gr_var : forall name fv, g_vars g !! name = Some fv -> var_ready n n' fv
}.

Lemma resize_group n n' g : n <= n' -> group_ready n n' g ->
  exists g', resizeLocation (Z.of_nat n') false g = Ok g' /\
    g_dims g' !! "Location" = Some (Z.of_nat n', Unlimited) /\
    (forall name, is_Some (g_vars g' !! name) <-> is_Some (g_vars g !! name)) /\
    (forall d, d <> "Location" -> g_dims g' !! d = g_dims g !! d) /\
    forall name fv, g_vars g !! name = Some fv -> exists fv', g_vars g' !! name = Some fv' /\ resized n n' fv fv'.
Proof.
  intros Hle [Hnd Hnames (cur & Hl) Hvar]. unfold resizeLocation, ObsGroup_resize, dim_open. rewrite Hl. cbn [mbind res_bind].
  rewrite resize_check_pass by (repeat constructor; unfold Unlimited; lia). cbn [mbind res_bind].
  match goal with |- context [foldM _ ?g (g_names _)] => set (g0 := g) end.
  destruct (foldM_vars (fun g name => vars_update name (resize_var "Location" (Z.of_nat n')) g) (fun _ fv fv' => resized n n' fv fv')
    g0 (g_names g) Hnd) as (g' & Hf & (S1 & S2 & S3) & Hin & Hout).
  - intros name g' Hname _ Hsame. apply Hnames in Hname as [fv Hfv]. destruct (resize_ready n n' fv Hle (Hvar name fv Hfv)) as (v' & Hr & Hres).
    eexists fv, _. split_and!; [exact Hfv|exact Hres|]. eexists. split; [apply vars_update_ok with (fv := fv); [by rewrite Hsame|exact Hr]|].
    by split.
  - exists g'. split_and!; [exact Hf|by rewrite S2; simpl; rewrite lookup_insert_eq| | |].
    + intros name. destruct (decide (name ∈ g_names g)) as [Hi|Hi].
      * destruct (Hin name Hi) as (fv & fv' & H1 & H2 & _). simpl in H1. rewrite H1, H2. split; eauto.
      * by rewrite (Hout name Hi).
    + intros d Hd. rewrite S2. simpl. by rewrite lookup_insert_ne.
    + intros name fv Hfv. destruct (Hin name) as (fv0 & fv' & H1 & H2 & H3); [apply Hnames; eauto|].
      simpl in H1. rewrite Hfv in H1. injection H1 as <-. eauto.
Qed.

(** ** Filling the companion locations of a variable *)

(** What [extendVariable] makes of the values of a variable. *)
Definition filled (recidx : RecIdxMap) (B : nat) (t : OType) (vals out : list (Val F)) : Prop :=
  length out = length vals /\
  (forall r v j, r < B -> fill_of val_eqb (missing_val t) recidx vals r = Some v -> j ∈ record_of recidx (r + B) -> out !! j = Some v) /\
  forall j, (forall r, r < B -> is_Some (fill_of val_eqb (missing_val t) recidx vals r) -> j ∉ record_of recidx (r + B)) -> out !! j = vals !! j.

Lemma fill_of_ext (recidx recidx' : RecIdxMap) (t : OType) vals r :
  record_of recidx r = record_of recidx' r ->
  fill_of val_eqb (missing_val t) recidx vals r = fill_of val_eqb (missing_val t) recidx' vals r.
Proof. intros E. unfold fill_of. by rewrite E. Qed.

Lemma filled_ext (recidx recidx' : RecIdxMap) B t vals out :
  (forall r, record_of recidx r = record_of recidx' r) -> filled recidx B t vals out -> filled recidx' B t vals out.
Proof.
  intros E (H1 & H2 & H3). split_and!; [done| |].
  - intros r v j Hr Hv Hj. rewrite <-E in Hj. rewrite <-(fill_of_ext recidx recidx') in Hv by apply E. by apply (H2 r).
  - intros j Hj. apply H3. intros r Hr Hv. rewrite E. apply Hj; [done|]. by rewrite <-(fill_of_ext recidx recidx') by apply E.
Qed.

Lemma extend_var_ok B g (recidx : RecIdxMap) v fv n' :
  g_vars g !! fullVarName "MetaData" v = Some fv -> supported (dtype_ (fv_var fv)) -> array (fv_var fv) n' [] (var_data fv) ->
  (forall r j, j ∈ record_of recidx r -> j < n') ->
  (forall r1 r2 j, j ∈ record_of recidx r1 -> j ∈ record_of recidx r2 -> r1 = r2) ->
  exists g' recidx' fv', extend_var B (g, recidx) v = Ok (g', recidx') /\ put g (fullVarName "MetaData" v) fv' g' /\
    fv_dims fv' = fv_dims fv /\ dtype_ (fv_var fv') = dtype_ (fv_var fv) /\
    filled recidx B (dtype_ (fv_var fv)) (var_data fv) (var_data fv') /\ forall r, record_of recidx' r = record_of recidx r.
Proof.
  intros Hv Ht Ha Hrange Hdisj. set (t := dtype_ (fv_var fv)) in *.
  assert (Hl : length (var_data fv) = n') by (rewrite (arr_length _ _ _ _ Ha); unfold row_size; simpl; lia).
  assert (He : exists_var g (fullVarName "MetaData" v) = true).
  { unfold exists_var, vars_exists. rewrite Hv, bool_decide_true by eauto. done. }
  destruct (extendVariable_ok val_eqb (missing_val t) B recidx (var_data fv)) as (out & recidx' & Hext & Hrec & Hlen & Hin & Hout).
  { intros r j Hj. rewrite Hl. by eapply Hrange. } { by apply val_eqb_missing. } { exact Hdisj. }
  destruct (write_all (fv_var fv) n' [] (var_data fv) Ha out) as (st & Hw & Ha').
  { rewrite Hlen, Hl. unfold row_size. simpl. lia. }
  destruct (vars_update_put g (fullVarName "MetaData" v) fv (fun v => front_write out t front_all front_all (fv_var v)) _ Hv Hw)
    as (g' & Hu & Hp).
  eexists g', recidx', _. split_and!; [|exact Hp|done|done| |exact Hrec].
  - unfold extend_var. rewrite He. unfold vars_open. rewrite Hv. cbn [mbind res_bind].
    rewrite (supportedType_supported _ Ht). cbn [mbind res_bind]. fold t.
    rewrite (read_all (zero_val t) (fv_var fv) n' [] (var_data fv) Ha). cbn [mbind res_bind]. rewrite Hext. cbn [mbind res_bind].
    by rewrite Hu.
  - assert (E : var_data {| fv_dims := fv_dims fv; fv_var := with_data (fv_var fv) (dimensions_ (fv_var fv)) st |} = out)
      by apply (arr_data _ _ _ _ Ha'). rewrite E. by split_and!.
Qed.

(** The loop over the variables to be filled. *)
Section loop.
Context (B n' : nat) (g1 : ObsGroup F) (recidx : RecIdxMap) (vars : list string).
Context (Hnd : NoDup vars).
Context (Hrange : forall r j, j ∈ record_of recidx r -> j < n')
  (Hdisj : forall r1 r2 j, j ∈ record_of recidx r1 -> j ∈ record_of recidx r2 -> r1 = r2).
Context (Hvars : forall v, v ∈ vars -> exists_var g1 (fullVarName "MetaData" v) = false \/
  exists fv, g_vars g1 !! fullVarName "MetaData" v = Some fv /\ supported (dtype_ (fv_var fv)) /\ array (fv_var fv) n' [] (var_data fv)).

Definition filled_var (fv fv' : FrameVar F) : Prop :=
  fv_dims fv' = fv_dims fv /\ dtype_ (fv_var fv') = dtype_ (fv_var fv) /\
  filled recidx B (dtype_ (fv_var fv)) (var_data fv) (var_data fv').

Definition loop_inv (don : list string) (s : ObsGroup F * RecIdxMap) : Prop :=
  g_dims s.1 = g_dims g1 /\ (forall r, record_of s.2 r = record_of recidx r) /\
  (forall name, name ∉ map (fullVarName "MetaData") don -> g_vars s.1 !! name = g_vars g1 !! name) /\
  (forall name fv, name ∈ map (fullVarName "MetaData") don -> g_vars g1 !! name = Some fv ->
    exists fv', g_vars s.1 !! name = Some fv' /\ filled_var fv fv') /\
  forall name, is_Some (g_vars s.1 !! name) <-> is_Some (g_vars g1 !! name).

Lemma extend_vars_ok : exists s, foldM (extend_var B) (g1, recidx) vars = Ok s /\ loop_inv vars s.
Proof.
  apply (foldM_ind (extend_var B) loop_inv).
  - split_and!; try done. intros name fv Hn. by apply elem_of_nil in Hn.
  - intros don v [g m] (Hd & Hm & Hout & Hin & Hsome) [rest Hrest]. simpl in *.
    assert (Hv : v ∈ vars) by (rewrite Hrest, !elem_of_app; left; right; left).
    assert (Hnot : fullVarName "MetaData" v ∉ map (fullVarName "MetaData") don).
    { intros (w & E%fullVarName_inj & Hw)%list_elem_of_fmap. subst w. rewrite Hrest, <-app_assoc in Hnd.
      apply NoDup_app in Hnd as (_ & Hx & _). apply (Hx v Hw). left. }
    assert (Hsame : forall name, name ∉ map (fullVarName "MetaData") (don ++ [v]) <-> name ∉ map (fullVarName "MetaData") don /\ name <> fullVarName "MetaData" v).
    { intros name. rewrite map_app, elem_of_app. simpl. rewrite list_elem_of_singleton. tauto. }
    destruct (Hvars v Hv) as [Hno|(fv & Hfv & Ht & Ha)].
    + assert (Hno' : exists_var g (fullVarName "MetaData" v) = false).
      { unfold exists_var, vars_exists in *. by rewrite Hd, (Hout _ Hnot). }
      exists (g, m). split; [unfold extend_var; by rewrite Hno'|]. split_and!; [done|done| | |done].
      * intros name [Hn _]%Hsame. by apply Hout.
      * intros name fv Hn Hfv. destruct (decide (name = fullVarName "MetaData" v)) as [->|Hne].
        { unfold exists_var, vars_exists in Hno. rewrite Hfv, bool_decide_true in Hno by eauto. done. }
        apply Hin; [|done]. rewrite map_app, elem_of_app in Hn. destruct Hn as [Hn|Hn]; [done|]. by apply list_elem_of_singleton in Hn.
    + rewrite <-(Hout _ Hnot) in Hfv.
      destruct (extend_var_ok B g m v fv n' Hfv Ht Ha) as (g' & m' & fv' & He & [Hpd Hpv] & E1 & E2 & E3 & Em).
      { intros r j. rewrite Hm. apply Hrange. } { intros r1 r2 j. rewrite !Hm. apply Hdisj. }
      exists (g', m'). split; [exact He|]. split_and!; simpl.
      * congruence.
      * intros r. by rewrite Em, Hm.
      * intros name [Hn Hne]%Hsame. rewrite Hpv, lookup_insert_ne by done. by apply Hout.
      * intros name fv0 Hn Hfv0. rewrite Hpv. destruct (decide (name = fullVarName "MetaData" v)) as [->|Hne].
        { rewrite lookup_insert_eq. rewrite (Hout _ Hnot) in Hfv. assert (fv0 = fv) as -> by congruence. exists fv'. split; [done|].
          split_and!; [done..|]. by eapply filled_ext. }
        rewrite lookup_insert_ne by done. apply Hin; [|done]. rewrite map_app, elem_of_app in Hn.
        destruct Hn as [Hn|Hn]; [done|]. by apply list_elem_of_singleton in Hn.
      * intros name. rewrite Hpv, <-Hsome. destruct (decide (name = fullVarName "MetaData" v)) as [->|Hne].
        { rewrite lookup_insert_eq, Hfv. split; eauto. } by rewrite lookup_insert_ne.
Qed.
End loop.

(** ** The whole group *)

Record space_ready (nlevs : nat) (vars : list string) (s : Space F) : Prop := {
  sr_group : group_ready (sp_nlocs s) (sp_nlocs s + length (recs_of s) * nlevs) (sp_group s);
  sr_new : exists_var (sp_group s) "MetaData/extendedObsSpace" = false;
  sr_shape : shape (sp_nlocs s + length (recs_of s) * nlevs) [];
  sr_vars : forall v, v ∈ vars -> exists_var (sp_group s) (fullVarName "MetaData" v) = false \/
    exists fv, g_vars (sp_group s) !! fullVarName "MetaData" v = Some fv /\ fv_dims fv = ["Location"]
}.

(** The values of a variable along locations before the companions are filled. *)
Definition padded (m : nat) (fv : FrameVar F) : list (Val F) :=
  var_data fv ++ replicate (m * row_of fv) (missing_val (dtype_ (fv_var fv))).

Record group_extended (n m B : nat) (vars : list string) (g : ObsGroup F) (recidx : RecIdxMap) (g' : ObsGroup F) (recidx' : RecIdxMap)
  : Prop := {
  ge_records : forall r, record_of recidx' r = record_of recidx r;
  ge_location : g_dims g' !! "Location" = Some (Z.of_nat (n + m), Unlimited);
  ge_var : forall name fv, g_vars g !! name = Some fv ->
    exists fv', g_vars g' !! name = Some fv' /\ fv_dims fv' = fv_dims fv /\ dtype_ (fv_var fv') = dtype_ (fv_var fv) /\
      (along_locations fv = false -> var_data fv' = var_data fv) /\
      (along_locations fv = true -> name ∉ map (fullVarName "MetaData") vars -> var_data fv' = padded m fv) /\
      (along_locations fv = true -> name ∈ map (fullVarName "MetaData") vars ->
        filled recidx B (dtype_ (fv_var fv)) (padded m fv) (var_data fv'));
  ge_flag : holds g' "MetaData/extendedObsSpace" ["Location"] int_t (n + m) [] (replicate n (VInt 0) ++ replicate m (VInt 1))
}.

Lemma listed_var nlevs vars s v n' fv fv' : n' = sp_nlocs s + length (recs_of s) * nlevs -> space_ready nlevs vars s ->
  g_vars (sp_group s) !! fullVarName "MetaData" v = Some fv -> fv_dims fv = ["Location"] -> resized (sp_nlocs s) n' fv fv' ->
  along_locations fv = true /\ supported (dtype_ (fv_var fv')) /\ array (fv_var fv') n' [] (var_data fv').
Proof.
  intros -> [Hg _ _ _] Hfv Hd (H1 & H2 & H3 & H4).
  assert (Hal : along_locations fv = true) by (unfold along_locations; rewrite Hd; by apply bool_decide_true).
  destruct (gr_var _ _ _ Hg _ _ Hfv) as (d0 & ds & t & rows & rest & mx & Hinv & Ht & _ & Hlen & _).
  destruct (H4 Hal) as [Ha Hs]. rewrite H2. split_and!; [done|done|].
  assert (ds = []) as -> by (rewrite (vi_dims _ _ _ _ _ _ _ _ Hinv) in Hd; by injection Hd).
  rewrite (arr_dims _ _ _ _ (vi_array _ _ _ _ _ _ _ _ Hinv)) in Ha. simpl in Ha. by destruct rest.
Qed.

(** The existing variables are the same after resizing. *)
Lemma exists_resized (g g1 : ObsGroup F) x :
  is_Some (g_vars g1 !! x) <-> is_Some (g_vars g !! x) -> (x <> "Location" -> g_dims g1 !! x = g_dims g !! x) ->
  is_Some (g_dims g !! "Location") -> is_Some (g_dims g1 !! "Location") -> exists_var g1 x = exists_var g x.
Proof.
  intros Hv Hd [l1 H1] [l2 H2]. unfold exists_var, vars_exists. f_equal; apply bool_decide_ext; [done|].
  destruct (decide (x = "Location")) as [->|Hx]; [|by rewrite Hd]. rewrite H1, H2. split; eauto.
Qed.

Lemma not_exists (g : ObsGroup F) x fv : exists_var g x = false -> g_vars g !! x = Some fv -> False.
Proof. intros Hno Hfv. rewrite (not_there g x Hno) in Hfv. done. Qed.

(** One variable: resized, and filled if it is listed. *)
Lemma extended_var n m B vars (recidx : RecIdxMap) (g2 : ObsGroup F) name fv fv1 :
  resized n (n + m) fv fv1 -> (name ∈ map (fullVarName "MetaData") vars -> along_locations fv = true) ->
  (name ∉ map (fullVarName "MetaData") vars -> g_vars g2 !! name = Some fv1) ->
  (name ∈ map (fullVarName "MetaData") vars -> exists fv', g_vars g2 !! name = Some fv' /\ filled_var B recidx fv1 fv') ->
  exists fv', g_vars g2 !! name = Some fv' /\ fv_dims fv' = fv_dims fv /\ dtype_ (fv_var fv') = dtype_ (fv_var fv) /\
    (along_locations fv = false -> var_data fv' = var_data fv) /\
    (along_locations fv = true -> name ∉ map (fullVarName "MetaData") vars -> var_data fv' = padded m fv) /\
    (along_locations fv = true -> name ∈ map (fullVarName "MetaData") vars ->
      filled recidx B (dtype_ (fv_var fv)) (padded m fv) (var_data fv')).
Proof.
  intros (R1 & R2 & R3 & _) Hal Hout Hin.
  assert (Hpad : along_locations fv = true -> var_data fv1 = padded m fv).
  { intros E. rewrite R3, E. unfold padded. do 2 f_equal. lia. }
  destruct (decide (name ∈ map (fullVarName "MetaData") vars)) as [Hl|Hl].
  - destruct (Hin Hl) as (fv2 & Hfv2 & E1 & E2 & E3). exists fv2. split_and!; [done|congruence|congruence| |done|].
    + intros E. by rewrite (Hal Hl) in E.
    + intros E _. by rewrite <-Hpad, <-R2.
  - exists fv1. split_and!; [by apply Hout|done|done| |by intros E _; apply Hpad|done]. intros E. by rewrite R3, E.
Qed.

Lemma extend_group_ok cm nlevs B vars (s : Space F) (recidx : RecIdxMap) :
  space_ok s -> (forall r, r ∈ sp_recnums s -> r < B) -> companion_index nlevs (sp_nlocs s) B s recidx (recs_of s) ->
  space_ready nlevs vars s -> NoDup vars ->
  let m := length (companion_locs nlevs (recs_of s)) in
  exists g' recidx', extend_group cm vars B (sp_nlocs s) m (sp_group s) recidx = Ok (g', recidx') /\
    group_extended (sp_nlocs s) m B vars (sp_group s) recidx g' recidx'.
Proof.
  intros Hs HB Hidx Hr Hnd m. set (n := sp_nlocs s). set (n' := n + m).
  assert (Hm : m = length (recs_of s) * nlevs) by apply length_companion_locs.
  assert (Hn' : n' = sp_nlocs s + length (recs_of s) * nlevs) by (unfold n', n; lia).
  pose proof (sr_group _ _ _ Hr) as Hg. rewrite <-Hn' in Hg.
  destruct (resize_group (sp_nlocs s) n' (sp_group s)) as (g1 & Hres & Hloc & Hsome & Hdims & Hvar); [lia|done|].
  assert (Hex : forall x, exists_var g1 x = exists_var (sp_group s) x).
  { intros x. destruct (gr_location _ _ _ Hg) as [cur Hcur]. apply exists_resized; [apply Hsome|apply Hdims|rewrite Hcur|rewrite Hloc]; eauto. }
  destruct (extend_vars_ok B n' g1 recidx vars Hnd) as ([g2 recidx'] & Hf & (Hd & Hrec & Hout & Hin & Hsome2)).
  { intros r j Hj. rewrite Hn'. by eapply (extended_range nlevs B s recidx). }
  { intros r1 r2 j. by apply (extended_disjoint nlevs B s recidx). }
  { intros v Hv. rewrite Hex. destruct (sr_vars _ _ _ Hr v Hv) as [|(fv & Hfv & Hdim)]; [by left|right].
    destruct (Hvar _ _ Hfv) as (fv' & Hfv' & Hrz). exists fv'. split; [done|].
    destruct (listed_var nlevs vars s v n' fv fv' Hn' Hr Hfv Hdim Hrz) as (_ & ? & ?). done. }
  simpl in Hd, Hrec, Hout, Hin, Hsome2.
  assert (Hnew : exists_var g2 "MetaData/extendedObsSpace" = false).
  { etrans; [|exact (sr_new _ _ _ Hr)]. rewrite <-Hex. unfold exists_var, vars_exists. rewrite Hd.
    by rewrite (bool_decide_ext (is_Some (g_vars g2 !! _)) (is_Some (g_vars g1 !! _)) (Hsome2 _)). }
  destruct (save_whole g2 cm int_t "MetaData" "extendedObsSpace" ["Location"] ["Location"] n' []
    (replicate (n' * row_size []) (missing_val int_t)) (replicate n (VInt 0) ++ replicate (n' - n) (VInt 1)))
    as (g3 & fv3 & Hsv & Hp & Hd3 & Ht3 & Ha3).
  { by left. }
  { right. split_and!; [exact Hnew|done|done|left| |].
    - pose proof (sr_shape _ _ _ Hr) as Hsh. by rewrite <-Hn' in Hsh.
    - exists Unlimited. split; [unfold Unlimited; lia|]. cbn [mapR]. unfold dim_open. by rewrite Hd, Hloc. }
  { rewrite length_app, !length_replicate. unfold row_size. simpl. lia. }
  exists g3, recidx'. split.
  { unfold extend_group. fold n n'. rewrite Hres. cbn [mbind res_bind]. rewrite Hf. cbn [mbind res_bind].
    rewrite Hsv. done. }
  destruct Hp as [Hpd Hpv]. split.
  - exact Hrec.
  - by rewrite Hpd, Hd.
  - intros name fv Hfv. destruct (Hvar name fv Hfv) as (fv1 & Hfv1 & Hrz).
    rewrite Hpv, lookup_insert_ne by (intros <-; by eapply (not_exists _ _ _ (sr_new _ _ _ Hr))).
    apply (extended_var n m B vars recidx g2 name fv fv1 Hrz); [|by intros Hl; rewrite (Hout name Hl)|by intros Hl; apply Hin].
    intros (v & -> & Hv)%list_elem_of_fmap. destruct (sr_vars _ _ _ Hr v Hv) as [Hno|(fv0 & Hfv0 & Hdim)]; [by exfalso; eapply not_exists|].
    rewrite Hfv in Hfv0. injection Hfv0 as <-. unfold along_locations. rewrite Hdim. by apply bool_decide_true.
  - exists fv3. split_and!; [rewrite Hpv; apply lookup_insert_eq|done|done|].
    replace m with (n' - n) at 2 by (unfold n', n; lia). exact Ha3.
Qed.
End group.

(** ** The values of the companion locations *)

Section values.
Context {F : Type} `{FO : FloatOps F} `{MV : MissingValues F}.
Context (nlevs B : nat) (s : Space F) (recidx : RecIdxMap).
Context (Hs : space_ok s) (HB : forall r, r ∈ sp_recnums s -> r < B).
Context (Hidx : companion_index nlevs (sp_nlocs s) B s recidx (recs_of s)).
Let n := sp_nlocs s.

Lemma companion_after r j : j ∈ record_of recidx (r + B) -> n <= j.
Proof.
  intros [(Hlt & _)|(i & r0 & _ & _ & Hj%elem_of_seq)]%(extended_record nlevs B s recidx Hs HB Hidx); [lia|]. unfold n. lia.
Qed.

Lemma fill_original (t : OType) (data tail : list (Val F)) r : length data = n -> r < B ->
  fill_of val_eqb (missing_val t) recidx (data ++ tail) r = fill_of val_eqb (missing_val t) (sp_recidx s) data r.
Proof.
  intros Hl Hr. unfold fill_of. rewrite (original_record nlevs B s recidx Hidx r Hr). f_equal.
  assert (Hlt : Forall (fun j => j < n) (record_of (sp_recidx s) r)).
  { apply list.Forall_forall. intros j Hj. unfold record_of in Hj. destruct (sp_recidx s !! r) as [l|] eqn:E; simpl in Hj; [|by apply elem_of_nil in Hj].
    unfold n. rewrite (so_nlocs s Hs), <-(so_recnums s Hs). eapply lookup_lt_Some, (so_index s Hs _ _ _ E Hj). }
  induction Hlt as [|j l Hj Hl' IH]; [done|]. cbn [omap list_omap]. rewrite lookup_app_l by lia. by rewrite IH.
Qed.

(** The first present value of the original record, or the missing value. *)
Definition companion_value (t : OType) (data : list (Val F)) (r : nat) : Val F :=
  default (missing_val t) (fill_of val_eqb (missing_val t) (sp_recidx s) data r).

Lemma filled_values t (data out : list (Val F)) m :
  length data = n -> m = length (recs_of s) * nlevs ->
  filled recidx B t (data ++ replicate m (missing_val t)) out ->
  length out = n + m /\ (forall j, j < n -> out !! j = data !! j) /\
  forall i r l, recs_of s !! i = Some r -> l < nlevs -> out !! (n + (i * nlevs + l)) = Some (companion_value t data r).
Proof.
  intros Hl -> (H1 & H2 & H3). split_and!.
  - rewrite H1, length_app, length_replicate, Hl. done.
  - intros j Hj. rewrite H3; [by rewrite lookup_app_l by lia|]. intros r _ _ Hin%companion_after. lia.
  - intros i r l Hi Hlt. assert (Hr : r < B) by (eapply recs_below; [exact HB|by eapply list_elem_of_lookup_2]).
    assert (Hin : n + (i * nlevs + l) ∈ record_of recidx (r + B)).
    { rewrite (companion_record_of nlevs B s recidx Hidx i r Hi). apply elem_of_seq. unfold n. lia. }
    unfold companion_value. destruct (fill_of val_eqb (missing_val t) (sp_recidx s) data r) as [v|] eqn:Ev; simpl.
    + eapply (H2 r v); [done|by rewrite fill_original|done].
    + rewrite H3.
      * rewrite lookup_app_r by lia. apply lookup_replicate_2. apply lookup_lt_Some in Hi. rewrite Hl. nia.
      * intros r' Hr' [v Hv] Hin'. pose proof (extended_disjoint nlevs B s recidx Hs HB Hidx _ _ _ Hin Hin').
        assert (r' = r) as -> by lia. rewrite fill_original in Hv by done. congruence.
Qed.
End values.

(** * Theorems *)

Section claims.
Context `{ML : MpiLaws} {F : Type} `{FO : FloatOps F} `{MV : MissingValues F}.

(** ObsSpaces that can be extended, on the ranks of a non-overlapping
    distribution that puts a record on one rank. *)
Record extension_input (nlevs : nat) (vars : list string) (spaces : list (Space F)) (isMy : nat -> nat -> bool)
    (ss : list NonoverlappingDistribution) : Prop := {
  ei_nlevs : 0 < nlevs;
  ei_ranks : spaces <> [];
  ei_spaces : Forall space_ok spaces;
  ei_ready : Forall (space_ready nlevs vars) spaces;
  ei_vars : NoDup vars;
  ei_missing : f_eqb missing_float missing_float = true;
  ei_counts : map numLocationsOnThisRank_ ss = map length (map sp_indx spaces);
  ei_distinct : NoDup (concat (map sp_indx spaces));
  ei_mine : forall rank s r, spaces !! rank = Some s -> r ∈ sp_recnums s -> isMy rank r = true;
  ei_one : forall r1 r2 rec, r1 < length spaces -> r2 < length spaces -> isMy r1 rec = true -> isMy r2 rec = true -> r1 = r2
}.

Lemma extension_ok cm nlevs vars spaces isMy ss : extension_input nlevs vars spaces isMy ss ->
  exists d' spaces', extendObsSpace cm (Z.of_nat nlevs) true vars
      (Nonoverlapping_dist isMy (Nonoverlapping_computePatchLocs ss)) spaces = Ok (d', spaces') /\
    DistContract d' (map sp_indx spaces')
      (concat (original spaces) ++ map (fun k => all_locs spaces + k) (concat (companion nlevs spaces))) /\
    Forall2 (extended nlevs spaces (fun s recidx g' recidx' =>
      group_extended (sp_nlocs s) (length (companion_locs nlevs (recs_of s))) (all_recs spaces) vars (sp_group s) recidx g' recidx')
      (length (concat (companion nlevs spaces)))) spaces spaces' /\
    forall rank r, rank < length spaces ->
      isMyRecord d' rank (all_recs spaces + r) = isMy rank r /\ (r < all_recs spaces -> isMyRecord d' rank r = isMy rank r).
Proof.
  intros []. apply extend_nonoverlapping; try done. intros s recidx Hs Hidx.
  rewrite list.Forall_forall in ei_ready0. apply extend_group_ok; [done| | |done|by apply ei_ready0|done].
  - rewrite list.Forall_forall in ei_spaces0. by apply ei_spaces0.
  - intros r Hr. by apply (below_all_recs spaces s).
Qed.

(** The values of a listed variable before the extension, one per location. *)
Lemma listed_values nlevs vars (s : Space F) name fv : space_ready nlevs vars s ->
  name ∈ map (fullVarName "MetaData") vars -> g_vars (sp_group s) !! name = Some fv ->
  along_locations fv = true /\ length (var_data fv) = sp_nlocs s /\ row_of fv = 1.
Proof.
  intros [Hg _ _ Hv] (v & -> & Hin)%list_elem_of_fmap Hfv.
  assert (Hd : fv_dims fv = ["Location"]).
  { destruct (Hv v Hin) as [Hno|(fv0 & Hfv0 & Hd)]; [by exfalso; eapply not_exists|congruence]. }
  destruct (gr_var _ _ _ Hg _ _ Hfv) as (d0 & ds & t & rows & rest & mx & Hinv & _ & _ & Hlen & Hloc).
  pose proof (vi_array _ _ _ _ _ _ _ _ Hinv) as Ha. rewrite (vi_dims _ _ _ _ _ _ _ _ Hinv) in Hd. injection Hd as -> ->.
  rewrite decide_True in Hloc by done. destruct Hloc as (-> & _ & _). destruct rest; [|done]. split_and!.
  - unfold along_locations. rewrite (vi_dims _ _ _ _ _ _ _ _ Hinv). by apply bool_decide_true.
  - rewrite (arr_length _ _ _ _ Ha). unfold row_size. simpl. lia.
  - unfold row_of. rewrite (arr_dims _ _ _ _ Ha). done.
Qed.

(** C10: Extending the ObsSpaces of a non-overlapping distribution succeeds.
    Every rank gets [nlevs] locations per record it holds, appended to its own.
    The records of the file keep their locations; the companion of the [i]-th
    record has the [i]-th block of the new locations, and belongs to the rank
    of its record. The new distribution is a correct distribution of the old
    locations and the companions: no location is counted twice. *)
Theorem extended_spaces cm nlevs vars spaces isMy ss : extension_input nlevs vars spaces isMy ss ->
  exists d' spaces', extendObsSpace cm (Z.of_nat nlevs) true vars
      (Nonoverlapping_dist isMy (Nonoverlapping_computePatchLocs ss)) spaces = Ok (d', spaces') /\
    DistContract d' (map sp_indx spaces')
      (concat (map sp_indx spaces) ++ map (fun k => all_locs spaces + k) (concat (companion nlevs spaces))) /\
    length spaces' = length spaces /\
    forall rank s, spaces !! rank = Some s -> exists s', spaces' !! rank = Some s' /\
      sp_nlocs s' = sp_nlocs s + length (recs_of s) * nlevs /\ length (sp_indx s') = sp_nlocs s' /\
      sp_gnlocs s' = sp_gnlocs s + length (concat (companion nlevs spaces)) /\
      sp_nrecs s' = sp_nrecs s + length (recs_of s) /\
      (forall r, r < all_recs spaces -> record_of (sp_recidx s') r = record_of (sp_recidx s) r) /\
      forall i r, recs_of s !! i = Some r ->
        record_of (sp_recidx s') (all_recs spaces + r) = seq (sp_nlocs s + i * nlevs) nlevs /\
        isMyRecord d' rank (all_recs spaces + r) = true.
Proof.
  intros Hin. destruct (extension_ok cm _ _ _ _ _ Hin) as (d' & spaces' & He & Hc & Hx & Hmy). exists d', spaces'.
  split_and!; [exact He|exact Hc|symmetry; by eapply Forall2_length|]. intros rank s Hs.
  destruct (Forall2_lookup_l _ _ _ _ _ Hx Hs) as (s' & Hs' & Hext). exists s'.
  destruct (ex_rest _ _ _ _ _ _ Hext) as (recidx & Hidx & Hge).
  assert (Hok : space_ok s) by (eapply list.Forall_forall; [apply (ei_spaces _ _ _ _ _ Hin)|by eapply list_elem_of_lookup_2]).
  split_and!; [done|apply (ex_nlocs _ _ _ _ _ _ Hext)| |apply (ex_gnlocs _ _ _ _ _ _ Hext)|apply (ex_nrecs _ _ _ _ _ _ Hext)| |].
  - rewrite (ex_indx _ _ _ _ _ _ Hext), (ex_nlocs _ _ _ _ _ _ Hext), length_app, length_map, length_companion_locs, (so_nlocs _ Hok). done.
  - intros r Hr. rewrite (ge_records _ _ _ _ _ _ _ _ Hge). by eapply original_record.
  - intros i r Hi. rewrite (ge_records _ _ _ _ _ _ _ _ Hge), Nat.add_comm. split; [by eapply companion_record_of|].
    rewrite Nat.add_comm. destruct (Hmy rank r) as [-> _]; [by eapply lookup_lt_Some|]. apply (ei_mine _ _ _ _ _ Hin rank s); [done|].
    apply uniqueOriginalRecs_spec. by eapply list_elem_of_lookup_2.
Qed.

(** C11: What the extension makes of the variables. A variable that is not along
    Location is not changed; one that is gets missing values at the companion
    locations; one named in [nonMissingExtendedVars] gets at each companion
    location the first value of the original record that is not missing (or the
    missing value when there is none). No original value changes, and
    MetaData/extendedObsSpace is 0 at the original and 1 at the new locations. *)
Theorem extended_variables cm nlevs vars spaces isMy ss : extension_input nlevs vars spaces isMy ss ->
  exists d' spaces', extendObsSpace cm (Z.of_nat nlevs) true vars
      (Nonoverlapping_dist isMy (Nonoverlapping_computePatchLocs ss)) spaces = Ok (d', spaces') /\
    forall rank s, spaces !! rank = Some s -> exists s', spaces' !! rank = Some s' /\
      let n := sp_nlocs s in let m := length (recs_of s) * nlevs in
      holds (sp_group s') "MetaData/extendedObsSpace" ["Location"] int_t (n + m) [] (replicate n (VInt 0) ++ replicate m (VInt 1)) /\
      forall name fv, g_vars (sp_group s) !! name = Some fv ->
        exists fv', g_vars (sp_group s') !! name = Some fv' /\ fv_dims fv' = fv_dims fv /\ dtype_ (fv_var fv') = dtype_ (fv_var fv) /\
          (along_locations fv = false -> var_data fv' = var_data fv) /\
          (along_locations fv = true -> name ∉ map (fullVarName "MetaData") vars ->
            var_data fv' = var_data fv ++ replicate (m * row_of fv) (missing_val (dtype_ (fv_var fv)))) /\
          (name ∈ map (fullVarName "MetaData") vars -> length (var_data fv') = n + m /\
            (forall j, j < n -> var_data fv' !! j = var_data fv !! j) /\
            forall i r l, recs_of s !! i = Some r -> l < nlevs ->
              var_data fv' !! (n + (i * nlevs + l)) = Some (companion_value s (dtype_ (fv_var fv)) (var_data fv) r)).
Proof.
  intros Hin. destruct (extension_ok cm _ _ _ _ _ Hin) as (d' & spaces' & He & _ & Hx & _). exists d', spaces'.
  split; [exact He|]. intros rank s Hs. destruct (Forall2_lookup_l _ _ _ _ _ Hx Hs) as (s' & Hs' & Hext). exists s'. split; [done|].
  destruct (ex_rest _ _ _ _ _ _ Hext) as (recidx & Hidx & Hge). rewrite length_companion_locs in Hge.
  assert (Hel : s ∈ spaces) by (by eapply list_elem_of_lookup_2).
  assert (Hok : space_ok s) by (eapply list.Forall_forall; [apply (ei_spaces _ _ _ _ _ Hin)|done]).
  assert (Hre : space_ready nlevs vars s) by (eapply list.Forall_forall; [apply (ei_ready _ _ _ _ _ Hin)|done]).
  split; [apply (ge_flag _ _ _ _ _ _ _ _ Hge)|]. intros name fv Hfv.
  destruct (ge_var _ _ _ _ _ _ _ _ Hge name fv Hfv) as (fv' & H1 & H2 & H3 & H4 & H5 & H6). exists fv'. split_and!; [done..|].
  intros Hl. destruct (listed_values nlevs vars s name fv Hre Hl Hfv) as (Hal & Hlen & Hrow).
  specialize (H6 Hal Hl). unfold padded in H6. rewrite Hrow, Nat.mul_1_r in H6.
  eapply (filled_values nlevs (all_recs spaces) s recidx Hok); [|done|done|done|exact H6].
  intros r Hr. by apply (below_all_recs spaces s).
Qed.
End claims.

Module Sample.
Import ObsSpaceVars.Sample.

(** Two ranks of RoundRobin with three locations: record 0 has locations 0 and 2,
    record 1 has location 1. *)
Definition empty (n : nat) : ObsGroup Z :=
  {| g_dim_names := ["Location"]; g_dims := {["Location" := (Z.of_nat n, Unlimited)]}; g_names := []; g_vars := ∅ |}.
Definition height : string := fullVarName "MetaData" "height".
Definition make (vals : list (Val Z)) : res (ObsGroup Z) :=
  g ← createWithScales height ["Location"] float_t (Some (VFloat (-99)%Z)) (empty (length vals));
  vars_update height (fun v => front_write vals float_t front_all front_all (fv_var v)) g.
Definition space (g : ObsGroup Z) (indx recnums : list nat) (recidx : RecIdxMap) : Space Z :=
  {| sp_group := g; sp_nlocs := length indx; sp_gnlocs := 3; sp_nrecs := 1; sp_indx := indx; sp_recnums := recnums; sp_recidx := recidx |}.
Definition rank0 g := space g [0; 2] [0; 0] {[0 := [0; 1]]}.
Definition rank1 g := space g [1] [1] {[1 := [0]]}.
Definition isMy := RoundRobin_isMyRecord 2.
Definition objects : list NonoverlappingDistribution :=
  [{| numLocationsOnThisRank_ := 2; numLocationsOnLowerRanks_ := 0 |}; {| numLocationsOnThisRank_ := 1; numLocationsOnLowerRanks_ := 0 |}].

Lemma make_ok (vals : list (Val Z)) : length vals < 100 ->
  exists g fv, make vals = Ok g /\ g_names g = [height] /\ g_vars g = {[height := fv]} /\
    g_dims g = {["Location" := (Z.of_nat (length vals), Unlimited)]} /\
    var_inv ["Location"] float_t (Some (VFloat (-99)%Z)) Unlimited [] (length vals) fv vals.
Proof.
  intros Hl. destruct (createWithScales_filled height ["Location"] float_t (Some (VFloat (-99)%Z)) (empty (length vals)) (length vals) Unlimited [])
    as (fv & data & Hc & Hi & _); [by do 2 right; left|split; [by apply Forall_nil|simpl; lia..]|done|done|].
  destruct (write_all (fv_var fv) (length vals) [] data (vi_array _ _ _ _ _ _ _ _ Hi) vals) as (st & Hw & Ha).
  { unfold row_size. simpl. lia. }
  unfold make. rewrite Hc. cbn [mbind res_bind]. unfold vars_update, vars_open. cbn [g_vars]. rewrite lookup_insert_eq. cbn [mbind res_bind].
  rewrite (vi_type _ _ _ _ _ _ _ _ Hi) in Hw. rewrite Hw. cbn [mbind res_bind]. eexists _, _. split; [reflexivity|].
  split_and!; [done|simpl; by rewrite insert_insert_eq|done|]. by eapply var_inv_with_data.
Qed.

Lemma ready g fv (vals : list (Val Z)) n' indx recnums recidx :
  g_names g = [height] -> g_vars g = {[height := fv]} -> g_dims g = {["Location" := (Z.of_nat (length vals), Unlimited)]} ->
  var_inv ["Location"] float_t (Some (VFloat (-99)%Z)) Unlimited [] (length vals) fv vals ->
  length vals = length indx -> n' = length indx + length (uniqueOriginalRecs recnums) * 2 -> n' < 100 ->
  space_ready 2 ["height"] (space g indx recnums recidx).
Proof.
  intros Hn Hv Hd Hi Hl -> Hlt.
  assert (Hs : shape (length indx + length (uniqueOriginalRecs recnums) * 2) []) by (split; [by apply Forall_nil|simpl; lia..]).
  split; simpl.
  - split; [rewrite Hn; apply NoDup_singleton| | |].
    + intros name. rewrite Hn, Hv, list_elem_of_singleton, lookup_singleton_is_Some. by split; intros ->.
    + rewrite Hd, lookup_singleton_eq. by eexists.
    + intros name fv0. rewrite Hv. intros [<- <-]%lookup_singleton_Some.
      exists "Location", [], float_t, (length indx), [], Unlimited. unfold var_data. rewrite (arr_data _ _ _ _ (vi_array _ _ _ _ _ _ _ _ Hi)).
      split_and!; [by rewrite <-Hl|by do 2 right; left|by intros ?%elem_of_nil|done|]. by rewrite decide_True.
  - unfold exists_var, vars_exists. by rewrite Hv, Hd.
  - exact Hs.
  - intros v ->%list_elem_of_singleton. right. exists fv. split; [by rewrite Hv; apply lookup_singleton_eq|apply (vi_dims _ _ _ _ _ _ _ _ Hi)].
Qed.

Lemma rank_ok g indx r (l : list nat) : StronglySorted lt indx -> l = seq 0 (length indx) ->
  space_ok (space g indx (replicate (length indx) r) {[r := l]}) \/ indx = [].
Proof.
  intros Hs ->. destruct indx as [|x indx]; [by right|left]. split; simpl; [done|by rewrite length_replicate|done|lia| |].
  - intros r' l' [<- _]%lookup_singleton_Some. left.
  - intros r' l' j [<- <-]%lookup_singleton_Some Hj. apply (lookup_replicate_2 (S (length indx))).
    change (0 :: seq 1 (length indx)) with (seq 0 (S (length indx))) in Hj. apply elem_of_seq in Hj. lia.
Qed.

(** The heights of rank 0 are missing and 5, that of rank 1 is 7. *)
Definition made (g0 g1 : ObsGroup Z) : Prop := make [VFloat (-99)%Z; VFloat 5%Z] = Ok g0 /\ make [VFloat 7%Z] = Ok g1.

Lemma sample_made : exists g0 g1 fv0 fv1, made g0 g1 /\ g_vars g0 !! height = Some fv0 /\ g_vars g1 !! height = Some fv1 /\
  dtype_ (fv_var fv0) = float_t /\ var_data fv0 = [VFloat (-99)%Z; VFloat 5%Z] /\
  extension_input 2 ["height"] [rank0 g0; rank1 g1] isMy objects.
Proof.
  destruct (make_ok [VFloat (-99)%Z; VFloat 5%Z]) as (g0 & fv0 & H0 & N0 & V0 & D0 & I0); [simpl; lia|].
  destruct (make_ok [VFloat 7%Z]) as (g1 & fv1 & H1 & N1 & V1 & D1 & I1); [simpl; lia|].
  exists g0, g1, fv0, fv1. split; [by split|]. split_and!; [by rewrite V0; apply lookup_singleton_eq|by rewrite V1; apply lookup_singleton_eq
    |apply (vi_type _ _ _ _ _ _ _ _ I0)|apply (arr_data _ _ _ _ (vi_array _ _ _ _ _ _ _ _ I0))|].
  split.
  - lia.
  - done.
  - apply Forall_cons_2; [|apply Forall_singleton].
    + destruct (rank_ok g0 [0; 2] 0 [0; 1]) as [H|H]; [|done|exact H|done]. repeat constructor; lia.
    + destruct (rank_ok g1 [1] 1 [0]) as [H|H]; [|done|exact H|done]. repeat constructor.
  - apply Forall_cons_2; [|apply Forall_singleton].
    + apply (ready g0 fv0 [VFloat (-99)%Z; VFloat 5%Z] 4); try done. lia.
    + apply (ready g1 fv1 [VFloat 7%Z] 3); try done. lia.
  - apply NoDup_singleton.
  - reflexivity.
  - reflexivity.
  - apply (bool_decide_unpack _). vm_compute. exact I.
  - intros [|[|rank]] s r; [intros [= <-]|intros [= <-]|done]; simpl; rewrite ?elem_of_cons, ?elem_of_nil; intros Hr;
      assert (r = 0 \/ r = 1) as [-> | ->] by naive_solver; try done; naive_solver.
  - intros r1 r2 rec Hr1 Hr2. unfold isMy, RoundRobin_isMyRecord. rewrite !Nat.eqb_eq. lia.
Qed.

(** Every rank gets two companion locations; the new distribution has seven
    locations. *)
Lemma extended_spaces_witness : exists g0 g1, made g0 g1 /\
  exists d' spaces', @extendObsSpace Z _ _ reference_comm ∅ 2 true ["height"]
      (@Nonoverlapping_dist reference_comm isMy (@Nonoverlapping_computePatchLocs reference_comm objects)) [rank0 g0; rank1 g1] = Ok (d', spaces') /\
    DistContract d' (map sp_indx spaces') [0; 2; 1; 3; 4; 5; 6].
Proof.
  destruct sample_made as (g0 & g1 & fv0 & fv1 & Hm & _ & _ & _ & _ & Hin). exists g0, g1. split; [done|].
  destruct (@extended_spaces reference_comm reference_laws Z _ _ ∅ 2 ["height"] _ _ _ Hin) as (d' & spaces' & He & Hc & _).
  exists d', spaces'. split; [exact He|exact Hc].
Defined.

(** The companions of record 0 have height 5. *)
Lemma extended_variables_witness : exists g0 g1, made g0 g1 /\
  exists d' spaces', @extendObsSpace Z _ _ reference_comm ∅ 2 true ["height"]
      (@Nonoverlapping_dist reference_comm isMy (@Nonoverlapping_computePatchLocs reference_comm objects)) [rank0 g0; rank1 g1] = Ok (d', spaces') /\
    exists s' fv', spaces' !! 0 = Some s' /\ g_vars (sp_group s') !! height = Some fv' /\
      var_data fv' = [VFloat (-99)%Z; VFloat 5%Z; VFloat 5%Z; VFloat 5%Z].
Proof.
  destruct sample_made as (g0 & g1 & fv0 & fv1 & Hm & Hv0 & _ & Ht & Hd & Hin). exists g0, g1. split; [done|].
  destruct (@extended_variables reference_comm reference_laws Z _ _ ∅ 2 ["height"] _ _ _ Hin) as (d' & spaces' & He & Hx).
  exists d', spaces'. split; [exact He|]. destruct (Hx 0 (rank0 g0) eq_refl) as (s' & Hs' & _ & Hvar). exists s'.
  destruct (Hvar height fv0 Hv0) as (fv' & Hfv' & _ & _ & _ & _ & Hl). exists fv'. split_and!; [done|done|].
  destruct Hl as (Hlen & Horig & Hcomp); [left|]. rewrite Hd in Horig, Hcomp. rewrite Ht in Hcomp.
  apply list_eq_same_length with 4; [done|exact Hlen|]. intros [|[|[|[|i]]]] x y Hi Hx' Hy; [| | | |lia].
  - rewrite Horig in Hx' by (simpl; lia). simpl in Hx', Hy. congruence.
  - rewrite Horig in Hx' by (simpl; lia). simpl in Hx', Hy. congruence.
  - pose proof (Hcomp 0 0 0 eq_refl ltac:(lia)) as E. simpl in E, Hy. rewrite E in Hx'. injection Hx' as <-. injection Hy as <-. reflexivity.
  - pose proof (Hcomp 0 0 1 eq_refl ltac:(lia)) as E. simpl in E, Hy. rewrite E in Hx'. injection Hx' as <-. injection Hy as <-. reflexivity.
Defined.
End Sample.
