(* ===== verification/ObsVector.v ===== *)
(** Vectors in observation space (src/src/ObsVector.cc, src/src/ObsVector.h): the
    values of some variables at the locations of a rank, location by location,
    in double precision and with missing values. *)
From stdpp Require Import base list gmap strings.
From Stdlib Require Import ZArith.
From S2P Require Import Prelude Mpi Distribution Inefficient DistributionUtils.
From S2P Require Import Selection VarAttrStore ObsTypes ObsVariables ObsFrame ObsFrameRead ObsFrameReadSpec ObsSpaceInit ObsSpaceVars.

(** [double] with its missing value, and the conversions from and to [float]. *)
Class DoubleArith (R : Type) := {
  r_zero : R;
  r_one : R;
  r_add : R -> R -> R;
  r_sub : R -> R -> R;
  r_mul : R -> R -> R;
  r_div : R -> R -> R;
  r_sqrt : R -> R;
  r_of_int : Z -> R;
  r_missing : R
}.
Class FloatDouble (R F : Type) := {
  r_of_f : F -> R;
  f_of_r : R -> F
}.

(** oops::Variables, a list of names with a search. *)
Class Variables := {
  vars_has : list string -> string -> bool;
  vars_find : list string -> string -> res nat
}.
Class VariablesLaws `{Variables} := {
  vars_has_spec : forall vars x, vars_has vars x = true <-> x ∈ vars;
  vars_find_spec : forall vars x, x ∈ vars -> exists i, vars_find vars x = Ok i /\ vars !! i = Some x
}.

(** The data members; [obsdb_] is the identity of the ObsSpace. *)
Record ObsVector (R : Type) := {
  obsdb_ : nat;
  obsvars_ : list string;
  nvars_ : nat;
  nlocs_ : nat;
  values_ : list R
}.
Arguments obsdb_ {R} _.
Arguments obsvars_ {R} _.
Arguments nvars_ {R} _.
Arguments nlocs_ {R} _.
Arguments values_ {R} _.

Section ObsVector.
Context {R : Type} `{DA : DoubleArith R} `{EqR : EqDecision R}.
Context {F : Type} `{FO : FloatOps F} `{MV : MissingValues F} `{FD : FloatDouble R F}.
Implicit Types (v w : ObsVector R).

#[export] Instance R_Num : Num R := {| nzero := r_zero; nplus := r_add |}.

Definition is_missing (x : R) : bool := bool_decide (x = r_missing).

Definition with_values v (l : list R) : ObsVector R :=
  {| obsdb_ := obsdb_ v; obsvars_ := obsvars_ v; nvars_ := nvars_ v; nlocs_ := nlocs_ v; values_ := l |}.

(** ** Access to the ObsSpace in double precision *)

(** [ConvertVarType<float, double>] and [ConvertVarType<double, float>] *)
Definition float_to_double (x : F) : R := if f_eqb x missing_float then r_missing else r_of_f x.
Definition double_to_float (x : R) : F := if is_missing x then missing_float else f_of_r x.

Definition get_db_double (g : ObsGroup F) (cm : gmap Z nat) (group name : string) (chanSelect : list Z)
    (skipDerived : bool) : res (list R) :=
  floatData ← loadVar g cm float_t group name chanSelect skipDerived;
  mapR (fun x => match x with VFloat f => Ok (float_to_double f) | _ => Throw EUndefined end) floatData.

Definition put_db_double (g : ObsGroup F) (cm : gmap Z nat) (group name : string) (vdata : list R)
    (dimList : list string) : res (ObsGroup F) :=
  saveVar g cm float_t group name (map (fun x => VFloat (double_to_float x)) vdata) dimList.

(** ** Construction, reading and saving *)

Definition ObsVector_read (g : ObsGroup F) (cm : gmap Z nat) (nlocs : nat) (name : string) v : res (ObsVector R) :=
  vals ← foldM (fun vals jv =>
      var ← vec_get (obsvars_ v) jv;
      tmp ← get_db_double g cm name var [] false;
      foldM (fun vals jj => x ← vec_get tmp jj; vec_set vals (jv + jj * nvars_ v) x) vals (seq 0 nlocs))
    (values_ v) (seq 0 (nvars_ v));
  Ok (with_values v vals).

Definition ObsVector_save (g : ObsGroup F) (cm : gmap Z nat) (nlocs : nat) (name : string) v : res (ObsGroup F) :=
  foldM (fun g jv =>
      tmp ← mapR (fun jj => vec_get (values_ v) (jv + jj * nvars_ v)) (seq 0 nlocs);
      var ← vec_get (obsvars_ v) jv;
      put_db_double g cm name var tmp ["Location"])
    g (seq 0 (nvars_ v)).

Definition ObsVector_new (space : nat) (vars : list string) (g : ObsGroup F) (cm : gmap Z nat) (nlocs : nat) (name : string)
  : res (ObsVector R) :=
  let v := {| obsdb_ := space; obsvars_ := vars; nvars_ := length vars; nlocs_ := nlocs;
              values_ := replicate (nlocs * length vars) r_zero |} in
  if bool_decide (name = "") then Ok v else ObsVector_read g cm nlocs name v.

(** The assignment copies the values only. *)
Definition ObsVector_assign v rhs : ObsVector R := with_values v (values_ rhs).

(** ** Arithmetic *)

(** The loop shared by [+=], [-=], [*=], [/=] and [axpy]. *)
Definition combine (op : R -> R -> R) v rhs : res (ObsVector R) :=
  _ ← assert (length (values_ rhs) =? length (values_ v));
  vals ← imapR (fun jj x => y ← vec_get (values_ rhs) jj;
      Ok (if is_missing x || is_missing y then r_missing else op x y)) (values_ v);
  Ok (with_values v vals).

Definition ObsVector_add v rhs : res (ObsVector R) := combine r_add v rhs.
Definition ObsVector_sub v rhs : res (ObsVector R) := combine r_sub v rhs.
Definition ObsVector_mul v rhs : res (ObsVector R) := combine r_mul v rhs.
Definition ObsVector_div v rhs : res (ObsVector R) := combine r_div v rhs.
Definition ObsVector_axpy (zz : R) v rhs : res (ObsVector R) := combine (fun x y => r_add x (r_mul zz y)) v rhs.

Definition ObsVector_scale (zz : R) v : ObsVector R :=
  with_values v (map (fun x => if is_missing x then x else r_mul zz x) (values_ v)).
Definition ObsVector_invert v : ObsVector R :=
  with_values v (map (fun x => if is_missing x then x else r_div r_one x) (values_ v)).
Definition ObsVector_zero v : ObsVector R := with_values v (map (fun _ => r_zero) (values_ v)).
Definition ObsVector_ones v : ObsVector R := with_values v (map (fun _ => r_one) (values_ v)).

(** [axpy] with a factor per variable. *)
Definition ObsVector_axpy_vars (beta : list R) v y : res (ObsVector R) :=
  _ ← assert (length (values_ y) =? length (values_ v));
  _ ← assert (length beta =? nvars_ v);
  '(vals, _) ← foldM (fun s _ => foldM (fun '(vals, ivec) jvar =>
        x1 ← vec_get vals ivec;
        x2 ← vec_get (values_ y) ivec;
        b ← vec_get beta jvar;
        vals ← vec_set vals ivec (if is_missing x1 || is_missing x2 then r_missing else r_add x1 (r_mul b x2));
        Ok (vals, S ivec)) s (seq 0 (nvars_ v)))
    (values_ v, 0) (seq 0 (nlocs_ v));
  Ok (with_values v vals).

(** [mask.values_.at(jj)] is checked. *)
Definition ObsVector_mask v mask : res (ObsVector R) :=
  _ ← assert (length (values_ mask) =? length (values_ v));
  vals ← imapR (fun jj x => m ← vec_at (values_ mask) jj; Ok (if is_missing m then r_missing else x)) (values_ v);
  Ok (with_values v vals).

(** ** Packing *)

Definition packEigenSize v mask : res nat :=
  _ ← assert (length (values_ mask) =? length (values_ v));
  foldM (fun n jj => m ← vec_get (values_ mask) jj; x ← vec_get (values_ v) jj;
      Ok (if negb (is_missing m) && negb (is_missing x) then S n else n)) 0 (seq 0 (length (values_ v))).

(** [vec(i) = x] is checked by Eigen. *)
Definition packEigen v mask : res (list R) :=
  _ ← assert (length (values_ mask) =? length (values_ v));
  size ← packEigenSize v mask;
  '(vec, _) ← foldM (fun '(vec, vecindex) jj => m ← vec_get (values_ mask) jj; x ← vec_get (values_ v) jj;
      if negb (is_missing m) && negb (is_missing x)
      then vec ← vec_set vec vecindex x; Ok (vec, S vecindex) else Ok (vec, vecindex))
    (replicate size r_zero, 0) (seq 0 (length (values_ v)));
  Ok vec.

(** ** Global reductions, on all ranks *)

Definition dot_product_with (d : Distribution) (nvars : nat) (vs : list (ObsVector R * ObsVector R)) : res (list R) :=
  dotProduct r_missing d r_mul nvars (map (fun '(v, w) => (values_ v, values_ w)) vs).

Definition nobs (d : Distribution) (nvars : nat) (vs : list (ObsVector R)) : res (list Z) :=
  ns ← globalNumNonMissingObs r_missing d nvars (map values_ vs); Ok (map (fun n => i32 (Z.of_nat n)) ns).

Definition rms (d : Distribution) (nvars : nat) (vs : list (ObsVector R)) : res (list R) :=
  zrms ← dot_product_with d nvars (map (fun v => (v, v)) vs);
  ns ← nobs d nvars vs;
  Ok (zip_with (fun z n => if (0 <? n)%Z then r_sqrt (r_div z (r_of_int n)) else z) zrms ns).

(** The values of one variable. *)
Definition variable_values v (jvar : nat) : res (list R) :=
  mapR (fun jloc => vec_get (values_ v) (jvar + jloc * nvars_ v)) (seq 0 (nlocs_ v)).

(** The results of all ranks for each variable. *)
Definition multivar_dot_product_with (d : Distribution) (nvars : nat) (vs : list (ObsVector R * ObsVector R))
  : res (list (list R)) :=
  mapR (fun jvar =>
      xs ← mapR (fun '(v, w) => x1 ← variable_values v jvar;
                 x2 ← mapR (fun jloc => vec_get (values_ w) (jvar + jloc * nvars_ v)) (seq 0 (nlocs_ v));
                 Ok (x1, x2)) vs;
      dotProduct r_missing d r_mul 1 xs)
    (seq 0 nvars).

(** [random]: rank 0 draws [normal] for all locations of the source. *)
Definition scatter_random (perts : list R) (indx : list nat) v : res (ObsVector R) :=
  vals ← foldM (fun vals jloc =>
      xindex ← vec_get indx jloc;
      foldM (fun vals jvar => p ← vec_get perts (xindex * nvars_ v + jvar); vec_set vals (jloc * nvars_ v + jvar) p)
        vals (seq 0 (nvars_ v)))
    (values_ v) (seq 0 (nlocs_ v));
  Ok (with_values v vals).

Definition random `{MpiComm} (normal : nat -> list R) (globalNumLocs globalNumLocsOutsideTimeWindow : nat)
    (vs : list (ObsVector R * list nat)) : res (list (ObsVector R)) :=
  let perts := imap (fun rank '(v, _) =>
      let globalnobs := (globalNumLocs + globalNumLocsOutsideTimeWindow) * nvars_ v in
      if rank =? 0 then normal globalnobs else replicate globalnobs r_zero) vs in
  mapR (fun '(perts, (v, indx)) => scatter_random perts indx v) (zip (comm_broadcast 0 perts) vs).
End ObsVector.

(** * Vectors as fields over locations *)

(** An operation that changes a vector; [W] is the type of the other operand. *)
Inductive VecOp (R W : Type) :=
  | OpScale (zz : R)
  | OpInvert
  | OpZero
  | OpOnes
  | OpAssign (w : W)
  | OpAdd (w : W)
  | OpSub (w : W)
  | OpMul (w : W)
  | OpDiv (w : W)
  | OpAxpy (zz : R) (w : W)
  | OpAxpyVars (beta : list R) (w : W)
  | OpMask (w : W).
Arguments OpScale {R W} zz.
Arguments OpInvert {R W}.
Arguments OpZero {R W}.
Arguments OpOnes {R W}.
Arguments OpAssign {R W} w.
Arguments OpAdd {R W} w.
Arguments OpSub {R W} w.
Arguments OpMul {R W} w.
Arguments OpDiv {R W} w.
Arguments OpAxpy {R W} zz w.
Arguments OpAxpyVars {R W} beta w.
Arguments OpMask {R W} w.

Definition op_map {R W W'} (k : W -> W') (o : VecOp R W) : VecOp R W' :=
  match o with
  | OpScale zz => OpScale zz
  | OpInvert => OpInvert
  | OpZero => OpZero
  | OpOnes => OpOnes
  | OpAssign w => OpAssign (k w)
  | OpAdd w => OpAdd (k w)
  | OpSub w => OpSub (k w)
  | OpMul w => OpMul (k w)
  | OpDiv w => OpDiv (k w)
  | OpAxpy zz w => OpAxpy zz (k w)
  | OpAxpyVars beta w => OpAxpyVars beta (k w)
  | OpMask w => OpMask (k w)
  end.

Definition run_op {R} `{DoubleArith R} `{EqDecision R} (o : VecOp R (ObsVector R)) (v : ObsVector R) : res (ObsVector R) :=
  match o with
  | OpScale zz => Ok (ObsVector_scale zz v)
  | OpInvert => Ok (ObsVector_invert v)
  | OpZero => Ok (ObsVector_zero v)
  | OpOnes => Ok (ObsVector_ones v)
  | OpAssign w => Ok (ObsVector_assign v w)
  | OpAdd w => ObsVector_add v w
  | OpSub w => ObsVector_sub v w
  | OpMul w => ObsVector_mul v w
  | OpDiv w => ObsVector_div v w
  | OpAxpy zz w => ObsVector_axpy zz v w
  | OpAxpyVars beta w => ObsVector_axpy_vars beta v w
  | OpMask w => ObsVector_mask v w
  end.

Section fields.
Context {R G : Type} `{DA : DoubleArith R} `{EqR : EqDecision R}.
Notation field := (G -> list (option R)).

(** What a stored value stands for. *)
Definition val (x : R) : option R := if is_missing x then None else Some x.
Definition stored (o : option R) : R := default r_missing o.

(** The meaning of an operation: arithmetic on the values that are present. *)
Definition lift2 (op : R -> R -> R) (x y : option R) : option R :=
  match x, y with Some a, Some b => Some (op a b) | _, _ => None end.

Definition op_field (o : VecOp R field) (f : field) : field := fun g =>
  match o with
  | OpScale zz => map (fmap (r_mul zz)) (f g)
  | OpInvert => map (fmap (r_div r_one)) (f g)
  | OpZero => map (fun _ => Some r_zero) (f g)
  | OpOnes => map (fun _ => Some r_one) (f g)
  | OpAssign w => w g
  | OpAdd w => zip_with (lift2 r_add) (f g) (w g)
  | OpSub w => zip_with (lift2 r_sub) (f g) (w g)
  | OpMul w => zip_with (lift2 r_mul) (f g) (w g)
  | OpDiv w => zip_with (lift2 r_div) (f g) (w g)
  | OpAxpy zz w => zip_with (lift2 (fun x y => r_add x (r_mul zz y))) (f g) (w g)
  | OpAxpyVars beta w => zip_with (fun x '(b, y) => lift2 (fun x y => r_add x (r_mul b y)) x y) (f g) (zip beta (w g))
  | OpMask w => zip_with (fun x m => match m with Some _ => x | None => None end) (f g) (w g)
  end.
End fields.

(** * The operations on all ranks *)

Section elements.
Context {R : Type} `{DA : DoubleArith R} `{EqR : EqDecision R}.

Definition present (o : option R) : Prop := forall x, o = Some x -> x <> r_missing.

Lemma is_missing_stored o : present o -> is_missing (stored o) = match o with None => true | Some _ => false end.
Proof. destruct o as [x|]; intros Ho; [apply bool_decide_false; by apply Ho|by apply bool_decide_true]. Qed.

Lemma stored_lift2 op a b : present a -> present b ->
  (if is_missing (stored a) || is_missing (stored b) then r_missing else op (stored a) (stored b)) = stored (lift2 op a b).
Proof. intros Ha Hb. rewrite !is_missing_stored by done. by destruct a, b. Qed.

Lemma map_stored (h : R -> R) (h' : option R -> option R) l :
  Forall present l -> (forall o, present o -> h (stored o) = stored (h' o)) -> map h (map stored l) = map stored (map h' l).
Proof.
  intros Hl Hh. rewrite !map_map. apply map_ext_in. intros o Ho%list_elem_of_In. apply Hh. by eapply list.Forall_forall in Hl.
Qed.

Lemma zip_with_stored (h : R -> R -> R) (h' : option R -> option R -> option R) l1 l2 :
  Forall present l1 -> Forall present l2 -> (forall a b, present a -> present b -> h (stored a) (stored b) = stored (h' a b)) ->
  zip_with h (map stored l1) (map stored l2) = map stored (zip_with h' l1 l2).
Proof.
  intros H1. revert l2. induction H1 as [|a l1 Ha Hl1 IH]; intros [|b l2] H2 Hh; [done..|]. apply Forall_cons in H2 as [Hb H2].
  simpl. rewrite Hh by done. f_equal. by apply IH.
Qed.

(** A loop over both vectors. *)
Lemma imapR_zip_with {A B C} (h : A -> B -> C) (get : list B -> nat -> res B) (a : list A) (b : list B) :
  (forall i y, b !! i = Some y -> get b i = Ok y) -> length a = length b ->
  imapR (fun i x => y ← get b i; Ok (h x y)) a = Ok (zip_with h a b).
Proof.
  intros Hget Hl. unfold imapR.
  cut (forall pre b', b = pre ++ b' -> length a = length b' ->
    imapR_go (fun i x => y ← get b i; Ok (h x y)) (length pre) a = Ok (zip_with h a b')).
  { intros Hc. by apply (Hc [] b). }
  clear Hl. induction a as [|x a IH]; intros pre [|y b'] Hb Hl; [done..|]. cbn [imapR_go zip_with].
  rewrite (Hget _ y) by (rewrite Hb; by apply list_lookup_middle). cbn [mbind res_bind].
  replace (S (length pre)) with (length (pre ++ [y])) by (rewrite length_app; simpl; lia).
  rewrite (IH (pre ++ [y]) b'); [done|by rewrite <-app_assoc|by simplify_eq/=].
Qed.

Lemma vec_at_Some {A} (l : list A) i x : l !! i = Some x -> vec_at l i = Ok x.
Proof. unfold vec_at. by intros ->. Qed.

Lemma zip_with_interleaved {G A B C} (h : A -> B -> C) (f : G -> list A) (w : G -> list B) nv l :
  (forall g, length (f g) = nv) -> (forall g, length (w g) = nv) ->
  zip_with h (interleaved f l) (interleaved w l) = interleaved (fun g => zip_with h (f g) (w g)) l.
Proof.
  intros Hf Hw. unfold interleaved. induction l as [|g l IH]; simpl; [done|].
  rewrite zip_with_app by (by rewrite Hf, Hw). by rewrite IH.
Qed.

Lemma map_interleaved {G A B} (h : A -> B) (f : G -> list A) l :
  map h (interleaved f l) = interleaved (fun g => map h (f g)) l.
Proof. unfold interleaved. rewrite concat_map, map_map. done. Qed.

Lemma interleaved_ext {G A} (f f' : G -> list A) l : (forall g, g ∈ l -> f g = f' g) -> interleaved f l = interleaved f' l.
Proof. intros H. unfold interleaved. f_equal. apply map_ext_in. intros g Hg%list_elem_of_In. by apply H. Qed.

(** One location of [axpy] with a factor per variable. *)
Lemma axpy_location (pre x ys beta post : list R) (yall : list R) k :
  length ys = length x -> length beta = k + length x ->
  (forall i y, ys !! i = Some y -> yall !! (length pre + i) = Some y) ->
  foldM (fun '(vals, ivec) jvar =>
        x1 ← vec_get vals ivec;
        x2 ← vec_get yall ivec;
        b ← vec_get beta jvar;
        vals ← vec_set vals ivec (if is_missing x1 || is_missing x2 then r_missing else r_add x1 (r_mul b x2));
        Ok (vals, S ivec)) (pre ++ x ++ post, length pre) (seq k (length x)) =
  Ok (pre ++ zip_with (fun x1 '(b, x2) => if is_missing x1 || is_missing x2 then r_missing else r_add x1 (r_mul b x2))
        x (zip (drop k beta) ys) ++ post, length pre + length x).
Proof.
  revert pre ys k. induction x as [|x1 x IH]; intros pre [|y ys] k Hl Hb Hy; try discriminate.
  { simpl. by rewrite Nat.add_0_r. }
  destruct (lookup_lt_is_Some_2 beta k) as [b Hbk]; [simpl in Hb; lia|].
  cbn [length seq foldM]. change ((x1 :: x) ++ post) with (x1 :: (x ++ post)).
  rewrite vec_get_middle by done. cbn [mbind res_bind].
  rewrite (vec_get_Some yall _ y) by (rewrite <-(Nat.add_0_r (length pre)); by apply Hy). cbn [mbind res_bind].
  rewrite (vec_get_Some beta _ b) by done. cbn [mbind res_bind].
  rewrite vec_set_middle by done. cbn [mbind res_bind].
  set (z := if is_missing x1 || is_missing y then _ else _).
  replace (S (length pre)) with (length (pre ++ [z])) by (rewrite length_app; simpl; lia).
  replace (pre ++ z :: x ++ post) with ((pre ++ [z]) ++ x ++ post) by (by rewrite <-app_assoc).
  rewrite (IH (pre ++ [z]) ys (S k)).
  - rewrite (drop_S _ _ _ Hbk). cbn [zip zip_with]. rewrite <-app_assoc. cbn [app]. rewrite length_app. simpl. do 2 f_equal. lia.
  - by injection Hl.
  - simpl in Hb. lia.
  - intros i y' Hi. rewrite length_app. simpl. replace (length pre + 1 + i) with (length pre + S i) by lia. by apply Hy.
Qed.

Lemma axpy_loop {G} (f w : G -> list R) (beta : list R) nv l :
  (forall g, length (f g) = nv) -> (forall g, length (w g) = nv) -> length beta = nv ->
  foldM (fun s (_ : nat) => foldM (fun '(vals, ivec) jvar =>
        x1 ← vec_get vals ivec;
        x2 ← vec_get (interleaved w l) ivec;
        b ← vec_get beta jvar;
        vals ← vec_set vals ivec (if is_missing x1 || is_missing x2 then r_missing else r_add x1 (r_mul b x2));
        Ok (vals, S ivec)) s (seq 0 nv)) (interleaved f l, 0) (seq 0 (length l)) =
  Ok (interleaved (fun g => zip_with (fun x1 '(b, x2) => if is_missing x1 || is_missing x2 then r_missing else r_add x1 (r_mul b x2))
        (f g) (zip beta (w g))) l, length l * nv).
Proof.
  intros Hf Hw Hb. set (h := fun g => zip_with _ (f g) (zip beta (w g))).
  assert (Hh : forall g, length (h g) = nv) by (intros g; unfold h; rewrite !length_zip_with, Hf, Hw; lia).
  cut (forall l1 l2 n, l = l1 ++ l2 ->
    foldM (fun s (_ : nat) => foldM (fun '(vals, ivec) jvar =>
        x1 ← vec_get vals ivec;
        x2 ← vec_get (interleaved w l) ivec;
        b ← vec_get beta jvar;
        vals ← vec_set vals ivec (if is_missing x1 || is_missing x2 then r_missing else r_add x1 (r_mul b x2));
        Ok (vals, S ivec)) s (seq 0 nv)) (interleaved h l1 ++ interleaved f l2, length l1 * nv) (seq n (length l2)) =
    Ok (interleaved h l, length l * nv)).
  { intros Hc. by apply (Hc [] l 0). }
  intros l1 l2. revert l1. induction l2 as [|g l2 IH]; intros l1 n Hl.
  { simpl. subst l. rewrite !app_nil_r. done. }
  cbn [length seq foldM]. change (interleaved f (g :: l2)) with (f g ++ interleaved f l2).
  rewrite <-(interleaved_length h nv Hh l1). rewrite <-(Hf g) at 1.
  rewrite (axpy_location (interleaved h l1) (f g) (w g) beta (interleaved f l2) (interleaved w l) 0).
  - cbn [mbind res_bind]. rewrite drop_0. fold (h g).
    replace (interleaved h l1 ++ h g ++ interleaved f l2) with (interleaved h (l1 ++ [g]) ++ interleaved f l2).
    + rewrite Hf, (interleaved_length h nv Hh). replace (length l1 * nv + nv) with (length (l1 ++ [g]) * nv) by (rewrite length_app; simpl; lia).
      apply IH. by rewrite <-app_assoc.
    + unfold interleaved. rewrite map_app, concat_app. simpl. by rewrite app_nil_r, <-app_assoc.
  - by rewrite Hf, Hw.
  - by rewrite Hf.
  - intros i y Hi. rewrite (interleaved_length h nv Hh). apply (interleaved_lookup w nv Hw l _ g); [|exact Hi].
    rewrite Hl. by apply list_lookup_middle.
Qed.
End elements.

(** * Vectors that hold a field *)

Section programs.
Context {R G : Type} `{DA : DoubleArith R} `{EqR : EqDecision R} (nv : nat).
Notation field := (G -> list (option R)).

(** A field that can be stored. *)
Definition field_ok (f : field) : Prop := forall g, length (f g) = nv /\ Forall present (f g).

(** The vector of a rank with the locations [l]. *)
Definition vector_of (space : nat) (vars : list string) (l : list G) (f : field) : ObsVector R :=
  {| obsdb_ := space; obsvars_ := vars; nvars_ := nv; nlocs_ := length l; values_ := interleaved (fun g => map stored (f g)) l |}.

Definition op_ok (o : VecOp R field) : Prop :=
  match o with
  | OpAssign w | OpAdd w | OpSub w | OpMul w | OpDiv w | OpAxpy _ w | OpMask w => field_ok w
  | OpAxpyVars beta w => field_ok w /\ length beta = nv
  | _ => True
  end.

(** Operations none of which gives the missing value by accident. *)
Fixpoint program_ok (ops : list (VecOp R field)) (f : field) : Prop :=
  match ops with
  | [] => field_ok f
  | o :: ops => field_ok f /\ op_ok o /\ program_ok ops (op_field o f)
  end.

Lemma combine_vector op (op' : option R -> option R -> option R) space vars l f w :
  field_ok f -> field_ok w -> (forall a b, op' a b = lift2 op a b) ->
  combine op (vector_of space vars l f) (vector_of space vars l w) =
    Ok (vector_of space vars l (fun g => zip_with op' (f g) (w g))).
Proof.
  intros Hf Hw Hop. unfold combine. cbn [values_ vector_of].
  rewrite !(interleaved_length _ nv) by (intros g; rewrite length_map; apply Hf || apply Hw). rewrite Nat.eqb_refl. cbn [assert mbind res_bind].
  rewrite (imapR_zip_with (fun x y => if is_missing x || is_missing y then r_missing else op x y) vec_get).
  - cbn [mbind res_bind]. unfold with_values, vector_of. cbn [obsdb_ obsvars_ nvars_ nlocs_]. do 2 f_equal.
    rewrite (zip_with_interleaved _ _ _ nv) by (intros g; rewrite length_map; apply Hf || apply Hw).
    apply interleaved_ext. intros g _. apply zip_with_stored; [apply Hf|apply Hw|]. intros a b Ha Hb. rewrite Hop. by apply stored_lift2.
  - intros i y. apply vec_get_Some.
  - by rewrite !(interleaved_length _ nv) by (intros g; rewrite length_map; apply Hf || apply Hw).
Qed.

Lemma map_vector (h : R -> R) (h' : option R -> option R) space vars l f :
  field_ok f -> (forall o, present o -> h (stored o) = stored (h' o)) ->
  with_values (vector_of space vars l f) (map h (values_ (vector_of space vars l f))) = vector_of space vars l (fun g => map h' (f g)).
Proof.
  intros Hf Hh. unfold with_values, vector_of. cbn [obsdb_ obsvars_ nvars_ nlocs_ values_]. f_equal. rewrite map_interleaved.
  apply interleaved_ext. intros g _. apply map_stored; [apply Hf|done].
Qed.

Lemma axpy_vars_vector beta space vars l f w : field_ok f -> field_ok w -> length beta = nv ->
  ObsVector_axpy_vars beta (vector_of space vars l f) (vector_of space vars l w) =
    Ok (vector_of space vars l (op_field (OpAxpyVars beta w) f)).
Proof.
  intros Hf Hw Hb. unfold ObsVector_axpy_vars. cbn [values_ vector_of nvars_ nlocs_].
  rewrite !(interleaved_length _ nv) by (intros g; rewrite length_map; apply Hf || apply Hw). rewrite Nat.eqb_refl, Hb, Nat.eqb_refl.
  cbn [assert mbind res_bind]. rewrite (axpy_loop _ _ beta nv) by (done || intros g; rewrite length_map; apply Hf || apply Hw).
  cbn [mbind res_bind]. unfold with_values, vector_of. cbn [obsdb_ obsvars_ nvars_ nlocs_ values_]. do 2 f_equal.
  apply interleaved_ext. intros g _. cbn [op_field]. destruct (Hf g) as [Hl1 Hp1]. destruct (Hw g) as [Hl2 Hp2].
  clear -Hp1 Hp2. revert Hp2. generalize (w g) as y. revert beta. induction Hp1 as [|a l1 Ha Hp1 IH]; intros [|b beta] [|c l2] Hp2; [done..|].
  apply Forall_cons in Hp2 as [Hc Hp2]. cbn [map zip zip_with]. rewrite <-IH by done. f_equal. by rewrite <-stored_lift2.
Qed.

Lemma mask_vector space vars l f w : field_ok f -> field_ok w ->
  ObsVector_mask (vector_of space vars l f) (vector_of space vars l w) = Ok (vector_of space vars l (op_field (OpMask w) f)).
Proof.
  intros Hf Hw. unfold ObsVector_mask. cbn [values_ vector_of].
  rewrite !(interleaved_length _ nv) by (intros g; rewrite length_map; apply Hf || apply Hw). rewrite Nat.eqb_refl. cbn [assert mbind res_bind].
  rewrite (imapR_zip_with (fun x m => if is_missing m then r_missing else x) vec_at).
  - cbn [mbind res_bind]. unfold with_values, vector_of. cbn [obsdb_ obsvars_ nvars_ nlocs_]. do 2 f_equal.
    rewrite (zip_with_interleaved _ _ _ nv) by (intros g; rewrite length_map; apply Hf || apply Hw).
    apply interleaved_ext. intros g _. apply zip_with_stored; [apply Hf|apply Hw|]. intros a b Ha Hb.
    rewrite is_missing_stored by done. by destruct b.
  - intros i y. apply vec_at_Some.
  - by rewrite !(interleaved_length _ nv) by (intros g; rewrite length_map; apply Hf || apply Hw).
Qed.

Lemma run_op_vector o space vars l f : field_ok f -> op_ok o ->
  run_op (op_map (vector_of space vars l) o) (vector_of space vars l f) = Ok (vector_of space vars l (op_field o f)).
Proof.
  intros Hf Ho. destruct o; cbn [op_map run_op]; cbn [op_ok] in Ho;
    try (apply combine_vector; [done|done|]; intros a b; done).
  - unfold ObsVector_scale. rewrite (map_vector _ (fmap (r_mul zz))); [done|done|]. intros x Hx. rewrite is_missing_stored by done. by destruct x.
  - unfold ObsVector_invert. rewrite (map_vector _ (fmap (r_div r_one))); [done|done|]. intros x Hx. rewrite is_missing_stored by done. by destruct x.
  - unfold ObsVector_zero. by rewrite (map_vector _ (fun _ => Some r_zero)).
  - unfold ObsVector_ones. by rewrite (map_vector _ (fun _ => Some r_one)).
  - done.
  - destruct Ho. by apply axpy_vars_vector.
  - by apply mask_vector.
Qed.

Lemma run_program space vars l ops f : program_ok ops f ->
  foldM (fun v o => run_op o v) (vector_of space vars l f) (map (op_map (vector_of space vars l)) ops) =
    Ok (vector_of space vars l (foldl (fun f o => op_field o f) f ops)) /\ field_ok (foldl (fun f o => op_field o f) f ops).
Proof.
  revert f. induction ops as [|o ops IH]; intros f; [done|]. intros (Hf & Ho & Hops). cbn [map foldM foldl].
  rewrite run_op_vector by done. cbn [mbind res_bind]. by apply IH.
Qed.
End programs.

(** * Reductions of distributed vectors *)

Section reductions.
Context {R G : Type} `{DA : DoubleArith R} `{EqR : EqDecision R} `{NL : !NumLaws R}.
Notation field := (G -> list (option R)).

(** The reductions of a field over the distinct locations [P]. *)
Definition field_dot (P : list G) (f w : field) : R :=
  nsum (zip_with (fun a b => match a, b with Some x, Some y => r_mul x y | _, _ => r_zero end) (interleaved f P) (interleaved w P)).
Definition field_count (P : list G) (f : field) : nat :=
  length (List.filter (fun o : option R => bool_decide (is_Some o)) (interleaved f P)).
Definition field_rms (P : list G) (f : field) : R :=
  let z := field_dot P f f in
  if (0 <? Z.of_nat (field_count P f))%Z then r_sqrt (r_div z (r_of_int (Z.of_nat (field_count P f)))) else z.

Context (d : Distribution) (L : list (list G)) (P : list G) (Hd : DistContract d L P).
Context (nv : nat) (Hnv : 0 < nv) (space : nat) (vars : list string).
Notation on_rank := (vector_of nv space vars).

Lemma present_interleaved (f : field) l : field_ok nv f -> Forall present (interleaved f l).
Proof.
  intros Hf. apply list.Forall_forall. intros o (g & _ & Ho)%elem_of_concat_map. destruct (Hf g) as [_ Hp].
  by eapply list.Forall_forall in Hp.
Qed.

Lemma dot_product_field (f w : field) : field_ok nv f -> field_ok nv w ->
  dot_product_with d nv (map (fun l => (on_rank l f, on_rank l w)) L) = Ok (replicate (length L) (field_dot P f w)).
Proof.
  intros Hf Hw. unfold dot_product_with. rewrite map_map. cbn [values_ vector_of].
  rewrite (dotProduct_spec r_missing d L P nv r_mul); [|done|done|intros g; rewrite length_map; apply Hf|intros g; rewrite length_map; apply Hw].
  unfold field_dot. do 3 f_equal. rewrite <-!map_interleaved.
  pose proof (present_interleaved f P Hf) as H1. pose proof (present_interleaved w P Hw) as H2.
  revert H1 H2. generalize (interleaved f P) as a, (interleaved w P) as b.
  intros a b H1. revert b. induction H1 as [|x a Hx Ha IH]; intros [|y b] H2; [done..|]. apply Forall_cons in H2 as [Hy H2].
  cbn [map zip_with]. rewrite IH by done. f_equal.
  pose proof (is_missing_stored x Hx) as E1. pose proof (is_missing_stored y Hy) as E2. unfold is_missing in E1, E2.
  rewrite E1, E2. by destruct x, y.
Qed.

Lemma nobs_field (f : field) : field_ok nv f -> (Z.of_nat (field_count P f) < 2 ^ 31)%Z ->
  nobs d nv (map (fun l => on_rank l f) L) = Ok (replicate (length L) (Z.of_nat (field_count P f))).
Proof.
  intros Hf Hlt. unfold nobs. rewrite map_map. cbn [values_ vector_of].
  rewrite (globalNumNonMissingObs_spec r_missing d L P nv); [|done|done|intros g; rewrite length_map; apply Hf].
  cbn [mbind res_bind]. rewrite fmap_replicate. do 2 f_equal.
  assert (E : length (List.filter (fun x : R => negb (bool_decide (x = r_missing))) (interleaved (fun g => map stored (f g)) P)) = field_count P f).
  { unfold field_count. rewrite <-map_interleaved. pose proof (present_interleaved f P Hf) as H1. revert H1.
    generalize (interleaved f P) as a. intros a Ha. induction Ha as [|x a Hx Ha IH]; [done|]. cbn [map List.filter].
    pose proof (is_missing_stored x Hx) as E. unfold is_missing in E. rewrite E.
    destruct x; cbn [negb]; [rewrite bool_decide_true by eauto; simpl; by rewrite IH|].
    rewrite bool_decide_false by (intros [? [=]]). exact IH. }
  rewrite E. apply i32_small. lia.
Qed.

Lemma rms_field (f : field) : field_ok nv f -> (Z.of_nat (field_count P f) < 2 ^ 31)%Z ->
  rms d nv (map (fun l => on_rank l f) L) = Ok (replicate (length L) (field_rms P f)).
Proof.
  intros Hf Hlt. unfold rms. rewrite map_map, dot_product_field by done. cbn [mbind res_bind].
  rewrite nobs_field by done. cbn [mbind res_bind]. by rewrite zip_with_replicate_2.
Qed.
End reductions.

(** * Saving and reading *)

(** The values of one variable, of vectors with [nv] values per location. *)
Definition column {A} (n nv : nat) (l : list A) (jv : nat) : list A := omap (fun jj => l !! (jv + jj * nv)) (seq 0 n).

Lemma column_ok {A} n nv (l : list A) jv : length l = n * nv -> jv < nv ->
  mapR (fun jj => vec_get l (jv + jj * nv)) (seq 0 n) = Ok (column n nv l jv) /\ length (column n nv l jv) = n /\
  forall jj, jj < n -> column n nv l jv !! jj = l !! (jv + jj * nv).
Proof.
  intros Hl Hjv.
  assert (Hx : forall a k, a + k <= n -> exists xs, mapR (fun jj => vec_get l (jv + jj * nv)) (seq a k) = Ok xs /\
    omap (fun jj => l !! (jv + jj * nv)) (seq a k) = xs /\ length xs = k /\ forall i, i < k -> xs !! i = l !! (jv + (a + i) * nv)).
  { intros a k. revert a. induction k as [|k IH]; intros a Ha; [exists []; split_and!; [done..|lia]|].
    destruct (IH (S a)) as (xs & H1 & H2 & H3 & H4); [lia|].
    destruct (lookup_lt_is_Some_2 l (jv + a * nv)) as [x Hx]; [nia|].
    exists (x :: xs). cbn [seq mapR omap list_omap]. rewrite (vec_get_Some _ _ _ Hx). cbn [mbind res_bind]. rewrite H1. cbn [mbind res_bind].
    rewrite Hx. cbn [omap] in H2. rewrite H2. split_and!; [done..|simpl; lia|].
    intros [|i] Hi; [by rewrite Nat.add_0_r|]. simpl. rewrite H4 by lia. do 2 f_equal. lia. }
  destruct (Hx 0 n) as (xs & H1 & H2 & H3 & H4); [lia|]. unfold column. rewrite H2. split_and!; [done..|]. intros jj Hjj. by rewrite H4.
Qed.

Lemma position_inj nv j jj j' jj' : j < nv -> j' < nv -> j + jj * nv = j' + jj' * nv -> j = j' /\ jj = jj'.
Proof. intros H1 H2 E. assert (jj = jj') by nia. subst. split; [lia|done]. Qed.

(** Filling the columns of a vector. *)
Lemma fill_columns {A} n nv (l : list A) (get : nat -> res (list A)) (cols : nat -> list A) :
  length l = n * nv -> (forall jv, jv < nv -> get jv = Ok (cols jv) /\ length (cols jv) = n) ->
  exists out, foldM (fun vals jv => tmp ← get jv;
      foldM (fun vals jj => x ← vec_get tmp jj; vec_set vals (jv + jj * nv) x) vals (seq 0 n)) l (seq 0 nv) = Ok out /\
    length out = n * nv /\ forall jv jj, jv < nv -> jj < n -> out !! (jv + jj * nv) = cols jv !! jj.
Proof.
  intros Hl Hget.
  destruct (foldM_ind (fun vals jv => tmp ← get jv;
      foldM (fun vals jj => x ← vec_get tmp jj; vec_set vals (jv + jj * nv) x) vals (seq 0 n))
    (fun don vals => length vals = n * nv /\ forall jv jj, jv ∈ don -> jv < nv -> jj < n -> vals !! (jv + jj * nv) = cols jv !! jj)
    l (seq 0 nv)) as (out & Hf & Hlen & Hout).
  - split; [done|]. intros jv jj Hjv. by apply elem_of_nil in Hjv.
  - intros don jv vals [Hlv Hv] [rest Hrest].
    assert (Hjv : jv < nv).
    { assert (jv ∈ seq 0 nv) as Hx%elem_of_seq by (rewrite Hrest, !elem_of_app; left; right; left). lia. }
    assert (Hnew : jv ∉ don).
    { pose proof (NoDup_seq 0 nv) as Hnd. rewrite Hrest, <-app_assoc in Hnd. apply NoDup_app in Hnd as (_ & Hx & _).
      intros Hin. apply (Hx jv Hin). left. }
    destruct (Hget jv Hjv) as [-> Hc]. cbn [mbind res_bind].
    destruct (foldM_ind (fun vals jj => x ← vec_get (cols jv) jj; vec_set vals (jv + jj * nv) x)
      (fun don' vals' => length vals' = n * nv /\
        (forall j' jj, j' <> jv -> j' < nv -> vals' !! (j' + jj * nv) = vals !! (j' + jj * nv)) /\
        forall jj, jj ∈ don' -> jj < n -> vals' !! (jv + jj * nv) = cols jv !! jj) vals (seq 0 n)) as (vals' & Hf & Hl' & Ho & Hi).
    + split_and!; [done|done|]. intros jj Hjj. by apply elem_of_nil in Hjj.
    + intros don' jj vals' (H1 & H2 & H3) [rest' Hrest'].
      assert (Hjj : jj < n).
      { assert (jj ∈ seq 0 n) as Hx%elem_of_seq by (rewrite Hrest', !elem_of_app; left; right; left). lia. }
      destruct (lookup_lt_is_Some_2 (cols jv) jj) as [x Hx]; [lia|]. rewrite (vec_get_Some _ _ _ Hx). cbn [mbind res_bind].
      rewrite vec_set_lt by nia. eexists. split; [reflexivity|]. split_and!.
      * by rewrite length_insert.
      * intros j' jj' Hne Hlt. rewrite list_lookup_insert_ne by (intros [-> _]%position_inj; done). by apply H2.
      * intros jj' Hin Hlt. destruct (decide (jj' = jj)) as [->|Hne].
        { by rewrite list_lookup_insert_eq by nia. }
        rewrite list_lookup_insert_ne by (intros [_ ->]%position_inj; done). apply H3; [|done]. apply elem_of_app in Hin as [|Hin%list_elem_of_singleton]; done.
    + exists vals'. split; [exact Hf|]. split; [done|]. intros j' jj [Hin|Hin%list_elem_of_singleton]%elem_of_app Hlt Hjj.
      * rewrite Ho by (done || intros ->; done). by apply Hv.
      * subst j'. apply Hi; [|done]. apply elem_of_seq. lia.
  - exists out. split_and!; [done|done|]. intros jv jj Hjv Hjj. apply Hout; [|done|done]. apply elem_of_seq. lia.
Qed.

(** A vector is determined by its columns. *)
Lemma columns_eq {A} n nv (l1 l2 : list A) : length l1 = n * nv -> length l2 = n * nv ->
  (forall jv jj, jv < nv -> jj < n -> l1 !! (jv + jj * nv) = l2 !! (jv + jj * nv)) -> l1 = l2.
Proof.
  intros H1 H2 H. apply list_eq. intros i. destruct (decide (i < n * nv)) as [Hi|Hi].
  - assert (0 < nv) by nia. pose proof (Nat.div_mod i nv ltac:(lia)) as E. pose proof (Nat.mod_upper_bound i nv ltac:(lia)).
    replace i with (i mod nv + i / nv * nv) by lia. apply H; [done|]. apply Nat.Div0.div_lt_upper_bound. lia.
  - rewrite !lookup_ge_None_2; [done|lia|lia].
Qed.

Lemma foldM_ext {A S} (f h : S -> A -> res S) s l : (forall s x, x ∈ l -> f s x = h s x) -> foldM f s l = foldM h s l.
Proof.
  revert s. induction l as [|x l IH]; intros s Hf; [done|]. cbn [foldM]. rewrite (Hf s x) by left.
  destruct (h s x); cbn [mbind res_bind]; [|done]. apply IH. intros s' y Hy. apply Hf. by right.
Qed.

Section save.
Context {F : Type} `{FO : FloatOps F} `{MV : MissingValues F}.
Context (cm : gmap Z nat) (t : OType) (n : nat) (name : string) (vars : list string).

(** The variables can be saved under [name]: they exist with one value per
    location, or can be created, and their names have no channel suffix. *)
Record io_ready (g : ObsGroup F) : Prop := {
  io_group : no_slash name = true;
  io_plain : forall v, v ∈ vars -> name = "MetaData" \/ extractChannelSuffixIfPresent v = Ok None;
  io_room : forall v, v ∈ vars -> exists data, room g (fullVarName name v) ["Location"] ["Location"] t n [] data;
  io_visible : forall v, v ∈ vars -> exists_var g (fullVarName ("Derived" +:+ name) v) = false
}.

Lemma io_ready_put g v fv g' : io_ready g -> v ∈ vars -> put g (fullVarName name v) fv g' ->
  fv_dims fv = ["Location"] -> dtype_ (fv_var fv) = t -> (exists data, array (fv_var fv) n [] data) -> io_ready g'.
Proof.
  intros [H1 H2 H3 H4] Hv Hp Hd Ht [data Ha]. pose proof Hp as [Hpd Hpv]. split; [done|done| |].
  - intros w Hw. destruct (decide (w = v)) as [->|Hne].
    + exists data. left. exists fv. split_and!; [by eapply put_lookup|done..].
    + destruct (H3 w Hw) as [data' Hroom].
      assert (Hne' : fullVarName name w <> fullVarName name v) by (by intros E%fullVarName_inj).
      exists data'. destruct Hroom as [(fv' & Hfv' & Hx)|(Hn & E1 & E2 & Hs & Hsh & mx & Hmx & Hdim)].
      * left. exists fv'. split; [by rewrite Hpv, lookup_insert_ne|done].
      * right. split_and!; [by rewrite (exists_put _ _ _ _ _ Hp), bool_decide_false|done..|]. exists mx. split; [done|].
        rewrite <-Hdim. unfold dim_open. by rewrite Hpd.
  - intros w Hw. rewrite (exists_put _ _ _ _ _ Hp), bool_decide_false; [by apply H4|]. by apply derived_group_ne.
Qed.

(** Saving one variable after the other. *)
Lemma save_vars g (vals : nat -> list (Val F)) : NoDup vars -> io_ready g -> (forall jv, jv < length vars -> length (vals jv) = n) ->
  exists g', foldM (fun g jv => var ← vec_get vars jv; saveVar g cm t name var (vals jv) ["Location"]) g (seq 0 (length vars)) = Ok g' /\
    io_ready g' /\ g_dims g' = g_dims g /\
    (forall jv x, vars !! jv = Some x -> holds g' (fullVarName name x) ["Location"] t n [] (vals jv)) /\
    forall other, (forall x, x ∈ vars -> other <> fullVarName name x) -> g_vars g' !! other = g_vars g !! other.
Proof.
  intros Hnd Hio Hlen.
  destruct (foldM_ind (fun g jv => var ← vec_get vars jv; saveVar g cm t name var (vals jv) ["Location"])
    (fun don g' => io_ready g' /\ g_dims g' = g_dims g /\
      (forall jv x, jv ∈ don -> vars !! jv = Some x -> holds g' (fullVarName name x) ["Location"] t n [] (vals jv)) /\
      forall other, (forall x, x ∈ vars -> other <> fullVarName name x) -> g_vars g' !! other = g_vars g !! other)
    g (seq 0 (length vars))) as (g' & Hf & H1 & H2 & H3 & H4).
  - split_and!; [done|done| |done]. intros jv x Hx. by apply elem_of_nil in Hx.
  - intros don jv g1 (H1 & H2 & H3 & H4) [rest Hrest].
    assert (Hjv : jv < length vars).
    { assert (jv ∈ seq 0 (length vars)) as Hx%elem_of_seq by (rewrite Hrest, !elem_of_app; left; right; left). lia. }
    destruct (lookup_lt_is_Some_2 vars jv Hjv) as [x Hx]. assert (Hin : x ∈ vars) by (by eapply list_elem_of_lookup_2).
    rewrite (vec_get_Some _ _ _ Hx). cbn [mbind res_bind]. destruct (io_room _ H1 x Hin) as [data Hroom].
    destruct (save_whole g1 cm t name x ["Location"] ["Location"] n [] data (vals jv))
      as (g2 & fv & Hs & Hp & Hd & Ht & Ha); [|done|rewrite (Hlen jv Hjv); unfold row_size; simpl; lia|].
    { destruct (io_plain _ H1 x Hin) as [->|Hsuf]; [by left|by do 4 right]. }
    exists g2. split; [exact Hs|]. pose proof Hp as [Hpd Hpv]. split_and!.
    + by eapply (io_ready_put g1 x fv); eauto.
    + congruence.
    + intros jv' x' Hin' Hx'. apply elem_of_app in Hin' as [Hin'|Hin'%list_elem_of_singleton].
      * destruct (decide (x' = x)) as [->|Hne]; [assert (jv' = jv) as -> by (by eapply NoDup_lookup)|].
        { exists fv. split_and!; [by eapply put_lookup|done..]. }
        destruct (H3 jv' x' Hin' Hx') as (fv' & Hfv' & Hrest'). exists fv'. split; [|done].
        rewrite Hpv, lookup_insert_ne by (by intros E'%fullVarName_inj). done.
      * subst jv'. rewrite Hx in Hx'. injection Hx' as <-. exists fv. split_and!; [by eapply put_lookup|done..].
    + intros other Ho. rewrite Hpv, lookup_insert_ne by (apply not_eq_sym; by apply Ho). by apply H4.
  - exists g'. split_and!; [done|done|done| |done]. intros jv x Hx. apply H3; [|done]. apply elem_of_seq. apply lookup_lt_Some in Hx. lia.
Qed.
End save.

Section io.
Context {R : Type} `{DA : DoubleArith R} `{EqR : EqDecision R}.
Context {F : Type} `{FO : FloatOps F} `{MV : MissingValues F} `{FD : FloatDouble R F}.
Context (cm : gmap Z nat) (n : nat) (name : string) (vars : list string).
Notation io_ready := (io_ready float_t n name vars).

Lemma save_columns g (v : ObsVector R) : obsvars_ v = vars -> nvars_ v = length vars -> length (values_ v) = n * length vars ->
  NoDup vars -> io_ready g ->
  exists g', ObsVector_save g cm n name v = Ok g' /\ io_ready g' /\ g_dims g' = g_dims g /\
    (forall jv x, vars !! jv = Some x ->
      holds g' (fullVarName name x) ["Location"] float_t n [] (map (fun r => VFloat (double_to_float r)) (column n (length vars) (values_ v) jv))) /\
    forall other, (forall x, x ∈ vars -> other <> fullVarName name x) -> g_vars g' !! other = g_vars g !! other.
Proof.
  intros Hvars Hnv Hl Hnd Hio. unfold ObsVector_save. rewrite Hvars, Hnv.
  destruct (save_vars cm float_t n name vars g (fun jv => map (fun r => VFloat (double_to_float r)) (column n (length vars) (values_ v) jv)) Hnd Hio)
    as (g' & Hs & Hrest).
  { intros jv Hjv. rewrite length_map. by apply column_ok. }
  exists g'. split; [|exact Hrest]. rewrite <-Hs. apply foldM_ext. intros g1 jv Hjv%elem_of_seq.
  destruct (column_ok n (length vars) (values_ v) jv Hl) as (E & _); [lia|]. by rewrite E.
Qed.

(** Reading the variables. *)
Lemma read_columns g (v : ObsVector R) (cols : nat -> list R) : obsvars_ v = vars -> nvars_ v = length vars ->
  length (values_ v) = n * length vars -> io_ready g ->
  (forall jv x, vars !! jv = Some x -> length (cols jv) = n /\
    holds g (fullVarName name x) ["Location"] float_t n [] (map (fun r => VFloat (double_to_float r)) (cols jv))) ->
  exists out, ObsVector_read g cm n name v = Ok (with_values v out) /\ length out = n * length vars /\
    forall jv jj, jv < length vars -> jj < n ->
      out !! (jv + jj * length vars) = map (fun r => float_to_double (double_to_float r)) (cols jv) !! jj.
Proof.
  intros Hvars Hnv Hl Hio Hcols. unfold ObsVector_read. rewrite Hvars, Hnv.
  destruct (fill_columns n (length vars) (values_ v)
    (fun jv => var ← vec_get vars jv; get_db_double g cm name var [] false)
    (fun jv => map (fun r => float_to_double (double_to_float r)) (cols jv)) Hl) as (out & Hf & Hlen & Hout).
  - intros jv Hjv. destruct (lookup_lt_is_Some_2 vars jv Hjv) as [x Hx]. rewrite (vec_get_Some _ _ _ Hx). cbn [mbind res_bind].
    destruct (Hcols jv x Hx) as [Hc Hh]. rewrite length_map. split; [|done]. unfold get_db_double.
    rewrite (load_whole g cm float_t name x ["Location"] n [] _ false Hh) by (right; by apply (io_visible _ _ _ _ _ Hio), (list_elem_of_lookup_2 _ jv)).
    cbn [mbind res_bind]. rewrite mapR_map. apply mapR_Ok. done.
  - exists out. split_and!; [|done|done].
    assert (E : foldM (fun vals jv => var ← vec_get vars jv; tmp ← get_db_double g cm name var [] false;
        foldM (fun vals jj => x ← vec_get tmp jj; vec_set vals (jv + jj * length vars) x) vals (seq 0 n)) (values_ v) (seq 0 (length vars)) = Ok out).
    { rewrite <-Hf. clear. generalize (values_ v) as l. induction (seq 0 (length vars)) as [|jv js IH]; intros l; [done|]. cbn [foldM].
      destruct (vec_get vars jv) as [var|]; cbn [mbind res_bind]; [|done].
      destruct (get_db_double g cm name var [] false); cbn [mbind res_bind]; [|done].
      destruct (foldM _ l _); cbn [mbind res_bind]; [apply IH|done]. }
    by rewrite E.
Qed.

(** What a value is after it was stored in single precision. *)
Definition rounded (x : R) : R := if is_missing x then r_missing else r_of_f (f_of_r x).

Lemma saved_then_read g (v v0 : ObsVector R) : obsvars_ v = vars -> nvars_ v = length vars -> length (values_ v) = n * length vars ->
  obsvars_ v0 = vars -> nvars_ v0 = length vars -> length (values_ v0) = n * length vars ->
  NoDup vars -> io_ready g -> f_eqb missing_float missing_float = true ->
  (forall x, x ∈ values_ v -> x <> r_missing -> f_eqb (f_of_r x) missing_float = false) ->
  exists g', ObsVector_save g cm n name v = Ok g' /\ ObsVector_read g' cm n name v0 = Ok (with_values v0 (map rounded (values_ v))) /\
    g_dims g' = g_dims g /\ forall other, (forall x, x ∈ vars -> other <> fullVarName name x) -> g_vars g' !! other = g_vars g !! other.
Proof.
  intros H1 H2 H3 H4 H5 H6 Hnd Hio Hmiss Hround.
  destruct (save_columns g v H1 H2 H3 Hnd Hio) as (g' & Hs & Hio' & Hd & Hh & Ho). exists g'.
  destruct (read_columns g' v0 (column n (length vars) (values_ v)) H4 H5 H6 Hio') as (out & Hr & Hlen & Hout).
  { intros jv x Hx. split; [|by apply Hh]. apply column_ok; [done|]. by eapply lookup_lt_Some. }
  split_and!; [done| |done|done]. rewrite Hr. do 2 f_equal.
  apply (columns_eq n (length vars)); [done|by rewrite length_map|]. intros jv jj Hjv Hjj.
  rewrite Hout by done. rewrite !list_lookup_fmap. destruct (column_ok n (length vars) (values_ v) jv H3 Hjv) as (_ & _ & ->); [|done].
  destruct (values_ v !! (jv + jj * length vars)) as [x|] eqn:Ex; [|done]. simpl. f_equal. unfold float_to_double, double_to_float, rounded.
  unfold is_missing. case_bool_decide as Em; [by rewrite Hmiss|]. rewrite Hround; [done|by eapply list_elem_of_lookup_2|done].
Qed.
End io.

(** * Random perturbations and packing *)

Section random.
Context {R : Type} `{DA : DoubleArith R} `{EqR : EqDecision R}.

(** The perturbations of source location [g]. *)
Definition perturbation (perts : list R) (nv g : nat) : list R := take nv (drop (g * nv) perts).

Lemma length_perturbation perts nv g total : length perts = total * nv -> g < total -> length (perturbation perts nv g) = nv.
Proof. intros Hl Hg. unfold perturbation. rewrite length_take, length_drop. nia. Qed.

Lemma copy_location (perts pre x post : list R) nv g k :
  k + length x = nv -> length perts >= g * nv + nv -> k <= length pre ->
  foldM (fun vals jvar => p ← vec_get perts (g * nv + jvar); vec_set vals (length pre - k + jvar) p) (pre ++ x ++ post) (seq k (length x)) =
    Ok (pre ++ take (length x) (drop (g * nv + k) perts) ++ post).
Proof.
  revert pre k. induction x as [|y x IH]; intros pre k Hk Hp Hle; [done|].
  cbn [length seq foldM]. destruct (lookup_lt_is_Some_2 perts (g * nv + k)) as [p Hpk]; [simpl in Hk; lia|].
  rewrite (vec_get_Some _ _ _ Hpk). cbn [mbind res_bind].
  replace (length pre - k + k) with (length pre) by lia. change ((y :: x) ++ post) with (y :: (x ++ post)).
  rewrite vec_set_middle by done. cbn [mbind res_bind]. rewrite (drop_S _ _ _ Hpk). cbn [take].
  replace (pre ++ p :: x ++ post) with ((pre ++ [p]) ++ x ++ post) by (by rewrite <-app_assoc).
  replace (length pre - k) with (length (pre ++ [p]) - S k) by (rewrite length_app; simpl; lia).
  rewrite (IH (pre ++ [p]) (S k)); [|simpl in Hk; lia|done|rewrite length_app; simpl; lia].
  rewrite <-app_assoc. cbn [app]. by replace (g * nv + S k) with (S (g * nv + k)) by lia.
Qed.

Lemma scatter_random_ok (perts : list R) total (indx : list nat) (v : ObsVector R) :
  length perts = total * nvars_ v -> Forall (fun g => g < total) indx -> nlocs_ v = length indx ->
  length (values_ v) = length indx * nvars_ v ->
  scatter_random perts indx v = Ok (with_values v (interleaved (perturbation perts (nvars_ v)) indx)).
Proof.
  intros Hp Hi Hn Hl. unfold scatter_random. rewrite Hn. set (nv := nvars_ v) in *.
  assert (Hlen : forall g, g ∈ indx -> length (perturbation perts nv g) = nv).
  { intros g Hg. apply (length_perturbation _ _ _ total); [done|]. by eapply list.Forall_forall in Hi. }
  cut (forall l1 l2 old, indx = l1 ++ l2 -> length old = length l2 * nv ->
    foldM (fun vals jloc => xindex ← vec_get indx jloc;
      foldM (fun vals jvar => p ← vec_get perts (xindex * nv + jvar); vec_set vals (jloc * nv + jvar) p) vals (seq 0 nv))
      (interleaved (perturbation perts nv) l1 ++ old) (seq (length l1) (length l2)) = Ok (interleaved (perturbation perts nv) indx)).
  { intros Hc. specialize (Hc [] indx (values_ v) eq_refl Hl). simpl in Hc. by rewrite Hc. }
  intros l1 l2. revert l1. induction l2 as [|g l2 IH]; intros l1 old Hx Hold.
  { rewrite app_nil_r in Hx. subst l1. apply nil_length_inv in Hold as ->. cbn [seq foldM]. by rewrite app_nil_r. }
  cbn [length seq foldM]. rewrite (vec_get_Some _ _ g) by (rewrite Hx; by apply list_lookup_middle). cbn [mbind res_bind].
  assert (Hg : g < total) by (eapply list.Forall_forall in Hi; [exact Hi|rewrite Hx; apply elem_of_app; right; left]).
  assert (Hl1 : length (interleaved (perturbation perts nv) l1) = length l1 * nv).
  { apply length_concat_map_uniform. intros x Hin. apply Hlen. rewrite Hx. apply elem_of_app. by left. }
  rewrite <-(take_drop nv old).
  assert (Ht : length (take nv old) = nv) by (rewrite length_take, Hold; simpl; lia).
  pose proof (copy_location perts (interleaved (perturbation perts nv) l1) (take nv old) (drop nv old) nv g 0) as E.
  rewrite Ht, Nat.sub_0_r, Hl1, Nat.add_0_r in E. rewrite E; [|done|nia|lia]. cbn [mbind res_bind].
  fold (perturbation perts nv g).
  replace (interleaved (perturbation perts nv) l1 ++ perturbation perts nv g ++ drop nv old)
    with (interleaved (perturbation perts nv) (l1 ++ [g]) ++ drop nv old).
  - replace (S (length l1)) with (length (l1 ++ [g])) by (rewrite length_app; simpl; lia). apply IH; [by rewrite <-app_assoc|].
    rewrite length_drop, Hold. simpl. lia.
  - unfold interleaved. rewrite map_app, concat_app. simpl. by rewrite app_nil_r, <-app_assoc.
Qed.

(** ** Packing *)

Definition packed (vals mask : list R) : list R :=
  omap (fun '(x, m) => if negb (is_missing m) && negb (is_missing x) then Some x else None) (zip vals mask).

Lemma packEigenSize_ok (v mask : ObsVector R) : length (values_ mask) = length (values_ v) ->
  packEigenSize v mask = Ok (length (packed (values_ v) (values_ mask))).
Proof.
  intros Hl. unfold packEigenSize. rewrite Hl, Nat.eqb_refl. cbn [assert mbind res_bind].
  set (a := values_ v) in *. set (b := values_ mask) in *.
  cut (forall a1 a2 b1 b2 n, a = a1 ++ a2 -> b = b1 ++ b2 -> length a1 = length b1 ->
    foldM (fun n jj => m ← vec_get b jj; x ← vec_get a jj; Ok (if negb (is_missing m) && negb (is_missing x) then S n else n)) n
      (seq (length a1) (length a2)) = Ok (n + length (packed a2 b2))).
  { intros Hc. by apply (Hc [] a [] b 0). }
  intros a1 a2. revert a1. induction a2 as [|x a2 IH]; intros a1 b1 b2 n Ha Hb Hab; [simpl; by rewrite Nat.add_0_r|].
  assert (exists m b3, b2 = m :: b3) as (m & b3 & ->).
  { destruct b2 as [|m b3]; [|eauto]. rewrite Ha, Hb, !length_app in Hl. simpl in Hl. lia. }
  cbn [length seq foldM]. rewrite (vec_get_Some b _ m) by (rewrite Hb; by apply list_lookup_middle). cbn [mbind res_bind].
  rewrite (vec_get_Some a _ x) by (rewrite Ha; by apply list_lookup_middle). cbn [mbind res_bind].
  replace (S (length a1)) with (length (a1 ++ [x])) by (rewrite length_app; simpl; lia).
  rewrite (IH (a1 ++ [x]) (b1 ++ [m]) b3) by (rewrite ?length_app, <-?app_assoc; simpl; done || lia).
  unfold packed. cbn [zip zip_with omap list_omap]. destruct (negb (is_missing m) && negb (is_missing x)); simpl; f_equal; lia.
Qed.

Lemma packEigen_ok (v mask : ObsVector R) : length (values_ mask) = length (values_ v) ->
  packEigen v mask = Ok (packed (values_ v) (values_ mask)).
Proof.
  intros Hl. unfold packEigen. rewrite Hl, Nat.eqb_refl. cbn [assert mbind res_bind]. rewrite packEigenSize_ok by done. cbn [mbind res_bind].
  set (a := values_ v) in *. set (b := values_ mask) in *.
  assert (Hc : forall a1 a2 b1 b2 out, a = a1 ++ a2 -> b = b1 ++ b2 -> length a1 = length b1 ->
    foldM (fun '(vec, vecindex) jj => m ← vec_get b jj; x ← vec_get a jj;
        if negb (is_missing m) && negb (is_missing x) then vec ← vec_set vec vecindex x; Ok (vec, S vecindex) else Ok (vec, vecindex))
      (out ++ replicate (length (packed a2 b2)) r_zero, length out) (seq (length a1) (length a2)) =
      Ok (out ++ packed a2 b2, length out + length (packed a2 b2))).
  2: { specialize (Hc [] a [] b [] eq_refl eq_refl eq_refl). cbn [app length] in Hc. by rewrite Hc. }
  intros a1 a2. revert a1. induction a2 as [|x a2 IH]; intros a1 b1 b2 out Ha Hb Hab.
  { simpl. unfold packed. simpl. by rewrite Nat.add_0_r. }
  assert (exists m b3, b2 = m :: b3) as (m & b3 & ->).
  { destruct b2 as [|m b3]; [|eauto]. rewrite Ha, Hb, !length_app in Hl. simpl in Hl. lia. }
  cbn [length seq foldM]. rewrite (vec_get_Some b _ m) by (rewrite Hb; by apply list_lookup_middle). cbn [mbind res_bind].
  rewrite (vec_get_Some a _ x) by (rewrite Ha; by apply list_lookup_middle). cbn [mbind res_bind].
  replace (S (length a1)) with (length (a1 ++ [x])) by (rewrite length_app; simpl; lia).
  assert (Hpk : packed (x :: a2) (m :: b3) = if negb (is_missing m) && negb (is_missing x) then x :: packed a2 b3 else packed a2 b3).
  { unfold packed. cbn [zip zip_with omap list_omap]. by destruct (negb (is_missing m) && negb (is_missing x)). }
  rewrite Hpk. destruct (negb (is_missing m) && negb (is_missing x)).
  - cbn [length replicate]. rewrite vec_set_middle by done. cbn [mbind res_bind].
    specialize (IH (a1 ++ [x]) (b1 ++ [m]) b3 (out ++ [x])). rewrite <-!app_assoc in IH. cbn [app] in IH.
    rewrite !length_app in IH. simpl in IH. rewrite !Nat.add_1_r in IH.
    rewrite length_app. simpl. rewrite Nat.add_1_r, IH by (done || lia). do 2 f_equal. lia.
  - cbn [mbind res_bind]. apply (IH (a1 ++ [x]) (b1 ++ [m]) b3); rewrite ?length_app, <-?app_assoc; simpl; done || lia.
Qed.
End random.

(** * Theorems *)

Section claims.
Context {R : Type} `{DA : DoubleArith R} `{EqR : EqDecision R}.

(** C12: Vectors on the ranks of any correct distribution behave as one vector over
    the distinct locations. Run the same operations on every rank, on operands
    that hold the restrictions of fields over the locations: every rank gets the
    restriction of the same result, missing exactly where an operand was
    missing, and dot product, number of observations and RMS are on every rank
    those of the result over the distinct locations, each counted once. (Sums
    are taken to be associative and commutative.) *)
Theorem vector_programs {G} `{NL : !NumLaws R} (d : Distribution) (L : list (list G)) (P : list G) (nv space : nat) (vars : list string)
    (ops : list (VecOp R (G -> list (option R)))) (f w : G -> list (option R)) :
  DistContract d L P -> 0 < nv -> program_ok nv ops f -> field_ok nv w ->
  let f' := foldl (fun f o => op_field o f) f ops in
  (Z.of_nat (field_count P f') < 2 ^ 31)%Z ->
  exists vs, mapR (fun l => foldM (fun v o => run_op o v) (vector_of nv space vars l f) (map (op_map (vector_of nv space vars l)) ops)) L = Ok vs /\
    vs = map (fun l => vector_of nv space vars l f') L /\
    dot_product_with d nv (zip vs (map (fun l => vector_of nv space vars l w) L)) = Ok (replicate (length L) (field_dot P f' w)) /\
    nobs d nv vs = Ok (replicate (length L) (Z.of_nat (field_count P f'))) /\
    rms d nv vs = Ok (replicate (length L) (field_rms P f')).
Proof.
  intros Hd Hnv Hops Hw f' Hlt. exists (map (fun l => vector_of nv space vars l f') L).
  assert (Hf' : field_ok nv f') by apply (run_program nv space vars [] ops f Hops).
  split_and!; [|done| | |].
  - apply mapR_Ok. intros l _. apply (run_program nv space vars l ops f Hops).
  - rewrite zip_with_fmap_l, zip_with_fmap_r.
    assert (E : zip_with (fun l l' => (vector_of nv space vars l f', vector_of nv space vars l' w)) L L =
      map (fun l => (vector_of nv space vars l f', vector_of nv space vars l w)) L) by (clear; induction L; simpl; f_equal; auto).
    etrans; [|by apply (dot_product_field d L P Hd nv Hnv space vars f' w)]. f_equal. exact E.
  - by apply nobs_field.
  - by apply rms_field.
Qed.

Context {F : Type} `{FO : FloatOps F} `{MV : MissingValues F} `{FD : FloatDouble R F}.

(** A vector that is saved in a group and read again has its values in single
    precision, missing values stay missing, and no other variable changes. The
    order of the values (all variables of the first location, then of the next)
    is kept, although the variables are stored one by one. *)
Theorem vector_save_read (cm : gmap Z nat) (n : nat) (name : string) (vars : list string) (g : ObsGroup F) (space : nat) (vals : list R) :
  let v := {| obsdb_ := space; obsvars_ := vars; nvars_ := length vars; nlocs_ := n; values_ := vals |} in
  length vals = n * length vars -> name <> "" -> NoDup vars -> io_ready float_t n name vars g -> f_eqb missing_float missing_float = true ->
  (forall x, x ∈ vals -> x <> r_missing -> f_eqb (f_of_r x) missing_float = false) ->
  exists g', ObsVector_save g cm n name v = Ok g' /\
    ObsVector_new space vars g' cm n name = Ok (with_values v (map rounded vals)) /\
    g_dims g' = g_dims g /\
    forall other, (forall x, x ∈ vars -> other <> fullVarName name x) -> g_vars g' !! other = g_vars g !! other.
Proof.
  intros v Hl Hname Hnd Hio Hm Hr.
  destruct (saved_then_read cm n name vars g v {| obsdb_ := space; obsvars_ := vars; nvars_ := length vars; nlocs_ := n;
      values_ := replicate (n * length vars) r_zero |}) as (g' & H1 & H2 & H3); try first [done|apply length_replicate].
  exists g'. split; [exact H1|]. split; [|exact H3]. unfold ObsVector_new. rewrite bool_decide_false by done. exact H2.
Qed.

(** [random] reads only existing elements of the drawn perturbations, whatever
    the distribution, and a location gets the same perturbation on every rank
    that holds it: the one of its index in the source. *)
Theorem random_perturbations `{MpiLaws} (normal : nat -> list R) (inside outside nv : nat) (vs : list (ObsVector R * list nat)) :
  (forall k, length (normal k) = k) ->
  Forall (fun '(v, indx) => nvars_ v = nv /\ nlocs_ v = length indx /\ length (values_ v) = length indx * nv /\
    Forall (fun g => g < inside + outside) indx) vs ->
  random normal inside outside vs =
    Ok (map (fun '(v, indx) => with_values v (interleaved (perturbation (normal ((inside + outside) * nv)) nv) indx)) vs).
Proof.
  intros Hn Hvs. unfold random. set (perts := imap _ vs). destruct vs as [|[v0 i0] vs0] eqn:Evs; [by rewrite zip_with_nil_r|]. rewrite <-Evs in *.
  assert (Hroot : perts !! 0 = Some (normal ((inside + outside) * nv))).
  { unfold perts. simpl. rewrite Evs in Hvs. apply Forall_cons in Hvs as [(-> & _) _]. done. }
  rewrite (broadcast_law _ 0 perts _ Hroot). assert (Hlen : length perts = length vs) by (unfold perts; rewrite length_imap, Evs; done). rewrite Hlen.
  clear -Hn Hvs. induction Hvs as [|[v indx] vs (E1 & E2 & E3 & E4) Hvs IH]; [done|]. cbn [length replicate zip zip_with mapR map].
  rewrite (scatter_random_ok _ (inside + outside)); [|by rewrite Hn, E1|done|done|by rewrite E1]. cbn [mbind res_bind].
  rewrite IH. cbn [mbind res_bind]. by rewrite E1.
Qed.
End claims.

Module Sample.
Import ObsSpaceVars.Sample.
#[export] Instance DoubleArith_Z : DoubleArith Z := {|
  r_zero := 0%Z; r_one := 1%Z; r_add := Z.add; r_sub := Z.sub; r_mul := Z.mul; r_div := Z.div; r_sqrt := Z.sqrt; r_of_int z := z; r_missing := (-99)%Z |}.
#[export] Instance FloatDouble_Z : FloatDouble Z Z := {| r_of_f z := z; f_of_r z := z |}.
#[export] Instance NumLaws_R : @NumLaws Z R_Num.
Proof. split; unfold nplus, R_Num; simpl; [intros ???; lia|intros ??; lia|intros ?; lia]. Qed.

(** Two variables at two locations, one value missing; both ranks hold both. *)
Definition f (g : nat) : list (option Z) := if g =? 0 then [Some 1%Z; None] else [Some 2%Z; Some 3%Z].
Definition w (g : nat) : list (option Z) := if g =? 0 then [Some 10%Z; Some 20%Z] else [None; Some 40%Z].
Definition ops : list (VecOp Z (nat -> list (option Z))) := [OpScale 3%Z; OpAdd w; OpAxpyVars [1%Z; 2%Z] w].

Lemma forallb_present (l : list (option Z)) : forallb (fun o => negb (bool_decide (o = Some (-99)%Z))) l = true -> Forall present l.
Proof.
  intros H. apply list.Forall_forall. intros o Ho x -> ->. rewrite forallb_forall in H. apply list_elem_of_In, H in Ho.
  by rewrite bool_decide_true in Ho.
Qed.

Ltac solve_field := intros [|g]; (split; [reflexivity|apply forallb_present; reflexivity]).

Lemma f_ok : field_ok 2 f.
Proof. solve_field. Qed.
Lemma w_ok : field_ok 2 w.
Proof. solve_field. Qed.

Lemma ops_ok : program_ok 2 ops f.
Proof.
  split; [apply f_ok|]. split; [exact I|]. split; [solve_field|]. split; [apply w_ok|]. split; [solve_field|].
  split; [split; [apply w_ok|reflexivity]|]. solve_field.
Qed.

Lemma contract2 : DistContract (Inefficient_dist 2) (replicate 2 [0; 1]) [0; 1].
Proof. apply (inefficient_contract 2 [0; 1]); [lia|]. apply (bool_decide_unpack _). vm_compute. exact I. Qed.
(** 3 * 1 + 10 + 1 * 10 = 23 and 3 * 3 + 40 + 2 * 40 = 129 are left. *)
Lemma vector_programs_witness :
  exists vs, mapR (fun l => foldM (fun v o => run_op o v) (vector_of 2 0 ["t"; "q"] l f) (map (op_map (vector_of 2 0 ["t"; "q"] l)) ops))
      (replicate 2 [0; 1]) = Ok vs /\ map values_ vs = [[23; -99; -99; 129]; [23; -99; -99; 129]]%Z /\
    dot_product_with (Inefficient_dist 2) 2 (zip vs (map (fun l => vector_of 2 0 ["t"; "q"] l w) (replicate 2 [0; 1]))) = Ok [5390; 5390]%Z /\
    nobs (Inefficient_dist 2) 2 vs = Ok [2; 2]%Z.
Proof.
  destruct (vector_programs (Inefficient_dist 2) (replicate 2 [0; 1]) [0; 1] 2 0 ["t"; "q"] ops f w) as (vs & H1 & -> & H3 & H4 & _).
  - apply contract2.
  - lia.
  - apply ops_ok.
  - apply w_ok.
  - vm_compute. reflexivity.
  - eexists. split_and!; [exact H1|reflexivity|etrans; [exact H3|reflexivity]|etrans; [exact H4|reflexivity]].
Defined.

(** Two variables are saved for two locations; one value is missing. *)
Lemma vector_save_read_witness :
  exists g', ObsVector_save g0 cm 2 "hofx" {| obsdb_ := 0; obsvars_ := ["t"; "q"]; nvars_ := 2; nlocs_ := 2; values_ := [5; -99; 6; 7]%Z |} = Ok g' /\
    ObsVector_new 0 ["t"; "q"] g' cm 2 "hofx" = Ok {| obsdb_ := 0; obsvars_ := ["t"; "q"]; nvars_ := 2; nlocs_ := 2; values_ := [5; -99; 6; 7]%Z |} /\
    g_dims g' = g_dims g0 /\
    forall other, (forall x, x ∈ ["t"; "q"] -> other <> fullVarName "hofx" x) -> g_vars g' !! other = g_vars g0 !! other.
Proof.
  destruct (vector_save_read cm 2 "hofx" ["t"; "q"] g0 0 [5; -99; 6; 7]%Z) as (g' & H1 & H2 & H3 & H4).
  - reflexivity.
  - discriminate.
  - apply (bool_decide_unpack _). vm_compute. exact I.
  - split; [reflexivity| | |].
    + intros v [->|[->|[]%elem_of_nil]%elem_of_cons]%elem_of_cons; right; reflexivity.
    + intros v [->|[->|[]%elem_of_nil]%elem_of_cons]%elem_of_cons; eexists; apply room_1; reflexivity.
    + intros v [->|[->|[]%elem_of_nil]%elem_of_cons]%elem_of_cons; reflexivity.
  - reflexivity.
  - intros x Hx Hne. apply Z.eqb_neq. exact Hne.
  - exists g'. split_and!; [exact H1|rewrite H2; vm_compute; reflexivity|exact H3|exact H4].
Defined.

(** Rank 0 holds the source locations 0 and 2, rank 1 holds 2 and 3. *)
Lemma random_perturbations_witness :
  let zero n := {| obsdb_ := 0; obsvars_ := ["t"]; nvars_ := 1; nlocs_ := n; values_ := replicate n 0%Z |} in
  @random Z _ reference_comm (fun k => map Z.of_nat (seq 10 k)) 3 1 [(zero 2, [0; 2]); (zero 2, [2; 3])] =
    Ok [with_values (zero 2) [10; 12]%Z; with_values (zero 2) [12; 13]%Z].
Proof.
  intros zero. etrans; [apply (@random_perturbations Z _ reference_comm reference_laws (fun k => map Z.of_nat (seq 10 k)) 3 1 1)|reflexivity].
  - intros k. by rewrite length_map, length_seq.
  - repeat constructor.
Defined.
End Sample.
