(* ===== verification/ObsDataVector.v ===== *)
(** Data of any type in observation space (src/src/ObsDataVector.h): a row of
    values per variable, with the conversions from and to ObsVector. *)
From stdpp Require Import base list gmap strings.
From Stdlib Require Import ZArith.
From S2P Require Import Prelude Mpi Distribution Inefficient DistributionUtils.
From S2P Require Import Selection VarAttrStore ObsTypes ObsVariables ObsFrame ObsFrameRead ObsFrameReadSpec ObsSpaceInit ObsSpaceVars ObsVector.

(** What the template uses of its parameter: the missing value, [DATATYPE()],
    [static_cast] from double, and [get_db] and [put_db] of the ObsSpace. *)
Record DbType (R F T : Type) := {
  db_missing : T;
  db_zero : T;
  db_cast : R -> T;
  db_get : ObsGroup F -> gmap Z nat -> string -> string -> list Z -> bool -> res (list T);
  db_put : ObsGroup F -> gmap Z nat -> string -> string -> list T -> list string -> res (ObsGroup F)
}.
Arguments db_missing {R F T} _.
Arguments db_zero {R F T} _.
Arguments db_cast {R F T} _.
Arguments db_get {R F T} _.
Arguments db_put {R F T} _.

Record ObsDataVector (T : Type) := {
  od_space : nat;
  od_vars : list string;
  od_nvars : nat;
  od_nlocs : nat;
  rows_ : list (list T)
}.
Arguments od_space {T} _.
Arguments od_vars {T} _.
Arguments od_nvars {T} _.
Arguments od_nlocs {T} _.
Arguments rows_ {T} _.

Definition with_rows {T} (v : ObsDataVector T) (rows : list (list T)) : ObsDataVector T :=
  {| od_space := od_space v; od_vars := od_vars v; od_nvars := od_nvars v; od_nlocs := od_nlocs v; rows_ := rows |}.

Section ObsDataVector.
Context {R : Type} `{DA : DoubleArith R} `{EqR : EqDecision R} `{OV : Variables}.
Context {F : Type} `{FO : FloatOps F} `{MV : MissingValues F} `{FD : FloatDouble R F}.
Context {T : Type} (db : DbType R F T).
Implicit Types (v : ObsDataVector T) (g : ObsGroup F).

(** The loop that copies a row: [row.at(jj) = tmp.at(jj)]. *)
Definition copy_row (n : nat) (tmp row : list T) : res (list T) :=
  foldM (fun row jj => x ← vec_at tmp jj; vec_at_set row jj x) row (seq 0 n).

Definition od_read g (cm : gmap Z nat) (name : string) (fail skipDerived : bool) v : res (ObsDataVector T) :=
  if decide (0 < od_nlocs v) then
    rows ← foldM (fun rows jv =>
        var ← vec_get (od_vars v) jv;
        b ← (if fail then Ok true else has g name var false);
        if (b : bool) then
          tmp ← db_get db g cm name var [] skipDerived;
          row ← vec_at rows jv;
          row ← copy_row (od_nlocs v) tmp row;
          vec_at_set rows jv row
        else Ok rows)
      (rows_ v) (seq 0 (od_nvars v));
    Ok (with_rows v rows)
  else Ok v.

Definition od_new (space : nat) (vars : list string) (nlocs : nat) g (cm : gmap Z nat) (grp : string) (fail skipDerived : bool)
  : res (ObsDataVector T) :=
  let v := {| od_space := space; od_vars := vars; od_nvars := length vars; od_nlocs := nlocs;
              rows_ := replicate (length vars) (replicate nlocs (db_zero db)) |} in
  if bool_decide (grp = "") then Ok v else od_read g cm grp fail skipDerived v.

Definition od_save g (cm : gmap Z nat) (name : string) v : res (ObsGroup F) :=
  foldM (fun g jv =>
      tmp ← mapR (fun jj => row ← vec_at (rows_ v) jv; vec_at row jj) (seq 0 (od_nlocs v));
      var ← vec_get (od_vars v) jv;
      db_put db g cm name var tmp ["Location"])
    g (seq 0 (od_nvars v)).

(** A value of an ObsVector in the type of the rows. *)
Definition from_double (x : R) : T := if is_missing x then db_missing db else db_cast db x.

(** [rows_[jv][jl] = x] *)
Definition set_element (rows : list (list T)) (jv jl : nat) (x : T) : res (list (list T)) :=
  row ← vec_get rows jv; row ← vec_set row jl x; vec_set rows jv row.

(** The constructor from an ObsVector. *)
Definition od_of_vector (vect : ObsVector R) : res (ObsDataVector T) :=
  let v := {| od_space := obsdb_ vect; od_vars := obsvars_ vect; od_nvars := nvars_ vect; od_nlocs := nlocs_ vect;
              rows_ := replicate (nvars_ vect) (replicate (nlocs_ vect) (db_zero db)) |} in
  '(rows, _) ← foldM (fun s jl => foldM (fun s jv => let '(rows, ii) := s in
        x ← vec_at (values_ vect) ii;
        rows ← set_element rows jv jl (from_double x);
        Ok (rows, S ii)) s (seq 0 (od_nvars v)))
    (rows_ v, 0) (seq 0 (od_nlocs v));
  Ok (with_rows v rows).

Definition od_assign (v rhs : ObsDataVector T) : res (ObsDataVector T) :=
  _ ← assert (od_space v =? od_space rhs); Ok rhs.

(** [zero] and [mask] go through all elements; [f] gives the new value, if any. *)
Definition update_elements (f : nat -> nat -> res (option T)) v : res (ObsDataVector T) :=
  rows ← foldM (fun rows jv => foldM (fun rows jj =>
        o ← f jv jj;
        match o with
        | Some x => row ← vec_at rows jv; row ← vec_at_set row jj x; vec_at_set rows jv row
        | None => Ok rows
        end) rows (seq 0 (od_nlocs v)))
    (rows_ v) (seq 0 (od_nvars v));
  Ok (with_rows v rows).

Definition od_zero v : res (ObsDataVector T) := update_elements (fun _ _ => Ok (Some (db_zero db))) v.

Definition od_mask (flags : ObsDataVector Z) v : res (ObsDataVector T) :=
  _ ← assert (od_nvars v =? od_nvars flags);
  _ ← assert (od_nlocs v =? od_nlocs flags);
  update_elements (fun jv jj => row ← vec_at (rows_ flags) jv; fl ← vec_get row jj;
      Ok (if (0 <? fl)%Z then Some (db_missing db) else None)) v.

Definition assignToExistingVariables (vect : ObsVector R) v : res (ObsDataVector T) :=
  '(rows, inds) ← foldM (fun '(rows, inds) jv =>
      row ← vec_get rows jv;
      rows ← vec_set rows jv (vec_resize (od_nlocs v) (db_zero db) row);
      var ← vec_get (od_vars v) jv;
      if vars_has (obsvars_ vect) var then
        i ← vars_find (obsvars_ vect) var; inds ← vec_set inds jv i; Ok (rows, inds)
      else Throw (EException ("ObsDataVector var " +:+ var +:+ " not found in ObsVector")))
    (rows_ v, replicate (od_nvars v) 0) (seq 0 (od_nvars v));
  rows ← foldM (fun rows jv => foldM (fun rows jl =>
        i ← vec_get inds jv;
        x ← vec_at (values_ vect) (jl * nvars_ vect + i);
        set_element rows jv jl (from_double x)) rows (seq 0 (od_nlocs v)))
    rows (seq 0 (od_nvars v));
  Ok (with_rows v rows).

(** The count [printNonnumericObsDataVectorStats] prints for variable [jv]. *)
Definition nonnumeric_nobs `{EqDecision T} (d : Distribution) (jv : nat) (vs : list (ObsDataVector T)) : res (list nat) :=
  rows ← mapR (fun v => vec_at (rows_ v) jv) vs;
  match vs with
  | [] => Ok []
  | v :: _ => globalNumNonMissingObs (db_missing db) d (od_nvars v) rows
  end.
End ObsDataVector.

(** ** Element types *)

Section types.
Context {R : Type} `{DA : DoubleArith R} `{EqR : EqDecision R}.
Context {F : Type} `{FO : FloatOps F} `{MV : MissingValues F} `{FD : FloatDouble R F}.

Definition float_db : DbType R F F := {|
  db_missing := missing_float;
  db_zero := f_zero;
  db_cast := f_of_r;
  db_get g cm group name chans skip :=
    vals ← loadVar g cm float_t group name chans skip;
    mapR (fun x => match x with VFloat f => Ok f | _ => Throw EUndefined end) vals;
  db_put g cm group name vdata dimList := saveVar g cm float_t group name (map VFloat vdata) dimList
|}.

Definition double_db : DbType R F R := {|
  db_missing := r_missing;
  db_zero := r_zero;
  db_cast x := x;
  db_get := get_db_double;
  db_put := put_db_double
|}.

(** ** Back to an ObsVector *)

(** [ObsVector::operator=(const ObsDataVector<float> &)] *)
Definition ObsVector_of_data `{OV : Variables} (rhs : ObsDataVector F) (v : ObsVector R) : res (ObsVector R) :=
  _ ← assert (od_space rhs =? obsdb_ v);
  _ ← assert (od_nlocs rhs =? nlocs_ v);
  '(vals, _) ← foldM (fun s jl => foldM (fun s jv => let '(vals, ii) := s in
        var ← vec_get (obsvars_ v) jv;
        i ← vars_find (od_vars rhs) var;
        row ← vec_at (rows_ rhs) i;
        x ← vec_get row jl;
        vals ← vec_set vals ii (float_to_double x);
        Ok (vals, S ii)) s (seq 0 (nvars_ v)))
    (values_ v, 0) (seq 0 (nlocs_ v));
  Ok (with_values v vals).
End types.

(** * Loops over all elements *)

Section table.
Context {T : Type} (nv n : nat).

Definition wf_rows (rows : list (list T)) : Prop := length rows = nv /\ Forall (fun row => length row = n) rows.
Definition table (e : nat -> nat -> T) : list (list T) := map (fun jv => map (e jv) (seq 0 n)) (seq 0 nv).
Definition element (rows : list (list T)) (jv jl : nat) : option T := row ← rows !! jv; row !! jl.

Lemma wf_element rows jv jl : wf_rows rows -> jv < nv -> jl < n ->
  exists row x, rows !! jv = Some row /\ length row = n /\ row !! jl = Some x.
Proof.
  intros [Hl Hr] Hjv Hjl. destruct (lookup_lt_is_Some_2 rows jv) as [row Hrow]; [lia|].
  assert (length row = n) by (by eapply Forall_lookup_1 in Hr).
  destruct (lookup_lt_is_Some_2 row jl) as [x Hx]; [lia|]. by exists row, x.
Qed.

Lemma wf_insert rows jv jl row x : wf_rows rows -> rows !! jv = Some row -> wf_rows (<[jv := <[jl := x]> row]> rows).
Proof.
  intros [Hl Hr] Hrow. split; [by rewrite length_insert|]. apply Forall_insert; [done|]. rewrite length_insert. by eapply Forall_lookup_1 in Hr.
Qed.

Lemma element_insert rows jv jl row x jv' jl' : rows !! jv = Some row -> jl < length row ->
  element (<[jv := <[jl := x]> row]> rows) jv' jl' = if decide (jv' = jv /\ jl' = jl) then Some x else element rows jv' jl'.
Proof.
  intros Hrow Hjl. unfold element. pose proof (lookup_lt_Some _ _ _ Hrow). destruct (decide (jv' = jv)) as [->|Hne].
  - rewrite list_lookup_insert_eq by done. simpl. destruct (decide (jl' = jl)) as [->|Hne].
    + by rewrite list_lookup_insert_eq, decide_True.
    + rewrite list_lookup_insert_ne, decide_False by naive_solver. by rewrite Hrow.
  - by rewrite list_lookup_insert_ne, decide_False by naive_solver.
Qed.

Lemma set_element_ok rows jv jl x : wf_rows rows -> jv < nv -> jl < n ->
  exists rows', set_element rows jv jl x = Ok rows' /\ wf_rows rows' /\
    forall jv' jl', element rows' jv' jl' = if decide (jv' = jv /\ jl' = jl) then Some x else element rows jv' jl'.
Proof.
  intros Hwf Hjv Hjl. destruct (wf_element rows jv jl Hwf Hjv Hjl) as (row & y & Hrow & Hlen & Hy).
  unfold set_element. rewrite (vec_get_Some _ _ _ Hrow). cbn [mbind res_bind]. rewrite vec_set_lt by lia. cbn [mbind res_bind].
  rewrite vec_set_lt by (by eapply lookup_lt_Some). eexists. split; [reflexivity|]. split; [by apply wf_insert|].
  intros jv' jl'. apply element_insert; [done|lia].
Qed.

Lemma table_eq rows e : wf_rows rows -> (forall jv jl, jv < nv -> jl < n -> element rows jv jl = Some (e jv jl)) -> rows = table e.
Proof.
  intros [Hl Hr] He. apply list_eq_same_length with nv; [unfold table; by rewrite length_map, length_seq|done|].
  intros jv row row' Hjv Hrow Hrow'. unfold table in Hrow'. rewrite lookup_map_seq in Hrow' by done. injection Hrow' as <-.
  eapply Forall_lookup_1 in Hr; [|exact Hrow]. apply list_eq_same_length with n; [by rewrite length_map, length_seq|done|].
  intros jl x y Hjl Hx Hy. rewrite lookup_map_seq in Hy by done. injection Hy as <-.
  specialize (He jv jl Hjv Hjl). unfold element in He. rewrite Hrow in He. simpl in He. congruence.
Qed.

(** A loop over pairs of indices that sets one element after the other, with any
    other state [A]. *)
Lemma set_loop {A} (step : list (list T) * A -> nat * nat -> res (list (list T) * A)) (Inv : list (nat * nat) -> A -> Prop)
    (e : nat -> nat -> T) (ps : list (nat * nat)) rows a :
  wf_rows rows -> Inv [] a ->
  (forall jv jl, (jv, jl) ∈ ps -> jv < nv /\ jl < n) ->
  (forall don jv jl rows a, don ++ [(jv, jl)] `prefix_of` ps -> wf_rows rows -> Inv don a -> exists rows' a',
    set_element rows jv jl (e jv jl) = Ok rows' /\ step (rows, a) (jv, jl) = Ok (rows', a') /\ Inv (don ++ [(jv, jl)]) a') ->
  exists rows' a', foldM step (rows, a) ps = Ok (rows', a') /\ Inv ps a' /\ wf_rows rows' /\
    forall jv jl, element rows' jv jl = if decide ((jv, jl) ∈ ps) then Some (e jv jl) else element rows jv jl.
Proof.
  intros Hwf HI Hps Hstep.
  destruct (foldM_ind step (fun don s => Inv don s.2 /\ wf_rows s.1 /\
    forall jv jl, element s.1 jv jl = if decide ((jv, jl) ∈ don) then Some (e jv jl) else element rows jv jl) (rows, a) ps)
    as ([rows' a'] & Hf & H1 & H2 & H3).
  - split_and!; [done|done|]. intros jv jl. rewrite decide_False; [done|]. apply not_elem_of_nil.
  - intros don [jv jl] [rows1 a1] (H1 & H2 & H3) Hpre. simpl in *.
    destruct (Hstep don jv jl rows1 a1 Hpre H2 H1) as (rows2 & a2 & Hset & Hs & HI2).
    assert (Hin : (jv, jl) ∈ ps).
    { destruct Hpre as [rest ->]. rewrite !elem_of_app. left. right. left. }
    destruct (Hps jv jl Hin) as [Hjv Hjl].
    destruct (set_element_ok rows1 jv jl (e jv jl) H2 Hjv Hjl) as (rows2' & Hset' & Hwf2 & Hel). rewrite Hset in Hset'. injection Hset' as <-.
    exists (rows2, a2). split; [done|]. split_and!; [done|done|]. simpl. intros jv' jl'. rewrite Hel, H3.
    destruct (decide (jv' = jv /\ jl' = jl)) as [[-> ->]|Hne].
    + rewrite decide_True; [done|]. apply elem_of_app. right. left.
    + apply decide_ext. rewrite elem_of_app, list_elem_of_singleton. naive_solver.
  - exists rows', a'. by split_and!.
Qed.
End table.

(** Nested loops as one loop over pairs. *)
Lemma foldM_nested {A B S} (f : S -> A -> B -> res S) (xs : list A) (ys : list B) s :
  foldM (fun s x => foldM (fun s y => f s x y) s ys) s xs =
    foldM (fun s p => f s p.1 p.2) s (concat (map (fun x => map (pair x) ys) xs)).
Proof.
  revert s. induction xs as [|x xs IH]; intros s; [done|]. cbn [foldM map concat]. rewrite foldM_app.
  assert (E : foldM (fun s p => f s p.1 p.2) s (map (pair x) ys) = foldM (fun s y => f s x y) s ys).
  { clear. revert s. induction ys as [|y ys IH]; intros s; [done|]. cbn [map foldM]. cbn [fst snd]. by destruct (f s x y); cbn [mbind res_bind]. }
  rewrite E. destruct (foldM _ s ys); cbn [mbind res_bind]; [apply IH|done].
Qed.

Lemma elem_of_pairs {A B} (xs : list A) (ys : list B) x y :
  (x, y) ∈ concat (map (fun x => map (pair x) ys) xs) <-> x ∈ xs /\ y ∈ ys.
Proof.
  rewrite elem_of_concat_map. setoid_rewrite list_elem_of_fmap. split.
  - intros (a & Ha & b & [= -> ->] & Hb). done.
  - intros [Hx Hy]. exists x. split; [done|]. by exists y.
Qed.

(** Pairs in the order of the loops. *)
Lemma NoDup_pairs n m : NoDup (concat (map (fun x => map (pair x) (seq 0 m)) (seq 0 n))).
Proof.
  apply NoDup_concat_map; [apply NoDup_seq| |].
  - intros a _. apply NoDup_fmap_2; [by intros ?? [= ->]|apply NoDup_seq].
  - intros a b [x y] _ _ (? & [= <- _] & _)%list_elem_of_fmap (? & [= <- _] & _)%list_elem_of_fmap. done.
Qed.

Lemma lookup_pairs n m x y : x < n -> y < m ->
  concat (map (fun x => map (pair x) (seq 0 m)) (seq 0 n)) !! (x * m + y) = Some (x, y).
Proof.
  intros Hx Hy. apply (lookup_concat_map_uniform _ m (seq 0 n) x x y).
  - intros z _. by rewrite length_map, length_seq.
  - by apply lookup_seq_lt.
  - by rewrite lookup_map_seq.
Qed.

Lemma pair_position n m don x y : don ++ [(x, y)] `prefix_of` concat (map (fun x => map (pair x) (seq 0 m)) (seq 0 n)) ->
  x < n /\ y < m /\ length don = x * m + y.
Proof.
  intros [rest Hr]. set (ps := concat _) in *.
  assert (Hin : (x, y) ∈ ps) by (rewrite Hr, !elem_of_app; left; right; left).
  apply elem_of_pairs in Hin as [Hx%elem_of_seq Hy%elem_of_seq].
  assert (Hx' : x < n) by lia. assert (Hy' : y < m) by lia. split_and!; [done..|].
  apply (NoDup_lookup ps _ _ (x, y)); [apply NoDup_pairs| |by apply lookup_pairs].
  rewrite Hr, <-app_assoc. by apply list_lookup_middle.
Qed.

Lemma foldM_map {A B S} (f : S -> B -> res S) (h : A -> B) s l : foldM f s (map h l) = foldM (fun s x => f s (h x)) s l.
Proof. revert s. induction l as [|x l IH]; intros s; [done|]. cbn [map foldM]. destruct (f s (h x)); cbn [mbind res_bind]; [apply IH|done]. Qed.

(** A loop that writes a vector from the front. *)
Lemma sequential_fill {A B} (get : A -> res B) (h : A -> B) (qs : list A) (vals : list B) :
  length vals = length qs -> (forall q, q ∈ qs -> get q = Ok (h q)) ->
  foldM (fun '(vals, ii) q => x ← get q; vals ← vec_set vals ii x; Ok (vals, S ii)) (vals, 0) qs = Ok (map h qs, length qs).
Proof.
  intros Hl Hget.
  cut (forall pre qs post, length post = length qs -> (forall q, q ∈ qs -> get q = Ok (h q)) ->
    foldM (fun '(vals, ii) q => x ← get q; vals ← vec_set vals ii x; Ok (vals, S ii)) (pre ++ post, length pre) qs =
      Ok (pre ++ map h qs, length pre + length qs)).
  { intros Hc. by apply (Hc [] qs vals). }
  clear. intros pre qs. revert pre. induction qs as [|q qs IH]; intros pre [|y post] Hl Hget; try discriminate.
  { simpl. by rewrite Nat.add_0_r. }
  cbn [foldM]. rewrite (Hget q) by left. cbn [mbind res_bind]. rewrite vec_set_middle by done. cbn [mbind res_bind].
  replace (S (length pre)) with (length (pre ++ [h q])) by (rewrite length_app; simpl; lia).
  replace (pre ++ h q :: post) with ((pre ++ [h q]) ++ post) by (by rewrite <-app_assoc).
  rewrite IH; [|by injection Hl|intros z Hz; apply Hget; by right]. rewrite <-app_assoc, length_app. simpl. do 2 f_equal. lia.
Qed.

Section conversions.
Context {R : Type} `{DA : DoubleArith R} `{EqR : EqDecision R} `{VL : VariablesLaws}.
Context {F : Type} `{FO : FloatOps F} `{MV : MissingValues F} `{FD : FloatDouble R F}.

(** The value of variable [jv] at location [jl]. *)
Definition value_at (vect : ObsVector R) (jv jl : nat) : R := default r_zero (values_ vect !! (jl * nvars_ vect + jv)).

Lemma value_at_lookup vect jv jl : length (values_ vect) = nlocs_ vect * nvars_ vect -> jv < nvars_ vect -> jl < nlocs_ vect ->
  values_ vect !! (jl * nvars_ vect + jv) = Some (value_at vect jv jl).
Proof.
  intros Hl Hjv Hjl. unfold value_at. destruct (lookup_lt_is_Some_2 (values_ vect) (jl * nvars_ vect + jv)) as [x ->]; [nia|done].
Qed.

Lemma wf_replicate {T} nv n (x : T) : wf_rows nv n (replicate nv (replicate n x)).
Proof. split; [apply length_replicate|]. apply Forall_replicate. apply length_replicate. Qed.

Lemma od_of_vector_ok {T} (db : DbType R F T) (vect : ObsVector R) : length (values_ vect) = nlocs_ vect * nvars_ vect ->
  od_of_vector db vect = Ok {| od_space := obsdb_ vect; od_vars := obsvars_ vect; od_nvars := nvars_ vect; od_nlocs := nlocs_ vect;
    rows_ := table (nvars_ vect) (nlocs_ vect) (fun jv jl => from_double db (value_at vect jv jl)) |}.
Proof.
  intros Hl. unfold od_of_vector. cbn [od_nvars od_nlocs rows_].
  set (nv := nvars_ vect) in *. set (n := nlocs_ vect) in *. set (e := fun jv jl => from_double db (value_at vect jv jl)).
  rewrite (foldM_nested (fun s jl jv => let '(rows, ii) := s in x ← vec_at (values_ vect) ii;
    rows ← set_element rows jv jl (from_double db x); Ok (rows, S ii))).
  set (qs := concat _).
  destruct (set_loop nv n (fun s p => let '(rows, ii) := s in x ← vec_at (values_ vect) ii;
      rows ← set_element rows p.1 p.2 (from_double db x); Ok (rows, S ii)) (fun don ii => ii = length don) e
      (map (fun q : nat * nat => (q.2, q.1)) qs) (replicate nv (replicate n (db_zero db))) 0) as (rows & ii & Hf & _ & Hwf & Hel).
  - apply wf_replicate.
  - done.
  - intros jv jl ([a b] & [= -> ->] & Hin)%list_elem_of_fmap. apply elem_of_pairs in Hin as [?%elem_of_seq ?%elem_of_seq]. lia.
  - intros don jv jl rows a [rest Hrest] Hwf ->.
    assert (Hpos : jl < n /\ jv < nv /\ length don = jl * nv + jv).
    { assert (Hp : map (fun q : nat * nat => (q.2, q.1)) don ++ [(jl, jv)] `prefix_of` qs).
      { exists (map (fun q : nat * nat => (q.2, q.1)) rest).
        apply (f_equal (map (fun q : nat * nat => (q.2, q.1)))) in Hrest. rewrite map_map, !map_app in Hrest.
        etrans; [|exact Hrest]. rewrite (map_ext _ id); [by rewrite map_id|by intros []]. }
      apply pair_position in Hp as (H1 & H2 & H3). by rewrite length_map in H3. }
    destruct Hpos as (Hjl & Hjv & Hii).
    destruct (set_element_ok nv n rows jv jl (e jv jl) Hwf Hjv Hjl) as (rows' & Hset & _).
    exists rows', (S (length don)). split_and!; [done| |by rewrite length_app; simpl; lia].
    rewrite (vec_at_Some _ _ (value_at vect jv jl)) by (rewrite Hii; by apply value_at_lookup). cbn [mbind res_bind fst snd].
    fold (e jv jl). by rewrite Hset.
  - rewrite foldM_map in Hf. cbn [fst snd] in Hf.
    rewrite Hf. cbn [mbind res_bind]. unfold with_rows. cbn [od_space od_vars od_nvars od_nlocs]. do 2 f_equal.
    apply table_eq; [done|]. intros jv jl Hjv Hjl. rewrite Hel, decide_True; [done|].
    apply list_elem_of_fmap. exists (jl, jv). split; [done|]. apply elem_of_pairs. rewrite !elem_of_seq. lia.
Qed.

(** A variable is found where it is. *)
Lemma find_position (vars : list string) jv x i : NoDup vars -> vars !! jv = Some x -> vars_find vars x = Ok i -> i = jv.
Proof.
  intros Hnd Hjv Hf. destruct (vars_find_spec vars x) as (i' & Hf' & Hi); [by eapply list_elem_of_lookup_2|].
  assert (i = i') as -> by congruence. by eapply NoDup_lookup.
Qed.

Lemma ObsVector_of_data_ok (rhs : ObsDataVector F) (v : ObsVector R) (e : nat -> nat -> F) :
  od_space rhs = obsdb_ v -> od_nlocs rhs = nlocs_ v -> od_vars rhs = obsvars_ v -> nvars_ v = length (obsvars_ v) -> NoDup (obsvars_ v) ->
  rows_ rhs = table (nvars_ v) (nlocs_ v) e -> length (values_ v) = nlocs_ v * nvars_ v ->
  ObsVector_of_data rhs v =
    Ok (with_values v (map (fun q => float_to_double (e q.2 q.1)) (concat (map (fun x => map (pair x) (seq 0 (nvars_ v))) (seq 0 (nlocs_ v)))))).
Proof.
  intros H1 H2 H3 H4 Hnd Hrows Hl. unfold ObsVector_of_data. rewrite H1, H2, !Nat.eqb_refl, H3. cbn [assert mbind res_bind].
  rewrite (foldM_nested (fun s jl jv => let '(vals, ii) := s in var ← vec_get (obsvars_ v) jv; i ← vars_find (obsvars_ v) var;
    row ← vec_at (rows_ rhs) i; x ← vec_get row jl; vals ← vec_set vals ii (float_to_double x); Ok (vals, S ii))).
  set (qs := concat _).
  pose proof (sequential_fill (fun q : nat * nat => var ← vec_get (obsvars_ v) q.2; i ← vars_find (obsvars_ v) var;
    row ← vec_at (rows_ rhs) i; x ← vec_get row q.1; Ok (float_to_double x)) (fun q => float_to_double (e q.2 q.1)) qs (values_ v)) as E.
  match goal with |- context [foldM ?g ?s qs] => assert (E' : foldM g s qs = Ok (map (fun q => float_to_double (e q.2 q.1)) qs, length qs)) end.
  2: { by rewrite E'. }
  rewrite <-E.
  - apply foldM_ext. intros [vals ii] [jl jv] _. cbn [fst snd]. destruct (vec_get (obsvars_ v) jv); cbn [mbind res_bind]; [|done].
    destruct (vars_find (obsvars_ v) a); cbn [mbind res_bind]; [|done]. destruct (vec_at (rows_ rhs) a0); cbn [mbind res_bind]; [|done].
    by destruct (vec_get a1 jl); cbn [mbind res_bind].
  - rewrite Hl. unfold qs. rewrite (length_concat_map_uniform _ (nvars_ v)) by (intros; by rewrite length_map, length_seq). by rewrite length_seq.
  - intros [jl jv] [Hjl%elem_of_seq Hjv%elem_of_seq]%elem_of_pairs. cbn [fst snd].
    destruct (lookup_lt_is_Some_2 (obsvars_ v) jv) as [x Hx]; [lia|]. rewrite (vec_get_Some _ _ _ Hx). cbn [mbind res_bind].
    destruct (vars_find_spec (obsvars_ v) x) as (i & Hf & _); [by eapply list_elem_of_lookup_2|]. rewrite Hf. cbn [mbind res_bind].
    rewrite (find_position _ _ _ _ Hnd Hx Hf), Hrows. unfold table.
    rewrite (vec_at_Some _ _ (map (e jv) (seq 0 (nlocs_ v)))) by (rewrite lookup_map_seq by lia; done). cbn [mbind res_bind].
    by rewrite (vec_get_Some _ _ (e jv jl)) by (rewrite lookup_map_seq by lia; done).
Qed.

Lemma pairs_values (vect : ObsVector R) (h : R -> R) : length (values_ vect) = nlocs_ vect * nvars_ vect ->
  map (fun q => h (value_at vect q.2 q.1)) (concat (map (fun x => map (pair x) (seq 0 (nvars_ vect))) (seq 0 (nlocs_ vect)))) = map h (values_ vect).
Proof.
  intros Hl. set (qs := concat _).
  assert (Hq : length qs = nlocs_ vect * nvars_ vect).
  { unfold qs. rewrite (length_concat_map_uniform _ (nvars_ vect)) by (intros; by rewrite length_map, length_seq). by rewrite length_seq. }
  apply (columns_eq (nlocs_ vect) (nvars_ vect)); [by rewrite length_map|by rewrite length_map|]. intros jv jl Hjv Hjl.
  rewrite (Nat.add_comm jv), !list_lookup_fmap. unfold qs. rewrite lookup_pairs by done. rewrite value_at_lookup by done. done.
Qed.
End conversions.

(** * Theorems *)

Section claims.
Context {R : Type} `{DA : DoubleArith R} `{EqR : EqDecision R} `{VL : VariablesLaws}.
Context {F : Type} `{FO : FloatOps F} `{MV : MissingValues F} `{FD : FloatDouble R F}.

(** An ObsVector turned into an ObsDataVector of floats and assigned back to a
    vector of the same variables has its values in single precision, and missing
    values stay missing, although the one goes location by location and the other
    variable by variable. *)
Theorem data_vector_roundtrip (vect v : ObsVector R) :
  length (values_ vect) = nlocs_ vect * nvars_ vect -> nvars_ vect = length (obsvars_ vect) -> NoDup (obsvars_ vect) ->
  obsdb_ v = obsdb_ vect -> obsvars_ v = obsvars_ vect -> nvars_ v = nvars_ vect -> nlocs_ v = nlocs_ vect ->
  length (values_ v) = length (values_ vect) -> f_eqb missing_float missing_float = true ->
  (forall x, x ∈ values_ vect -> x <> r_missing -> f_eqb (f_of_r x) missing_float = false) ->
  exists od, od_of_vector float_db vect = Ok od /\ ObsVector_of_data od v = Ok (with_values v (map rounded (values_ vect))).
Proof.
  intros Hl Hnv Hnd E1 E2 E3 E4 E5 Hm Hr. eexists. split; [by apply od_of_vector_ok|].
  erewrite ObsVector_of_data_ok; cbn [od_space od_vars od_nlocs rows_]; [|done|done|done|congruence|congruence|by rewrite E3, E4|rewrite E5, E3, E4; done].
  rewrite E3, E4. do 2 f_equal.
  rewrite (pairs_values vect (fun x => float_to_double (from_double float_db x))) by done.
  apply map_ext_in. intros x Hx%list_elem_of_In. unfold float_to_double, from_double, rounded, is_missing. simpl.
  case_bool_decide as Em; [by rewrite Hm|by rewrite Hr].
Qed.

(** With [fail] unset, reading is meant to skip the variables that are not
    there. The test looks in the derived group too, and the reading does not when
    [skipDerived] is set: a variable that only the derived group has makes the
    construction throw. *)
Theorem read_throws_for_derived (g : ObsGroup F) (cm : gmap Z nat) (space nlocs : nat) (name var : string) :
  name <> "" -> 0 < nlocs ->
  exists_var g (fullVarName name var) = false -> exists_var g (fullVarName ("Derived" +:+ name) var) = true ->
  exists e, od_new float_db space [var] nlocs g cm name false true = Throw e.
Proof.
  intros Hname Hn H1 H2. unfold od_new. rewrite bool_decide_false by done. unfold od_read. cbn [od_nlocs od_nvars od_vars rows_ length seq foldM].
  rewrite decide_True by done.
  assert (Hs : splitChanSuffix g name var [] false = Ok (var, [])).
  { unfold splitChanSuffix. rewrite H1, H2, bool_decide_true by done. done. }
  assert (Hh : has g name var false = Ok true) by (unfold has; rewrite Hs; cbn [mbind res_bind]; by rewrite H1, H2).
  assert (Hv : vec_get [var] 0 = Ok var) by done. rewrite Hv. cbn [mbind res_bind]. rewrite Hh. cbn [mbind res_bind]. cbn [db_get float_db].
  unfold loadVar. rewrite Hs. cbn [mbind res_bind]. unfold groupToUse, vars_open. cbn [orb].
  destruct (g_vars g !! fullVarName name var) as [fv|] eqn:E; [|by eexists].
  unfold exists_var, vars_exists in H1. rewrite E, bool_decide_true in H1 by eauto. done.
Qed.

(** ** Assigning the values of a vector *)

Lemma foldM_unit {S A} (step : S -> A -> res S) s (l : list A) s' :
  foldM (fun '(s, u) p => s ← step s p; Ok (s, u)) (s, ()) l = Ok (s', ()) -> foldM step s l = Ok s'.
Proof.
  revert s. induction l as [|x l IH]; intros s Hf; [by injection Hf as <-|]. cbn [foldM] in *.
  destruct (step s x); cbn [mbind res_bind] in *; [by apply IH|done].
Qed.

Lemma assign_indices {T} (db : DbType R F T) (vect : ObsVector R) (v : ObsDataVector T) :
  wf_rows (od_nvars v) (od_nlocs v) (rows_ v) -> od_nvars v = length (od_vars v) ->
  (forall x, x ∈ od_vars v -> x ∈ obsvars_ vect) ->
  exists inds, foldM (fun '(rows, inds) jv =>
      row ← vec_get rows jv;
      rows ← vec_set rows jv (vec_resize (od_nlocs v) (db_zero db) row);
      var ← vec_get (od_vars v) jv;
      if vars_has (obsvars_ vect) var then
        i ← vars_find (obsvars_ vect) var; inds ← vec_set inds jv i; Ok (rows, inds)
      else Throw (EException ("ObsDataVector var " +:+ var +:+ " not found in ObsVector")))
    (rows_ v, replicate (od_nvars v) 0) (seq 0 (od_nvars v)) = Ok (rows_ v, inds) /\
    forall jv x, od_vars v !! jv = Some x -> exists i, inds !! jv = Some i /\ obsvars_ vect !! i = Some x /\ vars_find (obsvars_ vect) x = Ok i.
Proof.
  intros [Hlr Hrow] Hnv Hin.
  destruct (foldM_ind (fun '(rows, inds) jv =>
      row ← vec_get rows jv;
      rows ← vec_set rows jv (vec_resize (od_nlocs v) (db_zero db) row);
      var ← vec_get (od_vars v) jv;
      if vars_has (obsvars_ vect) var then
        i ← vars_find (obsvars_ vect) var; inds ← vec_set inds jv i; Ok (rows, inds)
      else Throw (EException ("ObsDataVector var " +:+ var +:+ " not found in ObsVector")))
    (fun don s => s.1 = rows_ v /\ length s.2 = od_nvars v /\ forall jv x, jv ∈ don -> od_vars v !! jv = Some x ->
      exists i, s.2 !! jv = Some i /\ obsvars_ vect !! i = Some x /\ vars_find (obsvars_ vect) x = Ok i)
    (rows_ v, replicate (od_nvars v) 0) (seq 0 (od_nvars v))) as ([rows inds] & Hf & E & _ & Hi).
  - split_and!; [done|apply length_replicate|]. intros jv x Hx. by apply elem_of_nil in Hx.
  - intros don jv [rows inds] (Er & Hl & Hi) [rest Hrest]. simpl in Er, Hl, Hi. subst rows.
    assert (Hjv : jv < od_nvars v).
    { assert (jv ∈ seq 0 (od_nvars v)) as Hx%elem_of_seq by (rewrite Hrest, !elem_of_app; left; right; left). lia. }
    destruct (lookup_lt_is_Some_2 (rows_ v) jv) as [row Hr]; [lia|]. rewrite (vec_get_Some _ _ _ Hr). cbn [mbind res_bind].
    rewrite vec_resize_same by (by eapply Forall_lookup_1 in Hrow). rewrite vec_set_lt by lia. rewrite list_insert_id by done. cbn [mbind res_bind].
    destruct (lookup_lt_is_Some_2 (od_vars v) jv) as [x Hx]; [lia|]. rewrite (vec_get_Some _ _ _ Hx). cbn [mbind res_bind].
    assert (Hx' : x ∈ obsvars_ vect) by (by apply Hin, (list_elem_of_lookup_2 _ jv)).
    rewrite (proj2 (vars_has_spec _ _) Hx'). destruct (vars_find_spec _ _ Hx') as (i & Hfi & Hl'). rewrite Hfi. cbn [mbind res_bind].
    rewrite vec_set_lt by lia. cbn [mbind res_bind]. eexists. split; [reflexivity|]. simpl. split_and!; [done|by rewrite length_insert|].
    intros jv' x' Hin' Hx''. destruct (decide (jv' = jv)) as [->|Hne].
    + rewrite list_lookup_insert_eq by lia. exists i. assert (x' = x) as -> by congruence. done.
    + rewrite list_lookup_insert_ne by done. apply Hi; [|done]. apply elem_of_app in Hin' as [|Hin'%list_elem_of_singleton]; done.
  - simpl in E, Hi. subst rows. exists inds. split; [exact Hf|]. intros jv x Hx. apply Hi; [|done]. apply elem_of_seq. apply lookup_lt_Some in Hx. lia.
Qed.

(** [assignToExistingVariables] gives every variable of the rows the values
    that the vector has for the variable of that name, missing values converted,
    and throws when the vector lacks one of them. *)
Theorem assign_existing {T} (db : DbType R F T) (vect : ObsVector R) (v : ObsDataVector T) :
  wf_rows (od_nvars v) (od_nlocs v) (rows_ v) -> od_nvars v = length (od_vars v) ->
  nvars_ vect = length (obsvars_ vect) -> nlocs_ vect = od_nlocs v -> length (values_ vect) = nlocs_ vect * nvars_ vect -> 
  ((forall x, x ∈ od_vars v -> x ∈ obsvars_ vect) ->
    exists rows, assignToExistingVariables db vect v = Ok (with_rows v rows) /\ wf_rows (od_nvars v) (od_nlocs v) rows /\
      forall jv x jl, od_vars v !! jv = Some x -> jl < od_nlocs v ->
        exists i, obsvars_ vect !! i = Some x /\ element rows jv jl = Some (from_double db (value_at vect i jl))) /\
  forall x, x ∈ od_vars v -> x ∉ obsvars_ vect -> exists e, assignToExistingVariables db vect v = Throw e.
Proof.
  intros Hwf Hnv Hnv' Hn Hl. split.
  - intros Hin. destruct (assign_indices db vect v Hwf Hnv Hin) as (inds & Hf & Hi). unfold assignToExistingVariables. rewrite Hf. cbn [mbind res_bind].
    rewrite (foldM_nested (fun rows jv jl => i ← vec_get inds jv; x ← vec_at (values_ vect) (jl * nvars_ vect + i);
      set_element rows jv jl (from_double db x))). set (ps := concat _).
    set (e := fun jv jl => from_double db (value_at vect (default 0 (inds !! jv)) jl)).
    destruct (set_loop (od_nvars v) (od_nlocs v) (fun '(rows, u) p => rows ← (i ← vec_get inds p.1;
        x ← vec_at (values_ vect) (p.2 * nvars_ vect + i); set_element rows p.1 p.2 (from_double db x)); Ok (rows, u))
      (fun _ (_ : unit) => True) e ps (rows_ v) ()) as (rows & [] & Hf2 & _ & Hwf' & Hel).
    + done.
    + done.
    + intros jv jl [?%elem_of_seq ?%elem_of_seq]%elem_of_pairs. lia.
    + intros don jv jl rows [] [rest Hrest] Hwf1 _.
      assert (Hjj : jv < od_nvars v /\ jl < od_nlocs v).
      { assert ((jv, jl) ∈ ps) as [?%elem_of_seq ?%elem_of_seq]%elem_of_pairs by (rewrite Hrest, !elem_of_app; left; right; left). lia. }
      destruct Hjj as [Hjv Hjl]. destruct (set_element_ok _ _ rows jv jl (e jv jl) Hwf1 Hjv Hjl) as (rows' & Hset & _).
      exists rows', (). split_and!; [done| |done]. destruct (lookup_lt_is_Some_2 (od_vars v) jv) as [x Hx]; [lia|].
      destruct (Hi jv x Hx) as (i & Hii & Hix & _). cbn [fst snd]. rewrite (vec_get_Some _ _ _ Hii). cbn [mbind res_bind].
      rewrite (vec_at_Some _ _ (value_at vect i jl)) by (apply value_at_lookup; [done|apply lookup_lt_Some in Hix; lia|lia]). cbn [mbind res_bind].
      unfold e in Hset. rewrite Hii in Hset. cbn [default from_option id] in Hset. by rewrite Hset.
    + apply foldM_unit in Hf2. cbn [fst snd] in Hf2. rewrite Hf2. cbn [mbind res_bind]. exists rows. split_and!; [done|done|].
      intros jv x jl Hx Hjl. destruct (Hi jv x Hx) as (i & Hii & Hix & _). exists i. split; [done|].
      rewrite Hel, decide_True; [unfold e; by rewrite Hii|]. apply elem_of_pairs. rewrite !elem_of_seq. apply lookup_lt_Some in Hx. lia.
  - intros x Hx Hnot. unfold assignToExistingVariables.
    match goal with |- context [foldM ?f ?s ?l] => destruct (foldM f s l) as [[rows inds]|err] eqn:E; [|by eexists]; exfalso; revert E end.
    generalize (rows_ v, replicate (od_nvars v) 0) as s. apply list_elem_of_lookup in Hx as [jv Hjv].
    assert (Hin : jv ∈ seq 0 (od_nvars v)) by (apply elem_of_seq; apply lookup_lt_Some in Hjv; lia). revert Hin.
    generalize (seq 0 (od_nvars v)) as l. induction l as [|k l IH]; intros Hin [rows0 inds0]; [by apply elem_of_nil in Hin|]. cbn [foldM].
    destruct (vec_get rows0 k); cbn [mbind res_bind]; [|done]. destruct (vec_set rows0 k _); cbn [mbind res_bind]; [|done].
    destruct (vec_get (od_vars v) k) as [y|] eqn:Ey; cbn [mbind res_bind]; [|done].
    destruct (vars_has (obsvars_ vect) y) eqn:Eh; cbn [mbind res_bind]; [|done].
    destruct (vars_find (obsvars_ vect) y); cbn [mbind res_bind]; [|done]. destruct (vec_set inds0 k _); cbn [mbind res_bind]; [|done].
    apply IH. apply elem_of_cons in Hin as [->|Hin]; [|done]. apply vec_get_Ok in Ey. assert (y = x) as -> by congruence.
    by apply vars_has_spec in Eh.
Qed.
End claims.

Module Sample.
Import ObsSpaceVars.Sample ObsVector.Sample.

(** Names are compared one by one. *)
#[export] Instance Variables_list : Variables := {|
  vars_has vars x := bool_decide (x ∈ vars);
  vars_find vars x := match list_find (fun y => y = x) vars with Some (i, _) => Ok i | None => Throw EAssert end |}.
#[export] Instance Variables_list_laws : VariablesLaws.
Proof.
  split.
  - intros vars x. apply bool_decide_eq_true.
  - intros vars x Hx. destruct (list_find_elem_of (fun y => y = x) vars x Hx eq_refl) as [[i y] Hf]. simpl. rewrite Hf.
    apply list_find_Some in Hf as (Hi & -> & _). eauto.
Qed.

Definition vect : ObsVector Z :=
  {| obsdb_ := 0; obsvars_ := ["t"; "q"]; nvars_ := 2; nlocs_ := 2; values_ := [5; -99; 6; 7]%Z |}.

Lemma data_vector_roundtrip_witness :
  exists od, od_of_vector float_db vect = Ok od /\ ObsVector_of_data od (ObsVector_zero vect) = Ok vect.
Proof.
  destruct (data_vector_roundtrip vect (ObsVector_zero vect)) as (od & H1 & H2); try reflexivity.
  - apply (bool_decide_unpack _). vm_compute. exact I.
  - intros x Hx Hne. apply Z.eqb_neq. exact Hne.
  - exists od. split; [exact H1|]. rewrite H2. vm_compute. reflexivity.
Defined.

Definition derived_only : res (ObsGroup Z) := createWithScales "DerivedObsValue/t" ["Location"] float_t (Some (VFloat (-99)%Z)) g0.

Lemma read_throws_for_derived_witness :
  exists g e, derived_only = Ok g /\ od_new float_db 0 ["t"] 2 g cm "ObsValue" false true = Throw e.
Proof.
  destruct derived_only as [g|e] eqn:E; [|vm_compute in E; discriminate]. exists g.
  assert (Hx : forall x b, match derived_only with Ok g => Bool.eqb (exists_var g x) b | Throw _ => false end = true -> exists_var g x = b).
  { intros x b. rewrite E. apply Bool.eqb_prop. }
  destruct (read_throws_for_derived g cm 0 2 "ObsValue" "t") as [e He].
  - discriminate.
  - lia.
  - apply Hx. vm_compute. reflexivity.
  - apply Hx. vm_compute. reflexivity.
  - exists e. split; [done|exact He].
Defined.

(** The variables of the rows in another order than those of the vector. *)
Definition rows_vector (vars : list string) : ObsDataVector Z :=
  {| od_space := 0; od_vars := vars; od_nvars := length vars; od_nlocs := 2; rows_ := replicate (length vars) [0; 0]%Z |}.

Lemma assign_existing_witness :
  (exists rows, assignToExistingVariables float_db vect (rows_vector ["q"; "t"]) = Ok (with_rows (rows_vector ["q"; "t"]) rows) /\
    element rows 0 1 = Some 7%Z) /\
  exists e, assignToExistingVariables float_db vect (rows_vector ["q"; "ps"]) = Throw e.
Proof.
  assert (Hwf : forall vars : list string, wf_rows (length vars) 2 (replicate (length vars) [0; 0]%Z)).
  { intros vars. split; [apply length_replicate|]. by apply Forall_replicate. }
  split.
  - destruct (assign_existing float_db vect (rows_vector ["q"; "t"]) (Hwf ["q"; "t"]) eq_refl eq_refl eq_refl eq_refl) as [H _].
    destruct H as (rows & H1 & _ & H2).
    + intros x [->|[->|[]%elem_of_nil]%elem_of_cons]%elem_of_cons; [right; left|left].
    + exists rows. split; [exact H1|]. destruct (H2 0 "q" 1) as (i & Hi & ->); [done|simpl; lia|].
      destruct i as [|[|i]]; [done|reflexivity|done].
  - destruct (assign_existing float_db vect (rows_vector ["q"; "ps"]) (Hwf ["q"; "ps"]) eq_refl eq_refl eq_refl eq_refl) as [_ H]. apply (H "ps").
    + right. left.
    + by intros [?|[?|[]%elem_of_nil]%elem_of_cons]%elem_of_cons.
Defined.

(** The statistics of non-numeric data divide the length of the row of one
    variable by the number of variables: of three locations with two variables,
    none of them missing, two observations are counted. *)
Theorem nonnumeric_count_is_short :
  nonnumeric_nobs float_db (Inefficient_dist 1) 0
    [{| od_space := 0; od_vars := ["a"; "b"]; od_nvars := 2; od_nlocs := 3; rows_ := [[1; 2; 3]; [4; 5; 6]]%Z |}] = Ok [2].
Proof. vm_compute. reflexivity. Qed.
End Sample.
