(* ===== verification/OdbData.v ===== *)
(** The result of an SQL query on an ODB file and its conversion to variables:
    src/src/engines/ioda/src/ioda/Engines/ODC/DataFromSQL.h and DataFromSQL.cpp.

    The rows come from [odc::Select], which is an argument.  Counts of rows are
    [nat]; the conversions of the doubles of a row to integers are partial. *)
From stdpp Require Import base list gmap strings pretty.
From Stdlib Require Import ZArith.
From S2P Require Import Prelude Selection VarAttrStore ObsTypes ObsVariables ObsFrame ObsFrameRead ObsRecords.
Local Open Scope Z_scope.

(** The doubles of a row: the conversions to [int] and [size_t] are undefined
    outside the range of the type, the others are not. *)
Class OdbDouble (R F : Type) := {
  od_int : R -> option Z;
  od_size : R -> option Z;
  od_float : R -> F;
  (* comparison with an int *)
  od_eq_int : R -> Z -> bool;
  (* odb_missing_float as a double and as a float, and the comparison with it *)
  od_missing : R;
  odb_missing_float : F;
  od_is_missing : R -> bool;
  (* the eight bytes *)
  od_bytes : R -> string
}.

Definition odb_missing_int : Z := 2147483647.
Definition odb_missing_string : string := "*** MISSING ***".

Definition obsgroup_surface : Z := 1.
Definition obsgroup_scatwind : Z := 2.
Definition obsgroup_aircraft : Z := 4.
Definition obsgroup_sonde : Z := 5.
Definition obsgroup_atovs : Z := 7.
Definition obsgroup_oceansound : Z := 11.
Definition obsgroup_airs : Z := 16.
Definition obsgroup_gnssro : Z := 18.
Definition obsgroup_ssmis : Z := 19.
Definition obsgroup_iasi : Z := 26.
Definition obsgroup_seviriclr : Z := 27.
Definition obsgroup_geocloud : Z := 28.
Definition obsgroup_amsr : Z := 29.
Definition obsgroup_abiclr : Z := 37.
Definition obsgroup_atms : Z := 38.
Definition obsgroup_cris : Z := 39.
Definition obsgroup_surfacecloud : Z := 42.
Definition obsgroup_mwsfy3 : Z := 44.
Definition obsgroup_ahiclr : Z := 51.
Definition obsgroup_mwri : Z := 55.
Definition obsgroup_gmilow : Z := 56.
Definition obsgroup_gmihigh : Z := 57.
Definition obsgroup_hiras : Z := 60.

Definition varno_dd : Z := 111.
Definition varno_rawbt : Z := 119.
Definition varno_bending_angle : Z := 162.
Definition varno_rawsca : Z := 233.
Definition varno_rawbt_amsu : Z := 249.
Definition varno_cloud_fraction_covered : Z := 266.
Definition varno_rawbt_amsr_89ghz : Z := 267.
Definition varno_rawbt_mwts : Z := 274.
Definition varno_rawbt_mwhs : Z := 275.

Definition odb_type_int : Z := 1.
Definition odb_type_real : Z := 2.
Definition odb_type_string : Z := 3.
Definition odb_type_bitfield : Z := 4.

Record BitfieldMember := { bm_name : string; bm_start : Z; bm_size : Z }.

(** The data members of [DataFromSQL]. *)
Record DataFromSQL (R : Type) := {
  columns_ : list string;
  column_types_ : list Z;
  column_bitfield_defs_ : list (list BitfieldMember);
  varnos_ : list Z;
  data_ : list (list R);
  number_of_rows_ : nat;
  number_of_metadata_rows_ : nat;
  number_of_varnos_ : nat;
  max_number_channels_ : Z;
  obsgroup_ : Z;
  varnos_and_levels_ : gmap Z nat;
  varnos_and_levels_to_use_ : gmap Z nat
}.
Arguments columns_ {R} _.
Arguments column_types_ {R} _.
Arguments column_bitfield_defs_ {R} _.
Arguments varnos_ {R} _.
Arguments data_ {R} _.
Arguments number_of_rows_ {R} _.
Arguments number_of_metadata_rows_ {R} _.
Arguments number_of_varnos_ {R} _.
Arguments max_number_channels_ {R} _.
Arguments obsgroup_ {R} _.
Arguments varnos_and_levels_ {R} _.
Arguments varnos_and_levels_to_use_ {R} _.

(** A column of the result of a query: its type and its bitfield definition
    (names and sizes). *)
Record OdbColumn := { oc_type : Z; oc_names : list string; oc_sizes : list Z }.

(** What [odc::Select] gives for a query. *)
Record SelectResult (R : Type) := { sel_columns : list OdbColumn; sel_rows : list (list R) }.
Arguments sel_columns {R} _.
Arguments sel_rows {R} _.

(** The types a column is converted to. *)
Record OdbType (R T : Type) := {
  ot_of : R -> res T;
  ot_missing : T;
  ot_eqb : T -> T -> bool
}.
Arguments ot_of {R T} _ _.
Arguments ot_missing {R T} _.
Arguments ot_eqb {R T} _ _ _.

(** [arr[j] = x] with an index of type [size_t]. *)
Definition arr_set {A} (arr : list A) (j : Z) (x : A) : res (list A) :=
  if (0 <=? j) && (j <? Z.of_nat (length arr)) then Ok (<[Z.to_nat j := x]> arr) else Throw EUndefined.

(** The division of sizes. *)
Definition div_size (a b : nat) : res nat := if (b =? 0)%nat then Throw EUndefined else Ok (a / b)%nat.

(** The position of a column, or nothing for -1. *)
Definition index_of (columns : list string) (col : string) : option nat :=
  fst <$> list_find (fun c => c = col) columns.

(** The trimming of [reinterpretString]. *)
Fixpoint until_nul (s : string) : string :=
  match s with
  | EmptyString => EmptyString
  | String c s => if (Ascii.nat_of_ascii c =? 0)%nat then EmptyString else String c (until_nul s)
  end.
Definition is_space (c : Ascii.ascii) : bool := (Ascii.nat_of_ascii c =? 32)%nat.
Fixpoint find_first_not_of_space (s : string) : option nat :=
  match s with
  | EmptyString => None
  | String c s => if is_space c then S <$> find_first_not_of_space s else Some 0%nat
  end.
Fixpoint find_last_not_of_space (s : string) : option nat :=
  match s with
  | EmptyString => None
  | String c s => match find_last_not_of_space s with
    | Some n => Some (S n)
    | None => if is_space c then None else Some 0%nat
    end
  end.
Fixpoint remove_spaces (s : string) : string :=
  match s with
  | EmptyString => EmptyString
  | String c s => if is_space c then remove_spaces s else String c (remove_spaces s)
  end.
Definition trim (s : string) : string :=
  match find_last_not_of_space s, find_first_not_of_space s with
  | Some endpos, Some startpos =>
      let s := String.substring 0 (endpos + 1) s in
      String.substring startpos (String.length s - startpos) s
  | _, _ => remove_spaces s
  end.

Section DataFromSQL.
Context {R F : Type} `{OD : OdbDouble R F} `{FO : FloatOps F}.
Implicit Types (s : DataFromSQL R) (col : string).

Definition odb_int : OdbType R Z :=
  {| ot_of x := match od_int x with Some z => Ok z | None => Throw EUndefined end;
     ot_missing := odb_missing_int; ot_eqb := Z.eqb |}.
Definition odb_float : OdbType R F :=
  {| ot_of x := Ok (od_float x); ot_missing := odb_missing_float; ot_eqb := f_eqb |}.

Definition to_int (x : R) : res Z := match od_int x with Some z => Ok z | None => Throw EUndefined end.
Definition to_size (x : R) : res Z := match od_size x with Some z => Ok z | None => Throw EUndefined end.

Definition DataFromSQL_new (maxNumberChannels : Z) : DataFromSQL R :=
  {| columns_ := []; column_types_ := []; column_bitfield_defs_ := []; varnos_ := []; data_ := [];
     number_of_rows_ := 0; number_of_metadata_rows_ := 0; number_of_varnos_ := 0;
     max_number_channels_ := u64 maxNumberChannels; obsgroup_ := 0;
     varnos_and_levels_ := ∅; varnos_and_levels_to_use_ := ∅ |}.

Definition getColumnIndex s col : option nat := index_of (columns_ s) col.

(** [getData]; the column -1 is past the end of any vector. *)
Definition getData s (row : nat) (column : option nat) : res R :=
  match data_ s with
  | [] => Ok od_missing
  | _ => match column with
         | Some c => d ← vec_at (data_ s) c; vec_at d row
         | None => Throw EOutOfRange
         end
  end.

Definition numberOfRowsForVarno s (varno : Z) : res nat :=
  foldM (fun tot i =>
      x ← getData s i (getColumnIndex s "varno");
      val ← to_size x;
      Ok (if val =? u64 varno then S tot else tot)) 0%nat (seq 0 (number_of_rows_ s)).

Definition hasVarno s (varno : Z) : res bool :=
  foldM (fun found i => if (found : bool) then Ok true else v ← vec_at (varnos_ s) i; Ok (varno =? v))
    false (seq 0 (number_of_varnos_ s)).

Definition map_at (m : gmap Z nat) (k : Z) : res nat :=
  match m !! k with Some v => Ok v | None => Throw EOutOfRange end.

Definition numberOfLevels s (varno : Z) : res nat :=
  b ← hasVarno s varno;
  if b && (0 <? number_of_metadata_rows_ s)%nat then
    if obsgroup_ s =? obsgroup_surfacecloud then map_at (varnos_and_levels_ s) varno
    else map_at (varnos_and_levels_to_use_ s) varno
  else Ok 0%nat.

Definition getColumnTypeByName s col : res Z :=
  match getColumnIndex s col with Some c => vec_at (column_types_ s) c | None => Throw EOutOfRange end.

(** The groups of stations with a location per level. *)
Definition location_per_level s : bool :=
  (obsgroup_ s =? obsgroup_sonde) || (obsgroup_ s =? obsgroup_oceansound) || (obsgroup_ s =? obsgroup_geocloud) ||
  ((obsgroup_ s =? obsgroup_gnssro) && (max_number_channels_ s =? 0)).

(** The condition for a new location. *)
Definition new_location s (seqno seqno_new : Z) (chan_num : nat) : bool :=
  negb (seqno =? seqno_new) || ((0 <? max_number_channels_ s) && (max_number_channels_ s <? Z.of_nat chan_num)).

(** The initial [size_t seqno = -1]. *)
Definition no_seqno : Z := u64 (-1).

(** The loop of [getNumericMetadataColumn]: [arr], [seqno], [j], [chan_num] and
    [still_looking]. *)
Record MetaState (T : Type) := {
  ms_arr : list T;
  ms_seqno : Z;
  ms_j : nat;
  ms_chan : nat;
  ms_looking : bool
}.
Arguments ms_arr {T} _.
Arguments ms_seqno {T} _.
Arguments ms_j {T} _.
Arguments ms_chan {T} _.
Arguments ms_looking {T} _.

Definition metadata_step {T} (ot : OdbType R T) s (column_index seqno_index varno_index : option nat)
    (st : MetaState T) (i : nat) : res (MetaState T) :=
  x ← getData s i seqno_index;
  seqno_new ← to_size x;
  y ← getData s i varno_index;
  varno ← to_int y;
  let chan_num := S (ms_chan st) in
  if location_per_level s then
    v0 ← vec_get (varnos_ s) 0;
    if v0 =? varno then
      d ← getData s i column_index;
      v ← ot_of ot d;
      arr ← vec_set (ms_arr st) (ms_j st) v;
      Ok {| ms_arr := arr; ms_seqno := seqno_new; ms_j := S (ms_j st); ms_chan := chan_num;
            ms_looking := ms_looking st |}
    else Ok {| ms_arr := ms_arr st; ms_seqno := ms_seqno st; ms_j := ms_j st; ms_chan := chan_num;
               ms_looking := ms_looking st |}
  else if new_location s (ms_seqno st) seqno_new chan_num then
    d ← getData s i column_index;
    v ← ot_of ot d;
    arr ← vec_set (ms_arr st) (ms_j st) v;
    Ok {| ms_arr := arr; ms_seqno := seqno_new; ms_j := S (ms_j st); ms_chan := 1;
          ms_looking := if ot_eqb ot v (ot_missing ot) then true else ms_looking st |}
  else if ms_looking st then
    d ← getData s i column_index;
    v ← ot_of ot d;
    arr ← vec_set (ms_arr st) (ms_j st - 1) v;
    Ok {| ms_arr := arr; ms_seqno := ms_seqno st; ms_j := ms_j st; ms_chan := chan_num;
          ms_looking := ot_eqb ot v (ot_missing ot) |}
  else Ok {| ms_arr := ms_arr st; ms_seqno := ms_seqno st; ms_j := ms_j st; ms_chan := chan_num;
             ms_looking := false |}.

Definition getNumericMetadataColumn {T} (ot : OdbType R T) s col : res (list T) :=
  let arr := replicate (number_of_metadata_rows_ s) (ot_missing ot) in
  match getColumnIndex s col with
  | None => Ok arr
  | column_index =>
      st ← foldM (metadata_step ot s column_index (getColumnIndex s "seqno") (getColumnIndex s "varno"))
        {| ms_arr := arr; ms_seqno := no_seqno; ms_j := 0; ms_chan := 0; ms_looking := false |}
        (seq 0 (number_of_rows_ s));
      Ok (ms_arr st)
  end.

Definition getMetadataColumn s col : res (list F) := getNumericMetadataColumn odb_float s col.
Definition getMetadataColumnInt s col : res (list Z) := getNumericMetadataColumn odb_int s col.

Definition reinterpretString (ud : R) : string := trim (until_nul (od_bytes ud)).

(** The loop of [getMetadataStringColumn], which appends to [arr] (its length is
    also counted). *)
Definition metadata_string_step s (column_index seqno_index varno_index : option nat)
    (st : MetaState string) (i : nat) : res (MetaState string) :=
  x ← getData s i seqno_index;
  seqno_new ← to_size x;
  y ← getData s i varno_index;
  varno ← to_int y;
  let chan_num := S (ms_chan st) in
  if location_per_level s then
    v0 ← vec_get (varnos_ s) 0;
    if v0 =? varno then
      d ← getData s i column_index;
      Ok {| ms_arr := ms_arr st ++ [reinterpretString d]; ms_seqno := seqno_new; ms_j := S (ms_j st);
            ms_chan := chan_num; ms_looking := ms_looking st |}
    else Ok {| ms_arr := ms_arr st; ms_seqno := ms_seqno st; ms_j := ms_j st; ms_chan := chan_num;
               ms_looking := ms_looking st |}
  else if new_location s (ms_seqno st) seqno_new chan_num then
    ud ← getData s i column_index;
    Ok {| ms_arr := ms_arr st ++ [reinterpretString ud]; ms_seqno := seqno_new; ms_j := S (ms_j st);
          ms_chan := 1; ms_looking := if od_is_missing ud then true else ms_looking st |}
  else if ms_looking st then
    ud ← getData s i column_index;
    if od_is_missing ud then
      Ok {| ms_arr := ms_arr st; ms_seqno := ms_seqno st; ms_j := ms_j st; ms_chan := chan_num; ms_looking := true |}
    else
      arr ← vec_set (ms_arr st) (length (ms_arr st) - 1) (reinterpretString ud);
      Ok {| ms_arr := arr; ms_seqno := ms_seqno st; ms_j := ms_j st; ms_chan := chan_num; ms_looking := false |}
  else Ok {| ms_arr := ms_arr st; ms_seqno := ms_seqno st; ms_j := ms_j st; ms_chan := chan_num;
             ms_looking := false |}.

Definition getMetadataStringColumn s col : res (list string) :=
  arr ← match getColumnIndex s col with
        | None => Ok []
        | column_index =>
            st ← foldM (metadata_string_step s column_index (getColumnIndex s "seqno") (getColumnIndex s "varno"))
              {| ms_arr := []; ms_seqno := no_seqno; ms_j := 0; ms_chan := 0; ms_looking := false |}
              (seq 0 (number_of_rows_ s));
            Ok (ms_arr st)
        end;
  Ok (arr ++ replicate (number_of_metadata_rows_ s - length arr) "").

(** * Columns of a varno *)

(** [m[k].push_back(x)] and [m[k]] on maps of vectors. *)
Definition zpush {A} (k : Z) (x : A) (m : gmap Z (list A)) : gmap Z (list A) := <[k := default [] (m !! k) ++ [x]]> m.
Definition zvec {A} (k : Z) (m : gmap Z (list A)) : list A := default [] (m !! k).

(** [std::max(1, static_cast<int>(n))] *)
Definition at_least_one (n : nat) : nat := Nat.max 1 n.

Definition varno_sizes s (varnos : list Z) : res (gmap Z nat) :=
  foldM (fun m varno =>
      n ← numberOfRowsForVarno s varno;
      q ← div_size n (number_of_metadata_rows_ s);
      Ok (<[varno := if obsgroup_ s =? obsgroup_surfacecloud then q else at_least_one q]> m)) ∅ varnos.

Definition varno_orders s (varno_index : option nat) (varnos : list Z) : res (gmap Z (list nat)) :=
  foldM (fun m varno =>
      foldM (fun m irow =>
          d ← getData s irow varno_index;
          Ok (if od_eq_int d varno then zpush varno irow m else m)) m (seq 0 (number_of_rows_ s))) ∅ varnos.

(** [varno_index_order] with [varno_current_index]. *)
Definition varno_index_orders s (varnos : list Z) (varno_size : gmap Z nat) (varno_order_map : gmap Z (list nat))
  : res (list nat) :=
  st ← foldM (fun st (_ : nat) =>
         foldM (fun st varno =>
             foldM (fun (st : gmap Z nat * list nat) (_ : nat) =>
                 let '(current, order) := st in
                 let k := default 0%nat (current !! varno) in
                 irow ← vec_get (zvec varno varno_order_map) k;
                 Ok (<[varno := S k]> current, order ++ [irow]))
               st (seq 0 (default 0%nat (varno_size !! varno))))
           st varnos)
       (list_to_map (map (fun v => (v, 0%nat)) varnos), []) (seq 0 (number_of_metadata_rows_ s));
  Ok (snd st).

(** The loop over the rows when there are several channels: [arr], [j],
    [k_chan] and [seqno]. *)
Definition channel_step {T} (ot : OdbType R T) s (column_index varno_index seqno_index : option nat)
    (varnos : list Z) (nchans nchans_actual : Z) (st : list T * Z * Z * Z) (i : nat) : res (list T * Z * Z * Z) :=
  let '(arr, j, k_chan, seqno) := st in
  d ← getData s i varno_index;
  if existsb (od_eq_int d) varnos then
    let k_chan := k_chan + 1 in
    x ← getData s i column_index;
    v ← ot_of ot x;
    arr ← arr_set arr j v;
    y ← getData s i seqno_index;
    seqno_new ← to_size y;
    let j := u64 (j + 1) in
    let '(j, k_chan) := if nchans_actual <? k_chan then (u64 (j + (nchans - nchans_actual)), 1) else (j, k_chan) in
    Ok (if negb (seqno =? seqno_new) && (0 <? max_number_channels_ s)
        then (arr, u64 (j + (nchans - k_chan + 1)), 1, seqno_new) else (arr, j, k_chan, seqno))
  else Ok (arr, j, k_chan, seqno).

Definition getVarnoColumn {T} (ot : OdbType R T) s (varnos : list Z) col (nchans nchans_actual : Z) : res (list T) :=
  let column_index := getColumnIndex s col in
  let varno_index := getColumnIndex s "varno" in
  num_rows ← (if 1 <? nchans then Ok (Z.to_nat nchans * number_of_metadata_rows_ s)%nat
              else foldM (fun n it => k ← numberOfRowsForVarno s it; Ok (n + k)%nat) 0%nat varnos);
  varno_size ← varno_sizes s varnos;
  varno_order_map ← varno_orders s varno_index varnos;
  varno_index_order ← varno_index_orders s varnos varno_size varno_order_map;
  let per_location := (obsgroup_ s =? obsgroup_surface) || (obsgroup_ s =? obsgroup_aircraft) in
  let arr := replicate (if per_location then number_of_metadata_rows_ s
                        else if nchans =? 1 then length varno_index_order else num_rows) (ot_missing ot) in
  match column_index, varno_index with
  | Some _, Some _ =>
      if nchans =? 1 then
        foldM (fun arr j =>
            irow ← vec_get varno_index_order j;
            d ← getData s irow column_index;
            v ← ot_of ot d;
            vec_set arr j v)
          arr (seq 0 (if per_location then num_rows else length varno_index_order))
      else
        let seqno_index := getColumnIndex s "seqno" in
        d ← getData s 0 seqno_index;
        seqno ← to_size d;
        st ← foldM (channel_step ot s column_index varno_index seqno_index varnos nchans nchans_actual)
          (arr, 0, 1, seqno) (seq 0 (number_of_rows_ s));
        Ok (st.1.1.1)
  | _, _ => Ok arr
  end.

(** * The query *)

Definition comma_list (columns : list string) : string :=
  foldl (fun sql (p : nat * string) => if (p.1 =? 0)%nat then sql +:+ p.2 else sql +:+ "," +:+ p.2)
    "" (imap pair columns).
Definition varno_list (varnos : list Z) : string :=
  foldl (fun sql (p : nat * Z) => sql +:+ (if (p.1 =? 0)%nat then "varno = " else " or varno = ") +:+ pretty p.2)
    "" (imap pair varnos).
Definition dquote : string := String (Ascii.ascii_of_nat 34) EmptyString.
Definition sql_string (columns : list string) (filename : string) (varnos : list Z) (query : string) : string :=
  "select " +:+ comma_list columns +:+ " from " +:+ dquote +:+ filename +:+ dquote +:+ " where (" +:+
  varno_list varnos +:+ ")" +:+ (if (String.length query =? 0)%nat then ";" else " and (" +:+ query +:+ ");").

(** The members of a bitfield follow each other. *)
Definition bitfield_of (c : OdbColumn) : res (list BitfieldMember) :=
  _ ← assert (length (oc_names c) =? length (oc_sizes c))%nat;
  st ← foldM (fun (st : list BitfieldMember * Z) i =>
         let '(bitfield, pos) := st in
         name ← vec_get (oc_names c) i;
         size ← vec_get (oc_sizes c) i;
         Ok (bitfield ++ [{| bm_name := name; bm_start := pos; bm_size := size |}], pos + size))
       ([], 0) (seq 0 (length (oc_names c)));
  Ok (fst st).

Definition with_data s (columns : list string) (types : list Z) (defs : list (list BitfieldMember)) (data : list (list R))
  : DataFromSQL R :=
  {| columns_ := columns; column_types_ := types; column_bitfield_defs_ := defs; varnos_ := varnos_ s; data_ := data;
     number_of_rows_ := number_of_rows_ s; number_of_metadata_rows_ := number_of_metadata_rows_ s;
     number_of_varnos_ := number_of_varnos_ s; max_number_channels_ := max_number_channels_ s; obsgroup_ := obsgroup_ s;
     varnos_and_levels_ := varnos_and_levels_ s; varnos_and_levels_to_use_ := varnos_and_levels_to_use_ s |}.

Definition appendData (data : list (list R)) (column : nat) (value : R) : res (list (list R)) :=
  c ← vec_at data column;
  Ok (<[column := c ++ [value]]> data).

Definition setData s (result : SelectResult R) : res (DataFromSQL R) :=
  let number_of_columns := length (columns_ s) in
  _ ← assert (length (sel_columns result) =? number_of_columns)%nat;
  st ← foldM (fun (st : list Z * list (list BitfieldMember)) c =>
         b ← bitfield_of c;
         Ok (fst st ++ [oc_type c], snd st ++ [b])) ([], column_bitfield_defs_ s) (sel_columns result);
  data ← foldM (fun data row =>
           _ ← assert (length row =? number_of_columns)%nat;
           foldM (fun data i => x ← vec_get row i; appendData data i x) data (seq 0 number_of_columns))
         (replicate number_of_columns []) (sel_rows result);
  Ok (with_data s (columns_ s) (fst st) (snd st) data).

(** The distinct varnos, in the order of the rows. *)
Definition collect_varnos s (number_of_rows : nat) : res (list Z) :=
  foldM (fun varnos i =>
      d ← getData s i (getColumnIndex s "varno");
      varno ← to_int d;
      Ok (if bool_decide (varno ∈ varnos) then varnos else varnos ++ [varno])) (varnos_ s) (seq 0 number_of_rows).

(** The number of locations: [number_of_metadata_rows_], [seqno] and
    [chan_num]. *)
Definition count_step s (seqno_index : option nat) (st : nat * Z * nat) (i : nat) : res (nat * Z * nat) :=
  let '(n, seqno, chan_num) := st in
  x ← getData s i seqno_index;
  seqno_new ← to_size x;
  Ok (if new_location s seqno seqno_new (S chan_num) then (S n, seqno_new, 1%nat) else (n, seqno, S chan_num)).

Definition count_locations s (number_of_rows number_of_varnos : nat) : res nat :=
  if (obsgroup_ s =? obsgroup_sonde) || (obsgroup_ s =? obsgroup_oceansound) ||
     ((obsgroup_ s =? obsgroup_gnssro) && (max_number_channels_ s =? 0))
  then div_size number_of_rows number_of_varnos
  else st ← foldM (count_step s (getColumnIndex s "seqno")) (0%nat, no_seqno, 0%nat) (seq 0 number_of_rows);
       Ok (fst (fst st)).

(** ** Truncation of profiles *)

(** The first index of each profile and its number of reported levels:
    [indices_initial], [numlevs] and [seqno]. *)
Definition profile_step s (st : list nat * list Z * Z) (idx : nat) : res (list nat * list Z * Z) :=
  let '(initial, numlevs, seqno) := st in
  x ← getData s idx (getColumnIndex s "seqno");
  seqno_new ← to_int x;
  if seqno =? seqno_new then Ok st
  else
    y ← getData s idx (getColumnIndex s "numlev");
    numlev ← to_int y;
    q ← div_size idx (number_of_varnos_ s);
    Ok (initial ++ [q], numlevs ++ [numlev], seqno_new).

(** [indices_final]: each profile but the last ends where the next begins. *)
Definition indices_final s (indices_initial : list nat) : list nat :=
  tail indices_initial ++ [number_of_metadata_rows_ s].

Definition varno_indices s : res (gmap Z (list nat)) :=
  data_varno ← match getColumnIndex s "varno" with Some c => vec_at (data_ s) c | None => Throw EOutOfRange end;
  foldM (fun m idx => d ← vec_at data_varno idx; varno ← to_int d; Ok (zpush varno idx m)) ∅ (seq 0 (number_of_rows_ s)).

(** [v[i]] with a signed index. *)
Definition vec_get_int {A} (l : list A) (i : Z) : res A := if i <? 0 then Throw EUndefined else vec_get l (Z.to_nat i).

(** The superfluous levels of a profile, for a varno. *)
Definition superfluous (indices : list nat) (index_initial index_final : nat) (numlev : Z) : res (list nat) :=
  let first := Z.of_nat index_initial + numlev in
  if numlev <? Z.of_nat index_final - Z.of_nat index_initial then
    mapR (fun k => vec_get_int indices (first + Z.of_nat k)) (seq 0 (Z.to_nat (Z.of_nat index_final - first)))
  else Ok [].

Definition indices_to_remove s (varnos : list Z) : res (list nat) :=
  st ← foldM (profile_step s) ([], [], -1) (seq 0 (number_of_rows_ s));
  let '(indices_initial, numlevs, _) := st in
  indices ← varno_indices s;
  foldM (fun to_remove varno =>
      foldM (fun to_remove jprof =>
          index_initial ← vec_get indices_initial jprof;
          index_final ← vec_get (indices_final s indices_initial) jprof;
          numlev ← vec_get numlevs jprof;
          l ← superfluous (zvec varno indices) index_initial index_final numlev;
          Ok (to_remove ++ l)) to_remove (seq 0 (length indices_initial))) [] varnos.

(** [std::remove_if] with the predicate that walks through the sorted indices;
    [current_index] no longer counts once they are used up. *)
Fixpoint remove_indices {A} (current_index : nat) (indices : list nat) (column : list A) : list A :=
  match column, indices with
  | [], _ => []
  | x :: column, [] => x :: remove_indices current_index [] column
  | x :: column, i :: rest =>
      if (i =? current_index)%nat then remove_indices (S current_index) rest column
      else x :: remove_indices (S current_index) indices column
  end.

Definition set_rows s (data : list (list R)) (number_of_rows number_of_metadata_rows : nat) : DataFromSQL R :=
  {| columns_ := columns_ s; column_types_ := column_types_ s; column_bitfield_defs_ := column_bitfield_defs_ s;
     varnos_ := varnos_ s; data_ := data; number_of_rows_ := number_of_rows;
     number_of_metadata_rows_ := number_of_metadata_rows; number_of_varnos_ := number_of_varnos_ s;
     max_number_channels_ := max_number_channels_ s; obsgroup_ := obsgroup_ s;
     varnos_and_levels_ := varnos_and_levels_ s; varnos_and_levels_to_use_ := varnos_and_levels_to_use_ s |}.

(** The size of the first column, or none. *)
Definition front_size (data : list (list R)) : nat := match data with [] => 0 | c :: _ => length c end.

Definition truncate s (varnos : list Z) : res (DataFromSQL R) :=
  to_remove ← indices_to_remove s varnos;
  let sorted := std_sort Nat.ltb to_remove in
  let data := map (remove_indices 0 sorted) (data_ s) in
  n ← div_size (front_size data) (number_of_varnos_ s);
  Ok (set_rows s data (front_size data) n).

(** ** Levels of each varno *)

Definition set_levels s (levels levels_to_use : gmap Z nat) : DataFromSQL R :=
  {| columns_ := columns_ s; column_types_ := column_types_ s; column_bitfield_defs_ := column_bitfield_defs_ s;
     varnos_ := varnos_ s; data_ := data_ s; number_of_rows_ := number_of_rows_ s;
     number_of_metadata_rows_ := number_of_metadata_rows_ s; number_of_varnos_ := number_of_varnos_ s;
     max_number_channels_ := max_number_channels_ s; obsgroup_ := obsgroup_ s;
     varnos_and_levels_ := levels; varnos_and_levels_to_use_ := levels_to_use |}.

Definition levels_step s (varno : Z) : res (DataFromSQL R) :=
  b ← hasVarno s varno;
  if b && (0 <? number_of_metadata_rows_ s)%nat then
    if 0 <? max_number_channels_ s then
      let n := Z.to_nat (max_number_channels_ s) in
      Ok (set_levels s (<[varno := n]> (varnos_and_levels_ s)) (<[varno := n]> (varnos_and_levels_to_use_ s)))
    else
      n ← numberOfRowsForVarno s varno;
      q ← div_size n (number_of_metadata_rows_ s);
      Ok (set_levels s (<[varno := q]> (varnos_and_levels_ s)) (<[varno := at_least_one q]> (varnos_and_levels_to_use_ s)))
  else Ok s.

(** [select].  [file] is the result of the query, or nothing when the file cannot
    be opened or is empty. *)
Definition set_counts s (varnos : list Z) (obsgroup : Z) (number_of_rows number_of_metadata_rows : nat) : DataFromSQL R :=
  {| columns_ := columns_ s; column_types_ := column_types_ s; column_bitfield_defs_ := column_bitfield_defs_ s;
     varnos_ := varnos; data_ := data_ s; number_of_rows_ := number_of_rows;
     number_of_metadata_rows_ := number_of_metadata_rows; number_of_varnos_ := length varnos;
     max_number_channels_ := max_number_channels_ s; obsgroup_ := obsgroup;
     varnos_and_levels_ := varnos_and_levels_ s; varnos_and_levels_to_use_ := varnos_and_levels_to_use_ s |}.

Definition select s (file : string -> option (SelectResult R)) (columns : list string) (filename : string)
    (varnos : list Z) (query : string) (truncateProfilesToNumLev : bool) : res (DataFromSQL R) :=
  let s := with_data s columns (column_types_ s) (column_bitfield_defs_ s) (data_ s) in
  s ← match file (sql_string columns filename varnos query) with
      | Some result => setData s result
      | None => Ok s
      end;
  x ← getData s 0 (getColumnIndex s "ops_obsgroup");
  obsgroup ← to_int x;
  let number_of_rows := front_size (data_ s) in
  found ← collect_varnos s number_of_rows;
  let s := set_counts s found obsgroup number_of_rows 0 in
  n ← count_locations s number_of_rows (length found);
  let s := set_counts s found obsgroup number_of_rows n in
  s ← (if negb (bool_decide (data_ s = [])) && truncateProfilesToNumLev &&
          ((obsgroup =? obsgroup_sonde) || (obsgroup =? obsgroup_oceansound))
       then truncate s varnos else Ok s);
  foldM levels_step s (varnos_ s).
End DataFromSQL.

(** Integers in place of doubles, for concrete queries. *)
Module Sample.
#[export] Instance OdbDouble_Z : OdbDouble Z Z := {|
  od_int z := if (- 2 ^ 31 <=? z) && (z <? 2 ^ 31) then Some z else None;
  od_size z := if (0 <=? z) && (z <? 2 ^ 64) then Some z else None;
  od_float z := z; od_eq_int := Z.eqb; od_missing := - 2 ^ 31; odb_missing_float := - 2 ^ 31;
  od_is_missing z := z =? - 2 ^ 31; od_bytes _ := EmptyString |}.
End Sample.
