(* ===== verification/OdbVariables.v ===== *)
(** The variables made from the result of an ODB query: dates, station names,
    bitfields, channel numbers and the columns of each varno
    (src/src/engines/ioda/src/ioda/Engines/ODC/DataFromSQL.cpp). *)
From stdpp Require Import base list gmap strings pretty.
From Stdlib Require Import ZArith.
From S2P Require Import Prelude Selection VarAttrStore ObsTypes ObsVariables ObsFrame ObsFrameRead ObsRecords OdbData.
Local Open Scope Z_scope.

(** [std::setfill('0') << std::setw(w) << z] *)
Fixpoint zeros (n : nat) : string := match n with O => EmptyString | S n => String (Ascii.ascii_of_nat 48) (zeros n) end.
Definition setw (w : nat) (z : Z) : string := let p := pretty z in zeros (w - String.length p) +:+ p.

Section OdbVariables.
Context {R F : Type} `{OD : OdbDouble R F} `{FO : FloatOps F}.
Implicit Types (s : DataFromSQL R) (col : string) (g : ObsGroup F).

(** [getVertcos]: the dimensions and their sizes. *)
Definition channel_count s : res (option nat) :=
  let o := obsgroup_ s in
  if (o =? obsgroup_iasi) || (o =? obsgroup_cris) || (o =? obsgroup_hiras) then Some <$> numberOfLevels s varno_rawsca
  else if o =? obsgroup_atovs then Some <$> numberOfLevels s varno_rawbt_amsu
  else if o =? obsgroup_amsr then
    a ← numberOfLevels s varno_rawbt; b ← numberOfLevels s varno_rawbt_amsr_89ghz; Ok (Some (a + b)%nat)
  else if (o =? obsgroup_abiclr) || (o =? obsgroup_ahiclr) || (o =? obsgroup_airs) || (o =? obsgroup_atms) ||
          (o =? obsgroup_gmihigh) || (o =? obsgroup_gmilow) || (o =? obsgroup_mwri) || (o =? obsgroup_seviriclr) ||
          (o =? obsgroup_ssmis) then Some <$> numberOfLevels s varno_rawbt
  else if o =? obsgroup_mwsfy3 then
    a ← numberOfLevels s varno_rawbt_mwts; b ← numberOfLevels s varno_rawbt_mwhs; Ok (Some (a + b)%nat)
  else if o =? obsgroup_geocloud then Some <$> numberOfLevels s varno_cloud_fraction_covered
  else if o =? obsgroup_surfacecloud then Some <$> numberOfLevels s varno_cloud_fraction_covered
  else if o =? obsgroup_scatwind then Some <$> numberOfLevels s varno_dd
  else if (o =? obsgroup_gnssro) && (0 <? max_number_channels_ s) then Some <$> numberOfLevels s varno_bending_angle
  else Ok None.

Definition getVertcos s : res (list (string * nat)) :=
  c ← channel_count s;
  Ok (("Location", number_of_metadata_rows_ s) :: match c with Some n => [("Channel", n)] | None => [] end).

(** [getDates].  [dt_new] is the constructor of [util::DateTime] from year,
    month, day, hour, minute and second, which may throw. *)
Definition split_six (x : Z) : Z * Z * Z :=
  let a := Z.quot x 10000 in
  let b := Z.quot x 100 - a * 100 in
  (a, b, x - 10000 * a - 100 * b).

Section dates.
Context {DT : Type} `{DTO : DateTimeOps DT} `{EqDT : EqDecision DT}.
Variable dt_new : Z -> Z -> Z -> Z -> Z -> Z -> res DT.

Definition date_offset (extended : bool) (epoch timeWindowStart timeWindowExtendedLowerBound : DT) (missingInt64 : Z)
    (var_date var_time var_time_disp : Z) : res Z :=
  if (var_date =? odb_missing_int) || (var_time =? odb_missing_int) then Ok missingInt64
  else
    let '(year, month, day) := split_six var_date in
    let '(hour, minute, second) := split_six var_time in
    datetime ← dt_new year month day hour minute second;
    let datetime := if var_time_disp =? odb_missing_int then datetime else dt_add datetime var_time_disp in
    let datetime :=
      if extended && dt_ltb timeWindowExtendedLowerBound datetime && dt_leb datetime timeWindowStart
      then timeWindowStart else datetime in
    Ok (dt_diff datetime epoch).

Definition getDates s (date_col time_col : string) (epoch : DT) (missingInt64 : Z)
    (timeWindowStart timeWindowExtendedLowerBound : DT) (time_disp_col : string) : res (list Z) :=
  let extended := negb (bool_decide (timeWindowExtendedLowerBound = dt_missing)) &&
                  negb (bool_decide (timeWindowStart = dt_missing)) in
  if extended && dt_ltb timeWindowStart timeWindowExtendedLowerBound
  then Throw (EUserError "'time window extended lower bound' must be less than or equal to the start of the DA window.")
  else
    var_date ← getMetadataColumnInt s date_col;
    var_time ← getMetadataColumnInt s time_col;
    var_time_disp ← match getColumnIndex s time_disp_col with
                    | Some _ => getMetadataColumnInt s time_disp_col
                    | None => Ok (replicate (length var_date) odb_missing_int)
                    end;
    imapR (fun i date =>
        time ← vec_get var_time i;
        disp ← vec_get var_time_disp i;
        date_offset extended epoch timeWindowStart timeWindowExtendedLowerBound missingInt64 date time disp) var_date.
End dates.

(** [getStationIDs] *)
Definition sonde_id (statid : string) (block station : Z) : string :=
  if negb (block =? odb_missing_int) && negb (station =? odb_missing_int) then setw 2 block +:+ setw 3 station
  else if decide (statid = "") then odb_missing_string else statid.
Definition ocean_id (statid : string) (argo buoy : Z) : string :=
  if negb (argo =? odb_missing_int) then setw 8 argo
  else if negb (buoy =? odb_missing_int) then setw 8 buoy
  else if decide (statid = "") then odb_missing_string else statid.

Definition station_ids s (id : string -> Z -> Z -> string) (first second : string) : res (list string) :=
  var_statid ← getMetadataStringColumn s "statid";
  a ← getMetadataColumnInt s first;
  b ← getMetadataColumnInt s second;
  mapR (fun loc => st ← vec_get var_statid loc; x ← vec_get a loc; y ← vec_get b loc; Ok (id st x y)) (seq 0 (length a)).

Definition getStationIDs s : res (list string) :=
  if obsgroup_ s =? obsgroup_sonde then station_ids s sonde_id "wmo_block_number" "wmo_station_number"
  else if obsgroup_ s =? obsgroup_oceansound then station_ids s ocean_id "argo_identifier" "buoy_identifier"
  else Ok [].

(** [og.vars.createWithScales<T>(name, scales, params)] followed by writing all
    the values. *)
Definition create_and_write (name : string) (dims : list string) (t : OType) (fill : option (Val F))
    (values : list (Val F)) g : res (ObsGroup F) :=
  g ← createWithScales name dims t fill g;
  vars_update name (fun v => front_write values t front_all front_all (fv_var v)) g.

(** [createVarnoIndependentIodaVariable]; [fill] is the fill value of the
    parameters. *)
Definition createVarnoIndependentIodaVariable s (column : string) (fill : option (Val F)) g : res (ObsGroup F) :=
  col_type ← getColumnTypeByName s column;
  if (col_type =? odb_type_int) || (col_type =? odb_type_bitfield) then
    var ← getNumericMetadataColumn odb_int s column;
    create_and_write column ["Location"] int_t (Some (VInt odb_missing_int)) (map VInt var) g
  else if col_type =? odb_type_real then
    var ← getNumericMetadataColumn odb_float s column;
    create_and_write column ["Location"] float_t (Some (VFloat odb_missing_float)) (map VFloat var) g
  else
    var ← getMetadataStringColumn s column;
    create_and_write column ["Location"] string_t fill (map VString var) g.

(** [1 << n] on [int]. *)
Definition shift_one (n : Z) : res Z := if (0 <=? n) && (n <? 32) then Ok (i32 (Z.shiftl 1 n)) else Throw EUndefined.

Definition member_value (mask v : Z) : Z := if negb (v =? odb_missing_int) && negb (Z.land v mask =? 0) then 1 else 0.

(** The loop over the members of a bitfield; [name_of] gives the name of the
    variable of a member. *)
Definition create_members (bitfield : list BitfieldMember) (members : gset string) (name_of : string -> string)
    (dims : list string) (fill : option (Val F)) (var : list Z) g : res (ObsGroup F) :=
  foldM (fun g m =>
      if negb (bool_decide (bm_name m ∈ members)) then Ok g
      else if negb (bm_size m =? 1) then Throw ENotImplemented
      else
        mask ← shift_one (bm_start m);
        create_and_write (name_of (bm_name m)) dims char_t fill (map (fun v => VChar (member_value mask v)) var) g)
    g bitfield.

Definition bitfield_column s (column : string) : res (list BitfieldMember) :=
  match getColumnIndex s column with Some c => vec_at (column_bitfield_defs_ s) c | None => Throw EOutOfRange end.

Definition createVarnoIndependentIodaVariables s (column : string) (members : gset string) (fill : option (Val F)) g
  : res (ObsGroup F) :=
  col_type ← getColumnTypeByName s column;
  if negb (col_type =? odb_type_bitfield) then Throw (EException ("Column '" +:+ column +:+ "' is not a bitfield"))
  else
    var ← getMetadataColumnInt s column;
    bitfield ← bitfield_column s column;
    create_members bitfield members (fun m => column +:+ "." +:+ m) ["Location"] fill var g.

(** The channel numbers that [assignChannelNumbers] and [assignChannelNumbersSeq]
    write to the scale Channel. *)
Definition assignChannelNumbers s (varno : Z) : res (list Z) :=
  n ← numberOfLevels s varno;
  var ← getVarnoColumn odb_int s [varno] "initial_vertco_reference" (Z.of_nat n) (Z.of_nat n);
  mapR (fun i => vec_get var i) (seq 0 n).

Definition assignChannelNumbersSeq s (varnos : list Z) : res (list Z) :=
  n ← foldM (fun n varno => k ← numberOfLevels s varno; Ok (n + k)%nat) 0%nat varnos;
  Ok (map (fun i : nat =>
      if (obsgroup_ s =? obsgroup_abiclr) || (obsgroup_ s =? obsgroup_ahiclr) then Z.of_nat i + 7
      else if obsgroup_ s =? obsgroup_gmihigh then Z.of_nat i + 10
      else Z.of_nat i + 1) (seq 0 n)).

(** [getVarnoDependentVariableDimensionScales] *)
Definition is_cloud s : bool := (obsgroup_ s =? obsgroup_geocloud) || (obsgroup_ s =? obsgroup_surfacecloud).

Definition getVarnoDependentVariableDimensionScales s (varno : Z) g : res (list string) :=
  number_of_levels ← numberOfLevels s (if is_cloud s then varno_cloud_fraction_covered else varno);
  let dims := if (number_of_levels =? 0)%nat then []
              else if (number_of_levels =? 1)%nat && negb (is_cloud s) then ["Location"]
              else ["Location"; "Channel"] in
  _ ← mapR (fun d => dim_open d g) dims;
  Ok dims.

(** [getVarnoColumnCallArguments]: [varnos], [nchans] and [nchans_actual]. *)
Definition getVarnoColumnCallArguments s (varno : Z) : res (list Z * Z * Z) :=
  let o := obsgroup_ s in
  let of_levels ref :=
    a ← numberOfLevels s ref; b ← numberOfLevels s varno; Ok ([varno], Z.of_nat a, Z.of_nat b) in
  if (o =? obsgroup_atovs) && (varno =? varno_rawbt_amsu) then Ok ([varno_rawbt_amsu], 1, 1)
  else if o =? obsgroup_amsr then Ok ([varno_rawbt; varno_rawbt_amsr_89ghz], 1, 1)
  else if o =? obsgroup_mwsfy3 then Ok ([varno_rawbt_mwts; varno_rawbt_mwhs], 1, 1)
  else if (o =? obsgroup_cris) || (o =? obsgroup_hiras) || (o =? obsgroup_iasi) then of_levels varno_rawsca
  else if is_cloud s then of_levels varno_cloud_fraction_covered
  else if o =? obsgroup_gnssro then of_levels varno_bending_angle
  else Ok ([varno], 1, 1).

Definition createVarnoDependentIodaVariable s (column : string) (varno : Z) g : res (ObsGroup F) :=
  dimensionScales ← getVarnoDependentVariableDimensionScales s varno g;
  match dimensionScales with
  | [] => Ok g
  | _ =>
      args ← getVarnoColumnCallArguments s varno;
      let '(varnos, nchans, nchans_actual) := args in
      let name := column +:+ "/" +:+ pretty varno in
      col_type ← getColumnTypeByName s column;
      if (col_type =? odb_type_int) || (col_type =? odb_type_bitfield) then
        var ← getVarnoColumn odb_int s varnos column nchans nchans_actual;
        create_and_write name dimensionScales int_t (Some (VInt odb_missing_int)) (map VInt var) g
      else if col_type =? odb_type_real then
        var ← getVarnoColumn odb_float s varnos column nchans nchans_actual;
        create_and_write name dimensionScales float_t (Some (VFloat odb_missing_float)) (map VFloat var) g
      else Throw ENotImplemented
  end.

Definition createVarnoDependentIodaVariables s (column : string) (members : gset string) (varno : Z)
    (fill : option (Val F)) g : res (ObsGroup F) :=
  dimensionScales ← getVarnoDependentVariableDimensionScales s varno g;
  match dimensionScales with
  | [] => Ok g
  | _ =>
      args ← getVarnoColumnCallArguments s varno;
      let '(varnos, nchans, nchans_actual) := args in
      col_type ← getColumnTypeByName s column;
      if negb (col_type =? odb_type_bitfield) then Throw (EException ("Column '" +:+ column +:+ "' is not a bitfield"))
      else
        var ← getVarnoColumn odb_int s varnos column nchans nchans_actual;
        bitfield ← bitfield_column s column;
        create_members bitfield members (fun m => column +:+ "." +:+ m +:+ "/" +:+ pretty varno) dimensionScales fill var g
  end.
End OdbVariables.

(** * Numbers made of parts *)

(** A date or time of day written as six digits is taken apart. *)
Lemma split_six_ok a b c : 0 <= a -> 0 <= b < 100 -> 0 <= c < 100 -> split_six (a * 10000 + b * 100 + c) = (a, b, c).
Proof.
  intros Ha Hb Hc. unfold split_six.
  assert (E1 : Z.quot (a * 10000 + b * 100 + c) 10000 = a).
  { rewrite Z.quot_div_nonneg by lia. symmetry. apply (Z.div_unique _ _ _ (b * 100 + c)); lia. }
  assert (E2 : Z.quot (a * 10000 + b * 100 + c) 100 = a * 100 + b).
  { rewrite Z.quot_div_nonneg by lia. symmetry. apply (Z.div_unique _ _ _ c); lia. }
  rewrite E1, E2. f_equal; [f_equal|]; lia.
Qed.

(** A member of a bitfield of one bit is that bit, and zero where the bitfield is
    missing. *)
Lemma member_value_bit n v : 0 <= n < 31 -> exists mask, shift_one n = Ok mask /\
  member_value mask v = if v =? odb_missing_int then 0 else Z.b2z (Z.testbit v n).
Proof.
  intros Hn. assert (Hpow : 2 ^ n < 2 ^ 31) by (apply Z.pow_lt_mono_r; lia). assert (H0 : 0 < 2 ^ n) by (apply Z.pow_pos_nonneg; lia).
  exists (2 ^ n). unfold shift_one. rewrite (proj2 (Z.leb_le _ _)), (proj2 (Z.ltb_lt _ _)) by lia. cbn [andb].
  rewrite Z.shiftl_mul_pow2, Z.mul_1_l, i32_small by lia. split; [done|]. unfold member_value.
  destruct (v =? odb_missing_int); cbn [negb andb]; [done|].
  assert (Hb : forall i, 0 <= i -> Z.testbit (Z.land v (2 ^ n)) i = Z.testbit v i && (n =? i)).
  { intros i Hi. rewrite Z.land_spec, Z.pow2_bits_eqb by lia. done. }
  destruct (Z.testbit v n) eqn:E.
  - destruct (Z.eqb_spec (Z.land v (2 ^ n)) 0) as [Hz|Hz]; [|done].
    specialize (Hb n ltac:(lia)). rewrite Hz, Z.bits_0, E, Z.eqb_refl in Hb. done.
  - assert (Hz : Z.land v (2 ^ n) = 0).
    { apply Z.bits_inj'. intros i Hi. rewrite Hb, Z.bits_0 by done. destruct (Z.eqb_spec n i) as [<-|]; [by rewrite E|apply andb_false_r]. }
    by rewrite Hz.
Qed.
