(* ===== verification/OdbDataSpec.v ===== *)
(** Properties of the ODB query result: the rows after a query, the locations
    they are grouped into, the metadata columns and the columns of a varno. *)
From stdpp Require Import base list gmap strings sorting.
From Stdlib Require Import ZArith.
From S2P Require Import Prelude Selection VarAttrStore ObsTypes ObsVariables ObsFrame ObsFrameRead ObsRecords ObsVector ObsDataVector OdbData.
Local Open Scope Z_scope.

(** A loop over the indices of the rows is a loop over the rows. *)
Lemma foldM_rows {A S} (f : S -> nat -> res S) (h : S -> A -> res S) (L : list A) s :
  (forall s i x, L !! i = Some x -> f s i = h s x) -> foldM f s (seq 0 (length L)) = foldM h s L.
Proof.
  intros H. assert (G : forall post pre s, L = pre ++ post -> foldM f s (seq (length pre) (length post)) = foldM h s post).
  { induction post as [|x post IH]; intros pre s0 E; [done|]. cbn [length seq foldM].
    rewrite (H s0 (length pre) x) by (rewrite E; by apply list_lookup_middle).
    destruct (h s0 x) as [s1|e]; [|done]. cbn [mbind res_bind].
    specialize (IH (pre ++ [x]) s1). rewrite length_app in IH. cbn in IH. rewrite Nat.add_1_r in IH.
    apply IH. by rewrite <-app_assoc. }
  exact (G L [] s eq_refl).
Qed.

Lemma foldM_pure {A S} (f : S -> A -> S) s (l : list A) : foldM (fun s x => Ok (f s x)) s l = Ok (foldl f s l).
Proof. revert s. induction l as [|x l IH]; intros s; [done|]. cbn. apply IH. Qed.

(** A loop whose states are the images of those of another. *)
Lemma foldM_sim {A S T} (mk : T -> S) (f : S -> A -> res S) (h : T -> A -> res T) t l :
  (forall t x, x ∈ l -> f (mk t) x = mk <$> h t x) -> foldM f (mk t) l = mk <$> foldM h t l.
Proof.
  revert t. induction l as [|x l IH]; intros t H; [done|]. cbn [foldM]. rewrite H by apply list_elem_of_here.
  destruct (h t x) as [t'|e]; [|done]. cbn [mbind res_bind fmap res_fmap]. apply IH.
  intros t0 y Hy. apply H. by apply list_elem_of_further.
Qed.

Section rows.
Context {R F : Type} `{OD : OdbDouble R F} `{FO : FloatOps F}.
Implicit Types (s : DataFromSQL R) (rows : list (list R)) (row : list R) (name : string).

(** A double that is a whole number in the range of [int], and not negative. *)
Definition is_int (x : R) (z : Z) : Prop :=
  od_int x = Some z /\ od_size x = Some z /\ (0 <= z < 2 ^ 31) /\ forall w, od_eq_int x w = (z =? w).

(** The rows of the query are held column by column. *)
Definition by_columns (ncols : nat) rows : list (list R) := map (fun c => omap (fun row => row !! c) rows) (seq 0 ncols).

Record loaded s rows : Prop := {
  ld_columns : columns_ s <> [];
  ld_data : data_ s = by_columns (length (columns_ s)) rows;
  ld_widths : Forall (fun row => length row = length (columns_ s)) rows;
  ld_rows : number_of_rows_ s = length rows
}.

Definition cell (columns : list string) name row : R := default od_missing (c ← index_of columns name; row !! c).

Lemma index_of_Some columns name : name ∈ columns -> exists c, index_of columns name = Some c /\ (c < length columns)%nat.
Proof.
  intros H. apply list_elem_of_lookup in H as [i Hi]. unfold index_of.
  destruct (list_find (fun c => c = name) columns) as [[c x]|] eqn:E.
  - apply list_find_Some in E as (Hc & _). exists c. split; [done|]. by apply lookup_lt_Some in Hc.
  - apply list_find_None in E. rewrite Forall_lookup in E. by destruct (E i name Hi).
Qed.

Lemma column_lookup n rows c i row x :
  Forall (fun row => length row = n) rows -> (c < n)%nat -> rows !! i = Some row -> row !! c = Some x ->
  omap (fun row => row !! c) rows !! i = Some x.
Proof.
  intros HF Hc. revert i. induction HF as [|r rows Hr _ IH]; intros i Hi Hx; [done|]. cbn [omap list_omap].
  destruct (lookup_lt_is_Some_2 r c) as [y Hy]; [lia|]. rewrite Hy.
  destruct i as [|i]; cbn in Hi |- *; [simplify_eq; done|]. by apply IH.
Qed.

Lemma column_length n rows c : Forall (fun row => length row = n) rows -> (c < n)%nat ->
  length (omap (fun row => row !! c) rows) = length rows.
Proof.
  intros HF Hc. induction HF as [|r rows Hr _ IH]; [done|]. cbn [omap list_omap].
  destruct (lookup_lt_is_Some_2 r c) as [y Hy]; [lia|]. rewrite Hy. cbn. by rewrite IH.
Qed.

Lemma getData_cell s rows name i row :
  loaded s rows -> name ∈ columns_ s -> rows !! i = Some row ->
  getData s i (getColumnIndex s name) = Ok (cell (columns_ s) name row).
Proof.
  intros [Hc Hd Hw Hn] Hname Hi. destruct (index_of_Some _ _ Hname) as (c & Hidx & Hlt).
  unfold getData, getColumnIndex, cell. rewrite Hidx. cbn [mbind option_bind].
  assert (Hcol : data_ s !! c = Some (omap (fun row => row !! c) rows)).
  { rewrite Hd. unfold by_columns. exact (lookup_map_seq (fun c => omap (fun row : list R => row !! c) rows) _ c Hlt). }
  destruct (data_ s) eqn:E; [done|]. rewrite <-E in *.
  rewrite (vec_at_Some _ _ _ Hcol). cbn [mbind res_bind].
  destruct (lookup_lt_is_Some_2 row c) as [x Hx].
  { rewrite Forall_lookup in Hw. rewrite (Hw _ _ Hi). done. }
  rewrite (vec_at_Some _ _ x) by (eapply column_lookup; eauto). by rewrite Hx.
Qed.

(** ** Rows of a varno *)

Section varnos.
Variables (s : DataFromSQL R) (rows : list (list R)) (vn : list R -> Z).
Hypothesis Hload : loaded s rows.
Hypothesis Hvarno : "varno" ∈ columns_ s.
Hypothesis Hvn : Forall (fun row => is_int (cell (columns_ s) "varno" row) (vn row)) rows.

Definition rows_with (v : Z) (l : list (list R)) : list (list R) := List.filter (fun row => vn row =? v) l.

Lemma vn_int i row : rows !! i = Some row -> is_int (cell (columns_ s) "varno" row) (vn row).
Proof. intros Hi. rewrite Forall_lookup in Hvn. eauto. Qed.

Lemma numberOfRowsForVarno_ok v : 0 <= v < 2 ^ 31 -> numberOfRowsForVarno s v = Ok (length (rows_with v rows)).
Proof.
  intros Hv. unfold numberOfRowsForVarno. rewrite (ld_rows _ _ Hload).
  rewrite (foldM_rows _ (fun tot row => Ok (if vn row =? v then S tot else tot))).
  - rewrite foldM_pure. f_equal. change (length (rows_with v rows)) with (0 + length (rows_with v rows))%nat.
    generalize 0%nat. clear. unfold rows_with.
    induction rows as [|r l IH]; intros n; cbn; [lia|]. rewrite IH. destruct (vn r =? v); cbn; lia.
  - intros n i row Hi. rewrite (getData_cell s rows) with (row := row) by done. cbn [mbind res_bind].
    destruct (vn_int _ _ Hi) as (_ & Hs & _). unfold to_size. rewrite Hs. cbn [mbind res_bind].
    rewrite u64_small by lia. done.
Qed.

Lemma collect_varnos_ok : varnos_ s = [] -> exists found, collect_varnos s (length rows) = Ok found /\ NoDup found /\
  forall v, v ∈ found <-> v ∈ map vn rows.
Proof.
  intros H0. unfold collect_varnos. rewrite H0.
  rewrite (foldM_rows _ (fun varnos row => Ok (if bool_decide (vn row ∈ varnos) then varnos else varnos ++ [vn row]))).
  - rewrite foldM_pure. eexists. split; [reflexivity|]. clear Hload Hvn Hvarno H0.
    assert (G : forall l acc, NoDup acc -> let r := foldl (fun varnos row => if bool_decide (vn row ∈ varnos) then varnos else varnos ++ [vn row]) acc l in
      NoDup r /\ forall v, v ∈ r <-> v ∈ acc \/ v ∈ map vn l).
    { induction l as [|row l IH]; intros acc Hacc; cbn; [split; [done|]; intros v; split; [by left|by intros [?|?%not_elem_of_nil]]|].
      case_bool_decide as E.
      - destruct (IH acc Hacc) as [H1 H2]. split; [done|]. intros v. rewrite H2, elem_of_cons. naive_solver.
      - destruct (IH (acc ++ [vn row])) as [H1 H2].
        + apply NoDup_app. split_and!; [done| |apply NoDup_singleton]. intros x Hx ->%list_elem_of_singleton. done.
        + split; [done|]. intros v. rewrite H2, elem_of_app, !elem_of_cons, elem_of_nil. naive_solver. }
    destruct (G rows []) as [H1 H2]; [constructor|]. split; [done|]. intros v. rewrite H2.
    split; [by intros [?%not_elem_of_nil|?]|by right].
  - intros acc i row Hi. rewrite (getData_cell s rows) with (row := row) by done. cbn [mbind res_bind].
    destruct (vn_int _ _ Hi) as (Hz & _). unfold to_int. by rewrite Hz.
Qed.
End varnos.

Lemma hasVarno_ok s v : number_of_varnos_ s = length (varnos_ s) -> hasVarno s v = Ok (bool_decide (v ∈ varnos_ s)).
Proof.
  intros H. unfold hasVarno. rewrite H.
  rewrite (foldM_rows _ (fun found w => Ok (if (found : bool) then true else v =? w))).
  - rewrite foldM_pure. f_equal. clear H. generalize (varnos_ s) as l.
    assert (G : forall l b, foldl (fun found w => if (found : bool) then true else v =? w) b l = b || bool_decide (v ∈ l)).
    { induction l as [|w l IH]; intros b; cbn; [rewrite bool_decide_false by apply not_elem_of_nil; by destruct b|].
      rewrite IH. destruct b; [done|]. cbn. destruct (Z.eqb_spec v w) as [->|E]; cbn.
      - symmetry. apply bool_decide_true, list_elem_of_here.
      - apply bool_decide_ext. rewrite elem_of_cons. naive_solver. }
    intros l. by rewrite G.
  - intros b i w Hi. destruct b; [done|]. by rewrite (vec_at_Some _ _ _ Hi).
Qed.

(** ** Locations

    The rows of a location follow each other: they have the same sequence number
    and there are not more of them than [maxc] channels, if that is set; the next
    location has another sequence number or this one is full. *)
Section locations.
Variable sq : list R -> Z.

Fixpoint locations (maxc : Z) (q0 : Z) (k0 : nat) (gs : list (list (list R))) : Prop :=
  match gs with
  | [] => True
  | [] :: _ => False
  | ((row :: rest) as g) :: gs =>
      Forall (fun r => sq r = sq row) rest /\
      (0 < maxc -> Z.of_nat (length g) <= maxc) /\
      (sq row <> q0 \/ 0 < maxc /\ Z.of_nat k0 = maxc) /\
      locations maxc (sq row) (length g) gs
  end.

(** A loop that starts something at the first row of a location and continues
    with the other rows. *)
Definition grouped_step {X} (start cont : X -> list R -> res X) s (st : X * Z * nat) row : res (X * Z * nat) :=
  let '(x, q, k) := st in
  if new_location s q (sq row) (S k) then x' ← start x row; Ok (x', sq row, 1%nat)
  else x' ← cont x row; Ok (x', q, S k).

Definition group_step {X} (start cont : X -> list R -> res X) (x : X) (g : list (list R)) : res X :=
  match g with
  | [] => Ok x
  | row :: rest => x' ← start x row; foldM cont x' rest
  end.

Lemma grouped_step_same {X} (start cont : X -> list R -> res X) s x k row q : sq row = q ->
  (0 < max_number_channels_ s -> Z.of_nat (S k) <= max_number_channels_ s) ->
  grouped_step start cont s (x, q, k) row = (x' ← cont x row; Ok (x', q, S k)).
Proof.
  intros <- Hk. unfold grouped_step, new_location. rewrite Z.eqb_refl. cbn [negb orb].
  destruct (0 <? max_number_channels_ s) eqn:Hm; cbn [andb]; [|done].
  by rewrite (proj2 (Z.ltb_ge _ _)) by lia.
Qed.

Lemma grouped_step_new {X} (start cont : X -> list R -> res X) s x k row q :
  sq row <> q \/ 0 < max_number_channels_ s /\ Z.of_nat k = max_number_channels_ s ->
  grouped_step start cont s (x, q, k) row = (x' ← start x row; Ok (x', sq row, 1%nat)).
Proof.
  intros H. unfold grouped_step, new_location. destruct (Z.eqb_spec q (sq row)) as [->|E]; cbn [negb orb]; [|done].
  destruct H as [H|[H1 H2]]; [done|]. rewrite (proj2 (Z.ltb_lt _ _) H1), (proj2 (Z.ltb_lt _ (Z.of_nat (S k)))) by lia. done.
Qed.

Lemma grouped_rest {X} (start cont : X -> list R -> res X) s rest q k x x' :
  Forall (fun r => sq r = q) rest -> (0 < max_number_channels_ s -> Z.of_nat (k + length rest) <= max_number_channels_ s) ->
  foldM cont x rest = Ok x' -> foldM (grouped_step start cont s) (x, q, k) rest = Ok (x', q, (k + length rest)%nat).
Proof.
  revert x k. induction rest as [|r rest IH]; intros x k Hq Hk Hf.
  - cbn in Hf |- *. rewrite Nat.add_0_r. by inv_res.
  - apply Forall_cons in Hq as [Hr Hq]. cbn [foldM length] in *. rewrite grouped_step_same by (done || (intros Hm; specialize (Hk Hm); lia)).
    destruct (cont x r) as [y|e]; [|done]. cbn [mbind res_bind] in *.
    rewrite (IH _ _ Hq) by (done || (intros Hm; specialize (Hk Hm); lia)). do 2 f_equal. lia.
Qed.

Lemma grouped_loop {X} (start cont : X -> list R -> res X) s gs q0 k0 x x' :
  locations (max_number_channels_ s) q0 k0 gs -> foldM (group_step start cont) x gs = Ok x' ->
  exists q k, foldM (grouped_step start cont s) (x, q0, k0) (concat gs) = Ok (x', q, k).
Proof.
  revert q0 k0 x. induction gs as [|g gs IH]; intros q0 k0 x Hg Hf.
  - cbn in Hf |- *. inv_res. eauto.
  - destruct g as [|row rest]; [done|]. destruct Hg as (Hr & Hlen & Hnew & Hgs). cbn [concat].
    rewrite foldM_app. cbn [foldM group_step] in Hf |- *. rewrite grouped_step_new by done.
    destruct (start x row) as [y|e]; [|done]. cbn [mbind res_bind] in *.
    destruct (foldM cont y rest) as [z|e] eqn:Hz; [|done]. cbn [mbind res_bind] in Hf.
    rewrite (grouped_rest start cont s rest (sq row) 1 y z) by (done || intros; by apply Hlen).
    cbn [mbind res_bind]. by apply IH.
Qed.

(** The locations are not empty. *)
Lemma locations_nonempty maxc q0 k0 gs : locations maxc q0 k0 gs -> Forall (fun g => g <> []) gs.
Proof.
  revert q0 k0. induction gs as [|g gs IH]; intros q0 k0 H; [constructor|]. destruct g as [|row rest]; [done|].
  destruct H as (_ & _ & _ & H). constructor; [done|]. by eapply IH.
Qed.

Section counted.
Variables (s : DataFromSQL R) (rows : list (list R)).
Hypothesis Hload : loaded s rows.
Hypothesis Hseqno : "seqno" ∈ columns_ s.
Hypothesis Hsq : Forall (fun row => is_int (cell (columns_ s) "seqno" row) (sq row)) rows.

Lemma seqno_at i row : rows !! i = Some row ->
  (x ← getData s i (getColumnIndex s "seqno"); to_size x) = Ok (sq row).
Proof.
  intros Hi. rewrite (getData_cell s rows) with (row := row) by done. cbn [mbind res_bind].
  rewrite Forall_lookup in Hsq. destruct (Hsq _ _ Hi) as (_ & H & _). unfold to_size. by rewrite H.
Qed.

(** Every group of stations but those with a location per level counts the
    locations. *)
Lemma count_locations_ok gs nv : location_per_level s = false -> rows = concat gs ->
  locations (max_number_channels_ s) no_seqno 0 gs -> count_locations s (length rows) nv = Ok (length gs).
Proof.
  intros Hl E Hg. unfold count_locations. unfold location_per_level in Hl.
  apply orb_false_iff in Hl as [Hl Hgn]. apply orb_false_iff in Hl as [Hl _]. rewrite Hl, Hgn. cbn [orb].
  destruct (grouped_loop (fun n _ => Ok (S n)) (fun n _ => Ok n) s gs no_seqno 0 0%nat (length gs) Hg) as (q & k & Hf).
  { pose proof (locations_nonempty _ _ _ _ Hg) as Hne. clear Hg E Hload Hsq.
    change (length gs) with (0 + length gs)%nat. generalize 0%nat. induction Hne as [|g gs Hg _ IH]; intros n; cbn [foldM].
    - cbn. f_equal. lia.
    - destruct g as [|r rest]; [done|]. cbn [group_step mbind res_bind].
      replace (foldM (fun (n : nat) (_ : list R) => Ok n) (S n) rest) with (Ok (S n)).
      { cbn [mbind res_bind]. rewrite IH. cbn [length]. f_equal. lia. }
      clear. by induction rest. }
  rewrite (foldM_rows _ (grouped_step (fun n _ => Ok (S n)) (fun n _ => Ok n) s) rows).
  - rewrite E, Hf. done.
  - intros [[n q1] k1] i row Hi. unfold count_step, grouped_step.
    pose proof (seqno_at i row Hi) as Hx. destruct (getData s i (getColumnIndex s "seqno")) as [x|e]; [|done].
    cbn [mbind res_bind] in Hx |- *. rewrite Hx. cbn [mbind res_bind]. by destruct (new_location s q1 (sq row) (S k1)).
Qed.

(** ** Metadata columns *)

Section metadata.
Context {T : Type} (ot : OdbType R T) (name : string) (vn : list R -> Z) (val : list R -> T).
Hypothesis Hname : name ∈ columns_ s.
Hypothesis Hvarno : "varno" ∈ columns_ s.
Hypothesis Hvn : Forall (fun row => is_int (cell (columns_ s) "varno" row) (vn row)) rows.
Hypothesis Hval : Forall (fun row => ot_of ot (cell (columns_ s) name row) = Ok (val row)) rows.

Definition absent (x : T) : bool := ot_eqb ot x (ot_missing ot).

(** The first value of a location that is not missing. *)
Definition first_value (g : list (list R)) : T :=
  default (ot_missing ot) (List.find (fun x => negb (absent x)) (map val g)).

(** The search for the value of a location: it starts with its first row and goes
    on while it is looking, which it may still be from an earlier location. *)
Definition search_step (x : T * bool) row : T * bool :=
  if (snd x : bool) then (val row, absent (val row)) else x.
Definition search (looking : bool) (g : list (list R)) : T * bool :=
  match g with
  | [] => (ot_missing ot, looking)
  | row :: rest => fold_left search_step rest (val row, if absent (val row) then true else looking)
  end.
Fixpoint searches (looking : bool) (gs : list (list (list R))) : list T :=
  match gs with
  | [] => []
  | g :: gs => fst (search looking g) :: searches (snd (search looking g)) gs
  end.

Definition meta_start (x : list T * nat * bool) row : res (list T * nat * bool) :=
  let '(arr, j, looking) := x in
  arr ← vec_set arr j (val row);
  Ok (arr, S j, if absent (val row) then true else looking).
Definition meta_cont (x : list T * nat * bool) row : res (list T * nat * bool) :=
  let '(arr, j, looking) := x in
  if (looking : bool) then arr ← vec_set arr (j - 1) (val row); Ok (arr, j, absent (val row))
  else Ok (arr, j, false).

Definition meta_state (t : list T * nat * bool * Z * nat) : MetaState T :=
  let '(arr, j, looking, q, k) := t in
  {| ms_arr := arr; ms_seqno := q; ms_j := j; ms_chan := k; ms_looking := looking |}.

Lemma metadata_loop t : location_per_level s = false ->
  foldM (metadata_step ot s (getColumnIndex s name) (getColumnIndex s "seqno") (getColumnIndex s "varno"))
    (meta_state t) (seq 0 (length rows)) =
  meta_state <$> foldM (grouped_step meta_start meta_cont s) t rows.
Proof.
  intros Hl. rewrite <-(foldM_rows (fun t i => row ← vec_get rows i; grouped_step meta_start meta_cont s t row)).
  - apply foldM_sim. clear t. intros [[[[arr j] looking] q] k] i Hi. rewrite elem_of_seq in Hi.
    destruct (lookup_lt_is_Some_2 rows i) as [row Hrow]; [lia|]. rewrite (vec_get_Some _ _ _ Hrow). cbn [mbind res_bind].
    unfold metadata_step. pose proof (seqno_at i row Hrow) as Hq.
    destruct (getData s i (getColumnIndex s "seqno")) as [y|e]; [|done]. cbn [mbind res_bind] in Hq |- *. rewrite Hq.
    cbn [mbind res_bind]. rewrite (getData_cell s rows "varno" i row) by done. cbn [mbind res_bind].
    assert (Hv : to_int (cell (columns_ s) "varno" row) = Ok (vn row)).
    { rewrite Forall_lookup in Hvn. destruct (Hvn _ _ Hrow) as (H & _). unfold to_int. by rewrite H. }
    rewrite Hv, Hl, (getData_cell s rows name i row) by done. cbn [mbind res_bind].
    rewrite (proj1 (Forall_lookup _ _) Hval _ _ Hrow). unfold grouped_step, meta_start, meta_cont, absent.
    cbn [mbind res_bind meta_state ms_arr ms_seqno ms_j ms_chan ms_looking].
    destruct (new_location s q (sq row) (S k)).
    + by destruct (vec_set arr j (val row)).
    + destruct looking; [|done]. by destruct (vec_set arr (j - 1) (val row)).
  - intros t' i row Hi. by rewrite (vec_get_Some _ _ _ Hi).
Qed.

Lemma meta_rest rest arr j x looking : (j < length arr)%nat ->
  foldM meta_cont (<[j := x]> arr, S j, looking) rest =
  Ok (<[j := fst (fold_left search_step rest (x, looking))]> arr, S j, snd (fold_left search_step rest (x, looking))).
Proof.
  intros Hj. revert x looking. induction rest as [|row rest IH]; intros x looking; [done|].
  cbn [foldM fold_left]. unfold meta_cont at 2, search_step at 2 4. cbn [fst snd]. destruct looking; [|by rewrite <-IH].
  rewrite Nat.sub_succ, Nat.sub_0_r, vec_set_lt by (by rewrite length_insert). cbn [mbind res_bind].
  by rewrite list_insert_insert_eq, IH.
Qed.

Lemma meta_group g arr j looking : (j < length arr)%nat -> g <> [] ->
  group_step meta_start meta_cont (arr, j, looking) g = Ok (<[j := fst (search looking g)]> arr, S j, snd (search looking g)).
Proof.
  intros Hj Hg. destruct g as [|row rest]; [done|]. cbn [group_step meta_start search]. rewrite vec_set_lt by done.
  cbn [mbind res_bind]. by apply meta_rest.
Qed.

Lemma meta_groups gs (don : list T) looking : Forall (fun g => g <> []) gs ->
  exists looking', foldM (group_step meta_start meta_cont) (don ++ replicate (length gs) (ot_missing ot), length don, looking) gs =
    Ok (don ++ searches looking gs, length don + length gs, looking')%nat.
Proof.
  revert don looking. induction gs as [|g gs IH]; intros don looking Hg; cbn [foldM length replicate searches].
  - exists looking. by rewrite Nat.add_0_r.
  - apply Forall_cons in Hg as [Hg Hgs]. rewrite meta_group by (done || (rewrite length_app; cbn; lia)).
    cbn [mbind res_bind]. rewrite insert_app_r_alt, Nat.sub_diag by lia. cbn [insert list_insert].
    destruct (IH (don ++ [fst (search looking g)]) (snd (search looking g)) Hgs) as [l Hl].
    rewrite <-!app_assoc, length_app in Hl. cbn [length app] in Hl. rewrite Nat.add_1_r in Hl.
    exists l. rewrite Hl. do 2 f_equal. f_equal. lia.
Qed.

Lemma metadata_column_ok gs : location_per_level s = false -> rows = concat gs ->
  locations (max_number_channels_ s) no_seqno 0 gs -> number_of_metadata_rows_ s = length gs ->
  getNumericMetadataColumn ot s name = Ok (searches false gs).
Proof.
  intros Hl E Hg Hn. unfold getNumericMetadataColumn. rewrite Hn, (ld_rows _ _ Hload).
  pose proof (metadata_loop (replicate (length gs) (ot_missing ot), 0%nat, false, no_seqno, 0%nat) Hl) as Hloop.
  destruct (index_of_Some _ _ Hname) as (c & Hc & _). unfold getColumnIndex in Hloop at 1 |- * at 1. rewrite Hc in *.
  cbn [meta_state] in Hloop. rewrite Hloop.
  destruct (meta_groups gs [] false (locations_nonempty _ _ _ _ Hg)) as [l Hm].
  destruct (grouped_loop meta_start meta_cont s gs no_seqno 0 (replicate (length gs) (ot_missing ot), 0%nat, false) _ Hg Hm)
    as (q & k & Hf).
  rewrite E, Hf. done.
Qed.

(** *** What the search finds *)

Definition present (g : list (list R)) : Prop := Exists (fun row => absent (val row) = false) g.

Lemma search_stops rest x : fold_left search_step rest (x, false) = (x, false).
Proof. by induction rest. Qed.

Lemma search_goes rest x y : List.find (fun y => negb (absent y)) (map val rest) = Some y ->
  fold_left search_step rest (x, true) = (y, false).
Proof.
  revert x. induction rest as [|row rest IH]; intros x Hy; [done|]. cbn [map List.find fold_left search_step snd] in Hy |- *.
  destruct (absent (val row)); cbn [negb] in Hy; [by apply IH|]. simplify_eq. apply search_stops.
Qed.

Lemma search_present g : present g -> search false g = (first_value g, false).
Proof.
  intros Hex. assert (Hf : exists x, List.find (fun x => negb (absent x)) (map val g) = Some x).
  { induction Hex as [row g H|row g H IH]; cbn [map List.find]; [rewrite H; eauto|]. destruct (negb (absent (val row))); eauto. }
  destruct Hf as [x Hx]. unfold first_value. rewrite Hx. cbn [default from_option id].
  destruct g as [|row rest]; [done|]. cbn [search map List.find] in Hx |- *. destruct (absent (val row)); cbn [negb] in Hx.
  - by apply search_goes.
  - simplify_eq. apply search_stops.
Qed.

(** Whatever is found is a value of the location. *)
Lemma search_elem g (looking : bool) : g <> [] -> exists row, row ∈ g /\ fst (search looking g) = val row.
Proof.
  intros Hg. destruct g as [|row rest]; [done|]. cbn [search]. generalize (if absent (val row) then true else looking). intros l.
  revert row l Hg. induction rest as [|row' rest IH]; intros row l _; cbn [fold_left].
  - exists row. split; [apply list_elem_of_here|done].
  - unfold search_step at 2. cbn [fst snd]. destruct l.
    + destruct (IH row' (absent (val row')) ltac:(done)) as (r & Hr & E). exists r. split; [by apply list_elem_of_further|done].
    + destruct (IH row false ltac:(done)) as (r & Hr & E). exists r. split; [|done].
      apply elem_of_cons in Hr as [->|Hr]; [apply list_elem_of_here|]. by do 2 apply list_elem_of_further.
Qed.

Lemma searches_length gs looking : length (searches looking gs) = length gs.
Proof. revert looking. induction gs as [|g gs IH]; intros looking; [done|]. cbn. by rewrite IH. Qed.

Lemma searches_elem gs looking i g : gs !! i = Some g -> g <> [] ->
  exists row, row ∈ g /\ searches looking gs !! i = Some (val row).
Proof.
  revert looking i. induction gs as [|g' gs IH]; intros looking i Hi Hg; [done|]. destruct i as [|i]; cbn in Hi |- *; [|by apply IH].
  simplify_eq. destruct (search_elem g looking Hg) as (row & Hr & ->). by exists row.
Qed.

Lemma searches_present gs i g : gs !! i = Some g -> Forall present (take (S i) gs) ->
  searches false gs !! i = Some (first_value g).
Proof.
  revert i. induction gs as [|g' gs IH]; intros i Hi HF; [done|]. rewrite firstn_cons in HF. apply Forall_cons in HF as [Hg' HF].
  cbn [searches]. rewrite (search_present g' Hg'). destruct i as [|i]; cbn in Hi |- *; [by simplify_eq|]. by apply IH.
Qed.
End metadata.
End counted.
End locations.
End rows.
