(* ===== verification/OdbVarnoSpec.v ===== *)
(** The columns of a varno of an ODB query: for every location the values of
    each varno in turn, in the order of the rows of the location. *)
From stdpp Require Import base list gmap strings sorting.
From Stdlib Require Import ZArith.
From S2P Require Import Prelude Selection VarAttrStore ObsTypes ObsVariables ObsFrame ObsFrameRead ObsRecords ObsVector ObsDataVector OdbData OdbDataSpec.
Local Open Scope Z_scope.

(** A loop that writes every element of an array. *)
Lemma indexed_fill {A} (get : nat -> res A) (h : nat -> A) (arr : list A) :
  (forall j, (j < length arr)%nat -> get j = Ok (h j)) ->
  foldM (fun arr j => x ← get j; vec_set arr j x) arr (seq 0 (length arr)) = Ok (map h (seq 0 (length arr))).
Proof.
  intros Hg. destruct (foldM_ind (fun arr j => x ← get j; vec_set arr j x)
    (fun don a => a = map h don ++ drop (length don) arr) arr (seq 0 (length arr))) as (a & Hf & Ha).
  - done.
  - intros don j a -> Hpre. pose proof (prefix_length _ _ Hpre) as Hlen. rewrite length_app, length_seq in Hlen. cbn [length] in Hlen.
    assert (Hj : j = length don).
    { destruct Hpre as [rest Hp]. assert (Hl : seq 0 (length arr) !! length don = Some j)
        by (rewrite Hp, <-app_assoc; by apply list_lookup_middle).
      apply lookup_seq in Hl. lia. }
    subst j. rewrite Hg by lia. cbn [mbind res_bind]. destruct (drop (length don) arr) as [|y post] eqn:E.
    + apply (f_equal length) in E. rewrite length_drop in E. cbn in E. lia.
    + rewrite vec_set_middle by (by rewrite length_map). eexists. split; [reflexivity|].
      rewrite map_app, length_app, Nat.add_1_r, <-app_assoc. cbn [map app]. do 2 f_equal.
      rewrite <-Nat.add_1_r, <-drop_drop, E. done.
  - rewrite Hf, Ha, length_seq, drop_all. by rewrite app_nil_r.
Qed.

Section varno_column.
Context {R F : Type} `{OD : OdbDouble R F} `{FO : FloatOps F}.
Variables (s : DataFromSQL R) (gs : list (list (list R))) (vn : list R -> Z) (varnos : list Z) (k : Z -> nat).
Let rows := concat gs.
Hypothesis Hload : loaded s rows.
Hypothesis Hvarno : "varno" ∈ columns_ s.
Hypothesis Hvn : Forall (fun row => is_int (cell (columns_ s) "varno" row) (vn row)) rows.
Hypothesis Hgs : gs <> [].
Hypothesis Hmeta : number_of_metadata_rows_ s = length gs.
Hypothesis Hdistinct : NoDup varnos.
Hypothesis Hrange : Forall (fun v => 0 <= v < 2 ^ 31) varnos.
(** Every location has the same number of rows of a varno. *)
Hypothesis Hregular : forall v g, v ∈ varnos -> g ∈ gs -> length (rows_with vn v g) = k v.
Hypothesis Hpositive : forall v, v ∈ varnos -> (0 < k v)%nat.

Lemma rows_with_concat v (l : list (list (list R))) : rows_with vn v (concat l) = concat (map (rows_with vn v) l).
Proof. induction l as [|g l IH]; [done|]. cbn [concat map]. unfold rows_with in *. by rewrite List.filter_app, IH. Qed.

Lemma rows_count v : v ∈ varnos -> numberOfRowsForVarno s v = Ok (length gs * k v)%nat.
Proof.
  intros Hv. rewrite (numberOfRowsForVarno_ok s rows vn) by (done || (rewrite list.Forall_forall in Hrange; by apply Hrange)).
  unfold rows. rewrite rows_with_concat, (length_concat_map_uniform _ (k v)); [done|]. intros g Hg. by apply Hregular.
Qed.

Lemma varno_sizes_ok : exists m, varno_sizes s varnos = Ok m /\ forall v, v ∈ varnos -> m !! v = Some (k v).
Proof.
  destruct (foldM_ind (fun (m : gmap Z nat) varno =>
      n ← numberOfRowsForVarno s varno;
      q ← div_size n (number_of_metadata_rows_ s);
      Ok (<[varno := if obsgroup_ s =? obsgroup_surfacecloud then q else at_least_one q]> m))
    (fun don m => forall v, v ∈ don -> m !! v = Some (k v)) ∅ varnos) as (m & Hm & HI).
  - by intros v Hv%not_elem_of_nil.
  - intros don v m IH Hpre. assert (Hv : v ∈ varnos).
    { destruct Hpre as [rest ->]. rewrite !elem_of_app, list_elem_of_singleton. tauto. }
    rewrite rows_count by done. cbn [mbind res_bind]. unfold div_size. rewrite Hmeta.
    assert (length gs <> 0)%nat by (by destruct gs).
    rewrite (proj2 (Nat.eqb_neq _ _)), Nat.mul_comm, Nat.div_mul by done. cbn [mbind res_bind].
    eexists. split; [reflexivity|]. intros w Hw. pose proof (Hpositive v Hv).
    replace (if obsgroup_ s =? obsgroup_surfacecloud then k v else at_least_one (k v)) with (k v)
      by (unfold at_least_one; destruct (obsgroup_ s =? obsgroup_surfacecloud); lia).
    destruct (decide (w = v)) as [->|Hne]; [apply lookup_insert_eq|]. rewrite lookup_insert_ne by done. apply IH.
    rewrite elem_of_app, list_elem_of_singleton in Hw. tauto.
  - exists m. split; [exact Hm|done].
Qed.

Definition row_at (i : nat) : list R := default [] (rows !! i).

(** The rows of a varno, by their indices. *)
Definition indices_with (v : Z) : list nat := List.filter (fun i => vn (row_at i) =? v) (seq 0 (length rows)).

Lemma indices_with_rows v : map row_at (indices_with v) = rows_with vn v rows.
Proof.
  unfold indices_with, row_at, rows_with. generalize rows. intros l.
  assert (G : forall post pre, l = pre ++ post ->
    map (fun i => default [] (l !! i)) (List.filter (fun i => vn (default [] (l !! i)) =? v) (seq (length pre) (length post)))
    = List.filter (fun row => vn row =? v) post).
  { induction post as [|x post IH]; intros pre E; [done|]. cbn [length seq List.filter].
    specialize (IH (pre ++ [x])). rewrite length_app, Nat.add_1_r in IH.
    assert (Hx : l !! length pre = Some x) by (rewrite E; by apply list_lookup_middle).
    rewrite Hx. cbn [default from_option id]. destruct (vn x =? v); cbn [map].
    - rewrite Hx. cbn [default from_option id]. f_equal. apply IH. by rewrite <-app_assoc.
    - apply IH. by rewrite <-app_assoc. }
  exact (G l [] eq_refl).
Qed.

Lemma varno_orders_ok : exists m, varno_orders s (getColumnIndex s "varno") varnos = Ok m /\
  forall v, v ∈ varnos -> zvec v m = indices_with v.
Proof.
  set (put := fun (v : Z) (m : gmap Z (list nat)) i => if vn (row_at i) =? v then zpush v i m else m).
  assert (Hput : forall v l m w, zvec w (foldl (put v) m l) =
    if decide (w = v) then zvec w m ++ List.filter (fun i => vn (row_at i) =? v) l else zvec w m).
  { intros v l. induction l as [|i l IH]; intros m w; cbn [foldl List.filter].
    - destruct (decide (w = v)); [by rewrite app_nil_r|done].
    - rewrite IH. unfold put at 1 2. destruct (vn (row_at i) =? v) eqn:E; [|done]. unfold zvec, zpush.
      destruct (decide (w = v)) as [->|Hne].
      + rewrite lookup_insert_eq. cbn [default from_option id]. by rewrite <-app_assoc.
      + by rewrite lookup_insert_ne. }
  destruct (foldM_ind (fun (m : gmap Z (list nat)) varno => foldM (fun m irow =>
        d ← getData s irow (getColumnIndex s "varno");
        Ok (if od_eq_int d varno then zpush varno irow m else m)) m (seq 0 (number_of_rows_ s)))
    (fun don m => forall v, zvec v m = if decide (v ∈ don) then indices_with v else []) ∅ varnos) as (m & Hm & HI).
  - intros v. by rewrite decide_False by apply not_elem_of_nil.
  - intros don v m IH Hpre. exists (foldl (put v) m (seq 0 (length rows))). split.
    + rewrite (ld_rows _ _ Hload), <-foldM_pure. apply foldM_ext. intros m' i Hi. rewrite elem_of_seq in Hi.
      destruct (lookup_lt_is_Some_2 rows i) as [row Hrow]; [lia|].
      rewrite (getData_cell s rows _ _ row) by done. cbn [mbind res_bind]. unfold put, row_at. rewrite Hrow.
      rewrite Forall_lookup in Hvn. destruct (Hvn _ _ Hrow) as (_ & _ & _ & ->). done.
    + intros w. rewrite Hput, IH. assert (Hnv : v ∉ don).
      { destruct Hpre as [rest Hp]. rewrite Hp, <-app_assoc in Hdistinct. apply NoDup_app in Hdistinct as (_ & H & _).
        intros Hd. apply (H v Hd). rewrite elem_of_app, list_elem_of_singleton. tauto. }
      destruct (decide (w = v)) as [->|Hne].
      * rewrite decide_False by done. by rewrite decide_True by (rewrite elem_of_app, list_elem_of_singleton; tauto).
      * destruct (decide (w ∈ don)) as [H|H].
        -- by rewrite decide_True by (rewrite elem_of_app; tauto).
        -- rewrite decide_False; [done|]. rewrite elem_of_app, list_elem_of_singleton. tauto.
  - exists m. split; [exact Hm|]. intros v Hv. by rewrite HI, decide_True.
Qed.

(** ** The order of the rows *)

Section order.
Variables (size : gmap Z nat) (order_map : gmap Z (list nat)).
Hypothesis Hsize : forall v, v ∈ varnos -> size !! v = Some (k v).
Hypothesis Horder : forall v, v ∈ varnos -> zvec v order_map = indices_with v.

(** The rows taken so far. *)
Definition taken (order : list nat) (l : list (list R)) : Prop :=
  map row_at order = l /\ Forall (fun i => (i < length rows)%nat) order.

Lemma taken_snoc order l i row : taken order l -> (i < length rows)%nat -> row_at i = row -> taken (order ++ [i]) (l ++ [row]).
Proof.
  intros [H1 H2] Hi Hr. split; [rewrite map_app, H1; cbn; by rewrite Hr|]. apply Forall_app. split; [done|by constructor].
Qed.

(** The j-th row of a varno of a location. *)
Lemma order_lookup v i g j row : v ∈ varnos -> gs !! i = Some g -> rows_with vn v g !! j = Some row ->
  exists irow, vec_get (zvec v order_map) (i * k v + j)%nat = Ok irow /\ row_at irow = row /\ (irow < length rows)%nat.
Proof.
  intros Hv Hi Hj. rewrite (Horder v Hv).
  assert (H : map row_at (indices_with v) !! (i * k v + j)%nat = Some row).
  { rewrite indices_with_rows. unfold rows. rewrite rows_with_concat.
    eapply lookup_concat_map_uniform; [|done|done]. intros g' Hg'. by apply Hregular. }
  rewrite list_lookup_fmap in H. apply fmap_Some in H as (irow & Hrow & ->). exists irow. split; [by apply vec_get_Some|].
  split; [done|]. apply list_elem_of_lookup_2 in Hrow. unfold indices_with in Hrow.
  apply elem_of_List_filter in Hrow as [Hrow _]. rewrite elem_of_seq in Hrow. lia.
Qed.

Definition take_step v (st : gmap Z nat * list nat) (_ : nat) : res (gmap Z nat * list nat) :=
  let '(current, order) := st in
  let c := default 0%nat (current !! v) in
  irow ← vec_get (zvec v order_map) c;
  Ok (<[v := S c]> current, order ++ [irow]).

Lemma take_varno v i g current order l : v ∈ varnos -> gs !! i = Some g -> current !! v = Some (i * k v)%nat ->
  taken order l -> exists current' order', foldM (take_step v) (current, order) (seq 0 (k v)) = Ok (current', order') /\
    current' !! v = Some (S i * k v)%nat /\ (forall w, w <> v -> current' !! w = current !! w) /\
    taken order' (l ++ rows_with vn v g).
Proof.
  intros Hv Hi Hc Ht.
  destruct (foldM_ind (take_step v) (fun don st => let '(current', order') := st in
      current' !! v = Some (i * k v + length don)%nat /\ (forall w, w <> v -> current' !! w = current !! w) /\
      taken order' (l ++ take (length don) (rows_with vn v g))) (current, order) (seq 0 (k v)))
    as ([current' order'] & Hf & H1 & H2 & H3).
  - cbn [length take]. rewrite Nat.add_0_r, app_nil_r. done.
  - intros don x [c o] (H1 & H2 & H3) Hpre. apply prefix_length in Hpre. rewrite length_app, length_seq in Hpre. cbn [length] in Hpre.
    assert (Hl : length (rows_with vn v g) = k v) by (apply Hregular; [done|by eapply list_elem_of_lookup_2]).
    destruct (lookup_lt_is_Some_2 (rows_with vn v g) (length don)) as [row Hrow]; [lia|].
    destruct (order_lookup v i g (length don) row Hv Hi Hrow) as (irow & Hg & Hr & Hlt).
    unfold take_step. rewrite H1. cbn [default from_option id]. rewrite Hg. cbn [mbind res_bind].
    eexists. split; [reflexivity|]. rewrite length_app. cbn [length]. rewrite lookup_insert_eq. split_and!.
    + f_equal. lia.
    + intros w Hw. rewrite lookup_insert_ne by done. by apply H2.
    + rewrite Nat.add_1_r, (take_S_r _ _ row) by done. rewrite app_assoc. by apply taken_snoc.
  - exists current', order'. rewrite length_seq in H1, H3. split_and!; [done| |done|].
    + rewrite H1. f_equal. lia.
    + rewrite take_ge in H3; [done|]. rewrite Hregular; [done|done|by eapply list_elem_of_lookup_2].
Qed.

Definition location_rows (g : list (list R)) : list (list R) := concat (map (fun v => rows_with vn v g) varnos).

Definition varno_step (st : gmap Z nat * list nat) v : res (gmap Z nat * list nat) :=
  foldM (take_step v) st (seq 0 (default 0%nat (size !! v))).

Lemma take_location i g current order l : gs !! i = Some g -> (forall v, v ∈ varnos -> current !! v = Some (i * k v)%nat) ->
  taken order l -> exists current' order', foldM varno_step (current, order) varnos = Ok (current', order') /\
    (forall v, v ∈ varnos -> current' !! v = Some (S i * k v)%nat) /\ taken order' (l ++ location_rows g).
Proof.
  intros Hi Hc Ht.
  destruct (foldM_ind varno_step (fun don st => let '(current', order') := st in
      (forall v, v ∈ varnos -> current' !! v = Some ((if decide (v ∈ don) then S i else i) * k v)%nat) /\
      taken order' (l ++ concat (map (fun v => rows_with vn v g) don))) (current, order) varnos)
    as ([current' order'] & Hf & H1 & H2).
  - cbn [map concat]. rewrite app_nil_r. split; [|done]. intros v Hv. rewrite decide_False by apply not_elem_of_nil. by apply Hc.
  - intros don v [c o] (H1 & H2) Hpre. assert (Hv : v ∈ varnos /\ v ∉ don).
    { destruct Hpre as [rest Hp]. split; [rewrite Hp, !elem_of_app, list_elem_of_singleton; tauto|].
      rewrite Hp, <-app_assoc in Hdistinct. apply NoDup_app in Hdistinct as (_ & H & _).
      intros Hd. apply (H v Hd). rewrite elem_of_app, list_elem_of_singleton. tauto. }
    destruct Hv as [Hv Hnd]. pose proof (H1 v Hv) as Hcv. rewrite decide_False in Hcv by done.
    destruct (take_varno v i g c o _ Hv Hi Hcv H2) as (c' & o' & Hf & Hc' & Hother & Ht').
    unfold varno_step. rewrite (Hsize v Hv). cbn [default from_option id]. rewrite Hf. eexists. split; [reflexivity|]. split.
    + intros w Hw. destruct (decide (w = v)) as [->|Hne].
      * by rewrite decide_True by (rewrite elem_of_app, list_elem_of_singleton; tauto).
      * rewrite Hother, H1 by done. f_equal. f_equal. apply decide_ext. rewrite elem_of_app, list_elem_of_singleton. tauto.
    + rewrite map_app, concat_app. cbn [map concat]. by rewrite app_nil_r, app_assoc.
  - exists current', order'. split_and!; [done| |done]. intros v Hv. by rewrite (H1 v Hv), decide_True.
Qed.

Lemma varno_index_orders_ok : exists order, varno_index_orders s varnos size order_map = Ok order /\
  taken order (concat (map location_rows gs)).
Proof.
  unfold varno_index_orders. rewrite Hmeta.
  destruct (foldM_ind (fun st (_ : nat) => foldM varno_step st varnos)
    (fun don st => let '(current, order) := st in
      (forall v, v ∈ varnos -> current !! v = Some (length don * k v)%nat) /\
      taken order (concat (map location_rows (take (length don) gs))))
    (list_to_map (map (fun v => (v, 0%nat)) varnos), []) (seq 0 (length gs))) as ([current order] & Hf & H1 & H2).
  - split; [|done]. intros v Hv. apply elem_of_list_to_map_1'.
    + intros y Hy. apply list_elem_of_fmap in Hy as (w & [= _ ->] & _). done.
    + apply list_elem_of_fmap. by exists v.
  - intros don x [c o] (H1 & H2) Hpre. apply prefix_length in Hpre. rewrite length_app, length_seq in Hpre. cbn [length] in Hpre.
    destruct (lookup_lt_is_Some_2 gs (length don)) as [g Hg]; [lia|].
    destruct (take_location (length don) g c o _ Hg H1 H2) as (c' & o' & Hf & Hc' & Ht).
    eexists. split; [exact Hf|]. rewrite length_app. cbn [length]. rewrite Nat.add_1_r. split; [done|].
    rewrite (take_S_r _ _ g), map_app, concat_app by done. cbn [map concat]. by rewrite app_nil_r.
  - unfold varno_step, take_step in Hf. rewrite Hf. cbn [mbind res_bind snd]. exists order. split; [done|].
    rewrite length_seq, take_ge in H2 by lia. done.
Qed.
End order.

(** ** The values *)

Section values.
Context {T : Type} (ot : OdbType R T) (name : string) (val : list R -> T).
Hypothesis Hname : name ∈ columns_ s.
Hypothesis Hval : Forall (fun row => ot_of ot (cell (columns_ s) name row) = Ok (val row)) rows.
Hypothesis Hgroup : obsgroup_ s <> obsgroup_surface /\ obsgroup_ s <> obsgroup_aircraft.

Lemma varno_column_ok nact : getVarnoColumn ot s varnos name 1 nact = Ok (map val (concat (map location_rows gs))).
Proof.
  unfold getVarnoColumn. destruct Hgroup as [Hg1 Hg2].
  rewrite (proj2 (Z.eqb_neq _ _) Hg1), (proj2 (Z.eqb_neq _ _) Hg2). cbn [orb].
  change (1 <? 1) with false. change (1 =? 1) with true. cbv iota.
  assert (Hn : exists n, foldM (fun n it => k0 ← numberOfRowsForVarno s it; Ok (n + k0)%nat) 0%nat varnos = Ok n).
  { destruct (foldM_ind (fun n it => k0 ← numberOfRowsForVarno s it; Ok (n + k0)%nat) (fun _ _ => True) 0%nat varnos) as (n & Hn & _).
    - done.
    - intros don v n _ Hpre. rewrite rows_count; [by eexists|]. destruct Hpre as [rest ->].
      rewrite !elem_of_app, list_elem_of_singleton. tauto.
    - by exists n. }
  destruct Hn as [n ->]. destruct varno_sizes_ok as (size & -> & Hsize). destruct varno_orders_ok as (om & -> & Hom).
  cbn [mbind res_bind]. destruct (varno_index_orders_ok size om Hsize Hom) as (order & -> & Hrows & Hlt).
  cbn [mbind res_bind]. destruct (index_of_Some _ _ Hname) as (c & Hc & _).
  destruct (index_of_Some _ _ Hvarno) as (c' & Hc' & _). unfold getColumnIndex at 1 2. rewrite Hc, Hc'. cbv iota.
  rewrite <-Hrows, map_map.
  pose proof (indexed_fill (fun j => irow ← vec_get order j; d ← getData s irow (getColumnIndex s name); ot_of ot d)
    (fun j => val (row_at (default 0%nat (order !! j)))) (replicate (length order) (ot_missing ot))) as Hfill.
  rewrite length_replicate in Hfill. match type of Hfill with _ -> _ = ?r => transitivity r end; [rewrite <-Hfill|].
  - apply foldM_ext. intros arr j _.
    destruct (vec_get order j) as [irow|e]; [|done]. cbn [mbind res_bind].
    by destruct (getData s irow (getColumnIndex s name)).
  - intros j Hj. destruct (lookup_lt_is_Some_2 order j Hj) as [i Hi]. rewrite (vec_get_Some _ _ _ Hi), Hi.
    cbn [mbind res_bind default from_option id].
    rewrite Forall_lookup in Hlt. destruct (lookup_lt_is_Some_2 rows i (Hlt _ _ Hi)) as [row Hrow].
    rewrite (getData_cell s rows _ _ row) by done. cbn [mbind res_bind]. unfold row_at. rewrite Hrow.
    by apply (proj1 (Forall_lookup _ _) Hval _ _ Hrow).
  - f_equal. apply list_eq. intros j. rewrite !list_lookup_fmap. destruct (decide (j < length order)%nat) as [Hj|Hj].
    + rewrite lookup_seq_lt by done. destruct (lookup_lt_is_Some_2 order j Hj) as [i Hi]. cbn. by rewrite Hi.
    + rewrite lookup_seq_ge, lookup_ge_None_2 by lia. done.
Qed.
End values.
End varno_column.
