(* ===== verification/OdbTruncateSpec.v ===== *)
(** The truncation of profiles to their reported levels: of every profile the
    first rows of each varno are kept. *)
From stdpp Require Import base list gmap strings sorting.
From Stdlib Require Import ZArith.
From S2P Require Import Prelude Selection VarAttrStore ObsTypes ObsVariables ObsFrame ObsFrameRead ObsRecords ObsSpaceVars ObsVector ObsDataVector OdbData OdbDataSpec OdbVarnoSpec.
Local Open Scope Z_scope.

(** * Removing sorted indices *)

Lemma remove_indices_none {A} k (col : list A) : remove_indices k [] col = col.
Proof. revert k. induction col as [|x col IH]; intros k; [done|]. cbn. by rewrite IH. Qed.

Lemma remove_indices_map {A B} (f : A -> B) k l (col : list A) : remove_indices k l (map f col) = map f (remove_indices k l col).
Proof.
  revert k l. induction col as [|x col IH]; intros k [|i l]; cbn [map remove_indices]; try done.
  - by rewrite IH.
  - destruct (i =? k)%nat; [done|]. cbn [map]. by rewrite IH.
Qed.

Lemma remove_indices_sel {A} k l (col : list A) : StronglySorted lt l -> Forall (fun i => (k <= i)%nat) l ->
  remove_indices k l col = sel (map (fun i => negb (bool_decide (i ∈ l))) (seq k (length col))) col.
Proof.
  revert k l. induction col as [|x col IH]; intros k l Hs Hk; [done|]. cbn [length seq map sel].
  destruct l as [|i l].
  - rewrite remove_indices_none. rewrite (bool_decide_false (k ∈ [])) by apply not_elem_of_nil. cbn [negb]. f_equal.
    rewrite <-(remove_indices_none (S k) col) at 1. apply IH; constructor.
  - cbn [remove_indices]. pose proof Hs as Hs'. apply StronglySorted_inv in Hs' as [Hs' Hi]. apply Forall_cons in Hk as [Hki Hk].
    rewrite list.Forall_forall in Hi.
    destruct (Nat.eqb_spec i k) as [->|Hne].
    + rewrite bool_decide_true by apply list_elem_of_here. cbn [negb].
      rewrite IH by (done || (rewrite list.Forall_forall; intros j Hj; specialize (Hi j Hj); lia)).
      f_equal. apply map_ext_in. intros j [Hj _]%in_seq. f_equal. apply bool_decide_ext. rewrite elem_of_cons.
      split; [by right|intros [->|?]; [lia|done]].
    + rewrite bool_decide_false by (rewrite elem_of_cons; intros [->|Hj]; [done|specialize (Hi k Hj); lia]).
      cbn [negb]. f_equal. apply IH; [done|]. constructor; [lia|]. rewrite list.Forall_forall. intros j Hj. specialize (Hi j Hj). lia.
Qed.

#[export] Instance ltb_StrictWeak : StrictWeak Nat.ltb.
Proof.
  split.
  - intros x. apply Nat.ltb_irrefl.
  - intros x y z. rewrite !Nat.ltb_lt. lia.
  - intros x y z. rewrite !Nat.ltb_ge. lia.
Qed.

(** [std::sort] of distinct indices is strictly increasing. *)
Lemma sorted_indices (l : list nat) : NoDup l -> StronglySorted lt (std_sort Nat.ltb l).
Proof.
  intros Hnd. pose proof (std_sort_sorted Nat.ltb l) as Hs. rewrite <-(std_sort_perm Nat.ltb l) in Hnd.
  induction Hs as [|x l' Hs IH Hx]; [constructor|]. apply NoDup_cons in Hnd as [Hn Hnd]. constructor; [by apply IH|].
  rewrite list.Forall_forall in Hx |- *. intros y Hy. specialize (Hx y Hy). apply Nat.ltb_ge in Hx.
  assert (x <> y) by (intros ->; done). lia.
Qed.

(** * Slices of the numbers a filter keeps *)

Definition rank (P : nat -> bool) (i : nat) : nat := length (List.filter P (seq 0 i)).

Lemma slice_elem (P : nat -> bool) n x y i :
  i ∈ drop x (take y (List.filter P (seq 0 n))) <-> (i < n)%nat /\ P i = true /\ (x <= rank P i < y)%nat.
Proof.
  assert (Hnd : NoDup (List.filter P (seq 0 n))) by (apply StronglySorted_lt_NoDup; eauto with ioda).
  split.
  - intros H. apply list_elem_of_lookup in H as [r Hr]. rewrite lookup_drop in Hr. apply lookup_take_Some in Hr as [Hr Hlt].
    pose proof (list_elem_of_lookup_2 _ _ _ Hr) as He. apply elem_of_List_filter in He as [He HP]. rewrite elem_of_seq in He.
    split_and!; [lia|done|..]; assert (E : (x + r)%nat = rank P i)
      by (eapply NoDup_lookup; [exact Hnd|exact Hr|]; apply filter_seq_lookup; [lia|done]); lia.
  - intros (Hi & HP & H1 & H2). apply list_elem_of_lookup. exists (rank P i - x)%nat. rewrite lookup_drop.
    replace (x + (rank P i - x))%nat with (rank P i) by lia. rewrite lookup_take_lt by lia. by apply filter_seq_lookup.
Qed.

Lemma slice_NoDup (P : nat -> bool) n x y : NoDup (drop x (take y (List.filter P (seq 0 n)))).
Proof.
  assert (Hnd : NoDup (List.filter P (seq 0 n))) by (apply StronglySorted_lt_NoDup; eauto with ioda).
  eapply sublist_NoDup; [exact Hnd|]. etrans; [apply sublist_drop|apply sublist_take].
Qed.

(** [superfluous] is a slice. *)
Lemma superfluous_ok (idx : list nat) a L n : (a + L <= length idx)%nat ->
  superfluous idx a (a + L) (Z.of_nat n) = Ok (drop (a + n) (take (a + L) idx)).
Proof.
  intros Hl. unfold superfluous. destruct (Z.ltb_spec (Z.of_nat n) (Z.of_nat (a + L) - Z.of_nat a)) as [H|H].
  - assert (E : map (fun k : nat => default 0%nat (idx !! (a + n + k)%nat)) (seq 0 (L - n)) = drop (a + n) (take (a + L) idx)).
    { apply list_eq. intros k. rewrite lookup_drop, list_lookup_fmap. destruct (decide (k < L - n)%nat).
      - rewrite lookup_seq_lt, lookup_take_lt by lia. cbn. destruct (lookup_lt_is_Some_2 idx (a + n + k)) as [z Hz]; [lia|].
        by rewrite Hz.
      - rewrite lookup_seq_ge, lookup_take_ge by lia. done. }
    replace (Z.to_nat (Z.of_nat (a + L) - (Z.of_nat a + Z.of_nat n))) with (L - n)%nat by lia.
    rewrite <-E. apply mapR_Ok. intros k Hk. rewrite elem_of_seq in Hk. unfold vec_get_int.
    rewrite (proj2 (Z.ltb_ge _ _)) by lia. replace (Z.to_nat (Z.of_nat a + Z.of_nat n + Z.of_nat k)) with (a + n + k)%nat by lia.
    destruct (lookup_lt_is_Some_2 idx (a + n + k)) as [z Hz]; [lia|]. by rewrite (vec_get_Some _ _ _ Hz), Hz.
  - rewrite drop_ge; [done|]. rewrite length_take. lia.
Qed.

(** * Profiles *)

Section truncated.
Context {R F : Type} `{OD : OdbDouble R F} `{FO : FloatOps F}.
Variables (s : DataFromSQL R) (ps : list (list (list R))) (vn sq : list R -> Z) (nl : list R -> nat) (vs : list Z)
  (L : list (list R) -> nat).
Local Notation rows := (concat ps).

(** A table of profiles: the rows of a profile follow each other, and for each of
    the varnos there are as many rows as assigned levels. *)
Record profiles_ok : Prop := {
  po_loaded : loaded s rows;
  po_columns : "seqno" ∈ columns_ s /\ "varno" ∈ columns_ s /\ "numlev" ∈ columns_ s;
  po_seqno : Forall (fun row => is_int (cell (columns_ s) "seqno" row) (sq row)) rows;
  po_varno : Forall (fun row => is_int (cell (columns_ s) "varno" row) (vn row)) rows;
  po_numlev : Forall (fun row => od_int (cell (columns_ s) "numlev" row) = Some (Z.of_nat (nl row))) rows;
  po_profiles : locations sq 0 (-1) 0 ps;
  po_varnos : NoDup vs /\ vs <> [] /\ number_of_varnos_ s = length vs;
  po_levels : forall p v, p ∈ ps -> v ∈ vs -> length (rows_with vn v p) = L p;
  po_all : forall row, row ∈ rows -> vn row ∈ vs;
  po_meta : number_of_metadata_rows_ s = sum_list (map L ps)
}.
Hypothesis HP : profiles_ok.

(** The levels reported for a profile, in its first row. *)
Definition reported_levels (p : list (list R)) : nat := match p with row :: _ => nl row | [] => 0 end.

(** The rows of a profile that have fewer rows of the same varno before them
    than there are reported levels. *)
Definition level_mask (p : list (list R)) : list bool :=
  imap (fun t row => (length (rows_with vn (vn row) (take t p)) <? reported_levels p)%nat) p.
Definition reported (p : list (list R)) : list (list R) := sel (level_mask p) p.

Lemma varno_partition (p : list (list R)) : NoDup vs ->
  sum_list (map (fun v => length (rows_with vn v p)) vs) = length (List.filter (fun row => bool_decide (vn row ∈ vs)) p).
Proof.
  clear HP. induction 1 as [|v l Hv Hnd IH].
  - cbn. induction p as [|row p IHp]; [done|]. cbn. by rewrite bool_decide_false by apply not_elem_of_nil.
  - change (sum_list (map (fun v => length (rows_with vn v p)) (v :: l)))
      with (length (rows_with vn v p) + sum_list (map (fun v => length (rows_with vn v p)) l))%nat. rewrite IH. clear IH Hnd.
    unfold rows_with. induction p as [|row p IHp]; [done|]. cbn [List.filter].
    destruct (Z.eqb_spec (vn row) v) as [E|E].
    + rewrite (bool_decide_false (vn row ∈ l)) by (by rewrite E).
      rewrite (bool_decide_true (vn row ∈ v :: l)) by (rewrite E; apply list_elem_of_here). cbn [length]. lia.
    + destruct (bool_decide (vn row ∈ l)) eqn:E2.
      * apply bool_decide_eq_true in E2. rewrite bool_decide_true by (by apply list_elem_of_further). cbn [length]. lia.
      * apply bool_decide_eq_false in E2. rewrite bool_decide_false by (rewrite elem_of_cons; tauto). lia.
Qed.

Lemma profile_length p : p ∈ ps -> length p = (length vs * L p)%nat.
Proof.
  intros Hp. destruct (po_varnos HP) as (Hnd & _ & _). pose proof (varno_partition p Hnd) as E.
  assert (E1 : List.filter (fun row => bool_decide (vn row ∈ vs)) p = p).
  { apply List.forallb_filter_id, List.forallb_forall. intros row Hrow. apply bool_decide_eq_true, (po_all HP).
    apply list_elem_of_In, in_concat. exists p. split; [by apply list_elem_of_In|done]. }
  rewrite E1 in E. rewrite <-E. assert (Hl : forall v, v ∈ vs -> length (rows_with vn v p) = L p) by (intros v Hv; by apply (po_levels HP)).
  clear -Hl. induction vs as [|v l IH]; [done|].
  change (sum_list (map (fun v => length (rows_with vn v p)) (v :: l)))
    with (length (rows_with vn v p) + sum_list (map (fun v => length (rows_with vn v p)) l))%nat.
  rewrite (Hl v) by apply list_elem_of_here. rewrite IH by (intros w Hw; apply Hl; by apply list_elem_of_further). cbn [length]. lia.
Qed.

(** The first level of each profile, counted over the rows of one varno. *)
Fixpoint starts (a : nat) (l : list (list (list R))) : list nat :=
  match l with [] => [] | p :: l => a :: starts (a + L p) l end.

Lemma rows_length (l : list (list (list R))) : (forall p, p ∈ l -> p ∈ ps) -> length (concat l) = (length vs * sum_list (map L l))%nat.
Proof.
  induction l as [|p l IH]; intros Hl; [cbn; lia|]. cbn [concat]. rewrite length_app, IH by (intros q Hq; apply Hl; by apply list_elem_of_further).
  rewrite profile_length by (apply Hl, list_elem_of_here).
  change (sum_list (map L (p :: l))) with (L p + sum_list (map L l))%nat. lia.
Qed.

Lemma int_cell name (f : list R -> Z) i row : name ∈ columns_ s -> rows !! i = Some row ->
  od_int (cell (columns_ s) name row) = Some (f row) -> (x ← getData s i (getColumnIndex s name); to_int x) = Ok (f row).
Proof.
  intros Hn Hi Hx. rewrite (getData_cell s rows _ _ row) by (done || apply HP). cbn [mbind res_bind]. unfold to_int. by rewrite Hx.
Qed.

Lemma profile_rest q initial numlevs (rest pre post : list (list R)) : rows = pre ++ rest ++ post ->
  Forall (fun row => sq row = q) rest ->
  foldM (profile_step s) (initial, numlevs, q) (seq (length pre) (length rest)) = Ok (initial, numlevs, q).
Proof.
  revert pre. induction rest as [|row rest IH]; intros pre E Hq; [done|]. apply Forall_cons in Hq as [Hr Hq].
  cbn [length seq foldM]. assert (Hi : rows !! length pre = Some row) by (rewrite E; by apply list_lookup_middle).
  destruct (po_columns HP) as (HC & _ & _). pose proof (po_seqno HP) as Hs. rewrite Forall_lookup in Hs. destruct (Hs _ _ Hi) as (Hz & _).
  pose proof (int_cell "seqno" sq _ row HC Hi Hz) as Hx. unfold profile_step at 2.
  destruct (getData s (length pre) (getColumnIndex s "seqno")) as [x|e]; [|done]. cbn [mbind res_bind] in Hx |- *.
  rewrite Hx. cbn [mbind res_bind]. rewrite Hr, Z.eqb_refl. cbn [mbind res_bind].
  specialize (IH (pre ++ [row])). rewrite length_app, Nat.add_1_r in IH. apply IH; [by rewrite <-app_assoc|done].
Qed.

Lemma profiles_loop (l pre : list (list (list R))) q k initial numlevs : ps = pre ++ l -> locations sq 0 q k l ->
  exists q', foldM (profile_step s) (initial, numlevs, q) (seq (length (concat pre)) (length (concat l))) =
    Ok (initial ++ starts (sum_list (map L pre)) l, numlevs ++ map (fun p => Z.of_nat (reported_levels p)) l, q').
Proof.
  revert pre q k initial numlevs. induction l as [|p l IH]; intros pre q k initial numlevs E Hloc.
  - exists q. cbn. by rewrite !app_nil_r.
  - destruct p as [|row rest]; [done|]. destruct Hloc as (Hrest & _ & Hne & Hloc). destruct Hne as [Hne|[? _]]; [|lia].
    assert (Hrows : rows = concat pre ++ (row :: rest) ++ concat l) by (rewrite E, concat_app; done).
    assert (Hi : rows !! length (concat pre) = Some row) by (rewrite Hrows; by apply list_lookup_middle).
    destruct (po_columns HP) as (HC1 & _ & HC2). destruct (po_varnos HP) as (_ & Hvne & HV).
    pose proof (po_seqno HP) as Hs. rewrite Forall_lookup in Hs. destruct (Hs _ _ Hi) as (Hz & _).
    pose proof (po_numlev HP) as Hnl. rewrite Forall_lookup in Hnl. specialize (Hnl _ _ Hi).
    pose proof (int_cell "seqno" sq _ row HC1 Hi Hz) as Hx. pose proof (int_cell "numlev" (fun r => Z.of_nat (nl r)) _ row HC2 Hi Hnl) as Hy.
    cbn [concat]. rewrite length_app, seq_app, foldM_app. cbn [length seq foldM]. unfold profile_step at 3.
    destruct (getData s (length (concat pre)) (getColumnIndex s "seqno")) as [x|e]; [|done]. cbn [mbind res_bind] in Hx |- *.
    rewrite Hx. cbn [mbind res_bind]. rewrite (proj2 (Z.eqb_neq q (sq row))) by congruence.
    destruct (getData s (length (concat pre)) (getColumnIndex s "numlev")) as [y|e]; [|done]. cbn [mbind res_bind] in Hy |- *.
    rewrite Hy. cbn [mbind res_bind]. unfold div_size. rewrite HV.
    assert (HV0 : length vs <> 0%nat) by (by destruct vs). rewrite (proj2 (Nat.eqb_neq _ _) HV0). cbn [mbind res_bind].
    rewrite (rows_length pre) by (intros p Hp; rewrite E; apply elem_of_app; by left). rewrite Nat.mul_comm, Nat.div_mul by done.
    rewrite Nat.mul_comm, <-(rows_length pre) by (intros p Hp; rewrite E; apply elem_of_app; by left).
    pose proof (profile_rest (sq row) (initial ++ [sum_list (map L pre)]) (numlevs ++ [Z.of_nat (nl row)]) rest (concat pre ++ [row]) (concat l)) as Hr.
    rewrite length_app, Nat.add_1_r in Hr. rewrite Hr; [|rewrite Hrows, <-app_assoc; done|done]. cbn [mbind res_bind].
    destruct (IH (pre ++ [row :: rest]) (sq row) (length (row :: rest)) (initial ++ [sum_list (map L pre)]) (numlevs ++ [Z.of_nat (nl row)]))
      as (q' & Hq'); [by rewrite <-app_assoc|done|].
    exists q'. rewrite concat_app, length_app in Hq'. cbn [concat length] in Hq'. rewrite app_nil_r in Hq'. cbn [length] in Hq'.
    rewrite Hq'. rewrite map_app, sum_list_with_app. cbn [map]. change (sum_list [L (row :: rest)]) with (L (row :: rest) + 0)%nat.
    rewrite Nat.add_0_r, <-!app_assoc. done.
Qed.

(** ** The indices to remove *)

Lemma starts_lookup a l j p : l !! j = Some p -> starts a l !! j = Some (a + sum_list (map L (take j l)))%nat.
Proof.
  revert a j. induction l as [|q l IH]; intros a [|j] Hj; [done..| |].
  - cbn. f_equal. lia.
  - cbn [starts lookup list_lookup]. change (starts (a + L q) l !! j = Some (a + sum_list (map L (take (S j) (q :: l))))%nat).
    rewrite (IH (a + L q)%nat j Hj). cbn [take map]. change (sum_list (L q :: map L (take j l))) with (L q + sum_list (map L (take j l)))%nat. f_equal. lia.
Qed.

Lemma length_starts a l : length (starts a l) = length l.
Proof. revert a. induction l as [|p l IH]; intros a; [done|]. cbn. by rewrite IH. Qed.

Definition offset (j : nat) : nat := sum_list (map L (take j ps)).

Lemma offset_S j p : ps !! j = Some p -> offset (S j) = (offset j + L p)%nat.
Proof.
  intros Hj. unfold offset. rewrite (take_S_r _ _ p) by done. rewrite map_app, sum_list_with_app.
  cbn [map]. change (sum_list [L p]) with (L p + 0)%nat. lia.
Qed.

Lemma offset_le j j' : (j <= j')%nat -> (offset j <= offset j')%nat.
Proof.
  intros Hle. induction Hle as [|j' _ IH]; [lia|]. destruct (ps !! j') as [p|] eqn:E.
  - rewrite (offset_S j' p) by done. lia.
  - unfold offset in *. apply lookup_ge_None in E. rewrite (take_ge ps (S j')) by lia. rewrite (take_ge ps j') in IH by lia. exact IH.
Qed.

Lemma final_lookup j p : ps !! j = Some p -> indices_final s (starts 0 ps) !! j = Some (offset j + L p)%nat.
Proof.
  intros Hj. pose proof (lookup_lt_Some _ _ _ Hj) as Hlt. unfold indices_final. rewrite (po_meta HP), <-(offset_S j p) by done.
  destruct (ps !! S j) as [p'|] eqn:Hn.
  - rewrite lookup_app_l.
    2: { pose proof (lookup_lt_Some _ _ _ Hn). pose proof (length_starts 0 ps). destruct (starts 0 ps); cbn in *; lia. }
    pose proof (starts_lookup 0 ps (S j) p' Hn) as H. destruct (starts 0 ps); [done|]. exact H.
  - apply lookup_ge_None in Hn. pose proof (length_starts 0 ps) as Hl.
    assert (Ht : length (tail (starts 0 ps)) = j) by (destruct (starts 0 ps); cbn in *; lia).
    rewrite lookup_app_r by lia. rewrite Ht, Nat.sub_diag. cbn. f_equal. unfold offset. by rewrite take_ge by lia.
Qed.

Lemma varno_indices_ok : exists m, varno_indices s = Ok m /\ forall v, zvec v m = indices_with ps vn v.
Proof.
  destruct (po_columns HP) as (_ & HC & _). pose proof (po_loaded HP) as HL. unfold varno_indices.
  destruct (index_of_Some _ _ HC) as (c & Hc & Hlt). unfold getColumnIndex. rewrite Hc.
  assert (Hcol : data_ s !! c = Some (omap (fun row => row !! c) rows)).
  { rewrite (ld_data _ _ HL). exact (lookup_map_seq (fun c => omap (fun row : list R => row !! c) rows) _ c Hlt). }
  rewrite (vec_at_Some _ _ _ Hcol). cbn [mbind res_bind]. rewrite (ld_rows _ _ HL).
  exists (foldl (fun m i => zpush (vn (row_at ps i)) i m) ∅ (seq 0 (length rows))). split.
  - rewrite <-foldM_pure. apply foldM_ext. intros m i Hi. rewrite elem_of_seq in Hi.
    destruct (lookup_lt_is_Some_2 rows i) as [row Hrow]; [lia|]. pose proof (ld_widths _ _ HL) as Hw.
    destruct (lookup_lt_is_Some_2 row c) as [x Hx]; [rewrite Forall_lookup in Hw; by rewrite (Hw _ _ Hrow)|].
    rewrite (vec_at_Some _ _ x) by (eapply column_lookup; eauto). cbn [mbind res_bind].
    pose proof (po_varno HP) as Hv. rewrite Forall_lookup in Hv. destruct (Hv _ _ Hrow) as (Hz & _).
    unfold cell in Hz. rewrite Hc in Hz. cbn [mbind option_bind] in Hz. rewrite Hx in Hz. cbn [default from_option id] in Hz.
    unfold to_int, row_at. rewrite Hz, Hrow. done.
  - intros v. unfold indices_with. generalize (seq 0 (length rows)). intros l.
    assert (G : forall l m, zvec v (foldl (fun m i => zpush (vn (row_at ps i)) i m) m l) =
      zvec v m ++ List.filter (fun i => vn (row_at ps i) =? v) l).
    { clear. induction l as [|i l IH]; intros m; [by rewrite app_nil_r|]. cbn [foldl List.filter]. rewrite IH.
      unfold zvec, zpush. destruct (Z.eqb_spec (vn (row_at ps i)) v) as [->|Hne].
      - rewrite lookup_insert_eq. cbn [default from_option id]. by rewrite <-app_assoc.
      - by rewrite lookup_insert_ne. }
    by rewrite G.
Qed.

Lemma foldM_concat {A B} (f : list B -> A -> res (list B)) (h : A -> list B) acc l :
  (forall acc x, x ∈ l -> f acc x = Ok (acc ++ h x)) -> foldM f acc l = Ok (acc ++ concat (map h l)).
Proof.
  revert acc. induction l as [|x l IH]; intros acc Hf; [cbn; by rewrite app_nil_r|]. cbn [foldM map concat].
  rewrite Hf by apply list_elem_of_here. cbn [mbind res_bind].
  rewrite IH by (intros acc' y Hy; apply Hf; by apply list_elem_of_further). by rewrite app_assoc.
Qed.

Definition removed_slice (v : Z) (j : nat) : list nat :=
  match ps !! j with
  | Some p => drop (offset j + reported_levels p) (take (offset j + L p) (indices_with ps vn v))
  | None => []
  end.
Definition removed : list nat := concat (map (fun v => concat (map (removed_slice v) (seq 0 (length ps)))) vs).

Lemma length_indices_with v : v ∈ vs -> length (indices_with ps vn v) = offset (length ps).
Proof.
  intros Hv. rewrite <-(length_map (row_at ps)), indices_with_rows, rows_with_concat. unfold offset. rewrite take_ge by lia.
  assert (Hp : forall p, p ∈ ps -> length (rows_with vn v p) = L p) by (intros p Hp; by apply (po_levels HP)).
  clear -Hp. induction ps as [|p l IH]; [done|]. cbn [map concat]. rewrite length_app, Hp by apply list_elem_of_here.
  change (sum_list (L p :: map L l)) with (L p + sum_list (map L l))%nat. f_equal. apply IH. intros q Hq. apply Hp. by apply list_elem_of_further.
Qed.

Lemma indices_to_remove_ok : indices_to_remove s vs = Ok removed.
Proof.
  unfold indices_to_remove. rewrite (ld_rows _ _ (po_loaded HP)).
  destruct (profiles_loop ps [] (-1) 0 [] [] eq_refl (po_profiles HP)) as (q & Hf). cbn [concat length app map] in Hf.
  change (sum_list []) with 0%nat in Hf. rewrite Hf. cbn [mbind res_bind]. clear Hf.
  destruct varno_indices_ok as (m & -> & Hm). cbn [mbind res_bind]. unfold removed.
  rewrite (foldM_concat _ (fun v => concat (map (removed_slice v) (seq 0 (length ps)))) [] vs); [done|].
  intros acc v Hv. rewrite length_starts. apply foldM_concat. intros acc' j Hj. rewrite elem_of_seq in Hj.
  destruct (lookup_lt_is_Some_2 ps j) as [p Hp]; [lia|].
  rewrite (vec_get_Some _ _ _ (starts_lookup 0 ps j p Hp)). cbn [mbind res_bind].
  rewrite (vec_get_Some _ _ _ (final_lookup j p Hp)). cbn [mbind res_bind].
  rewrite (vec_get_Some _ _ (Z.of_nat (reported_levels p))) by (by rewrite list_lookup_fmap, Hp). cbn [mbind res_bind].
  rewrite Hm. change (0 + sum_list (map L (take j ps)))%nat with (offset j). rewrite superfluous_ok.
  - unfold removed_slice. by rewrite Hp.
  - rewrite length_indices_with, <-(offset_S j p) by done. apply offset_le. lia.
Qed.

(** ** The rows that are kept *)

Definition varno_at (v : Z) (i : nat) : bool := vn (row_at ps i) =? v.

Lemma removed_elem v j i : i ∈ removed_slice v j <-> exists p, ps !! j = Some p /\ (i < length rows)%nat /\
  vn (row_at ps i) = v /\ (offset j + reported_levels p <= rank (varno_at v) i < offset j + L p)%nat.
Proof.
  unfold removed_slice. destruct (ps !! j) as [p|] eqn:Hp.
  - unfold indices_with. change (fun i => vn (row_at ps i) =? v) with (varno_at v). rewrite slice_elem.
    unfold varno_at at 1. rewrite Z.eqb_eq. split; [intros H; by exists p|by intros (? & [= <-] & ?)].
  - split; [by intros ?%not_elem_of_nil|by intros (? & ? & _)].
Qed.

Lemma removed_NoDup : NoDup removed.
Proof.
  destruct (po_varnos HP) as (Hnd & _ & _). apply NoDup_concat_map; [done| |].
  - intros v Hv. apply NoDup_concat_map; [apply NoDup_seq| |].
    + intros j _. unfold removed_slice. destruct (ps !! j); [apply slice_NoDup|constructor].
    + intros j j' i _ _ H1 H2. apply removed_elem in H1 as (p & Hp & _ & _ & H1). apply removed_elem in H2 as (p' & Hp' & _ & _ & H2).
      pose proof (offset_S _ _ Hp) as E1. pose proof (offset_S _ _ Hp') as E2.
      destruct (Nat.lt_trichotomy j j') as [Hlt|[Heq|Hlt]]; [|done|].
      * pose proof (offset_le (S j) j' Hlt). lia.
      * pose proof (offset_le (S j') j Hlt). lia.
  - intros v w i _ _ H1 H2. apply elem_of_concat_map in H1 as (j & _ & H1). apply elem_of_concat_map in H2 as (j' & _ & H2).
    apply removed_elem in H1 as (? & _ & _ & H1 & _). apply removed_elem in H2 as (? & _ & _ & H2 & _). congruence.
Qed.

(** The position of a row: the rows of the profiles before it and those of its
    own. *)
Lemma row_position j p t row : ps !! j = Some p -> p !! t = Some row ->
  rows !! (length (concat (take j ps)) + t)%nat = Some row /\
  take (length (concat (take j ps)) + t) rows = concat (take j ps) ++ take t p.
Proof.
  intros Hj Ht. pose proof (take_drop_middle ps j p Hj) as E.
  assert (Er : rows = concat (take j ps) ++ p ++ concat (drop (S j) ps)) by (rewrite <-E at 1; by rewrite concat_app).
  pose proof (lookup_lt_Some _ _ _ Ht). rewrite Er. split.
  - rewrite lookup_app_r by lia. replace (length (concat (take j ps)) + t - length (concat (take j ps)))%nat with t by lia.
    by rewrite lookup_app_l.
  - rewrite take_app_ge by lia. replace (length (concat (take j ps)) + t - length (concat (take j ps)))%nat with t by lia.
    by rewrite take_app_le by lia.
Qed.

Lemma rank_rows v i : (i <= length rows)%nat -> rank (varno_at v) i = length (rows_with vn v (take i rows)).
Proof.
  intros Hi. unfold rank. induction i as [|i IH]; [done|].
  rewrite <-(Nat.add_1_r i), filter_seq_S, length_app, IH by lia. rewrite Nat.add_1_r.
  destruct (lookup_lt_is_Some_2 rows i) as [row Hrow]; [lia|]. rewrite (take_S_r _ _ row Hrow).
  unfold rows_with at 2. rewrite List.filter_app, length_app. f_equal. cbn [List.filter].
  unfold varno_at, row_at. rewrite Hrow. cbn [default from_option id]. by destruct (vn row =? v).
Qed.

Lemma rank_at j p t row : ps !! j = Some p -> p !! t = Some row ->
  rank (varno_at (vn row)) (length (concat (take j ps)) + t) = (offset j + length (rows_with vn (vn row) (take t p)))%nat.
Proof.
  intros Hj Ht. destruct (row_position j p t row Hj Ht) as [Hrow Htake]. pose proof (lookup_lt_Some _ _ _ Hrow).
  rewrite rank_rows, Htake by lia. unfold rows_with at 1. rewrite List.filter_app, length_app. f_equal.
  assert (Hv : vn row ∈ vs) by (apply (po_all HP); by eapply list_elem_of_lookup_2). unfold offset.
  assert (Hsub : forall q, q ∈ take j ps -> length (rows_with vn (vn row) q) = L q).
  { intros q Hq. apply (po_levels HP); [|done]. apply list_elem_of_lookup in Hq as [i Hi].
    apply lookup_take_Some in Hi as [Hi _]. by eapply list_elem_of_lookup_2. }
  clear -Hsub. fold (rows_with vn (vn row) (concat (take j ps))). rewrite rows_with_concat.
  induction (take j ps) as [|q l IH]; [done|]. cbn [map concat]. rewrite length_app, Hsub by apply list_elem_of_here.
  change (sum_list (L q :: map L l)) with (L q + sum_list (map L l))%nat. f_equal. apply IH.
  intros q' Hq'. apply Hsub. by apply list_elem_of_further.
Qed.

Lemma own_rank p t row : p ∈ ps -> p !! t = Some row -> vn row ∈ vs -> (length (rows_with vn (vn row) (take t p)) < L p)%nat.
Proof.
  intros Hp Ht Hv. rewrite <-(po_levels HP p (vn row)) by done. rewrite <-(take_drop_middle p t row Ht) at 2.
  unfold rows_with. rewrite List.filter_app, length_app. cbn [List.filter]. rewrite Z.eqb_refl. cbn [length]. lia.
Qed.

(** A row is removed when it is not one of the reported levels. *)
Lemma removed_iff j p t row : ps !! j = Some p -> p !! t = Some row ->
  (length (concat (take j ps)) + t)%nat ∈ removed <-> (reported_levels p <= length (rows_with vn (vn row) (take t p)))%nat.
Proof.
  intros Hj Ht. destruct (row_position j p t row Hj Ht) as [Hrow _]. pose proof (lookup_lt_Some _ _ _ Hrow) as Hlt.
  pose proof (list_elem_of_lookup_2 _ _ _ Hj) as Hp.
  assert (Hv : vn row ∈ vs) by (apply (po_all HP); by eapply list_elem_of_lookup_2).
  assert (Hrat : row_at ps (length (concat (take j ps)) + t) = row) by (unfold row_at; by rewrite Hrow).
  pose proof (own_rank p t row Hp Ht Hv) as Hown. pose proof (rank_at j p t row Hj Ht) as Hrank. unfold removed. split.
  - intros H. apply elem_of_concat_map in H as (v & _ & H). apply elem_of_concat_map in H as (j' & _ & H).
    apply removed_elem in H as (p' & Hp' & _ & Hvn & H). rewrite Hrat in Hvn. subst v. rewrite Hrank in H.
    pose proof (offset_S _ _ Hj) as E1. pose proof (offset_S _ _ Hp') as E2.
    destruct (Nat.lt_trichotomy j j') as [Hl|[<-|Hl]].
    + pose proof (offset_le (S j) j' Hl). lia.
    + simplify_eq. lia.
    + pose proof (offset_le (S j') j Hl). lia.
  - intros H. apply elem_of_concat_map. exists (vn row). split; [done|]. apply elem_of_concat_map. exists j. split.
    + apply elem_of_seq. pose proof (lookup_lt_Some _ _ _ Hj). lia.
    + apply removed_elem. exists p. rewrite Hrat, Hrank. split_and!; [done|lia|done|lia|lia].
Qed.

(** A mask given row by row is the one given profile by profile. *)
Lemma mask_concat (f : nat -> bool) (h : list (list R) -> list bool) (l : list (list (list R))) n :
  (forall p, length (h p) = length p) ->
  (forall j p t row, l !! j = Some p -> p !! t = Some row -> h p !! t = Some (f (n + length (concat (take j l)) + t)%nat)) ->
  map f (seq n (length (concat l))) = concat (map h l).
Proof.
  intros Hlen. revert n. induction l as [|p l IH]; intros n H; [done|]. cbn [concat map]. rewrite length_app, seq_app, map_app. f_equal.
  - apply list_eq. intros t. rewrite list_lookup_fmap. destruct (decide (t < length p)%nat) as [Ht|Ht].
    + rewrite lookup_seq_lt by done. destruct (lookup_lt_is_Some_2 p t Ht) as [row Hrow].
      rewrite (H 0%nat p t row eq_refl Hrow). cbn. do 2 f_equal. lia.
    + rewrite lookup_seq_ge, lookup_ge_None_2 by (rewrite ?Hlen; lia). done.
  - apply IH. intros j q t row Hj Ht. rewrite (H (S j) q t row Hj Ht). do 2 f_equal. cbn [take concat]. rewrite length_app. lia.
Qed.

Lemma kept_rows : remove_indices 0 (std_sort Nat.ltb removed) rows = concat (map reported ps).
Proof.
  rewrite remove_indices_sel; [|apply sorted_indices, removed_NoDup|apply list.Forall_forall; intros; lia].
  rewrite (mask_concat _ level_mask ps 0).
  - unfold reported. assert (Hl : forall p, length (level_mask p) = length p) by (intros p; unfold level_mask; by rewrite length_imap).
    clear -Hl. induction ps as [|p l IH]; [done|]. cbn [map concat]. rewrite sel_app by apply Hl. by rewrite IH.
  - intros p. unfold level_mask. by rewrite length_imap.
  - intros j p t row Hj Ht. unfold level_mask. rewrite list_lookup_imap, Ht. cbn [fmap option_fmap option_map]. f_equal. rewrite Nat.add_0_l.
    destruct (Nat.ltb_spec (length (rows_with vn (vn row) (take t p))) (reported_levels p)) as [H|H].
    + rewrite bool_decide_false; [done|]. rewrite (std_sort_perm Nat.ltb), (removed_iff j p t row Hj Ht). lia.
    + rewrite bool_decide_true; [done|]. rewrite (std_sort_perm Nat.ltb), (removed_iff j p t row Hj Ht). lia.
Qed.

(** ** The truncated table *)

Lemma reported_go v n (pre post : list (list R)) :
  rows_with vn v (sel (imap (fun t row => (length (rows_with vn (vn row) (take (length pre + t) (pre ++ post))) <? n)%nat) post) post) =
  take (n - length (rows_with vn v pre)) (rows_with vn v post).
Proof.
  revert pre. induction post as [|row post IH]; intros pre; [cbn; by rewrite take_nil|].
  cbn [imap sel]. rewrite Nat.add_0_r, take_app_length.
  assert (E : imap (fun t row0 => (length (rows_with vn (vn row0) (take (length pre + S t) (pre ++ row :: post))) <? n)%nat) post =
              imap (fun t row0 => (length (rows_with vn (vn row0) (take (length (pre ++ [row]) + t) ((pre ++ [row]) ++ post))) <? n)%nat) post).
  { apply imap_ext. intros t row0 _. rewrite length_app, <-app_assoc. cbn [length app]. do 4 f_equal. lia. }
  change (imap ((fun t row0 => (length (rows_with vn (vn row0) (take (length pre + t) (pre ++ row :: post))) <? n)%nat) ∘ S) post)
    with (imap (fun t row0 => (length (rows_with vn (vn row0) (take (length pre + S t) (pre ++ row :: post))) <? n)%nat) post).
  rewrite E. clear E. specialize (IH (pre ++ [row])).
  assert (Hpre : length (rows_with vn v (pre ++ [row])) = (length (rows_with vn v pre) + if (vn row =? v)%Z then 1 else 0)%nat).
  { unfold rows_with. rewrite List.filter_app, length_app. cbn [List.filter]. by destruct (vn row =? v). }
  rewrite Hpre in IH. destruct (Z.eqb_spec (vn row) v) as [Hv|Hv].
  - assert (Hyes : forall l, rows_with vn v (row :: l) = row :: rows_with vn v l)
      by (intros l; unfold rows_with; cbn [List.filter]; by rewrite Hv, Z.eqb_refl).
    rewrite Hv. destruct (Nat.ltb_spec (length (rows_with vn v pre)) n) as [H|H].
    + rewrite !Hyes, IH.
      replace (n - length (rows_with vn v pre))%nat with (S (n - (length (rows_with vn v pre) + 1)))%nat by lia. done.
    + rewrite IH. replace (n - (length (rows_with vn v pre) + 1))%nat with 0%nat by lia.
      by replace (n - length (rows_with vn v pre))%nat with 0%nat by lia.
  - rewrite Nat.add_0_r in IH.
    assert (Hno : forall l, rows_with vn v (row :: l) = rows_with vn v l)
      by (intros l; unfold rows_with; cbn [List.filter]; by rewrite (proj2 (Z.eqb_neq _ _) Hv)).
    rewrite (Hno post), <-IH. destruct (length (rows_with vn (vn row) pre) <? n)%nat; [apply Hno|done].
Qed.

Lemma reported_varno v p : rows_with vn v (reported p) = take (reported_levels p) (rows_with vn v p).
Proof. unfold reported, level_mask. pose proof (reported_go v (reported_levels p) [] p) as H. cbn in H. rewrite Nat.sub_0_r in H. exact H. Qed.

Lemma sel_incl {A} m (l : list A) x : x ∈ sel m l -> x ∈ l.
Proof.
  revert l. induction m as [|b m IH]; intros [|y l]; cbn; try (by intros ?%not_elem_of_nil).
  destruct b; rewrite ?elem_of_cons; [intros [->|H]; [by left|right; by apply IH]|intros H; right; by apply IH].
Qed.

Lemma reported_length p : p ∈ ps -> length (reported p) = (length vs * Nat.min (reported_levels p) (L p))%nat.
Proof.
  intros Hp. destruct (po_varnos HP) as (Hnd & _ & _). pose proof (varno_partition (reported p) Hnd) as E.
  assert (E1 : List.filter (fun row => bool_decide (vn row ∈ vs)) (reported p) = reported p).
  { apply List.forallb_filter_id, List.forallb_forall. intros row Hrow%list_elem_of_In%sel_incl. apply bool_decide_eq_true, (po_all HP).
    apply list_elem_of_In, in_concat. exists p. split; by apply list_elem_of_In. }
  rewrite E1 in E. rewrite <-E.
  assert (Hl : forall v, v ∈ vs -> length (rows_with vn v (reported p)) = Nat.min (reported_levels p) (L p)).
  { intros v Hv. by rewrite reported_varno, length_take, (po_levels HP p v Hp Hv). }
  clear -Hl. induction vs as [|v l IH]; [done|].
  change (sum_list (map (fun v => length (rows_with vn v (reported p))) (v :: l)))
    with (length (rows_with vn v (reported p)) + sum_list (map (fun v => length (rows_with vn v (reported p))) l))%nat.
  rewrite (Hl v) by apply list_elem_of_here. rewrite IH by (intros w Hw; apply Hl; by apply list_elem_of_further). cbn [length]. lia.
Qed.

Lemma kept_length l : (forall p, p ∈ l -> p ∈ ps) ->
  length (concat (map reported l)) = (length vs * sum_list (map (fun p => Nat.min (reported_levels p) (L p)) l))%nat.
Proof.
  induction l as [|p l IH]; intros Hl; [cbn; lia|]. cbn [concat map].
  rewrite length_app, IH by (intros q Hq; apply Hl; by apply list_elem_of_further). rewrite reported_length by (apply Hl, list_elem_of_here).
  change (sum_list (?x :: ?y)) with (x + sum_list y)%nat. cbn. lia.
Qed.

Lemma kept_incl row : row ∈ concat (map reported ps) -> row ∈ rows.
Proof.
  intros H. apply elem_of_concat_map in H as (p & Hp & Hrow). apply sel_incl in Hrow.
  apply list_elem_of_In, in_concat. exists p. split; by apply list_elem_of_In.
Qed.

Lemma column_map n (l : list (list R)) c : Forall (fun row => length row = n) l -> (c < n)%nat ->
  omap (fun row => row !! c) l = map (fun row => default od_missing (row !! c)) l.
Proof.
  intros HF Hc. induction HF as [|row l Hr _ IH]; [done|]. cbn [omap list_omap map].
  destruct (lookup_lt_is_Some_2 row c) as [x Hx]; [lia|]. rewrite Hx. cbn. by rewrite IH.
Qed.

Lemma truncated_columns : map (remove_indices 0 (std_sort Nat.ltb removed)) (data_ s) =
  by_columns (length (columns_ s)) (concat (map reported ps)).
Proof.
  rewrite (ld_data _ _ (po_loaded HP)). unfold by_columns. rewrite map_map. apply map_ext_in. intros c [_ Hc]%in_seq.
  pose proof (ld_widths _ _ (po_loaded HP)) as Hw.
  rewrite (column_map (length (columns_ s)) rows), (column_map (length (columns_ s)) (concat (map reported ps))); [|..|lia|done|lia].
  - by rewrite remove_indices_map, kept_rows.
  - rewrite list.Forall_forall in Hw |- *. intros row Hrow. by apply Hw, kept_incl.
Qed.
End truncated.

(** * The claim *)

Section claim.
Context {R F : Type} `{OD : OdbDouble R F} `{FO : FloatOps F}.

(** C15: Truncating a table of profiles, in which every varno has as many rows as
    assigned levels, keeps of each profile and each varno the rows of the
    reported levels (all of them when more levels are reported than assigned), in
    their order and with all their columns; the number of locations becomes the
    number of levels that are kept. *)
Theorem profiles_truncated (s : DataFromSQL R) ps vn sq nl vs L : profiles_ok s ps vn sq nl vs L ->
  exists s', truncate s vs = Ok s' /\ loaded s' (concat (map (reported vn nl) ps)) /\ columns_ s' = columns_ s /\
    number_of_metadata_rows_ s' = sum_list (map (fun p => Nat.min (reported_levels nl p) (L p)) ps) /\
    forall p v, p ∈ ps -> v ∈ vs -> rows_with vn v (reported vn nl p) = take (reported_levels nl p) (rows_with vn v p).
Proof.
  intros HP. unfold truncate. rewrite (indices_to_remove_ok s ps vn sq nl vs L HP). cbn [mbind res_bind].
  rewrite (truncated_columns s ps vn sq nl vs L HP). pose proof (po_loaded _ _ _ _ _ _ _ HP) as HL.
  destruct (po_varnos _ _ _ _ _ _ _ HP) as (_ & Hne & HV).
  assert (Hw : Forall (fun row => length row = length (columns_ s)) (concat (map (reported vn nl) ps))).
  { pose proof (ld_widths _ _ HL) as Hw. rewrite list.Forall_forall in Hw |- *. intros row Hrow. by eapply Hw, kept_incl. }
  assert (Hf : front_size (by_columns (length (columns_ s)) (concat (map (reported vn nl) ps))) = length (concat (map (reported vn nl) ps))).
  { pose proof (ld_columns _ _ HL) as Hc. unfold by_columns. destruct (columns_ s) as [|c cs] eqn:E; [done|]. cbn [length seq map front_size].
    by apply (column_length (S (length cs))); [|lia]. }
  rewrite Hf. unfold div_size. assert (HV0 : number_of_varnos_ s <> 0%nat) by (rewrite HV; by destruct vs).
  rewrite (proj2 (Nat.eqb_neq _ _) HV0). cbn [mbind res_bind]. eexists. split; [reflexivity|]. split_and!.
  - split; [apply HL|done|exact Hw|done].
  - done.
  - cbn. rewrite (kept_length s ps vn sq nl vs L HP ps) by done. rewrite HV, Nat.mul_comm, Nat.div_mul by (by rewrite <-HV). done.
  - intros p v _ _. apply reported_varno.
Qed.
End claim.

Module Sample.
Import ObsSpaceVars.Sample OdbData.Sample.

(** Two profiles of two varnos: two levels assigned and one reported, then one
    level assigned and five reported. *)
Definition ps : list (list (list Z)) :=
  [[[1; 10; 1; 100]; [1; 20; 1; 200]; [1; 10; 1; 101]; [1; 20; 1; 201]]; [[2; 10; 5; 102]; [2; 20; 5; 202]]].
Definition field (i : nat) (row : list Z) : Z := default 0 (row !! i).

Definition s : DataFromSQL Z :=
  {| columns_ := ["seqno"; "varno"; "numlev"; "obsvalue"]; column_types_ := []; column_bitfield_defs_ := [];
     varnos_ := [10; 20]; data_ := by_columns 4 (concat ps); number_of_rows_ := 6; number_of_metadata_rows_ := 3;
     number_of_varnos_ := 2; max_number_channels_ := 0; obsgroup_ := obsgroup_sonde;
     varnos_and_levels_ := ∅; varnos_and_levels_to_use_ := ∅ |}.
Definition levels (p : list (list Z)) : nat := length (rows_with (field 1) 10 p).

Ltac each := repeat (apply Forall_cons; split; [done || (repeat split; lia)|]); apply Forall_nil; exact I.

Lemma s_ok : profiles_ok s ps (field 1) (field 0) (fun row => Z.to_nat (field 2 row)) [10; 20] levels.
Proof.
  split.
  - split; [done|reflexivity|each|done].
  - split_and!; apply (bool_decide_unpack _); done.
  - each.
  - each.
  - each.
  - cbn. split_and!; try lia; repeat constructor; by left.
  - split_and!; [|done|done]. apply (bool_decide_unpack _). done.
  - intros p v Hp Hv. unfold ps in Hp. rewrite !elem_of_cons, elem_of_nil in Hp. rewrite !elem_of_cons, elem_of_nil in Hv.
    destruct Hp as [->|[->|[]]], Hv as [->|[->|[]]]; done.
  - intros row Hrow. cbn [concat app ps] in Hrow. rewrite !elem_of_cons, elem_of_nil in Hrow.
    repeat (destruct Hrow as [->|Hrow]; [apply (bool_decide_unpack _); done|]). done.
  - done.
Qed.

Lemma profiles_truncated_witness : exists s', truncate s [10; 20] = Ok s' /\ number_of_metadata_rows_ s' = 2%nat /\
  map (reported (field 1) (fun row => Z.to_nat (field 2 row))) ps = [[[1; 10; 1; 100]; [1; 20; 1; 200]]; [[2; 10; 5; 102]; [2; 20; 5; 202]]].
Proof.
  destruct (profiles_truncated s ps (field 1) (field 0) (fun row => Z.to_nat (field 2 row)) [10; 20] levels s_ok)
    as (s' & Hs & _ & _ & Hn & _).
  exists s'. split; [exact Hs|]. split; [exact Hn|reflexivity].
Defined.
End Sample.
