(* ===== verification/OdbSpec.v ===== *)
(** From an ODB query to the variables of a group: what [DataFromSQL::select]
    leaves in the object, and the variables made from it. *)
From stdpp Require Import base list gmap strings sorting pretty.
From Stdlib Require Import ZArith.
From S2P Require Import Prelude Selection VarAttrStore ObsTypes ObsVariables ObsFrame ObsFrameRead ObsFrameReadSpec ObsRecords ObsSpaceInit ObsSpaceVars ObsVector ObsDataVector.
From S2P Require Import OdbData OdbVariables OdbDataSpec OdbVarnoSpec.
Local Open Scope Z_scope.

(** * The query *)

Section query.
Context {R F : Type} `{OD : OdbDouble R F} `{FO : FloatOps F}.
Implicit Types (s : DataFromSQL R) (row : list R) (rows : list (list R)).

Lemma append_row n row (data : nat -> list R) : length row = n ->
  foldM (fun data i => x ← vec_get row i; appendData data i x) (map data (seq 0 n)) (seq 0 n) =
  Ok (map (fun c => data c ++ option_list (row !! c)) (seq 0 n)).
Proof.
  intros Hn. set (upto := fun (j : nat) (c : nat) => if (c <? j)%nat then data c ++ option_list (row !! c) else data c).
  destruct (foldM_ind (fun data i => x ← vec_get row i; appendData data i x)
    (fun don d => d = map (upto (length don)) (seq 0 n)) (map data (seq 0 n)) (seq 0 n)) as (d & Hf & ->).
  - apply map_ext. intros c. unfold upto. by destruct (c <? length [])%nat eqn:E; [apply Nat.ltb_lt in E; cbn in E; lia|].
  - intros don i d -> Hpre. pose proof (prefix_length _ _ Hpre) as Hlen. rewrite length_app, length_seq in Hlen. cbn [length] in Hlen.
    assert (Hi : i = length don).
    { destruct Hpre as [rest Hp]. assert (Hl : seq 0 n !! length don = Some i)
        by (rewrite Hp, <-app_assoc; by apply list_lookup_middle).
      apply lookup_seq in Hl. lia. }
    subst i. destruct (lookup_lt_is_Some_2 row (length don)) as [x Hx]; [lia|].
    rewrite (vec_get_Some _ _ _ Hx). cbn [mbind res_bind]. unfold appendData.
    rewrite (vec_at_Some _ _ (data (length don))).
    2: { rewrite lookup_map_seq by lia. unfold upto. by rewrite Nat.ltb_irrefl. }
    cbn [mbind res_bind]. eexists. split; [reflexivity|]. rewrite length_app, Nat.add_1_r.
    assert (E : data (length don) ++ [x] = upto (S (length don)) (length don)).
    { unfold upto. rewrite (proj2 (Nat.ltb_lt _ _)) by lia. by rewrite Hx. }
    rewrite E. apply insert_map_seq. intros r Hr. unfold upto.
    destruct (Nat.ltb_spec r (S (length don))); destruct (Nat.ltb_spec r (length don)); (done || lia).
  - rewrite Hf. f_equal. apply map_ext_in. intros c Hc%in_seq. unfold upto. rewrite length_seq.
    by rewrite (proj2 (Nat.ltb_lt _ _)) by lia.
Qed.

Lemma transpose_ok n rows : Forall (fun row => length row = n) rows ->
  foldM (fun data row =>
      _ ← assert (length row =? n)%nat;
      foldM (fun data i => x ← vec_get row i; appendData data i x) data (seq 0 n)) (replicate n []) rows =
  Ok (by_columns n rows).
Proof.
  intros HF. destruct (foldM_ind (fun data row =>
      _ ← assert (length row =? n)%nat;
      foldM (fun data i => x ← vec_get row i; appendData data i x) data (seq 0 n))
    (fun don d => d = by_columns n don) (replicate n []) rows) as (d & Hf & ->).
  - unfold by_columns. cbn [omap list_omap]. by rewrite map_const_seq.
  - intros don row d -> [rest Hp]. assert (Hr : length row = n).
    { rewrite list.Forall_forall in HF. apply HF. rewrite Hp, !elem_of_app, list_elem_of_singleton. tauto. }
    rewrite (proj2 (Nat.eqb_eq _ _) Hr). cbn [assert mbind res_bind]. unfold by_columns at 1.
    rewrite append_row by done. eexists. split; [reflexivity|]. apply map_ext. intros c.
    rewrite omap_app. cbn [omap list_omap]. by destruct (row !! c).
  - done.
Qed.

(** The bitfields of the columns. *)
Definition definable (c : OdbColumn) : Prop := length (oc_names c) = length (oc_sizes c).

Lemma bitfield_of_ok c : definable c -> exists b, bitfield_of c = Ok b.
Proof.
  intros Hc. unfold bitfield_of. rewrite (proj2 (Nat.eqb_eq _ _) Hc). cbn [assert mbind res_bind].
  destruct (foldM_ind (fun (st : list BitfieldMember * Z) i =>
         let '(bitfield, pos) := st in
         name ← vec_get (oc_names c) i;
         size ← vec_get (oc_sizes c) i;
         Ok (bitfield ++ [{| bm_name := name; bm_start := pos; bm_size := size |}], pos + size))
    (fun _ _ => True) ([], 0) (seq 0 (length (oc_names c)))) as ([b p] & Hf & _).
  - done.
  - intros don i [b p] _ Hpre. assert (Hi : (i < length (oc_names c))%nat).
    { destruct Hpre as [rest Hp]. assert (He : i ∈ seq 0 (length (oc_names c)))
        by (rewrite Hp, !elem_of_app, list_elem_of_singleton; tauto). rewrite elem_of_seq in He. lia. }
    destruct (lookup_lt_is_Some_2 (oc_names c) i Hi) as [x Hx]. rewrite Hc in Hi.
    destruct (lookup_lt_is_Some_2 (oc_sizes c) i Hi) as [y Hy].
    rewrite (vec_get_Some _ _ _ Hx). cbn [mbind res_bind]. rewrite (vec_get_Some _ _ _ Hy). cbn [mbind res_bind]. eauto.
  - rewrite Hf. cbn. eauto.
Qed.

Lemma setData_ok s (result : SelectResult R) : length (sel_columns result) = length (columns_ s) ->
  Forall definable (sel_columns result) -> Forall (fun row => length row = length (columns_ s)) (sel_rows result) ->
  exists defs, setData s result =
    Ok (with_data s (columns_ s) (map oc_type (sel_columns result)) defs (by_columns (length (columns_ s)) (sel_rows result))).
Proof.
  intros Hc Hd Hr. unfold setData. rewrite (proj2 (Nat.eqb_eq _ _) Hc). cbn [assert mbind res_bind].
  destruct (foldM_ind (fun (st : list Z * list (list BitfieldMember)) c =>
         b ← bitfield_of c; Ok (fst st ++ [oc_type c], snd st ++ [b]))
    (fun don st => fst st = map oc_type don) ([], column_bitfield_defs_ s) (sel_columns result)) as ([ts ds] & Hf & Ht).
  - done.
  - intros don c st Ht [rest Hp]. destruct (bitfield_of_ok c) as [b ->].
    { rewrite list.Forall_forall in Hd. apply Hd. rewrite Hp, !elem_of_app, list_elem_of_singleton. tauto. }
    cbn [mbind res_bind]. eexists. split; [reflexivity|]. cbn [fst]. by rewrite Ht, map_app.
  - rewrite Hf. cbn [mbind res_bind]. rewrite transpose_ok by done. cbn [mbind res_bind]. cbn [fst] in Ht.
    exists ds. cbn [fst snd]. by rewrite Ht.
Qed.
End query.

(** * What a query leaves *)

Section selected.
Context {R F : Type} `{OD : OdbDouble R F} `{FO : FloatOps F}.
Implicit Types (s : DataFromSQL R) (row : list R).
Variables (columns : list string) (gs : list (list (list R))) (vn sq : list R -> Z) (og maxc : Z).
Local Notation rows := (concat gs).

(** The rows of a query: whole numbers in the columns the code depends on, and
    the rows of each location together. *)
Record query_ok : Prop := {
  qo_columns : "ops_obsgroup" ∈ columns /\ "seqno" ∈ columns /\ "varno" ∈ columns;
  qo_widths : Forall (fun row => length row = length columns) rows;
  qo_some : gs <> [];
  qo_obsgroup : Forall (fun row => od_int (cell columns "ops_obsgroup" row) = Some og) rows;
  qo_seqno : Forall (fun row => is_int (cell columns "seqno" row) (sq row)) rows;
  qo_varno : Forall (fun row => is_int (cell columns "varno" row) (vn row)) rows;
  qo_channels : 0 <= maxc < 2 ^ 31;
  qo_locations : locations sq maxc no_seqno 0 gs
}.

(** Levels of a varno: its rows per location. *)
Definition levels_of (v : Z) : nat :=
  if 0 <? maxc then Z.to_nat maxc else (length (rows_with vn v rows) / length gs)%nat.
Definition levels_used (v : Z) : nat := if 0 <? maxc then Z.to_nat maxc else at_least_one (levels_of v).

Record selected (types : list Z) s : Prop := {
  se_loaded : loaded s rows;
  se_columns : columns_ s = columns;
  se_types : column_types_ s = types;
  se_obsgroup : obsgroup_ s = og;
  se_channels : max_number_channels_ s = maxc;
  se_locations : number_of_metadata_rows_ s = length gs;
  se_varnos : number_of_varnos_ s = length (varnos_ s);
  se_found : forall v, v ∈ varnos_ s <-> v ∈ map vn rows;
  se_levels : forall v, v ∈ varnos_ s -> varnos_and_levels_ s !! v = Some (levels_of v) /\
                                        varnos_and_levels_to_use_ s !! v = Some (levels_used v)
}.

Lemma levels_loop s : loaded s rows -> columns_ s = columns -> max_number_channels_ s = maxc -> query_ok ->
  number_of_metadata_rows_ s = length gs -> number_of_varnos_ s = length (varnos_ s) ->
  (forall v, v ∈ varnos_ s -> v ∈ map vn rows) ->
  exists l lu, foldM levels_step s (varnos_ s) = Ok (set_levels s l lu) /\
    forall v, v ∈ varnos_ s -> l !! v = Some (levels_of v) /\ lu !! v = Some (levels_used v).
Proof.
  intros Hl Hc Hm HQ Hn Hv Hin.
  destruct (foldM_ind levels_step (fun don s' => exists l lu, s' = set_levels s l lu /\
      forall v, v ∈ don -> l !! v = Some (levels_of v) /\ lu !! v = Some (levels_used v)) s (varnos_ s))
    as (s' & Hf & l & lu & -> & Hlv).
  - exists (varnos_and_levels_ s), (varnos_and_levels_to_use_ s). split; [by destruct s|]. by intros v ?%not_elem_of_nil.
  - intros don v s' (l & lu & -> & IH) [rest Hp].
    assert (Hmem : v ∈ varnos_ s) by (rewrite Hp, !elem_of_app, list_elem_of_singleton; tauto).
    unfold levels_step. rewrite hasVarno_ok by done. cbn [mbind res_bind].
    change (varnos_ (set_levels s l lu)) with (varnos_ s). change (number_of_metadata_rows_ (set_levels s l lu)) with (number_of_metadata_rows_ s).
    change (max_number_channels_ (set_levels s l lu)) with (max_number_channels_ s).
    rewrite bool_decide_true by done. rewrite Hn, Hm.
    assert (Hpos : (0 < length gs)%nat) by (pose proof (qo_some HQ); destruct gs; [done|cbn; lia]).
    rewrite (proj2 (Nat.ltb_lt _ _) Hpos). cbn [andb].
    assert (G : forall a b, a = levels_of v -> b = levels_used v ->
      exists l' lu', set_levels (set_levels s l lu) (<[v := a]> l) (<[v := b]> lu) = set_levels s l' lu' /\
        forall w, w ∈ don ++ [v] -> l' !! w = Some (levels_of w) /\ lu' !! w = Some (levels_used w)).
    { intros a b -> ->. eexists _, _. split; [reflexivity|]. intros w Hw. destruct (decide (w = v)) as [->|Hne].
      - by rewrite !lookup_insert_eq.
      - rewrite !lookup_insert_ne by done. apply IH. rewrite elem_of_app, list_elem_of_singleton in Hw. tauto. }
    destruct (0 <? maxc) eqn:Hmx.
    + eexists. split; [reflexivity|]. apply G; unfold levels_used, levels_of; by rewrite Hmx.
    + assert (Hr : numberOfRowsForVarno (set_levels s l lu) v = Ok (length (rows_with vn v rows))).
      { apply (numberOfRowsForVarno_ok _ rows).
        - destruct Hl. by split.
        - cbn. rewrite Hc. apply HQ.
        - cbn. rewrite Hc. apply HQ.
        - apply Hin in Hmem. apply list_elem_of_fmap in Hmem as (row & -> & Hrow).
          pose proof (qo_varno HQ) as Hvn. rewrite list.Forall_forall in Hvn. by destruct (Hvn _ Hrow) as (_ & _ & ? & _). }
      rewrite Hr. cbn [mbind res_bind]. unfold div_size. rewrite (proj2 (Nat.eqb_neq _ _)) by lia. cbn [mbind res_bind].
      eexists. split; [reflexivity|]. apply G; unfold levels_used, levels_of; by rewrite ?Hmx.
  - exists l, lu. by split.
Qed.

Definition plain_locations : bool :=
  negb ((og =? obsgroup_sonde) || (og =? obsgroup_oceansound) || (og =? obsgroup_geocloud) ||
        ((og =? obsgroup_gnssro) && (maxc =? 0))).

Lemma select_ok file filename varnos query trunc (result : SelectResult R) : query_ok -> plain_locations = true ->
  file (sql_string columns filename varnos query) = Some result -> sel_rows result = rows ->
  length (sel_columns result) = length columns -> Forall definable (sel_columns result) ->
  exists s, select (DataFromSQL_new maxc) file columns filename varnos query trunc = Ok s /\
    selected (map oc_type (sel_columns result)) s.
Proof.
  intros HQ Hpl Hfile Hrows Hcols Hdef. unfold select. rewrite Hfile.
  match goal with |- context [setData ?s0 result] => destruct (setData_ok s0 result) as (defs & ->) end;
    [exact Hcols|exact Hdef|rewrite Hrows; apply HQ|]. cbn [mbind res_bind]. rewrite Hrows.
  set (s1 := with_data _ _ _ _ _). destruct (qo_columns HQ) as (HC1 & HC2 & HC3).
  assert (Hne : columns <> []) by (intros ->; by apply not_elem_of_nil in HC1).
  assert (Hfront : front_size (data_ s1) = length rows).
  { pose proof (qo_widths HQ) as Hw. subst s1. cbn [data_ with_data columns_]. clear - Hw Hne. destruct columns as [|c cs]; [done|].
    unfold by_columns. cbn [length seq map front_size]. by apply (column_length (S (length cs))); [|lia]. }
  assert (Hld : forall f o n, loaded (set_counts s1 f o (length rows) n) rows) by (intros; split; (done || apply HQ)).
  assert (H0 : exists row0, rows !! 0%nat = Some row0).
  { pose proof (qo_some HQ). pose proof (locations_nonempty _ _ _ _ _ (qo_locations HQ)) as Hnon.
    destruct gs as [|g gs0]; [done|]. apply Forall_cons in Hnon as [? _]. destruct g as [|r g]; [done|]. by exists r. }
  destruct H0 as [row0 H0].
  change (getData s1 0 (getColumnIndex s1 "ops_obsgroup"))
    with (getData (set_counts s1 [] 0 (length rows) 0) 0 (getColumnIndex (set_counts s1 [] 0 (length rows) 0) "ops_obsgroup")).
  rewrite (getData_cell _ rows _ _ row0) by (done || apply Hld). cbn [mbind res_bind].
  change (columns_ (set_counts s1 [] 0 (length rows) 0)) with columns.
  unfold to_int. pose proof (qo_obsgroup HQ) as Hog. rewrite Forall_lookup in Hog. rewrite (Hog _ _ H0). cbn [mbind res_bind].
  rewrite Hfront.
  change (collect_varnos s1 (length rows)) with (collect_varnos (set_counts s1 [] 0 (length rows) 0) (length rows)).
  destruct (collect_varnos_ok (set_counts s1 [] 0 (length rows) 0) rows vn) as (found & -> & Hnd & Hfound);
    [apply Hld|done|apply HQ|done|]. cbn [mbind res_bind].
  apply negb_true_iff in Hpl.
  rewrite (count_locations_ok sq _ rows) with (gs := gs); [|apply Hld|done|apply HQ| | |].
  2: { unfold location_per_level. cbn. rewrite u64_small by (pose proof (qo_channels HQ); lia). exact Hpl. }
  2: { done. }
  2: { cbn. rewrite u64_small by (pose proof (qo_channels HQ); lia). apply HQ. }
  cbn [mbind res_bind]. apply orb_false_iff in Hpl as [Hpl _]. apply orb_false_iff in Hpl as [Hpl _].
  rewrite Hpl, andb_false_r. cbn [mbind res_bind].
  destruct (levels_loop (set_counts s1 found og (length rows) (length gs))) as (l & lu & Hf & Hlv); try done.
  - cbn. apply u64_small. pose proof (qo_channels HQ). lia.
  - intros v. apply Hfound.
  - change (varnos_ (set_counts s1 found og (length rows) (length gs))) with found in Hf, Hlv.
    change (set_counts (set_counts s1 found og (length rows) 0) found og (length rows) (length gs))
      with (set_counts s1 found og (length rows) (length gs)).
    change (varnos_ (set_counts s1 found og (length rows) (length gs))) with found.
    rewrite Hf. eexists. split; [reflexivity|]. split; try done.
    + destruct (Hld found og (length gs)). by split.
    + cbn. apply u64_small. pose proof (qo_channels HQ). lia.
Qed.
End selected.

(** * The variables *)

Section variables.
Context {R F : Type} `{OD : OdbDouble R F} `{FO : FloatOps F}.
Implicit Types (s : DataFromSQL R) (row : list R) (g : ObsGroup F) (ty : Z).

(** The value of a cell in a column of a type, its missing value, and the type
    of the variable. *)
Definition is_integer ty : bool := (ty =? odb_type_int) || (ty =? odb_type_bitfield).
Definition odb_val ty (x : R) : option (Val F) :=
  if is_integer ty then VInt <$> od_int x else if ty =? odb_type_real then Some (VFloat (od_float x)) else None.
Definition odb_fill ty : Val F := if is_integer ty then VInt odb_missing_int else VFloat odb_missing_float.
Definition odb_t ty : OType := if is_integer ty then int_t else float_t.
Definition odb_absent (x : Val F) : bool :=
  match x with VInt z => z =? odb_missing_int | VFloat f => f_eqb f odb_missing_float | _ => false end.

(** The first value of a location that is not missing. *)
Definition location_value ty (val : list R -> Val F) (loc : list (list R)) : Val F :=
  default (odb_fill ty) (List.find (fun x => negb (odb_absent x)) (map val loc)).

Definition has_value (val : list R -> Val F) (loc : list (list R)) : Prop := Exists (fun row => odb_absent (val row) = false) loc.

(** The values of the locations: each is the value of a row of its location, and
    the first one that is not missing as long as every location up to it has
    one. *)
Definition location_values ty (val : list R -> Val F) (gs : list (list (list R))) (vals : list (Val F)) : Prop :=
  length vals = length gs /\
  (forall i loc, gs !! i = Some loc -> exists row, row ∈ loc /\ vals !! i = Some (val row)) /\
  (forall i loc, gs !! i = Some loc -> Forall (has_value val) (take (S i) gs) -> vals !! i = Some (location_value ty val loc)).

Lemma create_and_write_ok name dims t fill (values : list (Val F)) g n mx rest :
  supported t -> shape n rest -> (0 <= mx -> Z.of_nat n <= mx) ->
  mapR (fun d => dim_open d g) dims = Ok ((Z.of_nat n, mx) :: map (fun z => (z, z)) rest) ->
  length values = (n * row_size rest)%nat ->
  exists g' fv, create_and_write name dims t fill values g = Ok g' /\ put g name fv g' /\
    fv_dims fv = dims /\ dtype_ (fv_var fv) = t /\ array (fv_var fv) n rest values.
Proof.
  intros Ht Hs Hmx Hd Hl. unfold create_and_write.
  destruct (createWithScales_filled name dims t fill g n mx rest Ht Hs Hmx Hd) as (fv & data & -> & [] & _).
  cbn [mbind res_bind]. set (g1 := {| g_names := _ |}).
  assert (Hp : put g name fv g1) by (by split).
  destruct (write_all (fv_var fv) n rest data) with (x := values) as (st & Hw & Ha); [done|done|].
  match goal with H : dtype_ (fv_var fv) = t |- _ => rewrite H in Hw end.
  destruct (vars_update_put g1 name fv (fun v => front_write values t front_all front_all (fv_var v)) _
    (put_lookup _ _ _ _ Hp) Hw) as (g2 & Hu & Hp2).
  eexists g2, _. split_and!; [exact Hu|by eapply put_put|done|done|exact Ha].
Qed.

Lemma find_map {A B} (f : A -> B) (P : B -> bool) (Q : A -> bool) (l : list A) : (forall x, P (f x) = Q x) ->
  List.find P (map f l) = f <$> List.find Q l.
Proof. intros H. induction l as [|x l IH]; [done|]. cbn [map List.find]. rewrite H. by destruct (Q x). Qed.

(** A column of a type as values of that type: [inj] is [VInt] or [VFloat]. *)
Definition typed_as {T} (ty : Z) (ot : OdbType R T) (inj : T -> Val F) : Prop :=
  inj (ot_missing ot) = odb_fill ty /\ (forall x, odb_absent (inj x) = ot_eqb ot x (ot_missing ot)) /\
  forall x v, odb_val ty x = Some v -> exists y, ot_of ot x = Ok y /\ v = inj y.

Lemma int_typed ty : is_integer ty = true -> typed_as ty odb_int VInt.
Proof.
  intros H. split_and!; [unfold odb_fill; by rewrite H|done|]. intros x v. unfold odb_val. rewrite H. cbn.
  destruct (od_int x); intros [= <-]; eauto.
Qed.
Lemma real_typed ty : is_integer ty = false -> (ty =? odb_type_real) = true -> typed_as ty odb_float VFloat.
Proof.
  intros H Hr. split_and!; [unfold odb_fill; by rewrite H|done|]. intros x v. unfold odb_val. rewrite H, Hr. cbn.
  intros [= <-]. eauto.
Qed.

(** The values of a column, without their injection. *)
Lemma untyped {T} (ty : Z) (ot : OdbType R T) (inj : T -> Val F) (rows : list (list R)) (x : list R -> R) (val : list R -> Val F) :
  typed_as ty ot inj -> Forall (fun row => odb_val ty (x row) = Some (val row)) rows ->
  exists val' : list R -> T, Forall (fun row => ot_of ot (x row) = Ok (val' row) /\ val row = inj (val' row)) rows.
Proof.
  intros (_ & _ & Ht) HF. exists (fun row => match ot_of ot (x row) with Ok y => y | Throw _ => ot_missing ot end).
  eapply Forall_impl; [exact HF|]. intros row Hrow. destruct (Ht _ _ Hrow) as (y & -> & ->). done.
Qed.

Section queried.
Variables (columns : list string) (gs : list (list (list R))) (vn sq : list R -> Z) (og maxc : Z) (types : list Z) (s : DataFromSQL R).
Hypothesis HQ : query_ok columns gs vn sq og maxc.
Hypothesis Hpl : plain_locations og maxc = true.
Hypothesis HS : selected columns gs vn og maxc types s.
Local Notation rows := (concat gs).

Lemma plain_group : location_per_level s = false.
Proof.
  unfold location_per_level. rewrite (se_obsgroup _ _ _ _ _ _ _ HS), (se_channels _ _ _ _ _ _ _ HS).
  by apply negb_true_iff in Hpl.
Qed.

Lemma location_column {T} (ot : OdbType R T) (inj : T -> Val F) ty col (val : list R -> Val F) :
  typed_as ty ot inj -> col ∈ columns -> Forall (fun row => odb_val ty (cell columns col row) = Some (val row)) rows ->
  exists var, getNumericMetadataColumn ot s col = Ok var /\ location_values ty val gs (map inj var).
Proof.
  intros Hty Hcol Hval. pose proof plain_group as Hpg. destruct (untyped _ _ _ _ _ _ Hty Hval) as (val' & Hval').
  destruct HS as [Hl Hc Hts Ho Hm Hn _ _ _]. rewrite <-Hc in *. destruct Hty as (Hfill & Habs & _).
  assert (Hrow : forall loc row, loc ∈ gs -> row ∈ loc -> val row = inj (val' row)).
  { intros loc row Hloc Hrow. rewrite Forall_forall in Hval'. apply Hval'. apply list_elem_of_In, in_concat. exists loc. by rewrite <-!list_elem_of_In. }
  assert (Hpres : forall loc, loc ∈ gs -> has_value val loc -> present ot val' loc).
  { intros loc Hloc (row & Hr & Ha)%Exists_exists. apply Exists_exists. exists row. split; [done|].
    unfold absent. by rewrite <-Habs, <-(Hrow loc row). }
  rewrite (metadata_column_ok sq s rows Hl) with (vn := vn) (val := val') (gs := gs); try done; try apply HQ.
  - eexists. split; [reflexivity|]. split; [by rewrite length_map, searches_length|]. split.
    + intros i loc Hi. pose proof (list_elem_of_lookup_2 _ _ _ Hi) as Hloc.
      destruct (searches_elem ot val' gs false i loc Hi) as (row & Hr & E).
      { pose proof (locations_nonempty _ _ _ _ _ (qo_locations _ _ _ _ _ _ HQ)) as Hne. rewrite list.Forall_forall in Hne. by apply Hne. }
      exists row. split; [done|]. change (map inj) with (fmap (M := list) inj). rewrite list_lookup_fmap, E. cbn. by rewrite (Hrow loc row).
    + intros i loc Hi HF. pose proof (list_elem_of_lookup_2 _ _ _ Hi) as Hloc. change (map inj) with (fmap (M := list) inj).
      rewrite list_lookup_fmap, (searches_present ot val' gs i loc Hi).
      * cbn. unfold first_value, location_value.
        assert (E : map val loc = map inj (map val' loc)).
        { rewrite map_map. apply map_ext_in. intros row Hr%list_elem_of_In. by apply (Hrow loc). }
        rewrite E, (find_map inj _ (fun x => negb (absent ot x))) by (intros x; by rewrite Habs). rewrite <-Hfill.
        by destruct (List.find (fun x => negb (absent ot x)) (map val' loc)).
      * rewrite list.Forall_forall in HF |- *. intros g Hg. apply Hpres; [|by apply HF].
        rewrite <-(take_drop (S i) gs). apply elem_of_app. by left.
  - eapply Forall_impl; [exact Hval'|]. intros row Hr. apply Hr.
  - rewrite Hm. apply HQ.
Qed.

(** ** Columns of varnos *)

(** The varnos whose rows make up the variable of a varno. *)
Definition call_varnos (v : Z) : list Z :=
  if og =? obsgroup_amsr then [varno_rawbt; varno_rawbt_amsr_89ghz]
  else if og =? obsgroup_mwsfy3 then [varno_rawbt_mwts; varno_rawbt_mwhs] else [v].

Definition plain_columns : bool :=
  negb ((og =? obsgroup_cris) || (og =? obsgroup_hiras) || (og =? obsgroup_iasi) || (og =? obsgroup_geocloud) ||
        (og =? obsgroup_surfacecloud) || (og =? obsgroup_gnssro) || (og =? obsgroup_surface) || (og =? obsgroup_aircraft)).

Lemma call_arguments v : plain_columns = true -> getVarnoColumnCallArguments s v = Ok (call_varnos v, 1, 1).
Proof.
  unfold plain_columns. rewrite negb_true_iff, !orb_false_iff. intros (((((((H1 & H2) & H3) & H4) & H5) & H6) & _) & _).
  unfold getVarnoColumnCallArguments, is_cloud, call_varnos. rewrite (se_obsgroup _ _ _ _ _ _ _ HS).
  rewrite H1, H2, H3, H4, H5, H6. cbn [orb].
  destruct (Z.eqb_spec og obsgroup_atovs) as [->|E]; cbn [andb].
  - destruct (Z.eqb_spec v varno_rawbt_amsu) as [->|Ev]; done.
  - by destruct (og =? obsgroup_amsr), (og =? obsgroup_mwsfy3).
Qed.

Section column.
Variables (v : Z) (k : Z -> nat).
Hypothesis Hpc : plain_columns = true.
Hypothesis Hmax : maxc = 0.
Hypothesis Hregular : forall w loc, w ∈ v :: call_varnos v -> loc ∈ gs -> length (rows_with vn w loc) = k w.
Hypothesis Hpositive : forall w, w ∈ v :: call_varnos v -> (0 < k w)%nat.

Lemma some_locations : (0 < length gs)%nat.
Proof. pose proof (qo_some _ _ _ _ _ _ HQ). destruct gs; [done|cbn; lia]. Qed.

Lemma rows_of_varno w : w ∈ v :: call_varnos v -> exists row, row ∈ rows /\ vn row = w.
Proof.
  intros Hw. pose proof some_locations. destruct (lookup_lt_is_Some_2 gs 0) as [loc Hloc]; [lia|].
  apply list_elem_of_lookup_2 in Hloc. pose proof (Hregular w loc Hw Hloc) as Hk. pose proof (Hpositive w Hw) as Hp.
  destruct (rows_with vn w loc) as [|row l] eqn:E; [cbn in Hk; lia|].
  assert (Hr : row ∈ rows_with vn w loc) by (rewrite E; apply list_elem_of_here).
  apply elem_of_List_filter in Hr as [Hr Hv]. exists row. split; [|by apply Z.eqb_eq].
  apply list_elem_of_In, in_concat. exists loc. split; by apply list_elem_of_In.
Qed.

Lemma levels_v : numberOfLevels s v = Ok (k v).
Proof.
  unfold numberOfLevels. rewrite hasVarno_ok by apply HS. cbn [mbind res_bind].
  assert (Hv : v ∈ v :: call_varnos v) by apply list_elem_of_here.
  assert (Hf : v ∈ varnos_ s).
  { apply (se_found _ _ _ _ _ _ _ HS). destruct (rows_of_varno v Hv) as (row & Hrow & <-). by apply list_elem_of_fmap_2. }
  rewrite bool_decide_true, (se_locations _ _ _ _ _ _ _ HS) by done.
  pose proof some_locations as Hpos. rewrite (proj2 (Nat.ltb_lt _ _) Hpos). cbn [andb].
  unfold plain_columns in Hpc. rewrite negb_true_iff, !orb_false_iff in Hpc.
  assert (Hsc : (og =? obsgroup_surfacecloud) = false) by tauto. rewrite (se_obsgroup _ _ _ _ _ _ _ HS), Hsc.
  unfold map_at. destruct (se_levels _ _ _ _ _ _ _ HS v Hf) as [_ ->]. f_equal.
  unfold levels_used, levels_of. rewrite Hmax. cbn. rewrite rows_with_concat, (length_concat_map_uniform _ (k v)).
  - rewrite Nat.mul_comm, Nat.div_mul by lia. pose proof (Hpositive v Hv). unfold at_least_one. lia.
  - intros loc Hloc. by apply Hregular.
Qed.

(** The dimensions of the variable of a varno. *)
Definition varno_dims : list string := if (k v =? 1)%nat then ["Location"] else ["Location"; "Channel"].
Definition varno_rest : list Z := if (k v =? 1)%nat then [] else [Z.of_nat (sum_list (map k (call_varnos v)))].

Lemma varno_scales g sizes : mapR (fun d => dim_open d g) varno_dims = Ok sizes ->
  getVarnoDependentVariableDimensionScales s v g = Ok varno_dims.
Proof.
  intros Hd. unfold getVarnoDependentVariableDimensionScales.
  assert (Hcl : is_cloud s = false).
  { unfold is_cloud. rewrite (se_obsgroup _ _ _ _ _ _ _ HS). unfold plain_columns in Hpc.
    rewrite negb_true_iff, !orb_false_iff in Hpc. rewrite orb_false_iff. tauto. }
  rewrite Hcl, levels_v. cbn [mbind res_bind negb]. rewrite andb_true_r.
  pose proof (Hpositive v (list_elem_of_here _ _)). rewrite (proj2 (Nat.eqb_neq (k v) 0)) by lia.
  fold varno_dims. rewrite Hd. done.
Qed.

Lemma varno_values {T} (ot : OdbType R T) (inj : T -> Val F) ty col (val : list R -> Val F) :
  NoDup (call_varnos v) ->
  typed_as ty ot inj -> col ∈ columns -> Forall (fun row => odb_val ty (cell columns col row) = Some (val row)) rows ->
  exists var, getVarnoColumn ot s (call_varnos v) col 1 1 = Ok var /\
    map inj var = map val (concat (map (location_rows vn (call_varnos v)) gs)).
Proof.
  intros Hnd Hty Hcol Hval. destruct (untyped _ _ _ _ _ _ Hty Hval) as (val' & Hval').
  rewrite (varno_column_ok s gs vn (call_varnos v) k) with (val := val').
  - eexists. split; [reflexivity|]. rewrite map_map. apply map_ext_in. intros row Hrow.
    rewrite list.Forall_forall in Hval'. symmetry. apply Hval'. apply list_elem_of_In.
    apply in_concat in Hrow as (l & Hl & Hrow). apply in_map_iff in Hl as (loc & <- & Hloc).
    apply in_concat in Hrow as (l & Hl & Hrow). apply in_map_iff in Hl as (w & <- & _). apply List.filter_In in Hrow as [Hrow _].
    apply in_concat. eauto.
  - apply HS.
  - rewrite (se_columns _ _ _ _ _ _ _ HS). apply HQ.
  - rewrite (se_columns _ _ _ _ _ _ _ HS). apply HQ.
  - apply (qo_some _ _ _ _ _ _ HQ).
  - apply HS.
  - done.
  - rewrite list.Forall_forall. intros w Hw. destruct (rows_of_varno w) as (row & Hrow & <-); [by apply list_elem_of_further|].
    pose proof (qo_varno _ _ _ _ _ _ HQ) as Hvn. rewrite list.Forall_forall in Hvn. by destruct (Hvn _ Hrow) as (_ & _ & ? & _).
  - intros w loc Hw. apply Hregular. by apply list_elem_of_further.
  - intros w Hw. apply Hpositive. by apply list_elem_of_further.
  - rewrite (se_columns _ _ _ _ _ _ _ HS). done.
  - rewrite (se_columns _ _ _ _ _ _ _ HS). eapply Forall_impl; [exact Hval'|]. intros row Hrow. apply Hrow.
  - rewrite (se_obsgroup _ _ _ _ _ _ _ HS). unfold plain_columns in Hpc. rewrite negb_true_iff, !orb_false_iff, !Z.eqb_neq in Hpc. tauto.
Qed.

Lemma varno_count (val : list R -> Val F) : (k v = 1%nat -> call_varnos v = [v]) ->
  length (map val (concat (map (location_rows vn (call_varnos v)) gs))) = (length gs * row_size varno_rest)%nat.
Proof.
  intros H1. rewrite length_map, (length_concat_map_uniform _ (row_size varno_rest)); [done|]. intros loc Hloc.
  unfold location_rows.
  assert (E : length (concat (map (fun w => rows_with vn w loc) (call_varnos v))) = sum_list (map k (call_varnos v))).
  { assert (Hr : forall w, w ∈ call_varnos v -> length (rows_with vn w loc) = k w)
      by (intros w Hw; apply Hregular; [by apply list_elem_of_further|done]).
    clear -Hr. induction (call_varnos v) as [|w l IH]; [done|]. cbn [map concat sum_list]. rewrite length_app, Hr by apply list_elem_of_here.
    change (sum_list (k w :: map k l)) with (k w + sum_list (map k l))%nat. f_equal. apply IH.
    intros w' Hw'. apply Hr. by apply list_elem_of_further. }
  rewrite E. unfold varno_rest, row_size. destruct (Nat.eqb_spec (k v) 1) as [Hk|Hk].
  - rewrite (H1 Hk). cbn. lia.
  - cbn. lia.
Qed.
End column.
End queried.

(** A query on a file and its result. *)
Record query_result (file : string -> option (SelectResult R)) (columns : list string) (filename : string) (varnos : list Z)
    (query : string) (gs : list (list (list R))) (result : SelectResult R) : Prop := {
  qr_file : file (sql_string columns filename varnos query) = Some result;
  qr_rows : sel_rows result = concat gs;
  qr_columns : length (sel_columns result) = length columns;
  qr_definable : Forall definable (sel_columns result)
}.

Lemma column_type (columns : list string) types s col c ty : columns_ s = columns -> column_types_ s = types ->
  index_of columns col = Some c -> types !! c = Some ty -> getColumnTypeByName s col = Ok ty /\ col ∈ columns.
Proof.
  intros Hc Ht Hidx Hty. unfold getColumnTypeByName, getColumnIndex. rewrite Hc, Hidx, Ht. split; [by apply vec_at_Some|].
  unfold index_of in Hidx. apply fmap_Some in Hidx as ([i x] & Hf & ->). apply list_find_Some in Hf as (Hi & -> & _).
  by eapply list_elem_of_lookup_2.
Qed.

Lemma odb_t_supported ty : supported (odb_t ty).
Proof.
  unfold supported, odb_t. destruct (is_integer ty); [apply list_elem_of_here|].
  do 2 apply list_elem_of_further. apply list_elem_of_here.
Qed.

Lemma odb_val_type ty x v : odb_val ty x = Some v -> is_integer ty = true \/ is_integer ty = false /\ (ty =? odb_type_real) = true.
Proof. unfold odb_val. destruct (is_integer ty); [by left|]. destruct (ty =? odb_type_real); [by right|done]. Qed.

Lemma first_row columns gs vn sq og maxc : query_ok columns gs vn sq og maxc -> exists row, row ∈ concat gs.
Proof.
  intros HQ. pose proof (qo_some _ _ _ _ _ _ HQ). pose proof (locations_nonempty _ _ _ _ _ (qo_locations _ _ _ _ _ _ HQ)) as Hn.
  destruct gs as [|loc gs]; [done|]. apply Forall_cons in Hn as [Hn _]. destruct loc as [|row loc]; [done|].
  exists row. apply list_elem_of_here.
Qed.

(** C13: After a query whose rows come location by location (the rows of a
    location share their sequence number, or number at most the given channels)
    and whose obsgroup has one location for them (not sonde, oceansound,
    geocloud, nor gnssro without channels), the variable made from a numeric
    column has one element for each location.  It is the value of one of the rows
    of the location (so the value itself where the rows agree, missing or not),
    and the first value of the location that is not missing if this and all the
    locations before it have such a value; nothing else of the group changes.
    After a location without a value the first value of a later one may be
    overwritten ([search_goes_on]). *)
Theorem odb_location_variables file columns filename varnos query trunc result gs vn sq og maxc col c ty
    (val : list R -> Val F) fill g :
  query_ok columns gs vn sq og maxc -> plain_locations og maxc = true ->
  query_result file columns filename varnos query gs result ->
  index_of columns col = Some c -> map oc_type (sel_columns result) !! c = Some ty ->
  Forall (fun row => odb_val ty (cell columns col row) = Some (val row)) (concat gs) ->
  Z.of_nat (length gs) < 2 ^ 31 -> dim_open "Location" g = Ok (Z.of_nat (length gs), Z.of_nat (length gs)) ->
  exists s g' fv vals, select (DataFromSQL_new maxc) file columns filename varnos query trunc = Ok s /\
    createVarnoIndependentIodaVariable s col fill g = Ok g' /\ put g col fv g' /\
    fv_dims fv = ["Location"] /\ dtype_ (fv_var fv) = odb_t ty /\
    array (fv_var fv) (length gs) [] vals /\ location_values ty val gs vals.
Proof.
  intros HQ Hpl [Hfile Hrows Hcols Hdef] Hidx Hty Hval Hn Hd.
  destruct (select_ok columns gs vn sq og maxc file filename varnos query trunc result HQ Hpl Hfile Hrows Hcols Hdef) as (s & Hs & HS).
  destruct (column_type columns _ s col c ty (se_columns _ _ _ _ _ _ _ HS) (se_types _ _ _ _ _ _ _ HS) Hidx Hty) as [Ht Hcol].
  destruct (first_row _ _ _ _ _ _ HQ) as [row Hrow].
  pose proof (proj1 (list.Forall_forall _ _) Hval _ Hrow) as Hv.
  assert (Hw : forall vals, location_values ty val gs vals ->
    exists g' fv, create_and_write col ["Location"] (odb_t ty) (Some (odb_fill ty)) vals g = Ok g' /\ put g col fv g' /\
      fv_dims fv = ["Location"] /\ dtype_ (fv_var fv) = odb_t ty /\ array (fv_var fv) (length gs) [] vals).
  { intros vals [Hlen _]. apply (create_and_write_ok _ _ _ _ _ _ _ (Z.of_nat (length gs))).
    - apply odb_t_supported.
    - split; [constructor|change (prodZ []) with 1; lia|change (prodZ []) with 1; lia].
    - lia.
    - cbn [mapR]. by rewrite Hd.
    - rewrite Hlen. change (row_size []) with 1%nat. lia. }
  exists s. unfold createVarnoIndependentIodaVariable. rewrite Ht. cbn [mbind res_bind].
  fold (is_integer ty). unfold odb_t, odb_fill in Hw |- *. destruct (odb_val_type _ _ _ Hv) as [Hi|[Hi Hr]]; rewrite Hi in Hw |- *.
  - destruct (location_column columns gs vn sq og maxc _ s HQ Hpl HS odb_int VInt ty col val (int_typed ty Hi) Hcol Hval)
      as (var & -> & E). cbn [mbind res_bind]. destruct (Hw _ E) as (g' & fv & Hg & Hput). exists g', fv, (map VInt var). tauto.
  - destruct (location_column columns gs vn sq og maxc _ s HQ Hpl HS odb_float VFloat ty col val (real_typed ty Hi Hr) Hcol Hval)
      as (var & -> & E). rewrite Hr. cbn [mbind res_bind]. destruct (Hw _ E) as (g' & fv & Hg & Hput). exists g', fv, (map VFloat var). tauto.
Qed.

(** C14: For the obsgroups whose varnos get no special treatment (scatwind, atovs,
    airs, ssmis, seviriclr, abiclr, atms, ahiclr, mwri, gmilow, gmihigh, sattcwv,
    and amsr and mwsfy3; not sonde, oceansound, geocloud, surfacecloud, gnssro,
    surface, aircraft, cris, hiras, iasi), without a bound on the channels: when
    every location of the query has the same number of rows of a varno, at least
    one, the variable of the varno has along locations (and channels, if there
    are several) the values of the rows of that varno and location, in the order
    of the rows.  For amsr and mwsfy3 the variable of any varno has instead, for
    each location, the rows of the two varnos of brightness temperatures one
    after the other. *)
Theorem odb_varno_variables file columns filename varnos query trunc result gs vn sq og v k col c ty
    (val : list R -> Val F) g :
  query_ok columns gs vn sq og 0 -> plain_locations og 0 = true -> plain_columns og = true ->
  query_result file columns filename varnos query gs result ->
  (forall w loc, w ∈ v :: call_varnos og v -> loc ∈ gs -> length (rows_with vn w loc) = k w) ->
  (forall w, w ∈ v :: call_varnos og v -> (0 < k w)%nat) ->
  (k v = 1%nat -> call_varnos og v = [v]) ->
  index_of columns col = Some c -> map oc_type (sel_columns result) !! c = Some ty ->
  Forall (fun row => odb_val ty (cell columns col row) = Some (val row)) (concat gs) ->
  shape (length gs) (varno_rest og v k) ->
  mapR (fun d => dim_open d g) (varno_dims v k) =
    Ok ((Z.of_nat (length gs), Z.of_nat (length gs)) :: map (fun z => (z, z)) (varno_rest og v k)) ->
  exists s g' fv, select (DataFromSQL_new 0) file columns filename varnos query trunc = Ok s /\
    createVarnoDependentIodaVariable s col v g = Ok g' /\ put g (col +:+ "/" +:+ pretty v) fv g' /\
    fv_dims fv = varno_dims v k /\ dtype_ (fv_var fv) = odb_t ty /\
    array (fv_var fv) (length gs) (varno_rest og v k) (map val (concat (map (location_rows vn (call_varnos og v)) gs))).
Proof.
  intros HQ Hpl Hpc [Hfile Hrows Hcols Hdef] Hreg Hpos Hone Hidx Hty Hval Hsh Hd.
  destruct (select_ok columns gs vn sq og 0 file filename varnos query trunc result HQ Hpl Hfile Hrows Hcols Hdef) as (s & Hs & HS).
  exists s. destruct (column_type columns _ s col c ty (se_columns _ _ _ _ _ _ _ HS) (se_types _ _ _ _ _ _ _ HS) Hidx Hty) as [Ht Hcol].
  destruct (first_row _ _ _ _ _ _ HQ) as [row Hrow].
  pose proof (proj1 (list.Forall_forall _ _) Hval _ Hrow) as Hv.
  assert (Hnd : NoDup (call_varnos og v)).
  { unfold call_varnos. destruct (og =? obsgroup_amsr); [|destruct (og =? obsgroup_mwsfy3)]; apply (bool_decide_unpack _); [done..|].
    apply bool_decide_pack, NoDup_singleton. }
  destruct (create_and_write_ok (col +:+ "/" +:+ pretty v) (varno_dims v k) (odb_t ty) (Some (odb_fill ty))
    (map val (concat (map (location_rows vn (call_varnos og v)) gs))) g (length gs) (Z.of_nat (length gs)) (varno_rest og v k))
    as (g' & fv & Hg & Hp & H1 & H2 & H3).
  - apply odb_t_supported.
  - done.
  - lia.
  - done.
  - by apply varno_count.
  - exists g', fv. split_and!; try done. unfold createVarnoDependentIodaVariable.
    rewrite (varno_scales columns gs vn sq og 0 _ s HQ HS v k Hpc eq_refl Hreg Hpos g _ Hd). cbn [mbind res_bind].
    assert (E0 : exists d ds, varno_dims v k = d :: ds) by (unfold varno_dims; destruct (k v =? 1)%nat; eauto).
    destruct E0 as (d & ds & E0). rewrite E0 in *.
    erewrite call_arguments by eassumption. rewrite Ht. cbn [mbind res_bind].
    fold (is_integer ty). unfold odb_t, odb_fill in Hg. destruct (odb_val_type _ _ _ Hv) as [Hi|[Hi Hr]]; rewrite Hi in Hg |- *.
    + edestruct (varno_values columns gs vn sq og 0 _ s HQ HS v k Hpc Hreg Hpos odb_int VInt ty col val Hnd (int_typed ty Hi) Hcol Hval)
        as (var & -> & E). cbn [mbind res_bind]. by rewrite E.
    + destruct (varno_values columns gs vn sq og 0 _ s HQ HS v k Hpc Hreg Hpos odb_float VFloat ty col val Hnd (real_typed ty Hi Hr) Hcol Hval)
        as (var & -> & E). rewrite Hr. cbn [mbind res_bind]. by rewrite E.
Qed.
End variables.

Module Sample.
Import ObsSpaceVars.Sample OdbData.Sample.

Definition columns : list string := ["ops_obsgroup"; "seqno"; "varno"; "lat"; "obsvalue"].
Definition missing : Z := odb_missing_int.
Definition field (i : nat) (row : list Z) : Z := default 0 (row !! i).

(** Two locations with two rows each; the first row has no latitude. *)
Definition gs : list (list (list Z)) :=
  [[[19; 1; 119; missing; 5]; [19; 1; 119; 7; 6]]; [[19; 2; 119; 8; 15]; [19; 2; 119; 9; 16]]].
Definition int_column : OdbColumn := {| oc_type := odb_type_int; oc_names := []; oc_sizes := [] |}.
Definition real_column : OdbColumn := {| oc_type := odb_type_real; oc_names := []; oc_sizes := [] |}.
Definition answer (rows : list (list Z)) : SelectResult Z :=
  {| sel_columns := [int_column; int_column; int_column; int_column; real_column]; sel_rows := rows |}.
Definition og : ObsGroup Z :=
  {| g_dim_names := ["Location"; "Channel"]; g_dims := <["Location" := (2, 2)]> {["Channel" := (2, 2)]}; g_names := []; g_vars := ∅ |}.

Ltac each := repeat (apply Forall_cons; split; [done || (repeat split; lia)|]); apply Forall_nil; exact I.

Lemma gs_ok : query_ok columns gs (field 2) (field 1) obsgroup_ssmis 0.
Proof.
  split.
  - split_and!; apply (bool_decide_unpack _); done.
  - each.
  - done.
  - each.
  - each.
  - each.
  - lia.
  - cbn. split_and!; first [done | lia | (left; done) | each].
Qed.

Lemma gs_result : query_result (fun _ => Some (answer (concat gs))) columns "file" [119] "" gs (answer (concat gs)).
Proof. split; [done|done|done|each]. Qed.

Lemma odb_location_variables_witness :
  exists s g' fv, select (DataFromSQL_new 0) (fun _ => Some (answer (concat gs))) columns "file" [119] "" false = Ok s /\
    createVarnoIndependentIodaVariable s "lat" None og = Ok g' /\ g_vars g' !! "lat" = Some fv /\
    array (fv_var fv) 2 [] [VInt 7; VInt 8].
Proof.
  destruct (odb_location_variables (fun _ => Some (answer (concat gs))) columns "file" [119] "" false (answer (concat gs)) gs
    (field 2) (field 1) obsgroup_ssmis 0 "lat" 3 odb_type_int (fun row => VInt (field 3 row)) None og gs_ok eq_refl gs_result)
    as (s & g' & fv & vals & H1 & H2 & H3 & H4 & H5 & H6 & H7 & H8 & H9).
  - reflexivity.
  - reflexivity.
  - each.
  - cbn. lia.
  - reflexivity.
  - exists s, g', fv. split_and!; [exact H1|exact H2|by eapply put_lookup|].
    assert (HF : Forall (has_value (fun row => VInt (field 3 row))) gs).
    { repeat (apply Forall_cons; split; [|]); [right; left; done|left; done|apply Forall_nil; exact I]. }
    pose proof (H9 0%nat _ eq_refl (Forall_take _ 1%nat _ HF)) as E0. pose proof (H9 1%nat _ eq_refl (Forall_take _ 2%nat _ HF)) as E1.
    destruct vals as [|a [|b [|? ?]]]; try discriminate H7. injection E0 as ->. injection E1 as ->. exact H6.
Defined.

Lemma odb_varno_variables_witness :
  exists s g' fv, select (DataFromSQL_new 0) (fun _ => Some (answer (concat gs))) columns "file" [119] "" false = Ok s /\
    createVarnoDependentIodaVariable s "obsvalue" 119 og = Ok g' /\ g_vars g' !! "obsvalue/119" = Some fv /\
    array (fv_var fv) 2 [2] [VFloat 5; VFloat 6; VFloat 15; VFloat 16].
Proof.
  destruct (odb_varno_variables (fun _ => Some (answer (concat gs))) columns "file" [119] "" false (answer (concat gs)) gs
    (field 2) (field 1) obsgroup_ssmis 119 (fun _ => 2%nat) "obsvalue" 4 odb_type_real (fun row => VFloat (field 4 row)) og gs_ok eq_refl eq_refl gs_result)
    as (s & g' & fv & H1 & H2 & H3 & H4 & H5 & H6).
  - intros w loc Hw Hloc. change (call_varnos obsgroup_ssmis 119) with [119] in Hw. unfold gs in Hloc.
    rewrite !elem_of_cons, elem_of_nil in Hw. rewrite !elem_of_cons, elem_of_nil in Hloc. destruct Hw as [->|[->|[]]], Hloc as [->|[->|[]]]; reflexivity.
  - intros w _. lia.
  - discriminate.
  - reflexivity.
  - reflexivity.
  - each.
  - split; [repeat constructor|change (prodZ (varno_rest obsgroup_ssmis 119 (fun _ => 2%nat))) with 2; cbn; lia..].
  - reflexivity.
  - exists s, g', fv. split_and!; [exact H1|exact H2|by eapply put_lookup|exact H6].
Defined.

(** When a location has no value of a column, the search for a value goes
    on into the next location, whose own first value is then overwritten: of the
    two rows of the second location here, with a value and without one, the
    missing value ends up in the column. *)
Theorem search_goes_on :
  (s ← select (DataFromSQL_new 0) (fun _ => Some (answer [[19; 1; 119; missing; 5]; [19; 2; 119; 8; 15]; [19; 2; 119; missing; 16]]))
         columns "file" [119] "" false;
   getMetadataColumnInt s "lat") = Ok [missing; missing].
Proof. vm_compute. reflexivity. Qed.

(** A query that finds no rows throws [std::out_of_range], although an empty
    file gives an empty result. *)
Theorem empty_query_throws :
  select (DataFromSQL_new 0) (fun _ => Some (answer [])) columns "file" [119] "" false = Throw EOutOfRange /\
  exists s, select (DataFromSQL_new 0) (fun _ => None) columns "file" [119] "" false = Ok s /\ numberOfLevels s 119 = Ok 0%nat.
Proof. split; [vm_compute; reflexivity|]. eexists. split; vm_compute; reflexivity. Qed.

(** For geocloud the locations are counted by sequence number and the metadata
    filled by the rows of the first varno: two of them in a location overrun the
    array. *)
Example geocloud_overrun :
  (s ← select (DataFromSQL_new 0) (fun _ => Some (answer [[28; 1; 266; 7; 5]; [28; 1; 266; 7; 6]])) columns "file" [266] "" false;
   getMetadataColumnInt s "lat") = Throw EUndefined.
Proof. vm_compute. reflexivity. Qed.
End Sample.
