(* ===== verification/OdbOpen.v ===== *)
(** Reading an ODB file: the query and mapping files and [openFile] of
    src/src/engines/ioda/src/ioda/Engines/ODC/ODC.cpp.

    The two YAML files are records of their parameters.  Variables are named as
    in the ODB; the layout policy renames them when they are created. *)
From stdpp Require Import base list gmap strings pretty.
From Stdlib Require Import ZArith.
From S2P Require Import Prelude Selection VarAttrStore ObsTypes ObsVariables ObsFrame ObsFrameRead ObsRecords OdbData OdbVariables.
Local Open Scope Z_scope.

(** * Column expressions *)

(** [\w] *)
Definition is_word (c : Ascii.ascii) : bool :=
  let n := Ascii.nat_of_ascii c in
  ((48 <=? n)%nat && (n <=? 57)%nat) || ((65 <=? n)%nat && (n <=? 90)%nat) || ((97 <=? n)%nat && (n <=? 122)%nat) || (n =? 95)%nat.

(** The longest prefix of word characters, and the rest. *)
Fixpoint span_word (s : string) : string * string :=
  match s with
  | EmptyString => (EmptyString, EmptyString)
  | String c s' => if is_word c then let '(w, r) := span_word s' in (String c w, r) else (EmptyString, s)
  end.

(** [.+] up to the end: not empty and without line ends. *)
Fixpoint one_line (s : string) : bool :=
  match s with
  | EmptyString => true
  | String c s => negb ((Ascii.nat_of_ascii c =? 10)%nat || (Ascii.nat_of_ascii c =? 13)%nat) && one_line s
  end.
Definition nonempty (s : string) : bool := negb (bool_decide (s = EmptyString)).

(** The optional parts [.member] and [@table] of the regular expression. *)
Definition match_member (s : string) : option (string * string) :=
  match s with
  | String c r => if (Ascii.nat_of_ascii c =? 46)%nat then
      let '(w, r') := span_word r in if nonempty w then Some (w, r') else None
    else Some (EmptyString, s)
  | EmptyString => Some (EmptyString, EmptyString)
  end.
Definition match_table (s : string) : option string :=
  match s with
  | EmptyString => Some EmptyString
  | String c r => if (Ascii.nat_of_ascii c =? 64)%nat && nonempty r && one_line r then Some r else None
  end.

(** [ParsedColumnExpression]: the column and the member. *)
Definition ParsedColumnExpression (expression : string) : string * string :=
  let '(w, r) := span_word expression in
  match (if nonempty w then match_member r else None) with
  | Some (member, r') =>
      match match_table r' with
      | Some table => (if nonempty table then w +:+ "@" +:+ table else w, member)
      | None => (expression, EmptyString)
      end
  | None => (expression, EmptyString)
  end.

(** * The query file *)

Record MemberSelection := { selectedMembers_ : gset string; allMembersSelected_ : bool }.
Definition MemberSelection_new : MemberSelection := {| selectedMembers_ := ∅; allMembersSelected_ := false |}.
Definition addMember (member : string) (ms : MemberSelection) : MemberSelection :=
  if allMembersSelected_ ms then ms
  else {| selectedMembers_ := {[member]} ∪ selectedMembers_ ms; allMembersSelected_ := false |}.
Definition addAllMembers (ms : MemberSelection) : MemberSelection :=
  {| selectedMembers_ := ∅; allMembersSelected_ := true |}.
Definition intersectionWith (ms : MemberSelection) (members : gset string) : gset string :=
  if allMembersSelected_ ms then members else members ∩ selectedMembers_ ms.

(** [ColumnSelection] is its map [members_]. *)
Notation ColumnSelection := (gmap string MemberSelection).
Definition members_at (m : ColumnSelection) (column : string) : MemberSelection := default MemberSelection_new (m !! column).
Definition addColumn (column : string) (m : ColumnSelection) : ColumnSelection := <[column := addAllMembers (members_at m column)]> m.
Definition addColumnMember (column member : string) (m : ColumnSelection) : ColumnSelection :=
  <[column := addMember member (members_at m column)]> m.
(** [columns]: the keys in the order of the map. *)
Definition selection_columns (m : ColumnSelection) : list string := std_sort String.ltb (map fst (map_to_list m)).

Definition addQueryColumns (m : ColumnSelection) (variables : list string) : ColumnSelection :=
  foldl (fun m name => let '(column, member) := ParsedColumnExpression name in
      if nonempty member then addColumnMember column member m else addColumn column m) m variables.
Definition mandatory_columns : list string := ["lat"; "lon"; "date"; "time"; "seqno"; "varno"; "ops_obsgroup"; "vertco_type"].
Definition addMandatoryColumns (m : ColumnSelection) : ColumnSelection := foldl (fun m column => addColumn column m) m mandatory_columns.

(** [std::rotate] that moves a column to the end. *)
Definition move_to_end (x : string) (l : list string) : list string :=
  match list_find (fun c => c = x) l with
  | Some (i, _) => take i l ++ drop (S i) l ++ [x]
  | None => l
  end.

(** * The mapping file *)

Record VariableParameters := { vp_name : string; vp_source : string; vp_unit : option string }.
Record VarnoMapping := { vm_name : string; vm_varno : Z; vm_unit : option string }.
Record VarnoDependentColumn := { vd_source : string; vd_group : string; vd_mappings : list VarnoMapping }.
Record ComplementaryVariables := { cv_output : string; cv_type : string; cv_inputs : list string; cv_method : string }.
Record ODBLayoutParameters := {
  lp_variables : list VariableParameters;
  lp_complementary : list ComplementaryVariables;
  lp_varno_columns : list VarnoDependentColumn
}.

Record NonbitfieldColumnMapping := { varnoIndependent_ : bool; nb_varnos_ : gset Z }.
Definition Nonbitfield_new : NonbitfieldColumnMapping := {| varnoIndependent_ := false; nb_varnos_ := ∅ |}.
Record BitfieldColumnMapping := { varnoIndependentMembers_ : gset string; varnoDependentMembers_ : gmap Z (gset string) }.
Definition Bitfield_new : BitfieldColumnMapping := {| varnoIndependentMembers_ := ∅; varnoDependentMembers_ := ∅ |}.
Record ColumnMappings := { nonbitfieldColumns : gmap string NonbitfieldColumnMapping; bitfieldColumns : gmap string BitfieldColumnMapping }.

Definition update_nonbitfield (column : string) (f : NonbitfieldColumnMapping -> NonbitfieldColumnMapping) (m : ColumnMappings) : ColumnMappings :=
  {| nonbitfieldColumns := <[column := f (default Nonbitfield_new (nonbitfieldColumns m !! column))]> (nonbitfieldColumns m);
     bitfieldColumns := bitfieldColumns m |}.
Definition update_bitfield (column : string) (f : BitfieldColumnMapping -> BitfieldColumnMapping) (m : ColumnMappings) : ColumnMappings :=
  {| nonbitfieldColumns := nonbitfieldColumns m;
     bitfieldColumns := <[column := f (default Bitfield_new (bitfieldColumns m !! column))]> (bitfieldColumns m) |}.

Definition markAsVarnoIndependent (c : NonbitfieldColumnMapping) : NonbitfieldColumnMapping :=
  {| varnoIndependent_ := true; nb_varnos_ := nb_varnos_ c |}.
Definition addVarno (varno : Z) (c : NonbitfieldColumnMapping) : NonbitfieldColumnMapping :=
  {| varnoIndependent_ := varnoIndependent_ c; nb_varnos_ := {[varno]} ∪ nb_varnos_ c |}.
Definition addVarnoIndependentMember (member : string) (c : BitfieldColumnMapping) : BitfieldColumnMapping :=
  {| varnoIndependentMembers_ := {[member]} ∪ varnoIndependentMembers_ c; varnoDependentMembers_ := varnoDependentMembers_ c |}.
Definition addVarnoDependentMember (varno : Z) (member : string) (c : BitfieldColumnMapping) : BitfieldColumnMapping :=
  {| varnoIndependentMembers_ := varnoIndependentMembers_ c;
     varnoDependentMembers_ := <[varno := {[member]} ∪ default ∅ (varnoDependentMembers_ c !! varno)]> (varnoDependentMembers_ c) |}.

(** [checkConsistency] of the two classes. *)
Definition nonbitfield_consistent (c : NonbitfieldColumnMapping) : bool :=
  negb (varnoIndependent_ c && negb (bool_decide (nb_varnos_ c = ∅))).
Definition bitfield_consistent (c : BitfieldColumnMapping) : bool :=
  bool_decide (Forall (fun p => p.2 ∩ varnoIndependentMembers_ c = ∅) (map_to_list (varnoDependentMembers_ c))).

Definition collectColumnMappings (lp : ODBLayoutParameters) : res ColumnMappings :=
  let m := foldl (fun m c => let '(column, member) := ParsedColumnExpression (vp_source c) in
      if nonempty member then update_bitfield column (addVarnoIndependentMember member) m
      else update_nonbitfield column markAsVarnoIndependent m)
    {| nonbitfieldColumns := ∅; bitfieldColumns := ∅ |} (lp_variables lp) in
  let m := foldl (fun m c => let '(column, member) := ParsedColumnExpression (vd_source c) in
      if nonempty member then
        update_bitfield column (fun b => foldl (fun b p => addVarnoDependentMember (vm_varno p) member b) b (vd_mappings c)) m
      else update_nonbitfield column (fun b => foldl (fun b p => addVarno (vm_varno p) b) b (vd_mappings c)) m)
    m (lp_varno_columns lp) in
  let m := foldl (fun m c => foldl (fun m input => update_nonbitfield input markAsVarnoIndependent m) m (cv_inputs c))
    m (lp_complementary lp) in
  if forallb (fun p => nonbitfield_consistent p.2) (map_to_list (nonbitfieldColumns m)) &&
     forallb (fun p => bitfield_consistent p.2) (map_to_list (bitfieldColumns m))
  then Ok m else Throw (EUserError "declared both as varno-independent and varno-dependent").

(** * Creating the variables *)

Section OdbOpen.
Context {R F : Type} `{OD : OdbDouble R F} `{FO : FloatOps F}.
Implicit Types (s : DataFromSQL R) (g : ObsGroup F).

(** The varnos that make no variable of their own. *)
Definition merged_varno s (varno : Z) : bool :=
  ((obsgroup_ s =? obsgroup_amsr) && negb (varno =? varno_rawbt)) ||
  ((obsgroup_ s =? obsgroup_mwsfy3) && negb (varno =? varno_rawbt_mwts)).

Definition nonbitfield_createIodaVariables (c : NonbitfieldColumnMapping) s (column : string) (varnoSelection : list Z) g : res (ObsGroup F) :=
  if varnoIndependent_ c then createVarnoIndependentIodaVariable s column None g
  else foldM (fun g varno =>
      if bool_decide (varno ∈ nb_varnos_ c) && negb (merged_varno s varno)
      then createVarnoDependentIodaVariable s column varno g else Ok g) g varnoSelection.

Definition bitfield_createIodaVariables (c : BitfieldColumnMapping) s (column : string) (ms : MemberSelection) (varnoSelection : list Z) g
  : res (ObsGroup F) :=
  g ← (if bool_decide (varnoIndependentMembers_ c = ∅) then Ok g
       else createVarnoIndependentIodaVariables s column (intersectionWith ms (varnoIndependentMembers_ c)) None g);
  foldM (fun g varno =>
      match varnoDependentMembers_ c !! varno with
      | Some members => if merged_varno s varno then Ok g
                        else createVarnoDependentIodaVariables s column (intersectionWith ms members) varno None g
      | None => Ok g
      end) g varnoSelection.

(** The columns that give the channel numbers. *)
Definition channel_column s (column : string) : option (res (list Z)) :=
  let o := obsgroup_ s in
  if bool_decide (column = "initial_vertco_reference") && (o =? obsgroup_airs) then Some (assignChannelNumbers s varno_rawbt)
  else if bool_decide (column = "initial_vertco_reference") && ((o =? obsgroup_iasi) || (o =? obsgroup_cris) || (o =? obsgroup_hiras))
  then Some (assignChannelNumbers s varno_rawsca)
  else if bool_decide (column = "initial_vertco_reference") &&
    ((o =? obsgroup_abiclr) || (o =? obsgroup_ahiclr) || (o =? obsgroup_atms) || (o =? obsgroup_gmihigh) || (o =? obsgroup_gmilow) ||
     (o =? obsgroup_mwri) || (o =? obsgroup_seviriclr) || (o =? obsgroup_ssmis))
  then Some (assignChannelNumbersSeq s [varno_rawbt])
  else if bool_decide (column = "initial_vertco_reference") && (o =? obsgroup_atovs) then Some (assignChannelNumbersSeq s [varno_rawbt_amsu])
  else if bool_decide (column = "initial_vertco_reference") && (o =? obsgroup_mwsfy3)
  then Some (assignChannelNumbersSeq s [varno_rawbt_mwts; varno_rawbt_mwhs])
  else if bool_decide (column = "initial_vertco_reference") && (o =? obsgroup_amsr)
  then Some (assignChannelNumbersSeq s [varno_rawbt; varno_rawbt_amsr_89ghz])
  else if bool_decide (column = "initial_vertco_reference") && (o =? obsgroup_scatwind) then Some (assignChannelNumbersSeq s [varno_dd])
  else if bool_decide (column = "vertco_reference_2") && (o =? obsgroup_gnssro) then Some (assignChannelNumbersSeq s [varno_bending_angle])
  else if bool_decide (column = "initial_vertco_reference") && (o =? obsgroup_surfacecloud)
  then Some (assignChannelNumbersSeq s [varno_cloud_fraction_covered])
  else None.

(** One column of the loop; the state has the values of the scale Channel, once
    they are written. *)
Definition open_column s (selection : ColumnSelection) (mappings : ColumnMappings) (varnos : list Z)
    (st : ObsGroup F * option (list Z)) (column : string) : res (ObsGroup F * option (list Z)) :=
  let '(g, channels) := st in
  match channel_column s column with
  | Some numbers => l ← numbers; Ok (g, Some l)
  | None =>
      g ← match nonbitfieldColumns mappings !! column with
          | Some c => nonbitfield_createIodaVariables c s column varnos g
          | None => Ok g
          end;
      g ← match bitfieldColumns mappings !! column with
          | Some c => match selection !! column with
                      | Some ms => bitfield_createIodaVariables c s column ms varnos g
                      | None => Throw EOutOfRange
                      end
          | None => Ok g
          end;
      Ok (g, channels)
  end.

(** ** [openFile] *)

Section open.
Context {DT : Type} `{DTO : DateTimeOps DT} `{EqDT : EqDecision DT}.
Variable dt_new : Z -> Z -> Z -> Z -> Z -> Z -> res DT.

(** The query file and the parameters of the engine.  [q_epoch] is the date of
    the units string. *)
Record OdbQuery := {
  q_variables : list string;
  q_varnos : list Z;
  q_query : string;
  q_truncate : bool;
  q_epoch : DT;
  q_missingInt64 : Z;
  q_timeDisplacement : string
}.
Record ODC_Parameters := {
  op_filename : string;
  op_maxNumberChannels : Z;
  op_timeWindowStart : DT;
  op_timeWindowExtendedLowerBound : DT
}.

Definition query_selection (q : OdbQuery) : ColumnSelection := addMandatoryColumns (addQueryColumns ∅ (q_variables q)).
Definition query_columns (q : OdbQuery) : list string := move_to_end "initial_obsvalue" (selection_columns (query_selection q)).

(** [ObsGroup::generate] with the new dimension scales. *)
Definition generate (vertcos : list (string * nat)) : ObsGroup F :=
  {| g_dim_names := map fst vertcos;
     g_dims := list_to_map (map (fun p => (fst p, (Z.of_nat (snd p), Z.of_nat (snd p)))) vertcos);
     g_names := []; g_vars := ∅ |}.

Definition create_dates s (q : OdbQuery) (name date_col time_col : string) (start bound : DT) (disp : string) g : res (ObsGroup F) :=
  g ← createWithScales name ["Location"] int64_t (Some (VInt64 (q_missingInt64 q))) g;
  l ← getDates dt_new s date_col time_col (q_epoch q) (q_missingInt64 q) start bound disp;
  vars_update name (fun v => front_write (map VInt64 l) int64_t front_all front_all (fv_var v)) g.

(** The date variables. *)
Definition open_dates s (op : ODC_Parameters) (q : OdbQuery) g : res (ObsGroup F) :=
  g ← create_dates s q "MetaData/dateTime" "date" "time" (op_timeWindowStart op) (op_timeWindowExtendedLowerBound op)
        (q_timeDisplacement q) g;
  g ← create_dates s q "MetaData/receiptdateTime" "receipt_date" "receipt_time" dt_missing dt_missing "" g;
  if bool_decide (op_timeWindowExtendedLowerBound op = dt_missing) then Ok g
  else create_dates s q "MetaData/initialDateTime" "date" "time" dt_missing dt_missing "" g.

(** The station names, for the groups that construct them. *)
Definition open_stations s g : res (ObsGroup F) :=
  if (obsgroup_ s =? obsgroup_sonde) || (obsgroup_ s =? obsgroup_oceansound) then
    g ← createWithScales "MetaData/stationIdentification" ["Location"] string_t None g;
    l ← getStationIDs s;
    vars_update "MetaData/stationIdentification" (fun v => front_write (map VString l) string_t front_all front_all (fv_var v)) g
  else Ok g.

(** [openFile] up to the stitching of complementary variables; nothing when the
    query has no locations. *)
Definition openFile (file : string -> option (SelectResult R)) (op : ODC_Parameters) (q : OdbQuery) (lp : ODBLayoutParameters)
  : res (option (DataFromSQL R * (ObsGroup F * option (list Z)))) :=
  s ← select (DataFromSQL_new (op_maxNumberChannels op)) file (query_columns q) (op_filename op) (q_varnos q) (q_query q) (q_truncate q);
  if (number_of_metadata_rows_ s =? 0)%nat then Ok None
  else
    vertcos ← getVertcos s;
    mappings ← collectColumnMappings lp;
    g ← open_dates s op q (generate vertcos);
    g ← open_stations s g;
    st ← foldM (open_column s (query_selection q) mappings (q_varnos q)) (g, None) (columns_ s);
    Ok (Some (s, st)).
End open.
End OdbOpen.
