(* ===== verification/OdbOpenSpec.v ===== *)
(** Properties of the query and mapping files of the ODB reader: which columns
    and members are selected, and which variables a mapping declares. *)
From stdpp Require Import base list gmap strings pretty.
From Stdlib Require Import ZArith.
From S2P Require Import Prelude Selection VarAttrStore ObsTypes ObsVariables ObsFrame ObsFrameRead ObsRecords OdbData OdbVariables OdbOpen.
Local Open Scope Z_scope.

Implicit Types (column member : string) (varno : Z).

Lemma nonempty_true s : nonempty s = true <-> s <> EmptyString.
Proof. unfold nonempty. rewrite negb_true_iff, bool_decide_eq_false. done. Qed.
Lemma nonempty_false s : nonempty s = false <-> s = EmptyString.
Proof. unfold nonempty. rewrite negb_false_iff, bool_decide_eq_true. done. Qed.

(** * The mapping file *)

(** What a mapping file declares: the columns and members that make one
    variable, and those that make one for each varno. *)
Definition declares_independent (lp : ODBLayoutParameters) column member : Prop :=
  (exists c, c ∈ lp_variables lp /\ ParsedColumnExpression (vp_source c) = (column, member)) \/
  (member = EmptyString /\ exists c, c ∈ lp_complementary lp /\ column ∈ cv_inputs c).
Definition declares_dependent (lp : ODBLayoutParameters) column member varno : Prop :=
  exists c, c ∈ lp_varno_columns lp /\ ParsedColumnExpression (vd_source c) = (column, member) /\ varno ∈ map vm_varno (vd_mappings c).

Definition nonbitfield_at (m : ColumnMappings) column : NonbitfieldColumnMapping := default Nonbitfield_new (nonbitfieldColumns m !! column).
Definition bitfield_at (m : ColumnMappings) column : BitfieldColumnMapping := default Bitfield_new (bitfieldColumns m !! column).
Definition dependent_members (c : BitfieldColumnMapping) varno : gset string := default ∅ (varnoDependentMembers_ c !! varno).

(** The mappings hold the declarations [P] and [Q]. *)
Record holds (m : ColumnMappings) (P : string -> string -> Prop) (Q : string -> string -> Z -> Prop) : Prop := {
  holds_independent column : varnoIndependent_ (nonbitfield_at m column) = true <-> P column EmptyString;
  holds_varnos column varno : varno ∈ nb_varnos_ (nonbitfield_at m column) <-> Q column EmptyString varno;
  holds_independent_members column member :
    member ∈ varnoIndependentMembers_ (bitfield_at m column) <-> member <> EmptyString /\ P column member;
  holds_dependent_members column member varno :
    member ∈ dependent_members (bitfield_at m column) varno <-> member <> EmptyString /\ Q column member varno
}.

Lemma holds_iff m P Q P' Q' : holds m P Q -> (forall c b, P c b <-> P' c b) -> (forall c b v, Q c b v <-> Q' c b v) -> holds m P' Q'.
Proof. intros [H1 H2 H3 H4] HP HQ. split; intros; rewrite <-?HP, <-?HQ; auto. Qed.

Lemma nonbitfield_update m column f c :
  nonbitfield_at (update_nonbitfield column f m) c = if decide (c = column) then f (nonbitfield_at m column) else nonbitfield_at m c.
Proof.
  unfold nonbitfield_at, update_nonbitfield. cbn. case_decide; [subst; by rewrite lookup_insert_eq|by rewrite lookup_insert_ne].
Qed.
Lemma bitfield_update m column f c :
  bitfield_at (update_bitfield column f m) c = if decide (c = column) then f (bitfield_at m column) else bitfield_at m c.
Proof.
  unfold bitfield_at, update_bitfield. cbn. case_decide; [subst; by rewrite lookup_insert_eq|by rewrite lookup_insert_ne].
Qed.

(** Declaring a column or member as varno-independent. *)
Definition declare_independent column member (m : ColumnMappings) : ColumnMappings :=
  if nonempty member then update_bitfield column (addVarnoIndependentMember member) m
  else update_nonbitfield column markAsVarnoIndependent m.

Lemma declare_independent_holds column member m P Q : holds m P Q ->
  holds (declare_independent column member m) (fun c b => P c b \/ (c = column /\ b = member)) Q.
Proof.
  intros [H1 H2 H3 H4]. unfold declare_independent. destruct (nonempty member) eqn:E.
  - apply nonempty_true in E. split.
    + intros c. rewrite <-H1. split; [by left|]. by intros [?|[-> <-]].
    + apply H2.
    + intros c b. rewrite bitfield_update. case_decide as Hc; cbn.
      * subst. rewrite elem_of_union, elem_of_singleton, H3. naive_solver.
      * rewrite H3. naive_solver.
    + intros c b v. rewrite bitfield_update. case_decide; [subst|]; by apply H4.
  - apply nonempty_false in E. subst. split.
    + intros c. rewrite nonbitfield_update. case_decide; cbn; [naive_solver|rewrite H1; naive_solver].
    + intros c v. rewrite nonbitfield_update. case_decide; [subst|]; by apply H2.
    + intros c b. etransitivity; [apply H3|naive_solver].
    + apply H4.
Qed.

(** Declaring it as varno-dependent for some varnos. *)
Definition declare_dependent column member (l : list VarnoMapping) (m : ColumnMappings) : ColumnMappings :=
  if nonempty member then update_bitfield column (fun b => foldl (fun b p => addVarnoDependentMember (vm_varno p) member b) b l) m
  else update_nonbitfield column (fun b => foldl (fun b p => addVarno (vm_varno p) b) b l) m.

Lemma addVarnos_spec l c : let c' := foldl (fun b p => addVarno (vm_varno p) b) c l in
  varnoIndependent_ c' = varnoIndependent_ c /\ forall v, v ∈ nb_varnos_ c' <-> v ∈ nb_varnos_ c \/ v ∈ map vm_varno l.
Proof.
  revert c. induction l as [|p l IH]; intros c; cbn [foldl map].
  - split; [done|]. intros v. rewrite elem_of_nil. tauto.
  - destruct (IH (addVarno (vm_varno p) c)) as [H1 H2]. split; [by rewrite H1|]. intros v. rewrite H2, elem_of_cons. cbn.
    rewrite elem_of_union, elem_of_singleton. tauto.
Qed.

Lemma addVarnoDependentMembers_spec member l c : let c' := foldl (fun b p => addVarnoDependentMember (vm_varno p) member b) c l in
  varnoIndependentMembers_ c' = varnoIndependentMembers_ c /\
  forall b v, b ∈ dependent_members c' v <-> b ∈ dependent_members c v \/ (b = member /\ v ∈ map vm_varno l).
Proof.
  revert c. induction l as [|p l IH]; intros c; cbn [foldl map].
  - split; [done|]. intros b v. rewrite elem_of_nil. tauto.
  - destruct (IH (addVarnoDependentMember (vm_varno p) member c)) as [H1 H2]. split; [by rewrite H1|]. intros b v.
    rewrite H2, elem_of_cons. unfold dependent_members at 1. cbn. destruct (decide (v = vm_varno p)) as [->|Hv].
    + rewrite lookup_insert_eq. cbn. rewrite elem_of_union, elem_of_singleton. unfold dependent_members. tauto.
    + rewrite lookup_insert_ne by done. unfold dependent_members. tauto.
Qed.

Lemma declare_dependent_holds column member l m P Q : holds m P Q ->
  holds (declare_dependent column member l m) P (fun c b v => Q c b v \/ (c = column /\ b = member /\ v ∈ map vm_varno l)).
Proof.
  intros [H1 H2 H3 H4]. unfold declare_dependent. destruct (nonempty member) eqn:E.
  - apply nonempty_true in E. destruct (addVarnoDependentMembers_spec member l (bitfield_at m column)) as [S1 S2]. split.
    + apply H1.
    + intros c v. rewrite <-H2. split; [by left|]. by intros [?|(_ & <- & _)].
    + intros c b. rewrite bitfield_update. case_decide; [subst; rewrite S1|]; by apply H3.
    + intros c b v. rewrite bitfield_update. case_decide; [subst; rewrite S2, H4; naive_solver|rewrite H4; naive_solver].
  - apply nonempty_false in E. subst. destruct (addVarnos_spec l (nonbitfield_at m column)) as [S1 S2]. split.
    + intros c. rewrite nonbitfield_update. case_decide; [subst; rewrite S1|]; by apply H1.
    + intros c v. rewrite nonbitfield_update. case_decide; [subst; rewrite S2, H2; naive_solver|rewrite H2; naive_solver].
    + apply H3.
    + intros c b v. etransitivity; [apply H4|naive_solver].
Qed.

Lemma variables_holds l m P Q : holds m P Q ->
  holds (foldl (fun m c => let '(column, member) := ParsedColumnExpression (vp_source c) in
      if nonempty member then update_bitfield column (addVarnoIndependentMember member) m
      else update_nonbitfield column markAsVarnoIndependent m) m l)
    (fun c b => P c b \/ exists x, x ∈ l /\ ParsedColumnExpression (vp_source x) = (c, b)) Q.
Proof.
  revert m P. induction l as [|x l IH]; intros m P H; cbn [foldl].
  - eapply holds_iff; [exact H| |done]. intros. setoid_rewrite elem_of_nil. naive_solver.
  - destruct (ParsedColumnExpression (vp_source x)) as [column member] eqn:E.
    eapply holds_iff; [apply IH, (declare_independent_holds column member m P Q H)| |done].
    intros c b. setoid_rewrite elem_of_cons. split.
    + intros [[?|[-> ->]]|(y & ? & ?)]; eauto 6.
    + intros [?|(y & [->|?] & Hy)]; [by left; left| |eauto]. rewrite E in Hy. simplify_eq. tauto.
Qed.

Lemma varno_columns_holds l m P Q : holds m P Q ->
  holds (foldl (fun m c => let '(column, member) := ParsedColumnExpression (vd_source c) in
      if nonempty member then
        update_bitfield column (fun b => foldl (fun b p => addVarnoDependentMember (vm_varno p) member b) b (vd_mappings c)) m
      else update_nonbitfield column (fun b => foldl (fun b p => addVarno (vm_varno p) b) b (vd_mappings c)) m) m l)
    P (fun c b v => Q c b v \/ exists x, x ∈ l /\ ParsedColumnExpression (vd_source x) = (c, b) /\ v ∈ map vm_varno (vd_mappings x)).
Proof.
  revert m Q. induction l as [|x l IH]; intros m Q H; cbn [foldl].
  - eapply holds_iff; [exact H|done|]. intros. setoid_rewrite elem_of_nil. naive_solver.
  - destruct (ParsedColumnExpression (vd_source x)) as [column member] eqn:E.
    eapply holds_iff; [apply IH, (declare_dependent_holds column member (vd_mappings x) m P Q H)|done|].
    intros c b v. setoid_rewrite elem_of_cons. split.
    + intros [[?|(-> & -> & ?)]|(y & ? & ?)]; [by left|right; exists x; eauto|right; exists y; eauto].
    + intros [?|(y & [->|?] & Hy & ?)]; [by left; left| |right; eauto]. rewrite E in Hy. simplify_eq. tauto.
Qed.

Lemma inputs_holds l m P Q : holds m P Q ->
  holds (foldl (fun m input => update_nonbitfield input markAsVarnoIndependent m) m l)
    (fun c b => P c b \/ (b = EmptyString /\ c ∈ l)) Q.
Proof.
  revert m P. induction l as [|x l IH]; intros m P H; cbn [foldl].
  - eapply holds_iff; [exact H| |done]. intros. rewrite elem_of_nil. tauto.
  - eapply holds_iff; [apply IH, (declare_independent_holds x EmptyString m P Q H)| |done]. intros c b. rewrite elem_of_cons. naive_solver.
Qed.

Lemma complementary_holds l m P Q : holds m P Q ->
  holds (foldl (fun m c => foldl (fun m input => update_nonbitfield input markAsVarnoIndependent m) m (cv_inputs c)) m l)
    (fun c b => P c b \/ (b = EmptyString /\ exists x, x ∈ l /\ c ∈ cv_inputs x)) Q.
Proof.
  revert m P. induction l as [|x l IH]; intros m P H; cbn [foldl].
  - eapply holds_iff; [exact H| |done]. intros. setoid_rewrite elem_of_nil. naive_solver.
  - eapply holds_iff; [apply IH, (inputs_holds (cv_inputs x) m P Q H)| |done]. intros c b. setoid_rewrite elem_of_cons. naive_solver.
Qed.

Definition no_mappings : ColumnMappings := {| nonbitfieldColumns := ∅; bitfieldColumns := ∅ |}.
Lemma no_mappings_holds : holds no_mappings (fun _ _ => False) (fun _ _ _ => False).
Proof.
  split; intros; unfold nonbitfield_at, bitfield_at, dependent_members, no_mappings; cbn; rewrite ?lookup_empty; cbn; rewrite ?lookup_empty; cbn;
    try (rewrite elem_of_empty); naive_solver.
Qed.

(** A column or member with both declarations is what the check looks for. *)
Lemma nonbitfields_consistent m P Q : holds m P Q ->
  forallb (fun p => nonbitfield_consistent p.2) (map_to_list (nonbitfieldColumns m)) = true <->
  forall c v, P c EmptyString -> Q c EmptyString v -> False.
Proof.
  intros H. rewrite forallb_forall. split.
  - intros Hc c v Hp Hq. apply (holds_independent _ _ _ H) in Hp. apply (holds_varnos _ _ _ H) in Hq. unfold nonbitfield_at in *.
    destruct (nonbitfieldColumns m !! c) as [b|] eqn:E; [|done]. cbn in Hp, Hq.
    specialize (Hc (c, b)). unfold nonbitfield_consistent in Hc. cbn in Hc. rewrite Hp in Hc.
    rewrite bool_decide_false in Hc; [|intros He; rewrite He in Hq; by apply elem_of_empty in Hq].
    assert (true = false) as [=]; symmetry; apply Hc. apply list_elem_of_In. by apply elem_of_map_to_list.
  - intros Hno [c b] Hin. apply list_elem_of_In, elem_of_map_to_list in Hin. unfold nonbitfield_consistent. cbn.
    apply negb_true_iff, not_true_is_false. intros [Hi Hv]%andb_prop. apply negb_true_iff, bool_decide_eq_false in Hv.
    destruct (set_choose_or_empty (nb_varnos_ b)) as [[v Hv']|Hemp]; [|by apply Hv, leibniz_equiv].
    apply (Hno c v); [apply (holds_independent _ _ _ H)|apply (holds_varnos _ _ _ H)]; unfold nonbitfield_at; by rewrite Hin.
Qed.

Lemma bitfields_consistent m P Q : holds m P Q ->
  forallb (fun p => bitfield_consistent p.2) (map_to_list (bitfieldColumns m)) = true <->
  forall c b v, b <> EmptyString -> P c b -> Q c b v -> False.
Proof.
  intros H. rewrite forallb_forall. split.
  - intros Hc c b v Hb Hp Hq. assert (Hi : b ∈ varnoIndependentMembers_ (bitfield_at m c)) by (by apply (holds_independent_members _ _ _ H)).
    assert (Hd : b ∈ dependent_members (bitfield_at m c) v) by (by apply (holds_dependent_members _ _ _ H)).
    unfold bitfield_at, dependent_members in *. destruct (bitfieldColumns m !! c) as [x|] eqn:E; [|by apply elem_of_empty in Hi]. cbn in Hi, Hd.
    destruct (varnoDependentMembers_ x !! v) as [members|] eqn:Ev; [|by apply elem_of_empty in Hd]. cbn in Hd.
    specialize (Hc (c, x) ltac:(by apply list_elem_of_In, elem_of_map_to_list)). cbn in Hc. apply bool_decide_eq_true in Hc.
    rewrite list.Forall_forall in Hc. specialize (Hc (v, members) ltac:(by apply elem_of_map_to_list)). cbn in Hc. set_solver.
  - intros Hno [c x] Hin. apply list_elem_of_In, elem_of_map_to_list in Hin. cbn. apply bool_decide_eq_true, list.Forall_forall.
    intros [v members] Hv%elem_of_map_to_list. cbn. apply leibniz_equiv, elem_of_equiv_empty. intros b [Hd Hi]%elem_of_intersection.
    assert (Hi' : b ∈ varnoIndependentMembers_ (bitfield_at m c)) by (unfold bitfield_at; by rewrite Hin).
    assert (Hd' : b ∈ dependent_members (bitfield_at m c) v) by (unfold bitfield_at, dependent_members; rewrite Hin; cbn; by rewrite Hv).
    apply (holds_independent_members _ _ _ H) in Hi' as [Hb Hp]. apply (holds_dependent_members _ _ _ H) in Hd' as [_ Hq]. by apply (Hno c b v).
Qed.

(** C38: The mappings are those that the file declares.  They are rejected exactly
    when a column, or a member of a bitfield column, is declared both as
    varno-independent (as a variable or as an input of a complementary variable)
    and as varno-dependent; otherwise a column is varno-independent when it is
    declared so, and its varnos and the members of each varno are the declared
    ones. *)
Theorem mappings_as_declared (lp : ODBLayoutParameters) :
  ((exists m, collectColumnMappings lp = Ok m) <->
   forall column member varno, declares_independent lp column member -> ~ declares_dependent lp column member varno) /\
  (forall e, collectColumnMappings lp = Throw e -> e = EUserError "declared both as varno-independent and varno-dependent") /\
  forall m, collectColumnMappings lp = Ok m ->
    forall column member varno,
      (varnoIndependent_ (nonbitfield_at m column) = true <-> declares_independent lp column EmptyString) /\
      (varno ∈ nb_varnos_ (nonbitfield_at m column) <-> declares_dependent lp column EmptyString varno) /\
      (member ∈ varnoIndependentMembers_ (bitfield_at m column) <-> member <> EmptyString /\ declares_independent lp column member) /\
      (member ∈ dependent_members (bitfield_at m column) varno <-> member <> EmptyString /\ declares_dependent lp column member varno).
Proof.
  unfold collectColumnMappings. fold no_mappings.
  pose proof (complementary_holds (lp_complementary lp) _ _ _
    (varno_columns_holds (lp_varno_columns lp) _ _ _ (variables_holds (lp_variables lp) _ _ _ no_mappings_holds))) as H.
  apply holds_iff with (P' := declares_independent lp) (Q' := declares_dependent lp) in H; cycle 1.
  { intros c b. unfold declares_independent. tauto. }
  { intros c b v. unfold declares_dependent. tauto. }
  revert H. match goal with |- holds ?m _ _ -> _ => generalize m end. intros m H.
  assert (Hall : forallb (fun p => nonbitfield_consistent p.2) (map_to_list (nonbitfieldColumns m)) &&
     forallb (fun p => bitfield_consistent p.2) (map_to_list (bitfieldColumns m)) = true <->
     forall column member varno, declares_independent lp column member -> ~ declares_dependent lp column member varno).
  { rewrite andb_true_iff, (nonbitfields_consistent _ _ _ H), (bitfields_consistent _ _ _ H). split.
    - intros [H1 H2] c b v Hp Hq. destruct (decide (b = EmptyString)) as [->|]; [by eapply H1|by eapply H2].
    - intros Hn. split; intros; by eapply Hn. }
  split_and!.
  - rewrite <-Hall. destruct (_ && _); [split; [done|by exists m]|]. split; [by intros [? ?]|done].
  - intros e. destruct (_ && _); intros; by inv_res.
  - intros m' Hm. destruct (_ && _); inv_res. intros column member varno.
    split_and!; [apply (holds_independent _ _ _ H)|apply (holds_varnos _ _ _ H)|apply (holds_independent_members _ _ _ H)|apply (holds_dependent_members _ _ _ H)].
Qed.

(** * The query file *)

Lemma exists_nil {A} (P : A -> Prop) : (exists x, x ∈ [] /\ P x) <-> False.
Proof. split; [|done]. intros (x & Hx & _). by apply elem_of_nil in Hx. Qed.
Lemma exists_cons {A} (P : A -> Prop) y l : (exists x, x ∈ y :: l /\ P x) <-> P y \/ exists x, x ∈ l /\ P x.
Proof. setoid_rewrite elem_of_cons. naive_solver. Qed.

(** The selection holds the whole columns [W] and the members [M]. *)
Record selects (m : ColumnSelection) (W : string -> Prop) (M : string -> string -> Prop) : Prop := {
  selects_whole column : allMembersSelected_ (members_at m column) = true <-> W column;
  selects_member column member : ~ W column -> member ∈ selectedMembers_ (members_at m column) <-> M column member;
  selects_column column : is_Some (m !! column) <-> W column \/ exists member, M column member
}.

Lemma selects_iff m W M W' M' : selects m W M -> (forall c, W c <-> W' c) -> (forall c b, M c b <-> M' c b) -> selects m W' M'.
Proof.
  intros [H1 H2 H3] HW HM. split; intros; rewrite <-?HW, <-?HM; auto.
  - apply H2. by rewrite HW.
  - rewrite H3. setoid_rewrite HM. done.
Qed.

Lemma members_at_insert m column ms c : members_at (<[column := ms]> m) c = if decide (c = column) then ms else members_at m c.
Proof. unfold members_at. case_decide; [subst; by rewrite lookup_insert_eq|by rewrite lookup_insert_ne]. Qed.

Lemma addColumn_selects column m W M : selects m W M -> selects (addColumn column m) (fun c => W c \/ c = column) M.
Proof.
  intros [H1 H2 H3]. unfold addColumn. split; intros c; rewrite ?members_at_insert.
  - case_decide; cbn; [naive_solver|rewrite H1; naive_solver].
  - intros b Hn. rewrite decide_False by tauto. apply H2. tauto.
  - rewrite lookup_insert_is_Some, H3. destruct (decide (c = column)); naive_solver.
Qed.

Lemma addColumnMember_selects column member m W M : selects m W M ->
  selects (addColumnMember column member m) W (fun c b => M c b \/ (c = column /\ b = member)).
Proof.
  intros [H1 H2 H3]. unfold addColumnMember, addMember. split.
  - intros c. rewrite members_at_insert. case_decide; [|apply H1]. subst. rewrite <-H1.
    destruct (allMembersSelected_ (members_at m column)) eqn:E; [by rewrite E|done].
  - intros c b Hn. rewrite members_at_insert. case_decide; [subst|rewrite H2 by done; naive_solver].
    destruct (allMembersSelected_ (members_at m column)) eqn:E; [by apply H1 in E|]. cbn.
    rewrite elem_of_union, elem_of_singleton, H2 by done. naive_solver.
  - intros c. rewrite lookup_insert_is_Some, H3. destruct (decide (c = column)); naive_solver.
Qed.

Lemma addQueryColumns_selects l m W M : selects m W M ->
  selects (addQueryColumns m l) (fun c => W c \/ exists x, x ∈ l /\ ParsedColumnExpression x = (c, EmptyString))
    (fun c b => M c b \/ (b <> EmptyString /\ exists x, x ∈ l /\ ParsedColumnExpression x = (c, b))).
Proof.
  revert m W M. unfold addQueryColumns. induction l as [|x l IH]; intros m W M H; cbn [foldl].
  - eapply selects_iff; [exact H| |]; intros; rewrite exists_nil; tauto.
  - destruct (ParsedColumnExpression x) as [column member] eqn:E. destruct (nonempty member) eqn:En.
    + apply nonempty_true in En. eapply selects_iff; [apply IH, (addColumnMember_selects column member m W M H)| |];
        intros; rewrite exists_cons, E; naive_solver.
    + apply nonempty_false in En. subst. eapply selects_iff; [apply IH, (addColumn_selects column m W M H)| |];
        intros; rewrite exists_cons, E; naive_solver.
Qed.

Lemma addMandatoryColumns_selects m W M : selects m W M -> selects (addMandatoryColumns m) (fun c => W c \/ c ∈ mandatory_columns) M.
Proof.
  unfold addMandatoryColumns. generalize mandatory_columns. intros l. revert m W. induction l as [|x l IH]; intros m W H; cbn [foldl].
  - eapply selects_iff; [exact H| |done]. intros. rewrite elem_of_nil. tauto.
  - eapply selects_iff; [apply IH, (addColumn_selects x m W M H)| |done]. intros. rewrite elem_of_cons. tauto.
Qed.

Lemma nothing_selects : selects ∅ (fun _ => False) (fun _ _ => False).
Proof.
  split; intros; unfold members_at; rewrite ?lookup_empty; cbn; [done|by rewrite elem_of_empty|]. split; [by intros [? ?]|naive_solver].
Qed.

Lemma move_to_end_Permutation x l : move_to_end x l ≡ₚ l.
Proof.
  unfold move_to_end. destruct (list_find (fun c => c = x) l) as [[i y]|] eqn:E; [|done].
  apply list_find_Some in E as (Hi & -> & _). rewrite <-(take_drop_middle l i x Hi) at 3. rewrite app_assoc, Permutation_app_comm.
  cbn [app]. by rewrite Permutation_middle.
Qed.

Lemma move_to_end_last x l : x ∈ l -> last (move_to_end x l) = Some x.
Proof.
  intros Hx. unfold move_to_end. destruct (list_find (fun c => c = x) l) as [[i y]|] eqn:E.
  - by rewrite app_assoc, last_snoc.
  - rewrite list_find_None, list.Forall_forall in E. by destruct (E x Hx).
Qed.

Section query.
Context {DT : Type}.
Implicit Types (q : OdbQuery (DT := DT)).

(** The columns and members that a query names. *)
Definition names_column q column : Prop := exists x, x ∈ q_variables q /\ ParsedColumnExpression x = (column, EmptyString).
Definition names_member q column member : Prop :=
  member <> EmptyString /\ exists x, x ∈ q_variables q /\ ParsedColumnExpression x = (column, member).

(** C39: The query asks for the columns it names.  Every column that is named, by
    itself or through a member, and every mandatory column is asked for once,
    and no other; initial_obsvalue comes last; and of the members of a bitfield
    that a mapping declares, all are taken when the column is named or mandatory,
    and otherwise those that are named. *)
Theorem query_asks_for_columns q :
  NoDup (query_columns q) /\
  (forall column, column ∈ query_columns q <->
    column ∈ mandatory_columns \/ names_column q column \/ exists member, names_member q column member) /\
  ("initial_obsvalue" ∈ query_columns q -> last (query_columns q) = Some "initial_obsvalue") /\
  (forall column ms members member, query_selection q !! column = Some ms ->
    member ∈ intersectionWith ms members <->
    member ∈ members /\ (column ∈ mandatory_columns \/ names_column q column \/ names_member q column member)).
Proof.
  pose proof (addMandatoryColumns_selects _ _ _ (addQueryColumns_selects (q_variables q) _ _ _ nothing_selects)) as H.
  apply selects_iff with (W' := fun c => c ∈ mandatory_columns \/ names_column q c) (M' := names_member q) in H;
    [|unfold names_column; intros; naive_solver|unfold names_member; intros; naive_solver].
  fold (query_selection q) in H. destruct H as [H1 H2 H3].
  assert (Hperm : query_columns q ≡ₚ map fst (map_to_list (query_selection q))).
  { unfold query_columns, selection_columns. rewrite move_to_end_Permutation. apply std_sort_perm. }
  assert (Hin : forall c, c ∈ query_columns q <-> is_Some (query_selection q !! c)).
  { intros c. rewrite Hperm, list_elem_of_fmap. split.
    - intros ([c' ms] & -> & Hc%elem_of_map_to_list). eauto.
    - intros [ms Hc]. exists (c, ms). split; [done|]. by apply elem_of_map_to_list. }
  split_and!.
  - rewrite Hperm. apply NoDup_fst_map_to_list.
  - intros c. rewrite Hin, H3. tauto.
  - intros Hx. apply move_to_end_last. unfold query_columns in Hx. by rewrite move_to_end_Permutation in Hx.
  - intros c ms members b Hms. specialize (H1 c). specialize (H2 c b). unfold members_at in H1, H2. rewrite Hms in H1, H2. cbn in H1, H2.
    unfold intersectionWith. destruct (allMembersSelected_ ms) eqn:E; [naive_solver|].
    rewrite elem_of_intersection, H2 by (rewrite <-H1; done). naive_solver.
Qed.
End query.

Module Sample.
Definition q : OdbQuery (DT := Z) :=
  {| q_variables := ["initial_obsvalue"; "datum_status.active@body"; "lat"]; q_varnos := [2]; q_query := ""; q_truncate := false;
     q_epoch := 0; q_missingInt64 := -1; q_timeDisplacement := "" |}.
Definition temperature : VarnoDependentColumn :=
  {| vd_source := "initial_obsvalue"; vd_group := "ObsValue"; vd_mappings := [{| vm_name := "airTemperature"; vm_varno := 2; vm_unit := None |}] |}.
Definition lp (source : string) : ODBLayoutParameters :=
  {| lp_variables := [{| vp_name := "MetaData/latitude"; vp_source := source; vp_unit := None |}]; lp_complementary := [];
     lp_varno_columns := [temperature] |}.

Lemma query_asks_for_columns_witness : last (query_columns q) = Some "initial_obsvalue" /\ "datum_status@body" ∈ query_columns q.
Proof.
  destruct (query_asks_for_columns q) as (_ & H1 & H2 & _). split.
  - apply H2. apply H1. right. left. exists "initial_obsvalue". split; [left|reflexivity].
  - apply H1. right. right. exists "active". split; [discriminate|]. exists "datum_status.active@body". split; [right; left|reflexivity].
Defined.

(** A column that is declared in both ways is rejected. *)
Lemma mappings_as_declared_witness :
  (exists m, collectColumnMappings (lp "lat") = Ok m) /\ ~ exists m, collectColumnMappings (lp "initial_obsvalue") = Ok m.
Proof.
  split.
  - apply mappings_as_declared. intros column member varno [(c & Hc & Hp)|(_ & c & Hc & _)] (d & Hd & Hq & _).
    + apply list_elem_of_singleton in Hc, Hd. subst. vm_compute in Hp, Hq. congruence.
    + by apply elem_of_nil in Hc.
  - intros H. apply (proj1 (proj1 (mappings_as_declared (lp "initial_obsvalue"))) H "initial_obsvalue" EmptyString 2).
    + left. eexists. split; [left|reflexivity].
    + exists temperature. split; [left|]. split; [reflexivity|]. left.
Defined.
End Sample.
