(* ===== verification/OdbWrite.v ===== *)
(** Writing an ODB file: [createFile] and what it calls in
    src/src/engines/ioda/src/ioda/Engines/ODC/ODC.cpp.

    The file is the header and the rows that are given to [odc::Writer].  The
    writer has one row of values, which is written by [++] and keeps its values. *)
From stdpp Require Import base list gmap strings pretty.
From Stdlib Require Import ZArith.
From S2P Require Import Prelude Selection VarAttrStore ObsTypes ObsVariables ObsFrame ObsFrameRead ObsRecords ObsSpaceVars OdbData OdbOpen.
Local Open Scope Z_scope.

(** Conversions to [double], and the conversions between [float] and integers
    that the comparison with the fill value of a date needs. *)
Class OdbWriteDouble (R F : Type) := {
  od_of_float : F -> R;
  od_of_int : Z -> R;
  (* the double with these eight bytes *)
  od_of_bytes : string -> R;
  (* the float with the low four bytes of an integer *)
  f_of_bits : Z -> F;
  f_of_int : Z -> F
}.

(** * Calendar arithmetic of the C library

    [timegm] brings the fields of a [struct tm] into their ranges. *)
Record tm := { tm_year : Z; tm_mon : Z; tm_mday : Z; tm_hour : Z; tm_min : Z; tm_sec : Z }.

(** Days from 1970-01-01 to a date of the Gregorian calendar, with the year taken
    to begin in March. *)
Definition days_from_civil (y m d : Z) : Z :=
  let y := if m <=? 2 then y - 1 else y in
  let era := y / 400 in
  let yoe := y - era * 400 in
  let doy := (153 * (if 2 <? m then m - 3 else m + 9) + 2) / 5 + d - 1 in
  era * 146097 + (yoe * 365 + yoe / 4 - yoe / 100 + doy) - 719468.

Definition civil_from_days (z : Z) : Z * Z * Z :=
  let z := z + 719468 in
  let era := z / 146097 in
  let doe := z - era * 146097 in
  let yoe := (doe - doe / 1460 + doe / 36524 - doe / 146096) / 365 in
  let doy := doe - (365 * yoe + yoe / 4 - yoe / 100) in
  let mp := (5 * doy + 2) / 153 in
  let m := if mp <? 10 then mp + 3 else mp - 9 in
  (yoe + era * 400 + (if m <=? 2 then 1 else 0), m, doy - (153 * mp + 2) / 5 + 1).

Definition timegm (t : tm) : tm :=
  let days := days_from_civil (tm_year t + 1900 + tm_mon t / 12) (tm_mon t mod 12 + 1) 1 + tm_mday t - 1 in
  let secs := tm_hour t * 3600 + tm_min t * 60 + tm_sec t in
  let '(y, m, d) := civil_from_days (days + secs / 86400) in
  let r := secs mod 86400 in
  {| tm_year := y - 1900; tm_mon := m - 1; tm_mday := d; tm_hour := r / 3600; tm_min := r mod 3600 / 60; tm_sec := r mod 60 |}.

(** * Columns *)

Record Epoch := { ep_year : Z; ep_month : Z; ep_day : Z; ep_hour : Z; ep_minute : Z; ep_second : Z }.

(** [ColumnInfo]; the epoch is set for the columns date and time only. *)
Record ColumnInfo := {
  column_name : string;
  column_type : ObsTypeClasses;
  column_size : nat;
  string_length : Z;
  epoch : Epoch
}.
Definition no_epoch : Epoch := {| ep_year := 0; ep_month := 0; ep_day := 0; ep_hour := 0; ep_minute := 0; ep_second := 0 |}.

(** A name without a prefix. *)
Fixpoint strip_prefix (pre s : string) : option string :=
  match pre, s with
  | EmptyString, _ => Some s
  | String a pre, String b s => if decide (a = b) then strip_prefix pre s else None
  | String _ _, EmptyString => None
  end.
Definition metadata_prefix : string := "MetaData/".
Definition obsvalue_prefix : string := "ObsValue/".
Definition derived_obsvalue_prefix : string := "DerivedObsValue/".
Definition effective_error_prefix : string := "EffectiveError/".
Definition obserror_prefix : string := "ObsError/".
Definition derived_obserror_prefix : string := "DerivedObsError/".
Definition qc_prefix : string := "EffectiveQC/".
Definition hofx_prefix : string := "hofx/".
Definition obsbias_prefix : string := "ObsBias/".

(** The columns that a string takes, eight characters each. *)
Definition string_columns (len : Z) : Z := 1 + Z.quot (len - 1) 8.

(** [std::stoi]: white space, an optional sign and the digits that follow. *)
Fixpoint digit_prefix (s : string) : string :=
  match s with
  | EmptyString => EmptyString
  | String c s => if is_digit c then String c (digit_prefix s) else EmptyString
  end.
Fixpoint skip_space (s : string) : string :=
  match s with
  | String c s' => let n := Ascii.nat_of_ascii c in
      if (n =? 32)%nat || ((9 <=? n) && (n <=? 13))%nat then skip_space s' else s
  | EmptyString => s
  end.
Definition std_stoi (s : string) : res Z :=
  let '(neg, s) := match skip_space s with
    | String c s' => if (Ascii.nat_of_ascii c =? 45)%nat then (true, s')
                     else if (Ascii.nat_of_ascii c =? 43)%nat then (false, s') else (false, String c s')
    | EmptyString => (false, EmptyString)
    end in
  match digit_prefix s with
  | EmptyString => Throw EInvalidArgument
  | d => let v := if neg : bool then - digits_value 0 d else digits_value 0 d in
         if (- 2 ^ 31 <=? v) && (v <? 2 ^ 31) then Ok v else Throw EOutOfRange
  end.

(** [std::string::substr] *)
Definition substr (pos n : nat) (s : string) : res string :=
  if (pos <=? String.length s)%nat then Ok (String.substring pos n s) else Throw EOutOfRange.

(** The epoch in the units of MetaData/dateTime; when the text is not found the
    position is [npos], and [npos + 14] is 13. *)
Definition parse_epoch (units : string) : res Epoch :=
  let start := match String.index 0 "seconds since " units with Some pos => (pos + 14)%nat | None => 13%nat end in
  s ← substr start (String.length units) units;
  y ← substr 0 4 s; y ← std_stoi y;
  mo ← substr 5 2 s; mo ← std_stoi mo;
  d ← substr 8 2 s; d ← std_stoi d;
  h ← substr 11 2 s; h ← std_stoi h;
  mi ← substr 14 2 s; mi ← std_stoi mi;
  se ← substr 17 2 s; se ← std_stoi se;
  Ok {| ep_year := y; ep_month := mo; ep_day := d; ep_hour := h; ep_minute := mi; ep_second := se |}.

(** [collectReverseColumnMappings]: from the names of variables to those of
    columns, or to varnos. *)
Definition collectReverseColumnMappings (lp : ODBLayoutParameters) : gmap string string :=
  let m := foldl (fun m c => <[vp_name c := vp_source c]> m) ∅ (lp_variables lp) in
  foldl (fun m c => if decide (vd_source c = "initial_obsvalue")
      then foldl (fun m p => <[vm_name p := pretty (vm_varno p)]> m) m (vd_mappings c) else m) m (lp_varno_columns lp).

Section OdbWrite.
Context {R F : Type} `{OD : OdbDouble R F} `{OW : OdbWriteDouble R F} `{FO : FloatOps F}.
Implicit Types (g : ObsGroup F).

(** [vars[name].read<T>(buf)] *)
Definition read_buf g (name : string) (t : OType) : res (list (Val F)) :=
  v ← vars_open name g;
  front_read (zero_val t) t front_all front_all (fv_var v).
Definition buf_fill g (name : string) : res (option (Val F)) := v ← vars_open name g; Ok (fvdata_ (fv_var v)).

Definition val_z (x : Val F) : res Z := match x with VInt z | VInt64 z | VChar z => Ok z | _ => Throw EUndefined end.
Definition int_fill (o : option (Val F)) : res Z := match o with Some x => val_z x | None => Ok 0 end.
Definition float_fill_of (o : option (Val F)) : res F := match o with Some x => val_float x | None => Ok f_zero end.

(** [getNumberOfRows]: the values of the scale Location are read as integers or
    as floats, and counted. *)
Definition getNumberOfRows g : res nat := '(n, _) ← dim_open "Location" g; Ok (Z.to_nat n).

(** ** [setupColumnInfo]

    [names] is the list of variables; [units] is the attribute units of
    MetaData/dateTime, as it is read. *)
Definition string_width g (name : string) (number_of_rows : nat) : res Z :=
  buf ← read_buf g name string_t;
  foldM (fun len j => x ← vec_get buf j; s ← val_string x; Ok (Z.max len (Z.of_nat (String.length s)))) 0 (seq 0 number_of_rows).

Definition setup_column g (units : res string) (number_of_rows : nat) (st : list ColumnInfo * Z) (name : string) : res (list ColumnInfo * Z) :=
  let '(infos, num_columns) := st in
  match strip_prefix metadata_prefix name with
  | None => Ok st
  | Some rest =>
      v ← vars_open name g;
      let t := dtype_ (fv_var v) in
      if decide (rest = "dateTime") then
        units ← units;
        ep ← parse_epoch units;
        let col n := {| column_name := n; column_type := ty_class t; column_size := ty_size t; string_length := 0; epoch := ep |} in
        Ok (infos ++ [col "date"; col "time"], num_columns + 2)
      else if decide (ty_class t = CSTRING) then
        len ← string_width g name number_of_rows;
        Ok (infos ++ [{| column_name := name; column_type := ty_class t; column_size := ty_size t; string_length := len; epoch := no_epoch |}],
            num_columns + string_columns len)
      else
        Ok (infos ++ [{| column_name := name; column_type := ty_class t; column_size := ty_size t; string_length := 0; epoch := no_epoch |}],
            num_columns + 1)
  end.
Definition setupColumnInfo g (units : res string) (number_of_rows : nat) (names : list string) : res (list ColumnInfo * Z) :=
  foldM (setup_column g units number_of_rows) ([], 0) names.

(** ** [readColumn] *)

(** The fields of a date: the epoch, with the month as it is, and the offset
    added to the seconds. *)
Definition date_fields (ep : Epoch) (offset : Z) : res tm :=
  let sec := ep_second ep + i32 offset in
  if (- 2 ^ 31 <=? sec) && (sec <? 2 ^ 31) then
    Ok (timegm {| tm_year := ep_year ep; tm_mon := ep_month ep; tm_mday := ep_day ep; tm_hour := ep_hour ep;
                  tm_min := ep_minute ep; tm_sec := sec |})
  else Throw EUndefined.
Definition date_value (t : tm) : Z := tm_year t * 10000 + tm_mon t * 100 + tm_mday t.
Definition time_value (t : tm) : Z := tm_hour t * 10000 + tm_min t * 100 + tm_sec t.

Definition read_dates g (ep : Epoch) (value : tm -> Z) (number_of_rows : nat) : res (list R) :=
  buf ← read_buf g "MetaData/dateTime" int64_t;
  fill ← buf_fill g "MetaData/dateTime";
  fill ← int_fill fill;
  let ff := f_of_bits fill in
  mapR (fun j => x ← vec_get buf j; z ← val_int64 x;
      if f_eqb ff (f_of_int z) then Ok od_missing else t ← date_fields ep z; Ok (od_of_int (value t))) (seq 0 number_of_rows).

Definition read_floats g (name : string) (number_of_rows : nat) : res (list R) :=
  buf ← read_buf g name float_t;
  fill ← buf_fill g name;
  ff ← float_fill_of fill;
  mapR (fun j => x ← vec_get buf j; f ← val_float x; Ok (if f_eqb ff f then od_missing else od_of_float f)) (seq 0 number_of_rows).

Definition read_ints g (name : string) (t : OType) (number_of_rows : nat) : res (list Z) :=
  buf ← read_buf g name t;
  fill ← buf_fill g name;
  ff ← int_fill fill;
  mapR (fun j => x ← vec_get buf j; z ← val_z x; Ok (if ff =? z then odb_missing_int else z)) (seq 0 number_of_rows).

(** The fill value of a quality control variable is kept in a [float], and the
    comparison is one of floats. *)
Definition read_qc g (name : string) (number_of_rows : nat) : res (list Z) :=
  buf ← read_buf g name int_t;
  fill ← buf_fill g name;
  ff ← int_fill fill;
  mapR (fun j => x ← vec_get buf j; z ← val_z x; Ok (if f_eqb (f_of_int ff) (f_of_int z) then odb_missing_int else z)) (seq 0 number_of_rows).

(** Eight characters of a string from a position on, filled up with zeros. *)
Fixpoint nuls (n : nat) : string := match n with O => EmptyString | S n => String (Ascii.ascii_of_nat 0) (nuls n) end.
Definition chunk (c : nat) (s : string) : string :=
  let part := String.substring (8 * c) 8 s in part +:+ nuls (8 - String.length part).

Definition read_strings g (name : string) (len : Z) (number_of_rows : nat) : res (list (list R)) :=
  buf ← read_buf g name string_t;
  mapR (fun c => mapR (fun j => x ← vec_get buf j; s ← val_string x; Ok (od_of_bytes (chunk c s))) (seq 0 number_of_rows))
    (seq 0 (Z.to_nat (string_columns len))).

Definition readColumn g (column : ColumnInfo) (number_of_rows : nat) : res (list (list R)) :=
  if decide (column_name column = "date") then l ← read_dates g (epoch column) date_value number_of_rows; Ok [l]
  else if decide (column_name column = "time") then l ← read_dates g (epoch column) time_value number_of_rows; Ok [l]
  else match column_type column with
  | CFLOAT => l ← read_floats g (column_name column) number_of_rows; Ok [l]
  | INTEGER =>
      if (column_size column =? 4)%nat then l ← read_ints g (column_name column) int_t number_of_rows; Ok [map od_of_int l]
      else if (column_size column =? 8)%nat then l ← read_ints g (column_name column) int64_t number_of_rows; Ok [map od_of_int l]
      else Ok []
  | CSTRING => read_strings g (column_name column) (string_length column) number_of_rows
  | NOCLASS => Ok [replicate number_of_rows (od_of_int (-1))]
  | _ => Ok []
  end.

(** ** The header *)

Inductive OdbColumnType := ODB_INTEGER | ODB_REAL | ODB_STRING.

(** [setODBColumn]: the columns of the file for a column of the group. *)
Definition setODBColumn (mappings : gmap string string) (v : ColumnInfo) : list (string * OdbColumnType) :=
  let colname2 := default "" (mappings !! column_name v) in
  let colname :=
    if decide (colname2 = "") then
      if decide (column_name v = "date") then "date" else if decide (column_name v = "time") then "time"
      else String.substring 9 (String.length (column_name v) - 9) (column_name v)
    else colname2 in
  match column_type v with
  | INTEGER => [(colname, ODB_INTEGER)]
  | CSTRING =>
      if string_length v <=? 8 then [(colname +:+ "_0", ODB_STRING)]
      else map (fun i : nat => (colname +:+ "_" +:+ pretty (Z.of_nat i), ODB_STRING)) (seq 0 (Z.to_nat (string_columns (string_length v))))
  | _ => [(colname, ODB_REAL)]
  end.

Definition body_columns : list (string * OdbColumnType) :=
  [("varno", ODB_INTEGER); ("initial_obsvalue", ODB_REAL); ("obsvalue", ODB_REAL); ("effective_error", ODB_REAL); ("obs_error", ODB_REAL);
   ("derived_obs_error", ODB_REAL); ("datum_flags", ODB_INTEGER); ("effective_qc", ODB_INTEGER); ("bgvalue", ODB_REAL); ("obsbias", ODB_REAL)].

(** ** The body *)

(** [setupVarnos]: [obsvalue_columns] and [varnos]. *)
Definition setupVarnos (mappings : gmap string string) (names : list string) : res (list string * list Z) :=
  foldM (fun (st : list string * list Z) name =>
      match strip_prefix obsvalue_prefix name with
      | None => Ok st
      | Some colname =>
          match mappings !! colname with
          | Some x => varno ← std_stoi x; Ok (fst st ++ [colname], snd st ++ [varno])
          | None => Ok (fst st ++ [colname], snd st)
          end
      end) ([], []) names.

(** What [readBodyColumns] adds to each of the stores for a variable. *)
Record BodyColumns := {
  bc_obsvalue : list R;
  bc_initial : list R;
  bc_effective_error : list R;
  bc_hofx : list R;
  bc_obsbias : list R;
  bc_obserror : list R;
  bc_derived_obserror : list R;
  bc_flags : list Z;
  bc_qc : list Z
}.

Definition floats_or_missing g (name : string) (number_of_rows : nat) : res (list R) :=
  if vars_exists name g then read_floats g name number_of_rows else Ok (replicate number_of_rows od_missing).

(** The flags in the order in which they are combined. *)
Definition flag_names : list string :=
  ["BackPerfFlag"; "BackRejectFlag"; "BuddyPerfFlag"; "BuddyRejectFlag"; "ClimPerfFlag"; "ClimRejectFlag"; "ConsistencyFlag";
   "DataCorrectFlag"; "ExtremeValueFlag"; "FinalRejectFlag"; "NoAssimFlag"; "PermCorrectFlag"; "PermRejectFlag"].

(** A flag of a location that is set: present and positive. *)
Definition flag_set (ff c : Z) : bool := negb (ff =? c) && (0 <? c).

Definition add_flag g (v : string) (number_of_rows : nat) (store : list Z) (p : nat * string) : res (list Z) :=
  let '(ii, flag) := p in
  let name := "DiagnosticFlags/" +:+ flag +:+ "/" +:+ v in
  if vars_exists name g then
    buf ← read_buf g name char_t;
    fill ← buf_fill g name;
    ff ← int_fill fill;
    mapR (fun j => x ← vec_get buf j; c ← val_z x; old ← vec_get store j;
        Ok (if (ii =? 0)%nat then (if flag_set ff c then 1 else 0)
            else if flag_set ff c then Z.lor old (Z.of_nat (ii + 1)) else old)) (seq 0 number_of_rows)
  else Ok (if (ii =? 0)%nat then replicate number_of_rows 0 else store).

Definition readBodyColumns g (v : string) (number_of_rows : nat) : res (option BodyColumns) :=
  let '(derived_obsvalue_name, initial_obsvalue_name) :=
    if vars_exists (derived_obsvalue_prefix +:+ v) g then (derived_obsvalue_prefix +:+ v, obsvalue_prefix +:+ v)
    else (obsvalue_prefix +:+ v, "") in
  var ← vars_open derived_obsvalue_name g;
  if decide (ty_class (dtype_ (fv_var var)) = CFLOAT) then
    obsvalue ← read_floats g derived_obsvalue_name number_of_rows;
    initial ← floats_or_missing g initial_obsvalue_name number_of_rows;
    effective_error ← floats_or_missing g (effective_error_prefix +:+ v) number_of_rows;
    hofx ← floats_or_missing g (hofx_prefix +:+ v) number_of_rows;
    obsbias ← floats_or_missing g (obsbias_prefix +:+ v) number_of_rows;
    obserror ← floats_or_missing g (obserror_prefix +:+ v) number_of_rows;
    derived_obserror ← floats_or_missing g (derived_obserror_prefix +:+ v) number_of_rows;
    qc ← (if vars_exists (qc_prefix +:+ v) g then read_qc g (qc_prefix +:+ v) number_of_rows
          else Ok (replicate number_of_rows odb_missing_int));
    flags ← foldM (add_flag g v number_of_rows) (replicate number_of_rows 0) (imap pair flag_names);
    Ok (Some {| bc_obsvalue := obsvalue; bc_initial := if vars_exists initial_obsvalue_name g then initial else [];
                bc_effective_error := effective_error; bc_hofx := hofx; bc_obsbias := obsbias; bc_obserror := obserror;
                bc_derived_obserror := derived_obserror; bc_flags := flags; bc_qc := qc |})
  else Ok None.

(** ** [writeODB]

    The assignments to the values of the writer's row. *)
Definition write_row (data_store : list (list R)) (body : list BodyColumns) (varnos : list Z) (num_columns varno row : nat)
    (w : list R) : res (list R) :=
  w ← foldM (fun w column => d ← vec_get data_store column; x ← vec_get d row; vec_set w column x) w (seq 0 (num_columns - 10));
  b ← vec_get body varno;
  x ← vec_get (bc_obsbias b) row; w ← vec_set w (num_columns - 1) x;
  x ← vec_get (bc_hofx b) row; w ← vec_set w (num_columns - 2) x;
  x ← vec_get (bc_effective_error b) row; w ← vec_set w (num_columns - 7) x;
  x ← vec_get (bc_obserror b) row; w ← vec_set w (num_columns - 6) x;
  x ← vec_get (bc_derived_obserror b) row; w ← vec_set w (num_columns - 5) x;
  x ← vec_get (bc_obsvalue b) row; w ← vec_set w (num_columns - 8) x;
  w ← (if (0 <? length (bc_initial b))%nat then x ← vec_get (bc_initial b) row; vec_set w (num_columns - 9) x else Ok w);
  v ← vec_get varnos varno; w ← vec_set w (num_columns - 10) (od_of_int v);
  z ← vec_get (bc_flags b) row; w ← vec_set w (num_columns - 4) (od_of_int z);
  z ← vec_get (bc_qc b) row; vec_set w (num_columns - 3) (od_of_int z).

(** The rows of the file; [w] are the values of a new row. *)
Definition writeODB (data_store : list (list R)) (body : list BodyColumns) (varnos : list Z) (num_columns number_of_rows : nat) (w : list R)
  : res (list (list R)) :=
  st ← foldM (fun st varno =>
         foldM (fun (st : list R * list (list R)) row =>
             w ← write_row data_store body varnos num_columns varno row (fst st);
             Ok (w, snd st ++ [w])) st (seq 0 number_of_rows))
       (w, []) (seq 0 (length varnos));
  Ok (snd st).

(** ** [createFile]: the header and the rows, or nothing without metadata. *)
Definition createFile g (units : res string) (names : list string) (lp : ODBLayoutParameters) (new_row : nat -> list R)
  : res (option (list (string * OdbColumnType) * list (list R))) :=
  number_of_rows ← getNumberOfRows g;
  '(column_infos, num_columns) ← setupColumnInfo g units number_of_rows names;
  if num_columns =? 0 then Ok None
  else
    let num_columns := Z.to_nat (num_columns + 10) in
    let mappings := collectReverseColumnMappings lp in
    let header := concat (map (setODBColumn mappings) column_infos) ++ body_columns in
    columns ← mapR (fun v => readColumn g v number_of_rows) column_infos;
    '(obsvalue_columns, varnos) ← setupVarnos mappings names;
    body ← mapR (fun v => readBodyColumns g v number_of_rows) obsvalue_columns;
    rows ← writeODB (concat columns) (omap id body) varnos num_columns number_of_rows (new_row num_columns);
    Ok (Some (header, rows)).
End OdbWrite.
