(* ===== verification/OdbWriteSpec.v ===== *)
(** Properties of the ODB files that are written: the rows and columns of the
    file, the encoding of strings, dates and flags. *)
From stdpp Require Import base list gmap strings pretty.
From Stdlib Require Import ZArith.
From S2P Require Import Prelude Selection VarAttrStore ObsTypes ObsVariables ObsFrame ObsFrameRead ObsFrameReadSpec ObsRecords ObsSpaceInit ObsSpaceVars ObsVector ObsDataVector.
From S2P Require Import OdbData OdbDataSpec OdbVarnoSpec OdbTruncateSpec OdbOpen OdbWrite.
Local Open Scope Z_scope.

(** * The rows *)

Section rows.
Context {R F : Type} `{OD : OdbDouble R F} `{OW : OdbWriteDouble R F} `{FO : FloatOps F}.
Implicit Types (b : BodyColumns (R := R)) (data : list (list R)) (w : list R).

(** A row of the file: the metadata of the location, then the body. *)
Definition body_cells b (v : Z) (i : nat) (initial : R) : list R :=
  let at_ (l : list R) := default od_missing (l !! i) in
  let int_at (l : list Z) := od_of_int (default 0 (l !! i)) in
  [od_of_int v; initial; at_ (bc_obsvalue b); at_ (bc_effective_error b); at_ (bc_obserror b); at_ (bc_derived_obserror b);
   int_at (bc_flags b); int_at (bc_qc b); at_ (bc_hofx b); at_ (bc_obsbias b)].
Definition file_row data b (v : Z) (i : nat) (carry : R) : list R :=
  omap (fun d => d !! i) data ++ body_cells b v i (default carry (bc_initial b !! i)).
(** The rows of the variables, one after the other; [carry] is the value of
    initial_obsvalue in the row that was written before. *)
Fixpoint file_rows data (n : nat) (l : list (BodyColumns (R := R) * Z)) (carry : R) : list (list R) :=
  match l with
  | [] => []
  | (b, v) :: l => map (fun i => file_row data b v i carry) (seq 0 n) ++ file_rows data n l (default carry (last (bc_initial b)))
  end.

(** Stores with a value for each location. *)
Definition full_body (n : nat) b : Prop :=
  length (bc_obsvalue b) = n /\ length (bc_effective_error b) = n /\ length (bc_hofx b) = n /\
  length (bc_obsbias b) = n /\ length (bc_obserror b) = n /\ length (bc_derived_obserror b) = n /\ length (bc_flags b) = n /\ length (bc_qc b) = n /\
  (bc_initial b = [] \/ length (bc_initial b) = n).

Lemma at_row {A} (l : list A) n i : length l = n -> (i < n)%nat -> exists x, l !! i = Some x.
Proof. intros Hl Hi. apply lookup_lt_is_Some_2. lia. Qed.

Lemma prefix_seq don c n : (don ++ [c]) `prefix_of` seq 0 n -> c = length don /\ (length don < n)%nat.
Proof.
  intros Hpre. pose proof (prefix_length _ _ Hpre) as Hlen. rewrite length_app, length_seq in Hlen. cbn [length] in Hlen.
  split; [|lia]. destruct Hpre as [rest Hp].
  assert (Hl : seq 0 n !! length don = Some c) by (rewrite Hp, <-app_assoc; by apply list_lookup_middle).
  apply lookup_seq in Hl. lia.
Qed.

(** Setting one of the ten last cells of a row. *)
Lemma set_tail (m t : list R) C k x : length m = C -> length t = 10%nat -> (0 < k <= 10)%nat ->
  vec_set (m ++ t) (C + 10 - k) x = Ok (m ++ <[(10 - k)%nat := x]> t).
Proof.
  intros Hm Ht Hk. rewrite vec_set_lt by (rewrite length_app; lia). f_equal. subst C.
  replace (length m + 10 - k)%nat with (length m + (10 - k))%nat by lia. by rewrite insert_app_r.
Qed.

(** The metadata cells are written in front of the row. *)
Lemma write_metadata data i n w : Forall (fun d => length d = n) data -> (i < n)%nat -> (length data <= length w)%nat ->
  foldM (fun w column => d ← vec_get data column; x ← vec_get d i; vec_set w column x) w (seq 0 (length data)) =
  Ok (omap (fun d => d !! i) data ++ drop (length data) w).
Proof.
  intros HF Hi Hw.
  destruct (foldM_ind (fun w column => d ← vec_get data column; x ← vec_get d i; vec_set w column x)
    (fun don w' => w' = omap (fun d => d !! i) (take (length don) data) ++ drop (length don) w) w (seq 0 (length data))) as (w' & Hf & ->).
  - done.
  - intros don c w' -> Hpre. destruct (prefix_seq _ _ _ Hpre) as [Hc Hlen].
    subst c. destruct (lookup_lt_is_Some_2 data (length don)) as [d Hd]; [lia|]. rewrite (vec_get_Some _ _ _ Hd). cbn [mbind res_bind].
    destruct (lookup_lt_is_Some_2 d i) as [x Hx]; [rewrite Forall_lookup in HF; by rewrite (HF _ _ Hd)|].
    rewrite (vec_get_Some _ _ _ Hx). cbn [mbind res_bind].
    assert (Hl : length (omap (fun d => d !! i) (take (length don) data)) = length don).
    { rewrite (column_length n); [rewrite length_take; lia|by apply Forall_take|done]. }
    destruct (drop (length don) w) as [|y t] eqn:E; [apply (f_equal length) in E; rewrite length_drop in E; cbn in E; lia|].
    rewrite vec_set_middle by done. eexists. split; [reflexivity|]. rewrite length_app, Nat.add_1_r.
    rewrite (take_S_r _ _ d Hd), omap_app, <-app_assoc. cbn [omap list_omap]. rewrite Hx. cbn [app]. f_equal. f_equal.
    rewrite <-Nat.add_1_r, <-drop_drop, E. done.
  - rewrite Hf. by rewrite length_seq, take_ge by lia.
Qed.

(** One row; the cell initial_obsvalue keeps its value when the variable has no
    initial values. *)
Lemma write_row_ok data (body : list BodyColumns) varnos n j i b v w :
  Forall (fun d => length d = n) data -> (i < n)%nat -> length w = (length data + 10)%nat ->
  body !! j = Some b -> varnos !! j = Some v -> full_body n b ->
  write_row data body varnos (length data + 10) j i w = Ok (file_row data b v i (default od_missing (w !! S (length data)))).
Proof.
  intros HF Hi Hw Hb Hv Hfull. unfold write_row.
  replace (seq 0 (length data + 10 - 10)) with (seq 0 (length data)) by (f_equal; lia). rewrite (write_metadata data i n w) by (done || lia).
  cbn [mbind res_bind]. rewrite (vec_get_Some _ _ _ Hb). cbn [mbind res_bind].
  destruct Hfull as (H1 & H2 & H3 & H4 & H5 & H6 & H7 & H8 & Hini).
  assert (Ht : exists a0 a1 a2 a3 a4 a5 a6 a7 a8 a9, drop (length data) w = [a0; a1; a2; a3; a4; a5; a6; a7; a8; a9]).
  { assert (Hl : length (drop (length data) w) = 10%nat) by (rewrite length_drop; lia).
    destruct (drop (length data) w) as [|a0 [|a1 [|a2 [|a3 [|a4 [|a5 [|a6 [|a7 [|a8 [|a9 [|? ?]]]]]]]]]]] eqn:E; try discriminate. eauto 11. }
  destruct Ht as (a0 & a1 & a2 & a3 & a4 & a5 & a6 & a7 & a8 & a9 & Ht).
  assert (Hkeep : w !! S (length data) = Some a1).
  { replace (S (length data)) with (length data + 1)%nat by lia. by rewrite <-lookup_drop, Ht. }
  rewrite Ht, Hkeep. assert (Hm : length (omap (fun d => d !! i) data) = length data) by (by apply (column_length n)).
  unfold file_row, body_cells. cbn [default from_option id].
  destruct (at_row _ _ i H4 Hi) as [x1 E1], (at_row _ _ i H3 Hi) as [x2 E2], (at_row _ _ i H2 Hi) as [x3 E3], (at_row _ _ i H5 Hi) as [x4 E4],
    (at_row _ _ i H6 Hi) as [x5 E5], (at_row _ _ i H1 Hi) as [x6 E6], (at_row _ _ i H7 Hi) as [z1 E8], (at_row _ _ i H8 Hi) as [z2 E9].
  rewrite (vec_get_Some _ _ _ E1), (vec_get_Some _ _ _ E2), (vec_get_Some _ _ _ E3), (vec_get_Some _ _ _ E4), (vec_get_Some _ _ _ E5),
    (vec_get_Some _ _ _ E6), (vec_get_Some _ _ _ Hv), (vec_get_Some _ _ _ E8), (vec_get_Some _ _ _ E9).
  rewrite E1, E2, E3, E4, E5, E6, E8, E9. cbn [default from_option id].
  destruct Hini as [Hnil|Hini].
  - rewrite Hnil. cbn [length Nat.ltb Nat.leb]. do 9 (cbn [mbind res_bind]; rewrite ?set_tail by (done || lia)). done.
  - destruct (at_row _ _ i Hini Hi) as [x7 E7]. replace (0 <? length (bc_initial b))%nat with true by (symmetry; apply Nat.ltb_lt; lia).
    rewrite (vec_get_Some _ _ _ E7), E7. do 10 (cbn [mbind res_bind]; rewrite set_tail by (done || lia)). done.
Qed.

(** The rows of one variable. *)
Lemma write_variable data (body : list BodyColumns) varnos n j b v w out :
  Forall (fun d => length d = n) data -> length w = (length data + 10)%nat ->
  body !! j = Some b -> varnos !! j = Some v -> full_body n b ->
  let carry := default od_missing (w !! S (length data)) in
  exists w', foldM (fun (st : list R * list (list R)) row =>
      w ← write_row data body varnos (length data + 10) j row (fst st); Ok (w, snd st ++ [w])) (w, out) (seq 0 n) =
    Ok (w', out ++ map (fun i => file_row data b v i carry) (seq 0 n)) /\
    length w' = (length data + 10)%nat /\ default od_missing (w' !! S (length data)) = default carry (last (bc_initial b)).
Proof.
  intros HF Hw Hb Hv Hfull carry. pose proof Hfull as (_ & _ & _ & _ & _ & _ & _ & _ & Hini).
  set (cell k := match k with O => carry | S k => default carry (bc_initial b !! k) end).
  destruct (foldM_ind (fun (st : list R * list (list R)) row =>
      w ← write_row data body varnos (length data + 10) j row (fst st); Ok (w, snd st ++ [w]))
    (fun don st => length st.1 = (length data + 10)%nat /\ default od_missing (st.1 !! S (length data)) = cell (length don) /\
      st.2 = out ++ map (fun i => file_row data b v i carry) (seq 0 (length don))) (w, out) (seq 0 n)) as ([w' out'] & Hf & Hl & Hc & Ho).
  - cbn. by rewrite app_nil_r.
  - intros don i [w1 out1] (Hl & Hc & Ho) Hpre. cbn [fst snd] in *.
    destruct (prefix_seq _ _ _ Hpre) as [-> Hi].
    rewrite (write_row_ok data body varnos n j _ b v w1) by done. cbn [mbind res_bind]. eexists. split; [reflexivity|]. cbn [fst snd].
    assert (Hm : length (omap (fun d => d !! length don) data) = length data) by (by apply (column_length n)).
    rewrite Hc, length_app, Nat.add_1_r, seq_S, map_app, app_assoc, <-Ho. cbn [map Nat.add].
    assert (Hcell : default (cell (length don)) (bc_initial b !! length don) = default carry (bc_initial b !! length don)).
    { destruct Hini as [Hn|Hini]; [unfold cell; rewrite Hn, lookup_nil; destruct (length don); by rewrite ?lookup_nil|].
      by destruct (at_row _ _ (length don) Hini Hi) as [x ->]. }
    split_and!.
    + unfold file_row, body_cells. rewrite length_app, Hm. done.
    + unfold file_row, body_cells. replace (S (length data)) with (length (omap (fun d => d !! length don) data) + 1)%nat by lia.
      by rewrite lookup_app_r, Nat.add_comm, Nat.add_sub by lia.
    + unfold file_row. by rewrite Hcell.
  - exists w'. rewrite length_seq in Hc, Ho. cbn [fst snd] in *. rewrite Hf, Ho. split_and!; [done|done|]. rewrite Hc, last_lookup. unfold cell.
    destruct n as [|n]; [destruct Hini as [->|Hini]; [done|apply nil_length_inv in Hini; by rewrite Hini]|].
    destruct Hini as [->|Hini]; [by rewrite lookup_nil|]. by rewrite Hini.
Qed.
(** The loop over the variables from the [k]-th one on. *)
Lemma write_variables data (body : list BodyColumns) varnos n :
  Forall (fun d => length d = n) data -> Forall (full_body n) body -> (length varnos <= length body)%nat ->
  forall m k w out, (k + m = length varnos)%nat -> length w = (length data + 10)%nat ->
  exists w', foldM (fun st varno => foldM (fun (st : list R * list (list R)) row =>
      w ← write_row data body varnos (length data + 10) varno row (fst st); Ok (w, snd st ++ [w])) st (seq 0 n)) (w, out) (seq k m) =
    Ok (w', out ++ file_rows data n (drop k (zip body varnos)) (default od_missing (w !! S (length data)))).
Proof.
  intros HF HB Hlen. induction m as [|m IH]; intros k w out Hk Hw.
  - exists w. cbn [seq foldM]. rewrite drop_ge by (rewrite length_zip_with; lia). cbn. by rewrite app_nil_r.
  - destruct (lookup_lt_is_Some_2 body k) as [b Hb]; [lia|]. destruct (lookup_lt_is_Some_2 varnos k) as [v Hv]; [lia|].
    rewrite Forall_lookup in HB. cbn [seq foldM].
    destruct (write_variable data body varnos n k b v w out HF Hw Hb Hv (HB _ _ Hb)) as (w1 & Hf & Hw1 & Hc1).
    rewrite Hf. cbn [mbind res_bind]. edestruct (IH (S k) w1) as [w' Hw']; [lia|exact Hw1|]. exists w'. rewrite Hw', Hc1, <-app_assoc.
    f_equal. f_equal. f_equal. assert (Hz : zip body varnos !! k = Some (b, v)) by (by rewrite lookup_zip_with, Hb; cbn; rewrite Hv).
    by rewrite (drop_S _ _ _ Hz).
Qed.

(** The rows of the file. *)
Lemma writeODB_ok data (body : list BodyColumns) varnos n w :
  Forall (fun d => length d = n) data -> Forall (full_body n) body -> (length varnos <= length body)%nat ->
  length w = (length data + 10)%nat ->
  writeODB data body varnos (length data + 10) n w = Ok (file_rows data n (zip body varnos) (default od_missing (w !! S (length data)))).
Proof.
  intros HF HB Hlen Hw. unfold writeODB. destruct (write_variables data body varnos n HF HB Hlen (length varnos) 0 w [] eq_refl Hw) as [w' ->].
  done.
Qed.
End rows.
