(* ===== verification/OdbCreateSpec.v ===== *)
(** The whole ODB file that [createFile] writes for a group: its header and its
    rows, and the properties of the encodings of strings, times, dates and
    diagnostic flags. *)
From stdpp Require Import base list gmap strings pretty.
From Stdlib Require Import ZArith.
From S2P Require Import Prelude Selection VarAttrStore ObsTypes ObsAttributes ObsVariables ObsFrame ObsFrameRead ObsFrameReadSpec ObsRecords ObsSpaceInit ObsSpaceVars ObsVector ObsDataVector.
From S2P Require Import OdbData OdbDataSpec OdbVarnoSpec OdbTruncateSpec OdbOpen OdbWrite OdbWriteSpec.
Local Open Scope Z_scope.

(** * Computations on all rows *)

Lemma mapR_rows {A B} (l : list A) (ys : list B) n (h : nat -> A -> res B) :
  length l = n -> length ys = n -> (forall j a y, l !! j = Some a -> ys !! j = Some y -> h j a = Ok y) ->
  mapR (fun j => x ← vec_get l j; h j x) (seq 0 n) = Ok ys.
Proof.
  intros Hl Hy Hh. assert (Hgo : forall m k, (k + m = n)%nat -> mapR (fun j => x ← vec_get l j; h j x) (seq k m) = Ok (drop k ys)).
  { induction m as [|m IH]; intros k Hk; cbn [seq mapR]; [by rewrite drop_ge by lia|].
    destruct (lookup_lt_is_Some_2 l k) as [a Ha]; [lia|]. destruct (lookup_lt_is_Some_2 ys k) as [y Hyk]; [lia|].
    rewrite (vec_get_Some _ _ _ Ha). cbn [mbind res_bind]. rewrite (Hh _ _ _ Ha Hyk). cbn [mbind res_bind].
    rewrite IH by lia. cbn [mbind res_bind]. by rewrite (drop_S _ _ _ Hyk). }
  by rewrite Hgo by done.
Qed.

Lemma mapR_rows_map {A B V} (l : list A) (c : A -> V) (f : A -> B) n (h : nat -> V -> res B) :
  length l = n -> (forall j a, l !! j = Some a -> h j (c a) = Ok (f a)) ->
  mapR (fun j => x ← vec_get (map c l) j; h j x) (seq 0 n) = Ok (map f l).
Proof.
  intros Hl Hh. apply mapR_rows; [by rewrite length_map|by rewrite length_map|]. intros j a y Ha Hy.
  change (map c l) with (c <$> l) in Ha. change (map f l) with (f <$> l) in Hy. rewrite list_lookup_fmap in Ha. rewrite list_lookup_fmap in Hy.
  destruct (l !! j) as [x|] eqn:E; [|done]. cbn in Ha, Hy. simplify_eq. by apply Hh.
Qed.

Lemma mapR_app {A B} (f : A -> res B) l1 l2 y1 y2 : mapR f l1 = Ok y1 -> mapR f l2 = Ok y2 -> mapR f (l1 ++ l2) = Ok (y1 ++ y2).
Proof.
  revert y1. induction l1 as [|x l1 IH]; intros y1 H1 H2; cbn [mapR app] in *; [by inv_res|].
  destruct (f x) as [y|]; [|done]. cbn [mbind res_bind] in *. destruct (mapR f l1) as [ys|]; [|done]. cbn [mbind res_bind] in *.
  inv_res. by rewrite (IH ys).
Qed.

Lemma mapR_concat {A B C} (f : B -> res C) (g : A -> list B) (h : A -> list C) l :
  (forall x, x ∈ l -> mapR f (g x) = Ok (h x)) -> mapR f (concat (map g l)) = Ok (concat (map h l)).
Proof.
  induction l as [|x l IH]; intros Hx; [done|]. cbn [map concat]. apply mapR_app; [apply Hx; left|]. apply IH. intros y Hy. apply Hx. by right.
Qed.

Lemma zip_maps {A B C} (f : A -> B) (h : A -> C) l : zip (map f l) (map h l) = map (fun x => (f x, h x)) l.
Proof. induction l as [|x l IH]; [done|]. cbn. by rewrite <-IH. Qed.

(** * Variables of a group *)

Section create.
Context {R F : Type} `{OD : OdbDouble R F} `{OW : OdbWriteDouble R F} `{FO : FloatOps F}.
Implicit Types (g : ObsGroup F) (n : nat) (name v : string).

(** A variable with one value for each location. *)
Definition stored g n name (t : OType) (fill : option (Val F)) (vals : list (Val F)) : Prop :=
  exists fv, g_vars g !! name = Some fv /\ dtype_ (fv_var fv) = t /\ fvdata_ (fv_var fv) = fill /\ array (fv_var fv) n [] vals.

Lemma read_stored g n name t fill vals : stored g n name t fill vals ->
  read_buf g name t = Ok vals /\ buf_fill g name = Ok fill /\ vars_exists name g = true /\ length vals = n.
Proof.
  intros (fv & Hg & Ht & Hfill & Ha). unfold read_buf, buf_fill, vars_open, vars_exists. rewrite Hg. cbn [mbind res_bind].
  rewrite Hfill, <-Ht. split_and!; [by eapply read_all|done|done|].
  rewrite (arr_length _ _ _ _ Ha). unfold row_size. cbn. lia.
Qed.

(** The cells that a value makes. *)
Definition float_cell (fill : option F) (x : F) : R := if f_eqb (default f_zero fill) x then od_missing else od_of_float x.
Definition int_cell (fill : option Z) (z : Z) : Z := if default 0 fill =? z then odb_missing_int else z.
Definition qc_cell (fill : option Z) (z : Z) : Z := if f_eqb (f_of_int (default 0 fill)) (f_of_int z) then odb_missing_int else z.
Definition vint (wide : bool) (z : Z) : Val F := if wide then VInt64 z else VInt z.
Definition vtype (wide : bool) : OType := if wide then int64_t else int_t.

Lemma read_floats_ok g n name fill l : stored g n name float_t (VFloat <$> fill) (map VFloat l) ->
  read_floats g name n = Ok (map (float_cell fill) l).
Proof.
  intros Hs. destruct (read_stored _ _ _ _ _ _ Hs) as (Hr & Hf & _ & Hl). unfold read_floats. rewrite Hr, Hf. cbn [mbind res_bind].
  replace (float_fill_of (VFloat <$> fill)) with (Ok (default f_zero fill)) by (by destruct fill). cbn [mbind res_bind].
  rewrite length_map in Hl. apply mapR_rows_map; [done|]. intros j a _. done.
Qed.

Lemma read_ints_ok g n name wide fill l : stored g n name (vtype wide) (vint wide <$> fill) (map (vint wide) l) ->
  read_ints g name (vtype wide) n = Ok (map (int_cell fill) l).
Proof.
  intros Hs. destruct (read_stored _ _ _ _ _ _ Hs) as (Hr & Hf & _ & Hl). unfold read_ints. rewrite Hr, Hf. cbn [mbind res_bind].
  replace (int_fill (vint wide <$> fill)) with (Ok (default 0 fill)) by (by destruct fill, wide). cbn [mbind res_bind].
  rewrite length_map in Hl. apply mapR_rows_map; [done|]. intros j a _. by destruct wide.
Qed.

Lemma read_qc_ok g n name fill l : stored g n name int_t (VInt <$> fill) (map VInt l) ->
  read_qc g name n = Ok (map (qc_cell fill) l).
Proof.
  intros Hs. destruct (read_stored _ _ _ _ _ _ Hs) as (Hr & Hf & _ & Hl). unfold read_qc. rewrite Hr, Hf. cbn [mbind res_bind].
  replace (int_fill (VInt <$> fill)) with (Ok (default 0 fill)) by (by destruct fill). cbn [mbind res_bind].
  rewrite length_map in Hl. apply mapR_rows_map; [done|]. intros j a _. done.
Qed.

(** * Columns of metadata *)

Inductive MetaColumn :=
  | MFloat (fill : option F) (l : list F)
  | MInt (wide : bool) (fill : option Z) (l : list Z)
  | MString (l : list string)
  | MDate (ep : Epoch) (fill : option Z) (l : list Z).

Definition date_missing (fill : option Z) (z : Z) : bool := f_eqb (f_of_bits (default 0 fill)) (f_of_int z).
Definition date_cell (ep : Epoch) (value : tm -> Z) (fill : option Z) (z : Z) : R :=
  if date_missing fill z then od_missing else match date_fields ep z with Ok t => od_of_int (value t) | Throw _ => od_missing end.
Definition max_length (l : list string) : Z := foldl (fun m s => Z.max m (Z.of_nat (String.length s))) 0 l.

Definition has_column g (units : res string) n name (c : MetaColumn) : Prop :=
  match c with
  | MFloat fill l => name <> "MetaData/dateTime" /\ stored g n name float_t (VFloat <$> fill) (map VFloat l)
  | MInt wide fill l => name <> "MetaData/dateTime" /\ stored g n name (vtype wide) (vint wide <$> fill) (map (vint wide) l)
  | MString l => name <> "MetaData/dateTime" /\ exists fill, stored g n name string_t fill (map VString l)
  | MDate ep fill l => name = "MetaData/dateTime" /\ stored g n name int64_t (VInt64 <$> fill) (map VInt64 l) /\
      (exists u, units = Ok u /\ parse_epoch u = Ok ep) /\
      Forall (fun z => date_missing fill z = true \/ exists t, date_fields ep z = Ok t) l
  end.

(** What [setupColumnInfo] records, and the columns that [readColumn] reads. *)
Definition column_infos name (c : MetaColumn) : list ColumnInfo :=
  let info nm t len ep := {| column_name := nm; column_type := ty_class t; column_size := ty_size t; string_length := len; epoch := ep |} in
  match c with
  | MFloat _ _ => [info name float_t 0 no_epoch]
  | MInt wide _ _ => [info name (vtype wide) 0 no_epoch]
  | MString l => [info name string_t (max_length l) no_epoch]
  | MDate ep _ _ => [info "date" int64_t 0 ep; info "time" int64_t 0 ep]
  end.
Definition column_blocks (c : MetaColumn) : list (list (list R)) :=
  match c with
  | MFloat fill l => [[map (float_cell fill) l]]
  | MInt _ fill l => [[map od_of_int (map (int_cell fill) l)]]
  | MString l => [map (fun c => map (fun s => od_of_bytes (chunk c s)) l) (seq 0 (Z.to_nat (string_columns (max_length l))))]
  | MDate ep fill l => [[map (date_cell ep date_value fill) l]; [map (date_cell ep time_value fill) l]]
  end.
Definition column_data (c : MetaColumn) : list (list R) := concat (column_blocks c).
Definition column_rows (c : MetaColumn) : nat :=
  match c with MFloat _ l => length l | MInt _ _ l => length l | MString l => length l | MDate _ _ l => length l end.

Lemma max_length_nonneg l : 0 <= max_length l.
Proof.
  cut (forall m, 0 <= m -> 0 <= foldl (fun m s => Z.max m (Z.of_nat (String.length s))) m l); [intros H; by apply H|].
  induction l as [|s l IH]; intros m Hm; cbn [foldl]; [done|]. apply IH. lia.
Qed.
Lemma string_columns_pos len : 0 <= len -> 1 <= string_columns len.
Proof.
  intros. unfold string_columns. destruct (decide (len = 0)) as [->|]; [done|]. pose proof (Z.quot_pos (len - 1) 8). lia.
Qed.

Lemma has_column_rows g units n name c : has_column g units n name c -> column_rows c = n.
Proof.
  destruct c as [fill l|wide fill l|l|ep fill l]; intros H; cbn [has_column column_rows] in *;
    [destruct H as [_ H]|destruct H as [_ H]|destruct H as (_ & fill & H)|destruct H as (_ & H & _)];
    destruct (read_stored _ _ _ _ _ _ H) as (_ & _ & _ & Hl); by rewrite length_map in Hl.
Qed.
Lemma column_data_rows c : Forall (fun d => length d = column_rows c) (column_data c).
Proof.
  destruct c as [fill l|wide fill l|l|ep fill l]; unfold column_data; cbn [column_blocks column_rows concat app]; rewrite ?app_nil_r.
  - by repeat constructor; rewrite length_map.
  - by repeat constructor; rewrite !length_map.
  - apply Forall_forall. intros d Hd. apply list_elem_of_fmap in Hd as (c & -> & _). by rewrite length_map.
  - by repeat constructor; rewrite length_map.
Qed.

(** The header has a column for each column of data. *)
Lemma column_header m name c : length (concat (map (setODBColumn m) (column_infos name c))) = length (column_data c).
Proof.
  destruct c as [fill l|wide fill l|l|ep fill l]; [done|by destruct wide| |done].
  unfold column_data. cbn [column_infos column_blocks map concat]. rewrite !app_nil_r. unfold setODBColumn. cbn [column_type ty_class string_t Type_fundamental string_length].
  rewrite length_map, length_seq. destruct (max_length l <=? 8) eqn:E; [|by rewrite length_map, length_seq].
  pose proof (max_length_nonneg l). unfold string_columns. destruct (decide (max_length l = 0)) as [->|]; [done|].
  rewrite Z.quot_small by lia. done.
Qed.

Lemma strip_metadata name rest : strip_prefix metadata_prefix name = Some rest -> (rest = "dateTime" <-> name = "MetaData/dateTime").
Proof.
  assert (Hgo : forall pre s r, strip_prefix pre s = Some r -> s = pre +:+ r).
  { induction pre as [|a pre IH]; intros [|b s] r H; cbn in H; simplify_eq; [done|done|]. case_decide; [|done]. subst.
    change (String b pre +:+ r) with (String b (pre +:+ r)). f_equal. by apply IH. }
  intros ->%Hgo. split; [by intros ->|]. intros H.
  change (metadata_prefix +:+ rest = metadata_prefix +:+ "dateTime") in H. by apply (inj (String.append _)) in H.
Qed.

Lemma string_width_ok g n name fill l : stored g n name string_t fill (map VString l) -> string_width g name n = Ok (max_length l).
Proof.
  intros Hs. destruct (read_stored _ _ _ _ _ _ Hs) as (Hr & _ & _ & Hl). unfold string_width. rewrite Hr. cbn [mbind res_bind].
  rewrite length_map in Hl. subst n. unfold max_length.
  assert (Hgo : forall k m z, (k + m = length l)%nat -> foldM (fun len j => x ← vec_get (map (VString (F := F)) l) j; s ← val_string x;
      Ok (Z.max len (Z.of_nat (String.length s)))) z (seq k m) = Ok (foldl (fun m s => Z.max m (Z.of_nat (String.length s))) z (drop k l))).
  { intros k m. revert k. induction m as [|m IH]; intros k z Hk; cbn [seq foldM]; [by rewrite drop_ge by lia|].
    destruct (lookup_lt_is_Some_2 l k) as [s Hsk]; [lia|].
    assert (Hv : map (VString (F := F)) l !! k = Some (VString s)) by (change (map VString l) with (VString (F := F) <$> l); by rewrite list_lookup_fmap, Hsk).
    rewrite (vec_get_Some _ _ _ Hv). cbn [mbind res_bind val_string]. rewrite IH by lia. by rewrite (drop_S _ _ _ Hsk). }
  by rewrite Hgo.
Qed.

Lemma setup_column_ok g units n name rest c infos k : strip_prefix metadata_prefix name = Some rest -> has_column g units n name c ->
  setup_column g units n (infos, k) name = Ok (infos ++ column_infos name c, k + Z.of_nat (length (column_data c))).
Proof.
  intros Hname Hc. pose proof (strip_metadata _ _ Hname) as Hdt. unfold setup_column. rewrite Hname.
  destruct c as [fill l|wide fill l|l|ep fill l]; cbn [has_column] in Hc.
  - destruct Hc as [Hne (fv & Hg & Ht & _)]. unfold vars_open. rewrite Hg. cbn [mbind res_bind]. rewrite decide_False by tauto. by rewrite Ht.
  - destruct Hc as [Hne (fv & Hg & Ht & _)]. unfold vars_open. rewrite Hg. cbn [mbind res_bind]. rewrite decide_False by tauto. rewrite Ht.
    by destruct wide.
  - destruct Hc as (Hne & fill & Hs). rewrite (string_width_ok _ _ _ _ _ Hs). destruct Hs as (fv & Hg & Ht & _). unfold vars_open.
    rewrite Hg. cbn [mbind res_bind]. rewrite decide_False by tauto. rewrite Ht, decide_True by done. cbn [mbind res_bind].
    unfold column_data. cbn [column_blocks concat]. rewrite app_nil_r, length_map, length_seq.
    pose proof (string_columns_pos _ (max_length_nonneg l)). by rewrite Z2Nat.id by lia.
  - destruct Hc as (Hne & (fv & Hg & Ht & _) & (u & -> & Hu) & _). unfold vars_open. rewrite Hg. cbn [mbind res_bind].
    rewrite decide_True by tauto. cbn [mbind res_bind]. rewrite Hu. cbn [mbind res_bind]. by rewrite Ht.
Qed.

Lemma read_dates_ok g n ep value fill l : stored g n "MetaData/dateTime" int64_t (VInt64 <$> fill) (map VInt64 l) ->
  Forall (fun z => date_missing fill z = true \/ exists t, date_fields ep z = Ok t) l ->
  read_dates g ep value n = Ok (map (date_cell ep value fill) l).
Proof.
  intros Hs HF. destruct (read_stored _ _ _ _ _ _ Hs) as (Hr & Hf & _ & Hl). unfold read_dates. rewrite Hr, Hf. cbn [mbind res_bind].
  replace (int_fill (VInt64 <$> fill)) with (Ok (default 0 fill)) by (by destruct fill). cbn [mbind res_bind].
  rewrite length_map in Hl. apply mapR_rows_map; [done|]. intros j z Hz. cbn [val_int64 mbind res_bind]. unfold date_cell, date_missing in *.
  rewrite Forall_lookup in HF. destruct (HF _ _ Hz) as [->|[t ->]]; [done|]. by destruct (f_eqb _ _).
Qed.

Lemma read_strings_ok g n name fill l : stored g n name string_t fill (map VString l) ->
  read_strings g name (max_length l) n =
  Ok (map (fun c => map (fun s => od_of_bytes (chunk c s)) l) (seq 0 (Z.to_nat (string_columns (max_length l))))).
Proof.
  intros Hs. destruct (read_stored _ _ _ _ _ _ Hs) as (Hr & _ & _ & Hl). unfold read_strings. rewrite Hr. cbn [mbind res_bind].
  rewrite length_map in Hl. apply mapR_Ok. intros c _. by apply mapR_rows_map.
Qed.

Lemma not_date g units n name rest c : strip_prefix metadata_prefix name = Some rest -> has_column g units n name c ->
  name <> "date" /\ name <> "time".
Proof. intros Hn _. split; intros ->; done. Qed.

Lemma readColumn_ok g units n name rest c : strip_prefix metadata_prefix name = Some rest -> has_column g units n name c ->
  mapR (fun i => readColumn g i n) (column_infos name c) = Ok (column_blocks c).
Proof.
  intros Hname Hc. destruct (not_date _ _ _ _ _ _ Hname Hc) as [H1 H2].
  destruct c as [fill l|wide fill l|l|ep fill l]; cbn [has_column] in Hc; cbn [column_infos mapR];
    unfold readColumn; cbn [column_name column_type column_size string_length epoch].
  - destruct Hc as [_ Hs]. rewrite !decide_False by done. cbn [ty_class float_t Type_fundamental].
    by rewrite (read_floats_ok _ _ _ _ _ Hs).
  - destruct Hc as [_ Hs]. rewrite !decide_False by done. pose proof (read_ints_ok _ _ _ _ _ _ Hs) as Hr.
    destruct wide; cbn [vtype ty_class ty_size int_t int64_t Type_fundamental Nat.eqb]; cbn [vtype] in Hr; by rewrite Hr.
  - destruct Hc as (_ & fill & Hs). rewrite !decide_False by done. cbn [ty_class string_t Type_fundamental].
    by rewrite (read_strings_ok _ _ _ _ _ Hs).
  - destruct Hc as (-> & Hs & _ & HF). rewrite (decide_True (P := "date" = "date")), (decide_False (P := "time" = "date")), (decide_True (P := "time" = "time")) by done.
    rewrite (read_dates_ok _ _ ep date_value _ _ Hs HF), (read_dates_ok _ _ ep time_value _ _ Hs HF). done.
Qed.

(** * Variables of the body *)

(** The variables of a body that are present, with their fill values. *)
Record BodyData := {
  bd_obs : option F * list F;
  bd_derived : option (option F * list F);
  bd_effective_error : option (option F * list F);
  bd_hofx : option (option F * list F);
  bd_obsbias : option (option F * list F);
  bd_obserror : option (option F * list F);
  bd_derived_obserror : option (option F * list F);
  bd_qc : option (option Z * list Z);
  bd_flags : list (option (option Z * list Z))
}.

Definition has_float g n name (o : option (option F * list F)) : Prop :=
  match o with
  | Some (fill, l) => stored g n name float_t (VFloat <$> fill) (map VFloat l)
  | None => g_vars g !! name = None
  end.
Definition has_qc g n name (o : option (option Z * list Z)) : Prop :=
  match o with Some (fill, l) => stored g n name int_t (VInt <$> fill) (map VInt l) | None => g_vars g !! name = None end.
Definition has_flag g n name (o : option (option Z * list Z)) : Prop :=
  match o with Some (fill, l) => stored g n name char_t (VChar <$> fill) (map VChar l) | None => g_vars g !! name = None end.
Definition flag_variable v (flag : string) : string := "DiagnosticFlags/" +:+ flag +:+ "/" +:+ v.

Definition has_body g n v (d : BodyData) : Prop :=
  g_vars g !! "" = None /\
  has_float g n (obsvalue_prefix +:+ v) (Some (bd_obs d)) /\ has_float g n (derived_obsvalue_prefix +:+ v) (bd_derived d) /\
  has_float g n (effective_error_prefix +:+ v) (bd_effective_error d) /\ has_float g n (hofx_prefix +:+ v) (bd_hofx d) /\
  has_float g n (obsbias_prefix +:+ v) (bd_obsbias d) /\ has_float g n (obserror_prefix +:+ v) (bd_obserror d) /\
  has_float g n (derived_obserror_prefix +:+ v) (bd_derived_obserror d) /\ has_qc g n (qc_prefix +:+ v) (bd_qc d) /\
  Forall2 (fun flag o => has_flag g n (flag_variable v flag) o) flag_names (bd_flags d).

(** The stores for them: absent variables are missing, and the flags of a
    location are combined by their positions in the list of names. *)
Definition float_store n (o : option (option F * list F)) : list R :=
  match o with Some (fill, l) => map (float_cell fill) l | None => replicate n od_missing end.
Definition qc_store n (o : option (option Z * list Z)) : list Z :=
  match o with Some (fill, l) => map (qc_cell fill) l | None => replicate n odb_missing_int end.
Definition flag_at (o : option (option Z * list Z)) (i : nat) : bool :=
  match o with Some (fill, l) => match l !! i with Some c => flag_set (default 0 fill) c | None => false end | None => false end.
Definition flag_step (i : nat) (acc : Z) (p : nat * option (option Z * list Z)) : Z :=
  if flag_at (snd p) i then Z.lor acc (Z.of_nat (fst p + 1)) else acc.
Definition datum_flags (flags : list (option (option Z * list Z))) (i : nat) : Z := foldl (flag_step i) 0 (imap pair flags).

Definition body_store n (d : BodyData) : BodyColumns (R := R) :=
  {| bc_obsvalue := float_store n (Some (default (bd_obs d) (bd_derived d)));
     bc_initial := match bd_derived d with Some _ => float_store n (Some (bd_obs d)) | None => [] end;
     bc_effective_error := float_store n (bd_effective_error d); bc_hofx := float_store n (bd_hofx d); bc_obsbias := float_store n (bd_obsbias d);
     bc_obserror := float_store n (bd_obserror d); bc_derived_obserror := float_store n (bd_derived_obserror d);
     bc_flags := map (datum_flags (bd_flags d)) (seq 0 n); bc_qc := qc_store n (bd_qc d) |}.

Lemma floats_or_missing_ok g n name o : has_float g n name o ->
  floats_or_missing g name n = Ok (float_store n o) /\ length (float_store n o) = n /\ vars_exists name g = bool_decide (is_Some o).
Proof.
  unfold floats_or_missing. destruct o as [[fill l]|]; cbn [has_float float_store]; intros H.
  - destruct (read_stored _ _ _ _ _ _ H) as (_ & _ & He & Hl). rewrite length_map in Hl. rewrite He, length_map. by rewrite (read_floats_ok _ _ _ _ _ H).
  - unfold vars_exists. rewrite H. cbn. by rewrite length_replicate.
Qed.

Lemma qc_ok g n name o : has_qc g n name o ->
  (if vars_exists name g then read_qc g name n else Ok (replicate n odb_missing_int)) = Ok (qc_store n o) /\ length (qc_store n o) = n.
Proof.
  destruct o as [[fill l]|]; cbn [has_qc qc_store]; intros H.
  - destruct (read_stored _ _ _ _ _ _ H) as (_ & _ & He & Hl). rewrite length_map in Hl. rewrite He, length_map. by rewrite (read_qc_ok _ _ _ _ _ H).
  - unfold vars_exists. rewrite H. cbn. by rewrite length_replicate.
Qed.

(** One flag, and all of them from the [k]-th on. *)
Lemma add_flag_ok g n v flag o k (f : nat -> Z) : has_flag g n (flag_variable v flag) o -> (k = 0%nat -> forall i, f i = 0) ->
  add_flag g v n (map f (seq 0 n)) (k, flag) = Ok (map (fun i => flag_step i (f i) (k, o)) (seq 0 n)).
Proof.
  intros H Hk. unfold add_flag. fold (flag_variable v flag). destruct o as [[fill l]|]; cbn [has_flag] in H.
  - destruct (read_stored _ _ _ _ _ _ H) as (Hr & Hf & He & Hl). rewrite He, Hr, Hf. cbn [mbind res_bind].
    replace (int_fill (VChar <$> fill)) with (Ok (default 0 fill)) by (by destruct fill). cbn [mbind res_bind].
    apply mapR_rows; [done|by rewrite length_map, length_seq|]. intros j a y Ha Hy. rewrite length_map in Hl.
    assert (Hj : (j < n)%nat) by (apply lookup_lt_Some in Ha; rewrite length_map in Ha; lia).
    rewrite lookup_map_seq in Hy by done. change (map VChar l) with (VChar (F := F) <$> l) in Ha. rewrite list_lookup_fmap in Ha.
    destruct (l !! j) as [c|] eqn:E; [|done]. cbn in Ha. simplify_eq. cbn [val_z mbind res_bind].
    rewrite (vec_get_Some _ _ (f j)) by (by rewrite lookup_map_seq). cbn [mbind res_bind]. unfold flag_step, flag_at. cbn [fst snd]. rewrite E.
    destruct k as [|k]; cbn [Nat.eqb]; [|done]. rewrite (Hk eq_refl). by destruct (flag_set _ _).
  - unfold vars_exists. rewrite H. cbn. destruct k as [|k]; cbn [Nat.eqb]; [|done]. f_equal.
    apply list_eq_same_length with n; [by rewrite length_map, length_seq|by rewrite length_replicate|].
    intros j x y Hj Hx Hy. apply lookup_replicate in Hx as [-> _]. rewrite lookup_map_seq in Hy by done. simplify_eq. by rewrite (Hk eq_refl).
Qed.

Lemma add_flags_ok g n v names flags : Forall2 (fun flag o => has_flag g n (flag_variable v flag) o) names flags ->
  forall k (f : nat -> Z), (k = 0%nat -> forall i, f i = 0) ->
  foldM (add_flag g v n) (map f (seq 0 n)) (imap (fun j => pair (k + j)%nat) names) =
  Ok (map (fun i => foldl (flag_step i) (f i) (imap (fun j => pair (k + j)%nat) flags)) (seq 0 n)).
Proof.
  induction 1 as [|flag o names flags H _ IH]; intros k f Hk; [done|]. cbn [imap foldM foldl]. rewrite Nat.add_0_r.
  rewrite (add_flag_ok _ _ _ _ o) by done. cbn [mbind res_bind].
  assert (Hsh : forall A (l : list A), imap ((fun j => pair (k + j)%nat) ∘ S) l = imap (fun j => pair (S k + j)%nat) l)
    by (intros; apply imap_ext; intros; cbn; f_equal; lia).
  rewrite !Hsh, (IH (S k) (fun i => flag_step i (f i) (k, o))) by done. done.
Qed.

Lemma readBodyColumns_ok g n v d : has_body g n v d -> readBodyColumns g v n = Ok (Some (body_store n d)) /\ full_body n (body_store n d).
Proof.
  intros (H0 & Hobs & Hder & Heff & Hhofx & Hbias & Herr & Hderr & Hqc & Hflags).
  destruct (floats_or_missing_ok _ _ _ _ Hder) as (Rder & Lder & Xder). destruct (floats_or_missing_ok _ _ _ _ Hobs) as (Robs & Lobs & Xobs).
  destruct (floats_or_missing_ok _ _ _ _ Heff) as (Reff & Leff & _). destruct (floats_or_missing_ok _ _ _ _ Hhofx) as (Rhofx & Lhofx & _).
  destruct (floats_or_missing_ok _ _ _ _ Hbias) as (Rbias & Lbias & _). destruct (floats_or_missing_ok _ _ _ _ Herr) as (Rerr & Lerr & _).
  destruct (floats_or_missing_ok _ _ _ _ Hderr) as (Rderr & Lderr & _). destruct (qc_ok _ _ _ _ Hqc) as (Rqc & Lqc).
  assert (Rflags : foldM (add_flag g v n) (replicate n 0) (imap pair flag_names) = Ok (map (datum_flags (bd_flags d)) (seq 0 n))).
  { replace (replicate n 0) with (map (fun _ => 0) (seq 0 n)); [by apply (add_flags_ok _ _ _ _ _ Hflags 0)|].
    apply list_eq_same_length with n; [by rewrite length_replicate|by rewrite length_map, length_seq|].
    intros j x y Hj Hx Hy. apply lookup_replicate in Hy as [-> _]. rewrite lookup_map_seq in Hx by done. by simplify_eq. }
  split.
  - unfold readBodyColumns. rewrite Xder, Reff, Rhofx, Rbias, Rerr, Rderr, Rqc, Rflags. unfold body_store.
    destruct (bd_derived d) as [[fill l]|]; cbn [has_float] in Hder; cbn [default from_option id bool_decide].
    + rewrite bool_decide_true by eauto. rewrite Robs, Xobs. rewrite (read_floats_ok _ _ _ _ _ Hder).
      destruct Hder as (fv & Hg & Ht & _). unfold vars_open. rewrite Hg. cbn [mbind res_bind]. by rewrite Ht.
    + rewrite bool_decide_false by (by intros [? ?]). unfold floats_or_missing, vars_exists at 1 2. rewrite H0.
      rewrite (bool_decide_false (is_Some None)) by (by intros [? ?]). destruct (bd_obs d) as [fill l]. cbn [has_float] in Hobs.
      rewrite (read_floats_ok _ _ _ _ _ Hobs). destruct Hobs as (fv & Hg & Ht & _). unfold vars_open. rewrite Hg. cbn [mbind res_bind]. by rewrite Ht.
  - unfold full_body, body_store. cbn [bc_obsvalue bc_initial bc_effective_error bc_hofx bc_obsbias bc_obserror bc_derived_obserror bc_flags bc_qc].
    rewrite length_map, length_seq. split_and!; try done; destruct (bd_derived d) as [[fill l]|]; auto.
Qed.

(** * The file *)

Section file.
Context (g : ObsGroup F) (units : res string) (names : list string) (lp : ODBLayoutParameters) (new_row : nat -> list R) (n : nat) (mx : Z)
  (cols : string -> MetaColumn) (bodies : string -> BodyData) (vno : string -> Z).
Definition is_meta name : bool := match strip_prefix metadata_prefix name with Some _ => true | None => false end.
Definition metadata_names (names : list string) : list string := filter (fun name => is_meta name = true) names.
Definition observed (names : list string) : list string := omap (strip_prefix obsvalue_prefix) names.
Definition file_infos : list ColumnInfo := concat (map (fun name => column_infos name (cols name)) (metadata_names names)).
Definition file_data : list (list R) := concat (map (fun name => column_data (cols name)) (metadata_names names)).
Definition file_body : list (BodyColumns (R := R) * Z) := map (fun v => (body_store n (bodies v), vno v)) (observed names).
Definition file_header : list (string * OdbColumnType) :=
  concat (map (setODBColumn (collectReverseColumnMappings lp)) file_infos) ++ body_columns.

Hypothesis Hloc : g_dims g !! "Location" = Some (Z.of_nat n, mx).
Hypothesis Hmeta : forall name, name ∈ metadata_names names -> has_column g units n name (cols name).
Hypothesis Hsome : metadata_names names <> [].
Hypothesis Hobs : forall v, v ∈ observed names ->
  has_body g n v (bodies v) /\ exists x, collectReverseColumnMappings lp !! v = Some x /\ std_stoi x = Ok (vno v).
Hypothesis Hrow : forall c, length (new_row c) = c.

Lemma setupColumnInfo_ok l infos k : (forall name, name ∈ metadata_names l -> has_column g units n name (cols name)) ->
  foldM (setup_column g units n) (infos, k) l =
  Ok (infos ++ concat (map (fun name => column_infos name (cols name)) (metadata_names l)),
      k + Z.of_nat (length (concat (map (fun name => column_data (cols name)) (metadata_names l))))).
Proof.
  revert infos k. induction l as [|name l IH]; intros infos k Hl; [by rewrite app_nil_r, Z.add_0_r|].
  unfold metadata_names in *. cbn [foldM]. destruct (strip_prefix metadata_prefix name) as [rest|] eqn:E.
  - assert (Hm : is_meta name = true) by (unfold is_meta; by rewrite E).
    rewrite filter_cons_True in Hl by done. rewrite filter_cons_True by done.
    rewrite (setup_column_ok _ _ _ _ _ _ _ _ E (Hl name ltac:(left))). cbn [mbind res_bind map concat].
    rewrite IH by (intros; apply Hl; by right). rewrite <-app_assoc, length_app, Nat2Z.inj_add, Z.add_assoc. done.
  - assert (Hm : is_meta name <> true) by (unfold is_meta; by rewrite E).
    rewrite filter_cons_False in Hl by done. rewrite filter_cons_False by done.
    replace (setup_column g units n (infos, k) name) with (Ok (infos, k)) by (unfold setup_column; by rewrite E). cbn [mbind res_bind]. by apply IH.
Qed.

Lemma setupVarnos_ok (m : gmap string string) l cs vs : (forall v, v ∈ observed l -> exists x, m !! v = Some x /\ std_stoi x = Ok (vno v)) ->
  foldM (fun (st : list string * list Z) name =>
      match strip_prefix obsvalue_prefix name with
      | None => Ok st
      | Some colname =>
          match m !! colname with
          | Some x => varno ← std_stoi x; Ok (fst st ++ [colname], snd st ++ [varno])
          | None => Ok (fst st ++ [colname], snd st)
          end
      end) (cs, vs) l = Ok (cs ++ observed l, vs ++ map vno (observed l)).
Proof.
  revert cs vs. induction l as [|name l IH]; intros cs vs Hl; [by rewrite !app_nil_r|].
  unfold observed in *. cbn [foldM omap list_omap] in *. destruct (strip_prefix obsvalue_prefix name) as [v|] eqn:E; cbn [mbind res_bind].
  - destruct (Hl v ltac:(left)) as (x & -> & Hx). rewrite Hx. cbn [mbind res_bind fst snd map].
    rewrite IH by (intros; apply Hl; by right). by rewrite <-!app_assoc.
  - by apply IH.
Qed.

Lemma file_data_rows : Forall (fun d => length d = n) file_data.
Proof.
  unfold file_data. apply Forall_concat, Forall_map, Forall_forall. intros name Hn. cbn.
  rewrite <-(has_column_rows _ _ _ _ _ (Hmeta _ Hn)). apply column_data_rows.
Qed.

Lemma file_header_length : length file_header = (length file_data + 10)%nat.
Proof.
  unfold file_header, file_infos, file_data. rewrite length_app. f_equal. clear.
  induction (metadata_names names) as [|name l IH]; [done|]. cbn [map concat]. rewrite map_app, concat_app, !length_app, IH. f_equal. apply column_header.
Qed.

Lemma file_data_nonempty : length file_data <> 0%nat.
Proof.
  unfold file_data. destruct (metadata_names names) as [|name l]; [done|]. cbn [map concat]. rewrite length_app.
  cut (1 <= length (column_data (cols name)))%nat; [lia|]. destruct (cols name) as [fill d|wide fill d|d|ep fill d]; try (cbn; lia).
  unfold column_data. cbn [column_blocks concat]. rewrite app_nil_r, length_map, length_seq. pose proof (string_columns_pos _ (max_length_nonneg d)). lia.
Qed.

Lemma file_rows_length (data : list (list R)) l carry : Forall (fun d => length d = n) data ->
  Forall (fun row => length row = (length data + 10)%nat) (file_rows data n l carry) /\ length (file_rows data n l carry) = (length l * n)%nat.
Proof.
  intros HF. revert carry. induction l as [|[b v] l IH]; intros carry; [done|]. cbn [file_rows]. destruct (IH (default carry (last (bc_initial b)))) as [H1 H2].
  split; [|rewrite length_app, length_map, length_seq, H2; cbn; lia]. apply Forall_app. split; [|done].
  apply Forall_forall. intros row Hr. apply list_elem_of_fmap in Hr as (i & -> & Hi). apply elem_of_seq in Hi.
  unfold file_row, body_cells. rewrite length_app. f_equal. apply (column_length n); [done|lia].
Qed.

(** C16: [createFile] writes the whole group.  For a group with metadata
    variables of floats, integers, strings and dates and with mapped float
    variables under ObsValue, the file has one column for each metadata column
    and the ten columns of the body, and one row for each variable and location:
    the metadata of the location, the varno, and the values, errors, flags and
    biases of the variable, missing where a variable is absent or a value is
    the fill value.  The cells are as the code encodes them, which is not always
    the value of the group: a date goes through its struct tm with the calendar
    month and year ([date_cell], [written_dates_are_wrong]), the diagnostic flags
    are combined as the numbers ii+1 ([datum_flags], [written_flags_collide]),
    and a variable without initial values repeats the last initial value that
    was written before it ([file_rows]). *)
Theorem created_file :
  createFile g units names lp new_row =
    Ok (Some (file_header, file_rows file_data n file_body (default od_missing (new_row (length file_header) !! S (length file_data))))) /\
  length file_header = (length file_data + 10)%nat /\
  (forall carry, length (file_rows file_data n file_body carry) = (length (observed names) * n)%nat /\
    Forall (fun row => length row = length file_header) (file_rows file_data n file_body carry)).
Proof.
  pose proof file_header_length as Hh. split_and!; [|done|].
  - unfold createFile, getNumberOfRows, dim_open. rewrite Hloc. cbn [mbind res_bind]. rewrite Nat2Z.id. unfold setupColumnInfo.
    rewrite (setupColumnInfo_ok names [] 0 Hmeta). cbn [mbind res_bind app]. fold file_infos file_data. rewrite Z.add_0_l.
    pose proof file_data_nonempty. replace (Z.of_nat (length file_data) =? 0) with false by (symmetry; apply Z.eqb_neq; lia).
    unfold file_infos at 2. rewrite (mapR_concat _ _ (fun name => column_blocks (cols name))).
    2: { intros name Hn. pose proof Hn as Hn'. unfold metadata_names in Hn'. rewrite list_elem_of_filter in Hn'. destruct Hn' as [Hm _].
         unfold is_meta in Hm. destruct (strip_prefix metadata_prefix name) as [rest|] eqn:E; [|done]. by eapply readColumn_ok, Hmeta. }
    cbn [mbind res_bind]. unfold setupVarnos. rewrite setupVarnos_ok by (intros v Hv; by apply Hobs). cbn [mbind res_bind app].
    rewrite (mapR_Ok _ (fun v => Some (body_store n (bodies v)))) by (intros v Hv; by apply readBodyColumns_ok, Hobs). cbn [mbind res_bind].
    assert (Hd : concat (concat (map (fun name => column_blocks (cols name)) (metadata_names names))) = file_data).
    { unfold file_data. clear. induction (metadata_names names) as [|name l IH]; [done|]. cbn [map concat]. by rewrite concat_app, IH. }
    assert (Hb : omap id (map (fun v => Some (body_store n (bodies v))) (observed names)) = map (fun v => body_store n (bodies v)) (observed names)).
    { clear. induction (observed names) as [|v l IH]; [done|]. cbn. by rewrite IH. }
    rewrite Hd, Hb. replace (Z.to_nat (Z.of_nat (length file_data) + 10)) with (length file_data + 10)%nat by lia.
    rewrite writeODB_ok; [| |apply Forall_map, Forall_forall|by rewrite !length_map|apply Hrow].
    + cbn [mbind res_bind]. fold file_header. rewrite Hh. unfold file_body. rewrite zip_maps. done.
    + apply file_data_rows.
    + intros v Hv. exact (proj2 (readBodyColumns_ok _ _ _ _ (proj1 (Hobs v Hv)))).
  - intros carry. destruct (file_rows_length file_data file_body carry file_data_rows) as [H1 H2]. rewrite Hh. split; [|done].
    rewrite H2. unfold file_body. by rewrite length_map.
Qed.
End file.
End create.

(** * Strings *)

Fixpoint nul_free (s : string) : bool :=
  match s with
  | EmptyString => true
  | String c s => negb (Ascii.nat_of_ascii c =? 0)%nat && nul_free s
  end.

Lemma until_nul_app s t : nul_free s = true -> until_nul (s +:+ t) = s +:+ until_nul t.
Proof.
  induction s as [|c s IH]; intros H; [done|]. cbn [nul_free] in H. apply andb_prop in H as [Hc Hs].
  change (String c s +:+ t) with (String c (s +:+ t)). cbn [until_nul]. apply negb_true_iff in Hc. rewrite Hc, (IH Hs). done.
Qed.
Lemma until_nul_nuls k : until_nul (nuls k) = EmptyString.
Proof. by destruct k. Qed.

Lemma substring_nul_free p m s : nul_free s = true -> nul_free (String.substring p m s) = true.
Proof.
  revert p m. induction s as [|c s IH]; intros p m H; [by destruct p, m|].
  pose proof H as H'. cbn [nul_free] in H. apply andb_prop in H as [Hc Hs].
  destruct p as [|p]; [|by apply IH]. destruct m as [|m]; [done|]. cbn [String.substring nul_free]. by rewrite Hc, IH.
Qed.

Lemma substring_add s : forall p a b, String.substring p (a + b) s = String.substring p a s +:+ String.substring (p + a) b s.
Proof.
  induction s as [|c s IH]; intros p a b.
  - by destruct p, a, b.
  - destruct p as [|p]; [|apply IH]. destruct a as [|a]; [done|]. cbn [Nat.add String.substring].
    rewrite (IH 0%nat a b). done.
Qed.
Lemma substring_all s m : (String.length s <= m)%nat -> String.substring 0 m s = s.
Proof. revert m. induction s as [|c s IH]; intros [|m] H; cbn in *; [done|done|lia|]. by rewrite IH by lia. Qed.

Lemma substring_chunks s k m : foldr String.append EmptyString (map (fun c => String.substring (8 * c) 8 s) (seq k m)) = String.substring (8 * k) (8 * m) s.
Proof.
  revert k. induction m as [|m IH]; intros k.
  - cbn [seq map foldr]. rewrite Nat.mul_0_r. generalize (8 * k)%nat. induction s as [|c s IHs]; intros [|p]; try done. apply IHs.
  - cbn [seq map foldr]. rewrite IH. replace (8 * S m)%nat with (8 + 8 * m)%nat by lia. rewrite substring_add. f_equal. f_equal. lia.
Qed.

Lemma string_append_nil_r s : s +:+ EmptyString = s.
Proof. induction s as [|c s IH]; [done|]. change (String c s +:+ EmptyString) with (String c (s +:+ EmptyString)). by rewrite IH. Qed.

Lemma substring_short s : forall p m, (String.length (String.substring p m s) <= m)%nat.
Proof.
  induction s as [|c s IH]; intros p m; [destruct p, m; cbn; lia|]. destruct p as [|p]; [|apply IH]. destruct m as [|m]; [done|]. cbn.
  pose proof (IH 0%nat m). lia.
Qed.
Lemma nuls_length k : String.length (nuls k) = k.
Proof. induction k as [|k IH]; [done|]. cbn. by rewrite IH. Qed.
Lemma chunk_length c s : String.length (chunk c s) = 8%nat.
Proof. unfold chunk. rewrite length_string_app, nuls_length. pose proof (substring_short s (8 * c) 8). lia. Qed.
Lemma max_length_ge l s : s ∈ l -> Z.of_nat (String.length s) <= max_length l.
Proof.
  unfold max_length. cut (forall m, (s ∈ l \/ Z.of_nat (String.length s) <= m) ->
    Z.of_nat (String.length s) <= foldl (fun m s => Z.max m (Z.of_nat (String.length s))) m l); [auto|].
  induction l as [|t l IH]; intros m [H|H]; cbn [foldl]; try (by apply elem_of_nil in H); try done.
  - apply IH. apply elem_of_cons in H as [->|H]; [right; lia|by left].
  - apply IH. right. lia.
Qed.

Section strings.
Context {R F : Type} `{OD : OdbDouble R F} `{OW : OdbWriteDouble R F} `{FO : FloatOps F}.

(** No character of a string is lost.  The columns that are written for a
    string variable have, in every row, the characters of its string: the bytes
    of the cells up to the first zero, one column after the other, are the
    string, however long it is, when it has no zero characters. *)
Theorem strings_written (g : ObsGroup F) (n : nat) (name : string) (fill : option (Val F)) (l : list string) (i : nat) (s : string) :
  (forall b, String.length b = 8%nat -> od_bytes (od_of_bytes b : R) = b) ->
  stored g n name string_t fill (map VString l) -> l !! i = Some s -> nul_free s = true ->
  exists columns, read_strings g name (max_length l) n = Ok columns /\
    Forall (fun col => length col = n) columns /\ Z.of_nat (length columns) = string_columns (max_length l) /\
    foldr String.append EmptyString (map (fun cell : R => until_nul (od_bytes cell)) (omap (fun col => col !! i) columns)) = s.
Proof.
  intros Hlaw Hs Hi Hn. eexists. split; [by apply (read_strings_ok _ _ _ _ _ Hs)|].
  destruct (read_stored _ _ _ _ _ _ Hs) as (_ & _ & _ & Hl). rewrite length_map in Hl.
  pose proof (string_columns_pos _ (max_length_nonneg l)) as Hpos. split_and!.
  - apply Forall_map, Forall_forall. intros c _. cbn. by rewrite length_map.
  - rewrite length_map, length_seq. lia.
  - assert (Hcol : forall cs, omap (fun col => col !! i) (map (fun c => map (fun s => od_of_bytes (chunk c s) : R) l) cs) =
      map (fun c => od_of_bytes (chunk c s)) cs).
    { intros cs. induction cs as [|c cs IH]; [done|]. cbn [map omap list_omap].
      change (map (fun s => od_of_bytes (chunk c s)) l) with ((fun s => od_of_bytes (chunk c s) : R) <$> l). rewrite list_lookup_fmap, Hi. cbn [fmap option_fmap option_map]. f_equal. exact IH. }
    rewrite Hcol, map_map. rewrite (map_ext _ (fun c => String.substring (8 * c) 8 s)).
    + rewrite substring_chunks. apply substring_all. pose proof (max_length_ge l s ltac:(by eapply list_elem_of_lookup_2)) as Hm.
      unfold string_columns in *. destruct (decide (max_length l = 0)); [lia|]. pose proof (Z.quot_rem' (max_length l - 1) 8).
      pose proof (Z.rem_bound_pos (max_length l - 1) 8). lia.
    + intros c. rewrite Hlaw by apply chunk_length. unfold chunk. rewrite until_nul_app by (by apply substring_nul_free).
      by rewrite until_nul_nuls, string_append_nil_r.
Qed.
End strings.

(** * Flags and dates *)

Section flags.
Context {R F : Type} `{OD : OdbDouble R F} `{OW : OdbWriteDouble R F} `{FO : FloatOps F}.

(** The flags that are set at a location, by name. *)
Definition flags_at (flags : list (option (option Z * list Z))) (i : nat) : list bool := map (fun o => flag_at o i) flags.

Lemma datum_flags_bits flags i : datum_flags flags i = foldl (fun acc p => if snd p : bool then Z.lor acc (Z.of_nat (fst p + 1)) else acc) 0 (imap pair (flags_at flags i)).
Proof.
  unfold datum_flags, flags_at. generalize 0. cut (forall (h : nat -> nat) z,
    foldl (flag_step i) z (imap (fun j => pair (h j)) flags) =
    foldl (fun acc p => if snd p : bool then Z.lor acc (Z.of_nat (fst p + 1)) else acc) z (imap (fun j => pair (h j)) (map (fun o => flag_at o i) flags))).
  { intros H z. exact (H id z). }
  induction flags as [|o flags IH]; intros h z; [done|]. cbn [map imap foldl]. exact (IH (h ∘ S) _).
Qed.

(** The written flags do not tell which flags were set.  The number of the
    flag is combined in place of its bit: an observation with BuddyPerfFlag
    alone has the same datum_flags, 3, as one with BackPerfFlag and
    BackRejectFlag, in every file. *)
Theorem written_flags_collide (g : ObsGroup F) (n : nat) (v : string) (d : BodyData (F := F)) (i j : nat) :
  has_body g n v d -> (i < n)%nat -> (j < n)%nat ->
  flags_at (bd_flags d) i = [false; false; true] ++ replicate 10 false ->
  flags_at (bd_flags d) j = [true; true] ++ replicate 11 false ->
  exists b : BodyColumns (R := R), readBodyColumns g v n = Ok (Some b) /\ bc_flags b !! i = Some 3 /\ bc_flags b !! j = Some 3.
Proof.
  intros Hb Hi Hj Fi Fj. destruct (readBodyColumns_ok _ _ _ _ Hb) as [Hr _]. exists (body_store n d). split; [exact Hr|].
  unfold body_store. cbn [bc_flags]. by rewrite !lookup_map_seq, !datum_flags_bits, Fi, Fj by done.
Qed.
End flags.

Module Sample.
Import ObsSpaceVars.Sample.

(** Cells that are numbers or characters. *)
#[export] Instance OdbDouble_cell : OdbDouble (Z + string) Z := {|
  od_int x := match x with inl z => if (- 2 ^ 31 <=? z) && (z <? 2 ^ 31) then Some z else None | inr _ => None end;
  od_size x := match x with inl z => if (0 <=? z) && (z <? 2 ^ 64) then Some z else None | inr _ => None end;
  od_float x := match x with inl z => z | inr _ => 0 end;
  od_eq_int x z := match x with inl y => y =? z | inr _ => false end;
  od_missing := inl (- 2 ^ 31); odb_missing_float := - 2 ^ 31;
  od_is_missing x := match x with inl z => z =? - 2 ^ 31 | inr _ => false end;
  od_bytes x := match x with inl _ => EmptyString | inr s => s end |}.
#[export] Instance OdbWriteDouble_cell : OdbWriteDouble (Z + string) Z := {|
  od_of_float := inl; od_of_int := inl; od_of_bytes := inr; f_of_bits z := z mod 2 ^ 32; f_of_int z := z |}.

Definition plain (t : OType) (fill : option (Val Z)) (vals : list (Val Z)) : FrameVar Z :=
  {| fv_dims := ["Location"];
     fv_var := {| dimensions_ := [Z.of_nat (length vals)]; max_dimensions_ := [Z.of_nat (length vals)]; dtype_ := t; fvdata_ := fill;
                  var_data_ := {| var_attr_data_ := vals; num_elements_ := ty_num_elements t |}; dim_scales_ := [None]; is_scale_ := false;
                  scale_name_ := ""; atts := Named_empty; impl_atts := Named_empty |} |}.

Lemma plain_stored (g : ObsGroup Z) n name t fill vals : length vals = n -> g_vars g !! name = Some (plain t fill vals) -> ty_num_elements t = 1%nat ->
  Z.of_nat (length vals) < 2 ^ 31 -> stored g n name t fill vals.
Proof.
  intros <- Hg Ht Hl. exists (plain t fill vals). split_and!; [done|done|done|].
  destruct (size_product_cons (Z.of_nat (length vals)) []) as [E _]; [lia|constructor|unfold prodZ; cbn; lia|]. unfold prodZ in E. cbn [foldr] in E.
  split; [split|done|done|done|]; cbn [plain fv_var var_data_ var_attr_data_ num_elements_ dimensions_ max_dimensions_ dtype_].
  - rewrite E, Ht. lia.
  - done.
  - intros [|i] m k Hm Hk Hp; simplify_eq/=; lia.
  - split; [constructor|unfold prodZ; cbn; lia|done].
Qed.

Definition units : string := "seconds since 1970-01-01T00:00:00Z".
Definition lp : ODBLayoutParameters :=
  {| lp_variables := [{| vp_name := "MetaData/latitude"; vp_source := "lat"; vp_unit := None |}]; lp_complementary := [];
     lp_varno_columns := [{| vd_source := "initial_obsvalue"; vd_group := "ObsValue";
                             vd_mappings := [{| vm_name := "airTemperature"; vm_varno := 2; vm_unit := None |}] |}] |}.
Definition names : list string :=
  ["MetaData/dateTime"; "MetaData/latitude"; "MetaData/station"; "ObsValue/airTemperature"; "DerivedObsValue/airTemperature"].
Definition flag (c1 c2 : Z) : FrameVar Z := plain char_t (Some (VChar (-9))) [VChar c1; VChar c2].
Definition g : ObsGroup Z :=
  {| g_dim_names := ["Location"]; g_dims := {["Location" := (2, 2)]}; g_names := names;
     g_vars := list_to_map
       [("MetaData/dateTime", plain int64_t (Some (VInt64 (-99))) [VInt64 3600; VInt64 1555200000]);
        ("MetaData/latitude", plain float_t (Some (VFloat (-99))) [VFloat 45; VFloat (-99)]);
        ("MetaData/station", plain string_t None [VString "Exeter"; VString "Gibraltar"]);
        ("ObsValue/airTemperature", plain float_t (Some (VFloat (-99))) [VFloat 280; VFloat 281]);
        ("DerivedObsValue/airTemperature", plain float_t (Some (VFloat (-99))) [VFloat 282; VFloat (-99)]);
        ("DiagnosticFlags/BackPerfFlag/airTemperature", flag 0 1);
        ("DiagnosticFlags/BackRejectFlag/airTemperature", flag 0 1);
        ("DiagnosticFlags/BuddyPerfFlag/airTemperature", flag 1 0)] |}.
Definition epoch_1970 : Epoch := {| ep_year := 1970; ep_month := 1; ep_day := 1; ep_hour := 0; ep_minute := 0; ep_second := 0 |}.
Definition cols (name : string) : MetaColumn (F := Z) :=
  if decide (name = "MetaData/dateTime") then MDate epoch_1970 (Some (-99)) [3600; 1555200000]
  else if decide (name = "MetaData/latitude") then MFloat (Some (-99)) [45; -99]
  else MString ["Exeter"; "Gibraltar"].
Definition body (v : string) : BodyData (F := Z) :=
  {| bd_obs := (Some (-99), [280; 281]); bd_derived := Some (Some (-99), [282; -99]); bd_effective_error := None; bd_hofx := None;
     bd_obsbias := None; bd_obserror := None; bd_derived_obserror := None; bd_qc := None;
     bd_flags := [Some (Some (-9), [0; 1]); Some (Some (-9), [0; 1]); Some (Some (-9), [1; 0])] ++ replicate 10 None |}.

Ltac plain_var := apply plain_stored; [reflexivity|vm_compute; reflexivity|reflexivity|reflexivity].
Ltac plain := cbn [has_float has_qc has_flag body bd_obs bd_derived]; first [plain_var | eexists; plain_var].

Lemma body_ok : has_body g 2 "airTemperature" (body "airTemperature").
Proof. split_and!; try reflexivity; try plain. repeat (apply Forall2_cons; split; [first [plain | reflexivity]|]). apply Forall2_nil; exact I. Qed.

Lemma cols_ok name : name ∈ metadata_names names -> has_column g (Ok units) 2 name (cols name).
Proof.
  intros H. change (metadata_names names) with ["MetaData/dateTime"; "MetaData/latitude"; "MetaData/station"] in H.
  rewrite !elem_of_cons, elem_of_nil in H. destruct H as [-> | [-> | [-> | []]]].
  - split_and!; [done|plain|by exists units|]. repeat (apply Forall_cons; split; [right; eexists; reflexivity|]). apply Forall_nil; exact I.
  - split; [done|plain].
  - split; [done|plain].
Qed.

Lemma created_file_witness : createFile g (Ok units) names lp (fun c => replicate c od_missing) =
  Ok (Some ([("date", ODB_INTEGER); ("time", ODB_INTEGER); ("lat", ODB_REAL); ("station_0", ODB_STRING); ("station_1", ODB_STRING)] ++ body_columns,
    [[inl 19700101; inl 10000; inl 45; inr (chunk 0 "Exeter"); inr (chunk 1 "Exeter"); inl 2; inl 280; inl 282; od_missing; od_missing; od_missing;
      inl 3; inl odb_missing_int; od_missing; od_missing];
     [inl 20190416; inl 0; od_missing; inr (chunk 0 "Gibraltar"); inr (chunk 1 "Gibraltar"); inl 2; inl 281; od_missing; od_missing; od_missing; od_missing;
      inl 3; inl odb_missing_int; od_missing; od_missing]])).
Proof.
  refine (eq_trans (proj1 (created_file g (Ok units) names lp (fun c => replicate c od_missing) 2 2 cols body (fun _ => 2) _ _ _ _ _)) _).
  - reflexivity.
  - apply cols_ok.
  - discriminate.
  - intros v Hv. change (observed names) with ["airTemperature"] in Hv. rewrite elem_of_cons, elem_of_nil in Hv. destruct Hv as [-> | []].
    split; [apply body_ok|]. exists "2". split; reflexivity.
  - intros c. apply length_replicate.
  - vm_compute. reflexivity.
Defined.

Lemma strings_written_witness : exists columns, read_strings g "MetaData/station" 9 2 = Ok columns /\
  Forall (fun col => length col = 2%nat) columns /\ Z.of_nat (length columns) = 2 /\
  foldr String.append EmptyString (map (fun cell : Z + string => until_nul (od_bytes cell)) (omap (fun col => col !! 1%nat) columns)) = "Gibraltar".
Proof.
  apply (strings_written g 2 "MetaData/station" None ["Exeter"; "Gibraltar"] 1 "Gibraltar"); [done|plain|reflexivity|reflexivity].
Defined.

Lemma written_flags_collide_witness : exists b : BodyColumns (R := Z + string), readBodyColumns g "airTemperature" 2 = Ok (Some b) /\
  bc_flags b !! 0%nat = Some 3 /\ bc_flags b !! 1%nat = Some 3.
Proof. apply (written_flags_collide g 2 "airTemperature" (body "airTemperature") 0 1 body_ok); [lia|lia|reflexivity|reflexivity]. Defined.

(** The dates of a file are those of other days.  [tm_mon] counts from 0 and
    [tm_year] from 1900, which the writer ignores: the offset is added in another
    month of another year.  From the epoch 1970-01-01, the 29 January 1970 is
    written as 1 February and the 14 April 2019 as the 16 April; from the epoch
    2020-12-01 the month is 0. *)
Theorem written_dates_are_wrong :
  let date ep offset := t ← date_fields ep offset; Ok (date_value t) in
  date epoch_1970 (28 * 86400) = Ok 19700201 /\ civil_from_days 28 = (1970, 1, 29) /\
  date epoch_1970 (18000 * 86400) = Ok 20190416 /\ civil_from_days 18000 = (2019, 4, 14) /\
  date {| ep_year := 2020; ep_month := 12; ep_day := 1; ep_hour := 0; ep_minute := 0; ep_second := 0 |} 0 = Ok 20210001.
Proof. vm_compute. repeat split. Qed.
End Sample.
