(* ===== verification/OdbLayout.v ===== *)
(** The layout policy of ODB files: the names of variables, the stitching of
    complementary variables and the conversion of units.

    Models src/src/engines/ioda/src/ioda/Layouts/Layout_ObsGroup_ODB.cpp, the
    functions of Has_Variables.cpp that use the layout, StringFuncs.cpp and
    UnitConversions.cpp.  Variables have their dimension scales attached. *)
From stdpp Require Import base list gmap strings pretty.
From Stdlib Require Import ZArith.
From S2P Require Import Prelude Selection VarAttrStore ObsTypes ObsVariables ObsFrame ObsFrameRead ObsRecords OdbOpen.
Local Open Scope Z_scope.

(** * Strings *)

Definition at_sign (c : Ascii.ascii) : bool := (Ascii.nat_of_ascii c =? 64)%nat.

(** The parts of a path between the characters that [sep] accepts, without empty
    ones; [cur] is the part that is being read. *)
Fixpoint tokens (sep : Ascii.ascii -> bool) (cur s : string) : list string :=
  match s with
  | EmptyString => if nonempty cur then [cur] else []
  | String c s =>
      if sep c then (if nonempty cur then [cur] else []) ++ tokens sep EmptyString s
      else tokens sep (cur +:+ String c EmptyString) s
  end.
Fixpoint has_char (sep : Ascii.ascii -> bool) (s : string) : bool :=
  match s with EmptyString => false | String c s => sep c || has_char sep s end.
Fixpoint join_slash (l : list string) : string :=
  match l with [] => EmptyString | [x] => x | x :: l => x +:+ "/" +:+ join_slash l end.

Definition convertV1PathToV2Path (path : string) : string :=
  if has_char at_sign path then join_slash (rev (tokens at_sign EmptyString path)) else path.

(** A string without the spaces at its end. *)
Fixpoint strip_trailing (s : string) : string :=
  match s with
  | EmptyString => EmptyString
  | String c s => match strip_trailing s with
      | EmptyString => if (Ascii.nat_of_ascii c =? 32)%nat then EmptyString else String c EmptyString
      | r => String c r
      end
  end.

Definition concatenateStringVectors (stringVectors : list (list string)) : res (list string) :=
  derivedVector ← vec_get stringVectors 0;
  derivedVector ← foldM (fun derivedVector v =>
      if (length v =? length derivedVector)%nat then Ok (zip_with String.append derivedVector v)
      else Throw (EException "string vectors are of unequal lengths")) derivedVector (drop 1 stringVectors);
  Ok (map strip_trailing derivedVector).

(** * The layout *)

Inductive MergeMethod := Concat.

Record variableStorageInformation := { iodaName : string; inputUnit : bool * string }.
Record ComplementaryVariableOutputMetadata := { co_outputName : string; co_mergeMethod : MergeMethod; co_inputVariableCount : nat }.
Record Layout := {
  Mapping : gmap string variableStorageInformation;
  complementaryVariableDataMap : gmap string (nat * ComplementaryVariableOutputMetadata)
}.

Definition isComplementary (L : Layout) (s : string) : bool := bool_decide (is_Some (complementaryVariableDataMap L !! s)).
Definition isMapped (L : Layout) (s : string) : bool := bool_decide (is_Some (Mapping L !! s)).
Definition isMapOutput (L : Layout) (s : string) : bool :=
  existsb (fun p => bool_decide (iodaName p.2 = s)) (map_to_list (Mapping L)) ||
  existsb (fun p => bool_decide (co_outputName p.2.2 = s)) (map_to_list (complementaryVariableDataMap L)).

Definition set_mapping (s : string) (i : variableStorageInformation) (L : Layout) : Layout :=
  {| Mapping := <[s := i]> (Mapping L); complementaryVariableDataMap := complementaryVariableDataMap L |}.
Definition addMapping (inputName outputName : string) (unit : option string) (L : Layout) : Layout :=
  set_mapping inputName {| iodaName := outputName; inputUnit := match unit with Some u => (true, u) | None => (false, EmptyString) end |} L.
Definition addUnchangedVariableName (L : Layout) (s : string) : res Layout :=
  if isComplementary L s || isMapped L s || isMapOutput L s then Throw (EException "Attempting to re-add existing variable to mapping")
  else Ok (set_mapping s {| iodaName := s; inputUnit := (false, EmptyString) |} L).

Definition parseMergeMethod (method : string) : res MergeMethod :=
  if decide (method = "concat") then Ok Concat else Throw (EException "Concatenation is the only supported merge method.").

Definition parseNameChanges (lp : ODBLayoutParameters) (L : Layout) : Layout :=
  foldl (fun L v => addMapping (vp_source v) (vp_name v) (vp_unit v) L) L (lp_variables lp).

Definition component_variable (L : Layout) (v : ComplementaryVariables) : res Layout :=
  if decide (cv_type v = "string") then
    mergeMethod ← parseMergeMethod (cv_method v);
    if decide (cv_output v ∈ cv_inputs v)
    then Throw (EException "YAML mapping file has a complementary variable namematching a derived variable name.")
    else
      let meta := {| co_outputName := cv_output v; co_mergeMethod := mergeMethod; co_inputVariableCount := length (cv_inputs v) |} in
      Ok {| Mapping := Mapping L;
            complementaryVariableDataMap :=
              foldl (fun m p => <[snd p := (fst p, meta)]> m) (complementaryVariableDataMap L) (imap pair (cv_inputs v)) |}
  else Throw (EException "YAML mapping file: the output variable data type for a derived variable is not 'string'").
Definition parseComponentVariables (lp : ODBLayoutParameters) (L : Layout) : res Layout :=
  foldM component_variable L (lp_complementary lp).

Definition parseVarnoDependentColumns (lp : ODBLayoutParameters) (L : Layout) : Layout :=
  foldl (fun L column =>
      let inputPrefix := vd_source column +:+ "/" in
      let outputPrefix := convertV1PathToV2Path (vd_group column) +:+ "/" in
      foldl (fun L p => addMapping (inputPrefix +:+ pretty (vm_varno p)) (outputPrefix +:+ vm_name p) (vm_unit p) L) L (vd_mappings column))
    L (lp_varno_columns lp).

Definition parseMappingFile (lp : ODBLayoutParameters) : res Layout :=
  L ← parseComponentVariables lp (parseNameChanges lp {| Mapping := ∅; complementaryVariableDataMap := ∅ |});
  Ok (parseVarnoDependentColumns lp L).
Definition DataLayoutPolicy_ObsGroup_ODB (lp : ODBLayoutParameters) (nonODBVariables : list string) : res Layout :=
  L ← parseMappingFile lp;
  foldM addUnchangedVariableName L nonODBVariables.

Definition doMap (L : Layout) (s : string) : string :=
  convertV1PathToV2Path (match Mapping L !! s with Some i => iodaName i | None => s end).

Definition component (L : Layout) (s : string) : res (nat * ComplementaryVariableOutputMetadata) :=
  match complementaryVariableDataMap L !! s with
  | Some c => Ok c
  | None => Throw (EException "was not found to be a complementary variable.")
  end.
Definition getComplementaryPosition (L : Layout) (s : string) : res nat := c ← component L s; Ok (fst c).
Definition getInputsNeeded (L : Layout) (s : string) : res nat := c ← component L s; Ok (co_inputVariableCount (snd c)).
Definition getOutputNameFromComponent (L : Layout) (s : string) : res string := c ← component L s; Ok (co_outputName (snd c)).
Definition getMergeMethod (L : Layout) (s : string) : res MergeMethod := c ← component L s; Ok (co_mergeMethod (snd c)).
Definition getUnit (L : Layout) (s : string) : res (bool * string) :=
  match Mapping L !! s with
  | Some i => Ok (inputUnit i)
  | None => Throw (EException "was not found to to be an ODB source variable.")
  end.

(** * Variables of a group with the layout *)

Section layout.
Context {F : Type} `{FO : FloatOps F}.
Implicit Types (g : ObsGroup F) (L : Layout).

Definition layout_exists L (name : string) g : bool := vars_exists (doMap L name) g.
Definition layout_open L (name : string) g : res (FrameVar F) := vars_open (doMap L name) g.
Definition group_remove (name : string) g : res (ObsGroup F) :=
  if vars_exists name g then
    Ok {| g_dim_names := g_dim_names g; g_dims := g_dims g; g_names := filter (fun x => x <> name) (g_names g); g_vars := delete name (g_vars g) |}
  else Throw (EException "variable does not exist").
Definition layout_remove L (name : string) g : res (ObsGroup F) := group_remove (doMap L name) g.
(** [create] with the check of the ODB layout, which follows the creation. *)
Definition layout_createWithScales L (name : string) (dims : list string) (t : OType) (fill : option (Val F)) g : res (ObsGroup F) :=
  g ← createWithScales (doMap L name) dims t fill g;
  if isMapped L name || isComplementary L name || isMapOutput L name then Ok g
  else Throw (EException "The following variable was not remapped in the YAML file").

(** [list]: the variables of the group itself, in the order of their names. *)
Definition is_slash (c : Ascii.ascii) : bool := (Ascii.nat_of_ascii c =? 47)%nat.
Definition vars_list g : list string := std_sort String.ltb (filter (fun name => has_char is_slash name = false) (g_names g)).

(** ** [stitchComplementaryVariables] *)

Record ComplementaryVariableCreationParameters := {
  outputName : string;
  mergeMethod : MergeMethod;
  inputVarsNeededCount : nat;
  inputVarsEnteredCount : nat;
  inputVariableNames : list string
}.

Definition createDerivedVariableParameters L (inputName output : string) (position : nat) : res ComplementaryVariableCreationParameters :=
  let destName := doMap L inputName in
  merge ← getMergeMethod L destName;
  needed ← getInputsNeeded L destName;
  names ← vec_set (replicate needed EmptyString) position inputName;
  Ok {| outputName := output; mergeMethod := merge; inputVarsNeededCount := needed; inputVarsEnteredCount := 1; inputVariableNames := names |}.

Definition read_strings_of L (name : string) g : res (list string) :=
  v ← layout_open L name g;
  buf ← front_read (zero_val string_t) string_t front_all front_all (fv_var v);
  mapR val_string buf.
Definition loadComponentVariableData L (p : ComplementaryVariableCreationParameters) g : res (list (list string)) :=
  mapR (fun i => name ← vec_get (inputVariableNames p) i; read_strings_of L name g) (seq 0 (inputVarsEnteredCount p)).

(** The derived variable, and the removal of its inputs. *)
Definition create_derived L (removeOriginals : bool) (p : ComplementaryVariableCreationParameters) g : res (ObsGroup F) :=
  mergeMethodInput ← loadComponentVariableData L p g;
  derivedVector ← concatenateStringVectors mergeMethodInput;
  first ← vec_get (inputVariableNames p) 0;
  v ← layout_open L first g;
  dim ← vec_get (fv_dims v) 0;
  g ← layout_createWithScales L (outputName p) [dim] string_t (fvdata_ (fv_var v)) g;
  g ← vars_update (doMap L (outputName p)) (fun v => front_write (map VString derivedVector) string_t front_all front_all (fv_var v)) g;
  if removeOriginals then foldM (fun g name => layout_remove L (doMap L name) g) g (inputVariableNames p) else Ok g.

(** One variable of the list; the state has the group and
    [complementaryVariables_]. *)
Definition stitch_step L (removeOriginals : bool) (st : ObsGroup F * list ComplementaryVariableCreationParameters) (name : string)
  : res (ObsGroup F * list ComplementaryVariableCreationParameters) :=
  let '(g, params) := st in
  let destinationName := doMap L name in
  if isComplementary L destinationName then
    position ← getComplementaryPosition L destinationName;
    output ← getOutputNameFromComponent L destinationName;
    needed ← getInputsNeeded L destinationName;
    let oneVariableStitch := (needed =? 1)%nat in
    match list_find (fun p => outputName p = output) params with
    | None =>
        p ← createDerivedVariableParameters L name output position;
        if oneVariableStitch then g ← create_derived L removeOriginals p g; Ok (g, params ++ [p])
        else Ok (g, params ++ [p])
    | Some (i, p) =>
        if oneVariableStitch then
          last ← vec_get params (length params - 1);
          g ← create_derived L removeOriginals last g; Ok (g, params)
        else
          names ← vec_set (inputVariableNames p) position name;
          let p := {| outputName := outputName p; mergeMethod := mergeMethod p; inputVarsNeededCount := inputVarsNeededCount p;
                      inputVarsEnteredCount := S (inputVarsEnteredCount p); inputVariableNames := names |} in
          let params := <[i := p]> params in
          if (inputVarsEnteredCount p =? inputVarsNeededCount p)%nat then g ← create_derived L removeOriginals p g; Ok (g, params)
          else Ok (g, params)
    end
  else Ok st.
Definition stitchComplementaryVariables L (removeOriginals : bool) (st : ObsGroup F * list ComplementaryVariableCreationParameters)
  : res (ObsGroup F * list ComplementaryVariableCreationParameters) :=
  foldM (stitch_step L removeOriginals) st (vars_list (fst st)).
End layout.

(** * Units

    Doubles have an addition, a multiplication and decimal literals. *)
Class UnitDouble (D : Type) := {
  d_add : D -> D -> D;
  d_mul : D -> D -> D;
  (* [d_lit m e] is the literal m * 10^-e *)
  d_lit : Z -> nat -> D
}.

Section units.
Context {D : Type} `{UD : UnitDouble D}.

Definition celsiusToKelvin (temp : D) : D := d_add temp (d_lit 27315 2).
Definition knotsToMetersPerSecond (knots : D) : D := d_mul knots (d_lit 514444 6).
Definition percentageToFraction (percentage : D) : D := d_mul percentage (d_lit 1 2).
Definition hectopascalToPascal (hPa : D) : D := d_mul hPa (d_lit 100 0).
Definition degreesToRadians (deg : D) : D := d_mul deg (d_lit 174533 7).
Definition oktaToFraction (okta : D) : D := d_mul okta (d_lit 125 3).

Definition unitConversionEquations : gmap string (D -> D) :=
  list_to_map [("celsius", celsiusToKelvin); ("knot", knotsToMetersPerSecond); ("percentage", percentageToFraction);
    ("hectopascal", hectopascalToPascal); ("degree", degreesToRadians); ("okta", oktaToFraction)].
Definition equivalentSIUnit : gmap string string :=
  list_to_map [("celsius", "kelvin"); ("knot", "meters per second"); ("percentage", "-"); ("hectopascal", "pascal"); ("degree", "radian");
    ("okta", "-")].

Definition convertColumn (unit : string) (dataToConvert : list D) : res (list D) :=
  match unitConversionEquations !! unit with
  | Some f => Ok (map f dataToConvert)
  | None => Throw (EException "unit does not have a defined unit conversion equation")
  end.
Definition getSIUnit (unit : string) : res string :=
  match equivalentSIUnit !! unit with
  | Some u => Ok u
  | None => Throw (EException "unit does not have a defined unit conversion equation")
  end.

(** A variable of doubles, with its attribute units. *)
Record UnitVariable := { uv_data : list D; uv_units : option string }.
Notation UnitGroup := (gmap string UnitVariable).

(** The variables of the group itself, in the order of their names. *)
Definition unit_list (g : UnitGroup) : list string := std_sort String.ltb (filter (fun name => has_char is_slash name = false) (map fst (map_to_list g))).

(** An attribute that exists is kept, as the backend ObsStore does.  The handler
    of [std::invalid_argument] is not entered: the exceptions of the
    conversion are not of this type. *)
Definition convert_variable (L : Layout) (g : UnitGroup) (name : string) : res UnitGroup :=
  let destinationName := doMap L name in
  if isMapped L destinationName then
    '(has_unit, unit) ← getUnit L destinationName;
    if has_unit : bool then
      match g !! doMap L destinationName with
      | Some v =>
          outputData ← convertColumn unit (uv_data v);
          si ← getSIUnit unit;
          Ok (<[doMap L destinationName := {| uv_data := outputData; uv_units := Some (default si (uv_units v)) |}]> g)
      | None => Throw (EException "variable does not exist")
      end
    else Ok g
  else Ok g.
Definition convertVariableUnits (L : Layout) (g : UnitGroup) : res UnitGroup := foldM (convert_variable L) g (unit_list g).
End units.
Notation UnitGroup D := (gmap string (UnitVariable (D := D))).
