(* ===== verification/OdbLayoutSpec.v ===== *)
(** Properties of the ODB layout: the names of paths, the merged strings and the
    stitching of complementary variables. *)
From stdpp Require Import base list gmap strings pretty.
From Stdlib Require Import ZArith.
From S2P Require Import Prelude Selection VarAttrStore ObsTypes ObsAttributes ObsVariables ObsFrame ObsFrameRead ObsFrameReadSpec ObsRecords ObsSpaceInit ObsSpaceVars.
From S2P Require Import OdbData OdbVariables OdbDataSpec OdbVarnoSpec OdbTruncateSpec OdbSpec OdbOpen OdbOpenSpec OdbWrite OdbWriteSpec OdbCreateSpec OdbLayout.
Local Open Scope Z_scope.

(** * Merged strings *)

Lemma string_append_assoc (a b c : string) : (a +:+ b) +:+ c = a +:+ (b +:+ c).
Proof.
  induction a as [|x a IH]; [done|]. change (String x a +:+ b) with (String x (a +:+ b)). change (String x (a +:+ b) +:+ c) with (String x ((a +:+ b) +:+ c)).
  rewrite IH. done.
Qed.

(** The strings of one row, one after the other. *)
Definition row_string (ls : list (list string)) (r : nat) : string := foldr String.append EmptyString (omap (fun l => l !! r) ls).

Lemma merge_rows ls n acc : Forall (fun l => length l = n) ls -> length acc = n ->
  exists out, foldM (fun derivedVector v =>
      if (length v =? length derivedVector)%nat then Ok (zip_with String.append derivedVector v)
      else Throw (EException "string vectors are of unequal lengths")) acc ls = Ok out /\ length out = n /\
    forall r s, acc !! r = Some s -> out !! r = Some (s +:+ row_string ls r).
Proof.
  revert acc. induction ls as [|l ls IH]; intros acc HF Hacc.
  - exists acc. split_and!; [done|done|]. intros r s Hs. unfold row_string. cbn. by rewrite string_append_nil_r.
  - apply Forall_cons in HF as [Hl HF]. cbn [foldM]. rewrite Hl, Hacc, Nat.eqb_refl. cbn [mbind res_bind].
    destruct (IH (zip_with String.append acc l) HF) as (out & Hf & Ho & Hr); [rewrite length_zip_with; lia|].
    exists out. split_and!; [done|done|]. intros r s Hs.
    destruct (lookup_lt_is_Some_2 l r) as [t Ht]; [apply lookup_lt_Some in Hs; lia|].
    rewrite (Hr r (s +:+ t)) by (by rewrite lookup_zip_with, Hs; cbn; rewrite Ht). unfold row_string. cbn [omap list_omap]. rewrite Ht.
    cbn [foldr]. by rewrite string_append_assoc.
Qed.

(** What merging gives: the strings of each row without the spaces at the end. *)
Definition merged (ls : list (list string)) (n : nat) : list string := map (fun r => strip_trailing (row_string ls r)) (seq 0 n).

Lemma concatenate_ok ls n : ls <> [] -> Forall (fun l => length l = n) ls -> concatenateStringVectors ls = Ok (merged ls n).
Proof.
  destruct ls as [|l ls]; intros Hne HF; [done|]. apply Forall_cons in HF as [Hl HF]. unfold concatenateStringVectors.
  change (vec_get (l :: ls) 0) with (Ok l). change (drop 1 (l :: ls)) with ls. cbn [mbind res_bind].
  destruct (merge_rows ls n l HF Hl) as (out & -> & Ho & Hr). cbn [mbind res_bind]. f_equal. unfold merged.
  apply list_eq_same_length with n; [by rewrite length_map, length_seq|by rewrite length_map|]. intros r x y Hrn Hx Hy.
  rewrite lookup_map_seq in Hy by done. change (map strip_trailing out) with (strip_trailing <$> out) in Hx. rewrite list_lookup_fmap in Hx.
  destruct (lookup_lt_is_Some_2 l r) as [s Hs]; [lia|]. rewrite (Hr r s Hs) in Hx. cbn in Hx. simplify_eq. unfold row_string. cbn [omap list_omap]. by rewrite Hs.
Qed.

Lemma concatenate_unequal l1 l2 ls : length l2 <> length l1 ->
  concatenateStringVectors (l1 :: l2 :: ls) = Throw (EException "string vectors are of unequal lengths").
Proof.
  intros H. unfold concatenateStringVectors. change (vec_get (l1 :: l2 :: ls) 0) with (Ok l1).
  change (drop 1 (l1 :: l2 :: ls)) with (l2 :: ls). cbn [mbind res_bind foldM].
  replace (length l2 =? length l1)%nat with false by (symmetry; by apply Nat.eqb_neq). done.
Qed.

(** * Stitching *)

Section stitch.
Context {F : Type} `{FO : FloatOps F}.
Implicit Types (g : ObsGroup F).

(** The strings of a variable of the group. *)
Definition strings_at g (n : nat) (name : string) (l : list string) : Prop :=
  exists fv, g_vars g !! name = Some fv /\ dtype_ (fv_var fv) = string_t /\ array (fv_var fv) n [] (map VString l).

Lemma read_strings_of_ok L g n name l : doMap L name = name -> strings_at g n name l -> read_strings_of L name g = Ok l.
Proof.
  intros Hm (fv & Hg & Ht & Ha). unfold read_strings_of, layout_open, vars_open. rewrite Hm, Hg. cbn [mbind res_bind].
  rewrite <-Ht at 2. rewrite (read_all _ _ _ _ _ Ha). cbn [mbind res_bind]. rewrite mapR_map. rewrite (mapR_Ok _ id); [by rewrite map_id|done].
Qed.

Lemma strings_at_length g n name l : strings_at g n name l -> length l = n.
Proof. intros (fv & _ & _ & Ha). pose proof (arr_length _ _ _ _ Ha) as Hl. rewrite length_map in Hl. rewrite Hl. unfold row_size. cbn. lia. Qed.

(** Removing variables. *)
Lemma remove_inputs L g inputs : NoDup inputs -> (forall i, i ∈ inputs -> doMap L i = i /\ is_Some (g_vars g !! i)) ->
  exists g', foldM (fun g name => layout_remove L (doMap L name) g) g inputs = Ok g' /\ g_dims g' = g_dims g /\
    forall x, g_vars g' !! x = if decide (x ∈ inputs) then None else g_vars g !! x.
Proof.
  revert g. induction inputs as [|i inputs IH]; intros g Hnd Hin.
  - exists g. split_and!; [done|done|]. intros x. by rewrite decide_False by (by apply not_elem_of_nil).
  - apply NoDup_cons in Hnd as [Hni Hnd]. destruct (Hin i ltac:(left)) as [Hm Hi]. cbn [foldM].
    assert (Hr : layout_remove L (doMap L i) g = Ok {| g_dim_names := g_dim_names g; g_dims := g_dims g;
      g_names := filter (fun x => x <> i) (g_names g); g_vars := delete i (g_vars g) |}).
    { unfold layout_remove. rewrite !Hm. unfold group_remove, vars_exists. by rewrite bool_decide_true. }
    rewrite Hr. cbn [mbind res_bind].
    edestruct IH as (g' & Hf & Hd & Hv); [done| |exists g'; split_and!; [exact Hf|exact Hd|]].
    + intros j Hj. destruct (Hin j ltac:(by right)) as [Hj1 Hj2]. split; [done|]. cbn [g_vars]. rewrite lookup_delete_ne; [done|]. by intros ->.
    + intros x. rewrite Hv. cbn [g_vars]. destruct (decide (x = i)) as [->|Hx].
      * rewrite (decide_True (P := i ∈ i :: inputs)) by left. rewrite decide_False by done. apply lookup_delete_eq.
      * rewrite lookup_delete_ne by done. destruct (decide (x ∈ inputs)).
        -- rewrite decide_True by (by right). done.
        -- rewrite decide_False; [done|]. intros [?|?]%elem_of_cons; done.
Qed.

(** ** One complementary variable *)

Section one_output.
Context (L : Layout) (output : string) (inputs : list string).
Let k := length inputs.
Definition output_metadata : ComplementaryVariableOutputMetadata :=
  {| co_outputName := output; co_mergeMethod := Concat; co_inputVariableCount := k |}.
Definition params_with (entered : nat) (l : list string) : ComplementaryVariableCreationParameters :=
  {| outputName := output; mergeMethod := Concat; inputVarsNeededCount := k; inputVarsEnteredCount := entered; inputVariableNames := l |}.
Hypothesis Hinputs : NoDup inputs.

(** The inputs among the variables that were visited. *)
Definition entered (don : list string) : nat := length (filter (fun i => i ∈ don) inputs).
Definition names_of (don : list string) : list string := map (fun i => if decide (i ∈ don) then i else EmptyString) inputs.

Lemma filter_snoc (don : list string) x l : NoDup l -> x ∉ don ->
  length (filter (fun i => i ∈ don ++ [x]) l) = (length (filter (fun i => i ∈ don) l) + if decide (x ∈ l) then 1 else 0)%nat.
Proof.
  intros Hnd Hx. induction l as [|i l IH]; [done|]. apply NoDup_cons in Hnd as [Hi Hnd]. specialize (IH Hnd). rewrite !filter_cons.
  destruct (decide (i = x)) as [->|Hix].
  - rewrite (decide_True (P := x ∈ don ++ [x])), (decide_False (P := x ∈ don)), (decide_True (P := x ∈ x :: l)) by set_solver.
    cbn [length]. rewrite IH, decide_False by done. lia.
  - destruct (decide (i ∈ don)) as [Hd|Hd].
    + rewrite (decide_True (P := i ∈ don ++ [x])) by set_solver. cbn [length]. rewrite IH. destruct (decide (x ∈ l)).
      * rewrite decide_True by set_solver. lia.
      * rewrite decide_False by set_solver. lia.
    + rewrite (decide_False (P := i ∈ don ++ [x])) by set_solver. rewrite IH. destruct (decide (x ∈ l)).
      * rewrite (decide_True (P := x ∈ i :: l)) by set_solver. lia.
      * rewrite (decide_False (P := x ∈ i :: l)) by set_solver. lia.
Qed.

Lemma names_of_snoc don j x : inputs !! j = Some x -> names_of (don ++ [x]) = <[j := x]> (names_of don).
Proof.
  intros Hj. unfold names_of. apply list_eq_same_length with k; [by rewrite length_insert, length_map|by rewrite length_map|].
  intros m a b Hm Ha Hb. destruct (lookup_lt_is_Some_2 inputs m) as [i Hi]; [done|].
  change (map (fun i => if decide (i ∈ don ++ [x]) then i else EmptyString) inputs) with ((fun i => if decide (i ∈ don ++ [x]) then i else EmptyString) <$> inputs) in Ha.
  rewrite list_lookup_fmap, Hi in Ha. cbn in Ha. destruct (decide (m = j)) as [->|Hne].
  - rewrite list_lookup_insert_eq in Hb by (by rewrite length_map; eapply lookup_lt_Some). simplify_eq. rewrite decide_True by set_solver. done.
  - rewrite list_lookup_insert_ne in Hb by done.
    change (map (fun i => if decide (i ∈ don) then i else EmptyString) inputs) with ((fun i => if decide (i ∈ don) then i else EmptyString) <$> inputs) in Hb.
    rewrite list_lookup_fmap, Hi in Hb. cbn in Hb. assert (i <> x) by (intros ->; by apply Hne, (NoDup_lookup inputs m j x)).
    destruct (decide (i ∈ don)); [rewrite decide_True in Ha by set_solver|rewrite decide_False in Ha by set_solver]; congruence.
Qed.

Lemma names_of_none don : entered don = 0%nat -> names_of don = replicate k EmptyString.
Proof.
  intros He. unfold names_of, k.
  replace (replicate (length inputs) EmptyString) with (map (fun _ : string => EmptyString) inputs)
    by (clear; induction inputs as [|i l IH]; [done|cbn; by rewrite IH]). apply map_ext_in. intros i Hi%list_elem_of_In.
  destruct (decide (i ∈ don)) as [Hd|]; [|done]. exfalso. apply nil_length_inv in He.
  assert (i ∈ filter (fun i => i ∈ don) inputs) as Hin by (by apply list_elem_of_filter). rewrite He in Hin. by apply elem_of_nil in Hin.
Qed.

Lemma names_of_all don : entered don = k -> names_of don = inputs /\ forall i, i ∈ inputs -> i ∈ don.
Proof.
  intros He. assert (Hall : forall i, i ∈ inputs -> i ∈ don).
  { intros i Hi. destruct (decide (i ∈ don)) as [|Hd]; [done|]. exfalso.
    pose proof (length_filter_lt (fun i => i ∈ don) inputs i Hi Hd). unfold entered, k in He. lia. }
  split; [|done]. unfold names_of. rewrite <-(map_id inputs) at 2. apply map_ext_in. intros i Hi%list_elem_of_In. by rewrite decide_True by auto.
Qed.

Lemma entered_all don : (forall i, i ∈ inputs -> i ∈ don) -> entered don = k.
Proof.
  intros Hall. unfold entered, k. f_equal. clear -Hall. induction inputs as [|i l IH]; [done|].
  rewrite filter_cons_True by (apply Hall; left). f_equal. apply IH. intros; apply Hall; by right.
Qed.

Lemma entered_other don x : x ∉ inputs -> entered (don ++ [x]) = entered don /\ names_of (don ++ [x]) = names_of don.
Proof.
  intros Hx. assert (Hiff : forall i, i ∈ inputs -> (i ∈ don ++ [x] <-> i ∈ don)).
  { intros i Hi. rewrite elem_of_app, list_elem_of_singleton. split; [intros [?| ->]; done|by left]. }
  split.
  - unfold entered. f_equal. clear -Hiff. induction inputs as [|i l IH]; [done|]. rewrite !filter_cons, IH by (intros; apply Hiff; by right).
    pose proof (Hiff i ltac:(left)). destruct (decide (i ∈ don)); [rewrite decide_True by tauto|rewrite decide_False by tauto]; done.
  - apply map_ext_in. intros i Hi%list_elem_of_In. pose proof (Hiff i Hi).
    destruct (decide (i ∈ don)); [rewrite decide_True by tauto|rewrite decide_False by tauto]; done.
Qed.

Lemma entered_input don x : x ∈ inputs -> x ∉ don -> entered (don ++ [x]) = S (entered don) /\ (S (entered don) <= k)%nat.
Proof.
  intros Hin Hx. assert (He : entered (don ++ [x]) = S (entered don)) by (unfold entered; rewrite filter_snoc, decide_True by done; lia).
  split; [done|]. rewrite <-He. apply length_filter.
Qed.

Hypothesis Hlayout : forall j i, inputs !! j = Some i -> complementaryVariableDataMap L !! i = Some (j, output_metadata) /\ doMap L i = i.

(** The component of a listed input. *)
Lemma step_input st j x : inputs !! j = Some x ->
  stitch_step L true st x =
    (let '(g', params) := st in
     match list_find (fun p => outputName p = output) params with
     | None =>
         let p := params_with 1 (<[j := x]> (replicate k EmptyString)) in
         if (k =? 1)%nat then g' ← create_derived L true p g'; Ok (g', params ++ [p]) else Ok (g', params ++ [p])
     | Some (i, p) =>
         if (k =? 1)%nat then last ← vec_get params (length params - 1); g' ← create_derived L true last g'; Ok (g', params)
         else
           names ← vec_set (inputVariableNames p) j x;
           let p := {| outputName := outputName p; mergeMethod := mergeMethod p; inputVarsNeededCount := inputVarsNeededCount p;
                       inputVarsEnteredCount := S (inputVarsEnteredCount p); inputVariableNames := names |} in
           let params := <[i := p]> params in
           if (inputVarsEnteredCount p =? inputVarsNeededCount p)%nat then g' ← create_derived L true p g'; Ok (g', params)
           else Ok (g', params)
     end).
Proof.
  intros Hj. destruct (Hlayout j x Hj) as [Hc Hm]. destruct st as [g' params]. unfold stitch_step. rewrite Hm.
  unfold isComplementary. rewrite Hc, bool_decide_true by eauto.
  unfold getComplementaryPosition, getOutputNameFromComponent, getInputsNeeded, component. rewrite Hc. cbn [mbind res_bind fst snd co_outputName co_inputVariableCount output_metadata].
  destruct (list_find (fun p => outputName p = output) params) as [[i p]|]; [done|].
  unfold createDerivedVariableParameters, getMergeMethod, getInputsNeeded, component. rewrite Hm, Hc. cbn [mbind res_bind snd co_mergeMethod co_inputVariableCount output_metadata].
  rewrite vec_set_lt by (rewrite length_replicate; by eapply lookup_lt_Some). done.
Qed.

(** ** The derived variable *)

Context (g : ObsGroup F) (dim : string) (values : list (list string)) (n : nat) (mx : Z).
Hypothesis Hvalues : Forall2 (fun i l => strings_at g n i l) inputs values.
Hypothesis Hdim : exists i fv, inputs !! 0%nat = Some i /\ g_vars g !! i = Some fv /\ fv_dims fv = [dim].
Hypothesis Hsize : g_dims g !! dim = Some (Z.of_nat n, mx) /\ (0 <= mx -> Z.of_nat n <= mx).
Hypothesis Hout : doMap L output ∉ inputs.

(** The group with the derived variable in place of its inputs. *)
Definition stitched g' : Prop :=
  g_dims g' = g_dims g /\ strings_at g' n (doMap L output) (merged values n) /\
  forall x, x <> doMap L output -> g_vars g' !! x = if decide (x ∈ inputs) then None else g_vars g !! x.

Lemma output_known i : i ∈ inputs -> isMapOutput L output = true.
Proof.
  intros Hi. apply list_elem_of_lookup in Hi as [j Hj]. destruct (Hlayout j i Hj) as [Hc _]. unfold isMapOutput. apply orb_true_iff. right.
  apply existsb_exists. exists (i, (j, output_metadata)). split; [by apply list_elem_of_In, elem_of_map_to_list|]. by apply bool_decide_eq_true.
Qed.

Lemma create_derived_ok : exists g', create_derived L true (params_with k inputs) g = Ok g' /\ stitched g'.
Proof.
  destruct Hdim as (i0 & fv0 & H0 & Hg0 & Hd0). destruct Hsize as [Hsz Hmx]. pose proof (Forall2_length _ _ _ Hvalues) as Hlen. fold k in Hlen.
  unfold create_derived.
  assert (Hload : loadComponentVariableData L (params_with k inputs) g = Ok values).
  { unfold loadComponentVariableData. cbn [inputVarsEnteredCount inputVariableNames params_with]. apply mapR_rows; [done|done|].
    intros j i l Hi Hl. apply (read_strings_of_ok L g n); [by apply (Hlayout j)|]. by apply (Forall2_lookup_lr _ _ _ _ _ _ Hvalues Hi Hl). }
  rewrite Hload. cbn [mbind res_bind].
  assert (HF : Forall (fun l => length l = n) values).
  { apply Forall_lookup. intros j l Hl. destruct (Forall2_lookup_r _ _ _ _ _ Hvalues Hl) as (i & _ & Hs). by eapply strings_at_length. }
  rewrite (concatenate_ok values n); [|intros Hv; rewrite Hv in Hlen; apply lookup_lt_Some in H0; unfold k in Hlen; cbn in Hlen; lia|done]. cbn [mbind res_bind inputVariableNames params_with].
  rewrite (vec_get_Some _ _ _ H0). cbn [mbind res_bind]. destruct (Hlayout 0%nat i0 H0) as [_ Hm0].
  unfold layout_open, vars_open. rewrite Hm0, Hg0. cbn [mbind res_bind]. rewrite Hd0.
  change (vec_get [dim] 0) with (Ok dim). cbn [mbind res_bind].
  unfold layout_createWithScales. cbn [outputName params_with].
  assert (Hi0 : i0 ∈ inputs) by (by eapply list_elem_of_lookup_2). rewrite (output_known i0 Hi0), orb_true_r.
  assert (Hsh : shape n []). { destruct (Forall2_lookup_l _ _ _ _ _ Hvalues H0) as (l & _ & fv & _ & _ & Ha). apply (arr_shape _ _ _ _ Ha). }
  destruct (create_and_write_ok (doMap L output) [dim] string_t (fvdata_ (fv_var fv0)) (map VString (merged values n)) g n mx []) as (g1 & fv & Hc & Hp & _ & Ht & Ha).
  { unfold supported. set_solver. }
  { done. } { done. }
  { cbn [mapR]. unfold dim_open. by rewrite Hsz. }
  { unfold merged. rewrite !length_map, length_seq. unfold row_size. cbn. lia. }
  unfold create_and_write in Hc. destruct (createWithScales (doMap L output) [dim] string_t (fvdata_ (fv_var fv0)) g) as [gc|]; [|done].
  cbn [mbind res_bind] in Hc |- *. rewrite Hc. cbn [mbind res_bind].
  destruct (remove_inputs L g1 inputs Hinputs) as (g' & Hf & Hd & Hv).
  { intros i Hi. pose proof Hi as Hi'. apply list_elem_of_lookup in Hi' as [j Hj]. split; [by apply (Hlayout j)|]. destruct Hp as [_ ->].
    rewrite lookup_insert_ne by (intros E; apply Hout; by rewrite E). destruct (Forall2_lookup_l _ _ _ _ _ Hvalues Hj) as (l & _ & fvi & -> & _). by eexists. }
  exists g'. split; [exact Hf|]. pose proof (put_lookup _ _ _ _ Hp) as Hput. destruct Hp as [Hpd Hpv]. split_and!.
  - congruence.
  - exists fv. rewrite Hv, decide_False by done. done.
  - intros x Hx. rewrite Hv, Hpv. case_decide; [done|]. by rewrite lookup_insert_ne.
Qed.

End one_output.

Lemma vars_list_elem g name : name ∈ vars_list g <-> name ∈ g_names g /\ has_char is_slash name = false.
Proof. unfold vars_list. rewrite std_sort_perm, list_elem_of_filter. tauto. Qed.
Lemma vars_list_NoDup g : NoDup (g_names g) -> NoDup (vars_list g).
Proof. intros H. unfold vars_list. rewrite std_sort_perm. by apply NoDup_filter. Qed.

(** ** All complementary variables *)

Section found.
Context {P : ComplementaryVariableCreationParameters -> Prop} `{!forall p, Decision (P p)}.
Lemma params_find_snoc l p : list_find P (l ++ [p]) =
  match list_find P l with Some r => Some r | None => if decide (P p) then Some (length l, p) else None end.
Proof.
  induction l as [|q l IH]; cbn [app list_find]; [by case_decide|]. destruct (decide (P q)); [done|]. rewrite IH.
  destruct (list_find P l) as [[i r]|]; [done|]. by case_decide.
Qed.

Lemma params_find_insert l i p q : l !! i = Some q -> (P q <-> P p) ->
  list_find P (<[i := p]> l) = (fun r => (fst r, if decide (fst r = i) then p else snd r)) <$> list_find P l.
Proof.
  revert i. induction l as [|x l IH]; intros i Hi Hpq; [done|]. destruct i as [|i]; cbn in Hi; cbn [insert list_insert list_find].
  - simplify_eq. destruct (decide (P q)); [rewrite decide_True by tauto; done|]. rewrite decide_False by tauto.
    by destruct (list_find P l) as [[j r]|].
  - destruct (decide (P x)); [done|]. change (list_insert i p l) with (<[i := p]> l). rewrite IH by done.
    destruct (list_find P l) as [[j r]|]; [|done]. cbn. do 2 f_equal. destruct (decide (j = i)); [by rewrite decide_True by lia|by rewrite decide_False by lia].
Qed.
End found.

(** A complementary variable of the mapping file, with the strings of its inputs. *)
Record Complementary := {
  sv_output : string;
  sv_inputs : list string;
  sv_dim : string;
  sv_values : list (list string);
  sv_n : nat;
  sv_mx : Z
}.
#[export] Instance Complementary_eq_dec : EqDecision Complementary.
Proof. solve_decision. Defined.

Section several.
Context (L : Layout) (g : ObsGroup F) (svs : list Complementary).

Record declared (o : Complementary) : Prop := {
  dc_some : sv_inputs o <> [];
  dc_inputs : NoDup (sv_inputs o);
  dc_layout : forall j i, sv_inputs o !! j = Some i ->
    complementaryVariableDataMap L !! i = Some (j, output_metadata (sv_output o) (sv_inputs o)) /\ doMap L i = i;
  (* the name of the variable is not the name of an input *)
  dc_output : forall o', o' ∈ svs -> doMap L (sv_output o) ∉ sv_inputs o'
}.

(** All its inputs are variables of the group. *)
Definition complete (o : Complementary) : Prop := forall i, i ∈ sv_inputs o -> i ∈ vars_list g.

Record holds_strings g (o : Complementary) : Prop := {
  hs_values : Forall2 (fun i l => strings_at g (sv_n o) i l) (sv_inputs o) (sv_values o);
  hs_dim : exists i fv, sv_inputs o !! 0%nat = Some i /\ g_vars g !! i = Some fv /\ fv_dims fv = [sv_dim o];
  hs_size : g_dims g !! sv_dim o = Some (Z.of_nat (sv_n o), sv_mx o) /\ (0 <= sv_mx o -> Z.of_nat (sv_n o) <= sv_mx o)
}.

Hypothesis Hnd : NoDup (g_names g).
Hypothesis Hdeclared : forall o, o ∈ svs -> declared o.
Hypothesis Hdistinct : forall o o', o ∈ svs -> o' ∈ svs -> o <> o' ->
  sv_output o <> sv_output o' /\ doMap L (sv_output o) <> doMap L (sv_output o').
Hypothesis Hall : forall name, name ∈ vars_list g -> isComplementary L (doMap L name) = true -> exists o, o ∈ svs /\ name ∈ sv_inputs o.
Hypothesis Hstrings : forall o, o ∈ svs -> complete o -> holds_strings g o.

(** The group in which the variables of [done] are derived. *)
Definition derived (done : Complementary -> Prop) g' : Prop :=
  g_dims g' = g_dims g /\
  (forall o, o ∈ svs -> done o -> strings_at g' (sv_n o) (doMap L (sv_output o)) (merged (sv_values o) (sv_n o)) /\
    forall i, i ∈ sv_inputs o -> g_vars g' !! i = None) /\
  (forall x, (forall o, o ∈ svs -> done o -> x <> doMap L (sv_output o) /\ x ∉ sv_inputs o) -> g_vars g' !! x = g_vars g !! x).

Local Notation entered_of o := (entered (sv_inputs o)).
Definition collected (don : list string) (params : list ComplementaryVariableCreationParameters) (o : Complementary) : Prop :=
  if decide (entered_of o don = 0%nat) then list_find (fun p => outputName p = sv_output o) params = None
  else exists i, list_find (fun p => outputName p = sv_output o) params =
    Some (i, params_with (sv_output o) (sv_inputs o) (entered_of o don) (names_of (sv_inputs o) don)).
Definition finished (don : list string) (o : Complementary) : Prop := entered_of o don = length (sv_inputs o).
Definition visited (don : list string) (st : ObsGroup F * list ComplementaryVariableCreationParameters) : Prop :=
  (forall o, o ∈ svs -> collected don st.2 o) /\ derived (finished don) st.1.

Lemma inputs_disjoint o o' i : o ∈ svs -> o' ∈ svs -> i ∈ sv_inputs o -> i ∈ sv_inputs o' -> o = o'.
Proof.
  intros Ho Ho' [j Hj]%list_elem_of_lookup [j' Hj']%list_elem_of_lookup. destruct (dc_layout _ (Hdeclared o Ho) j i Hj) as [H _].
  destruct (dc_layout _ (Hdeclared o' Ho') j' i Hj') as [H' _]. rewrite H in H'. injection H' as _ E _.
  destruct (decide (sv_output o = sv_output o')) as [|Hne]; [|done].
  destruct (decide (o = o')) as [|Hoo]; [done|]. by destruct (Hdistinct o o' Ho Ho' Hoo).
Qed.
Lemma finished_complete don o : o ∈ svs -> (forall i, i ∈ don -> i ∈ vars_list g) -> finished don o -> complete o.
Proof. intros Ho Hsub Hf i Hi. apply Hsub. by apply (names_of_all (sv_inputs o) don Hf). Qed.

Lemma finished_other don x o o' : o ∈ svs -> o' ∈ svs -> o' <> o -> x ∈ sv_inputs o -> (finished (don ++ [x]) o' <-> finished don o').
Proof.
  intros Ho Ho' Hne Hx. unfold finished. destruct (entered_other (sv_inputs o') don x) as [-> _]; [|done].
  intros Hx'. by apply Hne, (inputs_disjoint o' o x).
Qed.

Lemma untouched o g' don i : o ∈ svs -> ~ finished don o -> derived (finished don) g' -> i ∈ sv_inputs o -> g_vars g' !! i = g_vars g !! i.
Proof.
  intros Ho Hnf (_ & _ & Hk) Hi. apply Hk. intros o' Ho' Hf. split.
  - intros ->. by apply (dc_output _ (Hdeclared o' Ho') o Ho).
  - intros Hi'. by rewrite (inputs_disjoint o o' i) in Hnf.
Qed.

Lemma strings_untouched o g' don : o ∈ svs -> ~ finished don o -> derived (finished don) g' -> holds_strings g o -> holds_strings g' o.
Proof.
  intros Ho Hnf Hd [Hv (i & fv & Hi & Hg & Hdim) Hs]. split.
  - rewrite Forall2_lookup in Hv |- *. intros j. specialize (Hv j). inversion Hv as [i' l (fv' & Hf & Hrest) E1 E2|E1 E2]; constructor.
    exists fv'. split; [|done]. rewrite <-Hf. eapply untouched; eauto. by eapply list_elem_of_lookup_2.
  - exists i, fv. split_and!; [done| |done]. rewrite <-Hg. eapply untouched; eauto. by eapply list_elem_of_lookup_2.
  - by rewrite (proj1 Hd).
Qed.

Lemma derive_one o g' don x : o ∈ svs -> x ∈ sv_inputs o -> x ∉ don -> (forall i, i ∈ don ++ [x] -> i ∈ vars_list g) ->
  derived (finished don) g' -> finished (don ++ [x]) o ->
  exists g'', create_derived L true (params_with (sv_output o) (sv_inputs o) (length (sv_inputs o)) (sv_inputs o)) g' = Ok g'' /\
    derived (finished (don ++ [x])) g''.
Proof.
  intros Ho Hx Hnx Hsub Hd Hf. pose proof (Hdeclared o Ho) as Hdec.
  assert (Hnf : ~ finished don o).
  { unfold finished in *. destruct (entered_input (sv_inputs o) (dc_inputs _ Hdec) don x Hx Hnx) as [E Hle]. lia. }
  pose proof (strings_untouched o g' don Ho Hnf Hd (Hstrings o Ho (finished_complete _ o Ho Hsub Hf))) as Hs.
  destruct (create_derived_ok L (sv_output o) (sv_inputs o) (dc_inputs _ Hdec) (dc_layout _ Hdec) g' (sv_dim o) (sv_values o) (sv_n o) (sv_mx o)
    (hs_values _ _ Hs) (hs_dim _ _ Hs) (hs_size _ _ Hs) (dc_output _ Hdec o Ho)) as (g'' & Hc & Hsd & Hss & Hsv).
  exists g''. split; [exact Hc|]. destruct Hd as (Hdims & Hdone & Hkept). split_and!; [congruence| |].
  - intros o' Ho' Hf'. destruct (decide (o' = o)) as [->|Hne].
    + split; [done|]. intros i Hi. rewrite Hsv, decide_True by (done || (intros ->; by apply (dc_output _ Hdec o Ho))). done.
    + apply (finished_other don x o o') in Hf' as Hf''; [|done..]. destruct (Hdone o' Ho' Hf'') as [Hst Hin].
      assert (Hk : forall y, y <> doMap L (sv_output o) -> y ∉ sv_inputs o -> g_vars g'' !! y = g_vars g' !! y).
      { intros y H1 H2. by rewrite Hsv, decide_False. }
      split.
      * destruct Hst as (fv & Hg & Hrest). exists fv. rewrite Hk; [done| |].
        -- intros E. symmetry in E. revert E. by apply Hdistinct.
        -- by apply (dc_output _ (Hdeclared o' Ho')).
      * intros i Hi. rewrite Hk; [by apply Hin| |].
        -- intros ->. by apply (dc_output _ Hdec o' Ho').
        -- intros Hi'. by apply Hne, (inputs_disjoint o' o i).
  - intros y Hy. destruct (Hy o Ho Hf) as [H1 H2]. rewrite Hsv, decide_False by done. apply Hkept. intros o' Ho' Hf'.
    apply Hy; [done|]. apply (finished_other don x o o'); try done. by intros ->.
Qed.

(** The group does not change while a variable is not finished. *)
Lemma derived_same o g' don x : o ∈ svs -> x ∈ sv_inputs o -> x ∉ don -> derived (finished don) g' -> ~ finished (don ++ [x]) o ->
  derived (finished (don ++ [x])) g'.
Proof.
  intros Ho Hx Hnx (Hdims & Hdone & Hkept) Hf.
  assert (Hiff : forall o', o' ∈ svs -> (finished (don ++ [x]) o' <-> finished don o')).
  { intros o' Ho'. destruct (decide (o' = o)) as [->|Hne]; [|by apply (finished_other don x o o')]. split; [done|]. unfold finished in *.
    destruct (entered_input (sv_inputs o) (dc_inputs _ (Hdeclared o Ho)) don x Hx Hnx) as [E Hle]. lia. }
  split_and!; [done| |].
  - intros o' Ho' Hf'. by apply Hdone, Hiff.
  - intros y Hy. apply Hkept. intros o' Ho' Hf'. by apply Hy, Hiff.
Qed.

(** The parameters that were collected for the other variables. *)
Lemma collected_other don x o o' params params' : o ∈ svs -> o' ∈ svs -> o' <> o -> x ∈ sv_inputs o ->
  list_find (fun p => outputName p = sv_output o') params' = list_find (fun p => outputName p = sv_output o') params ->
  collected don params o' -> collected (don ++ [x]) params' o'.
Proof.
  intros Ho Ho' Hne Hx E Hc. unfold collected in *.
  destruct (entered_other (sv_inputs o') don x) as [E1 E2]; [intros Hx'; by apply Hne, (inputs_disjoint o' o x)|].
  by rewrite E1, E2, E.
Qed.

Lemma collected_new don x o params : o ∈ svs -> x ∈ sv_inputs o -> (forall o, o ∈ svs -> collected don params o) -> 
  list_find (fun p => outputName p = sv_output o) params = None -> entered_of o (don ++ [x]) <> 0%nat ->
  let p := params_with (sv_output o) (sv_inputs o) (entered_of o (don ++ [x])) (names_of (sv_inputs o) (don ++ [x])) in
  forall o', o' ∈ svs -> collected (don ++ [x]) (params ++ [p]) o'.
Proof.
  intros Ho Hx Hc Hnone He p o' Ho'. destruct (decide (o' = o)) as [->|Hne].
  - unfold collected. rewrite decide_False by done. exists (length params). rewrite params_find_snoc, Hnone. by rewrite decide_True.
  - apply (collected_other don x o o' params); try done; [|by apply Hc]. rewrite params_find_snoc.
    destruct (list_find (fun p => outputName p = sv_output o') params) as [r|]; [done|]. rewrite decide_False; [done|]. cbn [outputName params_with p].
    intros E. by destruct (Hdistinct o' o Ho' Ho Hne).
Qed.

Lemma collected_more don x o params i q : o ∈ svs -> x ∈ sv_inputs o -> (forall o, o ∈ svs -> collected don params o) ->
  list_find (fun p => outputName p = sv_output o) params = Some (i, q) -> entered_of o (don ++ [x]) <> 0%nat ->
  let p := params_with (sv_output o) (sv_inputs o) (entered_of o (don ++ [x])) (names_of (sv_inputs o) (don ++ [x])) in
  forall o', o' ∈ svs -> collected (don ++ [x]) (<[i := p]> params) o'.
Proof.
  intros Ho Hx Hc Hsome He p o' Ho'. pose proof Hsome as (Hi & Hq & _)%list_find_Some. destruct (decide (o' = o)) as [->|Hne].
  - unfold collected. rewrite decide_False by done. exists i. rewrite (params_find_insert _ i p q), Hsome; [|done|done]. cbn. by rewrite decide_True.
  - apply (collected_other don x o o' params); try done; [|by apply Hc].
    rewrite (params_find_insert _ i p q); [|done|by rewrite Hq]. destruct (list_find (fun p => outputName p = sv_output o') params) as [[j r]|] eqn:E; [|done]. cbn.
    apply list_find_Some in E as (Hj & Hr & _). rewrite decide_False; [done|]. intros ->. rewrite Hi in Hj. simplify_eq.
    destruct (Hdistinct o' o Ho' Ho Hne) as [H _]. congruence.
Qed.

Lemma visit_input don o x st : o ∈ svs -> x ∈ sv_inputs o -> x ∉ don -> (forall i, i ∈ don ++ [x] -> i ∈ vars_list g) -> visited don st ->
  exists st', stitch_step L true st x = Ok st' /\ visited (don ++ [x]) st'.
Proof.
  intros Ho Hx Hnx Hsub [Hp Hg]. destruct st as [g' params]. cbn [fst snd] in *. pose proof (Hdeclared o Ho) as Hdec.
  destruct (entered_input (sv_inputs o) (dc_inputs _ Hdec) don x Hx Hnx) as [He Hle].
  set (p := params_with (sv_output o) (sv_inputs o) (entered_of o (don ++ [x])) (names_of (sv_inputs o) (don ++ [x]))).
  assert (Hend : if (entered_of o (don ++ [x]) =? length (sv_inputs o))%nat
    then exists g'', create_derived L true p g' = Ok g'' /\ derived (finished (don ++ [x])) g'' else derived (finished (don ++ [x])) g').
  { destruct (Nat.eqb_spec (entered_of o (don ++ [x])) (length (sv_inputs o))) as [Ek|Ek]; [|by eapply derived_same].
    unfold p. rewrite (proj1 (names_of_all (sv_inputs o) _ Ek)), Ek. by apply (derive_one o g' don x). }
  pose proof Hx as [j Hj]%list_elem_of_lookup. rewrite (step_input L (sv_output o) (sv_inputs o) (dc_layout _ Hdec) _ j x Hj).
  assert (Hnz : entered_of o (don ++ [x]) <> 0%nat) by lia. pose proof (Hp o Ho) as Hpo. unfold collected in Hpo.
  destruct (decide (entered_of o don = 0%nat)) as [E0|E0].
  - rewrite Hpo. cbv zeta. pose proof (collected_new don x o params Ho Hx Hp Hpo Hnz) as Hc. fold p in Hc.
    replace (params_with (sv_output o) (sv_inputs o) 1 (<[j := x]> (replicate (length (sv_inputs o)) EmptyString))) with p
      by (unfold p; by rewrite (names_of_snoc (sv_inputs o) (dc_inputs _ Hdec) don j x Hj), (names_of_none (sv_inputs o) don E0), He, E0).
    rewrite He, E0 in Hend. rewrite Nat.eqb_sym. destruct (1 =? length (sv_inputs o))%nat.
    + destruct Hend as (g'' & -> & Hd). cbn [mbind res_bind]. eexists. split; [reflexivity|]. by split.
    + eexists. split; [reflexivity|]. by split.
  - destruct Hpo as (i & Hi). rewrite Hi. replace (length (sv_inputs o) =? 1)%nat with false by (symmetry; apply Nat.eqb_neq; lia).
    pose proof (collected_more don x o params i _ Ho Hx Hp Hi Hnz) as Hc. fold p in Hc.
    cbn [inputVariableNames params_with]. rewrite vec_set_lt by (unfold names_of; rewrite length_map; by eapply lookup_lt_Some).
    cbn [mbind res_bind]. cbv zeta. cbn [outputName mergeMethod inputVarsNeededCount inputVarsEnteredCount params_with].
    rewrite <-(names_of_snoc (sv_inputs o) (dc_inputs _ Hdec) don j x Hj), <-He.
    fold (params_with (sv_output o) (sv_inputs o) (entered_of o (don ++ [x])) (names_of (sv_inputs o) (don ++ [x]))). fold p.
    destruct (entered_of o (don ++ [x]) =? length (sv_inputs o))%nat.
    + destruct Hend as (g'' & -> & Hd). cbn [mbind res_bind]. eexists. split; [reflexivity|]. by split.
    + eexists. split; [reflexivity|]. by split.
Qed.

Lemma visit_other don x st : (forall o, o ∈ svs -> x ∉ sv_inputs o) -> x ∈ vars_list g -> visited don st ->
  exists st', stitch_step L true st x = Ok st' /\ visited (don ++ [x]) st'.
Proof.
  intros Hx Hl [Hp (Hdims & Hdone & Hkept)]. exists st. split.
  - unfold stitch_step. destruct st as [g' params]. destruct (isComplementary L (doMap L x)) eqn:E; [|done].
    destruct (Hall x Hl E) as (o & Ho & Hi). by destruct (Hx o Ho).
  - assert (He : forall o, o ∈ svs -> entered_of o (don ++ [x]) = entered_of o don /\ names_of (sv_inputs o) (don ++ [x]) = names_of (sv_inputs o) don)
      by (intros o Ho; apply entered_other; by apply Hx).
    split; [|split_and!; [done| |]].
    + intros o Ho. unfold collected. destruct (He o Ho) as [-> ->]. by apply Hp.
    + intros o Ho Hf. apply Hdone; [done|]. unfold finished in *. by rewrite <-(proj1 (He o Ho)).
    + intros y Hy. apply Hkept. intros o Ho Hf. apply Hy; [done|]. unfold finished in *. by rewrite (proj1 (He o Ho)).
Qed.

(** C17: Complementary variables are stitched, any number of them at once.  For
    a layout with the complementary variables [svs], whose names are different
    and not themselves the names of inputs, and a group in which the inputs of
    every complementary variable that is complete are string variables: the
    group gets, for each complementary variable all of whose inputs it has, in
    whatever order the variables are listed, the derived variable under the name
    of the layout, whose string at each location is the strings of the inputs at
    it, in the order of the mapping file and without the spaces at the end, and
    loses its inputs.  Every other variable is kept, the inputs of the
    complementary variables that are not complete too. *)
Theorem complementary_stitched :
  exists g' params, stitchComplementaryVariables L true (g, []) = Ok (g', params) /\ derived complete g'.
Proof.
  assert (Hnone : forall o, entered_of o [] = 0%nat).
  { intros o. unfold entered. generalize (sv_inputs o). intros l. induction l as [|i l IH]; [done|].
    rewrite filter_cons_False; [done|apply not_elem_of_nil]. }
  destruct (foldM_ind (stitch_step L true) visited (g, []) (vars_list g)) as ([g' params] & Hf & _ & Hdims & Hdone & Hkept).
  - split; [intros o Ho; unfold collected; by rewrite decide_True|]. split_and!; [done| |done]. intros o Ho Hf. unfold finished in Hf.
    rewrite Hnone in Hf. symmetry in Hf. by apply nil_length_inv, (dc_some _ (Hdeclared o Ho)) in Hf.
  - intros don x st Hv [rest Hr]. pose proof (vars_list_NoDup g Hnd) as Hndl.
    assert (Hsub : forall i, i ∈ don ++ [x] -> i ∈ vars_list g) by (rewrite Hr; intros i Hi; apply elem_of_app; by left).
    assert (Hx : x ∉ don).
    { rewrite Hr, <-app_assoc in Hndl. apply NoDup_app in Hndl as (_ & Hndl & _). intros Hd. apply (Hndl x Hd). left. }
    destruct (decide (Exists (fun o => x ∈ sv_inputs o) svs)) as [(o & Ho & Hi)%Exists_exists|Hno].
    + by eapply visit_input.
    + apply visit_other; [|apply Hsub; set_solver|done]. intros o Ho Hi. apply Hno, Exists_exists. eauto.
  - exists g', params. split; [exact Hf|].
    assert (Hiff : forall o, o ∈ svs -> (finished (vars_list g) o <-> complete o)).
    { intros o Ho. split; [by apply finished_complete|]. intros Hc. unfold finished. by apply entered_all. }
    split_and!; [done| |].
    + intros o Ho Hc. by apply Hdone, Hiff.
    + intros y Hy. apply Hkept. intros o Ho Hc. by apply Hy, Hiff.
Qed.
End several.
End stitch.

(** * Paths *)

Lemma has_char_app sep a b : has_char sep (a +:+ b) = has_char sep a || has_char sep b.
Proof. induction a as [|c a IH]; [done|]. change (String c a +:+ b) with (String c (a +:+ b)). cbn [has_char]. by rewrite IH, orb_assoc. Qed.

Lemma tokens_free sep s : forall cur, has_char sep cur = false -> Forall (fun t => has_char sep t = false /\ t <> EmptyString) (tokens sep cur s).
Proof.
  assert (Hcur : forall cur, has_char sep cur = false -> Forall (fun t => has_char sep t = false /\ t <> EmptyString) (if nonempty cur then [cur] else [])).
  { intros cur Hc. destruct (nonempty cur) eqn:E; [|done]. apply nonempty_true in E. by repeat constructor. }
  induction s as [|c s IH]; intros cur Hc; cbn [tokens]; [by apply Hcur|]. destruct (sep c) eqn:Ec.
  - apply Forall_app. split; [by apply Hcur|by apply IH].
  - apply IH. rewrite has_char_app, Hc. cbn [has_char]. by rewrite Ec.
Qed.

Lemma join_slash_free l : Forall (fun t => has_char at_sign t = false) l -> has_char at_sign (join_slash l) = false.
Proof.
  induction l as [|x l IH]; intros HF; [done|]. apply Forall_cons in HF as [Hx HF]. destruct l as [|y l]; [done|].
  change (join_slash (x :: y :: l)) with (x +:+ "/" +:+ join_slash (y :: l)). by rewrite !has_char_app, Hx, IH.
Qed.

Lemma tokens_word sep w s cur : has_char sep w = false -> tokens sep cur (w +:+ s) = tokens sep (cur +:+ w) s.
Proof.
  revert cur. induction w as [|c w IH]; intros cur Hw; [by rewrite string_append_nil_r|]. cbn [has_char] in Hw. apply orb_false_iff in Hw as [Hc Hw].
  change (String c w +:+ s) with (String c (w +:+ s)). cbn [tokens]. rewrite Hc, IH by done. by rewrite string_append_assoc.
Qed.

(** Names of the first version are turned around.  "variable@group" becomes
    "group/variable", "variable@inner@outer" becomes "outer/inner/variable", a
    name without "@" is unchanged, and no converted name has an "@", so that
    converting twice, as removing a variable does, is converting once. *)
Theorem paths_converted :
  (forall variable group, has_char at_sign variable = false -> has_char at_sign group = false -> variable <> EmptyString -> group <> EmptyString ->
     convertV1PathToV2Path (variable +:+ "@" +:+ group) = group +:+ "/" +:+ variable) /\
  (forall variable inner outer, has_char at_sign variable = false -> has_char at_sign inner = false -> has_char at_sign outer = false ->
     variable <> EmptyString -> inner <> EmptyString -> outer <> EmptyString ->
     convertV1PathToV2Path (variable +:+ "@" +:+ inner +:+ "@" +:+ outer) = outer +:+ "/" +:+ inner +:+ "/" +:+ variable) /\
  (forall path, has_char at_sign path = false -> convertV1PathToV2Path path = path) /\
  (forall path, has_char at_sign (convertV1PathToV2Path path) = false) /\
  (forall path, convertV1PathToV2Path (convertV1PathToV2Path path) = convertV1PathToV2Path path).
Proof.
  assert (Hid : forall path, has_char at_sign path = false -> convertV1PathToV2Path path = path) by (intros path H; unfold convertV1PathToV2Path; by rewrite H).
  assert (Hfree : forall path, has_char at_sign (convertV1PathToV2Path path) = false).
  { intros path. unfold convertV1PathToV2Path. destruct (has_char at_sign path) eqn:E; [|done]. apply join_slash_free. apply Forall_rev.
    eapply Forall_impl; [by apply tokens_free|]. by intros t [? _]. }
  assert (Hone : forall w s, has_char at_sign w = false -> w <> EmptyString -> tokens at_sign EmptyString (w +:+ String (Ascii.ascii_of_nat 64) s) = w :: tokens at_sign EmptyString s).
  { intros w s Hw Hne. rewrite tokens_word by done. cbn [tokens]. change (at_sign (Ascii.ascii_of_nat 64)) with true. cbv iota.
    change (EmptyString +:+ w) with w. by rewrite (proj2 (nonempty_true w) Hne). }
  assert (Hlast : forall w, has_char at_sign w = false -> w <> EmptyString -> tokens at_sign EmptyString w = [w]).
  { intros w Hw Hne. rewrite <-(string_append_nil_r w) at 1. rewrite tokens_word by done. cbn [tokens].
    change (EmptyString +:+ w) with w. by rewrite (proj2 (nonempty_true w) Hne). }
  split_and!; [| |done|done|].
  - intros v gr Hv Hg Hnv Hng. unfold convertV1PathToV2Path. rewrite !has_char_app. cbn [has_char]. rewrite orb_true_r.
    change ("@" +:+ gr) with (String (Ascii.ascii_of_nat 64) gr). rewrite (Hone v), (Hlast gr) by done. done.
  - intros v inr out Hv Hi Ho Hnv Hni Hno. unfold convertV1PathToV2Path. rewrite !has_char_app. cbn [has_char]. rewrite orb_true_r.
    change ("@" +:+ inr +:+ "@" +:+ out) with (String (Ascii.ascii_of_nat 64) (inr +:+ String (Ascii.ascii_of_nat 64) out)).
    rewrite (Hone v), (Hone inr), (Hlast out) by done. done.
  - intros path. by apply Hid.
Qed.
