(* ===== verification/OdbLayoutNames.v ===== *)
(** The layout of a mapping file: the names and units it gives to variables, the
    complementary variables it declares, and the conversion of units. *)
From stdpp Require Import base list gmap strings pretty.
From Stdlib Require Import ZArith.
From S2P Require Import Prelude Selection VarAttrStore ObsTypes ObsAttributes ObsVariables ObsFrame ObsFrameRead ObsFrameReadSpec ObsRecords ObsSpaceInit ObsSpaceVars.
From S2P Require Import OdbOpen OdbOpenSpec OdbWrite OdbWriteSpec OdbCreateSpec OdbLayout OdbLayoutSpec.
Local Open Scope Z_scope.

(** * Inserting the entries of a list *)

Section inserts.
Context {V : Type}.
Implicit Types (l : list (string * V)) (m : gmap string V).

Definition insert_all m l : gmap string V := foldl (fun m e => <[fst e := snd e]> m) m l.

Lemma insert_all_other m l k : k ∉ map fst l -> insert_all m l !! k = m !! k.
Proof.
  revert m. induction l as [|[i v] l IH]; intros m Hk; [done|]. cbn [map fst] in Hk. apply not_elem_of_cons in Hk as [Hi Hk].
  unfold insert_all in *. cbn [foldl]. rewrite IH by done. by rewrite lookup_insert_ne.
Qed.

Lemma insert_all_entry m l k v : NoDup (map fst l) -> (k, v) ∈ l -> insert_all m l !! k = Some v.
Proof.
  revert m. induction l as [|[i w] l IH]; intros m Hnd Hk; [by apply elem_of_nil in Hk|]. cbn [map fst] in Hnd. apply NoDup_cons in Hnd as [Hi Hnd].
  unfold insert_all in *. cbn [foldl]. apply elem_of_cons in Hk as [E|Hk].
  - simplify_eq. pose proof (insert_all_other (<[i := w]> m) l i Hi) as H. etransitivity; [exact H|apply lookup_insert_eq].
  - by apply IH.
Qed.

Lemma insert_all_inv m l k v : insert_all m l !! k = Some v -> (k, v) ∈ l \/ m !! k = Some v.
Proof.
  revert m. induction l as [|[i w] l IH]; intros m H; [by right|]. unfold insert_all in *. cbn [foldl] in H. apply IH in H as [H|H].
  - left. by right.
  - destruct (decide (k = i)) as [->|Hk]; [rewrite lookup_insert_eq in H; simplify_eq; left; left|]. rewrite lookup_insert_ne in H by done. by right.
Qed.

Lemma insert_all_app m l1 l2 : insert_all (insert_all m l1) l2 = insert_all m (l1 ++ l2).
Proof. unfold insert_all. by rewrite foldl_app. Qed.
End inserts.

Lemma existsb_false_all {A} (f : A -> bool) l : (forall x, x ∈ l -> f x = false) -> existsb f l = false.
Proof.
  induction l as [|x l IH]; intros H; [done|]. cbn. rewrite H, IH; [done| |left]. intros y Hy. apply H. by right.
Qed.

(** * What a mapping file declares *)

Definition storage (name : string) (unit : option string) : variableStorageInformation :=
  {| iodaName := name; inputUnit := match unit with Some u => (true, u) | None => (false, EmptyString) end |}.

(** The columns with the names and units of their variables. *)
Definition column_entries (c : VarnoDependentColumn) : list (string * variableStorageInformation) :=
  map (fun p => ((vd_source c +:+ "/") +:+ pretty (vm_varno p), storage ((convertV1PathToV2Path (vd_group c) +:+ "/") +:+ vm_name p) (vm_unit p))) (vd_mappings c).
Definition name_entries (lp : ODBLayoutParameters) : list (string * variableStorageInformation) :=
  map (fun v => (vp_source v, storage (vp_name v) (vp_unit v))) (lp_variables lp) ++ concat (map column_entries (lp_varno_columns lp)).

(** The inputs of the complementary variables. *)
Definition component_meta (v : ComplementaryVariables) : ComplementaryVariableOutputMetadata :=
  {| co_outputName := cv_output v; co_mergeMethod := Concat; co_inputVariableCount := length (cv_inputs v) |}.
Definition component_entries (v : ComplementaryVariables) : list (string * (nat * ComplementaryVariableOutputMetadata)) :=
  imap (fun j i => (i, (j, component_meta v))) (cv_inputs v).
Definition all_components (lp : ODBLayoutParameters) : list (string * (nat * ComplementaryVariableOutputMetadata)) :=
  concat (map component_entries (lp_complementary lp)).
Definition component_ok (v : ComplementaryVariables) : Prop := cv_type v = "string" /\ cv_method v = "concat" /\ cv_output v ∉ cv_inputs v.

(** A name that may be kept unchanged. *)
Definition fresh_name (lp : ODBLayoutParameters) (s : string) : Prop :=
  s ∉ map fst (name_entries lp) /\ s ∉ map (fun e => iodaName (snd e)) (name_entries lp) /\
  s ∉ map fst (all_components lp) /\ s ∉ map (fun e => co_outputName (snd (snd e))) (all_components lp).

Lemma parse_names lp L : parseNameChanges lp L =
  {| Mapping := insert_all (Mapping L) (map (fun v => (vp_source v, storage (vp_name v) (vp_unit v))) (lp_variables lp));
     complementaryVariableDataMap := complementaryVariableDataMap L |}.
Proof.
  unfold parseNameChanges. revert L. induction (lp_variables lp) as [|v l IH]; intros L; [by destruct L|]. cbn [foldl map]. rewrite IH. done.
Qed.

Lemma parse_varnos lp L : parseVarnoDependentColumns lp L =
  {| Mapping := insert_all (Mapping L) (concat (map column_entries (lp_varno_columns lp)));
     complementaryVariableDataMap := complementaryVariableDataMap L |}.
Proof.
  unfold parseVarnoDependentColumns. revert L. induction (lp_varno_columns lp) as [|c l IH]; intros L; [by destruct L|]. cbn [foldl map concat].
  rewrite IH, <-insert_all_app. unfold column_entries.
  assert (Hin : forall L, foldl (fun L p => addMapping ((vd_source c +:+ "/") +:+ pretty (vm_varno p)) ((convertV1PathToV2Path (vd_group c) +:+ "/") +:+ vm_name p) (vm_unit p) L) L (vd_mappings c) =
    {| Mapping := insert_all (Mapping L) (column_entries c); complementaryVariableDataMap := complementaryVariableDataMap L |}).
  { unfold column_entries. induction (vd_mappings c) as [|p ps IHp]; intros L'; [by destruct L'|]. cbn [foldl map]. rewrite IHp. done. }
  by rewrite Hin.
Qed.

Lemma component_inserts v (m : gmap string (nat * ComplementaryVariableOutputMetadata)) : foldl (fun m p => <[snd p := (fst p, component_meta v)]> m) m (imap pair (cv_inputs v)) = insert_all m (component_entries v).
Proof.
  unfold insert_all, component_entries. generalize (component_meta v). intros meta. revert m.
  cut (forall (h : nat -> nat) (m : gmap string (nat * ComplementaryVariableOutputMetadata)), foldl (fun m p => <[snd p := (fst p, meta)]> m) m (imap (fun j => pair (h j)) (cv_inputs v)) =
    foldl (fun m e => <[fst e := snd e]> m) m (imap (fun j i => (i, (h j, meta))) (cv_inputs v))); [intros H m; exact (H id m)|].
  induction (cv_inputs v) as [|i l IH]; intros h m; [done|]. cbn [imap foldl fst snd]. exact (IH (h ∘ S) _).
Qed.

Lemma parse_components lp L : Forall component_ok (lp_complementary lp) ->
  parseComponentVariables lp L =
  Ok {| Mapping := Mapping L; complementaryVariableDataMap := insert_all (complementaryVariableDataMap L) (all_components lp) |}.
Proof.
  unfold parseComponentVariables, all_components. revert L. induction (lp_complementary lp) as [|v l IH]; intros L HF; [by destruct L|].
  apply Forall_cons in HF as [(Ht & Hm & Hn) HF]. cbn [foldM map concat].
  assert (Hv : component_variable L v = Ok {| Mapping := Mapping L;
    complementaryVariableDataMap := insert_all (complementaryVariableDataMap L) (component_entries v) |}).
  { unfold component_variable, parseMergeMethod. rewrite Ht, Hm, decide_True, decide_True by done. cbn [mbind res_bind].
    rewrite decide_False by done. fold (component_meta v). by rewrite component_inserts. }
  rewrite Hv. cbn [mbind res_bind]. rewrite IH by done. cbn [Mapping complementaryVariableDataMap]. by rewrite <-insert_all_app.
Qed.

(** The names that are kept unchanged. *)
Lemma keep_names lp ignores done_ : NoDup (done_ ++ ignores) -> Forall (fresh_name lp) ignores ->
  NoDup (map fst (name_entries lp)) -> NoDup (map fst (all_components lp)) ->
  let kept l := insert_all ∅ (name_entries lp ++ map (fun s => (s, storage s None)) l) in
  let comps := insert_all ∅ (all_components lp) in
  foldM addUnchangedVariableName {| Mapping := kept done_; complementaryVariableDataMap := comps |} ignores =
  Ok {| Mapping := kept (done_ ++ ignores); complementaryVariableDataMap := comps |}.
Proof.
  intros Hnd HF Hnames Hcomps kept comps. revert done_ Hnd. induction ignores as [|s ignores IH]; intros done_ Hnd; [by rewrite app_nil_r|].
  apply Forall_cons in HF as [(H1 & H2 & H3 & H4) HF]. cbn [foldM].
  assert (Hs : s ∉ done_). { apply NoDup_app in Hnd as (_ & Hnd & _). intros Hs. apply (Hnd s Hs). left. }
  assert (Hkey : kept done_ !! s = None).
  { unfold kept. rewrite insert_all_other; [apply lookup_empty|]. rewrite map_app, map_map. cbn [fst]. rewrite map_id. by apply not_elem_of_app. }
  assert (Hadd : addUnchangedVariableName {| Mapping := kept done_; complementaryVariableDataMap := comps |} s =
    Ok {| Mapping := kept (done_ ++ [s]); complementaryVariableDataMap := comps |}).
  { unfold addUnchangedVariableName. replace (isComplementary _ s || _ || _) with false.
    - unfold set_mapping. cbn [Mapping complementaryVariableDataMap]. unfold kept. by rewrite map_app, app_assoc, <-(insert_all_app _ (_ ++ _)).
    - symmetry. unfold isComplementary, isMapped, isMapOutput. cbn [Mapping complementaryVariableDataMap]. rewrite Hkey. unfold comps.
      rewrite insert_all_other, lookup_empty by done. rewrite !orb_false_iff. split_and!.
      + done.
      + done.
      + apply existsb_false_all. intros [i v] Hi%elem_of_map_to_list. apply bool_decide_eq_false. intros E. cbn in E. unfold kept in Hi.
        apply insert_all_inv in Hi as [Hi|Hi]; [|by rewrite lookup_empty in Hi]. apply elem_of_app in Hi as [Hi|Hi].
        * apply H2. rewrite <-E. apply list_elem_of_fmap. by exists (i, v).
        * apply list_elem_of_fmap in Hi as (t & Et & Ht). injection Et as Et1 Et2. subst v. cbn in E. apply Hs. by rewrite <-E.
      + apply existsb_false_all. intros [i v] Hi%elem_of_map_to_list. apply bool_decide_eq_false. intros E. cbn in E.
        apply insert_all_inv in Hi as [Hi|Hi]; [|by rewrite lookup_empty in Hi]. apply H4. rewrite <-E. apply list_elem_of_fmap. by exists (i, v). }
  rewrite Hadd. cbn [mbind res_bind]. rewrite (IH HF (done_ ++ [s])); rewrite <-app_assoc; done.
Qed.

(** C18: The layout is the one that the mapping file declares.  When no column and
    no input is declared twice and the fundamental names are not used otherwise,
    the file is accepted; every column is renamed to the variable it is mapped
    to, with its unit, a column of a varno to the variable of this varno; the
    inputs of a complementary variable have their positions; the fundamental
    names and all other names are kept, up to the "@" notation. *)
Theorem layout_of_mapping_file (lp : ODBLayoutParameters) (ignores : list string) :
  NoDup (map fst (name_entries lp)) -> NoDup (map fst (all_components lp)) -> Forall component_ok (lp_complementary lp) ->
  NoDup ignores -> Forall (fresh_name lp) ignores ->
  exists L, DataLayoutPolicy_ObsGroup_ODB lp ignores = Ok L /\
    (forall i v, (i, v) ∈ name_entries lp -> doMap L i = convertV1PathToV2Path (iodaName v) /\ getUnit L i = Ok (inputUnit v)) /\
    (forall s, s ∈ ignores -> doMap L s = convertV1PathToV2Path s /\ getUnit L s = Ok (false, EmptyString)) /\
    (forall s, s ∉ map fst (name_entries lp) -> s ∉ ignores -> doMap L s = convertV1PathToV2Path s /\ isMapped L s = false) /\
    (forall i c, (i, c) ∈ all_components lp -> complementaryVariableDataMap L !! i = Some c) /\
    (forall s, isComplementary L s = true <-> s ∈ map fst (all_components lp)).
Proof.
  intros Hnames Hcomps Hok Hign Hfresh. unfold DataLayoutPolicy_ObsGroup_ODB, parseMappingFile.
  rewrite parse_names, parse_components by done. cbn [mbind res_bind Mapping complementaryVariableDataMap].
  rewrite parse_varnos. cbn [Mapping complementaryVariableDataMap]. rewrite insert_all_app. fold (name_entries lp).
  pose proof (keep_names lp ignores [] Hign Hfresh Hnames Hcomps) as Hk. cbn [map app] in Hk. rewrite app_nil_r in Hk. rewrite Hk.
  eexists. split; [reflexivity|]. unfold doMap, getUnit, isMapped, isComplementary. cbn [Mapping complementaryVariableDataMap].
  assert (Hall : NoDup (map fst (name_entries lp ++ map (fun s => (s, storage s None)) ignores))).
  { rewrite map_app, map_map. cbn [fst]. rewrite map_id. apply NoDup_app. split_and!; [done| |done].
    intros s Hs Hi. rewrite list.Forall_forall in Hfresh.
    destruct (Hfresh s Hi) as [H _]. by apply H. }
  split_and!.
  - intros i v Hi. by rewrite (insert_all_entry _ _ i v Hall) by (apply elem_of_app; by left).
  - intros s Hs. by rewrite (insert_all_entry _ _ s (storage s None) Hall) by (apply elem_of_app; right; apply list_elem_of_fmap; by exists s).
  - intros s Hs Hi. rewrite insert_all_other, lookup_empty; [by split|].
    rewrite map_app, map_map. cbn [fst]. rewrite map_id. by apply not_elem_of_app.
  - intros i c Hi. by apply insert_all_entry.
  - intros s. rewrite bool_decide_eq_true. split.
    + intros [c Hc]. apply insert_all_inv in Hc as [Hc|Hc]; [|by rewrite lookup_empty in Hc]. apply list_elem_of_fmap. by exists (s, c).
    + intros Hs. apply list_elem_of_fmap in Hs as ([i c] & E & Hc). cbn in E. subst s. exists c. by apply insert_all_entry.
Qed.

(** * Conversion of units *)

Section units.
Context {D : Type} `{UD : UnitDouble D}.
Implicit Types (g : UnitGroup D) (L : Layout) (name u : string).

(** The unit that the layout gives to a variable of the group itself. *)
Definition unit_of L name : option string :=
  match Mapping L !! name with Some i => if fst (inputUnit i) then Some (snd (inputUnit i)) else None | None => None end.
Definition known_unit u : Prop := is_Some ((unitConversionEquations (D := D)) !! u).

(** A variable after the conversion from a unit. *)
Definition in_si_units u (v : UnitVariable (D := D)) : UnitVariable :=
  {| uv_data := match unitConversionEquations !! u with Some f => map f (uv_data v) | None => uv_data v end;
     uv_units := Some (default (default EmptyString (equivalentSIUnit !! u)) (uv_units v)) |}.
Definition converted L name (v : UnitVariable (D := D)) : UnitVariable :=
  match unit_of L name with Some u => if has_char is_slash name then v else in_si_units u v | None => v end.

Lemma known_si u : known_unit u -> is_Some (equivalentSIUnit !! u).
Proof.
  unfold known_unit, unitConversionEquations, equivalentSIUnit. cbn [list_to_map foldr fst snd]. rewrite !lookup_insert_is_Some.
  rewrite !lookup_empty. intuition (try done).
Qed.

Lemma convert_variable_ok L g name v : doMap L name = name -> g !! name = Some v ->
  (forall u, unit_of L name = Some u -> known_unit u) ->
  convert_variable L g name = Ok (match unit_of L name with Some u => <[name := in_si_units u v]> g | None => g end).
Proof.
  intros Hm Hv Hu. unfold convert_variable, unit_of, isMapped, getUnit in *. rewrite !Hm.
  destruct (Mapping L !! name) as [[io [has unit]]|]; [|done]. rewrite bool_decide_true by eauto. cbn [mbind res_bind inputUnit fst snd] in *.
  destruct has; [|done]. rewrite Hv. specialize (Hu unit eq_refl). destruct (known_si unit Hu) as [si Hsi]. destruct Hu as [f Hf].
  unfold convertColumn, getSIUnit, in_si_units. rewrite Hf, Hsi. done.
Qed.

Lemma convert_variable_throws L g name u : doMap L name = name -> is_Some (g !! name) -> unit_of L name = Some u -> ~ known_unit u ->
  exists e, convert_variable L g name = Throw e.
Proof.
  intros Hm [v Hv] Hu Hk. unfold convert_variable, unit_of, isMapped, getUnit in *. rewrite !Hm.
  destruct (Mapping L !! name) as [[io [has unit]]|]; [|done]. rewrite bool_decide_true by eauto. cbn [mbind res_bind inputUnit fst snd] in *.
  destruct has; simplify_eq. rewrite Hv. unfold convertColumn. unfold known_unit in Hk. destruct (unitConversionEquations !! u) as [f|]; [destruct Hk; eauto|].
  cbn [mbind res_bind]. eauto.
Qed.

Lemma unit_list_elem g name : name ∈ unit_list g <-> is_Some (g !! name) /\ has_char is_slash name = false.
Proof.
  unfold unit_list. rewrite std_sort_perm, list_elem_of_filter, list_elem_of_fmap. split.
  - intros [Hs ([k v] & E & Hk%elem_of_map_to_list)]. cbn in E. subst. eauto.
  - intros [[v Hv] Hs]. split; [done|]. exists (name, v). split; [done|]. by apply elem_of_map_to_list.
Qed.
Lemma unit_list_NoDup g : NoDup (unit_list g).
Proof. unfold unit_list. rewrite std_sort_perm. apply NoDup_filter, NoDup_fst_map_to_list. Qed.

Lemma convert_keeps L g name g' x : convert_variable L g name = Ok g' -> is_Some (g !! x) -> is_Some (g' !! x).
Proof.
  unfold convert_variable. destruct (isMapped L (doMap L name)); [|by intros; inv_res]. destruct (getUnit L (doMap L name)) as [[has u]|]; [|done].
  cbn [mbind res_bind]. destruct has; [|by intros; inv_res]. destruct (g !! doMap L (doMap L name)) as [v|]; [|done].
  destruct (convertColumn u (uv_data v)); [|done]. cbn [mbind res_bind]. destruct (getSIUnit u); [|done]. cbn [mbind res_bind].
  intros H Hx. inv_res. rewrite lookup_insert_is_Some. destruct (decide (doMap L (doMap L name) = x)); auto.
Qed.

(** Units are converted to SI units when they are known.  Every variable of
    the group itself with a unit in the mapping file is converted by the equation
    of the unit, once, and gets the SI unit as its attribute; all other variables
    are kept.  One unit without an equation makes the whole conversion throw,
    although the code means to keep the variable of such a unit in its original
    form. *)
Theorem units_converted L g : (forall name, name ∈ unit_list g -> doMap L name = name) ->
  ((forall name u, name ∈ unit_list g -> unit_of L name = Some u -> known_unit u) ->
   exists g', convertVariableUnits L g = Ok g' /\ forall name, g' !! name = converted L name <$> g !! name) /\
  (forall name u, name ∈ unit_list g -> unit_of L name = Some u -> ~ known_unit u -> exists e, convertVariableUnits L g = Throw e).
Proof.
  intros Hm. split.
  - intros Hknown. destruct (foldM_ind (convert_variable L) (fun don g' => forall name,
      g' !! name = (fun v => if decide (name ∈ don) then converted L name v else v) <$> g !! name) g (unit_list g)) as (g' & Hf & Hg').
    + intros name. destruct (g !! name); [|done]. cbn. by rewrite decide_False by (by apply not_elem_of_nil).
    + intros don x g1 H1 Hpre. assert (Hx : x ∉ don).
      { destruct Hpre as [rest Hr]. pose proof (unit_list_NoDup g) as Hnd. rewrite Hr, <-app_assoc in Hnd. apply NoDup_app in Hnd as (_ & Hnd & _).
        intros Hd. apply (Hnd x Hd). left. }
      assert (Hin : x ∈ unit_list g) by (destruct Hpre as [rest ->]; set_solver). pose proof Hin as [[v Hv] Hs]%unit_list_elem.
      assert (Hv1 : g1 !! x = Some v) by (rewrite H1, Hv; cbn; by rewrite decide_False).
      rewrite (convert_variable_ok L g1 x v (Hm x Hin) Hv1) by (intros u; by apply Hknown). eexists. split; [reflexivity|]. intros name.
      assert (Hother : name <> x -> g1 !! name = (fun v => if decide (name ∈ don ++ [x]) then converted L name v else v) <$> g !! name).
      { intros Hne. rewrite H1. destruct (g !! name); [|done]. cbn. destruct (decide (name ∈ don)).
        - by rewrite decide_True by set_solver.
        - by rewrite decide_False by set_solver. }
      destruct (decide (name = x)) as [->|Hne].
      * rewrite Hv. cbn. rewrite decide_True by set_solver. unfold converted. rewrite Hs. destruct (unit_of L x); [apply lookup_insert_eq|done].
      * rewrite <-(Hother Hne). destruct (unit_of L x); [by rewrite lookup_insert_ne|done].
    + exists g'. split; [exact Hf|]. intros name. rewrite Hg'. destruct (g !! name) as [v|] eqn:E; [|done]. cbn. f_equal.
      destruct (decide (name ∈ unit_list g)) as [|Hn]; [done|]. unfold converted. destruct (unit_of L name); [|done].
      destruct (has_char is_slash name) eqn:Es; [done|]. destruct Hn. apply unit_list_elem. eauto.
  - intros name u Hn Hu Hk. unfold convertVariableUnits.
    assert (Hall : forall x, x ∈ unit_list g -> is_Some (g !! x)) by (intros x Hx; by apply unit_list_elem in Hx as [? _]).
    revert Hall Hn Hm. generalize (unit_list g). intros l. revert g. induction l as [|x l IH]; intros g Hall Hn Hm; [by apply elem_of_nil in Hn|].
    cbn [foldM]. destruct (decide (x = name)) as [->|Hne].
    + destruct (convert_variable_throws L g name u) as [e ->]; [by apply Hm|by apply Hall|done|done|]. by exists e.
    + destruct (convert_variable L g x) as [g1|e] eqn:E; [|by exists e]. cbn [mbind res_bind]. apply IH.
      * intros y Hy. eapply convert_keeps; [exact E|]. apply Hall. by right.
      * apply elem_of_cons in Hn as [->|Hn]; done.
      * intros y Hy. apply Hm. by right.
Qed.
End units.

Module Sample.
Import ObsSpaceVars.Sample OdbCreateSpec.Sample.

(** A station name in two columns, a temperature column and a variable of one varno. *)
Definition station : ComplementaryVariables :=
  {| cv_output := "MetaData/stationName"; cv_type := "string"; cv_inputs := ["site_2"; "site_1"]; cv_method := "concat" |}.
Definition mapping (unit : string) : ODBLayoutParameters :=
  {| lp_variables := [{| vp_name := "temp"; vp_source := "temp"; vp_unit := Some unit |}; {| vp_name := "latitude@MetaData"; vp_source := "lat"; vp_unit := None |}];
     lp_complementary := [station];
     lp_varno_columns := [{| vd_source := "obsvalue"; vd_group := "ObsValue"; vd_mappings := [{| vm_name := "airTemperature"; vm_varno := 2; vm_unit := None |}] |}] |}.
Definition layout (unit : string) : Layout :=
  match DataLayoutPolicy_ObsGroup_ODB (mapping unit) ["Location"] with Ok L => L | Throw _ => {| Mapping := ∅; complementaryVariableDataMap := ∅ |} end.

Lemma layout_of_mapping_file_witness : exists L, DataLayoutPolicy_ObsGroup_ODB (mapping "celsius") ["Location"] = Ok L /\
  doMap L "lat" = "MetaData/latitude" /\ doMap L "obsvalue/2" = "ObsValue/airTemperature" /\ getUnit L "temp" = Ok (true, "celsius") /\
  complementaryVariableDataMap L !! "site_1" = Some (1%nat, component_meta station).
Proof.
  destruct (layout_of_mapping_file (mapping "celsius") ["Location"]) as (L & HL & Hn & _ & _ & Hc & _).
  - apply (bool_decide_unpack _). vm_compute. exact I.
  - apply (bool_decide_unpack _). vm_compute. exact I.
  - repeat constructor; apply (bool_decide_unpack _); vm_compute; exact I.
  - apply (bool_decide_unpack _). vm_compute. exact I.
  - repeat constructor; apply (bool_decide_unpack _); vm_compute; exact I.
  - exists L. split; [exact HL|]. split_and!.
    + refine (proj1 (Hn "lat" (storage "latitude@MetaData" None) _)). right. left.
    + refine (proj1 (Hn "obsvalue/2" (storage "ObsValue/airTemperature" None) _)). right. right. left.
    + refine (proj2 (Hn "temp" (storage "temp" (Some "celsius")) _)). left.
    + apply Hc. right. left.
Defined.

Lemma plain_strings (g : ObsGroup Z) n name l : length l = n -> g_vars g !! name = Some (plain string_t None (map VString l)) -> Z.of_nat (length l) < 2 ^ 31 ->
  strings_at g n name l.
Proof.
  intros <- Hg Hl. destruct (plain_stored g (length l) name string_t None (map VString l)) as (fv & H1 & H2 & _ & H3);
    [by rewrite length_map|done|done|by rewrite length_map|]. by exists fv.
Qed.

(** Three complementary variables: one with its three inputs, one whose second
    input is missing and one with a single input. *)
Definition combination (output : string) (inputs : list string) : ComplementaryVariables :=
  {| cv_output := output; cv_type := "string"; cv_inputs := inputs; cv_method := "concat" |}.
Definition stitching_map : ODBLayoutParameters :=
  {| lp_variables := []; lp_varno_columns := [];
     lp_complementary := [combination "complete" ["complete1"; "complete2"; "complete3"]; combination "incomplete" ["incomplete1"; "incomplete2"; "incomplete3"];
       combination "oneDerived" ["one"]] |}.
Definition stitching : Layout :=
  match DataLayoutPolicy_ObsGroup_ODB stitching_map ["Location"] with Ok L => L | Throw _ => {| Mapping := ∅; complementaryVariableDataMap := ∅ |} end.
Definition pieces : ObsGroup Z :=
  {| g_dim_names := ["Location"]; g_dims := {["Location" := (2, 2)]};
     g_names := ["complete2"; "incomplete3"; "one"; "complete3"; "lat"; "complete1"; "incomplete1"];
     g_vars := list_to_map [("complete2", plain string_t None (map VString ["ter"; "mouth"])); ("incomplete3", plain string_t None (map VString ["a"; "b"]));
       ("one", plain string_t None (map VString ["x "; "y"])); ("complete3", plain string_t None (map VString [" (UK) "; " "]));
       ("lat", plain float_t None [VFloat 1; VFloat 2]); ("complete1", plain string_t None (map VString ["Exe"; "Ply"]));
       ("incomplete1", plain string_t None (map VString ["c"; "d"]))] |}.
Definition complete_part : Complementary :=
  {| sv_output := "complete"; sv_inputs := ["complete1"; "complete2"; "complete3"]; sv_dim := "Location"; sv_n := 2; sv_mx := 2;
      sv_values := [["Exe"; "Ply"]; ["ter"; "mouth"]; [" (UK) "; " "]] |}.
Definition incomplete_part : Complementary :=
  {| sv_output := "incomplete"; sv_inputs := ["incomplete1"; "incomplete2"; "incomplete3"]; sv_dim := "Location"; sv_n := 2; sv_mx := 2; sv_values := [] |}.
Definition one_part : Complementary :=
  {| sv_output := "oneDerived"; sv_inputs := ["one"]; sv_dim := "Location"; sv_n := 2; sv_mx := 2; sv_values := [["x "; "y"]] |}.
Definition parts : list Complementary := [complete_part; incomplete_part; one_part].

Ltac by_parts := repeat first [apply Forall_cons; split | apply Forall_nil; exact I].

Lemma parts_declared o : o ∈ parts -> declared stitching parts o.
Proof.
  revert o. apply list.Forall_forall. by_parts.
  all: split; [done|apply (bool_decide_unpack _); vm_compute; exact I| |].
  all: try (intros [|[|[|j]]] i H; cbn in H; first [discriminate H | injection H as <-]; split; vm_compute; reflexivity).
  all: apply list.Forall_forall; by_parts; apply (bool_decide_unpack _); vm_compute; exact I.
Qed.

Lemma parts_distinct o o' : o ∈ parts -> o' ∈ parts -> o <> o' ->
  sv_output o <> sv_output o' /\ doMap stitching (sv_output o) <> doMap stitching (sv_output o').
Proof.
  assert (H : Forall (fun o => Forall (fun o' => o = o' \/ sv_output o <> sv_output o' /\ doMap stitching (sv_output o) <> doMap stitching (sv_output o')) parts) parts).
  { by_parts; try (left; reflexivity); right; split; apply (bool_decide_unpack _); vm_compute; exact I. }
  intros Ho Ho' Hne. rewrite list.Forall_forall in H. specialize (H o Ho). rewrite list.Forall_forall in H. by destruct (H o' Ho').
Qed.

Lemma parts_all name : name ∈ vars_list pieces -> isComplementary stitching (doMap stitching name) = true -> exists o, o ∈ parts /\ name ∈ sv_inputs o.
Proof.
  revert name. apply (list.Forall_forall (fun name => isComplementary stitching (doMap stitching name) = true -> exists o, o ∈ parts /\ name ∈ sv_inputs o)).
  change (vars_list pieces) with ["complete1"; "complete2"; "complete3"; "incomplete1"; "incomplete3"; "lat"; "one"].
  by_parts; intros H; try (exfalso; vm_compute in H; discriminate H); apply Exists_exists.
  all: apply (bool_decide_unpack _); vm_compute; exact I.
Qed.

Lemma parts_complete o : o ∈ parts -> complete pieces o <-> o <> incomplete_part.
Proof.
  revert o. apply (list.Forall_forall (fun o => complete pieces o <-> o <> incomplete_part)). by_parts; split; try done.
  - intros _. refine (proj1 (list.Forall_forall (fun i : string => i ∈ vars_list pieces) _) _). apply (bool_decide_unpack _). vm_compute. exact I.
  - intros Hc. exfalso. specialize (Hc "incomplete2" ltac:(set_solver)). revert Hc. apply (bool_decide_unpack _). vm_compute. exact I.
  - intros _. refine (proj1 (list.Forall_forall (fun i : string => i ∈ vars_list pieces) _) _). apply (bool_decide_unpack _). vm_compute. exact I.
Qed.

Lemma parts_strings o : o ∈ parts -> complete pieces o -> holds_strings pieces o.
Proof.
  intros Ho Hc. apply parts_complete in Hc; [|done]. revert o Ho Hc.
  apply (list.Forall_forall (fun o => o <> incomplete_part -> holds_strings pieces o)). by_parts; intros Hc; [|done|].
  all: split; [|eexists; eexists; split_and!; vm_compute; reflexivity|split; [vm_compute; reflexivity|cbn; lia]].
  all: repeat (apply Forall2_cons; split; [apply plain_strings; vm_compute; reflexivity|]); apply Forall2_nil; exact I.
Qed.

Lemma kept_name x : Forall (fun o => x <> doMap stitching (sv_output o) /\ x ∉ sv_inputs o) [complete_part; one_part] ->
  forall o, o ∈ parts -> complete pieces o -> x <> doMap stitching (sv_output o) /\ x ∉ sv_inputs o.
Proof.
  intros HF o Ho Hc. apply parts_complete in Hc; [|done]. rewrite list.Forall_forall in HF. apply HF.
  unfold parts in Ho. apply elem_of_cons in Ho as [->|Ho]; [apply list_elem_of_here|]. apply elem_of_cons in Ho as [->|Ho]; [done|]. by right.
Qed.

Lemma complementary_stitched_witness : exists g' params, stitchComplementaryVariables stitching true (pieces, []) = Ok (g', params) /\
  strings_at g' 2 "complete" ["Exeter (UK)"; "Plymouth"] /\ strings_at g' 2 "oneDerived" ["x"; "y"] /\
  g_vars g' !! "one" = None /\ g_vars g' !! "incomplete1" = g_vars pieces !! "incomplete1" /\ g_vars g' !! "lat" = g_vars pieces !! "lat".
Proof.
  destruct (complementary_stitched stitching pieces parts) as (g' & params & Hf & _ & Hd & Hk).
  - apply (bool_decide_unpack _). vm_compute. exact I.
  - apply parts_declared.
  - apply parts_distinct.
  - apply parts_all.
  - apply parts_strings.
  - exists g', params. split; [exact Hf|].
    assert (Hin : complete_part ∈ parts /\ one_part ∈ parts) by (split; [left|right; right; left]). destruct Hin as [Hi1 Hi2].
    destruct (Hd complete_part Hi1) as [H1 _]; [by apply parts_complete|].
    destruct (Hd one_part Hi2) as [H2 H3]; [by apply parts_complete|].
    assert (E1 : merged (sv_values complete_part) 2 = ["Exeter (UK)"; "Plymouth"]) by (vm_compute; reflexivity).
    assert (E2 : merged (sv_values one_part) 2 = ["x"; "y"]) by (vm_compute; reflexivity).
    assert (E3 : doMap stitching "complete" = "complete" /\ doMap stitching "oneDerived" = "oneDerived") by (split; vm_compute; reflexivity).
    cbn [sv_n sv_output complete_part one_part] in H1, H2. destruct E3 as [E3 E4]. rewrite E3 in H1. rewrite E4 in H2.
    fold complete_part in H1. fold one_part in H2. rewrite E1 in H1. rewrite E2 in H2.
    split_and!; [exact H1|exact H2|apply H3; left| |].
    + apply Hk. apply kept_name. by_parts; apply (bool_decide_unpack _); vm_compute; exact I.
    + apply Hk. apply kept_name. by_parts; apply (bool_decide_unpack _); vm_compute; exact I.
Defined.

(** Temperatures in hundredths of a degree. *)
#[export] Instance UnitDouble_Z : UnitDouble Z := {| d_add := Z.add; d_mul := Z.mul; d_lit m e := m * 10 ^ 2 / 10 ^ Z.of_nat e |}.
Definition temps : UnitGroup Z := {["temp" := {| uv_data := [0; 5000]; uv_units := None |}]}.

Lemma units_converted_witness :
  (exists g', convertVariableUnits (layout "celsius") temps = Ok g' /\ g' !! "temp" = Some {| uv_data := [27315; 32315]; uv_units := Some "kelvin" |}) /\
  exists e, convertVariableUnits (layout "baz") temps = Throw e.
Proof.
  assert (Hl : unit_list temps = ["temp"]) by (vm_compute; reflexivity). split.
  - destruct (units_converted (layout "celsius") temps) as [H _].
    + intros name Hn. rewrite Hl in Hn. apply list_elem_of_singleton in Hn. subst. vm_compute. reflexivity.
    + destruct H as (g' & Hc & Hg).
      * intros name u Hn Hu. rewrite Hl in Hn. apply list_elem_of_singleton in Hn. subst. vm_compute in Hu. injection Hu as <-. by eexists.
      * exists g'. split; [exact Hc|]. rewrite Hg. vm_compute. reflexivity.
  - destruct (units_converted (layout "baz") temps) as [_ H].
    + intros name Hn. rewrite Hl in Hn. apply list_elem_of_singleton in Hn. subst. vm_compute. reflexivity.
    + apply (H "temp" "baz"); [rewrite Hl; left|vm_compute; reflexivity|]. intros [f Hf]. vm_compute in Hf. discriminate.
Defined.
End Sample.
