(* ===== verification/IoPool.v ===== *)
(** The pool of ranks that write files: src/src/engines/ioda/src/ioda/IoPoolBase.cpp
    and WriterPool.cpp.

    Only some ranks write; each of the others sends its data to one of them.  A
    step of the constructor is a function on the values of all ranks (position =
    rank). *)
From stdpp Require Import base list strings.
From Stdlib Require Import ZArith.
From S2P Require Import Prelude Mpi.

Definition defaultMaxPoolSize : Z := 10.
Definition poolColor : nat := 1.
Definition nonPoolColor : nat := 2.

(** [std::map<int, std::vector<int>>]: entries by increasing key; [insert] keeps
    an existing entry. *)
Notation IoPoolGroupMap := (list (nat * list nat)).
Fixpoint group_insert (k : nat) (v : list nat) (l : IoPoolGroupMap) : IoPoolGroupMap :=
  match l with
  | [] => [(k, v)]
  | (k', v') :: l' =>
      if k <? k' then (k, v) :: l
      else if k =? k' then l
      else (k', v') :: group_insert k v l'
  end.

(** The members of an io pool object on one rank. *)
Record WriterPool := {
  rank_all_ : nat;
  target_pool_size_ : nat;
  nlocs_ : Z;
  patch_nlocs_ : Z;
  total_nlocs_ : Z;
  global_nlocs_ : Z;
  nlocs_start_ : Z;
  comm_pool_ : bool;                     (* not the null pointer *)
  rank_pool_ : Z;
  size_pool_ : Z;
  rank_assignment_ : list (nat * Z);
  patch_obs_vec_ : list bool;
  is_parallel_io_ : bool;
  create_multiple_files_ : bool
}.

Section IoPool.
Context `{MpiComm} `{MpiP2P}.

(** [setTargetPoolSize]: [old] is what the member holds before. *)
Definition setTargetPoolSize (maxPoolSize_param : Z) (size_all : nat) (old : list nat) : list nat :=
  let maxPoolSize := if (0 <? maxPoolSize_param)%Z then maxPoolSize_param else defaultMaxPoolSize in
  let poolSize := if (Z.of_nat size_all <=? maxPoolSize)%Z then size_all else Z.to_nat maxPoolSize in
  comm_broadcast 0 (imap (fun rank x => if rank =? 0 then poolSize else x) old).

(** The body of the loop of [groupRanks]. *)
Definition group_step (base_assign_size rem_assign_size : nat) (s : nat * IoPoolGroupMap) (i : nat)
  : res (nat * IoPoolGroupMap) :=
  let '(start, rankGrouping) := s in
  let count := if i <? rem_assign_size then base_assign_size + 1 else base_assign_size in
  if count =? 0 then Throw (EException "vector") else
  let rankGroup := seq (start + 1) (count - 1) in
  Ok (start + count, group_insert start rankGroup rankGrouping).

(** [groupRanks] on rank 0.  Division by zero is undefined, a vector of size -1
    is refused by its constructor. *)
Definition groupRanks (size_all target_pool_size : nat) : res IoPoolGroupMap :=
  if target_pool_size =? 0 then Throw EUndefined else
  let base_assign_size := size_all / target_pool_size in
  let rem_assign_size := size_all mod target_pool_size in
  '(_, rankGrouping) ← foldM (group_step base_assign_size rem_assign_size) (0, [])
    (seq 0 target_pool_size);
  Ok rankGrouping.

(** The vectors [rankAssignments] and [rankAssignSizes] on rank 0.  The numbers
    of locations are narrowed to [int]. *)
Definition assign_group (allNlocs : list Z) (s : list (list (nat * Z)) * list nat)
    (rankGroup : nat * list nat) : res (list (list (nat * Z)) * list nat) :=
  '(assignments, sizes, pairs) ← foldM (fun '(assignments, sizes, pairs) nonPoolRank =>
      n ← vec_get allNlocs nonPoolRank;
      assignments ← vec_set assignments nonPoolRank [(rankGroup.1, i32 n)];
      sizes ← vec_set sizes nonPoolRank 1;
      Ok (assignments, sizes, pairs ++ [(nonPoolRank, i32 n)])) (s, []) rankGroup.2;
  assignments ← vec_set assignments rankGroup.1 pairs;
  sizes ← vec_set sizes rankGroup.1 (length pairs);
  Ok (assignments, sizes).

Definition rank_assignments (size_all : nat) (allNlocs : list Z) (rankGrouping : IoPoolGroupMap)
  : res (list (list (nat * Z)) * list nat) :=
  foldM (assign_group allNlocs) (replicate size_all [], replicate size_all 0) rankGrouping.

Definition assign_tag : nat := 10000.

(** [assignRanksToIoPool] on all ranks; rank 0 keeps its entry, and sends the
    others theirs. *)
Definition assignRanksToIoPool (nlocs : list Z) (rankGrouping : IoPoolGroupMap)
  : res (list (list (nat * Z))) :=
  let size_all := length nlocs in
  allNlocs ← vec_get (comm_allGather nlocs) 0;
  '(assignments, sizes) ← rank_assignments size_all allNlocs rankGrouping;
  let mySizes := comm_scatter sizes in
  let sent := concat (map (fun i =>
      match assignments !! i, sizes !! i with
      | Some a, Some n => if 0 <? n then [Build_Message 0 i (assign_tag + i) (take n a)] else []
      | _, _ => []
      end) (seq 1 (size_all - 1))) in
  imapR (fun rank n =>
      if rank =? 0 then vec_get assignments 0
      else if 0 <? n then comm_receive sent rank 0 (assign_tag + rank) n
      else Ok []) mySizes.

(** [createIoPool] on all ranks: the rank in the pool and its size, for the
    ranks of the pool. *)
Definition createIoPool (size_all : nat) (rankGrouping : IoPoolGroupMap) : res (list (option (nat * nat))) :=
  splitColors ← foldM (fun colors '(rank, _) => vec_set colors rank poolColor)
    (replicate size_all nonPoolColor) rankGrouping;
  let myColors := comm_scatter splitColors in
  Ok (zip_with (fun color rs => if color =? nonPoolColor then None else Some rs)
        myColors (comm_split myColors)).

(** [setTotalNlocs] on one rank. *)
Definition setTotalNlocs (in_pool : bool) (nlocs : Z) (rank_assignment : list (nat * Z)) : Z :=
  if in_pool then foldl (fun total a => u64 (total + u64 a.2)) nlocs rank_assignment else 0%Z.

(** [collectSingleFileInfo] on the ranks of the pool: the number of locations of
    all, and where each one starts. *)
Definition collectSingleFileInfo (total_nlocs : list Z) : list (Z * Z) :=
  let totalNlocs := comm_gather total_nlocs in
  let '(global_nlocs, nlocsStarts, _) :=
    foldl (fun '(global, starts, start) n => (u64 (global + n), starts ++ [start], u64 (start + n)))
      (0%Z, [], 0%Z) totalNlocs in
  zip (comm_broadcast 0 (imap (fun rank _ => if rank =? 0 then global_nlocs else 0%Z) total_nlocs))
    (comm_scatter nlocsStarts).

(** Giving the ranks of the pool what a collective call on it returned; the
    members of the others keep their initial values. *)
Fixpoint spread {A B} (dflt : B) (pool : list (option A)) (vals : list B) : list B :=
  match pool, vals with
  | [], _ => []
  | Some _ :: pool, v :: vals => v :: spread dflt pool vals
  | _ :: pool, vals => dflt :: spread dflt pool vals
  end.

(** The constructor of [WriterPool] on all ranks, from the patch vectors, as far
    as the writer engine; [nlocs_start_] is not initialised outside the pool. *)
Definition WriterPool_new (maxPoolSize_param : Z) (writeMultipleFiles : bool)
    (patchObsVecs : list (list bool)) : res (list WriterPool) :=
  let size_all := length patchObsVecs in
  let patch_nlocs := map (fun v => Z.of_nat (count_occ Bool.bool_dec v true)) patchObsVecs in
  let targets := setTargetPoolSize maxPoolSize_param size_all (replicate size_all 0) in
  target ← vec_get targets 0;
  rankGrouping ← groupRanks size_all target;
  assignments ← assignRanksToIoPool (map (fun n => u64 (i32 n)) patch_nlocs) rankGrouping;
  pool ← createIoPool size_all rankGrouping;
  let in_pool := map (fun p : option (nat * nat) => bool_decide (is_Some p)) pool in
  let totals := zip_with (fun p '(n, a) => setTotalNlocs p (u64 (i32 n)) a) in_pool
                  (zip patch_nlocs assignments) in
  let infos := spread (0, 0)%Z pool (collectSingleFileInfo (sel in_pool totals)) in
  Ok (imap (fun rank '(target, v, n, a, p, total, info) =>
        let size_pool := match p with Some (_, s) => Z.of_nat s | None => (-1)%Z end in
        {| rank_all_ := rank;
           target_pool_size_ := target;
           nlocs_ := Z.of_nat (length (v : list bool));
           patch_nlocs_ := n;
           total_nlocs_ := total;
           global_nlocs_ := (info : Z * Z).1;
           nlocs_start_ := info.2;
           comm_pool_ := bool_decide (is_Some p);
           rank_pool_ := match p with Some (r, _) => Z.of_nat r | None => (-1)%Z end;
           size_pool_ := size_pool;
           rank_assignment_ := a;
           patch_obs_vec_ := v;
           is_parallel_io_ := bool_decide (is_Some p) && negb writeMultipleFiles && (1 <? size_pool)%Z;
           create_multiple_files_ := bool_decide (is_Some p) && writeMultipleFiles && (1 <? size_pool)%Z |})
      (zip (zip (zip (zip (zip (zip targets patchObsVecs) patch_nlocs) assignments) pool) totals) infos)).
End IoPool.

(** * Grouping the ranks *)

(** The ranks in the order of their groups. *)
Definition flat (g : IoPoolGroupMap) : list nat := concat (map (fun '(p, rs) => p :: rs) g).

Lemma group_insert_last k v g :
  Forall (fun kv => kv.1 < k) g -> group_insert k v g = g ++ [(k, v)].
Proof.
  induction 1 as [|[k' v'] g Hk _ IH]; simpl in *; [done|].
  destruct (Nat.ltb_spec k k'); [lia|]. destruct (Nat.eqb_spec k k'); [lia|]. by rewrite IH.
Qed.

Lemma flat_app g h : flat (g ++ h) = flat g ++ flat h.
Proof. unfold flat. by rewrite map_app, concat_app. Qed.

Lemma groupRanks_spec size target :
  0 < target <= size ->
  exists g, groupRanks size target = Ok g /\ length g = target /\ flat g = seq 0 size /\
    forall k p rs, g !! k = Some (p, rs) ->
      S (length rs) = if k <? size mod target then size / target + 1 else size / target.
Proof.
  intros Ht. unfold groupRanks. destruct (Nat.eqb_spec target 0) as [|_]; [lia|].
  set (base := size / target). set (rem := size mod target).
  assert (Hdiv : size = base * target + rem) by (unfold base, rem; pose proof (Nat.div_mod_eq size target); lia).
  assert (Hb : 0 < base) by (apply Nat.div_str_pos; lia).
  assert (Hrem : rem < target) by (apply Nat.mod_upper_bound; lia).
  assert (Hinv : forall n, n <= target -> exists g,
    foldM (group_step base rem) (0, []) (seq 0 n) =
      Ok (n * base + n `min` rem, g) /\ length g = n /\ flat g = seq 0 (n * base + n `min` rem) /\
      (forall k p rs, g !! k = Some (p, rs) -> S (length rs) = if k <? rem then base + 1 else base) /\
      Forall (fun kv => kv.1 < n * base + n `min` rem) g).
  { induction n as [|n IH]; intros Hn; [by exists []|].
    destruct (IH ltac:(lia)) as (g & E & Hl & Hf & Hs & Hk). rewrite seq_S, foldM_app, E.
    cbn [mbind res_bind foldM Nat.add]. unfold group_step. set (count := if n <? rem then base + 1 else base).
    assert (Hc : 0 < count) by (unfold count; destruct (n <? rem); lia).
    destruct (Nat.eqb_spec count 0); [lia|]. rewrite group_insert_last by done.
    assert (Hnext : n * base + n `min` rem + count = S n * base + S n `min` rem)
      by (unfold count; destruct (Nat.ltb_spec n rem); lia).
    eexists. rewrite <-Hnext. split; [reflexivity|]. split; [rewrite length_app; simpl; lia|].
    split; [|split].
    - rewrite flat_app, Hf, (seq_app (n * base + n `min` rem) count 0). f_equal. unfold flat. cbn [map concat]. rewrite app_nil_r.
      replace count with (S (count - 1)) at 2 by lia. cbn [seq]. by rewrite Nat.add_1_r.
    - intros k p rs Hg. apply lookup_app_Some in Hg as [Hg|[Hlen Hg]]; [by apply (Hs k p)|].
      destruct (k - length g) as [|] eqn:Ekn; [|done]. injection Hg as <- <-.
      assert (k = n) as -> by lia. rewrite length_seq. fold count. lia.
    - apply Forall_app. split; [|repeat constructor; simpl; lia].
      eapply Forall_impl; [exact Hk|]. simpl. lia. }
  destruct (Hinv target ltac:(lia)) as (g & -> & Hl & Hf & Hs & _). cbn [mbind res_bind].
  exists g. split; [done|]. split; [done|]. split; [|done]. rewrite Hf. f_equal. lia.
Qed.

Lemma setTargetPoolSize_spec `{MpiLaws} maxPoolSize size old :
  length old = size -> 0 < size ->
  exists target, setTargetPoolSize maxPoolSize size old = replicate size target /\
    0 < target <= size /\
    target = size `min` Z.to_nat (if (0 <? maxPoolSize)%Z then maxPoolSize else defaultMaxPoolSize).
Proof.
  intros Hl Hs. unfold setTargetPoolSize.
  set (m := if (0 <? maxPoolSize)%Z then _ else _).
  assert (0 < m)%Z by (subst m; destruct (Z.ltb_spec 0 maxPoolSize); [lia|done]).
  destruct old as [|x old]; [simpl in Hl; lia|].
  erewrite broadcast_law; [|reflexivity]. rewrite length_imap, Hl. eexists. split; [reflexivity|].
  cbn [Nat.eqb]. clearbody m. destruct (Z.leb_spec (Z.of_nat size) m); lia.
Qed.

(** A list by rank, in blocks. *)
Lemma by_groups {A} (R : list A) (g : IoPoolGroupMap) (h : nat -> nat * list nat -> list A) :
  flat g = seq 0 (length R) ->
  (forall k p rs, g !! k = Some (p, rs) -> map (R !!.) (p :: rs) = map Some (h k (p, rs))) ->
  R = concat (imap h g).
Proof.
  intros Hf Hh. assert (E : map Some R = map Some (concat (imap h g))).
  { transitivity (map (R !!.) (flat g)).
    - rewrite Hf. clear. apply list_eq. intros i. rewrite !list_lookup_fmap.
      destruct (decide (i < length R)) as [Hi|Hi].
      + rewrite lookup_seq_lt by done. simpl. by destruct (lookup_lt_is_Some_2 R i Hi) as [x ->].
      + rewrite lookup_seq_ge, (lookup_ge_None_2 R) by lia. done.
    - clear Hf. revert h Hh. induction g as [|[p rs] g IH]; intros h Hh; [done|].
      rewrite imap_cons. change (flat ((p, rs) :: g)) with ((p :: rs) ++ flat g).
      cbn [concat]. rewrite !map_app, (Hh 0 p rs eq_refl). f_equal.
      apply (IH (h ∘ S)). intros k q qs Hk. by apply (Hh (S k)). }
  revert E. generalize (concat (imap h g)). intros L E. apply (inj (fmap (M := list) Some)). exact E.
Qed.

(** * Assigning ranks *)

(** Number of locations of a rank, as it is stored in an assignment. *)
Definition nloc (N : list Z) (r : nat) : Z := i32 (default 0%Z (N !! r)).

(** What the assignments say of the ranks of a group. *)
Definition group_assigned (N : list Z) (A : list (list (nat * Z))) (S : list nat) (p : nat) (rs : list nat) : Prop :=
  A !! p = Some (map (fun r => (r, nloc N r)) rs) /\ S !! p = Some (length rs) /\
  forall r, r ∈ rs -> A !! r = Some [(p, nloc N r)] /\ S !! r = Some 1.

Lemma assign_loop N (p : nat) rs (A : list (list (nat * Z))) (S : list nat) (acc : list (nat * Z)) :
  length S = length A -> NoDup rs -> Forall (fun r => r < length A /\ r < length N) rs ->
  exists A' S', foldM (fun '(assignments, sizes, pairs) nonPoolRank =>
      n ← vec_get N nonPoolRank;
      assignments ← vec_set assignments nonPoolRank [(p, i32 n)];
      sizes ← vec_set sizes nonPoolRank 1;
      Ok (assignments, sizes, pairs ++ [(nonPoolRank, i32 n)])) (A, S, acc) rs =
    Ok (A', S', acc ++ map (fun r => (r, nloc N r)) rs) /\
    length A' = length A /\ length S' = length S /\
    (forall r, r ∈ rs -> A' !! r = Some [(p, nloc N r)] /\ S' !! r = Some 1) /\
    (forall i, i ∉ rs -> A' !! i = A !! i /\ S' !! i = S !! i).
Proof.
  revert A S acc. induction rs as [|r rs IH]; intros A S acc Hl Hnd Hb.
  - exists A, S. simpl. rewrite app_nil_r. split_and!; try done. intros r Hr. by apply elem_of_nil in Hr.
  - apply Forall_cons in Hb as [[Hr Hn] Hb]. apply NoDup_cons in Hnd as [Hni Hnd].
    destruct (lookup_lt_is_Some_2 _ _ Hn) as [n En]. cbn [foldM].
    rewrite (vec_get_Some N _ _ En). cbn [mbind res_bind].
    rewrite !vec_set_lt by (rewrite ?Hl; done). cbn [mbind res_bind].
    destruct (IH (<[r := [(p, i32 n)]]> A) (<[r := 1]> S) (acc ++ [(r, i32 n)])) as (A' & S' & -> & HA & HS & Hin & Hout).
    { by rewrite !length_insert. } { done. } { by rewrite length_insert. }
    rewrite length_insert in HA. rewrite length_insert in HS.
    exists A', S'. split.
    { rewrite <-app_assoc. cbn [map app]. assert (nloc N r = i32 n) as -> by (unfold nloc; by rewrite En). done. }
    split; [done|]. split; [done|]. split.
    + intros k [->|Hk]%elem_of_cons; [|by apply Hin]. destruct (Hout r Hni) as [-> ->].
      rewrite !list_lookup_insert_eq by (rewrite ?Hl; done). unfold nloc. by rewrite En.
    + intros i [Hi Hi']%not_elem_of_cons. destruct (Hout i Hi') as [-> ->].
      by rewrite !list_lookup_insert_ne.
Qed.

Lemma assign_group_spec N A S p rs :
  length S = length A -> NoDup (p :: rs) -> Forall (fun r => r < length A /\ r < length N) (p :: rs) ->
  exists A' S', assign_group N (A, S) (p, rs) = Ok (A', S') /\
    length A' = length A /\ length S' = length S /\ group_assigned N A' S' p rs /\
    (forall i, i ∉ p :: rs -> A' !! i = A !! i /\ S' !! i = S !! i).
Proof.
  intros Hl [Hni Hnd]%NoDup_cons [[Hp _] Hb]%Forall_cons. unfold assign_group. cbn [fst snd].
  destruct (assign_loop N p rs A S [] Hl Hnd Hb) as (A' & S' & -> & HA & HS & Hin & Hout).
  cbn [mbind res_bind app]. rewrite vec_set_lt by lia. cbn [mbind res_bind].
  rewrite vec_set_lt by lia. cbn [mbind res_bind]. eexists _, _. split; [reflexivity|].
  rewrite !length_insert. split; [done|]. split; [done|]. split.
  - unfold group_assigned. rewrite !list_lookup_insert_eq by lia. rewrite length_map. split; [done|]. split; [done|].
    intros r Hr. rewrite !list_lookup_insert_ne by (intros ->; done). by apply Hin.
  - intros i [Hi Hi']%not_elem_of_cons. rewrite !list_lookup_insert_ne by done. by apply Hout.
Qed.

Lemma rank_assignments_go N g A S :
  length S = length A -> NoDup (flat g) -> Forall (fun r => r < length A /\ r < length N) (flat g) ->
  exists A' S', foldM (assign_group N) (A, S) g = Ok (A', S') /\
    length A' = length A /\ length S' = length S /\
    (forall p rs, (p, rs) ∈ g -> group_assigned N A' S' p rs) /\
    (forall i, i ∉ flat g -> A' !! i = A !! i /\ S' !! i = S !! i).
Proof.
  revert A S. induction g as [|[p rs] g IH]; intros A S Hl Hnd Hb.
  - exists A, S. split_and!; try done. intros p rs Hg. by apply elem_of_nil in Hg.
  - change (flat ((p, rs) :: g)) with ((p :: rs) ++ flat g) in *.
    apply NoDup_app in Hnd as (Hnd1 & Hdis & Hnd2). apply Forall_app in Hb as [Hb1 Hb2].
    destruct (assign_group_spec N A S p rs Hl Hnd1 Hb1) as (A1 & S1 & E1 & HA1 & HS1 & Hg1 & Ho1).
    cbn [foldM]. rewrite E1. cbn [mbind res_bind].
    destruct (IH A1 S1) as (A' & S' & -> & HA & HS & Hg & Ho); [lia|done|by rewrite HA1|].
    exists A', S'. split; [done|]. split; [lia|]. split; [lia|]. split.
    + intros q qs [Hq|Hq]%elem_of_cons; [|by apply Hg]. injection Hq as -> ->.
      assert (Hsame : forall r, r ∈ p :: rs -> A' !! r = A1 !! r /\ S' !! r = S1 !! r)
        by (intros r Hr; apply Ho; by apply Hdis).
      destruct Hg1 as (Hp1 & Hp2 & Hr). destruct (Hsame p ltac:(left)) as [Ep1 Ep2].
      split; [congruence|]. split; [congruence|]. intros r Hr'. destruct (Hr r Hr'), (Hsame r ltac:(by right)).
      split; congruence.
    + intros i [Hi Hi']%not_elem_of_app. destruct (Ho i Hi') as [-> ->]. by apply Ho1.
Qed.

(** Messages to, or from, different ranks. *)
Lemma filter_concat_unique {A B} (P : B -> bool) (f : A -> list B) l i :
  NoDup l -> i ∈ l -> (forall x, x ∈ l -> x <> i -> List.filter P (f x) = []) ->
  List.filter P (concat (map f l)) = List.filter P (f i).
Proof.
  induction l as [|x l IH]; intros Hnd Hi Hx; [by apply elem_of_nil in Hi|].
  apply NoDup_cons in Hnd as [Hni Hnd]. cbn [map concat]. rewrite List.filter_app.
  apply elem_of_cons in Hi as [->|Hi].
  - assert (Hnil : List.filter P (concat (map f l)) = []); [|by rewrite Hnil, app_nil_r].
    assert (Hall : forall y, y ∈ l -> List.filter P (f y) = []).
    { intros y Hy. apply Hx; [by right|]. by intros ->. }
    clear -Hall. induction l as [|y l IH]; [done|]. cbn [map concat]. rewrite List.filter_app, Hall, IH; [done| |left].
    intros z Hz. apply Hall. by right.
  - rewrite Hx by (left || by intros ->). simpl. apply IH; [done|done|]. intros y Hy. apply Hx. by right.
Qed.

Section assign.
Context `{MpiLaws} `{MpiP2PLaws}.

Lemma assignRanksToIoPool_spec N g :
  0 < length N -> flat g = seq 0 (length N) ->
  exists A S, assignRanksToIoPool N g = Ok A /\ length A = length N /\
    (forall p rs, (p, rs) ∈ g -> group_assigned N A S p rs).
Proof.
  intros Hpos Hf. unfold assignRanksToIoPool. rewrite allGather_law.
  assert (Hg0 : vec_get (replicate (length N) N) 0 = Ok N) by (apply vec_get_Some, lookup_replicate_2; lia).
  rewrite Hg0. cbn [mbind res_bind]. unfold rank_assignments.
  destruct (rank_assignments_go N g (replicate (length N) []) (replicate (length N) 0))
    as (A & S & -> & HA & HS & Hg & _).
  { by rewrite !length_replicate. } { rewrite Hf. apply NoDup_seq. }
  { rewrite Hf, length_replicate. apply Forall_seq. intros; lia. }
  rewrite length_replicate in HA. rewrite length_replicate in HS. cbn [mbind res_bind]. rewrite scatter_law.
  assert (Hsize : forall i n, S !! i = Some n -> exists a, A !! i = Some a /\ length a = n).
  { intros i n Hi. assert (Hin : i ∈ flat g).
    { rewrite Hf, elem_of_seq. apply lookup_lt_Some in Hi. lia. }
    unfold flat in Hin. apply list_elem_of_In, in_concat in Hin as (l & Hl & Hil).
    apply in_map_iff in Hl as ([p rs] & <- & Hpr). apply list_elem_of_In in Hpr, Hil.
    destruct (Hg p rs Hpr) as (HAp & HSp & Hrs). apply elem_of_cons in Hil as [->|Hil].
    - eexists. split; [done|]. rewrite length_map. congruence.
    - destruct (Hrs i Hil). eexists. split; [done|]. simpl. congruence. }
  exists A, S. split; [|done].
  set (f := fun i => match A !! i, S !! i with
      | Some a, Some n => if 0 <? n then [Build_Message 0 i (assign_tag + i) (take n a)] else []
      | _, _ => [] end).
  rewrite (imapR_Ok _ (fun i _ => default [] (A !! i))).
  - f_equal. apply list_eq. intros i. rewrite list_lookup_imap.
    destruct (decide (i < length N)) as [Hi|Hi].
    + destruct (lookup_lt_is_Some_2 S i ltac:(lia)) as [n En]. rewrite En. simpl.
      destruct (Hsize i n En) as (a & -> & _). done.
    + rewrite (lookup_ge_None_2 S), (lookup_ge_None_2 A) by lia. done.
  - intros i n En. destruct (Hsize i n En) as (a & Ea & Hla). rewrite Ea. simpl.
    destruct (Nat.eqb_spec i 0) as [->|Hi]; [by apply vec_get_Some|].
    destruct (Nat.ltb_spec 0 n) as [Hn|Hn]; [|destruct a; [done|simpl in Hla; lia]].
    assert (Hfi : List.filter (m_matches i 0 (assign_tag + i)) (f i) = [Build_Message 0 i (assign_tag + i) (take n a)]).
    { unfold f. rewrite Ea, En. destruct (Nat.ltb_spec 0 n); [|lia].
      unfold List.filter, m_matches. cbn [m_src m_dst m_tag]. by rewrite !Nat.eqb_refl. }
    assert (Hu : List.filter (m_matches i 0 (assign_tag + i)) (concat (map f (seq 1 (length N - 1)))) =
      [Build_Message 0 i (assign_tag + i) (take n a)]).
    { rewrite (filter_concat_unique (m_matches i 0 (assign_tag + i)) f _ i); [done|apply NoDup_seq| |].
      - apply elem_of_seq. apply lookup_lt_Some in En. lia.
      - intros x _ Hx. unfold f. destruct (A !! x), (S !! x); try done. case_match; [|done].
        unfold List.filter, m_matches. cbn [m_src m_dst m_tag]. by destruct (Nat.eqb_spec x i). }
    rewrite (receive_law _ _ _ _ _ _ _ Hu); cbn [m_data]; [by rewrite take_ge by lia|].
    rewrite length_take. lia.
Qed.
End assign.

(** * The pool communicator *)

Lemma flat_key g n k p rs :
  flat g = seq 0 n -> g !! k = Some (p, rs) -> p = length (flat (take k g)).
Proof.
  intros Hf Hk. rewrite <-(take_drop_middle g k (p, rs) Hk), flat_app in Hf.
  change (flat ((p, rs) :: drop (S k) g)) with (p :: rs ++ flat (drop (S k) g)) in Hf.
  pose proof (f_equal (fun l => l !! length (flat (take k g))) Hf) as E. cbn beta in E.
  rewrite list_lookup_middle in E by done. symmetry in E. apply lookup_seq in E as [E _]. lia.
Qed.

Lemma flat_elem g k p rs r : g !! k = Some (p, rs) -> r ∈ p :: rs -> r ∈ flat g.
Proof.
  intros Hk Hr. unfold flat. apply list_elem_of_In, in_concat. exists (p :: rs).
  split; [|by apply list_elem_of_In]. apply in_map_iff. exists (p, rs).
  split; [done|]. apply list_elem_of_In. by eapply list_elem_of_lookup_2.
Qed.

(** A rank that is not the first of its group is not the first of any. *)
Lemma flat_not_key g k p rs r :
  NoDup (flat g) -> g !! k = Some (p, rs) -> r ∈ rs -> r ∉ map fst g.
Proof.
  intros Hnd Hk Hr (kv & -> & Hin)%list_elem_of_fmap. apply list_elem_of_lookup in Hin as [j Hj].
  destruct kv as [q qs]. simpl in *. revert k j Hk Hj. induction g as [|[p0 rs0] g IH]; intros k j Hk Hj; [done|].
  change (flat ((p0, rs0) :: g)) with ((p0 :: rs0) ++ flat g) in Hnd.
  apply NoDup_app in Hnd as (Hnd1 & Hdis & Hnd2). destruct k as [|k], j as [|j]; simplify_eq/=.
  - by apply NoDup_cons in Hnd1 as [? _].
  - apply (Hdis q); [by right|]. by eapply flat_elem; [|left].
  - apply (Hdis q); [left|]. by eapply flat_elem; [|right].
  - by eapply IH.
Qed.

Lemma group_unique g k p rs k' p' rs' r :
  NoDup (flat g) -> g !! k = Some (p, rs) -> g !! k' = Some (p', rs') ->
  r ∈ p :: rs -> r ∈ p' :: rs' -> k = k'.
Proof.
  revert k k'. induction g as [|[q qs] g IH]; intros k k' Hnd Hk Hk' Hr Hr'; [done|].
  change (flat ((q, qs) :: g)) with ((q :: qs) ++ flat g) in Hnd.
  apply NoDup_app in Hnd as (_ & Hdis & Hnd). destruct k as [|k], k' as [|k']; simplify_eq/=; [done|..].
  - destruct (Hdis r Hr). by eapply flat_elem.
  - destruct (Hdis r Hr'). by eapply flat_elem.
  - f_equal. by eapply IH.
Qed.

Lemma colors_fold (g : IoPoolGroupMap) colors :
  Forall (fun r => r < length colors) (map fst g) ->
  exists colors', foldM (fun colors '(rank, _) => vec_set colors rank poolColor) colors g = Ok colors' /\
    length colors' = length colors /\
    forall i, i < length colors -> colors' !! i = if decide (i ∈ map fst g) then Some poolColor else colors !! i.
Proof.
  revert colors. induction g as [|[p rs] g IH]; intros colors Hb.
  - by exists colors.
  - apply Forall_cons in Hb as [Hp Hb]. cbn [foldM]. rewrite vec_set_lt by done. cbn [mbind res_bind].
    destruct (IH (<[p := poolColor]> colors)) as (colors' & -> & Hl & Hc).
    { by rewrite length_insert. }
    rewrite length_insert in *. exists colors'. split_and!; [done..|]. intros i Hi. rewrite Hc by done.
    cbn [map fst]. destruct (decide (i ∈ map fst g)) as [Hin|Hin].
    + by rewrite decide_True by (by right).
    + destruct (decide (i = p)) as [->|Hne].
      * by rewrite list_lookup_insert_eq, decide_True by (done || left).
      * by rewrite list_lookup_insert_ne, decide_False by (done || by intros [?|?]%elem_of_cons).
Qed.

Definition color_block (kv : nat * list nat) : list nat :=
  poolColor :: replicate (length kv.2) nonPoolColor.

Lemma color_block_length g : length (concat (map color_block g)) = length (flat g).
Proof.
  induction g as [|[p rs] g IH]; [done|]. unfold flat in *. cbn [map concat]. rewrite !length_app, IH.
  simpl. by rewrite length_replicate.
Qed.

Lemma color_block_filter g :
  List.filter (Nat.eqb poolColor) (concat (map color_block g)) = replicate (length g) poolColor.
Proof.
  induction g as [|[p rs] g IH]; [done|]. cbn [map concat]. rewrite List.filter_app, IH. simpl. f_equal.
  by induction rs.
Qed.

Lemma map_lookup_const {A} (L : list A) (x : A) rs :
  (forall r, r ∈ rs -> L !! r = Some x) -> map (L !!.) rs = map Some (replicate (length rs) x).
Proof.
  induction rs as [|r rs IH]; intros Hr; [done|]. cbn [map length replicate].
  rewrite (Hr r) by left. f_equal. apply IH. intros k Hk. apply Hr. by right.
Qed.

Section create.
Context `{MpiLaws} `{MpiP2PLaws}.

Lemma createIoPool_spec g size :
  flat g = seq 0 size ->
  exists pool, createIoPool size g = Ok pool /\ length pool = size /\
    (forall k p rs, g !! k = Some (p, rs) -> pool !! p = Some (Some (k, length g)) /\
      forall r, r ∈ rs -> pool !! r = Some None) /\
    pool = concat (imap (fun k '(p, rs) => Some (k, length g) :: replicate (length rs) None) g).
Proof.
  intros Hf. unfold createIoPool.
  assert (Hkeys : Forall (fun r => r < length (replicate size nonPoolColor)) (map fst g)).
  { apply list.Forall_forall. intros r ([p rs] & -> & Hin)%list_elem_of_fmap.
    apply list_elem_of_lookup in Hin as [k Hk]. pose proof (flat_elem g k p rs p Hk ltac:(left)) as Hp.
    rewrite Hf, elem_of_seq in Hp. rewrite length_replicate. simpl. lia. }
  destruct (colors_fold g _ Hkeys) as (colors & -> & Hl & Hc). rewrite length_replicate in *.
  assert (Hnd : NoDup (flat g)) by (rewrite Hf; apply NoDup_seq).
  assert (Hlt : forall k p rs r, g !! k = Some (p, rs) -> r ∈ p :: rs -> r < size).
  { intros k p rs r Hk Hr. pose proof (flat_elem g k p rs r Hk Hr) as Hp. rewrite Hf, elem_of_seq in Hp. lia. }
  assert (Hp : forall k p rs, g !! k = Some (p, rs) -> colors !! p = Some poolColor).
  { intros k p rs Hk. rewrite Hc, decide_True; [done| |by eapply Hlt; [|left]].
    apply list_elem_of_fmap. exists (p, rs). split; [done|]. by eapply list_elem_of_lookup_2. }
  assert (Hr : forall k p rs r, g !! k = Some (p, rs) -> r ∈ rs -> colors !! r = Some nonPoolColor).
  { intros k p rs r Hk Hr. assert (r < size) by (by eapply Hlt; [|right]).
    rewrite Hc, decide_False; [|by eapply flat_not_key|done]. by apply lookup_replicate_2. }
  assert (Hblocks : colors = concat (map color_block g)).
  { rewrite (by_groups colors g (fun _ => color_block)).
    - f_equal. apply imap_const.
    - by rewrite Hl.
    - intros k p rs Hk. cbn [map]. rewrite (Hp k p rs Hk). unfold color_block. cbn [map snd]. f_equal.
      apply map_lookup_const. intros r Hrr. by eapply Hr. }
  assert (Hcount : forall k p rs, g !! k = Some (p, rs) ->
    length (List.filter (Nat.eqb poolColor) (take p colors)) = k).
  { intros k p rs Hk. rewrite Hblocks at 1.
    rewrite <-(take_drop k g) at 1. rewrite map_app, concat_app.
    rewrite (flat_key g size k p rs Hf Hk), <-color_block_length, take_app_length.
    rewrite color_block_filter, length_replicate, length_take. apply lookup_lt_Some in Hk. lia. }
  cbn [mbind res_bind]. rewrite !scatter_law, split_law.
  set (pool := zip_with _ _ _).
  assert (Hlp : length pool = size).
  { unfold pool. rewrite length_zip_with, length_imap. lia. }
  assert (Hpoint : forall k p rs, g !! k = Some (p, rs) -> pool !! p = Some (Some (k, length g)) /\
      forall r, r ∈ rs -> pool !! r = Some None).
  { intros k p rs Hk. unfold pool. split.
    - rewrite lookup_zip_with, list_lookup_imap, (Hp k p rs Hk). cbn [mbind option_bind fmap option_fmap option_map].
      rewrite (Hcount k p rs Hk). rewrite Hblocks at 1. by rewrite color_block_filter, length_replicate.
    - intros r Hrr. by rewrite lookup_zip_with, list_lookup_imap, (Hr k p rs r Hk Hrr). }
  exists pool. split_and!; [done..|].
  apply by_groups; [by rewrite Hlp|]. intros k p rs Hk. destruct (Hpoint k p rs Hk) as [Ep Er].
  cbn [map]. rewrite Ep. f_equal. by apply map_lookup_const.
Qed.
End create.

(** * The state of the ranks *)

Local Open Scope Z_scope.

Definition Zsum (l : list Z) : Z := foldr Z.add 0 l.
Lemma Zsum_app l k : Zsum (l ++ k) = Zsum l + Zsum k.
Proof. induction l as [|x l IH]; simpl; [done|]. rewrite IH. lia. Qed.
Lemma Zsum_nonneg l : Forall (fun x => 0 <= x) l -> 0 <= Zsum l.
Proof. induction 1; simpl; lia. Qed.
Lemma Zsum_concat ls : Zsum (concat ls) = Zsum (map Zsum ls).
Proof. induction ls as [|l ls IH]; [done|]. simpl. by rewrite Zsum_app, IH. Qed.

(** The patch locations of a rank. *)
Definition patch_count (v : list bool) : Z := Z.of_nat (count_occ Bool.bool_dec v true).
Definition cnt (patch : list (list bool)) (r : nat) : Z := patch_count (default [] (patch !! r)).

Lemma cnt_nonneg patch r : 0 <= cnt patch r.
Proof. unfold cnt, patch_count. lia. Qed.

Lemma setTotalNlocs_spec n a :
  0 <= n -> Forall (fun x => 0 <= x.2) a -> n + Zsum (map snd a) < 2 ^ 64 ->
  setTotalNlocs true n a = n + Zsum (map snd a).
Proof.
  unfold setTotalNlocs. revert n. induction a as [|[r x] a IH]; intros n Hn Ha Hb; simpl in *; [lia|].
  apply Forall_cons in Ha as [Hx Ha]. simpl in *.
  assert (0 <= Zsum (map snd a)) by (apply Zsum_nonneg, Forall_map; done).
  rewrite (u64_small x), u64_small, IH by (done || lia). lia.
Qed.

Section state.
Context `{MpiLaws} `{MpiP2PLaws}.

Lemma collect_fold T glob starts start :
  Forall (fun x => 0 <= x) T -> 0 <= glob -> glob + Zsum T < 2 ^ 64 -> 0 <= start ->
  start + Zsum T < 2 ^ 64 ->
  foldl (fun '(global, starts, start) n => (u64 (global + n), starts ++ [start], u64 (start + n)))
    (glob, starts, start) T =
  (glob + Zsum T, starts ++ imap (fun k _ => start + Zsum (take k T)) T, start + Zsum T).
Proof.
  intros HT. revert glob starts start. induction HT as [|x T Hx HT IH]; intros glob starts start Hg Hgb Hs Hsb.
  { simpl. by rewrite app_nil_r, !Z.add_0_r. }
  pose proof (Zsum_nonneg T HT). simpl in Hgb, Hsb. cbn [foldl].
  rewrite !u64_small by lia. rewrite IH by lia. rewrite imap_cons. cbn [take Zsum foldr].
  fold (Zsum T). rewrite <-app_assoc, !Z.add_assoc, Z.add_0_r. cbn [app]. do 3 f_equal. f_equal.
  apply imap_ext. intros k y _. cbn. fold (Zsum (take k T)). lia.
Qed.

Lemma collectSingleFileInfo_spec T :
  Forall (fun x => 0 <= x) T -> Zsum T < 2 ^ 64 -> (0 < length T)%nat ->
  collectSingleFileInfo T = imap (fun k _ => (Zsum T, Zsum (take k T))) T.
Proof.
  intros HT Hb Hl. unfold collectSingleFileInfo. rewrite gather_law.
  rewrite (collect_fold T 0 [] 0) by (done || lia). rewrite scatter_law, !Z.add_0_l. cbn [app].
  assert (Hbc : forall G, comm_broadcast 0 (imap (fun rank (_ : Z) => if (rank =? 0)%nat then G else 0) T) =
    replicate (length T) G).
  { intros G. destruct T as [|t T]; [simpl in Hl; lia|].
    erewrite broadcast_law; [|reflexivity]. by rewrite length_imap. }
  rewrite Hbc. apply list_eq. intros k. rewrite lookup_zip_with, !list_lookup_imap.
  destruct (decide (k < length T)%nat) as [Hk|Hk].
  - rewrite lookup_replicate_2 by done. destruct (lookup_lt_is_Some_2 T k Hk) as [x ->]. done.
  - rewrite (lookup_ge_None_2 T) by lia. by destruct (replicate _ _ !! k).
Qed.
End state.

Lemma imap_map_const {A B} (f : A -> B) l : imap (fun _ x => f x) l = map f l.
Proof. apply imap_const. Qed.

(** Blocks: of a mask, of a list spread over the pool. *)
Lemma sel_blocks {A} (g : IoPoolGroupMap) (f : nat * list nat -> A) (h : nat * list nat -> list A) :
  (forall kv, length (h kv) = length kv.2) ->
  sel (concat (map (fun kv => true :: replicate (length kv.2) false) g))
      (concat (map (fun kv => f kv :: h kv) g)) = map f g.
Proof.
  intros Hh. induction g as [|kv g IH]; [done|]. cbn [map concat].
  rewrite sel_app by (simpl; rewrite length_replicate, Hh; done). rewrite IH. simpl.
  by rewrite <-(Hh kv), sel_replicate_false.
Qed.

Lemma spread_blocks {A B} (dflt : B) (g : IoPoolGroupMap) (f : nat -> nat * list nat -> A) vals :
  length vals = length g ->
  spread dflt (concat (imap (fun k kv => Some (f k kv) :: replicate (length kv.2) None) g)) vals =
  concat (imap (fun k kv => default dflt (vals !! k) :: replicate (length kv.2) dflt) g).
Proof.
  revert f vals. induction g as [|kv g IH]; intros f [|v vals] Hl; try done.
  rewrite !imap_cons. cbn [concat app spread]. f_equal. simpl in Hl.
  replace (concat (imap _ g)) with
    (concat (imap (fun k kv => default dflt (vals !! k) :: replicate (length kv.2) dflt) g)) by done.
  rewrite <-(IH (f ∘ S) vals) by lia. generalize (length kv.2). intros n. induction n as [|n IHn]; [done|].
  cbn [replicate app spread]. by rewrite IHn.
Qed.

Lemma blocks_length {A} (g : IoPoolGroupMap) (h : nat -> nat * list nat -> list A) :
  (forall k kv, length (h k kv) = S (length kv.2)) -> length (concat (imap h g)) = length (flat g).
Proof.
  revert h. induction g as [|[p rs] g IH]; intros h Hh; [done|]. rewrite imap_cons.
  change (flat ((p, rs) :: g)) with ((p :: rs) ++ flat g). cbn [concat].
  rewrite !length_app, Hh, (IH (h ∘ S)); [done|]. intros. apply Hh.
Qed.

Lemma blocks_lookup {A} (g : IoPoolGroupMap) (h : nat -> nat * list nat -> list A) n k p rs x l :
  flat g = seq 0 n -> g !! k = Some (p, rs) -> (forall k kv, length (h k kv) = S (length kv.2)) ->
  h k (p, rs) = x :: l -> concat (imap h g) !! p = Some x.
Proof.
  intros Hf Hk Hh Hx.
  assert (Hp : concat (imap h g) !! p = concat (imap h (take k g ++ (p, rs) :: drop (S k) g)) !! length (flat (take k g))).
  { by rewrite <-(flat_key g n k p rs Hf Hk), (take_drop_middle g k (p, rs) Hk). }
  rewrite Hp, imap_app, concat_app, imap_cons. cbn [concat compose].
  rewrite lookup_app_r by (rewrite blocks_length by done; lia). rewrite blocks_length by done. rewrite Nat.sub_diag.
  rewrite length_take_le by (apply lookup_lt_Some in Hk; lia). by rewrite Nat.add_0_r, Hx.
Qed.

(** The patch locations of a group of ranks. *)
Definition group_cnt (patch : list (list bool)) (kv : nat * list nat) : Z :=
  Zsum (map (cnt patch) (kv.1 :: kv.2)).

(** What the object holds on the first rank of the k-th group, which is in the
    pool, and on the other ranks of the group. *)
Record pool_state (multi : bool) (patch : list (list bool)) (g : IoPoolGroupMap) (k p : nat) (rs : list nat)
    (st : WriterPool) : Prop := {
  ps_rank : rank_all_ st = p;
  ps_patch : patch !! p = Some (patch_obs_vec_ st);
  ps_patch_nlocs : patch_nlocs_ st = cnt patch p;
  ps_comm : comm_pool_ st = true;
  ps_rank_pool : rank_pool_ st = Z.of_nat k;
  ps_size_pool : size_pool_ st = Z.of_nat (length g);
  ps_assignment : rank_assignment_ st = map (fun r => (r, cnt patch r)) rs;
  ps_total : total_nlocs_ st = group_cnt patch (p, rs);
  ps_global : global_nlocs_ st = Zsum (map (group_cnt patch) g);
  ps_start : nlocs_start_ st = Zsum (map (group_cnt patch) (take k g));
  ps_parallel : is_parallel_io_ st = negb multi && (1 <? Z.of_nat (length g));
  ps_multiple : create_multiple_files_ st = multi && (1 <? Z.of_nat (length g))
}.
Record other_state (patch : list (list bool)) (p r : nat) (st : WriterPool) : Prop := {
  os_rank : rank_all_ st = r;
  os_patch : patch !! r = Some (patch_obs_vec_ st);
  os_patch_nlocs : patch_nlocs_ st = cnt patch r;
  os_comm : comm_pool_ st = false;
  os_rank_pool : rank_pool_ st = -1;
  os_assignment : rank_assignment_ st = [(p, cnt patch r)];
  os_total : total_nlocs_ st = 0;
  os_parallel : is_parallel_io_ st = false;
  os_multiple : create_multiple_files_ st = false
}.

Definition total_cnt (patch : list (list bool)) : Z := Zsum (map patch_count patch).

Lemma cnt_le_total patch r : cnt patch r <= total_cnt patch.
Proof.
  unfold cnt, total_cnt. revert r. induction patch as [|v patch IH]; intros [|r]; simpl; try (unfold patch_count; simpl; lia).
  - assert (0 <= Zsum (map patch_count patch)); [|lia]. apply Zsum_nonneg, Forall_map, Forall_true.
    intros. unfold patch_count. simpl. lia.
  - specialize (IH r). unfold patch_count at 2. lia.
Qed.

Lemma total_cnt_flat patch g :
  flat g = seq 0 (length patch) -> total_cnt patch = Zsum (map (group_cnt patch) g).
Proof.
  intros Hf. transitivity (Zsum (map (cnt patch) (flat g))).
  - rewrite Hf. unfold total_cnt. f_equal. apply list_eq. intros i. rewrite !list_lookup_fmap.
    destruct (decide (i < length patch)%nat) as [Hi|Hi].
    + rewrite lookup_seq_lt by done. unfold cnt. simpl. by destruct (lookup_lt_is_Some_2 patch i Hi) as [v ->].
    + rewrite lookup_seq_ge, (lookup_ge_None_2 patch) by lia. done.
  - unfold flat. clear Hf. induction g as [|[p rs] g IH]; [done|]. cbn [map concat].
    rewrite map_app, Zsum_app, IH. done.
Qed.

Lemma nloc_cnt patch r :
  total_cnt patch < 2 ^ 31 -> (r < length patch)%nat ->
  nloc (map (fun n => u64 (i32 n)) (map (fun v => Z.of_nat (count_occ Bool.bool_dec v true)) patch)) r = cnt patch r.
Proof.
  intros Hb Hr. unfold nloc, cnt. rewrite !list_lookup_fmap.
  pose proof (cnt_le_total patch r) as Hle. pose proof (cnt_nonneg patch r). unfold cnt in *.
  destruct (lookup_lt_is_Some_2 patch r Hr) as [v Hv]. rewrite Hv in *. simpl in *. unfold patch_count in *.
  rewrite (i32_small (Z.of_nat _)), u64_small, i32_small by lia. done.
Qed.

Lemma group_cnt_nonneg patch kv : 0 <= group_cnt patch kv.
Proof. unfold group_cnt. apply Zsum_nonneg, Forall_map, Forall_true. intros r. apply cnt_nonneg. Qed.

Lemma group_cnt_le_total patch g k kv :
  flat g = seq 0 (length patch) -> g !! k = Some kv -> group_cnt patch kv <= total_cnt patch.
Proof.
  intros Hf Hk. rewrite (total_cnt_flat patch g Hf), <-(take_drop_middle g k kv Hk), map_app, Zsum_app.
  cbn [map Zsum foldr].
  pose proof (Zsum_nonneg (map (group_cnt patch) (take k g))) as H1.
  pose proof (Zsum_nonneg (map (group_cnt patch) (drop (S k) g))) as H2. unfold Zsum in *.
  cut (Forall (fun x => 0 <= x) (map (group_cnt patch) (take k g)) /\
       Forall (fun x => 0 <= x) (map (group_cnt patch) (drop (S k) g))).
  { intros [? ?]. specialize (H1 ltac:(done)). specialize (H2 ltac:(done)). lia. }
  split; apply Forall_map, Forall_true; intros; apply group_cnt_nonneg.
Qed.

Section new.
Context `{MpiLaws} `{MpiP2PLaws}.

Lemma WriterPool_new_spec maxp multi patch :
  (0 < length patch)%nat -> total_cnt patch < 2 ^ 31 ->
  exists g sts, WriterPool_new maxp multi patch = Ok sts /\ length sts = length patch /\
    flat g = seq 0 (length patch) /\
    length g = (length patch `min` Z.to_nat (if (0 <? maxp)%Z then maxp else defaultMaxPoolSize))%nat /\
    (0 < length g)%nat /\
    (forall k p rs, g !! k = Some (p, rs) -> S (length rs) =
      if (k <? length patch mod length g)%nat then (length patch / length g + 1)%nat
      else (length patch / length g)%nat) /\
    forall k p rs, g !! k = Some (p, rs) ->
      (exists st, sts !! p = Some st /\ pool_state multi patch g k p rs st) /\
      (forall r, r ∈ rs -> exists st, sts !! r = Some st /\ other_state patch p r st).
Proof.
  intros Hpos Hb. set (size := length patch) in *. unfold WriterPool_new. fold size.
  destruct (setTargetPoolSize_spec maxp size (replicate size 0%nat)) as (target & -> & Ht & Etarget);
    [apply length_replicate|done|].
  assert (vec_get (replicate size target) 0 = Ok target) as -> by (apply vec_get_Some, lookup_replicate_2; lia).
  cbn [mbind res_bind]. destruct (groupRanks_spec size target Ht) as (g & -> & Hg & Hf & Hbal).
  cbn [mbind res_bind]. set (pn := map (fun v => Z.of_nat (count_occ Bool.bool_dec v true)) patch).
  set (N := map (fun n => u64 (i32 n)) pn).
  assert (HN : length N = size) by (unfold N, pn; by rewrite !length_map).
  destruct (assignRanksToIoPool_spec N g) as (A & S0 & -> & HA & Hassign); [lia|by rewrite HN|].
  cbn [mbind res_bind]. destruct (createIoPool_spec g size Hf) as (pool & -> & Hpl & Hpool & Hblocks).
  cbn [mbind res_bind]. set (in_pool := map (fun p : option (nat * nat) => bool_decide (is_Some p)) pool).
  set (totals := zip_with _ in_pool (zip pn A)).
  assert (Hlt : forall k p rs r, g !! k = Some (p, rs) -> r ∈ p :: rs -> (r < size)%nat).
  { intros k p rs r Hk Hr. pose proof (flat_elem g k p rs r Hk Hr) as Hp. rewrite Hf, elem_of_seq in Hp. lia. }
  assert (Hpn : forall r, (r < size)%nat -> pn !! r = Some (cnt patch r)).
  { intros r Hr. unfold pn, cnt. rewrite list_lookup_fmap.
    destruct (lookup_lt_is_Some_2 patch r Hr) as [v ->]. done. }
  assert (Hnl : forall r, (r < size)%nat -> nloc N r = cnt patch r) by (intros; by apply nloc_cnt).
  assert (Hin : forall k p rs, g !! k = Some (p, rs) -> in_pool !! p = Some true /\
    forall r, r ∈ rs -> in_pool !! r = Some false).
  { intros k p rs Hk. destruct (Hpool k p rs Hk) as [Ep Er]. unfold in_pool. split; [|intros r Hr];
      rewrite list_lookup_fmap, ?Ep, ?(Er r) by done; done. }
  assert (HAp : forall k p rs, g !! k = Some (p, rs) -> A !! p = Some (map (fun r => (r, cnt patch r)) rs) /\
    forall r, r ∈ rs -> A !! r = Some [(p, cnt patch r)]).
  { intros k p rs Hk. destruct (Hassign p rs) as (Ep & _ & Er); [by eapply list_elem_of_lookup_2|]. split.
    - rewrite Ep. f_equal. apply map_ext_in. intros r Hr%list_elem_of_In. f_equal. apply Hnl.
      eapply Hlt; [done|by right].
    - intros r Hr. destruct (Er r Hr) as [-> _]. do 3 f_equal. apply Hnl. eapply Hlt; [done|by right]. }
  assert (Htot : forall k p rs, g !! k = Some (p, rs) -> totals !! p = Some (group_cnt patch (p, rs)) /\
    forall r, r ∈ rs -> totals !! r = Some 0).
  { intros k p rs Hk. destruct (Hin k p rs Hk) as [Eip Eir], (HAp k p rs Hk) as [Eap Ear]. unfold totals. split.
    - assert (Hp : (p < size)%nat) by (eapply Hlt; [done|left]).
      rewrite !lookup_zip_with, Eip, Eap, (Hpn p Hp). cbn. f_equal.
      pose proof (group_cnt_le_total patch g k (p, rs) Hf Hk) as Hle. unfold group_cnt in *.
      cbn [map fst snd Zsum foldr] in *. fold (Zsum (map (cnt patch) rs)) in *.
      pose proof (cnt_nonneg patch p). pose proof (cnt_le_total patch p).
      rewrite i32_small, u64_small by lia. change (foldl _ _ _) with
        (setTotalNlocs true (cnt patch p) (map (fun r => (r, cnt patch r)) rs)).
      assert (Esnd : map snd (map (fun r => (r, cnt patch r)) rs) = map (cnt patch) rs) by (by rewrite map_map).
      rewrite setTotalNlocs_spec; rewrite ?Esnd; [done|done| |lia].
      apply Forall_map, Forall_true. intros r. apply cnt_nonneg.
    - intros r Hr. rewrite !lookup_zip_with, (Eir r Hr), (Ear r Hr), Hpn by (by eapply Hlt; [|right]). done. }
  assert (Hlt_tot : length totals = size).
  { unfold totals, in_pool. rewrite !length_zip_with, length_map. unfold pn. rewrite length_map. lia. }
  assert (Esel : sel in_pool totals = map (group_cnt patch) g).
  { rewrite (by_groups totals g (fun _ kv => group_cnt patch kv :: replicate (length kv.2) 0)).
    2:{ by rewrite Hlt_tot. }
    2:{ intros k p rs Hk. destruct (Htot k p rs Hk) as [Ep Er]. cbn [map snd]. rewrite Ep. f_equal.
        by apply map_lookup_const. }
    rewrite (by_groups in_pool g (fun _ kv => true :: replicate (length kv.2) false)).
    2:{ unfold in_pool. by rewrite length_map, Hpl. }
    2:{ intros k p rs Hk. destruct (Hin k p rs Hk) as [Ep Er]. cbn [map snd]. rewrite Ep. f_equal.
        by apply map_lookup_const. }
    rewrite !imap_map_const. apply (sel_blocks g (group_cnt patch) (fun kv => replicate (length kv.2) 0)).
    intros kv. apply length_replicate. }
  assert (Hgpos : (0 < length g)%nat) by lia.
  assert (Hgn : Forall (fun x => 0 <= x) (map (group_cnt patch) g))
    by (apply Forall_map, Forall_true; intros; apply group_cnt_nonneg).
  assert (Hinfo : forall k p rs, g !! k = Some (p, rs) ->
    spread (0, 0) pool (collectSingleFileInfo (sel in_pool totals)) !! p =
      Some (Zsum (map (group_cnt patch) g), Zsum (map (group_cnt patch) (take k g)))).
  { intros k p rs Hk. rewrite Esel, collectSingleFileInfo_spec;
      [|done|rewrite <-(total_cnt_flat patch g Hf); lia|by rewrite length_map].
    rewrite Hblocks. rewrite (imap_ext _ (fun k kv => Some (k, length g) :: replicate (length kv.2) None))
      by (intros ? [? ?] ?; done).
    rewrite (spread_blocks (0, 0) g (fun k _ => (k, length g))) by (by rewrite length_imap, length_map).
    eapply blocks_lookup; [done|done|intros; simpl; by rewrite length_replicate|].
    rewrite list_lookup_imap, list_lookup_fmap. rewrite Hk. cbn [fmap option_fmap option_map default from_option]. by rewrite firstn_map. }
  set (infos := spread _ _ _) in *.
  assert (Hli : length infos = size).
  { unfold infos. rewrite Hblocks, Esel, collectSingleFileInfo_spec;
      [|done|rewrite <-(total_cnt_flat patch g Hf); lia|by rewrite length_map].
    rewrite (imap_ext _ (fun k kv => Some (k, length g) :: replicate (length kv.2) None)) by (intros ? [? ?] ?; done).
    rewrite (spread_blocks (0, 0) g (fun k _ => (k, length g))) by (by rewrite length_imap, length_map).
    rewrite blocks_length, Hf, length_seq; [done|]. intros; simpl; by rewrite length_replicate. }
  eexists g, _. split; [reflexivity|].
  assert (Hlp : length pn = size) by (unfold pn; by rewrite length_map).
  split; [rewrite length_imap, !length_zip_with, length_replicate; lia|].
  split; [done|]. split; [by rewrite Hg|]. split; [done|].
  split; [intros k p rs Hk; rewrite Hg; by apply (Hbal k p)|].
  intros k p rs Hk. destruct (Hpool k p rs Hk) as [Epool Epoolr], (HAp k p rs Hk) as [EA EAr],
    (Htot k p rs Hk) as [Etot Etotr]. split.
  - assert (Hp : (p < size)%nat) by (eapply Hlt; [done|left]).
    destruct (lookup_lt_is_Some_2 patch p Hp) as [v Hv].
    rewrite list_lookup_imap, !lookup_zip_with, lookup_replicate_2, Hv, (Hpn p Hp), EA, Epool, Etot, (Hinfo k p rs Hk)
      by done.
    cbn [mbind option_bind fmap option_fmap option_map]. eexists. split; [reflexivity|].
    split; simpl; try done; by rewrite bool_decide_true by eauto.
  - intros r Hr. assert (Hrs : (r < size)%nat) by (eapply Hlt; [done|by right]).
    destruct (lookup_lt_is_Some_2 patch r Hrs) as [v Hv], (lookup_lt_is_Some_2 infos r ltac:(lia)) as [i Hi].
    rewrite list_lookup_imap, !lookup_zip_with, lookup_replicate_2, Hv, (Hpn r Hrs), (EAr r Hr), (Epoolr r Hr),
      (Etotr r Hr), Hi by done.
    cbn [mbind option_bind fmap option_fmap option_map]. eexists. split; [reflexivity|].
    split; simpl; try done; by rewrite bool_decide_false by (by intros [? ?]).
Qed.
End new.

(** C40: The constructor of the writer pool succeeds on all ranks and splits them
    into min(limit, number of ranks) groups of consecutive ranks, whose sizes
    differ by at most one.  The first rank of a group is in the pool, with the
    number of its group as pool rank; its assignment lists the others of its group with
    their numbers of patch locations, and its total, and the start of its block in the
    single file, are the sums over its group and over the groups before.  Every
    other rank is assigned to the first of its group only. *)
Theorem writer_pool_groups `{MpiLaws} `{MpiP2PLaws} maxp multi patch :
  (0 < length patch)%nat -> total_cnt patch < 2 ^ 31 ->
  exists g sts, WriterPool_new maxp multi patch = Ok sts /\
    concat (map (fun '(p, rs) => p :: rs) g) = seq 0 (length sts) /\ length sts = length patch /\
    length g = (length patch `min` Z.to_nat (if (0 <? maxp)%Z then maxp else defaultMaxPoolSize))%nat /\
    (forall kv kv', kv ∈ g -> kv' ∈ g -> (length kv.2 <= length kv'.2 + 1)%nat) /\
    forall k p rs, g !! k = Some (p, rs) ->
      (exists st, sts !! p = Some st /\ pool_state multi patch g k p rs st) /\
      (forall r, r ∈ rs -> exists st, sts !! r = Some st /\ other_state patch p r st).
Proof.
  intros Hpos Hb. destruct (WriterPool_new_spec maxp multi patch Hpos Hb) as (g & sts & E & Hl & Hf & Hg & _ & Hbal & Hst).
  exists g, sts. split; [done|]. rewrite Hl. split; [done|]. split; [done|]. split; [done|]. split; [|done].
  assert (Hsz : forall kv, kv ∈ g -> (length patch / length g <= S (length kv.2) <= length patch / length g + 1)%nat).
  { intros [p rs] [k Hk]%list_elem_of_lookup. pose proof (Hbal k p rs Hk) as Hb'. cbn [snd].
    destruct (k <? length patch mod length g)%nat; lia. }
  intros kv kv' H1' H2'. pose proof (Hsz kv H1'). pose proof (Hsz kv' H2'). lia.
Qed.
Lemma writer_pool_groups_witness :
  exists g sts, @WriterPool_new reference_comm reference_p2p 2 false [[true; false]; [true; true]; [false; true]] = Ok sts /\
    concat (map (fun '(p, rs) => p :: rs) g) = [0; 1; 2]%nat /\ length g = 2%nat.
Proof.
  destruct (@writer_pool_groups reference_comm reference_laws reference_p2p reference_p2p_laws 2 false
    [[true; false]; [true; true]; [false; true]]) as (g & sts & E & Hf & Hl & Hg & _).
  - simpl. lia.
  - vm_compute. reflexivity.
  - exists g, sts. split; [exact E|]. rewrite Hl in Hf. split; [exact Hf|exact Hg].
Defined.
