(* ===== verification/WriterTransfer.v ===== *)
(** Collecting the data of a variable from all ranks and writing it to the
    file(s): src/src/engines/ioda/src/ioda/WriterUtils.cpp.

    The destination variable belongs to the file engine (HDF5), which is not part of
    the model: [FileVar] has its two write operations and [FileLaws] what is
    relied on of them. *)
From stdpp Require Import base list strings.
From Stdlib Require Import ZArith.
From S2P Require Import Prelude Mpi Selection IoPool.
Local Open Scope Z_scope.

Definition mpiTagBase : nat := 20000.
Definition varNumTagFactor : nat := 100.

(** A destination variable: its dimensions and its contents.  The selections
    are those of memory and of the file. *)
Class FileVar := {
  file_write : forall {A}, list Z -> list A -> list A -> res (list A);
  file_parallelWrite : forall {A}, list Z -> list A -> FrontSelection -> FrontSelection -> list A -> res (list A)
}.

Definition store_at {A} (old : list A) (positions : list Z) (data : list A) : list A :=
  foldl (fun l '(i, x) => <[Z.to_nat i := x]> l) old (zip positions data).

(** Writing everything, and writing all of memory to a hyperslab within the
    file's dimensions, element by element in row-major order. *)
Class FileLaws `{FileVar} := {
  file_write_law : forall A dims (old data : list A),
    Z.of_nat (length data) = prodZ dims -> file_write dims old data = Ok data;
  file_parallelWrite_law : forall A dims (old data : list A) starts counts,
    length starts = length dims -> Forall2 (fun '(s, c) n => 0 <= s /\ 0 <= c /\ s + c <= n) (zip starts counts) dims ->
    length counts = length dims ->
    Z.of_nat (length data) = prodZ counts -> Z.of_nat (length old) = prodZ dims ->
    file_parallelWrite dims old
      (set_block counts (replicate (length counts) 0) counts) (set_block dims starts counts) data =
    Ok (store_at old (block_positions starts counts dims) data)
}.

Definition reference_file : FileVar := {|
  file_write A dims old data := Ok data;
  file_parallelWrite A dims old mem file data :=
    match actions_ file with
    | [a] => Ok (store_at old (block_positions (start_ a) (count_ a) dims) data)
    | _ => Throw EUndefined
    end
|}.
Lemma reference_file_laws : @FileLaws reference_file.
Proof. by split. Qed.

(** * Operations on one rank *)

Definition createBlockSelection (varShape : list Z) (blockStart blockCount : Z) (isFile : bool)
  : res FrontSelection :=
  blockCounts ← vec_set varShape 0 blockCount;
  blockStarts ← vec_set (replicate (length blockCounts) 0) 0 blockStart;
  Ok (set_block (if isFile then varShape else blockCounts) blockStarts blockCounts).

(** The product starts from the [int] 1, so [std::accumulate] keeps it in an [int]. *)
Definition dim_factor (srcDims : list Z) : Z :=
  if (1 <? length srcDims)%nat
  then i64 (1 * foldl (fun acc d => i32 (i64 (acc * d))) 1 (drop 1 srcDims)) else 1.

(** The count of the slice exchanged with an assigned rank. *)
Definition slice_count (ioPool : WriterPool) (dimFactor : Z) (rankAssignment : nat * Z) : Z :=
  if 0 <=? rank_pool_ ioPool then u64 (i64 (rankAssignment.2 * dimFactor))
  else u64 (i64 (i32 (patch_nlocs_ ioPool) * dimFactor)).

Definition calcVarStartsCounts (ioPool : WriterPool) (srcDims : list Z) : list Z * list Z * Z :=
  let dimFactor := dim_factor srcDims in
  let start := if 0 <=? rank_pool_ ioPool then u64 (i64 (i32 (patch_nlocs_ ioPool) * dimFactor)) else 0 in
  let '(varStarts, varCounts, _) := foldl (fun '(varStarts, varCounts, start) rankAssignment =>
      let count := slice_count ioPool dimFactor rankAssignment in
      (varStarts ++ [start], varCounts ++ [count], u64 (start + count)))
    ([], [], start) (rank_assignment_ ioPool) in
  (varStarts, varCounts, dimFactor).

Definition selectPatchValues {A} (patchObsVec : list bool) (dimFactor : Z) (totalVarData : list A)
  : res (list A) :=
  foldM (fun varData i =>
      b ← vec_get patchObsVec i;
      if (b : bool) then
        let indx := u64 (Z.of_nat i * u64 dimFactor) in
        foldM (fun varData j =>
            x ← vec_get totalVarData (Z.to_nat (u64 (indx + Z.of_nat j)));
            Ok (varData ++ [x])) varData (seq 0 (Z.to_nat (u64 dimFactor)))
      else Ok varData) [] (seq 0 (length patchObsVec)).

(** Reading [count] elements from [data() + start], and writing there. *)
Definition read_range {A} (buf : list A) (start count : Z) : res (list A) :=
  if (start + count <=? Z.of_nat (length buf)) then Ok (take (Z.to_nat count) (drop (Z.to_nat start) buf))
  else Throw EUndefined.
Definition write_range {A} (buf : list A) (start : Z) (d : list A) : res (list A) :=
  if (start + Z.of_nat (length d) <=? Z.of_nat (length buf))
  then Ok (take (Z.to_nat start) buf ++ d ++ drop (Z.to_nat start + length d) buf)
  else Throw EUndefined.

(** The write a rank of the pool issues in the end. *)
Record WriteOp (A : Type) := {
  w_dims : list Z;
  w_selects : option (FrontSelection * FrontSelection);
  w_data : list A
}.
Arguments w_dims {A} _.
Arguments w_selects {A} _.
Arguments w_data {A} _.
Arguments Build_WriteOp {A} _ _ _.

Definition apply_write `{FileVar} {A} (old : list A) (w : WriteOp A) : res (list A) :=
  match w_selects w with
  | Some (memSelect, fileSelect) => file_parallelWrite (w_dims w) old memSelect fileSelect (w_data w)
  | None => file_write (w_dims w) old (w_data w)
  end.

(** The dimensions that [ioWriteGroup] and [createVariable] give a variable that
    uses Location. *)
Definition poolNlocs (isParallelIo : bool) (ioPool : WriterPool) : Z :=
  i32 (if isParallelIo then i32 (global_nlocs_ ioPool) else i32 (total_nlocs_ ioPool)).
Definition created_dims (adjustNlocs : Z) (srcDims : list Z) : res (list Z) :=
  if 0 <=? adjustNlocs then vec_set srcDims 0 adjustNlocs else Ok srcDims.

(** * The transfer, on all ranks

    [encode]/[decode] are what is done to the elements on the way: nothing, or the copy of
    strings through fixed-length records.  They are given the number of elements
    the sender announces, and the number of elements to receive. *)
Section transfer.
Context `{MpiP2P} {A B : Type} (dflt : A).
Context (encode : Z -> list A -> res (list B)) (decode : Z -> list B -> res (list A)) (unit_size : nat).

Definition var_tag (varNumber rank : nat) : nat := (mpiTagBase + varNumber * varNumTagFactor + rank)%nat.

Definition send_data (varNumber : nat) (ioPool : WriterPool) (varStarts varCounts : list Z) (varData : list A)
  : res (list (Message B)) :=
  imapR (fun i '(toRank, _) =>
      start ← vec_get varStarts i;
      count ← vec_get varCounts i;
      d ← read_range varData start count;
      d ← encode count d;
      Ok (Build_Message (rank_all_ ioPool) toRank (var_tag varNumber (rank_all_ ioPool)) d))
    (rank_assignment_ ioPool).

Definition receive_data (varNumber : nat) (ioPool : WriterPool) (varStarts varCounts : list Z)
    (sent : list (Message B)) (varData : list A) : res (list A) :=
  foldM (fun varData '(i, (fromRank, _)) =>
      start ← vec_get varStarts i;
      count ← vec_get varCounts i;
      d ← comm_receive sent (rank_all_ ioPool) fromRank (var_tag varNumber fromRank)
            (Z.to_nat count * unit_size)%nat;
      d ← decode count d;
      write_range varData start d)
    varData (imap (fun i a => (i, a)) (rank_assignment_ ioPool)).

Definition write_op (isParallelIo : bool) (ioPool : WriterPool) (destDims : list Z) (varData : list A)
  : res (WriteOp A) :=
  if isParallelIo then
    memSelect ← createBlockSelection destDims 0 (i32 (total_nlocs_ ioPool)) false;
    fileSelect ← createBlockSelection destDims (i32 (nlocs_start_ ioPool)) (i32 (total_nlocs_ ioPool)) true;
    Ok (Build_WriteOp destDims (Some (memSelect, fileSelect)) varData)
  else Ok (Build_WriteOp destDims None varData).

(** The values a rank sends or keeps, with its starts and counts. *)
Definition local_part (ioPool : WriterPool) (srcDims : list Z) (totalVarData : list A)
  : res (WriterPool * list Z * (list Z * list Z * Z) * list A) :=
  let sc := calcVarStartsCounts ioPool srcDims in
  varData ← selectPatchValues (patch_obs_vec_ ioPool) sc.2 totalVarData;
  Ok (ioPool, srcDims, sc, varData).

Definition transfer (varNumber : nat) (ranks : list (WriterPool * list Z * list A))
  : res (list (option (WriteOp A))) :=
  locals ← mapR (fun '(ioPool, srcDims, totalVarData) => local_part ioPool srcDims totalVarData) ranks;
  sent ← mapR (fun '(ioPool, srcDims, (varStarts, varCounts, dimFactor), varData) =>
      if 0 <=? rank_pool_ ioPool then Ok []
      else send_data varNumber ioPool varStarts varCounts varData) locals;
  mapR (fun '(ioPool, srcDims, (varStarts, varCounts, dimFactor), varData) =>
      if 0 <=? rank_pool_ ioPool then
        let numElements := i64 (i32 (total_nlocs_ ioPool) * dimFactor) in
        varData ← receive_data varNumber ioPool varStarts varCounts (concat sent)
                    (vec_resize (Z.to_nat (u64 numElements)) dflt varData);
        destDims ← created_dims (poolNlocs (is_parallel_io_ ioPool) ioPool) srcDims;
        w ← write_op (is_parallel_io_ ioPool) ioPool destDims varData;
        Ok (Some w)
      else Ok None) locals.
End transfer.

(** Numbers are sent as they are. *)
Definition transferVarDataMPI `{MpiP2P} {A} (dflt : A) :=
  transfer dflt (fun _ d => Ok d) (fun _ d => Ok d) 1.

(** ... and strings through records of [maxStringLength] characters, filled up
    with the null character.  (A sender's start is zero and its count the number of its
    strings, so the strings sent are all of its strings.) *)
Definition nul : Ascii.ascii := Ascii.zero.

Definition str_encode (maxStringLength : nat) (count : Z) (varData : list string) : res (list Ascii.ascii) :=
  foldM (fun buf '(i, str) =>
      foldM (fun buf '(j, c) => vec_set buf (i * maxStringLength + j)%nat c) buf
        (imap (fun j c => (j, c)) (String.list_ascii_of_string str)))
    (replicate (Z.to_nat count * maxStringLength)%nat nul) (imap (fun i str => (i, str)) varData).

(** [std::find(begin, end, '\0')]: what comes before. *)
Fixpoint find_nul (l : list Ascii.ascii) : option (list Ascii.ascii) :=
  match l with
  | [] => None
  | c :: l => if Ascii.eqb c nul then Some [] else s ← find_nul l; Some (c :: s)
  end.

Definition str_decode (maxStringLength : nat) (count : Z) (strBuffer : list Ascii.ascii) : res (list string) :=
  mapR (fun j =>
      match find_nul (drop (j * maxStringLength) strBuffer) with
      | None => Throw (EException "End of string not found during MPI transfer")
      | Some s => Ok (String.string_of_list_ascii s)
      end) (seq 0 (Z.to_nat count)).

Definition transferVarDataMPI_string `{MpiP2P} (strLen : nat) :=
  let maxStringLength := (strLen + 1)%nat in
  transfer EmptyString (str_encode maxStringLength) (str_decode maxStringLength) maxStringLength.

(** [calcMaxStringLengths] for one variable, on all ranks. *)
Definition calcMaxStringLength `{MpiComm} (varDatas : list (list string)) : list nat :=
  map (fun globalMaxStringLen => if (globalMaxStringLen =? 0)%nat then 1%nat else globalMaxStringLen)
    (comm_allReduce Nat.max (map (fun varData =>
      foldl (fun maxStringLen s => if (maxStringLen <? String.length s)%nat then String.length s else maxStringLen)
        0%nat varData) varDatas)).

(** * Patch values *)

(** The rows of [df] elements that the mask marks. *)
Definition patch_values {A} (mask : list bool) (df : nat) (data : list A) : list A :=
  concat (map (fun i => take df (drop (i * df) data))
    (List.filter (fun i => default false (mask !! i)) (seq 0 (length mask)))).

Lemma foldM_copy {A} (data : list A) acc (off : Z) n :
  0 <= off -> off + Z.of_nat n <= Z.of_nat (length data) -> Z.of_nat (length data) < 2 ^ 64 ->
  foldM (fun varData j => x ← vec_get data (Z.to_nat (u64 (off + Z.of_nat j))); Ok (varData ++ [x])) acc (seq 0 n) =
  Ok (acc ++ take n (drop (Z.to_nat off) data)).
Proof.
  intros Ho Hn Hb. induction n as [|n IH].
  - simpl. by rewrite app_nil_r.
  - rewrite seq_S, foldM_app, IH by lia. cbn [mbind res_bind foldM Nat.add].
    destruct (lookup_lt_is_Some_2 data (Z.to_nat off + n)%nat ltac:(lia)) as [x Hx].
    rewrite u64_small by lia. rewrite Z2Nat.inj_add, Nat2Z.id by lia.
    rewrite (vec_get_Some data _ _ Hx). cbn [mbind res_bind]. f_equal. rewrite <-app_assoc. f_equal.
    symmetry. apply take_S_r. by rewrite lookup_drop.
Qed.

Lemma selectPatchValues_spec {A} mask (df : nat) (data : list A) :
  length data = (length mask * df)%nat -> Z.of_nat (length data) < 2 ^ 64 -> Z.of_nat df < 2 ^ 64 ->
  selectPatchValues mask (Z.of_nat df) data = Ok (patch_values mask df data).
Proof.
  intros Hl Hb Hdf. unfold selectPatchValues, patch_values. rewrite (u64_small (Z.of_nat df)), Nat2Z.id by lia.
  assert (Hk : forall k acc, (k <= length mask)%nat -> foldM (fun varData i =>
      b ← vec_get mask i;
      if (b : bool) then
        let indx := u64 (Z.of_nat i * Z.of_nat df) in
        foldM (fun varData j =>
            x ← vec_get data (Z.to_nat (u64 (indx + Z.of_nat j)));
            Ok (varData ++ [x])) varData (seq 0 df)
      else Ok varData) acc (seq 0 k) =
    Ok (acc ++ concat (map (fun i => take df (drop (i * df) data))
      (List.filter (fun i => default false (mask !! i)) (seq 0 k))))).
  { induction k as [|k IH]; intros acc Hk; [simpl; by rewrite app_nil_r|].
    rewrite seq_S, foldM_app, IH by lia. cbn [mbind res_bind foldM Nat.add].
    destruct (lookup_lt_is_Some_2 mask k ltac:(lia)) as [b Hbk]. rewrite (vec_get_Some mask _ _ Hbk).
    cbn [mbind res_bind]. rewrite List.filter_app, map_app, concat_app. cbn [List.filter]. rewrite Hbk. simpl.
    destruct b; cbn [map concat]; [|by rewrite !app_nil_r].
    assert ((k * df + df <= length data)%nat) by nia.
    rewrite u64_small by nia. cbv zeta. rewrite foldM_copy by nia. cbn [mbind res_bind].
    rewrite !app_nil_r, <-app_assoc. do 5 f_equal. lia. }
  rewrite Hk by done. done.
Qed.

Lemma patch_values_length {A} mask (df : nat) (data : list A) :
  length data = (length mask * df)%nat ->
  length (patch_values mask df data) = (count_occ Bool.bool_dec mask true * df)%nat.
Proof.
  intros Hl. unfold patch_values.
  assert (Hk : forall k, (k <= length mask)%nat -> length (concat (map (fun i => take df (drop (i * df) data))
      (List.filter (fun i => default false (mask !! i)) (seq 0 k)))) =
      (count_occ Bool.bool_dec (take k mask) true * df)%nat).
  { induction k as [|k IH]; intros Hk; [done|]. rewrite seq_S, List.filter_app, map_app, concat_app, length_app, IH by lia.
    destruct (lookup_lt_is_Some_2 mask k ltac:(lia)) as [b Hb]. rewrite (take_S_r _ _ _ Hb), count_occ_app.
    cbn [Nat.add List.filter]. rewrite Hb. simpl. assert ((k * df + df <= length data)%nat) by nia.
    destruct b; cbn [map concat]; [|destruct (Bool.bool_dec false true); [done|]; simpl; lia].
    rewrite app_nil_r, length_take, length_drop. destruct (Bool.bool_dec true true); [|done]. nia. }
  rewrite Hk, take_ge by lia. done.
Qed.

(** * Starts and counts *)

Lemma dim_factor_spec n rest :
  Forall (fun d => 0 < d) rest -> prodZ rest < 2 ^ 31 -> dim_factor (n :: rest) = prodZ rest.
Proof.
  intros Hp Hb. unfold dim_factor. simpl length. rewrite skipn_cons, drop_0.
  assert (Hacc : forall acc, 0 < acc -> acc * prodZ rest < 2 ^ 31 ->
    foldl (fun acc d => i32 (i64 (acc * d))) acc rest = acc * prodZ rest).
  { clear Hb. induction Hp as [|d rest Hd Hp IH]; intros acc Ha Hb; [unfold prodZ; simpl; lia|].
    change (prodZ (d :: rest)) with (d * prodZ rest) in *. pose proof (prodZ_ge1 rest Hp).
    assert (acc * d < 2 ^ 31) by nia.
    simpl. rewrite (i64_small (acc * d)), i32_small, IH by nia. lia. }
  pose proof (prodZ_ge1 rest Hp).
  destruct rest as [|d rest]; [done|]. simpl length. cbn [Nat.ltb Nat.leb].
  rewrite Hacc by lia. rewrite i64_small by lia. lia.
Qed.

Lemma starts_fold (f : nat * Z -> Z) (a : list (nat * Z)) ss cs start :
  0 <= start -> Forall (fun x => 0 <= f x) a -> start + Zsum (map f a) < 2 ^ 64 ->
  foldl (fun '(varStarts, varCounts, start) x =>
      (varStarts ++ [start], varCounts ++ [f x], u64 (start + f x))) (ss, cs, start) a =
  (ss ++ imap (fun i _ => start + Zsum (take i (map f a))) a, cs ++ map f a, start + Zsum (map f a)).
Proof.
  revert ss cs start. induction a as [|x a IH]; intros ss cs start Hs Ha Hb.
  { simpl. by rewrite !app_nil_r, Z.add_0_r. }
  apply Forall_cons in Ha as [Hx Ha]. cbn [map Zsum foldr] in Hb. fold (Zsum (map f a)) in Hb.
  pose proof (Zsum_nonneg (map f a) ltac:(by apply Forall_map)).
  cbn [foldl]. rewrite u64_small, IH by (done || lia). rewrite imap_cons, <-!app_assoc.
  cbn [map Zsum foldr take app]. fold (Zsum (map f a)). rewrite Z.add_0_r, Z.add_assoc. do 4 f_equal.
  apply imap_ext. intros i y _. cbn. fold (Zsum (take i (map f a))). lia.
Qed.

Lemma Zsum_scale {X} (f : X -> Z) c l : Zsum (map (fun x => f x * c) l) = Zsum (map f l) * c.
Proof. induction l as [|x l IH]; simpl; [done|]. rewrite IH. lia. Qed.

Section starts.
Context (patch : list (list bool)) (rest : list Z) (nrows : Z).
Context (Hrest : Forall (fun d => 0 < d) rest) (Hbound : total_cnt patch * prodZ rest < 2 ^ 31) (Hdf : prodZ rest < 2 ^ 31).
Let df := prodZ rest.

Lemma cnt_scaled r : 0 <= cnt patch r * df < 2 ^ 31.
Proof.
  pose proof (cnt_nonneg patch r). pose proof (cnt_le_total patch r).
  pose proof (prodZ_ge1 rest Hrest). unfold df. nia.
Qed.

Lemma calc_pool multi g k p rs st :
  flat g = seq 0 (length patch) -> g !! k = Some (p, rs) -> pool_state multi patch g k p rs st ->
  calcVarStartsCounts st (nrows :: rest) =
    (imap (fun i _ => (cnt patch p + Zsum (take i (map (cnt patch) rs))) * df) rs,
     map (fun r => cnt patch r * df) rs, df).
Proof.
  intros Hf Hk Hst. pose proof (prodZ_ge1 rest Hrest) as Hpos. fold df in Hpos.
  pose proof (group_cnt_le_total patch g k (p, rs) Hf Hk) as Hle.
  unfold group_cnt in Hle. cbn [map fst snd Zsum foldr] in Hle. fold (Zsum (map (cnt patch) rs)) in Hle.
  assert (Hsum : 0 <= Zsum (map (cnt patch) rs)) by (apply Zsum_nonneg, Forall_map, Forall_true, cnt_nonneg).
  pose proof (cnt_scaled p) as Hp. pose proof (cnt_nonneg patch p).
  assert (Hcount : forall x, slice_count st df x = u64 (i64 (x.2 * df))).
  { intros x. unfold slice_count. rewrite (ps_rank_pool _ _ _ _ _ _ _ Hst). by destruct (Z.leb_spec 0 (Z.of_nat k)); [|lia]. }
  unfold calcVarStartsCounts. rewrite (ps_rank_pool _ _ _ _ _ _ _ Hst), (ps_patch_nlocs _ _ _ _ _ _ _ Hst),
    (ps_assignment _ _ _ _ _ _ _ Hst), dim_factor_spec by done. fold df.
  destruct (Z.leb_spec 0 (Z.of_nat k)); [|lia].
  rewrite (i32_small (cnt patch p)) by nia. rewrite i64_small, (u64_small (cnt patch p * df)) by lia.
  set (a := map (fun r => (r, cnt patch r)) rs).
  assert (Hfa : map (slice_count st df) a = map (fun r => cnt patch r * df) rs).
  { unfold a. rewrite map_map. apply map_ext. intros r. rewrite Hcount. simpl. pose proof (cnt_scaled r).
    rewrite i64_small, u64_small by lia. done. }
  assert (Hz : Zsum (map (slice_count st df) a) = Zsum (map (cnt patch) rs) * df) by (by rewrite Hfa, Zsum_scale).
  cbv zeta. rewrite (starts_fold (slice_count st df) a); cbn [app].
  - rewrite Hfa. do 2 f_equal. unfold a. change (map ?f rs) with (f <$> rs). rewrite imap_fmap.
    apply imap_ext. intros i r _. unfold compose.
    change (?f <$> rs) with (map f rs). rewrite !firstn_map, (Zsum_scale (cnt patch)). lia.
  - lia.
  - unfold a. apply Forall_map, Forall_true. intros r. rewrite Hcount. apply Z.mod_pos_bound. lia.
  - rewrite Hz. unfold df in *. nia.
Qed.

Lemma calc_other p r st :
  other_state patch p r st ->
  calcVarStartsCounts st (nrows :: rest) = ([0], [cnt patch r * df], df).
Proof.
  intros Hst. pose proof (cnt_scaled r) as Hr. pose proof (cnt_nonneg patch r). pose proof (prodZ_ge1 rest Hrest) as Hpos. fold df in Hpos.
  unfold calcVarStartsCounts, slice_count. rewrite (os_rank_pool _ _ _ _ Hst), (os_patch_nlocs _ _ _ _ Hst),
    (os_assignment _ _ _ _ Hst), dim_factor_spec by done. fold df. cbn [Z.leb Z.compare foldl app].
  rewrite i32_small by nia. by rewrite i64_small, u64_small by lia.
Qed.
End starts.

Lemma mapR_spec {A B} (f : A -> res B) (Q : nat -> A -> B -> Prop) l :
  (forall i x, l !! i = Some x -> exists y, f x = Ok y /\ Q i x y) ->
  exists ys, mapR f l = Ok ys /\ length ys = length l /\
    forall i x, l !! i = Some x -> exists y, ys !! i = Some y /\ Q i x y.
Proof.
  revert Q. induction l as [|x l IH]; intros Q Hf; [by exists []|].
  destruct (Hf 0%nat x eq_refl) as (y & Ey & Hy).
  destruct (IH (fun i => Q (S i))) as (ys & Eys & Hl & Hys); [intros i z Hz; by apply (Hf (S i))|].
  exists (y :: ys). simpl. rewrite Ey. cbn [mbind res_bind]. rewrite Eys. cbn [mbind res_bind].
  split; [done|]. split; [by rewrite Hl|]. intros [|i] z Hz; simplify_eq/=; eauto.
Qed.

Lemma write_range_app {A} (pre mid post d : list A) start :
  start = Z.of_nat (length pre) -> length d = length mid ->
  write_range (pre ++ mid ++ post) start d = Ok (pre ++ d ++ post).
Proof.
  intros -> Hl. unfold write_range. rewrite !length_app. destruct (Z.leb_spec (Z.of_nat (length pre) + Z.of_nat (length d))
    (Z.of_nat (length pre + (length mid + length post)))); [|lia].
  rewrite Nat2Z.id, take_app_length, Hl, drop_app_add'.
  - by rewrite drop_app_length.
  - done.
Qed.

(** * Blocks of a file *)


Lemma full_block_ok rest : Forall (fun d => 0 < d) rest ->
  Forall2 (fun '(s, c) n => 0 <= s /\ 0 <= c /\ s + c <= n) (zip_with pair (map (fun _ => 0) rest) rest) rest.
Proof. induction 1; simpl; constructor; [lia|done]. Qed.

(** Writing values of [T] at their place makes the contents agree with [T]. *)
Lemma store_at_agree {A} (T old data : list A) (off : Z) :
  0 <= off -> (forall j x, data !! j = Some x -> T !! (Z.to_nat off + j)%nat = Some x) ->
  let new := store_at old (seqZ off (Z.of_nat (length data))) data in
  length new = length old /\
  forall i, (i < length old)%nat ->
    old !! i = T !! i \/ off <= Z.of_nat i < off + Z.of_nat (length data) -> new !! i = T !! i.
Proof.
  revert old off. induction data as [|x data IH]; intros old off Ho HT; simpl.
  - unfold store_at. simpl. split; [done|]. intros i Hi [?|?]; [done|lia].
  - rewrite seqZ_cons by lia. unfold store_at. cbn [zip zip_with foldl]. replace (Z.pred (Z.of_nat (S (length data)))) with (Z.of_nat (length data)) by lia.
    fold (store_at (<[Z.to_nat off := x]> old) (seqZ (Z.succ off) (Z.of_nat (length data))) data).
    destruct (IH (<[Z.to_nat off := x]> old) (Z.succ off)) as [Hl Hi]; [lia| |].
    { intros j y Hy. rewrite <-(HT (S j) y Hy). f_equal. lia. }
    rewrite length_insert in *. split; [done|]. intros i Hlt Hor. apply Hi; [done|].
    destruct (decide (i = Z.to_nat off)) as [->|Hne].
    + left. rewrite list_lookup_insert_eq by done. symmetry. rewrite <-(HT 0%nat x eq_refl). f_equal. lia.
    + rewrite list_lookup_insert_ne by done. destruct Hor as [?|?]; [by left|right; lia].
Qed.

(** * The transfer brings every slice to its place *)
Section transfer_spec.
Context `{MpiP2PLaws} {A B : Type} (dflt : A).
Context (encode : Z -> list A -> res (list B)) (decode : Z -> list B -> res (list A)) (unit_size : nat).
Context (good : A -> Prop).
Context (codec : forall d, Forall good d -> exists w, encode (Z.of_nat (length d)) d = Ok w /\
  length w = (length d * unit_size)%nat /\ decode (Z.of_nat (length d)) w = Ok d).

Context (multi : bool) (patch : list (list bool)) (g : IoPoolGroupMap) (sts : list WriterPool).
Context (rest : list Z) (datas : list (list A)) (varNumber : nat).
Let df := Z.to_nat (prodZ rest).
Context (Hflat : flat g = seq 0 (length patch)) (Hlen : length sts = length patch).
Context (Hst : forall k p rs, g !! k = Some (p, rs) ->
  (exists st, sts !! p = Some st /\ pool_state multi patch g k p rs st) /\
  (forall r, r ∈ rs -> exists st, sts !! r = Some st /\ other_state patch p r st)).
Context (Hrest : Forall (fun d => 0 < d) rest) (Hdf : prodZ rest < 2 ^ 31)
  (Hbound : total_cnt patch * prodZ rest < 2 ^ 31).
Context (Hdatas : Forall2 (fun v d => length d = (length v * df)%nat /\ Z.of_nat (length d) < 2 ^ 64 /\ Forall good d)
  patch datas).

(** The patch values of a rank. *)
Definition rank_values (r : nat) : list A :=
  patch_values (default [] (patch !! r)) df (default [] (datas !! r)).

Definition transfer_args : list (WriterPool * list Z * list A) :=
  zip (zip sts (map (fun v => Z.of_nat (length v) :: rest) patch)) datas.

Lemma df_Z : Z.of_nat df = prodZ rest.
Proof. pose proof (prodZ_ge1 rest Hrest). unfold df. lia. Qed.

Lemma rank_data r : (r < length patch)%nat -> exists v d, patch !! r = Some v /\ datas !! r = Some d /\
  length d = (length v * df)%nat /\ Z.of_nat (length d) < 2 ^ 64 /\ Forall good d.
Proof.
  intros Hr. destruct (lookup_lt_is_Some_2 patch r Hr) as [v Hv].
  destruct (Forall2_lookup_l _ _ _ _ _ Hdatas Hv) as (d & Hd & ?). eauto 10.
Qed.

Lemma rank_values_length r : (r < length patch)%nat ->
  Z.of_nat (length (rank_values r)) = cnt patch r * prodZ rest.
Proof.
  intros Hr. destruct (rank_data r Hr) as (v & d & Hv & Hd & Hl & _ & _). unfold rank_values, cnt, patch_count.
  rewrite Hv, Hd. simpl. rewrite patch_values_length by done. rewrite <-df_Z. lia.
Qed.

Lemma rank_values_good r : (r < length patch)%nat -> Forall good (rank_values r).
Proof.
  intros Hr. destruct (rank_data r Hr) as (v & d & Hv & Hd & _ & _ & Hg). unfold rank_values. rewrite Hv, Hd. simpl.
  unfold patch_values. apply Forall_concat, Forall_map, Forall_true. intros i. by apply Forall_take, Forall_drop.
Qed.

(** Every rank is in a group. *)
Lemma rank_group r : (r < length patch)%nat -> exists k p rs, g !! k = Some (p, rs) /\ (r = p \/ r ∈ rs).
Proof.
  intros Hr. assert (Hin : r ∈ flat g) by (rewrite Hflat; apply elem_of_seq; lia).
  unfold flat in Hin. apply list_elem_of_In, in_concat in Hin as (l & Hl & Hil).
  apply in_map_iff in Hl as ([p rs] & <- & Hpr). apply list_elem_of_In, list_elem_of_lookup in Hpr as [k Hk].
  apply list_elem_of_In, elem_of_cons in Hil. eauto.
Qed.
Lemma group_lt k p rs r : g !! k = Some (p, rs) -> r ∈ p :: rs -> (r < length patch)%nat.
Proof. intros Hk Hr. pose proof (flat_elem g k p rs r Hk Hr) as Hp. rewrite Hflat, elem_of_seq in Hp. lia. Qed.

Lemma rank_state r : (r < length patch)%nat -> exists st, sts !! r = Some st /\
  patch !! r = Some (patch_obs_vec_ st) /\ rank_all_ st = r.
Proof.
  intros Hr. destruct (rank_group r Hr) as (k & p & rs & Hk & [->|Hin]); destruct (Hst k p rs Hk) as [H1 H2].
  - destruct H1 as (st & E & Hs). exists st. split; [done|]. split; apply Hs.
  - destruct (H2 r Hin) as (st & E & Hs). exists st. split; [done|]. split; apply Hs.
Qed.

Lemma args_lookup r x : transfer_args !! r = Some x -> (r < length patch)%nat /\
  exists st v d, x = (st, Z.of_nat (length v) :: rest, d) /\ sts !! r = Some st /\ patch !! r = Some v /\ datas !! r = Some d.
Proof.
  unfold transfer_args. rewrite !lookup_zip_with, list_lookup_fmap.
  destruct (sts !! r) as [st|] eqn:E1; [|done]. destruct (patch !! r) as [v|] eqn:E2; [|done].
  destruct (datas !! r) as [d|] eqn:E3; [|done]. cbn. intros [= <-].
  split; [by eapply lookup_lt_Some|]. eauto 10.
Qed.

Definition rank_dims (r : nat) : list Z := Z.of_nat (length (default [] (patch !! r))) :: rest.
Definition the_state (r : nat) (st : WriterPool) : Prop := sts !! r = Some st.

Lemma dim_factor_calc st n : (calcVarStartsCounts st (n :: rest)).2 = prodZ rest.
Proof.
  unfold calcVarStartsCounts. rewrite dim_factor_spec by done.
  by destruct (foldl _ _ _) as [[? ?] ?].
Qed.

Lemma locals_spec :
  exists locals, mapR (fun '(ioPool, srcDims, totalVarData) => local_part ioPool srcDims totalVarData) transfer_args = Ok locals /\
    length locals = length patch /\
    forall r, (r < length patch)%nat -> exists st, sts !! r = Some st /\
      locals !! r = Some (st, rank_dims r, calcVarStartsCounts st (rank_dims r), rank_values r).
Proof.
  destruct (mapR_spec (fun '(ioPool, srcDims, totalVarData) => local_part ioPool srcDims totalVarData)
    (fun r _ y => exists st, sts !! r = Some st /\
      y = (st, rank_dims r, calcVarStartsCounts st (rank_dims r), rank_values r)) transfer_args) as (locals & E & Hl & Hlk).
  - intros r x Hx. destruct (args_lookup r x Hx) as (Hr & st & v & d & -> & Est & Ev & Ed).
    destruct (rank_state r Hr) as (st' & Est' & Ep & _). rewrite Est in Est'. injection Est' as <-.
    destruct (rank_data r Hr) as (v' & d' & Ev' & Ed' & Hld & Hbd & _). rewrite Ev in Ev', Ep. rewrite Ed in Ed'.
    injection Ev' as <-. injection Ed' as <-. injection Ep as Ep.
    eexists. split; [|eauto]. unfold local_part. rewrite dim_factor_calc, <-df_Z, <-Ep, selectPatchValues_spec; [|done|done|].
    + cbn [mbind res_bind]. unfold rank_dims, rank_values. by rewrite Ev, Ed.
    + rewrite df_Z. lia.
  - assert (Hla : length transfer_args = length patch).
    { unfold transfer_args. rewrite !length_zip_with, length_map, <-(Forall2_length _ _ _ Hdatas). lia. }
    exists locals. split; [done|]. split; [lia|]. intros r Hr.
    destruct (lookup_lt_is_Some_2 transfer_args r ltac:(lia)) as [x Hx].
    destruct (Hlk r x Hx) as (y & Ey & st & Est & ->). eauto.
Qed.

(** The message a rank outside the pool sends. *)
Definition sent_message (p r : nat) (w : list B) : Prop :=
  length w = (length (rank_values r) * unit_size)%nat /\
  decode (Z.of_nat (length (rank_values r))) w = Ok (rank_values r).

Lemma send_data_spec p r st :
  (r < length patch)%nat -> other_state patch p r st ->
  exists w, send_data encode varNumber st [0] [cnt patch r * prodZ rest] (rank_values r) =
    Ok [Build_Message r p (var_tag varNumber r) w] /\ sent_message p r w.
Proof.
  intros Hr Hs. destruct (codec (rank_values r) (rank_values_good r Hr)) as (w & Ew & Hw & Hd).
  exists w. split; [|done]. unfold send_data. rewrite (os_assignment _ _ _ _ Hs), (os_rank _ _ _ _ Hs).
  rewrite <-(rank_values_length r Hr). unfold imapR, vec_get, read_range. cbn. rewrite Z.leb_refl. cbn.
  rewrite Nat2Z.id, drop_0, take_ge, Ew by done. done.
Qed.

Definition send_step (x : WriterPool * list Z * (list Z * list Z * Z) * list A) : res (list (Message B)) :=
  let '(ioPool, srcDims, (varStarts, varCounts, dimFactor), varData) := x in
  if 0 <=? rank_pool_ ioPool then Ok []
  else send_data encode varNumber ioPool varStarts varCounts varData.

Lemma sent_spec locals :
  length locals = length patch ->
  (forall r, (r < length patch)%nat -> exists st, sts !! r = Some st /\
      locals !! r = Some (st, rank_dims r, calcVarStartsCounts st (rank_dims r), rank_values r)) ->
  exists sent, mapR send_step locals = Ok sent /\ length sent = length patch /\
    forall k p rs, g !! k = Some (p, rs) -> sent !! p = Some [] /\
      forall r, r ∈ rs -> exists w, sent !! r = Some [Build_Message r p (var_tag varNumber r) w] /\ sent_message p r w.
Proof.
  intros Hll Hloc.
  destruct (mapR_spec send_step (fun r _ y => forall k p rs, g !! k = Some (p, rs) ->
      (r = p -> y = []) /\ (r ∈ rs -> exists w, y = [Build_Message r p (var_tag varNumber r) w] /\ sent_message p r w))
    locals) as (sent & E & Hl & Hlk).
  - intros r x Hx. assert (Hr : (r < length patch)%nat) by (apply lookup_lt_Some in Hx; lia).
    destruct (Hloc r Hr) as (st & Est & Ex). rewrite Hx in Ex. injection Ex as ->.
    destruct (rank_group r Hr) as (k & p & rs & Hk & Hrp).
    assert (Huniq : forall k' p' rs', g !! k' = Some (p', rs') -> r ∈ p' :: rs' -> p' = p /\ rs' = rs).
    { intros k' p' rs' Hk' Hr'. assert (k' = k) as ->; [|by simplify_eq].
      eapply group_unique; [rewrite Hflat; apply NoDup_seq|done|done|done|]. destruct Hrp as [->|?]; [left|by right]. }
    assert (Hnot : r ∈ rs -> r <> p).
    { intros Hin ->. eapply flat_not_key; [rewrite Hflat; apply NoDup_seq|done|done|].
      apply list_elem_of_fmap. exists (p, rs). split; [done|]. by eapply list_elem_of_lookup_2. }
    unfold send_step. destruct (Hst k p rs Hk) as [(stp & Ep & Hp) Ho].
    destruct Hrp as [->|Hin].
    + rewrite Est in Ep. injection Ep as <-. destruct (calcVarStartsCounts st (rank_dims p)) as [[ss cs] f].
      rewrite (ps_rank_pool _ _ _ _ _ _ _ Hp). destruct (Z.leb_spec 0 (Z.of_nat k)); [|lia].
      exists []. split; [done|]. intros k' p' rs' Hk'. split; [done|]. intros Hin.
      destruct (Huniq k' p' rs' Hk') as [_ ->]; [by right|]. by destruct (Hnot Hin).
    + destruct (Ho r Hin) as (sto & Eo & Hso). rewrite Est in Eo. injection Eo as <-.
      unfold rank_dims at 1. rewrite (calc_other patch rest _ Hrest Hbound Hdf p r st Hso).
      rewrite (os_rank_pool _ _ _ _ Hso). cbn [Z.leb Z.compare].
      destruct (send_data_spec p r st Hr Hso) as (w & Ew & Hw). exists [Build_Message r p (var_tag varNumber r) w].
      split; [done|]. intros k' p' rs' Hk'. split.
      * intros ->. destruct (Huniq k' p' rs' Hk') as [-> _]; [left|]. by destruct (Hnot Hin).
      * intros Hin'. destruct (Huniq k' p' rs' Hk') as [-> _]; [by right|]. eauto.
  - exists sent. split; [done|]. split; [lia|]. intros k p rs Hk.
    assert (Hat : forall r, (r < length patch)%nat -> exists x, locals !! r = Some x).
    { intros r Hr. destruct (Hloc r Hr) as (st & _ & ->). eauto. }
    split; [|intros r Hin].
    + destruct (Hat p) as [x Hx]; [by eapply group_lt; [|left]|].
      destruct (Hlk p x Hx) as (y & -> & Hy). by rewrite (proj1 (Hy k p rs Hk) eq_refl).
    + destruct (Hat r) as [x Hx]; [by eapply group_lt; [|right]|].
      destruct (Hlk r x Hx) as (y & -> & Hy). destruct (proj2 (Hy k p rs Hk) Hin) as (w & -> & Hw). eauto.
Qed.

Lemma receive_one sent k p rs r :
  length sent = length patch ->
  (forall k p rs, g !! k = Some (p, rs) -> sent !! p = Some [] /\
      forall r, r ∈ rs -> exists w, sent !! r = Some [Build_Message r p (var_tag varNumber r) w] /\ sent_message p r w) ->
  g !! k = Some (p, rs) -> r ∈ rs ->
  exists w, comm_receive (concat sent) p r (var_tag varNumber r) (length (rank_values r) * unit_size)%nat = Ok w /\
    decode (Z.of_nat (length (rank_values r))) w = Ok (rank_values r).
Proof.
  intros Hls Hsent Hk Hr. destruct (Hsent k p rs Hk) as [_ Hrs]. destruct (Hrs r Hr) as (w & Ew & Hw & Hd).
  exists w. split; [|done].
  assert (Hr' : (r < length patch)%nat) by (by eapply group_lt; [|right]).
  assert (Hc : concat sent = concat (map (fun i => default [] (sent !! i)) (seq 0 (length patch)))).
  { f_equal. apply list_eq. intros i. rewrite list_lookup_fmap. destruct (decide (i < length patch)%nat) as [Hi|Hi].
    - rewrite lookup_seq_lt by done. destruct (lookup_lt_is_Some_2 sent i ltac:(lia)) as [x Hx]. simpl. by rewrite Hx.
    - rewrite lookup_seq_ge, lookup_ge_None_2 by lia. done. }
  assert (Hf : List.filter (m_matches p r (var_tag varNumber r)) (concat sent) = [Build_Message r p (var_tag varNumber r) w]).
  { rewrite Hc, (filter_concat_unique _ _ _ r); [|apply NoDup_seq|apply elem_of_seq; lia|].
    - rewrite Ew. cbn [default from_option id]. unfold List.filter, m_matches. cbn [m_src m_dst m_tag].
      by rewrite !Nat.eqb_refl.
    - intros x Hx%elem_of_seq Hne. destruct (rank_group x ltac:(lia)) as (k' & p' & rs' & Hk' & Hxp).
      destruct (Hsent k' p' rs' Hk') as [Hp' Hr'']. destruct Hxp as [->|Hxr]; [by rewrite Hp'|].
      destruct (Hr'' x Hxr) as (w' & -> & _). cbn [default from_option id]. unfold List.filter, m_matches.
      cbn [m_src m_dst m_tag]. by destruct (Nat.eqb_spec x r). }
  by rewrite (receive_law _ _ _ _ _ _ _ Hf) by done.
Qed.

Lemma values_length l : Forall (fun r => (r < length patch)%nat) l ->
  Z.of_nat (length (concat (map rank_values l))) = Zsum (map (cnt patch) l) * prodZ rest.
Proof.
  induction 1 as [|r l Hr _ IH]; [done|]. cbn [map concat Zsum foldr]. rewrite length_app, Nat2Z.inj_add, IH.
  rewrite rank_values_length by done. fold (Zsum (map (cnt patch) l)). lia.
Qed.

Lemma group_values_length k p rs : g !! k = Some (p, rs) ->
  Z.of_nat (length (concat (map rank_values (p :: rs)))) = group_cnt patch (p, rs) * prodZ rest.
Proof.
  intros Hk. assert (Hlt : Forall (fun r => (r < length patch)%nat) (p :: rs)).
  { apply list.Forall_forall. intros r Hr. by eapply group_lt. }
  by apply values_length.
Qed.

Lemma receive_data_spec sent k p rs st :
  length sent = length patch ->
  (forall k p rs, g !! k = Some (p, rs) -> sent !! p = Some [] /\
      forall r, r ∈ rs -> exists w, sent !! r = Some [Build_Message r p (var_tag varNumber r) w] /\ sent_message p r w) ->
  g !! k = Some (p, rs) -> pool_state multi patch g k p rs st ->
  let '(starts, counts, _) := calcVarStartsCounts st (rank_dims p) in
  receive_data decode unit_size varNumber st starts counts (concat sent)
    (vec_resize (Z.to_nat (u64 (i64 (i32 (total_nlocs_ st) * prodZ rest)))) dflt (rank_values p)) =
  Ok (concat (map rank_values (p :: rs))).
Proof.
  intros Hls Hsent Hk Hs. unfold rank_dims. rewrite (calc_pool patch rest _ Hrest Hbound Hdf multi g k p rs st Hflat Hk Hs).
  pose proof (group_values_length k p rs Hk) as Hgl.
  pose proof (group_cnt_le_total patch g k (p, rs) Hflat Hk) as Hle. pose proof (group_cnt_nonneg patch (p, rs)).
  pose proof (prodZ_ge1 rest Hrest) as Hpos.
  rewrite (ps_total _ _ _ _ _ _ _ Hs), (i32_small (group_cnt patch (p, rs))) by nia.
  rewrite i64_small, u64_small, <-Hgl, Nat2Z.id by nia.
  cbn [map concat]. rewrite length_app. unfold vec_resize.
  rewrite take_ge by lia.
  replace (length (rank_values p) + length (concat (map rank_values rs)) - length (rank_values p))%nat
    with (length (concat (map rank_values rs))) by lia.
  unfold receive_data. rewrite (ps_rank _ _ _ _ _ _ _ Hs), (ps_assignment _ _ _ _ _ _ _ Hs).
  set (starts := imap _ rs). set (counts := map _ rs).
  assert (Hloop : forall rs2 rs1, rs = rs1 ++ rs2 ->
    foldM (fun varData '(i, (fromRank, _)) =>
        start ← vec_get starts i;
        count ← vec_get counts i;
        d ← comm_receive (concat sent) p fromRank (var_tag varNumber fromRank) (Z.to_nat count * unit_size)%nat;
        d ← decode count d;
        write_range varData start d)
      ((rank_values p ++ concat (map rank_values rs1)) ++ replicate (length (concat (map rank_values rs2))) dflt)
      (imap (fun i a => ((length rs1 + i)%nat, a)) (map (fun r => (r, cnt patch r)) rs2)) =
    Ok (rank_values p ++ concat (map rank_values rs))).
  { induction rs2 as [|r rs2 IH]; intros rs1 Hrs.
    - simpl. by rewrite app_nil_r, Hrs, app_nil_r.
    - assert (Hat : rs !! length rs1 = Some r) by (rewrite Hrs; by apply list_lookup_middle).
      assert (Hrin : r ∈ rs) by (by eapply list_elem_of_lookup_2).
      assert (Hr : (r < length patch)%nat) by (by eapply group_lt; [|right]).
      destruct (receive_one sent k p rs r Hls Hsent Hk Hrin) as (w & Ew & Ed).
      assert (Es : starts !! length rs1 = Some (Z.of_nat (length (rank_values p ++ concat (map rank_values rs1))))).
      { unfold starts. rewrite list_lookup_imap, Hat. cbn [fmap option_fmap option_map]. f_equal.
        rewrite firstn_map, Hrs, take_app_length.
        assert (Hlt : Forall (fun r => (r < length patch)%nat) (p :: rs1)).
        { apply list.Forall_forall. intros x Hx. eapply group_lt; [done|]. rewrite Hrs.
          apply elem_of_cons in Hx as [->|Hx]; [left|]. right. apply elem_of_app. by left. }
        pose proof (values_length (p :: rs1) Hlt) as Hvl. cbn [map concat Zsum foldr] in Hvl. by rewrite Hvl. }
      assert (Ec : counts !! length rs1 = Some (Z.of_nat (length (rank_values r)))).
      { unfold counts. rewrite list_lookup_fmap, Hat. cbn. by rewrite rank_values_length. }
      cbn [map]. rewrite imap_cons. cbn [foldM]. rewrite Nat.add_0_r, (vec_get_Some starts _ _ Es). cbn [mbind res_bind].
      rewrite (vec_get_Some counts _ _ Ec). cbn [mbind res_bind]. rewrite Nat2Z.id, Ew. cbn [mbind res_bind].
      rewrite Ed. cbn [mbind res_bind]. cbn [concat]. rewrite (length_app (rank_values r)), replicate_add.
      rewrite write_range_app by (rewrite ?length_replicate; done). cbn [mbind res_bind].
      rewrite app_assoc. specialize (IH (rs1 ++ [r])). rewrite map_app, concat_app in IH. cbn [map concat] in IH.
      rewrite app_nil_r, app_assoc in IH. rewrite <-IH by (by rewrite <-app_assoc). f_equal.
      apply imap_ext. intros i x _. unfold compose. rewrite length_app. simpl. f_equal. lia. }
  specialize (Hloop rs [] eq_refl). cbn [map concat length Nat.add] in Hloop. rewrite app_nil_r in Hloop. exact Hloop.
Qed.

(** The write that the k-th rank of the pool issues. *)
Definition parallel : bool := negb multi && (1 <? Z.of_nat (length g)).
Definition group_start (k : nat) : Z := Zsum (map (group_cnt patch) (take k g)).
Definition group_values (kv : nat * list nat) : list A := concat (map rank_values (kv.1 :: kv.2)).
Definition group_op (k : nat) (kv : nat * list nat) : WriteOp A :=
  let data := group_values kv in
  let n := group_cnt patch kv in
  if parallel then
    Build_WriteOp (total_cnt patch :: rest)
      (Some (set_block (n :: rest) (0 :: map (fun _ => 0) rest) (n :: rest),
             set_block (total_cnt patch :: rest) (group_start k :: map (fun _ => 0) rest) (n :: rest))) data
  else Build_WriteOp (n :: rest) None data.

Lemma group_start_bound k kv : g !! k = Some kv ->
  0 <= group_start k /\ group_start k + group_cnt patch kv <= total_cnt patch.
Proof.
  intros Hk. unfold group_start. rewrite (total_cnt_flat patch g Hflat). rewrite <-(take_drop_middle g k kv Hk) at 3.
  rewrite map_app, Zsum_app. cbn [map Zsum foldr]. fold (Zsum (map (group_cnt patch) (drop (S k) g))).
  assert (Hnn : forall l, 0 <= Zsum (map (group_cnt patch) l))
    by (intros l; apply Zsum_nonneg, Forall_map, Forall_true; intros; apply group_cnt_nonneg).
  pose proof (Hnn (take k g)). pose proof (Hnn (drop (S k) g)). lia.
Qed.

Lemma replicate_map_const {X Y} (y : Y) (l : list X) : replicate (length l) y = map (fun _ => y) l.
Proof. induction l; simpl; f_equal; auto. Qed.

Lemma write_op_spec k p rs st :
  g !! k = Some (p, rs) -> pool_state multi patch g k p rs st ->
  (destDims ← created_dims (poolNlocs (is_parallel_io_ st) st) (rank_dims p);
   write_op (is_parallel_io_ st) st destDims (concat (map rank_values (p :: rs)))) = Ok (group_op k (p, rs)).
Proof.
  intros Hk Hs. pose proof (group_start_bound k (p, rs) Hk) as Hb. pose proof (group_cnt_nonneg patch (p, rs)).
  pose proof (prodZ_ge1 rest Hrest). assert (total_cnt patch < 2 ^ 31) by nia.
  unfold group_op, created_dims, poolNlocs, write_op. fold parallel.
  rewrite (ps_parallel _ _ _ _ _ _ _ Hs), (ps_global _ _ _ _ _ _ _ Hs), (ps_total _ _ _ _ _ _ _ Hs),
    (ps_start _ _ _ _ _ _ _ Hs), <-(total_cnt_flat patch g Hflat). fold parallel. fold (group_start k).
  destruct parallel.
  - rewrite !(i32_small (total_cnt patch)) by lia. rewrite !(i32_small (group_cnt patch (p, rs))) by lia.
    rewrite (i32_small (group_start k)) by lia. destruct (Z.leb_spec 0 (total_cnt patch)); [|lia].
    unfold createBlockSelection, rank_dims, vec_set. cbn. rewrite <-replicate_map_const. done.
  - rewrite !(i32_small (group_cnt patch (p, rs))) by lia. destruct (Z.leb_spec 0 (group_cnt patch (p, rs))); [|lia].
    done.
Qed.

Lemma transfer_outs :
  transfer dflt encode decode unit_size varNumber transfer_args =
    Ok (concat (imap (fun k kv => Some (group_op k kv) :: replicate (length kv.2) None) g)).
Proof.
  unfold transfer. destruct locals_spec as (locals & -> & Hll & Hloc). cbn [mbind res_bind].
  destruct (sent_spec locals Hll Hloc) as (sent & Esent & Hls & Hsent). unfold send_step in Esent. rewrite Esent.
  cbn [mbind res_bind]. set (f := fun x => _).
  destruct (mapR_spec f (fun r _ y => forall k p rs, g !! k = Some (p, rs) ->
    (r = p -> y = Some (group_op k (p, rs))) /\ (r ∈ rs -> y = None)) locals) as (outs & -> & Hlo & Hout).
  - intros r x Hx. assert (Hr : (r < length patch)%nat) by (apply lookup_lt_Some in Hx; lia).
    destruct (Hloc r Hr) as (st & Est & Ex). rewrite Hx in Ex. injection Ex as ->.
    destruct (rank_group r Hr) as (k & p & rs & Hk & Hrp).
    assert (Huniq : forall k' p' rs', g !! k' = Some (p', rs') -> r ∈ p' :: rs' -> k' = k).
    { intros k' p' rs' Hk' Hr'. eapply group_unique; [rewrite Hflat; apply NoDup_seq|done|done|done|].
      destruct Hrp as [->|?]; [left|by right]. }
    assert (Hnot : r ∈ rs -> r <> p).
    { intros Hin ->. eapply flat_not_key; [rewrite Hflat; apply NoDup_seq|done|done|].
      apply list_elem_of_fmap. exists (p, rs). split; [done|]. by eapply list_elem_of_lookup_2. }
    destruct (Hst k p rs Hk) as [(stp & Ep & Hp) Ho]. destruct Hrp as [->|Hin].
    + rewrite Est in Ep. injection Ep as <-. unfold f.
      pose proof (receive_data_spec sent k p rs st Hls Hsent Hk Hp) as Hrecv.
      pose proof (dim_factor_calc st (Z.of_nat (length (default [] (patch !! p))))) as Hdfc. fold (rank_dims p) in Hdfc.
      destruct (calcVarStartsCounts st (rank_dims p)) as [[ss cs] fac]. simpl in Hdfc. subst fac.
      rewrite (ps_rank_pool _ _ _ _ _ _ _ Hp). destruct (Z.leb_spec 0 (Z.of_nat k)); [|lia].
      rewrite Hrecv. cbn [mbind res_bind]. pose proof (write_op_spec k p rs st Hk Hp) as Hw.
      destruct (created_dims _ _) as [dd|]; [|done]. cbn [mbind res_bind] in Hw |- *. rewrite Hw. cbn [mbind res_bind].
      eexists. split; [reflexivity|]. intros k' p' rs' Hk'. split.
      * intros ->. assert (k' = k) as -> by (by eapply Huniq; [|left]). by simplify_eq.
      * intros Hin. assert (k' = k) as -> by (by eapply Huniq; [|right]). simplify_eq. by destruct (Hnot Hin).
    + destruct (Ho r Hin) as (sto & Eo & Hso). rewrite Est in Eo. injection Eo as <-. unfold f.
      destruct (calcVarStartsCounts st (rank_dims r)) as [[ss cs] fac].
      rewrite (os_rank_pool _ _ _ _ Hso). cbn [Z.leb Z.compare].
      eexists. split; [reflexivity|]. intros k' p' rs' Hk'. split; [|done].
      intros ->. assert (k' = k) as -> by (by eapply Huniq; [|left]). simplify_eq. by destruct (Hnot Hin).
  - f_equal. apply by_groups; [rewrite Hlo, Hll; done|]. intros k p rs Hk.
    assert (Hat : forall r, (r < length patch)%nat -> exists x, locals !! r = Some x).
    { intros r Hr. destruct (Hloc r Hr) as (st & _ & ->). eauto. }
    cbn [map snd].
    destruct (Hat p) as [x Hx]; [by eapply group_lt; [|left]|].
    destruct (Hout p x Hx) as (y & -> & Hy). rewrite (proj1 (Hy k p rs Hk) eq_refl). f_equal.
    apply map_lookup_const. intros r Hin. destruct (Hat r) as [x' Hx']; [by eapply group_lt; [|right]|].
    destruct (Hout r x' Hx') as (y' & -> & Hy'). by rewrite (proj2 (Hy' k p rs Hk) Hin).
Qed.

(** What is to be written: the patch values of all ranks, in the order of the ranks. *)
Definition all_values : list A := concat (map rank_values (seq 0 (length patch))).

Lemma group_op_data k kv : w_data (group_op k kv) = group_values kv.
Proof. unfold group_op. by destruct parallel. Qed.

Lemma groups_values (h : IoPoolGroupMap) : concat (map group_values h) = concat (map rank_values (flat h)).
Proof.
  induction h as [|[p rs] h IH]; [done|]. change (flat ((p, rs) :: h)) with ((p :: rs) ++ flat h).
  rewrite map_app, concat_app, <-IH. done.
Qed.

Lemma ops_values : concat (map w_data (imap group_op g)) = all_values.
Proof.
  unfold all_values. rewrite <-Hflat, <-groups_values. f_equal.
  change (map w_data (imap group_op g)) with (w_data <$> imap group_op g). rewrite fmap_imap, <-imap_map_const.
  apply imap_ext. intros k kv _. apply group_op_data.
Qed.

Lemma all_values_length : Z.of_nat (length all_values) = total_cnt patch * prodZ rest.
Proof.
  unfold all_values. rewrite values_length by (apply Forall_seq; intros; lia).
  rewrite <-Hflat. f_equal. rewrite (total_cnt_flat patch g Hflat). unfold flat. clear.
  induction g as [|[p rs] g' IH]; [done|]. cbn [map concat]. rewrite map_app, Zsum_app, IH. done.
Qed.

Lemma prefix_length k : Z.of_nat (length (concat (map group_values (take k g)))) = group_start k * prodZ rest.
Proof.
  rewrite groups_values, values_length.
  - f_equal. unfold group_start, flat. generalize (take k g). intros h. clear.
    induction h as [|[p rs] h IH]; [done|]. cbn [map concat]. by rewrite map_app, Zsum_app, IH.
  - apply list.Forall_forall. intros r Hr. assert (Hin : r ∈ flat g).
    { rewrite <-(take_drop k g), flat_app. apply elem_of_app. by left. }
    rewrite Hflat, elem_of_seq in Hin. lia.
Qed.

(** Position of the values of the k-th group. *)
Lemma op_position k kv j x : g !! k = Some kv -> group_values kv !! j = Some x ->
  all_values !! (Z.to_nat (group_start k * prodZ rest) + j)%nat = Some x.
Proof.
  intros Hk Hx. pose proof (prefix_length k) as Hl. unfold all_values. rewrite <-Hflat, <-groups_values.
  rewrite <-(take_drop_middle g k kv Hk) at 1. rewrite map_app, concat_app, <-Hl, Nat2Z.id.
  rewrite lookup_app_r by lia. replace (_ + j - _)%nat with j by lia. cbn [map concat].
  apply lookup_app_l_Some. done.
Qed.

(** ** The files *)
Context `{FileLaws}.

Lemma group_values_nat k kv : g !! k = Some kv ->
  Z.of_nat (length (group_values kv)) = group_cnt patch kv * prodZ rest.
Proof. intros Hk. destruct kv as [p rs]. by apply (group_values_length k). Qed.

(** One file per rank of the pool. *)
Lemma write_multiple k kv old : parallel = false -> g !! k = Some kv ->
  apply_write old (group_op k kv) = Ok (group_values kv).
Proof.
  intros Hp Hk. unfold apply_write, group_op. rewrite Hp. cbn [w_selects w_dims w_data].
  apply file_write_law. rewrite (group_values_nat k kv Hk). done.
Qed.

(** One file for all: a write only puts values where they belong. *)
Lemma write_parallel k kv old : parallel = true -> g !! k = Some kv -> length old = length all_values ->
  exists new, apply_write old (group_op k kv) = Ok new /\ length new = length old /\
    forall i, (i < length old)%nat -> old !! i = all_values !! i \/
      (Z.to_nat (group_start k * prodZ rest) <= i < Z.to_nat (group_start k * prodZ rest) + length (group_values kv))%nat ->
      new !! i = all_values !! i.
Proof.
  intros Hp Hk Hold. pose proof (group_start_bound k kv Hk) as Hb. pose proof (group_cnt_nonneg patch kv).
  pose proof (prodZ_ge1 rest Hrest). pose proof (group_values_nat k kv Hk) as Hgv.
  unfold apply_write, group_op. rewrite Hp. cbn [w_selects w_dims w_data].
  assert (Hz : 0 :: map (fun _ : Z => 0) rest = replicate (length (group_cnt patch kv :: rest)) 0)
    by (simpl; by rewrite replicate_map_const).
  rewrite Hz. rewrite file_parallelWrite_law.
  - rewrite block_positions_spec, <-Hgv by done.
    destruct (store_at_agree all_values old (group_values kv) (group_start k * prodZ rest)) as [Hl Hi]; [nia| |].
    { intros j x Hx. by apply (op_position k kv). }
    eexists. split; [reflexivity|]. split; [done|]. intros i Hlt Hor. apply Hi; [done|].
    destruct Hor as [?|?]; [by left|right; nia].
  - simpl. by rewrite length_map.
  - cbn [zip zip_with]. constructor; [lia|]. by apply full_block_ok.
  - done.
  - rewrite Hgv. done.
  - rewrite Hold, all_values_length. done.
Qed.

Lemma writes_parallel (ks : list (nat * (nat * list nat))) old :
  parallel = true -> length old = length all_values ->
  Forall (fun '(k, kv) => g !! k = Some kv) ks ->
  exists new, foldM apply_write old (map (fun '(k, kv) => group_op k kv) ks) = Ok new /\ length new = length all_values /\
    forall i, (i < length all_values)%nat ->
      (old !! i = all_values !! i \/ exists k kv, (k, kv) ∈ ks /\
        (Z.to_nat (group_start k * prodZ rest) <= i < Z.to_nat (group_start k * prodZ rest) + length (group_values kv))%nat) ->
      new !! i = all_values !! i.
Proof.
  intros Hp. revert old. induction ks as [|[k kv] ks IH]; intros old Hold Hks.
  - exists old. split; [done|]. split; [done|]. intros i _ [?|(k & kv & Hin & _)]; [done|by apply elem_of_nil in Hin].
  - apply Forall_cons in Hks as [Hk Hks]. cbn [map foldM].
    destruct (write_parallel k kv old Hp Hk Hold) as (mid & -> & Hlm & Hm). cbn [mbind res_bind].
    destruct (IH mid ltac:(lia) Hks) as (new & -> & Hln & Hn). exists new. split; [done|]. split; [done|].
    intros i Hi Hor. apply Hn; [done|]. destruct Hor as [Ho|(k' & kv' & [E|Hin]%elem_of_cons & Hr)].
    + left. apply Hm; [lia|by left].
    + injection E as -> ->. left. apply Hm; [lia|by right].
    + right. eauto.
Qed.

(** Every position belongs to a group. *)
Lemma position_group i : (i < length all_values)%nat -> exists k kv, g !! k = Some kv /\
  (Z.to_nat (group_start k * prodZ rest) <= i < Z.to_nat (group_start k * prodZ rest) + length (group_values kv))%nat.
Proof.
  intros Hi.
  assert (Hex : forall h : IoPoolGroupMap, (i < length (concat (map group_values h)))%nat -> exists k kv, h !! k = Some kv /\
    (length (concat (map group_values (take k h))) <= i < length (concat (map group_values (take k h))) + length (group_values kv))%nat).
  { clear. induction h as [|kv h IH] using rev_ind; intros Hi; [simpl in Hi; lia|].
    rewrite map_app, concat_app, length_app in Hi. cbn [map concat] in Hi. rewrite app_nil_r in Hi.
    destruct (decide (i < length (concat (map group_values h)))%nat) as [Hlt|Hge].
    - destruct (IH Hlt) as (k & kv' & Hk & Hr). exists k, kv'. split; [by apply lookup_app_l_Some|].
      rewrite take_app_le by (apply lookup_lt_Some in Hk; lia). done.
    - exists (length h), kv. split; [by apply list_lookup_middle|]. rewrite take_app_length. lia. }
  unfold all_values in Hi. rewrite <-Hflat, <-groups_values in Hi. destruct (Hex g Hi) as (k & kv & Hk & Hr).
  exists k, kv. split; [done|].
  assert (Hl : Z.of_nat (length (concat (map group_values (take k g)))) = group_start k * prodZ rest)
    by (by apply prefix_length). lia.
Qed.

Lemma writes_parallel_all ks old :
  parallel = true -> length old = length all_values -> ks ≡ₚ imap (fun k kv => (k, kv)) g ->
  foldM apply_write old (map (fun '(k, kv) => group_op k kv) ks) = Ok all_values.
Proof.
  intros Hp Hold Hperm.
  assert (Hin : forall k kv, (k, kv) ∈ ks <-> g !! k = Some kv).
  { intros k kv. rewrite Hperm, elem_of_lookup_imap. naive_solver. }
  destruct (writes_parallel ks old Hp Hold) as (new & -> & Hl & Hn).
  { apply list.Forall_forall. intros [k kv]. apply Hin. }
  f_equal. apply list_eq. intros i. destruct (decide (i < length all_values)%nat) as [Hi|Hi].
  - apply Hn; [done|]. right. destruct (position_group i Hi) as (k & kv & Hk & Hr). exists k, kv.
    split; [by apply Hin|done].
  - rewrite !lookup_ge_None_2 by lia. done.
Qed.
End transfer_spec.

(** * Strings as records *)

Definition no_nul (s : string) : Prop := Forall (fun c => c <> nul) (String.list_ascii_of_string s).
Definition pad (max : nat) (s : string) : list Ascii.ascii :=
  String.list_ascii_of_string s ++ replicate (max - String.length s) nul.

Lemma list_ascii_length s : length (String.list_ascii_of_string s) = String.length s.
Proof. induction s; simpl; auto. Qed.

Lemma pad_length max s : (String.length s <= max)%nat -> length (pad max s) = max.
Proof. intros Hs. unfold pad. rewrite length_app, length_replicate, list_ascii_length. lia. Qed.

Lemma find_nul_pad s l : no_nul s -> find_nul (String.list_ascii_of_string s ++ nul :: l) = Some (String.list_ascii_of_string s).
Proof.
  unfold no_nul. generalize (String.list_ascii_of_string s). induction 1 as [|c cs Hc _ IH]; [done|]. cbn [app find_nul].
  destruct (Ascii.eqb_spec c nul); [done|]. by rewrite IH.
Qed.

Lemma write_chars off (pre mid post cs : list Ascii.ascii) :
  off = length pre -> length mid = length cs ->
  foldM (fun buf '(j, c) => vec_set buf (off + j)%nat c) (pre ++ mid ++ post) (imap (fun j c => (j, c)) cs) =
  Ok (pre ++ cs ++ post).
Proof.
  intros -> Hm.
  assert (Hgo : forall cs2 cs1 mid2, length mid2 = length cs2 ->
    foldM (fun buf '(j, c) => vec_set buf (length pre + j)%nat c) (pre ++ cs1 ++ mid2 ++ post)
      (imap (fun j c => ((length cs1 + j)%nat, c)) cs2) = Ok (pre ++ (cs1 ++ cs2) ++ post)).
  { induction cs2 as [|c cs2 IH]; intros cs1 [|m mid2] Hl; try done.
    - simpl. by rewrite app_nil_r.
    - injection Hl as Hl. rewrite imap_cons. cbn [foldM]. rewrite Nat.add_0_r.
      assert (Hset : vec_set (pre ++ cs1 ++ (m :: mid2) ++ post) (length pre + length cs1) c =
        Ok (pre ++ cs1 ++ (c :: mid2) ++ post)).
      { rewrite !app_assoc, <-(app_assoc _ (m :: mid2)), <-(app_assoc _ (c :: mid2)). cbn [app].
        apply vec_set_middle. by rewrite length_app. }
      rewrite Hset. cbn [mbind res_bind]. specialize (IH (cs1 ++ [c]) mid2 Hl).
      rewrite <-!app_assoc in IH. cbn [app] in IH. rewrite <-!app_assoc. cbn [app]. rewrite <-IH. f_equal.
      apply imap_ext. intros j x _. unfold compose. rewrite length_app. simpl. f_equal. lia. }
  exact (Hgo cs [] mid Hm).
Qed.

Lemma str_encode_spec max d :
  Forall (fun s => (String.length s <= max)%nat) d ->
  str_encode max (Z.of_nat (length d)) d = Ok (concat (map (pad max) d)).
Proof.
  intros Hd. unfold str_encode. rewrite Nat2Z.id.
  assert (Hgo : forall d2 d1, Forall (fun s => (String.length s <= max)%nat) (d1 ++ d2) ->
    foldM (fun buf '(i, str) =>
      foldM (fun buf '(j, c) => vec_set buf (i * max + j)%nat c) buf
        (imap (fun j c => (j, c)) (String.list_ascii_of_string str)))
      (concat (map (pad max) d1) ++ replicate (length d2 * max) nul)
      (imap (fun i str => ((length d1 + i)%nat, str)) d2) = Ok (concat (map (pad max) (d1 ++ d2)))).
  { induction d2 as [|s d2 IH]; intros d1 Hall; [simpl; by rewrite !app_nil_r|].
    rewrite imap_cons. cbn [foldM]. rewrite Nat.add_0_r. cbn [length Nat.mul]. rewrite replicate_add.
    apply Forall_app in Hall as Hall'. destruct Hall' as [Hall1 Hall2]. apply Forall_cons in Hall2 as [Hs Hall2].
    assert (Hl1 : length (concat (map (pad max) d1)) = (length d1 * max)%nat).
    { clear -Hall1. induction Hall1 as [|x l Hx _ IHl]; [done|]. cbn [map concat length]. rewrite length_app, IHl, pad_length by done. lia. }
    assert (Hr : replicate max nul = replicate (String.length s) nul ++ replicate (max - String.length s) nul)
      by (rewrite <-replicate_add; f_equal; lia).
    rewrite Hr, <-app_assoc.
    rewrite write_chars; [|by rewrite Hl1|by rewrite length_replicate, list_ascii_length].
    cbn [mbind res_bind]. specialize (IH (d1 ++ [s])). rewrite map_app, concat_app in IH. cbn [map concat] in IH.
    rewrite app_nil_r in IH. unfold pad at 2 in IH. rewrite <-!app_assoc in IH. cbn [app] in IH.
    rewrite <-IH by done. f_equal.
    apply imap_ext. intros i x _. unfold compose. rewrite length_app. simpl. f_equal. lia. }
  exact (Hgo d [] Hd).
Qed.

Lemma str_codec strLen d :
  Forall (fun s => no_nul s /\ (String.length s <= strLen)%nat) d ->
  exists w, str_encode (strLen + 1) (Z.of_nat (length d)) d = Ok w /\ length w = (length d * (strLen + 1))%nat /\
    str_decode (strLen + 1) (Z.of_nat (length d)) w = Ok d.
Proof.
  intros Hd. exists (concat (map (pad (strLen + 1)) d)).
  assert (Hl : Forall (fun s => (String.length s <= strLen + 1)%nat) d)
    by (eapply Forall_impl; [exact Hd|]; intros s [_ ?]; lia).
  split; [by apply str_encode_spec|]. split.
  { clear Hd. induction Hl as [|s d Hs _ IH]; [done|]. cbn [map concat length]. rewrite length_app, IH, pad_length by done. lia. }
  unfold str_decode. rewrite Nat2Z.id.
  assert (Hgo : forall d1 d2, d = d1 ++ d2 -> mapR (fun j =>
      match find_nul (drop (j * (strLen + 1)) (concat (map (pad (strLen + 1)) d))) with
      | None => Throw (EException "End of string not found during MPI transfer")
      | Some s => Ok (String.string_of_list_ascii s)
      end) (seq (length d1) (length d2)) = Ok d2).
  { intros d1 d2. revert d1. induction d2 as [|s d2 IH]; intros d1 E; [done|]. cbn [length seq mapR].
    assert (Hl1 : length (concat (map (pad (strLen + 1)) d1)) = (length d1 * (strLen + 1))%nat).
    { rewrite E in Hl. apply Forall_app in Hl as [Hl _]. clear -Hl.
      induction Hl as [|x l Hx _ IHl]; [done|]. cbn [map concat length]. rewrite length_app, IHl, pad_length by done. lia. }
    rewrite E in Hd. apply Forall_app in Hd as [_ Hd]. apply Forall_cons in Hd as [[Hn Hs] _].
    rewrite E at 1. rewrite map_app, concat_app, <-Hl1, drop_app_length. cbn [map concat].
    assert (Hp : pad (strLen + 1) s = String.list_ascii_of_string s ++ nul :: replicate (strLen - String.length s) nul).
    { unfold pad. by replace (strLen + 1 - String.length s)%nat with (S (strLen - String.length s)) by lia. }
    rewrite Hp, <-app_assoc. cbn [app]. rewrite find_nul_pad by done. cbn [mbind res_bind].
    rewrite String.string_of_list_ascii_of_string.
    specialize (IH (d1 ++ [s])).
    replace (length (d1 ++ [s])) with (S (length d1)) in IH by (rewrite length_app; simpl; lia).
    rewrite IH by (by rewrite <-app_assoc). done. }
  exact (Hgo [] d eq_refl).
Qed.

(** * The pool and the transfer together *)

Section files.
Context `{MpiLaws} `{MpiP2PLaws} `{FileLaws}.

(** The hypotheses on a variable: the source variables of all ranks have the same
    trailing dimensions, and the sizes stay below the range of [int]. *)
Record var_ok {A} (good : A -> Prop) (patch : list (list bool)) (rest : list Z) (datas : list (list A)) : Prop := {
  vo_ranks : (0 < length patch)%nat;
  vo_rest : Forall (fun d => 0 < d) rest;
  vo_factor : prodZ rest < 2 ^ 31;
  vo_total : total_cnt patch * prodZ rest < 2 ^ 31;
  vo_data : Forall2 (fun v d => length d = (length v * Z.to_nat (prodZ rest))%nat /\
    Z.of_nat (length d) < 2 ^ 64 /\ Forall good d) patch datas
}.

(** What the files hold: the writes of the ranks of the pool, in any order for a
    single file, and one file each, in the order of the pool, otherwise. *)
Definition files_hold {A} (single : bool) (ops : list (WriteOp A)) (values : list A) : Prop :=
  if single then
    forall ws old, ws ≡ₚ ops -> length old = length values -> foldM apply_write old ws = Ok values
  else exists files, Forall2 (fun w f => forall old, apply_write old w = Ok f) ops files /\ concat files = values.

Definition owned_values {A} (patch : list (list bool)) (rest : list Z) (datas : list (list A)) : list A :=
  concat (zip_with (fun v d => patch_values v (Z.to_nat (prodZ rest)) d) patch datas).

Lemma all_values_owned {A} patch rest (datas : list (list A)) :
  length datas = length patch -> all_values patch rest datas = owned_values patch rest datas.
Proof.
  intros Hl. unfold all_values, owned_values. f_equal. apply list_eq. intros i. rewrite list_lookup_fmap, lookup_zip_with.
  destruct (decide (i < length patch)%nat) as [Hi|Hi].
  - rewrite lookup_seq_lt by done. unfold rank_values. simpl.
    destruct (lookup_lt_is_Some_2 patch i Hi) as [v ->], (lookup_lt_is_Some_2 datas i ltac:(lia)) as [d ->]. done.
  - rewrite lookup_seq_ge, (lookup_ge_None_2 patch) by lia. done.
Qed.

Lemma omap_blocks {X} (g : IoPoolGroupMap) (f : nat -> nat * list nat -> X) :
  omap id (concat (imap (fun k kv => Some (f k kv) :: replicate (length kv.2) None) g)) = imap f g.
Proof.
  revert f. induction g as [|kv g IH]; intros f; [done|]. rewrite !imap_cons. cbn [concat]. rewrite omap_app.
  rewrite <-(IH (f ∘ S)). simpl. f_equal. by induction (length kv.2).
Qed.

Lemma transfer_files {A B} (dflt : A) (encode : Z -> list A -> res (list B)) decode unit_size (good : A -> Prop)
    maxp multi patch rest datas varNumber :
  (forall d, Forall good d -> exists w, encode (Z.of_nat (length d)) d = Ok w /\
    length w = (length d * unit_size)%nat /\ decode (Z.of_nat (length d)) w = Ok d) ->
  var_ok good patch rest datas ->
  exists sts outs, WriterPool_new maxp multi patch = Ok sts /\
    transfer dflt encode decode unit_size varNumber (transfer_args patch sts rest datas) = Ok outs /\
    length (omap id outs) = (length patch `min` Z.to_nat (if (0 <? maxp)%Z then maxp else defaultMaxPoolSize))%nat /\
    files_hold (negb multi && (1 <? Z.of_nat (length (omap id outs)))) (omap id outs) (owned_values patch rest datas).
Proof.
  intros Hcodec [Hpos Hrest Hdf Hbound Hdatas]. pose proof (prodZ_ge1 rest Hrest).
  assert (Htot : total_cnt patch < 2 ^ 31) by nia.
  destruct (WriterPool_new_spec maxp multi patch Hpos Htot) as (g & sts & Enew & Hlen & Hflat & Hg & _ & _ & Hst).
  exists sts. eexists. split; [done|].
  split; [by eapply (transfer_outs dflt encode decode unit_size good Hcodec multi patch g sts)|].
  rewrite omap_blocks, length_imap. split; [done|].
  rewrite <-all_values_owned by (by symmetry; eapply Forall2_length).
  unfold files_hold. fold (parallel multi g). destruct (parallel multi g) eqn:Hp.
  - intros ws old Hperm Hold.
    assert (Hks : exists ks, ks ≡ₚ imap (fun k kv => (k, kv)) g /\
      ws = map (fun '(k, kv) => group_op multi patch g rest datas k kv) ks).
    { destruct (Permutation_map_inv (fun '(k, kv) => group_op multi patch g rest datas k kv) (l1 := ws)
        (imap (fun k kv => (k, kv)) g)) as (ks & -> & Hks); [|by exists ks].
      rewrite Hperm. change (map ?f (imap ?h g)) with (f <$> imap h g). by rewrite fmap_imap. }
    destruct Hks as (ks & Hks & ->). by eapply (writes_parallel_all good multi patch g sts).
  - exists (map (group_values patch rest datas) g). split; [|unfold all_values; by rewrite <-Hflat, groups_values].
    rewrite <-imap_map_const. apply Forall2_same_length_lookup_2; [by rewrite !length_imap|].
    intros k w f. rewrite !list_lookup_imap. destruct (g !! k) as [kv|] eqn:Ek; [|done]. cbn.
    intros [= <-] [= <-] old. by eapply (write_multiple good multi patch g sts).
Qed.

Lemma foldl_max_length l m :
  foldl (fun maxStringLen s => if (maxStringLen <? String.length s)%nat then String.length s else maxStringLen) m l =
  max_list (m :: map String.length l).
Proof.
  revert m. induction l as [|s l IH]; intros m; simpl; [lia|]. rewrite IH. simpl.
  destruct (Nat.ltb_spec m (String.length s)); lia.
Qed.

Lemma max_list_ge l x : x ∈ l -> (x <= max_list l)%nat.
Proof. induction 1; simpl; lia. Qed.

(** Every rank gets a length that all strings have room in. *)
Lemma calcMaxStringLength_spec varDatas :
  varDatas <> [] ->
  exists n, calcMaxStringLength varDatas = replicate (length varDatas) n /\ (0 < n)%nat /\
    Forall (Forall (fun s => (String.length s <= n)%nat)) varDatas.
Proof.
  intros Hne. unfold calcMaxStringLength.
  set (local := map _ varDatas). assert (Hll : length local = length varDatas) by apply length_map.
  destruct (allReduce_max local) as [->|E]; [|by destruct varDatas].
  change (map ?f (replicate ?n ?x)) with (f <$> replicate n x). rewrite fmap_replicate, Hll.
  eexists. split; [reflexivity|].
  assert (Hub : Forall (Forall (fun s => (String.length s <= max_list local)%nat)) varDatas).
  { apply list.Forall_forall. intros d Hd. apply list.Forall_forall. intros s Hs.
    transitivity (max_list (0%nat :: map String.length d)).
    - apply max_list_ge. right. by apply list_elem_of_fmap_2.
    - rewrite <-foldl_max_length. apply max_list_ge. unfold local. apply list_elem_of_fmap. eauto. }
  destruct (Nat.eqb_spec (max_list local) 0) as [E0|]; [|split; [lia|done]].
  split; [lia|]. rewrite E0 in Hub. eapply Forall_impl; [exact Hub|]. intros d Hd.
  eapply Forall_impl; [exact Hd|]. simpl. lia.
Qed.
End files.

(** A reference setting: three ranks, two of them in the pool. *)
Definition demo_patch : list (list bool) := [[true; false]; [true; true]; [false; true]].

(** C7: Collecting a numeric variable through the io pool, from the constructor
    of the pool on.  For any number of ranks and any limit on the pool, the constructor
    and the exchange of messages succeed on every rank, min(limit, number of
    ranks) of them write, and what is written is the values of the patch
    locations of all ranks, in the order of the ranks: as one file, whatever the order of the
    concurrent writes, or as one file per rank of the pool, in the order of the
    pool. *)
Theorem writer_pool_collects `{MpiLaws} `{MpiP2PLaws} `{FileLaws} {A} (dflt : A) maxp multi patch rest
    (datas : list (list A)) varNumber :
  var_ok (fun _ => True) patch rest datas ->
  exists sts outs, WriterPool_new maxp multi patch = Ok sts /\
    transferVarDataMPI dflt varNumber (transfer_args patch sts rest datas) = Ok outs /\
    length (omap id outs) = (length patch `min` Z.to_nat (if (0 <? maxp)%Z then maxp else defaultMaxPoolSize))%nat /\
    files_hold (negb multi && (1 <? Z.of_nat (length (omap id outs)))) (omap id outs) (owned_values patch rest datas).
Proof.
  intros Hok. unfold transferVarDataMPI. eapply transfer_files; [|exact Hok].
  intros d _. exists d. split; [done|]. split; [by rewrite Nat.mul_1_r|done].
Qed.
Lemma writer_pool_collects_witness :
  exists sts outs, @WriterPool_new reference_comm reference_p2p 2 false demo_patch = Ok sts /\
    @transferVarDataMPI reference_p2p nat 0%nat 1 (transfer_args demo_patch sts [2] [[1;2;3;4]; [5;6;7;8]; [9;10;11;12]]%nat) = Ok outs /\
    length (omap id outs) = 2%nat /\
    @files_hold reference_file nat true (omap id outs) [1;2;5;6;7;8;11;12]%nat.
Proof.
  destruct (@writer_pool_collects reference_comm reference_laws reference_p2p reference_p2p_laws reference_file
    reference_file_laws nat 0%nat 2 false demo_patch [2] [[1;2;3;4]; [5;6;7;8]; [9;10;11;12]]%nat 1)
    as (sts & outs & E1 & E2 & E3 & E4).
  - split; [simpl; lia|repeat constructor; lia|vm_compute; reflexivity|vm_compute; reflexivity|].
    repeat constructor; simpl; lia.
  - exists sts, outs. split; [exact E1|]. split; [exact E2|].
    assert (E3' : length (omap id outs) = 2%nat) by (rewrite E3; reflexivity).
    split; [exact E3'|]. rewrite E3' in E4. exact E4.
Defined.

(** The same for strings, which travel as null-terminated records of one more
    character than the longest string of any rank: with the length that
    [calcMaxStringLengths] gives every rank, strings without null characters
    arrive unchanged. *)
Theorem writer_pool_collects_strings `{MpiLaws} `{MpiP2PLaws} `{FileLaws} maxp multi patch rest
    (datas : list (list string)) varNumber strLen :
  var_ok no_nul patch rest datas -> calcMaxStringLength datas = replicate (length datas) strLen ->
  exists sts outs, WriterPool_new maxp multi patch = Ok sts /\
    transferVarDataMPI_string strLen varNumber (transfer_args patch sts rest datas) = Ok outs /\
    length (omap id outs) = (length patch `min` Z.to_nat (if (0 <? maxp)%Z then maxp else defaultMaxPoolSize))%nat /\
    files_hold (negb multi && (1 <? Z.of_nat (length (omap id outs)))) (omap id outs) (owned_values patch rest datas).
Proof.
  intros [Hpos Hrest Hdf Hbound Hdatas] Hlen. unfold transferVarDataMPI_string.
  assert (Hne : datas <> []) by (apply Forall2_length in Hdatas; destruct datas; [simpl in *; lia|done]).
  destruct (calcMaxStringLength_spec datas Hne) as (n & En & _ & Hn). rewrite Hlen in En.
  assert (strLen = n) as -> by (destruct datas; [done|]; by injection En).
  eapply (transfer_files _ _ _ _ (fun s => no_nul s /\ (String.length s <= n)%nat)).
  - apply str_codec.
  - split; try done. clear -Hdatas Hn. induction Hdatas as [|v d patch datas (Hl & Hb & Hg) _ IH]; constructor.
    + apply Forall_cons in Hn as [Hn _]. split; [done|]. split; [done|]. apply Forall_and. done.
    + apply Forall_cons in Hn as [_ Hn]. auto.
Qed.
Lemma writer_pool_collects_strings_witness :
  exists sts outs, @WriterPool_new reference_comm reference_p2p 2 false demo_patch = Ok sts /\
    @transferVarDataMPI_string reference_p2p 3 1
      (transfer_args demo_patch sts [] [["a"; "b"]; ["cde"; ""]; ["f"; "g"]]) = Ok outs /\
    length (omap id outs) = 2%nat /\
    @files_hold reference_file string true (omap id outs) ["a"; "cde"; ""; "g"].
Proof.
  destruct (@writer_pool_collects_strings reference_comm reference_laws reference_p2p reference_p2p_laws reference_file
    reference_file_laws 2 false demo_patch [] [["a"; "b"]; ["cde"; ""]; ["f"; "g"]] 1 3%nat)
    as (sts & outs & E1 & E2 & E3 & E4).
  - split; [simpl; lia|constructor|vm_compute; reflexivity|vm_compute; reflexivity|].
    repeat constructor; simpl; try lia; discriminate.
  - reflexivity.
  - exists sts, outs. split; [exact E1|]. split; [exact E2|].
    assert (E3' : length (omap id outs) = 2%nat) by (rewrite E3; reflexivity).
    split; [exact E3'|]. rewrite E3' in E4. exact E4.
Defined.
