(* ===== verification/VarUtils.v ===== *)
(** Dimension scales and variables of a group.

    Models src/src/engines/ioda/src/ioda/VarUtils.cpp ([preferentialSortVariableNames],
    [collectVarDimInfo]) and the two ways to find the scales of a variable:
    [getDimensionScaleMappings] of Variable.cpp, which asks for every scale
    whether it is attached, and that of HH-variables.cpp, which goes through the
    references in the variable's DIMENSION_LIST. *)
From stdpp Require Import base list gmap strings.
From Stdlib Require Import ZArith.
From S2P Require Import Prelude OdbLayout.
Local Open Scope Z_scope.

(** * The scales of a variable *)

(** What the two engines know of a variable.  [isDimensionScaleAttached] takes the
    number of the dimension and a scale. *)
Class VariableBackend (V : Type) := {
  getDimensions : V -> list Z;
  isDimensionScale : V -> bool;
  isDimensionScaleAttached : V -> nat -> V -> bool
}.

Section mappings.
Context {V : Type}.
Notation Named_Variable := (string * V)%type.

(** The scales of one dimension: all that are attached, or the first. *)
Definition attached_along `{VariableBackend V} (v : V) (firstOnly : bool) (scalesToQueryAgainst : list Named_Variable) (i : nat) : list Named_Variable :=
  let found := filter (fun s => isDimensionScaleAttached v i (snd s) = true) scalesToQueryAgainst in
  if firstOnly then take 1 found else found.
Definition getDimensionScaleMappings `{VariableBackend V} (v : V) (scalesToQueryAgainst : list Named_Variable) (firstOnly : bool) : list (list Named_Variable) :=
  map (attached_along v firstOnly scalesToQueryAgainst) (seq 0 (length (getDimensions v))).
End mappings.

(** ** The HDF5 engine

    An object has a file number and an address in the file; DIMENSION_LIST, which
    a variable may not have, holds the references to scales for every dimension.
    Reading the attribute and the numbers belongs to the HDF5 library. *)
Record HH_Variable := {
  hh_info : Z * Z;
  hh_dims : list Z;
  hh_scale : bool;
  hh_dimension_list : option (list (list (Z * Z)))
}.

Definition find_scale (scales : list (string * HH_Variable)) (ref : Z * Z) : option (string * HH_Variable) :=
  List.find (fun s => bool_decide (hh_info (snd s) = ref)) scales.
(** The scales of one dimension, in the order of the references. *)
Fixpoint referenced (scales : list (string * HH_Variable)) (firstOnly : bool) (refs : list (Z * Z)) : list (string * HH_Variable) :=
  match refs with
  | [] => []
  | ref :: refs => match find_scale scales ref with
      | Some s => if firstOnly then [s] else s :: referenced scales firstOnly refs
      | None => referenced scales firstOnly refs
      end
  end.
Definition HH_getDimensionScaleMappings (v : HH_Variable) (scalesToQueryAgainst : list (string * HH_Variable)) (firstOnly : bool) (dimensionNumbers_ : list nat)
  : res (list (list (string * HH_Variable))) :=
  let dimensionality := length (hh_dims v) in
  if existsb (fun d => (dimensionality <=? d)%nat) dimensionNumbers_ then Throw (EException "")
  else
    let dimensionNumbers := match dimensionNumbers_ with [] => seq 0 dimensionality | _ => dimensionNumbers_ end in
    let ret := replicate dimensionality [] in
    match hh_dimension_list v with
    | None => Ok ret
    | Some buf => foldM (fun ret curDim =>
        refs ← vec_get buf curDim;
        old ← vec_get ret curDim;
        vec_set ret curDim (old ++ referenced scalesToQueryAgainst firstOnly refs)) ret dimensionNumbers
    end.
Definition HH_isDimensionScaleAttached (v : HH_Variable) (DimensionNumber : nat) (scale : HH_Variable) : res bool :=
  r ← HH_getDimensionScaleMappings v [("unused_param", scale)] true [DimensionNumber];
  found ← vec_get r DimensionNumber;
  Ok (match found with [] => false | _ => true end).

(** The engine as a backend. *)
#[export] Instance HH_backend : VariableBackend HH_Variable := {|
  getDimensions := hh_dims;
  isDimensionScale := hh_scale;
  isDimensionScaleAttached v i s := match HH_isDimensionScaleAttached v i s with Ok b => b | Throw _ => false end
|}.

(** * Names *)

Definition LocationVarNames : list string := ["nlocs"; "Location"].
Definition isLocationName (name : string) : bool := bool_decide (name ∈ LocationVarNames).
Definition isPossiblyScale (name : string) : bool :=
  negb (has_char at_sign name) && negb (has_char is_slash name).

Definition sort_step (sortedAllVars : list string) (name : string) : list string :=
  match sortedAllVars with
  | [] => [name]
  | front :: rest =>
      if isPossiblyScale name then (if isLocationName front then front :: name :: rest else name :: sortedAllVars)
      else sortedAllVars ++ [name]
  end.
Definition preferentialSortVariableNames (allVars : list string) : list string := foldl sort_step [] allVars.

(** * [collectVarDimInfo] *)

Section collect.
Context {V : Type} `{VariableBackend V}.
Notation Named_Variable := (string * V)%type.

(** A group: the names of all its variables, what opening a name gives, and
    whether it has groups. *)
Record FileGroup := {
  listVariables : list string;
  openVariable : string -> res V;
  hasGroups : bool
}.

Definition push_scale (v : Named_Variable) (l : list Named_Variable) : list Named_Variable := if isLocationName (fst v) then v :: l else l ++ [v].

(** The order for a group without groups. *)
Definition fix_order (g : FileGroup) (sortedAllVars : list string) : res (list string) :=
  '(scales, nonscales) ← foldM (fun '(scales, nonscales) vname =>
      v ← openVariable g vname;
      Ok (if isDimensionScale v then ((if isLocationName vname then vname :: scales else scales ++ [vname]), nonscales) else (scales, nonscales ++ [vname])))
    ([], []) sortedAllVars;
  Ok (scales ++ nonscales).

Record VarDimInfo := {
  varList : list Named_Variable;
  dimVarList : list Named_Variable;
  dimsAttachedToVars : gmap string (list Named_Variable);
  maxSize0 : Z;
  dimension_scales : list Named_Variable
}.
Definition no_info : VarDimInfo := {| varList := []; dimVarList := []; dimsAttachedToVars := ∅; maxSize0 := 0; dimension_scales := [] |}.

Definition collect_step (g : FileGroup) (st : VarDimInfo) (vname : string) : res VarDimInfo :=
  v ← openVariable g vname;
  let dims := getDimensions v in
  let m := match dims with [] => maxSize0 st | d :: _ => Z.max (maxSize0 st) d end in
  if (length dims =? 1)%nat && isPossiblyScale vname && isDimensionScale v
  then Ok {| varList := varList st; dimVarList := dimVarList st ++ [(vname, v)]; dimsAttachedToVars := dimsAttachedToVars st; maxSize0 := m;
             dimension_scales := push_scale (vname, v) (dimension_scales st) |}
  else
    dimVars ← mapR (fun along => match along with [] => Throw (EException "Unexpected size of dim_scales_along_axis") | s :: _ => Ok s end)
                (getDimensionScaleMappings v (dimension_scales st) true);
    Ok {| varList := varList st ++ [(vname, v)]; dimVarList := dimVarList st;
          dimsAttachedToVars := match dimsAttachedToVars st !! vname with Some _ => dimsAttachedToVars st | None => <[vname := dimVars]> (dimsAttachedToVars st) end;
          maxSize0 := m; dimension_scales := dimension_scales st |}.

Definition collectVarDimInfo (g : FileGroup) : res VarDimInfo :=
  let sorted := preferentialSortVariableNames (listVariables g) in
  sorted ← (if hasGroups g then Ok sorted else fix_order g sorted);
  foldM (collect_step g) no_info sorted.
End collect.
Arguments FileGroup V : clear implicits.
Arguments VarDimInfo V : clear implicits.
