(* ===== verification/VarUtilsSpec.v ===== *)
(** Which variables of a group are found to be scales, and which scales are
    found for a variable. *)
From stdpp Require Import base list gmap strings.
From Stdlib Require Import ZArith.
From S2P Require Import Prelude Selection OdbLayout OdbWriteSpec VarUtils.
Local Open Scope Z_scope.

(** * The order of names *)

Lemma location_possibly_scale n : isLocationName n = true -> isPossiblyScale n = true.
Proof. unfold isLocationName. rewrite bool_decide_eq_true. intros [->|[->|[]%elem_of_nil]%elem_of_cons]%elem_of_cons; done. Qed.

Definition not_scales (l : list string) : list string := filter (fun n => isPossiblyScale n = false) l.
Definition sorted_from (allVars sorted : list string) : Prop :=
  sorted ≡ₚ allVars /\
  (exists scales, sorted = scales ++ not_scales allVars /\ Forall (fun n => isPossiblyScale n = true) scales) /\
  (Exists (fun n => isLocationName n = true) allVars -> exists n rest, sorted = n :: rest /\ isLocationName n = true).

Lemma not_scales_snoc l name : not_scales (l ++ [name]) = not_scales l ++ (if isPossiblyScale name then [] else [name]).
Proof.
  unfold not_scales. rewrite filter_app. f_equal. destruct (isPossiblyScale name) eqn:E; [rewrite filter_cons_False by congruence|rewrite filter_cons_True by done]; done.
Qed.

Lemma sort_step_sorted allVars sorted name : sorted_from allVars sorted -> sorted_from (allVars ++ [name]) (sort_step sorted name).
Proof.
  intros (Hp & (scales & Hs & Hsc) & Hloc). unfold sorted_from. rewrite not_scales_snoc.
  destruct (isPossiblyScale name) eqn:En.
  - rewrite app_nil_r. destruct sorted as [|front rest]; cbn [sort_step]; [|rewrite En; destruct (isLocationName front) eqn:Ef].
    + apply Permutation_nil_l in Hp. subst allVars. split_and!; [done|by exists [name]; auto|]. intros He. apply Exists_cons in He as [He|He%Exists_nil]; [eauto|done].
    + destruct scales as [|s scales].
      { exfalso. cbn [app] in Hs. assert (Hin : front ∈ not_scales allVars) by (rewrite <-Hs; left). unfold not_scales in Hin. apply list_elem_of_filter in Hin as [Hin _].
        by rewrite location_possibly_scale in Hin. }
      cbn in Hs. injection Hs as -> Hr. split_and!.
      * rewrite <-Hp. rewrite Permutation_app_comm. apply perm_swap.
      * exists (s :: name :: scales). rewrite Hr. split; [done|]. apply Forall_cons in Hsc as [H1 H2]. by repeat constructor.
      * eauto.
    + split_and!.
      * rewrite <-Hp. by rewrite Permutation_app_comm.
      * exists (name :: scales). rewrite Hs. split; [done|by constructor].
      * rewrite Exists_app, Exists_cons, Exists_nil. intros [He|[He|[]]]; [|eauto]. destruct (Hloc He) as (n & r & E & Hn). simplify_eq. by rewrite Hn in Ef.
  - assert (Hst : sort_step sorted name = sorted ++ [name]) by (destruct sorted; cbn; [done|by rewrite En]). rewrite Hst. split_and!.
    + by rewrite Hp.
    + exists scales. by rewrite Hs, app_assoc.
    + rewrite Exists_app, Exists_cons, Exists_nil. intros [He|[He|[]]]; [|by rewrite location_possibly_scale in En]. destruct (Hloc He) as (n & r & -> & Hn). by exists n, (r ++ [name]).
Qed.

Lemma preferential_sorted allVars : sorted_from allVars (preferentialSortVariableNames allVars).
Proof.
  unfold preferentialSortVariableNames. induction allVars as [|name allVars IH] using rev_ind.
  - split_and!; [done|by exists []|by intros ?%Exists_nil].
  - rewrite foldl_snoc. by apply sort_step_sorted.
Qed.

(** The order of the names.  Every name is kept once, the names that may be
    scales come first, the other names follow in their old order, and when there
    is a scale of locations the first name is one. *)
Theorem preferential_sort allVars :
  preferentialSortVariableNames allVars ≡ₚ allVars /\
  (exists scales, preferentialSortVariableNames allVars = scales ++ filter (fun n => isPossiblyScale n = false) allVars /\
     Forall (fun n => isPossiblyScale n = true) scales) /\
  (Exists (fun n => n = "nlocs" \/ n = "Location") allVars ->
     exists n rest, preferentialSortVariableNames allVars = n :: rest /\ (n = "nlocs" \/ n = "Location")).
Proof.
  assert (Hl : forall n, isLocationName n = true <-> n = "nlocs" \/ n = "Location").
  { intros n. unfold isLocationName, LocationVarNames. rewrite bool_decide_eq_true, !elem_of_cons, elem_of_nil. tauto. }
  destruct (preferential_sorted allVars) as (Hp & Hs & Hloc). split_and!; [done|done|]. intros He. destruct Hloc as (n & rest & E & Hn).
  - eapply Exists_impl; [exact He|]. intros n. apply Hl.
  - exists n, rest. by rewrite <-Hl.
Qed.

(** * The scales of a variable in HDF5 *)

Section hdf5.
Implicit Types (v : HH_Variable) (scales : list (string * HH_Variable)).

Definition refs_of v (i : nat) : list (Z * Z) := match hh_dimension_list v with Some buf => default [] (buf !! i) | None => [] end.
Definition references_ok v : Prop := forall buf, hh_dimension_list v = Some buf -> length buf = length (hh_dims v).

Lemma referenced_single info r : forall refs, referenced [(info, r)] true refs = if bool_decide (hh_info r ∈ refs) then [(info, r)] else [].
Proof.
  induction refs as [|x refs IH]; cbn [referenced find_scale List.find snd]; [done|]. destruct (decide (hh_info r = x)) as [->|Hx].
  - rewrite !bool_decide_true by (done || left). done.
  - rewrite bool_decide_false by done. rewrite IH. erewrite bool_decide_ext; [done|]. rewrite elem_of_cons. naive_solver.
Qed.

Lemma HH_attached v i s : references_ok v -> (i < length (hh_dims v))%nat -> HH_isDimensionScaleAttached v i s = Ok (bool_decide (hh_info s ∈ refs_of v i)).
Proof.
  intros Hok Hi. unfold HH_isDimensionScaleAttached, HH_getDimensionScaleMappings, refs_of. cbn [existsb].
  replace (length (hh_dims v) <=? i)%nat with false by (symmetry; apply Nat.leb_gt; lia). cbn [orb].
  assert (Hrep : forall A (x : A), vec_get (replicate (length (hh_dims v)) x) i = Ok x) by (intros; apply vec_get_Some; by apply lookup_replicate_2).
  destruct (hh_dimension_list v) as [buf|] eqn:E; cbn [mbind res_bind].
  - destruct (lookup_lt_is_Some_2 buf i) as [refs Hr]; [rewrite (Hok buf E); lia|]. cbn [foldM]. rewrite (vec_get_Some _ _ _ Hr), Hr. cbn [mbind res_bind].
    rewrite Hrep. cbn [mbind res_bind]. rewrite vec_set_lt by (by rewrite length_replicate). cbn [mbind res_bind].
    erewrite vec_get_Some by (apply list_lookup_insert_eq; by rewrite length_replicate). cbn [mbind res_bind app default]. rewrite referenced_single.
    by destruct (bool_decide _).
  - by rewrite Hrep.
Qed.

(** The scales that a dimension refers to, in the order of the references. *)
Definition scales_along v scales (firstOnly : bool) (i : nat) : list (string * HH_Variable) :=
  let found := omap (find_scale scales) (refs_of v i) in if firstOnly then take 1 found else found.

Lemma referenced_found scales firstOnly refs :
  referenced scales firstOnly refs = (let found := omap (find_scale scales) refs in if firstOnly then take 1 found else found).
Proof.
  induction refs as [|r refs IH]; cbn [referenced omap list_omap]; [by destruct firstOnly|]. destruct (find_scale scales r) as [s|]; [|exact IH].
  destruct firstOnly; [done|]. cbn zeta in IH |- *. by rewrite IH.
Qed.

Lemma find_scale_elem scales s ref : NoDup (map (fun t => hh_info (snd t)) scales) -> find_scale scales ref = Some s <-> s ∈ scales /\ hh_info (snd s) = ref.
Proof.
  unfold find_scale. induction scales as [|t scales IH]; intros Hnd; cbn [List.find]; [split; [done|by intros [?%elem_of_nil _]]|].
  inversion Hnd as [|? ? Hni Hnd']; subst. destruct (decide (hh_info (snd t) = ref)) as [E|E].
  - rewrite bool_decide_true by done. split; [intros [= <-]; split; [left|done]|]. intros [[->|Hs]%elem_of_cons Es]; [done|].
    exfalso. apply Hni, list_elem_of_fmap. exists s. split; [congruence|done].
  - rewrite bool_decide_false, IH by done. rewrite elem_of_cons. naive_solver.
Qed.

(** The loop over the dimensions that are asked for. *)
Lemma HH_mappings_loop v buf scales firstOnly dims : hh_dimension_list v = Some buf -> references_ok v -> NoDup dims ->
  Forall (fun d => (d < length (hh_dims v))%nat) dims ->
  foldM (fun ret curDim => refs ← vec_get buf curDim; old ← vec_get ret curDim; vec_set ret curDim (old ++ referenced scales firstOnly refs))
    (replicate (length (hh_dims v)) []) dims =
  Ok (map (fun i => if decide (i ∈ dims) then scales_along v scales firstOnly i else []) (seq 0 (length (hh_dims v)))).
Proof.
  intros E Hok Hnd Hd. set (n := length (hh_dims v)) in *. assert (Hn : length buf = n) by (by apply Hok).
  set (f := fun (l : list nat) i => if decide (i ∈ l) then scales_along v scales firstOnly i else []).
  destruct (foldM_ind (fun ret curDim => refs ← vec_get buf curDim; old ← vec_get ret curDim; vec_set ret curDim (old ++ referenced scales firstOnly refs))
    (fun don (ret : list (list (string * HH_Variable))) => ret = map (f don) (seq 0 n)) (replicate n []) dims) as (ret & -> & ->).
  - rewrite <-(map_const_seq [] 0 n). apply map_ext. intros i. unfold f. by rewrite decide_False by (by apply not_elem_of_nil).
  - intros don i ret -> [rest Hr]. rewrite Hr, <-app_assoc in Hnd. apply NoDup_app in Hnd as (_ & Hnd & _).
    assert (Hi : (i < n)%nat) by (rewrite Hr in Hd; apply Forall_app in Hd as [Hd _]; apply Forall_app in Hd as [_ Hd]; by apply Forall_cons in Hd as [? _]).
    assert (Hni : i ∉ don) by (intros Hi'; apply (Hnd i Hi'); left). destruct (lookup_lt_is_Some_2 buf i) as [refs Hrefs]; [lia|].
    rewrite (vec_get_Some _ _ _ Hrefs). cbn [mbind res_bind]. rewrite (vec_get_Some _ _ []).
    2: { rewrite lookup_map_seq by lia. unfold f. by rewrite decide_False. }
    cbn [mbind res_bind app]. rewrite vec_set_lt by (by rewrite length_map, length_seq). eexists. split; [done|].
    assert (Ef : referenced scales firstOnly refs = f (don ++ [i]) i).
    { unfold f, scales_along, refs_of. rewrite decide_True, E, Hrefs by (rewrite elem_of_app, list_elem_of_singleton; by right). apply referenced_found. }
    rewrite Ef. apply insert_map_seq. intros r Hri. unfold f.
    destruct (decide (r ∈ don)); [rewrite decide_True by set_solver|rewrite decide_False by set_solver]; done.
  - done.
Qed.
End hdf5.

(** C25: The scales that the HDF5 engine finds.  For a variable whose DIMENSION_LIST,
    if it has one, has a list of references for every dimension: asking for given
    dimensions, or with none given for all, gives for each of them the scales
    that the references of this very dimension refer to, in the order of the
    references (with [firstOnly] the first one), nothing for the other dimensions,
    and an error if a dimension does not exist; for scales that are different
    objects these are exactly those scales whose object the dimension refers to.
    A scale is attached to a dimension if and only if the dimension refers to its
    object. *)
Theorem HH_scales_found (v : HH_Variable) (scales : list (string * HH_Variable)) (firstOnly : bool) (dims : list nat) : references_ok v -> NoDup dims ->
  (Exists (fun d => (length (hh_dims v) <= d)%nat) dims -> exists e, HH_getDimensionScaleMappings v scales firstOnly dims = Throw e) /\
  (Forall (fun d => (d < length (hh_dims v))%nat) dims ->
     HH_getDimensionScaleMappings v scales firstOnly dims =
       Ok (map (fun i => if decide (dims = [] \/ i ∈ dims) then scales_along v scales firstOnly i else []) (seq 0 (length (hh_dims v))))) /\
  (NoDup (map (fun t => hh_info (snd t)) scales) -> forall i s, s ∈ scales_along v scales false i <-> s ∈ scales /\ hh_info (snd s) ∈ refs_of v i) /\
  (forall i s, (i < length (hh_dims v))%nat -> HH_isDimensionScaleAttached v i s = Ok (bool_decide (hh_info s ∈ refs_of v i))).
Proof.
  intros Hok Hnd. split_and!.
  - intros (d & Hd & Hle)%Exists_exists. unfold HH_getDimensionScaleMappings.
    replace (existsb (fun d => (length (hh_dims v) <=? d)%nat) dims) with true; [by eexists|]. symmetry. apply existsb_exists. exists d.
    split; [by apply list_elem_of_In|by apply Nat.leb_le].
  - intros HF. unfold HH_getDimensionScaleMappings. replace (existsb (fun d => (length (hh_dims v) <=? d)%nat) dims) with false.
    2: { symmetry. apply not_true_iff_false. rewrite existsb_exists. intros (d & Hd & Hle%Nat.leb_le). rewrite list.Forall_forall in HF. apply list_elem_of_In in Hd. specialize (HF d Hd). lia. }
    destruct (hh_dimension_list v) as [buf|] eqn:E.
    + rewrite (HH_mappings_loop v buf scales firstOnly); [|done|done|by destruct dims; [apply NoDup_seq|]|].
      * f_equal. apply map_ext_in. intros i Hi%list_elem_of_In. destruct dims as [|d ds]; [by rewrite !decide_True by naive_solver|].
        destruct (decide (i ∈ d :: ds)); [by rewrite decide_True by naive_solver|rewrite decide_False by naive_solver; done].
      * destruct dims; [|done]. apply list.Forall_forall. intros i Hi. apply elem_of_seq in Hi. lia.
    + f_equal. rewrite <-(map_const_seq [] 0). apply map_ext. intros i. unfold scales_along, refs_of. rewrite E. cbn. destruct firstOnly; by case_decide.
  - intros Hsc i s. unfold scales_along. rewrite list_elem_of_omap. split.
    + intros (ref & Hr & Hs). apply find_scale_elem in Hs as [Hs <-]; done.
    + intros [Hs Hr]. exists (hh_info (snd s)). split; [done|]. by apply find_scale_elem.
  - intros i s Hi. by apply HH_attached.
Qed.

(** * The scales and variables of a group *)

Section collect.
Context {V : Type} `{VariableBackend V}.
Notation Named_Variable := (string * V)%type.
Implicit Types (l : list Named_Variable).

(** A group whose scales are one-dimensional and are named like scales, and whose
    variables have exactly one scale of the group along each dimension.  When
    there are groups, the variables that are not scales are in them. *)
Record group_ok (g : FileGroup V) (vars : list Named_Variable) : Prop := {
  go_names : listVariables g ≡ₚ map fst vars;
  go_nodup : NoDup (map fst vars);
  go_open p : p ∈ vars -> openVariable g (fst p) = Ok (snd p);
  go_scale p : p ∈ vars -> isDimensionScale (snd p) = true -> length (getDimensions (snd p)) = 1%nat /\ isPossiblyScale (fst p) = true;
  go_variable p : p ∈ vars -> isDimensionScale (snd p) = false -> hasGroups g = true -> isPossiblyScale (fst p) = false;
  go_attached p i : p ∈ vars -> isDimensionScale (snd p) = false -> (i < length (getDimensions (snd p)))%nat ->
    exists s, s ∈ vars /\ isDimensionScale (snd s) = true /\
      forall t, t ∈ vars -> isDimensionScale (snd t) = true -> isDimensionScaleAttached (snd p) i (snd t) = true <-> t = s
}.

Definition scales_of l : list Named_Variable := filter (fun p => isDimensionScale (snd p) = true) l.
Definition variables_of l : list Named_Variable := filter (fun p => isDimensionScale (snd p) = false) l.
Definition size0 (p : Named_Variable) : Z := match getDimensions (snd p) with [] => 0 | d :: _ => d end.
Definition max_size0 l : Z := foldr Z.max 0 (map size0 l).
#[local] Instance max_size0_proper : Proper ((≡ₚ) ==> (=)) max_size0.
Proof. unfold max_size0. intros l1 l2 Hp. induction Hp; cbn [map foldr]; lia. Qed.

Section group.
Context (g : FileGroup V) (vars : list Named_Variable) (Hg : group_ok g vars).

(** Names that are opened one after the other. *)
Lemma names_opened names : (forall n, n ∈ names -> n ∈ map fst vars) -> exists l, names = map fst l /\ forall p, p ∈ l -> p ∈ vars.
Proof.
  induction names as [|n names IH]; intros Hn; [by exists []; split; [|intros p Hp%elem_of_nil]|].
  destruct IH as (l & -> & Hl); [intros; apply Hn; by right|]. destruct (proj1 (list_elem_of_fmap _ _ _) (Hn n ltac:(left))) as (p & -> & Hp).
  exists (p :: l). split; [done|]. intros q [->|Hq]%elem_of_cons; auto.
Qed.

Lemma name_unique p q : p ∈ vars -> q ∈ vars -> fst p = fst q -> p = q.
Proof.
  intros [i Hi]%list_elem_of_lookup [j Hj]%list_elem_of_lookup E. assert (i = j) as <-; [|congruence].
  apply (NoDup_lookup (map fst vars) i j (fst p) (go_nodup _ _ Hg)); change (map fst vars) with (fst <$> vars); rewrite list_lookup_fmap, ?Hi, ?Hj; cbn; congruence.
Qed.

Lemma same_names l : map fst l ≡ₚ map fst vars -> (forall p, p ∈ l -> p ∈ vars) -> l ≡ₚ vars.
Proof.
  intros Hp Hin. apply NoDup_Permutation.
  - apply (NoDup_fmap_1 fst). change (NoDup (map fst l)). rewrite Hp. apply (go_nodup _ _ Hg).
  - apply (NoDup_fmap_1 fst). apply (go_nodup _ _ Hg).
  - intros p. split; [apply Hin|]. intros Hv. assert (Hf : fst p ∈ map fst l) by (rewrite Hp; apply list_elem_of_fmap; eauto).
    apply list_elem_of_fmap in Hf as (q & Eq & Hq). replace p with q; [done|]. apply name_unique; auto.
Qed.

(** The names in the order in which they are gone through: scales, then others. *)
Definition ordered (names : list string) : Prop := exists sc ns : list Named_Variable, names = map fst (sc ++ ns) /\ sc ++ ns ≡ₚ vars /\ (forall p, p ∈ sc -> isDimensionScale (snd p) = true) /\ (forall p, p ∈ ns -> isDimensionScale (snd p) = false).

Lemma fix_order_ok l : (forall p, p ∈ l -> p ∈ vars) -> l ≡ₚ vars -> exists names, fix_order g (map fst l) = Ok names /\ ordered names.
Proof.
  intros Hin Hp. unfold fix_order.
  assert (Hgo : forall sc ns, (forall p, p ∈ sc -> isDimensionScale (snd p) = true) -> (forall p, p ∈ ns -> isDimensionScale (snd p) = false) ->
    exists sc' ns', foldM (fun '(scales, nonscales) vname => v ← openVariable g vname;
        Ok (if isDimensionScale v then ((if isLocationName vname then vname :: scales else scales ++ [vname]), nonscales) else (scales, nonscales ++ [vname])))
        (map fst sc, map fst ns) (map fst l) = Ok (map fst sc', map fst ns') /\ sc' ++ ns' ≡ₚ (sc ++ ns) ++ l /\     (forall p, p ∈ sc' -> isDimensionScale (snd p) = true) /\ (forall p, p ∈ ns' -> isDimensionScale (snd p) = false)).
  { clear Hp. induction l as [|p l IH]; intros sc ns Hsc Hns; [exists sc, ns; by rewrite app_nil_r|]. cbn [map foldM].
    rewrite (go_open _ _ Hg p) by (apply Hin; left). cbn [mbind res_bind]. destruct (isDimensionScale (snd p)) eqn:Es.
    - destruct (IH (fun q Hq => Hin q ltac:(by right)) (if isLocationName (fst p) then p :: sc else sc ++ [p]) ns) as (sc' & ns' & E & Hperm & H1 & H2).
      { intros q Hq. destruct (isLocationName (fst p)); [apply elem_of_cons in Hq as [->|Hq]|apply elem_of_app in Hq as [Hq|Hq]; [|apply list_elem_of_singleton in Hq as ->]]; auto. }
      { done. }
      exists sc', ns'. split_and!; [|rewrite Hperm; destruct (isLocationName (fst p)); solve_Permutation|done|done]. rewrite <-E. f_equal. f_equal.
      destruct (isLocationName (fst p)); [done|]. by rewrite map_app.
    - destruct (IH (fun q Hq => Hin q ltac:(by right)) sc (ns ++ [p])) as (sc' & ns' & E & Hperm & H1 & H2).
      { done. }
      { intros q Hq. apply elem_of_app in Hq as [Hq|Hq]; [|apply list_elem_of_singleton in Hq as ->]; auto. }
      exists sc', ns'. split_and!; [|rewrite Hperm; solve_Permutation|done|done]. by rewrite <-E, map_app. }
  destruct (Hgo [] []) as (sc & ns & E & Hperm & H1 & H2); [by intros p Hq%elem_of_nil|by intros p Hq%elem_of_nil|]. cbn [map] in E. rewrite E. cbn [mbind res_bind].
  eexists. split; [done|]. exists sc, ns. rewrite map_app. split_and!; [done|by rewrite Hperm|done|done].
Qed.

Lemma collection_order : exists names,
  (if hasGroups g then Ok (preferentialSortVariableNames (listVariables g)) else fix_order g (preferentialSortVariableNames (listVariables g))) = Ok names /\ ordered names.
Proof.
  destruct (preferential_sorted (listVariables g)) as (Hp & (scales & Hs & Hsc) & _).
  assert (Hin : forall n, n ∈ preferentialSortVariableNames (listVariables g) -> n ∈ map fst vars) by (intros n; by rewrite Hp, (go_names _ _ Hg)).
  destruct (hasGroups g) eqn:Eg.
  - exists (preferentialSortVariableNames (listVariables g)). split; [done|]. rewrite Hs in Hin |- *.
    destruct (names_opened scales) as (sc & Esc & Hvsc); [intros; apply Hin; set_solver|].
    destruct (names_opened (not_scales (listVariables g))) as (ns & Ens & Hvns); [intros; apply Hin; set_solver|].
    exists sc, ns. rewrite map_app, <-Esc, <-Ens. split_and!; [done| | |].
    + apply same_names; [rewrite map_app, <-Esc, <-Ens, <-Hs, Hp; apply (go_names _ _ Hg)|]. intros p [?|?]%elem_of_app; auto.
    + intros p Hv. destruct (isDimensionScale (snd p)) eqn:Ed; [done|]. pose proof (go_variable _ _ Hg p (Hvsc p Hv) Ed Eg) as E.
      rewrite Forall_forall in Hsc. rewrite Hsc in E; [done|]. rewrite Esc. apply list_elem_of_fmap. eauto.
    + intros p Hv. destruct (isDimensionScale (snd p)) eqn:Ed; [|done]. destruct (go_scale _ _ Hg p (Hvns p Hv) Ed) as [_ E].
      assert (Hn : fst p ∈ not_scales (listVariables g)) by (rewrite Ens; apply list_elem_of_fmap; eauto). unfold not_scales in Hn.
      apply list_elem_of_filter in Hn as [Hn _]. by rewrite E in Hn.
  - destruct (names_opened _ Hin) as (l & El & Hl). rewrite El in Hp |- *. apply fix_order_ok; [done|]. apply same_names; [|done]. rewrite Hp. apply (go_names _ _ Hg).
Qed.

(** ** The loop over the scales *)

Lemma collect_scales sc st : (forall p, p ∈ sc -> p ∈ vars /\ isDimensionScale (snd p) = true) -> 0 <= maxSize0 st ->
  exists st', foldM (collect_step g) st (map fst sc) = Ok st' /\ varList st' = varList st /\ dimVarList st' = dimVarList st ++ sc /\
    dimsAttachedToVars st' = dimsAttachedToVars st /\ maxSize0 st' = Z.max (maxSize0 st) (max_size0 sc) /\ dimension_scales st' ≡ₚ dimension_scales st ++ sc.
Proof.
  revert st. induction sc as [|p sc IH]; intros st Hsc Hm; [exists st; rewrite !app_nil_r; cbn; split_and!; (done || lia)|]. cbn [map foldM].
  destruct (Hsc p) as [Hp Hd]; [left|]. destruct (go_scale _ _ Hg p Hp Hd) as [Hlen Hname]. destruct p as [n v]. cbn [fst snd] in *.
  assert (Hstep : collect_step g st n = Ok {| varList := varList st; dimVarList := dimVarList st ++ [(n, v)]; dimsAttachedToVars := dimsAttachedToVars st;
    maxSize0 := Z.max (maxSize0 st) (size0 (n, v)); dimension_scales := push_scale (n, v) (dimension_scales st) |}).
  { unfold collect_step, size0. rewrite (go_open _ _ Hg (n, v) Hp : openVariable g n = Ok v). cbn [mbind res_bind snd]. rewrite Hlen, Hname, Hd. cbn [Nat.eqb andb].
    by destruct (getDimensions v). }
  rewrite Hstep. cbn [mbind res_bind]. match goal with |- context [foldM _ ?st1 _] => destruct (IH st1) as (st' & E & H1 & H2 & H3 & H4 & H5) end; [intros q Hq; apply Hsc; by right| |].
  { cbn [maxSize0]. lia. }
  exists st'. cbn [varList dimVarList dimsAttachedToVars maxSize0 dimension_scales] in *. split_and!; [exact E|done|by rewrite H2, <-app_assoc|done| |].
  - rewrite H4. unfold max_size0. cbn [map foldr]. lia.
  - rewrite H5. unfold push_scale. destruct (isLocationName _); solve_Permutation.
Qed.

(** ** The loop over the variables *)

Definition first_along (along : list Named_Variable) : res Named_Variable :=
  match along with [] => Throw (EException "Unexpected size of dim_scales_along_axis") | s :: _ => Ok s end.
(** The scales along the dimensions of a variable. *)
Definition dims_of (v : V) (ds : list Named_Variable) : Prop :=
  length ds = length (getDimensions v) /\ forall i t, ds !! i = Some t -> t ∈ scales_of vars /\ isDimensionScaleAttached v i (snd t) = true.

Lemma variable_scales p known : p ∈ vars -> isDimensionScale (snd p) = false -> known ≡ₚ scales_of vars ->
  exists ds, mapR first_along (getDimensionScaleMappings (snd p) known true) = Ok ds /\ dims_of (snd p) ds.
Proof.
  intros Hp Hd Hk. unfold getDimensionScaleMappings, dims_of.
  assert (Hgo : forall k a, (a + k <= length (getDimensions (snd p)))%nat -> exists ds, mapR first_along (map (attached_along (snd p) true known) (seq a k)) = Ok ds /\
    length ds = k /\ forall i t, ds !! i = Some t -> t ∈ scales_of vars /\ isDimensionScaleAttached (snd p) (a + i) (snd t) = true).
  { induction k as [|k IH]; intros a Ha; [by exists []|]. cbn [seq map mapR]. destruct (go_attached _ _ Hg p a Hp Hd) as (s & Hs & Hsd & Hu); [lia|].
    assert (Hin : s ∈ filter (fun t => isDimensionScaleAttached (snd p) a (snd t) = true) known).
    { apply list_elem_of_filter. split; [by apply Hu|]. rewrite Hk. by apply list_elem_of_filter. }
    destruct (filter (fun t => isDimensionScaleAttached (snd p) a (snd t) = true) known) as [|t rest] eqn:Ef; [by apply elem_of_nil in Hin|].
    replace (attached_along (snd p) true known a) with [t] by (unfold attached_along; by rewrite Ef). cbn [first_along mbind res_bind].
    assert (Ht : t ∈ filter (fun t => isDimensionScaleAttached (snd p) a (snd t) = true) known) by (rewrite Ef; left). apply list_elem_of_filter in Ht as [Ht1 Ht2].
    rewrite Hk in Ht2. destruct (IH (S a)) as (ds & -> & Hlen & Hds); [lia|]. cbn [mbind res_bind]. exists (t :: ds). split_and!; [done|by cbn; f_equal|].
    intros [|i] t' E; cbn in E; [simplify_eq; by rewrite Nat.add_0_r|]. replace (a + S i)%nat with (S a + i)%nat by lia. by apply Hds. }
  destruct (Hgo (length (getDimensions (snd p))) 0%nat) as (ds & E & Hlen & Hds); [lia|]. eauto.
Qed.

Lemma collect_variables ns st : (forall p, p ∈ ns -> p ∈ vars /\ isDimensionScale (snd p) = false) -> NoDup (map fst ns) ->
  (forall p, p ∈ ns -> dimsAttachedToVars st !! fst p = None) -> dimension_scales st ≡ₚ scales_of vars -> 0 <= maxSize0 st ->
  exists st', foldM (collect_step g) st (map fst ns) = Ok st' /\ varList st' = varList st ++ ns /\ dimVarList st' = dimVarList st /\
    maxSize0 st' = Z.max (maxSize0 st) (max_size0 ns) /\
    (forall p, p ∈ ns -> exists ds, dimsAttachedToVars st' !! fst p = Some ds /\ dims_of (snd p) ds) /\
    (forall n, n ∉ map fst ns -> dimsAttachedToVars st' !! n = dimsAttachedToVars st !! n).
Proof.
  revert st. induction ns as [|p ns IH]; intros st Hns Hnd Hnew Hk Hm.
  { exists st. rewrite app_nil_r. cbn. split_and!; try done; [lia|by intros p Hp%elem_of_nil]. }
  cbn [map] in *. apply NoDup_cons in Hnd as [Hni Hnd]. cbn [foldM]. destruct (Hns p) as [Hp Hd]; [left|]. destruct (variable_scales p _ Hp Hd Hk) as (ds & Eds & Hds).
  assert (Hstep : collect_step g st (fst p) = Ok {| varList := varList st ++ [p]; dimVarList := dimVarList st;
    dimsAttachedToVars := <[fst p := ds]> (dimsAttachedToVars st); maxSize0 := Z.max (maxSize0 st) (size0 p); dimension_scales := dimension_scales st |}).
  { unfold collect_step, size0. rewrite (go_open _ _ Hg p) by done. cbn [mbind res_bind]. rewrite Hd, andb_false_r. fold first_along. rewrite Eds. cbn [mbind res_bind].
    rewrite Hnew by left. destruct p as [n v]. cbn [fst snd]. do 2 f_equal. destruct (getDimensions v); [lia|done]. }
  rewrite Hstep. cbn [mbind res_bind]. match goal with |- context [foldM _ ?st1 _] => destruct (IH st1) as (st' & E & H1 & H2 & H3 & H4 & H5) end.
  - intros q Hq. apply Hns. by right.
  - done.
  - intros q Hq. cbn [dimsAttachedToVars]. rewrite lookup_insert_ne; [apply Hnew; by right|]. intros Eq. apply Hni. apply list_elem_of_fmap. by exists q.
  - exact Hk.
  - cbn [maxSize0]. lia.
  - exists st'. cbn [varList dimVarList dimsAttachedToVars maxSize0] in *. split_and!; [exact E|by rewrite H1, <-app_assoc|done| | |].
    + rewrite H3. unfold max_size0. cbn [map foldr]. lia.
    + intros q Hq. apply elem_of_cons in Hq as [->|Hq]; [|by apply H4]. exists ds. split; [|done]. by rewrite H5, lookup_insert_eq.
    + intros n Hn. rewrite H5 by set_solver. rewrite lookup_insert_ne; [done|]. set_solver.
Qed.
End group.

(** What is collected of a group. *)
Definition collected (vars : list Named_Variable) (info : VarDimInfo V) : Prop :=
  dimVarList info ≡ₚ scales_of vars /\ varList info ≡ₚ variables_of vars /\ maxSize0 info = max_size0 vars /\
  (forall p, p ∈ variables_of vars -> exists ds, dimsAttachedToVars info !! fst p = Some ds /\ length ds = length (getDimensions (snd p)) /\
     forall i t, ds !! i = Some t -> t ∈ scales_of vars /\ isDimensionScaleAttached (snd p) i (snd t) = true) /\
  (forall n, n ∉ map fst (variables_of vars) -> dimsAttachedToVars info !! n = None).

Lemma collected_ok (g : FileGroup V) (vars : list Named_Variable) : group_ok g vars -> exists info, collectVarDimInfo g = Ok info /\ collected vars info.
Proof.
  intros Hg. destruct (collection_order g vars Hg) as (names & E & sc & ns & -> & Hperm & Hsc & Hns). unfold collectVarDimInfo. rewrite E. cbn [mbind res_bind].
  assert (Hin : forall p, p ∈ sc ++ ns -> p ∈ vars) by (intros p; by rewrite Hperm).
  assert (Esc : sc ≡ₚ scales_of vars).
  { unfold scales_of. rewrite <-Hperm, filter_app, (filter_every _ sc), (filter_none _ ns), app_nil_r; [done| |done]. intros p Hp E'. by rewrite Hns in E'. }
  assert (Ens : ns ≡ₚ variables_of vars).
  { unfold variables_of. rewrite <-Hperm, filter_app, (filter_none _ sc), (filter_every _ ns); [done|done|]. intros p Hp E'. by rewrite Hsc in E'. }
  rewrite map_app, foldM_app. destruct (collect_scales g vars Hg sc no_info) as (st & E1 & S1 & S2 & S3 & S4 & S5); [split; [apply Hin; set_solver|by apply Hsc]|done|].
  rewrite E1. cbn [mbind res_bind]. pose proof (go_nodup _ _ Hg) as Hnd. rewrite <-Hperm, map_app in Hnd. apply NoDup_app in Hnd as (_ & _ & Hnd).
  destruct (collect_variables g vars Hg ns st) as (st' & E2 & V1 & V2 & V3 & V4 & V5).
  - split; [apply Hin; set_solver|by apply Hns].
  - done.
  - intros p _. rewrite S3. apply lookup_empty.
  - rewrite S5. by rewrite <-Esc.
  - rewrite S4. cbn. lia.
  - exists st'. unfold collected. split_and!; [done|by rewrite V2, S2|by rewrite V1, S1| | |].
    + rewrite V3, S4. assert (Hmax : forall a b : list Named_Variable, max_size0 (a ++ b) = Z.max (max_size0 a) (max_size0 b)).
      { intros a b. unfold max_size0. induction a as [|x a IH]; cbn [map foldr app]; [|lia]. clear. induction (map size0 b); cbn; lia. }
      rewrite <-Hperm, Hmax. cbn. unfold max_size0. clear. induction (map size0 sc); cbn; lia.
    + intros p Hp. rewrite <-Ens in Hp. destruct (V4 p Hp) as (ds & ? & ?). exists ds. done.
    + intros n Hn. rewrite V5, S3; [apply lookup_empty|]. by rewrite Ens.
Qed.

(** C23: The scales and variables of a group.  For a group whose scales look like
    scales and whose variables have one scale along each dimension, one pass over
    the names in the order in which they are sorted succeeds: it separates the
    scales from the variables, finds for every variable the scale that is attached
    to each of its dimensions, and the largest first dimension. *)
Theorem var_dim_info_collected (g : FileGroup V) (vars : list Named_Variable) : group_ok g vars ->
  exists info, collectVarDimInfo g = Ok info /\ dimVarList info ≡ₚ scales_of vars /\ varList info ≡ₚ variables_of vars /\
    maxSize0 info = max_size0 vars /\
    (forall p, p ∈ variables_of vars -> exists ds, dimsAttachedToVars info !! fst p = Some ds /\ length ds = length (getDimensions (snd p)) /\
       forall i t, ds !! i = Some t -> t ∈ scales_of vars /\ isDimensionScaleAttached (snd p) i (snd t) = true) /\
    (forall n, n ∉ map fst (variables_of vars) -> dimsAttachedToVars info !! n = None).
Proof. apply collected_ok. Qed.
End collect.

(** The example: a file with a scale of locations, one of channels, and two
    variables in groups. *)
Module Sample.
Definition hh (addr : Z) (dims : list Z) (scale : bool) (refs : list (list (Z * Z))) : HH_Variable :=
  {| hh_info := (1, addr); hh_dims := dims; hh_scale := scale; hh_dimension_list := match refs with [] => None | _ => Some refs end |}.
Definition location := ("Location", hh 10 [2] true []).
Definition channel := ("Channel", hh 20 [3] true []).
Definition temperature := ("ObsValue/brightnessTemperature", hh 30 [2; 3] false [[(1, 10)]; [(1, 20)]]).
Definition latitude := ("MetaData/latitude", hh 40 [2] false [[(1, 10)]]).
Definition vars : list (string * HH_Variable) := [temperature; channel; latitude; location].
Definition file : FileGroup HH_Variable := {|
  listVariables := map fst vars;
  openVariable n := match List.find (fun p => bool_decide (fst p = n)) vars with Some p => Ok (snd p) | None => Throw (EException "") end;
  hasGroups := true
|}.

Ltac members := repeat match goal with H : _ ∈ _ :: _ |- _ => apply elem_of_cons in H as [->|H] | H : _ ∈ [] |- _ => by apply elem_of_nil in H end.
Lemma sample_file_ok : group_ok file vars.
Proof.
  split.
  - done.
  - apply (bool_decide_unpack _). vm_compute. exact I.
  - intros p Hp. unfold vars in Hp. members; reflexivity.
  - intros p Hp Hs. unfold vars in Hp. members; (done || by split).
  - intros p Hp Hs _. unfold vars in Hp. members; done.
  - intros p i Hp Hs Hi. unfold vars in Hp. members; try done.
    + destruct i as [|[|i]]; [exists location|exists channel|cbn in Hi; lia]; (split; [set_solver|split; [done|]]); intros t Ht Hd; unfold vars in Ht; members; done.
    + destruct i as [|i]; [exists location|cbn in Hi; lia]; (split; [set_solver|split; [done|]]); intros t Ht Hd; unfold vars in Ht; members; done.
Qed.

Lemma var_dim_info_collected_witness : exists info, collectVarDimInfo file = Ok info /\
  map fst <$> dimsAttachedToVars info !! "ObsValue/brightnessTemperature" = Some ["Location"; "Channel"] /\ map fst (dimVarList info) = ["Location"; "Channel"].
Proof.
  destruct (var_dim_info_collected file vars sample_file_ok) as (info & H & _). exists info. split; [exact H|]. vm_compute in H. injection H as <-. split; reflexivity.
Defined.

Lemma HH_scales_found_witness : HH_getDimensionScaleMappings (snd temperature) [channel; location] true [1%nat] = Ok [[]; [channel]] /\
  HH_isDimensionScaleAttached (snd temperature) 0 (snd location) = Ok true.
Proof.
  destruct (HH_scales_found (snd temperature) [channel; location] true [1%nat]) as (_ & H1 & _ & H2).
  - intros buf [= <-]. reflexivity.
  - apply NoDup_singleton.
  - split; [rewrite H1 by (repeat constructor; cbn; lia)|rewrite H2 by (cbn; lia)]; reflexivity.
Defined.
End Sample.
