(* ===== verification/UpgradeV1V2.v ===== *)
(** The program ioda-upgrade-v1-to-v2: variables with channel suffixes become
    variables with a dimension of channels.

    Models src/src/engines/ioda/src/mains/upgrade/upgradev1v2.cpp: the grouping
    of similar variables, the channel numbers, and the copying of the data.  A
    variable is its name and a payload; files are lists of variables. *)
From stdpp Require Import base list gmap strings pretty.
From Stdlib Require Import ZArith.
From S2P Require Import Prelude Selection ObsRecords ObsSpaceVars OdbVariables OdbOpen OdbWrite OdbLayout WriterTransfer VarUtils.
Local Open Scope Z_scope.

(** * Names *)

Definition underscore (c : Ascii.ascii) : bool := (Ascii.nat_of_ascii c =? 95)%nat.
(** [find_last_of], [find_last_not_of] for a class of characters. *)
Fixpoint find_last (p : Ascii.ascii -> bool) (s : string) : option nat :=
  match s with
  | EmptyString => None
  | String c s => match find_last p s with Some n => Some (S n) | None => if p c then Some 0%nat else None end
  end.

(** [substr] to the end. *)
Definition from (pos : nat) (s : string) : string := String.substring pos (String.length s) s.

Definition getChanSuffixPos (name : string) : option nat :=
  match find_last underscore name with
  | None => None
  | Some pos =>
      if (pos + 1 <? String.length name)%nat then (if all_digits (from (pos + 1) name) then Some pos else None)
      else Some pos
  end.
(** [substr(0, pos)], the whole string for [npos]; [substr(pos + 1)], which is the
    whole string for [npos]. *)
Definition base_name (name : string) : string :=
  match getChanSuffixPos name with Some pos => String.substring 0 pos name | None => name end.
Definition suffix (name : string) : string :=
  match getChanSuffixPos name with Some pos => from (pos + 1) name | None => name end.
(** [std::atoi] of a number that fits. *)
Definition atoi (s : string) : Z :=
  let '(neg, s) := match skip_space s with
    | String c s' => if (Ascii.nat_of_ascii c =? 45)%nat then (true, s')
                     else if (Ascii.nat_of_ascii c =? 43)%nat then (false, s') else (false, String c s')
    | EmptyString => (false, EmptyString)
    end in
  if neg : bool then - digits_value 0 (digit_prefix s) else digits_value 0 (digit_prefix s).

Definition is_metadata (name : string) : bool := match String.index 0 "MetaData/" name with Some _ => true | None => false end.
Definition has_digit (s : string) : bool := has_char is_digit s.

Definition varsAreSimilar (lhs rhs : string) : bool :=
  if is_metadata lhs || is_metadata rhs then false
  else if negb (has_digit lhs) && negb (has_digit rhs) then bool_decide (lhs = rhs)
  else bool_decide (base_name lhs = base_name rhs).

(** * Grouping *)

Section grouping.
Context {V : Type}.
Notation Named_Variable := (string * V)%type.
Notation VarDimMap := (gmap string (list Named_Variable)).

Definition name_lt (a b : Named_Variable) : bool := String.ltb (fst a) (fst b).
Definition number_lt (a b : Named_Variable) : bool := atoi (suffix (fst a)) <? atoi (suffix (fst b)).

(** [collect] for the range that starts with [start] and goes on with [more]. *)
Definition collect (start : Named_Variable) (more : list Named_Variable) (st : VarDimMap * list Named_Variable) : VarDimMap * list Named_Variable :=
  let '(similarVariables, dissimilarVariables) := st in
  match more with
  | [] =>
      if is_metadata (fst start) || bool_decide (getChanSuffixPos (fst start) = None)
      then (similarVariables, dissimilarVariables ++ [start])
      else (<[base_name (fst start) := [start]]> similarVariables, dissimilarVariables)
  | _ => (<[base_name (fst start) := std_sort number_lt (start :: more)]> similarVariables, dissimilarVariables)
  end.

(** The loop from [rangeStart] with the range [more]; the last range is collected
    at the last element of the loop. *)
Fixpoint collect_ranges (start : Named_Variable) (more rest : list Named_Variable) (st : VarDimMap * list Named_Variable)
  : VarDimMap * list Named_Variable :=
  match rest with
  | [] => st
  | it :: rest =>
      let '(start, more, st) := if varsAreSimilar (fst start) (fst it) then (start, more ++ [it], st) else (it, [], collect start more st) in
      let st := match rest with [] => collect start more st | _ => st end in
      collect_ranges start more rest st
  end.

Definition convert_names (l : list Named_Variable) : list Named_Variable := map (fun v => (convertV1PathToV2Path (fst v), snd v)) l.
Definition identifySimilarVariables (inVarList : list Named_Variable) : res (VarDimMap * list Named_Variable) :=
  match std_sort name_lt (convert_names inVarList) with
  | [] => Throw EUndefined
  | start :: rest => Ok (collect_ranges start [] rest (∅, []))
  end.
End grouping.

(** * The output file

    Its variables belong to the HDF5 engine: [OutputFile] has the two write
    operations, [OutputLaws] what is relied on of them. *)
Definition ones (l : list Z) : list Z := map (fun _ => 1) l.
Definition unit_block (extent starts counts : list Z) : FrontSelection :=
  {| default_ := StateALL;
     actions_ := [{| start_ := starts; count_ := counts; stride_ := ones counts; block_ := ones counts; points_ := [];
                     dimension_ := 0; dimension_indices_starts_ := []; dimension_indices_counts_ := [] |}];
     extent_ := extent |}.

Class OutputFile := {
  out_write : forall {A}, list Z -> list A -> list A -> res (list A);
  out_write_selection : forall {A}, list Z -> list A -> FrontSelection -> FrontSelection -> list A -> res (list A)
}.
Class OutputLaws `{OutputFile} := {
  out_write_law : forall A dims (old data : list A), Z.of_nat (length data) = prodZ dims -> out_write dims old data = Ok data;
  out_write_selection_law : forall A dims (old data : list A) starts counts,
    length starts = length dims -> length counts = length dims ->
    Forall2 (fun '(s, c) n => 0 <= s /\ 0 <= c /\ s + c <= n) (zip starts counts) dims ->
    Z.of_nat (length data) = prodZ counts -> Z.of_nat (length old) = prodZ dims ->
    out_write_selection dims old (unit_block counts (map (fun _ => 0) counts) counts) (unit_block dims starts counts) data =
    Ok (store_at old (block_positions starts counts dims) data)
}.
Definition reference_output : OutputFile := {|
  out_write A dims old data := Ok data;
  out_write_selection A dims old mem file data :=
    match actions_ file with
    | [a] => Ok (store_at old (block_positions (start_ a) (count_ a) dims) data)
    | _ => Throw EUndefined
    end
|}.
Lemma reference_output_laws : @OutputLaws reference_output.
Proof. by split. Qed.

(** * Chunk sizes *)

Definition defaultChunkSize : Z := 100.
Definition checkAdjustChunkSizes (newChunkSize : Z) (chunks : list Z) : list Z := map (fun i => if i =? 0 then newChunkSize else i) chunks.

(** The rightmost dimension that is not 1 is halved; without one the iterator
    runs past the end. *)
Fixpoint halve_last (c : list Z) : option (list Z) :=
  match c with
  | [] => None
  | d :: c => match halve_last c with
      | Some c' => Some (d :: c')
      | None => if d =? 1 then None else Some (Z.quot d 2 :: c)
      end
  end.
Definition max_chunk_size : Z := 6400.
Fixpoint shrink_chunks (fuel : nat) (c : list Z) : res (list Z) :=
  if prodZ c <=? max_chunk_size then Ok c
  else match fuel, halve_last c with
  | S fuel, Some c' => shrink_chunks fuel c'
  | O, _ => Throw EFuel
  | _, None => Throw EUndefined
  end.
Definition chunk_fuel (c : list Z) : nat := sum_list (map (fun d => Z.to_nat (Z.log2 d)) c).

(** * Attributes *)

(** An attribute: the size of its type in bytes, its dimensions and its data. *)
Record Attr := { at_size : nat; at_dims : list Z; at_bytes : list Z }.
Definition ignored_names : list string :=
  ["CLASS"; "DIMENSION_LIST"; "NAME"; "REFERENCE_LIST"; "_Netcdf4Coordinates"; "_Netcdf4Dimid"; "_nc3_strict"].
(** An attribute without elements becomes one element of one zero byte; an element
    of more bytes is written from beyond the buffer. *)
Definition copied_attribute (a : Attr) : res Attr :=
  if prodZ (at_dims a) =? 0 then
    (if (at_size a <=? 1)%nat then Ok {| at_size := at_size a; at_dims := [1]; at_bytes := [0] |} else Throw EUndefined)
  else Ok a.
Definition has_attribute (name : string) (l : list (string * Attr)) : bool := bool_decide (name ∈ map fst l).
Definition copyAttributes (src dest : list (string * Attr)) : res (list (string * Attr)) :=
  foldM (fun dest s =>
    if bool_decide (fst s ∈ ignored_names) then Ok dest
    else if has_attribute (fst s) dest then Ok dest
    else a ← copied_attribute (snd s); Ok (dest ++ [(fst s, a)])) dest src.

(** * Channels *)

(** The channel number as it is taken from a name for the scale nchans. *)
Definition channel_number (name : string) : res Z :=
  let pos := match find_last (fun c => negb (underscore c || is_digit c)) name with Some p => (p + 2)%nat | None => 1%nat end in
  schan ← substr pos (String.length name) name;
  Ok (atoi schan).

Definition chan_map (channels : list Z) : gmap Z nat := foldl (fun m p => <[snd p := fst p]> m) ∅ (imap pair channels).

Section copy.
Context {A : Type} `{OF : OutputFile}.

(** The contents of a variable: strings, with the size of their type in bytes,
    or elements of another type. *)
Inductive Contents := Strings (size : nat) (l : list string) | Elements (l : list A).
(** A variable of the old file: an identity, its dimensions, the identities of the
    scales of its dimensions, chunk sizes, fill value and attributes. *)
Record OldVariable := {
  ov_id : Z;
  ov_dims : list Z;
  ov_is_scale : bool;
  ov_axes : list Z;
  ov_chunks : list Z;
  ov_fill : A;
  ov_atts : list (string * Attr);
  ov_contents : Contents
}.
#[export] Instance old_backend : VariableBackend OldVariable := {|
  getDimensions := ov_dims;
  isDimensionScale := ov_is_scale;
  isDimensionScaleAttached v i s := bool_decide (ov_axes v !! i = Some (ov_id s))
|}.
Notation Named_Variable := (string * OldVariable)%type.

(** The groups in the order of the map. *)
Definition group_list (similar : gmap string (list Named_Variable)) : list (string * list Named_Variable) :=
  std_sort (fun a b => String.ltb (fst a) (fst b)) (map_to_list similar).
Definition chan_template (similar : gmap string (list Named_Variable)) : list Named_Variable :=
  foldl (fun best g => if (length best <? length (snd g))%nat then snd g else best) [] (group_list similar).
Definition channels (similar : gmap string (list Named_Variable)) : res (list Z) := mapR (fun v => channel_number (fst v)) (chan_template similar).

(** ** [copyData] *)

Definition is_space_char (c : Ascii.ascii) : bool := let n := Ascii.nat_of_ascii c in (n =? 32)%nat || ((9 <=? n) && (n <=? 13))%nat.
Fixpoint right_trim (s : string) : string :=
  match s with
  | EmptyString => EmptyString
  | String c s => match right_trim s with
      | EmptyString => if is_space_char c then EmptyString else String c EmptyString
      | r => String c r
      end
  end.
(** The string in an array of characters, up to the first zero. *)
Fixpoint c_string (l : list Ascii.ascii) : string :=
  match l with
  | [] => EmptyString
  | c :: l => if (Ascii.nat_of_ascii c =? 0)%nat then EmptyString else String c (c_string l)
  end.
Definition first_char (s : string) : Ascii.ascii := match s with String c _ => c | EmptyString => Ascii.ascii_of_nat 0 end.

(** Strings of one character that are put together in groups. *)
Definition repack_step (group_sz : nat) (st : list Ascii.ascii * list string) (p : nat * string) : list Ascii.ascii * list string :=
  let idx := (fst p mod group_sz)%nat in
  let new_str := <[idx := first_char (snd p)]> (fst st) in
  let str := right_trim (c_string new_str) in
  (new_str, if (idx + 1 =? group_sz)%nat then snd st ++ [str] else snd st).
Definition repack (group_sz : nat) (buf_in : list string) : list string :=
  snd (foldl (repack_step group_sz) (replicate (group_sz + 1) (Ascii.ascii_of_nat 0), []) (imap pair buf_in)).

Definition copy_strings (old_dims new_dims : list Z) (buf_in out : list string) : res (list string) :=
  if prodZ old_dims =? prodZ new_dims then out_write new_dims out buf_in
  else match last old_dims with
  | Some group_sz => out_write new_dims out (repack (Z.to_nat group_sz) buf_in)
  | None => Ok out
  end.

(** The index of a variable of a group in the dimension of channels. *)
Definition chan_index (newVarName : string) (chanNumToIndex : gmap Z nat) (i : nat) (oldVarName : string) : res nat :=
  if decide (chanNumToIndex = ∅) then Ok i
  else match strip_prefix newVarName oldVarName with
  | Some _ =>
      s ← substr (String.length newVarName + 1) (String.length oldVarName) oldVarName;
      chanNum ← std_stoi s;
      match chanNumToIndex !! chanNum with Some index => Ok index | None => Throw EOutOfRange end
  | None => Ok i
  end.

(** The starts and counts of one channel of a variable with these dimensions. *)
Definition channel_starts (dims : list Z) (index : Z) : list Z := map (fun _ => 0) (removelast dims) ++ [index].
Definition channel_counts (dims : list Z) : list Z := removelast dims ++ [1].

Definition copy_elements (single : bool) (new_dims : list Z) (index : nat) (buf out : list A) : res (list A) :=
  if single then out_write new_dims out buf
  else
    let counts := channel_counts new_dims in
    out_write_selection new_dims out (unit_block counts (map (fun _ => 0) counts) counts)
      (unit_block new_dims (channel_starts new_dims (Z.of_nat index)) counts) buf.

Definition copy_step (single : bool) (newVarName : string) (chanNumToIndex : gmap Z nat) (new_dims : list Z) (out : Contents) (p : nat * Named_Variable)
  : res Contents :=
  let '(i, (name, v)) := p in
  match ov_contents v, out with
  | Strings _ buf, Strings sz out => out ← copy_strings (ov_dims v) new_dims buf out; Ok (Strings sz out)
  | Elements buf, Elements out =>
      index ← (if single then Ok 0%nat else chan_index newVarName chanNumToIndex i name);
      out ← copy_elements single new_dims index buf out; Ok (Elements out)
  | _, _ => Throw EUndefined
  end.
Definition copyData (old : list Named_Variable) (newVarName : string) (chanNumToIndex : gmap Z nat) (new_dims : list Z) (out : Contents) : res Contents :=
  foldM (copy_step (length old =? 1)%nat newVarName chanNumToIndex new_dims) out (imap pair old).
End copy.
Arguments Contents A : clear implicits.
Arguments OldVariable A : clear implicits.
