(* ===== verification/UpgradeV1V2Spec.v ===== *)
(** The grouping of variables by channel suffixes: for well-named variables the
    ranges of the sorted list are the complete groups. *)
From stdpp Require Import base list gmap strings pretty sorting.
From Stdlib Require Import ZArith.
From S2P Require Import Prelude Selection ObsRecords ObsSpaceVars OdbVariables OdbOpen OdbWrite OdbWriteSpec OdbCreateSpec OdbLayout OdbLayoutSpec UpgradeV1V2.
Local Open Scope Z_scope.

(** * The order of strings *)

Lemma ltb_cons a b s t : String.ltb (String a s) (String b t) =
  (Ascii.nat_of_ascii a <? Ascii.nat_of_ascii b)%nat || ((Ascii.nat_of_ascii a =? Ascii.nat_of_ascii b)%nat && String.ltb s t).
Proof.
  unfold String.ltb. cbn [String.compare]. unfold Ascii.compare, Ascii.nat_of_ascii.
  destruct (N.compare_spec (Ascii.N_of_ascii a) (Ascii.N_of_ascii b)) as [E|E|E].
  - rewrite E, Nat.ltb_irrefl, Nat.eqb_refl. done.
  - replace (_ <? _)%nat with true by (symmetry; apply Nat.ltb_lt; lia). done.
  - replace (_ <? _)%nat with false by (symmetry; apply Nat.ltb_ge; lia). replace (_ =? _)%nat with false by (symmetry; apply Nat.eqb_neq; lia). done.
Qed.

(** Case analysis of a comparison of first characters. *)
Ltac chars := rewrite ?ltb_cons in *; rewrite ?orb_true_iff, ?orb_false_iff, ?andb_true_iff, ?andb_false_iff, ?Nat.ltb_lt, ?Nat.ltb_ge, ?Nat.eqb_eq, ?Nat.eqb_neq in *.

#[export] Instance string_strict_weak : StrictWeak String.ltb.
Proof.
  split.
  - intros x. induction x as [|c x IH]; [done|]. rewrite ltb_cons, Nat.ltb_irrefl, Nat.eqb_refl. done.
  - intros x. induction x as [|c x IH]; intros [|d y] [|e z] H1 H2; try done. chars. intuition (try lia). right. split; [lia|by eapply IH].
  - intros x. induction x as [|c x IH]; intros [|d y] [|e z] H1 H2; try done. chars. destruct H1 as [H1 H1'], H2 as [H2 H2']. split; [lia|].
    destruct (decide (Ascii.nat_of_ascii c = Ascii.nat_of_ascii e)) as [E|E]; [|by left]. right.
    destruct H1' as [H1'|H1'], H2' as [H2'|H2']; try lia. by eapply IH.
Qed.

#[export] Instance name_strict_weak {V} : StrictWeak (name_lt (V := V)).
Proof. unfold name_lt. split; intros; [apply sw_irrefl|by eapply sw_trans|by eapply sw_ntrans]. Qed.
#[export] Instance number_strict_weak {V} : StrictWeak (number_lt (V := V)).
Proof. unfold number_lt. split; intros; rewrite ?Z.ltb_ge, ?Z.ltb_lt in *; lia. Qed.

(** A string between two strings with a common prefix has the prefix. *)
Lemma between_prefix p s t y : String.ltb y (p +:+ s) = false -> String.ltb (p +:+ t) y = false ->
  exists r, y = p +:+ r /\ String.ltb r s = false /\ String.ltb t r = false.
Proof.
  revert y. induction p as [|c p IH]; intros y H1 H2; [by exists y|].
  change (String c p +:+ s) with (String c (p +:+ s)) in H1. change (String c p +:+ t) with (String c (p +:+ t)) in H2.
  destruct y as [|d y]; [done|]. chars. destruct H1 as [H1 H1'], H2 as [H2 H2'].
  assert (E : Ascii.nat_of_ascii d = Ascii.nat_of_ascii c) by lia. destruct (IH y) as (r & -> & Hr1 & Hr2).
  - by destruct H1' as [?|?]; [lia|].
  - by destruct H2' as [?|?]; [lia|].
  - exists r. split; [|done]. change (String c p +:+ r) with (String c (p +:+ r)). f_equal.
    rewrite <-(Ascii.ascii_nat_embedding d), <-(Ascii.ascii_nat_embedding c). by rewrite E.
Qed.

(** * Channel suffixes *)

Definition starts_digit (s : string) : bool := match s with String c _ => is_digit c | EmptyString => false end.

(** A name of a channel variable: not of metadata, and with digits after the last
    underscore. *)
Definition channel_name (name : string) : bool :=
  negb (is_metadata name) && match getChanSuffixPos name with Some _ => true | None => false end.

Lemma find_last_app p a b n : find_last p b = Some n -> find_last p (a +:+ b) = Some (String.length a + n)%nat.
Proof.
  intros H. induction a as [|c a IH]; [done|]. change (String c a +:+ b) with (String c (a +:+ b)). cbn [find_last]. by rewrite IH.
Qed.

Lemma find_last_split s n : find_last underscore s = Some n -> exists a b, s = a +:+ "_" +:+ b /\ String.length a = n /\ find_last underscore b = None.
Proof.
  revert n. induction s as [|c s IH]; intros n H; [done|]. cbn [find_last] in H. destruct (find_last underscore s) as [m|] eqn:E.
  - simplify_eq. destruct (IH m eq_refl) as (a & b & -> & <- & Hb). by exists (String c a), b.
  - destruct (underscore c) eqn:Ec; simplify_eq. exists EmptyString, s. split; [|done]. cbn. f_equal. unfold underscore in Ec. apply Nat.eqb_eq in Ec.
    rewrite <-(Ascii.ascii_nat_embedding c), Ec. done.
Qed.

Lemma substring_prefix a b : String.substring 0 (String.length a) (a +:+ b) = a.
Proof. induction a as [|c a IH]; [by destruct b|]. change (String c a +:+ b) with (String c (a +:+ b)). cbn. by rewrite IH. Qed.
Lemma substring_skip a m b : String.substring (String.length a) m (a +:+ b) = String.substring 0 m b.
Proof. induction a as [|c a IH]; [done|]. change (String c a +:+ b) with (String c (a +:+ b)). cbn. by rewrite IH. Qed.

Lemma from_suffix a c b : from (String.length a + 1) (a +:+ String c b) = b.
Proof.
  unfold from. replace (a +:+ String c b) with ((a +:+ String c EmptyString) +:+ b) by (rewrite string_append_assoc; done).
  replace (String.length a + 1)%nat with (String.length (a +:+ String c EmptyString)) by (rewrite length_string_app; cbn; lia).
  rewrite substring_skip. apply substring_all. rewrite !length_string_app. cbn. lia.
Qed.

Lemma digits_no_underscore b : all_digits b = true -> find_last underscore b = None.
Proof.
  induction b as [|c b IH]; intros H; [done|]. cbn [all_digits] in H. apply andb_prop in H as [Hc Hb]. cbn [find_last]. rewrite IH by done.
  unfold underscore, is_digit in *. apply andb_prop in Hc as [_ Hc]. apply Nat.leb_le in Hc. by replace (_ =? _)%nat with false by (symmetry; apply Nat.eqb_neq; lia).
Qed.

Lemma suffix_pos a b : all_digits b = true -> getChanSuffixPos (a +:+ "_" +:+ b) = Some (String.length a).
Proof.
  intros Hb. unfold getChanSuffixPos. change ("_" +:+ b) with (String (Ascii.ascii_of_nat 95) b).
  assert (Hl : find_last underscore (String (Ascii.ascii_of_nat 95) b) = Some 0%nat) by (cbn [find_last]; by rewrite digits_no_underscore).
  rewrite (find_last_app _ a _ _ Hl), Nat.add_0_r, from_suffix, Hb. by destruct (_ <? _)%nat.
Qed.

Lemma suffix_parts a b : all_digits b = true -> base_name (a +:+ "_" +:+ b) = a /\ suffix (a +:+ "_" +:+ b) = b.
Proof.
  intros Hb. unfold base_name, suffix. rewrite suffix_pos by done. split; [apply substring_prefix|]. change ("_" +:+ b) with (String (Ascii.ascii_of_nat 95) b). apply from_suffix.
Qed.

Lemma suffix_shape name p : getChanSuffixPos name = Some p -> exists a b, name = a +:+ "_" +:+ b /\ all_digits b = true.
Proof.
  unfold getChanSuffixPos. destruct (find_last underscore name) as [n|] eqn:E; [|done]. destruct (find_last_split _ _ E) as (a & b & -> & <- & _).
  change ("_" +:+ b) with (String (Ascii.ascii_of_nat 95) b). rewrite from_suffix. destruct (_ <? _)%nat eqn:El.
  - destruct (all_digits b) eqn:Hb; [|done]. eauto.
  - intros _. exists a, b. split; [done|]. apply Nat.ltb_ge in El. rewrite length_string_app in El. cbn in El. destruct b as [|c b]; [done|]. cbn in El. lia.
Qed.

Lemma channel_shape name : channel_name name = true -> exists a b, name = a +:+ "_" +:+ b /\ all_digits b = true /\ base_name name = a /\ suffix name = b.
Proof.
  unfold channel_name. intros [_ H]%andb_prop. destruct (getChanSuffixPos name) as [p|] eqn:E; [|done].
  destruct (suffix_shape _ _ E) as (a & b & -> & Hb). destruct (suffix_parts a b Hb). eauto 6.
Qed.
Lemma unsuffixed_base name : getChanSuffixPos name = None -> base_name name = name.
Proof. unfold base_name. by intros ->. Qed.

(** Names that the grouping is made for: a suffix has a digit, a name that starts
    like a channel of a base is a channel of this base, and no variable has the
    name of a base. *)
Record well_named (names : list string) : Prop := {
  wn_digits x : x ∈ names -> channel_name x = true -> suffix x <> EmptyString;
  wn_prefix x y s : x ∈ names -> y ∈ names -> channel_name x = true -> y = base_name x +:+ "_" +:+ s -> starts_digit s = true ->
    channel_name y = true /\ base_name y = base_name x;
  wn_base x y : x ∈ names -> y ∈ names -> channel_name x = true -> is_metadata y = false -> y <> base_name x
}.

Definition same_group (x y : string) : Prop := channel_name x = true /\ channel_name y = true /\ base_name x = base_name y.

Section well_named.
Context (names : list string) (Hw : well_named names).

Lemma channel_has_digit x : x ∈ names -> channel_name x = true -> has_digit x = true.
Proof.
  intros Hx Hc. pose proof (wn_digits _ Hw x Hx Hc) as Hne. destruct (channel_shape x Hc) as (a & b & -> & Hb & _ & Hs). rewrite Hs in Hne.
  unfold has_digit. rewrite !has_char_app. destruct b as [|c b]; [done|]. cbn [all_digits] in Hb. apply andb_prop in Hb as [Hb _]. cbn [has_char]. by rewrite Hb, !orb_true_r.
Qed.

Lemma similar_iff x y : x ∈ names -> y ∈ names -> x <> y -> varsAreSimilar x y = true <-> same_group x y.
Proof.
  intros Hx Hy Hxy. unfold varsAreSimilar, same_group.
  destruct (is_metadata x) eqn:Mx; [split; [done|]; intros (Hc & _ & _); unfold channel_name in Hc; by rewrite Mx in Hc|].
  destruct (is_metadata y) eqn:My; [split; [done|]; intros (_ & Hc & _); unfold channel_name in Hc; by rewrite My in Hc|]. cbn [orb].
  destruct (channel_name x) eqn:Cx, (channel_name y) eqn:Cy.
  - rewrite (channel_has_digit x Hx Cx). cbn [negb andb]. rewrite bool_decide_eq_true. tauto.
  - split; [|by intros (_ & ? & _)]. rewrite (channel_has_digit x Hx Cx). cbn [negb andb]. rewrite bool_decide_eq_true. intros E. exfalso.
    apply (wn_base _ Hw x y Hx Hy Cx My). rewrite E. unfold channel_name in Cy. rewrite My in Cy. cbn in Cy. destruct (getChanSuffixPos y) eqn:G; [done|].
    by rewrite (unsuffixed_base y G).
  - split; [|by intros (? & _ & _)]. rewrite (channel_has_digit y Hy Cy), andb_false_r. rewrite bool_decide_eq_true. intros E. exfalso.
    apply (wn_base _ Hw y x Hy Hx Cy Mx). rewrite <-E. unfold channel_name in Cx. rewrite Mx in Cx. cbn in Cx. destruct (getChanSuffixPos x) eqn:G; [done|].
    by rewrite (unsuffixed_base x G).
  - split; [|by intros (? & _ & _)]. unfold channel_name in Cx, Cy. rewrite Mx in Cx. rewrite My in Cy. cbn in Cx, Cy.
    destruct (getChanSuffixPos x) eqn:Gx, (getChanSuffixPos y) eqn:Gy; try done. rewrite (unsuffixed_base x Gx), (unsuffixed_base y Gy).
    destruct (_ && _); rewrite bool_decide_eq_true; done.
Qed.

(** The names of a group are next to each other. *)
Lemma group_between x y z : x ∈ names -> y ∈ names -> z ∈ names -> same_group x z ->
  String.ltb y x = false -> String.ltb z y = false -> same_group x y.
Proof.
  intros Hx Hy Hz (Cx & Cz & E) H1 H2. pose proof (wn_digits _ Hw x Hx Cx) as Nx. pose proof (wn_digits _ Hw z Hz Cz) as Nz.
  destruct (channel_shape x Cx) as (a & b & Ex & Hb & Bx & Sx). destruct (channel_shape z Cz) as (a' & b' & Ez & Hb' & Bz & Sz).
  assert (Ea : a' = a) by congruence. rewrite Ea in Ez. rewrite Sx in Nx. rewrite Sz in Nz. rewrite Ex, <-string_append_assoc in H1. rewrite Ez, <-string_append_assoc in H2.
  destruct (between_prefix _ _ _ _ H1 H2) as (r & Hr & R1 & R2). rewrite string_append_assoc in Hr.
  assert (Hd : starts_digit r = true).
  { destruct b as [|c b]; [done|]. destruct b' as [|c' b']; [done|]. destruct r as [|d r]; [done|]. chars. cbn [starts_digit all_digits] in *.
    apply andb_prop in Hb as [Hb _]. apply andb_prop in Hb' as [Hb' _]. unfold is_digit in *. rewrite andb_true_iff, !Nat.leb_le in *. lia. }
  destruct (wn_prefix _ Hw x y r Hx Hy Cx) as [Cy By]; [by rewrite Bx|done|]. by split_and!.
Qed.
End well_named.

(** * The ranges *)

Section ranges.
Context {V : Type}.
Notation Named_Variable := (string * V)%type.
Implicit Types (v : Named_Variable) (l d more : list Named_Variable).

(** The variables of a group, and the variables that are not grouped. *)
Definition channels_of (b : string) l : list Named_Variable := filter (fun v => channel_name (fst v) = true /\ base_name (fst v) = b) l.
Definition ungrouped l : list Named_Variable := filter (fun v => channel_name (fst v) = false) l.
Definition grouped l (st : gmap string (list Named_Variable) * list Named_Variable) : Prop :=
  st.2 = ungrouped l /\ forall b, st.1 !! b = match channels_of b l with [] => None | vs => Some (std_sort number_lt vs) end.

Lemma not_channel name : (is_metadata name || bool_decide (getChanSuffixPos name = None)) = negb (channel_name name).
Proof.
  unfold channel_name. rewrite negb_andb, negb_involutive. f_equal. destruct (getChanSuffixPos name) eqn:E.
  - by rewrite bool_decide_false.
  - by rewrite bool_decide_true.
Qed.

Lemma collect_grouped d start more st : grouped d st ->
  (forall v, v ∈ more -> same_group (fst start) (fst v)) -> (forall v, v ∈ d -> ~ same_group (fst v) (fst start)) ->
  grouped (d ++ start :: more) (collect start more st).
Proof.
  intros [Hd Hs] Hmore Hdone. destruct st as [sim dis]. cbn [fst snd] in *. unfold grouped, ungrouped, channels_of in *.
  destruct (channel_name (fst start)) eqn:Cs.
  - assert (Hchan : forall v, v ∈ start :: more -> channel_name (fst v) = true /\ base_name (fst v) = base_name (fst start)).
    { intros v [->|Hv]%elem_of_cons; [done|]. destruct (Hmore v Hv) as (_ & ? & ?). done. }
    assert (Hst : collect start more (sim, dis) = (<[base_name (fst start) := std_sort number_lt (start :: more)]> sim, dis)).
    { unfold collect. destruct more; [|done]. rewrite not_channel, Cs. done. }
    rewrite Hst. cbn [fst snd]. split.
    + rewrite filter_app, (filter_none _ (start :: more)), app_nil_r; [done|]. intros v Hv. destruct (Hchan v Hv) as [-> _]. done.
    + intros b. rewrite filter_app. destruct (decide (b = base_name (fst start))) as [->|Hb].
      * rewrite lookup_insert_eq, (filter_every _ (start :: more)) by (intros; by apply Hchan). rewrite (filter_none _ d); [done|].
        intros v Hv [H1 H2]. by apply (Hdone v Hv).
      * rewrite lookup_insert_ne by done. rewrite (filter_none _ (start :: more)), app_nil_r; [apply Hs|]. intros v Hv [_ E]. destruct (Hchan v Hv) as [_ E'].
        by rewrite E' in E.
  - destruct more as [|m more]; [|by destruct (Hmore m ltac:(left)) as (E & _ & _); rewrite Cs in E].
    assert (Hst : collect start [] (sim, dis) = (sim, dis ++ [start])) by (unfold collect; by rewrite not_channel, Cs).
    rewrite Hst. cbn [fst snd]. split.
    + rewrite filter_app, filter_cons_True by done. by rewrite Hd.
    + intros b. rewrite filter_app, (filter_none _ [start]), app_nil_r; [apply Hs|]. intros v ->%list_elem_of_singleton [E _]. by rewrite Cs in E.
Qed.

Section loop.
Context (l : list Named_Variable).
Hypothesis Hnd : NoDup (map fst l).
Hypothesis Hw : well_named (map fst l).
Hypothesis Hsorted : StronglySorted (not_after name_lt) l.

Lemma name_in v : v ∈ l -> fst v ∈ map fst l.
Proof. intros Hv. apply list_elem_of_fmap. by exists v. Qed.

Lemma ordered l1 l2 x y : l = l1 ++ l2 -> x ∈ l1 -> y ∈ l2 -> String.ltb (fst y) (fst x) = false /\ fst x <> fst y.
Proof.
  intros E Hx Hy. split.
  - pose proof Hsorted as Hs. rewrite E in Hs. exact (StronglySorted_app_1_elem_of _ _ _ _ _ Hs Hx Hy).
  - intros Exy. pose proof Hnd as H. rewrite E, map_app in H. apply NoDup_app in H as (_ & H & _). apply (H (fst x)); [|rewrite Exy]; apply list_elem_of_fmap; eauto.
Qed.

Lemma collect_ranges_grouped rest : forall d start more st, l = d ++ (start :: more) ++ rest -> rest <> [] -> grouped d st ->
  (forall v, v ∈ more -> same_group (fst start) (fst v)) -> (forall v, v ∈ d -> ~ same_group (fst v) (fst start)) ->
  grouped l (collect_ranges start more rest st).
Proof.
  induction rest as [|it rest IH]; intros d start more st El Hne Hst Hmore Hdone; [done|]. cbn [collect_ranges].
  assert (Hin : forall v, v ∈ d ++ (start :: more) ++ it :: rest -> fst v ∈ map fst l) by (intros v Hv; apply name_in; by rewrite El).
  assert (Hsi : varsAreSimilar (fst start) (fst it) = true <-> same_group (fst start) (fst it)).
  { apply (similar_iff (map fst l) Hw); [apply Hin; set_solver|apply Hin; set_solver|].
    apply (ordered (d ++ start :: more) (it :: rest)); [by rewrite El, <-app_assoc|set_solver|left]. }
  destruct (varsAreSimilar (fst start) (fst it)) eqn:Es.
  - assert (Hmore' : forall v, v ∈ more ++ [it] -> same_group (fst start) (fst v)).
    { intros v Hv. apply elem_of_app in Hv as [Hv|Hv]; [by apply Hmore|]. apply list_elem_of_singleton in Hv. subst. by apply Hsi. }
    assert (El' : l = d ++ (start :: more ++ [it]) ++ rest) by (rewrite El; cbn; by rewrite <-app_assoc).
    destruct rest as [|x rest]; [|by apply (IH d)]. cbn [collect_ranges]. rewrite El'. cbn [app]. rewrite app_nil_r. by apply collect_grouped.
  - assert (Hst' : grouped (d ++ start :: more) (collect start more st)) by (by apply collect_grouped).
    assert (Hdone' : forall v, v ∈ d ++ start :: more -> ~ same_group (fst v) (fst it)).
    { intros v Hv Hg. enough (same_group (fst start) (fst it)) as H by (apply Hsi in H; done).
      apply elem_of_app in Hv as [Hv|[->|Hv]%elem_of_cons].
      - exfalso. apply (Hdone v Hv). apply (group_between (map fst l) Hw (fst v) (fst start) (fst it)).
        + apply Hin; set_solver. + apply Hin; set_solver. + apply Hin; set_solver. + done.
        + apply (ordered d ((start :: more) ++ it :: rest)); [done|done|left].
        + apply (ordered (d ++ start :: more) (it :: rest)); [by rewrite El, <-app_assoc|set_solver|left].
      - done.
      - destruct (Hmore v Hv) as (H1 & _ & H3), Hg as (_ & G2 & G3). split_and!; [done|done|congruence]. }
    assert (El' : l = (d ++ start :: more) ++ [it] ++ rest) by (by rewrite El, <-app_assoc).
    assert (Hnil : forall v : Named_Variable, v ∈ [] -> same_group (fst it) (fst v)) by (intros v Hv; by apply elem_of_nil in Hv).
    destruct rest as [|x rest]; [|by apply (IH (d ++ start :: more))]. cbn [collect_ranges]. rewrite El'. by apply collect_grouped.
Qed.
End loop.

(** Similar variables are grouped.  For well-named variables with names of
    their own, two or more of them, every variable without a channel suffix and
    every metadata variable stays on its own, and the variables with a channel
    suffix are put under their base name: each group has all the variables of its
    base, none else, in the order of their channel numbers. *)
Theorem similar_variables_grouped (vars : list Named_Variable) :
  NoDup (map fst (convert_names vars)) -> well_named (map fst (convert_names vars)) -> (2 <= length vars)%nat ->
  exists similar dissimilar, identifySimilarVariables vars = Ok (similar, dissimilar) /\
    dissimilar ≡ₚ ungrouped (convert_names vars) /\
    (forall b, is_Some (similar !! b) <-> channels_of b (convert_names vars) <> []) /\
    (forall b vs, similar !! b = Some vs -> vs ≡ₚ channels_of b (convert_names vars) /\ StronglySorted (not_after number_lt) vs).
Proof.
  intros Hnd Hw Hlen. unfold identifySimilarVariables. set (l := std_sort name_lt (convert_names vars)).
  assert (Hp : l ≡ₚ convert_names vars) by (apply std_sort_perm).
  assert (Hpn : map fst l ≡ₚ map fst (convert_names vars)) by (by rewrite Hp).
  assert (Hwl : well_named (map fst l)).
  { destruct Hw as [H1 H2 H3]. split; intros *; rewrite !Hpn; eauto. }
  destruct l as [|start rest] eqn:El; [apply Permutation_nil_l in Hp; apply (f_equal length) in Hp; unfold convert_names in Hp; rewrite length_map in Hp; cbn in Hp; lia|].
  assert (Hg : grouped (start :: rest) (collect_ranges start [] rest (∅, []))).
  { apply (collect_ranges_grouped (start :: rest)) with (d := []); [by rewrite Hpn|done|rewrite <-El; exact (std_sort_sorted name_lt _)|done| | | |].
    - intros ->. apply Permutation_length in Hp. unfold convert_names in Hp. rewrite length_map in Hp. cbn in Hp. lia.
    - split; [done|]. intros b. apply lookup_empty.
    - intros v Hv. by apply elem_of_nil in Hv.
    - intros v Hv. by apply elem_of_nil in Hv. }
  destruct (collect_ranges start [] rest (∅, [])) as [similar dissimilar]. destruct Hg as [Hd Hs]. cbn [fst snd] in *.
  assert (Hch : forall b, channels_of b (start :: rest) ≡ₚ channels_of b (convert_names vars)) by (intros b; unfold channels_of; by rewrite Hp).
  exists similar, dissimilar. split_and!; [done| | |].
  - rewrite Hd. unfold ungrouped. by rewrite Hp.
  - intros b. rewrite Hs. specialize (Hch b). destruct (channels_of b (start :: rest)) as [|v vs].
    + apply Permutation_nil_l in Hch. rewrite Hch. split; [by intros [? ?]|done].
    + split; [|by eexists]. intros _ E. rewrite E in Hch. by apply Permutation_nil_r in Hch.
  - intros b vs Hb. rewrite Hs in Hb. specialize (Hch b). destruct (channels_of b (start :: rest)) as [|v vs'] eqn:E; [done|]. simplify_eq.
    split; [by rewrite std_sort_perm|exact (std_sort_sorted number_lt _)].
Qed.

(** A variable that is alone is lost.  The loop that collects the ranges
    starts with the second variable: a file with one variable has neither a group
    nor a variable of its own afterwards. *)
Theorem single_variable_is_lost v : identifySimilarVariables [v] = Ok (∅, []).
Proof. done. Qed.
End ranges.

(** * The condition on names is decidable *)

Lemma strip_prefix_app p s : strip_prefix p (p +:+ s) = Some s.
Proof.
  induction p as [|c p IH]; [by destruct s|].
  change (String c p +:+ s) with (String c (p +:+ s)). cbn [strip_prefix]. by rewrite decide_True.
Qed.

Definition well_namedb (l : list string) : bool :=
  forallb (fun x => negb (channel_name x) || negb (bool_decide (suffix x = EmptyString)) &&
    forallb (fun y => (is_metadata y || bool_decide (y <> base_name x)) &&
      match strip_prefix (base_name x +:+ "_") y with
      | Some s => negb (starts_digit s) || (channel_name y && bool_decide (base_name y = base_name x))
      | None => true
      end) l) l.

Lemma well_namedb_sound l : well_namedb l = true -> well_named l.
Proof.
  intros H. unfold well_namedb in H. rewrite forallb_forall in H.
  assert (Hx : forall x, x ∈ l -> channel_name x = true -> suffix x <> EmptyString /\ forall y, y ∈ l -> (is_metadata y = false -> y <> base_name x) /\
    forall s, y = base_name x +:+ "_" +:+ s -> starts_digit s = true -> channel_name y = true /\ base_name y = base_name x).
  { intros x Hx Cx. specialize (H x). rewrite <-list_elem_of_In, Cx in H. specialize (H Hx). cbn [negb orb] in H. apply andb_prop in H as [H1 H2]. split.
    - intros E. by rewrite bool_decide_true in H1.
    - intros y Hy. rewrite forallb_forall in H2. specialize (H2 y). rewrite <-list_elem_of_In in H2. apply andb_prop in H2 as [H2 H3]; [|done]. split.
      + intros My. rewrite My in H2. by apply bool_decide_eq_true in H2.
      + intros s Ey Hs. rewrite Ey, <-string_append_assoc, strip_prefix_app, Hs, string_append_assoc in H3. cbn [negb orb] in H3. apply andb_prop in H3 as [H3 H4].
        apply bool_decide_eq_true in H4. by rewrite Ey. }
  split.
  - intros x Hin Cx. by apply Hx.
  - intros x y s Hin Hy Cx. by apply (Hx x Hin Cx).
  - intros x y Hin Hy Cx. by apply (Hx x Hin Cx).
Qed.

(** The example: three channels of a brightness temperature in a file of version
    1, and the latitude. *)
Module Sample.
Definition vars : list (string * nat) :=
  [("brightnessTemperature_2@ObsValue", 0%nat); ("latitude@MetaData", 1%nat); ("brightnessTemperature_10@ObsValue", 2%nat); ("brightnessTemperature_1@ObsValue", 3%nat)].

(** What the grouping has under a base name, and what it leaves on its own. *)
Definition grouping_of (key : string) (l : list (string * nat)) : option (option (list (string * nat)) * list (string * nat)) :=
  match identifySimilarVariables l with Ok (similar, dissimilar) => Some (similar !! key, dissimilar) | Throw _ => None end.

Lemma grouping_of_vars : grouping_of "ObsValue/brightnessTemperature" vars = Some
  (Some [("ObsValue/brightnessTemperature_1", 3%nat); ("ObsValue/brightnessTemperature_2", 0%nat); ("ObsValue/brightnessTemperature_10", 2%nat)],
   [("MetaData/latitude", 1%nat)]).
Proof. vm_compute. reflexivity. Qed.

Lemma similar_variables_grouped_witness : exists similar dissimilar, identifySimilarVariables vars = Ok (similar, dissimilar) /\ similar !! "ObsValue/brightnessTemperature" = Some
    [("ObsValue/brightnessTemperature_1", 3%nat); ("ObsValue/brightnessTemperature_2", 0%nat); ("ObsValue/brightnessTemperature_10", 2%nat)] /\ dissimilar = [("MetaData/latitude", 1%nat)].
Proof.
  destruct (similar_variables_grouped vars) as (similar & dissimilar & H & _ & _ & _).
  - apply (bool_decide_unpack _). vm_compute. exact I.
  - apply well_namedb_sound. vm_compute. reflexivity.
  - cbn. lia.
  - exists similar, dissimilar. pose proof grouping_of_vars as G. unfold grouping_of in G. rewrite H in G. injection G as G1 G2. split; [exact H|split; [exact G1|exact G2]].
Defined.

(** A name between two channels that is not a channel of the same base splits
    the group, and the second part of the group replaces the first: channels 1
    and 10 are lost. *)
Definition split_vars : list (string * nat) :=
  [("ObsValue/bt_1", 0%nat); ("ObsValue/bt_10", 1%nat); ("ObsValue/bt_1_error", 2%nat); ("ObsValue/bt_2", 3%nat)].
Lemma split_group_is_overwritten :
  grouping_of "ObsValue/bt" split_vars = Some (Some [("ObsValue/bt_2", 3%nat)], [("ObsValue/bt_1_error", 2%nat)]).
Proof. vm_compute. reflexivity. Qed.
End Sample.
