(* ===== verification/UpgradeV1V2File.v ===== *)
(** The upgrade of a whole file from version 1: [upgradeFile] of
    src/src/engines/ioda/src/mains/upgrade/upgradev1v2.cpp, with the scales of a new
    ObsGroup (ObsGroup.cpp, DimensionScales.cpp).

    The file that is written is its attributes, its scales and its variables; the
    latter are known by their names in the layout, so that names of version 1 and 2
    are the same variable. *)
From stdpp Require Import base list gmap strings pretty.
From Stdlib Require Import ZArith.
From S2P Require Import Prelude Selection ObsRecords OdbOpen OdbLayout WriterTransfer VarUtils UpgradeV1V2.
Local Open Scope Z_scope.

Section upgrade.
Context {A : Type} `{OF : OutputFile}.
Notation Named_Variable := (string * OldVariable A)%type.

(** * The output *)

Record NewScale := { ns_size : Z; ns_chunk : Z; ns_data : list Z; ns_atts : list (string * Attr) }.
Record NewVariable := {
  nv_dims : list Z;
  nv_chunks : list Z;
  nv_atts : list (string * Attr);
  nv_scales : list string;
  nv_contents : Contents A
}.
Record Output := { o_atts : list (string * Attr); o_scales : gmap string NewScale; o_vars : gmap string NewVariable }.

(** A scale that [generate] is asked to make: name, size, chunk size, initial data. *)
Record Scale := { sc_name : string; sc_size : Z; sc_chunk : Z; sc_data : list Z }.

(** [NewDimensionScale] for the scale of another file, with a chunk size of its
    own; the values of the scale are not taken over. *)
Definition NewDimensionScale (name : string) (scale : OldVariable A) (chunkingSize : Z) : res Scale :=
  match ov_dims scale with
  | [size] => Ok {| sc_name := name; sc_size := size; sc_chunk := chunkingSize; sc_data := [] |}
  | _ => Throw (EException "Dimensionality != 1.")
  end.

Definition suggested_chunk (n : Z) : Attr := {| at_size := 8; at_dims := [1]; at_bytes := [n] |}.
(** [ObsGroup::setup]; [layout_atts] are the attributes that the layout gives to a new group. *)
Definition generate (layout_atts : list (string * Attr)) (newdims : list Scale) : res Output :=
  scales ← foldM (fun scales f =>
      match scales !! sc_name f with
      | Some _ => Throw (EException "")
      | None => Ok (<[sc_name f := {| ns_size := sc_size f; ns_chunk := sc_chunk f; ns_data := sc_data f;
                                      ns_atts := [("suggested_chunk_dim", suggested_chunk (sc_chunk f))] |}]> scales)
      end) (∅ : gmap string NewScale) newdims;
  Ok {| o_atts := layout_atts; o_scales := scales; o_vars := ∅ |}.

(** * The scales *)

Definition by_string (dims : gmap string (list Named_Variable)) : gmap string (list string) :=
  foldl (fun m p => <[convertV1PathToV2Path (fst p) := map fst (snd p)]> m) ∅ (std_sort (fun a b => String.ltb (fst a) (fst b)) (map_to_list dims)).
Definition is_attached (bystring : gmap string (list string)) (dim : string) : bool := existsb (fun p : string * list string => bool_decide (dim ∈ snd p)) (map_to_list bystring).

Definition has_groups (grouped : gmap string (list Named_Variable)) : bool := negb (bool_decide (grouped = ∅)).
Definition old_scales (bystring : gmap string (list string)) (grouped : gmap string (list Named_Variable)) (dims : list Named_Variable) : res (list Scale) :=
  mapR (fun dim => NewDimensionScale (fst dim) (snd dim) defaultChunkSize)
    (filter (fun dim => negb (bool_decide (fst dim = "nchans") && has_groups grouped) && is_attached bystring (fst dim) = true) dims).
Definition channel_scale (grouped : gmap string (list Named_Variable)) : res (list Scale) :=
  if has_groups grouped then
    chans ← channels grouped;
    let n := Z.of_nat (length chans) in
    Ok [{| sc_name := "nchans"; sc_size := n; sc_chunk := n; sc_data := chans |}]
  else Ok [].

Definition set_scale_atts (out : Output) (name : string) (s : NewScale) (atts : list (string * Attr)) : Output :=
  {| o_atts := o_atts out; o_vars := o_vars out;
     o_scales := <[name := {| ns_size := ns_size s; ns_chunk := ns_chunk s; ns_data := ns_data s; ns_atts := atts |}]> (o_scales out) |}.
Definition copy_scale_atts (bystring : gmap string (list string)) (dims : list Named_Variable) (out : Output) : res Output :=
  foldM (fun out d =>
    if is_attached bystring (fst d) then
      match o_scales out !! fst d with
      | Some s => atts ← copyAttributes (ov_atts (snd d)) (ns_atts s); Ok (set_scale_atts out (fst d) s atts)
      | None => Throw EOutOfRange
      end
    else Ok out) out dims.

(** * The variables *)

Definition num_elements (dims : list Z) : nat := Z.to_nat (prodZ dims).

(** [makeNewVar]: the new dimensions, chunk sizes and initial contents. *)
Definition makeNewVar (old : OldVariable A) (dims chunks : list Z) : res (list Z * list Z * Contents A) :=
  match ov_contents old with
  | Strings sz_bytes _ =>
      let shorten := (sz_bytes =? 1)%nat && (1 <? length dims)%nat in
      let mod_dims := if shorten then removelast dims else dims in
      let chunks := checkAdjustChunkSizes defaultChunkSize (if shorten then mod_dims else chunks) in
      Ok (mod_dims, chunks, Strings 0 (replicate (num_elements mod_dims) EmptyString))
  | Elements _ =>
      c ← shrink_chunks (chunk_fuel dims) dims;
      Ok (dims, checkAdjustChunkSizes defaultChunkSize c, Elements (replicate (num_elements dims) (ov_fill old)))
  end.

(** Creating a variable under a name: it is an error when there is one. *)
Definition create_variable (name : string) (v : NewVariable) (out : Output) : res Output :=
  match o_vars out !! convertV1PathToV2Path name with
  | Some _ => Throw (EException "")
  | None => Ok {| o_atts := o_atts out; o_scales := o_scales out; o_vars := <[convertV1PathToV2Path name := v]> (o_vars out) |}
  end.

(** [std::map::at] *)
Definition scales_at (bystring : gmap string (list string)) (name : string) : res (list string) :=
  match bystring !! name with Some ds => Ok ds | None => Throw EOutOfRange end.

(** The scales of a new variable: one less for strings of the old format; they must
    exist and fit the dimensions. *)
Definition old_format (c : Contents A) : bool := match c with Strings sz _ => (sz =? 1)%nat | Elements _ => false end.
Definition attach (out : Output) (drop_last : bool) (dims : list Z) (scales : list string) : res (list string) :=
  if drop_last && bool_decide (scales = []) then Throw EUndefined
  else
    let scales := if drop_last then removelast scales else scales in
    if forallb (fun s => bool_decide (is_Some (o_scales out !! s))) scales && (length scales <=? length dims)%nat then Ok scales
    else Throw (EException "").

Definition new_ungrouped (bystring : gmap string (list string)) (out : Output) (v : Named_Variable) : res Output :=
  '(dims, chunks, init) ← makeNewVar (snd v) (ov_dims (snd v)) (ov_chunks (snd v));
  atts ← copyAttributes (ov_atts (snd v)) [];
  scales ← scales_at bystring (convertV1PathToV2Path (fst v));
  scales ← attach out (old_format (ov_contents (snd v))) dims scales;
  create_variable (fst v) {| nv_dims := dims; nv_chunks := chunks; nv_atts := atts; nv_scales := scales; nv_contents := init |} out.

Definition new_grouped (bystring : gmap string (list string)) (out : Output) (g : string * list Named_Variable) : res Output :=
  match snd g, o_scales out !! "nchans" with
  | (name, v) :: more, Some nchans =>
      let n := match more with [] => 1 | _ => ns_size nchans end in
      '(dims, chunks, init) ← makeNewVar v (ov_dims v ++ [n]) (ov_chunks v ++ [ns_chunk nchans]);
      atts ← foldM (fun atts src => copyAttributes (ov_atts (snd src)) atts) [] (snd g);
      scales ← scales_at bystring (convertV1PathToV2Path name);
      scales ← attach out false dims (scales ++ ["nchans"]);
      create_variable (fst g) {| nv_dims := dims; nv_chunks := chunks; nv_atts := atts; nv_scales := scales; nv_contents := init |} out
  | _, _ => Throw EUndefined
  end.

(** * The data *)

Definition write_variable (name : string) (old : list Named_Variable) (newVarName : string) (chanNumToIndex : gmap Z nat) (out : Output) : res Output :=
  match o_vars out !! convertV1PathToV2Path name with
  | Some v =>
      contents ← copyData old newVarName chanNumToIndex (nv_dims v) (nv_contents v);
      Ok {| o_atts := o_atts out; o_scales := o_scales out;
            o_vars := <[convertV1PathToV2Path name :=
              {| nv_dims := nv_dims v; nv_chunks := nv_chunks v; nv_atts := nv_atts v; nv_scales := nv_scales v; nv_contents := contents |}]> (o_vars out) |}
  | None => Throw (EException "")
  end.

(** * [upgradeFile] *)

Definition upgrade_groups (groupSimilarVariables : bool) (vars : list Named_Variable) : res (gmap string (list Named_Variable) * list Named_Variable) :=
  if groupSimilarVariables then identifySimilarVariables vars else Ok (∅, vars).

Definition upgradeFile (layout_atts : list (string * Attr)) (groupSimilarVariables : bool) (file : FileGroup (OldVariable A)) (file_atts : list (string * Attr)) : res Output :=
  info ← collectVarDimInfo file;
  '(grouped, ungrouped) ← upgrade_groups groupSimilarVariables (varList info);
  let bystring := by_string (dimsAttachedToVars info) in
  dims1 ← old_scales bystring grouped (dimVarList info);
  dims2 ← channel_scale grouped;
  out ← generate layout_atts (dims1 ++ dims2);
  atts ← copyAttributes file_atts (o_atts out);
  out ← copy_scale_atts bystring (dimVarList info) {| o_atts := atts; o_scales := o_scales out; o_vars := o_vars out |};
  out ← foldM (new_ungrouped bystring) out ungrouped;
  out ← foldM (new_grouped bystring) out (group_list grouped);
  out ← foldM (fun out v => write_variable (fst v) [v] EmptyString ∅ out) out ungrouped;
  match o_scales out !! "nchans" with
  | Some nchans => foldM (fun out g => write_variable (fst g) (snd g) (fst g) (chan_map (ns_data nchans)) out) out (group_list grouped)
  | None => Ok out
  end.
End upgrade.
