(* ===== verification/UpgradeCopySpec.v ===== *)
(** The chunk sizes of upgraded variables, and the data of the channels of a
    variable after the upgrade from version 1. *)
From stdpp Require Import base list gmap strings pretty.
From Stdlib Require Import ZArith.
From S2P Require Import Prelude Selection ObsRecords ObsSpaceVars OdbVariables OdbOpen OdbWrite OdbWriteSpec OdbCreateSpec OdbLayout OdbLayoutSpec WriterTransfer VarUtils UpgradeV1V2 UpgradeV1V2Spec.
Local Open Scope Z_scope.

(** * Chunk sizes *)

Definition smaller (d e : Z) : Prop := 1 <= e <= d.

Lemma halve_last_ok c : Forall (fun d => 1 <= d) c -> 1 < prodZ c ->
  exists c', halve_last c = Some c' /\ Forall2 smaller c c' /\ S (chunk_fuel c') = chunk_fuel c.
Proof.
  induction c as [|d c IH]; intros Hc Hp; [cbn in Hp; lia|]. apply Forall_cons in Hc as [Hd Hc].
  assert (Hpos : 0 < prodZ c) by (apply prodZ_ge1; eapply Forall_impl; [exact Hc|]; cbn; lia).
  assert (Hrefl : Forall2 smaller c c) by (apply Forall_Forall2_diag; eapply Forall_impl; [exact Hc|]; unfold smaller; cbn; lia).
  cbn [halve_last]. destruct (decide (1 < prodZ c)) as [Hlt|Hle].
  - destruct (IH Hc Hlt) as (c' & -> & Hs & Hf). exists (d :: c'). split_and!; [done|constructor; [unfold smaller; lia|done]|]. unfold chunk_fuel in *. cbn. lia.
  - assert (Hnone : halve_last c = None).
    { assert (Hone : prodZ c = 1) by lia. clear -Hc Hone. induction c as [|e c IH]; [done|]. apply Forall_cons in Hc as [He Hc].
      assert (Hpos : 0 < prodZ c) by (apply prodZ_ge1; eapply Forall_impl; [exact Hc|]; cbn; lia). unfold prodZ in *. cbn [foldr] in Hone.
      cbn [halve_last]. rewrite IH by (done || nia). by replace e with 1 by nia. }
    rewrite Hnone. replace (d =? 1) with false by (symmetry; apply Z.eqb_neq; intros ->; unfold prodZ in *; cbn [foldr] in Hp; lia).
    assert (Hd2 : 2 <= d) by (unfold prodZ in *; cbn [foldr] in Hp; nia). rewrite Z.quot_div_nonneg by lia.
    assert (Hdiv : 1 <= d / 2 <= d) by (split; [apply Z.div_le_lower_bound; lia|apply Z.div_le_upper_bound; lia]).
    exists (d / 2 :: c). split_and!; [done|by constructor|]. unfold chunk_fuel. cbn. rewrite <-(Z.div2_div d).
    assert (Hl : Z.log2 d = Z.succ (Z.log2 (Z.div2 d))).
    { rewrite <-Z.log2_double by (rewrite Z.div2_div; lia). rewrite (Z.div2_odd d) at 1. destruct (Z.odd d); cbn [Z.b2z]; [|by rewrite Z.add_0_r].
      by rewrite Z.log2_succ_double, Z.log2_double by (rewrite Z.div2_div; lia). }
    pose proof (Z.log2_nonneg (Z.div2 d)). lia.
Qed.

Lemma smaller_trans c c' c'' : Forall2 smaller c c' -> Forall2 smaller c' c'' -> Forall2 smaller c c''.
Proof.
  assert (Ht : Transitive smaller) by (intros x y z; unfold smaller; lia). intros H1 H2. by transitivity c'.
Qed.

Lemma shrink_ok fuel : forall c, Forall (fun d => 1 <= d) c -> (chunk_fuel c <= fuel)%nat ->
  exists c', shrink_chunks fuel c = Ok c' /\ prodZ c' <= max_chunk_size /\ Forall2 smaller c c'.
Proof.
  induction fuel as [|fuel IH]; intros c Hc Hf; cbn [shrink_chunks]; destruct (Z.leb_spec (prodZ c) max_chunk_size) as [Hle|Hgt].
  1,3: exists c; split_and!; [done|done|]; apply Forall_Forall2_diag; eapply Forall_impl; [exact Hc|]; unfold smaller; cbn; lia.
  all: destruct (halve_last_ok c Hc) as (c' & Eh & Hs & Hm); [unfold max_chunk_size in Hgt; lia|].
  - lia.
  - rewrite Eh. destruct (IH c') as (c'' & E & Hp & Hs'); [|lia|].
    + clear -Hs. induction Hs as [|? ? ? ? H]; constructor; [unfold smaller in H; lia|done].
    + exists c''. split_and!; [done|done|by eapply smaller_trans].
Qed.

(** Chunk sizes for dimensions. *)
Definition good_chunks (dims c : list Z) : Prop :=
  prodZ c <= 6400 /\ Forall2 (fun d e => 0 <= e <= d /\ (e = 0 <-> d = 0)) dims c /\ Forall (fun e => 1 <= e) (checkAdjustChunkSizes defaultChunkSize c).
Lemma adjusted_positive c : Forall (fun d => 0 <= d) c -> Forall (fun e => 1 <= e) (checkAdjustChunkSizes defaultChunkSize c).
Proof.
  intros Hc. unfold checkAdjustChunkSizes. apply Forall_map. eapply Forall_impl; [exact Hc|]. intros e He. cbn in *. unfold defaultChunkSize. destruct (Z.eqb_spec e 0); lia.
Qed.
Lemma shrink_total (dims : list Z) : Forall (fun d => 0 <= d) dims -> exists c, shrink_chunks (chunk_fuel dims) dims = Ok c /\ good_chunks dims c.
Proof.
  intros Hd. unfold good_chunks.
  destruct (decide (0 ∈ dims)) as [H0|H0].
  - assert (Hp : prodZ dims = 0).
    { clear -H0. induction dims as [|d dims IH]; [by apply elem_of_nil in H0|]. change (prodZ (d :: dims)) with (d * prodZ dims). apply elem_of_cons in H0 as [H0|H0]; [rewrite <-H0; lia|]. rewrite IH by done. lia. }
    exists dims. split_and!; [|lia| |by apply adjusted_positive].
    + destruct (chunk_fuel dims); cbn [shrink_chunks]; by rewrite Hp.
    + apply Forall_Forall2_diag. eapply Forall_impl; [exact Hd|]. cbn. lia.
  - destruct (shrink_ok (chunk_fuel dims) dims) as (c & E & Hp & Hs); [|lia|].
    + apply Forall_forall. intros d Hin. rewrite Forall_forall in Hd. specialize (Hd d Hin). cbn in Hd. assert (d <> 0) by congruence. lia.
    + exists c. split_and!; [done|done| |].
      * eapply Forall2_impl; [exact Hs|]. unfold smaller. intros. lia.
      * apply adjusted_positive. clear -Hs. induction Hs as [|? ? ? ? H]; constructor; [unfold smaller in H; lia|done].
Qed.

(** The loop for the chunk sizes ends.  For the dimensions of any variable,
    halving the last dimension that is not 1 ends after at most the sum of their
    logarithms, with chunks of at most 6400 elements and no larger than the
    dimensions; after the sizes of zero are replaced every chunk size is positive. *)
Theorem chunk_sizes (dims : list Z) : Forall (fun d => 0 <= d) dims ->
  exists c, shrink_chunks (chunk_fuel dims) dims = Ok c /\ prodZ c <= 6400 /\
    Forall2 (fun d e => 0 <= e <= d /\ (e = 0 <-> d = 0)) dims c /\
    Forall (fun e => 1 <= e) (checkAdjustChunkSizes defaultChunkSize c).
Proof. intros Hd. destruct (shrink_total dims Hd) as (c & E & H). eauto. Qed.

(** * Positions of a channel *)

Lemma prodZ_nonneg l : Forall (fun d => 0 <= d) l -> 0 <= prodZ l.
Proof. induction 1; unfold prodZ in *; cbn [foldr]; nia. Qed.

Lemma channel_positions (C j : Z) (ds : list Z) : forall acc, Forall (fun d => 0 <= d) ds ->
  nested (zip_with seqZ (map (fun _ => 0) ds ++ [j]) (ds ++ [1])) (ds ++ [C]) acc = map (fun r => (acc * prodZ ds + r) * C + j) (seqZ 0 (prodZ ds)).
Proof.
  induction ds as [|n ds IH]; intros acc Hd.
  - cbn [map app zip_with nested prodZ foldr]. change (seqZ j 1) with [Z.of_nat 0 + j]. change (seqZ 0 1) with [0]. cbn. f_equal. lia.
  - apply Forall_cons in Hd as [Hn Hd]. pose proof (prodZ_nonneg ds Hd) as HP.
    cbn [map app zip_with nested]. change (prodZ (n :: ds)) with (n * prodZ ds). set (P := prodZ ds) in *.
    pose proof (concat_seqZ 0 0 n P HP Hn) as Hc. change ((0 + 0) * P) with 0 in Hc. rewrite <-Hc, concat_map, map_map. f_equal. apply map_ext. intros x.
    rewrite IH by done. fold P. change ((0 + x) * P) with (x * P).
    assert (Hs : seqZ (x * P) P = map (fun r => x * P + r) (seqZ 0 P)).
    { clear. unfold seqZ. rewrite <-!list_fmap_compose. apply list_fmap_ext. intros i k _. cbn. lia. }
    rewrite Hs, map_map. apply map_ext. intros r. lia.
Qed.

(** ** Storing at positions *)

Lemma store_at_other {A} (positions : list Z) : forall (old data : list A) k, (forall p, p ∈ positions -> Z.to_nat p <> k) -> store_at old positions data !! k = old !! k.
Proof.
  unfold store_at. induction positions as [|p positions IH]; intros old [|x data] k Hp; try done. cbn [zip zip_with foldl]. rewrite IH by (intros; apply Hp; by right).
  apply list_lookup_insert_ne. apply Hp. left.
Qed.
Lemma store_at_length {A} (positions : list Z) : forall (old data : list A), length (store_at old positions data) = length old.
Proof.
  unfold store_at. induction positions as [|p positions IH]; intros old [|x data]; try done. cbn [zip zip_with foldl]. rewrite IH. apply length_insert.
Qed.
Lemma store_at_here {A} (positions : list Z) : forall (old data : list A) t p, NoDup (map Z.to_nat positions) -> (forall p, p ∈ positions -> (Z.to_nat p < length old)%nat) ->
  length data = length positions -> positions !! t = Some p -> store_at old positions data !! Z.to_nat p = data !! t.
Proof.
  induction positions as [|q positions IH]; intros old [|x data] t p Hnd Hin Hlen Ht; try done. cbn [map] in Hnd. apply NoDup_cons in Hnd as [Hq Hnd].
  change (store_at old (q :: positions) (x :: data)) with (store_at (<[Z.to_nat q := x]> old) positions data). destruct t as [|t]; cbn in Ht.
  - simplify_eq. rewrite store_at_other; [by rewrite list_lookup_insert_eq by (apply Hin; left)|]. intros q Hin' E. apply Hq. apply list_elem_of_fmap. by exists q.
  - cbn [lookup list_lookup]. apply IH; [done| |by injection Hlen|done]. intros q' Hq'. rewrite length_insert. apply Hin. by right.
Qed.

(** ** The channels of a group *)

Section channels.
Context {A : Type} `{OL : OutputLaws}.
Implicit Types (v : string * OldVariable A).

Context (base : string) (channels : list Z) (ds : list Z).
Hypothesis Hds : Forall (fun d => 0 <= d) ds.
Hypothesis Hchan : NoDup channels.

Notation C := (length channels).
Notation P := (Z.to_nat (prodZ ds)).

Lemma prod_nonneg : 0 <= prodZ ds.
Proof. by apply prodZ_nonneg. Qed.

Lemma chan_map_lookup j c : channels !! j = Some c -> chan_map channels !! c = Some j.
Proof.
  unfold chan_map. clear Hds. revert j. induction channels as [|x l IH] using rev_ind; [done|]. intros j Hj.
  rewrite imap_app, foldl_app. cbn [imap foldl fst snd Nat.add]. rewrite Nat.add_0_r. apply NoDup_app in Hchan as (Hl & Hx & _).
  destruct (decide (j = length l)) as [->|Hne].
  - rewrite list_lookup_middle in Hj by done. simplify_eq. by rewrite lookup_insert_eq.
  - apply lookup_snoc_Some in Hj as [[Hlt Hj]|[-> _]]; [|done]. rewrite lookup_insert_ne; [by apply IH|]. intros ->. apply (Hx c); [by eapply list_elem_of_lookup_2|left].
Qed.

(** A variable of the group and its channel number. *)
Definition channel_variable v (c : Z) : Prop := exists s buf, fst v = base +:+ "_" +:+ s /\ std_stoi s = Ok c /\ ov_contents (snd v) = Elements buf /\ length buf = P.

Lemma chan_index_ok v c i j : channel_variable v c -> channels !! j = Some c -> chan_index base (chan_map channels) i (fst v) = Ok j.
Proof.
  intros (s & buf & Hn & Hs & _) Hj. pose proof (chan_map_lookup j c Hj) as Hm. unfold chan_index. destruct (decide _) as [E|_]; [by rewrite E, lookup_empty in Hm|].
  rewrite Hn, strip_prefix_app. change ("_" +:+ s) with (String (Ascii.ascii_of_nat 95) s). unfold substr.
  replace (_ <=? _)%nat with true by (symmetry; apply Nat.leb_le; rewrite length_string_app; cbn; lia). cbn [mbind res_bind].
  change (String.substring (String.length base + 1) ?n ?x) with (String.substring (String.length base + 1) n x).
  assert (Hsub : String.substring (String.length base + 1) (String.length (base +:+ String (Ascii.ascii_of_nat 95) s)) (base +:+ String (Ascii.ascii_of_nat 95) s) = s) by apply from_suffix.
  rewrite Hsub, Hs. cbn [mbind res_bind]. by rewrite Hm.
Qed.

Definition position (r j : nat) : nat := (r * C + j)%nat.
Definition channel_block (j : nat) : list Z := block_positions (channel_starts (ds ++ [Z.of_nat C]) (Z.of_nat j)) (channel_counts (ds ++ [Z.of_nat C])) (ds ++ [Z.of_nat C]).

Lemma channel_block_positions j : map Z.to_nat (channel_block j) = map (fun r => position r j) (seq 0 P).
Proof.
  unfold channel_block, block_positions, channel_starts, channel_counts. rewrite removelast_last, channel_positions by done. rewrite map_map. unfold seqZ.
  change (map ?f (?g <$> ?l)) with (f <$> (g <$> l)). rewrite <-list_fmap_compose. apply list_fmap_ext. intros i k _. cbn. unfold position. lia.
Qed.

Lemma channel_block_nodup j : (j < C)%nat -> NoDup (map Z.to_nat (channel_block j)).
Proof.
  intros Hj. rewrite channel_block_positions. change (map ?f ?l) with (f <$> l). apply NoDup_fmap_2_strong; [|apply NoDup_seq]. intros x y _ _ E. unfold position in E. nia.
Qed.

Lemma channel_write (old data : list A) j : (j < C)%nat -> length data = P -> length old = (P * C)%nat ->
  exists new, copy_elements false (ds ++ [Z.of_nat C]) j data old = Ok new /\ length new = (P * C)%nat /\
    (forall r, (r < P)%nat -> new !! position r j = data !! r) /\
    (forall r k, (k < C)%nat -> k <> j -> new !! position r k = old !! position r k).
Proof.
  intros Hj Hdata Hold. pose proof prod_nonneg as HP. exists (store_at old (channel_block j) data). unfold copy_elements. split_and!.
  - apply out_write_selection_law.
    + unfold channel_starts. by rewrite removelast_last, !length_app, length_map.
    + unfold channel_counts. by rewrite removelast_last, !length_app.
    + unfold channel_starts, channel_counts. rewrite removelast_last. rewrite zip_with_app by (by rewrite length_map). apply Forall2_app; [|by repeat constructor; lia].
      generalize Hds. generalize ds. clear. induction 1; cbn; [constructor|]. constructor; [lia|done].
    + unfold channel_counts. rewrite removelast_last, prodZ_app. cbn. lia.
    + rewrite prodZ_app, Hold. cbn. lia.
  - by rewrite store_at_length.
  - intros r Hr. assert (Hlen : length (channel_block j) = P) by (rewrite <-(length_map Z.to_nat), channel_block_positions, length_map, length_seq; done).
    destruct (lookup_lt_is_Some_2 (channel_block j) r) as [p Hp]; [lia|].
    assert (Hpos : Z.to_nat p = position r j).
    { assert (E : (Z.to_nat <$> channel_block j) !! r = Some (Z.to_nat p)) by (by rewrite list_lookup_fmap, Hp). change (Z.to_nat <$> channel_block j) with (map Z.to_nat (channel_block j)) in E.
      rewrite channel_block_positions in E. change (map ?f ?l) with (f <$> l) in E. rewrite list_lookup_fmap, lookup_seq_lt in E by done. by injection E. }
    rewrite <-Hpos. apply store_at_here; [by apply channel_block_nodup| |lia|done]. intros q Hq.
    assert (Hin : Z.to_nat q ∈ map Z.to_nat (channel_block j)) by (apply list_elem_of_fmap; eauto). rewrite channel_block_positions in Hin.
    apply list_elem_of_fmap in Hin as (r' & -> & Hr'%elem_of_seq). unfold position. nia.
  - intros r k Hk Hkj. apply store_at_other. intros q Hq E.
    assert (Hin : Z.to_nat q ∈ map Z.to_nat (channel_block j)) by (apply list_elem_of_fmap; eauto). rewrite channel_block_positions in Hin.
    apply list_elem_of_fmap in Hin as (r' & E' & Hr'%elem_of_seq). rewrite E' in E. unfold position in E. assert (r = r') as -> by nia. lia.
Qed.

(** The contents of the channels of the variables [l] with the numbers [cs]. *)
Definition holds_channels (fill : A) (l : list (string * OldVariable A)) (cs : list Z) (data : list A) : Prop :=
  length data = (P * C)%nat /\
  (forall i v c j r, l !! i = Some v -> cs !! i = Some c -> channels !! j = Some c -> (r < P)%nat ->
     forall buf, ov_contents (snd v) = Elements buf -> data !! position r j = buf !! r) /\
  (forall j c r, channels !! j = Some c -> c ∉ cs -> (r < P)%nat -> data !! position r j = Some fill).

Lemma holds_none fill : holds_channels fill [] [] (replicate (P * C) fill).
Proof.
  split_and!; [apply length_replicate|done|]. intros j c r Hj _ Hr. apply lookup_replicate_2. apply lookup_lt_Some in Hj. unfold position. nia.
Qed.

Lemma copy_step_holds fill l cs v c data i : channel_variable v c -> c ∈ channels -> c ∉ cs -> length l = length cs -> holds_channels fill l cs data ->
  exists data', copy_step false base (chan_map channels) (ds ++ [Z.of_nat C]) (Elements data) (i, v) = Ok (Elements data') /\ holds_channels fill (l ++ [v]) (cs ++ [c]) data'.
Proof.
  intros Hv Hin Hnew Hlen (Hl & Hh & Hf). apply list_elem_of_lookup in Hin as [j Hj]. pose proof (chan_index_ok v c i j Hv Hj) as Hi.
  destruct Hv as (s & buf & Hn & Hs & Hc & Hbuf). pose proof (lookup_lt_Some _ _ _ Hj) as HjC. destruct (channel_write data buf j HjC Hbuf Hl) as (new & Hw & Hln & Hhere & Hother).
  destruct v as [name v]. cbn [fst snd] in *. exists new. split; [cbn [copy_step]; rewrite Hc, Hi; cbn [mbind res_bind]; by rewrite Hw|].
  assert (Huniq : forall j' c', channels !! j' = Some c' -> c' <> c -> j' <> j) by (intros j' c' Hj' Hne ->; rewrite Hj in Hj'; congruence).
  split_and!; [done| |].
  - intros i' v' c' j' r Hv' Hc' Hj' Hr buf' Hb'. apply lookup_snoc_Some in Hv' as [[Hlt Hv']|[-> <-]].
    + rewrite lookup_app_l in Hc' by lia. rewrite Hother; [by eapply Hh|by eapply lookup_lt_Some|]. apply (Huniq j' c' Hj'). intros ->. apply Hnew. by eapply list_elem_of_lookup_2.
    + rewrite Hlen, list_lookup_middle in Hc' by done. simplify_eq. assert (j' = j) as -> by (by eapply NoDup_lookup). cbn [snd] in Hb'. rewrite Hc in Hb'. simplify_eq. by apply Hhere.
  - intros j' c' r Hj' Hc' Hr. apply not_elem_of_app in Hc' as [Hc' Hne]. rewrite Hother; [by eapply Hf|by eapply lookup_lt_Some|]. apply (Huniq j' c' Hj'). intros ->. apply Hne. left.
Qed.

(** C24: The numeric channels of a group are put together.  Two or more numeric
    variables of the same shape, whose names are the base name with different
    channel numbers that are among the channels of the file, become one
    variable with a last dimension of channels: at row r and the position of channel
    c it has the value at r of the variable for channel c, and the fill value where
    no variable is for this channel.  (A group of a single variable is written
    as a whole, and string variables are garbled, [channel_strings_garbled].) *)
Theorem channels_copied (fill : A) (old : list (string * OldVariable A)) (chans : list Z) :
  (2 <= length old)%nat -> Forall2 channel_variable old chans -> NoDup chans -> (forall c, c ∈ chans -> c ∈ channels) ->
  exists data, copyData old base (chan_map channels) (ds ++ [Z.of_nat C]) (Elements (replicate (P * C) fill)) = Ok (Elements data) /\
    length data = (P * C)%nat /\
    (forall i v c j r buf, old !! i = Some v -> chans !! i = Some c -> channels !! j = Some c -> (r < P)%nat ->
       ov_contents (snd v) = Elements buf -> data !! (r * C + j)%nat = buf !! r) /\
    (forall j c r, channels !! j = Some c -> c ∉ chans -> (r < P)%nat -> data !! (r * C + j)%nat = Some fill).
Proof.
  intros Hlen H2 Hnd Hsub. unfold copyData. replace (length old =? 1)%nat with false by (symmetry; apply Nat.eqb_neq; lia).
  assert (Hgo : forall rest crest l cs data, Forall2 channel_variable rest crest -> NoDup (cs ++ crest) -> (forall c, c ∈ crest -> c ∈ channels) -> length l = length cs ->
    holds_channels fill l cs data -> exists data', foldM (copy_step false base (chan_map channels) (ds ++ [Z.of_nat C])) (Elements data) (imap (fun i v => (length l + i, v)%nat) rest) = Ok (Elements data') /\
      holds_channels fill (l ++ rest) (cs ++ crest) data').
  { intros rest crest l cs data HF. revert l cs data. induction HF as [|v c rest crest Hv HF IH]; intros l cs data Hn Hs Hl Hh; [exists data; by rewrite !app_nil_r|].
    cbn [imap foldM]. destruct (copy_step_holds fill l cs v c data (length l + 0) Hv) as (data' & E & Hh'); [apply Hs; left| |done|done|].
    { apply NoDup_app in Hn as (_ & Hn & _). intros Hc. apply (Hn c Hc). left. }
    rewrite E. cbn [mbind res_bind]. destruct (IH (l ++ [v]) (cs ++ [c]) data') as (d & Ed & Hd); [by rewrite <-app_assoc|intros; apply Hs; by right|rewrite !length_app; cbn; lia|done|].
    exists d. rewrite <-!app_assoc in Hd. split; [|done]. rewrite <-Ed. f_equal. apply imap_ext. intros k x _. cbn. rewrite length_app. cbn. f_equal. lia. }
  destruct (Hgo old chans [] [] _ H2 Hnd Hsub eq_refl (holds_none fill)) as (data & E & Hl & Hh & Hf). exists data. cbn [length Nat.add app] in *. split_and!; [exact E|done| |exact Hf].
  intros i v c j r buf Hi Hc Hj Hr Hb. by eapply Hh.
Qed.
End channels.

(** * Strings of the old format *)

(** A character as a string; a zero is an empty string. *)
Definition char_string (c : Ascii.ascii) : string := if (Ascii.nat_of_ascii c =? 0)%nat then EmptyString else String c EmptyString.
Lemma first_char_string c : first_char (char_string c) = c.
Proof.
  unfold char_string. destruct (Nat.eqb_spec (Ascii.nat_of_ascii c) 0) as [E|E]; [|done]. cbn [first_char]. rewrite <-E. apply Ascii.ascii_nat_embedding.
Qed.

Section repack.
Context (n : nat).
Notation size := (S n).

(** One row of characters, from the position [k] on. *)
Lemma repack_row q row : forall don out ns, length (don ++ row) = size -> length ns = S size -> take (length don) ns = don -> row <> [] ->
  exists ns', foldl (repack_step size) (ns, out) (imap (fun i s => ((q * size + (length don + i))%nat, s)) (map char_string row)) =
    (ns', out ++ [right_trim (c_string ns')]) /\ ns' = don ++ row ++ drop size ns.
Proof.
  induction row as [|c row IH]; intros don out ns Hlen Hns Htake Hne; [done|]. cbn [map imap foldl]. rewrite Nat.add_0_r.
  rewrite length_app in Hlen. cbn [length] in Hlen.
  assert (Hmod : ((q * size + length don) mod size = length don)%nat) by (rewrite Nat.add_comm, Nat.Div0.mod_add; apply Nat.mod_small; lia).
  unfold repack_step at 2. cbn [fst snd]. rewrite Hmod, first_char_string.
  assert (Hins : <[length don := c]> ns = don ++ c :: drop (S (length don)) ns).
  { rewrite <-(take_drop (length don) ns) at 1. rewrite Htake. rewrite insert_app_r_alt, Nat.sub_diag by lia.
    destruct (drop (length don) ns) as [|x rest] eqn:Ed; [apply (f_equal length) in Ed; rewrite length_drop in Ed; cbn in Ed; lia|]. cbn. f_equal. f_equal.
    rewrite <-Nat.add_1_r, <-drop_drop, Ed. done. }
  destruct row as [|c' row].
  - replace (length don + 1 =? size)%nat with true by (symmetry; apply Nat.eqb_eq; cbn in Hlen; lia). cbn [map imap foldl].
    exists (<[length don := c]> ns). split; [done|]. rewrite Hins. cbn [app]. do 2 f_equal. cbn in Hlen. f_equal. lia.
  - replace (length don + 1 =? size)%nat with false by (symmetry; apply Nat.eqb_neq; cbn in Hlen; lia).
    destruct (IH (don ++ [c]) out (<[length don := c]> ns)) as (ns' & E & Ens).
    + rewrite !length_app. cbn in *. lia.
    + by rewrite length_insert.
    + rewrite Hins. change (c :: drop (S (length don)) ns) with ([c] ++ drop (S (length don)) ns). rewrite app_assoc. by rewrite take_app_length.
    + done.
    + exists ns'. split.
      * rewrite <-E. f_equal. apply imap_ext. intros i x _. cbn. rewrite length_app. cbn. f_equal. lia.
      * rewrite Ens, <-app_assoc. cbn [app]. do 4 f_equal. apply drop_insert_lt. cbn in Hlen. lia.
Qed.

Lemma c_string_zero l : c_string (l ++ [Ascii.ascii_of_nat 0]) = c_string l.
Proof. induction l as [|c l IH]; [done|]. cbn. by rewrite IH. Qed.

Lemma repack_rows rows : forall q out ns, Forall (fun row => length row = size) rows -> length ns = S size -> drop size ns = [Ascii.ascii_of_nat 0] ->
  snd (foldl (repack_step size) (ns, out) (imap (fun i s => ((q * size + i)%nat, s)) (concat (map (map char_string) rows)))) =
  out ++ map (fun row => right_trim (c_string row)) rows.
Proof.
  induction rows as [|row rows IH]; intros q out ns Hrows Hns Hz; [by rewrite app_nil_r|]. apply Forall_cons in Hrows as [Hrow Hrows]. cbn [map concat].
  rewrite imap_app, foldl_app. destruct (repack_row q row [] out ns) as (ns' & E & Ens); [done|done|done|by intros ->|]. cbn [length Nat.add app] in E, Ens. rewrite E.
  assert (Hz' : drop size ns' = [Ascii.ascii_of_nat 0]) by (rewrite Ens, drop_app_length' by done; done).
  assert (Hns' : length ns' = S size) by (rewrite Ens, Hz, length_app, Hrow; cbn; lia).
  cbn [map]. change (right_trim (c_string row) :: ?l) with ([right_trim (c_string row)] ++ l). rewrite app_assoc.
  rewrite Ens, Hz, c_string_zero. rewrite <-(IH (S q) (out ++ [right_trim (c_string row)]) (row ++ [Ascii.ascii_of_nat 0])); [|done|by rewrite length_app, Hrow; cbn; lia|].
  - f_equal. f_equal. apply imap_ext. intros i x _. cbn. f_equal. rewrite length_map. cbn in Hrow. lia.
  - rewrite drop_app_length' by done. done.
Qed.
End repack.

(** Strings of the old format are repacked.  A variable of characters, with the
    length of the strings as its last dimension, becomes one string per row: the
    characters of the row up to the first zero, without blanks at the end. *)
Theorem strings_repacked (n : nat) (rows : list (list Ascii.ascii)) : Forall (fun row => length row = S n) rows ->
  repack (S n) (concat (map (map char_string) rows)) = map (fun row => right_trim (c_string row)) rows.
Proof.
  intros Hrows. unfold repack. rewrite Nat.add_1_r. pose proof (repack_rows n rows 0 [] (replicate (S (S n)) (Ascii.ascii_of_nat 0)) Hrows) as H.
  cbn [app Nat.mul] in H. rewrite <-H; [done|apply length_replicate|]. rewrite drop_replicate. by replace (S (S n) - S n)%nat with 1%nat by lia.
Qed.

(** A variable of strings with channels does not have rows of characters: its
    strings are taken for characters, and all that is written is one string. *)
Lemma channel_strings_garbled (buf : list string) : buf <> [] -> repack (length buf) buf = [right_trim (c_string (map first_char buf))].
Proof.
  intros Hne. assert (E : forall g st l (f : nat -> nat), foldl (repack_step g) st (imap (fun i s => (f i, s)) l) =
    foldl (repack_step g) st (imap (fun i s => (f i, s)) (map char_string (map first_char l)))).
  { intros g st l. revert st. induction l as [|x l IH]; intros st f; [done|]. cbn [imap map foldl]. rewrite (IH _ (f ∘ S)).
    unfold repack_step at 2 4. cbn [fst snd]. by rewrite first_char_string. }
  destruct buf as [|x buf]; [done|]. unfold repack. cbn [length]. rewrite (E _ _ _ (fun i => i)), Nat.add_1_r.
  pose proof (repack_rows (length buf) [map first_char (x :: buf)] 0 [] (replicate (S (S (length buf))) (Ascii.ascii_of_nat 0))) as H.
  cbn [map concat app Nat.mul] in H. rewrite app_nil_r in H. apply H; [|apply length_replicate|].
  - repeat constructor. cbn. by rewrite length_map.
  - rewrite drop_replicate. by replace (S (S (length buf)) - S (length buf))%nat with 1%nat by lia.
Qed.

(** The example: the channels 1 and 10 of a file that has the channels 1, 2 and
    10, at two locations. *)
Module CopySample.
#[local] Existing Instance reference_output.
#[local] Existing Instance reference_output_laws.
Definition bt (values : list Z) : OldVariable Z :=
  {| ov_id := 7; ov_dims := [2]; ov_is_scale := false; ov_axes := [1]; ov_chunks := [2]; ov_fill := -99; ov_atts := []; ov_contents := Elements values |}.
Definition old : list (string * OldVariable Z) := [("ObsValue/bt_10", bt [110; 210]); ("ObsValue/bt_1", bt [101; 201])].

Lemma channels_copied_witness : exists data, copyData old "ObsValue/bt" (chan_map [1; 2; 10]) [2; 3] (Elements (replicate 6 (-99))) = Ok (Elements data) /\
  data = [101; -99; 110; 201; -99; 210].
Proof.
  destruct (channels_copied (A := Z) "ObsValue/bt" [1; 2; 10] [2]) with (fill := -99) (old := old) (chans := [10; 1]) as (data & H & _ & _ & _).
  - by repeat constructor.
  - apply (bool_decide_unpack _). vm_compute. exact I.
  - cbn. lia.
  - repeat constructor; [exists "10", [110; 210]|exists "1", [101; 201]]; done.
  - apply (bool_decide_unpack _). vm_compute. exact I.
  - intros c Hc. set_solver.
  - exists data. split; [exact H|]. vm_compute in H. by injection H as <-.
Defined.

Lemma strings_repacked_witness : repack 3 ["a"; "b"; " "; "c"; ""; ""] = ["ab"; "c"].
Proof.
  apply (strings_repacked 2 [String.list_ascii_of_string "ab "; String.list_ascii_of_string "c" ++ replicate 2 (Ascii.ascii_of_nat 0)]). by repeat constructor.
Defined.

Lemma chunk_sizes_witness : exists c, shrink_chunks (chunk_fuel [100000; 20]) [100000; 20] = Ok c /\ c = [6250; 1].
Proof.
  destruct (chunk_sizes [100000; 20]) as (c & H & _); [by repeat constructor|]. exists c. split; [exact H|]. vm_compute in H. by injection H as <-.
Defined.
End CopySample.
