(* ===== verification/UpgradeFileSpec.v ===== *)
(** What the upgrade of a file from version 1 without grouping keeps. *)
From stdpp Require Import base list gmap strings pretty.
From Stdlib Require Import ZArith.
From S2P Require Import Prelude Selection ObsRecords OdbOpen OdbOpenSpec OdbLayout OdbLayoutSpec OdbLayoutNames WriterTransfer VarUtils VarUtilsSpec.
From S2P Require Import UpgradeV1V2 UpgradeV1V2Spec UpgradeV1V2File UpgradeCopySpec.
Local Open Scope Z_scope.

(** * Attributes *)

Definition attribute_ok (a : Attr) : Prop := prodZ (at_dims a) <> 0 \/ (at_size a <= 1)%nat.
Lemma copyAttributes_ok src : forall dest, Forall (fun s => attribute_ok (snd s)) src -> exists r, copyAttributes src dest = Ok r.
Proof.
  unfold copyAttributes. induction src as [|[n a] src IH]; intros dest Hok; [by exists dest|]. apply Forall_cons in Hok as [Ha Hok]. cbn [foldM fst snd] in *.
  destruct (bool_decide _); cbn [mbind res_bind]; [by apply IH|]. destruct (has_attribute n dest); cbn [mbind res_bind]; [by apply IH|].
  unfold copied_attribute. destruct (Z.eqb_spec (prodZ (at_dims a)) 0) as [E|E]; [|cbn [mbind res_bind]; by apply IH].
  destruct Ha as [Ha|Ha]; [done|]. apply Nat.leb_le in Ha. rewrite Ha. cbn [mbind res_bind]. by apply IH.
Qed.

(** * Scales *)

Lemma NoDup_map_filter {A B} (f : A -> B) (P : A -> Prop) `{!forall x, Decision (P x)} (l : list A) : NoDup (map f l) -> NoDup (map f (filter P l)).
Proof.
  induction l as [|x l IH]; [done|]. cbn [map]. rewrite NoDup_cons. intros [Hx Hl]. rewrite filter_cons. destruct (decide (P x)); [|by apply IH]. cbn [map]. apply NoDup_cons. split; [|by apply IH].
  intros (y & E & Hy)%list_elem_of_fmap. apply list_elem_of_filter in Hy as [_ Hy]. apply Hx. rewrite E. apply list_elem_of_fmap. eauto.
Qed.

Section scales.
Context {A : Type}.
Notation Named_Variable := (string * OldVariable A)%type.
Notation convert := convertV1PathToV2Path.

Definition by_string_entries (dims : gmap string (list Named_Variable)) : list (string * list string) :=
  map (fun p => (convert (fst p), map fst (snd p))) (std_sort (fun a b => String.ltb (fst a) (fst b)) (map_to_list dims)).
Lemma by_string_inserts dims : by_string dims = insert_all ∅ (by_string_entries dims).
Proof.
  unfold by_string, insert_all, by_string_entries. generalize (std_sort (fun a b => String.ltb (fst a) (fst b)) (map_to_list dims)). intros l.
  generalize (∅ : gmap string (list string)). induction l as [|p l IH]; intros m; [done|]. cbn [map foldl fst snd]. apply IH.
Qed.
Lemma entries_names (dims : gmap string (list Named_Variable)) names : (forall n, is_Some (dims !! n) <-> n ∈ names) -> NoDup (map convert names) -> NoDup names ->
  map fst (by_string_entries dims) ≡ₚ map convert names.
Proof.
  intros Hdom Hnd Hn. unfold by_string_entries. rewrite map_map. cbn [fst]. rewrite std_sort_perm. rewrite <-(map_map fst convert). f_equiv.
  apply NoDup_Permutation; [apply NoDup_fst_map_to_list|done|]. intros n. rewrite <-Hdom. rewrite list_elem_of_fmap. split.
  - intros ([k x] & -> & Hk%elem_of_map_to_list). by exists x.
  - intros [x Hx]. exists (n, x). split; [done|]. by apply elem_of_map_to_list.
Qed.

Lemma by_string_at (dims : gmap string (list Named_Variable)) names n ds : (forall n, is_Some (dims !! n) <-> n ∈ names) -> NoDup (map convert names) -> NoDup names ->
  dims !! n = Some ds -> by_string dims !! convert n = Some (map fst ds).
Proof.
  intros Hdom Hnd Hn Hl. rewrite by_string_inserts. apply insert_all_entry; [by rewrite (entries_names dims names)|]. unfold by_string_entries.
  apply list_elem_of_fmap. exists (n, ds). split; [done|]. rewrite std_sort_perm. by apply elem_of_map_to_list.
Qed.
Lemma by_string_inv (dims : gmap string (list Named_Variable)) k ss : by_string dims !! k = Some ss -> exists n ds, dims !! n = Some ds /\ k = convert n /\ ss = map fst ds.
Proof.
  rewrite by_string_inserts. intros [H|H]%insert_all_inv; [|by rewrite lookup_empty in H]. unfold by_string_entries in H. apply list_elem_of_fmap in H as ([n ds] & E & H).
  rewrite std_sort_perm in H. apply elem_of_map_to_list in H. cbn in E. simplify_eq. eauto.
Qed.

Lemma is_attached_iff (bystring : gmap string (list string)) dim : is_attached bystring dim = true <-> exists n ss, bystring !! n = Some ss /\ dim ∈ ss.
Proof.
  unfold is_attached. rewrite existsb_exists. split.
  - intros ([n ss] & Hin & H). rewrite <-list_elem_of_In in Hin. apply elem_of_map_to_list in Hin. apply bool_decide_eq_true in H. eauto.
  - intros (n & ss & Hn & H). exists (n, ss). rewrite <-list_elem_of_In. split; [by apply elem_of_map_to_list|]. by apply bool_decide_eq_true.
Qed.
End scales.

(** ** New scales *)

Section generate.
Context {A : Type}.
Notation Named_Variable := (string * OldVariable A)%type.

Definition scale_of (s : Scale) : NewScale :=
  {| ns_size := sc_size s; ns_chunk := sc_chunk s; ns_data := sc_data s; ns_atts := [("suggested_chunk_dim", suggested_chunk (sc_chunk s))] |}.
Lemma generate_ok layout (newdims : list Scale) : NoDup (map sc_name newdims) ->
  generate (A := A) layout newdims = Ok {| o_atts := layout; o_scales := insert_all ∅ (map (fun s => (sc_name s, scale_of s)) newdims); o_vars := ∅ |}.
Proof.
  intros Hnd. unfold generate.
  assert (Hgo : forall l (m : gmap string NewScale), NoDup (map sc_name l) -> (forall s, s ∈ l -> m !! sc_name s = None) ->
    foldM (fun scales f => match scales !! sc_name f with Some _ => Throw (EException "") | None => Ok (<[sc_name f := scale_of f]> scales) end) m l =
    Ok (insert_all m (map (fun s => (sc_name s, scale_of s)) l))).
  { induction l as [|s l IH]; intros m Hn Hm; [done|]. cbn [foldM map]. rewrite Hm by left. cbn [mbind res_bind]. cbn [map] in Hn. apply NoDup_cons in Hn as [Hs Hn].
    rewrite IH; [done|done|]. intros t Ht. rewrite lookup_insert_ne; [apply Hm; by right|]. intros E. apply Hs. rewrite E. apply list_elem_of_fmap. eauto. }
  unfold scale_of in Hgo. rewrite (Hgo newdims ∅ Hnd) by (intros; apply lookup_empty). done.
Qed.

(** Attributes of scales change nothing else. *)
Definition same_scales (o o' : Output (A := A)) : Prop :=
  o_vars o' = o_vars o /\ o_atts o' = o_atts o /\ forall n, match o_scales o !! n, o_scales o' !! n with
    | Some s, Some s' => ns_size s' = ns_size s /\ ns_chunk s' = ns_chunk s /\ ns_data s' = ns_data s | None, None => True | _, _ => False end.
(** The loop over the scales of the old file, which are found under other names. *)
Lemma copy_atts_ok (rename : string -> string) bystring (dims : list Named_Variable) : forall out, (forall d, d ∈ dims -> Forall (fun s => attribute_ok (snd s)) (ov_atts (snd d))) ->
  (forall d, d ∈ dims -> is_attached bystring (fst d) = true -> is_Some (o_scales out !! rename (fst d))) ->
  exists out', foldM (fun out d =>
    if is_attached bystring (fst d) then
      match o_scales out !! rename (fst d) with
      | Some s => atts ← copyAttributes (ov_atts (snd d)) (ns_atts s); Ok (set_scale_atts out (rename (fst d)) s atts)
      | None => Throw EOutOfRange
      end
    else Ok out) out dims = Ok out' /\ same_scales out out'.
Proof.
  induction dims as [|d dims IH]; intros out Hatt Hsc.
  { exists out. split; [done|]. split_and!; [done|done|]. intros n. by destruct (o_scales out !! n). }
  cbn [foldM]. destruct (is_attached bystring (fst d)) eqn:Ea; cbn [mbind res_bind]; [|apply IH; [intros; apply Hatt; by right|intros; apply Hsc; [by right|done]]].
  destruct (Hsc d ltac:(left) Ea) as [s Hs]. rewrite Hs. destruct (copyAttributes_ok (ov_atts (snd d)) (ns_atts s) (Hatt d ltac:(left))) as [atts Hc]. rewrite Hc. cbn [mbind res_bind].
  assert (Hl : forall n, o_scales (set_scale_atts out (rename (fst d)) s atts) !! n =
    if decide (n = rename (fst d)) then Some {| ns_size := ns_size s; ns_chunk := ns_chunk s; ns_data := ns_data s; ns_atts := atts |} else o_scales out !! n).
  { intros n. cbn. destruct (decide (n = rename (fst d))) as [->|Hne]; [apply lookup_insert_eq|by apply lookup_insert_ne]. }
  destruct (IH (set_scale_atts out (rename (fst d)) s atts)) as (out' & E & Hv & Ha' & Hss).
  - intros; apply Hatt; by right.
  - intros d' Hd' Ha. rewrite Hl. destruct (decide _); [by eexists|]. apply Hsc; [by right|done].
  - exists out'. split; [done|]. split_and!; [done|done|]. intros n. specialize (Hss n). rewrite Hl in Hss. destruct (decide (n = rename (fst d))) as [->|Hne]; [|done].
    rewrite Hs. by destruct (o_scales out' !! rename (fst d)).
Qed.
End generate.

(** * Variables *)

Section variables.
Context {A : Type} `{OL : OutputLaws}.
Notation Named_Variable := (string * OldVariable A)%type.
Notation convert := convertV1PathToV2Path.
Notation Output := (Output (A := A)).
Notation NewVariable := (NewVariable (A := A)).
Implicit Types (p : Named_Variable) (out : Output).

Definition set_var out (k : string) (nv : NewVariable) : Output := {| o_atts := o_atts out; o_scales := o_scales out; o_vars := <[k := nv]> (o_vars out) |}.

(** A loop that sets one variable of its own in every round. *)
Lemma loop_variables (step : Output -> Named_Variable -> res Output) (key : Named_Variable -> string) (Q : Named_Variable -> NewVariable -> Prop) l : forall out,
  NoDup (map key l) ->
  (forall p out', p ∈ l -> o_scales out' = o_scales out -> o_vars out' !! key p = o_vars out !! key p -> exists nv, step out' p = Ok (set_var out' (key p) nv) /\ Q p nv) ->
  exists out', foldM step out l = Ok out' /\ o_scales out' = o_scales out /\ o_atts out' = o_atts out /\
    (forall p, p ∈ l -> exists nv, o_vars out' !! key p = Some nv /\ Q p nv) /\ (forall k, k ∉ map key l -> o_vars out' !! k = o_vars out !! k).
Proof.
  induction l as [|p l IH]; intros out Hnd Hstep; [exists out; split_and!; try done; by intros p Hp%elem_of_nil|].
  cbn [map] in Hnd. apply NoDup_cons in Hnd as [Hp Hnd]. cbn [foldM]. destruct (Hstep p out ltac:(left) eq_refl eq_refl) as (nv & E & HQ). rewrite E. cbn [mbind res_bind].
  destruct (IH (set_var out (key p) nv) Hnd) as (out' & E' & Hs & Ha & Hin & Hout).
  { intros q out1 Hq Hs1 Hv1. apply Hstep; [by right|done|]. rewrite Hv1. cbn. apply lookup_insert_ne. intros Ek. apply Hp. rewrite Ek. apply list_elem_of_fmap. eauto. }
  exists out'. cbn [set_var o_scales o_atts o_vars] in *. split_and!; [done|done|done| |].
  - intros q [->|Hq]%elem_of_cons; [|by apply Hin]. exists nv. rewrite Hout by done. by rewrite lookup_insert_eq.
  - intros k Hk. cbn [map] in Hk. rewrite Hout by set_solver. apply lookup_insert_ne. set_solver.
Qed.

(** A variable with as many elements as its dimensions say, whose strings are not
    of the old format. *)
Definition variable_ok (v : OldVariable A) : Prop :=
  Forall (fun d => 0 <= d) (ov_dims v) /\ Forall (fun s => attribute_ok (snd s)) (ov_atts v) /\
  match ov_contents v with Strings sz l => sz <> 1%nat /\ Z.of_nat (length l) = prodZ (ov_dims v) | Elements l => Z.of_nat (length l) = prodZ (ov_dims v) end.

(** The same data. *)
Definition same_contents (c c' : Contents A) : Prop :=
  match c, c' with Strings _ l, Strings _ l' => l' = l | Elements l, Elements l' => l' = l | _, _ => False end.
Definition same_kind (c c' : Contents A) : Prop := match c, c' with Strings _ _, Strings _ _ | Elements _, Elements _ => True | _, _ => False end.

Definition created (scales : Named_Variable -> list string) p (nv : NewVariable) : Prop :=
  nv_dims nv = ov_dims (snd p) /\ nv_scales nv = scales p /\ copyAttributes (ov_atts (snd p)) [] = Ok (nv_atts nv) /\ Forall (fun c => 1 <= c) (nv_chunks nv) /\
  same_kind (ov_contents (snd p)) (nv_contents nv).

Definition kept (scales : Named_Variable -> list string) p (nv : NewVariable) : Prop :=
  nv_dims nv = ov_dims (snd p) /\ nv_scales nv = scales p /\ copyAttributes (ov_atts (snd p)) [] = Ok (nv_atts nv) /\ Forall (fun c => 1 <= c) (nv_chunks nv) /\
  same_contents (ov_contents (snd p)) (nv_contents nv).

Lemma old_format_ok v : variable_ok v -> old_format (ov_contents v) = false.
Proof. intros (_ & _ & Hc). destruct (ov_contents v); [|done]. destruct Hc as [Hc _]. by apply Nat.eqb_neq. Qed.

(** ** Variables of version 1

    Strings of version 1 are arrays of characters: elements of one byte, with the
    length of the strings as the last dimension. *)

Definition char_array (v : OldVariable A) : bool := old_format (ov_contents v) && (1 <? length (ov_dims v))%nat.
Definition upgraded_dims (v : OldVariable A) : list Z := if char_array v then removelast (ov_dims v) else ov_dims v.
(** The scale of the characters is left out (of all variables of one byte, so that one without
    a dimension for the characters loses the scale of its last dimension). *)
Definition upgraded_scales (v : OldVariable A) (ss : list string) : list string := if old_format (ov_contents v) then removelast ss else ss.

(** The rows of characters of an array, and the string of a row. *)
Definition char_rows (v : OldVariable A) (l : list string) (rows : list (list Ascii.ascii)) : Prop :=
  exists n, last (ov_dims v) = Some (Z.of_nat (S n)) /\ Forall (fun row => length row = S n) rows /\ l = concat (map (map char_string) rows).
Definition row_text (row : list Ascii.ascii) : string := match row with [_] => c_string row | _ => right_trim (c_string row) end.

Definition old_variable_ok (v : OldVariable A) : Prop :=
  Forall (fun d => 0 <= d) (ov_dims v) /\ Forall (fun s => attribute_ok (snd s)) (ov_atts v) /\
  match ov_contents v with
  | Strings sz l => Z.of_nat (length l) = prodZ (ov_dims v) /\ (sz = 1%nat -> ov_dims v <> []) /\ (char_array v = true -> exists rows, char_rows v l rows)
  | Elements l => Z.of_nat (length l) = prodZ (ov_dims v)
  end.

Definition upgraded_contents (v : OldVariable A) (c' : Contents A) : Prop :=
  match ov_contents v, c' with
  | Strings _ l, Strings _ l' => if char_array v then exists rows, char_rows v l rows /\ l' = map row_text rows else l' = l
  | Elements l, Elements l' => l' = l
  | _, _ => False
  end.
Definition upgraded_as (same : OldVariable A -> Contents A -> Prop) (ss : list string) p (nv : NewVariable) : Prop :=
  nv_dims nv = upgraded_dims (snd p) /\ nv_scales nv = upgraded_scales (snd p) ss /\ copyAttributes (ov_atts (snd p)) [] = Ok (nv_atts nv) /\
  Forall (fun c => 1 <= c) (nv_chunks nv) /\ same (snd p) (nv_contents nv).
Definition upgraded : list string -> Named_Variable -> NewVariable -> Prop := upgraded_as upgraded_contents.
Definition prepared : list string -> Named_Variable -> NewVariable -> Prop := upgraded_as (fun v => same_kind (ov_contents v)).

Lemma length_removelast_le {T} (l : list T) : length (removelast l) = (length l - 1)%nat.
Proof. induction l as [|x l IH]; [done|]. destruct l as [|y l]; [done|]. change (removelast (x :: y :: l)) with (x :: removelast (y :: l)). cbn [length] in *. lia. Qed.

Lemma elem_of_removelast {T} (l : list T) x : x ∈ removelast l -> x ∈ l.
Proof.
  induction l as [|y l IH]; [done|]. destruct l as [|z l]; [by intros Hx%elem_of_nil|]. change (removelast (y :: z :: l)) with (y :: removelast (z :: l)).
  intros [->|Hx]%elem_of_cons; [left|right; by apply IH].
Qed.

Lemma makeNewVar_ok v : old_variable_ok v -> Forall (fun c => 0 <= c) (ov_chunks v) ->
  exists chunks init, makeNewVar v (ov_dims v) (ov_chunks v) = Ok (upgraded_dims v, chunks, init) /\ same_kind (ov_contents v) init /\ Forall (fun c => 1 <= c) chunks.
Proof.
  intros (Hd & _ & Hc) Hch. unfold makeNewVar, upgraded_dims, char_array, old_format. destruct (ov_contents v) as [sz l|l]; cbn [andb].
  - eexists _, _. split_and!; [done|done|]. apply adjusted_positive. destruct ((sz =? 1)%nat && _); [|done].
    rewrite list.Forall_forall in Hd |- *. intros x Hx. by apply Hd, elem_of_removelast.
  - destruct (shrink_total (ov_dims v) Hd) as (c & -> & _ & _ & Hpos). cbn [mbind res_bind]. eexists _, _. by split_and!.
Qed.

Lemma attach_ok out v ss : old_variable_ok v -> length ss = length (ov_dims v) -> (forall s, s ∈ ss -> is_Some (o_scales out !! s)) ->
  attach out (old_format (ov_contents v)) (upgraded_dims v) ss = Ok (upgraded_scales v ss).
Proof.
  intros (_ & _ & Hc) Hlen Hsc. unfold attach, upgraded_scales, upgraded_dims, char_array.
  assert (Hall : forall ss', (forall s, s ∈ ss' -> s ∈ ss) -> forallb (fun s => bool_decide (is_Some (o_scales out !! s))) ss' = true).
  { intros ss' Hin. apply forallb_forall. intros s Hs. apply bool_decide_eq_true. by apply Hsc, Hin, list_elem_of_In. }
  destruct (old_format (ov_contents v)) eqn:Eo; cbn [andb].
  - assert (Hne : ov_dims v <> []). { unfold old_format in Eo. destruct (ov_contents v); [|done]. apply Nat.eqb_eq in Eo. by apply Hc. }
    rewrite bool_decide_false by (intros ->; destruct (ov_dims v); done). rewrite Hall by (apply elem_of_removelast).
    replace (_ <=? _)%nat with true; [done|]. symmetry. apply Nat.leb_le. rewrite length_removelast_le.
    destruct (1 <? length (ov_dims v))%nat; rewrite ?length_removelast_le; lia.
  - rewrite Hall by done. by replace (length ss <=? length (ov_dims v))%nat with true by (symmetry; apply Nat.leb_le; lia).
Qed.

Lemma new_ungrouped_ok bystring out p ss : old_variable_ok (snd p) -> Forall (fun c => 0 <= c) (ov_chunks (snd p)) -> bystring !! convert (fst p) = Some ss ->
  length ss = length (ov_dims (snd p)) -> (forall s, s ∈ ss -> is_Some (o_scales out !! s)) -> o_vars out !! convert (fst p) = None ->
  exists nv, new_ungrouped bystring out p = Ok (set_var out (convert (fst p)) nv) /\ prepared ss p nv.
Proof.
  intros Hv Hch Hss Hlen Hsc Hnew. unfold new_ungrouped. destruct (makeNewVar_ok (snd p) Hv Hch) as (chunks & init & -> & Hk & Hpos). cbn [mbind res_bind].
  destruct (copyAttributes_ok (ov_atts (snd p)) [] (proj1 (proj2 Hv))) as [atts Ha]. rewrite Ha. cbn [mbind res_bind]. unfold scales_at. rewrite Hss. cbn [mbind res_bind].
  rewrite (attach_ok out (snd p) ss Hv Hlen Hsc). cbn [mbind res_bind]. unfold create_variable. rewrite Hnew. eexists. split; [done|]. by split_and!.
Qed.

Lemma length_char_rows n (rows : list (list Ascii.ascii)) : Forall (fun row => length row = n) rows -> length (concat (map (map char_string) rows)) = (length rows * n)%nat.
Proof. induction 1 as [|row rows Hr _ IH]; [done|]. cbn [map concat length]. rewrite length_app, length_map, Hr, IH. lia. Qed.

Lemma short_rows (rows : list (list Ascii.ascii)) : Forall (fun row => length row = 1%nat) rows -> concat (map (map char_string) rows) = map row_text rows.
Proof. induction 1 as [|row rows Hr _ IH]; [done|]. destruct row as [|c [|]]; try done. cbn [map concat app]. by rewrite IH. Qed.

Lemma prodZ_last dims m : last dims = Some m -> prodZ dims = prodZ (removelast dims) * m.
Proof.
  induction dims as [|d dims IH]; [done|]. destruct dims as [|e dims]; intros Hm; [cbn in Hm; injection Hm as ->; cbn; lia|].
  change (removelast (d :: e :: dims)) with (d :: removelast (e :: dims)). change (prodZ (d :: ?l)) with (d * prodZ l). rewrite IH by done. lia.
Qed.

(** The strings of an array of characters. *)
Lemma copy_char_array v l rows (old : list string) : Z.of_nat (length l) = prodZ (ov_dims v) -> char_rows v l rows ->
  copy_strings (ov_dims v) (removelast (ov_dims v)) l old = Ok (map row_text rows).
Proof.
  intros Hl (n & Hlast & Hrows & ->). rewrite length_char_rows with (n := S n) in Hl by done. unfold copy_strings. rewrite Hlast, Nat2Z.id.
  rewrite (prodZ_last _ _ Hlast) in Hl |- *. assert (Hn : Z.of_nat (length rows) = prodZ (removelast (ov_dims v))) by nia.
  destruct (Z.eqb_spec (prodZ (removelast (ov_dims v)) * Z.of_nat (S n)) (prodZ (removelast (ov_dims v)))) as [E|E].
  - assert (Hs : concat (map (map char_string) rows) = map row_text rows).
    { destruct n as [|n]; [by apply short_rows|]. destruct rows as [|row rows]; [done|]. cbn [length] in Hn. nia. }
    rewrite Hs. apply out_write_law. by rewrite length_map.
  - rewrite (strings_repacked n rows Hrows). rewrite out_write_law by (by rewrite length_map). f_equal. apply map_ext_in. intros row Hr%list_elem_of_In.
    rewrite list.Forall_forall in Hrows. specialize (Hrows row Hr). destruct n as [|n]; [nia|]. destruct row as [|c [|c' row]]; done.
Qed.

Lemma write_variable_ok out p ss nv : old_variable_ok (snd p) -> o_vars out !! convert (fst p) = Some nv -> prepared ss p nv ->
  exists nv', write_variable (fst p) [p] EmptyString ∅ out = Ok (set_var out (convert (fst p)) nv') /\ upgraded ss p nv'.
Proof.
  intros (_ & _ & Hc) Hv (Hd & Hs & Ha & Hch & Hk). unfold write_variable. rewrite Hv. unfold copyData. cbn [length Nat.eqb imap foldM]. destruct p as [n v]. cbn [fst snd copy_step] in *.
  unfold upgraded_dims in Hd. unfold upgraded, upgraded_as, upgraded_contents, upgraded_dims. cbn [snd].
  destruct (ov_contents v) as [sz l|l] eqn:Ec, (nv_contents nv) as [sz' l'|l'] eqn:En; try done.
  - destruct Hc as (Hlen & _ & Hrows). rewrite Hd. destruct (char_array v) eqn:Es.
    + destruct (Hrows eq_refl) as [rows Hr]. rewrite (copy_char_array v l rows l' Hlen Hr). cbn [mbind res_bind]. eexists. split; [done|]. split_and!; try done. by exists rows.
    + unfold copy_strings. rewrite Z.eqb_refl, out_write_law by done. cbn [mbind res_bind]. eexists. split; [done|]. by split_and!.
  - assert (Es : char_array v = false) by (unfold char_array, old_format; by rewrite Ec). rewrite Es in *. unfold copy_elements. cbn [mbind res_bind].
    rewrite Hd, out_write_law by done. cbn [mbind res_bind]. eexists. split; [done|]. by split_and!.
Qed.

(** * The whole file *)

Section file.
Context (file : FileGroup (OldVariable A)) (vars : list Named_Variable) (info : VarDimInfo (OldVariable A)).
Hypothesis Hg : group_ok file vars.
Hypothesis Hi : collected vars info.
Hypothesis Hcv : NoDup (map (fun p => convert (fst p)) (variables_of vars)).

Notation bystring := (by_string (dimsAttachedToVars info)).
Definition scale_names p : list string := default [] (bystring !! convert (fst p)).
(** A scale along a dimension of a variable. *)
Definition along (t : Named_Variable) : Prop :=
  exists p i, p ∈ variables_of vars /\ (i < length (ov_dims (snd p)))%nat /\ isDimensionScaleAttached (snd p) i (snd t) = true.

Lemma scales_in t : t ∈ scales_of vars <-> t ∈ vars /\ isDimensionScale (snd t) = true.
Proof. unfold scales_of. rewrite list_elem_of_filter. tauto. Qed.
Lemma variables_in p : p ∈ variables_of vars <-> p ∈ vars /\ isDimensionScale (snd p) = false.
Proof. unfold variables_of. rewrite list_elem_of_filter. tauto. Qed.

Lemma dims_domain n : is_Some (dimsAttachedToVars info !! n) <-> n ∈ map fst (variables_of vars).
Proof.
  destruct Hi as (_ & _ & _ & Hd & Hn). split.
  - intros [ds E]. destruct (decide (n ∈ map fst (variables_of vars))) as [|Hni]; [done|]. by rewrite Hn in E.
  - intros (p & -> & Hp)%list_elem_of_fmap. destruct (Hd p Hp) as (ds & E & _). eauto.
Qed.

Lemma variables_nodup : NoDup (map fst (variables_of vars)).
Proof. apply (NoDup_fmap_1 convert). change (NoDup (map convert (map fst (variables_of vars)))). by rewrite map_map. Qed.

Lemma scale_names_ok p : p ∈ variables_of vars -> exists ds, bystring !! convert (fst p) = Some (map fst ds) /\ length ds = length (ov_dims (snd p)) /\
  forall i t, ds !! i = Some t -> t ∈ scales_of vars /\ isDimensionScaleAttached (snd p) i (snd t) = true.
Proof.
  intros Hp. destruct Hi as (_ & _ & _ & Hd & _). destruct (Hd p Hp) as (ds & E & Hlen & Hds). exists ds. split; [|done].
  apply (by_string_at _ (map fst (variables_of vars))); [apply dims_domain|by rewrite map_map|apply variables_nodup|done].
Qed.

(** The scales that are attached are those along dimensions. *)
Lemma attached_along_iff t : t ∈ scales_of vars -> is_attached bystring (fst t) = true <-> along t.
Proof.
  intros Ht. rewrite is_attached_iff. split.
  - intros (k & ss & Hk & Hin). apply by_string_inv in Hk as (n & ds & Hn & -> & ->). assert (Hdom : n ∈ map fst (variables_of vars)) by (apply dims_domain; eauto).
    apply list_elem_of_fmap in Hdom as (p & -> & Hp). destruct Hi as (_ & _ & _ & Hd & _). destruct (Hd p Hp) as (ds' & E & Hlen & Hds). rewrite Hn in E. injection E as <-.
    apply list_elem_of_fmap in Hin as (t' & Et & Ht'). apply list_elem_of_lookup in Ht' as [i Hti]. destruct (Hds i t' Hti) as [Hs Ha].
    assert (Hlt : (i < length (ov_dims (snd p)))%nat) by (apply lookup_lt_Some in Hti; cbn [getDimensions old_backend] in Hlen; lia).
    assert (t = t') as ->; [|by exists p, i].
    apply (name_unique file vars Hg); [by apply scales_in in Ht as [? _]|by apply scales_in in Hs as [? _]|done].
  - intros (p & i & Hp & Hlt & Ha). destruct (scale_names_ok p Hp) as (ds & E & Hlen & Hds). exists (convert (fst p)), (map fst ds). split; [done|].
    destruct (lookup_lt_is_Some_2 ds i) as [t' Ht']; [lia|]. destruct (Hds i t' Ht') as [Hs Ha']. apply variables_in in Hp as [Hpv Hpd]. apply scales_in in Ht as [Htv Htd]. apply scales_in in Hs as [Hsv Hsd].
    destruct (go_attached _ _ Hg p i Hpv Hpd Hlt) as (s & _ & _ & Hu). apply (Hu t Htv Htd) in Ha. apply (Hu t' Hsv Hsd) in Ha'. subst. apply list_elem_of_fmap. exists s. split; [done|].
    by eapply list_elem_of_lookup_2.
Qed.

(** The scales of the new file. *)
Definition attached_scales : list Named_Variable := filter (fun t => is_attached bystring (fst t) = true) (dimVarList info).

Lemma attached_scales_in t : t ∈ attached_scales <-> t ∈ scales_of vars /\ along t.
Proof.
  unfold attached_scales. rewrite list_elem_of_filter. destruct Hi as (Hp & _). rewrite Hp. split.
  - intros [H1 H2]. split; [done|]. by apply attached_along_iff.
  - intros [H1 H2]. split; [by apply attached_along_iff|done].
Qed.

Lemma scale_dims t : t ∈ scales_of vars -> exists n, ov_dims (snd t) = [n].
Proof.
  intros [Ht Hd]%scales_in. destruct (go_scale _ _ Hg t Ht Hd) as [Hlen _]. cbn [getDimensions old_backend] in Hlen. destruct (ov_dims (snd t)) as [|n [|]]; [done|eauto|done].
Qed.

Lemma scales_nodup : NoDup (map fst (scales_of vars)).
Proof. unfold scales_of. apply NoDup_map_filter, (go_nodup _ _ Hg). Qed.

(** Each scale is made with a name of its own and with its size. *)
Context (mk : Named_Variable -> Scale).
Hypothesis Hname : NoDup (map (fun t => sc_name (mk t)) (scales_of vars)).
Hypothesis Hsize : forall t n, ov_dims (snd t) = [n] -> sc_size (mk t) = n.
Definition made_scales : gmap string NewScale := insert_all ∅ (map (fun t => (sc_name (mk t), scale_of (mk t))) attached_scales).

Lemma made_names : NoDup (map (fun t => sc_name (mk t)) attached_scales).
Proof. unfold attached_scales. destruct Hi as (Hp & _). rewrite Hp. by apply NoDup_map_filter. Qed.

Lemma generated layout : generate (A := A) layout (map mk attached_scales) = Ok {| o_atts := layout; o_scales := made_scales; o_vars := ∅ |}.
Proof. unfold made_scales. rewrite generate_ok; [by rewrite map_map|]. rewrite map_map. apply made_names. Qed.

Lemma generated_scale t : t ∈ attached_scales -> made_scales !! sc_name (mk t) = Some (scale_of (mk t)).
Proof. intros Ht. apply insert_all_entry; [|apply list_elem_of_fmap; by exists t]. rewrite map_map. cbn [fst]. apply made_names. Qed.
Lemma generated_inv n s : made_scales !! n = Some s -> exists t, t ∈ attached_scales /\ n = sc_name (mk t).
Proof. intros [Hn|Hn]%insert_all_inv; [|by rewrite lookup_empty in Hn]. apply list_elem_of_fmap in Hn as (t & E & Ht). simplify_eq. eauto. Qed.

Lemma made_unique t t' : t ∈ scales_of vars -> t' ∈ scales_of vars -> sc_name (mk t) = sc_name (mk t') -> t = t'.
Proof.
  intros [i Hti]%list_elem_of_lookup [j Htj]%list_elem_of_lookup E. assert (i = j) as <-; [|congruence].
  apply (NoDup_lookup (map (fun t => sc_name (mk t)) (scales_of vars)) i j (sc_name (mk t)) Hname);
    change (map ?f (scales_of vars)) with (f <$> scales_of vars); rewrite list_lookup_fmap, ?Hti, ?Htj; cbn; congruence.
Qed.

Lemma new_scales_iff layout out1 t : same_scales {| o_atts := layout; o_scales := made_scales; o_vars := ∅ |} out1 ->
  t ∈ scales_of vars -> along t <-> exists s, o_scales out1 !! sc_name (mk t) = Some s /\ ov_dims (snd t) = [ns_size s].
Proof.
  intros (_ & _ & Hs1) Ht. specialize (Hs1 (sc_name (mk t))). cbn [o_scales] in Hs1. split.
  - intros Hal. rewrite (generated_scale t) in Hs1 by (by apply attached_scales_in). destruct (o_scales out1 !! sc_name (mk t)) as [s|]; [|done].
    exists s. split; [done|]. destruct Hs1 as (Hsz & _). destruct (scale_dims t Ht) as [n En]. rewrite En, Hsz. cbn. by rewrite (Hsize t n En).
  - intros (s & Es & _). rewrite Es in Hs1. destruct (made_scales !! sc_name (mk t)) as [s0|] eqn:E0; [|done]. destruct (generated_inv _ s0 E0) as (t' & Ht' & En).
    apply attached_scales_in in Ht' as [Ht' Hal]. by rewrite (made_unique t t' Ht Ht' En).
Qed.
End file.

(** ** The scales of an upgrade from version 1 *)

Definition new_scale (t : Named_Variable) : Scale := {| sc_name := fst t; sc_size := default 0 (head (ov_dims (snd t))); sc_chunk := defaultChunkSize; sc_data := [] |}.
Lemma new_scale_size t n : ov_dims (snd t) = [n] -> sc_size (new_scale t) = n.
Proof. cbn. by intros ->. Qed.
Lemma old_scales_ok file vars info : group_ok file vars -> collected vars info -> NoDup (map (fun p => convert (fst p)) (variables_of vars)) ->
  old_scales (by_string (dimsAttachedToVars info)) ∅ (dimVarList info) = Ok (map new_scale (attached_scales info)).
Proof.
  intros Hg Hi Hcv. unfold old_scales.
  assert (E : filter (fun dim : Named_Variable => negb (bool_decide (fst dim = "nchans") && has_groups (∅ : gmap string (list Named_Variable))) && is_attached (by_string (dimsAttachedToVars info)) (fst dim) = true)
    (dimVarList info) = attached_scales info).
  { apply list_filter_iff. intros t. replace (has_groups (∅ : gmap string (list Named_Variable))) with false by (unfold has_groups; by rewrite bool_decide_true). by rewrite andb_false_r. }
  rewrite E. apply mapR_Ok. intros t [Ht _]%(attached_scales_in file vars info Hg Hi Hcv). destruct (scale_dims file vars Hg t Ht) as [n En]. unfold NewDimensionScale, new_scale. by rewrite En.
Qed.

(** C20: The upgrade without grouping keeps the file.  For a file that is well
    formed, with attributes and data that fit, the upgrade succeeds: the new file has
    every variable under its name of version 2, with chunks of at least one
    element, the attributes that are copied, and no other variable, and of the
    scales those along a dimension of a variable, with their sizes.  A variable
    of numbers or of strings of more than one byte has the same dimensions, the
    same data and the scales that were along its dimensions.  An array of
    characters (strings of one byte, and several dimensions) becomes a variable
    of strings without the last dimension and its scale: each string is a row of
    the characters, up to the first zero and without the blanks at the end (a
    row of a single character keeps a blank).  A variable of characters with a
    single dimension keeps its data and dimension, but not the scale. *)
Theorem upgrade_keeps_variables (layout file_atts : list (string * Attr)) (file : FileGroup (OldVariable A)) (vars : list Named_Variable) :
  group_ok file vars -> NoDup (map (fun p => convert (fst p)) (variables_of vars)) ->
  (forall p, p ∈ variables_of vars -> old_variable_ok (snd p) /\ Forall (fun c => 0 <= c) (ov_chunks (snd p))) ->
  (forall t, t ∈ scales_of vars -> Forall (fun s => attribute_ok (snd s)) (ov_atts (snd t))) -> Forall (fun s => attribute_ok (snd s)) file_atts ->
  exists out, upgradeFile layout false file file_atts = Ok out /\ copyAttributes file_atts layout = Ok (o_atts out) /\
    (forall p, p ∈ variables_of vars -> exists nv ds, o_vars out !! convert (fst p) = Some nv /\ upgraded (map fst ds) p nv /\
       length ds = length (ov_dims (snd p)) /\ forall i t, ds !! i = Some t -> t ∈ scales_of vars /\ isDimensionScaleAttached (snd p) i (snd t) = true) /\
    (forall k, k ∉ map (fun p => convert (fst p)) (variables_of vars) -> o_vars out !! k = None) /\
    (forall t, t ∈ scales_of vars -> along vars t <-> exists s, o_scales out !! fst t = Some s /\ ov_dims (snd t) = [ns_size s]).
Proof.
  intros Hg Hcv Hvar Hsca Hatt. destruct (collected_ok file vars Hg) as (info & Ei & Hi). unfold upgradeFile. rewrite Ei. cbn [mbind res_bind upgrade_groups].
  rewrite (old_scales_ok file vars info Hg Hi Hcv). cbn [mbind res_bind]. unfold channel_scale, has_groups. rewrite bool_decide_true by done. cbn [negb mbind res_bind].
  rewrite app_nil_r, (generated vars info Hi new_scale) by exact (scales_nodup file vars Hg). cbn [mbind res_bind o_atts o_scales o_vars]. destruct (copyAttributes_ok file_atts layout Hatt) as [atts Ea]. rewrite Ea. cbn [mbind res_bind].
  set (out0 := {| o_atts := atts; o_scales := made_scales info new_scale; o_vars := ∅ |}).
  destruct Hi as (Hpd & Hpv & Hrest). assert (Hi : collected vars info) by done.
  destruct (copy_atts_ok (fun n => n) (by_string (dimsAttachedToVars info)) (dimVarList info) out0) as (out1 & E1 & Hsame).
  { intros d Hd. apply Hsca. by rewrite <-Hpd. }
  { intros d Hd Ha. eexists. apply (generated_scale vars info Hi new_scale (scales_nodup file vars Hg)). by apply list_elem_of_filter. }
  unfold copy_scale_atts. rewrite E1. cbn [mbind res_bind].
  pose proof (fun t Ht => new_scales_iff file vars info Hg Hi Hcv new_scale (scales_nodup file vars Hg) new_scale_size atts out1 t Hsame Ht) as Hscales. destruct Hsame as (Hv1 & Ha1 & _).
  assert (Hnd : NoDup (map (fun p => convert (fst p)) (varList info))) by (by rewrite Hpv).
  destruct (loop_variables (new_ungrouped (by_string (dimsAttachedToVars info))) (fun p => convert (fst p)) (fun p => prepared (scale_names info p) p) (varList info) out1 Hnd)
    as (out2 & E2 & Hs2 & Ha2 & Hin2 & Hout2).
  { intros p out' Hp Hsc Hv. rewrite Hpv in Hp. destruct (Hvar p Hp) as [Hok Hch]. destruct (scale_names_ok vars info Hi Hcv p Hp) as (ds & Eds & Hlen & Hds).
    destruct (new_ungrouped_ok (by_string (dimsAttachedToVars info)) out' p (map fst ds) Hok Hch Eds) as (nv & Enew & Hcr).
    - by rewrite length_map.
    - intros s Hs. apply list_elem_of_fmap in Hs as (t & -> & Ht). apply list_elem_of_lookup in Ht as [j Hj]. destruct (Hds j t Hj) as [Hts Hta]. rewrite Hsc.
      destruct (proj1 (Hscales t Hts)) as (s & Es & _); [|eauto]. exists p, j. split_and!; [done| |done].
      apply lookup_lt_Some in Hj. lia.
    - rewrite Hv, Hv1. apply lookup_empty.
    - exists nv. split; [done|]. unfold scale_names in *. by rewrite Eds. }
  rewrite E2. cbn [mbind res_bind]. change (group_list ∅) with (@nil (string * list Named_Variable)). cbn [foldM mbind res_bind].
  destruct (loop_variables (fun out v => write_variable (fst v) [v] EmptyString ∅ out) (fun p => convert (fst p)) (fun p => upgraded (scale_names info p) p) (varList info) out2 Hnd)
    as (out3 & E3 & Hs3 & Ha3 & Hin3 & Hout3).
  { intros p out' Hp Hsc Hv. destruct (Hin2 p Hp) as (nv & Env & Hcr). rewrite Env in Hv. rewrite Hpv in Hp. destruct (Hvar p Hp) as [Hok _]. by apply (write_variable_ok out' p _ nv). }
  rewrite E3. cbn [mbind res_bind]. exists out3. split_and!.
  - by destruct (o_scales out3 !! "nchans").
  - by rewrite Ha3, Ha2, Ha1.
  - intros p Hp. destruct (scale_names_ok vars info Hi Hcv p Hp) as (ds & Eds & Hlen & Hds). destruct (Hin3 p) as (nv & Env & Hk); [by rewrite Hpv|].
    exists nv, ds. split_and!; [done| |done|done]. unfold scale_names in *. by rewrite Eds in Hk.
  - intros k Hk. rewrite Hout3, Hout2, Hv1 by (by rewrite Hpv). apply lookup_empty.
  - intros t Ht. rewrite Hs3, Hs2. by apply Hscales.
Qed.
End variables.

(** The example: a file of version 1 with two locations, station names as an array
    of characters, and a scale that no variable has. *)
Module FileSample.
#[local] Existing Instance reference_output.
#[local] Existing Instance reference_output_laws.
Definition scale (id n : Z) : OldVariable Z :=
  {| ov_id := id; ov_dims := [n]; ov_is_scale := true; ov_axes := []; ov_chunks := [n]; ov_fill := 0; ov_atts := []; ov_contents := Elements [] |}.
Definition variable (id : Z) (c : Contents Z) : OldVariable Z :=
  {| ov_id := id; ov_dims := [2]; ov_is_scale := false; ov_axes := [1]; ov_chunks := [0]; ov_fill := -99;
     ov_atts := [("units", {| at_size := 1; at_dims := [0]; at_bytes := [] |}); ("DIMENSION_LIST", {| at_size := 16; at_dims := [1]; at_bytes := [] |})]; ov_contents := c |}.
Definition nlocs := ("nlocs", scale 1 2).
Definition nstring := ("nstring", scale 2 3).
Definition bt := ("bt_1@ObsValue", variable 3 (Elements [101; 201])).
Definition station : string * OldVariable Z :=
  ("station@MetaData", {| ov_id := 4; ov_dims := [2; 3]; ov_is_scale := false; ov_axes := [1; 2]; ov_chunks := [2; 3]; ov_fill := 0; ov_atts := [];
     ov_contents := Strings 1 ["A"; "B"; "C"; "D"; "E"; " "] |}).
Definition nunused := ("nunused", scale 5 7).
Definition vars : list (string * OldVariable Z) := [bt; nstring; station; nunused; nlocs].
Definition file : FileGroup (OldVariable Z) := {|
  listVariables := map fst vars;
  openVariable n := match List.find (fun p => bool_decide (fst p = n)) vars with Some p => Ok (snd p) | None => Throw (EException "") end;
  hasGroups := true
|}.

Lemma upgrade_file_ok : group_ok file vars.
Proof.
  split.
  - done.
  - apply (bool_decide_unpack _). vm_compute. exact I.
  - intros p Hp. unfold vars in Hp. Sample.members; reflexivity.
  - intros p Hp Hs. unfold vars in Hp. Sample.members; (done || by split).
  - intros p Hp Hs _. unfold vars in Hp. Sample.members; done.
  - intros p i Hp Hs Hi. unfold vars in Hp. Sample.members; try done;
      (destruct i as [|[|i]]; [exists nlocs|try (cbn in Hi; lia); exists nstring|cbn in Hi; lia]; (split; [set_solver|split; [done|]]); intros t Ht Hd; unfold vars in Ht; Sample.members; done).
Qed.

Definition names_of (o : Output (A := Z)) : option (list string * Contents Z) := (fun v => (nv_scales v, nv_contents v)) <$> o_vars o !! "MetaData/station".
Lemma upgrade_keeps_variables_witness : exists out, upgradeFile [] false file [] = Ok out /\
  names_of out = Some (["nlocs"], Strings 0 ["ABC"; "DE"]) /\ o_scales out !! "nunused" = None.
Proof.
  assert (Hv : forall p, p ∈ variables_of vars -> old_variable_ok (snd p) /\ Forall (fun c => 0 <= c) (ov_chunks (snd p))).
  { intros p Hp. apply list_elem_of_filter in Hp as [Hs Hp]. unfold vars in Hp. Sample.members; try done; (split; [|by repeat constructor]).
    - repeat split; repeat constructor; try (by right; cbn; lia); try (by left); done.
    - split; [by repeat constructor|]. split; [constructor|]. split_and!; [done|done|]. intros _.
      exists [String.list_ascii_of_string "ABC"; String.list_ascii_of_string "DE "], 2%nat. split_and!; [done|by repeat constructor|done]. }
  destruct (upgrade_keeps_variables (A := Z) [] [] file vars upgrade_file_ok) as (out & H & _ & Hin & _ & _).
  - apply (bool_decide_unpack _). vm_compute. exact I.
  - exact Hv.
  - intros t Ht. apply list_elem_of_filter in Ht as [Hs Ht]. unfold vars in Ht. Sample.members; try done; constructor.
  - constructor.
  - exists out. split; [exact H|]. assert (E : match upgradeFile [] false file [] with Ok o => names_of o = Some (["nlocs"], Strings 0 ["ABC"; "DE"]) /\ o_scales o !! "nunused" = None | Throw _ => False end).
    { vm_compute. by split. }
    rewrite H in E. exact E.
Defined.
End FileSample.
