(* ===== verification/UpgradeV2V3.v ===== *)
(** The program ioda-upgrade-v2-to-v3: variables and dimensions get the names of
    the conventions, and dates become seconds since an epoch.

    Models src/src/engines/ioda/src/mains/upgrade/upgradev2v3.cpp.  What the two
    upgrade programs have in common (attributes, chunk sizes, scales, the file that
    is written) is in UpgradeV1V2 and UpgradeV1V2File. *)
From stdpp Require Import base list gmap strings pretty.
From Stdlib Require Import ZArith.
From S2P Require Import Prelude Selection ObsFrameRead ObsRecords OdbOpen OdbLayout OdbWrite WriterTransfer VarUtils UpgradeV1V2 UpgradeV1V2File.
Local Open Scope Z_scope.

(** * Names *)

Definition renameDimension (inName : string) : string :=
  if bool_decide (inName = "nchans") then "Channel" else if bool_decide (inName = "nlocs") then "Location" else inName.

(** The variables of the conventions are given by their lists of names. *)
Definition getOldNewNameMap (variables : list (list string)) : gmap string string :=
  foldl (fun m names => match names with
    | [] => m
    | first :: _ => foldl (fun m name => if bool_decide (name <> first) then <[name := first]> m else m) m names
    end) ∅ variables.

Fixpoint find_first (p : Ascii.ascii -> bool) (s : string) : option nat :=
  match s with EmptyString => None | String c s => if p c then Some 0%nat else S <$> find_first p s end.
Definition splitVarGroup (vargrp : string) : res (string * string) :=
  match find_first at_sign vargrp with
  | Some at_ =>
      let var := String.substring 0 at_ vargrp in
      let grp := from (at_ + 1) vargrp in
      _ ← assert (negb (has_char at_sign grp));
      Ok (var, grp)
  | None =>
      match find_last is_slash vargrp with
      | Some slash => Ok (from (slash + 1) vargrp, String.substring 0 slash vargrp)
      | None => Ok (vargrp, EmptyString)
      end
  end.

Definition getNewNamingConventionsName (inVarName : string) (lookupMap : gmap string string) : res string :=
  if bool_decide (lookupMap = ∅) then Ok inVarName
  else
    '(var, group) ← splitVarGroup inVarName;
    let group := if bool_decide (group = "VarMetaData") then "MetaData" else group in
    Ok (group +:+ "/" +:+ match lookupMap !! var with Some new => new | None => var end).

(** * Dates *)

Inductive DateStyle := NoDates | EpochDates | StringDates | OffsetDates.
Definition has_name {V} (name : string) (vars : list (string * V)) : bool := existsb (fun v => bool_decide (fst v = name)) vars.
Definition date_style {V} (vars : list (string * V)) : DateStyle :=
  let useEpochDtime := has_name "MetaData/dateTime" vars in
  let useStringDtime := has_name "MetaData/datetime" vars in
  let useOffsetDtime := has_name "MetaData/time" vars in
  if useEpochDtime then EpochDates else if useStringDtime then StringDates else if useOffsetDtime then OffsetDates else NoDates.
Definition old_date (name : string) : bool := bool_decide (name = "MetaData/datetime") || bool_decide (name = "MetaData/time").

(** The parts of YYYYMMDDhh; the operators of [int] truncate. *)
Definition date_time_parts (refDtimeInt : Z) : Z * Z * Z * Z :=
  let year := Z.quot refDtimeInt 1000000 in
  let tempInt := Z.rem refDtimeInt 1000000 in
  let month := Z.quot tempInt 10000 in
  let tempInt := Z.rem tempInt 10000 in
  (year, month, Z.quot tempInt 100, Z.rem tempInt 100).

Definition linux_epoch : string := "1970-01-01T00:00:00Z".
Definition seconds_since : string := "seconds since ".

Section upgrade.
Context {A : Type} `{OF : OutputFile} {DT : Type} `{DateTimeOps DT}.
Notation Named_Variable := (string * OldVariable A)%type.
Notation Output := (Output (A := A)).

(** What is read from and written to a file besides copies: a number as an [int],
    [lround] of hours times 3600, a 64-bit integer, a string and an [int] in
    attributes, and the dates of the oops library. *)
Class UpgradeValues := {
  as_int : A -> Z;
  hours_to_seconds : A -> Z;
  from_int64 : Z -> A;
  is_supported : OldVariable A -> bool;
  string_att : string -> Attr;
  att_string : Attr -> res string;
  att_int : Attr -> res Z;
  make_date : Z -> Z -> Z -> Z -> res DT;
  date_string : DT -> string
}.
Context `{UV : UpgradeValues}.

(** ** Scales *)

Definition read_elements (v : OldVariable A) : res (list A) :=
  match ov_contents v with Elements l => Ok l | Strings _ _ => Throw (EException "") end.
Definition read_strings (v : OldVariable A) : res (list string) :=
  match ov_contents v with Strings _ l => Ok l | Elements _ => Throw (EException "") end.

Definition channel_numbers (dims : list Named_Variable) : res (list Z) :=
  foldM (fun nums dim => match nums with
    | [] => if bool_decide (fst dim = "Channel") || bool_decide (fst dim = "nchans") then l ← read_elements (snd dim); Ok (map as_int l) else Ok nums
    | _ => Ok nums
    end) [] dims.

Definition numbered_scale (name : string) (v : OldVariable A) : Scale :=
  let n := prodZ (ov_dims v) in {| sc_name := name; sc_size := n; sc_chunk := n; sc_data := replicate (Z.to_nat n) 0 |}.
Definition new_scales (bystring : gmap string (list string)) (dims : list Named_Variable) : res (list Scale) :=
  mapR (fun dim =>
      if bool_decide (fst dim = "Location") || bool_decide (fst dim = "nlocs") then Ok (numbered_scale "Location" (snd dim))
      else if bool_decide (fst dim = "Channel") || bool_decide (fst dim = "nchans") then Ok (numbered_scale "Channel" (snd dim))
      else NewDimensionScale (renameDimension (fst dim)) (snd dim) defaultChunkSize)
    (filter (fun dim => is_attached bystring (fst dim) = true) dims).

Definition copy_renamed_atts (bystring : gmap string (list string)) (dims : list Named_Variable) (out : Output) : res Output :=
  foldM (fun out d =>
    if is_attached bystring (fst d) then
      let name := renameDimension (fst d) in
      match o_scales out !! name with
      | Some s => atts ← copyAttributes (ov_atts (snd d)) (ns_atts s); Ok (set_scale_atts out name s atts)
      | None => Throw EOutOfRange
      end
    else Ok out) out dims.

(** ** Variables *)

Definition new_contents (v : OldVariable A) : Contents A :=
  match ov_contents v with
  | Strings sz _ => Strings sz (replicate (num_elements (ov_dims v)) EmptyString)
  | Elements _ => Elements (replicate (num_elements (ov_dims v)) (ov_fill v))
  end.
Definition new_variable (names : gmap string string) (bystring : gmap string (list string)) (out : Output) (v : Named_Variable) : res Output :=
  name ← getNewNamingConventionsName (fst v) names;
  c ← shrink_chunks (chunk_fuel (ov_dims (snd v))) (ov_dims (snd v));
  _ ← (if is_supported (snd v) then Ok () else Throw (EException "is not of any supported type"));
  atts ← copyAttributes (ov_atts (snd v)) [];
  scales ← scales_at bystring (convertV1PathToV2Path (fst v));
  scales ← attach out (old_format (ov_contents (snd v))) (ov_dims (snd v)) (map renameDimension scales);
  create_variable name {| nv_dims := ov_dims (snd v); nv_chunks := checkAdjustChunkSizes defaultChunkSize c; nv_atts := atts; nv_scales := scales;
                          nv_contents := new_contents (snd v) |} out.

(** [copyData], for the one variable that is passed. *)
Definition copyData3 (old : OldVariable A) (new_dims : list Z) (out : Contents A) : res (Contents A) :=
  match ov_contents old, out with
  | Strings _ buf, Strings sz out => out ← out_write new_dims out buf; Ok (Strings sz out)
  | Elements buf, Elements out => out ← out_write new_dims out buf; Ok (Elements out)
  | _, _ => Throw EUndefined
  end.
Definition write_variable3 (names : gmap string string) (out : Output) (v : Named_Variable) : res Output :=
  name ← getNewNamingConventionsName (fst v) names;
  match o_vars out !! convertV1PathToV2Path name with
  | Some nv =>
      contents ← copyData3 (snd v) (nv_dims nv) (nv_contents nv);
      Ok {| o_atts := o_atts out; o_scales := o_scales out;
            o_vars := <[convertV1PathToV2Path name :=
              {| nv_dims := nv_dims nv; nv_chunks := nv_chunks nv; nv_atts := nv_atts nv; nv_scales := nv_scales nv; nv_contents := contents |}]> (o_vars out) |}
  | None => Throw (EException "")
  end.

(** ** Dates *)

Definition epoch_string (style : DateStyle) (file_atts : list (string * Attr)) : res string :=
  match style with
  | StringDates => Ok linux_epoch
  | _ =>
      match List.find (fun a => bool_decide (fst a = "date_time")) file_atts with
      | Some a =>
          refDtimeInt ← att_int (snd a);
          let '(year, month, day, hour) := date_time_parts refDtimeInt in
          refDtime ← make_date year month day hour;
          Ok (date_string refDtime)
      | None => Throw (EException "")
      end
  end.

Definition new_dates (style : DateStyle) (file_atts : list (string * Attr)) (out : Output) : res Output :=
  match style with
  | StringDates | OffsetDates =>
      epochDtimeString ← epoch_string style file_atts;
      match o_scales out !! "Location" with
      | Some loc =>
          epochDtime ← dt_of_string epochDtimeString;
          fillValDtime ← dt_of_string "1900-01-01T00:00:00Z";
          create_variable "MetaData/dateTime"
            {| nv_dims := [ns_size loc]; nv_chunks := [ns_chunk loc]; nv_atts := [("units", string_att (seconds_since +:+ epochDtimeString))]; nv_scales := ["Location"];
               nv_contents := Elements (replicate (Z.to_nat (ns_size loc)) (from_int64 (dt_diff fillValDtime epochDtime))) |} out
      | None => Throw (EException "")
      end
  | _ => Ok out
  end.

Definition write_dates (out : Output) (offsets : list Z) : res Output :=
  match o_vars out !! "MetaData/dateTime" with
  | Some v =>
      match nv_contents v with
      | Elements old =>
          data ← out_write (nv_dims v) old (map from_int64 offsets);
          Ok {| o_atts := o_atts out; o_scales := o_scales out;
                o_vars := <["MetaData/dateTime" := {| nv_dims := nv_dims v; nv_chunks := nv_chunks v; nv_atts := nv_atts v; nv_scales := nv_scales v; nv_contents := Elements data |}]> (o_vars out) |}
      | Strings _ _ => Throw (EException "")
      end
  | None => Throw (EException "")
  end.

Definition units_of (out : Output) : res string :=
  match o_vars out !! "MetaData/dateTime" with
  | Some v => match List.find (fun a => bool_decide (fst a = "units")) (nv_atts v) with Some a => att_string (snd a) | None => Throw (EException "") end
  | None => Throw (EException "")
  end.

Definition convert_dates (style : DateStyle) (file : FileGroup (OldVariable A)) (out : Output) : res Output :=
  match style with
  | StringDates =>
      v ← openVariable file "MetaData/datetime";
      dtStrings ← read_strings v;
      epochString ← units_of out;
      epochString ← substr 14 (String.length epochString) epochString;
      epochDtime ← dt_of_string epochString;
      timeOffsets ← convertDtStringsToTimeOffsets epochDtime dtStrings;
      write_dates out timeOffsets
  | OffsetDates =>
      v ← openVariable file "MetaData/time";
      dtTimeOffsets ← read_elements v;
      write_dates out (map hours_to_seconds dtTimeOffsets)
  | _ => Ok out
  end.

(** ** [upgradeFile] *)

Definition write_channels (nums : list Z) (out : Output) : res Output :=
  match nums with
  | [] => Ok out
  | _ =>
      match o_scales out !! "Channel" with
      | Some s => Ok {| o_atts := o_atts out; o_vars := o_vars out;
                        o_scales := <["Channel" := {| ns_size := ns_size s; ns_chunk := ns_chunk s; ns_data := nums; ns_atts := ns_atts s |}]> (o_scales out) |}
      | None => Throw (EException "")
      end
  end.

Definition kept_variables (vars : list Named_Variable) : list Named_Variable := filter (fun v => old_date (fst v) = false) vars.

Definition upgradeFile3 (layout_atts : list (string * Attr)) (names : gmap string string) (file : FileGroup (OldVariable A)) (file_atts : list (string * Attr)) : res Output :=
  info ← collectVarDimInfo file;
  let bystring := by_string (dimsAttachedToVars info) in
  readChannelNumbers ← channel_numbers (dimVarList info);
  newdims ← new_scales bystring (dimVarList info);
  out ← generate layout_atts newdims;
  atts ← copyAttributes file_atts (o_atts out);
  out ← copy_renamed_atts bystring (dimVarList info) {| o_atts := atts; o_scales := o_scales out; o_vars := o_vars out |};
  let style := date_style (varList info) in
  out ← foldM (new_variable names bystring) out (kept_variables (varList info));
  out ← new_dates style file_atts out;
  out ← foldM (write_variable3 names) out (kept_variables (varList info));
  out ← convert_dates style file out;
  write_channels readChannelNumbers out.
End upgrade.
Arguments UpgradeValues A DT : clear implicits.
