(* ===== verification/UpgradeV2V3Spec.v ===== *)
(** What the upgrade of a file from version 2 to version 3 does to names, dates
    and variables. *)
From stdpp Require Import base list gmap strings pretty.
From Stdlib Require Import ZArith.
From S2P Require Import Prelude Selection ObsFrameRead ObsRecords ObsSpaceVars OdbOpen OdbOpenSpec OdbWrite OdbWriteSpec OdbCreateSpec OdbLayout OdbLayoutSpec OdbLayoutNames WriterTransfer VarUtils VarUtilsSpec.
From S2P Require Import UpgradeV1V2 UpgradeV1V2Spec UpgradeV1V2File UpgradeCopySpec UpgradeFileSpec UpgradeV2V3.
Local Open Scope Z_scope.

(** * Names *)

Lemma find_first_none p s : has_char p s = false -> find_first p s = None.
Proof. induction s as [|c s IH]; [done|]. cbn. intros [-> H]%orb_false_iff. by rewrite IH. Qed.
Lemma find_last_none p s : has_char p s = false -> find_last p s = None.
Proof. induction s as [|c s IH]; [done|]. cbn. intros [E H]%orb_false_iff. by rewrite IH, E. Qed.

(** Whether a list gives a name another name. *)
Definition renames (names : list string) (name new : string) : Prop := exists rest, names = new :: rest /\ name ∈ rest /\ name <> new.

Lemma names_loop names : forall m name, foldl (fun m name => if bool_decide (name <> default EmptyString (head names)) then <[name := default EmptyString (head names)]> m else m) m names !! name =
  if bool_decide (name ∈ names /\ name <> default EmptyString (head names)) then Some (default EmptyString (head names)) else (m : gmap string string) !! name.
Proof.
  generalize (default EmptyString (head names)). intros first. induction names as [|x names IH]; intros m name; cbn [foldl].
  - rewrite bool_decide_false; [done|]. intros [H _]. by apply elem_of_nil in H.
  - rewrite IH. destruct (decide (name ∈ names /\ name <> first)) as [H|H].
    + rewrite !bool_decide_true; [done|split; [right|]; apply H|done].
    + rewrite (bool_decide_false (name ∈ names /\ name <> first)) by done. destruct (decide (name = x)) as [->|Hx].
      * destruct (decide (x = first)) as [->|Hf].
        -- rewrite (bool_decide_false (first <> first)) by naive_solver. rewrite bool_decide_false; [done|]. naive_solver.
        -- rewrite (bool_decide_true (x <> first)) by done. rewrite lookup_insert_eq, bool_decide_true; [done|]. split; [left|done].
      * rewrite (bool_decide_false (name ∈ x :: names /\ name <> first)) by (rewrite elem_of_cons; naive_solver). case_bool_decide; [by rewrite lookup_insert_ne|done].
Qed.

Lemma name_map_lookup variables : NoDup (concat variables) ->
  forall m name, (forall names, names ∈ variables -> name ∈ names -> (m : gmap string string) !! name = None) ->
  forall new, foldl (fun m names => match names with [] => m | first :: _ => foldl (fun m name => if bool_decide (name <> first) then <[name := first]> m else m) m names end) m variables !! name = Some new <->
    (exists names, names ∈ variables /\ renames names name new) \/ m !! name = Some new.
Proof.
  induction variables as [|names variables IH]; intros Hnd m name Hm new; cbn [foldl].
  { split; [by right|]. intros [(names & Hn & _)|?]; [by apply elem_of_nil in Hn|done]. }
  cbn [concat] in Hnd. apply NoDup_app in Hnd as (Hn & Hdis & Hnd).
  assert (Hin : forall l, l ∈ variables -> name ∈ l -> name ∈ concat variables) by (intros l Hl Hx; apply list_elem_of_In, in_concat; exists l; by rewrite <-!list_elem_of_In).
  assert (Hstep : forall k, match names with [] => m | first :: _ => foldl (fun m name => if bool_decide (name <> first) then <[name := first]> m else m) m names end !! k =
    if bool_decide (k ∈ names /\ k <> default EmptyString (head names)) then Some (default EmptyString (head names)) else m !! k).
  { intros k. destruct names as [|f names]; [by rewrite bool_decide_false; [|intros [H _]; apply elem_of_nil in H]|]. apply (names_loop (f :: names)). }
  rewrite IH; [|done|].
  - rewrite Hstep. split.
    + intros [(l & Hl & Hr)|H]; [left; exists l; split; [by right|done]|]. case_bool_decide as Hb; [|by right]. simplify_eq. left. exists names. split; [left|].
      destruct names as [|f names]; [destruct Hb as [Hb _]; by apply elem_of_nil in Hb|]. destruct Hb as [Hb Hne]. cbn in *. exists names. split_and!; [done| |done].
      apply elem_of_cons in Hb as [->|Hb]; done.
    + intros [(l & Hl & Hr)|H].
      * apply elem_of_cons in Hl as [->|Hl]; [|left; eauto]. right. destruct Hr as (rest & -> & Hr & Hne). rewrite bool_decide_true; [done|]. split; [by right|done].
      * destruct (decide (name ∈ names)) as [Hi|Hi]; [|right; rewrite bool_decide_false; [done|naive_solver]]. rewrite (Hm names) in H; [done|left|done].
  - intros l Hl Hx. rewrite Hstep, bool_decide_false; [apply (Hm l); [by right|done]|]. intros [Hi _]. apply (Hdis name Hi). by eapply Hin.
Qed.

(** Variables get the names of the conventions.  When no name is in the
    conventions twice, a name is replaced exactly when it is listed after the first
    name of a variable, by that name; a variable of a group keeps its group, where
    VarMetaData becomes MetaData. *)
Theorem naming_conventions (variables : list (list string)) (group var : string) : NoDup (concat variables) -> getOldNewNameMap variables <> ∅ ->
  has_char at_sign (group +:+ "/" +:+ var) = false -> has_char is_slash var = false ->
  (forall old new, getOldNewNameMap variables !! old = Some new <-> exists names, names ∈ variables /\ renames names old new) /\
  getNewNamingConventionsName (group +:+ "/" +:+ var) (getOldNewNameMap variables) =
    Ok ((if bool_decide (group = "VarMetaData") then "MetaData" else group) +:+ "/" +:+ default var (getOldNewNameMap variables !! var)).
Proof.
  intros Hnd Hne Hat Hsl. split.
  - intros old new. unfold getOldNewNameMap. rewrite name_map_lookup by (done || (intros; apply lookup_empty)). rewrite lookup_empty. naive_solver.
  - unfold getNewNamingConventionsName. rewrite bool_decide_false by done. unfold splitVarGroup. rewrite find_first_none by done.
    assert (Hl : find_last is_slash ("/" +:+ var) = Some 0%nat) by (change ("/" +:+ var) with (String (Ascii.ascii_of_nat 47) var); cbn [find_last]; by rewrite find_last_none).
    rewrite (find_last_app _ group _ _ Hl), Nat.add_0_r. change ("/" +:+ var) with (String (Ascii.ascii_of_nat 47) var). rewrite from_suffix, substring_prefix. cbn [mbind res_bind].
    by destruct (getOldNewNameMap variables !! var).
Qed.

(** * Scales *)

Section upgrade.
Context {A : Type} `{OL : OutputLaws} {DT : Type} `{DO : DateTimeOps DT} `{UV : !UpgradeValues A DT}.
Notation Named_Variable := (string * OldVariable A)%type.
Notation convert := convertV1PathToV2Path.
Notation Output := (Output (A := A)).
Implicit Types (p t : Named_Variable) (out : Output).

Definition new_scale3 t : Scale :=
  if bool_decide (fst t = "Location") || bool_decide (fst t = "nlocs") then numbered_scale "Location" (snd t)
  else if bool_decide (fst t = "Channel") || bool_decide (fst t = "nchans") then numbered_scale "Channel" (snd t)
  else {| sc_name := renameDimension (fst t); sc_size := default 0 (head (ov_dims (snd t))); sc_chunk := defaultChunkSize; sc_data := [] |}.

Lemma new_scale3_size t n : ov_dims (snd t) = [n] -> sc_size (new_scale3 t) = n.
Proof. intros E. unfold new_scale3, numbered_scale. rewrite E. repeat (destruct (_ || _)); cbn; lia. Qed.
Lemma new_scale3_name t : sc_name (new_scale3 t) = renameDimension (fst t).
Proof. unfold new_scale3, renameDimension. destruct (fst t) as [|c s] eqn:E; [done|]. repeat (case_bool_decide; simplify_eq; try done). Qed.

Lemma new_scales_ok file vars info : group_ok file vars -> collected vars info -> NoDup (map (fun p => convert (fst p)) (variables_of vars)) ->
  new_scales (by_string (dimsAttachedToVars info)) (dimVarList info) = Ok (map new_scale3 (attached_scales info)).
Proof.
  intros Hg Hi Hcv. unfold new_scales. change (filter _ (dimVarList info)) with (attached_scales info). apply mapR_Ok. intros t [Ht _]%(attached_scales_in file vars info Hg Hi Hcv).
  destruct (scale_dims file vars Hg t Ht) as [n En]. unfold new_scale3. destruct (_ || _); [done|]. destruct (_ || _); [done|]. unfold NewDimensionScale. by rewrite En.
Qed.

(** The scale of channels, when it is along a dimension and has numbers. *)
Definition is_channel t : bool := bool_decide (fst t = "Channel") || bool_decide (fst t = "nchans").
Lemma channel_numbers_ok (P : Named_Variable -> Prop) dims : (forall t, t ∈ dims -> is_channel t = true -> exists l, ov_contents (snd t) = Elements l /\ (l <> [] -> P t)) ->
  exists nums, channel_numbers dims = Ok nums /\ (nums <> [] -> exists t, t ∈ dims /\ is_channel t = true /\ P t /\ exists l, ov_contents (snd t) = Elements l /\ nums = map as_int l).
Proof.
  intros Hd. unfold channel_numbers.
  assert (Hgo : forall rest nums, (forall t, t ∈ rest -> t ∈ dims) -> (nums <> [] -> exists t, t ∈ dims /\ is_channel t = true /\ P t /\ exists l, ov_contents (snd t) = Elements l /\ nums = map as_int l) ->
    exists nums', foldM (fun nums dim => match nums with
      | [] => if bool_decide (fst dim = "Channel") || bool_decide (fst dim = "nchans") then l ← read_elements (snd dim); Ok (map as_int l) else Ok nums | _ => Ok nums end) nums rest = Ok nums' /\
      (nums' <> [] -> exists t, t ∈ dims /\ is_channel t = true /\ P t /\ exists l, ov_contents (snd t) = Elements l /\ nums' = map as_int l)).
  { induction rest as [|t rest IH]; intros nums Hin Hn; [by exists nums|]. cbn [foldM]. destruct nums as [|x nums].
    - change (bool_decide (fst t = "Channel") || bool_decide (fst t = "nchans")) with (is_channel t). destruct (is_channel t) eqn:Ec; cbn [mbind res_bind].
      + destruct (Hd t (Hin t ltac:(left)) Ec) as (l & El & HP). unfold read_elements. rewrite El. cbn [mbind res_bind]. apply IH; [intros; apply Hin; by right|].
        intros Hne. exists t. split_and!; [apply Hin; left|done|apply HP; by intros ->|eauto].
      + apply IH; [intros; apply Hin; by right|done].
    - cbn [mbind res_bind]. apply IH; [intros; apply Hin; by right|done]. }
  by apply Hgo.
Qed.

(** * Variables *)

Lemma new_variable_ok names bystring out p ss name : variable_ok (snd p) -> is_supported (snd p) = true -> getNewNamingConventionsName (fst p) names = Ok name ->
  bystring !! convert (fst p) = Some ss -> length ss = length (ov_dims (snd p)) -> (forall s, s ∈ ss -> is_Some (o_scales out !! renameDimension s)) -> o_vars out !! convert name = None ->
  exists nv, new_variable names bystring out p = Ok (set_var out (convert name) nv) /\ created (fun _ => map renameDimension ss) p nv.
Proof.
  intros Hv Hsup Hname Hss Hlen Hsc Hnew. unfold new_variable. rewrite Hname. cbn [mbind res_bind]. destruct (shrink_total (ov_dims (snd p)) (proj1 Hv)) as (c & -> & _ & _ & Hpos). cbn [mbind res_bind].
  rewrite Hsup. cbn [mbind res_bind]. destruct (copyAttributes_ok (ov_atts (snd p)) [] (proj1 (proj2 Hv))) as [atts Ha]. rewrite Ha. cbn [mbind res_bind]. unfold scales_at. rewrite Hss. cbn [mbind res_bind].
  unfold attach. rewrite old_format_ok by done. cbn [andb]. assert (Hall : forallb (fun s => bool_decide (is_Some (o_scales out !! s))) (map renameDimension ss) = true).
  { apply forallb_forall. intros s Hs. apply bool_decide_eq_true. apply list_elem_of_In, list_elem_of_fmap in Hs as (s' & -> & Hs'). by apply Hsc. }
  rewrite Hall, length_map. replace (length ss <=? length (ov_dims (snd p)))%nat with true by (symmetry; apply Nat.leb_le; lia). cbn [andb mbind res_bind].
  unfold create_variable. rewrite Hnew. eexists. split; [done|]. split_and!; try done. cbn. unfold new_contents. by destruct (ov_contents (snd p)).
Qed.

Lemma write_variable3_ok names out p scales nv name : variable_ok (snd p) -> getNewNamingConventionsName (fst p) names = Ok name -> o_vars out !! convert name = Some nv -> created scales p nv ->
  exists nv', write_variable3 names out p = Ok (set_var out (convert name) nv') /\ kept scales p nv'.
Proof.
  intros (_ & _ & Hc) Hname Hv (Hd & Hs & Ha & Hch & Hk). unfold write_variable3. rewrite Hname. cbn [mbind res_bind]. rewrite Hv. unfold copyData3. destruct p as [n v]. cbn [fst snd] in *.
  destruct (ov_contents v) as [sz l|l] eqn:Ec, (nv_contents nv) as [sz' l'|l'] eqn:En; try done.
  - rewrite Hd, out_write_law by apply Hc. cbn [mbind res_bind]. eexists. split; [done|]. split_and!; try done. cbn. by rewrite Ec.
  - rewrite Hd, out_write_law by apply Hc. cbn [mbind res_bind]. eexists. split; [done|]. split_and!; try done. cbn. by rewrite Ec.
Qed.

(** * Dates *)

Definition needs_dates (style : DateStyle) : bool := match style with StringDates | OffsetDates => true | _ => false end.
(** The dates of the file can be read, and are [offsets] in seconds since the epoch. *)
Definition dates_ok (style : DateStyle) (file : FileGroup (OldVariable A)) (file_atts : list (string * Attr)) (epoch : string) (offsets : list Z) : Prop :=
  epoch_string style file_atts = Ok epoch /\ (exists e f, dt_of_string epoch = Ok e /\ dt_of_string "1900-01-01T00:00:00Z" = Ok f) /\
  match style with
  | StringDates => exists v sz strs e, openVariable file "MetaData/datetime" = Ok v /\ ov_contents v = Strings sz strs /\ dt_of_string epoch = Ok e /\ convertDtStringsToTimeOffsets e strs = Ok offsets
  | _ => exists v hours, openVariable file "MetaData/time" = Ok v /\ ov_contents v = Elements hours /\ offsets = map hours_to_seconds hours
  end.

Lemma new_dates_ok style file file_atts epoch offsets out loc : needs_dates style = true -> dates_ok style file file_atts epoch offsets -> o_scales out !! "Location" = Some loc ->
  o_vars out !! "MetaData/dateTime" = None ->
  exists nv old, new_dates style file_atts out = Ok (set_var out "MetaData/dateTime" nv) /\ nv_dims nv = [ns_size loc] /\ nv_scales nv = ["Location"] /\
    nv_atts nv = [("units", string_att (seconds_since +:+ epoch))] /\ nv_contents nv = Elements old.
Proof.
  intros Hn (Hep & (e & f & He & Hf) & _) Hloc Hnew. unfold new_dates. 
  destruct style; try done; rewrite Hep; cbn [mbind res_bind]; rewrite Hloc, He, Hf; cbn [mbind res_bind]; unfold create_variable; change (convert "MetaData/dateTime") with "MetaData/dateTime";
    rewrite Hnew; eexists _, _; by split_and!.
Qed.

Lemma convert_dates_ok style file file_atts epoch offsets out nv old : needs_dates style = true -> dates_ok style file file_atts epoch offsets ->
  (forall s, att_string (string_att s) = Ok s) -> o_vars out !! "MetaData/dateTime" = Some nv -> nv_dims nv = [Z.of_nat (length offsets)] ->
  nv_atts nv = [("units", string_att (seconds_since +:+ epoch))] -> nv_contents nv = Elements old ->
  exists nv', convert_dates style file out = Ok (set_var out "MetaData/dateTime" nv') /\ nv_dims nv' = nv_dims nv /\ nv_scales nv' = nv_scales nv /\ nv_atts nv' = nv_atts nv /\
    nv_contents nv' = Elements (map from_int64 offsets).
Proof.
  intros Hn (_ & _ & Hd) Hatt Hv Hdims Hat Hc.
  assert (Hw : exists nv', write_dates out offsets = Ok (set_var out "MetaData/dateTime" nv') /\ nv_dims nv' = nv_dims nv /\ nv_scales nv' = nv_scales nv /\ nv_atts nv' = nv_atts nv /\
    nv_contents nv' = Elements (map from_int64 offsets)).
  { unfold write_dates. rewrite Hv, Hc, Hdims, out_write_law by (rewrite length_map; cbn; lia). cbn [mbind res_bind]. eexists. split; [done|]. by split_and!. }
  unfold convert_dates. destruct style; try done.
  - destruct Hd as (v & sz & strs & e & Ho & Hs & He & Hof). rewrite Ho. cbn [mbind res_bind]. unfold read_strings. rewrite Hs. cbn [mbind res_bind].
    assert (Hu : units_of out = Ok (seconds_since +:+ epoch)) by (unfold units_of; rewrite Hv, Hat; cbn [List.find fst]; rewrite bool_decide_true by done; apply Hatt).
    rewrite Hu. cbn [mbind res_bind]. unfold substr. rewrite length_string_app. change (String.length seconds_since) with 14%nat. cbn [Nat.add Nat.leb mbind res_bind].
    change 14%nat with (String.length seconds_since) at 1. rewrite substring_skip, substring_all by lia. cbn [mbind res_bind]. rewrite He. cbn [mbind res_bind]. rewrite Hof. apply Hw.
  - destruct Hd as (v & hours & Ho & Hh & ->). rewrite Ho. cbn [mbind res_bind]. unfold read_elements. rewrite Hh. cbn [mbind res_bind]. apply Hw.
Qed.

(** * The whole file *)

Definition dateTime : string := "MetaData/dateTime".

(** A file that can be upgraded; [nm] gives the new names. *)
Record upgradable (names : gmap string string) (file : FileGroup (OldVariable A)) (file_atts : list (string * Attr)) (vars : list Named_Variable) (nm : Named_Variable -> string) : Prop := {
  u_group : group_ok file vars;
  u_names : NoDup (map (fun p => convert (fst p)) (variables_of vars));
  u_scales : NoDup (map (fun t => renameDimension (fst t)) (scales_of vars));
  u_variables p : p ∈ variables_of vars -> variable_ok (snd p) /\ is_supported (snd p) = true;
  u_scale_atts t : t ∈ scales_of vars -> Forall (fun s => attribute_ok (snd s)) (ov_atts (snd t));
  u_atts : Forall (fun s => attribute_ok (snd s)) file_atts;
  u_new p : p ∈ kept_variables (variables_of vars) -> getNewNamingConventionsName (fst p) names = Ok (nm p);
  u_new_names : NoDup (map (fun p => convert (nm p)) (kept_variables (variables_of vars)));
  u_channels t : t ∈ scales_of vars -> is_channel t = true -> exists l, ov_contents (snd t) = Elements l /\ (l <> [] -> along vars t)
}.
(** When dates are to be converted, they can be, and there is one for each location. *)
Definition dates_given (file : FileGroup (OldVariable A)) (file_atts : list (string * Attr)) (vars : list Named_Variable) (keys : list string) (epoch : string) (offsets : list Z) : Prop :=
  let style := date_style (variables_of vars) in
  needs_dates style = true -> dateTime ∉ keys /\ dates_ok style file file_atts epoch offsets /\
    exists t, t ∈ scales_of vars /\ renameDimension (fst t) = "Location" /\ along vars t /\ ov_dims (snd t) = [Z.of_nat (length offsets)].

Lemma has_name_perm name (l l' : list Named_Variable) : l ≡ₚ l' -> has_name name l = has_name name l'.
Proof. intros Hp. apply eq_true_iff_eq. unfold has_name. rewrite !existsb_exists. split; intros (x & Hx & E); exists x; (split; [|done]); apply list_elem_of_In in Hx; apply list_elem_of_In; [by rewrite <-Hp|by rewrite Hp]. Qed.
Lemma date_style_perm (l l' : list Named_Variable) : l ≡ₚ l' -> date_style l = date_style l'.
Proof. intros Hp. unfold date_style. by rewrite !(has_name_perm _ l l' Hp). Qed.

Section file.
Context (names : gmap string string) (file : FileGroup (OldVariable A)) (file_atts : list (string * Attr)) (vars : list Named_Variable) (nm : Named_Variable -> string).
Context (Hu : upgradable names file file_atts vars nm) (info : VarDimInfo (OldVariable A)) (Hi : collected vars info).
Notation bystring := (by_string (dimsAttachedToVars info)).
Notation kept_vars := (kept_variables (varList info)).
Notation keys := (map (fun p => convert (nm p)) (kept_variables (variables_of vars))).

Lemma kept_perm : kept_vars ≡ₚ kept_variables (variables_of vars).
Proof. unfold kept_variables. destruct Hi as (_ & Hp & _). by rewrite Hp. Qed.
Lemma kept_in p : p ∈ kept_vars -> p ∈ kept_variables (variables_of vars) /\ p ∈ variables_of vars.
Proof. rewrite kept_perm. intros Hp. split; [done|]. by apply list_elem_of_filter in Hp as [_ Hp]. Qed.
Lemma keys_perm : map (fun p => convert (nm p)) kept_vars ≡ₚ keys.
Proof. by rewrite kept_perm. Qed.

(** The scales are there under their new names. *)
Definition scales_there out : Prop := forall t, t ∈ scales_of vars -> along vars t -> exists s, o_scales out !! renameDimension (fst t) = Some s /\ ov_dims (snd t) = [ns_size s].

Definition renamed_scales p : list string := map renameDimension (scale_names info p).
Lemma creation_loop out1 : scales_there out1 -> o_vars out1 = ∅ ->
  exists out2, foldM (new_variable names bystring) out1 kept_vars = Ok out2 /\ o_scales out2 = o_scales out1 /\ o_atts out2 = o_atts out1 /\
    (forall p, p ∈ kept_vars -> exists nv, o_vars out2 !! convert (nm p) = Some nv /\ created renamed_scales p nv) /\ (forall k, k ∉ keys -> o_vars out2 !! k = None).
Proof.
  intros Hsc Hv1. destruct (loop_variables (new_variable names bystring) (fun p => convert (nm p)) (created renamed_scales) kept_vars out1) as (out2 & E2 & Hs2 & Ha2 & Hin2 & Hout2).
  - rewrite keys_perm. apply (u_new_names _ _ _ _ _ Hu).
  - intros p out' Hp Hs' Hv. destruct (kept_in p Hp) as [Hk Hpv]. destruct (u_variables _ _ _ _ _ Hu p Hpv) as [Hok Hsup].
    destruct (scale_names_ok vars info Hi (u_names _ _ _ _ _ Hu) p Hpv) as (ds & Eds & Hlen & Hds).
    destruct (new_variable_ok names bystring out' p (map fst ds) (nm p) Hok Hsup (u_new _ _ _ _ _ Hu p Hk) Eds) as (nv & Enew & Hcr).
    + by rewrite length_map.
    + intros s Hs. apply list_elem_of_fmap in Hs as (t & -> & Ht). apply list_elem_of_lookup in Ht as [j Hj]. destruct (Hds j t Hj) as [Hts Hta]. rewrite Hs'.
      destruct (Hsc t Hts) as (s & Es & _); [|eauto]. exists p, j. split_and!; [done| |done]. apply lookup_lt_Some in Hj. lia.
    + rewrite Hv, Hv1. apply lookup_empty.
    + exists nv. split; [done|]. unfold created, renamed_scales, scale_names in *. by rewrite Eds.
  - exists out2. split_and!; [done|done|done|done|]. intros k Hk. rewrite Hout2, Hv1 by (by rewrite keys_perm). apply lookup_empty.
Qed.

Lemma write_all3 out3 : (forall p, p ∈ kept_vars -> exists nv, o_vars out3 !! convert (nm p) = Some nv /\ created renamed_scales p nv) ->
  exists out4, foldM (write_variable3 names) out3 kept_vars = Ok out4 /\ o_scales out4 = o_scales out3 /\ o_atts out4 = o_atts out3 /\
    (forall p, p ∈ kept_vars -> exists nv, o_vars out4 !! convert (nm p) = Some nv /\ kept renamed_scales p nv) /\ (forall k, k ∉ keys -> o_vars out4 !! k = o_vars out3 !! k).
Proof.
  intros Hin. destruct (loop_variables (write_variable3 names) (fun p => convert (nm p)) (kept renamed_scales) kept_vars out3) as (out4 & E4 & Hs4 & Ha4 & Hin4 & Hout4).
  - rewrite keys_perm. apply (u_new_names _ _ _ _ _ Hu).
  - intros p out' Hp _ Hv. destruct (kept_in p Hp) as [Hk Hpv]. destruct (Hin p Hp) as (nv & Env & Hcr). rewrite Env in Hv.
    apply (write_variable3_ok names out' p _ nv); [apply (u_variables _ _ _ _ _ Hu p Hpv)|by apply (u_new _ _ _ _ _ Hu)|done|done].
  - exists out4. split_and!; [done|done|done|done|]. intros k Hk. apply Hout4. by rewrite keys_perm.
Qed.

Lemma write_channels_ok nums out : scales_there out ->
  (nums <> [] -> exists t, t ∈ dimVarList info /\ is_channel t = true /\ along vars t /\ exists l, ov_contents (snd t) = Elements l /\ nums = map as_int l) ->
  exists out', write_channels nums out = Ok out' /\ o_vars out' = o_vars out /\ o_atts out' = o_atts out /\ (nums <> [] -> exists s, o_scales out' !! "Channel" = Some s /\ ns_data s = nums).
Proof.
  intros Hsc Hn. destruct nums as [|x nums]; [by exists out|]. destruct Hn as (t & Ht & Hc & Hal & _); [done|]. destruct Hi as (Hp & _). rewrite Hp in Ht. destruct (Hsc t Ht Hal) as (s & Es & _).
  assert (Er : renameDimension (fst t) = "Channel").
  { unfold is_channel in Hc. apply orb_true_iff in Hc as [Hc|Hc]; apply bool_decide_eq_true in Hc; by rewrite Hc. }
  rewrite Er in Es. cbn [write_channels]. rewrite Es. eexists. split; [done|]. split_and!; [done|done|]. intros _. eexists. cbn. by rewrite lookup_insert_eq.
Qed.

(** Creating the variable of dates. *)
Lemma dates_created epoch offsets out2 : dates_given file file_atts vars keys epoch offsets -> scales_there out2 -> (forall k, k ∉ keys -> o_vars out2 !! k = None) ->
  exists out3, new_dates (date_style (variables_of vars)) file_atts out2 = Ok out3 /\ o_scales out3 = o_scales out2 /\ o_atts out3 = o_atts out2 /\
    (forall k, (needs_dates (date_style (variables_of vars)) = true -> k <> dateTime) -> o_vars out3 !! k = o_vars out2 !! k) /\
    (needs_dates (date_style (variables_of vars)) = true -> exists nv old, o_vars out3 !! dateTime = Some nv /\ nv_dims nv = [Z.of_nat (length offsets)] /\ nv_scales nv = ["Location"] /\
       nv_atts nv = [("units", string_att (seconds_since +:+ epoch))] /\ nv_contents nv = Elements old).
Proof.
  intros Hd Hsc Hnone. unfold dates_given in Hd. cbv zeta in Hd. set (style := date_style (variables_of vars)) in *. destruct (needs_dates style) eqn:En.
  - destruct Hd as (Hkey & Hok & t & Ht & Hr & Hal & Hdims); [done|]. destruct (Hsc t Ht Hal) as (loc & Eloc & Esz). rewrite Hr in Eloc. rewrite Hdims in Esz. injection Esz as Esz.
    destruct (new_dates_ok style file file_atts epoch offsets out2 loc En Hok Eloc (Hnone _ Hkey)) as (nv & old & E & Hnd & Hns & Hna & Hnc). exists (set_var out2 "MetaData/dateTime" nv).
    split_and!; [done|done|done| |].
    + intros k Hk. apply lookup_insert_ne. unfold dateTime in Hk. intros E'. by apply Hk.
    + intros _. exists nv, old. split_and!; [apply lookup_insert_eq|by rewrite Hnd, Esz|done|done|done].
  - exists out2. split_and!; [by destruct style|done|done|done|done].
Qed.

(** Filling it. *)
Lemma dates_converted epoch offsets out4 : (forall s, att_string (string_att s) = Ok s) -> dates_given file file_atts vars keys epoch offsets ->
  (needs_dates (date_style (variables_of vars)) = true -> exists nv old, o_vars out4 !! dateTime = Some nv /\ nv_dims nv = [Z.of_nat (length offsets)] /\ nv_scales nv = ["Location"] /\
     nv_atts nv = [("units", string_att (seconds_since +:+ epoch))] /\ nv_contents nv = Elements old) ->
  exists out5, convert_dates (date_style (variables_of vars)) file out4 = Ok out5 /\ o_scales out5 = o_scales out4 /\ o_atts out5 = o_atts out4 /\
    (forall k, (needs_dates (date_style (variables_of vars)) = true -> k <> dateTime) -> o_vars out5 !! k = o_vars out4 !! k) /\
    (needs_dates (date_style (variables_of vars)) = true -> exists nv, o_vars out5 !! dateTime = Some nv /\ nv_scales nv = ["Location"] /\
       nv_atts nv = [("units", string_att (seconds_since +:+ epoch))] /\ nv_contents nv = Elements (map from_int64 offsets)).
Proof.
  intros Hatt Hd Hnv. unfold dates_given in Hd. cbv zeta in Hd. set (style := date_style (variables_of vars)) in *. destruct (needs_dates style) eqn:En.
  - destruct Hd as (_ & Hok & _); [done|]. destruct Hnv as (nv & old & Hv & Hdm & Hs & Ha & Hc); [done|].
    destruct (convert_dates_ok style file file_atts epoch offsets out4 nv old En Hok Hatt Hv Hdm Ha Hc) as (nv' & E & _ & Hs' & Ha' & Hc'). exists (set_var out4 "MetaData/dateTime" nv').
    split_and!; [done|done|done| |].
    + intros k Hk. apply lookup_insert_ne. unfold dateTime in Hk. intros E'. by apply Hk.
    + intros _. exists nv'. split_and!; [apply lookup_insert_eq|by rewrite Hs'|by rewrite Ha'|done].
  - exists out4. split_and!; [by destruct style|done|done|done|done].
Qed.
(** From the scales to the end. *)
Lemma variables_upgraded epoch offsets nums out1 : (forall s, att_string (string_att s) = Ok s) -> dates_given file file_atts vars keys epoch offsets ->
  (nums <> [] -> exists t, t ∈ dimVarList info /\ is_channel t = true /\ along vars t /\ exists l, ov_contents (snd t) = Elements l /\ nums = map as_int l) ->
  scales_there out1 -> o_vars out1 = ∅ ->
  let style := date_style (variables_of vars) in
  exists out, (out ← foldM (new_variable names bystring) out1 kept_vars; out ← new_dates style file_atts out; out ← foldM (write_variable3 names) out kept_vars;
      out ← convert_dates style file out; write_channels nums out) = Ok out /\
    (forall p, p ∈ kept_vars -> exists nv, o_vars out !! convert (nm p) = Some nv /\ kept renamed_scales p nv) /\
    (needs_dates style = true -> exists nv, o_vars out !! dateTime = Some nv /\ nv_scales nv = ["Location"] /\
       nv_atts nv = [("units", string_att (seconds_since +:+ epoch))] /\ nv_contents nv = Elements (map from_int64 offsets)) /\
    (forall k, k ∉ keys -> (needs_dates style = true -> k <> dateTime) -> o_vars out !! k = None).
Proof.
  intros Hatt Hd Hnums Hsc1 Hv1. cbv zeta. destruct (creation_loop out1 Hsc1 Hv1) as (out2 & E2 & Hs2 & Ha2 & Hin2 & Hout2). rewrite E2. cbn [mbind res_bind].
  assert (Hsc2 : scales_there out2) by (unfold scales_there; by rewrite Hs2).
  destruct (dates_created epoch offsets out2 Hd Hsc2 Hout2) as (out3 & E3 & Hs3 & Ha3 & Hv3 & Hdt3). rewrite E3. cbn [mbind res_bind].
  assert (Hkey : forall p, p ∈ kept_vars -> needs_dates (date_style (variables_of vars)) = true -> convert (nm p) <> dateTime).
  { intros p Hp Hn E. destruct (Hd Hn) as [Hk _]. apply Hk. rewrite <-E. apply list_elem_of_fmap. exists p. split; [done|]. by apply kept_in. }
  destruct (write_all3 out3) as (out4 & E4 & Hs4 & Ha4 & Hin4 & Hout4); [intros p Hp; rewrite Hv3 by (by apply Hkey); by apply Hin2|]. rewrite E4. cbn [mbind res_bind].
  destruct (dates_converted epoch offsets out4 Hatt Hd) as (out5 & E5 & Hs5 & Ha5 & Hv5 & Hdt5).
  { intros Hn. destruct (Hd Hn) as [Hk _]. rewrite Hout4 by done. by apply Hdt3. }
  rewrite E5. cbn [mbind res_bind]. assert (Hsc5 : scales_there out5) by (unfold scales_there; by rewrite Hs5, Hs4, Hs3).
  destruct (write_channels_ok nums out5 Hsc5 Hnums) as (out6 & E6 & Hv6 & _ & _). exists out6. rewrite Hv6. split_and!; [done| |done|].
  - intros p Hp. rewrite Hv5 by (by apply Hkey). by apply Hin4.
  - intros k Hk Hne. rewrite Hv5, Hout4, Hv3 by done. by apply Hout2.
Qed.
End file.

(** C21: The upgrade to version 3 keeps the file.  A file that can be upgraded, with
    dates as they come in the three styles, is upgraded: every variable but the dates
    of the old styles is there under its new name, with the same dimensions, data
    and copied attributes, and with the scales that were along its dimensions under
    their new names; dates of an old style are in MetaData/dateTime as seconds since
    the epoch that its units name; the new file has no other variable. *)
Theorem upgrade3_keeps_variables (layout file_atts : list (string * Attr)) (names : gmap string string) (file : FileGroup (OldVariable A)) (vars : list Named_Variable)
    (nm : Named_Variable -> string) (epoch : string) (offsets : list Z) :
  upgradable names file file_atts vars nm -> (forall s, att_string (string_att s) = Ok s) ->
  dates_given file file_atts vars (map (fun p => convert (nm p)) (kept_variables (variables_of vars))) epoch offsets ->
  exists out, upgradeFile3 layout names file file_atts = Ok out /\
    (forall p, p ∈ kept_variables (variables_of vars) -> exists nv ds, o_vars out !! convert (nm p) = Some nv /\ kept (fun _ => map renameDimension (map fst ds)) p nv /\
       length ds = length (ov_dims (snd p)) /\ forall i t, ds !! i = Some t -> t ∈ scales_of vars /\ isDimensionScaleAttached (snd p) i (snd t) = true) /\
    (needs_dates (date_style (variables_of vars)) = true -> exists nv, o_vars out !! dateTime = Some nv /\ nv_scales nv = ["Location"] /\
       nv_atts nv = [("units", string_att (seconds_since +:+ epoch))] /\ nv_contents nv = Elements (map from_int64 offsets)) /\
    (forall k, k ∉ map (fun p => convert (nm p)) (kept_variables (variables_of vars)) -> (needs_dates (date_style (variables_of vars)) = true -> k <> dateTime) -> o_vars out !! k = None).
Proof.
  intros Hu Hatt Hd. pose proof (u_group _ _ _ _ _ Hu) as Hg. pose proof (u_names _ _ _ _ _ Hu) as Hcv. destruct (collected_ok file vars Hg) as (info & Ei & Hi). unfold upgradeFile3. rewrite Ei. cbn [mbind res_bind].
  destruct (channel_numbers_ok (along vars) (dimVarList info)) as (nums & En & Hnums).
  { intros t Ht. apply (u_channels _ _ _ _ _ Hu). destruct Hi as (Hp & _). by rewrite <-Hp. }
  rewrite En. cbn [mbind res_bind]. rewrite (new_scales_ok file vars info Hg Hi Hcv). cbn [mbind res_bind].
  assert (Hmk : NoDup (map (fun t => sc_name (new_scale3 t)) (scales_of vars))).
  { erewrite map_ext; [apply (u_scales _ _ _ _ _ Hu)|]. intros t. apply new_scale3_name. }
  rewrite (generated vars info Hi new_scale3 Hmk). cbn [mbind res_bind o_atts o_scales o_vars]. destruct (copyAttributes_ok file_atts layout (u_atts _ _ _ _ _ Hu)) as [atts Ea]. rewrite Ea. cbn [mbind res_bind].
  set (out0 := {| o_atts := atts; o_scales := made_scales info new_scale3; o_vars := ∅ |}).
  destruct (copy_atts_ok renameDimension (by_string (dimsAttachedToVars info)) (dimVarList info) out0) as (out1 & E1 & Hsame).
  { intros d Hdv. apply (u_scale_atts _ _ _ _ _ Hu). destruct Hi as (Hp & _). by rewrite <-Hp. }
  { intros d Hdv Ha. rewrite <-new_scale3_name. eexists. apply (generated_scale vars info Hi new_scale3 Hmk). by apply list_elem_of_filter. }
  unfold copy_renamed_atts. cbv zeta. rewrite E1. cbn [mbind res_bind].
  assert (Hsc1 : scales_there vars out1).
  { intros t Ht Hal. rewrite <-new_scale3_name. by apply (new_scales_iff file vars info Hg Hi Hcv new_scale3 Hmk new_scale3_size atts out1 t Hsame). }
  rewrite (date_style_perm _ (variables_of vars)) by apply Hi.
  destruct (variables_upgraded names file file_atts vars nm Hu info Hi epoch offsets nums out1 Hatt Hd Hnums Hsc1 (proj1 Hsame)) as (out & E & Hin & Hdt & Hnone).
  exists out. split_and!; [exact E| |exact Hdt|exact Hnone]. intros p Hp. destruct (Hin p) as (nv & Env & Hk); [by rewrite (kept_perm vars info Hi)|].
  destruct (scale_names_ok vars info Hi Hcv p) as (ds & Eds & Hlen & Hds); [by apply list_elem_of_filter in Hp as [_ Hp]|].
  exists nv, ds. split_and!; [done| |done|done]. unfold kept, renamed_scales, scale_names in *. by rewrite Eds in Hk.
Qed.
End upgrade.

(** The example: a file of version 2 with dates as strings. *)
Module UpgradeSample.
#[local] Existing Instance reference_output.
#[local] Existing Instance reference_output_laws.

#[local] Instance sample_dates : DateTimeOps Z := {|
  dt_of_string s := if bool_decide (s = linux_epoch) then Ok 0 else if bool_decide (s = "1900-01-01T00:00:00Z") then Ok (-2208988800)
                    else if bool_decide (s = "2020-01-01T00:00:00Z") then Ok 1577836800 else Throw (EException "");
  dt_add := Z.add; dt_diff := Z.sub; dt_ltb := Z.ltb; dt_leb := Z.leb; dt_missing := 0
|}.
#[local] Instance sample_values : UpgradeValues Z Z := {|
  as_int x := x; hours_to_seconds h := h * 3600; from_int64 x := x; is_supported _ := true;
  string_att s := {| at_size := 1; at_dims := [Z.of_nat (String.length s)]; at_bytes := map (fun c => Z.of_nat (Ascii.nat_of_ascii c)) (String.list_ascii_of_string s) |};
  att_string a := Ok (String.string_of_list_ascii (map (fun z => Ascii.ascii_of_nat (Z.to_nat z)) (at_bytes a)));
  att_int a := match at_bytes a with [x] => Ok x | _ => Throw (EException "") end;
  make_date y m d h := Ok (y + m + d + h); date_string _ := linux_epoch
|}.
Lemma string_att_back s : att_string (string_att s) = Ok s.
Proof.
  cbn. rewrite map_map. erewrite map_ext; [rewrite map_id; by rewrite String.string_of_list_ascii_of_string|]. intros c. cbn. rewrite Nat2Z.id. apply Ascii.ascii_nat_embedding.
Qed.

Definition conventions : list (list string) := [["airTemperature"; "air_temperature"]; ["dateTime"; "datetime"]].
Lemma naming_conventions_witness : getNewNamingConventionsName "ObsValue/air_temperature" (getOldNewNameMap conventions) = Ok "ObsValue/airTemperature".
Proof.
  destruct (naming_conventions conventions "ObsValue" "air_temperature") as [_ H].
  - apply (bool_decide_unpack _). vm_compute. exact I.
  - intros E. apply (f_equal (fun m => m !! "air_temperature")) in E. vm_compute in E. discriminate E.
  - reflexivity.
  - reflexivity.
  - exact H.
Defined.

Definition scale (id n : Z) (values : list Z) : OldVariable Z :=
  {| ov_id := id; ov_dims := [n]; ov_is_scale := true; ov_axes := []; ov_chunks := [n]; ov_fill := 0; ov_atts := []; ov_contents := Elements values |}.
Definition variable (id : Z) (dims axes : list Z) (c : Contents Z) : OldVariable Z :=
  {| ov_id := id; ov_dims := dims; ov_is_scale := false; ov_axes := axes; ov_chunks := dims; ov_fill := -99; ov_atts := []; ov_contents := c |}.
Definition nlocs := ("nlocs", scale 1 2 [0; 0]).
Definition nchans := ("nchans", scale 2 3 [4; 5; 6]).
Definition temperature := ("ObsValue/air_temperature", variable 3 [2; 3] [1; 2] (Elements [1; 2; 3; 4; 5; 6])).
Definition datetime := ("MetaData/datetime", variable 4 [2] [1] (Strings 16 ["2020-01-01T00:00:00Z"; "1970-01-01T00:00:00Z"])).
Definition vars : list (string * OldVariable Z) := [temperature; nchans; datetime; nlocs].
Definition file_of (vars : list (string * OldVariable Z)) : FileGroup (OldVariable Z) := {|
  listVariables := map fst vars;
  openVariable n := match List.find (fun p => bool_decide (fst p = n)) vars with Some p => Ok (snd p) | None => Throw (EException "") end;
  hasGroups := true
|}.
Definition names : gmap string string := getOldNewNameMap conventions.
Definition nm (p : string * OldVariable Z) : string := if bool_decide (fst p = fst temperature) then "ObsValue/airTemperature" else fst p.

Ltac members := repeat match goal with H : _ ∈ _ :: _ |- _ => apply elem_of_cons in H as [->|H] | H : _ ∈ [] |- _ => by apply elem_of_nil in H end.
Lemma upgrade3_file_ok : group_ok (file_of vars) vars.
Proof.
  split.
  - done.
  - apply (bool_decide_unpack _). vm_compute. exact I.
  - intros p Hp. unfold vars in Hp. members; reflexivity.
  - intros p Hp Hs. unfold vars in Hp. members; (done || by split).
  - intros p Hp Hs _. unfold vars in Hp. members; done.
  - intros p i Hp Hs Hi. unfold vars in Hp. members; try done.
    + destruct i as [|[|i]]; [exists nlocs|exists nchans|cbn in Hi; lia]; (split; [set_solver|split; [done|]]); intros t Ht Hd; unfold vars in Ht; members; done.
    + destruct i as [|i]; [exists nlocs|cbn in Hi; lia]; (split; [set_solver|split; [done|]]); intros t Ht Hd; unfold vars in Ht; members; done.
Qed.

Lemma along_nlocs : along vars nlocs.
Proof. exists datetime, 0%nat. split_and!; [apply list_elem_of_filter; split; [done|set_solver]|cbn; lia|done]. Qed.
Lemma along_nchans : along vars nchans.
Proof. exists temperature, 1%nat. split_and!; [apply list_elem_of_filter; split; [done|set_solver]|cbn; lia|done]. Qed.

Lemma file_upgradable : upgradable names (file_of vars) [] vars nm.
Proof.
  split.
  - apply upgrade3_file_ok.
  - apply (bool_decide_unpack _). vm_compute. exact I.
  - apply (bool_decide_unpack _). vm_compute. exact I.
  - intros p Hp. apply list_elem_of_filter in Hp as [Hs Hp]. unfold vars in Hp. members; try done; (split; [|done]); repeat split; repeat constructor; done.
  - intros t Ht. apply list_elem_of_filter in Ht as [Hs Ht]. unfold vars in Ht. members; try done; constructor.
  - constructor.
  - intros p Hp. apply list_elem_of_filter in Hp as [Hk Hp]. apply list_elem_of_filter in Hp as [Hs Hp]. unfold vars in Hp. members; try done.
  - apply (bool_decide_unpack _). vm_compute. exact I.
  - intros t Ht Hc. apply list_elem_of_filter in Ht as [Hs Ht]. unfold vars in Ht. members; try done. exists [4; 5; 6]. split; [done|]. intros _. apply along_nchans.
Qed.

Definition shown (out : Output (A := Z)) : option (Contents Z) * option (list string) * option (list Z) :=
  (nv_contents <$> o_vars out !! "MetaData/dateTime", nv_scales <$> o_vars out !! "ObsValue/airTemperature", ns_data <$> o_scales out !! "Channel").
Lemma upgrade3_keeps_variables_witness : exists out, upgradeFile3 [] names (file_of vars) [] = Ok out /\
  shown out = (Some (Elements [1577836800; 0]), Some ["Location"; "Channel"], Some [4; 5; 6]).
Proof.
  destruct (upgrade3_keeps_variables (A := Z) (DT := Z) [] [] names (file_of vars) vars nm linux_epoch [1577836800; 0] file_upgradable string_att_back) as (out & H & _).
  - intros _. split_and!.
    + apply (bool_decide_unpack _). vm_compute. exact I.
    + split; [reflexivity|]. split; [eexists _, _; split; reflexivity|]. eexists _, _, _, _. split_and!; reflexivity.
    + exists nlocs. split_and!; [apply list_elem_of_filter; split; [done|set_solver]|done|apply along_nlocs|done].
  - exists out. split; [exact H|].
    assert (E : match upgradeFile3 [] names (file_of vars) [] with Ok o => shown o = (Some (Elements [1577836800; 0]), Some ["Location"; "Channel"], Some [4; 5; 6]) | Throw _ => False end) by (vm_compute; reflexivity).
    rewrite H in E. exact E.
Defined.

(** A scale of channels that no variable has is not created, but its numbers are
    written in the end: the upgrade fails. *)
Lemma unused_channels_throw : upgradeFile3 [] names (file_of [datetime; nchans; nlocs]) [] = Throw (EException "").
Proof. vm_compute. reflexivity. Qed.
End UpgradeSample.
