(* ===== verification/Validate.v ===== *)
(** The program ioda-validate, which checks a file against the conventions.

    Models src/src/mains/validator (validate.cpp, AttributeChecks.cpp, Log.cpp,
    Params.h) and splitPaths, condensePaths of StringFuncs.cpp.  The conventions of
    the YAML file are a record; the messages that are counted are a list of issues
    with their severities; those of Debug and Trace, which are not counted, are
    left out. *)
From stdpp Require Import base list gmap strings pretty.
From Stdlib Require Import ZArith.
From S2P Require Import Prelude Selection ObsRecords OdbOpen OdbLayout VarUtils.
Local Open Scope Z_scope.

(** * Paths *)

Definition splitPaths (p : string) : list string :=
  match p with
  | EmptyString => []
  | String c rest => if is_slash c then "/" :: tokens is_slash EmptyString rest else tokens is_slash EmptyString p
  end.
Definition condensePaths (p : list string) (start end_ : nat) : string :=
  foldl (fun res '(i, s) => (if bool_decide (i <> 0%nat) && bool_decide (res <> "/") then res +:+ "/" else res) +:+ s) EmptyString
    (imap pair (take (end_ - start) (drop start p))).

(** * Parameters *)

Inductive Severity := Trace | Debug | Info | Warn | Error.
Definition severity_rank (s : Severity) : nat := match s with Trace => 0 | Debug => 1 | Info => 2 | Warn => 3 | Error => 4 end.
Definition severity_geb (s t : Severity) : bool := (severity_rank t <=? severity_rank s)%nat.

Record PolicyParameters := {
  GroupsKnown : Severity; RequiredGroups : Severity; GroupHasRequiredAttributes : Severity; GroupHasKnownAttributes : Severity;
  GroupAllowsVariables : Severity; DimensionsKnown : Severity; DimensionsUseNewName : Severity; GeneralDimensionsChecks : Severity;
  RequiredDimensions : Severity; KnownVariableNames : Severity; VariableUseNewName : Severity; VariableCanBeMetadata : Severity;
  VariableDimensionCheck : Severity; VariableHasValidUnits : Severity; VariableHasConvertibleUnits : Severity; VariableHasExactUnits : Severity;
  AttributeHasCorrectDims : Severity
}.
Definition default_policies : PolicyParameters := {|
  GroupsKnown := Error; RequiredGroups := Error; GroupHasRequiredAttributes := Error; GroupHasKnownAttributes := Warn;
  GroupAllowsVariables := Error; DimensionsKnown := Warn; DimensionsUseNewName := Warn; GeneralDimensionsChecks := Error;
  RequiredDimensions := Error; KnownVariableNames := Error; VariableUseNewName := Error; VariableCanBeMetadata := Warn;
  VariableDimensionCheck := Warn; VariableHasValidUnits := Warn; VariableHasConvertibleUnits := Error; VariableHasExactUnits := Warn;
  AttributeHasCorrectDims := Warn
|}.

(** The types that the checks tell apart. *)
Inductive Type_ := TEnum | TStringVLen | TStringFixedLen | TOther.
#[export] Instance Type_eq_dec : EqDecision Type_.
Proof. solve_decision. Defined.

Record AttributeParameters := { attname : list string; dimensionality : option Z; dimensions : option (list Z) }.
Record ListReqOptional := { lr_required : list string; lr_optional : list string }.
Record GroupParameters := {
  grpname : list string; gp_atts : ListReqOptional; gp_type : option Type_; gp_forceunits : option bool; gp_units : option string;
  gp_required : bool; regularVariablesAllowed : bool; requiredvars : option (list string); gp_remove : option string
}.
Record DimensionParameters := { dimname : list string; dp_required : bool }.
Record AttributeList := { al_base : ListReqOptional; requiredNotEnum : list string }.
Record VariableBase := { dimNames : option (list (list string)); vb_type : option Type_; canBeMetadata : bool; vb_atts : option AttributeList }.
Record VariableParameters := {
  varname : list string; vp_base : VariableBase; vp_forceunits : option bool; vp_remove : bool; checkExactUnits : bool; vp_attributes : gmap string string
}.
Record IODAvalidateParameters := {
  policies : PolicyParameters; attributes : list AttributeParameters; groups : list GroupParameters; vp_dimensions : list DimensionParameters;
  vardefaults : VariableBase; variables : list VariableParameters
}.

(** * Reports *)

Inductive Issue :=
  | GroupUsesOldName (group old : string) | GroupMissing (group : string) | GroupDeprecated (group : string) | GroupUnknown (group : string)
  | SymbolMissing (name : string) | AttributeNotListed (name : string) | AttributeInconsistent (name : string) | AttributeWrongDimensionality (name : string)
  | AttributeWrongDimension (name : string) (i : nat) | AttributeNotDescribed (name : string)
  | DimensionMissing (name : string) | DimensionUsesOldName (name new : string) | DimensionNotOneDimensional (name : string) | DimensionUnknown (name : string)
  | VariableNameUnparsed (name : string) | VariableUnknown (name : string) | VariableUsesOldName (name new : string) | VariableDeprecated (name : string)
  | GroupDisallowsVariable (name group : string) | VariableInUnknownGroup (name group : string) | VariableNotMetadata (name : string)
  | VariableDimensions (name : string) | VariableLength (name : string) (i : nat) | UnitsProhibited (name : string) | UnitsNotInYaml (name : string)
  | UnitsNotInFile (name : string) | UnitsInvalidInFile (name : string) | UnitsInvalidInYaml (name : string) | UnitsNotConvertible (name : string) | UnitsNotExact (name : string).
Definition Report : Type := Severity * Issue.

Record Results := { numErrors : nat; numWarnings : nat }.
(** [log] with the results. *)
Definition count (r : Results) (s : Severity) : Results :=
  if severity_geb s Error then {| numErrors := S (numErrors r); numWarnings := numWarnings r |}
  else if severity_geb s Warn then {| numErrors := numErrors r; numWarnings := S (numWarnings r) |} else r.
Definition results (l : list Report) : Results := foldl (fun r p => count r (fst p)) {| numErrors := 0; numWarnings := 0 |} l.

(** * Attribute checks *)

Section checks.
Context (params : IODAvalidateParameters).
Notation P := (policies params).

Definition requiredSymbolsCheck (vYAMLreqIDs sObjNames : list string) : list Report :=
  omap (fun name => if bool_decide (name ∈ sObjNames) then None else Some (GroupHasRequiredAttributes P, SymbolMissing name)) vYAMLreqIDs.
Definition Ignored : list string := ["DIMENSION_LIST"; "REFERENCE_LIST"; "_FillValue"].
Definition appropriateAttributesCheck (vObjAttNames sYAMLreqAtts sYAMLoptAtts : list string) : list Report :=
  omap (fun a => if bool_decide (a ∈ sYAMLreqAtts) || bool_decide (a ∈ sYAMLoptAtts) || bool_decide (a ∈ Ignored) then None
                 else Some (GroupHasKnownAttributes P, AttributeNotListed a)) vObjAttNames.

(** The dimensionality that an attribute is to have: -1 when its specification is
    inconsistent, nothing when there is none. *)
Definition required_dimensionality (a : AttributeParameters) : option Z :=
  match dimensionality a, dimensions a with
  | None, None => None
  | Some n, Some ds => Some (if n =? Z.of_nat (length ds) then n else -1)
  | Some n, None => Some n
  | None, Some ds => Some (Z.of_nat (length ds))
  end.
Definition inconsistent (a : AttributeParameters) : bool :=
  match dimensionality a, dimensions a with Some n, Some ds => negb (n =? Z.of_nat (length ds)) | _, _ => false end.
Definition attribute_dims (name : string) (a : AttributeParameters) (attdims : list Z) : list Report :=
  match required_dimensionality a with
  | None => []
  | Some d =>
      (if inconsistent a then [(AttributeHasCorrectDims P, AttributeInconsistent name)] else []) ++
      (if Z.of_nat (length attdims) =? d then [] else [(AttributeHasCorrectDims P, AttributeWrongDimensionality name)]) ++
      match dimensions a with
      | Some ds =>
          if 0 <? d then
            omap (fun i => match attdims !! i, ds !! i with
              | Some x, Some y => if x =? y then None else Some (AttributeHasCorrectDims P, AttributeWrongDimension name i)
              | _, _ => None
              end) (seq 0 (Nat.min (Z.to_nat d) (length attdims)))
          else []
      | None => []
      end
  end.
(** Attributes of the file with their dimensions. *)
Definition matchingAttributesCheck (YAMLattributes : gmap string AttributeParameters) (atts : list (string * list Z)) : list Report :=
  concat (map (fun a => match YAMLattributes !! fst a with
    | Some spec => attribute_dims (fst a) spec (snd a)
    | None => [(GroupHasKnownAttributes P, AttributeNotDescribed (fst a))]
    end) atts).

(** * The file *)

Record VVariable := { vv_id : Z; vv_dims : list Z; vv_is_scale : bool; vv_axes : list Z; vv_atts : list (string * list Z); vv_units : option string }.
#[export] Instance vv_backend : VariableBackend VVariable := {|
  getDimensions := vv_dims;
  isDimensionScale := vv_is_scale;
  isDimensionScaleAttached v i s := bool_decide (vv_axes v !! i = Some (vv_id s))
|}.
Record VGroup := { vg_name : string; vg_atts : list (string * list Z); vg_vars : list string }.
(** All groups, the root with the name "/" among them at the end, and all variables. *)
Record VFile := { vf_groups : list VGroup; vf_base : FileGroup VVariable }.

(** ** Groups *)

(** [std::map::insert] keeps the first entry of a name. *)
Definition insert_first {V} (m : gmap string V) (k : string) (v : V) : gmap string V := match m !! k with Some _ => m | None => <[k := v]> m end.
Definition by_name {V} (names : V -> list string) (l : list V) : gmap string V := foldl (fun m v => foldl (fun m n => insert_first m n v) m (names v)) ∅ l.
Definition YAMLattributes : gmap string AttributeParameters := by_name attname (attributes params).
Definition YAMLgroups : gmap string GroupParameters := by_name grpname (groups params).

Definition required_group (sGroupNames : list string) (yg : string * GroupParameters) : list Report :=
  if gp_required (snd yg) && negb (bool_decide (fst yg ∈ sGroupNames)) then
    let old := filter (fun n => n ∈ sGroupNames) (grpname (snd yg)) in
    match old with
    | [] => [(RequiredGroups P, GroupMissing (fst yg))]
    | _ => map (fun o => (RequiredGroups P, GroupUsesOldName (fst yg) o)) old
    end
  else [].
Definition check_required_groups (f : VFile) : list Report := concat (map (required_group (map vg_name (vf_groups f))) (std_sort (fun a b => String.ltb (fst a) (fst b)) (map_to_list YAMLgroups))).

Definition check_group (g : VGroup) : list Report :=
  match YAMLgroups !! vg_name g with
  | Some yg =>
      (match gp_remove yg with Some _ => [(GroupsKnown P, GroupDeprecated (vg_name g))] | None => [] end) ++
      requiredSymbolsCheck (lr_required (gp_atts yg)) (map fst (vg_atts g)) ++
      appropriateAttributesCheck (map fst (vg_atts g)) (lr_required (gp_atts yg)) (lr_optional (gp_atts yg)) ++
      matchingAttributesCheck YAMLattributes (vg_atts g) ++
      match requiredvars yg with Some req => requiredSymbolsCheck req (vg_vars g) | None => [] end
  | None => [(GroupsKnown P, GroupUnknown (vg_name g))]
  end.

(** ** Dimensions *)

Definition old_new {V} (names : V -> list string) (l : list V) : gmap string string :=
  foldl (fun m v => match names v with [] => m | first :: _ => foldl (fun m n => if bool_decide (n <> first) then <[n := first]> m else m) m (names v) end) ∅ l.
Definition sOldNewDimNames : gmap string string := old_new dimname (vp_dimensions params).
Definition mDimNames : list string := concat (map dimname (vp_dimensions params)).

Definition required_dimension (fileDims : list string) (d : DimensionParameters) : list Report :=
  match dimname d with
  | [] => []
  | first :: _ => if dp_required d && negb (existsb (fun n => bool_decide (n ∈ fileDims)) (dimname d)) then [(RequiredDimensions P, DimensionMissing first)] else []
  end.
Definition check_dimension (d : string * VVariable) : list Report :=
  if bool_decide (fst d ∈ mDimNames) then
    (match sOldNewDimNames !! fst d with Some new => [(DimensionsUseNewName P, DimensionUsesOldName (fst d) new)] | None => [] end) ++
    (if (1 <? length (vv_dims (snd d)))%nat then [(GeneralDimensionsChecks P, DimensionNotOneDimensional (fst d))] else [])
  else [(DimensionsKnown P, DimensionUnknown (fst d))].
Definition check_dimensions (fileDims : list (string * VVariable)) : list Report :=
  concat (map (required_dimension (map fst fileDims)) (vp_dimensions params)) ++ concat (map check_dimension fileDims).

(** ** Variables

    Units of measurement belong to the udunits library. *)
Class UnitsOps := {
  unit_valid : string -> bool;
  unit_convertible : string -> string -> bool;
  unit_equal : string -> string -> bool
}.
Context `{UnitsOps}.

(** What is missing comes from the defaults. *)
Definition or_default {V} (a b : option V) : option V := match a with Some _ => a | None => b end.
Definition with_defaults (v : VariableParameters) : VariableParameters :=
  let b := vp_base v in let d := vardefaults params in
  {| varname := varname v; vp_forceunits := vp_forceunits v; vp_remove := vp_remove v; checkExactUnits := checkExactUnits v; vp_attributes := vp_attributes v;
     vp_base := {| dimNames := or_default (dimNames b) (dimNames d); vb_type := or_default (vb_type b) (vb_type d);
                   canBeMetadata := if canBeMetadata b then canBeMetadata b else canBeMetadata d; vb_atts := or_default (vb_atts b) (vb_atts d) |} |}.
Definition mVarParams : gmap string VariableParameters :=
  foldl (fun m v => foldl (fun m n => <[n := with_defaults v]> m) m (varname v)) ∅ (variables params).
Definition mOldNewVarNames : gmap string string := old_new varname (variables params).

(** The parameters of a variable in a group: type, whether units are forced, and units. *)
Definition group_overrides (yg : option GroupParameters) (v : VariableParameters) : option Type_ * option bool * string :=
  match yg with
  | Some g => (or_default (gp_type g) (vb_type (vp_base v)), or_default (gp_forceunits g) (vp_forceunits v), default EmptyString (gp_units g))
  | None => (vb_type (vp_base v), vp_forceunits v, EmptyString)
  end.

Definition rename (m : gmap string string) (n : string) : string := default n (m !! n).
Definition dims_recommended (recommended : list (list string)) (attached : list string) (rank : nat) : bool :=
  existsb (fun rec => (length rec =? length attached)%nat && (rank =? length attached)%nat && bool_decide (rec = map (rename sOldNewDimNames) attached)) recommended.

Definition check_lengths (name : string) (dims : list Z) (scales : list (string * VVariable)) : res (list Report) :=
  l ← mapR (fun i =>
      d ← vec_get dims i; s ← vec_get scales i;
      Ok (if d =? prodZ (vv_dims (snd s)) then [] else [(VariableDimensionCheck P, VariableLength name i)])) (seq 0 (length dims));
  Ok (concat l).

Definition check_variable_attributes (typ : option Type_) (atts : option AttributeList) (v : VVariable) : list Report :=
  (match atts with
   | Some a =>
       let req := lr_required (al_base a) ++ match typ with Some t => if decide (t = TEnum) then [] else requiredNotEnum a | None => [] end in
       appropriateAttributesCheck (map fst (vv_atts v)) req (lr_optional (al_base a))
   | None => []
   end) ++ matchingAttributesCheck YAMLattributes (vv_atts v).

Definition units_required (forceunits : option bool) (typ : option Type_) : bool :=
  match forceunits, typ with
  | Some b, _ => b
  | None, Some t => negb (bool_decide (t = TEnum) || bool_decide (t = TStringVLen) || bool_decide (t = TStringFixedLen))
  | None, None => false
  end.
Definition compare_units (name sVarUnits sYAMLunits : string) (exact : bool) : list Report :=
  if nonempty sVarUnits && nonempty sYAMLunits then
    (if unit_valid sVarUnits then [] else [(VariableHasConvertibleUnits P, UnitsInvalidInFile name)]) ++
    (if unit_valid sYAMLunits then [] else [(VariableHasConvertibleUnits P, UnitsInvalidInYaml name)]) ++
    (if unit_valid sVarUnits && unit_valid sYAMLunits then
       (if unit_convertible sVarUnits sYAMLunits then [] else [(VariableHasConvertibleUnits P, UnitsNotConvertible name)]) ++
       (if negb (unit_equal sVarUnits sYAMLunits) && exact then [(VariableHasExactUnits P, UnitsNotExact name)] else [])
     else [])
  else [].
Definition check_units (name : string) (units : option string) (forceunits : option bool) (typ : option Type_) (groupUnits : string) (vp : VariableParameters) : list Report :=
  let unitsDisabled := bool_decide (forceunits = Some false) in
  let unitsRequired := units_required forceunits typ in
  if unitsDisabled then match units with Some _ => [(VariableHasConvertibleUnits P, UnitsProhibited name)] | None => [] end
  else if bool_decide (units <> None) || unitsRequired then
    let sYAMLunits := if nonempty groupUnits then groupUnits else default EmptyString (vp_attributes vp !! "units") in
    (if nonempty sYAMLunits then [] else [(VariableHasValidUnits P, UnitsNotInYaml name)]) ++
    (match units with Some _ => [] | None => [(VariableHasValidUnits P, UnitsNotInFile name)] end) ++
    compare_units name (default EmptyString units) sYAMLunits (checkExactUnits vp)
  else [].

(** What is reported, and the exception that ends the checks. *)
Definition Checked : Type := list Report * option Err.
Definition check_variable (attached : gmap string (list (string * VVariable))) (v : string * VVariable) : Checked :=
  match splitPaths (fst v) with
  | [group; name] =>
      match mVarParams !! name with
      | None => ([(KnownVariableNames P, VariableUnknown (fst v))], None)
      | Some vp =>
          let l := match mOldNewVarNames !! name with Some new => [(VariableUseNewName P, VariableUsesOldName (fst v) new)] | None => [] end in
          if vp_remove vp then (l ++ [(VariableUseNewName P, VariableDeprecated (fst v))], None)
          else
            let yg := YAMLgroups !! group in
            let '(typ, forceunits, groupUnits) := group_overrides yg vp in
            let l := l ++ match yg with
              | Some g => if regularVariablesAllowed g then [] else [(GroupAllowsVariables P, GroupDisallowsVariable (fst v) group)]
              | None => [(GroupsKnown P, VariableInUnknownGroup (fst v) group)]
              end in
            let l := l ++ (if bool_decide (group = "MetaData") && negb (canBeMetadata (vp_base vp)) then [(VariableCanBeMetadata P, VariableNotMetadata (fst v))] else []) in
            match attached !! fst v with
            | None => (l, Some EOutOfRange)
            | Some scales =>
                let l := l ++ match dimNames (vp_base vp) with
                  | Some recommended =>
                      if dims_recommended recommended (map (fun s => rename mOldNewVarNames (fst s)) scales) (length (vv_dims (snd v))) then [] else [(VariableDimensionCheck P, VariableDimensions (fst v))]
                  | None => []
                  end in
                match check_lengths (fst v) (vv_dims (snd v)) scales with
                | Throw e => (l, Some e)
                | Ok lengths => (l ++ lengths ++ check_variable_attributes typ (vb_atts (vp_base vp)) (snd v) ++ check_units (fst v) (vv_units (snd v)) forceunits typ groupUnits vp, None)
                end
            end
      end
  | _ => ([(Error, VariableNameUnparsed (fst v))], None)
  end.
Fixpoint check_variables (attached : gmap string (list (string * VVariable))) (vars : list (string * VVariable)) : Checked :=
  match vars with
  | [] => ([], None)
  | v :: vars => match check_variable attached v with
      | (l, Some e) => (l, Some e)
      | (l, None) => let '(l', e) := check_variables attached vars in (l ++ l', e)
      end
  end.

(** ** [validate] *)

Definition validate (f : VFile) : Checked :=
  let l := check_required_groups f ++ concat (map check_group (vf_groups f)) in
  match collectVarDimInfo (vf_base f) with
  | Throw e => (l, Some e)
  | Ok info => let '(l', e) := check_variables (dimsAttachedToVars info) (varList info) in (l ++ check_dimensions (dimVarList info) ++ l', e)
  end.
End checks.

(** * [execute] *)

(** The options before the two file names; with another number of arguments the
    flags are not set. *)
Definition parse_options (argv : list string) : option (bool * bool) :=
  match argv with
  | [_; _] => Some (false, false)
  | [a; _; _] => Some (bool_decide (a = "--ignore-warn"), bool_decide (a = "--ignore-error"))
  | [a; b; _; _] => Some (bool_decide (a = "--ignore-warn") || bool_decide (b = "--ignore-warn"), bool_decide (a = "--ignore-error") || bool_decide (b = "--ignore-error"))
  | _ => None
  end.
(** The value that is returned: an exception is one more error, and adds one. *)
Definition return_code (ignoreWarn ignoreError : bool) (outcome : Checked) : Z :=
  let r := results (fst outcome) in
  let '(ret, errors) := match snd outcome with None => (0, numErrors r)%nat | Some _ => (1, S (numErrors r))%nat end in
  Z.of_nat (ret + (if ignoreWarn then 0 else numWarnings r) + (if ignoreError then 0 else errors)).
Definition execute `{UnitsOps} (params : IODAvalidateParameters) (f : VFile) (argv : list string) : res Z :=
  match parse_options argv with
  | Some (ignoreWarn, ignoreError) => Ok (i32 (return_code ignoreWarn ignoreError (validate params f)))
  | None => Throw EUndefined
  end.
(** A process ends with the low eight bits of what [main] returns. *)
Definition exit_status (code : Z) : Z := code mod 256.
