(* ===== verification/ValidateSpec.v ===== *)
(** Which files ioda-validate accepts. *)
From stdpp Require Import base list gmap strings pretty.
From Stdlib Require Import ZArith.
From S2P Require Import Prelude Selection ObsRecords ObsSpaceVars OdbVariables OdbOpen OdbOpenSpec OdbWriteSpec OdbCreateSpec OdbLayout OdbLayoutSpec VarUtils VarUtilsSpec UpgradeV1V2Spec Validate.
Local Open Scope Z_scope.

(** * Empty lists of reports *)

Lemma app_empty {A} (l l' : list A) : l ++ l' = [] <-> l = [] /\ l' = [].
Proof. split; [apply app_eq_nil|by intros [-> ->]]. Qed.
Lemma concat_empty {A B} (f : A -> list B) l : concat (map f l) = [] <-> forall x, x ∈ l -> f x = [].
Proof.
  induction l as [|x l IH]; cbn [map concat]; [split; [by intros _ x Hx%elem_of_nil|done]|]. rewrite app_empty, IH. split.
  - intros [H1 H2] y [->|Hy]%elem_of_cons; auto.
  - intros H. split; [apply H; left|]. intros y Hy. apply H. by right.
Qed.
Lemma omap_empty {A B} (f : A -> option B) l : omap f l = [] <-> forall x, x ∈ l -> f x = None.
Proof.
  induction l as [|x l IH]; cbn [omap list_omap]; [split; [by intros _ x Hx%elem_of_nil|done]|]. destruct (f x) as [y|] eqn:E.
  - split; [done|]. intros H. rewrite H in E by left. done.
  - rewrite IH. split; [intros H y [->|Hy]%elem_of_cons; auto|]. intros H y Hy. apply H. by right.
Qed.
Lemma if_empty {A} (b : bool) (l : list A) : l <> [] -> (if b then [] else l) = [] <-> b = true.
Proof. intros Hl. destruct b; [done|]. split; [done|discriminate]. Qed.
Lemma if_empty_r {A} (b : bool) (l : list A) : l <> [] -> (if b then l else []) = [] <-> b = false.
Proof. intros Hl. destruct b; [|done]. split; [done|discriminate]. Qed.

(** * Severities and counts *)

Definition counts (s : Severity) : bool := severity_geb s Warn.
Record strict (p : PolicyParameters) : Prop := {
  st_all : Forall (fun s => counts s = true) [GroupsKnown p; RequiredGroups p; GroupHasRequiredAttributes p; GroupHasKnownAttributes p; GroupAllowsVariables p; DimensionsKnown p;
    DimensionsUseNewName p; GeneralDimensionsChecks p; RequiredDimensions p; KnownVariableNames p; VariableUseNewName p; VariableCanBeMetadata p; VariableDimensionCheck p;
    VariableHasValidUnits p; VariableHasConvertibleUnits p; VariableHasExactUnits p; AttributeHasCorrectDims p]
}.

(** The number of reports that are errors or warnings. *)
Definition counted (l : list Report) : nat := length (List.filter (fun p => counts (fst p)) l).
Lemma results_sum l : (numErrors (results l) + numWarnings (results l))%nat = counted l.
Proof.
  unfold results. assert (Hgo : forall r, (numErrors (foldl (fun r p => count r (fst p)) r l) + numWarnings (foldl (fun r p => count r (fst p)) r l) = numErrors r + numWarnings r + counted l)%nat).
  { induction l as [|[s i] l IH]; intros r; cbn [foldl]; [unfold counted; cbn; lia|]. rewrite IH. unfold counted, count, counts. cbn [List.filter fst]. destruct s; cbn; lia. }
  rewrite Hgo. done.
Qed.
Lemma return_code_sum reports e : return_code false false (reports, e) = Z.of_nat (counted reports + match e with Some _ => 2 | None => 0 end).
Proof. unfold return_code. cbn [fst snd]. rewrite <-results_sum. destruct e; lia. Qed.

(** The exit status wraps around.  Without options a run that ends without an
    exception returns the number of errors and warnings; the process ends with its low
    eight bits, so it reports success exactly when this number is a multiple of 256,
    and not only when there are none. *)
Theorem exit_status_wraps (reports : list Report) : Z.of_nat (counted reports) < 2 ^ 31 ->
  exit_status (i32 (return_code false false (reports, None))) = 0 <-> (256 | Z.of_nat (counted reports)).
Proof.
  intros Hlt. rewrite return_code_sum, Nat.add_0_r, i32_small by lia. unfold exit_status. rewrite Z.mod_divide by lia. done.
Qed.

(** * Conforming files *)

Section conforms.
Context (params : IODAvalidateParameters) `{U : UnitsOps}.

Definition attribute_conforms (a : AttributeParameters) (attdims : list Z) : Prop :=
  match dimensions a, dimensionality a with
  | Some ds, Some n => n = Z.of_nat (length ds) /\ attdims = ds
  | Some ds, None => attdims = ds
  | None, Some n => Z.of_nat (length attdims) = n
  | None, None => True
  end.
Definition attributes_conform (atts : list (string * list Z)) : Prop :=
  forall a, a ∈ atts -> exists spec, YAMLattributes params !! fst a = Some spec /\ attribute_conforms spec (snd a).
Definition attributes_listed (atts req opt : list string) : Prop := forall n, n ∈ atts -> n ∈ req \/ n ∈ opt \/ n ∈ Ignored.

Definition group_conforms (g : VGroup) : Prop := exists yg, YAMLgroups params !! vg_name g = Some yg /\ gp_remove yg = None /\
  (forall n, n ∈ lr_required (gp_atts yg) -> n ∈ map fst (vg_atts g)) /\
  attributes_listed (map fst (vg_atts g)) (lr_required (gp_atts yg)) (lr_optional (gp_atts yg)) /\ attributes_conform (vg_atts g) /\
  forall req, requiredvars yg = Some req -> forall n, n ∈ req -> n ∈ vg_vars g.
(** Every name of a required group is the name of a group. *)
Definition groups_present (f : VFile) : Prop :=
  forall n g, YAMLgroups params !! n = Some g -> gp_required g = true -> n ∈ map vg_name (vf_groups f).

Definition dimensions_conform (fileDims : list (string * VVariable)) : Prop :=
  (forall d, d ∈ vp_dimensions params -> dp_required d = true -> dimname d <> [] -> exists n, n ∈ dimname d /\ n ∈ map fst fileDims) /\
  (forall d, d ∈ fileDims -> fst d ∈ mDimNames params /\ sOldNewDimNames params !! fst d = None /\ (length (vv_dims (snd d)) <= 1)%nat).

Definition units_conform (units : option string) (forceunits : option bool) (typ : option Type_) (groupUnits : string) (vp : VariableParameters) : Prop :=
  let yaml := if nonempty groupUnits then groupUnits else default EmptyString (vp_attributes vp !! "units") in
  match forceunits, units with
  | Some false, _ => units = None
  | _, None => units_required forceunits typ = false
  | _, Some u => nonempty yaml = true /\ (nonempty u = true -> unit_valid u = true /\ unit_valid yaml = true /\ unit_convertible u yaml = true /\
                   (checkExactUnits vp = true -> unit_equal u yaml = true))
  end.

Definition variable_conforms (attached : gmap string (list (string * VVariable))) (v : string * VVariable) : Prop :=
  exists group name vp g scales, splitPaths (fst v) = [group; name] /\ mVarParams params !! name = Some vp /\ mOldNewVarNames params !! name = None /\ vp_remove vp = false /\
    YAMLgroups params !! group = Some g /\ regularVariablesAllowed g = true /\ (group = "MetaData" -> canBeMetadata (vp_base vp) = true) /\ attached !! fst v = Some scales /\
    (forall rec, dimNames (vp_base vp) = Some rec -> length (vv_dims (snd v)) = length scales /\
       map (rename (sOldNewDimNames params)) (map (fun s => rename (mOldNewVarNames params) (fst s)) scales) ∈ rec) /\
    Forall2 (fun d s => d = prodZ (vv_dims (snd s))) (vv_dims (snd v)) (take (length (vv_dims (snd v))) scales) /\
    let '(typ, forceunits, groupUnits) := group_overrides (Some g) vp in
    (forall a, vb_atts (vp_base vp) = Some a -> attributes_listed (map fst (vv_atts (snd v)))
       (lr_required (al_base a) ++ match typ with Some t => if decide (t = TEnum) then [] else requiredNotEnum a | None => [] end) (lr_optional (al_base a))) /\
    attributes_conform (vv_atts (snd v)) /\ units_conform (vv_units (snd v)) forceunits typ groupUnits vp.

Definition conforms (f : VFile) : Prop :=
  groups_present f /\ (forall g, g ∈ vf_groups f -> group_conforms g) /\
  exists info, collectVarDimInfo (vf_base f) = Ok info /\ dimensions_conform (dimVarList info) /\ forall v, v ∈ varList info -> variable_conforms (dimsAttachedToVars info) v.

(** ** Attributes *)

Lemma attribute_dims_empty name a attdims : attribute_dims params name a attdims = [] <-> attribute_conforms a attdims.
Proof.
  unfold attribute_dims, attribute_conforms, required_dimensionality, inconsistent.
  assert (Hds : forall ds : list Z, (if Z.of_nat (length attdims) =? Z.of_nat (length ds) then [] else [(AttributeHasCorrectDims (policies params), AttributeWrongDimensionality name)]) ++
      (if 0 <? Z.of_nat (length ds) then omap (fun i => match attdims !! i, ds !! i with
         | Some x, Some y => if x =? y then None else Some (AttributeHasCorrectDims (policies params), AttributeWrongDimension name i) | _, _ => None end)
         (seq 0 (Nat.min (Z.to_nat (Z.of_nat (length ds))) (length attdims))) else []) = [] <-> attdims = ds).
  { intros ds. rewrite app_empty, if_empty by done. split.
    - intros [Hlen Hel]. apply Z.eqb_eq in Hlen. apply list_eq_same_length with (length ds); [done|lia|]. intros i x y Hi Hx Hy.
      destruct (0 <? Z.of_nat (length ds)) eqn:E0; [|apply Z.ltb_ge in E0; lia]. rewrite omap_empty in Hel. specialize (Hel i). rewrite Hx, Hy in Hel.
      destruct (Z.eqb_spec x y); [done|]. discriminate Hel. apply elem_of_seq. lia.
    - intros ->. rewrite Z.eqb_refl. split; [done|]. destruct (0 <? _); [|done]. apply omap_empty. intros i _. destruct (ds !! i); [|done]. by rewrite Z.eqb_refl. }
  destruct (dimensionality a) as [n|], (dimensions a) as [ds|]; cbn [app].
  - destruct (Z.eqb_spec n (Z.of_nat (length ds))) as [->|Hn]; cbn [negb app]; [rewrite Hds; tauto|]. split; [discriminate|]. by intros [? _].
  - rewrite app_nil_r, if_empty by done. by rewrite Z.eqb_eq.
  - apply Hds.
  - done.
Qed.

Lemma matching_empty atts : matchingAttributesCheck params (YAMLattributes params) atts = [] <-> attributes_conform atts.
Proof.
  unfold matchingAttributesCheck, attributes_conform. rewrite concat_empty. split.
  - intros Hx a Ha. specialize (Hx a Ha). destruct (YAMLattributes params !! fst a) as [spec|]; [|done]. exists spec. by rewrite <-attribute_dims_empty with (name := fst a).
  - intros Hx a Ha. destruct (Hx a Ha) as (spec & -> & Hc). by apply attribute_dims_empty.
Qed.
Lemma required_empty req names : requiredSymbolsCheck params req names = [] <-> forall n, n ∈ req -> n ∈ names.
Proof.
  unfold requiredSymbolsCheck. rewrite omap_empty. split; intros Hx n Hn; specialize (Hx n Hn).
  - by case_bool_decide.
  - by rewrite bool_decide_true.
Qed.
Lemma appropriate_empty atts req opt : appropriateAttributesCheck params atts req opt = [] <-> attributes_listed atts req opt.
Proof.
  unfold appropriateAttributesCheck, attributes_listed. rewrite omap_empty. split; intros Hx n Hn; specialize (Hx n Hn).
  - repeat case_bool_decide; try done; tauto.
  - destruct Hx as [Hx|[Hx|Hx]]; rewrite (bool_decide_true _ Hx); by rewrite ?orb_true_r.
Qed.

(** ** Groups and dimensions *)

Lemma check_group_empty g : check_group params g = [] <-> group_conforms g.
Proof.
  unfold check_group, group_conforms. destruct (YAMLgroups params !! vg_name g) as [yg|]; [|split; [discriminate|by intros (yg & ? & _)]].
  rewrite !app_empty, required_empty, appropriate_empty, matching_empty.
  assert (Hv : match requiredvars yg with Some req => requiredSymbolsCheck params req (vg_vars g) | None => [] end = [] <->
    forall req, requiredvars yg = Some req -> forall n, n ∈ req -> n ∈ vg_vars g).
  { destruct (requiredvars yg) as [req|]; [rewrite required_empty; naive_solver|naive_solver]. }
  rewrite Hv. split.
  - intros (H1 & H2 & H3 & H4 & H5). exists yg. split_and!; try done. by destruct (gp_remove yg).
  - intros (yg' & [= <-] & -> & H2 & H3 & H4 & H5). by split_and!.
Qed.

Lemma required_groups_empty f : check_required_groups params f = [] <-> groups_present f.
Proof.
  unfold check_required_groups, groups_present. rewrite concat_empty.
  assert (Hr : forall yg, required_group params (map vg_name (vf_groups f)) yg = [] <-> (gp_required (snd yg) = true -> fst yg ∈ map vg_name (vf_groups f))).
  { intros yg. unfold required_group. destruct (gp_required (snd yg)); [|done]. case_bool_decide as Hin; cbn [negb andb]; [done|].
    split; [|intros Hx; by specialize (Hx eq_refl)]. destruct (filter _ _); discriminate. }
  split.
  - intros Hx n g Hn. apply (Hr (n, g)). apply Hx. rewrite std_sort_perm. by apply elem_of_map_to_list.
  - intros Hx [n g] Hn. rewrite std_sort_perm in Hn. apply elem_of_map_to_list in Hn. apply Hr. by apply Hx.
Qed.

Lemma required_dimension_empty names d : required_dimension params names d = [] <-> (dp_required d = true -> dimname d <> [] -> exists n, n ∈ dimname d /\ n ∈ names).
Proof.
  unfold required_dimension. destruct (dimname d) as [|n l] eqn:En; [naive_solver|]. destruct (dp_required d); cbn [andb]; [|naive_solver]. rewrite if_empty_r by done.
  rewrite negb_false_iff, existsb_exists. split.
  - intros (x & Hx & Hb) _ _. exists x. rewrite list_elem_of_In. split; [done|]. by apply bool_decide_eq_true in Hb.
  - intros Hx. destruct (Hx eq_refl) as (x & H1 & H2); [done|]. exists x. rewrite <-list_elem_of_In. split; [done|]. by apply bool_decide_eq_true.
Qed.
Lemma check_dimension_empty d : check_dimension params d = [] <-> fst d ∈ mDimNames params /\ sOldNewDimNames params !! fst d = None /\ (length (vv_dims (snd d)) <= 1)%nat.
Proof.
  unfold check_dimension. case_bool_decide as Hin; [|split; [discriminate|by intros [? _]]]. rewrite app_empty, if_empty_r by done. rewrite Nat.ltb_ge.
  destruct (sOldNewDimNames params !! fst d); [split; [by intros [? _]|by intros (_ & ? & _)]|naive_solver].
Qed.
Lemma check_dimensions_empty fileDims : check_dimensions params fileDims = [] <-> dimensions_conform fileDims.
Proof.
  unfold check_dimensions, dimensions_conform. rewrite app_empty, !concat_empty. split; intros [H1 H2]; (split; intros d Hd; [apply required_dimension_empty|apply check_dimension_empty]; auto).
Qed.

(** ** Variables *)

Lemma compare_units_empty name u y exact : compare_units params name u y exact = [] <->
  (nonempty u = true -> nonempty y = true -> unit_valid u = true /\ unit_valid y = true /\ unit_convertible u y = true /\ (exact = true -> unit_equal u y = true)).
Proof.
  unfold compare_units. destruct (nonempty u); cbn [andb]; [|naive_solver]. destruct (nonempty y); [|naive_solver]. rewrite !app_empty, !if_empty by done.
  destruct (unit_valid u); cbn [andb]; [|naive_solver]. destruct (unit_valid y); [|naive_solver]. rewrite app_empty, if_empty, if_empty_r by done.
  destruct (unit_equal u y), exact; cbn; naive_solver.
Qed.

Lemma check_units_empty name units forceunits typ groupUnits vp : check_units params name units forceunits typ groupUnits vp = [] <-> units_conform units forceunits typ groupUnits vp.
Proof.
  unfold check_units, units_conform. set (yaml := if nonempty groupUnits then groupUnits else default EmptyString (vp_attributes vp !! "units")).
  assert (Hu : forall u, (if nonempty yaml then [] else [(VariableHasValidUnits (policies params), UnitsNotInYaml name)]) ++ [] ++ compare_units params name u yaml (checkExactUnits vp) = [] <->
    nonempty yaml = true /\ (nonempty u = true -> unit_valid u = true /\ unit_valid yaml = true /\ unit_convertible u yaml = true /\ (checkExactUnits vp = true -> unit_equal u yaml = true))).
  { intros u. rewrite app_empty, if_empty by done. cbn [app]. rewrite compare_units_empty. naive_solver. }
  destruct (decide (forceunits = Some false)) as [->|Hf].
  - rewrite bool_decide_true by done. by destruct units.
  - rewrite (bool_decide_false (forceunits = Some false)) by done. destruct units as [u|].
    + rewrite bool_decide_true by done. cbn [orb default]. rewrite Hu. by destruct forceunits as [[|]|].
    + rewrite (bool_decide_false (None <> None)) by naive_solver. cbn [orb]. destruct forceunits as [[|]|]; [| |];
        (destruct (units_required _ typ) eqn:E; [|done]); (split; [|done]); rewrite !app_empty; intros (_ & H1 & _); discriminate H1.
Qed.

Lemma dims_recommended_iff rec names rank : dims_recommended params rec names rank = true <-> rank = length names /\ map (rename (sOldNewDimNames params)) names ∈ rec.
Proof.
  unfold dims_recommended. rewrite existsb_exists. split.
  - intros (r & Hr & Hb). rewrite !andb_true_iff, !Nat.eqb_eq, bool_decide_eq_true in Hb. destruct Hb as [[_ Hrank] ->]. split; [done|]. by apply list_elem_of_In.
  - intros [Hrank Hin]. eexists. split; [by apply list_elem_of_In|]. rewrite length_map, Hrank, Nat.eqb_refl, bool_decide_true by done. done.
Qed.

Lemma check_lengths_empty name dims scales : check_lengths params name dims scales = Ok [] <-> Forall2 (fun d s => d = prodZ (vv_dims (snd s))) dims (take (length dims) scales).
Proof.
  unfold check_lengths. set (f := fun i => d ← vec_get dims i; s ← vec_get scales i; Ok (if d =? prodZ (vv_dims (snd s)) then [] else [(VariableDimensionCheck (policies params), VariableLength name i)])).
  split.
  - intros Hok. destruct (mapR f (seq 0 (length dims))) as [l|] eqn:E; [|done]. cbn [mbind res_bind] in Hok. injection Hok as Hok.
    assert (Hall : forall i, (i < length dims)%nat -> f i = Ok []).
    { intros i Hi. assert (Hgo : forall k a l, mapR f (seq a k) = Ok l -> concat l = [] -> forall i, (a <= i < a + k)%nat -> f i = Ok []).
      { clear. induction k as [|k IH]; intros a l E Hc i Hi; [lia|]. cbn [seq mapR] in E. destruct (f a) as [x|] eqn:Ea; [|done]. cbn [mbind res_bind] in E.
        destruct (mapR f (seq (S a) k)) as [l'|] eqn:El; [|done]. cbn [mbind res_bind] in E. injection E as <-. cbn [concat] in Hc. apply app_empty in Hc as [-> Hc].
        destruct (decide (i = a)) as [->|]; [done|]. eapply (IH (S a)); [exact El|done|lia]. }
      apply (Hgo _ _ _ E Hok). lia. }
    apply Forall2_same_length_lookup. assert (Hlen : (length dims <= length scales)%nat).
    { destruct (decide (length dims <= length scales)%nat) as [|Hn]; [done|]. specialize (Hall (length scales) ltac:(lia)). unfold f in Hall.
      destruct (lookup_lt_is_Some_2 dims (length scales)) as [d Hd]; [lia|]. rewrite (vec_get_Some _ _ _ Hd) in Hall. cbn [mbind res_bind] in Hall. unfold vec_get in Hall.
      rewrite lookup_ge_None_2 in Hall by lia. done. }
    split; [rewrite length_take; lia|]. intros i d s Hd Hs. pose proof (lookup_lt_Some _ _ _ Hd) as Hi. specialize (Hall i Hi). unfold f in Hall. apply lookup_take_Some in Hs as [Hs _].
    rewrite (vec_get_Some _ _ _ Hd), (vec_get_Some _ _ _ Hs) in Hall. cbn [mbind res_bind] in Hall. destruct (Z.eqb_spec d (prodZ (vv_dims (snd s)))); [done|discriminate].
  - intros HF. rewrite (mapR_Ok f (fun _ => [])).
    + cbn [mbind res_bind]. f_equal. apply concat_empty. done.
    + intros i Hi. apply elem_of_seq in Hi. destruct (lookup_lt_is_Some_2 dims i) as [d Hd]; [lia|]. destruct (Forall2_lookup_l _ _ _ _ _ HF Hd) as (s & Hs & ->).
      unfold f. rewrite (vec_get_Some _ _ _ Hd). apply lookup_take_Some in Hs as [Hs _]. rewrite (vec_get_Some _ _ _ Hs). cbn [mbind res_bind]. by rewrite Z.eqb_refl.
Qed.

Lemma variable_attributes_empty typ atts v : check_variable_attributes params typ atts v = [] <->
  (forall a, atts = Some a -> attributes_listed (map fst (vv_atts v))
     (lr_required (al_base a) ++ match typ with Some t => if decide (t = TEnum) then [] else requiredNotEnum a | None => [] end) (lr_optional (al_base a))) /\ attributes_conform (vv_atts v).
Proof.
  unfold check_variable_attributes. rewrite app_empty, matching_empty. destruct atts as [a|]; [rewrite appropriate_empty|]; naive_solver.
Qed.

(** A variable that has a report in any case. *)
Ltac reported :=
  split; [intros E; first [discriminate E | repeat case_match; apply (f_equal fst) in E; cbn in E; discriminate E]|
          intros (? & ? & ? & ? & ? & [=] & ? & ? & ? & ? & ? & ? & ? & _); subst; congruence].

Lemma check_variable_empty attached v : check_variable params attached v = ([], None) <-> variable_conforms attached v.
Proof.
  unfold check_variable, variable_conforms. destruct (splitPaths (fst v)) as [|group [|name [|]]]; [reported|reported| |reported].
  destruct (mVarParams params !! name) as [vp|] eqn:Ev; [|reported]. cbv zeta. destruct (mOldNewVarNames params !! name) as [new|] eqn:Eo; [reported|].
  destruct (vp_remove vp) eqn:Er; [reported|]. destruct (YAMLgroups params !! group) as [g|] eqn:Eg; [|reported]. destruct (regularVariablesAllowed g) eqn:Ea; [|reported].
  assert (Hm : (bool_decide (group = "MetaData") && negb (canBeMetadata (vp_base vp))) = false <-> (group = "MetaData" -> canBeMetadata (vp_base vp) = true)).
  { case_bool_decide; cbn [andb]; [rewrite negb_false_iff|]; naive_solver. }
  destruct (bool_decide (group = "MetaData") && negb (canBeMetadata (vp_base vp))) eqn:Em.
  { split; [intros E; repeat case_match; apply (f_equal fst) in E; cbn in E; discriminate E|]. intros (?g & ?n & ?vp & ?yg & ?sc & ? & ? & ? & ? & ? & ? & Hc & _). simplify_eq. apply Hm in Hc. discriminate. }
  pose proof (proj1 Hm eq_refl) as Hmeta. cbn [app]. destruct (group_overrides (Some g) vp) as [[typ forceunits] groupUnits] eqn:Eov. destruct (attached !! fst v) as [scales|] eqn:Es; [|reported].
  set (dimlist := match dimNames (vp_base vp) with Some _ => _ | None => [] end).
  assert (Hdim : dimlist = [] <-> forall rec, dimNames (vp_base vp) = Some rec -> length (vv_dims (snd v)) = length scales /\
     map (rename (sOldNewDimNames params)) (map (fun s => rename (mOldNewVarNames params) (fst s)) scales) ∈ rec).
  { subst dimlist. destruct (dimNames (vp_base vp)) as [rec|]; [|naive_solver]. rewrite if_empty by done. rewrite dims_recommended_iff, length_map. naive_solver. }
  pose proof (check_lengths_empty (fst v) (vv_dims (snd v)) scales) as Hlen. split.
  - intros E. destruct (check_lengths params (fst v) (vv_dims (snd v)) scales) as [lengths|]; [|discriminate E]. injection E as E. rewrite !app_empty, variable_attributes_empty, check_units_empty in E.
    destruct E as (E1 & -> & [E3 E4] & E5). exists group, name, vp, g, scales. rewrite Eov. split_and!; try done; [by apply Hdim|by apply Hlen].
  - intros (g' & n' & vp' & yg' & sc' & [= -> ->] & Hv' & _ & _ & Hg' & _ & _ & Hs' & Hd' & Hl' & Hrest). simplify_eq. rewrite Eov in Hrest. destruct Hrest as (H1 & H2 & H3).
    rewrite (proj2 Hlen Hl'). f_equal. rewrite !app_empty, variable_attributes_empty, check_units_empty. split_and!; try done. by apply Hdim.
Qed.

Lemma check_variables_empty attached vars : check_variables params attached vars = ([], None) <-> forall v, v ∈ vars -> variable_conforms attached v.
Proof.
  induction vars as [|v vars IH]; cbn [check_variables]; [split; [by intros _ v Hv%elem_of_nil|done]|]. destruct (check_variable params attached v) as [l [e|]] eqn:E.
  - split; [discriminate|]. intros Hx. specialize (Hx v ltac:(left)). apply check_variable_empty in Hx. rewrite Hx in E. discriminate.
  - destruct (check_variables params attached vars) as [l' e']. split.
    + intros [= Hl ->]. apply app_empty in Hl as [-> ->]. intros w [->|Hw]%elem_of_cons; [by apply check_variable_empty|by apply IH].
    + intros Hx. assert (Hv : (l, None) = ([], @None Err)) by (rewrite <-E; apply check_variable_empty, Hx; left). injection Hv as ->.
      assert (Hr : (l', e') = ([], None)) by (apply IH; intros w Hw; apply Hx; by right). by injection Hr as -> ->.
Qed.

Lemma validate_empty f : validate params f = ([], None) <-> conforms f.
Proof.
  unfold validate, conforms. destruct (collectVarDimInfo (vf_base f)) as [info|e].
  - pose proof (check_variables_empty (dimsAttachedToVars info) (varList info)) as Hv. destruct (check_variables params (dimsAttachedToVars info) (varList info)) as [l e]. split.
    + intros [= E ->]. rewrite !app_empty, required_groups_empty, concat_empty, check_dimensions_empty in E. destruct E as ([H1 H2] & H3 & ->). split_and!; [done| |].
      * intros g Hg. by apply check_group_empty, H2.
      * exists info. split_and!; [done|done|]. by apply Hv.
    + intros (H1 & H2 & info' & [= <-] & H3 & H4). apply Hv in H4. injection H4 as -> ->. f_equal. rewrite !app_empty, required_groups_empty, concat_empty, check_dimensions_empty.
      split_and!; try done. intros g Hg. by apply check_group_empty, H2.
  - split; [discriminate|]. by intros (_ & _ & info & [=] & _).
Qed.

(** ** Every report counts when the policies are strict *)

Hypothesis Hstrict : strict (policies params).
Definition all_counted (l : list Report) : Prop := Forall (fun r => counts (fst r) = true) l.

Lemma counted_concat {V} (f : V -> list Report) l : (forall x, all_counted (f x)) -> all_counted (concat (map f l)).
Proof. intros Hf. induction l as [|x l IH]; [constructor|]. cbn [map concat]. apply Forall_app. split; [apply Hf|apply IH]. Qed.
Lemma counted_omap {V} (f : V -> option Report) l : (forall x r, f x = Some r -> counts (fst r) = true) -> all_counted (omap f l).
Proof. intros Hf. induction l as [|x l IH]; [constructor|]. cbn [omap list_omap]. destruct (f x) as [r|] eqn:E; [|done]. constructor; [by eapply Hf|done]. Qed.

Lemma counted_nil : all_counted [].
Proof. constructor. Qed.
Lemma counted_one (r : Report) : counts (fst r) = true -> all_counted [r].
Proof. intros H. by constructor. Qed.
Lemma counted_app l l' : all_counted l -> all_counted l' -> all_counted (l ++ l').
Proof. intros H1 H2. apply Forall_app. by split. Qed.

(** The severity of each policy. *)
Ltac policy := cbn [fst]; destruct Hstrict as [Hst]; repeat (apply Forall_cons in Hst as [? Hst]); (assumption || reflexivity).
Create HintDb counted.
Ltac counting := repeat first
  [ solve [eauto 2 with counted] | apply counted_nil | apply counted_app | apply counted_one; policy | apply counted_omap; intros ? ? ?; repeat case_match; simplify_eq; policy | apply counted_concat; intros ? | case_match ].

Lemma required_counted req names : all_counted (requiredSymbolsCheck params req names).
Proof. unfold requiredSymbolsCheck. counting. Qed.
Lemma appropriate_counted atts req opt : all_counted (appropriateAttributesCheck params atts req opt).
Proof. unfold appropriateAttributesCheck. counting. Qed.
Lemma matching_counted atts : all_counted (matchingAttributesCheck params (YAMLattributes params) atts).
Proof. unfold matchingAttributesCheck, attribute_dims. counting. Qed.
#[local] Hint Resolve required_counted appropriate_counted matching_counted : counted.
Lemma groups_counted f : all_counted (check_required_groups params f ++ concat (map (check_group params) (vf_groups f))).
Proof.
  apply counted_app; apply counted_concat; intros g; [unfold required_group|unfold check_group].
  - case_match; [|counting]. case_match; [counting|]. apply Forall_forall. intros r (o & -> & _)%list_elem_of_fmap. policy.
  - counting.
Qed.
Lemma dimensions_counted fileDims : all_counted (check_dimensions params fileDims).
Proof. unfold check_dimensions, required_dimension, check_dimension. counting. Qed.

Lemma lengths_counted name dims scales l : check_lengths params name dims scales = Ok l -> all_counted l.
Proof.
  unfold check_lengths. set (f := fun i : nat => _). assert (Hgo : forall js ls, mapR f js = Ok ls -> all_counted (concat ls)).
  { induction js as [|i js IH]; intros ls E; cbn [mapR] in E; [injection E as <-; apply counted_nil|]. destruct (f i) as [x|] eqn:Ei; [|done]. cbn [mbind res_bind] in E.
    destruct (mapR f js) as [ls'|]; [|done]. cbn [mbind res_bind] in E. injection E as <-. cbn [concat]. apply counted_app; [|by apply IH]. unfold f in Ei.
    destruct (vec_get dims i); [|done]. cbn [mbind res_bind] in Ei. destruct (vec_get scales i); [|done]. cbn [mbind res_bind] in Ei. injection Ei as <-. counting. }
  intros E. destruct (mapR f (seq 0 (length dims))) as [ls|] eqn:El; [|done]. cbn [mbind res_bind] in E. injection E as <-. by apply (Hgo _ ls El).
Qed.

Lemma variable_counted attached v : all_counted (fst (check_variable params attached v)).
Proof.
  unfold check_variable.
  destruct (splitPaths (fst v)) as [|group [|name [|]]]; cbn [fst]; [counting|counting| |counting]. destruct (mVarParams params !! name) as [vp|]; cbn [fst]; [|counting]. cbv zeta.
  destruct (vp_remove vp); cbn [fst]; [counting|]. destruct (group_overrides _ vp) as [[typ forceunits] groupUnits].
  destruct (attached !! fst v) as [scales|]; cbn [fst]; [|counting]. destruct (check_lengths params (fst v) (vv_dims (snd v)) scales) as [lengths|] eqn:El; cbn [fst]; [|counting].
  apply lengths_counted in El. unfold check_variable_attributes, check_units, compare_units. counting.
Qed.
Lemma variables_counted attached vars : all_counted (fst (check_variables params attached vars)).
Proof.
  induction vars as [|v vars IH]; cbn [check_variables]; [apply counted_nil|]. pose proof (variable_counted attached v) as Hv. destruct (check_variable params attached v) as [l [e|]]; [done|].
  destruct (check_variables params attached vars) as [l' e']. by apply counted_app.
Qed.
Lemma validate_counted f : all_counted (fst (validate params f)).
Proof.
  unfold validate. pose proof (groups_counted f) as Hg. destruct (collectVarDimInfo (vf_base f)) as [info|e]; [|done].
  pose proof (variables_counted (dimsAttachedToVars info) (varList info)) as Hv. destruct (check_variables _ _ _) as [l e]. apply counted_app; [done|]. by apply counted_app; [apply dimensions_counted|].
Qed.
End conforms.

(** The issues of a run: the errors and warnings, and two for an exception. *)
Definition issues (outcome : Checked) : nat := (counted (fst outcome) + match snd outcome with Some _ => 2 | None => 0 end)%nat.

(** C22: The validator returns zero exactly for the files that conform.  When every
    policy is a warning or an error and there are less than 2^31 issues, a run
    without options returns from [main] the number of issues, which is zero
    exactly when the groups, dimensions, variables and attributes of the file are
    as the conventions say: every name of a required group is there, groups are
    known and have their attributes and variables, scales are known under their
    preferred names, and every variable has a known name in a group that allows
    it, recommended dimensions with the lengths of their scales, only attributes
    that are listed and described with these dimensions, and units that are
    valid, convertible and, where asked, equal.  (The required attributes of a
    variable need not be there: they are not looked for.)  The process ends with
    this number modulo 256, so that it reports success for a file that conforms,
    and also for one with a multiple of 256 issues. *)
Theorem validator_accepts_iff `{U : UnitsOps} (params : IODAvalidateParameters) (f : VFile) (yaml path : string) : strict (policies params) ->
  Z.of_nat (issues (validate params f)) < 2 ^ 31 ->
  exists code, execute params f [yaml; path] = Ok code /\ (code = 0 <-> conforms params f) /\
    code = Z.of_nat (issues (validate params f)) /\ exit_status code = Z.of_nat (issues (validate params f)) mod 256.
Proof.
  intros Hstrict Hlt. unfold execute. cbn [parse_options]. exists (Z.of_nat (issues (validate params f))).
  assert (E : return_code false false (validate params f) = Z.of_nat (issues (validate params f))) by (destruct (validate params f) as [l e]; apply return_code_sum).
  split; [rewrite E, i32_small by lia; done|]. split; [|done]. clear E Hlt. rewrite <-validate_empty.
  pose proof (validate_counted params Hstrict f) as Hc. destruct (validate params f) as [l e]. unfold issues. cbn [fst snd] in *. split.
  - intros E. destruct e; [lia|]. f_equal. destruct l as [|r l]; [done|]. exfalso. apply Forall_cons in Hc as [Hr _]. unfold counted in E. cbn [List.filter] in E. rewrite Hr in E. cbn in E. lia.
  - by intros [= -> ->].
Qed.

(** * What the checks miss *)

(** A required group under its preferred name is reported when one of its other
    names is not there. *)
Lemma preferred_name_reported `{U : UnitsOps} params f g preferred other : YAMLgroups params !! other = Some g -> gp_required g = true ->
  preferred ∈ grpname g -> preferred ∈ map vg_name (vf_groups f) -> other ∉ map vg_name (vf_groups f) ->
  (RequiredGroups (policies params), GroupUsesOldName other preferred) ∈ fst (validate params f).
Proof.
  intros Hg Hreq Hp Hin Hout. assert (Hr : (RequiredGroups (policies params), GroupUsesOldName other preferred) ∈ check_required_groups params f).
  { unfold check_required_groups. apply list_elem_of_In, in_concat. eexists. split; [apply in_map, list_elem_of_In; rewrite std_sort_perm; by apply elem_of_map_to_list|].
    unfold required_group. cbn [fst snd]. rewrite Hreq, bool_decide_false by done. cbn [negb andb].
    assert (Hf : preferred ∈ filter (fun n => n ∈ map vg_name (vf_groups f)) (grpname g)) by (by apply list_elem_of_filter).
    destruct (filter _ (grpname g)) as [|o l]; [by apply elem_of_nil in Hf|]. apply list_elem_of_In, list_elem_of_fmap. by exists preferred. }
  unfold validate. destruct (collectVarDimInfo (vf_base f)) as [info|]; [destruct (check_variables _ _ _)|]; cbn [fst]; repeat (apply elem_of_app; left); done.
Qed.

(** The required attributes of a variable are only allowed, not asked for. *)
Lemma missing_attributes_accepted params typ atts v : vv_atts v = [] -> check_variable_attributes params typ atts v = [].
Proof. intros Hv. unfold check_variable_attributes. rewrite Hv. by destruct atts. Qed.

(** * Paths *)

Definition path_name (n : string) : Prop := n <> EmptyString /\ has_char is_slash n = false.
Lemma slash_tokens (w s : string) : path_name w -> tokens is_slash EmptyString (w +:+ "/" +:+ s) = w :: tokens is_slash EmptyString s.
Proof.
  intros [Hne Hw]. rewrite tokens_word by done. change ("/" +:+ s) with (String (Ascii.ascii_of_nat 47) s). cbn [tokens]. change (is_slash (Ascii.ascii_of_nat 47)) with true. cbv iota.
  change (EmptyString +:+ w) with w. by destruct w.
Qed.
Lemma last_token (w : string) : path_name w -> tokens is_slash EmptyString w = [w].
Proof. intros [Hne Hw]. rewrite <-(string_append_nil_r w) at 1. rewrite tokens_word by done. cbn [tokens]. change (EmptyString +:+ w) with w. by destruct w. Qed.
Lemma tokens_join names : Forall path_name names -> tokens is_slash EmptyString (join_slash names) = names.
Proof.
  induction names as [|n names IH]; intros Hall; [done|]. apply Forall_cons in Hall as [Hn Hall]. destruct names as [|m names]; [by apply last_token|].
  cbn [join_slash] in *. by rewrite slash_tokens, IH.
Qed.
Lemma split_join names : Forall path_name names -> splitPaths (join_slash names) = names.
Proof.
  intros Hall. transitivity (tokens is_slash EmptyString (join_slash names)); [|by apply tokens_join]. unfold splitPaths. destruct names as [|n names]; [done|]. apply Forall_cons in Hall as [[Hne Hs] _].
  destruct n as [|c n]; [done|]. cbn [has_char] in Hs. apply orb_false_iff in Hs as [Hc _]. assert (E : exists rest, join_slash (String c n :: names) = String c rest).
  { destruct names as [|m names]; [by exists n|]. eexists. cbn [join_slash]. change (String c n +:+ ?x) with (String c (n +:+ x)). done. }
  destruct E as [rest ->]. by rewrite Hc.
Qed.

Lemma condense_names names acc : Forall path_name names -> (exists c r, acc = String c r /\ is_slash c = false) ->
  foldl (fun res '(i, s) => (if bool_decide (i <> 0%nat) && bool_decide (res <> "/") then res +:+ "/" else res) +:+ s) acc (imap (fun i s => (S i, s)) names) =
  match names with [] => acc | _ => acc +:+ "/" +:+ join_slash names end.
Proof.
  revert acc. assert (Hgo : forall l f acc, Forall path_name l -> (forall i, f i <> 0%nat) -> (exists c r, acc = String c r /\ is_slash c = false) ->
    foldl (fun res '(i, s) => (if bool_decide (i <> 0%nat) && bool_decide (res <> "/") then res +:+ "/" else res) +:+ s) acc (imap (fun i s => (f i, s)) l) =
    match l with [] => acc | _ => acc +:+ "/" +:+ join_slash l end).
  { induction l as [|n l IH]; intros f acc Hall Hf (c & r & -> & Hc); [done|]. apply Forall_cons in Hall as [_ Hall]. cbn [imap foldl].
    rewrite (bool_decide_true (f 0%nat <> 0%nat)) by apply Hf. rewrite bool_decide_true by (intros [= -> ->]; done). cbn [andb]. rewrite (IH (f ∘ S)).
    - destruct l as [|m l]; cbn [join_slash]; by rewrite !string_append_assoc.
    - done.
    - intros i. apply Hf.
    - change ((String c r +:+ "/") +:+ n) with (String c ((r +:+ "/") +:+ n)). eauto. }
  intros acc Hall Hacc. by apply (Hgo names S).
Qed.

(** Paths are taken apart and put together.  Names that are not empty and have no
    slash, put together to a path, are found again, and condensing what a relative path
    is split into gives the path. *)
Theorem paths_round_trip (names : list string) : Forall (fun n => n <> EmptyString /\ has_char is_slash n = false) names ->
  splitPaths (join_slash names) = names /\ condensePaths (splitPaths (join_slash names)) 0 (length names) = join_slash names.
Proof.
  intros Hall. assert (Hs : splitPaths (join_slash names) = names) by (by apply split_join). split; [done|]. rewrite Hs. unfold condensePaths. rewrite drop_0, Nat.sub_0_r, firstn_all.
  destruct names as [|n names]; [done|]. apply Forall_cons in Hall as [[Hne Hn] Hall]. cbn [imap foldl]. change (EmptyString +:+ n) with n. cbn [bool_decide andb].
  change (imap (pair ∘ S) names) with (imap (fun i s => (S i, s)) names). rewrite condense_names; [|done|].
  - destruct names; [done|reflexivity].
  - destruct n as [|c n]; [done|]. cbn [has_char] in Hn. apply orb_false_iff in Hn as [Hc _]. eauto.
Qed.

(** The example: conventions with one variable, and a file that conforms. *)
Module ValidateSample.
#[local] Instance sample_units : UnitsOps := {|
  unit_valid s := bool_decide (s ∈ ["degrees_north"; "degree"; "K"]);
  unit_convertible a b := eqb (bool_decide (a = "K")) (bool_decide (b = "K"));
  unit_equal a b := bool_decide (a = b)
|}.
Definition no_atts : ListReqOptional := {| lr_required := []; lr_optional := ["units"] |}.
Definition group (names : list string) : GroupParameters :=
  {| grpname := names; gp_atts := no_atts; gp_type := None; gp_forceunits := None; gp_units := None; gp_required := true; regularVariablesAllowed := true;
     requiredvars := None; gp_remove := None |}.
Definition no_defaults : VariableBase := {| dimNames := None; vb_type := Some TOther; canBeMetadata := false; vb_atts := None |}.
Definition latitude : VariableParameters :=
  {| varname := ["latitude"; "lat"]; vp_forceunits := None; vp_remove := false; checkExactUnits := true; vp_attributes := {[ "units" := "degrees_north" ]};
     vp_base := {| dimNames := Some [["Location"]]; vb_type := None; canBeMetadata := true;
                   vb_atts := Some {| al_base := {| lr_required := ["long_name"]; lr_optional := ["units"] |}; requiredNotEnum := [] |} |} |}.
Definition params : IODAvalidateParameters :=
  {| policies := default_policies; attributes := [{| attname := ["units"]; dimensionality := Some 1; dimensions := Some [1] |}];
     groups := [group ["/"]; group ["MetaData"]]; vp_dimensions := [{| dimname := ["Location"; "nlocs"]; dp_required := true |}];
     vardefaults := no_defaults; variables := [latitude] |}.

Definition location := ("Location", {| vv_id := 1; vv_dims := [5]; vv_is_scale := true; vv_axes := []; vv_atts := []; vv_units := None |}).
Definition lat (units : string) := ("MetaData/latitude", {| vv_id := 2; vv_dims := [5]; vv_is_scale := false; vv_axes := [1]; vv_atts := [("units", [1])]; vv_units := Some units |}).
Definition file (units : string) : VFile := {|
  vf_groups := [{| vg_name := "MetaData"; vg_atts := []; vg_vars := ["latitude"] |}; {| vg_name := "/"; vg_atts := []; vg_vars := ["Location"] |}];
  vf_base := {| listVariables := ["Location"; "MetaData/latitude"]; hasGroups := true;
                openVariable n := if bool_decide (n = "Location") then Ok (snd location) else if bool_decide (n = "MetaData/latitude") then Ok (snd (lat units)) else Throw (EException "") |}
|}.

(** The file conforms, although latitude does not have its required attribute;
    with other units it does not. *)
Lemma validator_accepts_iff_witness : conforms params (file "degrees_north") /\ ~ conforms params (file "K").
Proof.
  assert (Hs : strict (policies params)) by (split; by repeat constructor). split.
  - destruct (validator_accepts_iff params (file "degrees_north") "rules.yaml" "file.nc4" Hs) as (code & H1 & H2 & H3 & _); [vm_compute; reflexivity|].
    apply H2. rewrite H3. vm_compute. reflexivity.
  - destruct (validator_accepts_iff params (file "K") "rules.yaml" "file.nc4" Hs) as (code & H1 & H2 & H3 & _); [vm_compute; reflexivity|].
    intros Hc. apply H2 in Hc. rewrite Hc in H3. vm_compute in H3. discriminate H3.
Defined.

Definition many : list Report := replicate 256 (Error, GroupMissing "MetaData").
Lemma exit_status_wraps_witness : exit_status (i32 (return_code false false (many, None))) = 0.
Proof. apply exit_status_wraps; [vm_compute; reflexivity|]. exists 1. vm_compute. reflexivity. Defined.

Lemma paths_round_trip_witness : splitPaths "MetaData/latitude" = ["MetaData"; "latitude"] /\ condensePaths (splitPaths "MetaData/latitude") 0 2 = "MetaData/latitude".
Proof. apply (paths_round_trip ["MetaData"; "latitude"]). repeat constructor; discriminate. Defined.
End ValidateSample.
