(* ===== verification/Copying.v ===== *)
(** Copying a group, and the structure of an output file.

    Models src/src/engines/ioda/src/ioda/Copying.cpp ([copyAttributes],
    [makeVariable], [copyVariableData], [copyGroup]) and what [ioWriteGroup] of
    WriterUtils.cpp makes of a file before the values are collected
    ([createVariable], [identifyVarsUsingLocation], the loops of [ioWriteGroup]).

    A file has attributes, groups with attributes, and variables under their paths.
    The references between variables and scales are the paths of the scales.  The
    fill value of a variable is the one that [Variable::getFillValue] gives: HDF5
    keeps it as a property and as the attribute _FillValue. *)
From stdpp Require Import base list gmap strings.
From Stdlib Require Import ZArith.
From S2P Require Import Prelude VarUtils.
Local Open Scope Z_scope.

(** The types the sources distinguish; int64_t and long are the same. *)
Inductive NumType := TInt | TInt64 | TFloat | TChar | TDouble | TUnsupported.
#[export] Instance NumType_eq_dec : EqDecision NumType.
Proof. solve_decision. Defined.

Section copying.
Context {A : Type} (zero : A).

Inductive AttData := ANumbers (t : NumType) (l : list A) | AStrings (l : list string).
Record FileAttribute := { ca_dims : list Z; ca_data : AttData }.
Notation Attributes := (list (string * FileAttribute)).

(** Elements with a fill value, or strings of variable or fixed length. *)
Inductive VarData := Numbers (t : NumType) (fill : option A) (l : list A) | Strings (len : option nat) (fill : option string) (l : list string).
Record SVariable := {
  sv_path : string;
  sv_dims : list Z;
  sv_max : list Z;
  sv_chunks : list Z;
  sv_compressed : bool;
  sv_data : VarData;
  sv_scale : option string;
  sv_axes : list (list string);
  sv_atts : Attributes
}.
#[export] Instance sv_backend : VariableBackend SVariable := {|
  getDimensions := sv_dims;
  isDimensionScale v := bool_decide (is_Some (sv_scale v));
  isDimensionScaleAttached v i s := bool_decide (sv_path s ∈ default [] (sv_axes v !! i))
|}.
Record SFile := { sf_atts : Attributes; sf_groups : gmap string Attributes; sf_vars : gmap string SVariable }.
Definition empty_file : SFile := {| sf_atts := []; sf_groups := ∅; sf_vars := ∅ |}.
Definition open_var (f : SFile) (name : string) : res SVariable := match sf_vars f !! name with Some v => Ok v | None => Throw (EException "open") end.
Definition file_group (f : SFile) : FileGroup SVariable := {|
  listVariables := map fst (map_to_list (sf_vars f));
  openVariable := open_var f;
  hasGroups := bool_decide (sf_groups f <> ∅)
|}.

(** * Attributes *)

Definition ignored_atts : list string :=
  ["CLASS"; "DIMENSION_LIST"; "NAME"; "REFERENCE_LIST"; "_FillValue"; "_NCProperties"; "_Netcdf4Coordinates"; "_Netcdf4Dimid"; "_nc3_strict"; "_orig_fill_value"; "suggested_chunk_dim"].
Definition att_exists (name : string) (l : Attributes) : bool := bool_decide (name ∈ map fst l).
Definition find_att (name : string) (l : Attributes) : option FileAttribute := snd <$> List.find (fun p => bool_decide (fst p = name)) l.
(** The types that have a [transferAttribute]. *)
Definition att_supported (a : FileAttribute) : bool := match ca_data a with ANumbers TUnsupported _ => false | _ => true end.
Definition transferAttribute (name : string) (a : FileAttribute) (dest : Attributes) : Attributes := dest ++ [(name, {| ca_dims := ca_dims a; ca_data := ca_data a |})].
Definition copyAttributes (src dest : Attributes) : res Attributes :=
  foldM (fun dest s =>
    if bool_decide (fst s ∈ ignored_atts) then Ok dest
    else if att_exists (fst s) dest then Ok dest
    else if att_supported (snd s) then Ok (transferAttribute (fst s) (snd s) dest)
    else Throw (EException "Attribute is not of any supported type")) dest src.

(** * Variables *)

(** [forAnySupportedVariableType] *)
Definition var_supported (v : SVariable) : bool := match sv_data v with Numbers (TInt | TInt64 | TFloat | TChar) _ _ | Strings _ _ _ => true | _ => false end.
Definition with_type {B} (v : SVariable) (action : res B) : res B := if var_supported v then action else Throw (EException "Variable is not of any supported type").

Definition num_elements (dims : list Z) : nat := Z.to_nat (foldr Z.mul 1 dims).
(** [Has_Variables::create]: a variable with its fill value everywhere and nothing
    attached. *)
Definition blank (dims : list Z) (d : VarData) : VarData :=
  match d with
  | Numbers t fill _ => Numbers t fill (replicate (num_elements dims) (default zero fill))
  | Strings len fill _ => Strings len fill (replicate (num_elements dims) (default EmptyString fill))
  end.
Definition create_file_var (name : string) (dims max chunks : list Z) (compressed : bool) (d : VarData) (f : SFile) : res SFile :=
  match sf_vars f !! name with
  | Some _ => Throw (EException "create")
  | None => Ok {| sf_atts := sf_atts f; sf_groups := sf_groups f;
      sf_vars := <[name := {| sv_path := name; sv_dims := dims; sv_max := max; sv_chunks := chunks; sv_compressed := compressed; sv_data := blank dims d;
                              sv_scale := None; sv_axes := map (fun _ => []) dims; sv_atts := [] |}]> (sf_vars f) |}
  end.
(** A change to a variable of the file. *)
Definition update_var (name : string) (g : SVariable -> res SVariable) (f : SFile) : res SFile :=
  v ← open_var f name;
  v' ← g v;
  Ok {| sf_atts := sf_atts f; sf_groups := sf_groups f; sf_vars := <[name := v']> (sf_vars f) |}.
Definition set_atts (v : SVariable) (atts : Attributes) : SVariable :=
  {| sv_path := sv_path v; sv_dims := sv_dims v; sv_max := sv_max v; sv_chunks := sv_chunks v; sv_compressed := sv_compressed v; sv_data := sv_data v;
     sv_scale := sv_scale v; sv_axes := sv_axes v; sv_atts := atts |}.
Definition set_data (v : SVariable) (d : VarData) : SVariable :=
  {| sv_path := sv_path v; sv_dims := sv_dims v; sv_max := sv_max v; sv_chunks := sv_chunks v; sv_compressed := sv_compressed v; sv_data := d;
     sv_scale := sv_scale v; sv_axes := sv_axes v; sv_atts := sv_atts v |}.
Definition set_scale (v : SVariable) (s : option string) (axes : list (list string)) : SVariable :=
  {| sv_path := sv_path v; sv_dims := sv_dims v; sv_max := sv_max v; sv_chunks := sv_chunks v; sv_compressed := sv_compressed v; sv_data := sv_data v;
     sv_scale := s; sv_axes := axes; sv_atts := sv_atts v |}.
Definition copy_var_atts (src : Attributes) (v : SVariable) : res SVariable := atts ← copyAttributes src (sv_atts v); Ok (set_atts v atts).

(** The fill value of the new variable: for strings the one that was put aside in
    an attribute, if it was. *)
Definition made_data (src : SVariable) : res VarData :=
  match sv_data src with
  | Numbers t fill l => Ok (Numbers t fill l)
  | Strings len fill l => match find_att "_orig_fill_value" (sv_atts src) with
      | None => Ok (Strings None fill l)
      | Some a => match ca_data a with AStrings (s :: _) => Ok (Strings None (Some s) l) | _ => Throw (EException "read") end
      end
  end.
Definition makeVariable (varName : string) (srcVar : SVariable) (f : SFile) : res SFile :=
  d ← made_data srcVar;
  f ← create_file_var varName (sv_dims srcVar) (sv_max srcVar) (sv_chunks srcVar) (sv_compressed srcVar) d f;
  update_var varName (copy_var_atts (sv_atts srcVar)) f.
(** All elements are read and written. *)
Definition written (src : VarData) (dest : VarData) : VarData :=
  match src, dest with
  | Numbers _ _ l, Numbers t fill _ => Numbers t fill l
  | Strings _ _ l, Strings len fill _ => Strings len fill l
  | _, _ => dest
  end.
Definition copyVariableData (varName : string) (srcVar : SVariable) (f : SFile) : res SFile :=
  update_var varName (fun v => Ok (set_data v (written (sv_data srcVar) (sv_data v)))) f.
Definition createAndCopyVariable (varName : string) (srcVar : SVariable) (f : SFile) : res SFile :=
  f ← with_type srcVar (makeVariable varName srcVar f);
  with_type srcVar (copyVariableData varName srcVar f).

Definition mark_scale (name : string) (srcVar : SVariable) (f : SFile) : res SFile :=
  update_var name (fun v => Ok (set_scale v (Some (default EmptyString (sv_scale srcVar))) (sv_axes v))) f.
(** The attachment of scales to one variable, all of which have to exist. *)
Definition attach_scales (name : string) (ds : list (string * SVariable)) (f : SFile) : res SFile :=
  _ ← mapR (fun d => open_var f (fst d)) ds;
  update_var name (fun v => Ok (set_scale v (sv_scale v) (map (fun d => [fst d]) ds))) f.

(** * Groups *)

Definition create_group (name : string) (src : Attributes) (f : SFile) : res SFile :=
  match sf_groups f !! name with
  | Some _ => Throw (EException "create")
  | None => atts ← copyAttributes src [];
      Ok {| sf_atts := sf_atts f; sf_groups := <[name := atts]> (sf_groups f); sf_vars := sf_vars f |}
  end.
(** The attributes of the top group and the groups below it. *)
Definition copy_groups (src dest : SFile) : res SFile :=
  atts ← copyAttributes (sf_atts src) (sf_atts dest);
  foldM (fun f g => create_group (fst g) (snd g) f) {| sf_atts := atts; sf_groups := sf_groups dest; sf_vars := sf_vars dest |} (map_to_list (sf_groups src)).
Definition attach_all (info : VarDimInfo SVariable) (f : SFile) : res SFile :=
  foldM (fun f a => attach_scales (fst a) (snd a) f) f (map_to_list (dimsAttachedToVars info)).

Definition copyGroup (src dest : SFile) : res SFile :=
  f ← copy_groups src dest;
  info ← collectVarDimInfo (file_group src);
  f ← foldM (fun f v => f ← createAndCopyVariable (fst v) (snd v) f; mark_scale (fst v) (snd v) f) f (dimVarList info);
  f ← foldM (fun f v => createAndCopyVariable (fst v) (snd v) f) f (varList info);
  attach_all info f.

(** * The structure of an output file *)

Definition string_attribute (s : string) : FileAttribute := {| ca_dims := [1]; ca_data := AStrings [s] |}.
Definition adjusted (adjustNlocs : Z) (dims : list Z) : res (list Z) := if 0 <=? adjustNlocs then vec_set dims 0 adjustNlocs else Ok dims.
Definition adjusted_max (adjustNlocs : Z) (max : list Z) : res (list Z) :=
  if 0 <=? adjustNlocs then (m ← vec_get max 0; if m =? -1 then Ok max else vec_set max 0 adjustNlocs) else Ok max.
(** [createVariable] and its specialization for strings, which puts the fill value
    aside. *)
Definition createVariable (varName : string) (srcVar : SVariable) (adjustNlocs : Z) (strLen : nat) (f : SFile) : res SFile :=
  dims ← adjusted adjustNlocs (sv_dims srcVar);
  max ← adjusted_max adjustNlocs (sv_max srcVar);
  match sv_data srcVar with
  | Numbers t fill l =>
      f ← create_file_var varName dims max (sv_chunks srcVar) false (Numbers t fill l) f;
      update_var varName (copy_var_atts (sv_atts srcVar)) f
  | Strings _ fill l =>
      f ← create_file_var varName dims max (sv_chunks srcVar) false (Strings (Some strLen) None l) f;
      f ← update_var varName (copy_var_atts (sv_atts srcVar)) f;
      update_var varName (fun v => Ok (set_atts v (sv_atts v ++ [("_orig_fill_value", string_attribute (default EmptyString fill))]))) f
  end.

(** A variable without dimensions has no first scale to look at. *)
Definition uses_location (a : string * list (string * SVariable)) : res bool := d ← vec_get (snd a) 0; Ok (bool_decide (fst d = "Location")).
Definition identifyVarsUsingLocation (varDimMap : gmap string (list (string * SVariable))) : res (gset string) :=
  foldM (fun s a => b ← uses_location a; Ok (if b : bool then {[fst a]} ∪ s else s)) {["Location"]} (map_to_list varDimMap).

(** The loops of [ioWriteGroup] that a rank of the pool runs: the groups, the
    variables with the number of locations of the pool, the scales, and their
    attachment. *)
Definition create_variables (poolNlocs : Z) (maxStringLengths : gmap string nat) (varsUsingLocation : gset string) (allVarsList : list (string * SVariable)) (f : SFile) : res SFile :=
  foldM (fun f v =>
    let adjustNlocs := if bool_decide (fst v ∈ varsUsingLocation) then poolNlocs else -1 in
    with_type (snd v) (createVariable (fst v) (snd v) adjustNlocs (default 0%nat (maxStringLengths !! fst v)) f)) f allVarsList.
Definition ioWriteGroup_structure (poolNlocs : Z) (maxStringLengths : gmap string nat) (memGroup fileGroup : SFile) : res SFile :=
  info ← collectVarDimInfo (file_group memGroup);
  varsUsingLocation ← identifyVarsUsingLocation (dimsAttachedToVars info);
  f ← copy_groups memGroup fileGroup;
  f ← create_variables poolNlocs maxStringLengths varsUsingLocation (varList info ++ dimVarList info) f;
  f ← foldM (fun f d => mark_scale (fst d) (snd d) f) f (dimVarList info);
  attach_all info f.
End copying.
Arguments AttData A : clear implicits.
Arguments FileAttribute A : clear implicits.
Arguments VarData A : clear implicits.
Arguments SVariable A : clear implicits.
Arguments SFile A : clear implicits.
