(* ===== verification/CopyingSpec.v ===== *)
(** What a copy of a file keeps, and what is in the file that is saved: its
    structure as [ioWriteGroup] makes it, filled with the collected values, and
    copied in the second pass. *)
From stdpp Require Import base list gmap strings.
From Stdlib Require Import ZArith.
From S2P Require Import Prelude VarUtils VarUtilsSpec Copying.
Local Open Scope Z_scope.

(** * Attributes *)

Section atts.
Context {A : Type}.
Notation Attributes := (list (string * FileAttribute A)).
Implicit Types (l src dest : Attributes).

Definition kept_atts l : Attributes := filter (fun p => fst p ∉ ignored_atts) l.
Record atts_ok l : Prop := { ao_nodup : NoDup (map fst l); ao_supported : Forall (fun p => att_supported (snd p) = true) l }.

Lemma kept_atts_incl l : map fst (kept_atts l) ⊆ map fst l.
Proof. intros n (p & -> & Hp)%list_elem_of_fmap. apply list_elem_of_filter in Hp as [_ Hp]. apply list_elem_of_fmap. eauto. Qed.
Lemma copyAttributes_kept src : forall dest, atts_ok src -> (forall n, n ∈ map fst src -> n ∉ map fst dest) -> copyAttributes src dest = Ok (dest ++ kept_atts src).
Proof.
  unfold copyAttributes. induction src as [|[n a] src IH]; intros dest [Hnd Hs] Hd; [by rewrite app_nil_r|]. cbn [foldM fst snd map] in *. apply NoDup_cons in Hnd as [Hn Hnd]. apply Forall_cons in Hs as [Ha Hs].
  unfold kept_atts. rewrite filter_cons. cbn [fst]. destruct (bool_decide_reflect (n ∈ ignored_atts)) as [Hi|Hi]; cbn [mbind res_bind].
  - rewrite decide_False by (intros H; by apply H). apply IH; [done|]. intros k Hk. apply Hd. by right.
  - unfold att_exists. rewrite bool_decide_eq_false_2 by (apply Hd; left). cbn [snd] in Ha. rewrite Ha. cbn [mbind res_bind]. rewrite decide_True by done. destruct a as [dims data]. unfold transferAttribute. cbn [ca_dims ca_data].
    rewrite IH; [by rewrite <-app_assoc|done|]. intros k Hk. rewrite map_app, not_elem_of_app. split; [apply Hd; by right|]. cbn. intros ->%list_elem_of_singleton. done.
Qed.
Lemma kept_ok l : atts_ok l -> atts_ok (kept_atts l).
Proof.
  intros [Hn Hs]. split.
  - clear Hs. induction l as [|p l IH]; [done|]. cbn [map] in Hn. apply NoDup_cons in Hn as [Hp Hn]. unfold kept_atts. rewrite filter_cons. case_decide; [|by apply IH]. cbn [map]. apply NoDup_cons. split; [|by apply IH]. intros H'%kept_atts_incl. done.
  - rewrite Forall_forall in *. intros p Hp. apply list_elem_of_filter in Hp as [_ Hp]. by apply Hs.
Qed.
Lemma kept_twice l : kept_atts (kept_atts l) = kept_atts l.
Proof. unfold kept_atts. apply filter_every. intros p Hp. by apply list_elem_of_filter in Hp as [Hp _]. Qed.
Lemma kept_not_ignored l n : n ∈ ignored_atts -> n ∉ map fst (kept_atts l).
Proof. intros Hn (p & -> & Hp)%list_elem_of_fmap. by apply list_elem_of_filter in Hp as [Hp _]. Qed.
Lemma orig_fill_ignored : "_orig_fill_value" ∈ ignored_atts.
Proof. apply (bool_decide_unpack _). vm_compute. exact I. Qed.
Lemma find_att_none n l : n ∉ map fst l -> find_att n l = None.
Proof.
  unfold find_att. intros Hn. destruct (List.find _ l) as [p|] eqn:E; [exfalso|done]. apply find_some in E as [Hp E]. apply bool_decide_eq_true in E. apply Hn. apply list_elem_of_fmap. exists p. split; [done|]. by apply list_elem_of_In.
Qed.
End atts.

(** * Files *)

Section files.
Context {A : Type} (zero : A).
Notation Named_Variable := (string * SVariable A)%type.
Implicit Types (f : SFile A) (v : SVariable A) (k : string).

(** A file whose scales look like scales, whose variables have one scale of the file
    along each dimension, and whose types and attributes can be copied. *)
Record file_ok f : Prop := {
  fo_path k v : sf_vars f !! k = Some v -> sv_path v = k;
  fo_type k v : sf_vars f !! k = Some v -> var_supported v = true;
  fo_made k v : sf_vars f !! k = Some v -> exists d, made_data v = Ok d;
  fo_atts k v : sf_vars f !! k = Some v -> atts_ok (sv_atts v);
  fo_scale k v : sf_vars f !! k = Some v -> is_Some (sv_scale v) -> length (sv_dims v) = 1%nat /\ isPossiblyScale k = true /\ sv_axes v = [[]];
  fo_var k v : sf_vars f !! k = Some v -> sv_scale v = None -> (sf_groups f <> ∅ -> isPossiblyScale k = false) /\
    exists ss, sv_axes v = map (fun s => [s]) ss /\ length ss = length (sv_dims v) /\ forall s, s ∈ ss -> exists w, sf_vars f !! s = Some w /\ is_Some (sv_scale w);
  fo_file_atts : atts_ok (sf_atts f);
  fo_group_atts g l : sf_groups f !! g = Some l -> atts_ok l
}.
Definition all_vars f : list Named_Variable := map_to_list (sf_vars f).
Lemma in_all_vars f p : p ∈ all_vars f <-> sf_vars f !! fst p = Some (snd p).
Proof. destruct p. apply elem_of_map_to_list. Qed.

Lemma scale_iff v : isDimensionScale v = true <-> is_Some (sv_scale v).
Proof. apply bool_decide_eq_true. Qed.
Lemma not_scale_iff v : isDimensionScale v = false <-> sv_scale v = None.
Proof. cbn. rewrite bool_decide_eq_false. by rewrite eq_None_not_Some. Qed.

Lemma file_group_ok f : file_ok f -> group_ok (file_group f) (all_vars f).
Proof.
  intros H. split.
  - done.
  - apply NoDup_fst_map_to_list.
  - intros p Hp%in_all_vars. cbn. unfold open_var. by rewrite Hp.
  - intros p Hp%in_all_vars Hs%scale_iff. destruct (fo_scale f H _ _ Hp Hs) as (? & ? & _). done.
  - intros p Hp%in_all_vars Hs%not_scale_iff Hg. cbn in Hg. apply bool_decide_eq_true in Hg. by apply (fo_var f H _ _ Hp Hs).
  - intros p i Hp%in_all_vars Hs%not_scale_iff Hi. destruct (fo_var f H _ _ Hp Hs) as (_ & ss & Ea & El & Hss). cbn in Hi. rewrite <-El in Hi. destruct (lookup_lt_is_Some_2 ss i Hi) as [s Es].
    destruct (Hss s) as (w & Hw & Hws); [by apply list_elem_of_lookup_2 in Es|]. exists (s, w). split_and!; [by apply in_all_vars|by apply scale_iff|].
    intros t Ht%in_all_vars Hts. cbn. rewrite Ea. rewrite list_lookup_fmap, Es. cbn. rewrite bool_decide_eq_true, list_elem_of_singleton, (fo_path f H _ _ Ht). split; [|by intros ->].
    intros Et. destruct t as [tn tv]. cbn in *. subst tn. congruence.
Qed.

(** What one pass finds in such a file. *)
Lemma file_collected f : file_ok f -> exists info, collectVarDimInfo (file_group f) = Ok info /\
  dimVarList info ≡ₚ scales_of (all_vars f) /\ varList info ≡ₚ variables_of (all_vars f) /\
  (forall k ds, dimsAttachedToVars info !! k = Some ds -> exists v, sf_vars f !! k = Some v /\ sv_scale v = None /\ map (fun d => [fst d]) ds = sv_axes v /\ forall d, d ∈ ds -> sf_vars f !! fst d = Some (snd d)) /\
  (forall k v, sf_vars f !! k = Some v -> sv_scale v = None -> is_Some (dimsAttachedToVars info !! k)).
Proof.
  intros H. destruct (collected_ok _ _ (file_group_ok f H)) as (info & E & Hd & Hv & _ & Hin & Hout). exists info. split_and!; [done..| |].
  - intros k ds Hk. destruct (decide (k ∈ map fst (variables_of (all_vars f)))) as [Hm|Hm]; [|by rewrite (Hout k Hm) in Hk].
    apply list_elem_of_fmap in Hm as ([k' v] & -> & Hp). destruct (Hin _ Hp) as (ds' & E' & Hl & Hds). cbn [fst snd] in *. rewrite Hk in E'. simplify_eq E'. intros <-.
    apply list_elem_of_filter in Hp as [Hs%not_scale_iff Hp%in_all_vars]. cbn [fst snd] in *. exists v. split_and!; [done..| |].
    + destruct (fo_var f H _ _ Hp Hs) as (_ & ss & Ea & El & _). rewrite Ea. apply list_eq. intros i. rewrite !list_lookup_fmap. destruct (ds !! i) as [t|] eqn:Et.
      * destruct (Hds i t Et) as [Ht Hat]. apply list_elem_of_filter in Ht as [_ Ht%in_all_vars]. cbn in Hat. apply bool_decide_eq_true in Hat. rewrite Ea, (fo_path f H _ _ Ht) in Hat.
        rewrite list_lookup_fmap in Hat. destruct (ss !! i) as [s|] eqn:Es; cbn in Hat; [|by apply elem_of_nil in Hat]. apply list_elem_of_singleton in Hat. cbn. by rewrite Hat.
      * apply lookup_ge_None in Et. cbn in Hl. rewrite Hl in Et. rewrite (lookup_ge_None_2 ss i) by lia. done.
    + intros d [i Hi]%list_elem_of_lookup. destruct (Hds i d Hi) as [Ht _]. apply list_elem_of_filter in Ht as [_ Ht]. by apply in_all_vars.
  - intros k v Hk Hs. destruct (Hin (k, v)) as (ds & E' & _); [|by exists ds]. apply list_elem_of_filter. split; [by apply not_scale_iff|]. by apply in_all_vars.
Qed.

(** ** Steps that each set one variable *)

Definition put k v f : SFile A := {| sf_atts := sf_atts f; sf_groups := sf_groups f; sf_vars := <[k := v]> (sf_vars f) |}.
Definition same_rest f f' : Prop := sf_atts f' = sf_atts f /\ sf_groups f' = sf_groups f.
Definition extends f f' : Prop := forall k, is_Some (sf_vars f !! k) -> is_Some (sf_vars f' !! k).
Lemma foldM_file_vars {B} (step : SFile A -> string * B -> res (SFile A)) (g : string * B -> SVariable A) f0 l : NoDup (map fst l) ->
  (forall p f, p ∈ l -> sf_vars f !! fst p = sf_vars f0 !! fst p -> extends f0 f -> step f p = Ok (put (fst p) (g p) f)) ->
  exists f', foldM step f0 l = Ok f' /\ same_rest f0 f' /\ (forall p, p ∈ l -> sf_vars f' !! fst p = Some (g p)) /\ (forall k, k ∉ map fst l -> sf_vars f' !! k = sf_vars f0 !! k).
Proof.
  intros Hnd Hstep. assert (Hgo : forall todo f, (forall p, p ∈ todo -> p ∈ l) -> NoDup (map fst todo) -> (forall k, k ∈ map fst todo -> sf_vars f !! k = sf_vars f0 !! k) -> extends f0 f ->
    exists f', foldM step f todo = Ok f' /\ same_rest f f' /\ (forall p, p ∈ todo -> sf_vars f' !! fst p = Some (g p)) /\ (forall k, k ∉ map fst todo -> sf_vars f' !! k = sf_vars f !! k)).
  { clear Hnd. induction todo as [|p todo IH]; intros f Hin Hnd Hcur Hext.
    - exists f. split_and!; [done..| |done]. intros p Hp%elem_of_nil. done.
    - cbn [map] in Hnd. apply NoDup_cons in Hnd as [Hp Hnd]. cbn [foldM]. rewrite Hstep; [|apply Hin; left|apply Hcur; left|done]. cbn [mbind res_bind].
      destruct (IH (put (fst p) (g p) f)) as (f' & E & [R1 R2] & H1 & H2).
      + intros q Hq. apply Hin. by right.
      + done.
      + intros k Hk. cbn. rewrite lookup_insert_ne by (intros <-; done). apply Hcur. by right.
      + intros k Hk. cbn. destruct (decide (fst p = k)) as [<-|]; [by rewrite lookup_insert_eq|]. rewrite lookup_insert_ne by done. by apply Hext.
      + exists f'. split_and!; [done|by split| |].
        * intros q [->|Hq]%elem_of_cons; [|by apply H1]. rewrite H2 by done. cbn. by rewrite lookup_insert_eq.
        * intros k Hk. cbn [map] in Hk. apply not_elem_of_cons in Hk as [Hk1 Hk2]. rewrite H2 by done. cbn. by rewrite lookup_insert_ne. }
  apply Hgo; [done|done|done|]. by intros k.
Qed.

Lemma update_put k f v v' (g : SVariable A -> res (SVariable A)) : sf_vars f !! k = Some v -> g v = Ok v' -> update_var k g f = Ok (put k v' f).
Proof. intros Hk Hg. unfold update_var, open_var. rewrite Hk. cbn [mbind res_bind]. by rewrite Hg. Qed.
Lemma put_twice k v v' f : put k v' (put k v f) = put k v' f.
Proof. unfold put. cbn. by rewrite insert_insert_eq. Qed.
Lemma put_file_lookup k v f : sf_vars (put k v f) !! k = Some v.
Proof. cbn. apply lookup_insert_eq. Qed.

Definition new_var k (dims max chunks : list Z) (compressed : bool) (d : VarData A) (atts : list (string * FileAttribute A)) : SVariable A :=
  {| sv_path := k; sv_dims := dims; sv_max := max; sv_chunks := chunks; sv_compressed := compressed; sv_data := d; sv_scale := None; sv_axes := map (fun _ => []) dims; sv_atts := atts |}.
Lemma create_put k dims max chunks compressed d f : sf_vars f !! k = None -> create_file_var zero k dims max chunks compressed d f = Ok (put k (new_var k dims max chunks compressed (blank zero dims d) []) f).
Proof. intros Hk. unfold create_file_var. by rewrite Hk. Qed.

(** ** The copy of one variable *)

Definition copied_data v : VarData A := match made_data v with Ok d => d | Throw _ => sv_data v end.
Lemma create_and_copy_put k v f : var_supported v = true -> (exists d, made_data v = Ok d) -> atts_ok (sv_atts v) -> sf_vars f !! k = None ->
  createAndCopyVariable zero k v f = Ok (put k (new_var k (sv_dims v) (sv_max v) (sv_chunks v) (sv_compressed v) (copied_data v) (kept_atts (sv_atts v))) f).
Proof.
  intros Ht [d Hd] Ha Hk. unfold createAndCopyVariable, with_type. rewrite Ht. unfold makeVariable. rewrite Hd. cbn [mbind res_bind]. rewrite create_put by done. cbn [mbind res_bind].
  rewrite (update_put k _ _ _ _ (put_file_lookup k _ f)) by (unfold copy_var_atts; rewrite copyAttributes_kept; [done|done|by intros n _ ?%elem_of_nil]). cbn [mbind res_bind]. unfold copyVariableData.
  rewrite put_twice. rewrite (update_put k _ _ _ _ (put_file_lookup k _ f)) by done. rewrite put_twice. do 2 f_equal. unfold new_var, set_data, set_atts. cbn. f_equal.
  unfold copied_data. rewrite Hd. unfold made_data in Hd. destruct (sv_data v) as [t fill l|len fill l]; simplify_eq; [done|]. repeat case_match; by simplify_eq.
Qed.

(** ** Groups *)

Lemma foldM_groups l : forall f, NoDup (map fst l) -> (forall g a, (g, a) ∈ l -> atts_ok a /\ sf_groups f !! g = None) ->
  foldM (fun f g => create_group (fst g) (snd g) f) f l = Ok {| sf_atts := sf_atts f; sf_groups := list_to_map (map (fun p => (fst p, kept_atts (snd p))) l) ∪ sf_groups f; sf_vars := sf_vars f |}.
Proof.
  induction l as [|[g a] l IH]; intros f Hnd Hl; cbn [foldM map list_to_map foldr fst snd].
  - cbn. rewrite (left_id_L ∅ (∪)). by destruct f.
  - cbn [map] in Hnd. apply NoDup_cons in Hnd as [Hg Hnd]. destruct (Hl g a) as [Ha Hn]; [left|]. 
    assert (create_group g a f = Ok {| sf_atts := sf_atts f; sf_groups := <[g := kept_atts a]> (sf_groups f); sf_vars := sf_vars f |}) as ->.
    { unfold create_group. rewrite Hn, copyAttributes_kept; [done|done|by intros n _ ?%elem_of_nil]. }
    cbn [mbind res_bind]. rewrite IH; [|done|].
    + cbn [sf_atts sf_groups sf_vars]. do 2 f_equal. cbn. rewrite <-insert_union_l, insert_union_r; [done|]. apply not_elem_of_list_to_map_1. cbn. rewrite <-list_fmap_compose. exact Hg.
    + intros g' a' Hin. destruct (Hl g' a') as [Ha' Hn']; [by right|]. split; [done|]. cbn. rewrite lookup_insert_ne; [done|]. intros ->. apply Hg. apply list_elem_of_fmap. by exists (g', a').
Qed.
Lemma copy_groups_ok f : file_ok f -> copy_groups f empty_file = Ok {| sf_atts := kept_atts (sf_atts f); sf_groups := kept_atts <$> sf_groups f; sf_vars := ∅ |}.
Proof.
  intros H. unfold copy_groups. rewrite copyAttributes_kept; [|apply (fo_file_atts f H)|by intros n _ ?%elem_of_nil]. cbn [mbind res_bind app empty_file sf_atts sf_groups sf_vars]. rewrite foldM_groups.
  - cbn. do 2 f_equal. rewrite (right_id_L ∅ (∪)). rewrite <-(list_to_map_to_list (sf_groups f)) at 2. by rewrite <-list_to_map_fmap.
  - apply NoDup_fst_map_to_list.
  - intros g a Hg%elem_of_map_to_list. split; [by apply (fo_group_atts f H g)|]. cbn. apply lookup_empty.
Qed.

(** ** Scales are attached as in the source *)

Definition attached_info f (info : VarDimInfo (SVariable A)) : Prop :=
  (forall k ds, dimsAttachedToVars info !! k = Some ds -> exists v, sf_vars f !! k = Some v /\ sv_scale v = None /\ map (fun d => [fst d]) ds = sv_axes v /\ forall d, d ∈ ds -> sf_vars f !! fst d = Some (snd d)) /\
  (forall k v, sf_vars f !! k = Some v -> sv_scale v = None -> is_Some (dimsAttachedToVars info !! k)).
Lemma attach_all_ok f info h : attached_info f info -> (forall k, is_Some (sf_vars f !! k) -> is_Some (sf_vars h !! k)) ->
  exists h', attach_all info h = Ok h' /\ same_rest h h' /\
    (forall k v w, sf_vars f !! k = Some v -> sv_scale v = None -> sf_vars h !! k = Some w -> sf_vars h' !! k = Some (set_scale w (sv_scale w) (sv_axes v))) /\
    (forall k, (forall v, sf_vars f !! k = Some v -> is_Some (sv_scale v)) -> sf_vars h' !! k = sf_vars h !! k).
Proof.
  intros [Hi Hd] Hh. set (nothing := new_var "" [] [] [] false (Strings None None []) []).
  set (g := fun a : string * list Named_Variable => let w := default nothing (sf_vars h !! fst a) in set_scale w (sv_scale w) (map (fun d => [fst d]) (snd a))).
  destruct (foldM_file_vars (fun f a => attach_scales (fst a) (snd a) f) g h (map_to_list (dimsAttachedToVars info))) as (h' & E & Hr & H1 & H2).
  - apply NoDup_fst_map_to_list.
  - intros [k ds] f' Hk%elem_of_map_to_list Ecur Hext. cbn [fst snd] in *. destruct (Hi k ds Hk) as (v & Hv & _ & _ & Hds). destruct (Hh k) as [w Hw]; [by exists v|].
    unfold attach_scales. rewrite (mapR_Ok _ (fun d => default nothing (sf_vars f' !! fst d))).
    + cbn [mbind res_bind]. apply (update_put k f' w); [congruence|]. unfold g. cbn [fst snd]. by rewrite Hw.
    + intros d Hd'. unfold open_var. destruct (Hext (fst d)) as [w' Hw']; [apply Hh; exists (snd d); by apply Hds|]. by rewrite Hw'.
  - exists h'. split_and!; [done|done| |].
    + intros k v w Hv Hs Hw. destruct (Hd k v Hv Hs) as [ds Hds]. specialize (H1 (k, ds)). cbn [fst snd] in H1. rewrite H1 by (by apply elem_of_map_to_list). unfold g. cbn [fst snd]. rewrite Hw. cbn [default].
      destruct (Hi k ds Hds) as (v' & Hv' & _ & Ea & _). rewrite Hv in Hv'. simplify_eq Hv'. intros <-. by rewrite Ea.
    + intros k Hk. apply H2. intros ([k' ds] & -> & Hds%elem_of_map_to_list)%list_elem_of_fmap. destruct (Hi k' ds Hds) as (v & Hv & Hs & _). cbn in Hk. destruct (Hk v Hv) as [? Hs']. congruence.
Qed.

(** ... so a file in which all but the attachments is done becomes complete. *)
Lemma attach_result f info h (g : string -> SVariable A -> SVariable A) : attached_info f info -> (forall k v, sv_scale (g k v) = sv_scale v /\ sv_axes (g k v) = sv_axes v) ->
  (forall k v, sf_vars f !! k = Some v -> is_Some (sv_scale v) -> sf_vars h !! k = Some (g k v)) ->
  (forall k v, sf_vars f !! k = Some v -> sv_scale v = None -> exists axes, sf_vars h !! k = Some (set_scale (g k v) None axes)) ->
  (forall k, sf_vars f !! k = None -> sf_vars h !! k = None) ->
  attach_all info h = Ok {| sf_atts := sf_atts h; sf_groups := sf_groups h; sf_vars := map_imap (fun k v => Some (g k v)) (sf_vars f) |}.
Proof.
  intros Hi Hg Hscale Hvar Hnone. destruct (attach_all_ok f info h Hi) as (h' & E & [R R'] & S & O).
  { intros k [v Hv]. destruct (sv_scale v) as [sc|] eqn:Es; [rewrite (Hscale k v Hv) by eauto; eauto|]. destruct (Hvar k v Hv Es) as [axes ->]. eauto. }
  rewrite E. f_equal. assert (Hvars : sf_vars h' = map_imap (fun k v => Some (g k v)) (sf_vars f)).
  { apply map_eq. intros k. rewrite map_lookup_imap. destruct (sf_vars f !! k) as [v|] eqn:Hv; cbn.
    - destruct (sv_scale v) as [sc|] eqn:Es.
      + rewrite O by (intros v' Hv'; rewrite Hv in Hv'; simplify_eq Hv'; intros <-; eauto). by apply Hscale; eauto.
      + destruct (Hvar k v Hv Es) as [axes Hw]. rewrite (S k v _ Hv Es Hw). f_equal. destruct (Hg k v) as [Eg Ea]. rewrite <-Ea. rewrite Es in Eg. destruct (g k v). cbn in *. by subst.
    - rewrite O by (intros v' Hv'; congruence). by apply Hnone. }
  destruct h'. cbn in *. congruence.
Qed.

(** ** The copy of a file *)

Definition restored v : SVariable A :=
  {| sv_path := sv_path v; sv_dims := sv_dims v; sv_max := sv_max v; sv_chunks := sv_chunks v; sv_compressed := sv_compressed v; sv_data := copied_data v;
     sv_scale := sv_scale v; sv_axes := sv_axes v; sv_atts := kept_atts (sv_atts v) |}.
Definition restored_file f : SFile A := {| sf_atts := kept_atts (sf_atts f); sf_groups := kept_atts <$> sf_groups f; sf_vars := restored <$> sf_vars f |}.
Lemma NoDup_part f (P : Named_Variable -> Prop) `{!forall x, Decision (P x)} l : l ≡ₚ filter P (all_vars f) -> NoDup (map fst l).
Proof.
  intros ->. pose proof (NoDup_fst_map_to_list (sf_vars f)) as Hnd. fold (all_vars f) in Hnd. change (list_fmap _ _ fst (all_vars f)) with (map fst (all_vars f)) in Hnd. revert Hnd. generalize (all_vars f). clear.
  induction l as [|p l IH]; [done|]. cbn [map]. intros [Hp Hl]%NoDup_cons. rewrite filter_cons. case_decide; [|by apply IH]. cbn [map]. apply NoDup_cons. split; [|by apply IH].
  intros (q & E & Hq)%list_elem_of_fmap. apply list_elem_of_filter in Hq as [_ Hq]. apply Hp. rewrite E. apply list_elem_of_fmap. eauto.
Qed.
Lemma in_scales f p l : l ≡ₚ scales_of (all_vars f) -> p ∈ l <-> sf_vars f !! fst p = Some (snd p) /\ is_Some (sv_scale (snd p)).
Proof. intros ->. unfold scales_of. rewrite list_elem_of_filter, in_all_vars, scale_iff. naive_solver. Qed.
Lemma in_variables f p l : l ≡ₚ variables_of (all_vars f) -> p ∈ l <-> sf_vars f !! fst p = Some (snd p) /\ sv_scale (snd p) = None.
Proof. intros ->. unfold variables_of. rewrite list_elem_of_filter, in_all_vars, not_scale_iff. naive_solver. Qed.

Lemma copy_group_ok f : file_ok f -> copyGroup zero f empty_file = Ok (restored_file f).
Proof.
  intros H. destruct (file_collected f H) as (info & E & Hds & Hvs & Hi). unfold copyGroup. rewrite (copy_groups_ok f H). cbn [mbind res_bind]. rewrite E. cbn [mbind res_bind].
  set (f1 := {| sf_atts := _; sf_groups := _; sf_vars := _ |}).
  destruct (foldM_file_vars (fun f p => f ← createAndCopyVariable zero (fst p) (snd p) f; mark_scale (fst p) (snd p) f) (fun p => restored (snd p)) f1 (dimVarList info)) as (f2 & E2 & [R2 R2'] & S2 & O2).
  { by apply (NoDup_part f) in Hds. }
  { intros p f' [Hp Hs]%(in_scales f _ _ Hds) Ecur _. cbn in Ecur. rewrite lookup_empty in Ecur. rewrite create_and_copy_put; [|by apply (fo_type f H (fst p))|by apply (fo_made f H (fst p))|by apply (fo_atts f H (fst p))|done].
    cbn [mbind res_bind]. unfold mark_scale. rewrite (update_put _ _ _ _ _ (put_file_lookup _ _ _)) by done. rewrite put_twice. do 2 f_equal. destruct (fo_scale f H _ _ Hp Hs) as (Hl & _ & Ea). destruct Hs as [s Hs].
    unfold restored, set_scale, new_var. cbn. rewrite Hs, Ea, (fo_path f H _ _ Hp). cbn. f_equal. destruct (sv_dims (snd p)) as [|? [|]]; done. }
  rewrite E2. cbn [mbind res_bind].
  destruct (foldM_file_vars (fun f p => createAndCopyVariable zero (fst p) (snd p) f) (fun p => set_scale (restored (snd p)) None (map (fun _ => []) (sv_dims (snd p)))) f2 (varList info)) as (f3 & E3 & [R3 R3'] & S3 & O3).
  { by apply (NoDup_part f) in Hvs. }
  { intros p f' [Hp Hs]%(in_variables f _ _ Hvs) Ecur _. rewrite O2 in Ecur; [cbn in Ecur; rewrite lookup_empty in Ecur|].
    - rewrite create_and_copy_put; [|by apply (fo_type f H (fst p))|by apply (fo_made f H (fst p))|by apply (fo_atts f H (fst p))|done]. do 2 f_equal. unfold restored, set_scale, new_var. cbn. by rewrite (fo_path f H _ _ Hp).
    - intros (q & Eq & [Hq [s Hqs]]%(in_scales f _ _ Hds))%list_elem_of_fmap. rewrite Eq, Hq in Hp. simplify_eq Hp. congruence. }
  rewrite E3. cbn [mbind res_bind].
  rewrite (attach_result f info f3 (fun _ v => restored v) Hi).
  - rewrite R3, R3', R2, R2'. unfold restored_file. do 2 f_equal. apply map_eq. intros k. rewrite map_lookup_imap, lookup_fmap. by destruct (sf_vars f !! k).
  - done.
  - intros k v Hk [s Hs]. rewrite O3; [apply (S2 (k, v)); apply (in_scales f _ _ Hds); eauto|]. intros (q & Eq & [Hq Hqs]%(in_variables f _ _ Hvs))%list_elem_of_fmap. rewrite Eq, Hq in Hk. simplify_eq Hk. congruence.
  - intros k v Hk Hs. eexists. apply (S3 (k, v)). by apply (in_variables f _ _ Hvs).
  - intros k Hk. rewrite O3, O2; [apply lookup_empty| |].
    + intros (q & -> & [Hq _]%(in_scales f _ _ Hds))%list_elem_of_fmap. congruence.
    + intros (q & -> & [Hq _]%(in_variables f _ _ Hvs))%list_elem_of_fmap. congruence.
Qed.

(** ** The structure of an output file *)

Context (nlocs : Z) (Hnlocs : 0 <= nlocs) (lens : gmap string nat).

Definition uses_loc k v : bool := bool_decide (k = "Location") || bool_decide (head (sv_axes v) = Some ["Location"]).
Definition at_locations (b : bool) (l : list Z) : list Z := if b then nlocs :: tail l else l.
Definition max_locations (b : bool) (l : list Z) : list Z := if b && negb (default 0 (head l) =? -1) then nlocs :: tail l else l.
Definition out_data k v : VarData A :=
  match sv_data v with Numbers t fill l => Numbers t fill l | Strings _ fill l => Strings (Some (default 0%nat (lens !! k))) None l end.
Definition put_aside v : list (string * FileAttribute A) := match sv_data v with Strings _ fill _ => [("_orig_fill_value", string_attribute (default EmptyString fill))] | _ => [] end.
Definition created k v : SVariable A :=
  {| sv_path := k; sv_dims := at_locations (uses_loc k v) (sv_dims v); sv_max := max_locations (uses_loc k v) (sv_max v); sv_chunks := sv_chunks v; sv_compressed := false;
     sv_data := blank zero (at_locations (uses_loc k v) (sv_dims v)) (out_data k v); sv_scale := sv_scale v; sv_axes := sv_axes v; sv_atts := kept_atts (sv_atts v) ++ put_aside v |}.

Lemma adjusted_ok (b : bool) l : l <> [] -> adjusted (if b then nlocs else -1) l = Ok (at_locations b l).
Proof. intros Hl. unfold adjusted, at_locations. destruct b; [|done]. rewrite (proj2 (Z.leb_le _ _)) by lia. by destruct l. Qed.
Lemma adjusted_max_ok (b : bool) l : l <> [] -> adjusted_max (if b then nlocs else -1) l = Ok (max_locations b l).
Proof.
  intros Hl. unfold adjusted_max, max_locations. destruct b; [|done]. rewrite (proj2 (Z.leb_le _ _)) by lia. destruct l as [|m l]; [done|]. cbn. by destruct (m =? -1).
Qed.
Definition has_dims v : Prop := sv_dims v <> [] /\ sv_max v <> [].
Lemma create_variable_put k v f : has_dims v -> atts_ok (sv_atts v) -> sf_vars f !! k = None ->
  createVariable zero k v (if uses_loc k v then nlocs else -1) (default 0%nat (lens !! k)) f = Ok (put k (set_scale (created k v) None (map (fun _ => []) (sv_dims (created k v)))) f).
Proof.
  intros [Hd Hm] Ha Hk. unfold createVariable. rewrite adjusted_ok, adjusted_max_ok by done. cbn [mbind res_bind]. unfold created, out_data, put_aside.
  assert (Hc : forall w, sv_atts w = [] -> copy_var_atts (sv_atts v) w = Ok (set_atts w (kept_atts (sv_atts v)))).
  { intros w Hw. unfold copy_var_atts. rewrite Hw, copyAttributes_kept; [done|done|by intros n _ ?%elem_of_nil]. }
  destruct (sv_data v) as [t fill l|len fill l]; rewrite create_put by done; cbn [mbind res_bind].
  - rewrite (update_put k _ _ _ _ (put_file_lookup k _ f)) by (by apply Hc). rewrite put_twice. do 2 f_equal. unfold set_atts, new_var, set_scale. cbn. by rewrite app_nil_r.
  - rewrite (update_put k _ _ _ _ (put_file_lookup k _ f)) by (by apply Hc). cbn [mbind res_bind]. rewrite put_twice, (update_put k _ _ _ _ (put_file_lookup k _ f)) by done. by rewrite put_twice.
Qed.

Lemma identify_ok (m : gmap string (list Named_Variable)) : (forall k ds, m !! k = Some ds -> ds <> []) ->
  exists s, identifyVarsUsingLocation m = Ok s /\ forall k, k ∈ s <-> k = "Location" \/ exists d ds, m !! k = Some (d :: ds) /\ fst d = "Location".
Proof.
  intros Hm. unfold identifyVarsUsingLocation.
  assert (Hgo : forall l s0, (forall p, p ∈ l -> snd p <> []) -> exists s, foldM (fun s (a : string * list Named_Variable) => b ← uses_location a; Ok (if b : bool then {[fst a]} ∪ s else s)) s0 l = Ok s /\
    forall k, k ∈ s <-> k ∈ (s0 : gset string) \/ exists d ds, (k, d :: ds) ∈ l /\ fst d = "Location").
  { induction l as [|[k ds] l IH]; intros s0 Hl.
    - exists s0. split; [done|]. intros k. split; [by left|]. intros [?|(d & ds & Hd%elem_of_nil & _)]; done.
    - cbn [foldM]. destruct ds as [|d ds]; [by specialize (Hl (k, []) ltac:(left))|]. unfold uses_location at 1. cbn [snd fst vec_get lookup list_lookup mbind res_bind].
      destruct (IH (if bool_decide (fst d = "Location") then {[k]} ∪ s0 else s0)) as (s & E & Hs); [intros p Hp; apply Hl; by right|]. exists s. split; [exact E|].
      intros k'. rewrite Hs. setoid_rewrite elem_of_cons. case_bool_decide; set_solver. }
  destruct (Hgo (map_to_list m) {["Location"]}) as (s & E & Hs).
  - intros [k ds] Hp%elem_of_map_to_list. by apply (Hm k).
  - exists s. split; [done|]. intros k. rewrite Hs, elem_of_singleton. by setoid_rewrite elem_of_map_to_list.
Qed.

Definition structure f : SFile A := {| sf_atts := kept_atts (sf_atts f); sf_groups := kept_atts <$> sf_groups f; sf_vars := map_imap (fun k v => Some (created k v)) (sf_vars f) |}.
Lemma lookup_created f k : map_imap (fun k v => Some (created k v)) (sf_vars f) !! k = created k <$> sf_vars f !! k.
Proof. rewrite map_lookup_imap. by destruct (sf_vars f !! k). Qed.

(** The variables that use Location are those whose first scale it is. *)
Lemma location_users f info s : file_ok f -> attached_info f info -> (forall k ds, dimsAttachedToVars info !! k = Some ds -> exists v, sf_vars f !! k = Some v /\ sv_scale v = None) ->
  (forall k, k ∈ s <-> k = "Location" \/ exists d ds, dimsAttachedToVars info !! k = Some (d :: ds) /\ fst d = "Location") ->
  forall k v, sf_vars f !! k = Some v -> bool_decide (k ∈ (s : gset string)) = uses_loc k v.
Proof.
  intros H [Hi Hd] Hreg Hs k v Hv. unfold uses_loc. apply eq_true_iff_eq. rewrite bool_decide_eq_true, Hs, orb_true_iff, !bool_decide_eq_true. apply or_iff_compat_l. split.
  - intros (d & ds & Hk & Ed). destruct (Hi _ _ Hk) as (v' & Hv' & _ & Ea & _). rewrite Hv in Hv'. simplify_eq Hv'. intros <-. rewrite <-Ea. cbn. by rewrite Ed.
  - intros Hh. destruct (sv_scale v) as [sc|] eqn:Es.
    + destruct (fo_scale f H k v Hv) as (_ & _ & Ea); [by exists sc|]. by rewrite Ea in Hh.
    + destruct (Hd k v Hv Es) as [ds Hk]. destruct (Hi _ _ Hk) as (v' & Hv' & _ & Ea & _). rewrite Hv in Hv'. simplify_eq Hv'. intros <-. rewrite <-Ea in Hh. destruct ds as [|d ds]; [done|]. exists d, ds. cbn in Hh. split; [done|congruence].
Qed.

Lemma structure_ok f : file_ok f -> (forall k v, sf_vars f !! k = Some v -> has_dims v) -> ioWriteGroup_structure zero nlocs lens f empty_file = Ok (structure f).
Proof.
  intros H Hdims. destruct (file_collected f H) as (info & E & Hds & Hvs & Hi). unfold ioWriteGroup_structure. rewrite E. cbn [mbind res_bind].
  destruct (identify_ok (dimsAttachedToVars info)) as (s & Es & Hs).
  { intros k ds Hk ->. destruct (proj1 Hi k _ Hk) as (v & Hv & Hsc & Ea & _). destruct (fo_var f H k v Hv Hsc) as (_ & ss & Ea' & El & _). rewrite Ea' in Ea. destruct (Hdims k v Hv) as [Hd _]. destruct ss; [|done]. by destruct (sv_dims v). }
  rewrite Es. cbn [mbind res_bind]. rewrite (copy_groups_ok f H). cbn [mbind res_bind]. set (f1 := {| sf_atts := _; sf_groups := _; sf_vars := _ |}).
  assert (Hloc : forall k v, sf_vars f !! k = Some v -> bool_decide (k ∈ s) = uses_loc k v).
  { apply (location_users f info s H Hi); [|done]. intros k ds Hk. destruct (proj1 Hi k ds Hk) as (v & ? & ? & _). eauto. }
  assert (Hall : forall p, p ∈ varList info ++ dimVarList info <-> sf_vars f !! fst p = Some (snd p)).
  { intros p. rewrite elem_of_app, (in_variables f _ _ Hvs), (in_scales f _ _ Hds). rewrite eq_None_not_Some. destruct (decide (is_Some (sv_scale (snd p)))); naive_solver. }
  destruct (foldM_file_vars (fun f p => with_type (snd p) (createVariable zero (fst p) (snd p) (if bool_decide (fst p ∈ s) then nlocs else -1) (default 0%nat (lens !! fst p)) f))
    (fun p => set_scale (created (fst p) (snd p)) None (map (fun _ => []) (sv_dims (created (fst p) (snd p))))) f1 (varList info ++ dimVarList info)) as (f2 & E2 & [R2 R2'] & S2 & O2).
  { rewrite map_app, NoDup_app. split_and!; [by apply (NoDup_part f) in Hvs| |by apply (NoDup_part f) in Hds].
    intros k (p & -> & [Hp Hps]%(in_variables f _ _ Hvs))%list_elem_of_fmap (q & Eq & [Hq [sc Hqs]]%(in_scales f _ _ Hds))%list_elem_of_fmap. rewrite Eq, Hq in Hp. simplify_eq Hp. congruence. }
  { intros p f' Hp%Hall Ecur _. cbn in Ecur. rewrite lookup_empty in Ecur. unfold with_type. rewrite (fo_type f H _ _ Hp), (Hloc _ _ Hp). apply create_variable_put; [by apply (Hdims (fst p))|by apply (fo_atts f H (fst p))|done]. }
  unfold create_variables. rewrite E2. cbn [mbind res_bind].
  destruct (foldM_file_vars (fun f p => mark_scale (fst p) (snd p) f) (fun p => created (fst p) (snd p)) f2 (dimVarList info)) as (f3 & E3 & [R3 R3'] & S3 & O3).
  { by apply (NoDup_part f) in Hds. }
  { intros p f' [Hp Hps]%(in_scales f _ _ Hds) Ecur _. rewrite (S2 p) in Ecur by (by apply Hall). unfold mark_scale. rewrite (update_put _ _ _ _ _ Ecur) by done. do 2 f_equal. destruct (fo_scale f H _ _ Hp Hps) as (Hl & _ & Ea). destruct Hps as [sc Hps].
    unfold set_scale, created. cbn. rewrite Hps, Ea. cbn. f_equal. unfold at_locations. destruct (sv_dims (snd p)) as [|? [|]]; [done| |done]. by destruct (uses_loc _ _). }
  rewrite E3. cbn [mbind res_bind].
  rewrite (attach_result f info f3 created Hi).
  - by rewrite R3, R3', R2, R2'.
  - done.
  - intros k v Hk Hsc. apply (S3 (k, v)). by apply (in_scales f _ _ Hds).
  - intros k v Hk Hsc. eexists. rewrite O3; [apply (S2 (k, v)); by apply Hall|]. intros (q & Eq & [Hq [sc Hqs]]%(in_scales f _ _ Hds))%list_elem_of_fmap. rewrite Eq, Hq in Hk. simplify_eq Hk. congruence.
  - intros k Hk. rewrite O3, O2; [apply lookup_empty| |].
    + intros (q & -> & Hq%Hall)%list_elem_of_fmap. congruence.
    + intros (q & -> & [Hq _]%(in_scales f _ _ Hds))%list_elem_of_fmap. congruence.
Qed.

(** ** The file that is saved *)

(** The values that are collected, for the variables of numbers and of strings. *)
Context (nums : string -> list A) (strs : string -> list string).
Definition with_elements k (d : VarData A) : VarData A := match d with Numbers t fill _ => Numbers t fill (nums k) | Strings len fill _ => Strings len fill (strs k) end.
Definition filled f : SFile A := {| sf_atts := sf_atts f; sf_groups := sf_groups f; sf_vars := map_imap (fun k v => Some (set_data v (with_elements k (sv_data v)))) (sf_vars f) |}.
Definition saved_data k (d : VarData A) : VarData A := match d with Numbers t fill _ => Numbers t fill (nums k) | Strings _ fill _ => Strings None (Some (default EmptyString fill)) (strs k) end.
Definition saved k v : SVariable A :=
  {| sv_path := k; sv_dims := at_locations (uses_loc k v) (sv_dims v); sv_max := max_locations (uses_loc k v) (sv_max v); sv_chunks := sv_chunks v; sv_compressed := false;
     sv_data := saved_data k (sv_data v); sv_scale := sv_scale v; sv_axes := sv_axes v; sv_atts := kept_atts (sv_atts v) |}.
Definition out_var k v : SVariable A := set_data (created k v) (with_elements k (sv_data (created k v))).
Lemma lookup_filled f k : sf_vars (filled (structure f)) !! k = out_var k <$> sf_vars f !! k.
Proof. cbn. rewrite map_lookup_imap, lookup_created. by destruct (sf_vars f !! k). Qed.
Lemma filled_inv f k w : sf_vars (filled (structure f)) !! k = Some w -> exists v, sf_vars f !! k = Some v /\ w = out_var k v.
Proof. rewrite lookup_filled. destruct (sf_vars f !! k); cbn; [|done]. intros [= <-]. eauto. Qed.

Lemma out_atts_ok k v : atts_ok (sv_atts v) -> atts_ok (sv_atts (out_var k v)).
Proof.
  intros Ha. destruct (kept_ok _ Ha) as [Hn Hs]. cbn. unfold put_aside. destruct (sv_data v); [rewrite app_nil_r; by apply kept_ok|]. split.
  - rewrite map_app. apply NoDup_app. split_and!; [done| |apply NoDup_singleton]. intros n Hn' ->%list_elem_of_singleton. revert Hn'. apply kept_not_ignored, orig_fill_ignored.
  - apply Forall_app. split; [done|]. by apply Forall_singleton.
Qed.
Lemma find_put_aside l (a : FileAttribute A) : find_att "_orig_fill_value" (kept_atts l ++ [("_orig_fill_value", a)]) = Some a.
Proof.
  pose proof (find_att_none "_orig_fill_value" (kept_atts l)) as Hn. specialize (Hn (kept_not_ignored l _ orig_fill_ignored)). unfold find_att in *.
  induction (kept_atts l) as [|p l' IH]; [done|]. cbn in *. by destruct (bool_decide _); [|apply IH].
Qed.
Lemma out_made k v : var_supported v = true -> var_supported (out_var k v) = true /\ made_data (out_var k v) = Ok (saved_data k (sv_data v)).
Proof.
  unfold var_supported, made_data, out_var, created, out_data, put_aside. cbn [sv_data sv_atts set_data]. destruct (sv_data v) as [t fill l|len fill l]; cbn [blank with_elements saved_data]; [done|]. intros _. by rewrite find_put_aside.
Qed.

Lemma kept_put_aside v : kept_atts (kept_atts (sv_atts v) ++ put_aside v) = kept_atts (sv_atts v).
Proof.
  unfold kept_atts at 1. rewrite filter_app. change (filter _ (kept_atts (sv_atts v))) with (kept_atts (kept_atts (sv_atts v))). rewrite kept_twice.
  unfold put_aside. destruct (sv_data v); [by rewrite app_nil_r|]. rewrite (filter_none _ [_]); [by rewrite app_nil_r|]. intros p ->%list_elem_of_singleton Hn. apply Hn, orig_fill_ignored.
Qed.
Lemma filled_ok f : file_ok f -> (forall k v, sf_vars f !! k = Some v -> has_dims v) -> file_ok (filled (structure f)).
Proof.
  intros H Hdims. split.
  - intros k w (v & Hv & ->)%filled_inv. done.
  - intros k w (v & Hv & ->)%filled_inv. apply out_made. by apply (fo_type f H k).
  - intros k w (v & Hv & ->)%filled_inv. eexists. apply out_made. by apply (fo_type f H k).
  - intros k w (v & Hv & ->)%filled_inv. apply out_atts_ok. by apply (fo_atts f H k).
  - intros k w (v & Hv & ->)%filled_inv Hs. destruct (fo_scale f H k v Hv Hs) as (Hl & Hp & Ha). split_and!; [|done|done]. cbn. unfold at_locations. destruct (uses_loc k v); [|done]. destruct (sv_dims v) as [|? [|]]; done.
  - intros k w (v & Hv & ->)%filled_inv Hs. destruct (fo_var f H k v Hv Hs) as (Hg & ss & Ea & El & Hss). split.
    + cbn. intros Hne. apply Hg. intros E. apply Hne. rewrite E. apply fmap_empty.
    + exists ss. split_and!; [done| |].
      * cbn. unfold at_locations. destruct (uses_loc k v); [|done]. destruct (Hdims k v Hv) as [Hd _]. by destruct (sv_dims v).
      * intros s Hs'. destruct (Hss s Hs') as (w & Hw & Hws). exists (out_var s w). rewrite lookup_filled, Hw. done.
  - cbn. apply kept_ok, (fo_file_atts f H).
  - intros g l Hl. cbn in Hl. rewrite lookup_fmap in Hl. destruct (sf_groups f !! g) as [l'|] eqn:El; [|done]. cbn in Hl. simplify_eq. apply kept_ok. by apply (fo_group_atts f H g).
Qed.

(** C26: The file that is saved.  For an ObsGroup that is well formed, whose variables
    have dimensions, the file is created; and whatever values are collected into it,
    the copy that the second pass makes has every group and every variable of the
    ObsGroup, with the values, the type and the fill value of the variable (the empty
    string for strings without), its scales, its attributes but for those of the file
    format, and the number of locations of the pool where the variable has the
    dimension Location first; nothing in it is compressed. *)
Theorem saved_file f : file_ok f -> (forall k v, sf_vars f !! k = Some v -> has_dims v) ->
  exists file, ioWriteGroup_structure zero nlocs lens f empty_file = Ok file /\ exists final, copyGroup zero (filled file) empty_file = Ok final /\
    sf_atts final = kept_atts (sf_atts f) /\ sf_groups final = kept_atts <$> sf_groups f /\ forall k, sf_vars final !! k = saved k <$> sf_vars f !! k.
Proof.
  intros H Hdims. exists (structure f). split; [by apply structure_ok|]. exists (restored_file (filled (structure f))). split; [by apply copy_group_ok, filled_ok|]. split_and!.
  - cbn. apply kept_twice.
  - cbn. rewrite <-map_fmap_compose. apply map_fmap_ext. intros g l _. apply kept_twice.
  - intros k. unfold restored_file. cbn [sf_vars]. rewrite lookup_fmap, lookup_filled. destruct (sf_vars f !! k) as [v|] eqn:Hv; [|done]. cbn [fmap option_fmap option_map]. f_equal.
    destruct (out_made k v (fo_type f H k v Hv)) as [_ Hm]. unfold restored, saved, copied_data. rewrite Hm. cbn. f_equal. apply kept_put_aside.
Qed.
End files.

(** A variable without dimensions makes the first scale of a variable undefined. *)
Lemma no_scale_undefined {A} (l : list (string * list (string * SVariable A))) : forall s, (exists k, (k, []) ∈ l) ->
  foldM (fun s a => b ← uses_location a; Ok (if b : bool then {[fst a]} ∪ s else s)) (s : gset string) l = Throw EUndefined.
Proof.
  induction l as [|[k ds] l IH]; intros s [k' Hk']; [by apply elem_of_nil in Hk'|]. cbn [foldM]. destruct ds as [|d ds]; [done|]. unfold uses_location at 1. cbn [snd fst vec_get lookup list_lookup mbind res_bind].
  apply IH. apply elem_of_cons in Hk' as [?|Hk']; [done|eauto].
Qed.
Theorem scalar_variable_undefined {A} (zero : A) nlocs lens (f dest : SFile A) k v : file_ok f -> sf_vars f !! k = Some v -> sv_scale v = None -> sv_dims v = [] ->
  ioWriteGroup_structure zero nlocs lens f dest = Throw EUndefined.
Proof.
  intros H Hv Hs Hd. destruct (file_collected f H) as (info & E & _ & _ & Hi & Hex). unfold ioWriteGroup_structure. rewrite E. cbn [mbind res_bind]. unfold identifyVarsUsingLocation. rewrite no_scale_undefined; [done|].
  exists k. destruct (Hex k v Hv Hs) as [ds Hk]. destruct (Hi k ds Hk) as (v' & Hv' & _ & Ea & _). rewrite Hv in Hv'. simplify_eq Hv'. intros <-. destruct (fo_var f H k v Hv Hs) as (_ & ss & Ea' & El & _). rewrite Hd in El. rewrite Ea' in Ea.
  destruct ss; [|done]. destruct ds; [|done]. by apply elem_of_map_to_list.
Qed.

(** The example: a scale of locations, a variable of numbers and one of strings. *)
Module CopyingSample.
Definition sample_var (path : string) (d : VarData Z) (scale : option string) (axes : list (list string)) (atts : list (string * FileAttribute Z)) : SVariable Z :=
  {| sv_path := path; sv_dims := [2]; sv_max := [-1]; sv_chunks := [2]; sv_compressed := true; sv_data := d; sv_scale := scale; sv_axes := axes; sv_atts := atts |}.
Definition location := sample_var "Location" (Numbers TInt None [0; 1]) (Some "Location") [[]] [("suggested_chunk_dim", {| ca_dims := [1]; ca_data := ANumbers TInt64 [100] |})].
Definition station := sample_var "MetaData/stationIdentification" (Strings None (Some "none") ["a"; "b"]) None [["Location"]] [("long_name", string_attribute "station")].
Definition temperature := sample_var "ObsValue/airTemperature" (Numbers TFloat (Some (-999)) [280; 281]) None [["Location"]] [("units", string_attribute "K")].
Definition entries : list (string * SVariable Z) := [("Location", location); ("MetaData/stationIdentification", station); ("ObsValue/airTemperature", temperature)].
Definition mem : SFile Z := {| sf_atts := []; sf_groups := list_to_map [("MetaData", []); ("ObsValue", [])]; sf_vars := list_to_map entries |}.

Lemma mem_entries k v : sf_vars mem !! k = Some v -> (k, v) ∈ entries.
Proof. apply elem_of_list_to_map_2. Qed.
Ltac entry H := apply mem_entries in H; unfold entries in H; rewrite !elem_of_cons, elem_of_nil in H; destruct H as [H|[H|[H|[]]]]; simplify_eq H; intros -> ->.
Lemma mem_location : sf_vars mem !! "Location" = Some location.
Proof. by vm_compute. Qed.
Lemma mem_ok : file_ok mem.
Proof.
  split.
  - intros k v H. by entry H.
  - intros k v H. by entry H.
  - intros k v H. entry H; by eexists.
  - intros k v H. entry H; (split; [by apply NoDup_singleton|by apply Forall_singleton]).
  - intros k v H. entry H; intros []; done.
  - intros k v H Hs. entry H; [done|split; [done|exists ["Location"]; split_and!; try done; intros s ->%list_elem_of_singleton; exists location; split; [apply mem_location|by eexists]]..].
  - split; [apply NoDup_nil_2|done].
  - intros g l H. apply elem_of_list_to_map_2 in H. rewrite !elem_of_cons, elem_of_nil in H. destruct H as [H|[H|[]]]; simplify_eq H; intros -> ->; (split; [apply NoDup_nil_2|done]).
Qed.
Lemma mem_dims k v : sf_vars mem !! k = Some v -> has_dims v.
Proof. intros H. by entry H. Qed.

Definition nums (_ : string) : list Z := [270; 271; 272].
Definition strs (_ : string) : list string := ["a"; "c"; "d"].
(** Three locations in the pool. *)
Lemma saved_file_witness : exists file, ioWriteGroup_structure 0 3 ∅ mem empty_file = Ok file /\ exists final, copyGroup 0 (filled nums strs file) empty_file = Ok final /\
  sf_atts final = [] /\ sf_groups final = kept_atts <$> sf_groups mem /\
  (forall k, sf_vars final !! k = saved 3 nums strs k <$> sf_vars mem !! k) /\ sv_data (saved 3 nums strs "MetaData/stationIdentification" station) = Strings None (Some "none") ["a"; "c"; "d"].
Proof.
  destruct (saved_file 0 3 ltac:(lia) ∅ nums strs mem mem_ok mem_dims) as (file & E & final & E' & H1 & H2 & H3). exists file. split; [exact E|]. exists final. split_and!; [exact E'|exact H1|exact H2|exact H3|reflexivity].
Defined.
End CopyingSample.
