(* ===== verification/OutputFiles.v ===== *)
(** The names of output files and the second pass over them.

    Models [uniquifyFileName] of src/src/engines/ioda/src/ioda/Engines/EngineUtils.cpp
    and WriteH5File.cpp: the file that [WriteH5File] creates, and [WriteH5Proc::post],
    which moves it to a temporary name, copies it to a new file with strings of
    variable length, and removes it.  A file system maps names to contents; what is
    copied ([copyGroup]) is an argument here and is modelled in [Copying]. *)
From stdpp Require Import base list gmap strings pretty.
From Stdlib Require Import ZArith.
From S2P Require Import Prelude ObsSpaceVars OdbVariables UpgradeV1V2.
Local Open Scope Z_scope.

(** * Names *)

Definition dot (c : Ascii.ascii) : bool := (Ascii.nat_of_ascii c =? 46)%nat.
(** [insert(pos, t)], and the position of the last dot or the end. *)
Definition insert_at (pos : nat) (t s : string) : string := String.substring 0 pos s +:+ t +:+ from pos s.
Definition extension_pos (fileName : string) : nat := default (String.length fileName) (find_last dot fileName).
Definition rank_suffix (createMultipleFiles : bool) (rankNum timeRankNum : Z) : string :=
  (if createMultipleFiles then "_" +:+ setw 4 rankNum else "") +:+ (if 0 <=? timeRankNum then "_" +:+ setw 4 timeRankNum else "").
Definition uniquifyFileName (fileName : string) (createMultipleFiles : bool) (rankNum timeRankNum : Z) : string :=
  insert_at (extension_pos fileName) (rank_suffix createMultipleFiles rankNum timeRankNum) fileName.

(** * Files *)

(** The communicators are given by the rank in the pool, and by the rank in and the
    size of the time communicator. *)
Record WriterCreationParameters := {
  wc_rank : Z;
  timeComm_rank : Z;
  timeComm_size : Z;
  createMultipleFiles : bool;
  isParallelIo : bool
}.
Definition mpiTimeRank (c : WriterCreationParameters) : Z := if 1 <? timeComm_size c then timeComm_rank c else -1.

Section files.
Context {F : Type} (empty : F) (copyGroup : F -> F -> res F).
Notation FileSystem := (gmap string F).
Implicit Types (fs : FileSystem) (c : WriterCreationParameters).

(** [HH::createFile] with Truncate_If_Exists or Fail_If_Exists. *)
Definition createH5File (name : string) (allowOverwrite : bool) fs : res FileSystem :=
  if bool_decide (is_Some (fs !! name)) && negb allowOverwrite then Throw (EException "file exists") else Ok (<[name := empty]> fs).
Definition outFileName (fileName : string) c : string := uniquifyFileName fileName (createMultipleFiles c) (wc_rank c) (mpiTimeRank c).
Definition WriteH5File (fileName : string) (allowOverwrite : bool) c fs : res FileSystem := createH5File (outFileName fileName c) allowOverwrite fs.

(** The final and the temporary name. *)
Definition workaroundGenFileNames (fileName : string) c : string * string :=
  let tempFileName := insert_at (extension_pos fileName) "_flenstr" fileName in
  (outFileName fileName c, outFileName tempFileName c).

Definition rename_file (old new : string) fs : res FileSystem :=
  match fs !! old with
  | None => Throw (EException "Unable to rename output file.")
  | Some f => Ok (<[new := f]> (delete old fs))
  end.
(** The copy goes through a [WriteH5File] with the final name and the same
    communicators, for one file, whose parameter to overwrite is true by default. *)
Definition workaround_params c : WriterCreationParameters :=
  {| wc_rank := wc_rank c; timeComm_rank := timeComm_rank c; timeComm_size := timeComm_size c; createMultipleFiles := false; isParallelIo := false |}.
Definition copy_back (finalFileName tempFileName : string) c fs : res FileSystem :=
  match fs !! tempFileName with
  | None => Throw (EException "open")
  | Some src =>
      fs ← WriteH5File finalFileName true (workaround_params c) fs;
      dest ← copyGroup src empty;
      Ok (<[outFileName finalFileName (workaround_params c) := dest]> fs)
  end.
Definition remove_file (name : string) fs : FileSystem := delete name fs.

(** The three steps of [workaroundFixToVarLenStrings], which the ranks of the pool
    take concurrently. *)
Definition post_action (fileName : string) c (pc : nat) fs : res FileSystem :=
  let '(finalFileName, tempFileName) := workaroundGenFileNames fileName c in
  match pc with
  | 0%nat => rename_file finalFileName tempFileName fs
  | 1%nat => copy_back finalFileName tempFileName c fs
  | _ => Ok (remove_file tempFileName fs)
  end.
Definition workaroundFixToVarLenStrings (fileName : string) c fs : res FileSystem :=
  fs ← post_action fileName c 0 fs;
  fs ← post_action fileName c 1 fs;
  post_action fileName c 2 fs.
(** With parallel output only the first rank of the pool does it. *)
Definition does_post c : bool := if isParallelIo c then wc_rank c =? 0 else true.
Definition post (fileName : string) c fs : res FileSystem :=
  if does_post c then workaroundFixToVarLenStrings fileName c fs else Ok fs.

(** All ranks: the file system and the number of steps every rank has taken. *)
Inductive post_step (fileName : string) (cs : list WriterCreationParameters) : FileSystem * list nat -> FileSystem * list nat -> Prop :=
  | rank_step r c pc fs fs' pcs : cs !! r = Some c -> does_post c = true -> pcs !! r = Some pc -> (pc < 3)%nat ->
      post_action fileName c pc fs = Ok fs' -> post_step fileName cs (fs, pcs) (fs', <[r := S pc]> pcs).
End files.
