(* ===== verification/OutputFilesSpec.v ===== *)
(** The names of the output files are different, and the second pass over them
    leaves every file where it belongs, in whatever order the ranks take their
    steps, as long as there is one time slot. *)
From stdpp Require Import base list gmap strings pretty relations.
From Stdlib Require Import ZArith.
From S2P Require Import Prelude ObsSpaceVars OdbVariables OdbCreateSpec OdbLayoutSpec UpgradeV1V2 UpgradeV1V2Spec OutputFiles.
Local Open Scope Z_scope.

(** * Names *)

Lemma length_zeros n : String.length (zeros n) = n.
Proof. induction n; cbn; auto. Qed.
Lemma find_last_append_none p a b : find_last p a = None -> find_last p b = None -> find_last p (a +:+ b) = None.
Proof.
  intros Ha Hb. induction a as [|c a IH]; [done|]. change (String c a +:+ b) with (String c (a +:+ b)). cbn [find_last] in *.
  destruct (find_last p a); [done|]. rewrite IH by done. by destruct (p c).
Qed.
Lemma find_last_parts p s n : find_last p s = Some n -> exists a c b, s = a +:+ String c b /\ String.length a = n /\ p c = true /\ find_last p b = None.
Proof.
  revert n. induction s as [|c s IH]; intros n H; [done|]. cbn [find_last] in H. destruct (find_last p s) as [m|] eqn:E.
  - simplify_eq. destruct (IH m eq_refl) as (a & d & b & -> & <- & Hd & Hb). by exists (String c a), d, b.
  - destruct (p c) eqn:Ec; simplify_eq. by exists EmptyString, c, s.
Qed.
Lemma insert_between a t e : insert_at (String.length a) t (a +:+ e) = a +:+ t +:+ e.
Proof.
  unfold insert_at, from. rewrite substring_prefix, substring_skip. rewrite substring_all; [done|]. rewrite length_string_app. lia.
Qed.

(** A file name is a stem and an extension; what is put between them, if it has no
    dot, becomes part of the stem. *)
Lemma name_split fileName : exists a e, fileName = a +:+ e /\ forall t, find_last dot t = None -> extension_pos (a +:+ t +:+ e) = (String.length a + String.length t)%nat.
Proof.
  destruct (find_last dot fileName) as [n|] eqn:E.
  - destruct (find_last_parts _ _ _ E) as (a & c & b & -> & <- & Hc & Hb). exists a, (String c b). split; [done|]. intros t Ht.
    assert (Hl : find_last dot (String c b) = Some 0%nat) by (cbn [find_last]; by rewrite Hb, Hc).
    unfold extension_pos. rewrite (find_last_app dot a (t +:+ String c b) (String.length t)); [done|]. rewrite (find_last_app dot t _ _ Hl). f_equal. lia.
  - exists fileName, EmptyString. split; [by rewrite string_append_nil_r|]. intros t Ht. rewrite string_append_nil_r. unfold extension_pos. rewrite find_last_append_none by done. cbn. apply length_string_app.
Qed.

(** ** Suffixes *)

Lemma zeros_digits n s : all_digits (zeros n +:+ s) = all_digits s /\ digits_value 0 (zeros n +:+ s) = digits_value 0 s.
Proof.
  induction n as [|n [IH1 IH2]]; [done|]. cbn [zeros]. change (String ?c (zeros n) +:+ s) with (String c (zeros n +:+ s)). cbn [all_digits digits_value]. by rewrite IH1.
Qed.
Definition is_rank (n : Z) : Prop := 0 <= n < 2 ^ 31.
Lemma setw_digits n : is_rank n -> all_digits (setw 4 n) = true /\ digits_value 0 (setw 4 n) = n.
Proof.
  intros Hn. unfold setw. destruct (stoi_pretty n Hn) as [Hd Hs]. destruct (zeros_digits (4 - String.length (pretty n)) (pretty n)) as [-> ->]. split; [done|].
  unfold stoi in Hs. destruct (pretty n); [done|]. case_match; by simplify_eq.
Qed.
Lemma setw_inj m n : is_rank m -> is_rank n -> setw 4 m = setw 4 n -> m = n.
Proof. intros [_ Hm]%setw_digits [_ Hn]%setw_digits E. congruence. Qed.
Lemma digits_no_dot s : all_digits s = true -> find_last dot s = None.
Proof.
  induction s as [|c s IH]; intros H; [done|]. cbn [all_digits] in H. apply andb_prop in H as [Hc Hs]. cbn [find_last]. rewrite IH by done.
  unfold dot, is_digit in *. apply andb_prop in Hc as [Hc _]. apply Nat.leb_le in Hc. by replace (_ =? _)%nat with false by (symmetry; apply Nat.eqb_neq; lia).
Qed.

Definition ranks_ok (c : WriterCreationParameters) : Prop := is_rank (wc_rank c) /\ is_rank (timeComm_rank c).
Definition suffix_of (c : WriterCreationParameters) : string := rank_suffix (createMultipleFiles c) (wc_rank c) (mpiTimeRank c).
Lemma suffix_of_eq c : ranks_ok c -> suffix_of c =
  (if createMultipleFiles c then "_" +:+ setw 4 (wc_rank c) else "") +:+ (if 1 <? timeComm_size c then "_" +:+ setw 4 (timeComm_rank c) else "").
Proof.
  intros [_ [Ht _]]. unfold suffix_of, rank_suffix, mpiTimeRank. destruct (1 <? timeComm_size c); [|done]. by rewrite (proj2 (Z.leb_le _ _)).
Qed.
Lemma suffix_no_dot c : ranks_ok c -> find_last dot (suffix_of c) = None.
Proof.
  intros Hc. rewrite suffix_of_eq by done. destruct Hc as [[Hr _]%setw_digits [Ht _]%setw_digits].
  apply find_last_append_none; case_match; try done; (apply find_last_append_none; [done|by apply digits_no_dot]).
Qed.
Lemma setw_starts n : is_rank n -> exists d s, setw 4 n = String d s /\ is_digit d = true.
Proof.
  intros [Hd _]%setw_digits. destruct (setw 4 n) as [|d s] eqn:E; [exfalso|cbn [all_digits] in Hd; apply andb_prop in Hd as [? _]; eauto].
  assert (String.length (setw 4 n) = 0%nat) as E' by (by rewrite E). unfold setw in E'. rewrite length_string_app, length_zeros in E'. lia.
Qed.
(** A suffix is empty or an underscore with a digit. *)
Lemma suffix_starts c : ranks_ok c -> suffix_of c = "" \/ exists d s, suffix_of c = "_" +:+ String d s /\ is_digit d = true.
Proof.
  intros Hc. rewrite suffix_of_eq by done. destruct Hc as [Hr Ht]. destruct (createMultipleFiles c).
  - destruct (setw_starts _ Hr) as (d & s & -> & Hd). right. by eexists d, _.
  - destruct (1 <? timeComm_size c); [|by left]. destruct (setw_starts _ Ht) as (d & s & -> & Hd). right. by eexists d, _.
Qed.

Lemma append_cancel_l (a b c : string) : a +:+ b = a +:+ c -> b = c.
Proof. induction a as [|x a IH]; [done|]. change (String x a +:+ ?y) with (String x (a +:+ y)). intros [= E]. auto. Qed.
Lemma append_cancel_r (a b c : string) : a +:+ c = b +:+ c -> a = b.
Proof.
  revert b. induction a as [|x a IH]; intros [|y b] E; [done|exfalso|exfalso|].
  - apply (f_equal String.length) in E. change ("" +:+ c) with c in E. rewrite length_string_app in E. cbn in E. lia.
  - apply (f_equal String.length) in E. change ("" +:+ c) with c in E. rewrite length_string_app in E. cbn in E. lia.
  - change (String x a +:+ ?z) with (String x (a +:+ z)) in E. change (String y b +:+ ?z) with (String y (b +:+ z)) in E. simplify_eq. f_equal. auto.
Qed.

(** What two ranks of a pool have in common, and when they have the same names. *)
Definition same_pool (c c' : WriterCreationParameters) : Prop := createMultipleFiles c = createMultipleFiles c' /\ timeComm_size c = timeComm_size c'.
Definition same_file (c c' : WriterCreationParameters) : Prop :=
  (createMultipleFiles c = true -> wc_rank c = wc_rank c') /\ (1 < timeComm_size c -> timeComm_rank c = timeComm_rank c').
Lemma suffix_inj c c' : ranks_ok c -> ranks_ok c' -> same_pool c c' -> suffix_of c = suffix_of c' -> same_file c c'.
Proof.
  intros Hc Hc' [Em Es]. rewrite !suffix_of_eq by done. rewrite <-Em, <-Es. unfold same_file. destruct Hc as [Hr Ht], Hc' as [Hr' Ht'].
  destruct (1 <? timeComm_size c) eqn:Ets; [apply Z.ltb_lt in Ets|apply Z.ltb_ge in Ets]; destruct (createMultipleFiles c); intros E.
  - apply (f_equal split_last_underscore) in E. rewrite !split_suffix in E by (by apply setw_digits). injection E as E1 E2. apply append_cancel_l in E1. apply setw_inj in E1, E2; auto.
  - apply (append_cancel_l "_") in E. apply setw_inj in E; [|done..]. by split.
  - rewrite !string_append_nil_r in E. apply append_cancel_l in E. apply setw_inj in E; [|done..]. split; [done|lia].
  - split; [done|lia].
Qed.

Definition final_name (fileName : string) (c : WriterCreationParameters) : string := fst (workaroundGenFileNames fileName c).
Definition temp_name (fileName : string) (c : WriterCreationParameters) : string := snd (workaroundGenFileNames fileName c).
Lemma names_shape fileName : exists a e, forall c, ranks_ok c -> final_name fileName c = a +:+ suffix_of c +:+ e /\ temp_name fileName c = a +:+ ("_flenstr" +:+ suffix_of c) +:+ e /\
  (forall t, find_last dot t = None -> extension_pos (a +:+ t +:+ e) = (String.length a + String.length t)%nat).
Proof.
  destruct (name_split fileName) as (a & e & -> & Hp). exists a, e. intros c Hc. unfold final_name, temp_name, workaroundGenFileNames, outFileName, uniquifyFileName. cbn [fst snd].
  fold (suffix_of c). pose proof (Hp "" eq_refl) as H0. change ("" +:+ e) with e in H0. rewrite Nat.add_0_r in H0. rewrite H0, !insert_between. split_and!; [done| |done].
  rewrite (Hp "_flenstr" eq_refl). rewrite <-length_string_app, <-string_append_assoc, insert_between. by rewrite !string_append_assoc.
Qed.

(** The name under which the second pass creates the copy: a [WriteH5File] with the
    final name adds the number of the time slot, if there are several, once more. *)
Definition copy_name (fileName : string) (c : WriterCreationParameters) : string := outFileName (final_name fileName c) (workaround_params c).
Definition slot_suffix (c : WriterCreationParameters) : string := if 1 <? timeComm_size c then "_" +:+ setw 4 (timeComm_rank c) else "".

Lemma copy_shape fileName c a e : ranks_ok c -> final_name fileName c = a +:+ suffix_of c +:+ e ->
  (forall t, find_last dot t = None -> extension_pos (a +:+ t +:+ e) = (String.length a + String.length t)%nat) ->
  copy_name fileName c = a +:+ (suffix_of c +:+ slot_suffix c) +:+ e.
Proof.
  intros Hc Ef Hp. unfold copy_name, outFileName, uniquifyFileName. rewrite Ef, (Hp _ (suffix_no_dot c Hc)), <-length_string_app, <-string_append_assoc, insert_between.
  unfold rank_suffix, mpiTimeRank, slot_suffix. cbn [createMultipleFiles workaround_params timeComm_size timeComm_rank wc_rank].
  change ("" +:+ ?x) with x. rewrite !string_append_assoc. destruct (1 <? timeComm_size c); [|done]. destruct Hc as [_ [Ht _]]. by rewrite (proj2 (Z.leb_le _ _)).
Qed.

Lemma suffixed_slots c c' : ranks_ok c -> ranks_ok c' -> same_pool c c' -> suffix_of c +:+ slot_suffix c = suffix_of c' +:+ slot_suffix c' -> suffix_of c = suffix_of c'.
Proof.
  intros [_ Ht] [_ Ht'] [_ Es] E. unfold slot_suffix in E. rewrite <-Es in E. destruct (1 <? timeComm_size c); [|by rewrite !string_append_nil_r in E].
  apply (f_equal split_last_underscore) in E. rewrite !split_suffix in E by (by apply setw_digits). by injection E.
Qed.

Lemma suffixed_slot c c' : ranks_ok c -> ranks_ok c' -> same_pool c c' -> suffix_of c +:+ slot_suffix c = suffix_of c' -> suffix_of c = suffix_of c' /\ timeComm_size c <= 1.
Proof.
  intros Hc Hc' [Em Es] E. unfold slot_suffix in E. rewrite (suffix_of_eq c'), <-Es, <-Em in E |- * by done. rewrite (suffix_of_eq c) in E |- * by done.
  destruct Hc as [Hr Ht], Hc' as [Hr' Ht']. destruct (Z.ltb_spec 1 (timeComm_size c)) as [Hs|Hs]; [exfalso|split; [|done]; repeat rewrite string_append_nil_r in E; repeat rewrite string_append_nil_r; exact E].
  apply (f_equal split_last_underscore) in E. rewrite !split_suffix in E by (by apply setw_digits). injection E as E _.
  apply (f_equal split_last_underscore) in E. rewrite split_suffix in E by (by apply setw_digits). destruct (createMultipleFiles c); [|done].
  change ("_" +:+ setw 4 (wc_rank c')) with ("" +:+ "_" +:+ setw 4 (wc_rank c')) in E. rewrite split_suffix in E by (by apply setw_digits). discriminate E.
Qed.

Lemma suffix_not_temp c t t' : ranks_ok c -> (t = "" \/ exists d s, t = "_" +:+ String d s /\ is_digit d = true) -> suffix_of c +:+ t <> "_flenstr" +:+ t'.
Proof.
  intros Hc Ht E. destruct (suffix_starts c Hc) as [E'|(d & s & E' & Hd)]; rewrite E' in E.
  - destruct Ht as [->|(d & s & -> & Hd)]; [done|]. injection E as Ed _. by rewrite Ed in Hd.
  - injection E as Ed _. by rewrite Ed in Hd.
Qed.

(** Two ranks of a pool have different files. *)
Record names_apart (fileName : string) (c c' : WriterCreationParameters) : Prop := {
  na_final : final_name fileName c = final_name fileName c' -> same_file c c';
  na_temp : temp_name fileName c = temp_name fileName c' -> same_file c c';
  na_copy : copy_name fileName c = copy_name fileName c' -> same_file c c';
  na_copy_final : copy_name fileName c = final_name fileName c' -> same_file c c' /\ timeComm_size c <= 1;
  na_final_temp : final_name fileName c <> temp_name fileName c';
  na_copy_temp : copy_name fileName c <> temp_name fileName c'
}.
Lemma names_are_apart fileName c c' : ranks_ok c -> ranks_ok c' -> same_pool c c' -> names_apart fileName c c'.
Proof.
  intros Hc Hc' Hs. destruct (names_shape fileName) as (a & e & Hn). destruct (Hn c Hc) as (Ef & Et & Hp), (Hn c' Hc') as (Ef' & Et' & Hp').
  pose proof (copy_shape fileName c a e Hc Ef Hp) as Ec. pose proof (copy_shape fileName c' a e Hc' Ef' Hp') as Ec'. split; rewrite ?Ef, ?Et, ?Ec, ?Ef', ?Et', ?Ec'.
  - intros E%append_cancel_l%append_cancel_r. by apply suffix_inj.
  - intros E%append_cancel_l%append_cancel_r%append_cancel_l. by apply suffix_inj.
  - intros E%append_cancel_l%append_cancel_r. by apply suffix_inj, suffixed_slots.
  - intros E%append_cancel_l%append_cancel_r. apply suffixed_slot in E as [E Hsz]; [|done..]. split; [by apply suffix_inj|done].
  - intros E%append_cancel_l%append_cancel_r. rewrite <-(string_append_nil_r (suffix_of c)) in E. revert E. apply suffix_not_temp; [done|by left].
  - intros E%append_cancel_l%append_cancel_r. revert E. apply suffix_not_temp; [done|]. unfold slot_suffix. destruct (1 <? timeComm_size c); [right|by left].
    destruct (setw_starts (timeComm_rank c)) as (d & s & -> & Hd); [apply Hc|]. eauto.
Qed.

(** C29: The names of the output files.  Consider two ranks of a pool, of the same
    time slot or not, and the name of the file that is written first, the name
    under which it is moved away, and the name under which the second pass creates
    its copy (with several time slots this has the number of the slot twice).
    If two of these are equal, they are the same kind of name, or the names of
    the file and of the copy with one time slot, and the two ranks are the same,
    where several files are made, and their time slots are the same, where there
    are several.  (Ranks that write one file together share its name.)  A file
    that is written first or as a copy never has the name of a temporary
    file. *)
Theorem output_names_distinct (fileName : string) (c c' : WriterCreationParameters) : ranks_ok c -> ranks_ok c' -> same_pool c c' ->
  (final_name fileName c = final_name fileName c' -> same_file c c') /\ (temp_name fileName c = temp_name fileName c' -> same_file c c') /\
  (copy_name fileName c = copy_name fileName c' -> same_file c c') /\ (copy_name fileName c = final_name fileName c' -> same_file c c' /\ timeComm_size c <= 1) /\
  final_name fileName c <> temp_name fileName c' /\ copy_name fileName c <> temp_name fileName c'.
Proof. intros Hc Hc' Hs. destruct (names_are_apart fileName c c' Hc Hc' Hs). by split_and!. Qed.

(** * The second pass *)

(** The ranks of the pools of all time slots; a pool writes several files or one. *)
Definition pool_params (multi : bool) (slots n : nat) : list WriterCreationParameters :=
  map (fun r => {| wc_rank := Z.of_nat (r mod n); timeComm_rank := Z.of_nat (r / n); timeComm_size := Z.of_nat slots;
                   createMultipleFiles := multi && (1 <? n)%nat; isParallelIo := negb multi && (1 <? n)%nat |}) (seq 0 (slots * n)).

Lemma insert_nothing s : insert_at (extension_pos s) "" s = s.
Proof.
  destruct (name_split s) as (a & e & -> & Hp). pose proof (Hp "" eq_refl) as H0. change ("" +:+ e) with e in H0. rewrite Nat.add_0_r in H0. by rewrite H0, insert_between.
Qed.

Lemma sum_list_insert (l : list nat) r x : l !! r = Some x -> sum_list (<[r := S x]> l) = S (sum_list l).
Proof. revert r. induction l as [|y l IH]; intros [|r] H; simplify_eq/=; [done|]. rewrite IH by done. lia. Qed.
Lemma sum_list_bound (l : list nat) b : Forall (fun x => (x <= b)%nat) l -> (sum_list l <= b * length l)%nat.
Proof. induction 1; cbn; lia. Qed.

Section post.
Context {F : Type} (empty : F) (copyGroup : F -> F -> res F) (fileName : string) (multi : bool) (slots n : nat) (Hn : Z.of_nat (slots * n) < 2 ^ 31) (fs0 : gmap string F).
Notation cs := (pool_params multi slots n).
Notation final := (final_name fileName).
Notation temp := (temp_name fileName).
Notation copied := (copy_name fileName).
Implicit Types (fs : gmap string F) (pcs : list nat).

Record is_member (r : nat) (c : WriterCreationParameters) : Prop := {
  pm_ok : ranks_ok c;
  pm_size : timeComm_size c = Z.of_nat slots;
  pm_rank : wc_rank c = Z.of_nat (r mod n);
  pm_slot : timeComm_rank c = Z.of_nat (r / n);
  pm_multi : createMultipleFiles c = multi && (1 <? n)%nat;
  pm_parallel : isParallelIo c = negb multi && (1 <? n)%nat;
  pm_bound : (r < slots * n)%nat
}.
Lemma pool_member r c : cs !! r = Some c -> is_member r c.
Proof.
  unfold pool_params. intros H. rewrite list_lookup_fmap in H. destruct (seq 0 (slots * n) !! r) as [i|] eqn:E; [|done]. apply lookup_seq in E as [-> Hr]. cbn [Nat.add] in H. cbn in H. injection H as <-.
  assert (Hn0 : (n <> 0)%nat) by (intros ->; lia). pose proof (Nat.mod_upper_bound r n Hn0). pose proof (Nat.Div0.div_le_upper_bound r n r ltac:(nia)).
  pose proof (Nat.Div0.mod_le r n). split; try done. split; cbn; unfold is_rank; lia.
Qed.
Lemma pool_same r r' c c' : is_member r c -> is_member r' c' -> same_pool c c'.
Proof. intros [] []. split; congruence. Qed.
Lemma pool_different r r' c c' : is_member r c -> is_member r' c' -> does_post c = true -> does_post c' = true -> r <> r' -> ~ same_file c c'.
Proof.
  intros [_ Hz Hw Ht Hm Hp Hl] [_ Hz' Hw' Ht' Hm' Hp' Hl'] Hd Hd' Hr [Hs1 Hs2]. assert (Hn0 : (n <> 0)%nat) by (intros ->; lia).
  pose proof (Nat.div_mod r n Hn0) as Er. pose proof (Nat.div_mod r' n Hn0) as Er'.
  assert (Ediv : (r / n = r' / n)%nat).
  { destruct (decide (slots <= 1)%nat) as [Hle|Hgt]; [|rewrite Hz, Ht, Ht' in Hs2; specialize (Hs2 ltac:(lia)); lia].
    rewrite !Nat.div_small by nia. done. }
  destruct (decide (r mod n = r' mod n)%nat) as [|Hne]; [congruence|].
  pose proof (Nat.mod_upper_bound r n Hn0). pose proof (Nat.mod_upper_bound r' n Hn0). unfold does_post in Hd, Hd'. rewrite Hp in Hd. rewrite Hp' in Hd'. rewrite Hm in Hs1.
  destruct (Nat.ltb_spec 1 n); [|lia]. destruct multi; cbn [andb negb] in *; [specialize (Hs1 eq_refl); lia|]. apply Z.eqb_eq in Hd, Hd'. lia.
Qed.

(** The names of a rank are not those of another one. *)
Definition not_of (c' : WriterCreationParameters) (name : string) : Prop := name <> final c' /\ name <> temp c' /\ name <> copied c'.
Lemma pool_apart r r' c c' : cs !! r = Some c -> cs !! r' = Some c' -> does_post c = true -> does_post c' = true -> r <> r' ->
  not_of c' (final c) /\ not_of c' (temp c) /\ not_of c' (copied c).
Proof.
  intros H%pool_member H'%pool_member Hd Hd' Hr. pose proof (pool_different r r' c c' H H' Hd Hd' Hr) as Hne. pose proof (pool_different r' r c' c H' H Hd' Hd (not_eq_sym Hr)) as Hne'.
  destruct (names_are_apart fileName c c' (pm_ok _ _ H) (pm_ok _ _ H') (pool_same _ _ _ _ H H')) as [A1 A2 A3 A4 A5 A6].
  destruct (names_are_apart fileName c' c (pm_ok _ _ H') (pm_ok _ _ H) (pool_same _ _ _ _ H' H)) as [B1 B2 B3 B4 B5 B6].
  unfold not_of. split_and!; first [done | by apply not_eq_sym | intros E; first [by apply Hne, A1 | by apply Hne, A2 | by apply Hne, A3 | by apply Hne, A4 | by apply Hne', B4]].
Qed.
Lemma own_names r c : cs !! r = Some c -> final c <> temp c /\ copied c <> temp c /\ (copied c = final c <-> (slots <= 1)%nat).
Proof.
  intros H%pool_member. destruct (names_are_apart fileName c c (pm_ok _ _ H) (pm_ok _ _ H) (pool_same _ _ _ _ H H)) as [_ _ _ A4 A5 A6]. split_and!; [done|done|]. split.
  - intros E. apply A4 in E as [_ E]. rewrite (pm_size _ _ H) in E. lia.
  - intros Hs. unfold copy_name, outFileName, uniquifyFileName, mpiTimeRank. cbn [createMultipleFiles workaround_params timeComm_size]. rewrite (pm_size _ _ H).
    rewrite (proj2 (Z.ltb_ge 1 (Z.of_nat slots))) by lia. apply insert_nothing.
Qed.

Context (Hfiles : forall c, c ∈ cs -> does_post c = true -> exists f g, fs0 !! final c = Some f /\ copyGroup f empty = Ok g).

(** The files of a rank after some of its steps. *)
Record rank_files (c : WriterCreationParameters) (pc : nat) fs f g : Prop := {
  rf_file : fs0 !! final c = Some f;
  rf_copied : copyGroup f empty = Ok g;
  rf_temp : fs !! temp c = match pc with 0%nat => fs0 !! temp c | 1%nat | 2%nat => Some f | _ => None end;
  rf_start : pc = 0%nat -> fs !! final c = Some f;
  rf_copy : (1 < pc)%nat -> fs !! copied c = Some g;
  rf_final : (0 < pc)%nat -> copied c <> final c -> fs !! final c = None
}.
Definition others_kept fs : Prop := forall name, (forall c, c ∈ cs -> does_post c = true -> not_of c name) -> fs !! name = fs0 !! name.
Record post_inv (k : nat) (st : gmap string F * list nat) : Prop := {
  pi_length : length st.2 = (slots * n)%nat;
  pi_sum : sum_list st.2 = k;
  pi_bound : Forall (fun pc => (pc <= 3)%nat) st.2;
  pi_files r c pc : cs !! r = Some c -> does_post c = true -> st.2 !! r = Some pc -> exists f g, rank_files c pc st.1 f g;
  pi_others : others_kept st.1
}.

Lemma post_inv_start : post_inv 0 (fs0, replicate (slots * n) 0%nat).
Proof.
  split; cbn [fst snd].
  - apply length_replicate.
  - clear. induction (slots * n)%nat; cbn; auto.
  - apply Forall_replicate. lia.
  - intros r c pc Hr Hd [-> _]%lookup_replicate. destruct (Hfiles c) as (f & g & Hf & Hg); [by apply list_elem_of_lookup_2 in Hr|done|]. exists f, g. split; try done; lia.
  - intros name _. done.
Qed.

(** A step changes the files of its rank, as it should. *)
Lemma action_ok r c pc fs f g : cs !! r = Some c -> rank_files c pc fs f g -> (pc < 3)%nat ->
  exists fs', post_action empty copyGroup fileName c pc fs = Ok fs' /\ rank_files c (S pc) fs' f g /\ forall name, not_of c name -> fs' !! name = fs !! name.
Proof.
  intros Hr [Hf Hg H1 H2 H3 H4] Hpc. destruct (own_names r c Hr) as (N1 & N2 & _). unfold post_action. fold (final c) (temp c).
  destruct (workaroundGenFileNames fileName c) as [fin tmp] eqn:E. assert (fin = final c) as -> by (unfold final_name; by rewrite E). assert (tmp = temp c) as -> by (unfold temp_name; by rewrite E).
  destruct pc as [|[|[|]]]; [| | |lia].
  - unfold rename_file. rewrite H2 by done. eexists. split; [done|]. split.
    + split; try done; [by rewrite lookup_insert_eq|lia|]. intros _ _. rewrite lookup_insert_ne by done. by rewrite lookup_delete_eq.
    + intros name (M1 & M2 & M3). rewrite lookup_insert_ne, lookup_delete_ne by done. done.
  - unfold copy_back. rewrite H1. unfold WriteH5File, createH5File. rewrite andb_false_r. cbn [mbind res_bind]. rewrite Hg. cbn [mbind res_bind]. fold (copied c). eexists. split; [done|]. split.
    + split; try done; [by rewrite !lookup_insert_ne by done|by rewrite lookup_insert_eq|]. intros _ Hne. rewrite !lookup_insert_ne by done. apply H4; [lia|done].
    + intros name (M1 & M2 & M3). by rewrite !lookup_insert_ne by done.
  - eexists. split; [done|]. unfold remove_file. split.
    + split; try done; [by rewrite lookup_delete_eq|intros _; rewrite lookup_delete_ne by done; apply H3; lia|]. intros _ Hne. rewrite lookup_delete_ne by done. apply H4; [lia|done].
    + intros name (M1 & M2 & M3). by rewrite lookup_delete_ne.
Qed.

Lemma step_inv k st st' : post_inv k st -> post_step empty copyGroup fileName cs st st' -> post_inv (S k) st'.
Proof.
  intros [Hl Hs Hb Hf Ho] Hst. destruct Hst as [r c pc fs fs' pcs Hr Hd Hpc Hlt Ha]. cbn [fst snd] in *. destruct (Hf r c pc Hr Hd Hpc) as (f & g & Hrf).
  destruct (action_ok r c pc fs f g Hr Hrf Hlt) as (fs'' & E & Hfiles' & Hk). rewrite Ha in E. injection E as ->. split; cbn [fst snd].
  - by rewrite length_insert.
  - rewrite (sum_list_insert _ _ _ Hpc). by rewrite Hs.
  - apply Forall_insert; [done|lia].
  - intros r' c' pc' Hr' Hd' Hpc'. destruct (decide (r' = r)) as [->|Hne].
    + rewrite list_lookup_insert_eq in Hpc' by (by apply lookup_lt_Some in Hpc). simplify_eq. eauto.
    + rewrite list_lookup_insert_ne in Hpc' by done. destruct (pool_apart _ _ _ _ Hr' Hr Hd' Hd Hne) as (N1 & N2 & N3).
      destruct (Hf r' c' pc' Hr' Hd' Hpc') as (f' & g' & [E1 E2 E3 E4 E5 E6]). exists f', g'. by split; rewrite ?Hk.
  - intros name Hname. rewrite Hk; [by apply Ho|]. apply Hname; [by apply list_elem_of_lookup_2 in Hr|done].
Qed.

Lemma runs_inv k st st' j : post_inv j st -> nsteps (post_step empty copyGroup fileName cs) k st st' -> post_inv (j + k) st'.
Proof.
  intros Hi Hr. revert j Hi. induction Hr as [|k x y z Hxy Hyz IH]; intros j Hi; [by rewrite Nat.add_0_r|]. replace (j + S k)%nat with (S j + k)%nat by lia. apply IH. by apply (step_inv j x).
Qed.

(** What the file system is like when all ranks are done. *)
Definition rewritten fs : Prop :=
  (forall c f, c ∈ cs -> does_post c = true -> fs0 !! final c = Some f ->
     exists g, copyGroup f empty = Ok g /\ fs !! copied c = Some g /\ fs !! temp c = None /\
       ((slots <= 1)%nat -> copied c = final c) /\ ((1 < slots)%nat -> fs !! final c = None)) /\ others_kept fs.
Lemma stuck_rewritten k st : post_inv k st -> (forall st', ~ post_step empty copyGroup fileName cs st st') -> rewritten st.1.
Proof.
  intros Hi Hst. split; [|apply (pi_others _ _ Hi)]. intros c f [r Hr]%list_elem_of_lookup Hd Hf. pose proof (pm_bound _ _ (pool_member _ _ Hr)) as Hl.
  destruct (lookup_lt_is_Some_2 st.2 r) as [pc Hpc]; [by rewrite (pi_length _ _ Hi)|]. destruct (pi_files _ _ Hi r c pc Hr Hd Hpc) as (f' & g & Hrf).
  destruct (decide (pc < 3)%nat) as [Hlt|Hge].
  - destruct (action_ok r c pc st.1 f' g Hr Hrf Hlt) as (fs' & E & _). exfalso. apply (Hst (fs', <[r := S pc]> st.2)). destruct st as [fs pcs]. by apply (rank_step _ _ _ _ r c pc).
  - pose proof (pi_bound _ _ Hi) as Hb. rewrite Forall_lookup in Hb. specialize (Hb r pc Hpc). assert (pc = 3%nat) as -> by lia.
    destruct Hrf as [E1 E2 E3 E4 E5 E6]. rewrite Hf in E1. injection E1 as <-. destruct (own_names r c Hr) as (_ & _ & Hiff). exists g.
    split_and!; [done|apply E5; lia|done|apply Hiff|]. intros Hs. apply E6; [lia|]. rewrite Hiff. lia.
Qed.
End post.

(** C27: The second pass ends and leaves every file in its place.  For the pools of all
    time slots, whose ranks take the steps of the second pass in any order: a run
    has at most three steps per rank, and when no rank can go on, every file that was
    written has been replaced by its copy, no temporary file is left, and the
    other files are as before.  With one time slot the copy has the name of the
    file.  With several the number of the time slot has been added to its name once more, and
    there is no file of the expected name. *)
Theorem post_completes {F : Type} (empty : F) (copyGroup : F -> F -> res F) (fileName : string) (multi : bool) (slots n : nat) (fs0 : gmap string F) :
  Z.of_nat (slots * n) < 2 ^ 31 ->
  (forall c, c ∈ pool_params multi slots n -> does_post c = true -> exists f g, fs0 !! final_name fileName c = Some f /\ copyGroup f empty = Ok g) ->
  forall k st, nsteps (post_step empty copyGroup fileName (pool_params multi slots n)) k (fs0, replicate (slots * n) 0%nat) st ->
    (k <= 3 * (slots * n))%nat /\
    ((forall st', ~ post_step empty copyGroup fileName (pool_params multi slots n) st st') -> rewritten empty copyGroup fileName multi slots n fs0 st.1).
Proof.
  intros Hn Hfiles k st Hr. assert (Hi : post_inv empty copyGroup fileName multi slots n fs0 (0 + k) st).
  { eapply runs_inv; [eassumption|by apply post_inv_start|exact Hr]. } split.
  - pose proof (sum_list_bound _ _ (pi_bound _ _ _ _ _ _ _ _ _ Hi)) as Hb. rewrite (pi_length _ _ _ _ _ _ _ _ _ Hi), (pi_sum _ _ _ _ _ _ _ _ _ Hi) in Hb. lia.
  - eapply stuck_rewritten; eassumption.
Qed.

(** The example: two ranks with a file each, whose contents are numbers, and a copy
    that adds a hundred. *)
Module PostSample.
Definition copy (f _ : Z) : res Z := Ok (f + 100).
Definition ranks : list WriterCreationParameters := pool_params true 1 2.
Definition fs0 : gmap string Z := {["out_0000.nc4" := 1; "out_0001.nc4" := 2; "notes.txt" := 3]}.
Definition fs6 : gmap string Z := {["out_0000.nc4" := 101; "out_0001.nc4" := 102; "notes.txt" := 3]}.
Definition slot : WriterCreationParameters := {| wc_rank := 0; timeComm_rank := 2; timeComm_size := 3; createMultipleFiles := false; isParallelIo := false |}.

Lemma output_names_distinct_witness : final_name "run/out.nc4" (default slot (ranks !! 0%nat)) <> temp_name "run/out.nc4" (default slot (ranks !! 1%nat)) /\
  temp_name "run/out.nc4" (default slot (ranks !! 1%nat)) = "run/out_flenstr_0001.nc4".
Proof.
  split; [|reflexivity]. apply (output_names_distinct "run/out.nc4" (default slot (ranks !! 0%nat)) (default slot (ranks !! 1%nat))).
  - split; cbn; unfold is_rank; lia.
  - split; cbn; unfold is_rank; lia.
  - split; reflexivity.
Defined.

(** The files after a step of a rank. *)
Definition after (r pc : nat) (fs : gmap string Z) : gmap string Z :=
  match post_action 0 copy "out.nc4" (default slot (ranks !! r)) pc fs with Ok fs' => fs' | Throw _ => fs end.
Definition order : list (nat * nat) := [(0, 0); (1, 0); (1, 1); (0, 1); (0, 2); (1, 2)]%nat.
Definition files (k : nat) : gmap string Z := foldl (fun fs p => after (fst p) (snd p) fs) fs0 (take k order).
Ltac one_step r pc k :=
  eapply (nsteps_l _ _ _ (files k, _)); [eapply (rank_step _ _ _ _ r (default slot (ranks !! r)) pc); [reflexivity|reflexivity|reflexivity|lia|vm_compute; reflexivity]|cbn [insert list_insert]].
Lemma both_ranks : nsteps (post_step 0 copy "out.nc4" ranks) 6 (files 0, [0; 0]%nat) (files 6, [3; 3]%nat).
Proof. one_step 0%nat 0%nat 1%nat. one_step 1%nat 0%nat 2%nat. one_step 1%nat 1%nat 3%nat. one_step 0%nat 1%nat 4%nat. one_step 0%nat 2%nat 5%nat. one_step 1%nat 2%nat 6%nat. apply nsteps_O. Qed.

Lemma post_completes_witness : files 6 = fs6 /\ rewritten 0 copy "out.nc4" true 1 2 fs0 fs6.
Proof.
  assert (E : files 6 = fs6) by (vm_compute; reflexivity).
  destruct (post_completes 0 copy "out.nc4" true 1 2 fs0 ltac:(lia)) with (k := 6%nat) (st := (files 6, [3; 3]%nat)) as [H1 H2].
  - intros c Hc _. unfold pool_params in Hc. cbn in Hc. rewrite !elem_of_cons, elem_of_nil in Hc. destruct Hc as [->|[->|[]]]; eexists _, _; (split; [vm_compute; reflexivity|reflexivity]).
  - exact both_ranks.
  - split; [exact E|]. cbn [fst] in H2. rewrite E in H2. apply H2. intros st' Hst. inversion Hst as [r c pc fs fs' pcs Hr Hd Hpc Hlt Ha]. subst. clear -Hpc Hlt. destruct r as [|[|r]]; cbn in Hpc; simplify_eq; lia.
Defined.

(** A time slot is added twice to the name of the copy. *)
Lemma slot_name : final_name "out.nc4" slot = "out_0002.nc4" /\ copy_name "out.nc4" slot = "out_0002_0002.nc4".
Proof. split; reflexivity. Qed.
End PostSample.
