(* ===== verification/Generators.v ===== *)
(** Generated observations.

    Models src/src/engines/ioda/src/ioda/Engines/GenList.cpp and GenRandom.cpp with
    [storeGenData] of EngineUtils.cpp: the group of variables that a generator hands
    to the frame reader instead of a file, on one rank for a list of locations and
    on all ranks for random ones. *)
From stdpp Require Import base list gmap strings.
From Stdlib Require Import ZArith.
From S2P Require Import Prelude Mpi ObsTypes ObsFrame ObsFrameRead OdbVariables.
Local Open Scope Z_scope.

(** The arithmetic of floats, the conversions from and to int64_t, and
    util::UniformDistribution<float>(n, 0, 1, seed). *)
Class GenFloat (F : Type) := {
  gf_add : F -> F -> F;
  gf_sub : F -> F -> F;
  gf_mul : F -> F -> F;
  gf_of_int64 : Z -> F;
  gf_to_int64 : F -> Z;
  ud_data : nat -> Z -> list F
}.

Section generators.
Context {F DT : Type} `{FO : FloatOps F} `{DO : DateTimeOps DT} `{MV : MissingValues F} `{GF : GenFloat F}.

(** A group with one dimension scale. *)
Definition location_group (numLocs : nat) : ObsGroup F :=
  {| g_dim_names := ["Location"]; g_dims := {["Location" := (Z.of_nat numLocs, Z.of_nat numLocs)]}; g_names := []; g_vars := ∅ |}.

Definition store_errors (nlocs : nat) (obsVarNames : list string) (obsErrors : list F) (g : ObsGroup F) : res (ObsGroup F) :=
  foldM (fun g '(i, name) =>
      e ← vec_get obsErrors i;
      create_and_write ("ObsError/" +:+ name) ["Location"] float_t (Some (VFloat missing_float)) (replicate nlocs (VFloat e)) g)
    g (imap (fun i name => (i, name)) obsVarNames).
Definition storeGenData (latVals lonVals : list F) (dts : list Z) (obsVarNames : list string) (obsErrors : list F) (g : ObsGroup F) : res (ObsGroup F) :=
  g ← create_and_write "MetaData/latitude" ["Location"] float_t (Some (VFloat missing_float)) (map VFloat latVals) g;
  g ← create_and_write "MetaData/longitude" ["Location"] float_t (Some (VFloat missing_float)) (map VFloat lonVals) g;
  g ← create_and_write "MetaData/dateTime" ["Location"] int64_t (Some (VInt64 missing_int64)) (map VInt64 dts) g;
  store_errors (length latVals) obsVarNames obsErrors g.

(** ** A list of locations *)

Record GenListParameters := { gl_lats : list F; gl_lons : list F; gl_dateTimes : list Z; gl_obsErrors : list F }.
Definition genDistList (params : GenListParameters) (obsVarNames : list string) (g : ObsGroup F) : res (ObsGroup F) :=
  _ ← assert (length (gl_obsErrors params) =? length obsVarNames)%nat;
  storeGenData (gl_lats params) (gl_lons params) (gl_dateTimes params) obsVarNames (gl_obsErrors params) g.
Definition GenList (params : GenListParameters) (obsVarNames : list string) : res (ObsGroup F) :=
  genDistList params obsVarNames (location_group (length (gl_lats params))).

(** ** Random locations *)

Record GenRandomParameters := { gr_numObs : nat; latStart : F; latEnd : F; lonStart : F; lonEnd : F; gr_obsErrors : list F }.
Definition scaled (start end_ r : F) : F := gf_add start (gf_mul r (gf_sub end_ start)).
(** An offset of zero would be outside the window. *)
Definition offsetDt (timeRange : F) (r : F) : Z := let o := gf_to_int64 (gf_mul r timeRange) in if o =? 0 then 1 else o.
(** What a rank does once it has the random values. *)
Definition random_group (params : GenRandomParameters) (winStart winEnd : DT) (obsVarNames : list string) (ranVals ranVals2 : list F) : res (ObsGroup F) :=
  let timeRange := gf_of_int64 (dt_diff winEnd winStart) in
  storeGenData (map (scaled (latStart params) (latEnd params)) ranVals) (map (scaled (lonStart params) (lonEnd params)) ranVals2)
    (map (offsetDt timeRange) ranVals) obsVarNames (gr_obsErrors params) (location_group (gr_numObs params)).
(** The values of all ranks before the broadcast: the first rank has the random
    sequences of its seed, the others zeros.  The seed is the parameter or the
    clock of the rank. *)
Definition seeded_values (numLocs : nat) (seeds : list Z) : list (list F * list F) :=
  imap (fun rank ranSeed => if (rank =? 0)%nat then (ud_data numLocs ranSeed, ud_data numLocs (ranSeed + 1)) else (replicate numLocs f_zero, replicate numLocs f_zero)) seeds.
Definition GenRandom `{MpiComm} (params : GenRandomParameters) (winStart winEnd : DT) (obsVarNames : list string) (seeds : list Z) : res (list (ObsGroup F)) :=
  _ ← assert (length (gr_obsErrors params) =? length obsVarNames)%nat;
  let vals := seeded_values (gr_numObs params) seeds in
  let ranVals := comm_broadcast 0 (map fst vals) in
  let ranVals2 := comm_broadcast 0 (map snd vals) in
  mapR (fun '(r, r2) => random_group params winStart winEnd obsVarNames r r2) (zip ranVals ranVals2).
End generators.
Arguments GenListParameters F : clear implicits.
Arguments GenRandomParameters F : clear implicits.
