(* ===== verification/GeneratorsSpec.v ===== *)
(** Generated observations are well-formed sources for the frame reader, the same on
    all ranks, and random ones are inside the timing window. *)
From stdpp Require Import base list gmap strings.
From Stdlib Require Import ZArith.
From S2P Require Import Prelude Mpi Selection VarAttrStore ObsTypes ObsVariables ObsFrame ObsFrameRead ObsFrameReadSpec OdbVariables Generators.
Local Open Scope Z_scope.

Section spec.
Context {F DT : Type} `{FO : FloatOps F} `{DO : DateTimeOps DT} `{MV : MissingValues F} `{GF : GenFloat F}.
Context (n : nat) (Hn : Z.of_nat n < 2 ^ 31).
Implicit Types (g : ObsGroup F).

(** * Columns along Location *)

Record Column := { cn_name : string; cn_type : OType; cn_fill : Val F; cn_data : list (Val F) }.
Definition is_column (c : Column) (fv : FrameVar F) : Prop :=
  fv_dims fv = ["Location"] /\ dtype_ (fv_var fv) = cn_type c /\ fvdata_ (fv_var fv) = Some (cn_fill c) /\ array (fv_var fv) n [] (cn_data c).
Definition column_ok (c : Column) : Prop := supported (cn_type c) /\ length (cn_data c) = n.
Definition store_column (c : Column) g : res (ObsGroup F) := create_and_write (cn_name c) ["Location"] (cn_type c) (Some (cn_fill c)) (cn_data c) g.
(** A group with these columns and no others. *)
Record has_columns (cs : list Column) g : Prop := {
  hc_dim_names : g_dim_names g = ["Location"];
  hc_dims : g_dims g = {["Location" := (Z.of_nat n, Z.of_nat n)]};
  hc_names : g_names g = map cn_name cs;
  hc_vars c : c ∈ cs -> exists fv, g_vars g !! cn_name c = Some fv /\ is_column c fv;
  hc_only name : name ∉ map cn_name cs -> g_vars g !! name = None
}.

Lemma float_supported : supported float_t.
Proof. unfold supported. rewrite !elem_of_cons. right; right; left. reflexivity. Qed.
Lemma int64_supported : supported int64_t.
Proof. unfold supported. rewrite !elem_of_cons. right; left. reflexivity. Qed.
Lemma location_shape : shape n [].
Proof. split; [done| |]; unfold prodZ; cbn; lia. Qed.
Lemma store_column_ok cs g c : has_columns cs g -> column_ok c -> cn_name c ∉ map cn_name cs -> exists g', store_column c g = Ok g' /\ has_columns (cs ++ [c]) g'.
Proof.
  intros [H1 H2 H3 H4 H5] [Ht Hl] Hnew. unfold store_column, create_and_write.
  destruct (createWithScales_filled (cn_name c) ["Location"] (cn_type c) (Some (cn_fill c)) g n (Z.of_nat n) []) as (fv & data & -> & Hi & _); [done|apply location_shape|lia| |].
  { cbn. unfold dim_open. rewrite H2, lookup_singleton_eq. done. }
  cbn [mbind res_bind]. destruct (write_all (fv_var fv) n [] data) with (x := cn_data c) as (st & Hw & Ha); [apply (vi_array _ _ _ _ _ _ _ _ Hi)|rewrite Hl; unfold row_size, prodZ; cbn; lia|].
  rewrite (vi_type _ _ _ _ _ _ _ _ Hi) in Hw. unfold vars_update, vars_open. cbn [g_vars]. rewrite lookup_insert_eq. cbn [mbind res_bind]. rewrite Hw. cbn [mbind res_bind]. eexists. split; [reflexivity|].
  split; cbn [g_dim_names g_dims g_names g_vars set_vars].
  - done.
  - done.
  - by rewrite H3, map_app.
  - intros d [Hd| ->%list_elem_of_singleton]%elem_of_app.
    + destruct (H4 d Hd) as (fv' & E & Hfv'). exists fv'. split; [|done]. assert (Hne : cn_name c <> cn_name d) by (intros E'; apply Hnew; apply list_elem_of_fmap; by exists d). by rewrite !lookup_insert_ne.
    + eexists. rewrite lookup_insert_eq. split; [done|]. split_and!; cbn; [apply (vi_dims _ _ _ _ _ _ _ _ Hi)|apply (vi_type _ _ _ _ _ _ _ _ Hi)|apply (vi_fill _ _ _ _ _ _ _ _ Hi)|done].
  - intros name Hname. rewrite map_app, not_elem_of_app in Hname. destruct Hname as [N1 N2]. rewrite !lookup_insert_ne by (intros <-; apply N2; left). by apply H5.
Qed.
Lemma store_columns_ok new : forall cs g, has_columns cs g -> Forall column_ok new -> NoDup (map cn_name (cs ++ new)) ->
  exists g', foldM (fun g c => store_column c g) g new = Ok g' /\ has_columns (cs ++ new) g'.
Proof.
  induction new as [|c new IH]; intros cs g Hg Hok Hnd; [exists g; by rewrite app_nil_r|]. apply Forall_cons in Hok as [Hc Hok]. cbn [foldM].
  destruct (store_column_ok cs g c Hg Hc) as (g1 & -> & Hg1).
  { rewrite map_app in Hnd. apply NoDup_app in Hnd as (_ & Hnd & _). intros Hin. apply (Hnd _ Hin). left. }
  cbn [mbind res_bind]. destruct (IH (cs ++ [c]) g1) as (g' & E & Hg'); [done|done|by rewrite <-app_assoc|]. exists g'. rewrite <-app_assoc in Hg'. done.
Qed.
Lemma location_group_columns : has_columns [] (location_group n).
Proof. split; try done. intros c Hc%elem_of_nil. done. Qed.

(** * What a generator stores *)

Definition error_column (e : F) (name : string) : Column := {| cn_name := "ObsError/" +:+ name; cn_type := float_t; cn_fill := VFloat missing_float; cn_data := replicate n (VFloat e) |}.
Definition generated_columns (lats lons : list F) (ts : list Z) (names : list string) (errors : list F) : list Column :=
  [{| cn_name := "MetaData/latitude"; cn_type := float_t; cn_fill := VFloat missing_float; cn_data := map VFloat lats |};
   {| cn_name := "MetaData/longitude"; cn_type := float_t; cn_fill := VFloat missing_float; cn_data := map VFloat lons |};
   {| cn_name := "MetaData/dateTime"; cn_type := int64_t; cn_fill := VInt64 missing_int64; cn_data := map VInt64 ts |}] ++ zip_with error_column errors names.
Lemma store_errors_columns names errors g : length errors = length names -> store_errors n names errors g = foldM (fun g c => store_column c g) g (zip_with error_column errors names).
Proof.
  unfold store_errors. intros Hl.
  assert (Hgo : forall names errors done_ g, length errors = length names ->
    foldM (fun g '(i, name) => e ← vec_get (done_ ++ errors) i; create_and_write ("ObsError/" +:+ name) ["Location"] float_t (Some (VFloat missing_float)) (replicate n (VFloat e)) g) g (imap (fun i name => ((length done_ + i)%nat, name)) names) =
    foldM (fun g c => store_column c g) g (zip_with error_column errors names)); [|apply (Hgo names errors [] g Hl)].
  clear. induction names as [|name names IH]; intros [|e errors] done_ g Hl; try done. cbn [imap foldM zip_with]. rewrite Nat.add_0_r. unfold vec_get at 2. rewrite lookup_app_r, Nat.sub_diag by lia. cbn [lookup list_lookup mbind res_bind].
  change (store_column (error_column e name) g) with (create_and_write ("ObsError/" +:+ name) ["Location"] float_t (Some (VFloat missing_float)) (replicate n (VFloat e)) g).
  destruct (create_and_write _ _ _ _ _ g) as [g'|]; [|done]. cbn [mbind res_bind].
  specialize (IH errors (done_ ++ [e]) g'). rewrite <-app_assoc in IH. cbn [app] in IH. rewrite <-IH by (cbn in Hl; lia). f_equal. apply imap_ext. intros i x _. cbn. rewrite length_app. cbn. f_equal. lia.
Qed.
Definition names_ok (names : list string) (errors : list F) : Prop := NoDup names /\ length errors = length names.
Lemma column_names lats lons ts names errors : length errors = length names -> map cn_name (generated_columns lats lons ts names errors) = ["MetaData/latitude"; "MetaData/longitude"; "MetaData/dateTime"] ++ map (String.append "ObsError/") names.
Proof.
  intros Hl. unfold generated_columns. rewrite map_app. f_equal. revert errors Hl. induction names as [|x names IH]; intros [|e errors] Hl; try done. cbn in *. f_equal. apply IH. lia.
Qed.
Definition lengths_ok (lats lons : list F) (ts : list Z) : Prop := length lats = n /\ length lons = n /\ length ts = n.
Lemma generated_ok lats lons ts names errors : lengths_ok lats lons ts -> names_ok names errors ->
  Forall column_ok (generated_columns lats lons ts names errors) /\ NoDup (map cn_name (generated_columns lats lons ts names errors)).
Proof.
  intros (H1 & H2 & H3) [Hnd Hl]. split.
  - unfold generated_columns. apply Forall_app. split.
    + apply Forall_cons. split; [split; [apply float_supported|cbn [cn_data]; by rewrite length_map]|]. apply Forall_cons. split; [split; [apply float_supported|cbn [cn_data]; by rewrite length_map]|].
      apply Forall_cons. split; [split; [apply int64_supported|cbn [cn_data]; by rewrite length_map]|]. apply Forall_nil_2.
    + apply Forall_forall. intros c Hc. apply elem_of_lookup_zip_with in Hc as (i & e & name & -> & _ & _). split; [apply float_supported|]. cbn [cn_data error_column]. apply length_replicate.
  - rewrite column_names by done. cbn [app]. assert (Hmeta : forall x l, String.get 0 x = Some (Ascii.ascii_of_nat 77) -> x ∉ map (String.append "ObsError/") l).
    { intros x l Hx (y & -> & _)%list_elem_of_fmap. done. }
    apply NoDup_cons. split; [rewrite !not_elem_of_cons; split_and!; [done|done|by apply Hmeta]|]. apply NoDup_cons. split; [rewrite !not_elem_of_cons; split_and!; [done|by apply Hmeta]|].
    apply NoDup_cons. split; [by apply Hmeta|]. by apply (NoDup_fmap_2 (String.append "ObsError/")).
Qed.
Lemma storeGenData_ok lats lons ts names errors : lengths_ok lats lons ts -> names_ok names errors ->
  exists src, storeGenData lats lons ts names errors (location_group n) = Ok src /\ has_columns (generated_columns lats lons ts names errors) src.
Proof.
  intros Hlen Hnames. destruct (generated_ok lats lons ts names errors Hlen Hnames) as [Hok Hnd]. destruct Hlen as (H1 & _ & _), Hnames as [_ Hl].
  destruct (store_columns_ok (generated_columns lats lons ts names errors) [] (location_group n) location_group_columns Hok Hnd) as (src & E & Hsrc).
  exists src. split; [|done]. rewrite <-E. unfold storeGenData. cbn [app foldM generated_columns]. unfold store_column. cbn [cn_name cn_type cn_fill cn_data].
  do 3 (match goal with |- mbind _ (create_and_write ?a ?b ?c ?d ?e ?g) = _ => destruct (create_and_write a b c d e g); [|done] end; cbn [mbind res_bind]). rewrite H1. exact (store_errors_columns names errors _ Hl).
Qed.

(** * A generated source is well formed *)

Lemma lookup_column cs g name fv : has_columns cs g -> g_vars g !! name = Some fv -> exists c, c ∈ cs /\ cn_name c = name /\ is_column c fv.
Proof.
  intros H Hv. destruct (decide (name ∈ map cn_name cs)) as [Hin|Hout]; [|by rewrite (hc_only _ _ H _ Hout) in Hv]. apply list_elem_of_fmap in Hin as (c & -> & Hc).
  destruct (hc_vars _ _ H c Hc) as (fv' & E & Hfv). rewrite Hv in E. simplify_eq E. intros <-. eauto.
Qed.
Lemma column_location cs g c : has_columns cs g -> c ∈ cs -> exists fv, location_column g (cn_name c) (cn_type c) (cn_data c) fv /\ fvdata_ (fv_var fv) = Some (cn_fill c).
Proof. intros H Hc. destruct (hc_vars _ _ H c Hc) as (fv & Hv & H1 & H2 & H3 & H4). exists fv. split; [|done]. split_and!; [done..|apply (arr_data _ _ _ _ H4)]. Qed.

Definition grouping_ok (p : ReadParams DT) : Prop := forall v, v ∈ obs_grouping_vars_ p -> v ∈ ["latitude"; "longitude"; "dateTime"].
Lemma columns_source (p : ReadParams DT) m src lats lons ts names errors : has_columns (generated_columns lats lons ts names errors) src -> lengths_ok lats lons ts -> names_ok names errors ->
  max_frame_size_ p = Z.of_nat m -> (0 < m)%nat -> grouping_ok p -> source_ok p src m n ts lats lons missing_float missing_float.
Proof.
  intros H Hlen Hno Hm Hm0 Hg. destruct (generated_ok _ _ _ _ _ Hlen Hno) as [Hok Hnd]. destruct Hno as [_ Hl]. pose proof (column_names lats lons ts names errors Hl) as Hnames.
  split.
  - done.
  - done.
  - by rewrite (hc_names _ _ H).
  - intros name. rewrite (hc_names _ _ H). split.
    + intros (c & -> & Hc)%list_elem_of_fmap. destruct (hc_vars _ _ H c Hc) as (fv & -> & _). eauto.
    + intros [fv Hfv]. destruct (lookup_column _ _ _ _ H Hfv) as (c & Hc & <- & _). apply list_elem_of_fmap. eauto.
  - intros name Hname. rewrite (hc_dims _ _ H). apply lookup_singleton_ne. intros <-. rewrite (hc_names _ _ H), Hnames in Hname. apply elem_of_app in Hname as [Hname|(y & E & _)%list_elem_of_fmap]; [|done].
    rewrite !elem_of_cons, elem_of_nil in Hname. destruct Hname as [?|[?|[?|[]]]]; done.
  - intros d. rewrite (hc_dim_names _ _ H), (hc_dims _ _ H), list_elem_of_singleton. split; [intros ->; rewrite lookup_singleton_eq; eauto|]. intros [x Hx]. by apply lookup_singleton_Some in Hx as [-> _].
  - exists (Z.of_nat n). by rewrite (hc_dims _ _ H), lookup_singleton_eq.
  - intros name fv Hfv. destruct (lookup_column _ _ _ _ H Hfv) as (c & Hc & <- & Hd & Ht & _ & Ha). rewrite Forall_forall in Hok. destruct (Hok c Hc) as [Hs Hlen'].
    assert (En : col_n (var_col fv) = n) by (cbn; rewrite (arr_dims _ _ _ _ Ha); cbn; lia). assert (Er : col_rest (var_col fv) = []) by (cbn; by rewrite (arr_dims _ _ _ _ Ha)).
    assert (Ed : col_data (var_col fv) = cn_data c) by apply (arr_data _ _ _ _ Ha). cbv zeta. rewrite En, Er, Ed. split; [done|]. split; rewrite ?En, ?Er, ?Ed.
    + apply location_shape.
    + cbn. by rewrite Ht.
    + rewrite Hlen'. unfold col_row. rewrite Er. unfold row_size, prodZ. cbn. lia.
    + exists "Location", [], (Z.of_nat n). split_and!; [done|by rewrite (hc_dims _ _ H), lookup_singleton_eq|constructor].
  - destruct (column_location _ _ {| cn_name := "MetaData/latitude"; cn_type := float_t; cn_fill := VFloat missing_float; cn_data := map VFloat lats |} H) as (fv & Hfv & Hf); [by left|]. exists fv. split; [done|]. unfold float_fill. by rewrite Hf.
  - destruct (column_location _ _ {| cn_name := "MetaData/longitude"; cn_type := float_t; cn_fill := VFloat missing_float; cn_data := map VFloat lons |} H) as (fv & Hfv & Hf); [by right; left|]. exists fv. split; [done|]. unfold float_fill. by rewrite Hf.
  - destruct (column_location _ _ {| cn_name := "MetaData/dateTime"; cn_type := int64_t; cn_fill := VInt64 missing_int64; cn_data := map VInt64 ts |} H) as (fv & Hfv & Hf); [by right; right; left|].
    left. split; [|by exists fv]. unfold use_epoch_datetime_, vars_exists. destruct Hfv as [Efv _]. cbn [cn_name] in Efv. rewrite Efv. by apply bool_decide_eq_true.
  - intros v Hv%Hg. assert (Hc : exists c, c ∈ generated_columns lats lons ts names errors /\ cn_name c = "MetaData/" +:+ v).
    { rewrite !elem_of_cons, elem_of_nil in Hv. destruct Hv as [->|[->|[->|[]]]]; [eexists; split; [by left|done]|eexists; split; [by right; left|done]|eexists; split; [by right; right; left|done]]. }
    destruct Hc as (c & Hc & <-). destruct (column_location _ _ c H Hc) as (fv & (Hfv & Hd & _) & _). eauto.
Qed.

(** The errors that are stored for a variable. *)
Definition errors_stored (src : ObsGroup F) (names : list string) (errors : list F) : Prop :=
  forall i name e, names !! i = Some name -> errors !! i = Some e -> exists fv, location_column src ("ObsError/" +:+ name) float_t (replicate n (VFloat e)) fv.
Lemma columns_errors src lats lons ts names errors : has_columns (generated_columns lats lons ts names errors) src -> errors_stored src names errors.
Proof.
  intros H i name e Hn' He. destruct (column_location _ _ (error_column e name) H) as (fv & Hfv & _); [|by exists fv]. unfold generated_columns. apply elem_of_app. right. apply elem_of_lookup_zip_with. eauto 10.
Qed.
Lemma generated_source (p : ReadParams DT) m lats lons ts names errors : lengths_ok lats lons ts -> names_ok names errors -> max_frame_size_ p = Z.of_nat m -> (0 < m)%nat -> grouping_ok p ->
  exists src, storeGenData lats lons ts names errors (location_group n) = Ok src /\ source_ok p src m n ts lats lons missing_float missing_float /\ errors_stored src names errors.
Proof.
  intros Hlen Hno Hm Hm0 Hg. destruct (storeGenData_ok lats lons ts names errors Hlen Hno) as (src & E & Hsrc). exists src. split_and!; [done|by apply (columns_source p m src lats lons ts names errors)|by apply (columns_errors _ lats lons ts)].
Qed.
End spec.

(** * The generators *)

Section generators.
Context {F DT : Type} `{FO : FloatOps F} `{DO : DateTimeOps DT} `{MV : MissingValues F} `{GF : GenFloat F}.

(** A list of locations is a source.  Given as many longitudes and dates as
    latitudes, and an error for each variable, the generator makes a well-formed
    source for the frame reader, with these coordinates and dates and with the error
    of each variable at all locations. *)
Theorem listed_observations (p : ReadParams DT) (m : nat) (params : GenListParameters F) (names : list string) :
  let n := length (gl_lats params) in
  Z.of_nat n < 2 ^ 31 -> length (gl_lons params) = n -> length (gl_dateTimes params) = n -> NoDup names -> length (gl_obsErrors params) = length names ->
  max_frame_size_ p = Z.of_nat m -> (0 < m)%nat -> grouping_ok p ->
  exists src, GenList params names = Ok src /\ source_ok p src m n (gl_dateTimes params) (gl_lats params) (gl_lons params) missing_float missing_float /\
    errors_stored n src names (gl_obsErrors params).
Proof.
  intros n Hn H1 H2 Hnd Hl Hm Hm0 Hg. unfold GenList, genDistList. rewrite Hl, Nat.eqb_refl. cbn [assert mbind res_bind]. by apply generated_source.
Qed.

(** What is documented of the other code: a uniform distribution between 0 and 1 has
    as many values as asked for, which scale a number of seconds (that floats
    represent) down; dates are ordered as their offsets; the missing value of int64_t
    is negative. *)
Class GeneratorLaws : Prop := {
  ud_length n seed : length (ud_data n seed) = n;
  ud_offset n seed r t : r ∈ ud_data n seed -> 0 <= t < 2 ^ 24 -> 0 <= gf_to_int64 (gf_mul r (gf_of_int64 t)) <= t;
  add_later (a : DT) t : dt_ltb a (dt_add a t) = (0 <? t);
  add_until (a b : DT) t : dt_leb (dt_add a t) b = (t <=? dt_diff b a);
  missing_is_negative : missing_int64 < 0
}.

(** An offset is inside the window. *)
Lemma offset_inside `{GeneratorLaws} (p : ReadParams DT) n seed r : frame_epoch p = windowStart p -> 1 <= dt_diff (windowEnd p) (windowStart p) < 2 ^ 24 -> r ∈ ud_data n seed ->
  inside_window p (offsetDt (gf_of_int64 (dt_diff (windowEnd p) (windowStart p))) r) = true.
Proof.
  intros He Hw Hr. set (d := dt_diff (windowEnd p) (windowStart p)) in *. assert (Ho : 0 <= gf_to_int64 (gf_mul r (gf_of_int64 d)) <= d) by (apply (ud_offset n seed); [done|lia]). pose proof missing_is_negative as Hmiss.
  unfold offsetDt. set (o := gf_to_int64 _) in *. assert (Hr' : 1 <= (if o =? 0 then 1 else o) <= d) by (destruct (Z.eqb_spec o 0); lia).
  unfold inside_window. rewrite decide_False by lia. unfold insideTimingWindow. rewrite He, add_later, add_until. fold d. apply andb_true_iff. split; [apply Z.ltb_lt|apply Z.leb_le]; lia.
Qed.

(** C28: Random locations.  Whatever the seeds of the ranks, all ranks get the same
    well-formed source, with an error for each variable, and no location of it is
    outside the timing window. *)
Theorem random_observations `{MpiLaws} `{GeneratorLaws} (p : ReadParams DT) (m : nat) (params : GenRandomParameters F) (names : list string) (seeds : list Z) :
  let n := gr_numObs params in
  Z.of_nat n < 2 ^ 31 -> NoDup names -> length (gr_obsErrors params) = length names -> seeds <> [] -> max_frame_size_ p = Z.of_nat m -> (0 < m)%nat -> grouping_ok p ->
  frame_epoch p = windowStart p -> 1 <= dt_diff (windowEnd p) (windowStart p) < 2 ^ 24 ->
  exists src lats lons ts, GenRandom params (windowStart p) (windowEnd p) names seeds = Ok (replicate (length seeds) src) /\
    source_ok p src m n ts lats lons missing_float missing_float /\ errors_stored n src names (gr_obsErrors params) /\ forall i, outside p ts i = false.
Proof.
  intros n Hn Hnd Hl Hs Hm Hm0 Hg He Hw. destruct seeds as [|seed seeds]; [done|]. unfold GenRandom. rewrite Hl, Nat.eqb_refl. cbn [assert mbind res_bind]. fold n.
  set (r := ud_data n seed). set (r2 := ud_data n (seed + 1)).
  rewrite (broadcast_law _ 0 _ r) by done. rewrite (broadcast_law _ 0 _ r2) by done. rewrite !length_map. unfold seeded_values. rewrite length_imap.
  set (lats := map (scaled (latStart params) (latEnd params)) r). set (lons := map (scaled (lonStart params) (lonEnd params)) r2).
  set (ts := map (offsetDt (gf_of_int64 (dt_diff (windowEnd p) (windowStart p)))) r).
  destruct (generated_source n Hn p m lats lons ts names (gr_obsErrors params)) as (src & E & Hsrc & Herr); [|done..|].
  { unfold lengths_ok, lats, lons, ts. rewrite !length_map. unfold r, r2. rewrite !ud_length. done. }
  exists src, lats, lons, ts. split_and!; [|done|done|].
  - generalize (length (seed :: seeds)). intros k. clear -E. induction k as [|k IH]; [done|]. cbn [replicate zip zip_with mapR]. change (zip_with pair ?a ?b) with (zip a b). rewrite IH.
    assert (random_group params (windowStart p) (windowEnd p) names r r2 = Ok src) as -> by exact E. done.
  - intros i. unfold outside. destruct (applyLocationsCheck p); [|done]. destruct (ts !! i) as [t|] eqn:Et; [|done]. unfold ts in Et. rewrite list_lookup_fmap in Et. destruct (r !! i) as [x|] eqn:Ex; [|done]. cbn in Et. simplify_eq Et. intros <-.
    rewrite (offset_inside p n seed x); [done|done|done|]. by apply list_elem_of_lookup_2 in Ex.
Qed.
End generators.

(** The example: floats and dates are integers, and the uniform distribution
    alternates between 0 and 1. *)
Module GeneratorSample.
#[local] Instance sample_float : FloatOps Z := {|
  f_zero := 0; f_eqb := Z.eqb; f_isinf _ := false; f_isnan _ := false; f_to_string _ := "0"; f_hours_to_seconds z := z * 3600 |}.
#[local] Instance sample_dates : DateTimeOps Z := {|
  dt_of_string _ := Ok 0; dt_add := Z.add; dt_diff := Z.sub; dt_ltb := Z.ltb; dt_leb := Z.leb; dt_missing := -1000 |}.
#[local] Instance sample_missing : MissingValues Z := {| missing_int := -99; missing_int64 := -99; missing_float := -99; missing_string := "missing"; missing_char := 0 |}.
#[local] Instance sample_gen : GenFloat Z := {|
  gf_add := Z.add; gf_sub := Z.sub; gf_mul := Z.mul; gf_of_int64 z := z; gf_to_int64 z := z; ud_data n seed := map (fun i => (seed + Z.of_nat i) mod 2) (seq 0 n) |}.
#[local] Instance sample_laws : GeneratorLaws.
Proof.
  split.
  - intros n seed. cbn. by rewrite length_map, length_seq.
  - intros n seed r t (i & -> & _)%list_elem_of_fmap Ht. cbn. pose proof (Z.mod_pos_bound (seed + Z.of_nat i) 2). nia.
  - intros a t. cbn. destruct (Z.ltb_spec 0 t); [apply Z.ltb_lt|apply Z.ltb_ge]; lia.
  - intros a b t. cbn. destruct (Z.leb_spec t (b - a)); [apply Z.leb_le|apply Z.leb_gt]; lia.
  - done.
Qed.
#[local] Existing Instance reference_comm.
#[local] Existing Instance reference_laws.

Definition p : ReadParams Z := {| windowStart := 100; windowEnd := 700; frame_epoch := 100; applyLocationsCheck := true; max_frame_size_ := 2; obs_grouping_vars_ := ["latitude"] |}.
Definition list_params : GenListParameters Z := {| gl_lats := [10; 20; 30]; gl_lons := [1; 2; 3]; gl_dateTimes := [60; 120; 180]; gl_obsErrors := [5] |}.
Definition random_params : GenRandomParameters Z := {| gr_numObs := 3; latStart := -90; latEnd := 90; lonStart := 0; lonEnd := 360; gr_obsErrors := [5] |}.
Lemma grouping : grouping_ok p.
Proof. intros v ->%list_elem_of_singleton. by left. Qed.

Lemma listed_observations_witness : exists src, GenList list_params ["airTemperature"] = Ok src /\ source_ok p src 2 3 [60; 120; 180] [10; 20; 30] [1; 2; 3] (-99) (-99) /\
  errors_stored 3 src ["airTemperature"] [5].
Proof.
  destruct (listed_observations p 2 list_params ["airTemperature"]) as (src & E & Hs & He); [cbn; lia|reflexivity|reflexivity|apply NoDup_singleton|reflexivity|reflexivity|lia|exact grouping|].
  exists src. split; [exact E|]. split; [exact Hs|exact He].
Defined.
(** Two ranks with different clocks. *)
Lemma random_observations_witness : exists src lats lons ts, GenRandom random_params 100 700 ["airTemperature"] [7; 8] = Ok [src; src] /\
  source_ok p src 2 3 ts lats lons (-99) (-99) /\ errors_stored 3 src ["airTemperature"] [5] /\ forall i, outside p ts i = false.
Proof.
  destruct (random_observations p 2 random_params ["airTemperature"] [7; 8]) as (src & lats & lons & ts & E & Hs & He & Ho); [cbn; lia|apply NoDup_singleton|reflexivity|discriminate|reflexivity|lia|exact grouping|reflexivity|cbn; lia|].
  exists src, lats, lons, ts. split; [exact E|]. split; [exact Hs|]. split; [exact He|exact Ho].
Defined.
End GeneratorSample.
