(* ===== verification/ObsSpaceNew.v ===== *)
(** The constructor of ObsSpace (src/src/ObsSpace.cc) on all ranks: reading the
    source, the lists of variables, the index of the records, the channel
    numbers, the extension and the missing observation errors, with ObsDimInfo
    and the queries that depend on them. *)
From stdpp Require Import base list gmap strings sorting pretty.
From Stdlib Require Import ZArith Ascii.
From S2P Require Import Prelude Mpi Distribution ObsTypes ObsAttributes ObsVariables ObsFrame ObsFrameRead.
From S2P Require Import ObsSpaceInit ObsRecords ObsSpaceVars ObsExtend.

(** * Dimensions *)

Inductive ObsDimensionId := Location | Channel.

#[export] Instance ObsDimensionId_eq_dec : EqDecision ObsDimensionId.
Proof. solve_decision. Defined.
#[export] Instance ObsDimensionId_countable : Countable ObsDimensionId.
Proof.
  refine (inj_countable' (fun d => match d with Location => true | Channel => false end)
    (fun b : bool => if b then Location else Channel) _). by intros [].
Defined.

Record ObsDimInfo := {
  dim_id_name_ : gmap ObsDimensionId string;
  dim_id_size_ : gmap ObsDimensionId nat;
  dim_name_id_ : gmap string ObsDimensionId
}.

Definition ObsDimInfo_new : ObsDimInfo :=
  {| dim_id_name_ := <[Channel := "Channel"]> {[Location := "Location"]};
     dim_id_size_ := <[Channel := 0]> {[Location := 0]};
     dim_name_id_ := <["Channel" := Channel]> {["Location" := Location]} |}.

(** [at] of a map. *)
Definition dim_at {K A} `{Countable K} (m : gmap K A) (k : K) : res A :=
  match m !! k with Some x => Ok x | None => Throw EOutOfRange end.

Definition get_dim_id (i : ObsDimInfo) (dimName : string) : res ObsDimensionId := dim_at (dim_name_id_ i) dimName.
Definition get_dim_name (i : ObsDimInfo) (dimId : ObsDimensionId) : res string := dim_at (dim_id_name_ i) dimId.
Definition get_dim_size (i : ObsDimInfo) (dimId : ObsDimensionId) : res nat := dim_at (dim_id_size_ i) dimId.
Definition set_dim_size (i : ObsDimInfo) (dimId : ObsDimensionId) (dimSize : nat) : res ObsDimInfo :=
  _ ← dim_at (dim_id_size_ i) dimId;
  Ok {| dim_id_name_ := dim_id_name_ i; dim_id_size_ := <[dimId := dimSize]> (dim_id_size_ i);
        dim_name_id_ := dim_name_id_ i |}.

(** * Lists of variables *)

(** oops::Variables: names, the channels they were made with, [+=] and [has]. *)
Class VariableLists (V : Type) := {
  vl_variables : V -> list string;
  vl_channels : V -> list Z;
  vl_new : list string -> list Z -> V;
  vl_add : V -> V -> V;
  vl_has : V -> string -> bool
}.
Class VariableListsLaws (V : Type) `{VariableLists V} := {
  vl_has_spec : forall v x, vl_has v x = true <-> x ∈ vl_variables v;
  vl_add_spec : forall v w x, x ∈ vl_variables (vl_add v w) <-> x ∈ vl_variables v \/ x ∈ vl_variables w;
  vl_new_spec : forall names x, x ∈ vl_variables (vl_new names []) <-> x ∈ names;
  vl_new_channels : forall names chans x, chans <> [] ->
    x ∈ vl_variables (vl_new names chans) <-> exists v c, v ∈ names /\ c ∈ chans /\ x = channel_name v c
}.

(** The part of a path after "[group]/". *)
Fixpoint path_in (group path : string) : option string :=
  match group, path with
  | "", String c rest => if decide (c = "/"%char) then Some rest else None
  | String a group, String b path => if decide (a = b) then path_in group path else None
  | _, _ => None
  end.

Section variables.
Context {F : Type}.

(** [exists] and the list of the variables of a group of the top level; the
    containers of the ObsStore are maps, iterated in the order of the names. *)
Definition group_exists (g : ObsGroup F) (group : string) : bool :=
  existsb (fun path => match path_in group path with Some _ => true | None => false end) (g_names g).
Definition group_vars (g : ObsGroup F) (group : string) : list string :=
  merge_sort string_le (List.filter no_slash (omap (path_in group) (g_names g))).

Definition nvars (g : ObsGroup F) : nat :=
  if group_exists g "ObsValue" then length (group_vars g "ObsValue")
  else if group_exists g "ObsError" then length (group_vars g "ObsError")
  else 0.
End variables.

(** ** The configuration *)

Record Config (V : Type) := {
  engine_type : string;
  ObservedVars : V;
  derivedSimVars : V;
  simVars : V;
  obsSortVar : string;
  obsSortGroup : string;
  obsSortOrder : string;
  missingSortValueTreatment : MissingSortValueTreatment;
  obsExtend : option (Z * list string)
}.
Arguments engine_type {V} _.
Arguments ObservedVars {V} _.
Arguments derivedSimVars {V} _.
Arguments simVars {V} _.
Arguments obsSortVar {V} _.
Arguments obsSortGroup {V} _.
Arguments obsSortOrder {V} _.
Arguments missingSortValueTreatment {V} _.
Arguments obsExtend {V} _.

Section choice.
Context {V F : Type} `{VL : VariableLists V}.
Implicit Types (cfg : Config V) (g : ObsGroup F).

Definition usingObsGenerator cfg : bool :=
  bool_decide (engine_type cfg = "GenList") || bool_decide (engine_type cfg = "GenRandom").

(** The list of observed variables before the derived ones are added. *)
Definition observed_variables cfg g : V :=
  if negb (length (vl_variables (ObservedVars cfg)) + length (vl_variables (derivedSimVars cfg)) =? 0) then ObservedVars cfg
  else if usingObsGenerator cfg then simVars cfg
  else if group_exists g "ObsValue" then vl_new (group_vars g "ObsValue") (vl_channels (simVars cfg))
  else simVars cfg.

(** The derived variables are added: [obsvars_] and [derived_obsvars_]. *)
Definition add_derived cfg (obsvars : V) : res (V * V) :=
  if negb (length (vl_variables (derivedSimVars cfg)) =? 0) then
    _ ← assert (bool_decide (vl_channels (derivedSimVars cfg) = vl_channels obsvars));
    Ok (vl_add obsvars (derivedSimVars cfg), derivedSimVars cfg)
  else Ok (obsvars, vl_new [] []).

Definition check_simulated (obsvars : V) (assimvars : list string) : res unit :=
  foldM (fun _ v => if vl_has obsvars v then Ok () else
    Throw (EUserError (v +:+ " is specified as a simulated variable but it has not been specified as an observed or a derived variable.")))
    () assimvars.
End choice.

(** * The constructor *)

(** The conversion of the 64-bit difference of two dates to a float. *)
Class FloatOfInt64 (F : Type) := f_of_int64 : Z -> F.

(** The data members the constructor sets, beside those of [Space]. *)
Record NewSpace (V F : Type) := {
  ns_space : Space F;
  dim_info_ : ObsDimInfo;
  ns_obsvars : V;
  initial_obsvars_ : V;
  derived_obsvars_ : V;
  assimvars_ : V;
  ns_chan_num_to_index : gmap Z nat;
  ns_gnlocs_outside_timewindow : Z;
  recidx_is_sorted_ : bool
}.
Arguments ns_space {V F} _.
Arguments dim_info_ {V F} _.
Arguments ns_obsvars {V F} _.
Arguments initial_obsvars_ {V F} _.
Arguments derived_obsvars_ {V F} _.
Arguments assimvars_ {V F} _.
Arguments ns_chan_num_to_index {V F} _.
Arguments ns_gnlocs_outside_timewindow {V F} _.
Arguments recidx_is_sorted_ {V F} _.

Section constructor.
Context {F DT D V : Type} `{FO : FloatOps F} `{DO : DateTimeOps DT} `{MV : MissingValues F} `{RD : ReaderDist D (F * F)}.
Context `{FL : FloatOrder F} `{FI : FloatOfInt64 F} `{VL : VariableLists V} `{EqDecision DT}.
Context (p : ReadParams DT) (src : ObsGroup F) (cfg : Config V).

(** [get_db] of dates: the epoch is in the units of the variable of the group
    itself, also when the offsets come from the derived group. *)
Definition get_db_DateTime (g : ObsGroup F) (cm : gmap Z nat) (epochDt : DT) (group name : string) (chanSelect : list Z)
    (skipDerived : bool) : res (list DT) :=
  timeOffsets ← loadVar g cm int64_t group name chanSelect skipDerived;
  _ ← vars_open (group +:+ "/" +:+ name) g;
  timeOffsets ← mapR val_int64 timeOffsets;
  Ok (convertEpochDtToDtime epochDt timeOffsets).

(** The sort values and their missing flags in [buildSortedObsGroups]. *)
Definition sort_values (g : ObsGroup F) (cm : gmap Z nat) (nLocs : nat) : res (list F * list bool) :=
  if bool_decide (obsSortVar cfg = "dateTime") then
    Dates ← get_db_DateTime g cm (frame_epoch p) "MetaData" (obsSortVar cfg) [] false;
    l ← mapR (fun iloc =>
        d ← vec_get Dates iloc; d0 ← vec_get Dates 0;
        Ok (f_of_int64 (dt_diff d d0), bool_decide (d = dt_missing))) (seq 0 nLocs);
    Ok (l.*1, l.*2)
  else
    SortValues ← loadVar g cm float_t (obsSortGroup cfg) (obsSortVar cfg) [] false;
    SortValues ← mapR val_float SortValues;
    Ok (SortValues, sort_flags missing_float SortValues).

(** The index of the records: sorted when there is a sort variable. *)
Definition build_index (g : ObsGroup F) (cm : gmap Z nat) (nLocs : nat) (recnums : list nat) : res (RecIdxMap * bool) :=
  if negb (bool_decide (obsSortVar cfg = "")) then
    '(vals, missing) ← sort_values g cm nLocs;
    recidx ← buildSortedObsGroups (missingSortValueTreatment cfg) (bool_decide (obsSortOrder cfg = "ascending"))
      nLocs recnums vals missing ∅;
    Ok (recidx, true)
  else
    recidx ← buildRecIdxUnsorted nLocs recnums ∅;
    Ok (recidx, false).

(** [open(name).getDimensions().dimsCur[0]] of a scale or another variable. *)
Definition first_dimension (g : ObsGroup F) (name : string) : res Z :=
  match g_dims g !! name with
  | Some (n, _) => Ok n
  | None => fv ← vars_open name g; vec_get (dimensions_ (fv_var fv)) 0
  end.

(** The sizes of the dimensions at the end of [initFromObsSource]. *)
Definition record_dims (g : ObsGroup F) (nLocs : nat) : res ObsDimInfo :=
  i ← set_dim_size ObsDimInfo_new Location nLocs;
  ChannelName ← get_dim_name i Channel;
  if exists_var g ChannelName then
    nChans ← first_dimension g ChannelName;
    set_dim_size i Channel (Z.to_nat nChans)
  else Ok i.

(** The constructor up to the extension, on one rank. [chanNumbers] are the
    coordinate values of the Channel scale. The index is built before the channel
    numbers are known. *)
Definition construct_rank (chanNumbers : list Z) (fuel : nat) (dist : D) : res (D * NewSpace V F) :=
  '(st, os) ← initFromObsSource p src fuel dist;
  let t := tally_ st in
  let g := obs_group_ os in
  let nLocs := Z.to_nat (nlocs_ t) in
  dims ← record_dims g nLocs;
  let initial := observed_variables cfg g in
  '(obsvars, derived) ← add_derived cfg initial;
  _ ← check_simulated obsvars (vl_variables (simVars cfg));
  '(recidx, sorted) ← build_index g ∅ nLocs (recnums_ t);
  let cm := if exists_var g ChannelVarName then fillChanNumToIndexMap chanNumbers else ∅ in
  Ok (dist_ t, {|
    ns_space := {| sp_group := g; sp_nlocs := nLocs; sp_gnlocs := Z.to_nat (gnlocs_ t); sp_nrecs := Z.to_nat (nrecs_ t);
                   sp_indx := indx_ t; sp_recnums := recnums_ t; sp_recidx := recidx |};
    dim_info_ := dims; ns_obsvars := obsvars; initial_obsvars_ := initial; derived_obsvars_ := derived;
    assimvars_ := simVars cfg; ns_chan_num_to_index := cm;
    ns_gnlocs_outside_timewindow := gnlocs_outside_timewindow_ t; recidx_is_sorted_ := sorted |}).

Definition set_space (ns : NewSpace V F) (s : Space F) (i : ObsDimInfo) : NewSpace V F :=
  {| ns_space := s; dim_info_ := i; ns_obsvars := ns_obsvars ns; initial_obsvars_ := initial_obsvars_ ns;
     derived_obsvars_ := derived_obsvars_ ns; assimvars_ := assimvars_ ns; ns_chan_num_to_index := ns_chan_num_to_index ns;
     ns_gnlocs_outside_timewindow := ns_gnlocs_outside_timewindow ns; recidx_is_sorted_ := recidx_is_sorted_ ns |}.

Definition with_group (s : Space F) (g : ObsGroup F) : Space F :=
  {| sp_group := g; sp_nlocs := sp_nlocs s; sp_gnlocs := sp_gnlocs s; sp_nrecs := sp_nrecs s; sp_indx := sp_indx s;
     sp_recnums := sp_recnums s; sp_recidx := sp_recidx s |}.

(** The rest of the constructor on one rank, [s] being the space after the
    extension, which sets the size of Location to the new number of locations. *)
Definition finish_rank (ns : NewSpace V F) (s : Space F) : res (NewSpace V F) :=
  i ← set_dim_size (dim_info_ ns) Location (sp_nlocs s);
  g ← createMissingObsErrors (sp_group s) (ns_chan_num_to_index ns) (sp_nlocs s) (vl_variables (ns_obsvars ns));
  Ok (set_space ns (with_group s g) i).

(** The constructor on all ranks; [collect] is the distribution that the objects
    of the ranks make up after the last frame. The channel numbers are the same
    on all ranks. *)
Definition ObsSpace_new `{MpiComm} (collect : list D -> res Distribution) (chanNumbers : list Z) (fuel : nat) (dists : list D)
  : res (Distribution * list (NewSpace V F)) :=
  ranks ← mapR (construct_rank chanNumbers fuel) dists;
  dist ← collect (map fst ranks);
  let spaces := map (fun r => ns_space r.2) ranks in
  '(dist, spaces) ← (match obsExtend cfg with
    | Some (companionRecordLength, nonMissingExtendedVars) =>
        extendObsSpace (match ranks with r :: _ => ns_chan_num_to_index r.2 | [] => ∅ end) companionRecordLength
          (negb (bool_decide (obs_grouping_vars_ p = []))) nonMissingExtendedVars dist spaces
    | None => Ok (dist, spaces)
    end);
  news ← mapR (fun '(r, s) => finish_rank r.2 s) (zip ranks spaces);
  Ok (dist, news).
End constructor.
