(* ===== verification/ObsSpaceNewSpec.v ===== *)
(** What the constructor of ObsSpace guarantees: the theorems about
    [ObsSpace_new]. *)
From stdpp Require Import base list gmap strings sorting pretty.
From Stdlib Require Import ZArith Ascii.
From S2P Require Import Prelude Mpi Distribution Nonoverlapping Selection VarAttrStore ObsTypes ObsAttributes ObsVariables ObsFrame.
From S2P Require Import ObsFrameRead ObsFrameReadSpec ObsSpaceInit ObsSpaceSource ObsRecords ObsSpaceVars ObsExtend ObsSpaceNew.

(** What holds before a loop and is kept by its steps holds after it. *)
Lemma foldM_keeps {A S} (f : S -> A -> res S) (I : S -> Prop) s l s' :
  (forall s x s', I s -> f s x = Ok s' -> I s') -> I s -> foldM f s l = Ok s' -> I s'.
Proof.
  intros Hf. revert s. induction l as [|x l IH]; intros s Hs; cbn [foldM]; intros Hr; [by inv_res|].
  res_step. by eauto.
Qed.

(** * The variables and dimensions of the group that is built *)

Section built.
Context {F DT D : Type} `{FO : FloatOps F} `{DO : DateTimeOps DT} `{MV : MissingValues F} `{RD : ReaderDist D (F * F)}.
Context (p : ReadParams DT) (src : ObsGroup F).
Implicit Types (g : ObsGroup F).

(** Every variable is listed, and the dimensions but Location are [dims]. *)
Definition built (dims : gmap string (Z * Z)) g : Prop :=
  (forall name, is_Some (g_vars g !! name) -> name ∈ g_names g) /\
  (forall d, d <> "Location" -> g_dims g !! d = dims !! d).

Lemma vars_update_built dims name f g g' : built dims g -> vars_update name f g = Ok g' -> built dims g'.
Proof.
  intros [Hn Hd]. unfold vars_update, vars_open. destruct (g_vars g !! name) as [fv|] eqn:E; cbn [mbind res_bind]; intros Hr; [|done].
  res_step. inv_res. split; [|done]. intros x. simpl. destruct (decide (x = name)) as [->|Hne].
  - intros _. apply Hn. by rewrite E.
  - rewrite lookup_insert_ne by done. apply Hn.
Qed.

Lemma createWithScales_built dims name ds t fill g g' :
  built dims g -> createWithScales name ds t fill g = Ok g' -> built dims g'.
Proof.
  intros [Hn Hd]. unfold createWithScales. intros Hr. repeat res_step. inv_res. split; [|done]. intros x. simpl.
  rewrite elem_of_app, list_elem_of_singleton. destruct (decide (x = name)) as [->|Hne]; [by right|].
  rewrite lookup_insert_ne by done. left. by apply Hn.
Qed.

Lemma resizeLocation_built dims n append g g' : built dims g -> resizeLocation n append g = Ok g' -> built dims g'.
Proof.
  intros Hb. unfold resizeLocation, ObsGroup_resize. intros Hr. res_step. destruct a as [cur mx]. res_step. destruct a as [cur' mx']. res_step.
  revert Hr. apply foldM_keeps; [intros s x s' Hs; by apply vars_update_built|]. destruct Hb as [Hn Hd]. split; [done|].
  intros d Hne. simpl. rewrite lookup_insert_ne by done. by apply Hd.
Qed.

Lemma storeVar_built dims name vals a b os os' :
  built dims (obs_group_ os) -> storeVar name vals a b os = Ok os' -> built dims (obs_group_ os').
Proof.
  intros Hb. unfold storeVar. intros Hr. do 2 res_step.
  assert (E : obs_group_ a1 = obs_group_ os).
  { destruct (known_fe_selections_ os !! _); [by inv_res|]. res_step. destruct a2. by inv_res. }
  destruct (known_fe_selections_ a1 !! _) as [fe|]; [|done]. destruct (known_be_selections_ a1 !! _) as [be|]; [|done].
  res_step. inv_res. simpl. rewrite E in *. by eapply vars_update_built.
Qed.

Lemma init_var_built dims (s s' : FrameRead F D * ObsSpace F) name :
  built dims (obs_group_ s.2) -> init_var p src s name = Ok s' -> built dims (obs_group_ s'.2).
Proof.
  destruct s as [st os]. unfold init_var. intros Hb. destruct (is_skipped name); intros Hr; [by inv_res|]. do 5 res_step.
  destruct a3 as [[vals|] st']; [|by inv_res]. res_step. inv_res. by eapply storeVar_built.
Qed.

Lemma frame_loop_built dims fuel first (st : FrameRead F D) os st' os' :
  built dims (obs_group_ os) -> frame_loop p src fuel first st os = Ok (st', os') -> built dims (obs_group_ os').
Proof.
  revert first st os. induction fuel as [|fuel IH]; intros first st os Hb; cbn [frame_loop]; intros Hr; res_step; destruct a as [[|] st1];
    try done; try (by inv_res).
  res_step. res_step. destruct a0 as [st2 os2]. eapply IH; [|exact Hr].
  apply (foldM_keeps _ (fun s => built dims (obs_group_ s.2))) in Hr2; [exact Hr2|intros s x s'; apply init_var_built|].
  simpl. by eapply resizeLocation_built.
Qed.

Lemma createVariables_built dims frame g g' : built dims g -> createVariables frame g = Ok g' -> built dims g'.
Proof.
  intros Hb. unfold createVariables. apply foldM_keeps; [|done]. intros s x s' Hs. unfold create_var.
  destruct (is_skipped x); intros Hr; [by inv_res|]. res_step. destruct (supportedType _); [|by inv_res]. by eapply createWithScales_built.
Qed.

Lemma group_dims_listed dims l (dims0 : gmap string (Z * Z)) : foldM (group_dim p src) dims0 l = Ok dims ->
  forall d, is_Some (dims !! d) -> is_Some (dims0 !! d) \/ d ∈ l.
Proof.
  revert dims0. induction l as [|x l IH]; intros dims0; cbn [foldM]; intros Hr d Hd; [inv_res; by left|].
  res_step. unfold group_dim in Hr0. res_step. destruct a0 as [z mx]. inv_res.
  destruct (IH _ Hr d Hd) as [Hi|Hi]; [|right; by right]. destruct (decide (d = x)) as [->|Hne]; [right; left|].
  rewrite lookup_insert_ne in Hi by done. by left.
Qed.

(** The group of the ObsSpace has the dimensions of the source, and a variable
    only when it is listed. *)
Lemma initFromObsSource_built m nlocs ts lats lons latFill lonFill fuel d0 st os :
  source_ok p src m nlocs ts lats lons latFill lonFill -> initFromObsSource (D := D) p src fuel d0 = Ok (st, os) ->
  (forall name, is_Some (g_vars (obs_group_ os) !! name) -> name ∈ g_names (obs_group_ os)) /\
  (forall d, d <> "Location" -> g_dims (obs_group_ os) !! d = (fun z => (z.1, z.1)) <$> g_dims src !! d).
Proof.
  intros Hsrc. unfold initFromObsSource, createObsGroupFromObsFrame. intros Hr. res_step.
  destruct (group_dims_ok p src m nlocs ts lats lons latFill lonFill Hsrc) as (dims & Hd & Hdims). rewrite Hd in Hr. cbn [mbind res_bind] in Hr.
  do 2 res_step. eapply frame_loop_built in Hr as [H1 H2].
  - split; [exact H1|]. intros d Hne. rewrite H2 by done. destruct (g_dims src !! d) as [[z mx]|] eqn:E.
    + rewrite (Hdims _ _ _ E). unfold obs_group_dim. by rewrite decide_False.
    + apply eq_None_not_Some. intros Hs. destruct (group_dims_listed _ _ _ Hd d Hs) as [[? Hx]|Hx]; [by rewrite lookup_empty in Hx|].
      apply (so_dims _ _ _ _ _ _ _ _ _ Hsrc) in Hx as [? Hx]. congruence.
  - simpl. eapply createVariables_built; [|exact Hr2]. split; [|done]. intros name [? Hx]. simpl in Hx. by rewrite lookup_empty in Hx.
Qed.
End built.

(** * The lists of variables *)

Section lists.
Context {V F : Type} `{VL : VariableLists V} `{!VariableListsLaws V}.
Implicit Types (cfg : Config V) (g : ObsGroup F).

(** The variables of the group ObsValue are those of the source. *)
Lemma group_names_ObsValue (src : ObsGroup F) :
  omap (path_in "ObsValue") (group_names src) = omap (path_in "ObsValue") (g_names src).
Proof.
  unfold group_names, frame_names. rewrite List.filter_app, omap_app.
  replace (omap (path_in "ObsValue") (List.filter _ (if derived src then _ else _))) with (@nil string)
    by (destruct (derived src); by vm_compute). rewrite app_nil_r.
  induction (g_names src) as [|x l IH]; [done|]. change (x :: l) with ([x] ++ l). rewrite List.filter_app, !omap_app, IH.
  f_equal. cbn [List.filter]. destruct (is_skipped x) eqn:E; cbn [negb]; [|done].
  unfold is_skipped in E. apply orb_true_iff in E as [E|E]; apply bool_decide_eq_true in E; by subst.
Qed.

Lemma existsb_omap {A B} (f : A -> option B) l :
  existsb (fun x => match f x with Some _ => true | None => false end) l = match omap f l with [] => false | _ => true end.
Proof. induction l as [|x l IH]; cbn; [done|]. destruct (f x); cbn; [done|exact IH]. Qed.

Lemma observed_variables_source cfg (src g : ObsGroup F) : g_names g = group_names src ->
  observed_variables cfg g = observed_variables cfg src.
Proof.
  intros Hn. unfold observed_variables, group_exists, group_vars. by rewrite !existsb_omap, Hn, group_names_ObsValue.
Qed.

(** The check of the simulated variables. *)
Lemma check_simulated_ok (obsvars : V) l : (forall v, v ∈ l -> v ∈ vl_variables obsvars) -> check_simulated obsvars l = Ok ().
Proof.
  unfold check_simulated. intros Hl. rewrite (foldM_Ok _ (fun _ _ => ()) (fun _ => True)); [by destruct (foldl _ _ _)|done|].
  intros s x _ Hx. split; [|done]. by rewrite (proj2 (vl_has_spec _ _) (Hl x Hx)).
Qed.

Lemma check_simulated_throws (obsvars : V) l v : v ∈ l -> v ∉ vl_variables obsvars -> exists msg, check_simulated obsvars l = Throw (EUserError msg).
Proof.
  unfold check_simulated. intros Hin Hno. induction l as [|x l IH]; [by apply elem_of_nil in Hin|]. cbn [foldM].
  destruct (vl_has obsvars x) eqn:E; cbn [mbind res_bind]; [|by eexists]. apply IH.
  apply elem_of_cons in Hin as [->|?]; [|done]. by apply vl_has_spec in E.
Qed.

Definition all_variables cfg g (v : string) : Prop :=
  v ∈ vl_variables (observed_variables cfg g) \/ v ∈ vl_variables (derivedSimVars cfg).

Lemma add_derived_ok cfg g :
  vl_variables (derivedSimVars cfg) = [] \/ vl_channels (derivedSimVars cfg) = vl_channels (observed_variables cfg g) ->
  exists obsvars derived, add_derived cfg (observed_variables cfg g) = Ok (obsvars, derived) /\
    (forall v, v ∈ vl_variables obsvars <-> all_variables cfg g v) /\
    (forall v, v ∈ vl_variables derived <-> v ∈ vl_variables (derivedSimVars cfg)).
Proof.
  intros Hc. unfold add_derived, all_variables. destruct (vl_variables (derivedSimVars cfg)) as [|x l] eqn:E; cbn [length Nat.eqb negb].
  - eexists _, _. split_and!; [done| |].
    + intros v. rewrite elem_of_nil. tauto.
    + intros v. by rewrite vl_new_spec.
  - destruct Hc as [|Hc]; [done|]. rewrite bool_decide_true by done. eexists _, _. split_and!; [done| |].
    + intros v. by rewrite vl_add_spec, E.
    + by rewrite E.
Qed.
End lists.

(** * One rank *)

(** A channel number that is listed has an index. *)
Lemma channel_index (chans : list Z) c : c ∈ chans -> exists k, fillChanNumToIndexMap chans !! c = Some k /\ k < length chans.
Proof.
  unfold fillChanNumToIndexMap. induction chans as [|x l IH] using rev_ind; [by intros ?%elem_of_nil|].
  rewrite imap_app, foldl_app, length_app. cbn. intros [Hc|Hc]%elem_of_app.
  - destruct (IH Hc) as (k & Hk & Hlt). destruct (decide (c = x)) as [->|Hne].
    + rewrite lookup_insert_eq. eexists. split; [done|lia].
    + rewrite lookup_insert_ne by done. exists k. split; [done|lia].
  - apply list_elem_of_singleton in Hc as ->. rewrite lookup_insert_eq. eexists. split; [done|lia].
Qed.

Lemma mapR_all {A B} (f : A -> res B) (l : list A) : Forall (fun x => exists y, f x = Ok y) l ->
  exists ys, mapR f l = Ok ys /\ length ys = length l.
Proof.
  induction 1 as [|x l (y & Hy) _ (ys & Hys & Hl)]; [by exists []|]. exists (y :: ys). cbn [mapR]. rewrite Hy. cbn [mbind res_bind].
  rewrite Hys. cbn [mbind res_bind length]. by rewrite Hl.
Qed.

Section rank.
Context {F DT D V : Type} `{FO : FloatOps F} `{DO : DateTimeOps DT} `{MV : MissingValues F} `{RD : ReaderDist D (F * F)}.
Context `{FL : FloatOrder F} `{!StrictWeak (f_ltb (F := F))} `{FI : FloatOfInt64 F} `{VL : VariableLists V} `{!VariableListsLaws V} `{EqDecision DT}.
Context (p : ReadParams DT) (src : ObsGroup F) (cfg : Config V) (chanNumbers : list Z).
Context (m nlocs : nat) (ts : list Z) (lats lons : list F) (latFill lonFill : F).
Context (Hsrc : source_ok p src m nlocs ts lats lons latFill lonFill).

Notation one_pass := (one_pass p src nlocs ts lats lons latFill lonFill).
Notation frame_col := (frame_col src nlocs ts).

(** A name without a channel, or with the number of a channel of the file. *)
Definition name_ok (v : string) : Prop :=
  extractChannelSuffixIfPresent v = Ok None \/
  exists base chan mx, v = channel_name base chan /\ (0 <= chan < 2 ^ 31)%Z /\ chan ∈ chanNumbers /\
    g_dims src !! ChannelVarName = Some (Z.of_nat (length chanNumbers), mx) /\ shape nlocs [Z.of_nat (length chanNumbers)].

(** There is neither a variable nor a scale of this name in the source. *)
Definition absent (name : string) : Prop := name ∉ frame_names src /\ g_dims src !! name = None.

(** No sorting, sorting by date, or by a float along Location. *)
Definition sort_ok : Prop :=
  obsSortVar cfg = "" \/
  (missingSortValueTreatment cfg <> IGNORE_MISSING /\
   ((obsSortVar cfg = "dateTime" /\ absent (fullVarName "DerivedMetaData" "dateTime")) \/
    (obsSortVar cfg <> "dateTime" /\ absent (fullVarName ("Derived" +:+ obsSortGroup cfg) (obsSortVar cfg)) /\
     is_skipped (fullVarName (obsSortGroup cfg) (obsSortVar cfg)) = false /\
     exists fv vals, location_column src (fullVarName (obsSortGroup cfg) (obsSortVar cfg)) float_t (map VFloat vals) fv))).

(** A configuration that fits the source. *)
Record config_ok : Prop := {
  cf_simulated : forall v, v ∈ vl_variables (simVars cfg) -> all_variables cfg src v;
  cf_channels : vl_variables (derivedSimVars cfg) = [] \/ vl_channels (derivedSimVars cfg) = vl_channels (observed_variables cfg src);
  cf_names : forall v, all_variables cfg src v -> name_ok v;
  cf_errors : forall v, absent (fullVarName "DerivedDerivedObsError" v);
  cf_sort : sort_ok
}.

Lemma mine_small (d0 d : D) mine : one_pass d0 = Ok (d, mine) -> length mine <= nlocs.
Proof.
  intros Hd. unfold ObsSpaceSource.one_pass in Hd.
  destruct (distribute_sub p src m nlocs ts lats lons latFill lonFill Hsrc _ _ _ _ Hd) as [Hs Hsub]; [apply numbered_sorted|].
  rewrite <-(length_fmap fst). apply sorted_length; [done|]. apply list.Forall_forall. intros i (x & -> & Hx)%list_elem_of_fmap.
  apply Hsub, (list_elem_of_fmap_2 fst) in Hx. rewrite numbered_locs in Hx. apply elem_of_List_filter in Hx as [Hx _]. apply elem_of_seq in Hx. lia.
Qed.

(** What the reader leaves on this rank. *)
Record rank_group (mine : list (nat * nat)) (g : ObsGroup F) : Prop := {
  rg_holds : group_holds src nlocs ts (fun c data => data = final_data c mine.*1) (length mine) g;
  rg_location : g_dims g !! "Location" = Some (Z.of_nat (length mine), Unlimited);
  rg_dims : forall d, d <> "Location" -> g_dims g !! d = (fun z => (z.1, z.1)) <$> g_dims src !! d;
  rg_names : g_names g = group_names src;
  rg_vars : forall name, is_Some (g_vars g !! name) -> name ∈ group_names src
}.

Lemma group_absent mine g name : rank_group mine g -> absent name -> name <> "Location" -> exists_var g name = false.
Proof.
  intros [_ _ Hd _ Hv] [Hn Hs] Hne. unfold exists_var, vars_exists. apply orb_false_iff. split; apply bool_decide_false.
  - intros Hx%Hv. unfold group_names in Hx. apply elem_of_List_filter in Hx as [Hx _]. done.
  - rewrite Hd, Hs by done. by intros [].
Qed.

Lemma rank_reads (d0 d : D) mine fuel : one_pass d0 = Ok (d, mine) -> Z.to_nat (maxVarSize0 src) <= fuel ->
  exists st os, initFromObsSource p src fuel d0 = Ok (st, os) /\ dist_ (tally_ st) = d /\
    tally_at p src nlocs ts lats lons latFill lonFill d0 nlocs mine (tally_ st) /\ rank_group mine (obs_group_ os).
Proof.
  intros Hd Hf. destruct (one_pass_ok p src nlocs ts lats lons latFill lonFill m d0 d mine fuel Hsrc Hd Hf) as (st & os & Hi & H1 & H2 & H3).
  destruct (one_pass_location p src nlocs ts lats lons latFill lonFill m d0 d mine fuel st os Hsrc Hd Hf Hi) as [H4 H5].
  destruct (initFromObsSource_built p src m nlocs ts lats lons latFill lonFill fuel d0 st os Hsrc Hi) as [H6 H7].
  exists st, os. split_and!; [done..|]. split; [done..|]. intros name Hn. rewrite <-H5. by apply H6.
Qed.

Lemma record_dims_ok mine g : rank_group mine g ->
  exists i, record_dims g (length mine) = Ok i /\ dim_id_size_ i !! Location = Some (length mine).
Proof.
  intros [Hh _ _ _ Hv]. unfold record_dims, set_dim_size, get_dim_name.
  change (dim_at (dim_id_size_ ObsDimInfo_new) Location) with (Ok 0). cbn [mbind res_bind dim_id_name_ dim_id_size_ dim_name_id_].
  change (dim_at (dim_id_name_ ObsDimInfo_new) Channel) with (Ok "Channel"). cbn [mbind res_bind].
  destruct (exists_var g "Channel") eqn:E; [|eexists; split; [done|apply lookup_insert_eq]].
  assert (Hs : exists z, first_dimension g "Channel" = Ok z).
  { unfold first_dimension. destruct (g_dims g !! "Channel") as [[z mx]|] eqn:Ed; [by eexists|].
    unfold exists_var, vars_exists in E. rewrite Ed in E. apply orb_true_iff in E as [E|E]; apply bool_decide_eq_true in E; [|by destruct E].
    apply Hv in E as Hn. apply (group_names_col p src m nlocs ts lats lons latFill lonFill Hsrc) in Hn as [Hsk [c Hc]].
    destruct (Hh _ _ Hc Hsk) as (fv & data & Hfv & Hg & _). unfold vars_open. rewrite Hfv. cbn [mbind res_bind].
    rewrite (arr_dims _ _ _ _ (vi_array _ _ _ _ _ _ _ _ Hg)). by eexists. }
  destruct Hs as [z ->]. cbn [mbind res_bind].
  unfold dim_at. rewrite lookup_insert_ne by done. change (dim_id_size_ ObsDimInfo_new !! Channel) with (Some 0). cbn [mbind res_bind].
  eexists. split; [reflexivity|]. simpl. rewrite lookup_insert_ne by done. apply lookup_insert_eq.
Qed.

(** ** The index of the records *)

Lemma final_typed (P : Val F -> Prop) c idx : Forall P (col_data c) -> P (missing_val (col_type c)) -> Forall P (final_data c idx).
Proof.
  intros Hd Hm. rewrite list.Forall_forall in Hd. apply list.Forall_forall. unfold final_data. intros x (y & -> & Hy)%list_elem_of_fmap.
  assert (Hin : y ∈ col_data c).
  { destruct (by_location c); [|done]. unfold rows_at in Hy. apply elem_of_concat_map in Hy as (i & _ & Hy).
    unfold slice in Hy. by eapply subseteq_drop, subseteq_take. }
  unfold convert. destruct (col_fill c) as [fill|]; [|by apply Hd]. destruct (is_missing fill y); [done|by apply Hd].
Qed.

(** A column along Location of values of one type is one in the ObsSpace. *)
Lemma column_holds mine g name c : rank_group mine g -> frame_col name = Some c -> is_skipped name = false ->
  col_dims c = ["Location"] -> col_rest c = [] ->
  holds g name ["Location"] (col_type c) (length mine) [] (final_data c mine.*1) /\ length (final_data c mine.*1) = length mine.
Proof.
  intros Hg Hc Hsk Hd Hr. destruct (rg_holds _ _ Hg _ _ Hc Hsk) as (fv & data & Hfv & Hgv & ->).
  assert (Hb : by_location c = true) by (unfold by_location; rewrite Hd; by apply bool_decide_true).
  pose proof (var_inv_length _ _ _ _ _ _ _ _ Hgv) as Hl. destruct Hgv as [H1 H2 _ _ _ Ha]. unfold group_rows in *. rewrite Hb, Hr in *.
  split; [exists fv; split_and!; congruence|]. rewrite Hl. unfold row_size, prodZ. simpl. lia.
Qed.

Lemma date_column : exists c, frame_col "MetaData/dateTime" = Some c /\ col_dims c = ["Location"] /\ col_rest c = [] /\
  col_type c = int64_t /\ Forall (fun x => exists y, val_int64 x = Ok y) (col_data c).
Proof.
  assert (Hv : Forall (fun x : Val F => exists y, val_int64 x = Ok y) (map VInt64 ts)) by (apply Forall_map, list.Forall_true; by eexists).
  assert (Hder : derived src = true -> frame_col "MetaData/dateTime" = Some (dt_col nlocs ts)).
  { intros E. unfold ObsFrameReadSpec.frame_col. by rewrite (dt_not_in_src src), E. }
  destruct (so_times _ _ _ _ _ _ _ _ _ Hsrc) as [(_ & fv & Hc)|[(E & _)|(E & _)]].
  - exists (var_col fv). destruct (location_column_col p src m nlocs ts lats lons latFill lonFill Hsrc _ _ _ _ Hc) as (_ & H1 & _ & H2 & _).
    destruct Hc as (_ & H3 & H4 & H5). split_and!; [done..|]. simpl. by rewrite H5.
  - exists (dt_col nlocs ts). split_and!; [|done..]. apply Hder. unfold derived. by rewrite E.
  - exists (dt_col nlocs ts). split_and!; [|done..]. apply Hder. unfold derived. by rewrite E, orb_true_r.
Qed.

Lemma sort_values_ok mine g : rank_group mine g -> sort_ok -> obsSortVar cfg <> "" ->
  exists vals flags, sort_values p cfg g ∅ (length mine) = Ok (vals, flags) /\ length vals = length mine /\ length flags = length mine.
Proof.
  intros Hg [Hs|(_ & Hs)] Hne; [done|]. unfold sort_values. destruct Hs as [(-> & Habs)|(Hd & Habs & Hsk & fv & vals & Hc)].
  - rewrite bool_decide_true by done. destruct date_column as (c & Hc & H1 & H2 & H3 & H4).
    destruct (column_holds mine g _ c Hg Hc eq_refl H1 H2) as [Hh Hl]. rewrite H3 in Hh. unfold get_db_DateTime.
    rewrite (load_whole g ∅ int64_t "MetaData" "dateTime" _ _ _ _ false Hh) by (right; by eapply group_absent). cbn [mbind res_bind].
    destruct Hh as (fv & Hfv & _). unfold vars_open. change ("MetaData" +:+ "/" +:+ "dateTime") with "MetaData/dateTime".
    change (fullVarName "MetaData" "dateTime") with "MetaData/dateTime" in Hfv. rewrite Hfv. cbn [mbind res_bind].
    destruct (mapR_all val_int64 (final_data c mine.*1)) as (offs & Ho & Hol); [apply final_typed; [done|rewrite H3; by eexists]|].
    rewrite Ho. cbn [mbind res_bind]. set (dates := convertEpochDtToDtime _ _).
    assert (Hdl : length dates = length mine) by (unfold dates, convertEpochDtToDtime; rewrite length_map; lia).
    match goal with |- context [mapR ?f (seq 0 _)] => destruct (mapR_all f (seq 0 (length mine))) as (l & El & Hll) end.
    { apply list.Forall_forall. intros i Hi%elem_of_seq. destruct (lookup_lt_is_Some_2 dates i) as [x Hx]; [lia|].
      destruct (lookup_lt_is_Some_2 dates 0) as [y Hy]; [lia|].
      rewrite (vec_get_Some _ _ _ Hx). cbn [mbind res_bind]. rewrite (vec_get_Some _ _ _ Hy). by eexists. }
    rewrite El. cbn [mbind res_bind]. rewrite length_seq in Hll. eexists _, _. split_and!; [reflexivity| |]; by rewrite length_fmap.
  - rewrite bool_decide_false by done.
    destruct (location_column_col p src m nlocs ts lats lons latFill lonFill Hsrc _ _ _ _ Hc) as (_ & Hfc & _ & H2 & _).
    destruct (column_holds mine g _ _ Hg Hfc Hsk) as [Hh Hl]; [by destruct Hc as (_ & ? & _)|done|].
    destruct Hc as (_ & _ & Ht & Hv). change (col_type (var_col fv)) with (dtype_ (fv_var fv)) in Hh. rewrite Ht in Hh.
    rewrite (load_whole g ∅ float_t _ _ _ _ _ _ false Hh) by (right; by eapply group_absent). cbn [mbind res_bind].
    destruct (mapR_all val_float (final_data (var_col fv) mine.*1)) as (l & -> & Hll).
    { apply final_typed; simpl; [rewrite Hv; apply Forall_map, list.Forall_true; by eexists|rewrite Ht; by eexists]. }
    cbn [mbind res_bind]. eexists _, _. split_and!; [reflexivity|lia|]. unfold sort_flags. rewrite length_map. lia.
Qed.

Lemma build_index_ok mine g : rank_group mine g -> sort_ok ->
  exists recidx, build_index p cfg g ∅ (length mine) mine.*2 = Ok (recidx, negb (bool_decide (obsSortVar cfg = ""))) /\
    index_splits mine.*2 recidx.
Proof.
  intros Hg Hs. unfold build_index. assert (Hl : length mine.*2 = length mine) by apply length_fmap. rewrite <-Hl.
  case_bool_decide as E; cbn [negb].
  - destruct (unsorted_partition mine.*2) as (recidx & -> & Hp). by exists recidx.
  - destruct (sort_values_ok mine g Hg Hs E) as (vals & flags & Hv & H1 & H2). rewrite Hl, Hv, <-Hl. cbn [mbind res_bind].
    destruct (sorted_partition (missingSortValueTreatment cfg) (bool_decide (obsSortOrder cfg = "ascending")) mine.*2 vals flags)
      as (recidx & -> & Hp); [congruence..| |by exists recidx].
    intros Hi. by destruct Hs as [|[? _]].
Qed.

(** ** The constructor before the extension *)

Record rank_built (mine : list (nat * nat)) (ns : NewSpace V F) : Prop := {
  rb_group : rank_group mine (sp_group (ns_space ns));
  rb_nlocs : sp_nlocs (ns_space ns) = length mine;
  rb_indx : sp_indx (ns_space ns) = mine.*1;
  rb_recnums : sp_recnums (ns_space ns) = mine.*2;
  rb_gnlocs : sp_gnlocs (ns_space ns) = length (kept p ts lats lons latFill lonFill 0 nlocs);
  rb_recidx : index_splits mine.*2 (sp_recidx (ns_space ns));
  rb_location : dim_id_size_ (dim_info_ ns) !! Location = Some (length mine);
  rb_obsvars : forall v, v ∈ vl_variables (ns_obsvars ns) <-> all_variables cfg src v;
  rb_initial : initial_obsvars_ ns = observed_variables cfg src;
  rb_derived : forall v, v ∈ vl_variables (derived_obsvars_ ns) <-> v ∈ vl_variables (derivedSimVars cfg);
  rb_assim : assimvars_ ns = simVars cfg;
  rb_chans : ns_chan_num_to_index ns =
    if exists_var (sp_group (ns_space ns)) ChannelVarName then fillChanNumToIndexMap chanNumbers else ∅
}.

Lemma construct_rank_ok (d0 d : D) mine fuel : config_ok -> one_pass d0 = Ok (d, mine) -> Z.to_nat (maxVarSize0 src) <= fuel ->
  exists ns, construct_rank p src cfg chanNumbers fuel d0 = Ok (d, ns) /\ rank_built mine ns.
Proof.
  intros [Hsim Hch _ _ Hsort] Hd Hf. destruct (rank_reads d0 d mine fuel Hd Hf) as (st & os & Hi & Hdist & Ht & Hg).
  unfold construct_rank. rewrite Hi. cbn [mbind res_bind].
  rewrite (ta_nlocs _ _ _ _ _ _ _ _ _ _ _ _ Ht), Nat2Z.id, (ta_recnums _ _ _ _ _ _ _ _ _ _ _ _ Ht).
  destruct (record_dims_ok mine _ Hg) as (i & -> & Hi'). cbn [mbind res_bind].
  rewrite (observed_variables_source cfg src _ (rg_names _ _ Hg)).
  destruct (add_derived_ok cfg src Hch) as (obsvars & derived & -> & Hobs & Hder). cbn [mbind res_bind].
  rewrite check_simulated_ok by (intros v Hv; by apply Hobs, Hsim). cbn [mbind res_bind].
  destruct (build_index_ok mine _ Hg Hsort) as (recidx & -> & Hp). cbn [mbind res_bind].
  eexists. split; [by rewrite Hdist|]. split; simpl; try done.
  - apply (ta_indx _ _ _ _ _ _ _ _ _ _ _ _ Ht).
  - rewrite (ta_gnlocs _ _ _ _ _ _ _ _ _ _ _ _ Ht). apply Nat2Z.id.
Qed.

(** A simulated variable that is neither observed nor derived. *)
Lemma construct_rank_throws (d0 d : D) mine fuel v : one_pass d0 = Ok (d, mine) -> Z.to_nat (maxVarSize0 src) <= fuel ->
  vl_variables (derivedSimVars cfg) = [] \/ vl_channels (derivedSimVars cfg) = vl_channels (observed_variables cfg src) ->
  v ∈ vl_variables (simVars cfg) -> ~ all_variables cfg src v ->
  exists msg, construct_rank p src cfg chanNumbers fuel d0 = Throw (EUserError msg).
Proof.
  intros Hd Hf Hch Hv Hno. destruct (rank_reads d0 d mine fuel Hd Hf) as (st & os & Hi & _ & Ht & Hg).
  unfold construct_rank. rewrite Hi. cbn [mbind res_bind]. rewrite (ta_nlocs _ _ _ _ _ _ _ _ _ _ _ _ Ht), Nat2Z.id.
  destruct (record_dims_ok mine _ Hg) as (i & -> & _). cbn [mbind res_bind].
  rewrite (observed_variables_source cfg src _ (rg_names _ _ Hg)).
  destruct (add_derived_ok cfg src Hch) as (obsvars & derived & -> & Hobs & _). cbn [mbind res_bind].
  destruct (check_simulated_throws obsvars (vl_variables (simVars cfg)) v Hv) as [msg ->]; [by rewrite Hobs|]. by eexists.
Qed.

(** ** The missing observation errors *)

Lemma errors_ready_rank mine g : rank_group mine g -> length mine <= nlocs -> (forall v, absent (fullVarName "DerivedDerivedObsError" v)) ->
  errors_ready (length mine) Unlimited g.
Proof.
  intros Hg Hl Habs. split; [apply (rg_location _ _ Hg)|done| |].
  - destruct (so_lat _ _ _ _ _ _ _ _ _ Hsrc) as (fv & Hc & _).
    destruct (location_column_col p src m nlocs ts lats lons latFill lonFill Hsrc _ _ _ _ Hc) as (_ & _ & _ & _ & _ & _ & _ & Ha).
    by eapply shape_le, Hl; eapply arr_shape.
  - intros v. by eapply group_absent.
Qed.

Lemma error_name_rank mine g v : rank_group mine g -> length mine <= nlocs -> name_ok v ->
  error_name (if exists_var g ChannelVarName then fillChanNumToIndexMap chanNumbers else ∅) (length mine) (length chanNumbers) g v.
Proof.
  intros Hg Hl [Hv|(base & chan & mx & -> & Hc & Hin & Hd & Hs)]; [by left|right].
  destruct (channel_index chanNumbers chan Hin) as (k & Hk & Hlt). assert (Hdg := rg_dims _ _ Hg ChannelVarName ltac:(done)). rewrite Hd in Hdg.
  assert (He : exists_var g ChannelVarName = true) by (unfold exists_var; rewrite Hdg; apply orb_true_iff; right; by apply bool_decide_true).
  rewrite He. exists base, chan, k. split_and!; try done; [lia|lia|]. by eapply shape_le.
Qed.

Lemma finish_rank_ok mine ns : config_ok -> length mine <= nlocs -> rank_built mine ns ->
  exists ns', finish_rank ns (ns_space ns) = Ok ns' /\
    ns' = set_space ns (with_group (ns_space ns) (sp_group (ns_space ns'))) (dim_info_ ns') /\
    dim_id_size_ (dim_info_ ns') !! Location = Some (length mine) /\
    (forall v, all_variables cfg src v -> has (sp_group (ns_space ns')) "ObsError" v false = Ok true) /\
    forall name, g_vars (sp_group (ns_space ns')) !! name = g_vars (sp_group (ns_space ns)) !! name \/
      (g_vars (sp_group (ns_space ns)) !! name = None /\ exists fv, g_vars (sp_group (ns_space ns')) !! name = Some fv /\ all_missing (length mine) fv).
Proof.
  intros Hcfg Hl []. unfold finish_rank, set_dim_size, dim_at. rewrite rb_location0, rb_nlocs0. cbn [mbind res_bind].
  destruct (createMissingObsErrors_ok (ns_chan_num_to_index ns) (length mine) (length chanNumbers) Unlimited (sp_group (ns_space ns))
    (vl_variables (ns_obsvars ns))) as (g' & -> & H1 & H2).
  - by apply errors_ready_rank, Hcfg.
  - apply list.Forall_forall. intros v Hv. rewrite rb_chans0. apply error_name_rank; [done..|]. by apply Hcfg, rb_obsvars0.
  - cbn [mbind res_bind]. eexists. split; [reflexivity|]. simpl. split_and!; [done|by rewrite lookup_insert_eq| |done].
    intros v Hv. apply H1. left. by apply rb_obsvars0.
Qed.
End rank.

(** Dates that are in the derived group only can be loaded as offsets, but not as
    dates: the units are looked for in the variable of the group itself. *)
Theorem derived_dates_unreadable {F DT} `{FO : FloatOps F} `{DO : DateTimeOps DT} `{MV : MissingValues F} (g : ObsGroup F) (cm : gmap Z nat)
    (epoch : DT) (group name : string) (dims : list string) (n : nat) (rest : list Z) (data : list (Val F)) :
  holds g (fullVarName ("Derived" +:+ group) name) dims int64_t n rest data -> g_vars g !! fullVarName group name = None ->
  loadVar g cm int64_t group name [] false = Ok data /\
  exists msg, get_db_DateTime g cm epoch group name [] false = Throw (EException msg).
Proof.
  intros Hh Hno. pose proof (holds_exists _ _ _ _ _ _ _ Hh) as He. destruct Hh as (fv & Hfv & _ & Ht & Ha).
  assert (Hl : loadVar g cm int64_t group name [] false = Ok data).
  { unfold loadVar, splitChanSuffix. rewrite He. cbn [orb negb]. rewrite andb_false_r. cbn [mbind res_bind]. unfold groupToUse. rewrite He. cbn [orb negb].
    unfold vars_open. rewrite Hfv. cbn [mbind res_bind]. rewrite (bool_decide_true ([] = [])), andb_false_r by done. rewrite <-Ht. by eapply read_all. }
  split; [exact Hl|]. unfold get_db_DateTime. rewrite Hl. cbn [mbind res_bind]. unfold vars_open, fullVarName in *. rewrite Hno. by eexists.
Qed.

(** * All ranks *)

Lemma mapR_Forall2 {A B C} (f : A -> res B) (Q : C -> B -> Prop) (R : A -> C -> Prop) l cs :
  Forall2 R l cs -> (forall x c, R x c -> exists y, f x = Ok y /\ Q c y) -> exists ys, mapR f l = Ok ys /\ Forall2 Q cs ys.
Proof.
  intros Hl Hf. induction Hl as [|x c l cs Hx _ (ys & Hys & HQ)]; [by exists []|]. destruct (Hf x c Hx) as (y & Hy & Hc).
  exists (y :: ys). cbn [mapR]. rewrite Hy. cbn [mbind res_bind]. rewrite Hys. split; [done|by constructor].
Qed.

Section claims.
Context {F DT D V : Type} `{FO : FloatOps F} `{DO : DateTimeOps DT} `{MV : MissingValues F} `{RD : ReaderDist D (F * F)}.
Context `{FL : FloatOrder F} `{!StrictWeak (f_ltb (F := F))} `{FI : FloatOfInt64 F} `{VL : VariableLists V} `{!VariableListsLaws V}.
Context `{EqDecision DT} `{MC : MpiComm}.
Context (p : ReadParams DT) (src : ObsGroup F) (cfg : Config V) (chanNumbers : list Z).
Context (m nlocs : nat) (ts : list Z) (lats lons : list F) (latFill lonFill : F).

Notation one_pass := (one_pass p src nlocs ts lats lons latFill lonFill).
Notation source_ok := (source_ok p src m nlocs ts lats lons latFill lonFill).

Lemma construct_ranks_ok fuel (dists : list D) outs :
  source_ok -> config_ok src cfg chanNumbers nlocs -> Forall2 (fun d out => one_pass d = Ok out) dists outs -> Z.to_nat (maxVarSize0 src) <= fuel ->
  exists ranks, mapR (construct_rank p src cfg chanNumbers fuel) dists = Ok ranks /\ map fst ranks = outs.*1 /\
    Forall2 (fun out r => length out.2 <= nlocs /\ StronglySorted lt out.2.*1 /\
      rank_built p src cfg chanNumbers nlocs ts lats lons latFill lonFill out.2 r.2) outs ranks.
Proof.
  intros Hsrc Hcfg Hd Hf. destruct (mapR_Forall2 (construct_rank p src cfg chanNumbers fuel)
    (fun out r => r.1 = out.1 /\ length out.2 <= nlocs /\ StronglySorted lt out.2.*1 /\
       rank_built p src cfg chanNumbers nlocs ts lats lons latFill lonFill out.2 r.2) _ _ _ Hd)
    as (ranks & Hr & HR).
  - intros d [d' mine] Ho. destruct (construct_rank_ok p src cfg chanNumbers m nlocs ts lats lons latFill lonFill Hsrc d d' mine fuel Hcfg Ho Hf)
      as (ns & Hc & Hb). exists (d', ns). split_and!; [done|done| | |done].
    + by eapply (mine_small p src m nlocs ts lats lons latFill lonFill Hsrc).
    + eapply (distribute_sub p src m nlocs ts lats lons latFill lonFill Hsrc); [exact Ho|apply numbered_sorted].
  - exists ranks. split_and!; [done| |eapply Forall2_impl; [exact HR|]; by intros out r (_ & ? & ? & ?)].
    clear -HR. induction HR as [|? ? ? ? (E & _) _ IH]; [done|]. simpl. by rewrite E, IH.
Qed.

(** C4: The constructor of ObsSpace succeeds on all ranks for a well-formed source
    and a configuration that fits it, without an extension. Every rank holds the
    locations the distribution gives it with their records, the index of the
    records, sorted or not, partitions them, the observed variables are those of
    the configuration (or of the file) with the derived ones, among them all
    simulated variables, each has an observation error, and every variable of the
    source has the values of this rank. *)
Theorem obsspace_constructed (dists : list D) (outs : list (D * list (nat * nat))) (collect : list D -> res Distribution)
    (dist : Distribution) (fuel : nat) :
  source_ok -> config_ok src cfg chanNumbers nlocs -> obsExtend cfg = None ->
  Forall2 (fun d out => one_pass d = Ok out) dists outs -> collect outs.*1 = Ok dist -> Z.to_nat (maxVarSize0 src) <= fuel ->
  exists spaces, ObsSpace_new p src cfg collect chanNumbers fuel dists = Ok (dist, spaces) /\
    Forall2 (fun out ns =>
      let mine := out.2 in let s := ns_space ns in let g := sp_group s in
      sp_indx s = mine.*1 /\ sp_recnums s = mine.*2 /\ get_dim_size (dim_info_ ns) Location = Ok (length mine) /\
      index_splits (sp_recnums s) (sp_recidx s) /\
      (forall v, v ∈ vl_variables (ns_obsvars ns) <->
        v ∈ vl_variables (observed_variables cfg src) \/ v ∈ vl_variables (derivedSimVars cfg)) /\
      assimvars_ ns = simVars cfg /\ (forall v, v ∈ vl_variables (simVars cfg) -> v ∈ vl_variables (ns_obsvars ns)) /\
      (forall v, v ∈ vl_variables (ns_obsvars ns) -> has g "ObsError" v false = Ok true) /\
      forall name c, frame_col src nlocs ts name = Some c -> is_skipped name = false ->
        exists fv, g_vars g !! name = Some fv /\ fv_dims fv = col_dims c /\ dtype_ (fv_var fv) = col_type c /\
          var_attr_data_ (var_data_ (fv_var fv)) = final_data c (sp_indx s)) outs spaces.
Proof.
  intros Hsrc Hcfg Hext Hd Hcol Hf. unfold ObsSpace_new.
  destruct (construct_ranks_ok fuel dists outs Hsrc Hcfg Hd Hf) as (ranks & Hr & E & HR).
  rewrite Hr. cbn [mbind res_bind]. rewrite E, Hcol. cbn [mbind res_bind]. rewrite Hext. cbn [mbind res_bind].
  assert (Hz : zip ranks (map (fun r => ns_space r.2) ranks) = map (fun r => (r, ns_space r.2)) ranks).
  { clear. induction ranks as [|r l IH]; simpl; [done|]. by rewrite IH. }
  rewrite Hz, mapR_map.
  assert (HR' : Forall2 (fun (r : D * NewSpace V F) (out : D * list (nat * nat)) => length out.2 <= nlocs /\
     rank_built p src cfg chanNumbers nlocs ts lats lons latFill lonFill out.2 r.2) ranks outs).
  { apply Forall2_flip. eapply Forall2_impl; [exact HR|]. intros out r (? & ? & ?). by split. }
  match goal with |- exists spaces, _ /\ Forall2 ?Q _ _ =>
    destruct (mapR_Forall2 (fun r => finish_rank r.2 (ns_space r.2)) Q _ _ _ HR') as (news & Hn & HQ) end.
  - intros r [d' mine] [Hl Hb]. simpl in *. destruct (finish_rank_ok p src cfg chanNumbers m nlocs ts lats lons latFill lonFill Hsrc mine r.2 Hcfg Hl Hb)
      as (ns' & Hfin & Eq & Hloc & Herr & Hvars). exists ns'. split; [exact Hfin|]. destruct Hb. rewrite Eq in *. simpl in *.
    unfold get_dim_size, dim_at. rewrite Hloc, rb_recnums0, rb_indx0, rb_assim0. split_and!; try done.
    + intros v Hv. by apply rb_obsvars0, Hcfg.
    + intros v Hv. by apply Herr, rb_obsvars0.
    + intros name c Hc Hsk. destruct (rg_holds _ _ _ _ _ rb_group0 _ _ Hc Hsk) as (fv & data & Hfv & Hgv & ->). exists fv.
      destruct (Hvars name) as [->|[Hno _]]; [|congruence]. split_and!; [done|apply Hgv|apply Hgv|].
      by rewrite (arr_data _ _ _ _ (vi_array _ _ _ _ _ _ _ _ Hgv)).
  - exists news. split; [|exact HQ]. rewrite Hn. done.
Qed.

(** C31: A simulated variable that is neither observed nor derived makes the
    constructor throw a user error, whatever else is in the configuration. *)
Theorem unobserved_variable_refused (d d' : D) (mine : list (nat * nat)) (dists : list D) (collect : list D -> res Distribution)
    (fuel : nat) (v : string) :
  source_ok -> one_pass d = Ok (d', mine) -> Z.to_nat (maxVarSize0 src) <= fuel ->
  vl_variables (derivedSimVars cfg) = [] \/ vl_channels (derivedSimVars cfg) = vl_channels (observed_variables cfg src) ->
  v ∈ vl_variables (simVars cfg) -> v ∉ vl_variables (observed_variables cfg src) -> v ∉ vl_variables (derivedSimVars cfg) ->
  exists msg, ObsSpace_new p src cfg collect chanNumbers fuel (d :: dists) = Throw (EUserError msg).
Proof.
  intros Hsrc Hd Hf Hch Hv H1 H2.
  destruct (construct_rank_throws p src cfg chanNumbers m nlocs ts lats lons latFill lonFill Hsrc d d' mine fuel v Hd Hf Hch Hv) as [msg Hm].
  { intros [?|?]; done. }
  exists msg. unfold ObsSpace_new. cbn [mapR]. by rewrite Hm.
Qed.

(** Derived variables with channels cannot be used without observed variables: the
    empty list that stands for them has no channels, and the assertion that both
    lists have the same channels fails. *)
Theorem derived_alone_asserts (d d' : D) (mine : list (nat * nat)) (dists : list D) (collect : list D -> res Distribution) (fuel : nat) :
  source_ok -> one_pass d = Ok (d', mine) -> Z.to_nat (maxVarSize0 src) <= fuel ->
  vl_channels (ObservedVars cfg) = [] -> vl_variables (derivedSimVars cfg) <> [] -> vl_channels (derivedSimVars cfg) <> [] ->
  ObsSpace_new p src cfg collect chanNumbers fuel (d :: dists) = Throw EAssert.
Proof.
  intros Hsrc Hd Hf Ho Hv Hc.
  destruct (rank_reads p src m nlocs ts lats lons latFill lonFill Hsrc d d' mine fuel Hd Hf) as (st & os & Hi & _ & Ht & Hg).
  assert (construct_rank p src cfg chanNumbers fuel d = Throw EAssert) as E; [|unfold ObsSpace_new; cbn [mapR]; by rewrite E].
  unfold construct_rank. rewrite Hi. cbn [mbind res_bind]. rewrite (ta_nlocs _ _ _ _ _ _ _ _ _ _ _ _ Ht), Nat2Z.id.
  destruct (record_dims_ok p src m nlocs ts lats lons latFill lonFill Hsrc mine _ Hg) as (i & -> & _). cbn [mbind res_bind].
  unfold observed_variables, add_derived. destruct (vl_variables (derivedSimVars cfg)); [done|]. cbn [length].
  rewrite Nat.add_succ_r. cbn [Nat.eqb negb]. by rewrite bool_decide_false by congruence.
Qed.

Lemma channel_name_not s base chan : extractChannelSuffixIfPresent s = Ok None -> (0 <= chan < 2 ^ 31)%Z -> channel_name base chan <> s.
Proof. intros Hs Hc E. rewrite <-E, extract_channel_name in Hs by done. done. Qed.

Lemma load_before_channels mine (g : ObsGroup F) group base chan c z : rank_group src nlocs ts mine g -> (0 <= chan < 2 ^ 31)%Z ->
  frame_col src nlocs ts (fullVarName group base) = Some c -> is_skipped (fullVarName group base) = false ->
  col_dims c = ["Location"; ChannelVarName] -> col_rest c <> [] -> g_dims src !! ChannelVarName = Some z ->
  absent src (fullVarName group (channel_name base chan)) -> absent src (fullVarName ("Derived" +:+ group) (channel_name base chan)) ->
  absent src (fullVarName ("Derived" +:+ group) base) ->
  exists msg, loadVar g ∅ float_t group (channel_name base chan) [] false = Throw (EException msg).
Proof.
  intros Hg Hc Hcol Hsk Hd Hr Hz Ha1 Ha2 Ha3. assert (Hne : forall a b, fullVarName a b <> "Location").
  { intros a b E. apply (f_equal no_slash) in E. unfold fullVarName in E. change (no_slash "Location") with true in E.
    clear -E. induction a as [|x a IH]; [done|]. cbn in E. apply andb_true_iff in E as [_ E]. by apply IH. }
  assert (Hex : exists_var g ChannelVarName = true).
  { unfold exists_var. rewrite (rg_dims _ _ _ _ _ Hg) by done. rewrite Hz. apply orb_true_iff. right. by apply bool_decide_true. }
  destruct (rg_holds _ _ _ _ _ Hg _ _ Hcol Hsk) as (fv & data & Hfv & Hgv & _).
  unfold loadVar. rewrite split_channel; [|done|eapply group_absent; eauto..]. cbn [mbind res_bind].
  rewrite visible_group by (right; eapply group_absent; eauto). unfold vars_open. rewrite Hfv. cbn [mbind res_bind]. rewrite Hex.
  rewrite (vi_dims _ _ _ _ _ _ _ _ Hgv), Hd, (arr_dims _ _ _ _ (vi_array _ _ _ _ _ _ _ _ Hgv)).
  destruct (col_rest c) as [|r rest]; [done|]. cbn [length Nat.ltb Nat.leb andb].
  rewrite bool_decide_true by done. cbn [andb]. rewrite bool_decide_false by done. cbn [negb]. by eexists.
Qed.

(** C30: The records cannot be sorted by one channel of a variable: the index is
    built before the numbers of the channels are known, so the constructor
    throws for every sort variable that names a channel of a variable along
    Location and Channel. *)
Theorem sort_by_channel_throws (d d' : D) (mine : list (nat * nat)) (dists : list D) (collect : list D -> res Distribution)
    (fuel : nat) (base : string) (chan : Z) (c : Col F) (z : Z * Z) :
  let group := obsSortGroup cfg in
  source_ok -> one_pass d = Ok (d', mine) -> Z.to_nat (maxVarSize0 src) <= fuel ->
  vl_variables (derivedSimVars cfg) = [] \/ vl_channels (derivedSimVars cfg) = vl_channels (observed_variables cfg src) ->
  (forall v, v ∈ vl_variables (simVars cfg) -> all_variables cfg src v) ->
  obsSortVar cfg = channel_name base chan -> (0 <= chan < 2 ^ 31)%Z ->
  frame_col src nlocs ts (fullVarName group base) = Some c -> is_skipped (fullVarName group base) = false ->
  col_dims c = ["Location"; ChannelVarName] -> col_rest c <> [] -> g_dims src !! ChannelVarName = Some z ->
  absent src (fullVarName group (channel_name base chan)) -> absent src (fullVarName ("Derived" +:+ group) (channel_name base chan)) ->
  absent src (fullVarName ("Derived" +:+ group) base) ->
  exists msg, ObsSpace_new p src cfg collect chanNumbers fuel (d :: dists) = Throw (EException msg).
Proof.
  intros group Hsrc Hd Hf Hch Hsim Hsv Hc Hcol Hsk Hdims Hr Hz Ha1 Ha2 Ha3.
  destruct (rank_reads p src m nlocs ts lats lons latFill lonFill Hsrc d d' mine fuel Hd Hf) as (st & os & Hi & _ & Ht & Hg).
  destruct (load_before_channels mine _ group base chan c z Hg Hc Hcol Hsk Hdims Hr Hz Ha1 Ha2 Ha3) as [msg Hm]. exists msg.
  assert (construct_rank p src cfg chanNumbers fuel d = Throw (EException msg)) as E; [|unfold ObsSpace_new; cbn [mapR]; by rewrite E].
  unfold construct_rank. rewrite Hi. cbn [mbind res_bind]. rewrite (ta_nlocs _ _ _ _ _ _ _ _ _ _ _ _ Ht), Nat2Z.id.
  destruct (record_dims_ok p src m nlocs ts lats lons latFill lonFill Hsrc mine _ Hg) as (i & -> & _). cbn [mbind res_bind].
  rewrite (observed_variables_source cfg src _ (rg_names _ _ _ _ _ Hg)).
  destruct (add_derived_ok cfg src Hch) as (obsvars & derived & -> & Hobs & _). cbn [mbind res_bind].
  rewrite check_simulated_ok by (intros v Hv; by apply Hobs, Hsim). cbn [mbind res_bind].
  unfold build_index, sort_values. rewrite Hsv.
  rewrite (bool_decide_false (channel_name base chan = "")) by (apply channel_name_not; done). cbn [negb].
  rewrite (bool_decide_false (channel_name base chan = "dateTime")) by (apply channel_name_not; done).
  fold group. by rewrite Hm.
Qed.
End claims.

(** The source of two channels and five locations of the reader, with lists of
    names for the variables. *)
Module ConstructorSample.
Import ObsSpaceSource.Sample.

#[export] Existing Instance reference_comm.
#[export] Instance FloatOrder_Z : FloatOrder Z := Z.ltb.
#[export] Instance StrictWeak_Z : StrictWeak (f_ltb (F := Z)).
Proof. split; unfold f_ltb, FloatOrder_Z; intros; rewrite ?Z.ltb_lt, ?Z.ltb_ge in *; lia. Qed.
#[export] Instance FloatOfInt64_Z : FloatOfInt64 Z := fun z => z.

Definition with_channels (names : list string) (chans : list Z) : list string :=
  match chans with [] => names | _ => concat (map (fun v => map (channel_name v) chans) names) end.
#[export] Instance VariableLists_pair : VariableLists (list string * list Z) := {|
  vl_variables := fst; vl_channels := snd; vl_new names chans := (with_channels names chans, chans);
  vl_add v w := (v.1 ++ filter (fun x => x ∉ v.1) w.1, v.2); vl_has v x := bool_decide (x ∈ v.1) |}.
#[export] Instance VariableListsLaws_pair : VariableListsLaws (list string * list Z).
Proof.
  split; simpl.
  - intros v x. apply bool_decide_eq_true.
  - intros v w x. rewrite elem_of_app, list_elem_of_filter. destruct (decide (x ∈ v.1)); tauto.
  - done.
  - intros names [|c chans] x Hne; [done|]. unfold with_channels. rewrite elem_of_concat_map. setoid_rewrite list_elem_of_fmap. split.
    + intros (v & Hv & k & -> & Hk). eauto.
    + intros (v & k & Hv & Hk & ->). eauto.
Qed.

Notation V := (list string * list Z)%type.

(** All variables of the file, channels 7 and 9, sorted by date. *)
Definition config : Config V :=
  {| engine_type := "H5File"; ObservedVars := vl_new [] []; derivedSimVars := vl_new [] [];
     simVars := vl_new ["brightnessTemperature"] [7; 9]%Z; obsSortVar := "dateTime"; obsSortGroup := "MetaData"; obsSortOrder := "descending";
     missingSortValueTreatment := SORT; obsExtend := None |}.
Definition chanNumbers : list Z := [7; 9; 11]%Z.

Lemma src_ok : source_ok (params 2) src 2 5 times lats lons 1000%Z 1000%Z.
Proof. apply (source_is_ok 2 lats (Some 1000%Z)); [lia|reflexivity]. Qed.

(** A name that differs from all of the source. *)
Lemma distinct_absent name : Forall (fun x => x <> name) (frame_names src ++ ["Location"; "Channel"]) -> absent src name.
Proof.
  intros Hf. rewrite list.Forall_forall in Hf. split.
  - intros Hin. apply (Hf name); [|done]. apply elem_of_app. by left.
  - apply not_elem_of_list_to_map. intros Hin. apply (Hf name); [|done]. apply elem_of_app. right. exact Hin.
Qed.
Ltac absent_name := apply distinct_absent; repeat constructor; discriminate.

Lemma channel_ok base chan : (0 <= chan < 2 ^ 31)%Z -> chan ∈ chanNumbers -> name_ok src chanNumbers 5 (channel_name base chan).
Proof.
  intros H1 H2. right. exists base, chan, 3%Z. split_and!; try done; [lia|lia|]. by apply shape_check.
Qed.

Lemma config_fits : config_ok src config chanNumbers 5.
Proof.
  assert (Hv : forall v, all_variables config src v <-> v ∈ ["brightnessTemperature_7"; "brightnessTemperature_9"]).
  { intros v. unfold all_variables. change (vl_variables (derivedSimVars config)) with (@nil string). rewrite elem_of_nil.
    replace (vl_variables (observed_variables config src)) with ["brightnessTemperature_7"; "brightnessTemperature_9"] by (vm_compute; reflexivity). tauto. }
  split.
  - intros v Hin. apply Hv. exact Hin.
  - by left.
  - intros v Hin%Hv. rewrite !elem_of_cons, elem_of_nil in Hin. destruct Hin as [->|[->|[]]].
    + apply (channel_ok "brightnessTemperature" 7); [lia|left].
    + apply (channel_ok "brightnessTemperature" 9); [lia|right; left].
  - intros v. absent_name.
  - right. split; [discriminate|]. left. split; [reflexivity|]. absent_name.
Qed.

Definition sample_collect (ds : list (nat * NonoverlappingDistribution)) : res Distribution :=
  Ok (Nonoverlapping_dist (RoundRobin_isMyRecord 2) (Nonoverlapping_computePatchLocs ds.*2)).

Definition build (cfg : Config V) (dists : list (nat * NonoverlappingDistribution)) :=
  ObsSpace_new (RD := roundrobin_reader 2 (Z * Z)) (params 2) src cfg sample_collect chanNumbers 5 dists.

(** Two ranks: the latitudes of rank 0 are those of its locations 0, 2 and 3. *)
Lemma obsspace_constructed_witness : exists dist ns0 ns1, build config [rank0; rank1] = Ok (dist, [ns0; ns1]) /\
  sp_indx (ns_space ns0) = [0; 2; 3] /\ sp_indx (ns_space ns1) = [1] /\
  has (sp_group (ns_space ns1)) "ObsError" "brightnessTemperature_9" false = Ok true /\
  exists fv, g_vars (sp_group (ns_space ns0)) !! "MetaData/latitude" = Some fv /\ var_attr_data_ (var_data_ (fv_var fv)) = map VFloat [1; 3; 4]%Z.
Proof.
  destruct (obsspace_constructed (RD := roundrobin_reader 2 (Z * Z)) (params 2) src config chanNumbers 2 5 times lats lons 1000%Z 1000%Z
    [rank0; rank1]
    [((0, {| numLocationsOnThisRank_ := 3; numLocationsOnLowerRanks_ := 0 |}), [(0, 0); (2, 0); (3, 2)]);
     ((1, {| numLocationsOnThisRank_ := 1; numLocationsOnLowerRanks_ := 0 |}), [(1, 1)])]
    sample_collect (Nonoverlapping_dist (RoundRobin_isMyRecord 2) (Nonoverlapping_computePatchLocs
      [{| numLocationsOnThisRank_ := 3; numLocationsOnLowerRanks_ := 0 |}; {| numLocationsOnThisRank_ := 1; numLocationsOnLowerRanks_ := 0 |}])) 5)
    as (spaces & Hn & Hs).
  - exact src_ok.
  - exact config_fits.
  - reflexivity.
  - repeat constructor; vm_compute; reflexivity.
  - reflexivity.
  - vm_compute. lia.
  - apply Forall2_cons_inv_l in Hs as (ns0 & spaces1 & H0 & Hs & ->). apply Forall2_cons_inv_l in Hs as (ns1 & spaces2 & H1 & Hs & ->).
    apply Forall2_nil_inv_l in Hs as ->. cbv zeta in H0, H1. destruct H0 as (I0 & _ & _ & _ & _ & _ & _ & _ & G0), H1 as (I1 & _ & _ & _ & O1 & _ & _ & E1 & _).
    eexists _, ns0, ns1. split; [exact Hn|]. split_and!; [exact I0|exact I1| |].
    + apply E1, O1. left. vm_compute. right. left.
    + destruct (G0 "MetaData/latitude" _ eq_refl eq_refl) as (fv & Hfv & _ & _ & Hd). exists fv. split; [exact Hfv|]. rewrite Hd, I0. vm_compute. reflexivity.
Defined.

(** A date that was derived. *)
Lemma derived_dates_unreadable_witness : exists g data,
  createWithScales "DerivedMetaData/launchTime" ["Channel"] int64_t (Some (VInt64 (-99)%Z)) src = Ok g /\
  loadVar g ∅ int64_t "MetaData" "launchTime" [] false = Ok data /\
  exists msg, get_db_DateTime g ∅ 0%Z "MetaData" "launchTime" [] false = Throw (EException msg).
Proof.
  destruct (createWithScales_inv "DerivedMetaData/launchTime" ["Channel"] int64_t (Some (VInt64 (-99)%Z)) src 3 3%Z []) as (fv & data & Hc & Hv).
  - unfold supported. rewrite !elem_of_cons. tauto.
  - by apply shape_check.
  - done.
  - reflexivity.
  - eexists _, data. split; [exact Hc|]. apply (derived_dates_unreadable _ _ 0%Z "MetaData" "launchTime" ["Channel"] 3 []).
    + exists fv. destruct Hv as [H1 H2 _ _ _ Ha]. split_and!; [apply lookup_insert_eq|done..].
    + cbn [g_vars]. rewrite lookup_insert_ne by done. reflexivity.
Defined.

(** A configuration with the wind among the simulated variables, which the file
    does not have. *)
Definition wind : Config V :=
  {| engine_type := "H5File"; ObservedVars := vl_new [] []; derivedSimVars := vl_new [] []; simVars := vl_new ["windEastward"] [];
     obsSortVar := ""; obsSortGroup := "MetaData"; obsSortOrder := "ascending"; missingSortValueTreatment := SORT; obsExtend := None |}.

Lemma unobserved_variable_refused_witness : exists msg, build wind [rank0; rank1] = Throw (EUserError msg).
Proof.
  apply (unobserved_variable_refused (RD := roundrobin_reader 2 (Z * Z)) (params 2) src wind chanNumbers 2 5 times lats lons 1000%Z 1000%Z
    rank0 (0, {| numLocationsOnThisRank_ := 3; numLocationsOnLowerRanks_ := 0 |}) [(0, 0); (2, 0); (3, 2)] [rank1] sample_collect 5 "windEastward").
  - exact src_ok.
  - vm_compute. reflexivity.
  - vm_compute. lia.
  - by left.
  - left.
  - replace (vl_variables (observed_variables wind src)) with ["brightnessTemperature"] by (vm_compute; reflexivity).
    intros E%list_elem_of_singleton. discriminate.
  - apply not_elem_of_nil.
Defined.

(** Derived radiances alone. *)
Definition radiances : Config V :=
  {| engine_type := "H5File"; ObservedVars := vl_new [] []; derivedSimVars := vl_new ["radiance"] [7]%Z; simVars := vl_new ["radiance"] [7]%Z;
     obsSortVar := ""; obsSortGroup := "MetaData"; obsSortOrder := "ascending"; missingSortValueTreatment := SORT; obsExtend := None |}.

Lemma derived_alone_asserts_witness : build radiances [rank0; rank1] = Throw EAssert.
Proof.
  apply (derived_alone_asserts (RD := roundrobin_reader 2 (Z * Z)) (params 2) src radiances chanNumbers 2 5 times lats lons 1000%Z 1000%Z
    rank0 (0, {| numLocationsOnThisRank_ := 3; numLocationsOnLowerRanks_ := 0 |}) [(0, 0); (2, 0); (3, 2)] [rank1] sample_collect 5).
  - exact src_ok.
  - vm_compute. reflexivity.
  - vm_compute. lia.
  - reflexivity.
  - discriminate.
  - discriminate.
Defined.

(** The records sorted by channel 9. *)
Definition by_channel : Config V :=
  {| engine_type := "H5File"; ObservedVars := vl_new [] []; derivedSimVars := vl_new [] []; simVars := vl_new ["brightnessTemperature"] [7; 9]%Z;
     obsSortVar := "brightnessTemperature_9"; obsSortGroup := "ObsValue"; obsSortOrder := "ascending"; missingSortValueTreatment := SORT;
     obsExtend := None |}.

Lemma sort_by_channel_throws_witness : exists msg, build by_channel [rank0; rank1] = Throw (EException msg).
Proof.
  destruct (g_vars src !! "ObsValue/brightnessTemperature") as [fv|] eqn:Efv; [|vm_compute in Efv; discriminate].
  assert (Ed : fv_dims fv = ["Location"; "Channel"] /\ dimensions_ (fv_var fv) = [5; 3]%Z)
    by (split; vm_compute in Efv; injection Efv as <-; reflexivity). destruct Ed as [Ed Er].
  apply (sort_by_channel_throws (RD := roundrobin_reader 2 (Z * Z)) (params 2) src by_channel chanNumbers 2 5 times lats lons 1000%Z 1000%Z
    rank0 (0, {| numLocationsOnThisRank_ := 3; numLocationsOnLowerRanks_ := 0 |}) [(0, 0); (2, 0); (3, 2)] [rank1] sample_collect 5
    "brightnessTemperature" 9 (var_col fv) (3, 3)%Z).
  - exact src_ok.
  - vm_compute. reflexivity.
  - vm_compute. lia.
  - by left.
  - intros v Hv. left. replace (vl_variables (observed_variables by_channel src)) with (vl_variables (simVars by_channel)) by (vm_compute; reflexivity). exact Hv.
  - vm_compute. reflexivity.
  - lia.
  - unfold frame_col. change (fullVarName (obsSortGroup by_channel) "brightnessTemperature") with "ObsValue/brightnessTemperature". by rewrite Efv.
  - reflexivity.
  - exact Ed.
  - simpl. by rewrite Er.
  - reflexivity.
  - absent_name.
  - absent_name.
  - absent_name.
Defined.
End ConstructorSample.
