(* ===== verification/ObsSpaceNewExtend.v ===== *)
(** The constructor of ObsSpace with an extension: reading, distribution,
    records, extension and observation errors together, on all ranks of a
    RoundRobin distribution. *)
From stdpp Require Import base list gmap strings sorting pretty.
From Stdlib Require Import ZArith Ascii.
From S2P Require Import Prelude Mpi Distribution Nonoverlapping Selection VarAttrStore ObsTypes ObsAttributes ObsVariables ObsFrame.
From S2P Require Import ObsFrameRead ObsFrameReadSpec ObsSpaceInit ObsSpaceSource ObsRecords ObsSpaceVars ObsExtend ObsExtendSpec.
From S2P Require Import ObsSpaceNew ObsSpaceNewSpec.

(** * What the extension leaves as it is *)

Section frame.
Context {F : Type} `{FO : FloatOps F} `{MV : MissingValues F}.
Implicit Types (g : ObsGroup F).

(** The names and the dimensions of [g] are those of [g0], but for Location and
    variables of the group MetaData. *)
Definition framed g0 g : Prop :=
  (forall name, is_Some (g_vars g !! name) -> is_Some (g_vars g0 !! name) \/ exists x, name = fullVarName "MetaData" x) /\
  (forall d, d <> "Location" -> g_dims g !! d = g_dims g0 !! d).

Lemma vars_update_framed g0 name f g g' : framed g0 g -> vars_update name f g = Ok g' -> framed g0 g'.
Proof.
  intros [Hn Hd]. unfold vars_update, vars_open. destruct (g_vars g !! name) as [fv|] eqn:E; cbn [mbind res_bind]; intros Hr; [|done].
  res_step. inv_res. split; [|done]. intros x. simpl. destruct (decide (x = name)) as [->|Hne].
  - intros _. apply Hn. by rewrite E.
  - rewrite lookup_insert_ne by done. apply Hn.
Qed.

Lemma resizeLocation_framed g0 n append g g' : framed g0 g -> resizeLocation n append g = Ok g' -> framed g0 g'.
Proof.
  intros Hb. unfold resizeLocation, ObsGroup_resize. intros Hr. res_step. destruct a as [cur mx]. res_step. destruct a as [cur' mx']. res_step.
  revert Hr. apply foldM_keeps; [intros s x s' Hs; by apply vars_update_framed|]. destruct Hb as [Hn Hd]. split; [done|].
  intros d Hne. simpl. rewrite lookup_insert_ne by done. by apply Hd.
Qed.

Lemma extend_var_framed g0 B s v s' : framed g0 s.1 -> extend_var B s v = Ok s' -> framed g0 s'.1.
Proof.
  destruct s as [g m]. simpl. intros Hb. destruct (exists_var g _); intros Hr; [|injection Hr as <-; done].
  do 3 res_step. res_step. destruct a2 as [vals recidx]. res_step. inv_res. by eapply vars_update_framed.
Qed.

Lemma save_framed g0 cm t x vals dims g g' : framed g0 g -> saveVar g cm t "MetaData" x vals dims = Ok g' -> framed g0 g'.
Proof.
  intros Hb. unfold saveVar. rewrite (bool_decide_true ("MetaData" = "MetaData")) by done. cbn [negb andb mbind res_bind]. intros Hr. res_step.
  eapply vars_update_framed; [|exact Hr]. unfold openCreateVar in Hr0. destruct (exists_var g _); [by inv_res|].
  unfold createWithScales in Hr0. repeat res_step. inv_res. destruct Hb as [Hn Hd]. split; [|done]. intros name. simpl.
  destruct (decide (name = fullVarName "MetaData" x)) as [->|Hne]; [right; by eexists|]. rewrite lookup_insert_ne by done. apply Hn.
Qed.

Lemma extend_rank_framed cm vars (s s' : Space F) c ub : extend_rank cm vars s c ub = Ok s' -> framed (sp_group s) (sp_group s').
Proof.
  unfold extend_rank, extend_group. intros Hr. res_step. destruct a as [g recidx]. inv_res. simpl.
  res_step. res_step. destruct a0 as [g1 m1]. res_step. inv_res. eapply save_framed; [|exact Hr2].
  apply (foldM_keeps _ (fun s0 => framed (sp_group s) s0.1)) in Hr1; [exact Hr1|intros ???; apply extend_var_framed|].
  simpl. eapply resizeLocation_framed; [|exact Hr]. split; [by left|done].
Qed.

Lemma mapR_zip_framed cm vars (ss ss' : list (Space F)) (l : list (Companions unit * nat)) :
  mapR (fun '(s, (c, ub)) => extend_rank cm vars s c ub) (zip ss l) = Ok ss' ->
  length ss' <= length ss /\ forall i s s', ss !! i = Some s -> ss' !! i = Some s' -> framed (sp_group s) (sp_group s').
Proof.
  revert l ss'. induction ss as [|s ss IH]; intros l ss'; [intros [= <-]; split; [done|by intros [] ?]|]. destruct l as [|[c ub] l].
  { intros [= <-]. split; [simpl; lia|]. by intros i x y _ ?. }
  cbn [zip zip_with mapR]. intros Hr. do 2 res_step. inv_res. destruct (IH _ _ Hr1) as [Hl Hi]. split; [simpl; lia|].
  intros [|i] x y Hx Hy; simplify_eq/=; [by eapply extend_rank_framed|by eapply Hi].
Qed.

Lemma extendObsSpace_framed `{MpiComm} cm len b vars d (spaces spaces' : list (Space F)) d' :
  extendObsSpace cm len b vars d spaces = Ok (d', spaces') ->
  forall i s s', spaces !! i = Some s -> spaces' !! i = Some s' -> framed (sp_group s) (sp_group s').
Proof.
  unfold extendObsSpace. destruct (forallb _ _); intros Hr.
  - do 2 res_step. res_step. destruct a1 as [o cs]. do 4 res_step. inv_res.
    match goal with Hm : mapR _ (zip spaces _) = Ok _ |- _ => apply mapR_zip_framed in Hm as [_ Hm]; rename Hm into Hfr end.
    intros i s s' Hs Hs'. apply lookup_zip_with_Some in Hs' as (x & n & -> & Hx & _). simpl. by eapply Hfr.
  - destruct (existsb _ _); [done|]. inv_res. intros i s s' Hs Hs'. assert (s' = s) as -> by congruence. split; [by left|done].
Qed.
End frame.

(** * One rank *)

Section rank.
Context {F DT V : Type} `{FO : FloatOps F} `{DO : DateTimeOps DT} `{MV : MissingValues F}.
Context `{VL : VariableLists V}.
Context (p : ReadParams DT) (src : ObsGroup F) (cfg : Config V) (chanNumbers : list Z).
Context (m nlocs : nat) (ts : list Z) (lats lons : list F) (latFill lonFill : F).
Context (nlevs : nat) (vars : list string).
Context (Hsrc : source_ok p src m nlocs ts lats lons latFill lonFill).

Notation rank_built := (rank_built p src cfg chanNumbers nlocs ts lats lons latFill lonFill).
Notation kept := (kept p ts lats lons latFill lonFill 0 nlocs).

(** An extension that fits the source. *)
Record extension_fits : Prop := {
  xf_levels : 0 < nlevs;
  xf_vars : NoDup vars;
  xf_missing : f_eqb missing_float missing_float = true;
  xf_groups : obs_grouping_vars_ p <> [];
  xf_kept : kept <> [];
  xf_shape : forall name c, frame_col src nlocs ts name = Some c -> by_location c = true -> shape (nlocs + nlocs * nlevs) (col_rest c);
  xf_channels : chanNumbers <> [] -> shape (nlocs + nlocs * nlevs) [Z.of_nat (length chanNumbers)];
  xf_new : absent src "MetaData/extendedObsSpace";
  xf_listed : forall v, v ∈ vars -> absent src (fullVarName "MetaData" v) \/
    exists c, frame_col src nlocs ts (fullVarName "MetaData" v) = Some c /\ is_skipped (fullVarName "MetaData" v) = false /\ col_dims c = ["Location"]
}.
Context (Hx : extension_fits).

Lemma recs_of_small (s : Space F) : length (recs_of s) <= length (sp_recnums s).
Proof.
  destruct (uniqueOriginalRecs_spec (sp_recnums s)) as [H1 H2]. apply submseteq_length, NoDup_submseteq.
  - by apply StronglySorted_lt_NoDup.
  - intros r. apply H2.
Qed.

Lemma shape_location : shape (nlocs + nlocs * nlevs) [].
Proof.
  destruct (so_lat _ _ _ _ _ _ _ _ _ Hsrc) as (fv & Hc & _). destruct Hc as (H0 & Hd & Hc).
  destruct (location_column_col p src m nlocs ts lats lons latFill lonFill Hsrc "MetaData/latitude" float_t (map VFloat lats) fv) as (_ & H1 & _ & H2 & _); [done|].
  rewrite <-H2. eapply (xf_shape Hx); [exact H1|]. unfold by_location. simpl. rewrite Hd. by apply bool_decide_true.
Qed.

Lemma space_ok_rank mine ns : StronglySorted lt mine.*1 -> rank_built mine ns -> space_ok (ns_space ns).
Proof.
  intros Hs []. destruct rb_recidx as (_ & Hi & Hne). split.
  - by rewrite rb_nlocs, rb_indx, length_fmap.
  - by rewrite rb_recnums, rb_indx, !length_fmap.
  - by rewrite rb_indx.
  - rewrite rb_gnlocs. pose proof (xf_kept Hx). destruct kept; [done|simpl; lia].
  - intros r [|i l] Hl; [by apply Hne in Hl|]. rewrite rb_recnums. eapply list_elem_of_lookup_2, Hi; [exact Hl|left].
  - rewrite rb_recnums. exact Hi.
Qed.

Lemma var_ready_rank mine g n' name fv : rank_group src nlocs ts mine g -> n' <= nlocs + nlocs * nlevs -> g_vars g !! name = Some fv ->
  var_ready (length mine) n' fv.
Proof.
  intros [Hh _ _ _ Hv] Hle Hfv. assert (Hn : name ∈ group_names src) by (apply Hv; by rewrite Hfv).
  apply (group_names_col p src m nlocs ts lats lons latFill lonFill Hsrc) in Hn as [Hsk [c Hc]].
  destruct (Hh _ _ Hc Hsk) as (fv' & data & Hfv' & Hg & _). assert (fv' = fv) as -> by congruence.
  pose proof (frame_col_ok p src m nlocs ts lats lons latFill lonFill Hsrc _ _ Hc) as Hok.
  destruct (inner_dims p src c Hok) as (d0 & ds & Ed & Hloc & Hlen).
  exists d0, ds, (col_type c), (group_rows c (length mine)), (col_rest c), (group_max c).
  assert (Eb : by_location c = bool_decide (d0 = "Location")) by (unfold by_location; by rewrite Ed).
  split_and!; [|apply Hok|done|done|].
  - unfold gvar in Hg. rewrite Ed in Hg. unfold var_data. by rewrite (arr_data _ _ _ _ (vi_array _ _ _ _ _ _ _ _ Hg)).
  - case_decide as E; [|done]. rewrite bool_decide_true in Eb by done. unfold group_rows, group_max. rewrite Eb. split_and!; [done..|].
    eapply shape_le; [by eapply (xf_shape Hx)|done].
Qed.

Lemma space_ready_rank mine ns : length mine <= nlocs -> rank_built mine ns -> space_ready nlevs vars (ns_space ns).
Proof.
  intros Hl []. pose proof (recs_of_small (ns_space ns)) as Hr. rewrite rb_recnums, length_fmap in Hr. rename rb_group into Hg.
  assert (Hle : length mine + length (recs_of (ns_space ns)) * nlevs <= nlocs + nlocs * nlevs) by nia.
  split; rewrite ?rb_nlocs.
  - split.
    + rewrite (rg_names _ _ _ _ _ Hg). apply NoDup_ListNoDup, List.NoDup_filter, NoDup_ListNoDup.
      apply (frame_names_nodup p src m nlocs ts lats lons latFill lonFill Hsrc).
    + intros name. rewrite (rg_names _ _ _ _ _ Hg). split; [|apply (rg_vars _ _ _ _ _ Hg)].
      intros [Hsk [c Hc]]%(group_names_col p src m nlocs ts lats lons latFill lonFill Hsrc).
      destruct (rg_holds _ _ _ _ _ Hg _ _ Hc Hsk) as (fv & _ & Hfv & _). by eexists.
    + eexists. apply (rg_location _ _ _ _ _ Hg).
    + intros name fv Hfv. by eapply var_ready_rank.
  - eapply group_absent; [exact Hg|apply Hx|done].
  - eapply shape_le; [apply shape_location|done].
  - intros v Hv. destruct (xf_listed Hx v Hv) as [Ha|(c & Hc & Hsk & Hd)]; [left; by eapply group_absent|right].
    destruct (rg_holds _ _ _ _ _ Hg _ _ Hc Hsk) as (fv & data & Hfv & Hgv & _). exists fv. split; [done|]. rewrite <-Hd. apply Hgv.
Qed.

(** The errors are added to the extended group. *)
Lemma finish_framed mine ns (s : Space F) n' : config_ok src cfg chanNumbers nlocs -> rank_built mine ns ->
  framed (sp_group (ns_space ns)) (sp_group s) -> sp_nlocs s = n' -> n' <= nlocs + nlocs * nlevs ->
  g_dims (sp_group s) !! "Location" = Some (Z.of_nat n', Unlimited) ->
  exists ns', finish_rank ns s = Ok ns' /\ ns' = set_space ns (with_group s (sp_group (ns_space ns'))) (dim_info_ ns') /\
    dim_id_size_ (dim_info_ ns') !! Location = Some n' /\
    (forall v, all_variables cfg src v -> has (sp_group (ns_space ns')) "ObsError" v false = Ok true) /\
    forall name fv, g_vars (sp_group s) !! name = Some fv -> g_vars (sp_group (ns_space ns')) !! name = Some fv.
Proof.
  intros Hcfg [] [Hn Hd] Hs Hle Hl. unfold finish_rank, set_dim_size, dim_at. rewrite rb_location, Hs. cbn [mbind res_bind].
  destruct (createMissingObsErrors_ok (ns_chan_num_to_index ns) n' (length chanNumbers) Unlimited (sp_group s) (vl_variables (ns_obsvars ns)))
    as (g' & -> & H1 & H2).
  - split; [done|done|eapply shape_le; [apply shape_location|done]|]. intros v. unfold exists_var, vars_exists. apply orb_false_iff.
    assert (Hab : exists_var (sp_group (ns_space ns)) (fullVarName "DerivedDerivedObsError" v) = false)
      by (eapply group_absent; [exact rb_group|apply Hcfg|done]).
    unfold exists_var, vars_exists in Hab. apply orb_false_iff in Hab as [Ha1 Ha2].
    split; [|by rewrite Hd]. apply bool_decide_false. intros [Hv|[x Hv]]%Hn; [|done]. by rewrite bool_decide_true in Ha1.
  - apply list.Forall_forall. intros v Hv. destruct (cf_names _ _ _ _ Hcfg v) as [He|(base & chan & mx & -> & Hc & Hin & Hdim & _)]; [by apply rb_obsvars|by left|right].
    destruct (channel_index chanNumbers chan Hin) as (k & Hk & Hlt).
    assert (Hdg := rg_dims _ _ _ _ _ rb_group ChannelVarName ltac:(done)). rewrite Hdim in Hdg.
    assert (He : exists_var (sp_group (ns_space ns)) ChannelVarName = true)
      by (unfold exists_var; rewrite Hdg; apply orb_true_iff; right; by apply bool_decide_true).
    rewrite rb_chans, He. exists base, chan, k. split_and!; try done; [lia|lia|by rewrite Hd|].
    eapply shape_le; [apply (xf_channels Hx)|done]. by intros ->.
  - cbn [mbind res_bind]. eexists. split; [reflexivity|]. simpl. split_and!; [done|by rewrite lookup_insert_eq| |].
    + intros v Hv. apply H1. left. by apply rb_obsvars.
    + intros name fv Hfv. destruct (H2 name) as [->|[Hno _]]; [done|congruence].
Qed.

(** A rank after the extension and the errors. *)
Lemma finish_extended mine ns spaces total (s' : Space F) : config_ok src cfg chanNumbers nlocs -> rank_built mine ns -> length mine <= nlocs ->
  framed (sp_group (ns_space ns)) (sp_group s') ->
  extended nlevs spaces (fun s recidx g' recidx' => group_extended (sp_nlocs s) (length (companion_locs nlevs (recs_of s))) (all_recs spaces)
    vars (sp_group s) recidx g' recidx') total (ns_space ns) s' ->
  let new := length (uniqueOriginalRecs mine.*2) * nlevs in
  exists ns', finish_rank ns s' = Ok ns' /\ sp_indx (ns_space ns') = sp_indx s' /\
    length (sp_indx (ns_space ns')) = length mine + new /\ take (length mine) (sp_indx (ns_space ns')) = mine.*1 /\
    get_dim_size (dim_info_ ns') Location = Ok (length mine + new) /\
    (forall v, v ∈ vl_variables (simVars cfg) -> v ∈ vl_variables (ns_obsvars ns')) /\
    (forall v, v ∈ vl_variables (ns_obsvars ns') -> has (sp_group (ns_space ns')) "ObsError" v false = Ok true) /\
    forall name c, frame_col src nlocs ts name = Some c -> is_skipped name = false -> name ∉ map (fullVarName "MetaData") vars ->
      exists fv, g_vars (sp_group (ns_space ns')) !! name = Some fv /\ fv_dims fv = col_dims c /\
        var_data fv = final_data c mine.*1 ++ (if by_location c then replicate (new * col_row c) (missing_val (col_type c)) else []).
Proof.
  intros Hcfg Hb Hl Hfr Hext new. destruct (ex_rest _ _ _ _ _ _ Hext) as (recidx & _ & Hge). rewrite length_companion_locs in Hge.
  pose proof (recs_of_small (ns_space ns)) as Hsm. unfold recs_of in *. rewrite (rb_recnums _ _ _ _ _ _ _ _ _ _ _ _ Hb), (rb_nlocs _ _ _ _ _ _ _ _ _ _ _ _ Hb) in *.
  rewrite length_fmap in Hsm.
  assert (Hn : sp_nlocs s' = length mine + new).
  { rewrite (ex_nlocs _ _ _ _ _ _ Hext). unfold recs_of. by rewrite (rb_recnums _ _ _ _ _ _ _ _ _ _ _ _ Hb), (rb_nlocs _ _ _ _ _ _ _ _ _ _ _ _ Hb). }
  assert (Hi : exists l, sp_indx s' = mine.*1 ++ l /\ length l = new).
  { eexists. rewrite (ex_indx _ _ _ _ _ _ Hext), (rb_indx _ _ _ _ _ _ _ _ _ _ _ _ Hb). split; [done|].
    rewrite length_map, length_companion_locs. unfold recs_of. by rewrite (rb_recnums _ _ _ _ _ _ _ _ _ _ _ _ Hb). }
  destruct Hi as (l & Hi & Hll).
  destruct (finish_framed mine ns s' (length mine + new) Hcfg Hb Hfr Hn ltac:(unfold new; nia) (ge_location _ _ _ _ _ _ _ _ Hge))
    as (ns' & Hfin & Eq & Hloc & Herr & Hvars).
  exists ns'. split; [exact Hfin|]. rewrite Eq in *. simpl in *. unfold get_dim_size, dim_at. rewrite Hloc, Hi.
  rewrite length_app, length_fmap, Hll, take_app_length' by (by rewrite length_fmap). split_and!; try done.
  - intros v Hv. by apply (rb_obsvars _ _ _ _ _ _ _ _ _ _ _ _ Hb), Hcfg.
  - intros v Hv. by apply Herr, (rb_obsvars _ _ _ _ _ _ _ _ _ _ _ _ Hb).
  - intros name c Hc Hsk Hni. destruct (rg_holds _ _ _ _ _ (rb_group _ _ _ _ _ _ _ _ _ _ _ _ Hb) _ _ Hc Hsk) as (fv & data & Hfv & Hgv & ->).
    destruct (ge_var _ _ _ _ _ _ _ _ Hge name fv Hfv) as (fv' & H1 & H2 & _ & H4 & H5 & _). exists fv'.
    assert (Ed : var_data fv = final_data c mine.*1) by apply (arr_data _ _ _ _ (vi_array _ _ _ _ _ _ _ _ Hgv)).
    assert (Eb : along_locations fv = by_location c) by (unfold along_locations, by_location; by rewrite (vi_dims _ _ _ _ _ _ _ _ Hgv)).
    split_and!; [by apply Hvars|rewrite H2; apply Hgv|]. rewrite Eb in *. destruct (by_location c); [|by rewrite H4, app_nil_r].
    rewrite H5 by done. unfold padded, row_of. rewrite Ed, (vi_type _ _ _ _ _ _ _ _ Hgv), (arr_dims _ _ _ _ (vi_array _ _ _ _ _ _ _ _ Hgv)). done.
Qed.
End rank.

(** * All ranks *)

Lemma mapR_zip {A B C} (f : A * B -> res C) (Q : nat -> C -> Prop) (l : list A) (k : list B) : length l = length k ->
  (forall i x y, l !! i = Some x -> k !! i = Some y -> exists z, f (x, y) = Ok z /\ Q i z) ->
  exists zs, mapR f (zip l k) = Ok zs /\ length zs = length l /\ forall i z, zs !! i = Some z -> Q i z.
Proof.
  revert k Q. induction l as [|x l IH]; intros [|y k] Q Hl Hf; simplify_eq/=; [by exists []|].
  destruct (Hf 0 x y eq_refl eq_refl) as (z & Hz & HQ).
  destruct (IH k (fun i => Q (S i)) Hl) as (zs & Hzs & Hlen & Hi); [intros i x' y' Hx Hy; by apply (Hf (S i) x' y')|].
  exists (z :: zs). rewrite Hz. cbn [mbind res_bind]. rewrite Hzs. cbn [mbind res_bind]. split_and!; [done|by simpl; rewrite Hlen|].
  intros [|i] z' Hz'; simplify_eq/=; auto.
Qed.

(** What the RoundRobin objects of the ranks make up after the last frame. *)
Definition roundrobin_collect `{MpiComm} (size : nat) (ds : list (nat * NonoverlappingDistribution)) : res Distribution :=
  Ok (Nonoverlapping_dist (RoundRobin_isMyRecord size) (Nonoverlapping_computePatchLocs ds.*2)).
Definition roundrobin_objects (size : nat) : list (nat * NonoverlappingDistribution) :=
  map (fun rank => (rank, NonoverlappingDistribution_new)) (seq 0 size).

Section claims.
Context {F DT V : Type} `{FO : FloatOps F} `{DO : DateTimeOps DT} `{MV : MissingValues F}.
Context `{FL : FloatOrder F} `{!StrictWeak (f_ltb (F := F))} `{FI : FloatOfInt64 F} `{VL : VariableLists V} `{!VariableListsLaws V}.
Context `{EqDecision DT} `{ML : MpiLaws}.
Context (p : ReadParams DT) (src : ObsGroup F) (cfg : Config V) (chanNumbers : list Z).
Context (m nlocs : nat) (ts : list Z) (lats lons : list F) (latFill lonFill : F).
Context (size nlevs : nat) (vars : list string).

Notation numbered := (numbered p src nlocs ts lats lons latFill lonFill).
Notation isMy := (RoundRobin_isMyRecord size).
Notation source_ok := (source_ok p src m nlocs ts lats lons latFill lonFill).
Notation rank_built := (rank_built p src cfg chanNumbers nlocs ts lats lons latFill lonFill).

(** The locations of a rank with their records. *)
Definition mine_of (rank : nat) : list (nat * nat) := List.filter (fun x => isMy rank x.2) numbered.
Definition object_of (rank : nat) : nat * NonoverlappingDistribution :=
  (rank, foldl (fun s '(rec, loc) => Nonoverlapping_assignRecord (isMy rank) s rec loc) NonoverlappingDistribution_new
    (map (fun '(loc, rec) => (rec, loc)) numbered)).
Definition outs : list (nat * NonoverlappingDistribution * list (nat * nat)) := map (fun rank => (object_of rank, mine_of rank)) (seq 0 size).

Lemma roundrobin_outs :
  Forall2 (fun d out => one_pass (RD := roundrobin_reader size (F * F)) p src nlocs ts lats lons latFill lonFill d = Ok out) (roundrobin_objects size) outs.
Proof.
  unfold roundrobin_objects, outs. apply Forall2_fmap_2, Forall_Forall2_diag, list.Forall_forall. intros rank _.
  pose proof (roundrobin_assign lats lons size rank NonoverlappingDistribution_new numbered) as Ha.
  by apply (distribute_final (RD := roundrobin_reader size (F * F)) (RL := roundrobin_reader_laws size (F * F))) in Ha.
Qed.

Lemma outs_lookup rank out : outs !! rank = Some out -> out = (object_of rank, mine_of rank) /\ rank < size.
Proof.
  unfold outs. rewrite list_lookup_fmap. destruct (seq 0 size !! rank) as [r|] eqn:E; [|done]. apply lookup_seq in E as [-> Hr].
  simpl. by intros [= <-].
Qed.

Lemma outs_distinct : 0 < size -> NoDup (concat (map (fun out => out.2.*1) outs)).
Proof.
  intros Hs. set (recs := map (fun '(loc, rec) => (rec, loc)) numbered).
  assert (Hl : map snd recs = numbered.*1) by (unfold recs; rewrite map_map; apply map_ext; by intros []).
  assert (E : map (fun out => out.2.*1) outs = map (held isMy recs) (seq 0 size)).
  { unfold outs. rewrite map_map. apply map_ext. intros rank. unfold recs. by rewrite held_swap. }
  rewrite E. destruct (assign_all_contract isMy size recs (roundrobin_partitions size Hs) Hs) as [_ H2].
  - rewrite Hl. apply StronglySorted_lt_NoDup, numbered_sorted.
  - rewrite H2, Hl. apply StronglySorted_lt_NoDup, numbered_sorted.
Qed.

Lemma extension_input_ranks (ranks : list ((nat * NonoverlappingDistribution) * NewSpace V F)) :
  0 < size -> source_ok -> extension_fits p src chanNumbers nlocs ts lats lons latFill lonFill nlevs vars ->
  Forall2 (fun out r => length out.2 <= nlocs /\ StronglySorted lt out.2.*1 /\ rank_built out.2 r.2) outs ranks ->
  extension_input nlevs vars (map (fun r => ns_space r.2) ranks) isMy outs.*1.*2.
Proof.
  intros Hs Hsrc Hx HR. pose proof (Forall2_length _ _ _ HR) as Hlen. assert (Ho : length outs = size) by (unfold outs; by rewrite length_map, length_seq).
  assert (Hix : map sp_indx (map (fun r => ns_space r.2) ranks) = map (fun out => out.2.*1) outs).
  { clear -HR. induction HR as [|out r os rs (_ & _ & Hb) _ IH]; [done|]. simpl. rewrite IH. f_equal. apply Hb. }
  split.
  - apply Hx.
  - destruct ranks; [simpl in *; lia|done].
  - apply Forall_map. clear -HR Hx. induction HR as [|out r os rs (_ & Hss & Hb) _ IH]; constructor; [|done]. by eapply space_ok_rank.
  - apply Forall_map. clear -HR Hx Hsrc. induction HR as [|out r os rs (Hl & _ & Hb) _ IH]; constructor; [|done]. by eapply space_ready_rank.
  - apply Hx.
  - apply Hx.
  - rewrite Hix. unfold outs, object_of. rewrite !map_map. apply map_ext. intros rank. simpl. rewrite assign_all_count, held_swap. done.
  - rewrite Hix. by apply outs_distinct.
  - intros rank s r. rewrite list_lookup_fmap. destruct (ranks !! rank) as [x|] eqn:E; [|done]. simpl. intros [= <-].
    destruct (Forall2_lookup_r _ _ _ _ _ HR E) as (out & Hout & _ & _ & Hb). apply outs_lookup in Hout as [-> _].
    rewrite (rb_recnums _ _ _ _ _ _ _ _ _ _ _ _ Hb). intros (y & -> & Hy)%list_elem_of_fmap. simpl in Hy. apply elem_of_List_filter in Hy. tauto.
  - rewrite length_map, <-Hlen, Ho. intros r1 r2 rec H1 H2 E1 E2. destruct (roundrobin_partitions size Hs rec) as (r0 & _ & Hp).
    rewrite Hp in E1, E2 by done. apply Nat.eqb_eq in E1, E2. congruence.
Qed.

(** C5: The constructor of ObsSpace with an extension succeeds on all ranks of a
    RoundRobin distribution for a well-formed source with grouped records: the
    locations of the file are dealt out by record, every rank appends companion
    locations for the records it holds, the distribution of old and new locations
    together keeps its contract, the sizes agree, every observed and derived
    variable has an observation error, and a variable of the source that is not
    listed as filled keeps its values and is missing at the companions. *)
Theorem extended_obsspace_constructed (fuel : nat) :
  source_ok -> config_ok src cfg chanNumbers nlocs -> extension_fits p src chanNumbers nlocs ts lats lons latFill lonFill nlevs vars ->
  obsExtend cfg = Some (Z.of_nat nlevs, vars) -> 0 < size -> Z.to_nat (maxVarSize0 src) <= fuel ->
  exists dist spaces new,
    ObsSpace_new (RD := roundrobin_reader size (F * F)) p src cfg (roundrobin_collect size) chanNumbers fuel (roundrobin_objects size) = Ok (dist, spaces) /\
    DistContract dist (map (fun ns => sp_indx (ns_space ns)) spaces) (concat (map (fun rank => (mine_of rank).*1) (seq 0 size)) ++ new) /\
    length spaces = size /\
    forall rank ns, spaces !! rank = Some ns ->
      let s := ns_space ns in let mine := mine_of rank in
      let total := length mine + length (uniqueOriginalRecs mine.*2) * nlevs in
      length (sp_indx s) = total /\ take (length mine) (sp_indx s) = mine.*1 /\ get_dim_size (dim_info_ ns) Location = Ok total /\
      (forall v, v ∈ vl_variables (simVars cfg) -> v ∈ vl_variables (ns_obsvars ns)) /\
      (forall v, v ∈ vl_variables (ns_obsvars ns) -> has (sp_group s) "ObsError" v false = Ok true) /\
      forall name c, frame_col src nlocs ts name = Some c -> is_skipped name = false -> name ∉ map (fullVarName "MetaData") vars ->
        exists fv, g_vars (sp_group s) !! name = Some fv /\ fv_dims fv = col_dims c /\
          var_data fv = final_data c mine.*1 ++
            (if by_location c then replicate (length (uniqueOriginalRecs mine.*2) * nlevs * col_row c) (missing_val (col_type c)) else []).
Proof.
  intros Hsrc Hcfg Hx Hext Hs Hf. unfold ObsSpace_new.
  destruct (construct_ranks_ok (RD := roundrobin_reader size (F * F)) p src cfg chanNumbers m nlocs ts lats lons latFill lonFill fuel
    (roundrobin_objects size) outs Hsrc Hcfg roundrobin_outs Hf) as (ranks & Hr & E & HR).
  rewrite Hr. cbn [mbind res_bind]. unfold roundrobin_collect at 1. rewrite E. cbn [mbind res_bind]. rewrite Hext, bool_decide_false by apply Hx.
  cbn [negb]. set (cm := match ranks with [] => _ | _ => _ end).
  destruct (extension_ok cm nlevs vars _ isMy _ (extension_input_ranks ranks Hs Hsrc Hx HR)) as (d' & spaces' & He & Hc & Hex & _).
  rewrite He. cbn [mbind res_bind]. pose proof (Forall2_length _ _ _ Hex) as Hl. rewrite length_map in Hl.
  pose proof (Forall2_length _ _ _ HR) as Hlo. unfold outs in Hlo at 1. rewrite length_map, length_seq in Hlo.
  match goal with |- exists dist spaces new, _ /\ _ /\ _ /\ forall rank ns, _ -> ?Q =>
    destruct (mapR_zip (fun '(r, s) => finish_rank r.2 s) (fun rank ns => sp_indx (ns_space ns) = default [] (sp_indx <$> spaces' !! rank) /\ Q) ranks spaces' Hl)
      as (news & Hn & Hnl & HQ) end.
  - intros rank r s' Hrk Hs'. destruct (Forall2_lookup_r _ _ _ _ _ HR Hrk) as (out & Hout & Hle & _ & Hb).
    apply outs_lookup in Hout as [-> _]. assert (Hsp : map (fun r => ns_space r.2) ranks !! rank = Some (ns_space r.2)) by (by rewrite list_lookup_fmap, Hrk).
    pose proof (Forall2_lookup_lr _ _ _ _ _ _ Hex Hsp Hs') as Hexr.
    rewrite Hs'. by apply (finish_extended p src cfg chanNumbers m nlocs ts lats lons latFill lonFill nlevs vars Hsrc Hx (mine_of rank) r.2 _ _ s' Hcfg Hb Hle
      (extendObsSpace_framed _ _ _ _ _ _ _ _ He _ _ _ Hsp Hs') Hexr).
  - eexists d', news, _. split; [by rewrite Hn|]. split_and!; [|lia|intros rank ns Hns; by apply HQ].
    assert (Ei : map (fun ns => sp_indx (ns_space ns)) news = map sp_indx spaces').
    { apply list_eq. intros i. rewrite !list_lookup_fmap. destruct (news !! i) as [ns|] eqn:En.
      - destruct (HQ i ns En) as [Hq _]. simpl. rewrite Hq. destruct (spaces' !! i) eqn:Es; [done|]. apply lookup_lt_Some in En. apply lookup_ge_None in Es. lia.
      - apply lookup_ge_None in En. by rewrite (lookup_ge_None_2 spaces') by lia. }
    assert (Eo : concat (original (map (fun r => ns_space r.2) ranks)) = concat (map (fun rank => (mine_of rank).*1) (seq 0 size))).
    { f_equal. transitivity (map (fun out => out.2.*1) outs); [|unfold outs; by rewrite map_map].
      unfold original. clear -HR. induction HR as [|out r os rs (_ & _ & Hb) _ IH]; [done|]. simpl. rewrite IH. f_equal. apply Hb. }
    rewrite Ei, <-Eo. exact Hc.
Qed.
End claims.

(** The sample of the constructor with a derived variable and two companion
    locations for each record. *)
Module ExtendSample.
Import ObsSpaceSource.Sample ConstructorSample.

Definition extended_config : Config V :=
  {| engine_type := "H5File"; ObservedVars := vl_new ["brightnessTemperature"] [7; 9]%Z; derivedSimVars := vl_new ["radiance"] [7; 9]%Z;
     simVars := vl_new ["radiance"] [9]%Z; obsSortVar := ""; obsSortGroup := "MetaData"; obsSortOrder := "ascending";
     missingSortValueTreatment := SORT; obsExtend := Some (2%Z, ["latitude"; "pressure"]) |}.

Lemma extended_config_fits : config_ok src extended_config chanNumbers 5.
Proof.
  assert (Hv : forall v, all_variables extended_config src v <->
    v ∈ ["brightnessTemperature_7"; "brightnessTemperature_9"] \/ v ∈ ["radiance_7"; "radiance_9"]) by done.
  split.
  - intros v Hin. apply Hv. right. right. exact Hin.
  - right. reflexivity.
  - intros v Hin. apply (proj1 (Hv v)) in Hin. rewrite !elem_of_cons, elem_of_nil in Hin. destruct Hin as [[->|[->|[]]]|[->|[->|[]]]].
    + apply (channel_ok "brightnessTemperature" 7); [lia|left].
    + apply (channel_ok "brightnessTemperature" 9); [lia|right; left].
    + apply (channel_ok "radiance" 7); [lia|left].
    + apply (channel_ok "radiance" 9); [lia|right; left].
  - intros v. absent_name.
  - by left.
Qed.

Lemma extension_is_fit : extension_fits (params 2) src chanNumbers 5 times lats lons 1000%Z 1000%Z 2 ["latitude"; "pressure"].
Proof.
  split.
  - lia.
  - apply (bool_decide_unpack _). vm_compute. exact I.
  - reflexivity.
  - discriminate.
  - vm_compute. discriminate.
  - intros name c Hc Hb.
    pose proof (frame_col_ok (params 2) src 2 5 times lats lons 1000%Z 1000%Z src_ok _ _ Hc) as Hok. unfold frame_col in Hc.
    destruct (g_vars src !! name) as [fv|] eqn:Efv; [|destruct (derived src && _); [injection Hc as <-; by apply shape_check|done]].
    injection Hc as <-. apply elem_of_list_to_map_2 in Efv. unfold variables in Efv. rewrite !elem_of_cons, elem_of_nil in Efv.
    destruct Efv as [H|[H|[H|[H|[H|[H|[]]]]]]]; injection H as _ ->; by apply shape_check.
  - intros _. by apply shape_check.
  - absent_name.
  - intros v Hv. rewrite !elem_of_cons, elem_of_nil in Hv. destruct Hv as [->|[->|[]]].
    + right. eexists. split_and!; reflexivity.
    + left. absent_name.
Qed.

(** Rank 0 has two records and four companion locations, rank 1 one and two. *)
Lemma extended_obsspace_constructed_witness : exists dist ns0 ns1,
  ObsSpace_new (RD := roundrobin_reader 2 (Z * Z)) (params 2) src extended_config (roundrobin_collect 2) chanNumbers 5 [rank0; rank1] =
    Ok (dist, [ns0; ns1]) /\
  length (sp_indx (ns_space ns0)) = 7 /\ get_dim_size (dim_info_ ns1) Location = Ok 3 /\
  has (sp_group (ns_space ns0)) "ObsError" "radiance_9" false = Ok true /\
  exists fv, g_vars (sp_group (ns_space ns1)) !! "MetaData/longitude" = Some fv /\ var_data fv = map VFloat [7; -99; -99]%Z.
Proof.
  destruct (extended_obsspace_constructed (ML := reference_laws) (params 2) src extended_config chanNumbers 2 5 times lats lons 1000%Z 1000%Z
    2 2 ["latitude"; "pressure"] 5) as (dist & spaces & new & Hn & _ & Hl & Hs).
  - exact src_ok.
  - exact extended_config_fits.
  - exact extension_is_fit.
  - reflexivity.
  - lia.
  - vm_compute. lia.
  - destruct spaces as [|ns0 [|ns1 [|]]]; try discriminate Hl. exists dist, ns0, ns1. split; [exact Hn|].
    destruct (Hs 0 ns0 eq_refl) as (I0 & _ & _ & A0 & E0 & _), (Hs 1 ns1 eq_refl) as (_ & _ & D1 & _ & _ & G1).
    split_and!.
    + rewrite I0. vm_compute. reflexivity.
    + rewrite D1. vm_compute. reflexivity.
    + apply E0, A0. left.
    + destruct (G1 "MetaData/longitude" _ eq_refl eq_refl) as (fv & Hfv & _ & Hd).
      { apply (bool_decide_unpack _). vm_compute. exact I. }
      exists fv. split; [exact Hfv|]. rewrite Hd. vm_compute. reflexivity.
Defined.
End ExtendSample.
